(* ===== verification/_CoqProject ===== *)
-Q . S2P
Prelude.v
BigNumber.v
Int128.v
BitVector.v
BinaryHeap.v
Doubles.v
Date.v
Sort.v
SortN.v
Tree.v
TreeOps.v
Array.v
ArrayDeque.v
ArrayOps.v
ArraySort.v
BasicHash.v
HashProbe.v
HashTable.v
HashRehash.v
HashOps.v
HashDict.v
HashRun.v
HashQuery.v
HashCopy.v
Collections.v
CollectionOps.v
Storage.v
StorageHeap.v
StorageTree.v
StorageLeaf.v
StorageFrozen.v
StorageInsert.v
StorageCopy.v
StorageCache.v
StorageRelease.v
StorageUnfrozen.v
StorageCow.v
StorageValues.v
StorageRead.v
StorageWrite.v
StorageCut.v
StorageDelete.v
StorageRoot.v
StorageWorld.v
StorageRun.v
StorageDefects.v
BinaryPList.v
PListBytes.v
PListSafe.v
PListWriter.v
PListBuffer.v
PListFormat.v
PListFlatten.v
PListDecode.v
PListLeaf.v
PListLayout.v
PListRoundtrip.v
PListLookup.v
PListDefects.v
DataSearch.v
DataShift.v
DataFind.v
Data.v
DataOps.v
DataRun.v
DataDefects.v
RunLoop.v
RunLoopBlocks.v
RunLoopTimers.v
RunLoopRun.v
RunLoopSources.v
RunLoopPass.v
RunLoopService.v
