(* ===== verification/Prelude.v ===== *)
(** * A verification library for the CoreFoundation sources under src/RuntimeLoop

    The repository holds Apple's CoreFoundation-Lite in src/RuntimeLoop, the
    Objective-C runtime in src/runtime and an xnu kernel tree.  This library models
    the parts of CoreFoundation that carry an algorithm of their own, function by
    function, and proves what makes them correct.

    ** The program and the files

    CFRunLoop.c is the centre of the directory: a run loop has modes, a mode has
    sources, observers and an array of timers kept in the order of their fire times,
    and a queue of blocks belongs to the loop.  [CFRunLoopRunSpecific] enters a mode
    and calls [__CFRunLoopRun], whose passes notify observers, drain blocks, perform
    sources, wait in the kernel and serve what woke the loop.
    - RunLoop.v: the data ([CFRunLoop], [mode], [source], [observer], [timer] are the
      structs of CFRunLoop.c), the store [world] that holds them by address, and the
      registration side (__CFRunLoopFindMode, CFRunLoopAdd/Remove/Contains for
      sources, observers and timers, the timer array and its arming, common modes,
      invalidation, signals and wake-ups).
    - RunLoopBlocks.v: the block queue at the level of its pointers
      (CFRunLoopPerformBlock, __CFRunLoopDoBlocks).
    - RunLoopTimers.v: the invariant [timers_ok] of the timer arrays and its
      preservation; the insertion index; the deadlines a mode is armed with.
    - RunLoopRun.v: the callouts (__CFRunLoopDoObservers, DoBlocks, DoSources0,
      DoSource1, DoTimer, DoTimers), the loop __CFRunLoopRun ([pass], [ret_val],
      [run_loop], [CFRunLoopRun_]), CFRunLoopRunSpecific, CFRunLoopRun, CFRunLoopStop;
      rescheduling of repeating timers.
    - RunLoopSources.v: the sources a pass serves, through the array that Array.v sorts.
    - RunLoopPass.v: what a pass keeps ([Kept], an interface with two instances, the range
      of the clock and [live]), that it returns, the passes of a run ([went_on]) and the
      value it returns.
    - RunLoopService.v: the timers a pass fires, the state a run leaves.

    The other files model leaf components that CFRunLoop.c and the rest of
    CoreFoundation are built on:
    - Sort.v, SortN.v: CFSortFunctions.c, the merge sort of indexes, its concurrent
      variant (sections that are sorted apart and then merged in odd-even rounds), and
      CFQSortArray and CFMergeSortArray, which sort the indexes of their elements.
    - Array.v: CFArray.c, immutable arrays and arrays in a deque; ArrayDeque.v: how the
      deque makes room; ArrayOps.v: the operations against lists; ArraySort.v: sorting,
      with Sort.v.
    - Tree.v: CFTree.c at the level of its pointers and retain counts, with the
      invariant [forest]; TreeOps.v: the operations against lists of children.
    - BasicHash.v: CFBasicHash.c with CFBasicHashFindBucket.m, the open-addressing hash
      table behind dictionaries, sets and bags.  HashProbe.v: its table sizes are primes
      with the primitive roots the source lists, so a probe sequence meets every bucket;
      HashTable.v: the invariant [table] between the arrays and a list of slots;
      HashRehash.v: rehashing; HashOps.v, HashDict.v: the mutators against an abstract
      dictionary; HashRun.v: runs of operations from creation to deallocation;
      HashQuery.v: the queries, equality and enumeration; HashCopy.v: copies, the integer
      numbering functions, rehashing as an operation of its own.
    - Collections.v: CFDictionary.c, CFSet.c and CFBag.c over BasicHash.v (Modules
      [Dictionary], [HashSet], [Bag]); CollectionOps.v: what they promise their clients.
    - Storage.v: CFStorage.c, the sequence of values in a 2-3 tree of nodes with reference
      counts, which storages share and copy on write; nodes are the [node]s of a [heap] by
      address, the root is inside the storage, byte contents are cells that may be
      uninitialised.  StorageHeap.v and StorageTree.v: the invariant [world] (every count is
      the number of references, a node with two parents is frozen) and the relation
      [tree] between a node and the bytes below it; StorageLeaf.v, StorageFrozen.v,
      StorageUnfrozen.v, StorageInsert.v, StorageCopy.v, StorageCow.v: leaves, insertion below
      frozen and unfrozen nodes, unfreezing copies; StorageCache.v, StorageValues.v,
      StorageRead.v, StorageWrite.v: the cached leaf, CFStorageInsertValues, GetValues and
      ReplaceValues; StorageRelease.v, StorageCut.v, StorageDelete.v, StorageRoot.v:
      releasing, deletion, deallocation; StorageWorld.v: creation; StorageRun.v: sequences of
      operations; StorageDefects.v: runs the code gets wrong.
    - BinaryPList.v: the reader of CFBinaryPList.c, on a [region] of bytes at an address:
      the checks of the trailer, the parser with its cache of objects and its check for
      cycles, the lookups by index and by key.  PListWriter.v: its writer, on a store of
      objects, with the buffer in front of the stream.  PListBytes.v, PListSafe.v: the
      reader on arbitrary bytes; PListBuffer.v, PListFormat.v: the buffer and the file
      format, [document]; PListFlatten.v: the numbering of the objects and the property
      list an object stands for, [denote]; PListDecode.v, PListLeaf.v, PListLayout.v,
      PListRoundtrip.v: reading what was written; PListLookup.v: lookups in what was
      written; PListDefects.v: examples and what the code gets wrong.
    - Data.v: CFData.c, bytes inside the object or in a block of a [heap] of cells that
      may be uninitialised, with CFHashBytes of CFUtilities.c; DataSearch.v: its search with
      the tables of Boyer and Moore.  DataShift.v, DataFind.v: the tables are right and the
      search finds what trying every position finds; DataOps.v: the operations against
      lists of bytes; DataRun.v: the life of a data, copies, equality, hashing, searching;
      DataDefects.v: runs the code gets wrong.
    - BinaryHeap.v: CFBinaryHeap.c, the priority queue.
    - Doubles.v: whole numbers in doubles, with their rounding; Date.v: the Gregorian
      calendar of CFDate.c.
    - BitVector.v: CFBitVector.c.
    - BigNumber.v: CFBigNumber.c, and Int128.v: the 128-bit integers of CFNumber.c,
      whose decimal output BigNumber's parser reads back.

    This file is the prelude: C integers at their width, the [result] of an
    operation, bounded array access, comparison results.

    ** How code is modelled

    - Targets: LP64, little-endian, the Mac branches of the preprocessor, with the
      timer sources of libdispatch and the kernel timers both compiled in.
    - An operation is a function that returns the new state.  [result] separates a
      normal return ([Ok]), a deliberate crash ([Halt], the HALT macro), undefined
      behaviour ([Undef]: an access out of bounds, a read of freed or uninitialised
      memory, a shift or signed arithmetic outside the type where that is noted) and
      an exhausted recursion bound ([NoFuel]).
    - Loops that are not structural carry fuel.  Where the source bounds the loop the
      definition passes enough (10 for a digit of emit128, 66 for the bisection of the
      timer array, the number of missed periods for a repeating timer, the length of
      the block queue, the number of nodes for the recursions of a storage, 18 levels
      more than there are offsets for the parser of binary property lists, the product of
      the lengths for the search in a data), and the theorems prove [Ok], not "if it returns".
      [CFRunLoopRun_] runs until the loop is stopped, finished or timed out and takes
      the number of passes and of spurious wake-ups as fuel; a run without time needs one
      pass, and the wake-ups are bounded by a law of the kernel ([LiveLaws]).
      CFRunLoopAddTimer, AddSource and AddObserver call themselves for each common mode:
      one level is enough, unless the common modes contain themselves, and then no number
      of levels is ([common_modes_recursion]).
    - What is outside src is a parameter with laws: the user's callouts, the clock
      conversions, the kernel's wait and libdispatch ([Env], [EnvLaws], [Kernel],
      [ClockLaws], [TimerSafe], [LiveLaws]), malloc, the comparison and retain callbacks of a heap
      ([HeapOrder]), the equality and hash callbacks of a hash table ([KeyLaws]) and of
      a collection ([KeyCallBackLaws]), the stream that a property list is written to
      ([StreamLaws]), the offset function of a time zone.  Each set of laws has an
      instance ([sample_env], [sample_kernel], [sample_malloc], [pointer_order],
      [word_laws], [null_callback_laws], [write_byte_laws], [next_address_laws]) at which
      the theorems are applied.
    - The garbage collector is not used: the branches for a collectable allocator, its
      write barriers and its weak references are left out.
    - Locks, retain counts of CF objects, Objective-C dispatch, logging and the
      descriptions for the debugger are left out; allocation succeeds.  Assertions
      (CFAssert) are compiled out of a release build and are hypotheses of the theorems.
      Retain, release and other callbacks are events or log entries where they are
      observable.
    - Times are whole seconds.  In the calendar they are doubles, and every operation
      rounds; in the run loop they are dates that the clock conversions take to ticks.

    ** What the theorems show

    - Run loop registration: every operation on timers keeps each mode's array sorted
      by fire time, free of duplicates and in step with the timers' own records; a
      timer is inserted behind the ones that fire no later; arming finds the least
      soft and hard deadlines; invalidation takes a timer out of every mode.
    - Run loop passes: a pass fires exactly the due timers, in the order of their fire
      times, once each, and leaves none due; a repeating timer stays on its grid
      (no drift) and skips missed periods; sources are performed in their order, and
      only one when the caller asked for one; blocks run first-in first-out, once
      each, and the linked list never touches freed memory nor leaks an item; a
      polling run makes one pass and returns, unless the process halts at a repeating
      timer of no ticks; the value a run returns tells what held at the end of its last
      pass, and a stop that it reports is the one it consumes; nested runs restore the
      current mode and the per-run data.
    - Heap: the operations refine a bag with its minimum, GetValues sorts,
      ApplyFunction visits in order.
    - Sorting: every variant returns the one stable sort of its input, for every
      comparator that is a total preorder, whatever the number of cores.
    - Arrays: replacing a range of values refines the replacement in a list, wherever
      the deque moves its regions, with the retains before the releases; the mutators,
      queries, copies, the two sorts and the binary search follow.  Bounds: counts stay
      below [max_count], under which the 32-bit shift and cast of the deque's arithmetic
      are exact.
    - Hash tables: in each of the three probing styles and for every combination of
      arrays, a run of mutators on a new table succeeds, returns what an abstract
      dictionary returns, calls the retain and release callbacks as it says and keeps
      the invariant; a table deallocated at the end has balanced them.  Rehashing keeps
      the entries, copies equal their sources, equality is matching of entries, an
      enumeration meets every key once.  Bounds: at most [max_entries] entries, which is
      the capacity of the table of index [max_idx] - 1; up to that size the products of
      the exponential probing fit a word.  Near the end of the list of tables a table that
      grows aggressively runs past it ([fast_grow_leaves_list]).
    - Dictionaries, sets and bags: lookups after updates, the first of two equal keys at
      creation, counts of bags, the references of a transfer.
    - Storages: insertion, replacement and reading return, act as on a list of bytes and
      leave every other storage of the heap as it was, also when the trees share nodes
      (copy on write); deallocation frees what no other storage holds; in heaps where nothing is
      shared, deletion is deletion from the list, and any sequence of insertions, deletions,
      replacements and reads from creation on gives the values the list gives.  Bounds: value
      sizes from 1 to 12288 bytes, the capacity of a leaf; above it [large_values_never_inserted]
      shows that insertion does not return.
      CFStorageCreateWithSubrange, the enumeration and the equality of storages, and
      deletion in shared trees are modelled and evaluated on examples, without a
      general theorem: StorageDefects.v has runs in which caches and a deletion after a
      copy break the isolation.
    - Binary property lists: the parser returns for every string of bytes, without a load
      outside of it, also for files that contain themselves, and what it makes is well
      typed; the writer produces the document of the format, whatever its buffer and the
      stream do; a property list that was written reads back as itself; a lookup by key
      in a written dictionary leads to the value.  Bounds: fewer than 2^32 objects,
      because a reference is written with at most 32 bits, and files of less than 2^61
      bytes, because the reader allocates eight bytes for each reference.
    - Data: any sequence of appends, replacements, deletions and changes of length from
      creation on acts on the list of bytes, through every move and reallocation, and
      deallocation restores the heap; an immutable data and its copy hold the bytes they
      were given, are equal and have the same hash; the search equals the search that
      tries every position, in both directions.  Bounds: lengths up to CFDATA_MAX_SIZE,
      needles of fewer than 2^31 bytes, because the tables are built with ints; a source
      inside the data itself only where the data grows, and a longer length only when no
      replacement has shortened the data before: DataDefects.v has the runs that show
      both conditions are needed.
    - Trees: insertions, removals, sorting and releases act on the lists of children;
      a release frees exactly the nodes nobody else holds.
    - Calendar: days and (year, month, day) are in bijection for days below 2^51, dates
      and times convert back and forth, unit arithmetic is calendar arithmetic, week
      numbers are ISO 8601 except at the start of January.  Bounds: times below 2^51 or
      2^52 seconds, where no rounding changes a result; beyond, seconds are lost
      ([roundtrip_loses_seconds]).
    - Mutable bit vectors refine lists of booleans; big numbers refine integers up to the
      carry of their addition; numbers print and parse back.
    - Theorems whose names end in [_wrong], [_most_negative], [_swapped],
      [_not_iso], [equal_inverts_comparison], [add_loses_normal_form],
      [copy_equal_depends_on_spare_bits], [remove_int_absent],
      [transfer_leaks_duplicates], [common_modes_recursion], [fast_grow_leaves_list],
      [roundtrip_loses_seconds] and those of StorageDefects.v, PListDefects.v and
      DataDefects.v pin down where the code departs from its intent.

    ** Not modelled

    CFString, CFURL, CFBundle, the sockets and streams, locales, preferences and the
    plug-in code (I/O, Unicode tables or glue); the XML and old style property lists of
    CFPropertyList.c and CFOldStylePList.c, which parse CFString buffers; in
    CFBinaryPList.c the filtering by key paths, which splits CFStrings; CFUUID, the
    number scanner of CFStringScanner.c and the rest of CFDate.c, which the modelled parts
    do not call; the Objective-C runtime (C++ and assembly) and the kernel
    tree (not part of this program). *)

From stdpp Require Import base list numbers option sorting.
From Stdlib Require Import ZArith Lia.

Declare Scope cf_scope.
Delimit Scope cf_scope with cf.
#[export] Set Default Goal Selector "!".
Open Scope Z_scope.

(** ** C integers

    A w-bit C integer is the [Z] it denotes; every conversion or arithmetic
    operation that can leave the type's range is followed by the wrap to that
    type ([uwrap] for unsigned, [swrap] for two's complement signed). *)

Definition uwrap (w z : Z) : Z := z mod 2 ^ w.
Definition swrap (w z : Z) : Z := (z + 2 ^ (w - 1)) mod 2 ^ w - 2 ^ (w - 1).

Definition in_u (w z : Z) : Prop := 0 <= z < 2 ^ w.
Definition in_s (w z : Z) : Prop := - 2 ^ (w - 1) <= z < 2 ^ (w - 1).

Abbreviation u8 := (uwrap 8).
Abbreviation u16 := (uwrap 16).
Abbreviation u32 := (uwrap 32).
Abbreviation u64 := (uwrap 64).
Abbreviation u128 := (uwrap 128).
Abbreviation s8 := (swrap 8).
Abbreviation s16 := (swrap 16).
Abbreviation s32 := (swrap 32).
Abbreviation s64 := (swrap 64).
Abbreviation s128 := (swrap 128).

Lemma pow2_pos (w : Z) : 0 <= w -> 0 < 2 ^ w.
Proof. intros. apply Z.pow_pos_nonneg; lia. Qed.

Lemma pow2_split (w : Z) : 0 < w -> 2 ^ w = 2 * 2 ^ (w - 1).
Proof. intros. rewrite <- Z.pow_succ_r by lia. f_equal; lia. Qed.

Lemma uwrap_small (w z : Z) : in_u w z -> uwrap w z = z.
Proof. unfold in_u, uwrap. intros. now apply Z.mod_small. Qed.

Lemma uwrap_range (w z : Z) : 0 <= w -> in_u w (uwrap w z).
Proof. intros. apply Z.mod_pos_bound. now apply pow2_pos. Qed.

Lemma swrap_small (w z : Z) : 0 < w -> in_s w z -> swrap w z = z.
Proof.
  unfold in_s, swrap. intros Hw Hz. pose proof (pow2_split w Hw).
  rewrite Z.mod_small; lia.
Qed.

Lemma swrap_range (w z : Z) : 0 < w -> in_s w (swrap w z).
Proof.
  intros Hw. unfold in_s, swrap. pose proof (pow2_split w Hw).
  pose proof (pow2_pos (w - 1) ltac:(lia)).
  pose proof (Z.mod_pos_bound (z + 2 ^ (w - 1)) (2 ^ w) ltac:(lia)). lia.
Qed.

(** Two wraps of congruent numbers agree: the intermediate wraps of a chain of
    C additions can be dropped under the last one. *)
Lemma swrap_congr (w a b : Z) :
  0 <= w -> a mod 2 ^ w = b mod 2 ^ w -> swrap w a = swrap w b.
Proof.
  unfold swrap. intros Hw H. pose proof (pow2_pos w Hw).
  rewrite (Z.add_mod a), (Z.add_mod b) by lia. now rewrite H.
Qed.

Lemma swrap_mod (w z : Z) : 0 < w -> swrap w z mod 2 ^ w = z mod 2 ^ w.
Proof.
  intros Hw. unfold swrap. pose proof (pow2_pos w ltac:(lia)).
  rewrite Zminus_mod_idemp_l. f_equal; lia.
Qed.

Lemma uwrap_mod (w z : Z) : 0 <= w -> uwrap w z mod 2 ^ w = z mod 2 ^ w.
Proof. intros Hw. pose proof (pow2_pos w Hw). apply Z.mod_mod; lia. Qed.

Lemma swrap_add_l (w a b : Z) : 0 < w -> swrap w (swrap w a + b) = swrap w (a + b).
Proof.
  intros Hw. apply swrap_congr; [lia|]. pose proof (pow2_pos w ltac:(lia)).
  rewrite Z.add_mod, swrap_mod, <- Z.add_mod by lia. reflexivity.
Qed.

Lemma swrap_add_r (w a b : Z) : 0 < w -> swrap w (a + swrap w b) = swrap w (a + b).
Proof. intros. rewrite Z.add_comm, swrap_add_l by lia. f_equal; lia. Qed.

Lemma swrap_add_u (w a b : Z) : 0 < w -> swrap w (a + uwrap w b) = swrap w (a + b).
Proof.
  intros Hw. apply swrap_congr; [lia|]. pose proof (pow2_pos w ltac:(lia)).
  rewrite Z.add_mod, uwrap_mod, <- Z.add_mod by lia. reflexivity.
Qed.

Lemma swrap_mul_r (w a b : Z) : 0 < w -> swrap w (a * swrap w b) = swrap w (a * b).
Proof.
  intros Hw. apply swrap_congr; [lia|]. pose proof (pow2_pos w ltac:(lia)).
  rewrite Z.mul_mod, swrap_mod, <- Z.mul_mod by lia. reflexivity.
Qed.

Lemma swrap_swrap (w z : Z) : 0 < w -> swrap w (swrap w z) = swrap w z.
Proof. intros. apply swrap_small; [|apply swrap_range]; lia. Qed.

Lemma swrap_uwrap (w z : Z) : 0 < w -> swrap w (uwrap w z) = swrap w z.
Proof. intros. apply swrap_congr; [lia|]. apply uwrap_mod; lia. Qed.

Lemma uwrap_swrap (w z : Z) : 0 < w -> uwrap w (swrap w z) = uwrap w z.
Proof. intros. now apply swrap_mod. Qed.

Lemma uwrap_add_l (w a b : Z) : 0 <= w -> uwrap w (uwrap w a + b) = uwrap w (a + b).
Proof.
  intros Hw. pose proof (pow2_pos w Hw). unfold uwrap.
  rewrite Z.add_mod_idemp_l by lia. reflexivity.
Qed.

Lemma uwrap_add_r (w a b : Z) : 0 <= w -> uwrap w (a + uwrap w b) = uwrap w (a + b).
Proof. intros. rewrite Z.add_comm, uwrap_add_l by lia. f_equal; lia. Qed.

(** The wrap lemmas as a rewrite system; the side conditions are on literals. *)
Create Rewrite HintDb cwrap.
#[export] Hint Rewrite swrap_add_l swrap_add_r swrap_add_u swrap_mul_r swrap_swrap
  swrap_uwrap uwrap_swrap uwrap_add_l uwrap_add_r using lia : cwrap.

(** ** Outcomes of a C function

    [Ok a]: it returned [a].  [Halt]: it executed [HALT] (CFInternal.h, a trap).
    [Undef]: it read or wrote outside an array, or went through a NULL pointer.
    [NoFuel]: the bound of a loop's translation was used up; the termination
    theorems show that the bounds passed by the translations are never used up. *)
Inductive result (A : Type) : Type :=
| Ok (a : A)
| Halt
| Undef
| NoFuel.
Arguments Ok {A} a.
Arguments Halt {A}.
Arguments Undef {A}.
Arguments NoFuel {A}.

#[export] Instance result_ret : MRet result := fun A a => Ok a.
#[export] Instance result_bind : MBind result := fun A B f m =>
  match m with Ok a => f a | Halt => Halt | Undef => Undef | NoFuel => NoFuel end.

Lemma bind_Ok {A B} (m : result A) (f : A -> result B) (b : B) :
  (m ≫= f) = Ok b <-> exists a, m = Ok a /\ f a = Ok b.
Proof.
  destruct m; cbn; split; [eauto|intros (?&[=->]&?); done| | | | | |];
    (discriminate || intros (?&[=]&_)).
Qed.

#[export] Instance result_eq_dec `{EqDecision A} : EqDecision (result A).
Proof. solve_decision. Defined.

(** ** Arrays indexed by a CFIndex *)

Definition aget {A} (l : list A) (i : Z) : result A :=
  if i <? 0 then Undef
  else match l !! Z.to_nat i with Some x => Ok x | None => Undef end.

Definition aset {A} (l : list A) (i : Z) (x : A) : result (list A) :=
  if (i <? 0) || (Z.of_nat (length l) <=? i) then Undef
  else Ok (<[Z.to_nat i := x]> l).

Lemma aget_Ok {A} (l : list A) (i : Z) (x : A) :
  aget l i = Ok x <-> 0 <= i /\ l !! Z.to_nat i = Some x.
Proof.
  unfold aget. destruct (Z.ltb_spec i 0); [split; [done|lia]|].
  destruct (l !! Z.to_nat i); naive_solver lia.
Qed.

Lemma aget_nat {A} (l : list A) (i : nat) (x : A) :
  l !! i = Some x -> aget l (Z.of_nat i) = Ok x.
Proof. intros. apply aget_Ok. rewrite Nat2Z.id. split; [lia|done]. Qed.

Lemma aget_bound {A} (l : list A) (i : Z) :
  0 <= i < Z.of_nat (length l) -> exists x, aget l i = Ok x.
Proof.
  intros H. destruct (lookup_lt_is_Some_2 l (Z.to_nat i)) as [x Hx]; [lia|].
  exists x. apply aget_Ok. split; [lia|done].
Qed.

Lemma aset_Ok {A} (l : list A) (i : Z) (x : A) :
  0 <= i < Z.of_nat (length l) -> aset l i x = Ok (<[Z.to_nat i := x]> l).
Proof.
  intros H. unfold aset.
  destruct (Z.ltb_spec i 0), (Z.leb_spec (Z.of_nat (length l)) i); cbn; (lia || done).
Qed.

Lemma aget_middle {A} (l1 l2 : list A) (x : A) (i : Z) :
  i = Z.of_nat (length l1) -> aget (l1 ++ x :: l2) i = Ok x.
Proof. intros ->. apply aget_nat. by rewrite list_lookup_middle. Qed.

Lemma aset_middle {A} (l1 l2 : list A) (x y : A) (i : Z) :
  i = Z.of_nat (length l1) -> aset (l1 ++ x :: l2) i y = Ok (l1 ++ y :: l2).
Proof.
  intros ->. rewrite aset_Ok by (rewrite length_app; cbn; lia). rewrite Nat2Z.id.
  f_equal. rewrite insert_app_r_alt by lia. by rewrite Nat.sub_diag.
Qed.

(** memmove of [n] elements from [src + s] to [dst + d]; source and destination may be
    the same array. *)
Definition memmove {A} (dst : list A) (d : Z) (src : list A) (s n : Z) : result (list A) :=
  if (0 <=? n) && (0 <=? d) && (d + n <=? Z.of_nat (length dst)) && (0 <=? s) && (s + n <=? Z.of_nat (length src))
  then Ok (take (Z.to_nat d) dst ++ take (Z.to_nat n) (drop (Z.to_nat s) src) ++ drop (Z.to_nat (d + n)) dst)
  else Undef.

Lemma memmove_middle {A} (d1 x d2 s1 y s2 : list A) (d s n : Z) :
  d = Z.of_nat (length d1) -> s = Z.of_nat (length s1) -> n = Z.of_nat (length x) -> length y = length x ->
  memmove (d1 ++ x ++ d2) d (s1 ++ y ++ s2) s n = Ok (d1 ++ y ++ d2).
Proof.
  intros -> -> -> L. unfold memmove. rewrite !length_app.
  repeat (rewrite (proj2 (Z.leb_le _ _)) by lia). cbn [andb]. f_equal.
  rewrite !Nat2Z.id, take_app_length, drop_app_length, <- L, take_app_length. do 2 f_equal.
  replace (Z.to_nat (Z.of_nat (length d1) + Z.of_nat (length y))) with (length (d1 ++ x)) by (rewrite length_app; lia).
  by rewrite app_assoc, drop_app_length.
Qed.

(** ** CFComparisonResult (CFBase.h) *)

Inductive CFComparisonResult : Type :=
| kCFCompareLessThan
| kCFCompareEqualTo
| kCFCompareGreaterThan.

#[export] Instance CFComparisonResult_eq_dec : EqDecision CFComparisonResult.
Proof. solve_decision. Defined.

Definition of_comparison (c : comparison) : CFComparisonResult :=
  match c with
  | Lt => kCFCompareLessThan
  | Eq => kCFCompareEqualTo
  | Gt => kCFCompareGreaterThan
  end.

(** ** [flsl]: the number of the highest set bit, counted from 1 *)

Definition flsl (z : Z) : Z := if z <=? 0 then 0 else Z.log2 z + 1.

(** ** Exhaustive checks over small ranges *)

Definition below (n : Z) : list Z := map Z.of_nat (seq 0 (Z.to_nat n)).

Lemma below_spec (n : Z) (P : Z -> bool) (z : Z) :
  forallb P (below n) = true -> 0 <= z < n -> P z = true.
Proof.
  intros H Hz. apply (proj1 (forallb_forall P (below n)) H). unfold below.
  apply in_map_iff. exists (Z.to_nat z). rewrite Z2Nat.id by lia. split; [done|].
  apply in_seq. lia.
Qed.
