(* ===== verification/BigNumber.v ===== *)
(** * CFBigNumber.c: the base-one-billion numbers behind CFNumber's 128-bit type

    [CFBigNum] is the struct of CFBigNumber.h: five base-10^9 digits, least
    significant first, and a sign field that holds 0 or -1.  The file models every
    function of CFBigNumber.c (initialisation from and conversion to each integer
    type, comparison, negation, addition, subtraction, printing and parsing). *)

From stdpp Require Import base list numbers option.
From Stdlib Require Import ZArith Lia.
From S2P Require Import Prelude.

Module BigNum.

(** ** Data (CFBigNumber.h, typedef _CFBigNum) *)

Record CFBigNum : Type := mkBigNum {
  digits : list Z;
  sign : Z
}.

#[export] Instance CFBigNum_eq_dec : EqDecision CFBigNum.
Proof. solve_decision. Defined.

Definition BIG_DIGITS_LIMIT : Z := 1000000000.
Definition BIG_DIGITS_LIMIT_2 : Z := BIG_DIGITS_LIMIT * BIG_DIGITS_LIMIT.
Definition BIG_DIGITS_LIMIT_3 : Z := BIG_DIGITS_LIMIT_2 * BIG_DIGITS_LIMIT.
Definition BIG_DIGITS_LIMIT_4 : Z := BIG_DIGITS_LIMIT_3 * BIG_DIGITS_LIMIT.

(** [num->digits[i]]; the array has five elements in every value the code builds. *)
Definition dig (n : CFBigNum) (i : nat) : Z := nth i (digits n) 0.

(** ** Initialisation from machine integers

    [unsignInNum] starts as the conversion of [inNum] to the unsigned type and is
    replaced by the conversion of [-1 * inNum], computed in [int] for the 8 and
    16-bit types and in the type of [inNum] for the wider ones. *)

Definition abs_to_unsigned (w : Z) (inNum : Z) : Z :=
  if inNum <? 0 then uwrap w (swrap (Z.max w 32) (-1 * inNum)) else uwrap w inNum.

Definition init_sign (inNum : Z) : Z := if inNum <? 0 then -1 else 0.

Definition CFBigNumInitWithInt8 (inNum : Z) : CFBigNum :=
  let unsignInNum := abs_to_unsigned 8 inNum in
  mkBigNum [u32 unsignInNum; 0; 0; 0; 0] (init_sign inNum).

Definition CFBigNumInitWithInt16 (inNum : Z) : CFBigNum :=
  let unsignInNum := abs_to_unsigned 16 inNum in
  mkBigNum [u32 unsignInNum; 0; 0; 0; 0] (init_sign inNum).

Definition CFBigNumInitWithInt32 (inNum : Z) : CFBigNum :=
  let unsignInNum := abs_to_unsigned 32 inNum in
  let dig0 := u32 (unsignInNum / BIG_DIGITS_LIMIT) in
  mkBigNum [u32 (unsignInNum - dig0 * BIG_DIGITS_LIMIT); dig0; 0; 0; 0] (init_sign inNum).

Definition split64 (unsignInNum : Z) : list Z :=
  let dig2 := u32 (unsignInNum / BIG_DIGITS_LIMIT_2) in
  let unsignInNum := u64 (unsignInNum - dig2 * BIG_DIGITS_LIMIT_2) in
  let dig1 := u32 (unsignInNum / BIG_DIGITS_LIMIT) in
  [u32 (u64 (unsignInNum - dig1 * BIG_DIGITS_LIMIT)); dig1; dig2; 0; 0].

Definition CFBigNumInitWithInt64 (inNum : Z) : CFBigNum :=
  mkBigNum (split64 (abs_to_unsigned 64 inNum)) (init_sign inNum).

Definition split128 (unsignInNum : Z) : list Z :=
  let dig4 := u32 (unsignInNum / BIG_DIGITS_LIMIT_4) in
  let unsignInNum := u128 (unsignInNum - dig4 * BIG_DIGITS_LIMIT_4) in
  let dig3 := u32 (unsignInNum / BIG_DIGITS_LIMIT_3) in
  let unsignInNum := u128 (unsignInNum - dig3 * BIG_DIGITS_LIMIT_3) in
  let dig2 := u32 (unsignInNum / BIG_DIGITS_LIMIT_2) in
  let unsignInNum := u128 (unsignInNum - dig2 * BIG_DIGITS_LIMIT_2) in
  let dig1 := u32 (unsignInNum / BIG_DIGITS_LIMIT) in
  [u32 (u128 (unsignInNum - dig1 * BIG_DIGITS_LIMIT)); dig1; dig2; dig3; dig4].

Definition CFBigNumInitWithInt128 (inNum : Z) : CFBigNum :=
  mkBigNum (split128 (abs_to_unsigned 128 inNum)) (init_sign inNum).

Definition CFBigNumInitWithUInt8 (inNum : Z) : CFBigNum :=
  mkBigNum [u32 (u8 inNum); 0; 0; 0; 0] 0.

Definition CFBigNumInitWithUInt16 (inNum : Z) : CFBigNum :=
  mkBigNum [u32 (u16 inNum); 0; 0; 0; 0] 0.

Definition CFBigNumInitWithUInt32 (inNum : Z) : CFBigNum :=
  let unsignInNum := u32 inNum in
  let dig0 := u32 (unsignInNum / BIG_DIGITS_LIMIT) in
  mkBigNum [u32 (unsignInNum - dig0 * BIG_DIGITS_LIMIT); dig0; 0; 0; 0] 0.

Definition CFBigNumInitWithUInt64 (inNum : Z) : CFBigNum :=
  mkBigNum (split64 (u64 inNum)) 0.

Definition CFBigNumInitWithUInt128 (inNum : Z) : CFBigNum :=
  mkBigNum (split128 (u128 inNum)) 0.

(** ** Conversion to machine integers *)

Definition neg_if (w : Z) (n : CFBigNum) (result : Z) : Z :=
  if sign n <? 0 then swrap w (-1 * result) else result.

Definition CFBigNumGetInt8 (n : CFBigNum) : Z :=
  neg_if 8 n (s8 (dig n 0)).

Definition CFBigNumGetInt16 (n : CFBigNum) : Z :=
  neg_if 16 n (s16 (dig n 0)).

Definition CFBigNumGetInt32 (n : CFBigNum) : Z :=
  let result := s32 (dig n 0) in
  let result := s32 (result + s64 (dig n 1 * BIG_DIGITS_LIMIT)) in
  neg_if 32 n result.

Definition CFBigNumGetInt64 (n : CFBigNum) : Z :=
  let result := s64 (dig n 0) in
  let result := s64 (result + s64 (dig n 1 * BIG_DIGITS_LIMIT)) in
  let result := s64 (result + u64 (dig n 2 * BIG_DIGITS_LIMIT_2)) in
  neg_if 64 n result.

Definition CFBigNumGetInt128 (n : CFBigNum) : Z :=
  let result := s128 (dig n 0) in
  let result := s128 (result + s128 (dig n 1 * BIG_DIGITS_LIMIT)) in
  let result := s128 (result + s128 (dig n 2 * BIG_DIGITS_LIMIT_2)) in
  let result := s128 (result + u128 (dig n 3 * BIG_DIGITS_LIMIT_3)) in
  let result := s128 (result + u128 (dig n 4 * BIG_DIGITS_LIMIT_4)) in
  neg_if 128 n result.

Definition CFBigNumGetUInt8 (n : CFBigNum) : Z := u8 (dig n 0).

Definition CFBigNumGetUInt16 (n : CFBigNum) : Z := u16 (dig n 0).

Definition CFBigNumGetUInt32 (n : CFBigNum) : Z :=
  u32 (u32 (dig n 0) + s64 (dig n 1 * BIG_DIGITS_LIMIT)).

Definition CFBigNumGetUInt64 (n : CFBigNum) : Z :=
  let result := u64 (u64 (dig n 0) + u64 (dig n 1 * BIG_DIGITS_LIMIT)) in
  u64 (result + u64 (dig n 2 * BIG_DIGITS_LIMIT_2)).

Definition CFBigNumGetUInt128 (n : CFBigNum) : Z :=
  let result := u128 (u128 (dig n 0) + u128 (dig n 1 * BIG_DIGITS_LIMIT)) in
  let result := u128 (result + u128 (dig n 2 * BIG_DIGITS_LIMIT_2)) in
  let result := u128 (result + u128 (dig n 3 * BIG_DIGITS_LIMIT_3)) in
  u128 (result + u128 (dig n 4 * BIG_DIGITS_LIMIT_4)).

(** ** Comparison, negation, addition *)

(** The loops that run from the most significant digit down: the first digits
    that differ decide. *)
Fixpoint compare_down (a b : list Z) : CFComparisonResult :=
  match a, b with
  | x :: a', y :: b' =>
    if x <? y then kCFCompareLessThan
    else if y <? x then kCFCompareGreaterThan
    else compare_down a' b'
  | _, _ => kCFCompareEqualTo
  end.

Definition CFBigNumCompare (a b : CFBigNum) : CFComparisonResult :=
  if sign a =? sign b then
    let negative := sign a <? 0 in
    match compare_down (rev (digits a)) (rev (digits b)) with
    | kCFCompareLessThan => if negative then kCFCompareGreaterThan else kCFCompareLessThan
    | kCFCompareGreaterThan => if negative then kCFCompareLessThan else kCFCompareGreaterThan
    | kCFCompareEqualTo => kCFCompareEqualTo
    end
  else if sign a <? sign b then kCFCompareLessThan else kCFCompareGreaterThan.

Definition CFBigNumAbsoluteLessThan (a b : CFBigNum) : bool :=
  match compare_down (rev (digits a)) (rev (digits b)) with
  | kCFCompareLessThan => true
  | _ => false
  end.

Definition CFBigNumNeg (a : CFBigNum) : CFBigNum :=
  let aIsZero := forallb (fun d => d =? 0) (digits a) in
  if aIsZero then a else mkBigNum (digits a) (s8 (sign a * sign a - 1)).

(** The digit loop for operands of the same sign: the digits of the result and
    the final carry. *)
Fixpoint add_digits (a b : list Z) (carry : Z) : list Z * Z :=
  match a, b with
  | x :: a', y :: b' =>
    let result := u32 (x + y + carry) in
    let '(d, c) := if BIG_DIGITS_LIMIT <? result
                   then (u32 (result - BIG_DIGITS_LIMIT), 1) else (result, 0) in
    let '(ds, cf) := add_digits a' b' c in
    (d :: ds, cf)
  | _, _ => ([], carry)
  end.

(** The digit loop for operands of different signs. *)
Fixpoint sub_digits (big small : list Z) (carry : Z) : list Z * Z :=
  match big, small with
  | x :: big', y :: small' =>
    let result := s64 (x - y - carry) in
    let '(d, c) := if result <? 0 then (s64 (result + BIG_DIGITS_LIMIT), 1) else (result, 0) in
    let '(ds, cf) := sub_digits big' small' c in
    (u32 d :: ds, cf)
  | _, _ => ([], carry)
  end.

Definition CFBigNumAdd (a b : CFBigNum) : CFBigNum * Z :=
  if sign a =? sign b then
    let '(ds, carry) := add_digits (digits a) (digits b) 0 in
    (mkBigNum ds (sign a), carry)
  else
    let '(bigNum, smallNum) := if CFBigNumAbsoluteLessThan a b then (b, a) else (a, b) in
    let '(ds, carry) := sub_digits (digits bigNum) (digits smallNum) 0 in
    (mkBigNum ds (if sign bigNum <? 0 then -1 else 0), carry).

Definition CFBigNumSub (a b : CFBigNum) : CFBigNum * Z :=
  CFBigNumAdd a (CFBigNumNeg b).

(** ** CFNumber interface (CFNumber.h)

    The integer type codes of CFNumberType, and what a successful [CFNumberCreate]
    call determines: the type and the bytes copied from [valuePtr]. *)

Inductive CFNumberType : Type :=
| kCFNumberSInt8Type | kCFNumberSInt16Type | kCFNumberSInt32Type | kCFNumberSInt64Type
| kCFNumberFloat32Type | kCFNumberFloat64Type
| kCFNumberCharType | kCFNumberShortType | kCFNumberIntType | kCFNumberLongType
| kCFNumberLongLongType | kCFNumberFloatType | kCFNumberDoubleType
| kCFNumberCFIndexType | kCFNumberNSIntegerType | kCFNumberCGFloatType
| kCFNumberSInt128Type.

#[export] Instance CFNumberType_eq_dec : EqDecision CFNumberType.
Proof. solve_decision. Defined.

Record CFNumber : Type := CFNumberCreate { ntype : CFNumberType; nbytes : list Z }.

#[export] Instance CFNumber_eq_dec : EqDecision CFNumber.
Proof. solve_decision. Defined.

(** Little-endian loads and stores of the integer types. *)
Fixpoint le_load (k : nat) (bytes : list Z) : Z :=
  match k with
  | O => 0
  | S k => nth 0 bytes 0 + 256 * le_load k (tail bytes)
  end.

Fixpoint le_store (k : nat) (x : Z) : list Z :=
  match k with
  | O => []
  | S k => x mod 256 :: le_store k (x / 256)
  end.

(** [_CFBigNumInitWithBytes] on an LP64 target; the types without a case leave [r]
    as it was. *)
Definition CFBigNumInitWithBytes (r : CFBigNum) (bytes : list Z) (type : CFNumberType)
  : CFBigNum :=
  match type with
  | kCFNumberSInt8Type | kCFNumberCharType => CFBigNumInitWithInt8 (s8 (le_load 1 bytes))
  | kCFNumberSInt16Type | kCFNumberShortType => CFBigNumInitWithInt16 (s16 (le_load 2 bytes))
  | kCFNumberSInt32Type | kCFNumberIntType => CFBigNumInitWithInt32 (s32 (le_load 4 bytes))
  | kCFNumberSInt64Type | kCFNumberLongType | kCFNumberLongLongType
  | kCFNumberCFIndexType | kCFNumberNSIntegerType =>
    CFBigNumInitWithInt64 (s64 (le_load 8 bytes))
  | kCFNumberSInt128Type =>
    let high := s64 (le_load 8 bytes) in
    let low := u64 (le_load 8 (drop 8 bytes)) in
    CFBigNumInitWithInt128 (s128 (low + s128 (high * 2 ^ 64)))
  | _ => r
  end.

Definition INT8_MAX : Z := 127.
Definition INT16_MAX : Z := 32767.
Definition INT32_MIN : Z := - 2 ^ 31.
Definition INT32_MAX : Z := 2 ^ 31 - 1.
Definition INT64_MIN : Z := - 2 ^ 63.
Definition INT64_MAX : Z := 2 ^ 63 - 1.
Definition INT128_MIN : Z := - 2 ^ 127.
Definition INT128_MAX : Z := 2 ^ 127 - 1.

(** The range test made once per width: not above [max] and not below [min]. *)
Definition within (input max min : CFBigNum) : bool :=
  let cr := CFBigNumCompare input max in
  let crn := CFBigNumCompare input min in
  (bool_decide (cr = kCFCompareLessThan) || bool_decide (cr = kCFCompareEqualTo))
  && negb (bool_decide (crn = kCFCompareLessThan)).

Definition zero_from (n : CFBigNum) (i : nat) : bool :=
  forallb (fun d => d =? 0) (drop i (digits n)).

Definition CFNumberCreateWithBigNum (input : CFBigNum) : option CFNumber :=
  if zero_from input 1 && (dig input 0 <=? INT8_MAX) then
    Some (CFNumberCreate kCFNumberSInt8Type (le_store 1 (CFBigNumGetInt8 input)))
  else if zero_from input 1 && (dig input 0 <=? INT16_MAX) then
    Some (CFNumberCreate kCFNumberSInt16Type (le_store 2 (CFBigNumGetInt16 input)))
  else if zero_from input 2
          && within input (CFBigNumInitWithInt32 INT32_MAX) (CFBigNumInitWithInt32 INT32_MIN) then
    Some (CFNumberCreate kCFNumberSInt32Type (le_store 4 (CFBigNumGetInt32 input)))
  else if zero_from input 3
          && within input (CFBigNumInitWithInt64 INT64_MAX) (CFBigNumInitWithInt64 INT64_MIN) then
    Some (CFNumberCreate kCFNumberSInt64Type (le_store 8 (CFBigNumGetInt64 input)))
  else if within input (CFBigNumInitWithInt128 INT128_MAX) (CFBigNumInitWithInt128 INT128_MIN) then
    Some (CFNumberCreate kCFNumberSInt128Type (le_store 16 (CFBigNumGetInt128 input)))
  else None.

(** ** Printing and parsing

    Characters are their codes; a C string is the list of its characters before
    the terminating NUL. *)

Definition ch_nul : Z := 0.
Definition ch_plus : Z := 43.
Definition ch_minus : Z := 45.
Definition ch_0 : Z := 48.

(** Decimal digits of an unsigned 32-bit integer, most significant first (at most
    ten of them), and printf's [%09u]. *)
Fixpoint udec (fuel : nat) (d : Z) : list Z :=
  match fuel with
  | O => []
  | S fuel => if d <? 10 then [ch_0 + d] else udec fuel (d / 10) ++ [ch_0 + d mod 10]
  end.

Definition fmt_09u (d : Z) : list Z :=
  let s := udec 10 d in replicate (9 - length s) ch_0 ++ s.

(** [snprintf(tmp, sizeof(tmp), ...)]: at most 45 characters and a NUL. *)
Definition snprintf_tmp (n : CFBigNum) : list Z :=
  take 45 (fmt_09u (dig n 4) ++ fmt_09u (dig n 3) ++ fmt_09u (dig n 2)
           ++ fmt_09u (dig n 1) ++ fmt_09u (dig n 0)).

Fixpoint skip_zeros (s : list Z) : list Z :=
  match s with
  | c :: s' => if c =? ch_0 then skip_zeros s' else s
  | [] => []
  end.

(** [strlcpy(buffer, s, buflen)] into the [buflen] characters of [buffer]. *)
Definition strlcpy (buffer s : list Z) : list Z :=
  match length buffer with
  | O => buffer
  | S room => let c := take room s ++ [ch_nul] in c ++ drop (length c) buffer
  end.

(** The characters written to [buffer], whose previous contents are given; the
    sign character is stored without a bound check, so an empty buffer is written
    past its end. *)
Definition CFBigNumToCString (vp : CFBigNum) (leading_zeros leading_plus : bool)
  (buffer : list Z) : result (list Z) :=
  '(pre, buf) ←
    (if sign vp <? 0 then
       match buffer with _ :: b => Ok ([ch_minus], b) | [] => Undef end
     else if leading_plus then
       match buffer with _ :: b => Ok ([ch_plus], b) | [] => Undef end
     else Ok ([], buffer));
  let tmp := snprintf_tmp vp in
  if leading_zeros then
    let zeros := replicate (length buf) ch_0 in
    let tocopy := Nat.min 46 (length buf) in
    Ok (pre ++ take (length buf - tocopy) zeros ++ drop (46 - tocopy) (tmp ++ [ch_nul]))
  else
    let s := skip_zeros tmp in
    let s := match s with [] => [ch_0] | _ => s end in
    Ok (pre ++ strlcpy buf s).

(** [atol]: blanks, an optional sign, then digits up to the first other character,
    saturating at the bounds of [long]. *)
Definition isspace (c : Z) : bool := (c =? 32) || ((9 <=? c) && (c <=? 13)).
Definition isdigit (c : Z) : bool := (ch_0 <=? c) && (c <=? 57).

Fixpoint skip_spaces (s : list Z) : list Z :=
  match s with
  | c :: s' => if isspace c then skip_spaces s' else s
  | [] => []
  end.

Fixpoint digits_value (acc : Z) (s : list Z) : Z :=
  match s with
  | c :: s' => if isdigit c then digits_value (acc * 10 + (c - ch_0)) s' else acc
  | [] => acc
  end.

Definition atol (s : list Z) : Z :=
  let clamp z := Z.max INT64_MIN (Z.min INT64_MAX z) in
  match skip_spaces s with
  | c :: s' =>
    if c =? ch_minus then clamp (- digits_value 0 s')
    else if c =? ch_plus then clamp (digits_value 0 s')
    else clamp (digits_value 0 (c :: s'))
  | [] => 0
  end.

(** The digit loop of [_CFBigNumFromCString]: [room] digits of the array are left
    after the current one, [working] is the string that is cut nine characters at
    a time from its end. *)
Fixpoint from_chunks (room : nat) (working : list Z) : list Z :=
  match room with
  | O => [u32 (atol working)]
  | S room =>
    if (9 <? length working)%nat then
      let cut := (length working - 9)%nat in
      u32 (atol (drop cut working)) :: from_chunks room (take cut working)
    else u32 (atol working) :: replicate (S room) 0
  end.

Definition CFBigNumFromCString (string : list Z) : CFBigNum :=
  let '(sg, working) :=
    match string with
    | c :: s => if c =? ch_minus then (-1, s) else if c =? ch_plus then (0, s) else (0, string)
    | [] => (0, [])
    end in
  let working := skip_zeros working in
  match working with
  | [] => mkBigNum (replicate 5 0) sg
  | _ => mkBigNum (from_chunks 4 working) sg
  end.

(** ** What the numbers mean *)

Fixpoint dvalue (ds : list Z) : Z :=
  match ds with
  | [] => 0
  | d :: ds => d + BIG_DIGITS_LIMIT * dvalue ds
  end.

Definition value (n : CFBigNum) : Z :=
  if sign n <? 0 then - dvalue (digits n) else dvalue (digits n).

(** CFBigNumber.h: "each digit represents 0 to 999999999". *)
Definition digit_ok (d : Z) : Prop := 0 <= d < BIG_DIGITS_LIMIT.

Record wf (n : CFBigNum) : Prop := mk_wf {
  wf_length : length (digits n) = 5%nat;
  wf_digits : Forall digit_ok (digits n);
  wf_sign : sign n = 0 \/ sign n = -1
}.

(** Well formed, and zero is not negative. *)
Record canonical (n : CFBigNum) : Prop := mk_canonical {
  canonical_wf : wf n;
  canonical_zero : sign n = -1 -> dvalue (digits n) <> 0
}.

(** ** Lemmas on digit lists *)

Lemma dvalue_app (a b : list Z) :
  dvalue (a ++ b) = dvalue a + BIG_DIGITS_LIMIT ^ Z.of_nat (length a) * dvalue b.
Proof.
  induction a as [|x a IH]; cbn [dvalue app length]; [lia|].
  rewrite IH, Nat2Z.inj_succ, Z.pow_succ_r by lia. lia.
Qed.

Lemma dvalue_bound (a : list Z) :
  Forall digit_ok a -> 0 <= dvalue a < BIG_DIGITS_LIMIT ^ Z.of_nat (length a).
Proof.
  induction 1 as [|x a Hx _ IH]; cbn [dvalue length]; [lia|].
  unfold digit_ok in Hx. rewrite Nat2Z.inj_succ, Z.pow_succ_r by lia. nia.
Qed.

Lemma dvalue_zero (a : list Z) :
  Forall digit_ok a -> forallb (fun d => d =? 0) a = bool_decide (dvalue a = 0).
Proof.
  induction 1 as [|x a Hx Ha IH]; cbn [dvalue forallb]; [done|].
  pose proof (dvalue_bound a Ha). unfold digit_ok, BIG_DIGITS_LIMIT in *. rewrite IH.
  repeat case_bool_decide; destruct (Z.eqb_spec x 0); cbn; nia.
Qed.

(** The comparison loop decides the order of the two values. *)
Lemma compare_down_spec (ra rb : list Z) :
  length ra = length rb -> Forall digit_ok ra -> Forall digit_ok rb ->
  compare_down ra rb = of_comparison (dvalue (rev ra) ?= dvalue (rev rb)).
Proof.
  revert rb. induction ra as [|x ra IH]; intros [|y rb] Hl Ha Hb; cbn in Hl; try done.
  apply Forall_cons_1 in Ha as [Hx Ha], Hb as [Hy Hb].
  cbn [compare_down rev]. rewrite !dvalue_app, !length_rev.
  injection Hl as Hl. rewrite Hl. cbn [dvalue].
  pose proof (dvalue_bound (rev ra) ltac:(by apply Forall_rev)) as Ba.
  pose proof (dvalue_bound (rev rb) ltac:(by apply Forall_rev)) as Bb.
  rewrite length_rev, Hl in Ba. rewrite length_rev in Bb.
  set (P := BIG_DIGITS_LIMIT ^ Z.of_nat (length rb)) in *.
  destruct (Z.ltb_spec x y); [|destruct (Z.ltb_spec y x)].
  - destruct (Z.compare_spec (dvalue (rev ra) + P * (x + BIG_DIGITS_LIMIT * 0))
      (dvalue (rev rb) + P * (y + BIG_DIGITS_LIMIT * 0))); cbn; (done || nia).
  - destruct (Z.compare_spec (dvalue (rev ra) + P * (x + BIG_DIGITS_LIMIT * 0))
      (dvalue (rev rb) + P * (y + BIG_DIGITS_LIMIT * 0))); cbn; (done || nia).
  - replace y with x by lia. rewrite IH by done. now rewrite !(Z.add_comm (dvalue _)), Z.add_compare_mono_l.
Qed.

(** The same-sign loop adds: the digits and the carry out are the sum. *)
Lemma add_digits_spec (a b : list Z) (c : Z) :
  length a = length b -> Forall digit_ok a -> Forall digit_ok b -> 0 <= c <= 1 ->
  let '(ds, cf) := add_digits a b c in
  length ds = length a /\ Forall (fun d => 0 <= d <= BIG_DIGITS_LIMIT) ds /\ 0 <= cf <= 1 /\
  dvalue ds + BIG_DIGITS_LIMIT ^ Z.of_nat (length a) * cf = dvalue a + dvalue b + c.
Proof.
  revert b c. induction a as [|x a IH]; intros [|y b] c Hl Ha Hb Hc; cbn in Hl; try done.
  { cbn. repeat split; try lia. constructor. }
  apply Forall_cons_1 in Ha as [Hx Ha], Hb as [Hy Hb]. injection Hl as Hl.
  unfold digit_ok in Hx, Hy. cbn [add_digits].
  rewrite uwrap_small by (unfold in_u, BIG_DIGITS_LIMIT in *; lia).
  destruct (Z.ltb_spec BIG_DIGITS_LIMIT (x + y + c)).
  - rewrite uwrap_small by (unfold in_u, BIG_DIGITS_LIMIT in *; lia).
    specialize (IH b 1 Hl Ha Hb ltac:(lia)). destruct (add_digits a b 1) as [ds cf].
    destruct IH as (? & ? & ? & IH). cbn [length dvalue].
    rewrite Nat2Z.inj_succ, Z.pow_succ_r by lia.
    split_and!; [lia|constructor; [lia|done]|lia|lia|nia].
  - specialize (IH b 0 Hl Ha Hb ltac:(lia)). destruct (add_digits a b 0) as [ds cf].
    destruct IH as (? & ? & ? & IH). cbn [length dvalue].
    rewrite Nat2Z.inj_succ, Z.pow_succ_r by lia.
    split_and!; [lia|constructor; [lia|done]|lia|lia|nia].
Qed.

(** The different-sign loop subtracts; there is no borrow out when the first
    operand is the larger one. *)
Lemma sub_digits_spec (a b : list Z) (c : Z) :
  length a = length b -> Forall digit_ok a -> Forall digit_ok b -> 0 <= c <= 1 ->
  let '(ds, cf) := sub_digits a b c in
  length ds = length a /\ Forall digit_ok ds /\ 0 <= cf <= 1 /\
  dvalue ds - BIG_DIGITS_LIMIT ^ Z.of_nat (length a) * cf = dvalue a - dvalue b - c.
Proof.
  revert b c. induction a as [|x a IH]; intros [|y b] c Hl Ha Hb Hc; cbn in Hl; try done.
  { cbn. repeat split; try lia. constructor. }
  apply Forall_cons_1 in Ha as [Hx Ha], Hb as [Hy Hb]. injection Hl as Hl.
  unfold digit_ok in Hx, Hy. cbn [sub_digits].
  rewrite swrap_small by (unfold in_s, BIG_DIGITS_LIMIT in *; lia).
  destruct (Z.ltb_spec (x - y - c) 0).
  - rewrite swrap_small by (unfold in_s, BIG_DIGITS_LIMIT in *; lia).
    specialize (IH b 1 Hl Ha Hb ltac:(lia)). destruct (sub_digits a b 1) as [ds cf].
    destruct IH as (? & ? & ? & IH). cbn [length dvalue].
    rewrite uwrap_small by (unfold in_u, BIG_DIGITS_LIMIT in *; lia).
    rewrite Nat2Z.inj_succ, Z.pow_succ_r by lia.
    split_and!; [lia|constructor; [unfold digit_ok; lia|done]|lia|lia|nia].
  - specialize (IH b 0 Hl Ha Hb ltac:(lia)). destruct (sub_digits a b 0) as [ds cf].
    destruct IH as (? & ? & ? & IH). cbn [length dvalue].
    rewrite uwrap_small by (unfold in_u, BIG_DIGITS_LIMIT in *; lia).
    rewrite Nat2Z.inj_succ, Z.pow_succ_r by lia.
    split_and!; [lia|constructor; [unfold digit_ok; lia|done]|lia|lia|nia].
Qed.

(** ** Comparison *)

Lemma abs_less_spec (a b : CFBigNum) :
  wf a -> wf b ->
  CFBigNumAbsoluteLessThan a b = bool_decide (dvalue (digits a) < dvalue (digits b)).
Proof.
  intros [La Da _] [Lb Db _]. unfold CFBigNumAbsoluteLessThan.
  rewrite compare_down_spec, !rev_involutive by
    (rewrite ?length_rev; try apply Forall_rev; congruence || done).
  case_bool_decide; destruct (Z.compare_spec (dvalue (digits a)) (dvalue (digits b)));
    cbn; (done || lia).
Qed.

Theorem compare_value (a b : CFBigNum) :
  canonical a -> canonical b ->
  CFBigNumCompare a b = of_comparison (value a ?= value b).
Proof.
  intros [[La Da Sa] Za] [[Lb Db Sb] Zb]. unfold CFBigNumCompare, value.
  rewrite compare_down_spec, !rev_involutive by
    (rewrite ?length_rev; try apply Forall_rev; congruence || done).
  pose proof (dvalue_bound _ Da). pose proof (dvalue_bound _ Db).
  destruct Sa as [Sa|Sa], Sb as [Sb|Sb]; rewrite ?Sa, ?Sb in *; cbn.
  - by destruct (dvalue (digits a) ?= dvalue (digits b)).
  - specialize (Zb eq_refl).
    by rewrite (proj2 (Z.compare_gt_iff _ _)) by lia.
  - specialize (Za eq_refl).
    by rewrite (proj2 (Z.compare_lt_iff _ _)) by lia.
  - rewrite Z.compare_opp, (Z.compare_antisym (dvalue (digits a))).
    by destruct (dvalue (digits a) ?= dvalue (digits b)).
Qed.

(** ** Negation, addition, subtraction *)

Lemma neg_spec (a : CFBigNum) :
  wf a -> canonical (CFBigNumNeg a) \/ CFBigNumNeg a = a /\ value a = 0.
Proof.
  intros Hwf. pose proof Hwf as [La Da Sa]. unfold CFBigNumNeg. rewrite dvalue_zero by done.
  case_bool_decide.
  - right. split; [done|]. unfold value. destruct (sign a <? 0); lia.
  - left. split; [|done]. split; cbn; [done|done|]. destruct Sa as [->| ->]; cbn; tauto.
Qed.

Lemma neg_wf (a : CFBigNum) : wf a -> wf (CFBigNumNeg a).
Proof. intros H. destruct (neg_spec a H) as [[? _]|[-> _]]; done. Qed.

Lemma neg_value (a : CFBigNum) : wf a -> value (CFBigNumNeg a) = - value a.
Proof.
  intros [La Da Sa]. unfold CFBigNumNeg. rewrite dvalue_zero by done. unfold value.
  case_bool_decide as E; [rewrite E; by destruct (sign a <? 0)|].
  cbn [sign digits].
  destruct Sa as [->| ->]; [change (s8 (0 * 0 - 1)) with (-1)|change (s8 (-1 * -1 - 1)) with 0];
    cbn -[dvalue]; lia.
Qed.

Definition sgn (n : CFBigNum) : Z := if sign n <? 0 then -1 else 1.

Lemma value_sgn (n : CFBigNum) : value n = sgn n * dvalue (digits n).
Proof. unfold value, sgn. destruct (sign n <? 0); lia. Qed.

Theorem add_value (a b : CFBigNum) :
  wf a -> wf b ->
  let '(r, carry) := CFBigNumAdd a b in
  value r + sgn r * (BIG_DIGITS_LIMIT ^ 5 * carry) = value a + value b /\
  length (digits r) = 5%nat /\ Forall (fun d => 0 <= d <= BIG_DIGITS_LIMIT) (digits r) /\
  (sign a <> sign b -> wf r /\ carry = 0).
Proof.
  intros Ha Hb. pose proof Ha as [La Da Sa]. pose proof Hb as [Lb Db Sb].
  unfold CFBigNumAdd. destruct (Z.eqb_spec (sign a) (sign b)) as [E|E].
  - pose proof (add_digits_spec (digits a) (digits b) 0 ltac:(congruence) Da Db ltac:(lia)) as H.
    destruct (add_digits (digits a) (digits b) 0) as [ds cf]. destruct H as (? & ? & ? & H).
    rewrite !value_sgn; unfold sgn; cbn [sign digits]. rewrite <- E, La in *.
    split_and!; [destruct (sign a <? 0); lia|done|done|done].
  - rewrite abs_less_spec by done.
    case_bool_decide as L;
      [pose proof (sub_digits_spec (digits b) (digits a) 0 ltac:(congruence) Db Da ltac:(lia)) as H;
       destruct (sub_digits (digits b) (digits a) 0) as [ds cf]
      |pose proof (sub_digits_spec (digits a) (digits b) 0 ltac:(congruence) Da Db ltac:(lia)) as H;
       destruct (sub_digits (digits a) (digits b) 0) as [ds cf]];
      destruct H as (Hl & Hd & Hc & H); pose proof (dvalue_bound ds Hd);
      rewrite ?Hl, ?La, ?Lb in *; assert (cf = 0) as -> by nia; rewrite !value_sgn; unfold sgn; cbn [sign digits];
      destruct Sa as [Sa|Sa], Sb as [Sb|Sb]; rewrite ?Sa, ?Sb in *; cbn; try done;
      (split_and!; [lia|done|eapply Forall_impl; [|exact Hd]; unfold digit_ok; cbn; lia|
       intros _; split; [split; cbn; [done|done|lia]|done]]).
Qed.

Theorem sub_value (a b : CFBigNum) :
  wf a -> wf b ->
  let '(r, carry) := CFBigNumSub a b in
  value r + sgn r * (BIG_DIGITS_LIMIT ^ 5 * carry) = value a - value b.
Proof.
  intros Ha Hb. pose proof (add_value a (CFBigNumNeg b) Ha (neg_wf b Hb)) as H.
  unfold CFBigNumSub. destruct (CFBigNumAdd a (CFBigNumNeg b)) as [r c].
  destruct H as [H _]. rewrite neg_value in H by done. lia.
Qed.

(** ** Initialisation *)

Lemma abs_to_unsigned_spec (w x : Z) :
  in_s w x -> abs_to_unsigned w x = Z.abs x.
Proof.
  intros Hx.
  assert (Hw : 0 < w).
  { unfold in_s in Hx. destruct (Z.le_gt_cases w 0); [|lia].
    rewrite (Z.pow_neg_r 2 (w - 1)) in Hx; lia. }
  unfold abs_to_unsigned, in_s in *. pose proof (pow2_split w Hw).
  destruct (Z.ltb_spec x 0).
  - destruct (Z.le_gt_cases 32 w).
    + rewrite Z.max_l, uwrap_swrap, uwrap_small by (unfold in_u; lia). lia.
    + rewrite Z.max_r, swrap_small, uwrap_small; [lia|unfold in_u; lia|lia| |lia].
      assert (2 ^ (w - 1) <= 2 ^ 30) by (apply Z.pow_le_mono_r; lia).
      unfold in_s. lia.
  - rewrite uwrap_small by (unfold in_u; lia). lia.
Qed.

Lemma init_canonical (ds : list Z) (x : Z) :
  length ds = 5%nat -> Forall digit_ok ds -> dvalue ds = Z.abs x ->
  let n := mkBigNum ds (init_sign x) in canonical n /\ value n = x.
Proof.
  intros Hl Hd Hv n. unfold n, init_sign, value; cbn [sign digits].
  destruct (Z.ltb_spec x 0); cbn; split; try lia;
    (split; [split; cbn; [done|done|lia]|cbn; lia]).
Qed.

Ltac solve_digits :=
  unfold uwrap, digit_ok, BIG_DIGITS_LIMIT_4, BIG_DIGITS_LIMIT_3, BIG_DIGITS_LIMIT_2,
    BIG_DIGITS_LIMIT, in_u in *; Z.div_mod_to_equations; lia.

Lemma split64_spec (u : Z) :
  in_u 64 u -> Forall digit_ok (split64 u) /\ dvalue (split64 u) = u.
Proof.
  intros Hu. unfold split64. cbn [dvalue].
  set (d2 := u / BIG_DIGITS_LIMIT_2).
  assert (0 <= d2 < 20) by (unfold d2; solve_digits).
  rewrite (uwrap_small 32 d2) by (unfold in_u; lia).
  set (r := u - d2 * BIG_DIGITS_LIMIT_2).
  assert (0 <= r < BIG_DIGITS_LIMIT_2) by (unfold r, d2; solve_digits).
  rewrite (uwrap_small 64 r) by solve_digits.
  set (d1 := r / BIG_DIGITS_LIMIT).
  assert (0 <= d1 < BIG_DIGITS_LIMIT) by (unfold d1; solve_digits).
  rewrite (uwrap_small 32 d1) by solve_digits.
  set (d0 := r - d1 * BIG_DIGITS_LIMIT).
  assert (0 <= d0 < BIG_DIGITS_LIMIT) by (unfold d0, d1; solve_digits).
  rewrite (uwrap_small 64 d0), (uwrap_small 32 d0) by solve_digits.
  split; [|unfold d0, r; unfold BIG_DIGITS_LIMIT_2; lia].
  repeat constructor; solve_digits.
Qed.

Lemma split128_spec (u : Z) :
  in_u 128 u -> Forall digit_ok (split128 u) /\ dvalue (split128 u) = u.
Proof.
  intros Hu. unfold split128. cbn [dvalue].
  set (d4 := u / BIG_DIGITS_LIMIT_4).
  assert (0 <= d4 < 1000) by (unfold d4; solve_digits).
  rewrite (uwrap_small 32 d4) by (unfold in_u; lia).
  set (r4 := u - d4 * BIG_DIGITS_LIMIT_4).
  assert (0 <= r4 < BIG_DIGITS_LIMIT_4) by (unfold r4, d4; solve_digits).
  rewrite (uwrap_small 128 r4) by solve_digits.
  set (d3 := r4 / BIG_DIGITS_LIMIT_3).
  assert (0 <= d3 < BIG_DIGITS_LIMIT) by (unfold d3; solve_digits).
  rewrite (uwrap_small 32 d3) by solve_digits.
  set (r3 := r4 - d3 * BIG_DIGITS_LIMIT_3).
  assert (0 <= r3 < BIG_DIGITS_LIMIT_3) by (unfold r3, d3; solve_digits).
  rewrite (uwrap_small 128 r3) by solve_digits.
  set (d2 := r3 / BIG_DIGITS_LIMIT_2).
  assert (0 <= d2 < BIG_DIGITS_LIMIT) by (unfold d2; solve_digits).
  rewrite (uwrap_small 32 d2) by solve_digits.
  set (r2 := r3 - d2 * BIG_DIGITS_LIMIT_2).
  assert (0 <= r2 < BIG_DIGITS_LIMIT_2) by (unfold r2, d2; solve_digits).
  rewrite (uwrap_small 128 r2) by solve_digits.
  set (d1 := r2 / BIG_DIGITS_LIMIT).
  assert (0 <= d1 < BIG_DIGITS_LIMIT) by (unfold d1; solve_digits).
  rewrite (uwrap_small 32 d1) by solve_digits.
  set (d0 := r2 - d1 * BIG_DIGITS_LIMIT).
  assert (0 <= d0 < BIG_DIGITS_LIMIT) by (unfold d0, d1; solve_digits).
  rewrite (uwrap_small 128 d0), (uwrap_small 32 d0) by solve_digits.
  split; [|unfold d0, r2, r3, r4, BIG_DIGITS_LIMIT_4, BIG_DIGITS_LIMIT_3, BIG_DIGITS_LIMIT_2; lia].
  repeat constructor; solve_digits.
Qed.

Lemma init_small (u x : Z) :
  u = Z.abs x -> 0 <= u < BIG_DIGITS_LIMIT ->
  let n := mkBigNum [u32 u; 0; 0; 0; 0] (init_sign x) in canonical n /\ value n = x.
Proof.
  intros -> Hx. rewrite uwrap_small by solve_digits.
  apply init_canonical; [done| |cbn [dvalue]; lia]. repeat constructor; solve_digits.
Qed.

Lemma init_two (u x : Z) :
  u = Z.abs x -> in_u 32 u ->
  let dig0 := u32 (u / BIG_DIGITS_LIMIT) in
  let n := mkBigNum [u32 (u - dig0 * BIG_DIGITS_LIMIT); dig0; 0; 0; 0] (init_sign x) in
  canonical n /\ value n = x.
Proof.
  intros E Hx dig0. unfold dig0. rewrite (uwrap_small 32 (u / _)) by solve_digits.
  rewrite uwrap_small by solve_digits.
  apply init_canonical; [done| |rewrite <- E; cbn [dvalue]; lia].
  repeat constructor; solve_digits.
Qed.

(** The unsigned initialisers are the signed ones of a non-negative number. *)
Lemma init_unsigned (w x : Z) :
  in_u w x -> uwrap w x = Z.abs x /\ init_sign x = 0.
Proof.
  intros Hw. rewrite uwrap_small by done. unfold init_sign, in_u in *.
  destruct (Z.ltb_spec x 0); lia.
Qed.

Definition represents (x : Z) (n : CFBigNum) : Prop := canonical n /\ value n = x.

Lemma init_unsigned_value (x : Z) :
  (in_u 8 x -> represents x (CFBigNumInitWithUInt8 x)) /\
  (in_u 16 x -> represents x (CFBigNumInitWithUInt16 x)) /\
  (in_u 32 x -> represents x (CFBigNumInitWithUInt32 x)) /\
  (in_u 64 x -> represents x (CFBigNumInitWithUInt64 x)) /\
  (in_u 128 x -> represents x (CFBigNumInitWithUInt128 x)).
Proof.
  split_and!; intros Hx; destruct (init_unsigned _ x Hx) as [E S0].
  - pose proof (init_small (u8 x) x E) as P. rewrite S0 in P. apply P.
    rewrite uwrap_small by done. unfold in_u, BIG_DIGITS_LIMIT in *. lia.
  - pose proof (init_small (u16 x) x E) as P. rewrite S0 in P. apply P.
    rewrite uwrap_small by done. unfold in_u, BIG_DIGITS_LIMIT in *. lia.
  - pose proof (init_two (u32 x) x E) as P. rewrite S0 in P. apply P.
    by apply uwrap_range.
  - destruct (split64_spec (u64 x)) as [D V]; [by apply uwrap_range|].
    pose proof (init_canonical (split64 (u64 x)) x eq_refl D ltac:(lia)) as P.
    by rewrite S0 in P.
  - destruct (split128_spec (u128 x)) as [D V]; [by apply uwrap_range|].
    pose proof (init_canonical (split128 (u128 x)) x eq_refl D ltac:(lia)) as P.
    by rewrite S0 in P.
Qed.

Lemma init_signed_value (x : Z) :
  (in_s 8 x -> represents x (CFBigNumInitWithInt8 x)) /\
  (in_s 16 x -> represents x (CFBigNumInitWithInt16 x)) /\
  (in_s 32 x -> represents x (CFBigNumInitWithInt32 x)) /\
  (in_s 64 x -> represents x (CFBigNumInitWithInt64 x)) /\
  (in_s 128 x -> represents x (CFBigNumInitWithInt128 x)).
Proof.
  split_and!; intros Hx; pose proof (abs_to_unsigned_spec _ x Hx) as E.
  - apply init_small; [done|]. rewrite E. unfold in_s, BIG_DIGITS_LIMIT in *. lia.
  - apply init_small; [done|]. rewrite E. unfold in_s, BIG_DIGITS_LIMIT in *. lia.
  - apply init_two; [done|]. rewrite E. unfold in_s, in_u in *. lia.
  - unfold CFBigNumInitWithInt64. rewrite E.
    destruct (split64_spec (Z.abs x)); [unfold in_s, in_u in *; lia|]. by apply init_canonical.
  - unfold CFBigNumInitWithInt128. rewrite E.
    destruct (split128_spec (Z.abs x)); [unfold in_s, in_u in *; lia|]. by apply init_canonical.
Qed.

(** ** Conversion back *)

Lemma wf_five (n : CFBigNum) :
  wf n -> exists d0 d1 d2 d3 d4,
    n = mkBigNum [d0; d1; d2; d3; d4] (sign n) /\
    digit_ok d0 /\ digit_ok d1 /\ digit_ok d2 /\ digit_ok d3 /\ digit_ok d4.
Proof.
  destruct n as [ds sg]. intros [L D _]. cbn in *.
  do 6 (destruct ds as [|? ds]; try done).
  repeat match goal with H : Forall _ (_ :: _) |- _ => apply Forall_cons_1 in H as [? H] end.
  by eexists _, _, _, _, _.
Qed.

Lemma neg_if_value (w : Z) (n : CFBigNum) (r : Z) :
  0 < w -> r mod 2 ^ w = dvalue (digits n) mod 2 ^ w -> in_s w (value n) ->
  neg_if w n (swrap w r) = value n.
Proof.
  intros Hw Hr Hv. unfold neg_if, value in *. pose proof (pow2_pos w ltac:(lia)).
  destruct (sign n <? 0).
  - rewrite swrap_mul_r by done. transitivity (swrap w (- dvalue (digits n))); [|by apply swrap_small].
    apply swrap_congr; [lia|].
    replace (-1 * r) with (0 - r) by lia. replace (- dvalue (digits n)) with (0 - dvalue (digits n)) by lia.
    by rewrite Zminus_mod, Hr, <- Zminus_mod.
  - rewrite (swrap_congr w r (dvalue (digits n))) by (lia || done). by apply swrap_small.
Qed.

Lemma dig_dvalue (n : CFBigNum) :
  wf n ->
  (forall i, (i < 5)%nat -> 0 <= dig n i < BIG_DIGITS_LIMIT) /\
  dvalue (digits n) = dig n 0 + BIG_DIGITS_LIMIT * dig n 1 + BIG_DIGITS_LIMIT_2 * dig n 2
    + BIG_DIGITS_LIMIT_3 * dig n 3 + BIG_DIGITS_LIMIT_4 * dig n 4.
Proof.
  intros Hwf. destruct (wf_five n Hwf) as (d0 & d1 & d2 & d3 & d4 & -> & H0 & H1 & H2 & H3 & H4).
  split.
  - intros i Hi. unfold dig; cbn [digits]. do 5 (destruct i as [|i]; [done|]). lia.
  - unfold dig; cbn [digits dvalue nth].
    unfold BIG_DIGITS_LIMIT_4, BIG_DIGITS_LIMIT_3, BIG_DIGITS_LIMIT_2. lia.
Qed.

(** Puts the five digits, their bounds and the value of [n] in the context as
    linear facts. *)
Ltac expose_digits n Hwf :=
  let B := fresh "B" in let V := fresh "V" in
  destruct (dig_dvalue n Hwf) as [B V];
  pose proof (B 0%nat ltac:(lia)); pose proof (B 1%nat ltac:(lia)); pose proof (B 2%nat ltac:(lia));
  pose proof (B 3%nat ltac:(lia)); pose proof (B 4%nat ltac:(lia)); clear B;
  assert (value n = dvalue (digits n) \/ value n = - dvalue (digits n))
    by (unfold value; destruct (sign n <? 0); tauto);
  unfold BIG_DIGITS_LIMIT_4, BIG_DIGITS_LIMIT_3, BIG_DIGITS_LIMIT_2, BIG_DIGITS_LIMIT in *.

Ltac solve_get :=
  unfold in_s, in_u in *; repeat (rewrite swrap_small by (unfold in_s; lia));
  f_equal; lia.

Lemma get_signed_value (n : CFBigNum) :
  wf n ->
  (in_s 8 (value n) -> CFBigNumGetInt8 n = value n) /\
  (in_s 16 (value n) -> CFBigNumGetInt16 n = value n) /\
  (in_s 32 (value n) -> CFBigNumGetInt32 n = value n) /\
  (in_s 64 (value n) -> CFBigNumGetInt64 n = value n) /\
  (in_s 128 (value n) -> CFBigNumGetInt128 n = value n).
Proof.
  intros Hwf. expose_digits n Hwf.
  split_and!; intros Hv;
    unfold CFBigNumGetInt8, CFBigNumGetInt16, CFBigNumGetInt32, CFBigNumGetInt64,
      CFBigNumGetInt128, BIG_DIGITS_LIMIT_4, BIG_DIGITS_LIMIT_3, BIG_DIGITS_LIMIT_2,
      BIG_DIGITS_LIMIT; repeat (rewrite <- ?Z.add_assoc; progress autorewrite with cwrap);
    (apply neg_if_value; [lia| |done]); solve_get.
Qed.

Lemma get_unsigned_value (n : CFBigNum) :
  wf n ->
  (in_u 8 (value n) -> CFBigNumGetUInt8 n = value n) /\
  (in_u 16 (value n) -> CFBigNumGetUInt16 n = value n) /\
  (in_u 32 (value n) -> CFBigNumGetUInt32 n = value n) /\
  (in_u 64 (value n) -> CFBigNumGetUInt64 n = value n) /\
  (in_u 128 (value n) -> CFBigNumGetUInt128 n = value n).
Proof.
  intros Hwf. expose_digits n Hwf.
  split_and!; intros Hv;
    unfold CFBigNumGetUInt8, CFBigNumGetUInt16, CFBigNumGetUInt32, CFBigNumGetUInt64,
      CFBigNumGetUInt128, BIG_DIGITS_LIMIT_4, BIG_DIGITS_LIMIT_3, BIG_DIGITS_LIMIT_2,
      BIG_DIGITS_LIMIT; repeat (rewrite <- ?Z.add_assoc; progress autorewrite with cwrap);
    unfold in_u in *; repeat (rewrite swrap_small by (unfold in_s; lia));
    (rewrite uwrap_small by (unfold in_u; lia)); lia.
Qed.

Theorem int_roundtrip (x : Z) :
  (in_s 8 x -> represents x (CFBigNumInitWithInt8 x) /\ CFBigNumGetInt8 (CFBigNumInitWithInt8 x) = x) /\
  (in_s 16 x -> represents x (CFBigNumInitWithInt16 x) /\ CFBigNumGetInt16 (CFBigNumInitWithInt16 x) = x) /\
  (in_s 32 x -> represents x (CFBigNumInitWithInt32 x) /\ CFBigNumGetInt32 (CFBigNumInitWithInt32 x) = x) /\
  (in_s 64 x -> represents x (CFBigNumInitWithInt64 x) /\ CFBigNumGetInt64 (CFBigNumInitWithInt64 x) = x) /\
  (in_s 128 x -> represents x (CFBigNumInitWithInt128 x) /\ CFBigNumGetInt128 (CFBigNumInitWithInt128 x) = x) /\
  (in_u 8 x -> represents x (CFBigNumInitWithUInt8 x) /\ CFBigNumGetUInt8 (CFBigNumInitWithUInt8 x) = x) /\
  (in_u 16 x -> represents x (CFBigNumInitWithUInt16 x) /\ CFBigNumGetUInt16 (CFBigNumInitWithUInt16 x) = x) /\
  (in_u 32 x -> represents x (CFBigNumInitWithUInt32 x) /\ CFBigNumGetUInt32 (CFBigNumInitWithUInt32 x) = x) /\
  (in_u 64 x -> represents x (CFBigNumInitWithUInt64 x) /\ CFBigNumGetUInt64 (CFBigNumInitWithUInt64 x) = x) /\
  (in_u 128 x -> represents x (CFBigNumInitWithUInt128 x) /\ CFBigNumGetUInt128 (CFBigNumInitWithUInt128 x) = x).
Proof.
  destruct (init_signed_value x) as (S8 & S16 & S32 & S64 & S128).
  destruct (init_unsigned_value x) as (U8 & U16 & U32 & U64 & U128).
  split_and!; intros Hx;
    match goal with |- represents _ ?n /\ _ =>
      assert (R : represents x n) by auto; split; [exact R|];
      destruct R as [[W _] V];
      pose proof (get_signed_value n W) as G; pose proof (get_unsigned_value n W) as G';
      rewrite V in G, G'; tauto
    end.
Qed.

(** ** CFNumbers from big numbers *)

Lemma dvalue_inj (a b : list Z) :
  length a = length b -> Forall digit_ok a -> Forall digit_ok b -> dvalue a = dvalue b -> a = b.
Proof.
  revert b. induction a as [|x a IH]; intros [|y b] L Ha Hb E; try done.
  apply Forall_cons_1 in Ha as [Hx Ha], Hb as [Hy Hb]. cbn [dvalue] in E. injection L as L.
  unfold digit_ok, BIG_DIGITS_LIMIT in Hx, Hy, E.
  pose proof (dvalue_bound a Ha). pose proof (dvalue_bound b Hb).
  assert (x = y) as -> by lia. f_equal. apply IH; [done|done|done|lia].
Qed.

(** A number has one canonical representation. *)
Lemma canonical_inj (a b : CFBigNum) :
  canonical a -> canonical b -> value a = value b -> a = b.
Proof.
  intros [[La Da Sa] Za] [[Lb Db Sb] Zb] E. pose proof (dvalue_bound _ Da).
  pose proof (dvalue_bound _ Db). unfold value in E. destruct a as [da sa], b as [db sb]; cbn in *.
  destruct Sa as [-> | ->], Sb as [-> | ->]; cbn in E;
    try specialize (Za eq_refl); try specialize (Zb eq_refl); try lia;
    f_equal; apply dvalue_inj; (congruence || done || lia).
Qed.

Lemma within_spec (n mx mn : CFBigNum) :
  canonical n -> canonical mx -> canonical mn ->
  within n mx mn = bool_decide (value mn <= value n <= value mx).
Proof.
  intros Hn Hmx Hmn. unfold within. rewrite !compare_value by done.
  destruct (Z.compare_spec (value n) (value mx)), (Z.compare_spec (value n) (value mn)); cbn;
    symmetry; (apply bool_decide_eq_true; lia) || (apply bool_decide_eq_false; lia).
Qed.

Lemma forallb_zero_from (n : CFBigNum) (i : nat) :
  wf n -> (i <= 5)%nat ->
  zero_from n i = bool_decide (Z.abs (value n) < BIG_DIGITS_LIMIT ^ Z.of_nat i).
Proof.
  intros [L D _] Hi. unfold zero_from. rewrite dvalue_zero by (by apply Forall_drop).
  assert (A : Z.abs (value n) = dvalue (digits n)).
  { pose proof (dvalue_bound _ D). unfold value. destruct (sign n <? 0); lia. }
  pose proof (dvalue_app (take i (digits n)) (drop i (digits n))) as E.
  pose proof (dvalue_bound (take i (digits n)) ltac:(by apply Forall_take)) as Bt.
  pose proof (dvalue_bound (drop i (digits n)) ltac:(by apply Forall_drop)) as Bd.
  rewrite take_drop, length_take, Nat.min_l in E by lia.
  rewrite length_take, Nat.min_l in Bt by lia.
  apply bool_decide_ext. rewrite A, E. set (P := BIG_DIGITS_LIMIT ^ Z.of_nat i) in *.
  split; [intros ->; lia|]. nia.
Qed.

Lemma le_load_store (k : nat) (x : Z) : le_load k (le_store k x) = x mod 2 ^ (8 * Z.of_nat k).
Proof.
  revert x. induction k as [|k IH]; intros x; [by rewrite Z.mod_1_r|].
  cbn [le_load le_store nth tail]. rewrite IH.
  replace (8 * Z.of_nat (S k)) with (8 + 8 * Z.of_nat k) by lia.
  rewrite Z.pow_add_r by lia. change (2 ^ 8) with 256.
  rewrite Z.rem_mul_r by (try apply Z.pow_nonzero; lia). lia.
Qed.

(** The narrowest CFNumber type the code picks for a value. *)
Definition narrowest (v : Z) : option (CFNumberType * nat) :=
  if bool_decide (Z.abs v <= INT8_MAX) then Some (kCFNumberSInt8Type, 1%nat)
  else if bool_decide (Z.abs v <= INT16_MAX) then Some (kCFNumberSInt16Type, 2%nat)
  else if bool_decide (INT32_MIN <= v <= INT32_MAX) then Some (kCFNumberSInt32Type, 4%nat)
  else if bool_decide (INT64_MIN <= v <= INT64_MAX) then Some (kCFNumberSInt64Type, 8%nat)
  else if bool_decide (INT128_MIN <= v <= INT128_MAX) then Some (kCFNumberSInt128Type, 16%nat)
  else None.

Lemma limits_represented :
  represents INT32_MAX (CFBigNumInitWithInt32 INT32_MAX) /\
  represents INT32_MIN (CFBigNumInitWithInt32 INT32_MIN) /\
  represents INT64_MAX (CFBigNumInitWithInt64 INT64_MAX) /\
  represents INT64_MIN (CFBigNumInitWithInt64 INT64_MIN) /\
  represents INT128_MAX (CFBigNumInitWithInt128 INT128_MAX) /\
  represents INT128_MIN (CFBigNumInitWithInt128 INT128_MIN).
Proof.
  split_and!; apply init_signed_value; unfold in_s, INT32_MAX, INT32_MIN, INT64_MAX,
    INT64_MIN, INT128_MAX, INT128_MIN; lia.
Qed.

Theorem create_number_spec (n : CFBigNum) :
  canonical n ->
  CFNumberCreateWithBigNum n =
    match narrowest (value n) with
    | Some (t, k) => Some (CFNumberCreate t (le_store k (value n)))
    | None => None
    end.
Proof.
  intros Hn. pose proof (canonical_wf n Hn) as Hwf.
  assert (A : Z.abs (value n) < BIG_DIGITS_LIMIT -> dig n 0 = Z.abs (value n)).
  { intros A. expose_digits n Hwf. lia. }
  destruct (get_signed_value n Hwf) as (G8 & G16 & G32 & G64 & G128).
  destruct limits_represented as ([C1 V1] & [C2 V2] & [C3 V3] & [C4 V4] & [C5 V5] & [C6 V6]).
  unfold CFNumberCreateWithBigNum, narrowest.
  rewrite !(forallb_zero_from n) by (assumption || lia).
  rewrite (within_spec n _ _ Hn C1 C2), (within_spec n _ _ Hn C3 C4), (within_spec n _ _ Hn C5 C6).
  rewrite V1, V2, V3, V4, V5, V6. clear C1 C2 C3 C4 C5 C6 V1 V2 V3 V4 V5 V6.
  unfold in_s, INT8_MAX, INT16_MAX, INT32_MAX, INT32_MIN, INT64_MAX, INT64_MIN, INT128_MAX,
    INT128_MIN, BIG_DIGITS_LIMIT in *.
  change (Z.of_nat 1) with 1. change (Z.of_nat 2) with 2. change (Z.of_nat 3) with 3.
  repeat case_bool_decide; cbn [andb]; try lia;
    repeat match goal with |- context [?a <=? ?b] => destruct (Z.leb_spec a b); cbn [andb] end;
    try lia;
    repeat f_equal; (apply G8 || apply G16 || apply G32 || apply G64 || apply G128); lia.
Qed.

Lemma narrowest_small (v : Z) :
  in_s 64 v ->
  exists t k, narrowest v = Some (t, k) /\ forall r, represents v (CFBigNumInitWithBytes r (le_store k v) t).
Proof.
  intros Hv. unfold narrowest. destruct (init_signed_value v) as (I8 & I16 & I32 & I64 & _).
  unfold in_s, INT8_MAX, INT16_MAX, INT32_MIN, INT32_MAX, INT64_MIN, INT64_MAX in *.
  repeat case_bool_decide; try lia; (eexists _, _; split; [reflexivity|]; intros r);
    cbn [CFBigNumInitWithBytes]; rewrite le_load_store;
    change (8 * Z.of_nat 1) with 8; change (8 * Z.of_nat 2) with 16;
    change (8 * Z.of_nat 4) with 32; change (8 * Z.of_nat 8) with 64;
    fold (uwrap 8 v) (uwrap 16 v) (uwrap 32 v) (uwrap 64 v);
    rewrite swrap_uwrap, swrap_small by (unfold in_s; lia); auto with lia.
Qed.

Theorem number_roundtrip (n r : CFBigNum) :
  canonical n -> in_s 64 (value n) ->
  exists num, CFNumberCreateWithBigNum n = Some num /\
    CFBigNumInitWithBytes r (nbytes num) (ntype num) = n.
Proof.
  intros Hn Hv. rewrite create_number_spec by done.
  destruct (narrowest_small _ Hv) as (t & k & -> & R). eexists; split; [done|]. cbn.
  destruct (R r). by apply canonical_inj.
Qed.

Lemma length_le_store (k : nat) (x : Z) : length (le_store k x) = k.
Proof. revert x. induction k; intros; cbn; auto. Qed.

Lemma le_store_add (j k : nat) (x : Z) :
  le_store (j + k) x = le_store j x ++ le_store k (x / 2 ^ (8 * Z.of_nat j)).
Proof.
  revert x. induction j as [|j IH]; intros x; [by rewrite Z.div_1_r|].
  cbn [Nat.add le_store app]. rewrite IH.
  replace (8 * Z.of_nat (S j)) with (8 + 8 * Z.of_nat j) by lia.
  rewrite Z.pow_add_r by lia. change (2 ^ 8) with 256. by rewrite Z.div_div by lia.
Qed.

Lemma le_load_app (k : nat) (a b : list Z) : length a = k -> le_load k (a ++ b) = le_load k a.
Proof. intros <-. induction a as [|x a IH]; cbn [length le_load app nth tail]; [done|]. by rewrite IH. Qed.

Theorem number_128_halves_swapped (n r : CFBigNum) :
  canonical n -> in_s 128 (value n) -> ~ in_s 64 (value n) ->
  exists num, CFNumberCreateWithBigNum n = Some num /\
    value (CFBigNumInitWithBytes r (nbytes num) (ntype num)) =
      s128 (u64 (value n / 2 ^ 64) + u64 (value n) * 2 ^ 64).
Proof.
  intros Hn Hv Hv'. rewrite create_number_spec by done. unfold narrowest.
  unfold in_s, INT8_MAX, INT16_MAX, INT32_MIN, INT32_MAX, INT64_MIN, INT64_MAX, INT128_MIN,
    INT128_MAX in *.
  repeat case_bool_decide; try lia. eexists; split; [done|]. cbn [CFBigNumInitWithBytes ntype nbytes].
  change 16%nat with (8 + 8)%nat. rewrite le_store_add.
  rewrite le_load_app by apply length_le_store.
  rewrite drop_app_length' by (by rewrite length_le_store). rewrite !le_load_store.
  change (8 * Z.of_nat 8) with 64. fold (u64 (value n)) (u64 (value n / 2 ^ 64)).
  rewrite swrap_add_r, swrap_uwrap by lia.
  destruct (init_signed_value (s128 (u64 (u64 (value n / 2 ^ 64)) + s64 (value n) * 2 ^ 64)))
    as (_ & _ & _ & _ & I). destruct (I ltac:(by apply swrap_range)) as [_ ->].
  apply swrap_congr; [lia|]. unfold uwrap. rewrite Z.mod_mod by lia.
  rewrite (Z.add_mod (_ mod _)), (Z.add_mod (_ mod _) (_ mod _ * _)) by lia. f_equal. f_equal.
  change (2 ^ 128) with (2 ^ 64 * 2 ^ 64). rewrite !Z.mul_mod_distr_r, swrap_mod, Z.mod_mod by lia.
  done.
Qed.

(** ** Decimal strings *)

(** The [k] low decimal digits of [d]. *)
Fixpoint dec (k : nat) (d : Z) : list Z :=
  match k with
  | O => []
  | S k => dec k (d / 10) ++ [ch_0 + d mod 10]
  end.

Lemma length_dec (k : nat) (d : Z) : length (dec k d) = k.
Proof. revert d. induction k; intros; cbn; [done|]. rewrite length_app, IHk; cbn; lia. Qed.

Lemma dec_isdigit (k : nat) (d : Z) : Forall (fun c => isdigit c = true) (dec k d).
Proof.
  revert d. induction k; intros; cbn; [constructor|]. apply Forall_app. split; [done|].
  constructor; [|constructor]. pose proof (Z.mod_pos_bound d 10 ltac:(lia)).
  unfold isdigit, ch_0. apply andb_true_intro. split; apply Z.leb_le; lia.
Qed.

Lemma dec_app (j k : nat) (a b : Z) :
  0 <= b < 10 ^ Z.of_nat k -> dec (j + k) (a * 10 ^ Z.of_nat k + b) = dec j a ++ dec k b.
Proof.
  revert b. induction k as [|k IH]; intros b Hb.
  - rewrite Nat.add_0_r, app_nil_r. cbn in *. f_equal; lia.
  - rewrite Nat.add_succ_r. cbn [dec]. rewrite Nat2Z.inj_succ, Z.pow_succ_r in * by lia.
    rewrite app_assoc, <- (IH (b / 10)) by (split; [apply Z.div_pos|apply Z.div_lt_upper_bound]; lia).
    f_equal; [f_equal|f_equal; f_equal].
    + rewrite <- (Z.div_add_l _ 10) by lia. f_equal; lia.
    + rewrite <- (Z_mod_plus_full b (a * 10 ^ Z.of_nat k) 10). f_equal; lia.
Qed.

Lemma dec_zero (k : nat) : dec k 0 = replicate k ch_0.
Proof.
  induction k; [done|]. cbn [dec]. change (0 / 10) with 0. rewrite IHk.
  by rewrite replicate_S_end.
Qed.

Lemma udec_dec (fuel k : nat) (d : Z) :
  0 <= d < 10 ^ Z.of_nat k -> d < 10 ^ Z.of_nat fuel -> (0 < k)%nat -> (0 < fuel)%nat ->
  (length (udec fuel d) <= k)%nat /\
  replicate (k - length (udec fuel d)) ch_0 ++ udec fuel d = dec k d.
Proof.
  revert k d. induction fuel as [|fuel IH]; intros k d Hd Hf Hk Hfuel; [lia|].
  destruct k as [|k]; [lia|]. cbn [udec dec]. rewrite !Nat2Z.inj_succ, !Z.pow_succ_r in * by lia.
  destruct (Z.ltb_spec d 10).
  - cbn. split; [lia|]. rewrite Z.div_small, Z.mod_small, dec_zero by lia.
    f_equal. f_equal. lia.
  - assert (10 <= 10 * 10 ^ Z.of_nat k - 1) by lia.
    assert (0 < k)%nat by (destruct k; [cbn in *; lia|lia]).
    assert (0 < fuel)%nat by (destruct fuel; [cbn in *; lia|lia]).
    assert (0 <= d / 10 < 10 ^ Z.of_nat k)
      by (split; [apply Z.div_pos|apply Z.div_lt_upper_bound]; lia).
    assert (d / 10 < 10 ^ Z.of_nat fuel) by (apply Z.div_lt_upper_bound; lia).
    destruct (IH k (d / 10)) as [L E]; [done..|].
    rewrite length_app; cbn [length]. split; [lia|].
    rewrite app_assoc, <- E. do 3 f_equal. lia.
Qed.

Lemma fmt_09u_dec (d : Z) : digit_ok d -> fmt_09u d = dec 9 d.
Proof.
  unfold digit_ok, BIG_DIGITS_LIMIT. intros Hd. apply (udec_dec 10 9 d); cbn; lia.
Qed.

Lemma digits_value_app (s t : list Z) (acc : Z) :
  Forall (fun c => isdigit c = true) s ->
  digits_value acc (s ++ t) = digits_value (digits_value acc s) t.
Proof.
  intros H. revert acc. induction H as [|c s Hc _ IH]; intros acc; [done|].
  cbn [app digits_value]. by rewrite Hc.
Qed.

Lemma digits_value_dec (k : nat) (d acc : Z) :
  0 <= d < 10 ^ Z.of_nat k -> digits_value acc (dec k d) = acc * 10 ^ Z.of_nat k + d.
Proof.
  revert d acc. induction k as [|k IH]; intros d acc Hd; [cbn in *; lia|].
  rewrite Nat2Z.inj_succ, Z.pow_succ_r in * by lia. cbn [dec].
  rewrite digits_value_app by apply dec_isdigit.
  rewrite IH by (split; [apply Z.div_pos|apply Z.div_lt_upper_bound]; lia).
  cbn [digits_value]. pose proof (Z.mod_pos_bound d 10 ltac:(lia)).
  assert (isdigit (ch_0 + d mod 10) = true) as ->
    by (unfold isdigit, ch_0; apply andb_true_intro; split; apply Z.leb_le; lia).
  pose proof (Z.div_mod d 10 ltac:(lia)). lia.
Qed.

Lemma atol_dec (k : nat) (d : Z) :
  (k <= 18)%nat -> 0 <= d < 10 ^ Z.of_nat k -> atol (dec k d) = d.
Proof.
  intros Hk Hd. assert (10 ^ Z.of_nat k <= 10 ^ 18) by (apply Z.pow_le_mono_r; lia).
  pose proof (dec_isdigit k d) as D. pose proof (digits_value_dec k d 0 Hd) as V.
  unfold atol. destruct (dec k d) as [|c s]; [cbn in V |- *; lia|].
  apply Forall_cons_1 in D as [D _]. cbn [skip_spaces].
  unfold isdigit, ch_0 in D. apply andb_prop in D as [D1 D2]. apply Z.leb_le in D1, D2.
  unfold isspace. destruct (Z.eqb_spec c 32); [lia|]. destruct (Z.leb_spec c 13); [lia|].
  rewrite andb_false_r. cbn [orb].
  destruct (Z.eqb_spec c ch_minus) as [E|_]; [unfold ch_minus in E; lia|].
  destruct (Z.eqb_spec c ch_plus) as [E|_]; [unfold ch_plus in E; lia|].
  rewrite V. unfold INT64_MIN, INT64_MAX. lia.
Qed.

Lemma tmp_dec (n : CFBigNum) :
  wf n -> snprintf_tmp n = dec 45 (dvalue (digits n)).
Proof.
  intros Hwf. destruct (dig_dvalue n Hwf) as [B V]. unfold snprintf_tmp.
  rewrite !fmt_09u_dec by (apply B; lia).
  rewrite take_ge by (rewrite !length_app, !length_dec; lia).
  rewrite V. unfold BIG_DIGITS_LIMIT_4, BIG_DIGITS_LIMIT_3, BIG_DIGITS_LIMIT_2, BIG_DIGITS_LIMIT in *.
  pose proof (B 0%nat ltac:(lia)). pose proof (B 1%nat ltac:(lia)). pose proof (B 2%nat ltac:(lia)).
  pose proof (B 3%nat ltac:(lia)).
  change 45%nat with (9 + (9 + (9 + (9 + 9))))%nat.
  rewrite <- (dec_app 9 9), <- (dec_app 9 (9 + 9)), <- (dec_app 9 (9 + (9 + 9))),
    <- (dec_app 9 (9 + (9 + (9 + 9)))) by (cbn; lia).
  f_equal. cbn. lia.
Qed.

Lemma skip_zeros_dec (k : nat) (v : Z) :
  0 <= v < 10 ^ Z.of_nat k ->
  exists m, (m <= k)%nat /\ v < 10 ^ Z.of_nat m /\ (m = 0%nat <-> v = 0) /\
    skip_zeros (dec k v) = dec m v /\ skip_zeros (dec m v) = dec m v.
Proof.
  induction k as [|k IH]; intros Hv.
  { exists 0%nat. cbn in *. split_and!; [lia..|done|done]. }
  rewrite Nat2Z.inj_succ, Z.pow_succ_r in Hv by lia.
  destruct (Z.lt_ge_cases v (10 ^ Z.of_nat k)).
  - destruct IH as (m & Hm & Hv' & H0 & E & E'); [lia|].
    exists m. split_and!; [lia|done|done| |done].
    pose proof (dec_app 1 k 0 v ltac:(lia)) as D.
    rewrite Z.mul_0_l, Z.add_0_l in D. change (1 + k)%nat with (S k) in D. by rewrite D.
  - assert (1 <= v / 10 ^ Z.of_nat k < 10)
      by (split; [apply Z.div_le_lower_bound|apply Z.div_lt_upper_bound]; lia).
    assert (D : skip_zeros (dec (S k) v) = dec (S k) v).
    { pose proof (Z.mod_pos_bound v (10 ^ Z.of_nat k) ltac:(lia)) as Hm.
      pose proof (dec_app 1 k (v / 10 ^ Z.of_nat k) _ Hm) as D.
      rewrite (Z.mul_comm (v / _)), <- Z.div_mod in D by lia. change (S k) with (1 + k)%nat.
      rewrite D. cbn [dec app skip_zeros]. rewrite Z.mod_small by lia.
      destruct (Z.eqb_spec (ch_0 + v / 10 ^ Z.of_nat k) ch_0); [lia|done]. }
    exists (S k). rewrite Nat2Z.inj_succ, Z.pow_succ_r by lia. split_and!; (done || lia).
Qed.

Lemma skip_zeros_replicate (j : nat) (s : list Z) :
  skip_zeros (replicate j ch_0 ++ s) = skip_zeros s.
Proof. induction j; cbn; auto. Qed.

(** The base-10^9 digits of a number. *)
Fixpoint big_digits (k : nat) (v : Z) : list Z :=
  match k with
  | O => []
  | S k => v mod BIG_DIGITS_LIMIT :: big_digits k (v / BIG_DIGITS_LIMIT)
  end.

Lemma big_digits_spec (k : nat) (v : Z) :
  0 <= v < BIG_DIGITS_LIMIT ^ Z.of_nat k ->
  length (big_digits k v) = k /\ Forall digit_ok (big_digits k v) /\ dvalue (big_digits k v) = v.
Proof.
  revert v. induction k as [|k IH]; intros v Hv; cbn [big_digits length dvalue].
  { cbn in Hv. split_and!; [done|constructor|lia]. }
  rewrite Nat2Z.inj_succ, Z.pow_succ_r in Hv by lia.
  assert (0 < BIG_DIGITS_LIMIT) by done.
  destruct (IH (v / BIG_DIGITS_LIMIT)) as (L & D & V).
  { split; [apply Z.div_pos|apply Z.div_lt_upper_bound]; lia. }
  pose proof (Z.mod_pos_bound v BIG_DIGITS_LIMIT ltac:(lia)).
  pose proof (Z.div_mod v BIG_DIGITS_LIMIT ltac:(lia)).
  split_and!; [lia|by constructor|lia].
Qed.

Lemma big_digits_zero (k : nat) : big_digits k 0 = replicate k 0.
Proof. induction k; cbn [big_digits replicate]; [done|]. f_equal. exact IHk. Qed.

Lemma from_chunks_dec (room m : nat) (v : Z) :
  0 <= v < 10 ^ Z.of_nat m -> (m <= 9 * S room)%nat ->
  from_chunks room (dec m v) = big_digits (S room) v.
Proof.
  assert (S9 : forall m v, 0 <= v < 10 ^ Z.of_nat m -> (m <= 9)%nat ->
    u32 (atol (dec m v)) = v /\ v mod BIG_DIGITS_LIMIT = v /\ v / BIG_DIGITS_LIMIT = 0).
  { intros m' v' Hv Hm. assert (10 ^ Z.of_nat m' <= 10 ^ 9) by (apply Z.pow_le_mono_r; lia).
    rewrite atol_dec by lia. unfold BIG_DIGITS_LIMIT. rewrite uwrap_small by (unfold in_u; lia).
    split_and!; [done|apply Z.mod_small; lia|apply Z.div_small; lia]. }
  revert m v. induction room as [|room IH]; intros m v Hv Hm; cbn [from_chunks].
  { destruct (S9 m v Hv ltac:(lia)) as (-> & E & _). cbn [big_digits]. by rewrite E. }
  rewrite length_dec. destruct (Nat.ltb_spec 9 m).
  - assert (Hr : 0 <= v mod 10 ^ 9 < 10 ^ 9) by (apply Z.mod_pos_bound; lia).
    pose proof (dec_app (m - 9) 9 (v / 10 ^ 9) (v mod 10 ^ 9) Hr) as D.
    rewrite Nat.sub_add in D by lia. change (10 ^ Z.of_nat 9) with (10 ^ 9) in D.
    rewrite (Z.mul_comm (v / _)), <- Z.div_mod in D by lia. rewrite D.
    rewrite drop_app_length', take_app_length' by (by rewrite length_dec).
    rewrite IH; [|split; [apply Z.div_pos; lia|]|lia].
    + destruct (S9 9%nat _ Hr ltac:(lia)) as (-> & _ & _). done.
    + apply Z.div_lt_upper_bound; [lia|]. rewrite <- Z.pow_add_r by lia.
      replace (9 + Z.of_nat (m - 9)) with (Z.of_nat m) by lia. lia.
  - destruct (S9 m v Hv ltac:(lia)) as (-> & E & E').
    change (big_digits (S (S room)) v)
      with (v mod BIG_DIGITS_LIMIT :: big_digits (S room) (v / BIG_DIGITS_LIMIT)).
    by rewrite E, E', big_digits_zero.
Qed.

(** Parsing a decimal string, possibly with leading zeros, after the sign. *)
Lemma parse_unsigned (j k : nat) (v : Z) :
  0 <= v < 10 ^ Z.of_nat k -> (k <= 45)%nat ->
  match skip_zeros (replicate j ch_0 ++ dec k v) with
  | [] => replicate 5 0
  | w => from_chunks 4 w
  end = big_digits 5 v.
Proof.
  intros Hv Hk. rewrite skip_zeros_replicate.
  destruct (skip_zeros_dec k v Hv) as (m & Hm & Hv' & H0 & -> & _).
  destruct (dec m v) as [|c s] eqn:E.
  - assert (m = 0%nat) as -> by (by rewrite <- (length_dec m v), E).
    rewrite (proj1 H0 eq_refl). by rewrite big_digits_zero.
  - rewrite <- E. apply from_chunks_dec; lia.
Qed.

(** The C string a buffer holds. *)
Fixpoint cstr (buffer : list Z) : list Z :=
  match buffer with
  | c :: b => if c =? ch_nul then [] else c :: cstr b
  | [] => []
  end.

Lemma cstr_app (s b : list Z) :
  Forall (fun c => c <> ch_nul) s -> cstr (s ++ ch_nul :: b) = s.
Proof.
  induction 1 as [|c s Hc _ IH]; cbn; [done|].
  destruct (Z.eqb_spec c ch_nul); [done|]. by rewrite IH.
Qed.

(** The two output formats: an optional sign, some zeros, and digits of the value. *)
Lemma to_cstring_shape (n : CFBigNum) (zeros plus : bool) (buffer : list Z) :
  wf n -> (47 <= length buffer)%nat ->
  exists buf j k, CFBigNumToCString n zeros plus buffer = Ok buf /\
    (k <= 45)%nat /\ dvalue (digits n) < 10 ^ Z.of_nat k /\ (0 < j + k)%nat /\
    cstr buf = (if sign n <? 0 then [ch_minus] else if plus then [ch_plus] else [])
               ++ replicate j ch_0 ++ dec k (dvalue (digits n)).
Proof.
  intros Hwf Hb. unfold CFBigNumToCString. rewrite tmp_dec by done.
  pose proof (dvalue_bound _ (wf_digits n Hwf)) as B. rewrite (wf_length n Hwf) in B.
  change (BIG_DIGITS_LIMIT ^ Z.of_nat 5) with (10 ^ Z.of_nat 45) in B. rename B into B'.
  set (v := dvalue (digits n)) in *.
  assert (N : forall j k, Forall (fun c => c <> ch_nul) (replicate j ch_0 ++ dec k v)).
  { intros j k. apply Forall_app; split; [by apply Forall_replicate|].
    eapply Forall_impl; [|apply dec_isdigit]. intros c Hc ->. done. }
  destruct buffer as [|b0 buffer]; [cbn in Hb; lia|]. cbn [length] in Hb.
  set (pre := if sign n <? 0 then [ch_minus] else if plus then [ch_plus] else []).
  assert (P : exists b, (46 <= length b)%nat /\ Forall (fun c => c <> ch_nul) pre /\
    (if sign n <? 0 then Ok ([ch_minus], buffer)
     else if plus then Ok ([ch_plus], buffer) else Ok ([], b0 :: buffer)) = Ok (pre, b)).
  { subst pre. destruct (sign n <? 0); [|destruct plus]; (eexists; split; [|split; [|reflexivity]]);
      cbn; try lia; repeat constructor; done. }
  destruct P as (b & Lb & Np & ->). cbn [mbind result_bind]. destruct zeros.
  - rewrite Nat.min_l, Nat.sub_diag, drop_0 by lia. rewrite take_replicate.
    set (j := ((length b - 46) `min` length b)%nat).
    eexists _, j, 45%nat. split; [reflexivity|]. split_and!; [lia|lia|lia|].
    rewrite (app_assoc (replicate j ch_0)), (app_assoc pre). apply cstr_app.
    apply Forall_app; split; [done|apply N].
  - destruct (skip_zeros_dec 45 v B') as (m & Hm & Hv & H0 & E & _). rewrite E.
    assert (W : exists j k, (match dec m v with [] => [ch_0] | _ => dec m v end) = replicate j ch_0 ++ dec k v
      /\ (k <= 45)%nat /\ v < 10 ^ Z.of_nat k /\ (0 < j + k <= 45)%nat).
    { destruct m as [|m].
      - exists 1%nat, 0%nat. split_and!; (done || lia).
      - exists 0%nat, (S m). split_and!; [|lia..].
        pose proof (length_dec (S m) v) as L. by destruct (dec (S m) v). }
    destruct W as (j & k & -> & Hk & Hv' & Hjk).
    eexists _, j, k. split; [reflexivity|]. split_and!; [lia|lia|lia|].
    unfold strlcpy. destruct (length b) as [|room] eqn:El; [lia|].
    rewrite (take_ge (_ ++ _)) by (rewrite length_app, length_replicate, length_dec; lia).
    cbn zeta. rewrite <- app_assoc. cbn [app]. rewrite app_assoc. apply cstr_app.
    apply Forall_app; split; [done|apply N].
Qed.

Lemma from_cstring_spec (sg : Z) (plus : bool) (j k : nat) (v : Z) :
  0 <= v < 10 ^ Z.of_nat k -> (k <= 45)%nat -> (0 < j + k)%nat -> sg = 0 \/ sg = -1 ->
  CFBigNumFromCString
    ((if sg <? 0 then [ch_minus] else if plus then [ch_plus] else [])
     ++ replicate j ch_0 ++ dec k v) = mkBigNum (big_digits 5 v) sg.
Proof.
  intros Hv Hk Hjk Hsg. pose proof (parse_unsigned j k v Hv Hk) as P.
  assert (Q : forall s, (match skip_zeros (replicate j ch_0 ++ dec k v) with
    | [] => mkBigNum (replicate 5 0) s | _ => mkBigNum (from_chunks 4 (skip_zeros (replicate j ch_0 ++ dec k v))) s end)
    = mkBigNum (big_digits 5 v) s).
  { intros s. rewrite <- P. by destruct (skip_zeros _). }
  unfold CFBigNumFromCString. destruct Hsg as [-> | ->]; cbn [Z.ltb Z.compare].
  - destruct plus; [apply Q|]. cbn [app].
    assert (D : Forall (fun c => isdigit c = true) (replicate j ch_0 ++ dec k v)).
    { apply Forall_app; split; [by apply Forall_replicate|apply dec_isdigit]. }
    assert (L : length (replicate j ch_0 ++ dec k v) = (j + k)%nat)
      by (by rewrite length_app, length_replicate, length_dec).
    destruct (replicate j ch_0 ++ dec k v) as [|c s] eqn:E; [cbn in L; lia|].
    apply Forall_cons_1 in D as [D _]. rewrite <- (Q 0).
    destruct (Z.eqb_spec c ch_minus) as [->|_]; [done|].
    by destruct (Z.eqb_spec c ch_plus) as [->|_].
  - apply Q.
Qed.

(** C37. For a big number in normal form (digits below 10^9, no negative zero) _CFBigNumFromCString
    reads back what _CFBigNumToCString prints, with and without leading zeros and plus sign, in a buffer
    of 47 characters or more. *)
Theorem string_roundtrip (n : CFBigNum) (zeros plus : bool) (buffer : list Z) :
  canonical n -> (47 <= length buffer)%nat ->
  exists buf, CFBigNumToCString n zeros plus buffer = Ok buf /\
    CFBigNumFromCString (cstr buf) = n.
Proof.
  intros Hn Hb. pose proof (canonical_wf n Hn) as Hwf.
  destruct (to_cstring_shape n zeros plus buffer Hwf Hb) as (buf & j & k & E & Hk & Hv & Hjk & Ec).
  exists buf. split; [done|]. rewrite Ec. pose proof (dvalue_bound _ (wf_digits n Hwf)) as B.
  rewrite from_cstring_spec by (lia || apply Hwf || done).
  rewrite (wf_length n Hwf) in B. destruct (big_digits_spec 5 _ B) as (L & D & V).
  destruct n as [ds sg]; cbn [digits sign] in *. f_equal.
  destruct Hwf as [Hl Hd _]; cbn [digits] in Hl, Hd. apply dvalue_inj; [congruence|done|done|done].
Qed.

(** ** Where the invariant is lost

    The carry test of [_CFBigNumAdd] is [result > BIG_DIGITS_LIMIT], so a digit
    sum of exactly 10^9 is stored as the digit 10^9; and the difference of equal
    magnitudes keeps the sign of its first operand. *)

Theorem add_loses_normal_form :
  (exists a b, canonical a /\ canonical b /\
     let r := fst (CFBigNumAdd a b) in
     ~ wf r /\ value r = value a + value b /\
     exists c, canonical c /\ value c = value r /\ CFBigNumCompare r c = kCFCompareLessThan) /\
  (exists a b, canonical a /\ canonical b /\
     let r := fst (CFBigNumAdd a b) in
     value r = 0 /\ CFBigNumCompare r (CFBigNumInitWithInt8 0) = kCFCompareLessThan).
Proof.
  assert (I : forall x, in_s 64 x -> represents x (CFBigNumInitWithInt64 x))
    by (intros; by apply init_signed_value).
  assert (I' : forall x, -1000000000 <= x <= 1000000000 -> represents x (CFBigNumInitWithInt64 x))
    by (intros; apply I; unfold in_s; lia). clear I.
  split.
  - exists (CFBigNumInitWithInt64 999999999), (CFBigNumInitWithInt64 1).
    split; [apply I'; lia|]. split; [apply I'; lia|]. cbn zeta. split; [|split].
    + intros [_ D _].
      assert (digits (fst (CFBigNumAdd (CFBigNumInitWithInt64 999999999) (CFBigNumInitWithInt64 1)))
        = [1000000000; 0; 0; 0; 0]) as E by (vm_compute; reflexivity).
      rewrite E in D. apply Forall_cons_1 in D as [D _].
      unfold digit_ok, BIG_DIGITS_LIMIT in D. lia.
    + vm_compute. reflexivity.
    + exists (CFBigNumInitWithInt64 1000000000). split; [apply I'; lia|]. split; vm_compute; reflexivity.
  - exists (CFBigNumInitWithInt64 (-5)), (CFBigNumInitWithInt64 5).
    split; [apply I'; lia|]. split; [apply I'; lia|]. split; vm_compute; reflexivity.
Qed.

(** ** Concrete numbers *)

Lemma small_canonical (x : Z) : -1000000000000 <= x <= 1000000000000 -> canonical (CFBigNumInitWithInt64 x).
Proof. intros. apply (init_signed_value x). unfold in_s. lia. Qed.

Lemma compare_value_witness :
  CFBigNumCompare (CFBigNumInitWithInt64 (-7000000000)) (CFBigNumInitWithInt64 3) =
    of_comparison (value (CFBigNumInitWithInt64 (-7000000000)) ?= value (CFBigNumInitWithInt64 3)).
Proof. apply compare_value; apply small_canonical; lia. Defined.

Lemma add_value_witness :
  let '(r, carry) := CFBigNumAdd (CFBigNumInitWithInt64 (-7000000000)) (CFBigNumInitWithInt64 3) in
  value r + sgn r * (BIG_DIGITS_LIMIT ^ 5 * carry) =
    value (CFBigNumInitWithInt64 (-7000000000)) + value (CFBigNumInitWithInt64 3) /\
  length (digits r) = 5%nat /\ Forall (fun d => 0 <= d <= BIG_DIGITS_LIMIT) (digits r) /\
  (sign (CFBigNumInitWithInt64 (-7000000000)) <> sign (CFBigNumInitWithInt64 3) -> wf r /\ carry = 0).
Proof. apply add_value; apply canonical_wf, small_canonical; lia. Defined.

Lemma create_number_witness :
  CFNumberCreateWithBigNum (CFBigNumInitWithInt64 (-7000000000)) =
    match narrowest (value (CFBigNumInitWithInt64 (-7000000000))) with
    | Some (t, k) => Some (CFNumberCreate t (le_store k (value (CFBigNumInitWithInt64 (-7000000000)))))
    | None => None
    end.
Proof. apply create_number_spec, small_canonical. lia. Defined.

Lemma number_roundtrip_witness :
  exists num, CFNumberCreateWithBigNum (CFBigNumInitWithInt64 70000) = Some num /\
    CFBigNumInitWithBytes (CFBigNumInitWithInt8 0) (nbytes num) (ntype num) = CFBigNumInitWithInt64 70000.
Proof.
  apply number_roundtrip; [apply small_canonical; lia|].
  assert (V : value (CFBigNumInitWithInt64 70000) = 70000) by (vm_compute; reflexivity). rewrite V. unfold in_s. lia.
Defined.

Lemma string_roundtrip_witness :
  exists buf, CFBigNumToCString (CFBigNumInitWithInt64 (-7000000000)) false true (replicate 47 0) = Ok buf /\
    CFBigNumFromCString (cstr buf) = CFBigNumInitWithInt64 (-7000000000).
Proof. apply string_roundtrip; [apply small_canonical; lia|by rewrite length_replicate]. Defined.

End BigNum.
