(* ===== verification/Int128.v ===== *)
(** * CFNumber.c: the two-word 128-bit integers of CFNumber

    [CFSInt128Struct] (CFNumber.c, CFBigNumber.c) is a 128-bit integer in two words.
    The file models its comparison, addition, negation and decimal output, with the
    two tables of powers of ten the output loop uses, and relates the output to the
    parser of CFBigNumber.c. *)

From stdpp Require Import base list numbers option.
From Stdlib Require Import ZArith Lia.
From S2P Require Import Prelude BigNumber.

Module Int128.
Import BigNum.

Record CFSInt128Struct : Type := mk128 { high : Z; low : Z }.

#[export] Instance CFSInt128Struct_eq_dec : EqDecision CFSInt128Struct.
Proof. solve_decision. Defined.

Definition UINT64_MAX : Z := 2 ^ 64 - 1.

Definition isNeg128 (x : CFSInt128Struct) : bool := high x <? 0.

Definition cmp128 (x y : CFSInt128Struct) : CFComparisonResult :=
  if high x <? high y then kCFCompareLessThan
  else if high y <? high x then kCFCompareGreaterThan
  else if low x <? low y then kCFCompareLessThan
  else if low y <? low x then kCFCompareGreaterThan
  else kCFCompareEqualTo.

Definition add128 (x y : CFSInt128Struct) : CFSInt128Struct :=
  let tmplow := u64 (low x + low y) in
  let tmphigh := s64 (high x + high y) in
  mk128 (if UINT64_MAX - low x <? low y then s64 (tmphigh + 1) else tmphigh) tmplow.

(** [~] on a 64-bit word. *)
Definition neg128 (x : CFSInt128Struct) : CFSInt128Struct :=
  let tmplow := u64 (Z.lnot (low x)) in
  let outhigh := Z.lnot (high x) in
  mk128 (if UINT64_MAX =? tmplow then s64 (outhigh + 1) else outhigh) (u64 (tmplow + 1)).

Definition entry (h l : Z) : CFSInt128Struct := mk128 (s64 h) (u64 l).

Definition powersOf10 : list CFSInt128Struct := [
  entry 0x4B3B4CA85A86C47A 0x098A224000000000;
  entry 0x0785EE10D5DA46D9 0x00F436A000000000;
  entry 0x00C097CE7BC90715 0xB34B9F1000000000;
  entry 0x0013426172C74D82 0x2B878FE800000000;
  entry 0x0001ED09BEAD87C0 0x378D8E6400000000;
  entry 0x0000314DC6448D93 0x38C15B0A00000000;
  entry 0x000004EE2D6D415B 0x85ACEF8100000000;
  entry 0x0000007E37BE2022 0xC0914B2680000000;
  entry 0x0000000C9F2C9CD0 0x4674EDEA40000000;
  entry 0x00000001431E0FAE 0x6D7217CAA0000000;
  entry 0x00000000204FCE5E 0x3E25026110000000;
  entry 0x00000000033B2E3C 0x9FD0803CE8000000;
  entry 0x000000000052B7D2 0xDCC80CD2E4000000;
  entry 0x0000000000084595 0x161401484A000000;
  entry 0x000000000000D3C2 0x1BCECCEDA1000000;
  entry 0x000000000000152D 0x02C7E14AF6800000;
  entry 0x000000000000021E 0x19E0C9BAB2400000;
  entry 0x0000000000000036 0x35C9ADC5DEA00000;
  entry 0x0000000000000005 0x6BC75E2D63100000;
  entry 0x0000000000000000 0x8AC7230489E80000;
  entry 0x0000000000000000 0x0DE0B6B3A7640000;
  entry 0x0000000000000000 0x016345785D8A0000;
  entry 0x0000000000000000 0x002386F26FC10000;
  entry 0x0000000000000000 0x00038D7EA4C68000;
  entry 0x0000000000000000 0x00005AF3107A4000;
  entry 0x0000000000000000 0x000009184E72A000;
  entry 0x0000000000000000 0x000000E8D4A51000;
  entry 0x0000000000000000 0x000000174876E800;
  entry 0x0000000000000000 0x00000002540BE400;
  entry 0x0000000000000000 0x000000003B9ACA00;
  entry 0x0000000000000000 0x0000000005F5E100;
  entry 0x0000000000000000 0x0000000000989680;
  entry 0x0000000000000000 0x00000000000F4240;
  entry 0x0000000000000000 0x00000000000186A0;
  entry 0x0000000000000000 0x0000000000002710;
  entry 0x0000000000000000 0x00000000000003E8;
  entry 0x0000000000000000 0x0000000000000064;
  entry 0x0000000000000000 0x000000000000000A;
  entry 0x0000000000000000 0x0000000000000001
].

Definition neg_powersOf10 : list CFSInt128Struct := [
  entry 0xB4C4B357A5793B85 0xF675DDC000000000;
  entry 0xF87A11EF2A25B926 0xFF0BC96000000000;
  entry 0xFF3F68318436F8EA 0x4CB460F000000000;
  entry 0xFFECBD9E8D38B27D 0xD478701800000000;
  entry 0xFFFE12F64152783F 0xC872719C00000000;
  entry 0xFFFFCEB239BB726C 0xC73EA4F600000000;
  entry 0xFFFFFB11D292BEA4 0x7A53107F00000000;
  entry 0xFFFFFF81C841DFDD 0x3F6EB4D980000000;
  entry 0xFFFFFFF360D3632F 0xB98B1215C0000000;
  entry 0xFFFFFFFEBCE1F051 0x928DE83560000000;
  entry 0xFFFFFFFFDFB031A1 0xC1DAFD9EF0000000;
  entry 0xFFFFFFFFFCC4D1C3 0x602F7FC318000000;
  entry 0xFFFFFFFFFFAD482D 0x2337F32D1C000000;
  entry 0xFFFFFFFFFFF7BA6A 0xE9EBFEB7B6000000;
  entry 0xFFFFFFFFFFFF2C3D 0xE43133125F000000;
  entry 0xFFFFFFFFFFFFEAD2 0xFD381EB509800000;
  entry 0xFFFFFFFFFFFFFDE1 0xE61F36454DC00000;
  entry 0xFFFFFFFFFFFFFFC9 0xCA36523A21600000;
  entry 0xFFFFFFFFFFFFFFFA 0x9438A1D29CF00000;
  entry 0xFFFFFFFFFFFFFFFF 0x7538DCFB76180000;
  entry 0xFFFFFFFFFFFFFFFF 0xF21F494C589C0000;
  entry 0xFFFFFFFFFFFFFFFF 0xFE9CBA87A2760000;
  entry 0xFFFFFFFFFFFFFFFF 0xFFDC790D903F0000;
  entry 0xFFFFFFFFFFFFFFFF 0xFFFC72815B398000;
  entry 0xFFFFFFFFFFFFFFFF 0xFFFFA50CEF85C000;
  entry 0xFFFFFFFFFFFFFFFF 0xFFFFF6E7B18D6000;
  entry 0xFFFFFFFFFFFFFFFF 0xFFFFFF172B5AF000;
  entry 0xFFFFFFFFFFFFFFFF 0xFFFFFFE8B7891800;
  entry 0xFFFFFFFFFFFFFFFF 0xFFFFFFFDABF41C00;
  entry 0xFFFFFFFFFFFFFFFF 0xFFFFFFFFC4653600;
  entry 0xFFFFFFFFFFFFFFFF 0xFFFFFFFFFA0A1F00;
  entry 0xFFFFFFFFFFFFFFFF 0xFFFFFFFFFF676980;
  entry 0xFFFFFFFFFFFFFFFF 0xFFFFFFFFFFF0BDC0;
  entry 0xFFFFFFFFFFFFFFFF 0xFFFFFFFFFFFE7960;
  entry 0xFFFFFFFFFFFFFFFF 0xFFFFFFFFFFFFD8F0;
  entry 0xFFFFFFFFFFFFFFFF 0xFFFFFFFFFFFFFC18;
  entry 0xFFFFFFFFFFFFFFFF 0xFFFFFFFFFFFFFF9C;
  entry 0xFFFFFFFFFFFFFFFF 0xFFFFFFFFFFFFFFF6;
  entry 0xFFFFFFFFFFFFFFFF 0xFFFFFFFFFFFFFFFF
].

(** The inner loop of [emit128]: how often the power goes into [tmp]. *)
Fixpoint emit_count (fuel : nat) (pow negpow tmp : CFSInt128Struct) (count : Z)
  : result (CFSInt128Struct * Z) :=
  match fuel with
  | O => NoFuel
  | S fuel =>
    match cmp128 pow tmp with
    | kCFCompareGreaterThan => Ok (tmp, count)
    | _ => emit_count fuel pow negpow (add128 tmp negpow) (count + 1)
    end
  end.

Definition emit_fuel : nat := 10.

(** The outer loop: the characters written for the powers that are left. *)
Fixpoint emit_digits (table : list (CFSInt128Struct * CFSInt128Struct))
  (tmp : CFSInt128Struct) (doneOne : bool) : result (list Z * bool) :=
  match table with
  | [] => Ok ([], doneOne)
  | (pow, negpow) :: table =>
    '(tmp, count) ← emit_count emit_fuel pow negpow tmp 0;
    if negb (0 =? count) || doneOne then
      '(s, d) ← emit_digits table tmp true;
      Ok (ch_0 + count :: s, d)
    else emit_digits table tmp doneOne
  end.

(** The C string written to the buffer. *)
Definition emit128 (x : CFSInt128Struct) (forcePlus : bool) : result (list Z) :=
  let pre : list Z := if isNeg128 x then [ch_minus] else if forcePlus then [ch_plus] else [] in
  let tmp := if isNeg128 x then neg128 x else x in
  '(s, doneOne) ← emit_digits (zip powersOf10 neg_powersOf10) tmp false;
  Ok (pre ++ s ++ (if (doneOne : bool) then [] else [ch_0])).

(** ** Meaning *)

Definition wf128 (x : CFSInt128Struct) : Prop := in_s 64 (high x) /\ in_u 64 (low x).

Definition value128 (x : CFSInt128Struct) : Z := high x * 2 ^ 64 + low x.

Lemma value128_range (x : CFSInt128Struct) : wf128 x -> in_s 128 (value128 x).
Proof. unfold wf128, in_s, in_u, value128. lia. Qed.

Lemma isNeg128_spec (x : CFSInt128Struct) : wf128 x -> isNeg128 x = (value128 x <? 0).
Proof.
  unfold wf128, in_s, in_u, value128, isNeg128. intros.
  destruct (Z.ltb_spec (high x) 0); symmetry; [apply Z.ltb_lt|apply Z.ltb_ge]; lia.
Qed.

Lemma cmp128_spec (x y : CFSInt128Struct) :
  wf128 x -> wf128 y -> cmp128 x y = of_comparison (value128 x ?= value128 y).
Proof.
  unfold wf128, in_s, in_u, value128, cmp128. intros Hx Hy.
  destruct (Z.ltb_spec (high x) (high y)); [by rewrite (proj2 (Z.compare_lt_iff _ _)) by lia|].
  destruct (Z.ltb_spec (high y) (high x)); [by rewrite (proj2 (Z.compare_gt_iff _ _)) by lia|].
  destruct (Z.ltb_spec (low x) (low y)); [by rewrite (proj2 (Z.compare_lt_iff _ _)) by lia|].
  destruct (Z.ltb_spec (low y) (low x)); [by rewrite (proj2 (Z.compare_gt_iff _ _)) by lia|].
  by rewrite (proj2 (Z.compare_eq_iff _ _)) by lia.
Qed.

Lemma add128_spec (x y : CFSInt128Struct) :
  wf128 x -> wf128 y -> wf128 (add128 x y) /\ value128 (add128 x y) = s128 (value128 x + value128 y).
Proof.
  unfold wf128, in_s, in_u, value128, add128, UINT64_MAX, swrap, uwrap; cbn [high low].
  intros Hx Hy. destruct (Z.ltb_spec (2 ^ 64 - 1 - low x) (low y)); Z.div_mod_to_equations; lia.
Qed.

Lemma neg128_spec (x : CFSInt128Struct) :
  wf128 x -> wf128 (neg128 x) /\ value128 (neg128 x) = s128 (- value128 x).
Proof.
  unfold wf128, in_s, in_u, value128, neg128, UINT64_MAX, swrap, uwrap; cbn [high low].
  unfold Z.lnot, Z.pred.
  intros Hx. destruct (Z.eqb_spec (2 ^ 64 - 1) ((- low x + -1) mod 2 ^ 64));
    Z.div_mod_to_equations; lia.
Qed.

(** ** The tables *)

Fixpoint table_ok (table : list (CFSInt128Struct * CFSInt128Struct)) : Prop :=
  match table with
  | [] => True
  | (p, n) :: table =>
    wf128 p /\ wf128 n /\ value128 p = 10 ^ Z.of_nat (length table) /\
    value128 n = - 10 ^ Z.of_nat (length table) /\ table_ok table
  end.

Lemma tables_ok : table_ok (zip powersOf10 neg_powersOf10).
Proof. vm_compute. repeat split; congruence. Qed.

(** ** The loops *)

Lemma emit_count_spec (fuel : nat) (pow negpow tmp : CFSInt128Struct) (c : Z) :
  wf128 pow -> wf128 negpow -> wf128 tmp -> 0 < value128 pow ->
  value128 negpow = - value128 pow -> 0 <= value128 tmp ->
  value128 tmp / value128 pow < Z.of_nat fuel ->
  exists tmp', emit_count fuel pow negpow tmp c = Ok (tmp', c + value128 tmp / value128 pow) /\
    wf128 tmp' /\ value128 tmp' = value128 tmp mod value128 pow.
Proof.
  intros Wp Wn. revert tmp c. induction fuel as [|fuel IH]; intros tmp c Wt Hp Hn Ht Hf.
  { pose proof (Z.div_pos (value128 tmp) (value128 pow)). lia. }
  cbn [emit_count]. rewrite cmp128_spec by done.
  assert (Small : value128 tmp < value128 pow -> exists tmp',
    Ok (tmp, c) = Ok (tmp', c + value128 tmp / value128 pow) /\
    wf128 tmp' /\ value128 tmp' = value128 tmp mod value128 pow).
  { intros L. exists tmp. rewrite Z.div_small, Z.mod_small, Z.add_0_r by lia. done. }
  assert (Big : value128 pow <= value128 tmp -> exists tmp',
    emit_count fuel pow negpow (add128 tmp negpow) (c + 1)
      = Ok (tmp', c + value128 tmp / value128 pow) /\
    wf128 tmp' /\ value128 tmp' = value128 tmp mod value128 pow).
  { intros L. destruct (add128_spec tmp negpow Wt Wn) as [Wa Va].
    pose proof (value128_range _ Wt) as R. rewrite Hn in Va.
    rewrite swrap_small in Va by (unfold in_s in *; lia).
    assert (E : value128 tmp = (value128 tmp + - value128 pow) + 1 * value128 pow) by lia.
    assert (Ed : value128 tmp / value128 pow = (value128 tmp + - value128 pow) / value128 pow + 1)
      by (rewrite E at 1; apply Z.div_add; lia).
    destruct (IH (add128 tmp negpow) (c + 1)) as (t' & E1 & W' & V'); [done|done|done|lia|
      rewrite Va; lia|].
    exists t'. rewrite E1, Va, Ed. split; [do 2 f_equal; lia|]. split; [done|].
    rewrite V', Va. rewrite E at 2. symmetry. by apply Z_mod_plus_full. }
  destruct (Z.compare_spec (value128 pow) (value128 tmp)); cbn; [apply Big|apply Big|apply Small]; lia.
Qed.

Lemma dec_head (k : nat) (v : Z) :
  0 <= v < 10 ^ Z.of_nat (S k) ->
  dec (S k) v = ch_0 + v / 10 ^ Z.of_nat k :: dec k (v mod 10 ^ Z.of_nat k) /\
  0 <= v / 10 ^ Z.of_nat k < 10.
Proof.
  intros Hv. rewrite Nat2Z.inj_succ, Z.pow_succ_r in Hv by lia.
  assert (0 < 10 ^ Z.of_nat k) by (apply Z.pow_pos_nonneg; lia).
  assert (0 <= v / 10 ^ Z.of_nat k < 10)
    by (split; [apply Z.div_pos|apply Z.div_lt_upper_bound]; lia).
  split; [|done]. pose proof (Z.mod_pos_bound v (10 ^ Z.of_nat k) ltac:(lia)) as Hm.
  pose proof (dec_app 1 k (v / 10 ^ Z.of_nat k) _ Hm) as D.
  rewrite (Z.mul_comm (v / _)), <- Z.div_mod in D by lia. change (S k) with (1 + k)%nat.
  rewrite D. cbn [dec app]. by rewrite Z.mod_small by lia.
Qed.

Lemma emit_digits_spec (table : list (CFSInt128Struct * CFSInt128Struct)) (tmp : CFSInt128Struct) :
  table_ok table -> wf128 tmp -> 0 <= value128 tmp < 10 ^ Z.of_nat (length table) ->
  emit_digits table tmp true = Ok (dec (length table) (value128 tmp), true) /\
  emit_digits table tmp false =
    Ok (skip_zeros (dec (length table) (value128 tmp)), negb (value128 tmp =? 0)).
Proof.
  revert tmp. induction table as [|[pow negpow] table IH]; intros tmp Ht Wt Hv.
  { cbn in *. by replace (value128 tmp) with 0 by lia. }
  destruct Ht as (Wp & Wn & Vp & Vn & Ht). cbn [length] in Hv |- *.
  destruct (dec_head _ _ Hv) as [D B].
  set (P := 10 ^ Z.of_nat (length table)) in *.
  assert (0 < P) by (apply Z.pow_pos_nonneg; lia).
  destruct (emit_count_spec emit_fuel pow negpow tmp 0) as (t' & E & W' & V');
    [done|done|done|lia|lia|lia|rewrite Vp; unfold emit_fuel; lia|].
  rewrite Vp in *. pose proof (Z.mod_pos_bound (value128 tmp) P ltac:(lia)).
  destruct (IH t' Ht W' ltac:(lia)) as [It If]. rewrite V' in It, If.
  cbn [emit_digits]. rewrite E. cbn [mbind result_bind]. rewrite Z.add_0_l, It, If, D.
  split; [by rewrite orb_true_r|]. cbn [skip_zeros]. rewrite orb_false_r.
  pose proof (Z.div_mod (value128 tmp) P ltac:(lia)).
  destruct (Z.eqb_spec 0 (value128 tmp / P)) as [Ez|Ez]; cbn [negb].
  - rewrite <- Ez, Z.add_0_r, Z.eqb_refl. do 3 f_equal.
    destruct (Z.eqb_spec (value128 tmp mod P) 0), (Z.eqb_spec (value128 tmp) 0); (done || lia).
  - cbn. destruct (Z.eqb_spec (ch_0 + value128 tmp / P) ch_0); [lia|].
    destruct (Z.eqb_spec (value128 tmp) 0); [|done]. nia.
Qed.

(** C38. emit128 prints every 128-bit integer but the most negative one in decimal: the big-number
    parser reads its output back as that integer. *)
Theorem emit128_parses_back (x : CFSInt128Struct) (plus : bool) :
  wf128 x -> value128 x <> - 2 ^ 127 ->
  exists s, emit128 x plus = Ok s /\
    CFBigNumFromCString s = CFBigNumInitWithInt128 (value128 x).
Proof.
  intros W Hm. pose proof (value128_range x W) as R.
  assert (T : exists t, (if isNeg128 x then neg128 x else x) = t /\ wf128 t /\
    value128 t = Z.abs (value128 x)).
  { destruct (neg128_spec x W) as [Wn Vn]. rewrite swrap_small in Vn by (unfold in_s in *; lia).
    rewrite isNeg128_spec by done. destruct (Z.ltb_spec (value128 x) 0); eexists;
      (split; [reflexivity|]); (split; [done|lia]). }
  destruct T as (t & Et & Wt & Vt). unfold emit128. rewrite Et, isNeg128_spec by done.
  assert (Hv : 0 <= Z.abs (value128 x) < 10 ^ Z.of_nat 39) by (unfold in_s in R; lia).
  destruct (emit_digits_spec _ t tables_ok Wt) as [_ ->]; [by rewrite Vt|].
  change (length _) with 39%nat. cbn [mbind result_bind]. rewrite Vt.
  eexists; split; [reflexivity|].
  destruct (skip_zeros_dec 39 _ Hv) as (m & Hmk & Hvm & H0 & -> & _).
  set (j := if m is O then 1%nat else 0%nat).
  assert (S : dec m (Z.abs (value128 x)) ++ (if negb (Z.abs (value128 x) =? 0) then [] else [ch_0])
    = replicate j ch_0 ++ dec m (Z.abs (value128 x))).
  { subst j. destruct m; destruct (Z.eqb_spec (Z.abs (value128 x)) 0) as [E|E]; cbn [negb];
      [by rewrite E|lia|lia|by rewrite app_nil_r]. }
  rewrite S. destruct (init_signed_value (value128 x)) as (_ & _ & _ & _ & I).
  destruct (I R) as [C V]. destruct (big_digits_spec 5 (Z.abs (value128 x))) as (L & D & Vd);
    [change (BIG_DIGITS_LIMIT ^ Z.of_nat 5) with (10 ^ 45); lia|].
  destruct (init_canonical _ (value128 x) L D Vd) as [C' V'].
  transitivity (mkBigNum (big_digits 5 (Z.abs (value128 x))) (init_sign (value128 x)));
    [|apply canonical_inj; [done|done|congruence]].
  rewrite <- (from_cstring_spec (init_sign (value128 x)) plus j m (Z.abs (value128 x)));
    [|lia|lia|subst j; destruct m; lia|unfold init_sign; destruct (value128 x <? 0); tauto].
  f_equal. f_equal. unfold init_sign. by destruct (value128 x <? 0).
Qed.

Theorem emit128_most_negative (plus : bool) :
  let x := mk128 (- 2 ^ 63) 0 in
  wf128 x /\ value128 x = - 2 ^ 127 /\ emit128 x plus = Ok [ch_minus; ch_0].
Proof. destruct plus; (split; [|split]); vm_compute; repeat split; congruence. Qed.

Lemma emit128_witness :
  exists s, emit128 (mk128 (-1) 5) false = Ok s /\
    CFBigNumFromCString s = CFBigNumInitWithInt128 (value128 (mk128 (-1) 5)).
Proof. apply emit128_parses_back; [split; unfold in_s, in_u; cbn; lia|unfold value128; cbn; lia]. Defined.

End Int128.
