(* ===== verification/BitVector.v ===== *)
(** * CFBitVector.c: bit vectors packed in bytes, bit 0 leftmost

    [CFBitVector] is [struct __CFBitVector]; its buckets are the bytes that were
    allocated ([_capacity / 8 + 1] of them).  The file models every operation of
    CFBitVector.c but the debugging description; an access outside the buckets or
    outside the caller's byte array is [Undef].  Allocation succeeds; the bytes a
    reallocation adds are a parameter of the operations that reallocate. *)

From stdpp Require Import base list numbers option.
From Stdlib Require Import ZArith Lia.
From S2P Require Import Prelude.

Module BitVector.

Definition BITS_PER_BYTE : Z := 8.
Definition BITS_PER_BYTE_MASK : Z := 7.
Definition BITS_PER_BUCKET : Z := BITS_PER_BYTE * 1.
Definition BITS_PER_BUCKET_MASK : Z := 7.

Definition kCFNotFound : Z := -1.

(** The enum of the _cfinfo bits 3-2. *)
Inductive variety : Type :=
| kCFBitVectorImmutable
| kCFBitVectorMutable.

Record CFBitVector : Type := mkBV {
  bv_count : Z;
  bv_capacity : Z;
  bv_buckets : list Z;
  bv_variety : variety
}.

(** ** Sizes *)

Definition CFBitVectorRoundUpCapacity (capacity : Z) : Z :=
  let capacity := if 0 =? capacity then 1 else capacity in
  Z.quot (capacity + 63) 64 * 64.

Definition CFBitVectorNumBuckets (capacity : Z) : Z := Z.quot capacity BITS_PER_BUCKET + 1.

(** ** Single bits *)

Definition CFBitBucketMask (bottomBit topBit : Z) : Z :=
  let shiftL := BITS_PER_BUCKET - topBit + bottomBit - 1 in
  let result := u8 (Z.lnot 0) in
  let result := u8 (Z.shiftl result shiftL) in
  Z.shiftr result bottomBit.

Definition CFBitVectorBit (buckets : list Z) (idx : Z) : result Z :=
  let bucketIdx := Z.quot idx BITS_PER_BUCKET in
  let bitOfBucket := Z.land idx (BITS_PER_BUCKET - 1) in
  b ← aget buckets bucketIdx;
  Ok (Z.land (Z.shiftr b (BITS_PER_BUCKET - 1 - bitOfBucket)) 1).

Definition CFSetBitVectorBit (buckets : list Z) (idx value : Z) : result (list Z) :=
  let bucketIdx := Z.quot idx BITS_PER_BUCKET in
  let bitOfBucket := Z.land idx (BITS_PER_BUCKET - 1) in
  let m := Z.shiftl 1 (BITS_PER_BUCKET - 1 - bitOfBucket) in
  b ← aget buckets bucketIdx;
  aset buckets bucketIdx (if negb (value =? 0) then u8 (Z.lor b m) else u8 (Z.land b (Z.lnot m))).

Definition CFFlipBitVectorBit (buckets : list Z) (idx : Z) : result (list Z) :=
  let bucketIdx := Z.quot idx BITS_PER_BUCKET in
  let bitOfBucket := Z.land idx (BITS_PER_BUCKET - 1) in
  b ← aget buckets bucketIdx;
  aset buckets bucketIdx (u8 (Z.lxor b (Z.shiftl 1 (BITS_PER_BUCKET - 1 - bitOfBucket)))).

(** ** Equality and hash *)

Fixpoint equal_buckets (n : nat) (b1 b2 : list Z) (idx : Z) : result bool :=
  match n with
  | O => Ok true
  | S n =>
    val1 ← aget b1 idx;
    val2 ← aget b2 idx;
    if val1 =? val2 then equal_buckets n b1 b2 (idx + 1) else Ok false
  end.

Definition CFBitVectorEqual (bv1 bv2 : CFBitVector) : result bool :=
  let cnt := bv_count bv1 in
  if negb (cnt =? bv_count bv2) then Ok false
  else if 0 =? cnt then Ok true
  else equal_buckets (Z.to_nat (Z.quot cnt BITS_PER_BUCKET + 1)) (bv_buckets bv1) (bv_buckets bv2) 0.

Definition CFBitVectorHash (bv : CFBitVector) : Z := bv_count bv.

(** ** Creation *)

Definition CFBitVectorInit (flags : variety) (bytes : option (list Z)) (numBits : Z)
  : result CFBitVector :=
  let capacity := CFBitVectorRoundUpCapacity numBits in
  let buckets := replicate (Z.to_nat (CFBitVectorNumBuckets capacity)) 0 in
  buckets ←
    match bytes with
    | None => Ok buckets
    | Some bytes =>
      let n := Z.to_nat (Z.quot numBits BITS_PER_BYTE
                         + (if Z.land numBits BITS_PER_BYTE_MASK =? 0 then 0 else 1)) in
      if (length bytes <? n)%nat || (length buckets <? n)%nat then Undef
      else Ok (take n bytes ++ drop n buckets)
    end;
  Ok (mkBV numBits capacity buckets flags).

Definition CFBitVectorCreate (bytes : list Z) (numBits : Z) : result CFBitVector :=
  CFBitVectorInit kCFBitVectorImmutable (Some bytes) numBits.

Definition CFBitVectorCreateMutable : result CFBitVector :=
  CFBitVectorInit kCFBitVectorMutable None 0.

Definition CFBitVectorCreateCopy (bv : CFBitVector) : result CFBitVector :=
  CFBitVectorInit kCFBitVectorImmutable (Some (bv_buckets bv)) (bv_count bv).

Definition CFBitVectorCreateMutableCopy (bv : CFBitVector) : result CFBitVector :=
  CFBitVectorInit kCFBitVectorMutable (Some (bv_buckets bv)) (bv_count bv).

Definition CFBitVectorGetCount (bv : CFBitVector) : Z := bv_count bv.

(** ** The range map

    [mapper bucket mask context] returns the new bucket and the new context; it is
    called on the first, fragmentary bucket, on each whole bucket and on the last
    fragment. *)

Section InternalMap.
Context {C : Type}.
Variable mapper : Z -> Z -> C -> result (Z * C).

(** One masked bucket. *)
Definition map_masked (buckets : list Z) (bucketIdx bucketValMask : Z) (context : C)
  : result (list Z * C) :=
  b ← aget buckets bucketIdx;
  '(newBucketVal, context) ← mapper b bucketValMask context;
  buckets ← aset buckets bucketIdx
    (u8 (Z.lor (Z.land b (Z.lnot bucketValMask)) (Z.land newBucketVal bucketValMask)));
  Ok (buckets, context).

(** [while (nBuckets--)] over whole buckets. *)
Fixpoint map_whole (nBuckets : nat) (buckets : list Z) (bucketIdx : Z) (context : C)
  : result (list Z * C) :=
  match nBuckets with
  | O => Ok (buckets, context)
  | S n =>
    b ← aget buckets bucketIdx;
    '(newBucketVal, context) ← mapper b (u8 (Z.lnot 0)) context;
    buckets ← aset buckets bucketIdx newBucketVal;
    map_whole n buckets (bucketIdx + 1) context
  end.

Definition CFBitVectorInternalMap (buckets : list Z) (location length : Z) (context : C)
  : result (list Z * C) :=
  if 0 =? length then Ok (buckets, context) else
  let bucketIdx := Z.quot location BITS_PER_BUCKET in
  let bitOfBucket := Z.land location (BITS_PER_BUCKET - 1) in
  let small := bitOfBucket + length <? BITS_PER_BUCKET in
  let bucketValMask := if small then CFBitBucketMask bitOfBucket (bitOfBucket + length - 1)
                       else CFBitBucketMask bitOfBucket (BITS_PER_BUCKET - 1) in
  let length := if small then 0 else length - (BITS_PER_BUCKET - bitOfBucket) in
  '(buckets, context) ← map_masked buckets bucketIdx bucketValMask context;
  let nBuckets := Z.quot length BITS_PER_BUCKET in
  '(buckets, context) ← map_whole (Z.to_nat nBuckets) buckets (bucketIdx + 1) context;
  let length := length - nBuckets * BITS_PER_BUCKET in
  if 0 =? length then Ok (buckets, context)
  else map_masked buckets (bucketIdx + 1 + nBuckets) (CFBitBucketMask 0 (length - 1)) context.

End InternalMap.

(** ** Counting *)

Definition CFNibbleBitCount : list Z := [0; 1; 1; 2; 1; 2; 2; 3; 1; 2; 2; 3; 2; 3; 3; 4].

Fixpoint count_nibbles (n : nat) (val count : Z) : result Z :=
  match n with
  | O => Ok count
  | S n =>
    c ← aget CFNibbleBitCount (Z.land val 15);
    count_nibbles n (Z.shiftr val 4) (count + c)
  end.

(** The context is the value looked for and the count. *)
Definition CFBitVectorCountBits (bucketValue bucketValueMask : Z) (context : Z * Z)
  : result (Z * (Z * Z)) :=
  let '(value, count) := context in
  let val := u8 (if negb (value =? 0) then Z.land bucketValue bucketValueMask
                 else Z.land (Z.lnot bucketValue) bucketValueMask) in
  count ← count_nibbles 2 val count;
  Ok (bucketValue, (value, count)).

Definition CFBitVectorGetCountOfBit (bv : CFBitVector) (location length value : Z) : result Z :=
  if 0 =? length then Ok 0 else
  '(_, context) ← CFBitVectorInternalMap CFBitVectorCountBits (bv_buckets bv) location length (value, 0);
  Ok (snd context).

Definition CFBitVectorContainsBit (bv : CFBitVector) (location length value : Z) : result bool :=
  n ← CFBitVectorGetCountOfBit bv location length value;
  Ok (negb (n =? 0)).

Definition CFBitVectorGetBitAtIndex (bv : CFBitVector) (idx : Z) : result Z :=
  CFBitVectorBit (bv_buckets bv) idx.

(** ** Extracting bits *)

Record getBitsContext : Type := mkGB {
  gb_bytes : list Z;
  gb_curByte : Z;
  gb_initBits : Z;
  gb_totalBits : Z;
  gb_ignoreFirstInitBits : bool
}.

(** Buckets are bytes, so the middle loop runs at most once. *)
Definition CFBitVectorGetBits_mapper (bucketValue bucketValueMask : Z) (ctx : getBitsContext)
  : result (Z * getBitsContext) :=
  let val := Z.land bucketValue bucketValueMask in
  let nBits := Z.min (BITS_PER_BUCKET - gb_initBits ctx) (gb_totalBits ctx) in
  '(val, ctx) ←
    (if 0 <? gb_initBits ctx then
       ctx ←
         (if negb (gb_ignoreFirstInitBits ctx) then
            cur ← aget (gb_bytes ctx) (gb_curByte ctx);
            bytes ← aset (gb_bytes ctx) (gb_curByte ctx)
              (Z.lor cur (u8 (Z.shiftr val (BITS_PER_BUCKET - gb_initBits ctx))));
            Ok (mkGB bytes (gb_curByte ctx + 1) (gb_initBits ctx)
                  (gb_totalBits ctx - gb_initBits ctx) false)
          else Ok ctx);
       Ok (u8 (Z.shiftl val (gb_initBits ctx)), ctx)
     else Ok (val, ctx));
  '(val, nBits, ctx) ←
    (if BITS_PER_BYTE <=? nBits then
       bytes ← aset (gb_bytes ctx) (gb_curByte ctx) (u8 (Z.shiftr val (BITS_PER_BUCKET - BITS_PER_BYTE)));
       Ok (0, nBits - BITS_PER_BYTE,
           mkGB bytes (gb_curByte ctx + 1) (gb_initBits ctx) (gb_totalBits ctx - gb_initBits ctx)
             (gb_ignoreFirstInitBits ctx))
     else Ok (val, nBits, ctx));
  if 0 <? nBits then
    bytes ← aset (gb_bytes ctx) (gb_curByte ctx) (u8 (Z.shiftr val (BITS_PER_BUCKET - BITS_PER_BYTE)));
    Ok (bucketValue, mkGB bytes (gb_curByte ctx) (gb_initBits ctx) (gb_totalBits ctx - nBits)
                       (gb_ignoreFirstInitBits ctx))
  else Ok (bucketValue, ctx).

(** Returns the caller's byte array after the call. *)
Definition CFBitVectorGetBits (bv : CFBitVector) (location length : Z) (bytes : list Z)
  : result (list Z) :=
  if 0 =? length then Ok bytes else
  '(_, ctx) ← CFBitVectorInternalMap CFBitVectorGetBits_mapper (bv_buckets bv) location length
    (mkGB bytes 0 (Z.land location (BITS_PER_BUCKET - 1)) length true);
  Ok (gb_bytes ctx).

(** ** Searching *)

Fixpoint first_index (n : nat) (buckets : list Z) (pos value : Z) : result Z :=
  match n with
  | O => Ok kCFNotFound
  | S n =>
    b ← CFBitVectorBit buckets pos;
    if value =? b then Ok pos else first_index n buckets (pos + 1) value
  end.

Definition CFBitVectorGetFirstIndexOfBit (bv : CFBitVector) (location length value : Z) : result Z :=
  first_index (Z.to_nat length) (bv_buckets bv) location value.

(** [for (idx = range.length; idx--;)]: [n] is [idx] before the decrement. *)
Fixpoint last_index (n : nat) (buckets : list Z) (location value : Z) : result Z :=
  match n with
  | O => Ok kCFNotFound
  | S n =>
    b ← CFBitVectorBit buckets (location + Z.of_nat n);
    if value =? b then Ok (location + Z.of_nat n) else last_index n buckets location value
  end.

Definition CFBitVectorGetLastIndexOfBit (bv : CFBitVector) (location length value : Z) : result Z :=
  last_index (Z.to_nat length) (bv_buckets bv) location value.

(** ** Growing and setting

    Each operation asserts with CFAssert1 that the vector is of the variety
    kCFBitVectorMutable.  The assertions are compiled out of a release build, so they are
    not in the definitions: the theorems on these operations take them as a hypothesis. *)

(** [garbage] holds the bytes the reallocation leaves uninitialised. *)
Definition CFBitVectorGrow (bv : CFBitVector) (numNewValues : Z) (garbage : list Z) : CFBitVector :=
  let capacity := CFBitVectorRoundUpCapacity (bv_count bv + numNewValues) in
  let n := Z.to_nat (CFBitVectorNumBuckets capacity) in
  mkBV (bv_count bv) capacity
    (take n (bv_buckets bv) ++ resize (n - length (bv_buckets bv)) 0 garbage) (bv_variety bv).

Definition CFBitVectorZeroBits (bucketValue bucketValueMask : Z) (context : unit) : result (Z * unit) :=
  Ok (0, context).

Definition CFBitVectorOneBits (bucketValue bucketValueMask : Z) (context : unit) : result (Z * unit) :=
  Ok (u8 (Z.lnot 0), context).

Definition CFBitVectorFlipBits_mapper (bucketValue bucketValueMask : Z) (context : unit)
  : result (Z * unit) :=
  Ok (Z.lxor (u8 (Z.lnot 0)) bucketValue, context).

(** The buckets replaced by a range map without context. *)
Definition map_range (mapper : Z -> Z -> unit -> result (Z * unit)) (bv : CFBitVector)
  (location length : Z) : result CFBitVector :=
  '(buckets, _) ← CFBitVectorInternalMap mapper (bv_buckets bv) location length tt;
  Ok (mkBV (bv_count bv) (bv_capacity bv) buckets (bv_variety bv)).

Definition CFBitVectorSetCount (bv : CFBitVector) (count : Z) (garbage : list Z) : result CFBitVector :=
  let cnt := bv_count bv in
  let bv := match bv_variety bv with
            | kCFBitVectorMutable => if cnt <? count then CFBitVectorGrow bv (count - cnt) garbage else bv
            | _ => bv
            end in
  bv ← (if cnt <? count then map_range CFBitVectorZeroBits bv cnt (count - cnt) else Ok bv);
  Ok (mkBV count (bv_capacity bv) (bv_buckets bv) (bv_variety bv)).

Definition CFBitVectorFlipBitAtIndex (bv : CFBitVector) (idx : Z) : result CFBitVector :=
  buckets ← CFFlipBitVectorBit (bv_buckets bv) idx;
  Ok (mkBV (bv_count bv) (bv_capacity bv) buckets (bv_variety bv)).

Definition CFBitVectorFlipBits (bv : CFBitVector) (location length : Z) : result CFBitVector :=
  if 0 =? length then Ok bv else map_range CFBitVectorFlipBits_mapper bv location length.

Definition CFBitVectorSetBitAtIndex (bv : CFBitVector) (idx value : Z) : result CFBitVector :=
  buckets ← CFSetBitVectorBit (bv_buckets bv) idx value;
  Ok (mkBV (bv_count bv) (bv_capacity bv) buckets (bv_variety bv)).

Definition CFBitVectorSetBits (bv : CFBitVector) (location length value : Z) : result CFBitVector :=
  if 0 =? length then Ok bv
  else if negb (value =? 0) then map_range CFBitVectorOneBits bv location length
  else map_range CFBitVectorZeroBits bv location length.

Definition CFBitVectorSetAllBits (bv : CFBitVector) (value : Z) : result CFBitVector :=
  let nBuckets := Z.quot (bv_count bv) BITS_PER_BUCKET in
  let leftover := bv_count bv - nBuckets * BITS_PER_BUCKET in
  bv ← (if 0 <? leftover then
          map_range (if negb (value =? 0) then CFBitVectorOneBits else CFBitVectorZeroBits)
            bv (nBuckets * BITS_PER_BUCKET) leftover
        else Ok bv);
  let n := Z.to_nat nBuckets in
  if (length (bv_buckets bv) <? n)%nat then Undef
  else Ok (mkBV (bv_count bv) (bv_capacity bv)
             (replicate n (if negb (value =? 0) then u8 (Z.lnot 0) else 0) ++ drop n (bv_buckets bv))
             (bv_variety bv)).

(** ** What a bit vector means *)

Definition byte_ok (b : Z) : Prop := in_u 8 b.

(** Bit [i], numbered from the most significant bit of the first bucket. *)
Definition bit_at (buckets : list Z) (i : Z) : bool :=
  Z.testbit (nth (Z.to_nat (i / 8)) buckets 0) (7 - i mod 8).

(** The abstract value: the list of the bits. *)
Definition bits (bv : CFBitVector) : list bool :=
  map (fun i => bit_at (bv_buckets bv) (Z.of_nat i)) (seq 0 (Z.to_nat (bv_count bv))).

Record wf (bv : CFBitVector) : Prop := mk_wf {
  wf_count : 0 <= bv_count bv <= bv_capacity bv;
  wf_length : Z.of_nat (length (bv_buckets bv)) = bv_capacity bv / 8 + 1;
  wf_bytes : Forall byte_ok (bv_buckets bv)
}.

(** ** Bytes *)

Definition mask_check (b t j : Z) : bool :=
  implb (b <=? t) (eqb (Z.testbit (CFBitBucketMask b t) (7 - j)) ((b <=? j) && (j <=? t))
                   && (CFBitBucketMask b t <? 256) && (0 <=? CFBitBucketMask b t)).

Lemma mask_spec (b t j : Z) :
  0 <= b <= t -> t < 8 -> 0 <= j < 8 ->
  Z.testbit (CFBitBucketMask b t) (7 - j) = (b <=? j) && (j <=? t) /\
  byte_ok (CFBitBucketMask b t).
Proof.
  intros Hb Ht Hj.
  assert (C : forallb (fun b => forallb (fun t => forallb (mask_check b t) (below 8)) (below 8))
    (below 8) = true) by (vm_compute; reflexivity).
  pose proof (below_spec _ _ b C ltac:(lia)) as C1. cbn beta in C1.
  pose proof (below_spec _ _ t C1 ltac:(lia)) as C2. cbn beta in C2.
  pose proof (below_spec _ _ j C2 ltac:(lia)) as C3. unfold mask_check in C3.
  rewrite (proj2 (Z.leb_le b t)) in C3 by lia. cbn [implb] in C3.
  apply andb_prop in C3 as [C3 C5]. apply andb_prop in C3 as [C3 C4].
  apply eqb_prop in C3. split; [done|]. unfold byte_ok, in_u. lia.
Qed.

Lemma byte_testbit_high (b j : Z) : byte_ok b -> 8 <= j -> Z.testbit b j = false.
Proof.
  intros Hb Hj. unfold byte_ok, in_u in Hb. rewrite <- (Z.mod_small b (2 ^ 8)) by done.
  by apply Z.mod_pow2_bits_high.
Qed.

Lemma byte_eq (a b : Z) :
  byte_ok a -> byte_ok b -> (forall j, 0 <= j < 8 -> Z.testbit a (7 - j) = Z.testbit b (7 - j)) -> a = b.
Proof.
  intros Ha Hb H. apply Z.bits_inj'. intros n Hn. destruct (Z.lt_ge_cases n 8).
  - specialize (H (7 - n) ltac:(lia)). by replace (7 - (7 - n)) with n in H by lia.
  - by rewrite !byte_testbit_high.
Qed.

Lemma u8_testbit (z j : Z) : 0 <= j < 8 -> Z.testbit (u8 z) j = Z.testbit z j.
Proof. intros. apply Z.mod_pow2_bits_low. lia. Qed.

Lemma u8_byte (z : Z) : byte_ok (u8 z).
Proof. by apply uwrap_range. Qed.

(** The masked store: inside the mask the new bits, outside the old ones. *)
Lemma masked_testbit (b nb lo hi j : Z) :
  0 <= lo <= hi -> hi < 8 -> 0 <= j < 8 ->
  Z.testbit (u8 (Z.lor (Z.land b (Z.lnot (CFBitBucketMask lo hi))) (Z.land nb (CFBitBucketMask lo hi))))
    (7 - j) = if (lo <=? j) && (j <=? hi) then Z.testbit nb (7 - j) else Z.testbit b (7 - j).
Proof.
  intros Hl Hh Hj. destruct (mask_spec lo hi j Hl Hh Hj) as [M _].
  rewrite u8_testbit, Z.lor_spec, !Z.land_spec, Z.lnot_spec, M by lia.
  destruct ((lo <=? j) && (j <=? hi)); cbn; rewrite ?andb_true_r, ?andb_false_r, ?orb_false_r; done.
Qed.

Lemma masked_whole (b nb : Z) :
  byte_ok nb ->
  u8 (Z.lor (Z.land b (Z.lnot (CFBitBucketMask 0 7))) (Z.land nb (CFBitBucketMask 0 7))) = nb.
Proof.
  intros Hn. apply byte_eq; [apply u8_byte|done|]. intros j Hj. rewrite masked_testbit by lia.
  by rewrite (proj2 (Z.leb_le 0 j)), (proj2 (Z.leb_le j 7)) by lia.
Qed.

Lemma bit_at_insert (bs : list Z) (k x i : Z) :
  0 <= k < Z.of_nat (length bs) -> 0 <= i ->
  bit_at (<[Z.to_nat k := x]> bs) i =
    if i / 8 =? k then Z.testbit x (7 - i mod 8) else bit_at bs i.
Proof.
  intros Hk Hi. unfold bit_at. rewrite !nth_lookup.
  pose proof (Z.div_pos i 8 Hi ltac:(lia)).
  destruct (Z.eqb_spec (i / 8) k) as [<-|N].
  - by rewrite list_lookup_insert_eq by lia.
  - by rewrite list_lookup_insert_ne by lia.
Qed.

(** ** A proof rule for the range map

    [I p buckets context] holds when the bits from the start of the range up to
    [p] have been visited.  It suffices that one masked bucket moves [I] from the
    first to the end of the bits of the mask. *)

Section MapRule.
Context {C : Type}.
Variable mapper : Z -> Z -> C -> result (Z * C).
Variable I : Z -> list Z -> C -> Prop.
Variables (start stop : Z) (size : nat).

Hypothesis start_stop : 0 <= start /\ start <= stop /\ stop <= 8 * Z.of_nat size.
Hypothesis I_bytes : forall p bs c, I p bs c -> Forall byte_ok bs /\ length bs = size.
Hypothesis mapper_byte : forall b m c nb c', byte_ok b -> mapper b m c = Ok (nb, c') -> byte_ok nb.
Hypothesis step : forall k lo hi bs c,
  0 <= k < Z.of_nat size -> 0 <= lo <= hi -> hi < 8 -> start <= 8 * k + lo -> 8 * k + hi < stop ->
  (hi = 7 \/ 8 * k + hi + 1 = stop) -> I (8 * k + lo) bs c ->
  exists bs' c', map_masked mapper bs k (CFBitBucketMask lo hi) c = Ok (bs', c') /\
    I (8 * k + hi + 1) bs' c'.

Lemma map_whole_rule (n : nat) (k : Z) (bs : list Z) (c : C) :
  0 <= k -> start <= 8 * k -> 8 * (k + Z.of_nat n) <= stop -> I (8 * k) bs c ->
  exists bs' c', map_whole mapper n bs k c = Ok (bs', c') /\ I (8 * (k + Z.of_nat n)) bs' c'.
Proof.
  revert k bs c. induction n as [|n IH]; intros k bs c Hk Hs Hn HI; cbn [map_whole].
  { exists bs, c. split; [done|]. by replace (8 * (k + Z.of_nat 0)) with (8 * k) by lia. }
  destruct (step k 0 7 bs c) as (bs1 & c1 & E & HI1); [lia|lia|lia|lia|lia|lia|by rewrite Z.add_0_r|].
  destruct (I_bytes _ _ _ HI) as [Hb Hl]. unfold map_masked in E.
  destruct (aget_bound bs k ltac:(lia)) as [b Hget]. rewrite Hget in *. cbn [mbind result_bind] in *.
  change (u8 (Z.lnot 0)) with (CFBitBucketMask 0 7).
  destruct (mapper b (CFBitBucketMask 0 7) c) as [[nb c']| | |] eqn:Em; try done.
  cbn [mbind result_bind] in *.
  assert (byte_ok b) by (apply aget_Ok in Hget as [_ Hget]; by eapply Forall_lookup_1).
  rewrite masked_whole in E by (by eapply mapper_byte).
  destruct (aset bs k nb) as [bs2| | |]; cbn [mbind result_bind] in *; try done. injection E as -> ->.
  destruct (IH (k + 1) bs1 c1) as (bs' & c'' & E' & HI'); [lia|lia|lia| |].
  - by replace (8 * (k + 1)) with (8 * k + 7 + 1) by lia.
  - exists bs', c''. split; [done|]. by replace (k + Z.of_nat (S n)) with (k + 1 + Z.of_nat n) by lia.
Qed.

Lemma internal_map_rule (bs : list Z) (c : C) :
  I start bs c ->
  exists bs' c', CFBitVectorInternalMap mapper bs start (stop - start) c = Ok (bs', c') /\ I stop bs' c'.
Proof.
  intros HI. unfold CFBitVectorInternalMap. destruct (Z.eqb_spec 0 (stop - start)) as [E|E].
  { exists bs, c. by replace stop with start by lia. }
  change BITS_PER_BUCKET with 8. cbv zeta.
  rewrite (Z.quot_div_nonneg start 8) by lia. change (8 - 1) with (Z.ones 3). rewrite Z.land_ones by lia.
  change (2 ^ 3) with 8. change (Z.ones 3) with 7. pose proof (Z.div_mod start 8 ltac:(lia)) as D.
  pose proof (Z.mod_pos_bound start 8 ltac:(lia)) as M.
  set (k := start / 8) in *. set (lo := start mod 8) in *.
  destruct (Z.ltb_spec (lo + (stop - start)) 8) as [Sm|Sm].
  - destruct (step k lo (lo + (stop - start) - 1) bs c) as (bs1 & c1 & -> & HI1);
      [lia|lia|lia|lia|lia|lia|by rewrite <- D|].
    cbn. exists bs1, c1. split; [done|].
    by replace stop with (8 * k + (lo + (stop - start) - 1) + 1) by lia.
  - destruct (step k lo 7 bs c) as (bs1 & c1 & -> & HI1); [lia|lia|lia|lia|lia|lia|by rewrite <- D|].
    cbn [mbind result_bind]. rewrite Z.quot_div_nonneg by lia.
    set (rest := stop - start - (8 - lo)) in *.
    pose proof (Z.div_mod rest 8 ltac:(lia)) as D'. pose proof (Z.mod_pos_bound rest 8 ltac:(lia)) as M'.
    assert (0 <= rest / 8) by (apply Z.div_pos; lia).
    destruct (map_whole_rule (Z.to_nat (rest / 8)) (k + 1) bs1 c1) as (bs2 & c2 & -> & HI2);
      [lia|lia|lia|by replace (8 * (k + 1)) with (8 * k + 7 + 1) by lia|].
    rewrite Z2Nat.id in HI2 by lia. cbn [mbind result_bind].
    destruct (Z.eqb_spec 0 (rest - rest / 8 * 8)) as [Z0|Z0].
    + exists bs2, c2. split; [done|]. by replace stop with (8 * (k + 1 + rest / 8)) by lia.
    + destruct (step (k + 1 + rest / 8) 0 (rest - rest / 8 * 8 - 1) bs2 c2) as (bs3 & c3 & -> & HI3);
        [lia|lia|lia|lia|lia|lia|by rewrite Z.add_0_r|].
      exists bs3, c3. split; [done|].
      by replace stop with (8 * (k + 1 + rest / 8) + (rest - rest / 8 * 8 - 1) + 1) by lia.
Qed.

End MapRule.

(** ** Maps that act bit by bit *)

(** [bs'] is [bs] with [f] applied to the bits of [[lo, hi)]. *)
Record updated (f : bool -> bool) (bs bs' : list Z) (lo hi : Z) : Prop := mk_updated {
  upd_length : length bs' = length bs;
  upd_bytes : Forall byte_ok bs';
  upd_bits : forall i, 0 <= i ->
    bit_at bs' i = if (lo <=? i) && (i <? hi) then f (bit_at bs i) else bit_at bs i
}.

Definition bitwise (f : bool -> bool) (mapper : Z -> Z -> unit -> result (Z * unit)) : Prop :=
  forall b m, byte_ok b -> exists nb, mapper b m tt = Ok (nb, tt) /\ byte_ok nb /\
    forall j, 0 <= j < 8 -> Z.testbit nb j = f (Z.testbit b j).

Lemma zero_bitwise : bitwise (fun _ => false) CFBitVectorZeroBits.
Proof.
  intros b m _. exists 0. split; [done|]. split; [done|]. intros. apply Z.testbit_0_l.
Qed.

Lemma one_bitwise : bitwise (fun _ => true) CFBitVectorOneBits.
Proof.
  intros b m _. exists 255. split; [done|]. split; [done|]. intros j Hj.
  change 255 with (Z.ones 8). by apply Z.ones_spec_low.
Qed.

Lemma flip_bitwise : bitwise negb CFBitVectorFlipBits_mapper.
Proof.
  intros b m Hb. exists (Z.lxor 255 b). split; [done|].
  assert (T : forall j, Z.testbit (Z.lxor 255 b) j = xorb (Z.testbit 255 j) (Z.testbit b j))
    by (intros; apply Z.lxor_spec).
  assert (E : Z.lxor 255 b = u8 (Z.lxor 255 b)).
  { apply Z.bits_inj'. intros j Hj. destruct (Z.lt_ge_cases j 8).
    - by rewrite u8_testbit.
    - rewrite (byte_testbit_high (u8 _)) by (done || apply u8_byte).
      rewrite T, !byte_testbit_high by done. done. }
  split; [rewrite E; apply u8_byte|]. intros j Hj. rewrite T. change 255 with (Z.ones 8).
  rewrite Z.ones_spec_low by lia. by destruct (Z.testbit b j).
Qed.

Lemma updated_step (f : bool -> bool) (mapper : Z -> Z -> unit -> result (Z * unit))
  (bs0 bs : list Z) (start k lo hi : Z) :
  bitwise f mapper -> 0 <= k < Z.of_nat (length bs0) -> 0 <= lo <= hi -> hi < 8 ->
  0 <= start <= 8 * k + lo -> updated f bs0 bs start (8 * k + lo) ->
  exists bs', map_masked mapper bs k (CFBitBucketMask lo hi) tt = Ok (bs', tt) /\
    updated f bs0 bs' start (8 * k + hi + 1).
Proof.
  intros Hf Hk Hlo Hhi Hs [L B U]. unfold map_masked.
  destruct (aget_bound bs k ltac:(lia)) as [b Hget]. rewrite Hget. cbn [mbind result_bind].
  apply aget_Ok in Hget as [_ Hget]. pose proof (Forall_lookup_1 _ _ _ _ B Hget) as Hb.
  destruct (Hf b (CFBitBucketMask lo hi) Hb) as (nb & -> & Hnb & T). cbn [mbind result_bind].
  rewrite aset_Ok by lia. cbn [mbind result_bind]. eexists; split; [reflexivity|].
  split; [by rewrite length_insert|apply Forall_insert; [done|apply u8_byte]|].
  intros i Hi. rewrite bit_at_insert by lia.
  pose proof (Z.div_mod i 8 ltac:(lia)) as D. pose proof (Z.mod_pos_bound i 8 ltac:(lia)) as M.
  rewrite U by done. destruct (Z.eqb_spec (i / 8) k) as [E|N].
  - rewrite masked_testbit by lia.
    assert (V : bit_at bs i = Z.testbit b (7 - i mod 8)).
    { unfold bit_at. by rewrite nth_lookup, E, Hget. }
    rewrite U in V by done. rewrite T by lia.
    repeat match goal with |- context [?x <=? ?y] => destruct (Z.leb_spec x y) end;
    repeat match goal with H : context [?x <=? ?y] |- _ => destruct (Z.leb_spec x y) end;
    repeat match goal with |- context [?x <? ?y] => destruct (Z.ltb_spec x y) end;
    repeat match goal with H : context [?x <? ?y] |- _ => destruct (Z.ltb_spec x y) end;
    cbn [andb] in *; try lia; congruence.
  - repeat match goal with |- context [?x <=? ?y] => destruct (Z.leb_spec x y) end;
    repeat match goal with |- context [?x <? ?y] => destruct (Z.ltb_spec x y) end;
    cbn [andb]; (done || lia).
Qed.

Lemma internal_map_updated (f : bool -> bool) (mapper : Z -> Z -> unit -> result (Z * unit))
  (bs : list Z) (location length' : Z) :
  bitwise f mapper -> Forall byte_ok bs -> 0 <= location -> 0 <= length' ->
  location + length' <= 8 * Z.of_nat (length bs) ->
  exists bs', CFBitVectorInternalMap mapper bs location length' tt = Ok (bs', tt) /\
    updated f bs bs' location (location + length').
Proof.
  intros Hf Hb Hl Hn Hr.
  destruct (internal_map_rule mapper (fun p bs' _ => updated f bs bs' location p)
    location (location + length') (length bs)) with (bs := bs) (c := tt) as (bs' & [] & E & U).
  - lia.
  - intros p bs' c [L B _]. by split.
  - intros b m [] nb [] Hby E. destruct (Hf b m Hby) as (nb' & E' & ? & _). congruence.
  - intros k lo hi bs' [] H1 H2 H3 H4 H5 _ HI.
    destruct (updated_step f mapper bs bs' location k lo hi) as (bs2 & ? & ?); [done..|lia|done|].
    by exists bs2, tt.
  - split; [done|done|]. intros i Hi.
    destruct (Z.leb_spec location i), (Z.ltb_spec i location); cbn; (done || lia).
  - replace (location + length' - location) with length' in E by lia. by exists bs'.
Qed.

(** ** Single-bit updates *)

Lemma bit_index (idx : Z) :
  0 <= idx -> Z.quot idx BITS_PER_BUCKET = idx / 8 /\ Z.land idx (BITS_PER_BUCKET - 1) = idx mod 8.
Proof.
  intros. change BITS_PER_BUCKET with 8. split; [apply Z.quot_div_nonneg; lia|].
  change (8 - 1) with (Z.ones 3). by rewrite Z.land_ones by lia.
Qed.

Lemma div8_bound (i : Z) (n : nat) :
  0 <= i -> i < 8 * Z.of_nat n -> 0 <= i / 8 < Z.of_nat n.
Proof. intros. split; [apply Z.div_pos|apply Z.div_lt_upper_bound]; lia. Qed.

(** A store to one byte that changes one bit is an update of a range of length one. *)
Lemma updated_single (f : bool -> bool) (bs : list Z) (idx b x : Z) :
  Forall byte_ok bs -> 0 <= idx -> idx < 8 * Z.of_nat (length bs) ->
  bs !! Z.to_nat (idx / 8) = Some b -> byte_ok x ->
  (forall j, 0 <= j < 8 -> Z.testbit x (7 - j) =
    if j =? idx mod 8 then f (Z.testbit b (7 - j)) else Z.testbit b (7 - j)) ->
  updated f bs (<[Z.to_nat (idx / 8) := x]> bs) idx (idx + 1).
Proof.
  intros Hb Hi Hl Hlk Hx T. pose proof (div8_bound idx _ Hi Hl).
  split; [by rewrite length_insert|by apply Forall_insert|].
  intros i Hi'. rewrite bit_at_insert by lia.
  pose proof (Z.div_mod i 8 ltac:(lia)). pose proof (Z.mod_pos_bound i 8 ltac:(lia)).
  pose proof (Z.div_mod idx 8 ltac:(lia)). pose proof (Z.mod_pos_bound idx 8 ltac:(lia)).
  destruct (Z.eqb_spec (i / 8) (idx / 8)) as [E|N].
  - rewrite T by lia. assert (V : bit_at bs i = Z.testbit b (7 - i mod 8)).
    { unfold bit_at. by rewrite nth_lookup, E, Hlk. }
    rewrite V. destruct (Z.eqb_spec (i mod 8) (idx mod 8)), (Z.leb_spec idx i), (Z.ltb_spec i (idx + 1));
      cbn; (done || lia).
  - destruct (Z.leb_spec idx i), (Z.ltb_spec i (idx + 1)); cbn; (done || lia).
Qed.

Lemma single_bit_mask (idx j : Z) :
  0 <= j < 8 ->
  Z.testbit (Z.shiftl 1 (8 - 1 - idx mod 8)) (7 - j) = (j =? idx mod 8).
Proof.
  intros Hj. pose proof (Z.mod_pos_bound idx 8 ltac:(lia)).
  rewrite Z.shiftl_1_l, Z.pow2_bits_eqb by lia.
  destruct (Z.eqb_spec (8 - 1 - idx mod 8) (7 - j)), (Z.eqb_spec j (idx mod 8)); (done || lia).
Qed.

Lemma set_bit_updated (bs : list Z) (idx value : Z) :
  Forall byte_ok bs -> 0 <= idx -> idx < 8 * Z.of_nat (length bs) ->
  exists bs', CFSetBitVectorBit bs idx value = Ok bs' /\
    updated (fun _ => negb (value =? 0)) bs bs' idx (idx + 1).
Proof.
  intros Hb Hi Hl. unfold CFSetBitVectorBit. destruct (bit_index idx Hi) as [-> ->].
  pose proof (div8_bound idx _ Hi Hl). destruct (aget_bound bs (idx / 8)) as [b Hget]; [lia|].
  rewrite Hget. cbn [mbind result_bind]. rewrite aset_Ok by lia. eexists; split; [reflexivity|].
  apply aget_Ok in Hget as [_ Hget]. change BITS_PER_BUCKET with 8.
  eapply updated_single; [done..|destruct (value =? 0); apply u8_byte|].
  intros j Hj. destruct (value =? 0); cbn [negb]; rewrite u8_testbit by lia.
  - rewrite Z.land_spec, Z.lnot_spec, single_bit_mask by lia.
    destruct (j =? idx mod 8); cbn; [apply andb_false_r|apply andb_true_r].
  - rewrite Z.lor_spec, single_bit_mask by lia.
    destruct (j =? idx mod 8); [apply orb_true_r|apply orb_false_r].
Qed.

Lemma flip_bit_updated (bs : list Z) (idx : Z) :
  Forall byte_ok bs -> 0 <= idx -> idx < 8 * Z.of_nat (length bs) ->
  exists bs', CFFlipBitVectorBit bs idx = Ok bs' /\ updated negb bs bs' idx (idx + 1).
Proof.
  intros Hb Hi Hl. unfold CFFlipBitVectorBit. destruct (bit_index idx Hi) as [-> ->].
  pose proof (div8_bound idx _ Hi Hl). destruct (aget_bound bs (idx / 8)) as [b Hget]; [lia|].
  rewrite Hget. cbn [mbind result_bind]. rewrite aset_Ok by lia. eexists; split; [reflexivity|].
  apply aget_Ok in Hget as [_ Hget]. change BITS_PER_BUCKET with 8.
  eapply updated_single; [done..|apply u8_byte|]. intros j Hj.
  rewrite u8_testbit, Z.lxor_spec, single_bit_mask by lia.
  destruct (j =? idx mod 8); destruct (Z.testbit b (7 - j)); done.
Qed.

(** ** Refinement: the operations as operations on the list of bits *)

(** [f] applied to the elements at [lo .. lo+n-1]. *)
Definition range_map (f : bool -> bool) (lo n : Z) (l : list bool) : list bool :=
  imap (fun i b => if (lo <=? Z.of_nat i) && (Z.of_nat i <? lo + n) then f b else b) l.

Lemma lookup_bits (bv : CFBitVector) (i : nat) :
  bits bv !! i = if Z.of_nat i <? bv_count bv then Some (bit_at (bv_buckets bv) (Z.of_nat i)) else None.
Proof.
  unfold bits. rewrite list_lookup_fmap. destruct (Z.ltb_spec (Z.of_nat i) (bv_count bv)).
  - by rewrite lookup_seq_lt by lia.
  - by rewrite lookup_seq_ge by lia.
Qed.

Lemma length_bits (bv : CFBitVector) : length (bits bv) = Z.to_nat (bv_count bv).
Proof. unfold bits. by rewrite length_map, length_seq. Qed.

Lemma bits_updated (f : bool -> bool) (bv : CFBitVector) (bs' : list Z) (lo n : Z) :
  wf bv -> updated f (bv_buckets bv) bs' lo (lo + n) ->
  let bv' := mkBV (bv_count bv) (bv_capacity bv) bs' (bv_variety bv) in
  wf bv' /\ bits bv' = range_map f lo n (bits bv).
Proof.
  intros [Wc Wl Wb] [Ul Ub U]. split; [split; cbn; [done|by rewrite Ul|done]|].
  apply list_eq. intros i. unfold range_map. rewrite list_lookup_imap, !lookup_bits. cbn.
  destruct (Z.ltb_spec (Z.of_nat i) (bv_count bv)); [|done]. cbn. by rewrite U by lia.
Qed.

Lemma wf_in_buckets (bv : CFBitVector) (i : Z) :
  wf bv -> i <= bv_count bv -> i < 8 * Z.of_nat (length (bv_buckets bv)).
Proof.
  intros [Wc Wl _] Hi. rewrite Wl. pose proof (Z.div_mod (bv_capacity bv) 8 ltac:(lia)).
  pose proof (Z.mod_pos_bound (bv_capacity bv) 8 ltac:(lia)). lia.
Qed.

Lemma map_range_refines (f : bool -> bool) (mapper : Z -> Z -> unit -> result (Z * unit))
  (bv : CFBitVector) (lo n : Z) :
  bitwise f mapper -> wf bv -> 0 <= lo -> 0 <= n -> lo + n <= bv_count bv ->
  exists bv', map_range mapper bv lo n = Ok bv' /\ wf bv' /\
    bv_count bv' = bv_count bv /\ bv_capacity bv' = bv_capacity bv /\
    bv_variety bv' = bv_variety bv /\
    bits bv' = range_map f lo n (bits bv) /\
    updated f (bv_buckets bv) (bv_buckets bv') lo (lo + n).
Proof.
  intros Hf W Hl Hn Hr. pose proof (wf_in_buckets bv (lo + n) W Hr).
  destruct (internal_map_updated f mapper (bv_buckets bv) lo n) as (bs' & E & U);
    [done|apply W|lia|lia|lia|].
  unfold map_range. rewrite E. cbn [mbind result_bind]. eexists; split; [reflexivity|].
  destruct (bits_updated f bv bs' lo n W U). by split_and!.
Qed.

Lemma range_map_empty (f : bool -> bool) (lo : Z) (l : list bool) : range_map f lo 0 l = l.
Proof.
  apply list_eq. intros i. unfold range_map. rewrite list_lookup_imap.
  destruct (l !! i); [|done]. cbn.
  destruct (Z.leb_spec lo (Z.of_nat i)), (Z.ltb_spec (Z.of_nat i) (lo + 0)); cbn; (done || lia).
Qed.

(** A vector that may be changed, and what a change of some bits leaves as it was. *)
Definition is_mutable (bv : CFBitVector) : Prop := bv_variety bv = kCFBitVectorMutable.

Definition same_shape (bv bv' : CFBitVector) : Prop :=
  bv_count bv' = bv_count bv /\ bv_capacity bv' = bv_capacity bv /\ bv_variety bv' = bv_variety bv.

(** C39. On a mutable bit vector, which both functions assert, CFBitVectorSetBits and
    CFBitVectorFlipBits change exactly the bits of the range, across partial and whole buckets, and keep
    the count, the capacity and the variety. *)
Theorem set_and_flip_refine (bv : CFBitVector) (lo n value : Z) :
  wf bv -> is_mutable bv -> 0 <= lo -> 0 <= n -> lo + n <= bv_count bv ->
  (exists bv', CFBitVectorSetBits bv lo n value = Ok bv' /\ wf bv' /\ same_shape bv bv' /\
     bits bv' = range_map (fun _ => negb (value =? 0)) lo n (bits bv)) /\
  (exists bv', CFBitVectorFlipBits bv lo n = Ok bv' /\ wf bv' /\ same_shape bv bv' /\
     bits bv' = range_map negb lo n (bits bv)).
Proof.
  intros W _ Hl Hn Hr. unfold CFBitVectorSetBits, CFBitVectorFlipBits.
  destruct (Z.eqb_spec 0 n) as [<-|N].
  { split; exists bv; by rewrite range_map_empty. }
  split.
  - destruct (value =? 0); cbn [negb];
      [destruct (map_range_refines _ _ bv lo n zero_bitwise W Hl Hn Hr) as (bv' & ? & ? & ? & ? & ? & ? & _)
      |destruct (map_range_refines _ _ bv lo n one_bitwise W Hl Hn Hr) as (bv' & ? & ? & ? & ? & ? & ? & _)];
      by exists bv'.
  - destruct (map_range_refines _ _ bv lo n flip_bitwise W Hl Hn Hr) as (bv' & ? & ? & ? & ? & ? & ? & _).
    by exists bv'.
Qed.

(** Reading a bit. *)
Lemma get_bit (bs : list Z) (idx : Z) :
  0 <= idx -> idx < 8 * Z.of_nat (length bs) ->
  CFBitVectorBit bs idx = Ok (Z.b2z (bit_at bs idx)).
Proof.
  intros Hi Hl. unfold CFBitVectorBit. destruct (bit_index idx Hi) as [-> ->].
  pose proof (div8_bound idx _ Hi Hl). destruct (aget_bound bs (idx / 8)) as [b Hget]; [lia|].
  rewrite Hget. cbn [mbind result_bind]. apply aget_Ok in Hget as [_ Hget].
  pose proof (Z.mod_pos_bound idx 8 ltac:(lia)). f_equal.
  unfold bit_at. rewrite nth_lookup, Hget. cbn [default from_option]. change 1 with (Z.ones 1).
  rewrite Z.land_ones by lia. change (2 ^ 1) with 2. rewrite <- Z.bit0_mod.
  rewrite Z.shiftr_spec by lia. cbn [from_option]. do 2 f_equal.
Qed.

Lemma range_map_single (f : bool -> bool) (i : nat) (l : list bool) :
  range_map f (Z.of_nat i) 1 l = alter f i l.
Proof.
  apply list_eq. intros k. unfold range_map. rewrite list_lookup_imap.
  destruct (decide (k = i)) as [->|N].
  - rewrite list_lookup_alter_eq. destruct (l !! i); [|done]. cbn. f_equal.
    by rewrite Z.leb_refl, (proj2 (Z.ltb_lt (Z.of_nat i) (Z.of_nat i + 1))) by lia.
  - rewrite list_lookup_alter_ne by done. destruct (l !! k); [|done]. cbn. f_equal.
    destruct (Z.leb_spec (Z.of_nat i) (Z.of_nat k)), (Z.ltb_spec (Z.of_nat k) (Z.of_nat i + 1));
      cbn; (done || lia).
Qed.

Theorem single_bit_refine (bv : CFBitVector) (i : nat) (value : Z) :
  wf bv -> is_mutable bv -> Z.of_nat i < bv_count bv ->
  (exists b, bits bv !! i = Some b /\ CFBitVectorGetBitAtIndex bv (Z.of_nat i) = Ok (Z.b2z b)) /\
  (exists bv', CFBitVectorSetBitAtIndex bv (Z.of_nat i) value = Ok bv' /\ wf bv' /\
     bits bv' = alter (fun _ => negb (value =? 0)) i (bits bv)) /\
  (exists bv', CFBitVectorFlipBitAtIndex bv (Z.of_nat i) = Ok bv' /\ wf bv' /\
     bits bv' = alter negb i (bits bv)).
Proof.
  intros W _ Hi. pose proof (wf_in_buckets bv (Z.of_nat i) W ltac:(lia)) as Hl. split_and!.
  - exists (bit_at (bv_buckets bv) (Z.of_nat i)). rewrite lookup_bits.
    rewrite (proj2 (Z.ltb_lt _ _)) by lia. split; [done|]. apply get_bit; lia.
  - destruct (set_bit_updated (bv_buckets bv) (Z.of_nat i) value) as (bs' & E & U);
      [apply W|lia|lia|]. unfold CFBitVectorSetBitAtIndex. rewrite E. cbn [mbind result_bind].
    eexists; split; [reflexivity|]. rewrite <- range_map_single. by apply bits_updated.
  - destruct (flip_bit_updated (bv_buckets bv) (Z.of_nat i)) as (bs' & E & U);
      [apply W|lia|lia|]. unfold CFBitVectorFlipBitAtIndex. rewrite E. cbn [mbind result_bind].
    eexists; split; [reflexivity|]. rewrite <- range_map_single. by apply bits_updated.
Qed.

(** ** Setting all bits *)

Lemma bit_at_prefix (n : nat) (x : Z) (bs : list Z) (i : Z) :
  (n <= length bs)%nat -> 0 <= i ->
  bit_at (replicate n x ++ drop n bs) i =
    if i <? 8 * Z.of_nat n then Z.testbit x (7 - i mod 8) else bit_at bs i.
Proof.
  intros Hn Hi. unfold bit_at. rewrite !nth_lookup.
  pose proof (Z.div_mod i 8 ltac:(lia)). pose proof (Z.mod_pos_bound i 8 ltac:(lia)).
  destruct (Z.ltb_spec i (8 * Z.of_nat n)).
  - rewrite lookup_app_l, lookup_replicate_2 by (rewrite ?length_replicate; lia). done.
  - rewrite lookup_app_r by (rewrite length_replicate; lia).
    rewrite length_replicate, lookup_drop. do 3 f_equal. lia.
Qed.

(** The bits after the last whole bucket. *)
Lemma set_leftover (bv : CFBitVector) (q : Z) (v : bool) :
  wf bv -> 0 <= q -> q * 8 <= bv_count bv -> exists bv1,
    (if 0 <? bv_count bv - q * 8 then
       map_range (if v then CFBitVectorOneBits else CFBitVectorZeroBits) bv (q * 8) (bv_count bv - q * 8)
     else Ok bv) = Ok bv1 /\ wf bv1 /\ bv_count bv1 = bv_count bv /\
    forall i, 0 <= i -> q * 8 <= i < bv_count bv -> bit_at (bv_buckets bv1) i = v.
Proof.
  intros W Hq Hc. destruct (Z.ltb_spec 0 (bv_count bv - q * 8)) as [Hlo|Hlo].
  - assert (B : bitwise (fun _ => v) (if v then CFBitVectorOneBits else CFBitVectorZeroBits))
      by (destruct v; [apply one_bitwise|apply zero_bitwise]).
    destruct (map_range_refines _ _ bv (q * 8) (bv_count bv - q * 8) B W) as
      (bv1 & E & W1 & C1 & _ & _ & _ & U); [lia|lia|lia|].
    exists bv1. split_and!; [done|done|done|]. intros i Hi Hr. rewrite (upd_bits _ _ _ _ _ U) by done.
    by rewrite (proj2 (Z.leb_le _ _)), (proj2 (Z.ltb_lt _ _)) by lia.
  - exists bv. split_and!; [done|done|done|lia].
Qed.

Theorem set_all_refine (bv : CFBitVector) (value : Z) :
  wf bv -> is_mutable bv ->
  exists bv', CFBitVectorSetAllBits bv value = Ok bv' /\ wf bv' /\
    bits bv' = replicate (Z.to_nat (bv_count bv)) (negb (value =? 0)).
Proof.
  intros W _. pose proof (wf_count bv W) as Hc. unfold CFBitVectorSetAllBits.
  change BITS_PER_BUCKET with 8. rewrite Z.quot_div_nonneg by lia.
  pose proof (Z.div_mod (bv_count bv) 8 ltac:(lia)) as D.
  pose proof (Z.mod_pos_bound (bv_count bv) 8 ltac:(lia)) as M.
  set (q := bv_count bv / 8) in *. set (v := negb (value =? 0)).
  pose proof (set_leftover bv q v W ltac:(lia) ltac:(lia)) as S.
  destruct S as (bv1 & -> & W1 & C1 & Hleft). cbn [mbind result_bind].
  pose proof (wf_in_buckets bv1 (bv_count bv) W1 ltac:(lia)) as Hl.
  destruct (Nat.ltb_spec (length (bv_buckets bv1)) (Z.to_nat q)); [lia|].
  eexists; split; [reflexivity|]. destruct W1 as [Wc Wl Wb].
  split.
  - split; cbn; [done| |].
    + rewrite length_app, length_replicate, length_drop. lia.
    + apply Forall_app; split; [apply Forall_replicate; by destruct v|by apply Forall_drop].
  - apply list_eq. intros i. rewrite lookup_bits. cbn [bv_count bv_buckets]. rewrite C1.
    destruct (Z.ltb_spec (Z.of_nat i) (bv_count bv)).
    + rewrite lookup_replicate_2 by lia. f_equal. rewrite bit_at_prefix by lia.
      destruct (Z.ltb_spec (Z.of_nat i) (8 * Z.of_nat (Z.to_nat q))); [|apply Hleft; lia].
      destruct v; [|apply Z.testbit_0_l]. change (u8 (Z.lnot 0)) with (Z.ones 8).
      pose proof (Z.mod_pos_bound (Z.of_nat i) 8 ltac:(lia)). apply Z.ones_spec_low; lia.
    + symmetry. apply lookup_replicate_None. lia.
Qed.

(** ** Changing the count *)

Lemma round_up_capacity (n : Z) :
  0 <= n -> n <= CFBitVectorRoundUpCapacity n /\ CFBitVectorRoundUpCapacity n mod 64 = 0 /\
    0 < CFBitVectorRoundUpCapacity n.
Proof.
  intros Hn. unfold CFBitVectorRoundUpCapacity.
  set (c := if 0 =? n then 1 else n).
  assert (n <= c /\ 0 < c) by (subst c; destruct (Z.eqb_spec 0 n); lia).
  rewrite Z.quot_div_nonneg, Z.mod_mul by lia.
  pose proof (Z.div_mod (c + 63) 64 ltac:(lia)). pose proof (Z.mod_pos_bound (c + 63) 64 ltac:(lia)). lia.
Qed.

Lemma bit_at_take (bs ys : list Z) (n : nat) (i : Z) :
  0 <= i -> i < 8 * Z.of_nat n -> i < 8 * Z.of_nat (length bs) ->
  bit_at (take n bs ++ ys) i = bit_at bs i.
Proof.
  intros Hi Hn Hl. unfold bit_at. rewrite !nth_lookup.
  pose proof (div8_bound i n Hi Hn). pose proof (div8_bound i _ Hi Hl).
  rewrite lookup_app_l by (rewrite length_take; lia). by rewrite lookup_take_lt by lia.
Qed.

Lemma grow_wf (bv : CFBitVector) (k : Z) (garbage : list Z) :
  wf bv -> 0 <= k -> Forall byte_ok garbage ->
  let bv' := CFBitVectorGrow bv k garbage in
  wf (mkBV (bv_count bv + k) (bv_capacity bv') (bv_buckets bv') (bv_variety bv')) /\
  forall i, 0 <= i < bv_count bv -> bit_at (bv_buckets bv') i = bit_at (bv_buckets bv) i.
Proof.
  intros W Hk Hg. pose proof (wf_count bv W) as Hc. cbn.
  destruct (round_up_capacity (bv_count bv + k)) as (R1 & _ & R2); [lia|].
  set (cap := CFBitVectorRoundUpCapacity (bv_count bv + k)) in *. unfold CFBitVectorNumBuckets.
  change BITS_PER_BUCKET with 8. rewrite Z.quot_div_nonneg by lia.
  pose proof (Z.div_pos cap 8 ltac:(lia) ltac:(lia)).
  pose proof (Z.div_mod cap 8 ltac:(lia)). pose proof (Z.mod_pos_bound cap 8 ltac:(lia)).
  split; [split; cbn; [lia| |]|].
  - rewrite length_app, length_take, length_resize. lia.
  - apply Forall_app; split; [apply Forall_take, W|]. apply Forall_resize; done.
  - intros i Hi. pose proof (wf_in_buckets bv i W ltac:(lia)). apply bit_at_take; lia.
Qed.

Theorem set_count_refine (bv : CFBitVector) (n : Z) (garbage : list Z) :
  wf bv -> 0 <= n -> bv_variety bv = kCFBitVectorMutable -> Forall byte_ok garbage ->
  exists bv', CFBitVectorSetCount bv n garbage = Ok bv' /\ wf bv' /\
    bits bv' = take (Z.to_nat n) (bits bv) ++ replicate (Z.to_nat (n - bv_count bv)) false.
Proof.
  intros W Hn Hv Hg. pose proof (wf_count bv W) as Hc. unfold CFBitVectorSetCount. rewrite Hv.
  destruct (Z.ltb_spec (bv_count bv) n) as [Hlt|Hge]; cbn [mbind result_bind].
  - destruct (grow_wf bv (n - bv_count bv) garbage W ltac:(lia) Hg) as [Wg Hbits].
    replace (bv_count bv + (n - bv_count bv)) with n in Wg by lia.
    set (g := CFBitVectorGrow bv (n - bv_count bv) garbage) in *.
    destruct (map_range_refines _ _ _ (bv_count bv) (n - bv_count bv) zero_bitwise Wg) as
      (bv' & E & W' & C' & _ & _ & _ & U); cbn [bv_count]; [lia..|].
    unfold map_range in *. cbn [bv_buckets] in *.
    destruct (CFBitVectorInternalMap _ (bv_buckets g) _ _ tt) as [[bs' []]| | |]; try done.
    cbn [mbind result_bind] in *. injection E as <-. eexists; split; [reflexivity|]. split; [done|].
    apply list_eq. intros i. rewrite lookup_bits, take_ge by (rewrite length_bits; lia).
    cbn [bv_count bv_buckets] in *. replace (bv_count bv + (n - bv_count bv)) with n in U by lia.
    destruct (Z.ltb_spec (Z.of_nat i) n).
    + rewrite (upd_bits _ _ _ _ _ U) by lia. rewrite (proj2 (Z.ltb_lt _ n)), andb_true_r by lia.
      destruct (Z.leb_spec (bv_count bv) (Z.of_nat i)).
      * rewrite lookup_app_r, lookup_replicate_2 by (rewrite length_bits; lia). done.
      * rewrite lookup_app_l by (rewrite length_bits; lia).
        rewrite lookup_bits, (proj2 (Z.ltb_lt _ _)) by lia. f_equal. apply Hbits. lia.
    + symmetry. apply lookup_ge_None. rewrite length_app, length_bits, length_replicate. lia.
  - eexists; split; [reflexivity|]. split; [split; cbn; [lia|apply W|apply W]|].
    apply list_eq. intros i. replace (Z.to_nat (n - bv_count bv)) with 0%nat by lia.
    cbn [replicate]. rewrite app_nil_r, lookup_bits, lookup_take. cbn [bv_count bv_buckets].
    case_decide; destruct (Z.ltb_spec (Z.of_nat i) n); try lia; [|done].
    by rewrite lookup_bits, (proj2 (Z.ltb_lt _ _)) by lia.
Qed.

(** ** Counting *)

Fixpoint count_bits (bs : list Z) (lo : Z) (n : nat) (v : bool) : Z :=
  match n with
  | O => 0
  | S n => count_bits bs lo n v + Z.b2z (eqb (bit_at bs (lo + Z.of_nat n)) v)
  end.

Lemma count_bits_app (bs : list Z) (lo : Z) (m n : nat) (v : bool) :
  count_bits bs lo (m + n) v = count_bits bs lo m v + count_bits bs (lo + Z.of_nat m) n v.
Proof.
  induction n as [|n IH]; [rewrite Nat.add_0_r; cbn; lia|].
  rewrite Nat.add_succ_r. cbn [count_bits]. rewrite IH.
  replace (lo + Z.of_nat (m + n)) with (lo + Z.of_nat m + Z.of_nat n) by lia. lia.
Qed.

(** The bits [lo .. lo+n-1] of one byte that equal [v]. *)
Fixpoint count_byte (b lo : Z) (n : nat) (v : bool) : Z :=
  match n with
  | O => 0
  | S n => count_byte b lo n v + Z.b2z (eqb (Z.testbit b (7 - (lo + Z.of_nat n))) v)
  end.

Definition count_check (v : bool) (b lo hi : Z) : bool :=
  implb (lo <=? hi)
    match CFBitVectorCountBits b (CFBitBucketMask lo hi) (Z.b2z v, 0) with
    | Ok (b', (_, c)) => (b' =? b) && (c =? count_byte b lo (Z.to_nat (hi - lo + 1)) v)
    | _ => false
    end.

Lemma count_table (v : bool) (b lo hi : Z) :
  byte_ok b -> 0 <= lo <= hi -> hi < 8 -> count_check v b lo hi = true.
Proof.
  intros Hb Hlo Hhi. unfold byte_ok, in_u in Hb.
  assert (C : forallb (fun v => forallb (fun b => forallb (fun lo => forallb (count_check v b lo)
    (below 8)) (below 8)) (below 256)) [true; false] = true) by (vm_compute; reflexivity).
  assert (C0 : forallb (fun b => forallb (fun lo => forallb (count_check v b lo)
    (below 8)) (below 8)) (below 256) = true).
  { apply (proj1 (forallb_forall _ _) C). destruct v; cbn; tauto. }
  pose proof (below_spec _ _ b C0 ltac:(lia)) as C1. cbn beta in C1.
  pose proof (below_spec _ _ lo C1 ltac:(lia)) as C2. cbn beta in C2.
  exact (below_spec _ _ hi C2 ltac:(lia)).
Qed.

Lemma count_nibbles_add (n : nat) (val c : Z) :
  count_nibbles n val c = (count_nibbles n val 0 ≫= fun x => Ok (c + x)).
Proof.
  revert val c. induction n as [|n IH]; intros val c; cbn [count_nibbles]; [cbn; f_equal; lia|].
  destruct (aget CFNibbleBitCount (Z.land val 15)) as [x| | |]; cbn [mbind result_bind]; try done.
  rewrite IH, (IH _ (0 + x)). destruct (count_nibbles n _ 0); cbn; try done. f_equal. lia.
Qed.

Lemma count_mapper (value : Z) (b lo hi c : Z) :
  byte_ok b -> 0 <= lo <= hi -> hi < 8 ->
  CFBitVectorCountBits b (CFBitBucketMask lo hi) (value, c) =
    Ok (b, (value, c + count_byte b lo (Z.to_nat (hi - lo + 1)) (negb (value =? 0)))).
Proof.
  intros Hb Hlo Hhi. pose proof (count_table (negb (value =? 0)) b lo hi Hb Hlo Hhi) as T.
  unfold count_check in T. rewrite (proj2 (Z.leb_le lo hi)) in T by lia. cbn [implb] in T.
  unfold CFBitVectorCountBits in *.
  replace (negb (Z.b2z (negb (value =? 0)) =? 0)) with (negb (value =? 0)) in T
    by (by destruct (value =? 0)).
  rewrite count_nibbles_add.
  destruct (count_nibbles 2 _ 0) as [x| | |]; cbn [mbind result_bind] in *; try done.
  apply andb_prop in T as [_ T]. apply Z.eqb_eq in T. by rewrite T.
Qed.

Lemma count_byte_bits (bs : list Z) (k b lo : Z) (n : nat) (v : bool) :
  0 <= k -> bs !! Z.to_nat k = Some b -> 0 <= lo -> lo + Z.of_nat n <= 8 ->
  count_byte b lo n v = count_bits bs (8 * k + lo) n v.
Proof.
  intros Hk Hb Hlo. induction n as [|n IH]; intros Hn; [done|]. cbn [count_byte count_bits].
  rewrite IH by lia. do 3 f_equal. unfold bit_at.
  replace (8 * k + lo + Z.of_nat n) with ((lo + Z.of_nat n) + k * 8) by lia.
  rewrite Z.div_add, Z.mod_add, Z.div_small, Z.mod_small, Z.add_0_l by lia.
  by rewrite nth_lookup, Hb.
Qed.

Lemma masked_same (b lo hi : Z) :
  byte_ok b -> 0 <= lo <= hi -> hi < 8 ->
  u8 (Z.lor (Z.land b (Z.lnot (CFBitBucketMask lo hi))) (Z.land b (CFBitBucketMask lo hi))) = b.
Proof.
  intros Hb Hlo Hhi. apply byte_eq; [apply u8_byte|done|]. intros j Hj.
  rewrite masked_testbit by lia. by destruct ((lo <=? j) && (j <=? hi)).
Qed.

(** A mapper that returns the bucket leaves the buckets as they were. *)
Lemma map_masked_readonly {C} (mapper : Z -> Z -> C -> result (Z * C)) (bs : list Z) (k b lo hi : Z)
  (c c' : C) :
  Forall byte_ok bs -> 0 <= k -> bs !! Z.to_nat k = Some b -> 0 <= lo <= hi -> hi < 8 ->
  mapper b (CFBitBucketMask lo hi) c = Ok (b, c') ->
  map_masked mapper bs k (CFBitBucketMask lo hi) c = Ok (bs, c').
Proof.
  intros Hb Hk Hlk Hlo Hhi E. unfold map_masked.
  rewrite (proj2 (aget_Ok bs k b)) by done. cbn [mbind result_bind]. rewrite E. cbn [mbind result_bind].
  rewrite masked_same by (done || by eapply Forall_lookup_1).
  pose proof (lookup_lt_Some _ _ _ Hlk). rewrite aset_Ok by lia. cbn [mbind result_bind].
  by rewrite list_insert_id.
Qed.

Lemma count_bits_list (bv : CFBitVector) (lo n : nat) (v : bool) :
  Z.of_nat lo + Z.of_nat n <= bv_count bv ->
  count_bits (bv_buckets bv) (Z.of_nat lo) n v =
    Z.of_nat (length (List.filter (eqb v) (take n (drop lo (bits bv))))).
Proof.
  induction n as [|n IH]; intros Hn; [done|]. cbn [count_bits]. rewrite IH by lia.
  rewrite (take_S_r _ n (bit_at (bv_buckets bv) (Z.of_nat (lo + n)))).
  - rewrite filter_app, length_app, Nat2Z.inj_add, Nat2Z.inj_add. f_equal. cbn.
    replace (Z.of_nat lo + Z.of_nat n) with (Z.of_nat (lo + n)) by lia.
    by destruct v, (bit_at (bv_buckets bv) (Z.of_nat (lo + n))).
  - rewrite lookup_drop, lookup_bits. by rewrite (proj2 (Z.ltb_lt _ _)) by lia.
Qed.

Theorem count_refine (bv : CFBitVector) (lo n value : Z) :
  wf bv -> 0 <= lo -> 0 <= n -> lo + n <= bv_count bv ->
  CFBitVectorGetCountOfBit bv lo n value =
    Ok (Z.of_nat (length (List.filter (eqb (negb (value =? 0)))
          (take (Z.to_nat n) (drop (Z.to_nat lo) (bits bv)))))).
Proof.
  intros W Hlo Hn Hr. pose proof (wf_in_buckets bv (lo + n) W Hr).
  rewrite <- (Z2Nat.id lo), <- (Z2Nat.id n) at 1 by lia.
  rewrite <- count_bits_list by lia. rewrite !Z2Nat.id by lia.
  unfold CFBitVectorGetCountOfBit. destruct (Z.eqb_spec 0 n) as [<-|N]; [done|].
  destruct (internal_map_rule CFBitVectorCountBits
    (fun p bs' c => bs' = bv_buckets bv /\
       c = (value, count_bits (bv_buckets bv) lo (Z.to_nat (p - lo)) (negb (value =? 0))))
    lo (lo + n) (length (bv_buckets bv))) with (bs := bv_buckets bv) (c := (value, 0))
    as (bs' & c' & E & -> & ->).
  - lia.
  - intros p bs' c [-> _]. split; [apply W|done].
  - intros b m [v' c] nb c' Hb E. unfold CFBitVectorCountBits in E.
    destruct (count_nibbles 2 _ c); cbn in E; try done. congruence.
  - intros k l h bs' c Hk Hl Hh Hs Hp _ [-> ->].
    destruct (lookup_lt_is_Some_2 (bv_buckets bv) (Z.to_nat k)) as [b Hb]; [lia|].
    pose proof (Forall_lookup_1 _ _ _ _ (wf_bytes bv W) Hb).
    eexists _, _. split; [apply (map_masked_readonly _ _ _ b); [apply W|lia|done|done|done|
      by apply count_mapper]|]. split; [done|]. do 2 f_equal.
    rewrite (count_byte_bits (bv_buckets bv) k) by (done || lia).
    replace (Z.to_nat (8 * k + h + 1 - lo))
      with (Z.to_nat (8 * k + l - lo) + Z.to_nat (h - l + 1))%nat by lia.
    rewrite count_bits_app. do 2 f_equal. lia.
  - replace (lo - lo) with 0 by lia. done.
  - replace (lo + n - lo) with n in E by lia. rewrite E. cbn [mbind result_bind snd].
    by replace (lo + n - lo) with n by lia.
Qed.

(** ** Searching *)

Lemma first_index_spec (bs : list Z) (v : bool) (n : nat) (pos : Z) :
  0 <= pos -> pos + Z.of_nat n <= 8 * Z.of_nat (length bs) ->
  exists r, first_index n bs pos (Z.b2z v) = Ok r /\
    ((r = kCFNotFound /\ forall i, pos <= i < pos + Z.of_nat n -> bit_at bs i = negb v) \/
     (pos <= r < pos + Z.of_nat n /\ bit_at bs r = v /\ forall i, pos <= i < r -> bit_at bs i = negb v)).
Proof.
  revert pos. induction n as [|n IH]; intros pos Hp Hn; cbn [first_index].
  { exists kCFNotFound. split; [done|]. left. split; [done|]. lia. }
  rewrite get_bit by lia. cbn [mbind result_bind].
  destruct (Z.eqb_spec (Z.b2z v) (Z.b2z (bit_at bs pos))) as [E|E].
  - exists pos. split; [done|]. right. split; [lia|]. split; [by destruct v, (bit_at bs pos)|lia].
  - assert (Hb : bit_at bs pos = negb v) by (by destruct v, (bit_at bs pos)).
    destruct (IH (pos + 1)) as (r & E' & Hr); [lia|lia|]. exists r. split; [done|].
    destruct Hr as [[-> Hr]|(Hr & Hv & Hlt)]; [left|right].
    + split; [done|]. intros i Hi. destruct (decide (i = pos)) as [->|]; [done|]. apply Hr. lia.
    + split; [lia|]. split; [done|]. intros i Hi. destruct (decide (i = pos)) as [->|]; [done|].
      apply Hlt. lia.
Qed.

Lemma last_index_spec (bs : list Z) (v : bool) (n : nat) (lo : Z) :
  0 <= lo -> lo + Z.of_nat n <= 8 * Z.of_nat (length bs) ->
  exists r, last_index n bs lo (Z.b2z v) = Ok r /\
    ((r = kCFNotFound /\ forall i, lo <= i < lo + Z.of_nat n -> bit_at bs i = negb v) \/
     (lo <= r < lo + Z.of_nat n /\ bit_at bs r = v /\
      forall i, r < i < lo + Z.of_nat n -> bit_at bs i = negb v)).
Proof.
  intros Hlo. induction n as [|n IH]; intros Hn; cbn [last_index].
  { exists kCFNotFound. split; [done|]. left. split; [done|]. lia. }
  rewrite get_bit by lia. cbn [mbind result_bind]. set (p := lo + Z.of_nat n) in *.
  destruct (Z.eqb_spec (Z.b2z v) (Z.b2z (bit_at bs p))) as [E|E].
  - exists p. split; [done|]. right. split; [lia|]. split; [by destruct v, (bit_at bs p)|lia].
  - assert (Hb : bit_at bs p = negb v) by (by destruct v, (bit_at bs p)).
    destruct IH as (r & E' & Hr); [lia|]. exists r. split; [done|].
    destruct Hr as [[-> Hr]|(Hr & Hv & Hlt)]; [left|right].
    + split; [done|]. intros i Hi. destruct (decide (i = p)) as [->|]; [done|]. apply Hr. lia.
    + split; [lia|]. split; [done|]. intros i Hi. destruct (decide (i = p)) as [->|]; [done|].
      apply Hlt. lia.
Qed.

Definition bit_of (bv : CFBitVector) (i : Z) : option bool := bits bv !! Z.to_nat i.

Lemma bit_of_at (bv : CFBitVector) (i : Z) :
  0 <= i < bv_count bv -> bit_of bv i = Some (bit_at (bv_buckets bv) i).
Proof.
  intros Hi. unfold bit_of. rewrite lookup_bits, Z2Nat.id by lia.
  by rewrite (proj2 (Z.ltb_lt _ _)) by lia.
Qed.

Theorem search_finds_extreme (bv : CFBitVector) (lo n : Z) (v : bool) :
  wf bv -> 0 <= lo -> 0 <= n -> lo + n <= bv_count bv ->
  (exists r, CFBitVectorGetFirstIndexOfBit bv lo n (Z.b2z v) = Ok r /\
     ((r = kCFNotFound /\ forall i, lo <= i < lo + n -> bit_of bv i = Some (negb v)) \/
      (lo <= r < lo + n /\ bit_of bv r = Some v /\
       forall i, lo <= i < r -> bit_of bv i = Some (negb v)))) /\
  (exists r, CFBitVectorGetLastIndexOfBit bv lo n (Z.b2z v) = Ok r /\
     ((r = kCFNotFound /\ forall i, lo <= i < lo + n -> bit_of bv i = Some (negb v)) \/
      (lo <= r < lo + n /\ bit_of bv r = Some v /\
       forall i, r < i < lo + n -> bit_of bv i = Some (negb v)))).
Proof.
  intros W Hlo Hn Hr. pose proof (wf_in_buckets bv (lo + n) W Hr). split.
  - destruct (first_index_spec (bv_buckets bv) v (Z.to_nat n) lo) as (r & E & S); [lia|lia|].
    rewrite Z2Nat.id in S by lia. exists r. split; [done|].
    destruct S as [[-> S]|(Hb & Hv & S)]; [left|right]; split_and!; try done; try lia;
      try (intros i Hi); rewrite bit_of_at by lia; f_equal; (done || (apply S; lia)).
  - destruct (last_index_spec (bv_buckets bv) v (Z.to_nat n) lo) as (r & E & S); [lia|lia|].
    rewrite Z2Nat.id in S by lia. exists r. split; [done|].
    destruct S as [[-> S]|(Hb & Hv & S)]; [left|right]; split_and!; try done; try lia;
      try (intros i Hi); rewrite bit_of_at by lia; f_equal; (done || (apply S; lia)).
Qed.

(** ** Equality *)

Lemma equal_buckets_spec (n : nat) (b1 b2 : list Z) (idx : Z) :
  0 <= idx -> idx + Z.of_nat n <= Z.of_nat (length b1) -> idx + Z.of_nat n <= Z.of_nat (length b2) ->
  exists r, equal_buckets n b1 b2 idx = Ok r /\
    (r = true <-> forall i, idx <= i < idx + Z.of_nat n -> b1 !! Z.to_nat i = b2 !! Z.to_nat i).
Proof.
  revert idx. induction n as [|n IH]; intros idx Hi H1 H2; cbn [equal_buckets].
  { exists true. split; [done|]. split; [lia|done]. }
  destruct (aget_bound b1 idx ltac:(lia)) as [v1 G1], (aget_bound b2 idx ltac:(lia)) as [v2 G2].
  rewrite G1, G2. cbn [mbind result_bind]. apply aget_Ok in G1 as [_ G1], G2 as [_ G2].
  destruct (Z.eqb_spec v1 v2) as [<-|N].
  - destruct (IH (idx + 1)) as (r & E & Hr); [lia..|]. exists r. split; [done|]. rewrite Hr.
    split; intros H i Hb; [|apply H; lia].
    destruct (decide (i = idx)) as [->|]; [congruence|]. apply H. lia.
  - exists false. split; [done|]. split; [done|]. intros H. specialize (H idx ltac:(lia)). congruence.
Qed.

(** The unused bits of the last bucket in use are zero. *)
Definition padded (bv : CFBitVector) : Prop :=
  forall i, bv_count bv <= i < 8 * (bv_count bv / 8 + 1) -> bit_at (bv_buckets bv) i = false.

Lemma buckets_bits (b1 b2 : list Z) (k : Z) :
  0 <= k < Z.of_nat (length b1) -> k < Z.of_nat (length b2) -> Forall byte_ok b1 -> Forall byte_ok b2 ->
  b1 !! Z.to_nat k = b2 !! Z.to_nat k <-> forall j, 0 <= j < 8 -> bit_at b1 (8 * k + j) = bit_at b2 (8 * k + j).
Proof.
  intros H1 H2 B1 B2.
  destruct (lookup_lt_is_Some_2 b1 (Z.to_nat k)) as [x Hx]; [lia|].
  destruct (lookup_lt_is_Some_2 b2 (Z.to_nat k)) as [y Hy]; [lia|]. rewrite Hx, Hy.
  assert (T : forall b z j, b !! Z.to_nat k = Some z -> 0 <= j < 8 ->
    bit_at b (8 * k + j) = Z.testbit z (7 - j)).
  { intros b z j Hz Hj. unfold bit_at. replace (8 * k + j) with (j + k * 8) by lia.
    rewrite Z.div_add, Z.mod_add, Z.div_small, Z.mod_small, Z.add_0_l by lia. by rewrite nth_lookup, Hz. }
  split.
  - intros [= ->] j Hj. by rewrite (T b1 y), (T b2 y).
  - intros H. f_equal. apply byte_eq; [exact (Forall_lookup_1 _ _ _ _ B1 Hx)|exact (Forall_lookup_1 _ _ _ _ B2 Hy)|]. intros j Hj.
    rewrite <- (T b1 x), <- (T b2 y) by done. by apply H.
Qed.

Theorem equal_sound_and_padded_complete (bv1 bv2 : CFBitVector) :
  wf bv1 -> wf bv2 ->
  exists r, CFBitVectorEqual bv1 bv2 = Ok r /\ (r = true -> bits bv1 = bits bv2) /\
    (padded bv1 -> padded bv2 -> bits bv1 = bits bv2 -> r = true).
Proof.
  intros W1 W2. unfold CFBitVectorEqual. pose proof (wf_count _ W1). pose proof (wf_count _ W2).
  destruct (Z.eqb_spec (bv_count bv1) (bv_count bv2)) as [Ec|Nc]; cbn [negb].
  2:{ exists false. split; [done|]. split; [done|]. intros _ _ E. apply (f_equal length) in E.
      rewrite !length_bits in E. lia. }
  destruct (Z.eqb_spec 0 (bv_count bv1)) as [E0|N0].
  { exists true. split; [done|]. split; [|done]. intros _. unfold bits. by rewrite <- Ec, <- E0. }
  change BITS_PER_BUCKET with 8. rewrite Z.quot_div_nonneg by lia.
  pose proof (wf_in_buckets bv1 (bv_count bv1) W1 ltac:(lia)) as L1.
  pose proof (wf_in_buckets bv2 (bv_count bv1) W2 ltac:(lia)) as L2.
  pose proof (div8_bound (bv_count bv1) _ ltac:(lia) L1). pose proof (div8_bound (bv_count bv1) _ ltac:(lia) L2).
  destruct (equal_buckets_spec (Z.to_nat (bv_count bv1 / 8 + 1)) (bv_buckets bv1) (bv_buckets bv2) 0)
    as (r & -> & Hr); [lia..|]. rewrite Z2Nat.id in Hr by lia. exists r. split; [done|].
  assert (R : r = true <-> forall i, 0 <= i < 8 * (bv_count bv1 / 8 + 1) ->
    bit_at (bv_buckets bv1) i = bit_at (bv_buckets bv2) i).
  { rewrite Hr. split; intros H' i Hi.
    - pose proof (Z.div_mod i 8 ltac:(lia)) as D. pose proof (Z.mod_pos_bound i 8 ltac:(lia)).
      rewrite D. apply (buckets_bits _ _ (i / 8)); [|lia|apply W1|apply W2|apply H'|]; lia.
    - apply buckets_bits; [lia|lia|apply W1|apply W2|]. intros j Hj. apply H'. lia. }
  pose proof (Z.div_mod (bv_count bv1) 8 ltac:(lia)). pose proof (Z.mod_pos_bound (bv_count bv1) 8 ltac:(lia)).
  split.
  - intros ->. apply list_eq. intros i. rewrite !lookup_bits, <- Ec.
    destruct (Z.ltb_spec (Z.of_nat i) (bv_count bv1)); [|done]. f_equal. apply R; [done|lia].
  - intros P1 P2 E. apply R. intros i Hi. destruct (Z.lt_ge_cases i (bv_count bv1)).
    + apply (f_equal (fun l => l !! Z.to_nat i)) in E. rewrite !lookup_bits, Z2Nat.id, <- Ec in E by lia.
      rewrite (proj2 (Z.ltb_lt _ _)) in E by lia. congruence.
    + unfold padded in *. rewrite P1, P2; [done|rewrite <- Ec; lia|lia].
Qed.

(** ** Extracting a range *)

(** What the caller's array holds once the bits [lo .. p) have been delivered: the
    bits in order, zeros up to the end of the byte, and the old bits after it. *)
Definition delivered (bs bytes0 bytes : list Z) (lo p : Z) : Prop :=
  length bytes = length bytes0 /\ Forall byte_ok bytes /\
  forall i, 0 <= i < 8 * Z.of_nat (length bytes0) ->
    bit_at bytes i = if i <? p - lo then bit_at bs (lo + i)
                     else if i <? 8 * ((p - lo + 7) / 8) then false else bit_at bytes0 i.

Lemma byte_land (b m : Z) : byte_ok b -> byte_ok m -> byte_ok (Z.land b m).
Proof.
  intros Hb Hm. replace (Z.land b m) with (u8 (Z.land b m)); [apply u8_byte|].
  apply Z.bits_inj'. intros j Hj. destruct (Z.lt_ge_cases j 8).
  - by rewrite u8_testbit.
  - rewrite Z.land_spec, (byte_testbit_high (u8 _)), (byte_testbit_high b); [done|done|done|apply u8_byte|done].
Qed.

Lemma getbits_mapper_aligned (b m n cur : Z) (bytes : list Z) (ign : bool) :
  byte_ok b -> byte_ok m -> 0 < n -> 0 <= cur < Z.of_nat (length bytes) ->
  CFBitVectorGetBits_mapper b m (mkGB bytes cur 0 n ign) =
  Ok (b, mkGB (<[Z.to_nat cur := Z.land b m]> bytes) (if 8 <=? n then cur + 1 else cur) 0
           (if 8 <=? n then n else 0) ign).
Proof.
  intros Hb Hm Hn Hc.
  assert (U : u8 (Z.shiftr (Z.land b m) (8 - 8)) = Z.land b m).
  { rewrite Z.shiftr_0_r. by apply uwrap_small, byte_land. }
  unfold CFBitVectorGetBits_mapper. cbn [gb_initBits gb_totalBits gb_bytes gb_curByte gb_ignoreFirstInitBits].
  change BITS_PER_BUCKET with 8. change BITS_PER_BYTE with 8. change (0 <? 0) with false.
  cbn iota. cbn [mbind result_bind gb_initBits gb_totalBits gb_bytes gb_curByte gb_ignoreFirstInitBits].
  rewrite !Z.sub_0_r, U. destruct (Z.leb_spec 8 n).
  - rewrite Z.min_l by lia. change (8 <=? 8) with true. cbn iota. rewrite aset_Ok by done. cbn. done.
  - rewrite Z.min_r by lia. rewrite (proj2 (Z.leb_gt 8 n)) by lia. cbn iota. cbn [mbind result_bind].
    rewrite (proj2 (Z.ltb_lt 0 n)) by lia. cbn [gb_bytes gb_curByte]. rewrite U, aset_Ok by done.
    cbn. by rewrite Z.sub_diag.
Qed.

Lemma getbits_mapper_bucket (b m nb : Z) (c c' : getBitsContext) :
  CFBitVectorGetBits_mapper b m c = Ok (nb, c') -> nb = b.
Proof.
  unfold CFBitVectorGetBits_mapper. intros E.
  repeat match type of E with
  | context [if ?x then _ else _] => destruct x; cbn [mbind result_bind] in E
  | context [aget ?l ?i] => destruct (aget l i); cbn [mbind result_bind] in E
  | context [aset ?l ?i ?v] => destruct (aset l i v); cbn [mbind result_bind] in E
  end; congruence.
Qed.

Lemma delivered_step (bs bytes0 bytes : list Z) (L k hi : Z) (b : Z) :
  Forall byte_ok bs -> bs !! Z.to_nat k = Some b -> 0 <= L <= k -> 0 <= hi < 8 ->
  k - L < Z.of_nat (length bytes0) ->
  delivered bs bytes0 bytes (8 * L) (8 * k) ->
  delivered bs bytes0 (<[Z.to_nat (k - L) := Z.land b (CFBitBucketMask 0 hi)]> bytes) (8 * L) (8 * k + hi + 1).
Proof.
  intros Hbs Hb HL Hhi Hk (Hl & Hby & H). split; [by rewrite length_insert|]. split.
  { apply Forall_insert; [done|]. apply byte_land; [exact (Forall_lookup_1 _ _ _ _ Hbs Hb)|].
    apply (mask_spec 0 hi 0); lia. }
  intros i Hi. rewrite bit_at_insert by lia.
  pose proof (Z.div_mod i 8 ltac:(lia)) as D. pose proof (Z.mod_pos_bound i 8 ltac:(lia)) as M.
  assert (R : (8 * k + hi + 1 - 8 * L + 7) / 8 = k - L + 1).
  { replace (8 * k + hi + 1 - 8 * L + 7) with (hi + (k - L + 1) * 8) by lia.
    rewrite Z.div_add, Z.div_small by lia. lia. }
  rewrite R. destruct (Z.eqb_spec (i / 8) (k - L)) as [E|N].
  - rewrite Z.land_spec. destruct (mask_spec 0 hi (i mod 8)) as [-> _]; [lia..|].
    rewrite (proj2 (Z.leb_le 0 _)), andb_true_l by lia.
    assert (V : bit_at bs (8 * L + i) = Z.testbit b (7 - i mod 8)).
    { unfold bit_at. replace (8 * L + i) with (i + L * 8) by lia.
      rewrite Z.div_add, Z.mod_add by lia. replace (i / 8 + L) with k by lia. by rewrite nth_lookup, Hb. }
    rewrite V. destruct (Z.leb_spec (i mod 8) hi), (Z.ltb_spec i (8 * k + hi + 1 - 8 * L)),
      (Z.ltb_spec i (8 * (k - L + 1))); try lia; by rewrite ?andb_true_r, ?andb_false_r.
  - rewrite H by lia. assert (R' : (8 * k - 8 * L + 7) / 8 = k - L).
    { replace (8 * k - 8 * L + 7) with (7 + (k - L) * 8) by lia. rewrite Z.div_add, Z.div_small by lia. lia. }
    rewrite R'. destruct (Z.ltb_spec i (8 * k - 8 * L)), (Z.ltb_spec i (8 * k + hi + 1 - 8 * L)),
      (Z.ltb_spec i (8 * (k - L))), (Z.ltb_spec i (8 * (k - L + 1))); try lia; done.
Qed.

Lemma get_bits_delivers (bv : CFBitVector) (L n : Z) (bytes : list Z) :
  wf bv -> 0 <= L -> 0 <= n -> 8 * L + n <= bv_count bv ->
  Forall byte_ok bytes -> (n + 7) / 8 <= Z.of_nat (length bytes) ->
  exists bytes', CFBitVectorGetBits bv (8 * L) n bytes = Ok bytes' /\
    delivered (bv_buckets bv) bytes bytes' (8 * L) (8 * L + n).
Proof.
  intros W HL Hn Hr Hb Hlen. pose proof (wf_in_buckets bv (8 * L + n) W Hr) as Hin.
  assert (D0 : delivered (bv_buckets bv) bytes bytes (8 * L) (8 * L)).
  { split; [done|]. split; [done|]. intros i Hi. rewrite Z.sub_diag. change ((0 + 7) / 8) with 0.
    destruct (Z.ltb_spec i 0), (Z.ltb_spec i (8 * 0)); (done || lia). }
  unfold CFBitVectorGetBits. destruct (Z.eqb_spec 0 n) as [<-|Nz].
  { exists bytes. by rewrite Z.add_0_r. }
  change (BITS_PER_BUCKET - 1) with (Z.ones 3). rewrite Z.land_ones by lia. change (2 ^ 3) with 8.
  rewrite (Z.mul_comm 8 L), Z.mod_mul, (Z.mul_comm L 8) by lia.
  pose proof (Z.div_mod (n + 7) 8 ltac:(lia)) as Dn. pose proof (Z.mod_pos_bound (n + 7) 8 ltac:(lia)) as Mn.
  destruct (internal_map_rule CFBitVectorGetBits_mapper
    (fun p bs c => bs = bv_buckets bv /\ gb_initBits c = 0 /\
       delivered (bv_buckets bv) bytes (gb_bytes c) (8 * L) p /\
       (p < 8 * L + n -> gb_totalBits c = n /\ 8 * gb_curByte c = p - 8 * L))
    (8 * L) (8 * L + n) (length (bv_buckets bv))) with (bs := bv_buckets bv) (c := mkGB bytes 0 0 n true)
    as (bs' & c & E & -> & _ & D & _).
  - lia.
  - intros p bs c [-> _]. split; [apply W|done].
  - intros b m c nb c' Hby E. by rewrite (getbits_mapper_bucket _ _ _ _ _ E).
  - intros k lo hi bs [bts cur ib tot ign] Hk Hlo Hhi H1 H2 Hend (-> & Hi & D & Hp).
    cbn [gb_bytes gb_curByte gb_initBits gb_totalBits] in *. subst ib.
    destruct Hp as [-> Hc]; [lia|]. assert (lo = 0) as -> by lia. assert (cur = k - L) as -> by lia.
    destruct (lookup_lt_is_Some_2 (bv_buckets bv) (Z.to_nat k)) as [b Hbk]; [lia|].
    pose proof (proj1 D) as Hl. do 2 eexists. split.
    { apply (map_masked_readonly _ _ k b); [apply W|lia|done|lia|lia|]. apply getbits_mapper_aligned.
      - exact (Forall_lookup_1 _ _ _ _ (wf_bytes _ W) Hbk).
      - apply (mask_spec 0 hi 0); lia.
      - lia.
      - lia. }
    cbn [gb_bytes gb_curByte gb_initBits gb_totalBits]. split; [done|]. split; [done|]. split.
    + apply delivered_step; [apply W|done|lia|lia|lia|]. by rewrite Z.add_0_r in D.
    + intros Hlt. destruct (Z.leb_spec 8 n); lia.
  - split; [done|]. split; [done|]. split; [done|]. intros _. cbn. lia.
  - replace (8 * L + n - 8 * L) with n in E by lia. rewrite E. cbn [mbind result_bind]. by eexists.
Qed.

Theorem get_bits_aligned (bv : CFBitVector) (L n : Z) (bytes : list Z) :
  wf bv -> 0 <= L -> 0 <= n -> 8 * L + n <= bv_count bv ->
  Forall byte_ok bytes -> (n + 7) / 8 <= Z.of_nat (length bytes) ->
  exists bytes', CFBitVectorGetBits bv (8 * L) n bytes = Ok bytes' /\
    delivered (bv_buckets bv) bytes bytes' (8 * L) (8 * L + n).
Proof. exact (get_bits_delivers bv L n bytes). Qed.

Theorem get_bits_unaligned_wrong :
  exists bv, CFBitVectorCreate [255; 255] 16 = Ok bv /\
    CFBitVectorGetCountOfBit bv 4 8 1 = Ok 8 /\
    CFBitVectorGetBits bv 4 8 [0; 0] = Ok [0; 0].
Proof. eexists. split; [reflexivity|]. split; reflexivity. Qed.

(** ** Creation and copies *)

Lemma init_bytes (flags : variety) (bytes : list Z) (n : Z) :
  0 <= n -> Forall byte_ok bytes -> (n + 7) / 8 <= Z.of_nat (length bytes) ->
  exists bv, CFBitVectorInit flags (Some bytes) n = Ok bv /\ wf bv /\ bv_count bv = n /\
    bv_variety bv = flags /\ forall i, 0 <= i < n -> bit_at (bv_buckets bv) i = bit_at bytes i.
Proof.
  intros Hn Hb Hl. unfold CFBitVectorInit. destruct (round_up_capacity n Hn) as (R1 & _ & R2).
  set (cap := CFBitVectorRoundUpCapacity n) in *. unfold CFBitVectorNumBuckets.
  change BITS_PER_BUCKET with 8. change BITS_PER_BYTE with 8. change BITS_PER_BYTE_MASK with (Z.ones 3).
  rewrite !Z.quot_div_nonneg, Z.land_ones by lia. change (2 ^ 3) with 8.
  pose proof (Z.div_mod cap 8 ltac:(lia)). pose proof (Z.mod_pos_bound cap 8 ltac:(lia)).
  pose proof (Z.div_mod n 8 ltac:(lia)). pose proof (Z.mod_pos_bound n 8 ltac:(lia)).
  pose proof (Z.div_mod (n + 7) 8 ltac:(lia)). pose proof (Z.mod_pos_bound (n + 7) 8 ltac:(lia)).
  set (k := n / 8 + (if n mod 8 =? 0 then 0 else 1)).
  assert (K : k = (n + 7) / 8) by (unfold k; destruct (Z.eqb_spec (n mod 8) 0); lia).
  clearbody k. subst k. rewrite length_replicate.
  rewrite (proj2 (Nat.ltb_ge (length bytes) _)), (proj2 (Nat.ltb_ge (Z.to_nat (cap / 8 + 1)) _)) by lia.
  cbn [orb mbind result_bind]. eexists. split; [reflexivity|]. cbn [bv_count bv_variety bv_buckets bv_capacity].
  split; [split; cbn [bv_count bv_variety bv_buckets bv_capacity]; [lia| |]|split; [done|split; [done|]]].
  - rewrite length_app, length_take, length_drop, length_replicate. lia.
  - apply Forall_app. split; [by apply Forall_take|]. by apply Forall_drop, Forall_replicate.
  - intros i Hi. apply bit_at_take; lia.
Qed.

Lemma bits_ext (bv1 bv2 : CFBitVector) :
  bv_count bv1 = bv_count bv2 ->
  (forall i, 0 <= i < bv_count bv1 -> bit_at (bv_buckets bv1) i = bit_at (bv_buckets bv2) i) ->
  bits bv1 = bits bv2.
Proof.
  intros Hc H. apply list_eq. intros i. rewrite !lookup_bits, <- Hc.
  destruct (Z.ltb_spec (Z.of_nat i) (bv_count bv1)); [|done]. f_equal. apply H. lia.
Qed.

Theorem create_get_roundtrip (bytes out : list Z) (n : Z) :
  0 <= n -> Forall byte_ok bytes -> Forall byte_ok out ->
  (n + 7) / 8 <= Z.of_nat (length bytes) -> (n + 7) / 8 <= Z.of_nat (length out) ->
  exists bv bv' out', CFBitVectorCreate bytes n = Ok bv /\ wf bv /\
    CFBitVectorCreateMutableCopy bv = Ok bv' /\ wf bv' /\ bits bv' = bits bv /\
    CFBitVectorGetBits bv' 0 n out = Ok out' /\ length out' = length out /\
    forall i, 0 <= i < n -> bit_at out' i = bit_at bytes i.
Proof.
  intros Hn Hb Ho Hl Hlo.
  destruct (init_bytes kCFBitVectorImmutable bytes n Hn Hb Hl) as (bv & E & W & Hc & _ & T).
  pose proof (wf_in_buckets bv n W ltac:(lia)) as Hin.
  pose proof (Z.div_mod (n + 7) 8 ltac:(lia)). pose proof (Z.mod_pos_bound (n + 7) 8 ltac:(lia)).
  destruct (init_bytes kCFBitVectorMutable (bv_buckets bv) n Hn (wf_bytes _ W)) as (bv' & E' & W' & Hc' & _ & T');
    [lia|].
  destruct (get_bits_delivers bv' 0 n out W') as (out' & G & Hlen & _ & D); [lia|lia|lia|done|lia|].
  exists bv, bv', out'. rewrite <- Hc in E'. split_and!; try done.
  - apply bits_ext; [lia|]. intros i Hi. apply T'. lia.
  - intros i Hi. rewrite D by lia. rewrite (proj2 (Z.ltb_lt i _)) by lia. change (8 * 0 + i) with i.
    rewrite T', T by lia. done.
Qed.

Theorem copy_equal_depends_on_spare_bits :
  exists bv1 bv2 bv3 copy,
    CFBitVectorCreate [255; 255] 16 = Ok bv1 /\
    CFBitVectorCreateMutableCopy bv1 = Ok bv2 /\
    CFBitVectorSetCount bv2 8 [] = Ok bv3 /\
    CFBitVectorCreateCopy bv3 = Ok copy /\
    bits copy = bits bv3 /\ CFBitVectorEqual bv3 copy = Ok false.
Proof. do 4 eexists. do 4 (split; [reflexivity|]). split; reflexivity. Qed.

(** ** A concrete vector *)

(** Ten bits: 10100000 11. *)
Definition ten_bits : CFBitVector := mkBV 10 64 [160; 192; 0; 0; 0; 0; 0; 0; 0] kCFBitVectorMutable.

(** A concrete list of bytes is one. *)
Ltac bytes_ok := repeat (apply List.Forall_cons; [unfold byte_ok, in_u; lia|]); apply List.Forall_nil.

Lemma ten_bits_wf : wf ten_bits.
Proof. split; cbn; [lia|done|]. bytes_ok. Qed.

Lemma set_and_flip_witness :
  (exists bv', CFBitVectorSetBits ten_bits 3 6 1 = Ok bv' /\ wf bv' /\ same_shape ten_bits bv' /\
     bits bv' = range_map (fun _ => negb (1 =? 0)) 3 6 (bits ten_bits)) /\
  (exists bv', CFBitVectorFlipBits ten_bits 3 6 = Ok bv' /\ wf bv' /\ same_shape ten_bits bv' /\
     bits bv' = range_map negb 3 6 (bits ten_bits)).
Proof. apply set_and_flip_refine; [exact ten_bits_wf|reflexivity|cbn; lia..]. Defined.

Lemma single_bit_witness :
  (exists b, bits ten_bits !! 8%nat = Some b /\ CFBitVectorGetBitAtIndex ten_bits 8 = Ok (Z.b2z b)) /\
  (exists bv', CFBitVectorSetBitAtIndex ten_bits 8 0 = Ok bv' /\ wf bv' /\
     bits bv' = alter (fun _ => negb (0 =? 0)) 8%nat (bits ten_bits)) /\
  (exists bv', CFBitVectorFlipBitAtIndex ten_bits 8 = Ok bv' /\ wf bv' /\
     bits bv' = alter negb 8%nat (bits ten_bits)).
Proof. apply (single_bit_refine ten_bits 8 0); [exact ten_bits_wf|reflexivity|cbn; lia]. Defined.

Lemma set_count_witness :
  exists bv', CFBitVectorSetCount ten_bits 100 (replicate 8 255) = Ok bv' /\ wf bv' /\
    bits bv' = take (Z.to_nat 100) (bits ten_bits) ++ replicate (Z.to_nat (100 - bv_count ten_bits)) false.
Proof.
  apply set_count_refine; [exact ten_bits_wf|lia|done|]. apply Forall_replicate. unfold byte_ok, in_u. cbn. lia.
Defined.

Lemma count_witness :
  CFBitVectorGetCountOfBit ten_bits 1 9 1 =
    Ok (Z.of_nat (length (List.filter (eqb (negb (1 =? 0)))
          (take (Z.to_nat 9) (drop (Z.to_nat 1) (bits ten_bits)))))).
Proof. apply count_refine; [exact ten_bits_wf|cbn; lia..]. Defined.

Lemma search_witness :
  (exists r, CFBitVectorGetFirstIndexOfBit ten_bits 1 9 1 = Ok r /\
     ((r = kCFNotFound /\ forall i, 1 <= i < 1 + 9 -> bit_of ten_bits i = Some (negb true)) \/
      (1 <= r < 1 + 9 /\ bit_of ten_bits r = Some true /\
       forall i, 1 <= i < r -> bit_of ten_bits i = Some (negb true)))) /\
  (exists r, CFBitVectorGetLastIndexOfBit ten_bits 1 9 1 = Ok r /\
     ((r = kCFNotFound /\ forall i, 1 <= i < 1 + 9 -> bit_of ten_bits i = Some (negb true)) \/
      (1 <= r < 1 + 9 /\ bit_of ten_bits r = Some true /\
       forall i, r < i < 1 + 9 -> bit_of ten_bits i = Some (negb true)))).
Proof. apply (search_finds_extreme ten_bits 1 9 true); [exact ten_bits_wf|cbn; lia..]. Defined.

Lemma equal_witness :
  exists r, CFBitVectorEqual ten_bits ten_bits = Ok r /\ (r = true -> bits ten_bits = bits ten_bits) /\
    (padded ten_bits -> padded ten_bits -> bits ten_bits = bits ten_bits -> r = true).
Proof. apply equal_sound_and_padded_complete; exact ten_bits_wf. Defined.

Lemma get_bits_witness :
  exists bytes', CFBitVectorGetBits ten_bits (8 * 1) 2 [0] = Ok bytes' /\
    delivered (bv_buckets ten_bits) [0] bytes' (8 * 1) (8 * 1 + 2).
Proof.
  apply get_bits_aligned; [exact ten_bits_wf|cbn; lia..|bytes_ok|vm_compute; discriminate].
Defined.

Lemma create_get_witness :
  exists bv bv' out', CFBitVectorCreate [160; 192] 10 = Ok bv /\ wf bv /\
    CFBitVectorCreateMutableCopy bv = Ok bv' /\ wf bv' /\ bits bv' = bits bv /\
    CFBitVectorGetBits bv' 0 10 [0; 0] = Ok out' /\ length out' = length [0; 0] /\
    forall i, 0 <= i < 10 -> bit_at out' i = bit_at [160; 192] i.
Proof. apply create_get_roundtrip; [lia|bytes_ok|bytes_ok|vm_compute; discriminate..]. Defined.

End BitVector.
