(* ===== verification/BinaryHeap.v ===== *)
(** * CFBinaryHeap.c: a priority queue in an array

    [CFBinaryHeap] is [struct __CFBinaryHeap]; a bucket is [None] until it has been
    written, and reading such a bucket is [Undef].  Values are pointers, kept as
    the [Z] of their address.  The callbacks are arguments of the heap; what the
    operations do to the outside (calls of the retain, release and applier
    callbacks) is the list of [event]s they return. *)

From stdpp Require Import base list numbers option sorting.
From Stdlib Require Import ZArith Lia.
From S2P Require Import Prelude.

Module BinaryHeap.

Definition kCFBinaryHeapMutable : Z := 1.

Inductive event : Type :=
| Retain (v : Z)
| Release (v : Z)
| Apply (v : Z).

(** A compare callback: the function pointer and what it computes from the two
    values and the context's info pointer. *)
Record compare_fn : Type := mkCompare {
  cmp_addr : Z;
  cmp_call : Z -> Z -> Z -> CFComparisonResult
}.

Record CFBinaryHeapCallBacks : Type := mkCallBacks {
  cb_retain : option (Z -> Z);
  cb_release : bool;
  cb_compare : option compare_fn
}.

Record CFBinaryHeap : Type := mkHeap {
  h_count : Z;
  h_capacity : Z;
  h_callbacks : CFBinaryHeapCallBacks;
  h_info : Z;
  h_buckets : list (option Z);
  h_variety : Z
}.

Definition set_count (h : CFBinaryHeap) (v : Z) : CFBinaryHeap :=
  mkHeap v (h_capacity h) (h_callbacks h) (h_info h) (h_buckets h) (h_variety h).

Definition set_buckets (h : CFBinaryHeap) (bs : list (option Z)) : CFBinaryHeap :=
  mkHeap (h_count h) (h_capacity h) (h_callbacks h) (h_info h) bs (h_variety h).

(** The read of [_buckets[i]._item]. *)
Definition item (bs : list (option Z)) (i : Z) : result Z :=
  o ← aget bs i;
  match o with Some v => Ok v | None => Undef end.

(** The shift is an [int] shift: undefined from 31 on. *)
Definition CFBinaryHeapRoundUpCapacity (capacity : Z) : result Z :=
  if capacity <? 4 then Ok 4
  else if 31 <=? flsl capacity then Undef
  else Ok (Z.shiftl 1 (flsl capacity)).

(** ** Comparisons, as the two operations write them *)

Definition add_stops (h : CFBinaryHeap) (item value : Z) : bool :=
  match cb_compare (h_callbacks h) with
  | None => item <=? value
  | Some c => negb (bool_decide (cmp_call c item value (h_info h) = kCFCompareGreaterThan))
  end.

Definition greater (h : CFBinaryHeap) (item item2 : Z) : bool :=
  match cb_compare (h_callbacks h) with
  | None => item2 <? item
  | Some c => bool_decide (cmp_call c item item2 (h_info h) = kCFCompareGreaterThan)
  end.

(** ** Adding a value *)

Definition CFBinaryHeapGrow (h : CFBinaryHeap) (numNewValues : Z) : result CFBinaryHeap :=
  capacity ← CFBinaryHeapRoundUpCapacity (h_count h + numNewValues);
  let n := Z.to_nat capacity in
  Ok (mkHeap (h_count h) capacity (h_callbacks h) (h_info h) (resize n None (h_buckets h)) (h_variety h)).

Fixpoint add_loop (fuel : nat) (h : CFBinaryHeap) (bs : list (option Z)) (idx value : Z)
  : result (list (option Z) * Z) :=
  match fuel with
  | O => NoFuel
  | S fuel =>
    if 0 <? idx then
      let pidx := Z.shiftr (idx - 1) 1 in
      it ← item bs pidx;
      if add_stops h it value then Ok (bs, idx)
      else bs ← aset bs idx (Some it); add_loop fuel h bs pidx value
    else Ok (bs, idx)
  end.

Definition CFBinaryHeapAddValue (h : CFBinaryHeap) (value : Z) : result (CFBinaryHeap * list event) :=
  h ← (if (h_variety h =? kCFBinaryHeapMutable) && (h_count h =? h_capacity h)
       then CFBinaryHeapGrow h 1 else Ok h);
  let cnt := h_count h in
  let h := set_count h (cnt + 1) in
  '(bs, idx) ← add_loop (S (Z.to_nat cnt)) h (h_buckets h) cnt value;
  match cb_retain (h_callbacks h) with
  | Some retain => bs ← aset bs idx (Some (retain value)); Ok (set_buckets h bs, [Retain value])
  | None => bs ← aset bs idx (Some value); Ok (set_buckets h bs, [])
  end.

(** ** Removing the minimum *)

Fixpoint remove_loop (fuel : nat) (h : CFBinaryHeap) (bs : list (option Z)) (idx val : Z)
  : result (list (option Z) * Z) :=
  match fuel with
  | O => NoFuel
  | S fuel =>
    let cidx := Z.shiftl idx 1 + 1 in
    if cidx <? h_count h then
      it ← item bs cidx;
      '(cidx, it) ←
        (if cidx + 1 <? h_count h then
           item2 ← item bs (cidx + 1);
           Ok (if greater h it item2 then (cidx + 1, item2) else (cidx, it))
         else Ok (cidx, it));
      if greater h it val then Ok (bs, idx)
      else bs ← aset bs idx (Some it); remove_loop fuel h bs cidx val
    else Ok (bs, idx)
  end.

Definition CFBinaryHeapRemoveMinimumValue (h : CFBinaryHeap) : result (CFBinaryHeap * list event) :=
  let cnt := h_count h in
  if 0 =? cnt then Ok (h, []) else
  let h := set_count h (cnt - 1) in
  ev ← (if cb_release (h_callbacks h) then v ← item (h_buckets h) 0; Ok [Release v] else Ok []);
  val ← item (h_buckets h) (cnt - 1);
  '(bs, idx) ← remove_loop (S (Z.to_nat cnt)) h (h_buckets h) 0 val;
  bs ← aset bs idx (Some val);
  Ok (set_buckets h bs, ev).

Fixpoint release_items (n : nat) (bs : list (option Z)) (idx : Z) : result (list event) :=
  match n with
  | O => Ok []
  | S n => v ← item bs idx; ev ← release_items n bs (idx + 1); Ok (Release v :: ev)
  end.

Definition CFBinaryHeapRemoveAllValues (h : CFBinaryHeap) : result (CFBinaryHeap * list event) :=
  let cnt := h_count h in
  ev ← (if cb_release (h_callbacks h) then release_items (Z.to_nat cnt) (h_buckets h) 0 else Ok []);
  Ok (set_count h 0, ev).

(** The last release of a heap: its finalizer empties it. *)
Definition CFBinaryHeapDeallocate (h : CFBinaryHeap) : result (list event) :=
  '(_, ev) ← CFBinaryHeapRemoveAllValues h; Ok ev.

(** ** Creation *)

Fixpoint add_values (h : CFBinaryHeap) (values : list (option Z)) (n : nat) (idx : Z) (ev : list event)
  : result (CFBinaryHeap * list event) :=
  match n with
  | O => Ok (h, ev)
  | S n =>
    v ← item values idx;
    '(h, ev') ← CFBinaryHeapAddValue h v;
    add_values h values n (idx + 1) (ev ++ ev')
  end.

Definition CFBinaryHeapInit (flags : Z) (values : list (option Z)) (numValues : Z)
  (callBacks : option CFBinaryHeapCallBacks) (info : option Z) : result (CFBinaryHeap * list event) :=
  capacity ← CFBinaryHeapRoundUpCapacity 1;
  let cb := match callBacks with Some cb => cb | None => mkCallBacks None false None end in
  let memory := mkHeap 0 capacity cb (default 0 info) (replicate (Z.to_nat capacity) None)
                  kCFBinaryHeapMutable in
  '(memory, ev) ← add_values memory values (Z.to_nat numValues) 0 [];
  Ok (mkHeap (h_count memory) (h_capacity memory) (h_callbacks memory) (h_info memory) (h_buckets memory)
        (Z.land flags 3), ev).

Definition CFBinaryHeapCreate (callBacks : option CFBinaryHeapCallBacks) (info : option Z)
  : result (CFBinaryHeap * list event) :=
  CFBinaryHeapInit kCFBinaryHeapMutable [] 0 callBacks info.

Definition CFBinaryHeapCreateCopy (h : CFBinaryHeap) : result (CFBinaryHeap * list event) :=
  CFBinaryHeapInit kCFBinaryHeapMutable (h_buckets h) (h_count h) (Some (h_callbacks h)) (Some (h_info h)).

(** ** Queries *)

Definition CFBinaryHeapGetCount (h : CFBinaryHeap) : Z := h_count h.

Definition matches (h : CFBinaryHeap) (value item : Z) : bool :=
  (value =? item) ||
  match cb_compare (h_callbacks h) with
  | None => false
  | Some c => bool_decide (cmp_call c value item (h_info h) = kCFCompareEqualTo)
  end.

Fixpoint count_of_value (n : nat) (h : CFBinaryHeap) (idx value cnt : Z) : result Z :=
  match n with
  | O => Ok cnt
  | S n =>
    it ← item (h_buckets h) idx;
    count_of_value n h (idx + 1) value (if matches h value it then cnt + 1 else cnt)
  end.

Definition CFBinaryHeapGetCountOfValue (h : CFBinaryHeap) (value : Z) : result Z :=
  count_of_value (Z.to_nat (h_count h)) h 0 value 0.

Fixpoint contains_value (n : nat) (h : CFBinaryHeap) (idx value : Z) : result bool :=
  match n with
  | O => Ok false
  | S n =>
    it ← item (h_buckets h) idx;
    if matches h value it then Ok true else contains_value n h (idx + 1) value
  end.

Definition CFBinaryHeapContainsValue (h : CFBinaryHeap) (value : Z) : result bool :=
  contains_value (Z.to_nat (h_count h)) h 0 value.

(** NULL is address 0. *)
Definition CFBinaryHeapGetMinimum (h : CFBinaryHeap) : result Z :=
  if 0 <? h_count h then item (h_buckets h) 0 else Ok 0.

Definition CFBinaryHeapGetMinimumIfPresent (h : CFBinaryHeap) : result (option Z) :=
  if 0 =? h_count h then Ok None else v ← item (h_buckets h) 0; Ok (Some v).

(** [values] is the caller's array. *)
Fixpoint get_values_loop (fuel : nat) (heapCopy : CFBinaryHeap) (values : list Z) (idx : Z)
  (ev : list event) : result (CFBinaryHeap * list Z * list event) :=
  match fuel with
  | O => NoFuel
  | S fuel =>
    if 0 <? h_count heapCopy then
      value ← CFBinaryHeapGetMinimum heapCopy;
      '(heapCopy, ev') ← CFBinaryHeapRemoveMinimumValue heapCopy;
      values ← aset values idx value;
      get_values_loop fuel heapCopy values (idx + 1) (ev ++ ev')
    else Ok (heapCopy, values, ev)
  end.

Definition CFBinaryHeapGetValues (h : CFBinaryHeap) (values : list Z) : result (list Z * list event) :=
  let cnt := h_count h in
  if 0 =? cnt then Ok (values, []) else
  '(heapCopy, ev) ← CFBinaryHeapCreateCopy h;
  '(heapCopy, values, ev) ← get_values_loop (S (Z.to_nat cnt)) heapCopy values 0 ev;
  ev' ← CFBinaryHeapDeallocate heapCopy;
  Ok (values, ev ++ ev').

Fixpoint apply_loop (fuel : nat) (heapCopy : CFBinaryHeap) (ev : list event)
  : result (CFBinaryHeap * list event) :=
  match fuel with
  | O => NoFuel
  | S fuel =>
    if 0 <? h_count heapCopy then
      value ← CFBinaryHeapGetMinimum heapCopy;
      '(heapCopy, ev') ← CFBinaryHeapRemoveMinimumValue heapCopy;
      apply_loop fuel heapCopy (ev ++ ev' ++ [Apply value])
    else Ok (heapCopy, ev)
  end.

Definition CFBinaryHeapApplyFunction (h : CFBinaryHeap) : result (list event) :=
  let cnt := h_count h in
  if 0 =? cnt then Ok [] else
  '(heapCopy, ev) ← CFBinaryHeapCreateCopy h;
  '(heapCopy, ev) ← apply_loop (S (Z.to_nat cnt)) heapCopy ev;
  ev' ← CFBinaryHeapDeallocate heapCopy;
  Ok (ev ++ ev').

(** ** Equality and hash *)

Fixpoint equal_loop (h1 : CFBinaryHeap) (list1 list2 : list Z) : bool :=
  match list1, list2 with
  | val1 :: list1, val2 :: list2 =>
    if negb (val1 =? val2) then
      match cb_compare (h_callbacks h1) with
      | None => false
      | Some c =>
        (* [!compare(...)]: kCFCompareEqualTo is 0 *)
        if bool_decide (cmp_call c val1 val2 (h_info h1) = kCFCompareEqualTo) then false
        else equal_loop h1 list1 list2
      end
    else equal_loop h1 list1 list2
  | _, _ => true
  end.

Definition CFBinaryHeapEqual (h1 h2 : CFBinaryHeap) : result (bool * list event) :=
  let cnt := h_count h1 in
  if negb (cnt =? h_count h2) then Ok (false, [])
  else if negb (bool_decide (cmp_addr <$> cb_compare (h_callbacks h1) = cmp_addr <$> cb_compare (h_callbacks h2)))
  then Ok (false, [])
  else if 0 =? cnt then Ok (true, [])
  else
    '(list1, ev1) ← CFBinaryHeapGetValues h1 (replicate (Z.to_nat cnt) 0);
    '(list2, ev2) ← CFBinaryHeapGetValues h2 (replicate (Z.to_nat cnt) 0);
    Ok (equal_loop h1 list1 list2, ev1 ++ ev2).

Definition CFBinaryHeapHash (h : CFBinaryHeap) : Z := h_count h.

(** ** The order and the invariant *)

(** [a] sorts after [b], for given callbacks and context info. *)
Definition after (cb : CFBinaryHeapCallBacks) (info a b : Z) : bool :=
  match cb_compare cb with
  | None => b <? a
  | Some c => bool_decide (cmp_call c a b info = kCFCompareGreaterThan)
  end.

(** What the retain callback puts in the heap for a value. *)
Definition stored (cb : CFBinaryHeapCallBacks) (v : Z) : Z :=
  match cb_retain cb with Some r => r v | None => v end.

(** What a heap asks of its callbacks: the comparison is a total preorder, and a
    retained value sorts as the value does. *)
Class HeapOrder (cb : CFBinaryHeapCallBacks) (info : Z) : Prop := {
  after_asym : forall a b, after cb info a b = true -> after cb info b a = false;
  after_trans : forall a b c, after cb info a b = false -> after cb info b c = false -> after cb info a c = false;
  after_stored_l : forall a b, after cb info (stored cb a) b = after cb info a b;
  after_stored_r : forall a b, after cb info a (stored cb b) = after cb info a b
}.

(** Without callbacks the heap orders addresses. *)
#[export] Instance pointer_order (rel : bool) (info : Z) : HeapOrder (mkCallBacks None rel None) info.
Proof. split; unfold after, stored; cbn; intros; try done; lia. Qed.

Lemma greater_after (h : CFBinaryHeap) (a b : Z) : greater h a b = after (h_callbacks h) (h_info h) a b.
Proof. reflexivity. Qed.

Lemma add_stops_after (h : CFBinaryHeap) (a b : Z) :
  add_stops h a b = negb (after (h_callbacks h) (h_info h) a b).
Proof. unfold add_stops, after. destruct (cb_compare _); [done|]. by rewrite Z.ltb_antisym, negb_involutive. Qed.

Definition val_at (bs : list (option Z)) (i : nat) : Z := default 0 (mjoin (bs !! i)).

Definition filled (n : nat) (bs : list (option Z)) : Prop :=
  forall i, (i < n)%nat -> bs !! i = Some (Some (val_at bs i)).

Definition parent (i : nat) : nat := ((i - 1) / 2)%nat.

Definition heap_order (cb : CFBinaryHeapCallBacks) (info : Z) (n : nat) (bs : list (option Z)) : Prop :=
  forall i, (0 < i < n)%nat -> after cb info (val_at bs (parent i)) (val_at bs i) = false.

Record heap_ok (h : CFBinaryHeap) : Prop := mk_ok {
  ok_count : 0 <= h_count h <= h_capacity h;
  ok_length : Z.of_nat (length (h_buckets h)) = h_capacity h;
  ok_filled : filled (Z.to_nat (h_count h)) (h_buckets h);
  ok_order : heap_order (h_callbacks h) (h_info h) (Z.to_nat (h_count h)) (h_buckets h)
}.

(** The abstract value: the bag of the values in the heap, as a list. *)
Definition items (h : CFBinaryHeap) : list Z := omap id (take (Z.to_nat (h_count h)) (h_buckets h)).

(** ** Buckets *)

Lemma val_at_insert (bs : list (option Z)) (i j : nat) (v : Z) :
  (i < length bs)%nat -> val_at (<[i := Some v]> bs) j = if decide (i = j) then v else val_at bs j.
Proof.
  intros Hi. unfold val_at. case_decide as E; [subst j|].
  - by rewrite list_lookup_insert_eq.
  - by rewrite list_lookup_insert_ne.
Qed.

Lemma filled_length (n : nat) (bs : list (option Z)) : filled n bs -> (n <= length bs)%nat.
Proof.
  intros F. destruct n as [|n]; [lia|]. specialize (F n ltac:(lia)). apply lookup_lt_Some in F. lia.
Qed.

Lemma filled_insert (n : nat) (bs : list (option Z)) (i : nat) (v : Z) :
  filled n bs -> (i < length bs)%nat -> filled n (<[i := Some v]> bs).
Proof.
  intros F Hi j Hj. rewrite val_at_insert by done. case_decide as E; [subst j|].
  - by rewrite list_lookup_insert_eq.
  - rewrite list_lookup_insert_ne by done. by apply F.
Qed.

Lemma filled_items (n : nat) (bs : list (option Z)) :
  filled n bs -> Some <$> omap id (take n bs) = take n bs.
Proof.
  intros F. induction n as [|n IH]; [done|].
  assert (F' : filled n bs) by (intros i Hi; apply F; lia).
  rewrite (take_S_r _ _ _ (F n ltac:(lia))), omap_app, fmap_app, IH by done. done.
Qed.

Lemma item_filled (n : nat) (bs : list (option Z)) (i : nat) :
  filled n bs -> (i < n)%nat -> item bs (Z.of_nat i) = Ok (val_at bs i).
Proof. intros F Hi. unfold item. rewrite (aget_nat _ _ _ (F i Hi)). done. Qed.

(** Moving the item at [p] into [i] and plugging [p] permutes plugging [i]. *)
Lemma plug_move (n : nat) (bs : list (option Z)) (i p : nat) (x y : option Z) :
  (i < n)%nat -> (p < n)%nat -> i <> p -> (i < length bs)%nat -> bs !! p = Some x ->
  take n (<[p := y]> (<[i := x]> bs)) ≡ₚ take n (<[i := y]> bs).
Proof.
  intros Hi Hp N Hl Hx. rewrite !take_insert_lt by done.
  set (l := take n bs). assert (Hil : (i < length l)%nat) by (unfold l; rewrite length_take; lia).
  assert (Hpl : l !! p = Some x) by (unfold l; by rewrite lookup_take_lt).
  rewrite <- (Permutation_insert_swap (<[i := y]> l) i p y x).
  - by rewrite list_insert_insert_eq.
  - by rewrite list_lookup_insert_eq.
  - by rewrite list_lookup_insert_ne.
Qed.

Lemma parent_lt (i : nat) : (0 < i)%nat -> (parent i < i)%nat.
Proof. intros. unfold parent. apply Nat.Div0.div_lt_upper_bound. lia. Qed.

Lemma parent_Z (i : nat) : (0 < i)%nat -> Z.shiftr (Z.of_nat i - 1) 1 = Z.of_nat (parent i).
Proof.
  intros. unfold parent. rewrite Z.shiftr_div_pow2 by lia. change (2 ^ 1) with 2.
  rewrite Nat2Z.inj_div. f_equal. lia.
Qed.

Lemma parent_child (p c : nat) : (0 < c)%nat -> parent c = p <-> c = (2 * p + 1)%nat \/ c = (2 * p + 2)%nat.
Proof.
  intros. unfold parent. pose proof (Nat.div_mod (c - 1) 2 ltac:(lia)).
  pose proof (Nat.mod_upper_bound (c - 1) 2 ltac:(lia)). split; intros; lia.
Qed.

(** ** Sifting up *)

Section Sift.
Context (cb : CFBinaryHeapCallBacks) (info : Z) `{HO : HeapOrder cb info}.

Abbreviation le a b := (after cb info a b = false).

Lemma after_refl (a : Z) : le a a.
Proof. destruct (after cb info a a) eqn:E; [|done]. by rewrite (after_asym _ _ E) in E. Qed.

(** The heap order holds except between the plugged position and its parent. *)
Definition up_ok (n : nat) (f : nat -> Z) (idx : nat) : Prop :=
  (forall i, (0 < i < n)%nat -> i <> idx -> le (f (parent i)) (f i)) /\
  (forall c, (0 < c < n)%nat -> parent c = idx -> (0 < idx)%nat -> le (f (parent idx)) (f c)).

Lemma up_step (n : nat) (f g : nat -> Z) (idx : nat) :
  (0 < idx)%nat -> up_ok n f idx -> after cb info (f (parent idx)) (f idx) = true ->
  g idx = f (parent idx) -> g (parent idx) = f idx ->
  (forall j, j <> idx -> j <> parent idx -> g j = f j) ->
  up_ok n g (parent idx).
Proof.
  intros Hi [U1 U2] Hgt Gi Gp G. pose proof (parent_lt idx Hi) as Hp. set (p := parent idx) in *.
  pose proof (after_asym _ _ Hgt) as Hle. split.
  - intros i Hin Nip. destruct (decide (i = idx)) as [->|Ni].
    + fold p. by rewrite Gi, Gp.
    + rewrite (G i) by done. destruct (decide (parent i = p)) as [E|Np]; [|destruct (decide (parent i = idx)) as [E|Nx]].
      * rewrite E, Gp. eapply after_trans; [exact Hle|]. rewrite <- E. by apply U1.
      * rewrite E, Gi. by apply U2.
      * rewrite G by done. by apply U1.
  - intros c Hc Ec Hp0. pose proof (parent_lt p Hp0).
    rewrite (G (parent p)) by lia. pose proof (parent_lt c ltac:(lia)).
    assert (le (f (parent p)) (f p)).
    { destruct (Nat.lt_ge_cases p n); [|lia]. apply U1; lia. }
    destruct (decide (c = idx)) as [->|Nc]; [by rewrite Gi|].
    rewrite (G c) by lia. eapply after_trans; [done|]. rewrite <- Ec. apply U1; lia.
Qed.

Lemma add_loop_spec (h : CFBinaryHeap) (value : Z) (n fuel : nat) (bs : list (option Z)) (idx : nat) :
  h_callbacks h = cb -> h_info h = info ->
  (idx < fuel)%nat -> (idx < n)%nat -> (idx < length bs)%nat -> filled n (<[idx := Some value]> bs) ->
  exists bs' idx', add_loop fuel h bs (Z.of_nat idx) value = Ok (bs', Z.of_nat idx') /\
    (idx' <= idx)%nat /\ length bs' = length bs /\ filled n (<[idx' := Some value]> bs') /\
    (forall y, take n (<[idx' := y]> bs') ≡ₚ take n (<[idx := y]> bs)) /\
    (up_ok n (val_at (<[idx := Some value]> bs)) idx ->
     heap_order cb info n (<[idx' := Some value]> bs')).
Proof.
  intros Hcb Hinfo. revert bs idx. induction fuel as [|fuel IH]; intros bs idx Hf Hn Hl F; [lia|].
  cbn [add_loop]. destruct (Z.ltb_spec 0 (Z.of_nat idx)) as [Hpos|H0].
  2:{ assert (idx = 0%nat) as -> by lia. exists bs, 0%nat. split_and!; try done.
      intros [U _] i Hi. apply U; lia. }
  rewrite parent_Z by lia. pose proof (parent_lt idx ltac:(lia)) as Hp. set (p := parent idx) in *.
  assert (Hbp : bs !! p = Some (Some (val_at bs p))).
  { specialize (F p ltac:(lia)). rewrite list_lookup_insert_ne, val_at_insert, decide_False in F by lia. done. }
  unfold item at 1. rewrite (aget_nat _ _ _ Hbp). cbn [mbind result_bind].
  rewrite add_stops_after, Hcb, Hinfo. set (it := val_at bs p) in *.
  destruct (after cb info it value) eqn:Hgt; cbn [negb].
  - rewrite aset_Ok by lia. cbn [mbind result_bind]. rewrite Nat2Z.id.
    assert (F' : filled n (<[p := Some value]> (<[idx := Some it]> bs))).
    { intros j Hj. specialize (F j Hj). rewrite !val_at_insert in * by (rewrite ?length_insert; lia).
      destruct (decide (p = j)) as [->|Npj]; [by rewrite list_lookup_insert_eq by (rewrite length_insert; lia)|].
      rewrite list_lookup_insert_ne by done. destruct (decide (idx = j)) as [->|Nij].
      - by rewrite list_lookup_insert_eq.
      - rewrite !list_lookup_insert_ne in * by done. done. }
    destruct (IH (<[idx := Some it]> bs) p) as (bs' & idx' & -> & Hle & Hl' & Fb & P & U);
      [lia|lia|rewrite length_insert; lia|done|].
    exists bs', idx'. split_and!; [done|lia|by rewrite Hl', length_insert|done| |].
    + intros y. rewrite P. apply plug_move; [lia..|done].
    + intros HU. apply U. eapply up_step; [lia|exact HU|..]; fold p;
        rewrite ?val_at_insert by (rewrite ?length_insert; lia).
      * rewrite decide_False, decide_True by lia. done.
      * rewrite (decide_False (P := p = idx)), (decide_False (P := idx = p)), decide_True by lia. done.
      * by rewrite !decide_True by done.
      * intros j N1 N2. rewrite !val_at_insert by (rewrite ?length_insert; lia).
        by rewrite !decide_False by done.
  - exists bs, idx. split_and!; try done. intros [U1 U2] i Hi.
    destruct (decide (i = idx)) as [->|Ni]; [|by apply U1].
    fold p. rewrite !val_at_insert by lia. rewrite decide_False, decide_True by lia. done.
Qed.

(** ** Sifting down *)

(** The heap order holds except between the plugged position and its children. *)
Definition down_ok (n : nat) (f : nat -> Z) (idx : nat) : Prop :=
  (forall i, (0 < i < n)%nat -> parent i <> idx -> le (f (parent i)) (f i)) /\
  (forall c, (0 < c < n)%nat -> parent c = idx -> (0 < idx)%nat -> le (f (parent idx)) (f c)).

Lemma down_step (n : nat) (f g : nat -> Z) (idx c : nat) :
  (0 < c < n)%nat -> parent c = idx -> down_ok n f idx ->
  (forall c', (0 < c' < n)%nat -> parent c' = idx -> le (f c) (f c')) -> le (f c) (f idx) ->
  g idx = f c -> g c = f idx -> (forall j, j <> idx -> j <> c -> g j = f j) ->
  down_ok n g c.
Proof.
  intros Hc Pc [D1 D2] Hmin Hle Gi Gc G. pose proof (parent_lt c ltac:(lia)) as Hlt. rewrite Pc in Hlt. split.
  - intros i Hi Npc. destruct (decide (parent i = idx)) as [E|Npi].
    + rewrite E, Gi. destruct (decide (i = c)) as [->|]; [by rewrite Gc|].
      pose proof (parent_lt i ltac:(lia)). rewrite (G i) by lia. by apply Hmin.
    + rewrite (G (parent i)) by done. destruct (decide (i = idx)) as [->|].
      * rewrite Gi. apply D2; lia.
      * rewrite (G i) by (done || congruence). by apply D1.
  - intros c' Hc' Pc' Hc0. pose proof (parent_lt c' ltac:(lia)). rewrite Pc, Gi, (G c') by lia.
    rewrite <- Pc'. apply D1; lia.
Qed.

Lemma down_done (n : nat) (f : nat -> Z) (idx : nat) :
  down_ok n f idx -> (forall c, (0 < c < n)%nat -> parent c = idx -> le (f idx) (f c)) ->
  forall i, (0 < i < n)%nat -> le (f (parent i)) (f i).
Proof.
  intros [D _] H i Hi. destruct (decide (parent i = idx)) as [E|]; [|by apply D]. rewrite E. by apply H.
Qed.

(** The choice of the child that [RemoveMinimumValue] looks at. *)
Definition small_child (n : nat) (bs : list (option Z)) (idx : nat) : nat :=
  let c := (2 * idx + 1)%nat in
  if (c + 1 <? n)%nat && after cb info (val_at bs c) (val_at bs (c + 1)) then (c + 1)%nat else c.

Lemma small_child_spec (n : nat) (bs : list (option Z)) (idx : nat) :
  (2 * idx + 1 < n)%nat ->
  let c := small_child n bs idx in
  (0 < c < n)%nat /\ parent c = idx /\
  forall c', (0 < c' < n)%nat -> parent c' = idx -> le (val_at bs c) (val_at bs c').
Proof.
  intros Hn. unfold small_child. set (l := (2 * idx + 1)%nat) in *.
  destruct (Nat.ltb_spec (l + 1) n) as [H2|H2]; cbn [andb].
  - destruct (after cb info (val_at bs l) (val_at bs (l + 1))) eqn:E; split; try lia; (split; [apply parent_child; lia|]).
    + intros c' Hc' Pc'. apply parent_child in Pc' as [->| ->]; [| |lia].
      * by apply after_asym.
      * replace (l + 1)%nat with (2 * idx + 2)%nat by lia. apply after_refl.
    + intros c' Hc' Pc'. apply parent_child in Pc' as [->| ->]; [apply after_refl| |lia].
      by replace (2 * idx + 2)%nat with (l + 1)%nat by lia.
  - split; [lia|]. split; [apply parent_child; lia|].
    intros c' Hc' Pc'. apply parent_child in Pc' as [->| ->]; [apply after_refl|lia|lia].
Qed.

Lemma pick_child {R : Type} (h : CFBinaryHeap) (n : nat) (bs : list (option Z)) (idx : nat)
  (k : Z * Z -> result R) :
  h_callbacks h = cb -> h_info h = info -> (2 * idx + 1 < n)%nat ->
  (forall j, (j < n)%nat -> j <> idx -> bs !! j = Some (Some (val_at bs j))) ->
  (it ← item bs (Z.of_nat (2 * idx + 1));
   p ← (if Z.of_nat (2 * idx + 1) + 1 <? Z.of_nat n then
          item2 ← item bs (Z.of_nat (2 * idx + 1) + 1);
          Ok (if greater h it item2 then (Z.of_nat (2 * idx + 1) + 1, item2) else (Z.of_nat (2 * idx + 1), it))
        else Ok (Z.of_nat (2 * idx + 1), it)); k p) =
  k (Z.of_nat (small_child n bs idx), val_at bs (small_child n bs idx)).
Proof.
  intros Hcb Hinfo Hn Fb. unfold item. rewrite (aget_nat _ _ _ (Fb (2 * idx + 1)%nat ltac:(lia) ltac:(lia))).
  cbn [mbind result_bind]. unfold small_child.
  replace (Z.of_nat (2 * idx + 1) + 1) with (Z.of_nat (2 * idx + 1 + 1)) by lia.
  destruct (Z.ltb_spec (Z.of_nat (2 * idx + 1 + 1)) (Z.of_nat n)), (Nat.ltb_spec (2 * idx + 1 + 1) n);
    try lia; [|done].
  rewrite (aget_nat _ _ _ (Fb (2 * idx + 1 + 1)%nat ltac:(lia) ltac:(lia))). cbn [mbind result_bind andb].
  rewrite greater_after, Hcb, Hinfo. by destruct (after cb info _ _).
Qed.

Lemma remove_loop_spec (h : CFBinaryHeap) (val : Z) (n fuel : nat) (bs : list (option Z)) (idx : nat) :
  h_callbacks h = cb -> h_info h = info -> h_count h = Z.of_nat n ->
  (n - idx < fuel)%nat -> (idx < n)%nat -> (n <= length bs)%nat -> filled n (<[idx := Some val]> bs) ->
  exists bs' idx', remove_loop fuel h bs (Z.of_nat idx) val = Ok (bs', Z.of_nat idx') /\
    (idx' < n)%nat /\ length bs' = length bs /\ filled n (<[idx' := Some val]> bs') /\
    (forall y, take n (<[idx' := y]> bs') ≡ₚ take n (<[idx := y]> bs)) /\
    (down_ok n (val_at (<[idx := Some val]> bs)) idx ->
     heap_order cb info n (<[idx' := Some val]> bs')).
Proof.
  intros Hcb Hinfo Hcnt. revert bs idx. induction fuel as [|fuel IH]; intros bs idx Hf Hn Hl F; [lia|].
  cbn [remove_loop]. cbv zeta. rewrite Hcnt.
  replace (Z.shiftl (Z.of_nat idx) 1 + 1) with (Z.of_nat (2 * idx + 1))
    by (rewrite Z.shiftl_mul_pow2 by lia; change (2 ^ 1) with 2; lia).
  destruct (Z.ltb_spec (Z.of_nat (2 * idx + 1)) (Z.of_nat n)) as [Hc|Hc].
  2:{ exists bs, idx. split_and!; try done. intros D. refine (down_done _ _ _ D _).
      intros c Hcn Pc. apply parent_child in Pc; lia. }
  assert (Fb : forall j, (j < n)%nat -> j <> idx -> bs !! j = Some (Some (val_at bs j))).
  { intros j Hj Nj. specialize (F j Hj). by rewrite list_lookup_insert_ne, val_at_insert, decide_False in F by lia. }
  rewrite (pick_child h n bs idx _ Hcb Hinfo ltac:(lia) Fb). cbn beta iota. rewrite greater_after, Hcb, Hinfo.
  destruct (small_child_spec n bs idx ltac:(lia)) as (Hcn & Pc & Hmin).
  set (c := small_child n bs idx) in *. pose proof (parent_lt c ltac:(lia)) as Hlt. rewrite Pc in Hlt.
  assert (V : forall j, j <> idx -> val_at (<[idx := Some val]> bs) j = val_at bs j).
  { intros j Nj. rewrite val_at_insert, decide_False by lia. done. }
  assert (Vi : val_at (<[idx := Some val]> bs) idx = val) by (rewrite val_at_insert, decide_True by lia; done).
  assert (Hmin' : forall c', (0 < c' < n)%nat -> parent c' = idx ->
    le (val_at (<[idx := Some val]> bs) c) (val_at (<[idx := Some val]> bs) c')).
  { intros c' Hc' Pc'. pose proof (parent_lt c' ltac:(lia)). rewrite !V by lia. by apply Hmin. }
  destruct (after cb info (val_at bs c) val) eqn:Hgt.
  - exists bs, idx. split_and!; try done. intros D. refine (down_done _ _ _ D _). intros c' Hc' Pc'.
    eapply after_trans; [|by apply Hmin']. rewrite Vi, V by lia. by apply after_asym.
  - rewrite aset_Ok by lia. cbn [mbind result_bind]. rewrite Nat2Z.id. set (it := val_at bs c) in *.
    assert (Hlc : (c < length (<[idx := Some it]> bs))%nat) by (rewrite length_insert; lia).
    assert (F' : filled n (<[c := Some val]> (<[idx := Some it]> bs))).
    { intros j Hj. rewrite !val_at_insert by lia.
      destruct (decide (c = j)) as [->|Ncj]; [by rewrite list_lookup_insert_eq|].
      rewrite list_lookup_insert_ne by done. destruct (decide (idx = j)) as [->|Nij].
      - by rewrite list_lookup_insert_eq by lia.
      - rewrite list_lookup_insert_ne by done. by apply Fb. }
    destruct (IH (<[idx := Some it]> bs) c) as (bs' & idx' & -> & Hi' & Hl' & Fb' & P & U);
      [lia|lia|rewrite length_insert; lia|done|].
    exists bs', idx'. split_and!; [done|lia|by rewrite Hl', length_insert|done| |].
    + intros y. rewrite P. apply plug_move; [lia..|]. apply Fb; lia.
    + intros HD. apply U. eapply (down_step n _ _ idx c); [lia|done|exact HD|exact Hmin'|..].
      * rewrite Vi, V by lia. done.
      * rewrite V, !val_at_insert, decide_False, decide_True by lia. done.
      * rewrite Vi, val_at_insert, decide_True by lia. done.
      * intros j N1 N2. rewrite !val_at_insert by lia. by rewrite !decide_False by done.
Qed.

Lemma order_stored (n : nat) (bs : list (option Z)) (idx : nat) (v : Z) :
  (idx < length bs)%nat -> heap_order cb info n (<[idx := Some v]> bs) ->
  heap_order cb info n (<[idx := Some (stored cb v)]> bs).
Proof.
  intros Hl H i Hi. specialize (H i Hi). rewrite !val_at_insert in * by done.
  destruct (decide (idx = parent i)), (decide (idx = i)); rewrite ?after_stored_l, ?after_stored_r; done.
Qed.

End Sift.

(** ** The operations against the bag *)

Lemma round_up_spec (c : Z) :
  c < 2 ^ 30 -> exists k, CFBinaryHeapRoundUpCapacity c = Ok k /\ c <= k /\ 4 <= k.
Proof.
  intros Hc. unfold CFBinaryHeapRoundUpCapacity. destruct (Z.ltb_spec c 4); [exists 4; split; [done|lia]|].
  unfold flsl. rewrite (proj2 (Z.leb_gt c 0)) by lia.
  pose proof (Z.log2_lt_pow2 c 30 ltac:(lia)) as [L _]. specialize (L Hc).
  rewrite (proj2 (Z.leb_gt 31 _)) by lia. eexists; split; [reflexivity|].
  rewrite Z.shiftl_mul_pow2, Z.mul_1_l by (pose proof (Z.log2_nonneg c); lia).
  pose proof (Z.log2_spec c ltac:(lia)) as [_ S]. rewrite <- Z.add_1_r in S. lia.
Qed.

(** Two heaps with the same callbacks, context and mutability. *)
Definition same_kind (h h' : CFBinaryHeap) : Prop :=
  h_callbacks h' = h_callbacks h /\ h_info h' = h_info h /\ h_variety h' = h_variety h.

(** Room for one more: a full mutable heap grows. *)
Lemma make_room (h : CFBinaryHeap) :
  heap_ok h -> h_variety h = kCFBinaryHeapMutable -> h_count h + 1 < 2 ^ 30 ->
  exists h', (if (h_variety h =? kCFBinaryHeapMutable) && (h_count h =? h_capacity h)
              then CFBinaryHeapGrow h 1 else Ok h) = Ok h' /\
    heap_ok h' /\ same_kind h h' /\ h_count h' = h_count h /\ h_count h < h_capacity h' /\ items h' = items h.
Proof.
  intros W Hv Hc. pose proof (ok_count h W). rewrite Hv. cbn [andb].
  change (kCFBinaryHeapMutable =? kCFBinaryHeapMutable) with true. cbn [andb].
  destruct (Z.eqb_spec (h_count h) (h_capacity h)) as [E|N].
  2:{ exists h. split_and!; try done. lia. }
  unfold CFBinaryHeapGrow. destruct (round_up_spec (h_count h + 1) Hc) as (k & -> & Hk & H4).
  cbn [mbind result_bind]. eexists; split; [reflexivity|]. pose proof (ok_length h W) as Hl.
  assert (T : take (Z.to_nat (h_count h)) (resize (Z.to_nat k) None (h_buckets h)) =
    take (Z.to_nat (h_count h)) (h_buckets h)).
  { rewrite resize_ge by lia. by rewrite take_app_le by lia. }
  assert (V : forall i, (i < Z.to_nat (h_count h))%nat ->
    resize (Z.to_nat k) None (h_buckets h) !! i = h_buckets h !! i).
  { intros i Hi. rewrite <- (lookup_take_lt _ (Z.to_nat (h_count h)) i), T, lookup_take_lt by done. done. }
  split_and!; cbn; try done; try lia; [|by unfold items; cbn; rewrite T].
  split; cbn; [lia|rewrite length_resize; lia| |].
  - intros i Hi. unfold val_at. rewrite V by done. by apply (ok_filled h W).
  - intros i Hi. unfold val_at. pose proof (parent_lt i ltac:(lia)). rewrite !V by lia. by apply (ok_order h W).
Qed.

Lemma take_plug_last (n : nat) (bs : list (option Z)) (y : option Z) :
  (n < length bs)%nat -> take (S n) (<[n := y]> bs) = take n bs ++ [y].
Proof.
  intros H. rewrite (take_S_r _ _ y) by (by rewrite list_lookup_insert_eq). by rewrite take_insert_ge by lia.
Qed.

Lemma add_value_room (h : CFBinaryHeap) (v : Z) `{HO : HeapOrder (h_callbacks h) (h_info h)} :
  heap_ok h -> h_count h < h_capacity h ->
  exists bs idx, add_loop (S (Z.to_nat (h_count h))) (set_count h (h_count h + 1)) (h_buckets h) (h_count h) v
      = Ok (bs, Z.of_nat idx) /\ (idx < length bs)%nat /\
    let h' := set_buckets (set_count h (h_count h + 1)) (<[idx := Some (stored (h_callbacks h) v)]> bs) in
    heap_ok h' /\ items h' ≡ₚ stored (h_callbacks h) v :: items h.
Proof.
  intros W Room. pose proof (ok_count h W). pose proof (ok_length h W) as L.
  set (n := Z.to_nat (h_count h)). assert (Hn : h_count h = Z.of_nat n) by lia. rewrite Hn.
  pose proof (ok_filled h W) as F. pose proof (ok_order h W) as O. fold n in F, O.
  destruct (add_loop_spec (h_callbacks h) (h_info h) (set_count h (Z.of_nat n + 1)) v (S n) (S n) (h_buckets h) n)
    as (bs & idx & -> & Hi & Hlen & Fb & P & U); [done|done|lia|lia|lia| |].
  { intros i Hi. rewrite val_at_insert by lia. destruct (decide (n = i)) as [<-|].
    - by rewrite list_lookup_insert_eq by lia.
    - rewrite list_lookup_insert_ne by done. apply F. lia. }
  exists bs, idx. split; [done|]. split; [lia|]. cbv zeta.
  assert (S1 : Z.to_nat (Z.of_nat n + 1) = S n) by lia. split; [split; cbn [set_buckets set_count h_count h_capacity
    h_buckets h_callbacks h_info]; rewrite ?S1|].
  - lia.
  - rewrite length_insert. lia.
  - intros i Hn'. specialize (Fb i Hn'). rewrite val_at_insert in * by lia.
    destruct (decide (idx = i)) as [->|]; [by rewrite list_lookup_insert_eq by lia|].
    by rewrite list_lookup_insert_ne in * by done.
  - apply (order_stored _ _); [lia|]. apply U. split.
    + intros i Hi' Ni. pose proof (parent_lt i ltac:(lia)). rewrite !val_at_insert, !decide_False by lia.
      apply O. lia.
    + intros c Hc Pc. pose proof (parent_lt c ltac:(lia)). lia.
  - unfold items. cbn [set_buckets set_count h_count h_buckets]. rewrite S1, P, take_plug_last by lia.
    rewrite omap_app. cbn. fold n. by rewrite Permutation_app_comm.
Qed.

Lemma add_value_spec (h : CFBinaryHeap) (v : Z) `{HO : HeapOrder (h_callbacks h) (h_info h)} :
  heap_ok h -> h_variety h = kCFBinaryHeapMutable -> h_count h + 1 < 2 ^ 30 ->
  exists h', CFBinaryHeapAddValue h v =
      Ok (h', match cb_retain (h_callbacks h) with Some _ => [Retain v] | None => [] end) /\
    heap_ok h' /\ same_kind h h' /\ h_count h' = h_count h + 1 /\
    items h' ≡ₚ stored (h_callbacks h) v :: items h.
Proof.
  intros W Hv Hc. unfold CFBinaryHeapAddValue.
  destruct (make_room h W Hv Hc) as (g & -> & Wg & (K1 & K2 & K3) & Eg & Room & Ig). cbn [mbind result_bind].
  rewrite <- Ig, <- K1. rewrite <- K1, <- K2 in HO.
  change (h_buckets (set_count g (h_count g + 1))) with (h_buckets g).
  destruct (add_value_room g v Wg ltac:(lia)) as (bs & idx & -> & Hl & W' & P).
  cbn [mbind result_bind]. exists (set_buckets (set_count g (h_count g + 1)) (<[idx := Some (stored (h_callbacks g) v)]> bs)).
  split; [|split; [done|split; [by split|split; [cbn; lia|done]]]].
  cbn [h_callbacks set_count]. unfold stored.
  destruct (cb_retain (h_callbacks g)); rewrite aset_Ok by lia; cbn [mbind result_bind]; by rewrite Nat2Z.id.
Qed.

Lemma items_vals (h : CFBinaryHeap) :
  heap_ok h -> items h = val_at (h_buckets h) <$> seq 0 (Z.to_nat (h_count h)).
Proof.
  intros W. pose proof (ok_filled h W) as F. unfold items. revert F. generalize (Z.to_nat (h_count h)).
  intros n F. induction n as [|n IH]; [done|].
  assert (F' : filled n (h_buckets h)) by (intros i Hi; apply F; lia).
  rewrite (take_S_r _ _ _ (F n ltac:(lia))), omap_app, seq_S, fmap_app, IH by done. done.
Qed.

Lemma length_items (h : CFBinaryHeap) : heap_ok h -> length (items h) = Z.to_nat (h_count h).
Proof. intros W. rewrite items_vals by done. by rewrite length_fmap, length_seq. Qed.

Lemma root_least (h : CFBinaryHeap) `{HO : HeapOrder (h_callbacks h) (h_info h)} (x : Z) :
  heap_ok h -> x ∈ items h -> after (h_callbacks h) (h_info h) (val_at (h_buckets h) 0) x = false.
Proof.
  intros W Hx. rewrite items_vals in Hx by done.
  apply list_elem_of_fmap in Hx as (i & -> & Hi). apply elem_of_seq in Hi.
  induction i as [i IH] using lt_wf_ind. destruct (decide (i = 0%nat)) as [->|N]; [by apply after_refl|].
  pose proof (parent_lt i ltac:(lia)). eapply after_trans; [apply (IH (parent i)); lia|].
  apply (ok_order h W). lia.
Qed.

(** The events of releasing or retaining a list of values one after the other. *)
Definition release_events (cb : CFBinaryHeapCallBacks) (vs : list Z) : list event :=
  if cb_release cb then Release <$> vs else [].

Definition retain_events (cb : CFBinaryHeapCallBacks) (vs : list Z) : list event :=
  match cb_retain cb with Some _ => Retain <$> vs | None => [] end.

Lemma release_events_cons (cb : CFBinaryHeapCallBacks) (v : Z) (vs : list Z) :
  release_events cb (v :: vs) = release_events cb [v] ++ release_events cb vs.
Proof. unfold release_events. by destruct (cb_release cb). Qed.

Lemma retain_events_cons (cb : CFBinaryHeapCallBacks) (v : Z) (vs : list Z) :
  retain_events cb (v :: vs) = retain_events cb [v] ++ retain_events cb vs.
Proof. unfold retain_events. by destruct (cb_retain cb). Qed.

Lemma remove_root (h : CFBinaryHeap) (n : nat) `{HO : HeapOrder (h_callbacks h) (h_info h)} :
  heap_ok h -> h_count h = Z.of_nat (S n) ->
  let g := set_count h (Z.of_nat n) in
  let val := val_at (h_buckets h) n in
  exists bs idx, remove_loop (S (S n)) g (h_buckets h) 0 val = Ok (bs, Z.of_nat idx) /\ (idx < length bs)%nat /\
    heap_ok (set_buckets g (<[idx := Some val]> bs)) /\
    items h ≡ₚ val_at (h_buckets h) 0 :: items (set_buckets g (<[idx := Some val]> bs)).
Proof.
  intros W Hc. cbv zeta. pose proof (ok_count h W). pose proof (ok_length h W) as L.
  pose proof (ok_filled h W) as F. pose proof (ok_order h W) as O. rewrite Hc, Nat2Z.id in F, O.
  set (g := set_count h (Z.of_nat n)). set (val := val_at (h_buckets h) n).
  assert (I : items h = omap id (take n (h_buckets h)) ++ [val]).
  { unfold items. rewrite Hc, Nat2Z.id, (take_S_r _ _ _ (F n ltac:(lia))), omap_app. done. }
  destruct n as [|m].
  - exists (h_buckets h), 0%nat. split; [done|]. split; [lia|]. split.
    + split; cbn; [lia|rewrite length_insert; lia|intros i Hi; lia|intros i Hi; lia].
    + rewrite I. done.
  - set (n := S m) in *.
    destruct (remove_loop_spec (h_callbacks h) (h_info h) g val n (S (S n)) (h_buckets h) 0)
      as (bs & idx & E & Hi & Hl & Fb & P & U); [done|done|done|lia|lia|lia| |].
    { apply filled_insert; [|lia]. intros i Hi. apply F. lia. }
    exists bs, idx. split; [done|]. split; [lia|]. split.
    + split; cbn [set_buckets set_count g h_count h_capacity h_buckets h_callbacks h_info]; rewrite ?Nat2Z.id.
      * lia.
      * rewrite length_insert. lia.
      * done.
      * apply U. split; [|lia]. intros i Hi' Np. pose proof (parent_lt i ltac:(lia)).
        rewrite !val_at_insert, !decide_False by lia. apply O. lia.
    + rewrite I. unfold items. cbn [set_buckets set_count g h_count h_buckets]. rewrite Nat2Z.id, P.
      rewrite take_insert_lt by lia.
      pose proof (F 0%nat ltac:(lia)) as F0. destruct (h_buckets h) as [|b0 bs0]; [done|].
      cbn in F0. injection F0 as ->. unfold n. cbn. by rewrite Permutation_app_comm.
Qed.

Lemma remove_minimum_spec (h : CFBinaryHeap) `{HO : HeapOrder (h_callbacks h) (h_info h)} :
  heap_ok h -> 0 < h_count h ->
  exists h' m, CFBinaryHeapGetMinimum h = Ok m /\
    CFBinaryHeapRemoveMinimumValue h = Ok (h', release_events (h_callbacks h) [m]) /\
    heap_ok h' /\ same_kind h h' /\ h_count h' = h_count h - 1 /\ items h ≡ₚ m :: items h' /\
    forall x, x ∈ items h -> after (h_callbacks h) (h_info h) m x = false.
Proof.
  intros W Hc. destruct (Z.to_nat (h_count h)) as [|n] eqn:En; [lia|].
  assert (Hn : h_count h = Z.of_nat (S n)) by lia.
  pose proof (ok_filled h W) as F. rewrite En in F.
  destruct (remove_root h n W Hn) as (bs & idx & E & Hl & W' & P).
  do 2 eexists. split; [|split; [|split; [exact W'|split; [by split|split; [cbn; lia|split; [exact P|]]]]]].
  - unfold CFBinaryHeapGetMinimum. rewrite (proj2 (Z.ltb_lt _ _)) by done. apply (item_filled _ _ 0 F). lia.
  - unfold CFBinaryHeapRemoveMinimumValue. rewrite (proj2 (Z.eqb_neq 0 _)) by lia. cbv zeta.
    rewrite Hn. replace (Z.of_nat (S n) - 1) with (Z.of_nat n) by lia. rewrite Nat2Z.id.
    unfold set_count in *. cbn [h_callbacks h_buckets]. unfold release_events.
    pose proof (item_filled _ _ 0 F ltac:(lia)) as I0. change (Z.of_nat 0) with 0 in I0. rewrite I0. cbn [mbind result_bind].
    rewrite (item_filled _ _ n F) by lia. cbn [mbind result_bind] in *.
    destruct (cb_release (h_callbacks h)); cbn [mbind result_bind]; rewrite E;
      cbn [mbind result_bind]; rewrite aset_Ok by lia; cbn [mbind result_bind]; by rewrite Nat2Z.id.
  - intros x Hx. by apply root_least.
Qed.

(** ** Copies and traversals *)

Lemma add_values_spec (n : nat) (h : CFBinaryHeap) (vals : list (option Z)) (idx : nat) (ev : list event)
  `{HO : HeapOrder (h_callbacks h) (h_info h)} :
  heap_ok h -> h_variety h = kCFBinaryHeapMutable -> h_count h + Z.of_nat n < 2 ^ 30 ->
  filled (idx + n) vals ->
  let vs := val_at vals <$> seq idx n in
  exists h', add_values h vals n (Z.of_nat idx) ev = Ok (h', ev ++ retain_events (h_callbacks h) vs) /\
    heap_ok h' /\ same_kind h h' /\ h_count h' = h_count h + Z.of_nat n /\
    items h' ≡ₚ (stored (h_callbacks h) <$> vs) ++ items h.
Proof.
  cbv zeta. revert h idx ev HO. induction n as [|n IH]; intros h idx ev HO W Hv Hc F; cbn [add_values].
  { exists h. unfold retain_events. cbn [seq fmap list_fmap app].
    split; [by destruct (cb_retain _); rewrite ?app_nil_r|]. split_and!; try done. lia. }
  rewrite (item_filled _ _ idx F) by lia. cbn [mbind result_bind].
  destruct (add_value_spec h (val_at vals idx) W Hv) as (g & -> & Wg & (K1 & K2 & K3) & Cg & Pg); [lia|].
  cbn [mbind result_bind]. rewrite <- K1, <- K2 in HO.
  destruct (IH g (S idx) (ev ++ retain_events (h_callbacks h) [val_at vals idx]) HO Wg) as
    (h' & E & W' & (K1' & K2' & K3') & C' & P'); [congruence|lia|by rewrite Nat.add_succ_comm|].
  exists h'. replace (Z.of_nat idx + 1) with (Z.of_nat (S idx)) by lia. rewrite K1 in *.
  split.
  - cbn [seq fmap list_fmap]. rewrite (retain_events_cons _ (val_at vals idx)), app_assoc. rewrite <- E.
    unfold retain_events. by destruct (cb_retain _).
  - split_and!; [done|unfold same_kind; split_and!; congruence|lia|]. cbn [seq fmap list_fmap].
    rewrite P', Pg. cbn [app]. by rewrite Permutation_middle.
Qed.

Lemma filled_le (n m : nat) (bs : list (option Z)) : (n <= m)%nat -> filled m bs -> filled n bs.
Proof. intros H F i Hi. apply F. lia. Qed.

Lemma empty_ok (cb : CFBinaryHeapCallBacks) (info : Z) :
  heap_ok (mkHeap 0 4 cb info (replicate (Z.to_nat 4) None) kCFBinaryHeapMutable).
Proof. split; cbn; [lia|done|intros i Hi; lia|intros i Hi; lia]. Qed.

Lemma create_copy_spec (h : CFBinaryHeap) `{HO : HeapOrder (h_callbacks h) (h_info h)} :
  heap_ok h -> h_count h < 2 ^ 30 ->
  exists h', CFBinaryHeapCreateCopy h = Ok (h', retain_events (h_callbacks h) (items h)) /\
    heap_ok h' /\ h_callbacks h' = h_callbacks h /\ h_info h' = h_info h /\
    h_variety h' = kCFBinaryHeapMutable /\ h_count h' = h_count h /\
    items h' ≡ₚ stored (h_callbacks h) <$> items h.
Proof.
  intros W Hc. pose proof (ok_count h W). unfold CFBinaryHeapCreateCopy, CFBinaryHeapInit.
  change (CFBinaryHeapRoundUpCapacity 1) with (Ok 4). cbn [mbind result_bind default].
  rewrite (items_vals h W).
  destruct (add_values_spec (Z.to_nat (h_count h))
    (mkHeap 0 4 (h_callbacks h) (h_info h) (replicate (Z.to_nat 4) None) kCFBinaryHeapMutable)
    (h_buckets h) 0 []) as (h' & E & [W1 W2 W3 W4] & (K1 & K2 & K3) & C & P);
    [apply empty_ok|done|cbn; lia|apply (ok_filled h W)|].
  cbn [default h_callbacks h_info h_count] in *. unfold id. change (Z.of_nat 0) with 0 in E. rewrite E.
  cbn [mbind result_bind app]. eexists; split; [reflexivity|]. cbn. split_and!; try done; try lia.
  unfold items in P at 1. unfold items at 1. cbn in P |- *. by rewrite app_nil_r in P.
Qed.

Lemma dealloc_empty (h : CFBinaryHeap) : h_count h = 0 -> CFBinaryHeapDeallocate h = Ok [].
Proof.
  intros Hc. unfold CFBinaryHeapDeallocate, CFBinaryHeapRemoveAllValues. rewrite Hc. cbn.
  by destruct (cb_release _).
Qed.

Abbreviation sorted cb info := (StronglySorted (fun a b => after cb info a b = false)).

Lemma items_empty (h : CFBinaryHeap) : h_count h = 0 -> items h = [].
Proof. intros E. unfold items. by rewrite E. Qed.

Lemma sorted_cons (cb : CFBinaryHeapCallBacks) (info m : Z) (xs ys vs : list Z) :
  xs ≡ₚ m :: ys -> vs ≡ₚ ys -> (forall x, x ∈ xs -> after cb info m x = false) -> sorted cb info vs ->
  m :: vs ≡ₚ xs /\ sorted cb info (m :: vs).
Proof.
  intros Px Pv Hm Hs. split; [by rewrite Px, Pv|]. constructor; [done|].
  apply Forall_forall. intros x Hx. apply Hm. rewrite Px, <- Pv. by right.
Qed.

Lemma get_values_loop_spec (fuel : nat) (h : CFBinaryHeap) (values : list Z) (idx : nat) (ev : list event)
  `{HO : HeapOrder (h_callbacks h) (h_info h)} :
  heap_ok h -> (Z.to_nat (h_count h) < fuel)%nat -> (idx + Z.to_nat (h_count h) <= length values)%nat ->
  exists h' vs, get_values_loop fuel h values (Z.of_nat idx) ev =
      Ok (h', take idx values ++ vs ++ drop (idx + length vs) values,
          ev ++ release_events (h_callbacks h) vs) /\
    h_count h' = 0 /\ vs ≡ₚ items h /\ sorted (h_callbacks h) (h_info h) vs.
Proof.
  revert h values idx ev HO. induction fuel as [|fuel IH]; intros h values idx ev HO W Hf Hl; [lia|].
  pose proof (ok_count h W). cbn [get_values_loop]. destruct (Z.ltb_spec 0 (h_count h)) as [Hp|Hz].
  2:{ exists h, []. cbn. rewrite Nat.add_0_r, take_drop. unfold release_events. cbn.
      split; [by destruct (cb_release _); rewrite ?app_nil_r|]. split; [lia|]. rewrite items_empty by lia.
      split; constructor. }
  destruct (remove_minimum_spec h W Hp) as (g & m & -> & E & Wg & (K1 & K2 & K3) & Cg & Pg & Hm).
  cbn [mbind result_bind]. rewrite E. cbn [mbind result_bind]. rewrite aset_Ok by lia.
  cbn [mbind result_bind]. rewrite Nat2Z.id, <- K1, <- K2 in *.
  destruct (IH g (<[idx := m]> values) (S idx) (ev ++ release_events (h_callbacks g) [m]) HO Wg) as
    (h' & vs & E' & C' & P' & S'); [lia|rewrite length_insert; lia|].
  exists h', (m :: vs). replace (Z.of_nat idx + 1) with (Z.of_nat (S idx)) by lia. rewrite E'.
  destruct (sorted_cons _ _ m _ _ vs Pg P' Hm S') as [P2 S2]. split_and!; [|done..].
  rewrite (release_events_cons _ m vs), (app_assoc ev).
  rewrite (take_S_r _ _ m) by (rewrite list_lookup_insert_eq by lia; done).
  rewrite take_insert_ge, drop_insert_lt by lia. rewrite <- (app_assoc (take idx values)). cbn [app length].
  by rewrite Nat.add_succ_r.
Qed.

Theorem get_values_sorts (h : CFBinaryHeap) (values : list Z) `{HO : HeapOrder (h_callbacks h) (h_info h)} :
  heap_ok h -> h_count h < 2 ^ 30 -> h_count h <= Z.of_nat (length values) ->
  exists vs, CFBinaryHeapGetValues h values =
      Ok (vs ++ drop (length vs) values,
          retain_events (h_callbacks h) (items h) ++ release_events (h_callbacks h) vs) /\
    vs ≡ₚ stored (h_callbacks h) <$> items h /\ sorted (h_callbacks h) (h_info h) vs.
Proof.
  intros W Hc Hl. pose proof (ok_count h W). unfold CFBinaryHeapGetValues.
  destruct (Z.eqb_spec 0 (h_count h)) as [E|N].
  { exists []. rewrite items_empty by done. split; [|split; constructor].
    unfold retain_events, release_events. by destruct (cb_retain _), (cb_release _). }
  destruct (create_copy_spec h W Hc) as (g & -> & Wg & K1 & K2 & _ & Cg & Pg). cbn [mbind result_bind].
  rewrite <- K1, <- K2 in *.
  destruct (get_values_loop_spec (S (Z.to_nat (h_count h))) g values 0
    (retain_events (h_callbacks g) (items h)) Wg) as (h' & vs & E & C' & P & S); [lia|lia|].
  change (Z.of_nat 0) with 0 in E. rewrite E. cbn [mbind result_bind]. rewrite dealloc_empty by done.
  cbn [mbind result_bind]. exists vs. cbn [take app Nat.add]. rewrite app_nil_r.
  split; [done|]. split; [by rewrite P|done].
Qed.

Definition visit_events (cb : CFBinaryHeapCallBacks) (vs : list Z) : list event :=
  vs ≫= fun v => release_events cb [v] ++ [Apply v].

Lemma apply_loop_spec (fuel : nat) (h : CFBinaryHeap) (ev : list event)
  `{HO : HeapOrder (h_callbacks h) (h_info h)} :
  heap_ok h -> (Z.to_nat (h_count h) < fuel)%nat ->
  exists h' vs, apply_loop fuel h ev = Ok (h', ev ++ visit_events (h_callbacks h) vs) /\
    h_count h' = 0 /\ vs ≡ₚ items h /\ sorted (h_callbacks h) (h_info h) vs.
Proof.
  revert h ev HO. induction fuel as [|fuel IH]; intros h ev HO W Hf; [lia|].
  pose proof (ok_count h W). cbn [apply_loop]. destruct (Z.ltb_spec 0 (h_count h)) as [Hp|Hz].
  2:{ exists h, []. cbn. rewrite app_nil_r. rewrite items_empty by lia. split; [done|]. split; [lia|].
      split; constructor. }
  destruct (remove_minimum_spec h W Hp) as (g & m & -> & E & Wg & (K1 & K2 & K3) & Cg & Pg & Hm).
  cbn [mbind result_bind]. rewrite E. cbn [mbind result_bind]. rewrite <- K1, <- K2 in *.
  destruct (IH g (ev ++ release_events (h_callbacks g) [m] ++ [Apply m]) HO Wg) as
    (h' & vs & E' & C' & P' & S'); [lia|].
  exists h', (m :: vs). destruct (sorted_cons _ _ m _ _ vs Pg P' Hm S') as [P2 S2].
  split_and!; [|done..]. rewrite E'. unfold visit_events. by rewrite bind_cons, <- !app_assoc.
Qed.

Theorem apply_function_in_order (h : CFBinaryHeap) `{HO : HeapOrder (h_callbacks h) (h_info h)} :
  heap_ok h -> h_count h < 2 ^ 30 ->
  exists vs, CFBinaryHeapApplyFunction h =
      Ok (retain_events (h_callbacks h) (items h) ++ visit_events (h_callbacks h) vs) /\
    vs ≡ₚ stored (h_callbacks h) <$> items h /\ sorted (h_callbacks h) (h_info h) vs.
Proof.
  intros W Hc. pose proof (ok_count h W). unfold CFBinaryHeapApplyFunction.
  destruct (Z.eqb_spec 0 (h_count h)) as [E|N].
  { exists []. rewrite items_empty by done. split; [|split; constructor].
    unfold retain_events. by destruct (cb_retain _). }
  destruct (create_copy_spec h W Hc) as (g & -> & Wg & K1 & K2 & _ & Cg & Pg). cbn [mbind result_bind].
  rewrite <- K1, <- K2 in *.
  destruct (apply_loop_spec (S (Z.to_nat (h_count h))) g (retain_events (h_callbacks g) (items h)) Wg)
    as (h' & vs & -> & C' & P & S); [lia|].
  cbn [mbind result_bind]. rewrite dealloc_empty by done. cbn [mbind result_bind]. exists vs.
  rewrite app_nil_r. split; [done|]. split; [by rewrite P|done].
Qed.

Theorem add_value_refines (h : CFBinaryHeap) (v : Z) `{HO : HeapOrder (h_callbacks h) (h_info h)} :
  heap_ok h -> h_variety h = kCFBinaryHeapMutable -> h_count h + 1 < 2 ^ 30 ->
  exists h', CFBinaryHeapAddValue h v = Ok (h', retain_events (h_callbacks h) [v]) /\
    heap_ok h' /\ same_kind h h' /\ h_count h' = h_count h + 1 /\
    items h' ≡ₚ stored (h_callbacks h) v :: items h.
Proof. exact (add_value_spec h v). Qed.

(** C35. CFBinaryHeapRemoveMinimumValue removes from the bag of values the one CFBinaryHeapGetMinimum
    returns, which no value sorts before, releases it once and keeps the heap invariant. *)
Theorem remove_minimum_refines (h : CFBinaryHeap) `{HO : HeapOrder (h_callbacks h) (h_info h)} :
  heap_ok h -> 0 < h_count h ->
  exists h' m, CFBinaryHeapGetMinimum h = Ok m /\
    CFBinaryHeapRemoveMinimumValue h = Ok (h', release_events (h_callbacks h) [m]) /\
    heap_ok h' /\ same_kind h h' /\ h_count h' = h_count h - 1 /\ items h ≡ₚ m :: items h' /\
    forall x, x ∈ items h -> after (h_callbacks h) (h_info h) m x = false.
Proof. exact (remove_minimum_spec h). Qed.

(** ** Counting and searching *)

Lemma count_of_value_spec (n : nat) (h : CFBinaryHeap) (idx : nat) (value cnt : Z) :
  filled (idx + n) (h_buckets h) ->
  let vs := val_at (h_buckets h) <$> seq idx n in
  count_of_value n h (Z.of_nat idx) value cnt =
    Ok (cnt + Z.of_nat (length (filter (fun x => matches h value x = true) vs))) /\
  contains_value n h (Z.of_nat idx) value = Ok (existsb (matches h value) vs).
Proof.
  cbv zeta. revert idx cnt. induction n as [|n IH]; intros idx cnt F; cbn [count_of_value contains_value].
  { split; [|done]. f_equal. cbn. lia. }
  rewrite (item_filled _ _ idx F) by lia. cbn [mbind result_bind seq fmap list_fmap existsb].
  replace (Z.of_nat idx + 1) with (Z.of_nat (S idx)) by lia.
  destruct (IH (S idx) (if matches h value (val_at (h_buckets h) idx) then cnt + 1 else cnt)) as [-> ->];
    [by rewrite Nat.add_succ_comm|].
  rewrite filter_cons. destruct (matches h value (val_at (h_buckets h) idx)) eqn:E.
  - rewrite decide_True by done. cbn [length]. split; [f_equal; lia|done].
  - by rewrite decide_False by congruence.
Qed.

Theorem count_and_contains (h : CFBinaryHeap) (value : Z) :
  heap_ok h ->
  CFBinaryHeapGetCountOfValue h value =
    Ok (Z.of_nat (length (filter (fun x => matches h value x = true) (items h)))) /\
  exists b, CFBinaryHeapContainsValue h value = Ok b /\
    (b = true <-> exists x, x ∈ items h /\ matches h value x = true).
Proof.
  intros W. destruct (count_of_value_spec (Z.to_nat (h_count h)) h 0 value 0 (ok_filled h W)) as [C1 C2].
  rewrite <- items_vals in C1, C2 by done. split; [exact C1|]. eexists; split; [exact C2|].
  rewrite existsb_exists. by setoid_rewrite list_elem_of_In.
Qed.

(** ** Equality *)

(** A comparison of the low halves of two addresses. *)
Definition low_half : compare_fn :=
  mkCompare 4096 (fun a b _ => of_comparison (Z.compare (a mod 2 ^ 32) (b mod 2 ^ 32))).

(** A heap created with that comparison and given one value. *)
Definition singleton (v : Z) : result (CFBinaryHeap * list event) :=
  '(h, _) ← CFBinaryHeapCreate (Some (mkCallBacks None false (Some low_half))) None;
  CFBinaryHeapAddValue h v.

Theorem equal_inverts_comparison :
  exists h1 h2 h3,
    singleton 7 = Ok (h1, []) /\ singleton (7 + 2 ^ 32) = Ok (h2, []) /\ singleton 8 = Ok (h3, []) /\
    cmp_call low_half 7 (7 + 2 ^ 32) 0 = kCFCompareEqualTo /\
    CFBinaryHeapEqual h1 h2 = Ok (false, []) /\
    cmp_call low_half 7 8 0 = kCFCompareLessThan /\
    CFBinaryHeapEqual h1 h3 = Ok (true, []).
Proof. do 3 eexists. do 3 (split; [reflexivity|]). repeat split; reflexivity. Qed.

(** ** A concrete heap *)

(** The values 2, 5 and 3 in four buckets, ordered as addresses. *)
Definition three_values : CFBinaryHeap :=
  mkHeap 3 4 (mkCallBacks None false None) 0 [Some 2; Some 5; Some 3; None] kCFBinaryHeapMutable.

Lemma three_values_ok : heap_ok three_values.
Proof.
  split; cbn; [lia|done| |].
  - intros i Hi. do 3 (destruct i as [|i]; [done|]). cbn in Hi. lia.
  - intros i Hi. do 3 (destruct i as [|i]; [done|]). cbn in Hi. lia.
Qed.

Lemma add_value_witness_heap :
  exists h', CFBinaryHeapAddValue three_values 1 = Ok (h', retain_events (h_callbacks three_values) [1]) /\
    heap_ok h' /\ same_kind three_values h' /\ h_count h' = h_count three_values + 1 /\
    items h' ≡ₚ stored (h_callbacks three_values) 1 :: items three_values.
Proof. apply (add_value_refines three_values 1 (HO := pointer_order false 0)); [exact three_values_ok|done|cbn; lia]. Defined.

Lemma remove_minimum_witness :
  exists h' m, CFBinaryHeapGetMinimum three_values = Ok m /\
    CFBinaryHeapRemoveMinimumValue three_values = Ok (h', release_events (h_callbacks three_values) [m]) /\
    heap_ok h' /\ same_kind three_values h' /\ h_count h' = h_count three_values - 1 /\
    items three_values ≡ₚ m :: items h' /\
    forall x, x ∈ items three_values -> after (h_callbacks three_values) (h_info three_values) m x = false.
Proof. apply (remove_minimum_refines three_values (HO := pointer_order false 0)); [exact three_values_ok|cbn; lia]. Defined.

Lemma get_values_witness :
  exists vs, CFBinaryHeapGetValues three_values [0; 0; 0] =
      Ok (vs ++ drop (length vs) [0; 0; 0],
          retain_events (h_callbacks three_values) (items three_values) ++ release_events (h_callbacks three_values) vs) /\
    vs ≡ₚ stored (h_callbacks three_values) <$> items three_values /\
    sorted (h_callbacks three_values) (h_info three_values) vs.
Proof.
  apply (get_values_sorts three_values [0; 0; 0] (HO := pointer_order false 0)); [exact three_values_ok|cbn; lia|cbn; lia].
Defined.

Lemma apply_function_witness :
  exists vs, CFBinaryHeapApplyFunction three_values =
      Ok (retain_events (h_callbacks three_values) (items three_values) ++ visit_events (h_callbacks three_values) vs) /\
    vs ≡ₚ stored (h_callbacks three_values) <$> items three_values /\
    sorted (h_callbacks three_values) (h_info three_values) vs.
Proof. apply (apply_function_in_order three_values (HO := pointer_order false 0)); [exact three_values_ok|cbn; lia]. Defined.

Lemma count_and_contains_witness :
  CFBinaryHeapGetCountOfValue three_values 5 =
    Ok (Z.of_nat (length (filter (fun x => matches three_values 5 x = true) (items three_values)))) /\
  exists b, CFBinaryHeapContainsValue three_values 5 = Ok b /\
    (b = true <-> exists x, x ∈ items three_values /\ matches three_values 5 x = true).
Proof. apply count_and_contains. exact three_values_ok. Defined.

End BinaryHeap.
