(* ===== verification/Doubles.v ===== *)
(** * Whole numbers held in doubles

    A [CFAbsoluteTime] is a double.  For whole seconds every sum, difference and product of
    such doubles is the whole number nearest to the exact one among those a double can
    hold, and the quotients are only used through [floor].  Rounding is to nearest, ties
    to even, with 53 bits (24 for a [float]); infinities and subnormal numbers do not
    occur.  Below 2^53 nothing is lost, and neither is it by the floor of a quotient. *)

From stdpp Require Import base list numbers option.
From Stdlib Require Import ZArith Lia.
From S2P Require Import Prelude.

Module Doubles.

(** The whole number nearest to [n / d], for [0 < d]. *)
Definition round_quotient (n d : Z) : Z :=
  let q := n / d in
  let r := n mod d in
  if 2 * r <? d then q else if d <? 2 * r then q + 1 else if Z.even q then q else q + 1.

(** The exponent [x] of [n / m]: [2 ^ x <= |n| / m < 2 ^ (x + 1)]. *)
Definition exponent (n m : Z) : Z :=
  let l := Z.log2 (Z.abs n) - Z.log2 m in
  if Z.abs n * 2 ^ Z.max 0 (- l) <? m * 2 ^ Z.max 0 l then l - 1 else l.

(** The floor of the number of [p] bits nearest to [n / m]. *)
Definition floor_nearest (p n m : Z) : Z :=
  if n =? 0 then 0
  else
    let e := exponent n m - (p - 1) in
    if 0 <=? e then round_quotient n (m * 2 ^ e) * 2 ^ e
    else round_quotient (n * 2 ^ (- e)) m / 2 ^ (- e).

(** The double, and the float, nearest to a whole number. *)
Definition dbl (z : Z) : Z := floor_nearest 53 z 1.
Definition flt (z : Z) : Z := floor_nearest 24 z 1.

(** [floor(d / m)] on doubles. *)
Definition floor_div (d m : Z) : Z := floor_nearest 53 d m.

(** Conversions to an integer type are undefined out of its range. *)
Definition to_int32 (z : Z) : result Z := if (- 2 ^ 31 <=? z) && (z <? 2 ^ 31) then Ok z else Undef.
Definition to_int64 (z : Z) : result Z := if (- 2 ^ 63 <=? z) && (z <? 2 ^ 63) then Ok z else Undef.

(** ** What is exact *)

Lemma round_quotient_whole (n : Z) : round_quotient n 1 = n.
Proof. unfold round_quotient. by rewrite Z.div_1_r, Z.mod_1_r. Qed.

Lemma round_quotient_near (n d : Z) : 0 < d -> n / d <= round_quotient n d /\ 2 * (round_quotient n d * d) <= 2 * n + d.
Proof.
  intros Hd. unfold round_quotient. pose proof (Z.div_mod n d ltac:(lia)). pose proof (Z.mod_pos_bound n d Hd).
  destruct (Z.ltb_spec (2 * (n mod d)) d); [nia|]. destruct (Z.ltb_spec d (2 * (n mod d))); [nia|]. destruct (Z.even _); nia.
Qed.

Lemma exponent_whole (z : Z) : z <> 0 -> exponent z 1 = Z.log2 (Z.abs z).
Proof.
  intros Hz. unfold exponent. change (Z.log2 1) with 0. rewrite Z.sub_0_r. pose proof (Z.log2_nonneg (Z.abs z)).
  pose proof (Z.log2_spec (Z.abs z) ltac:(lia)) as [L _]. rewrite (Z.max_l 0 (- _)), Z.max_r, Z.pow_0_r by lia.
  by rewrite (proj2 (Z.ltb_ge _ _)) by lia.
Qed.

Lemma floor_nearest_exact (p z : Z) : 0 < p -> Z.abs z < 2 ^ p -> floor_nearest p z 1 = z.
Proof.
  intros Hp Hz. unfold floor_nearest. destruct (Z.eqb_spec z 0) as [->|N]; [done|]. rewrite exponent_whole by done.
  pose proof (Z.log2_lt_pow2 (Z.abs z) p ltac:(lia)) as L. destruct (Z.leb_spec 0 (Z.log2 (Z.abs z) - (p - 1))) as [G|G].
  - replace (Z.log2 (Z.abs z) - (p - 1)) with 0 by lia. rewrite Z.pow_0_r, !Z.mul_1_r. apply round_quotient_whole.
  - rewrite round_quotient_whole. apply Z.div_mul. pose proof (Z.pow_pos_nonneg 2 (- (Z.log2 (Z.abs z) - (p - 1))) ltac:(lia) ltac:(lia)). lia.
Qed.

Lemma dbl_exact (z : Z) : Z.abs z < 2 ^ 53 -> dbl z = z.
Proof. by apply floor_nearest_exact. Qed.

Lemma flt_exact (z : Z) : Z.abs z < 2 ^ 24 -> flt z = z.
Proof. by apply floor_nearest_exact. Qed.

Lemma exponent_low (n m : Z) : n <> 0 -> 0 < m ->
  (0 <= exponent n m -> m * 2 ^ exponent n m <= Z.abs n) /\ (exponent n m < 0 -> m <= Z.abs n * 2 ^ (- exponent n m)).
Proof.
  intros Hn Hm. unfold exponent. pose proof (Z.log2_spec (Z.abs n) ltac:(lia)) as [Ln _]. pose proof (Z.log2_spec m Hm) as [_ Lm].
  pose proof (Z.log2_nonneg (Z.abs n)). pose proof (Z.log2_nonneg m). set (a := Z.abs n) in *. assert (Ha : 0 < a) by lia. clearbody a.
  set (la := Z.log2 a) in *. set (lm := Z.log2 m) in *. clearbody la lm. set (l := la - lm).
  destruct (Z.ltb_spec (a * 2 ^ Z.max 0 (- l)) (m * 2 ^ Z.max 0 l)) as [B|B].
  - split; intros Hx.
    + assert (m * 2 ^ (l - 1) < 2 ^ Z.succ lm * 2 ^ (l - 1)) by (apply Z.mul_lt_mono_pos_r; [apply Z.pow_pos_nonneg; lia|done]).
      rewrite <- Z.pow_add_r in * by lia. replace (Z.succ lm + (l - 1)) with la in * by (unfold l; lia). lia.
    + assert (E : 2 ^ Z.succ lm = 2 ^ la * 2 ^ (- (l - 1))) by (rewrite <- Z.pow_add_r by (unfold l in *; lia); f_equal; unfold l; lia).
      assert (2 ^ la * 2 ^ (- (l - 1)) <= a * 2 ^ (- (l - 1))) by (apply Z.mul_le_mono_nonneg_r; [apply Z.pow_nonneg; lia|done]). lia.
  - split; intros Hx; [rewrite (Z.max_l 0 (- l)), Z.max_r, Z.pow_0_r in B by lia|rewrite (Z.max_r 0 (- l)), Z.max_l, Z.pow_0_r in B by lia]; lia.
Qed.

(** The error of the quotient is less than one part in [m]. *)
Lemma floor_div_exact (n m : Z) : Z.abs n < 2 ^ 53 -> 2 <= m -> floor_div n m = n / m.
Proof.
  intros Hn Hm. unfold floor_div, floor_nearest. destruct (Z.eqb_spec n 0) as [->|N]; [by rewrite Z.div_0_l by lia|].
  destruct (exponent_low n m N ltac:(lia)) as [E1 E2]. set (x := exponent n m) in *. clearbody x.
  assert (Hx : x <= 51).
  { destruct (Z.le_gt_cases x 51); [done|]. specialize (E1 ltac:(lia)).
    pose proof (Z.pow_le_mono_r 2 52 x ltac:(lia) ltac:(lia)). change (2 ^ 53) with (2 * 2 ^ 52) in Hn. nia. }
  assert (Hs : m < 2 ^ (53 - x)).
  { destruct (Z.le_gt_cases 0 x) as [P|P].
    - specialize (E1 P). replace (2 ^ 53) with (2 ^ (53 - x) * 2 ^ x) in Hn by (rewrite <- Z.pow_add_r by lia; f_equal; lia).
      pose proof (Z.pow_pos_nonneg 2 x ltac:(lia) P). nia.
    - specialize (E2 P). replace (53 - x) with (53 + - x) by lia. rewrite Z.pow_add_r by lia.
      pose proof (Z.pow_pos_nonneg 2 (- x) ltac:(lia) ltac:(lia)). nia. }
  rewrite (proj2 (Z.leb_gt 0 _)) by lia. replace (- (x - (53 - 1))) with (52 - x) by lia. set (s := 52 - x) in *.
  replace (53 - x) with (1 + s) in Hs by (unfold s; lia). rewrite Z.pow_add_r, Z.pow_1_r in Hs by lia.
  pose proof (Z.pow_pos_nonneg 2 s ltac:(lia) ltac:(lia)) as Hp. set (P := 2 ^ s) in *. clearbody P.
  destruct (round_quotient_near (n * P) m ltac:(lia)) as [Lo Hi]. set (k := round_quotient (n * P) m) in *. clearbody k.
  pose proof (Z.div_mod n m ltac:(lia)) as D. pose proof (Z.mod_pos_bound n m ltac:(lia)) as B. set (q := n / m) in *. clearbody q.
  assert (K1 : q * P <= k). { etransitivity; [|exact Lo]. apply Z.div_le_lower_bound; [lia|]. nia. }
  assert (K2 : k < (q + 1) * P) by nia.
  symmetry. apply (Z.div_unique k P q (k - q * P)); lia.
Qed.

Lemma to_int32_small (z : Z) : - 2 ^ 31 <= z < 2 ^ 31 -> to_int32 z = Ok z.
Proof. intros H. unfold to_int32. by rewrite (proj2 (Z.leb_le _ _)), (proj2 (Z.ltb_lt _ _)) by lia. Qed.

Lemma to_int64_small (z : Z) : - 2 ^ 63 <= z < 2 ^ 63 -> to_int64 z = Ok z.
Proof. intros H. unfold to_int64. by rewrite (proj2 (Z.leb_le _ _)), (proj2 (Z.ltb_lt _ _)) by lia. Qed.

(** Above 2^53 the odd numbers are lost, and a quotient can be rounded up to its ceiling. *)
Example rounds_to_even : dbl (2 ^ 53 + 1) = 2 ^ 53 /\ dbl (2 ^ 53 + 3) = 2 ^ 53 + 4 /\ dbl (- (2 ^ 53 + 1)) = - 2 ^ 53 /\
  dbl (2 ^ 55 + 5) = 2 ^ 55 + 8 /\ flt (2 ^ 24 + 1) = 2 ^ 24.
Proof. by vm_compute. Qed.

End Doubles.
