(* ===== verification/Date.v ===== *)
(** * CFDate.c: Gregorian calendar arithmetic

    Days are counted from 2001-01-01 (day 0, a Monday); an absolute year is the
    Gregorian year less 2001.  A [CFAbsoluteTime] is modelled at whole seconds, as the
    double it is: every operation rounds (Doubles.v).  The theorems on times say below
    which bound no rounding changes the result.  A time zone is a parameter: the function
    CFTimeZoneGetSecondsFromGMT computes for it.  [gdate.year - 2001] and the sums of a
    [CFGregorianUnits] wrap at 32 bits. *)

From stdpp Require Import base list numbers option.
From Stdlib Require Import ZArith Lia.
From S2P Require Import Prelude Doubles.

Module Date.
Import Doubles.

Definition kCFGregorianUnitsYears : Z := 1.
Definition kCFGregorianUnitsMonths : Z := 2.
Definition kCFGregorianUnitsDays : Z := 4.
Definition kCFGregorianUnitsHours : Z := 8.
Definition kCFGregorianUnitsMinutes : Z := 16.
Definition kCFGregorianUnitsSeconds : Z := 32.

Definition INT32_MAX : Z := 2147483647.

Record CFGregorianDate : Type := mkGDate {
  gd_year : Z; gd_month : Z; gd_day : Z; gd_hour : Z; gd_minute : Z; gd_second : Z
}.

Record CFGregorianUnits : Type := mkUnits {
  gu_years : Z; gu_months : Z; gu_days : Z; gu_hours : Z; gu_minutes : Z; gu_seconds : Z
}.

(** ** Dates *)

(** [struct __CFDate]. *)
Record CFDate : Type := CFDateCreate { date_time : Z }.

Definition CFDateGetAbsoluteTime (date : CFDate) : Z := date_time date.

Definition CFDateEqual (date1 date2 : CFDate) : bool :=
  if negb (date_time date1 =? date_time date2) then false else true.

Definition CFDateGetTimeIntervalSinceDate (date otherDate : CFDate) : Z :=
  dbl (date_time date - date_time otherDate).

Definition CFDateCompare (date otherDate : CFDate) : CFComparisonResult :=
  if date_time date <? date_time otherDate then kCFCompareLessThan
  else if date_time otherDate <? date_time date then kCFCompareGreaterThan
  else kCFCompareEqualTo.

(** ** Remainders of doubles *)

(** [floor] of a whole number is itself; the conversion goes through a [float]. *)
Definition CFDoubleModToInt (d modulus : Z) : result Z :=
  result ← to_int32 (flt (dbl (d - dbl (floor_div d modulus * modulus))));
  Ok (if result <? 0 then result + modulus else result).

Definition CFDoubleMod (d modulus : Z) : Z :=
  let result := dbl (d - dbl (floor_div d modulus * modulus)) in
  if result <? 0 then dbl (result + modulus) else result.

(** ** Month tables *)

Definition daysInMonth : list Z := [0; 31; 28; 31; 30; 31; 30; 31; 31; 30; 31; 30; 31; 0; 0; 0].
Definition daysBeforeMonth : list Z :=
  [0; 0; 31; 59; 90; 120; 151; 181; 212; 243; 273; 304; 334; 365; 0; 0].
Definition daysAfterMonth : list Z :=
  [365; 334; 306; 275; 245; 214; 184; 153; 122; 92; 61; 31; 0; 0; 0; 0].

Definition isleap (year : Z) : bool :=
  let y := Z.rem (year + 1) 400 in
  let y := if y <? 0 then - y else y in
  (0 =? Z.land y 3) && negb (100 =? y) && negb (200 =? y) && negb (300 =? y).

Definition CFDaysInMonth (month year : Z) (leap : bool) : result Z :=
  d ← aget daysInMonth month; Ok (u8 (d + Z.b2z ((2 =? month) && leap))).

Definition CFDaysBeforeMonth (month year : Z) (leap : bool) : result Z :=
  d ← aget daysBeforeMonth month; Ok (u16 (d + Z.b2z ((2 <? month) && leap))).

Definition CFDaysAfterMonth (month year : Z) (leap : bool) : result Z :=
  d ← aget daysAfterMonth month; Ok (u16 (d + Z.b2z ((month <? 2) && leap))).

(** ** Days and dates *)

Fixpoint years_back (fuel : nat) (y absolute : Z) : result (Z * Z) :=
  match fuel with
  | O => NoFuel
  | S fuel =>
    if absolute <? 0 then
      let y := y - 1 in
      d ← CFDaysAfterMonth 0 y (isleap y);
      years_back fuel y (absolute + d)
    else Ok (y, absolute)
  end.

Fixpoint years_forward (fuel : nat) (y absolute : Z) : result (Z * Z) :=
  match fuel with
  | O => NoFuel
  | S fuel =>
    ydays ← CFDaysAfterMonth 0 y (isleap y);
    if ydays <=? absolute then years_forward fuel (y + 1) (absolute - ydays)
    else Ok (y, absolute)
  end.

Fixpoint month_search (fuel : nat) (m y : Z) (leap : bool) (absolute : Z) : result Z :=
  match fuel with
  | O => NoFuel
  | S fuel =>
    before ← CFDaysBeforeMonth (m + 1) y leap;
    if before <=? absolute then month_search fuel (m + 1) y leap absolute else Ok m
  end.

(** All callers pass the three result pointers. *)
Definition CFYMDFromAbsolute (absolute : Z) : result (Z * Z * Z) :=
  let b := Z.quot absolute 146097 in
  let y := b * 400 in
  let absolute := absolute - b * 146097 in
  '(y, absolute) ← years_back 402 y absolute;
  '(y, absolute) ← years_forward 402 y absolute;
  let m := s8 (Z.quot absolute 33 + 1) in
  let leap := isleap y in
  m ← month_search 14 m y leap absolute;
  before ← CFDaysBeforeMonth m y leap;
  Ok (y, m, s8 (absolute - before + 1)).

(** [for (idx = year; idx < 0; idx++)], [n] steps. *)
Fixpoint sub_years (n : nat) (idx absolute : Z) : result Z :=
  match n with
  | O => Ok absolute
  | S n => d ← CFDaysAfterMonth 0 idx (isleap idx); sub_years n (idx + 1) (dbl (absolute - d))
  end.

Fixpoint add_years (n : nat) (idx absolute : Z) : result Z :=
  match n with
  | O => Ok absolute
  | S n => d ← CFDaysAfterMonth 0 idx (isleap idx); add_years n (idx + 1) (dbl (absolute + d))
  end.

Definition CFAbsoluteFromYMD (year month day : Z) : result Z :=
  let b := Z.quot year 400 in
  let absolute := dbl (dbl b * 146097) in
  let year := year - b * 400 in
  absolute ← (if year <? 0 then sub_years (Z.to_nat (- year)) year absolute
              else add_years (Z.to_nat year) 0 absolute);
  before ← CFDaysBeforeMonth month year (isleap year);
  Ok (dbl (absolute + (before + day - 1))).

Definition has (unitFlags unit : Z) : bool := negb (Z.land unitFlags unit =? 0).

Definition CFGregorianDateIsValid (gdate : CFGregorianDate) (unitFlags : Z) : result bool :=
  if has unitFlags kCFGregorianUnitsYears && (gd_year gdate <=? 0) then Ok false
  else if has unitFlags kCFGregorianUnitsMonths && ((gd_month gdate <? 1) || (12 <? gd_month gdate)) then Ok false
  else if has unitFlags kCFGregorianUnitsDays && ((gd_day gdate <? 1) || (31 <? gd_day gdate)) then Ok false
  else if has unitFlags kCFGregorianUnitsHours && ((gd_hour gdate <? 0) || (23 <? gd_hour gdate)) then Ok false
  else if has unitFlags kCFGregorianUnitsMinutes && ((gd_minute gdate <? 0) || (59 <? gd_minute gdate)) then Ok false
  else if has unitFlags kCFGregorianUnitsSeconds && ((gd_second gdate <? 0) || (60 <=? gd_second gdate)) then Ok false
  else if has unitFlags kCFGregorianUnitsDays && has unitFlags kCFGregorianUnitsMonths
          && has unitFlags kCFGregorianUnitsYears then
    d ← CFDaysInMonth (gd_month gdate) (s32 (gd_year gdate - 2001)) (isleap (s32 (gd_year gdate - 2001)));
    Ok (negb (d <? gd_day gdate))
  else Ok true.

(** A time zone, where the caller passes one. *)
Definition CFTimeZone : Type := Z -> Z.

Definition CFGregorianDateGetAbsoluteTime (gdate : CFGregorianDate) (tz : option CFTimeZone) : result Z :=
  d ← CFAbsoluteFromYMD (s32 (gd_year gdate - 2001)) (gd_month gdate) (gd_day gdate);
  let at_ := dbl (86400 * d) in
  let at_ := dbl (at_ + dbl (dbl (dbl (3600 * gd_hour gdate) + dbl (60 * gd_minute gdate)) + gd_second gdate)) in
  match tz with
  | None => Ok at_
  | Some offset =>
    let offset0 := offset at_ in
    let offset1 := offset (dbl (at_ - offset0)) in
    Ok (dbl (at_ - offset1))
  end.

Definition fixed_time (at_ : Z) (tz : option CFTimeZone) : Z :=
  dbl (at_ + match tz with Some offset => offset at_ | None => 0 end).

Definition CFAbsoluteTimeGetGregorianDate (at_ : Z) (tz : option CFTimeZone) : result CFGregorianDate :=
  let fixedat := fixed_time at_ tz in
  absolute ← to_int64 (floor_div fixedat 86400);
  '(year, month, day) ← CFYMDFromAbsolute absolute;
  let year := if INT32_MAX - 2001 <? year then INT32_MAX - 2001 else year in
  hour ← CFDoubleModToInt (floor_div fixedat 3600) 24;
  minute ← CFDoubleModToInt (floor_div fixedat 60) 60;
  Ok (mkGDate (s32 (year + 2001)) month day (s8 hour) (s8 minute) (CFDoubleMod fixedat 60)).

(** ** Adding units *)

(** The four loops of CFAbsoluteTimeAddGregorianUnits; [years] wraps at 32 bits. *)
Fixpoint months_down (fuel : nat) (years months : Z) : result (Z * Z) :=
  match fuel with
  | O => NoFuel
  | S fuel => if 12 <? months then months_down fuel (s32 (years + 1)) (months - 12) else Ok (years, months)
  end.

Fixpoint months_up (fuel : nat) (years months : Z) : result (Z * Z) :=
  match fuel with
  | O => NoFuel
  | S fuel => if months <? 1 then months_up fuel (s32 (years - 1)) (months + 12) else Ok (years, months)
  end.

Definition month_days (years months : Z) : result Z :=
  CFDaysInMonth months (s32 (years - 2001)) (isleap (s32 (years - 2001))).

Fixpoint days_down (fuel : nat) (years months days monthdays : Z) : result (Z * Z * Z) :=
  match fuel with
  | O => NoFuel
  | S fuel =>
    if monthdays <? days then
      let months := months + 1 in
      let '(months, years) := if 12 <? months then (months - 12, s32 (years + 1)) else (months, years) in
      let days := days - monthdays in
      monthdays ← month_days years months;
      days_down fuel years months days monthdays
    else Ok (years, months, days)
  end.

Fixpoint days_up (fuel : nat) (years months days : Z) : result (Z * Z * Z) :=
  match fuel with
  | O => NoFuel
  | S fuel =>
    if days <? 1 then
      let months := months - 1 in
      let '(months, years) := if months <? 1 then (months + 12, s32 (years - 1)) else (months, years) in
      monthdays ← month_days years months;
      days_up fuel years months (days + monthdays)
    else Ok (years, months, days)
  end.

Definition loop_fuel (n : Z) : nat := S (S (Z.to_nat (Z.abs n))).

Definition CFAbsoluteTimeAddGregorianUnits (at_ : Z) (tz : option CFTimeZone) (units : CFGregorianUnits)
  : result Z :=
  gdate ← CFAbsoluteTimeGetGregorianDate at_ tz;
  let years := s32 (gd_year gdate + gu_years units) in
  let months := s32 (gd_month gdate + gu_months units) in
  '(years, months) ← months_down (loop_fuel months) years months;
  '(years, months) ← months_up (loop_fuel months) years months;
  monthdays ← month_days years months;
  let days := if monthdays <? gd_day gdate then monthdays else gd_day gdate in
  let days := s32 (days + gu_days units) in
  '(years, months, days) ← days_down (loop_fuel days) years months days monthdays;
  '(years, months, days) ← days_up (loop_fuel days) years months days;
  candidate_at0 ← CFGregorianDateGetAbsoluteTime
    (mkGDate years (s8 months) (s8 days) (gd_hour gdate) (gd_minute gdate) (gd_second gdate)) tz;
  Ok (dbl (dbl (dbl (candidate_at0 + dbl (3600 * gu_hours units)) + dbl (60 * gu_minutes units)) + gu_seconds units)).

(** ** Parts of a date *)

Definition CFAbsoluteTimeGetDayOfWeek (at_ : Z) (tz : option CFTimeZone) : result Z :=
  absolute ← to_int64 (floor_div (fixed_time at_ tz) 86400);
  Ok (s32 (if absolute <? 0 then Z.rem (absolute + 1) 7 + 7 else Z.rem absolute 7 + 1)).

Definition CFAbsoluteTimeGetDayOfYear (at_ : Z) (tz : option CFTimeZone) : result Z :=
  absolute ← to_int64 (floor_div (fixed_time at_ tz) 86400);
  '(year, month, day) ← CFYMDFromAbsolute absolute;
  before ← CFDaysBeforeMonth month year (isleap year);
  Ok (before + day).

Definition CFAbsoluteTimeGetWeekOfYear (at_ : Z) (tz : option CFTimeZone) : result Z :=
  absolute ← to_int64 (floor_div (fixed_time at_ tz) 86400);
  '(year, month, day) ← CFYMDFromAbsolute absolute;
  absolute0101 ← CFAbsoluteFromYMD year 1 1;
  r ← CFDoubleModToInt absolute0101 7;
  let dow0101 := r + 1 in
  if (1 =? month) && (day <? 4) &&
     (((day <? 4) && (5 =? dow0101)) || ((day <? 3) && (6 =? dow0101)) || ((day <? 2) && (7 =? dow0101)))
  then Ok 53
  else
    next_year_first ←
      (if (12 =? month) && (28 <? day) then
         absolute20101 ← CFAbsoluteFromYMD (year + 1) 1 1;
         r2 ← CFDoubleModToInt absolute20101 7;
         let dow20101 := r2 + 1 in
         Ok (((28 <? day) && (4 =? dow20101)) || ((29 <? day) && (3 =? dow20101))
             || ((30 <? day) && (2 =? dow20101)))
       else Ok false);
    if (next_year_first : bool) then Ok 1
    else
      before ← CFDaysBeforeMonth month year (isleap year);
      Ok (s32 (Z.quot (before + day + Z.rem (dow0101 - 11) 7 + 2) 7 + 1)).

(** ** The Gregorian calendar, by its rules *)

Definition leap_year (g : Z) : bool :=
  (g mod 4 =? 0) && (negb (g mod 100 =? 0) || (g mod 400 =? 0)).

(** Days from 2001-01-01 to the first day of the absolute year [y]. *)
Definition year_start (y : Z) : Z :=
  365 * y + (y + 2000) / 4 - (y + 2000) / 100 + (y + 2000) / 400 - 485.

Definition year_days (y : Z) : Z := if leap_year (y + 2001) then 366 else 365.

Definition month_length (leap : bool) (m : Z) : Z :=
  if (m =? 2) then (if leap then 29 else 28)
  else if (m =? 4) || (m =? 6) || (m =? 9) || (m =? 11) then 30 else 31.

(** Days of the year before month [m], by summing the lengths. *)
Definition month_start (leap : bool) (m : Z) : Z :=
  foldr Z.add 0 (map (fun k => month_length leap (k + 1)) (below (m - 1))).

Definition valid_ymd (y m d : Z) : Prop := 1 <= m <= 12 /\ 1 <= d <= month_length (leap_year (y + 2001)) m.

Definition day_number (y m d : Z) : Z := year_start y + month_start (leap_year (y + 2001)) m + (d - 1).

Lemma month_length_bounds (leap : bool) (m : Z) : 28 <= month_length leap m <= 31.
Proof. unfold month_length. destruct (m =? 2), leap, ((m =? 4) || (m =? 6) || (m =? 9) || (m =? 11)); lia. Qed.

Lemma isleap_spec (y : Z) : isleap y = leap_year (y + 2001).
Proof.
  pose proof (Z.mod_pos_bound (y + 1) 400 ltac:(lia)) as Hr. set (r := (y + 1) mod 400) in *.
  pose proof (Z.div_mod (y + 1) 400 ltac:(lia)) as D. fold r in D. set (q := (y + 1) / 400) in *.
  assert (L : leap_year (y + 2001) = leap_year r).
  { unfold leap_year. replace (y + 2001) with (r + (100 * q + 500) * 4) by lia. rewrite Z.mod_add by lia.
    replace (r + (100 * q + 500) * 4) with (r + (4 * q + 20) * 100) by lia. rewrite Z.mod_add by lia.
    replace (r + (4 * q + 20) * 100) with (r + (q + 5) * 400) by lia. rewrite Z.mod_add by lia. done. }
  set (pos y := (0 =? Z.land y 3) && negb (100 =? y) && negb (200 =? y) && negb (300 =? y)).
  assert (C : forallb (fun r => eqb (pos r) (leap_year r)
    && eqb (pos (if r =? 0 then 0 else 400 - r)) (leap_year r)) (below 400) = true) by (vm_compute; reflexivity).
  pose proof (below_spec _ _ r C Hr) as C'. apply andb_prop in C' as [C1 C2].
  apply eqb_prop in C1, C2. rewrite L. unfold isleap. destruct (Z.lt_ge_cases (y + 1) 0) as [N|P].
  - rewrite <- C2. assert (E : Z.rem (y + 1) 400 = if r =? 0 then 0 else r - 400).
    { clear L C C1 C2. clearbody r q. destruct (Z.eqb_spec r 0); Z.quot_rem_to_equations; lia. }
    rewrite E. destruct (Z.eqb_spec r 0); [done|]. rewrite (proj2 (Z.ltb_lt (r - 400) 0)) by lia.
    by replace (- (r - 400)) with (400 - r) by lia.
  - rewrite <- C1, Z.rem_mod_nonneg by lia. fold r. by rewrite (proj2 (Z.ltb_ge r 0)) by lia.
Qed.

Lemma year_start_succ (y : Z) : year_start (y + 1) = year_start y + year_days y.
Proof.
  unfold year_start, year_days, leap_year. replace (y + 1 + 2000) with (y + 2001) by lia.
  destruct (Z.eqb_spec ((y + 2001) mod 4) 0), (Z.eqb_spec ((y + 2001) mod 100) 0),
    (Z.eqb_spec ((y + 2001) mod 400) 0); cbn [andb orb negb]; Z.div_mod_to_equations; lia.
Qed.

Lemma year_start_400 (b : Z) : year_start (b * 400) = b * 146097.
Proof. unfold year_start. Z.div_mod_to_equations; lia. Qed.

Lemma year_days_bounds (y : Z) : 365 <= year_days y <= 366.
Proof. unfold year_days. destruct (leap_year _); lia. Qed.

Lemma year_start_grows (y : Z) (k : nat) : year_start y + 365 * Z.of_nat k <= year_start (y + Z.of_nat k).
Proof.
  induction k as [|k IH]; [by rewrite Z.mul_0_r, !Z.add_0_r|].
  replace (y + Z.of_nat (S k)) with (y + Z.of_nat k + 1) by lia.
  rewrite year_start_succ. pose proof (year_days_bounds (y + Z.of_nat k)). lia.
Qed.

Lemma year_start_mono (y y' : Z) : y <= y' -> year_start y + 365 * (y' - y) <= year_start y'.
Proof.
  intros H. pose proof (year_start_grows y (Z.to_nat (y' - y))) as G.
  rewrite Z2Nat.id in G by lia. by replace (y + (y' - y)) with y' in G by lia.
Qed.

Lemma year_unique (y y' a : Z) :
  year_start y <= a < year_start (y + 1) -> year_start y' <= a < year_start (y' + 1) -> y = y'.
Proof.
  intros H H'. destruct (Z.lt_trichotomy y y') as [L|[->|L]]; [|done|].
  - pose proof (year_start_mono (y + 1) y' ltac:(lia)). lia.
  - pose proof (year_start_mono (y' + 1) y ltac:(lia)). lia.
Qed.

Lemma days_after_year (y : Z) : CFDaysAfterMonth 0 y (isleap y) = Ok (year_days y).
Proof. rewrite isleap_spec. unfold CFDaysAfterMonth, year_days. by destruct (leap_year _). Qed.

(** ** The year loops *)

Lemma years_back_spec (fuel : nat) (y a : Z) :
  (0 < fuel)%nat -> 0 <= a + 365 * (Z.of_nat fuel - 1) ->
  exists y' a', years_back fuel y a = Ok (y', a') /\ 0 <= a' <= Z.max a 366 /\
    year_start y' + a' = year_start y + a.
Proof.
  revert y a. induction fuel as [|fuel IH]; intros y a H0 Hf; cbn [years_back]; [lia|].
  destruct (Z.ltb_spec a 0) as [N|P].
  - rewrite days_after_year. cbn [mbind result_bind]. pose proof (year_days_bounds (y - 1)).
    destruct (IH (y - 1) (a + year_days (y - 1))) as (y' & a' & E & B & S); [lia|lia|].
    exists y', a'. split_and!; [done|lia|lia|]. rewrite S.
    pose proof (year_start_succ (y - 1)) as SS. replace (y - 1 + 1) with y in SS by lia. lia.
  - exists y, a. split_and!; (done || lia).
Qed.

Lemma years_forward_spec (fuel : nat) (y a : Z) :
  0 <= a < 365 * Z.of_nat fuel ->
  exists y' a', years_forward fuel y a = Ok (y', a') /\ 0 <= a' < year_days y' /\
    year_start y' + a' = year_start y + a.
Proof.
  revert y a. induction fuel as [|fuel IH]; intros y a Hf; cbn [years_forward]; [lia|].
  rewrite days_after_year. cbn [mbind result_bind]. pose proof (year_days_bounds y).
  destruct (Z.leb_spec (year_days y) a) as [L|G].
  - destruct (IH (y + 1) (a - year_days y)) as (y' & a' & E & B & S); [lia|].
    exists y', a'. split_and!; [done|lia|lia|]. rewrite year_start_succ in S. lia.
  - exists y, a. split_and!; (done || lia).
Qed.

(** ** Months of a year *)

Definition month_of_day (y : Z) (leap : bool) (a : Z) : result (Z * Z) :=
  m ← month_search 14 (s8 (Z.quot a 33 + 1)) y leap a;
  before ← CFDaysBeforeMonth m y leap;
  Ok (m, s8 (a - before + 1)).

Definition month_check (y : Z) (leap : bool) (a : Z) : bool :=
  match month_of_day y leap a with
  | Ok (m, d) => (1 <=? m) && (m <=? 12) && (1 <=? d) && (d <=? month_length leap m)
                 && (month_start leap m + (d - 1) =? a)
  | _ => false
  end.

Lemma month_of_day_spec (y : Z) (leap : bool) (a : Z) :
  0 <= a < (if leap then 366 else 365) ->
  exists m d, month_of_day y leap a = Ok (m, d) /\ 1 <= m <= 12 /\ 1 <= d <= month_length leap m /\
    month_start leap m + (d - 1) = a.
Proof.
  intros Ha.
  assert (C : forall y, forallb (month_check y true) (below 366) && forallb (month_check y false) (below 365) = true)
    by (intros; vm_compute; reflexivity).
  specialize (C y). apply andb_prop in C as [C1 C2].
  assert (K : month_check y leap a = true) by (destruct leap; [exact (below_spec _ _ a C1 Ha)|exact (below_spec _ _ a C2 Ha)]).
  clear C1 C2. unfold month_check in K. destruct (month_of_day y leap a) as [[m d]| | |]; try done.
  exists m, d. split; [done|]. lia.
Qed.

Lemma days_before_month (y m : Z) (leap : bool) :
  1 <= m <= 12 -> CFDaysBeforeMonth m y leap = Ok (month_start leap m).
Proof.
  intros Hm.
  assert (C : forall y leap, forallb (fun k => bool_decide (CFDaysBeforeMonth (k + 1) y leap = Ok (month_start leap (k + 1))))
    (below 12) = true) by (intros ? []; vm_compute; reflexivity).
  pose proof (below_spec _ _ (m - 1) (C y leap) ltac:(lia)) as K. cbn beta in K.
  apply bool_decide_eq_true_1 in K. by replace (m - 1 + 1) with m in K by lia.
Qed.

Lemma days_in_month (y m : Z) (leap : bool) :
  1 <= m <= 12 -> CFDaysInMonth m y leap = Ok (month_length leap m).
Proof.
  intros Hm.
  assert (C : forall y leap, forallb (fun k => bool_decide (CFDaysInMonth (k + 1) y leap = Ok (month_length leap (k + 1))))
    (below 12) = true) by (intros ? []; vm_compute; reflexivity).
  pose proof (below_spec _ _ (m - 1) (C y leap) ltac:(lia)) as K. cbn beta in K.
  apply bool_decide_eq_true_1 in K. by replace (m - 1 + 1) with m in K by lia.
Qed.

(** Within a year the day number determines the month and the day. *)
Lemma month_unique (leap : bool) (m d m' d' : Z) :
  1 <= m <= 12 -> 1 <= m' <= 12 -> 1 <= d <= month_length leap m -> 1 <= d' <= month_length leap m' ->
  month_start leap m + (d - 1) = month_start leap m' + (d' - 1) -> m = m' /\ d = d'.
Proof.
  intros Hm Hm' Hd Hd' E.
  assert (C : forall leap, forallb (fun i => forallb (fun j => implb (i <? j)
    (month_start leap (i + 1) + month_length leap (i + 1) <=? month_start leap (j + 1))) (below 12)) (below 12) = true)
    by (intros []; vm_compute; reflexivity).
  assert (K : forall i j, 1 <= i <= 12 -> 1 <= j <= 12 -> i < j ->
    month_start leap i + month_length leap i <= month_start leap j).
  { intros i j Hi Hj L. pose proof (below_spec _ _ (i - 1) (C leap) ltac:(lia)) as C1. cbn beta in C1.
    pose proof (below_spec _ _ (j - 1) C1 ltac:(lia)) as C2. cbn beta in C2.
    rewrite (proj2 (Z.ltb_lt (i - 1) (j - 1))) in C2 by lia. cbn [implb] in C2.
    replace (i - 1 + 1) with i in C2 by lia. replace (j - 1 + 1) with j in C2 by lia. lia. }
  destruct (Z.lt_trichotomy m m') as [L|[->|L]]; [|lia|].
  - pose proof (K m m' Hm Hm' L). lia.
  - pose proof (K m' m Hm' Hm L). lia.
Qed.

Lemma month_end (leap : bool) (m d : Z) :
  1 <= m <= 12 -> 1 <= d <= month_length leap m -> 0 <= month_start leap m + (d - 1) < (if leap then 366 else 365).
Proof.
  intros Hm Hd.
  assert (C : forall leap, forallb (fun k => (0 <=? month_start leap (k + 1)) &&
    (month_start leap (k + 1) + month_length leap (k + 1) <=? (if leap then 366 else 365))) (below 12) = true)
    by (intros []; vm_compute; reflexivity).
  pose proof (below_spec _ _ (m - 1) (C leap) ltac:(lia)) as K. cbn beta in K.
  replace (m - 1 + 1) with m in K by lia. lia.
Qed.

(** ** Days to dates and back *)

Lemma day_number_in_year (y m d : Z) :
  valid_ymd y m d -> year_start y <= day_number y m d < year_start (y + 1).
Proof.
  intros [Hm Hd]. pose proof (month_end _ m d Hm Hd). rewrite year_start_succ.
  unfold day_number, year_days in *. destruct (leap_year (y + 2001)); lia.
Qed.

Lemma day_number_inj (y m d y' m' d' : Z) :
  valid_ymd y m d -> valid_ymd y' m' d' -> day_number y m d = day_number y' m' d' -> (y, m, d) = (y', m', d').
Proof.
  intros V V' E. pose proof (day_number_in_year _ _ _ V) as B. pose proof (day_number_in_year _ _ _ V') as B'.
  rewrite E in B. pose proof (year_unique _ _ _ B B') as <-. unfold day_number in E. destruct V, V'.
  destruct (month_unique (leap_year (y + 2001)) m d m' d') as [-> ->]; [done|done|done|done|lia|done].
Qed.

Lemma ymd_from_absolute_spec (a : Z) :
  exists y m d, CFYMDFromAbsolute a = Ok (y, m, d) /\ valid_ymd y m d /\ day_number y m d = a.
Proof.
  unfold CFYMDFromAbsolute. set (b := Z.quot a 146097).
  assert (Hr : - 146097 < a - b * 146097 < 146097) by (subst b; Z.quot_rem_to_equations; lia).
  destruct (years_back_spec 402 (b * 400) (a - b * 146097)) as (y1 & a1 & -> & B1 & S1); [lia|lia|].
  cbn [mbind result_bind]. destruct (years_forward_spec 402 y1 a1) as (y & a2 & -> & B2 & S2); [lia|].
  cbn [mbind result_bind]. rewrite isleap_spec.
  destruct (month_of_day_spec y (leap_year (y + 2001)) a2) as (m & d & E & Hm & Hd & S); [exact B2|].
  unfold month_of_day in E. apply bind_Ok in E as (m' & E1 & E). apply bind_Ok in E as (before & E2 & E).
  injection E as -> <-. rewrite E1. cbn [mbind result_bind]. rewrite E2. cbn [mbind result_bind].
  exists y, m. eexists. split; [reflexivity|]. split; [by split|]. unfold day_number.
  rewrite year_start_400 in S1. lia.
Qed.

Lemma sub_years_spec (n : nat) (idx abs : Z) : Z.abs abs + 366 * Z.of_nat n < 2 ^ 53 ->
  sub_years n idx abs = Ok (abs - (year_start (idx + Z.of_nat n) - year_start idx)).
Proof.
  revert idx abs. induction n as [|n IH]; intros idx abs Hb; cbn [sub_years].
  { f_equal. rewrite Z.add_0_r. lia. }
  rewrite days_after_year. cbn [mbind result_bind]. pose proof (year_days_bounds idx). rewrite dbl_exact, IH, year_start_succ by lia.
  replace (idx + 1 + Z.of_nat n) with (idx + Z.of_nat (S n)) by lia. f_equal. lia.
Qed.

Lemma add_years_spec (n : nat) (idx abs : Z) : Z.abs abs + 366 * Z.of_nat n < 2 ^ 53 ->
  add_years n idx abs = Ok (abs + (year_start (idx + Z.of_nat n) - year_start idx)).
Proof.
  revert idx abs. induction n as [|n IH]; intros idx abs Hb; cbn [add_years].
  { f_equal. rewrite Z.add_0_r. lia. }
  rewrite days_after_year. cbn [mbind result_bind]. pose proof (year_days_bounds idx). rewrite dbl_exact, IH, year_start_succ by lia.
  replace (idx + 1 + Z.of_nat n) with (idx + Z.of_nat (S n)) by lia. f_equal. lia.
Qed.

Lemma year_start_shift (y b : Z) : year_start (y + b * 400) = year_start y + b * 146097.
Proof. unfold year_start. Z.div_mod_to_equations; lia. Qed.

Lemma leap_year_shift (y b : Z) : leap_year (y + b * 400) = leap_year y.
Proof.
  unfold leap_year. rewrite Z.mod_add by lia. replace (y + b * 400) with (y + (100 * b) * 4) by lia.
  rewrite Z.mod_add by lia. replace (y + (100 * b) * 4) with (y + (4 * b) * 100) by lia.
  by rewrite Z.mod_add by lia.
Qed.

(** Years whose days a double counts exactly. *)
Definition max_year : Z := 2 ^ 43.

Lemma year_start_bound (y : Z) : Z.abs y <= max_year -> Z.abs (year_start y) <= 2 ^ 52.
Proof. intros H. unfold max_year in H. unfold year_start. Z.div_mod_to_equations; lia. Qed.

Lemma absolute_from_ymd_spec (y m d : Z) :
  1 <= m <= 12 -> Z.abs y <= max_year -> Z.abs d <= 128 -> CFAbsoluteFromYMD y m d = Ok (day_number y m d).
Proof.
  intros Hm By Bd. pose proof (year_start_bound y By) as BY. unfold max_year in By. unfold CFAbsoluteFromYMD.
  set (b := Z.quot y 400). set (r := y - b * 400).
  assert (Br : Z.abs b <= 2 ^ 35 /\ Z.abs r < 400) by (subst r b; Z.quot_rem_to_equations; lia). destruct Br as [Bb Br].
  rewrite (dbl_exact b), (dbl_exact (b * 146097)) by lia.
  assert (Y : year_start y = year_start r + b * 146097).
  { rewrite <- year_start_shift. f_equal. lia. }
  assert (L : isleap r = leap_year (y + 2001)).
  { rewrite isleap_spec. rewrite <- (leap_year_shift _ b). f_equal. lia. }
  assert (Eq : (if r <? 0 then sub_years (Z.to_nat (- r)) r (b * 146097) else add_years (Z.to_nat r) 0 (b * 146097))
    = Ok (year_start y)).
  { destruct (Z.ltb_spec r 0).
    - rewrite sub_years_spec, Z2Nat.id by lia. replace (r + - r) with 0 by lia.
      change (year_start 0) with 0. f_equal. lia.
    - rewrite add_years_spec, Z2Nat.id by lia. change (0 + r) with r. change (year_start 0) with 0. f_equal. lia. }
  rewrite Eq. cbn [mbind result_bind]. rewrite L, days_before_month by done. cbn [mbind result_bind].
  assert (Bm : 0 <= month_start (leap_year (y + 2001)) m <= 366).
  { pose proof (month_end (leap_year (y + 2001)) m 1 Hm). assert (1 <= month_length (leap_year (y + 2001)) m)
      by (unfold month_length; repeat case_match; lia). destruct (leap_year (y + 2001)); lia. }
  f_equal. unfold day_number. rewrite dbl_exact by lia. lia.
Qed.

Lemma year_near (y a : Z) : year_start y <= a < year_start (y + 1) -> - Z.abs a - 365 < 365 * y <= Z.abs a.
Proof.
  intros H. destruct (Z.lt_ge_cases y 0).
  - pose proof (year_start_mono (y + 1) 0 ltac:(lia)) as M. change (year_start 0) with 0 in M. lia.
  - pose proof (year_start_mono 0 y ltac:(lia)) as M. change (year_start 0) with 0 in M. lia.
Qed.

Lemma ymd_from_absolute_inj (y m d : Z) :
  valid_ymd y m d -> CFYMDFromAbsolute (day_number y m d) = Ok (y, m, d).
Proof.
  intros V. destruct (ymd_from_absolute_spec (day_number y m d)) as (y' & m' & d' & -> & V' & N).
  f_equal. by apply day_number_inj.
Qed.

Theorem ymd_bijection :
  (forall a, exists y m d, CFYMDFromAbsolute a = Ok (y, m, d) /\ valid_ymd y m d /\
     (Z.abs a < 2 ^ 51 -> CFAbsoluteFromYMD y m d = Ok a)) /\
  (forall y m d, valid_ymd y m d -> Z.abs y <= max_year ->
     exists a, CFAbsoluteFromYMD y m d = Ok a /\ a = day_number y m d /\ CFYMDFromAbsolute a = Ok (y, m, d)).
Proof.
  split.
  - intros a. destruct (ymd_from_absolute_spec a) as (y & m & d & E & V & N). exists y, m, d.
    split; [done|]. split; [done|]. intros Ha. pose proof (day_number_in_year _ _ _ V) as B. rewrite N in B. apply year_near in B.
    destruct V as [Vm Vd]. pose proof (month_length_bounds (leap_year (y + 2001)) m).
    rewrite absolute_from_ymd_spec, N; [done|done|unfold max_year; lia|lia].
  - intros y m d [Vm Vd] Hy. pose proof (month_length_bounds (leap_year (y + 2001)) m).
    exists (day_number y m d). split; [apply absolute_from_ymd_spec; [done|done|lia]|]. split; [done|].
    by apply ymd_from_absolute_inj.
Qed.

Theorem leap_rule (y : Z) : isleap y = leap_year (y + 2001).
Proof. exact (isleap_spec y). Qed.

(** ** Times and Gregorian dates *)

Definition valid_gdate (g : CFGregorianDate) : Prop :=
  valid_ymd (gd_year g - 2001) (gd_month g) (gd_day g) /\
  0 <= gd_hour g < 24 /\ 0 <= gd_minute g < 60 /\ 0 <= gd_second g < 60.

(** Seconds of a Gregorian date, without a time zone. *)
Definition gdate_seconds (g : CFGregorianDate) : Z :=
  86400 * day_number (gd_year g - 2001) (gd_month g) (gd_day g)
  + 3600 * gd_hour g + 60 * gd_minute g + gd_second g.

(** A time zone that has one offset. *)
Definition fixed_zone (tz : option CFTimeZone) (k : Z) : Prop :=
  match tz with None => k = 0 | Some offset => forall t, offset t = k end.

(** Years for which [gdate.year - 2001] and [year + 2001] do not overflow. *)
Definition year_fits (y : Z) : Prop := in_s 32 y /\ in_s 32 (y - 2001).

Lemma s32_small (z : Z) : - 2147483648 <= z <= 2147483647 -> s32 z = z.
Proof. intros. apply swrap_small; [lia|]. unfold in_s. change (2 ^ (32 - 1)) with 2147483648. lia. Qed.

Lemma s8_small (z : Z) : - 128 <= z <= 127 -> s8 z = z.
Proof. intros. apply swrap_small; [lia|]. unfold in_s. change (2 ^ (8 - 1)) with 128. lia. Qed.

Lemma year_fits_bounds (y : Z) : year_fits y <-> - 2147481647 <= y <= 2147483647.
Proof. unfold year_fits, in_s. change (2 ^ (32 - 1)) with 2147483648. lia. Qed.

Lemma fixed_time_zone (tz : option CFTimeZone) (k at_ : Z) :
  fixed_zone tz k -> Z.abs (at_ + k) < 2 ^ 52 -> fixed_time at_ tz = at_ + k.
Proof. unfold fixed_time. intros Hz Hb. destruct tz; cbn in Hz; [rewrite Hz|subst k]; apply dbl_exact; lia. Qed.

(** The number of the day, as the code converts it. *)
Lemma day_of_time (x : Z) : Z.abs x < 2 ^ 52 -> to_int64 (floor_div x 86400) = Ok (x / 86400).
Proof. intros H. rewrite floor_div_exact by lia. apply to_int64_small. Z.div_mod_to_equations; lia. Qed.

Lemma double_mod_to_int (d n : Z) : 2 <= n <= 60 -> Z.abs d < 2 ^ 52 ->
  CFDoubleModToInt d n = Ok (d mod n) /\ CFDoubleMod d n = d mod n.
Proof.
  intros Hn Hd. unfold CFDoubleModToInt, CFDoubleMod. rewrite floor_div_exact by lia.
  pose proof (Z.div_mod d n ltac:(lia)). pose proof (Z.mod_pos_bound d n ltac:(lia)). rewrite (dbl_exact (d / n * n)) by lia.
  replace (d - d / n * n) with (d mod n) by lia. rewrite dbl_exact, flt_exact, to_int32_small by lia. cbn [mbind result_bind].
  by rewrite (proj2 (Z.ltb_ge (d mod n) 0)) by lia.
Qed.

Lemma gdate_get_time (g : CFGregorianDate) (tz : option CFTimeZone) (k : Z) :
  fixed_zone tz k -> 1 <= gd_month g <= 12 -> Z.abs (gd_day g) <= 128 -> year_fits (gd_year g) ->
  0 <= gd_hour g < 24 -> 0 <= gd_minute g < 60 -> 0 <= gd_second g < 60 ->
  Z.abs (86400 * day_number (gd_year g - 2001) (gd_month g) (gd_day g)) < 2 ^ 52 -> Z.abs k < 2 ^ 51 ->
  CFGregorianDateGetAbsoluteTime g tz = Ok (gdate_seconds g - k).
Proof.
  intros Hz Hm Hd Hy Hh Hmi Hs Hb Hk. apply year_fits_bounds in Hy. unfold CFGregorianDateGetAbsoluteTime.
  rewrite s32_small by lia. rewrite absolute_from_ymd_spec by (done || (unfold max_year; lia)). cbn [mbind result_bind].
  unfold gdate_seconds. rewrite !(dbl_exact (3600 * _)), !(dbl_exact (60 * _)) by lia.
  rewrite (dbl_exact (_ + _ * gd_minute g)), (dbl_exact (_ + gd_second g)), (dbl_exact (86400 * _)), (dbl_exact (86400 * _ + _)) by lia.
  destruct tz as [f|]; cbn in Hz; [rewrite !Hz, dbl_exact by lia|rewrite Hz]; f_equal; lia.
Qed.

Lemma time_get_gdate (t k : Z) (tz : option CFTimeZone) (y m d : Z) :
  fixed_zone tz k -> Z.abs (t + k) < 2 ^ 52 -> CFYMDFromAbsolute ((t + k) / 86400) = Ok (y, m, d) -> year_fits (y + 2001) ->
  CFAbsoluteTimeGetGregorianDate t tz =
    Ok (mkGDate (y + 2001) m d ((t + k) mod 86400 / 3600) ((t + k) mod 3600 / 60) ((t + k) mod 60)).
Proof.
  intros Hz Hb Eq Hy. apply year_fits_bounds in Hy. unfold CFAbsoluteTimeGetGregorianDate.
  rewrite (fixed_time_zone tz k) by done. rewrite day_of_time by done. cbn [mbind result_bind]. rewrite Eq. cbn [mbind result_bind].
  unfold INT32_MAX. rewrite (proj2 (Z.ltb_ge _ y)) by lia. rewrite s32_small by lia. rewrite !floor_div_exact by lia.
  destruct (double_mod_to_int ((t + k) / 3600) 24) as [-> _]; [lia|Z.div_mod_to_equations; lia|].
  destruct (double_mod_to_int ((t + k) / 60) 60) as [-> _]; [lia|Z.div_mod_to_equations; lia|].
  destruct (double_mod_to_int (t + k) 60) as [_ ->]; [lia|lia|]. cbn [mbind result_bind].
  set (x := t + k). rewrite !s8_small by (Z.div_mod_to_equations; lia).
  do 2 f_equal; Z.div_mod_to_equations; lia.
Qed.

(** The year of a time below 2^51 seconds fits a date. *)
Lemma year_of_seconds (y m d D : Z) : valid_ymd y m d -> day_number y m d = D -> Z.abs D <= 2 ^ 36 -> year_fits (y + 2001).
Proof.
  intros V N B. pose proof (day_number_in_year _ _ _ V) as Y. rewrite N in Y. apply year_near in Y. apply year_fits_bounds. lia.
Qed.

(** C36. In a time zone with one offset, for a valid date at whole seconds that is less than 2^51
    seconds (about 71 million years) from 2001 and an offset below 2^51, CFGregorianDateGetAbsoluteTime
    is the number of seconds of the date less the offset, and CFAbsoluteTimeGetGregorianDate gives the
    date back: none of the roundings of the double arithmetic changes a result. *)
Theorem gregorian_roundtrip (g : CFGregorianDate) (tz : option CFTimeZone) (k : Z) :
  fixed_zone tz k -> valid_gdate g -> Z.abs (gdate_seconds g) < 2 ^ 51 -> Z.abs k < 2 ^ 51 ->
  exists t, CFGregorianDateGetAbsoluteTime g tz = Ok t /\ t = gdate_seconds g - k /\
    CFAbsoluteTimeGetGregorianDate t tz = Ok g.
Proof.
  intros Hz (V & Hh & Hmi & Hs) Hb Hk. exists (gdate_seconds g - k).
  set (D := day_number (gd_year g - 2001) (gd_month g) (gd_day g)).
  assert (Ed : gdate_seconds g = 86400 * D + (3600 * gd_hour g + 60 * gd_minute g + gd_second g))
    by (unfold gdate_seconds; fold D; lia).
  assert (BD : Z.abs (86400 * D) < 2 ^ 52) by lia.
  pose proof (year_of_seconds _ _ _ D V eq_refl ltac:(lia)) as Hy. replace (gd_year g - 2001 + 2001) with (gd_year g) in Hy by lia.
  pose proof (month_length_bounds (leap_year (gd_year g - 2001 + 2001)) (gd_month g)) as ML. destruct (V) as [Vm Vd].
  split; [apply gdate_get_time; try done; lia|]. split; [done|].
  assert (Eq : (gdate_seconds g - k + k) = gdate_seconds g) by lia.
  rewrite (time_get_gdate _ k _ (gd_year g - 2001) (gd_month g) (gd_day g)); [|done|lia| |].
  - rewrite Eq, Ed. clear Eq Ed Hb BD Hy ML V Vm Vd. clearbody D. destruct g as [yy mm dd h mi s]. cbn in *.
    f_equal. f_equal; Z.div_mod_to_equations; lia.
  - rewrite Eq, Ed. replace ((86400 * D + _) / 86400) with D by (Z.div_mod_to_equations; lia).
    by apply ymd_from_absolute_inj.
  - by replace (gd_year g - 2001 + 2001) with (gd_year g) by lia.
Qed.

(** Far beyond that bound, where doubles are eight seconds apart, the second is lost. *)
Theorem roundtrip_loses_seconds :
  exists t, CFGregorianDateGetAbsoluteTime (mkGDate 2000000000 1 1 0 0 1) None = Ok t /\
    CFAbsoluteTimeGetGregorianDate t None = Ok (mkGDate 2000000000 1 1 0 0 0).
Proof. exists 63113840854473600. split; vm_compute; reflexivity. Qed.

(** ** Adding units *)

Lemma months_down_spec (fuel : nat) (y mo : Z) :
  mo <= 12 * Z.of_nat fuel -> (0 < fuel)%nat -> - 2147483648 <= y -> y + Z.max 0 mo <= 2147483647 ->
  exists y' mo', months_down fuel y mo = Ok (y', mo') /\ 12 * y' + mo' = 12 * y + mo /\
    mo' <= 12 /\ (1 <= mo -> 1 <= mo') /\ (mo <= 12 -> mo' = mo) /\ y <= y' <= y + Z.max 0 mo.
Proof.
  revert y mo. induction fuel as [|fuel IH]; intros y mo Hf H0 Hy Hb; cbn [months_down]; [lia|].
  destruct (Z.ltb_spec 12 mo).
  - rewrite s32_small by lia. destruct (IH (y + 1) (mo - 12)) as (y' & mo' & E & S & B1 & B2 & B3 & B4); [lia..|].
    exists y', mo'. split; [done|]. lia.
  - exists y, mo. split; [done|]. lia.
Qed.

Lemma months_up_spec (fuel : nat) (y mo : Z) :
  1 - mo <= 12 * (Z.of_nat fuel - 1) -> (0 < fuel)%nat -> y <= 2147483647 -> mo <= 12 ->
  - 2147483648 <= y - Z.max 0 (1 - mo) ->
  exists y' mo', months_up fuel y mo = Ok (y', mo') /\ 12 * y' + mo' = 12 * y + mo /\ 1 <= mo' <= 12 /\
    y - Z.max 0 (1 - mo) <= y' <= y.
Proof.
  revert y mo. induction fuel as [|fuel IH]; intros y mo Hf H0 Hy Hm Hb; cbn [months_up]; [lia|].
  destruct (Z.ltb_spec mo 1).
  - rewrite s32_small by lia. destruct (IH (y - 1) (mo + 12)) as (y' & mo' & E & S & B); [lia..|].
    exists y', mo'. split; [done|]. lia.
  - exists y, mo. split; [done|]. lia.
Qed.

Definition next_month (y m : Z) : Z * Z := if 12 <? m + 1 then (y + 1, m + 1 - 12) else (y, m + 1).

Lemma month_start_succ (leap : bool) (m : Z) :
  1 <= m <= 11 -> month_start leap (m + 1) = month_start leap m + month_length leap m.
Proof.
  intros Hm.
  assert (C : forall leap, forallb (fun k => month_start leap (k + 1 + 1) =?
    month_start leap (k + 1) + month_length leap (k + 1)) (below 11) = true) by (intros []; vm_compute; reflexivity).
  pose proof (below_spec _ _ (m - 1) (C leap) ltac:(lia)) as K. cbn beta in K.
  replace (m - 1 + 1) with m in K by lia. lia.
Qed.

(** The day after the last of a month is the first of the next one. *)
Lemma day_number_next (y m d : Z) :
  1 <= m <= 12 ->
  let '(y', m') := next_month y m in
  1 <= m' <= 12 /\ day_number y' m' d = day_number y m (d + month_length (leap_year (y + 2001)) m).
Proof.
  intros Hm. unfold next_month, day_number. destruct (Z.ltb_spec 12 (m + 1)).
  - split; [lia|]. assert (m = 12) as -> by lia. rewrite year_start_succ.
    change (12 + 1 - 12) with 1. unfold year_days. destruct (leap_year (y + 2001)), (leap_year (y + 1 + 2001));
      repeat match goal with
      | |- context [month_start ?l ?m] => let v := eval vm_compute in (month_start l m) in change (month_start l m) with v
      | |- context [month_length ?l ?m] => let v := eval vm_compute in (month_length l m) in change (month_length l m) with v
      end; lia.
  - split; [lia|]. rewrite month_start_succ by lia. lia.
Qed.

Lemma month_days_spec (y m : Z) :
  year_fits y -> 1 <= m <= 12 -> month_days y m = Ok (month_length (leap_year (y - 2001 + 2001)) m).
Proof.
  intros Hy Hm. apply year_fits_bounds in Hy. unfold month_days. rewrite s32_small by lia.
  rewrite days_in_month by done. by rewrite isleap_spec.
Qed.

Lemma days_down_spec (fuel : nat) (y m d : Z) :
  d <= 28 * Z.of_nat fuel -> (0 < fuel)%nat -> 1 <= m <= 12 ->
  - 2147481647 <= y -> y + Z.max 0 d <= 2147483647 ->
  exists y' m' d',
    days_down fuel y m d (month_length (leap_year (y - 2001 + 2001)) m) = Ok (y', m', d') /\
    1 <= m' <= 12 /\ d' <= month_length (leap_year (y' - 2001 + 2001)) m' /\ (1 <= d -> 1 <= d') /\
    (d <= 28 -> d' = d) /\ y <= y' <= y + Z.max 0 d /\
    day_number (y' - 2001) m' d' = day_number (y - 2001) m d.
Proof.
  revert y m d. induction fuel as [|fuel IH]; intros y m d Hf H0 Hm Hy Hb; cbn [days_down]; [lia|].
  set (md := month_length (leap_year (y - 2001 + 2001)) m).
  pose proof (month_length_bounds (leap_year (y - 2001 + 2001)) m) as Hmd. fold md in Hmd.
  destruct (Z.ltb_spec md d) as [L|G]; [|by exists y, m, d; split; [done|lia]].
  pose proof (day_number_next (y - 2001) m (d - md) Hm) as N. unfold next_month in N.
  fold md in N. replace (d - md + md) with d in N by lia.
  destruct (Z.ltb_spec 12 (m + 1)) as [L'|G']; destruct N as [Hm' N].
  - rewrite s32_small by lia. rewrite month_days_spec by (lia || (apply year_fits_bounds; lia)).
    cbn [mbind result_bind].
    destruct (IH (y + 1) (m + 1 - 12) (d - md)) as (y' & m' & d' & E & B); [lia..|].
    exists y', m', d'. split; [done|]. replace (y - 2001 + 1) with (y + 1 - 2001) in N by lia. lia.
  - rewrite month_days_spec by (lia || (apply year_fits_bounds; lia)). cbn [mbind result_bind].
    destruct (IH y (m + 1) (d - md)) as (y' & m' & d' & E & B); [lia..|].
    exists y', m', d'. split; [done|]. lia.
Qed.

Lemma days_up_spec (fuel : nat) (y m d : Z) :
  1 - d <= 28 * (Z.of_nat fuel - 1) -> (0 < fuel)%nat -> 1 <= m <= 12 ->
  d <= month_length (leap_year (y - 2001 + 2001)) m ->
  y <= 2147483647 -> - 2147481647 <= y - Z.max 0 (1 - d) ->
  exists y' m' d', days_up fuel y m d = Ok (y', m', d') /\
    1 <= m' <= 12 /\ 1 <= d' <= month_length (leap_year (y' - 2001 + 2001)) m' /\
    y - Z.max 0 (1 - d) <= y' <= y /\ day_number (y' - 2001) m' d' = day_number (y - 2001) m d.
Proof.
  revert y m d. induction fuel as [|fuel IH]; intros y m d Hf H0 Hm Hd Hy Hb; cbn [days_up]; [lia|].
  destruct (Z.ltb_spec d 1) as [L|G]; [|by exists y, m, d; split; [done|lia]].
  destruct (Z.ltb_spec (m - 1) 1) as [L'|G'].
  - assert (m = 1) as -> by lia. change (1 - 1 + 12) with 12. rewrite s32_small by lia.
    rewrite month_days_spec by (lia || (apply year_fits_bounds; lia)). cbn [mbind result_bind].
    pose proof (day_number_next (y - 1 - 2001) 12 d ltac:(lia)) as N. unfold next_month in N.
    change (12 <? 12 + 1) with true in N. cbn iota in N. change (12 + 1 - 12) with 1 in N. destruct N as [_ N].
    set (md := month_length (leap_year (y - 1 - 2001 + 2001)) 12) in *.
    assert (md = 31) by done.
    destruct (IH (y - 1) 12 (d + md)) as (y' & m' & d' & E & B); [lia|lia|lia|fold md; lia|lia|lia|].
    exists y', m', d'. split; [done|]. replace (y - 1 - 2001 + 1) with (y - 2001) in N by lia. lia.
  - rewrite month_days_spec by (lia || (apply year_fits_bounds; lia)). cbn [mbind result_bind].
    pose proof (day_number_next (y - 2001) (m - 1) d ltac:(lia)) as N. unfold next_month in N.
    replace (m - 1 + 1) with m in N by lia. rewrite (proj2 (Z.ltb_ge 12 m)) in N by lia. destruct N as [_ N].
    set (md := month_length (leap_year (y - 2001 + 2001)) (m - 1)) in *.
    pose proof (month_length_bounds (leap_year (y - 2001 + 2001)) (m - 1)) as Hmd. fold md in Hmd.
    destruct (IH y (m - 1) (d + md)) as (y' & m' & d' & E & B); [lia|lia|lia|fold md; lia|lia|lia|].
    exists y', m', d'. split; [done|]. lia.
Qed.

Lemma year_start_bound' (y : Z) : Z.abs y <= 2 ^ 30 -> Z.abs (year_start y) <= 366 * Z.abs y + 366.
Proof. intros H. unfold year_start. Z.div_mod_to_equations; lia. Qed.

(** The date reached by adding years and months: the day is clamped to the month. *)
Definition add_months (y m d years months : Z) : Z * Z * Z :=
  let M := 12 * (y + years) + (m - 1 + months) in
  let y' := M / 12 in
  let m' := M mod 12 + 1 in
  (y', m', Z.min d (month_length (leap_year (y' + 2001)) m')).

Lemma normalize_months (y m : Z) :
  Z.abs y <= 2 ^ 30 -> Z.abs m <= 2 ^ 29 ->
  exists y1 m1, months_down (loop_fuel m) y m = Ok (y1, m1) /\
    months_up (loop_fuel m1) y1 m1 = Ok ((12 * y + (m - 1)) / 12, (12 * y + (m - 1)) mod 12 + 1).
Proof.
  intros Hy Hm. change (2 ^ 30) with 1073741824 in *. change (2 ^ 29) with 536870912 in *. unfold loop_fuel.
  destruct (months_down_spec (S (S (Z.to_nat (Z.abs m)))) y m) as (y1 & m1 & E & S1 & B); [lia..|].
  exists y1, m1. split; [done|].
  destruct (months_up_spec (S (S (Z.to_nat (Z.abs m1)))) y1 m1) as (y2 & m2 & -> & S2 & B2); [lia..|].
  do 2 f_equal; Z.div_mod_to_equations; lia.
Qed.

Lemma normalize_days (y m d : Z) :
  Z.abs y <= 2 ^ 30 -> 1 <= m <= 12 -> Z.abs d <= 2 ^ 29 ->
  exists y1 m1 d1 y2 m2 d2,
    days_down (loop_fuel d) y m d (month_length (leap_year (y - 2001 + 2001)) m) = Ok (y1, m1, d1) /\
    days_up (loop_fuel d1) y1 m1 d1 = Ok (y2, m2, d2) /\
    1 <= m2 <= 12 /\ 1 <= d2 <= 31 /\ year_fits y2 /\ day_number (y2 - 2001) m2 d2 = day_number (y - 2001) m d.
Proof.
  intros Hy Hm Hd. change (2 ^ 30) with 1073741824 in *. change (2 ^ 29) with 536870912 in *. unfold loop_fuel.
  destruct (days_down_spec (S (S (Z.to_nat (Z.abs d)))) y m d) as (y1 & m1 & d1 & E1 & Hm1 & B1 & P1 & Q1 & Y1 & N1);
    [lia..|].
  destruct (days_up_spec (S (S (Z.to_nat (Z.abs d1)))) y1 m1 d1) as (y2 & m2 & d2 & E2 & Hm2 & B2 & Y2 & N2); [lia..|].
  pose proof (month_length_bounds (leap_year (y2 - 2001 + 2001)) m2).
  exists y1, m1, d1, y2, m2, d2. split_and!; try done; try lia. apply year_fits_bounds. lia.
Qed.

Theorem add_units_calendar (t k : Z) (tz : option CFTimeZone) (u : CFGregorianUnits) :
  fixed_zone tz k -> Z.abs k <= 2 ^ 40 -> Z.abs ((t + k) / 86400) <= 2 ^ 28 ->
  Z.abs (gu_years u) <= 2 ^ 26 -> Z.abs (gu_months u) <= 2 ^ 28 -> Z.abs (gu_days u) <= 2 ^ 28 ->
  Z.abs (gu_hours u) <= 2 ^ 31 -> Z.abs (gu_minutes u) <= 2 ^ 31 -> Z.abs (gu_seconds u) <= 2 ^ 40 ->
  exists y m d, CFYMDFromAbsolute ((t + k) / 86400) = Ok (y, m, d) /\
    let '(y', m', d') := add_months y m d (gu_years u) (gu_months u) in
    CFAbsoluteTimeAddGregorianUnits t tz u =
      Ok (t + 86400 * (day_number y' m' d' + gu_days u - day_number y m d)
          + 3600 * gu_hours u + 60 * gu_minutes u + gu_seconds u).
Proof.
  intros Hz Hk Ht Hy Hm Hd Hh Hmi Hs. change (2 ^ 28) with 268435456 in *. change (2 ^ 26) with 67108864 in *.
  assert (Bt : Z.abs (t + k) < 2 ^ 52) by (Z.div_mod_to_equations; lia).
  destruct (ymd_from_absolute_spec ((t + k) / 86400)) as (y & m & d & E & V & N). exists y, m, d. split; [done|].
  pose proof (day_number_in_year _ _ _ V) as B. rewrite N in B. apply year_near in B.
  destruct V as [Vm Vd]. pose proof (month_length_bounds (leap_year (y + 2001)) m) as ML.
  unfold CFAbsoluteTimeAddGregorianUnits.
  rewrite (time_get_gdate t k tz y m d); [|done|done|done|apply year_fits_bounds; lia].
  cbn [mbind result_bind gd_year gd_month gd_day gd_hour gd_minute gd_second]. rewrite !s32_small by lia.
  destruct (normalize_months (y + 2001 + gu_years u) (m + gu_months u)) as (y1 & m1 & -> & E2); [lia..|].
  cbn [mbind result_bind]. rewrite E2. cbn [mbind result_bind].
  unfold add_months. set (M := 12 * (y + 2001 + gu_years u) + (m + gu_months u - 1)) in *.
  set (M' := 12 * (y + gu_years u) + (m - 1 + gu_months u)) in *.
  assert (Ey : M / 12 = M' / 12 + 2001) by (subst M M'; Z.div_mod_to_equations; lia).
  assert (Em : M mod 12 = M' mod 12) by (subst M M'; Z.div_mod_to_equations; lia).
  assert (By : Z.abs (M / 12) <= 1000000000) by (subst M; Z.div_mod_to_equations; lia).
  rewrite Ey, Em in *. set (y' := M' / 12) in *.
  assert (Hm' : 1 <= M' mod 12 + 1 <= 12) by (pose proof (Z.mod_pos_bound M' 12 ltac:(lia)); lia).
  set (m' := M' mod 12 + 1) in *.
  rewrite month_days_spec by (done || (apply year_fits_bounds; lia)). cbn [mbind result_bind].
  replace (y' + 2001 - 2001 + 2001) with (y' + 2001) by lia.
  pose proof (month_length_bounds (leap_year (y' + 2001)) m') as ML'.
  set (ml := month_length (leap_year (y' + 2001)) m') in *.
  replace (if ml <? d then ml else d) with (Z.min d ml) by (destruct (Z.ltb_spec ml d); lia).
  rewrite s32_small by lia.
  destruct (normalize_days (y' + 2001) m' (Z.min d ml + gu_days u)) as
    (y3 & m3 & d3 & y4 & m4 & d4 & E3 & E4 & Hm4 & Hd4 & F4 & N4); [lia|done|lia|].
  replace (y' + 2001 - 2001 + 2001) with (y' + 2001) in E3 by lia. fold ml in E3.
  rewrite E3. cbn [mbind result_bind]. rewrite E4. cbn [mbind result_bind].
  assert (BD : Z.abs (day_number y' m' (Z.min d ml + gu_days u)) <= 2 ^ 35).
  { pose proof (year_start_bound' y' ltac:(lia)). pose proof (month_end (leap_year (y' + 2001)) m' 1 Hm' ltac:(lia)).
    assert (Z.abs y' <= 91000000) by (subst y' M'; Z.div_mod_to_equations; lia).
    unfold day_number. destruct (leap_year (y' + 2001)); lia. }
  replace (y' + 2001 - 2001) with y' in N4 by lia.
  rewrite !s8_small by lia. rewrite (gdate_get_time _ tz k); cbn [gd_year gd_month gd_day gd_hour gd_minute gd_second];
    [|done|done|lia|done|Z.div_mod_to_equations; lia..|rewrite N4; lia|lia].
  cbn [mbind result_bind]. unfold gdate_seconds. cbn [gd_year gd_month gd_day gd_hour gd_minute gd_second]. rewrite N4.
  assert (Es : forall X, 86400 * X + 3600 * ((t + k) mod 86400 / 3600) + 60 * ((t + k) mod 3600 / 60) + (t + k) mod 60 - k
    = t + 86400 * (X - (t + k) / 86400)) by (intros; clear; Z.div_mod_to_equations; lia).
  rewrite Es, N. pose proof (Z.div_mod (t + k) 86400 ltac:(lia)). pose proof (Z.mod_pos_bound (t + k) 86400 ltac:(lia)).
  rewrite (dbl_exact (3600 * _)), (dbl_exact (60 * _)) by lia. rewrite (dbl_exact (_ + 3600 * gu_hours u)), (dbl_exact (_ + 60 * gu_minutes u)), dbl_exact by lia.
  f_equal. unfold day_number. lia.
Qed.

(** ** Parts of a date *)

(** The ISO 8601 week of a day: the number, within its year, of the Thursday of
    the week the day is in. *)
Definition thursday (a : Z) : Z := a - a mod 7 + 3.

Definition iso_week (a week : Z) : Prop :=
  exists y, year_start y <= thursday a < year_start (y + 1) /\ week = (thursday a - year_start y) / 7 + 1.

Lemma day_of_week_mod (a : Z) : (if a <? 0 then Z.rem (a + 1) 7 + 7 else Z.rem a 7 + 1) = a mod 7 + 1.
Proof. destruct (Z.ltb_spec a 0); Z.quot_rem_to_equations; Z.div_mod_to_equations; lia. Qed.

Theorem day_of_week_and_year (t k : Z) (tz : option CFTimeZone) :
  fixed_zone tz k -> Z.abs (t + k) < 2 ^ 52 ->
  let a := (t + k) / 86400 in
  CFAbsoluteTimeGetDayOfWeek t tz = Ok (a mod 7 + 1) /\
  exists y, year_start y <= a < year_start (y + 1) /\
    CFAbsoluteTimeGetDayOfYear t tz = Ok (a - year_start y + 1).
Proof.
  intros Hz Hb. cbv zeta. split.
  - unfold CFAbsoluteTimeGetDayOfWeek. rewrite (fixed_time_zone tz k), day_of_time by done. cbn [mbind result_bind].
    rewrite day_of_week_mod. f_equal. apply s32_small. pose proof (Z.mod_pos_bound ((t + k) / 86400) 7 ltac:(lia)). lia.
  - unfold CFAbsoluteTimeGetDayOfYear. rewrite (fixed_time_zone tz k), day_of_time by done. cbn [mbind result_bind].
    destruct (ymd_from_absolute_spec ((t + k) / 86400)) as (y & m & d & -> & V & N). exists y.
    rewrite <- N. split; [by apply day_number_in_year|]. cbn [mbind result_bind].
    rewrite days_before_month, isleap_spec by apply V. cbn [mbind result_bind]. f_equal. unfold day_number. lia.
Qed.

(** The week computation on a year with given leapness whose first day is weekday
    [j] (Monday = 0) and a day of the year [a]; [None] stands for the last week of
    the year before. *)
Definition week_ref (leap : bool) (j a : Z) : option Z :=
  let t := a - (j + a) mod 7 + 3 in
  let len := if leap then 366 else 365 in
  if t <? 0 then None else Some (if t <? len then t / 7 + 1 else (t - len) / 7 + 1).

Definition week_code (leap : bool) (j month day : Z) : Z :=
  let dow0101 := j + 1 in
  if (1 =? month) && (day <? 4) &&
     (((day <? 4) && (5 =? dow0101)) || ((day <? 3) && (6 =? dow0101)) || ((day <? 2) && (7 =? dow0101)))
  then 53
  else
    let dow20101 := (j + (if leap then 366 else 365)) mod 7 + 1 in
    if (12 =? month) && (28 <? day) &&
       (((28 <? day) && (4 =? dow20101)) || ((29 <? day) && (3 =? dow20101)) || ((30 <? day) && (2 =? dow20101)))
    then 1
    else s32 (Z.quot (month_start leap month + day + Z.rem (dow0101 - 11) 7 + 2) 7 + 1).

Definition week_check (leap : bool) (j m d : Z) : bool :=
  implb (d <=? month_length leap m)
    (week_code leap j m d =? default 53 (week_ref leap j (month_start leap m + (d - 1)))).

Lemma week_table (leap : bool) (j m d : Z) :
  0 <= j < 7 -> 1 <= m <= 12 -> 1 <= d <= month_length leap m ->
  week_code leap j m d = default 53 (week_ref leap j (month_start leap m + (d - 1))).
Proof.
  intros Hj Hm Hd. pose proof (month_length_bounds leap m).
  assert (C : forall leap, forallb (fun j => forallb (fun m => forallb (fun d => week_check leap j (m + 1) (d + 1))
    (below 31)) (below 12)) (below 7) = true) by (intros []; vm_compute; reflexivity).
  pose proof (below_spec _ _ j (C leap) Hj) as C1. cbn beta in C1.
  pose proof (below_spec _ _ (m - 1) C1 ltac:(lia)) as C2. cbn beta in C2.
  pose proof (below_spec _ _ (d - 1) C2 ltac:(lia)) as C3. cbn beta in C3. clear C C1 C2.
  replace (m - 1 + 1) with m in C3 by lia. replace (d - 1 + 1) with d in C3 by lia.
  unfold week_check in C3. rewrite (proj2 (Z.leb_le d _)) in C3 by lia. cbn [implb] in C3. lia.
Qed.

Lemma week_of_year_code (t k : Z) (tz : option CFTimeZone) (y m d : Z) :
  fixed_zone tz k -> Z.abs (t + k) < 2 ^ 52 -> CFYMDFromAbsolute ((t + k) / 86400) = Ok (y, m, d) ->
  valid_ymd y m d -> year_start y <= (t + k) / 86400 < year_start (y + 1) ->
  CFAbsoluteTimeGetWeekOfYear t tz = Ok (week_code (leap_year (y + 2001)) (year_start y mod 7) m d).
Proof.
  intros Hz Hb Eq [Vm Vd] By. unfold CFAbsoluteTimeGetWeekOfYear. rewrite (fixed_time_zone tz k), day_of_time by done.
  cbn [mbind result_bind]. rewrite Eq. cbn [mbind result_bind]. apply year_near in By.
  assert (BY : Z.abs y <= 1000000000) by (Z.div_mod_to_equations; lia).
  pose proof (year_start_bound' y ltac:(lia)). pose proof (year_start_bound' (y + 1) ltac:(lia)).
  rewrite !absolute_from_ymd_spec by (unfold max_year; lia). cbn [mbind result_bind].
  assert (F : forall y, day_number y 1 1 = year_start y).
  { intros y'. unfold day_number. change (month_start _ 1) with 0. lia. }
  rewrite !F. destruct (double_mod_to_int (year_start y) 7) as [-> _]; [lia|lia|].
  destruct (double_mod_to_int (year_start (y + 1)) 7) as [-> _]; [lia|lia|]. cbn [mbind result_bind].
  rewrite year_start_succ, isleap_spec, days_before_month by done. unfold week_code, year_days.
  rewrite <- (Z.add_mod_idemp_l (year_start y)) by lia.
  destruct (_ && _ && _); [done|]. cbn [mbind result_bind].
  destruct ((12 =? m) && (28 <? d)); cbn [andb mbind result_bind]; [|done].
  by destruct (_ || _).
Qed.

Theorem week_of_year_iso (t k : Z) (tz : option CFTimeZone) :
  fixed_zone tz k -> Z.abs (t + k) < 2 ^ 52 ->
  let a := (t + k) / 86400 in
  exists y m d w, CFYMDFromAbsolute a = Ok (y, m, d) /\ CFAbsoluteTimeGetWeekOfYear t tz = Ok w /\
    (year_start y <= thursday a -> iso_week a w) /\
    (thursday a < year_start y -> w = 53).
Proof.
  intros Hz Hb. cbv zeta. destruct (ymd_from_absolute_spec ((t + k) / 86400)) as (y & m & d & E & V & N).
  pose proof (day_number_in_year _ _ _ V) as B. rewrite N in B.
  exists y, m, d. eexists. split; [done|]. split; [by apply (week_of_year_code t k tz y m d)|]. set (a := (t + k) / 86400) in *.
  destruct V as [Vm Vd]. rewrite week_table; [|apply Z.mod_pos_bound; lia|done|done].
  assert (A : month_start (leap_year (y + 2001)) m + (d - 1) = a - year_start y) by (unfold day_number in N; lia).
  rewrite A. unfold week_ref.
  replace ((year_start y mod 7 + (a - year_start y)) mod 7) with (a mod 7)
    by (rewrite Z.add_mod_idemp_l by lia; f_equal; lia).
  replace (a - year_start y - a mod 7 + 3) with (thursday a - year_start y) by (unfold thursday; lia).
  assert (T : thursday a <= a + 3) by (unfold thursday; pose proof (Z.mod_pos_bound a 7 ltac:(lia)); lia).
  destruct (Z.ltb_spec (thursday a - year_start y) 0) as [L|G]; cbn [default id]; [split; [lia|done]|].
  split; [|lia]. intros _. unfold iso_week. pose proof (year_start_succ y) as S1. unfold year_days in S1.
  destruct (Z.ltb_spec (thursday a - year_start y) (if leap_year (y + 2001) then 366 else 365)).
  - exists y. split; [lia|done].
  - exists (y + 1). split; [|rewrite S1; do 2 f_equal; lia]. rewrite (year_start_succ (y + 1)).
    pose proof (year_days_bounds (y + 1)). lia.
Qed.

Theorem week_of_year_not_iso :
  exists a, CFYMDFromAbsolute a = Ok (2011 - 2001, 1, 1) /\
    CFAbsoluteTimeGetWeekOfYear (86400 * a) None = Ok 53 /\ iso_week a 52 /\ (forall w, iso_week a w -> w = 52).
Proof.
  exists 3652. split; [vm_compute; reflexivity|]. split; [vm_compute; reflexivity|].
  assert (I : year_start 9 <= thursday 3652 < year_start (9 + 1)) by (vm_compute; split; congruence).
  split; [exists 9; split; [done|reflexivity]|].
  intros w (y & B & ->). by rewrite (year_unique _ _ _ B I).
Qed.

(** ** Validation *)

Theorem is_valid_iff (g : CFGregorianDate) :
  - 2147483648 <= gd_year g <= 2147483647 ->
  exists b, CFGregorianDateIsValid g 63 = Ok b /\ (b = true <-> 1 <= gd_year g /\ valid_gdate g).
Proof.
  intros Hy. unfold CFGregorianDateIsValid.
  repeat match goal with |- context [has 63 ?u] => change (has 63 u) with true end. cbn [andb].
  unfold valid_gdate, valid_ymd.
  destruct (Z.leb_spec (gd_year g) 0) as [|Y]; [exists false; split; [done|]; split; [done|lia]|].
  destruct (Z.ltb_spec (gd_month g) 1); [exists false; split; [done|]; split; [done|lia]|].
  destruct (Z.ltb_spec 12 (gd_month g)); cbn [orb]; [exists false; split; [done|]; split; [done|lia]|].
  pose proof (month_length_bounds (leap_year (gd_year g - 2001 + 2001)) (gd_month g)).
  destruct (Z.ltb_spec (gd_day g) 1); [exists false; split; [done|]; split; [done|lia]|].
  destruct (Z.ltb_spec 31 (gd_day g)); cbn [orb]; [exists false; split; [done|]; split; [done|lia]|].
  destruct (Z.ltb_spec (gd_hour g) 0); [exists false; split; [done|]; split; [done|lia]|].
  destruct (Z.ltb_spec 23 (gd_hour g)); cbn [orb]; [exists false; split; [done|]; split; [done|lia]|].
  destruct (Z.ltb_spec (gd_minute g) 0); [exists false; split; [done|]; split; [done|lia]|].
  destruct (Z.ltb_spec 59 (gd_minute g)); cbn [orb]; [exists false; split; [done|]; split; [done|lia]|].
  destruct (Z.ltb_spec (gd_second g) 0); [exists false; split; [done|]; split; [done|lia]|].
  destruct (Z.leb_spec 60 (gd_second g)); cbn [orb]; [exists false; split; [done|]; split; [done|lia]|].
  rewrite s32_small by lia. rewrite days_in_month by lia. cbn [mbind result_bind].
  eexists; split; [reflexivity|]. rewrite isleap_spec, negb_true_iff, Z.ltb_ge. lia.
Qed.

(** ** Concrete dates *)

(** 29 February 2004, 13:05:09, in a zone two hours east of Greenwich. *)
Definition leap_date : CFGregorianDate := mkGDate 2004 2 29 13 5 9.
Definition east : option CFTimeZone := Some (fun _ => 7200).

Lemma gregorian_roundtrip_witness :
  exists t, CFGregorianDateGetAbsoluteTime leap_date east = Ok t /\ t = gdate_seconds leap_date - 7200 /\
    CFAbsoluteTimeGetGregorianDate t east = Ok leap_date.
Proof.
  apply gregorian_roundtrip; [done| |vm_compute; reflexivity|vm_compute; reflexivity].
  unfold valid_gdate, valid_ymd. split_and!; vm_compute; first [discriminate | reflexivity].
Defined.

Lemma add_units_witness :
  exists y m d, CFYMDFromAbsolute ((100000000 + 7200) / 86400) = Ok (y, m, d) /\
    let '(y', m', d') := add_months y m d 1 (-14) in
    CFAbsoluteTimeAddGregorianUnits 100000000 east (mkUnits 1 (-14) 30 5 6 7) =
      Ok (100000000 + 86400 * (day_number y' m' d' + 30 - day_number y m d) + 3600 * 5 + 60 * 6 + 7).
Proof.
  apply (add_units_calendar 100000000 7200 east (mkUnits 1 (-14) 30 5 6 7)); [done|..]; vm_compute; discriminate.
Defined.

Lemma day_of_week_witness :
  let a := (100000000 + 7200) / 86400 in
  CFAbsoluteTimeGetDayOfWeek 100000000 east = Ok (a mod 7 + 1) /\
  exists y, year_start y <= a < year_start (y + 1) /\
    CFAbsoluteTimeGetDayOfYear 100000000 east = Ok (a - year_start y + 1).
Proof. apply (day_of_week_and_year 100000000 7200 east); [done|lia]. Defined.

Lemma week_of_year_witness :
  let a := (100000000 + 7200) / 86400 in
  exists y m d w, CFYMDFromAbsolute a = Ok (y, m, d) /\ CFAbsoluteTimeGetWeekOfYear 100000000 east = Ok w /\
    (year_start y <= thursday a -> iso_week a w) /\ (thursday a < year_start y -> w = 53).
Proof. apply (week_of_year_iso 100000000 7200 east); [done|lia]. Defined.

Lemma is_valid_witness :
  exists b, CFGregorianDateIsValid leap_date 63 = Ok b /\ (b = true <-> 1 <= gd_year leap_date /\ valid_gdate leap_date).
Proof. apply is_valid_iff. cbn. lia. Defined.

End Date.
