(* ===== verification/Sort.v ===== *)
(** * CFSortFunctions.c: the stable merge sort

    Arrays of [CFIndex] are lists; [listp] is an array with a base index, so that
    [listp + half_cnt] is the same array with another base.  An access outside the
    array is [Undef].  The comparator is a function of the two values, and its result
    is compared with 0 as the source does.  [tmp] comes from the stack or from malloc:
    its contents are arbitrary. *)

From stdpp Require Import base list numbers option sorting.
From Stdlib Require Import ZArith Lia.
From S2P Require Import Prelude.

Module Sort.

Definition kCFSortConcurrent : Z := Z.shiftl 1 0.
Definition kCFSortStable : Z := Z.shiftl 1 4.

Section Model.

Context (cmp : Z -> Z -> Z).

(** [while (idx--) listp[idx] = tmp[idx]]. *)
Fixpoint copy_back (idx : nat) (listp : list Z) (base : Z) (tmp : list Z) : result (list Z) :=
  match idx with
  | O => Ok listp
  | S idx =>
    v ← aget tmp (Z.of_nat idx);
    listp ← aset listp (base + Z.of_nat idx) v;
    copy_back idx listp base tmp
  end.

(** [for (t = cnt1 + cnt2 - 1; idx <= t; t--) listp[t] = listp[t - cnt2]]. *)
Fixpoint shift_up (fuel : nat) (listp : list Z) (base idx t cnt2 : Z) : result (list Z) :=
  if idx <=? t then
    match fuel with
    | O => NoFuel
    | S fuel =>
      v ← aget listp (base + t - cnt2);
      listp ← aset listp (base + t) v;
      shift_up fuel listp base idx (t - 1) cnt2
    end
  else Ok listp.

Fixpoint merge_loop (fuel : nat) (listp : list Z) (base cnt1 cnt2 : Z) (tmp : list Z) (idx idx1 idx2 : Z)
  : result (list Z * list Z) :=
  match fuel with
  | O => NoFuel
  | S fuel =>
    if cnt1 <=? idx1 then
      listp ← copy_back (Z.to_nat idx) listp base tmp; Ok (listp, tmp)
    else if cnt1 + cnt2 <=? idx2 then
      listp ← shift_up (Z.to_nat (cnt1 + cnt2)) listp base idx (cnt1 + cnt2 - 1) cnt2;
      listp ← copy_back (Z.to_nat idx) listp base tmp; Ok (listp, tmp)
    else
      v1 ← aget listp (base + idx1);
      v2 ← aget listp (base + idx2);
      if cmp v1 v2 <=? 0 then
        tmp ← aset tmp idx v1; merge_loop fuel listp base cnt1 cnt2 tmp (idx + 1) (idx1 + 1) idx2
      else
        tmp ← aset tmp idx v2; merge_loop fuel listp base cnt1 cnt2 tmp (idx + 1) idx1 (idx2 + 1)
  end.

Definition CFSimpleMerge (listp : list Z) (base cnt1 cnt2 : Z) (tmp : list Z) : result (list Z * list Z) :=
  if (cnt1 <=? 0) || (cnt2 <=? 0) then Ok (listp, tmp)
  else
    ordered ← (if 16 <? cnt1 + cnt2 then
                 a ← aget listp (base + cnt1 - 1); b ← aget listp (base + cnt1); Ok (cmp a b <=? 0)
               else Ok false);
    if ordered : bool then Ok (listp, tmp)
    else merge_loop (S (Z.to_nat (cnt1 + cnt2))) listp base cnt1 cnt2 tmp 0 0 cnt1.

(** Each call halves the count. *)
Fixpoint CFSimpleMergeSort (fuel : nat) (listp : list Z) (base cnt : Z) (tmp : list Z) : result (list Z * list Z) :=
  if cnt <? 2 then Ok (listp, tmp)
  else if 2 =? cnt then
    v0 ← aget listp base;
    v1 ← aget listp (base + 1);
    if 0 <? cmp v0 v1 then
      listp ← aset listp base v1; listp ← aset listp (base + 1) v0; Ok (listp, tmp)
    else Ok (listp, tmp)
  else if 3 =? cnt then
    v0 ← aget listp base;
    v1 ← aget listp (base + 1);
    v2 ← aget listp (base + 2);
    let '(v0, v1) := if 0 <? cmp v0 v1 then (v1, v0) else (v0, v1) in
    let '(v0, v1, v2) :=
      if 0 <? cmp v1 v2 then
        let '(v1, v2) := (v2, v1) in
        let '(v0, v1) := if 0 <? cmp v0 v1 then (v1, v0) else (v0, v1) in
        (v0, v1, v2)
      else (v0, v1, v2) in
    listp ← aset listp base v0;
    listp ← aset listp (base + 1) v1;
    listp ← aset listp (base + 2) v2;
    Ok (listp, tmp)
  else
    match fuel with
    | O => NoFuel
    | S fuel =>
      let half_cnt := Z.quot cnt 2 in
      '(listp, tmp) ← CFSimpleMergeSort fuel listp base half_cnt tmp;
      '(listp, tmp) ← CFSimpleMergeSort fuel listp (base + half_cnt) (cnt - half_cnt) tmp;
      CFSimpleMerge listp base half_cnt (cnt - half_cnt) tmp
    end.

End Model.

(** ** Sorting indexes *)

(** [for (; idx < lim; idx++) indexBuffer[idx] = idx]. *)
Fixpoint fill_indexes (n : nat) (indexBuffer : list Z) (idx : Z) : result (list Z) :=
  match n with
  | O => Ok indexBuffer
  | S n => indexBuffer ← aset indexBuffer idx idx; fill_indexes n indexBuffer (idx + 1)
  end.

(** The eight blocks of a large buffer, [n] counting up to 8. *)
Fixpoint fill_blocks (k : nat) (indexBuffer : list Z) (n sz count : Z) : result (list Z) :=
  match k with
  | O => Ok indexBuffer
  | S k =>
    let idx := n * sz in
    let lim := Z.min (idx + sz) count in
    indexBuffer ← fill_indexes (Z.to_nat (lim - idx)) indexBuffer idx;
    fill_blocks k indexBuffer (n + 1) sz count
  end.

(** [ncores] is __CFActiveProcessorCount(). *)
Definition sort_cores (count opts ncores : Z) : Z * Z :=
  if negb (Z.land opts kCFSortConcurrent =? 0) then
    let '(opts, ncores) :=
      if (count <? 160) || (ncores <? 2) then (Z.land opts (Z.lnot kCFSortConcurrent), ncores)
      else if (count <? 640) && (2 <? ncores) then (opts, 2)
      else if (count <? 3200) && (4 <? ncores) then (opts, 4)
      else if (count <? 16000) && (8 <? ncores) then (opts, 8)
      else (opts, ncores) in
    (opts, if 16 <? ncores then 16 else ncores)
  else (opts, 0).

(** ** The concurrent sort

    The blocks of a dispatch_apply write to different sections and are run one after
    the other.  [tmps] is the array of the sections' buffers. *)

Section Concurrent.

Context (cmp : Z -> Z -> Z).

(** The larger values, from the right; [p1], [p2] and [p] are [listp1], [listp2] and
    [tmp], with the ends [b1], [b2] and [b]. *)
Fixpoint nmerge_right (fuel : nat) (list1 : list Z) (b1 p1 : Z) (list2 : list Z) (b2 p2 : Z) (tmp : list Z) (b p : Z)
  : result (list Z) :=
  if b <? p then
    match fuel with
    | O => NoFuel
    | S fuel =>
      let p := p - 1 in
      if p2 <? b2 then
        let p1 := p1 - 1 in
        v ← aget list1 p1; tmp ← aset tmp p v; nmerge_right fuel list1 b1 p1 list2 b2 p2 tmp b p
      else if p1 <? b1 then
        let p2 := p2 - 1 in
        v ← aget list2 p2; tmp ← aset tmp p v; nmerge_right fuel list1 b1 p1 list2 b2 p2 tmp b p
      else
        v1 ← aget list1 p1;
        v2 ← aget list2 p2;
        if cmp v1 v2 <=? 0 then
          tmp ← aset tmp p v2; nmerge_right fuel list1 b1 p1 list2 b2 (p2 - 1) tmp b p
        else
          tmp ← aset tmp p v1; nmerge_right fuel list1 b1 (p1 - 1) list2 b2 p2 tmp b p
    end
  else Ok tmp.

(** The smaller values, from the left; [e1], [e2] and [e] are the ends. *)
Fixpoint nmerge_left (fuel : nat) (list1 : list Z) (p1 e1 : Z) (list2 : list Z) (p2 e2 : Z) (tmp : list Z) (p e : Z)
  : result (list Z) :=
  if p <? e then
    match fuel with
    | O => NoFuel
    | S fuel =>
      if e2 <=? p2 then
        v ← aget list1 p1; tmp ← aset tmp p v; nmerge_left fuel list1 (p1 + 1) e1 list2 p2 e2 tmp (p + 1) e
      else if e1 <=? p1 then
        v ← aget list2 p2; tmp ← aset tmp p v; nmerge_left fuel list1 p1 e1 list2 (p2 + 1) e2 tmp (p + 1) e
      else
        v1 ← aget list1 p1;
        v2 ← aget list2 p2;
        if cmp v1 v2 <=? 0 then
          tmp ← aset tmp p v1; nmerge_left fuel list1 (p1 + 1) e1 list2 p2 e2 tmp (p + 1) e
        else
          tmp ← aset tmp p v2; nmerge_left fuel list1 p1 e1 list2 (p2 + 1) e2 tmp (p + 1) e
    end
  else Ok tmp.

(** [list1 + b1] and [list2 + b2] are merged into [tmp + b]. *)
Definition CFSortIndexesNMerge (list1 : list Z) (b1 cnt1 : Z) (list2 : list Z) (b2 cnt2 : Z) (tmp : list Z) (b : Z)
  (right : bool) : result (list Z) :=
  ordered ← (if 16 <? cnt1 + cnt2 then
               v1 ← aget list1 (b1 + cnt1 - 1); v2 ← aget list2 b2; Ok (cmp v1 v2 <=? 0)
             else Ok false);
  if ordered : bool then
    (if right then memmove tmp b list2 b2 cnt2 else memmove tmp b list1 b1 cnt1)
  else if right then
    nmerge_right (Z.to_nat cnt2) list1 b1 (b1 + (cnt1 - 1)) list2 b2 (b2 + (cnt2 - 1)) tmp b (b + cnt2)
  else
    nmerge_left (Z.to_nat cnt1) list1 b1 (b1 + cnt1) list2 b2 (b2 + cnt2) tmp b (b + cnt1).

Section Sections.

Context (sz num_sect last_sect_len : Z).

Fixpoint sort_sections (k : nat) (sect : Z) (listp : list Z) (tmps : list (list Z)) : result (list Z * list (list Z)) :=
  match k with
  | O => Ok (listp, tmps)
  | S k =>
    let sect_len := if sect <? num_sect - 1 then sz else last_sect_len in
    tmp ← aget tmps sect;
    '(listp, tmp) ← CFSimpleMergeSort cmp (Z.to_nat sect_len) listp (sect * sz) sect_len tmp;
    tmps ← aset tmps sect tmp;
    sort_sections k (sect + 1) listp tmps
  end.

Fixpoint merge_even (k : nat) (sect : Z) (listp : list Z) (tmps : list (list Z)) : result (list (list Z)) :=
  match k with
  | O => Ok tmps
  | S k =>
    let right := Z.odd sect in
    let left_base := sect * sz - (if right then sz else 0) in
    let right_base := sect * sz + (if right then 0 else sz) in
    let sect2_len := if sect + 1 + (if right then 0 else 1) =? num_sect then last_sect_len else sz in
    tmp ← aget tmps sect;
    tmp ← CFSortIndexesNMerge listp left_base sz listp right_base sect2_len tmp 0 right;
    tmps ← aset tmps sect tmp;
    merge_even k (sect + 1) listp tmps
  end.

Fixpoint merge_odd (k : nat) (sect : Z) (listp : list Z) (tmps : list (list Z)) : result (list Z) :=
  match k with
  | O => Ok listp
  | S k =>
    let right := Z.odd sect in
    left_base ← aget tmps (sect + (if right then 0 else 1));
    right_base ← aget tmps (sect + (if right then 1 else 2));
    let sect2_len := if sect + 1 + (if right then 1 else 2) =? num_sect then last_sect_len else sz in
    listp ← CFSortIndexesNMerge left_base 0 sz right_base 0 sect2_len listp (sect * sz + sz) right;
    merge_odd k (sect + 1) listp tmps
  end.

Fixpoint merge_rounds (k : nat) (listp : list Z) (tmps : list (list Z)) : result (list Z) :=
  match k with
  | O => Ok listp
  | S k =>
    tmps ← merge_even (Z.to_nat (Z.quot num_sect 2 * 2)) 0 listp tmps;
    tmps ← (if Z.odd num_sect then
              tmp ← aget tmps (num_sect - 1);
              tmp ← memmove tmp 0 listp ((num_sect - 1) * sz) last_sect_len;
              aset tmps (num_sect - 1) tmp
            else Ok tmps);
    listp ← merge_odd (Z.to_nat (Z.quot (num_sect - 1) 2 * 2)) 0 listp tmps;
    tmp0 ← aget tmps 0;
    listp ← memmove listp (0 * sz) tmp0 0 sz;
    listp ← (if negb (Z.odd num_sect) then
               tmp ← aget tmps (num_sect - 1);
               memmove listp ((num_sect - 1) * sz) tmp 0 last_sect_len
             else Ok listp);
    merge_rounds k listp tmps
  end.

End Sections.

(** [fresh n] is what malloc or the stack leaves in [n] words. *)
Context (fresh : Z -> list Z).

Definition CFSortIndexesN (listp : list Z) (count ncores : Z) : result (list Z) :=
  let sz := Z.quot (Z.quot (count + ncores - 1) ncores + 15) 16 * 16 in
  let num_sect := Z.quot (count + sz - 1) sz in
  let last_sect_len := count + sz - sz * num_sect in
  let tmps := replicate (Z.to_nat num_sect) (fresh sz) in
  '(listp, tmps) ← sort_sections sz num_sect last_sect_len (Z.to_nat num_sect) 0 listp tmps;
  merge_rounds sz num_sect last_sect_len (Z.to_nat (Z.quot (num_sect + 1) 2)) listp tmps.

(** [INTPTR_MAX / sizeof(CFIndex)], on a 64-bit machine.  [active] is
    __CFActiveProcessorCount(). *)
Definition CFSortIndexes (indexBuffer : list Z) (count opts active : Z) : result (list Z) :=
  if count <? 1 then Ok indexBuffer
  else if (2 ^ 63 - 1) / 8 <? count then Ok indexBuffer
  else
    let '(opts, ncores) := sort_cores count opts active in
    indexBuffer ← (if count <=? 65536 then fill_indexes (Z.to_nat count) indexBuffer 0
                   else fill_blocks 8 indexBuffer 0 ((count + 15) / 16 * 16 / 8) count);
    if negb (Z.land opts kCFSortConcurrent =? 0) then CFSortIndexesN indexBuffer count ncores
    else
      '(indexBuffer, _) ← CFSimpleMergeSort cmp (Z.to_nat count) indexBuffer 0 count (fresh count);
      Ok indexBuffer.

End Concurrent.

(** ** Sorting an array of elements

    The list is not modified before the end, so that the comparator of two addresses
    compares the two elements. *)

Definition element (list : list Z) (i : Z) : Z := nth (Z.to_nat i) list 0.

Fixpoint gather (indexes : list Z) (list : list Z) : result (List.list Z) :=
  match indexes with
  | [] => Ok []
  | i :: indexes => v ← aget list i; store ← gather indexes list; Ok (v :: store)
  end.

Definition sort_array (fresh : Z -> list Z) (opts : Z) (comparator : Z -> Z -> Z) (list : List.list Z) (elementSize : Z)
  : result (List.list Z) :=
  let count := Z.of_nat (length list) in
  if (count <? 2) || (elementSize <? 1) then Ok list
  else
    indexes ← CFSortIndexes (fun a b => comparator (element list a) (element list b)) fresh (fresh count) count opts 0;
    store ← gather indexes list;
    memmove list 0 store 0 count.

Definition CFQSortArray (fresh : Z -> list Z) : (Z -> Z -> Z) -> list Z -> Z -> result (list Z) := sort_array fresh 0.
Definition CFMergeSortArray (fresh : Z -> list Z) : (Z -> Z -> Z) -> list Z -> Z -> result (list Z) := sort_array fresh kCFSortStable.

(** ** What a comparator promises: a total preorder *)

Class Comparator (cmp : Z -> Z -> Z) : Prop := {
  cmp_total : forall a b, cmp a b <= 0 \/ cmp b a <= 0;
  cmp_trans : forall a b c, cmp a b <= 0 -> cmp b c <= 0 -> cmp a c <= 0
}.

Section Spec.

Context (cmp : Z -> Z -> Z) `{C : Comparator cmp}.

Definition le (a b : Z) : Prop := cmp a b <= 0.
Definition eqv (a b : Z) : Prop := le a b /\ le b a.

#[export] Instance le_dec : RelDecision le.
Proof. intros a b. unfold le. apply _. Defined.
#[export] Instance eqv_dec : RelDecision eqv.
Proof. intros a b. unfold eqv. apply _. Defined.

#[export] Instance le_total : Total le.
Proof. intros a b. apply cmp_total. Qed.
#[export] Instance le_trans : Transitive le.
Proof. intros a b c. apply cmp_trans. Qed.
#[export] Instance le_refl : Reflexive le.
Proof. intros a. by destruct (cmp_total a a). Qed.

(** [l'] is [l] sorted, with equivalent values in their original order. *)
Record stable_sorted (l l' : list Z) : Prop := mk_stable {
  ss_sorted : StronglySorted le l';
  ss_stable : forall x, filter (eqv x) l' = filter (eqv x) l
}.

Definition same_classes (l l' : list Z) : Prop := forall x, filter (eqv x) l' = filter (eqv x) l.

Lemma same_classes_elem (l l' : list Z) (x : Z) : same_classes l l' -> x ∈ l' -> x ∈ l.
Proof.
  intros H Hx. assert (F : x ∈ filter (eqv x) l') by (apply list_elem_of_filter; split; [by split|done]).
  rewrite H in F. by apply list_elem_of_filter in F as [_ F].
Qed.

Lemma same_classes_sym (l l' : list Z) : same_classes l l' -> same_classes l' l.
Proof. intros H x. by rewrite H. Qed.

Lemma eqv_sym (a b : Z) : eqv a b -> eqv b a.
Proof. unfold eqv. tauto. Qed.

Lemma eqv_trans (a b c : Z) : eqv a b -> eqv b c -> eqv a c.
Proof. intros [H1 H2] [H3 H4]. split; etransitivity; eauto. Qed.

Lemma not_le (a b : Z) : 0 < cmp a b -> le b a.
Proof. intros H. destruct (cmp_total a b); [lia|done]. Qed.

(** The stable sort of a list is determined. *)
Lemma sorted_classes_unique (l l' : list Z) :
  StronglySorted le l -> StronglySorted le l' -> same_classes l l' -> l = l'.
Proof.
  revert l'. induction l as [|a l IH]; intros l' S S' H.
  { destruct l' as [|b l']; [done|]. assert (Hb : b ∈ []) by (apply (same_classes_elem [] (b :: l')); [done|left]). by apply elem_of_nil in Hb. }
  destruct l' as [|b l'].
  { assert (Ha : a ∈ []) by (apply (same_classes_elem [] (a :: l)); [by apply same_classes_sym|left]). by apply elem_of_nil in Ha. }
  apply StronglySorted_inv in S as [S Fa]. apply StronglySorted_inv in S' as [S' Fb]. rewrite Forall_forall in Fa, Fb.
  assert (Lab : le a b).
  { assert (Hb : b ∈ a :: l) by (apply (same_classes_elem (a :: l) (b :: l')); [done|left]). apply elem_of_cons in Hb as [->|Hb]; [reflexivity|by apply Fa]. }
  assert (Lba : le b a).
  { assert (Ha : a ∈ b :: l') by (apply (same_classes_elem (b :: l') (a :: l)); [by apply same_classes_sym|left]). apply elem_of_cons in Ha as [->|Ha]; [reflexivity|by apply Fb]. }
  assert (a = b) as <-.
  { assert (E1 : eqv a a) by (split; reflexivity). assert (E2 : eqv a b) by by split. specialize (H a). rewrite !filter_cons_True in H by done. by injection H. }
  f_equal. apply IH; [done..|]. intros x. specialize (H x). rewrite !filter_cons in H. destruct (decide (eqv x a)); [by injection H|done].
Qed.

Lemma same_classes_perm (l l' : list Z) : same_classes l l' -> l' ≡ₚ l.
Proof.
  revert l'. induction l as [|a l IH]; intros l' H.
  { destruct l' as [|b l']; [done|]. assert (Hb : b ∈ []) by (apply (same_classes_elem [] (b :: l')); [done|left]). by apply elem_of_nil in Hb. }
  assert (Ha : a ∈ l') by (apply (same_classes_elem l' (a :: l)); [by apply same_classes_sym|left]).
  assert (exists l1 l2, l' = l1 ++ a :: l2 /\ forall x, eqv x a -> filter (eqv x) l1 = []) as (l1 & l2 & -> & Hl).
  { clear IH. specialize (H a). rewrite (filter_cons_True _ a) in H by (split; reflexivity). clear Ha. induction l' as [|b l' IHl]; [done|].
    destruct (decide (eqv a b)) as [E|E].
    - rewrite filter_cons_True in H by done. injection H as -> H. exists [], l'. by split.
    - rewrite filter_cons_False in H by done. destruct (IHl H) as (l1 & l2 & -> & Hx). exists (b :: l1), l2. split; [done|].
      intros x Ex. rewrite filter_cons_False; [by apply Hx|]. intros Eb. apply E. by apply (eqv_trans _ x); [apply eqv_sym|]. }
  rewrite <-Permutation_middle. constructor. apply IH. intros x. specialize (H x). rewrite filter_app, !filter_cons in H. rewrite filter_app.
  destruct (decide (eqv x a)) as [E|E]; [|done]. rewrite (Hl x E) in H |- *. cbn in *. by injection H.
Qed.

Lemma filter_no_match (P : Z -> Prop) `{forall x, Decision (P x)} (l : list Z) : (forall y, y ∈ l -> ~ P y) -> filter P l = [].
Proof.
  induction l as [|a l IH]; intros N; [done|]. rewrite filter_cons_False by (apply N; left). apply IH. intros y Hy. apply N. by right.
Qed.

(** Merging two sorted lists, as the loop does. *)
Lemma merge_stable (l1 l2 : list Z) :
  StronglySorted le l1 -> StronglySorted le l2 -> same_classes (l1 ++ l2) (list_merge le l1 l2).
Proof.
  intros S1 S2 x. revert l2 S2. induction l1 as [|a l1 IH1]; intros l2 S2; [by destruct l2|].
  apply StronglySorted_inv in S1 as [S1 F1]. induction l2 as [|b l2 IH2]; [by rewrite app_nil_r|].
  apply StronglySorted_inv in S2 as [S2 F2]. rewrite list_merge_cons. destruct (decide (le a b)) as [L|L].
  - cbn [app]. rewrite !filter_cons. rewrite (IH1 S1 (b :: l2)) by by constructor. done.
  - rewrite filter_cons, (IH2 S2). rewrite !filter_app, (filter_cons _ b). destruct (decide (eqv x b)) as [E|E]; [|done].
    assert (N : filter (eqv x) (a :: l1) = []); [|by rewrite N].
    apply filter_no_match. intros y Hy [_ Ey]. apply L. transitivity y.
    + apply elem_of_cons in Hy as [->|Hy]; [reflexivity|]. rewrite Forall_forall in F1. by apply F1.
    + etransitivity; [apply Ey|apply E].
Qed.

Lemma merge_sorted (l1 l2 : list Z) :
  StronglySorted le l1 -> StronglySorted le l2 -> StronglySorted le (list_merge le l1 l2).
Proof.
  intros S1 S2. apply Sorted_StronglySorted; [intros a b c; apply le_trans|]. apply Sorted_list_merge; [apply le_total|by apply StronglySorted_Sorted..].
Qed.

(** The shortcut for lists that are already in order. *)
Lemma merge_ordered (l1 l2 : list Z) (a b : Z) :
  StronglySorted le (l1 ++ [a]) -> StronglySorted le (b :: l2) -> le a b ->
  list_merge le (l1 ++ [a]) (b :: l2) = (l1 ++ [a]) ++ b :: l2.
Proof.
  intros S1 S2 L. symmetry. apply sorted_classes_unique; [|by apply merge_sorted|].
  - apply StronglySorted_app_2; [|done..]. intros x y Hx Hy.
    transitivity a; [|transitivity b; [done|]].
    + apply elem_of_app in Hx as [Hx| ->%list_elem_of_singleton]; [|reflexivity]. apply (StronglySorted_app_1_elem_of le l1 [a] x a); [done|done|left].
    + apply StronglySorted_inv in S2 as [_ F]. rewrite Forall_forall in F. apply elem_of_cons in Hy as [->|Hy]; [reflexivity|by apply F].
  - by apply merge_stable.
Qed.

(** ** The loops *)

Lemma copy_back_spec (m : list Z) : forall (x pre post tr : list Z),
  length x = length m -> copy_back (length m) (pre ++ x ++ post) (Z.of_nat (length pre)) (m ++ tr) = Ok (pre ++ m ++ post).
Proof.
  induction m as [|a m IH] using rev_ind; intros x pre post tr L; [by destruct x|].
  destruct x as [|b x _] using rev_ind; rewrite !length_app in L; cbn in L; [lia|].
  rewrite length_app, Nat.add_1_r. cbn [copy_back]. rewrite <-!app_assoc. cbn [app].
  rewrite aget_middle by done. cbn [mbind result_bind]. rewrite (app_assoc pre x), aset_middle by (rewrite length_app; lia).
  cbn [mbind result_bind]. rewrite <-app_assoc. rewrite (IH x pre (a :: post) (a :: tr)) by lia. done.
Qed.

Lemma shift_up_spec (r : list Z) : forall (fuel : nat) (pre d gap post : list Z) (idx t cnt2 : Z),
  idx = Z.of_nat (length d + length gap) -> t = Z.of_nat (length d + length r + length gap) - 1 -> cnt2 = Z.of_nat (length gap) ->
  (length r <= fuel)%nat ->
  exists g, length g = length gap /\
    shift_up fuel (pre ++ d ++ r ++ gap ++ post) (Z.of_nat (length pre)) idx t cnt2 = Ok (pre ++ d ++ g ++ r ++ post).
Proof.
  induction r as [|a r IH] using rev_ind; intros fuel pre d gap post idx t cnt2 -> -> -> Hf.
  { exists gap. split; [done|]. destruct fuel; cbn [shift_up]; by rewrite (proj2 (Z.leb_gt _ _)) by (cbn; lia). }
  rewrite length_app in Hf |- *. cbn in Hf. destruct fuel as [|fuel]; [lia|]. cbn [shift_up]. rewrite (proj2 (Z.leb_le _ _)) by (cbn; lia).
  destruct gap as [|b gap _] using rev_ind.
  - rewrite <-!app_assoc. cbn [app]. rewrite !(app_assoc pre d), !(app_assoc (pre ++ d) r).
    rewrite aget_middle by (rewrite !length_app; cbn; lia). cbn [mbind result_bind].
    rewrite aset_middle by (rewrite !length_app; cbn; lia). cbn [mbind result_bind].
    destruct (IH fuel pre d [] (a :: post) (Z.of_nat (length d + 0)) (Z.of_nat (length d + (length r + 1) + 0) - 1 - 1) 0) as (g & Lg & E); [cbn; lia..|].
    exists g. split; [done|]. cbn [app] in E. rewrite <-!app_assoc. cbn [app]. rewrite <-E. f_equal; cbn; lia.
  - rewrite length_app. cbn [length]. rewrite <-!app_assoc. cbn [app].
    replace (pre ++ d ++ r ++ a :: gap ++ b :: post) with ((pre ++ d ++ r) ++ a :: gap ++ b :: post) by by rewrite <-!app_assoc.
    rewrite aget_middle by (rewrite !length_app; lia). cbn [mbind result_bind].
    replace ((pre ++ d ++ r) ++ a :: gap ++ b :: post) with ((pre ++ d ++ r ++ a :: gap) ++ b :: post) by (rewrite <-!app_assoc; done).
    rewrite aset_middle by (rewrite !length_app; cbn; lia). cbn [mbind result_bind].
    destruct (IH fuel pre d (a :: gap) (a :: post) (Z.of_nat (length d + (length gap + 1)))
                (Z.of_nat (length d + (length r + 1) + (length gap + 1)) - 1 - 1) (Z.of_nat (length gap + 1))) as (g & Lg & E); [cbn; lia..|].
    exists g. split; [cbn in Lg; lia|]. cbn [app] in E. rewrite <-!app_assoc. cbn [app]. rewrite <-E. f_equal; cbn; lia.
Qed.

Lemma merge_loop_spec (fuel : nat) : forall (pre d1 r1 d2 r2 post m tr : list Z),
  (length r1 + length r2 < fuel)%nat -> length m = (length d1 + length d2)%nat -> (length r1 + length r2 <= length tr)%nat ->
  exists tmp', merge_loop cmp fuel (pre ++ (d1 ++ r1) ++ (d2 ++ r2) ++ post) (Z.of_nat (length pre))
      (Z.of_nat (length (d1 ++ r1))) (Z.of_nat (length (d2 ++ r2))) (m ++ tr)
      (Z.of_nat (length m)) (Z.of_nat (length d1)) (Z.of_nat (length (d1 ++ r1) + length d2)) =
    Ok (pre ++ m ++ list_merge le r1 r2 ++ post, tmp') /\ length tmp' = length (m ++ tr).
Proof.
  induction fuel as [|fuel IH]; intros pre d1 r1 d2 r2 post m tr Hf Lm Ltr; [lia|]. cbn [merge_loop].
  destruct r1 as [|a r1].
  { rewrite (proj2 (Z.leb_le _ _)) by (rewrite app_nil_r; lia). rewrite Nat2Z.id, list_merge_nil_l, app_nil_r.
    replace (pre ++ d1 ++ (d2 ++ r2) ++ post) with (pre ++ (d1 ++ d2) ++ r2 ++ post) by by rewrite <-!app_assoc.
    rewrite copy_back_spec by (rewrite length_app; lia). cbn. by eexists. }
  rewrite (proj2 (Z.leb_gt _ _)) by (rewrite length_app; cbn; lia).
  destruct r2 as [|b r2].
  { rewrite (proj2 (Z.leb_le _ _)) by (rewrite app_nil_r; lia). rewrite Nat2Z.id, list_merge_nil_r, app_nil_r.
    destruct (shift_up_spec (a :: r1) (Z.to_nat (Z.of_nat (length (d1 ++ a :: r1)) + Z.of_nat (length d2))) pre d1 d2 post (Z.of_nat (length m))
      (Z.of_nat (length (d1 ++ a :: r1)) + Z.of_nat (length d2) - 1) (Z.of_nat (length d2))) as (g & Lg & E); [rewrite ?length_app; cbn; lia..|].
    rewrite <-app_assoc, E. cbn [mbind result_bind].
    replace (pre ++ d1 ++ g ++ (a :: r1) ++ post) with (pre ++ (d1 ++ g) ++ (a :: r1) ++ post) by by rewrite <-!app_assoc.
    rewrite copy_back_spec by (rewrite length_app; lia). cbn. by eexists. }
  rewrite (proj2 (Z.leb_gt _ _)) by (rewrite !length_app; cbn; lia).
  replace (pre ++ (d1 ++ a :: r1) ++ (d2 ++ b :: r2) ++ post) with ((pre ++ d1) ++ a :: r1 ++ (d2 ++ b :: r2) ++ post) by (rewrite <-!app_assoc; done).
  rewrite (aget_middle (pre ++ d1) _ a (Z.of_nat (length pre) + Z.of_nat (length d1))) by (rewrite length_app; lia). cbn [mbind result_bind].
  replace ((pre ++ d1) ++ a :: r1 ++ (d2 ++ b :: r2) ++ post) with ((pre ++ (d1 ++ a :: r1) ++ d2) ++ b :: r2 ++ post) by (rewrite <-!app_assoc; done).
  rewrite aget_middle by (rewrite !length_app; lia). cbn [mbind result_bind]. rewrite list_merge_cons.
  destruct tr as [|y tr]; [cbn in Ltr; lia|]. cbn in Hf, Ltr.
  destruct (Z.leb_spec (cmp a b) 0) as [Lab|Lab]; rewrite aset_middle by done; cbn [mbind result_bind].
  - rewrite decide_True by done. destruct (IH pre (d1 ++ [a]) r1 d2 (b :: r2) post (m ++ [a]) tr) as (tmp' & E & L); [cbn; lia|rewrite !length_app; cbn; lia|cbn; lia|].
    exists tmp'. split; [|rewrite L, !length_app; cbn; lia].
    etransitivity; [etransitivity; [|exact E]|by rewrite <-!app_assoc]. f_equal; rewrite <-?app_assoc, ?length_app; cbn; (lia || done).
  - rewrite decide_False by (unfold le; lia). destruct (IH pre d1 (a :: r1) (d2 ++ [b]) r2 post (m ++ [b]) tr) as (tmp' & E & L); [cbn; lia|rewrite !length_app; cbn; lia|cbn; lia|].
    exists tmp'. split; [|rewrite L, !length_app; cbn; lia].
    etransitivity; [etransitivity; [|exact E]|by rewrite <-!app_assoc]. f_equal; rewrite <-?app_assoc, ?length_app; cbn; (lia || done).
Qed.

Lemma CFSimpleMerge_spec (pre l1 l2 post tmp : list Z) :
  StronglySorted le l1 -> StronglySorted le l2 -> (length l1 + length l2 <= length tmp)%nat ->
  exists tmp', CFSimpleMerge cmp (pre ++ l1 ++ l2 ++ post) (Z.of_nat (length pre)) (Z.of_nat (length l1)) (Z.of_nat (length l2)) tmp =
      Ok (pre ++ list_merge le l1 l2 ++ post, tmp') /\ length tmp' = length tmp.
Proof.
  intros S1 S2 Lt. unfold CFSimpleMerge.
  destruct l2 as [|b l2]; [rewrite orb_true_r, list_merge_nil_r; by eexists|].
  destruct l1 as [|a l1 _] using rev_ind; [rewrite list_merge_nil_l; by eexists|].
  rewrite (proj2 (Z.leb_gt _ _)) by (rewrite length_app; cbn; lia). rewrite (proj2 (Z.leb_gt _ _)) by (cbn; lia). cbn [orb].
  destruct (merge_loop_spec (S (Z.to_nat (Z.of_nat (length (l1 ++ [a])) + Z.of_nat (length (b :: l2))))) pre [] (l1 ++ [a]) [] (b :: l2) post [] tmp)
    as (tmp' & E & L); [lia|done|done|]. cbn [app] in E. change (length (@nil Z)) with 0%nat in E. rewrite Nat.add_0_r in E. change (Z.of_nat 0) with 0 in E.
  destruct (Z.ltb_spec 16 (Z.of_nat (length (l1 ++ [a])) + Z.of_nat (length (b :: l2)))); cbn [mbind result_bind]; [|by exists tmp'].
  replace (pre ++ (l1 ++ [a]) ++ (b :: l2) ++ post) with ((pre ++ l1) ++ a :: b :: l2 ++ post) by (rewrite <-!app_assoc; done).
  rewrite (aget_middle (pre ++ l1) _ a (Z.of_nat (length pre) + Z.of_nat (length (l1 ++ [a])) - 1)) by (rewrite !length_app; cbn; lia). cbn [mbind result_bind].
  replace ((pre ++ l1) ++ a :: b :: l2 ++ post) with ((pre ++ l1 ++ [a]) ++ b :: l2 ++ post) by (rewrite <-!app_assoc; done).
  rewrite aget_middle by (rewrite !length_app; cbn; lia). cbn [mbind result_bind].
  destruct (Z.leb_spec (cmp a b) 0) as [Lab|Lab].
  - exists tmp. split; [|done]. rewrite merge_ordered by done. rewrite <-!app_assoc. done.
  - exists tmp'. rewrite <-!app_assoc. cbn [app]. rewrite <-!app_assoc in E. cbn [app] in E. by rewrite E.
Qed.

(** ** The recursion *)

Lemma swap_classes (l1 l2 : list Z) (a b : Z) : 0 < cmp a b -> same_classes (l1 ++ a :: b :: l2) (l1 ++ b :: a :: l2).
Proof.
  intros H x. rewrite !filter_app, !filter_cons. destruct (decide (eqv x a)) as [Ea|], (decide (eqv x b)) as [Eb|]; try done.
  exfalso. assert (le a b) by (transitivity x; [apply Ea|apply Eb]). unfold le in *. lia.
Qed.

Lemma same_classes_trans (l1 l2 l3 : list Z) : same_classes l1 l2 -> same_classes l2 l3 -> same_classes l1 l3.
Proof. intros H1 H2 x. by rewrite H2. Qed.

Lemma same_classes_app (l1 l1' l2 l2' : list Z) : same_classes l1 l1' -> same_classes l2 l2' -> same_classes (l1 ++ l2) (l1' ++ l2').
Proof. intros H1 H2 x. by rewrite !filter_app, H1, H2. Qed.

Lemma same_classes_length (l l' : list Z) : same_classes l l' -> length l' = length l.
Proof. intros H. by rewrite (same_classes_perm _ _ H). Qed.

Lemma sorted2 (a b : Z) : le a b -> StronglySorted le [a; b].
Proof. intros. do 2 (constructor; [|by repeat constructor]). constructor. Qed.

Lemma sorted3 (a b c : Z) : le a b -> le b c -> StronglySorted le [a; b; c].
Proof. intros. assert (le a c) by by transitivity b. do 3 (constructor; [|by repeat constructor]). constructor. Qed.

Lemma sort3 (a b c : Z) :
  let '(v0, v1) := if 0 <? cmp a b then (b, a) else (a, b) in
  let '(v0, v1, v2) :=
    if 0 <? cmp v1 c then
      let '(v1, v2) := (c, v1) in let '(v0, v1) := if 0 <? cmp v0 v1 then (v1, v0) else (v0, v1) in (v0, v1, v2)
    else (v0, v1, c) in
  stable_sorted [a; b; c] [v0; v1; v2].
Proof.
  assert (S1 : forall x y z, 0 < cmp x y -> same_classes [x; y; z] [y; x; z]) by (intros x y z; apply (swap_classes [] [z])).
  assert (S2 : forall x y z, 0 < cmp y z -> same_classes [x; y; z] [x; z; y]) by (intros x y z; apply (swap_classes [x] [])).
  destruct (Z.ltb_spec 0 (cmp a b)) as [Hab|Hab].
  - pose proof (not_le _ _ Hab). destruct (Z.ltb_spec 0 (cmp a c)) as [Hac|Hac]; [pose proof (not_le _ _ Hac); destruct (Z.ltb_spec 0 (cmp b c)) as [Hbc|Hbc]|].
    + split; [by apply sorted3; [apply not_le|]|]. eapply same_classes_trans; [by apply S1|]. eapply same_classes_trans; [by apply S2|by apply S1].
    + split; [by apply sorted3|]. eapply same_classes_trans; [by apply S1|by apply S2].
    + split; [by apply sorted3|by apply S1].
  - destruct (Z.ltb_spec 0 (cmp b c)) as [Hbc|Hbc]; [pose proof (not_le _ _ Hbc); destruct (Z.ltb_spec 0 (cmp a c)) as [Hac|Hac]|].
    + split; [by apply sorted3; [apply not_le|]|]. eapply same_classes_trans; [by apply S2|by apply S1].
    + split; [by apply sorted3|by apply S2].
    + split; [by apply sorted3|done].
Qed.

Lemma aget_seg (pre seg post : list Z) (i : nat) (x : Z) :
  seg !! i = Some x -> aget (pre ++ seg ++ post) (Z.of_nat (length pre) + Z.of_nat i) = Ok x.
Proof.
  intros H. rewrite <-Nat2Z.inj_add. apply aget_nat. rewrite lookup_app_r by lia.
  replace (length pre + i - length pre)%nat with i by lia. by apply lookup_app_l_Some.
Qed.

Lemma aset_seg (pre seg post : list Z) (i : nat) (x : Z) :
  (i < length seg)%nat -> aset (pre ++ seg ++ post) (Z.of_nat (length pre) + Z.of_nat i) x = Ok (pre ++ <[i := x]> seg ++ post).
Proof.
  intros H. rewrite aset_Ok by (rewrite !length_app; lia). f_equal. rewrite <-Nat2Z.inj_add, Nat2Z.id.
  rewrite insert_app_r. by rewrite insert_app_l.
Qed.

Lemma merge_sort_small (fuel : nat) (pre seg post tmp : list Z) :
  (length seg <= 3)%nat ->
  exists seg', CFSimpleMergeSort cmp fuel (pre ++ seg ++ post) (Z.of_nat (length pre)) (Z.of_nat (length seg)) tmp =
      Ok (pre ++ seg' ++ post, tmp) /\ stable_sorted seg seg'.
Proof.
  destruct seg as [|a [|b [|c [|d seg]]]]; cbn [length]; intros; [| | | |lia].
  - exists []. split; [by destruct fuel|]. split; [constructor|done].
  - exists [a]. split; [by destruct fuel|]. split; [repeat constructor|done].
  - exists (if 0 <? cmp a b then [b; a] else [a; b]). split.
    + set (n := Z.of_nat (length pre)).
      assert (E0 : aget (pre ++ a :: b :: post) n = Ok a) by (rewrite <-(Z.add_0_r n); exact (aget_seg pre [a; b] post 0 a eq_refl)).
      assert (E1 : aget (pre ++ a :: b :: post) (n + 1) = Ok b) by exact (aget_seg pre [a; b] post 1 b eq_refl).
      assert (W0 : aset (pre ++ a :: b :: post) n b = Ok (pre ++ b :: b :: post)) by (rewrite <-(Z.add_0_r n); apply (aset_seg pre [a; b] post 0); cbn; lia).
      assert (W1 : aset (pre ++ b :: b :: post) (n + 1) a = Ok (pre ++ b :: a :: post)) by (apply (aset_seg pre [b; b] post 1); cbn; lia).
      destruct fuel; cbn; rewrite E0; cbn; rewrite E1; cbn; (destruct (0 <? cmp a b); [|done]); rewrite W0; cbn; by rewrite W1.
    + destruct (Z.ltb_spec 0 (cmp a b)) as [H1|H1]; split; [by apply sorted2, not_le|by apply (swap_classes [] [])|by apply sorted2|done].
  - assert (S := sort3 a b c).
    set (n := Z.of_nat (length pre)).
    assert (E0 : aget (pre ++ a :: b :: c :: post) n = Ok a) by (rewrite <-(Z.add_0_r n); exact (aget_seg pre [a; b; c] post 0 a eq_refl)).
    assert (E1 : aget (pre ++ a :: b :: c :: post) (n + 1) = Ok b) by exact (aget_seg pre [a; b; c] post 1 b eq_refl).
    assert (E2 : aget (pre ++ a :: b :: c :: post) (n + 2) = Ok c) by exact (aget_seg pre [a; b; c] post 2 c eq_refl).
    assert (W : forall x y z, (l ← aset (pre ++ a :: b :: c :: post) n x; l ← aset l (n + 1) y; l ← aset l (n + 2) z; Ok (l, tmp)) =
      Ok (pre ++ [x; y; z] ++ post, tmp)).
    { intros x y z.
      assert (W0 : aset (pre ++ a :: b :: c :: post) n x = Ok (pre ++ x :: b :: c :: post)) by (rewrite <-(Z.add_0_r n); apply (aset_seg pre [a; b; c] post 0); cbn; lia).
      assert (W1 : aset (pre ++ x :: b :: c :: post) (n + 1) y = Ok (pre ++ x :: y :: c :: post)) by (apply (aset_seg pre [x; b; c] post 1); cbn; lia).
      assert (W2 : aset (pre ++ x :: y :: c :: post) (n + 2) z = Ok (pre ++ x :: y :: z :: post)) by (apply (aset_seg pre [x; y; c] post 2); cbn; lia).
      rewrite W0. cbn. rewrite W1. cbn. by rewrite W2. }
    destruct fuel; cbn [CFSimpleMergeSort app]; (change (Z.of_nat 3 <? 2) with false || idtac);
      change (2 =? Z.of_nat 3) with false; change (3 =? Z.of_nat 3) with true; cbn [mbind result_bind]; rewrite E0; cbn [mbind result_bind];
      rewrite E1; cbn [mbind result_bind]; rewrite E2; cbn [mbind result_bind];
      destruct (if 0 <? cmp a b then (b, a) else (a, b)) as [v0 v1];
      destruct (if 0 <? cmp v1 c then _ else _) as [[w0 w1] w2]; exists [w0; w1; w2]; (split; [apply W|done]).
Qed.

Lemma CFSimpleMergeSort_spec (fuel : nat) : forall (pre seg post tmp : list Z),
  (length seg <= fuel + 3)%nat -> (length seg <= length tmp)%nat ->
  exists seg' tmp', CFSimpleMergeSort cmp fuel (pre ++ seg ++ post) (Z.of_nat (length pre)) (Z.of_nat (length seg)) tmp =
      Ok (pre ++ seg' ++ post, tmp') /\ stable_sorted seg seg' /\ length tmp' = length tmp.
Proof.
  induction fuel as [|fuel IH]; intros pre seg post tmp Hf Lt.
  { destruct (merge_sort_small 0 pre seg post tmp) as (seg' & E & S); [lia|]. by exists seg', tmp. }
  destruct (decide (length seg <= 3)%nat) as [L3|L3].
  { destruct (merge_sort_small (S fuel) pre seg post tmp L3) as (seg' & E & S). by exists seg', tmp. }
  cbn [CFSimpleMergeSort]. rewrite (proj2 (Z.ltb_ge _ _)), (proj2 (Z.eqb_neq _ _)), (proj2 (Z.eqb_neq _ _)) by lia.
  set (h := Z.quot (Z.of_nat (length seg)) 2).
  assert (Hh : 1 <= h < Z.of_nat (length seg) - 1) by (unfold h; rewrite Z.quot_div_nonneg by lia; split; [apply Z.div_le_lower_bound|apply Z.div_lt_upper_bound]; lia).
  assert (exists s1 s2, seg = s1 ++ s2 /\ h = Z.of_nat (length s1) /\ Z.of_nat (length seg) - h = Z.of_nat (length s2)) as (s1 & s2 & -> & -> & ->).
  { exists (take (Z.to_nat h) seg), (drop (Z.to_nat h) seg). rewrite take_drop, length_take, length_drop. split_and!; [done|lia..]. }
  rewrite length_app in Hf, Lt, Hh. rewrite <-app_assoc.
  destruct (IH pre s1 (s2 ++ post) tmp) as (s1' & tmp1 & -> & [S1 C1] & L1); [lia..|]. cbn [mbind result_bind].
  pose proof (same_classes_length _ _ C1) as Ls1.
  replace (Z.of_nat (length pre) + Z.of_nat (length s1)) with (Z.of_nat (length (pre ++ s1'))) by (rewrite length_app; lia).
  rewrite (app_assoc pre s1'). destruct (IH (pre ++ s1') s2 post tmp1) as (s2' & tmp2 & -> & [S2 C2] & L2); [lia..|]. cbn [mbind result_bind].
  pose proof (same_classes_length _ _ C2) as Ls2. rewrite <-app_assoc, <-Ls1, <-Ls2.
  destruct (CFSimpleMerge_spec pre s1' s2' post tmp2 S1 S2) as (tmp3 & E & L3'); [lia|].
  exists (list_merge le s1' s2'), tmp3. split_and!; [done| |lia]. split; [by apply merge_sorted|].
  eapply same_classes_trans; [by apply same_classes_app|by apply merge_stable].
Qed.

End Spec.

End Sort.
