(* ===== verification/SortN.v ===== *)
(** * CFSortFunctions.c: the concurrent sort

    Each section is sorted on its own; then neighbouring sections are merged in
    alternating even and odd phases, each merge leaving the smaller values in the left
    section and the larger ones in the right one.  As many phases as there are sections
    sort the array. *)

From stdpp Require Import base list numbers option sorting.
From Stdlib Require Import ZArith Lia.
From S2P Require Import Prelude Sort.
Import Sort.

Module SortN.

Section Merging.

Context (cmp : Z -> Z -> Z) `{C : Comparator cmp}.

Abbreviation le := (le cmp).
Abbreviation same_classes := (same_classes cmp).

(** Merging from the right. *)
Lemma merge_snoc (l1 l2 : list Z) (a b : Z) :
  StronglySorted le (l1 ++ [a]) -> StronglySorted le (l2 ++ [b]) ->
  list_merge le (l1 ++ [a]) (l2 ++ [b]) =
    if decide (le a b) then list_merge le (l1 ++ [a]) l2 ++ [b] else list_merge le l1 (l2 ++ [b]) ++ [a].
Proof.
  intros S1 S2. pose proof (StronglySorted_app_1_l _ _ _ S1). pose proof (StronglySorted_app_1_l _ _ _ S2).
  assert (M1 : forall x, x ∈ l1 -> le x a) by (intros x Hx; apply (StronglySorted_app_1_elem_of le l1 [a] x a); [done|done|left]).
  assert (M2 : forall x, x ∈ l2 -> le x b) by (intros x Hx; apply (StronglySorted_app_1_elem_of le l2 [b] x b); [done|done|left]).
  destruct (decide (le a b)) as [L|L]; apply (sorted_classes_unique cmp); try by apply merge_sorted.
  - apply StronglySorted_app_2; [|by apply merge_sorted|repeat constructor]. intros x y Hx ->%list_elem_of_singleton.
    rewrite merge_Permutation in Hx. apply elem_of_app in Hx as [Hx|Hx]; [|by apply M2].
    apply elem_of_app in Hx as [Hx| ->%list_elem_of_singleton]; [|done]. transitivity a; [by apply M1|done].
  - apply (same_classes_trans _ _ ((l1 ++ [a]) ++ l2 ++ [b])); [by apply same_classes_sym, merge_stable|].
    rewrite app_assoc. apply same_classes_app; [|done]. by apply merge_stable.
  - apply StronglySorted_app_2; [|by apply merge_sorted|repeat constructor]. intros x y Hx ->%list_elem_of_singleton.
    assert (le b a) by (apply (not_le cmp); unfold Sort.le in L; lia).
    rewrite merge_Permutation in Hx. apply elem_of_app in Hx as [Hx|Hx]; [by apply M1|].
    apply elem_of_app in Hx as [Hx| ->%list_elem_of_singleton]; [|done]. transitivity b; [by apply M2|done].
  - apply (same_classes_trans _ _ ((l1 ++ [a]) ++ l2 ++ [b])); [by apply same_classes_sym, merge_stable|].
    apply (same_classes_trans _ _ ((l1 ++ l2 ++ [b]) ++ [a])).
    + intros x. rewrite !filter_app, <-!app_assoc. f_equal. destruct (decide (eqv cmp x a)) as [E|E].
      * rewrite filter_no_match with (l := l2); [rewrite filter_no_match with (l := [b]); [by rewrite !app_nil_r|]|].
        -- intros y ->%list_elem_of_singleton Ey. apply L. transitivity x; [apply E|apply Ey].
        -- intros y Hy Ey. apply L. transitivity y; [|by apply M2]. transitivity x; [apply E|apply Ey].
      * by rewrite (filter_cons_False _ a), filter_nil, !app_nil_r by done.
    + apply same_classes_app; [|done]. by apply merge_stable.
Qed.

Lemma nmerge_left_spec (fuel : nat) : forall (q1 r1 s1 q2 r2 s2 m x y : list Z),
  (length x <= fuel)%nat -> (length x <= length r1 + length r2)%nat ->
  nmerge_left cmp fuel (q1 ++ r1 ++ s1) (Z.of_nat (length q1)) (Z.of_nat (length q1 + length r1))
    (q2 ++ r2 ++ s2) (Z.of_nat (length q2)) (Z.of_nat (length q2 + length r2))
    (m ++ x ++ y) (Z.of_nat (length m)) (Z.of_nat (length m + length x)) =
  Ok (m ++ take (length x) (list_merge le r1 r2) ++ y).
Proof.
  induction fuel as [|fuel IH]; intros q1 r1 s1 q2 r2 s2 m x y Hf Lx.
  { destruct x; [|cbn in Hf; lia]. cbn [nmerge_left]. by rewrite (proj2 (Z.ltb_ge _ _)) by (cbn; lia). }
  destruct x as [|x0 x]; cbn [nmerge_left]; [by rewrite (proj2 (Z.ltb_ge _ _)) by (cbn; lia)|].
  rewrite (proj2 (Z.ltb_lt _ _)) by (cbn; lia). cbn in Hf, Lx.
  assert (Step1 : forall v r1', r1 = v :: r1' -> (length x <= length r1' + length r2)%nat ->
    (tmp ← aset (m ++ (x0 :: x) ++ y) (Z.of_nat (length m)) v;
     nmerge_left cmp fuel (q1 ++ r1 ++ s1) (Z.of_nat (length q1) + 1) (Z.of_nat (length q1 + length r1)) (q2 ++ r2 ++ s2)
       (Z.of_nat (length q2)) (Z.of_nat (length q2 + length r2)) tmp (Z.of_nat (length m) + 1) (Z.of_nat (length m + length (x0 :: x)))) =
    Ok (m ++ v :: take (length x) (list_merge le r1' r2) ++ y)).
  { intros v r1' -> L. cbn [app]. rewrite aset_middle by done. cbn [mbind result_bind].
    pose proof (IH (q1 ++ [v]) r1' s1 q2 r2 s2 (m ++ [v]) x y ltac:(lia) L) as E.
    etransitivity; [etransitivity; [|exact E]|by rewrite <-app_assoc]. rewrite <-!app_assoc, !length_app. cbn [app length]. f_equal; lia. }
  assert (Step2 : forall v r2', r2 = v :: r2' -> (length x <= length r1 + length r2')%nat ->
    (tmp ← aset (m ++ (x0 :: x) ++ y) (Z.of_nat (length m)) v;
     nmerge_left cmp fuel (q1 ++ r1 ++ s1) (Z.of_nat (length q1)) (Z.of_nat (length q1 + length r1)) (q2 ++ r2 ++ s2)
       (Z.of_nat (length q2) + 1) (Z.of_nat (length q2 + length r2)) tmp (Z.of_nat (length m) + 1) (Z.of_nat (length m + length (x0 :: x)))) =
    Ok (m ++ v :: take (length x) (list_merge le r1 r2') ++ y)).
  { intros v r2' -> L. cbn [app]. rewrite aset_middle by done. cbn [mbind result_bind].
    pose proof (IH q1 r1 s1 (q2 ++ [v]) r2' s2 (m ++ [v]) x y ltac:(lia) L) as E.
    etransitivity; [etransitivity; [|exact E]|by rewrite <-app_assoc]. rewrite <-!app_assoc, !length_app. cbn [app length]. f_equal; lia. }
  destruct r2 as [|b r2].
  { rewrite (proj2 (Z.leb_le _ _)) by (cbn; lia). destruct r1 as [|a r1]; [cbn in Lx; lia|].
    cbn [app]. rewrite aget_middle by done. cbn [mbind result_bind]. cbn in Lx.
    etransitivity; [apply (Step1 a r1 eq_refl); cbn; lia|]. by rewrite !list_merge_nil_r. }
  rewrite (proj2 (Z.leb_gt _ _)) by (cbn; lia). destruct r1 as [|a r1].
  { rewrite (proj2 (Z.leb_le _ _)) by (cbn; lia). cbn [app]. rewrite aget_middle by done. cbn [mbind result_bind]. cbn in Lx.
    etransitivity; [apply (Step2 b r2 eq_refl); cbn; lia|]. by rewrite !list_merge_nil_l. }
  rewrite (proj2 (Z.leb_gt _ _)) by (cbn; lia). cbn in Lx.
  rewrite (aget_middle q1 (r1 ++ s1) a) by done. cbn [mbind result_bind]. rewrite (aget_middle q2 (r2 ++ s2) b) by done. cbn [mbind result_bind].
  rewrite list_merge_cons. destruct (Z.leb_spec (cmp a b) 0) as [L|L].
  - rewrite decide_True by done. apply (Step1 a r1 eq_refl). cbn. lia.
  - rewrite decide_False by (unfold Sort.le; lia). apply (Step2 b r2 eq_refl). cbn. lia.
Qed.

Lemma nmerge_right_spec (fuel : nat) : forall (q1 r1 s1 q2 r2 s2 y x m : list Z),
  StronglySorted le r1 -> StronglySorted le r2 ->
  (length x <= fuel)%nat -> (length x <= length r1)%nat -> (length x <= length r2)%nat ->
  nmerge_right cmp fuel (q1 ++ r1 ++ s1) (Z.of_nat (length q1)) (Z.of_nat (length q1 + length r1) - 1)
    (q2 ++ r2 ++ s2) (Z.of_nat (length q2)) (Z.of_nat (length q2 + length r2) - 1)
    (y ++ x ++ m) (Z.of_nat (length y)) (Z.of_nat (length y + length x)) =
  Ok (y ++ drop (length r1 + length r2 - length x) (list_merge le r1 r2) ++ m).
Proof.
  induction fuel as [|fuel IH]; intros q1 r1 s1 q2 r2 s2 y x m S1 S2 Hf L1 L2.
  { destruct x; [|cbn in Hf; lia]. cbn [nmerge_right]. rewrite (proj2 (Z.ltb_ge _ _)) by (cbn; lia).
    rewrite drop_ge; [done|]. rewrite merge_Permutation, length_app. cbn. lia. }
  destruct x as [|x0 x _] using rev_ind; cbn [nmerge_right].
  { rewrite (proj2 (Z.ltb_ge _ _)) by (cbn; lia). rewrite drop_ge; [done|]. rewrite merge_Permutation, length_app. cbn. lia. }
  rewrite length_app in Hf, L1, L2 |- *. cbn in Hf, L1, L2. rewrite (proj2 (Z.ltb_lt _ _)) by (cbn; lia).
  destruct r1 as [|a r1 _] using rev_ind; [cbn in L1; lia|]. destruct r2 as [|b r2 _] using rev_ind; [cbn in L2; lia|].
  rewrite length_app in L1, L2. cbn in L1, L2.
  rewrite (proj2 (Z.ltb_ge _ _)) by (rewrite length_app; cbn; lia). rewrite (proj2 (Z.ltb_ge _ _)) by (rewrite length_app; cbn; lia).
  assert (Last : forall (q r s : list Z) (v : Z), aget (q ++ (r ++ [v]) ++ s) (Z.of_nat (length q + length (r ++ [v])) - 1) = Ok v).
  { intros q r s v. replace (q ++ (r ++ [v]) ++ s) with ((q ++ r) ++ v :: s) by (by rewrite <-!app_assoc).
    apply aget_middle. rewrite !length_app. cbn. lia. }
  assert (Put : forall v, aset (y ++ (x ++ [x0]) ++ m) (Z.of_nat (length y + (length x + length [x0])) - 1) v = Ok (y ++ x ++ v :: m)).
  { intros v. replace (y ++ (x ++ [x0]) ++ m) with ((y ++ x) ++ x0 :: m) by (by rewrite <-!app_assoc).
    rewrite aset_middle by (rewrite !length_app; cbn; lia). by rewrite <-app_assoc. }
  rewrite (Last q1 r1 s1 a). cbn [mbind result_bind]. rewrite (Last q2 r2 s2 b). cbn [mbind result_bind].
  rewrite (merge_snoc _ _ _ _ S1 S2). destruct (Z.leb_spec (cmp a b) 0) as [L|L]; rewrite Put; cbn [mbind result_bind].
  - rewrite decide_True by done.
    pose proof (IH q1 (r1 ++ [a]) s1 q2 r2 (b :: s2) y x (b :: m) S1 (StronglySorted_app_1_l _ _ _ S2) ltac:(lia)) as E.
    rewrite !length_app in E |- *. cbn [length] in E |- *. specialize (E ltac:(lia) ltac:(lia)).
    etransitivity; [etransitivity; [|exact E]|].
    + rewrite <-!app_assoc. cbn [app]. f_equal; rewrite ?length_app; cbn; lia.
    + rewrite drop_app_le by (rewrite merge_Permutation, !length_app; cbn; lia). rewrite <-app_assoc. cbn [app]. do 4 f_equal. rewrite ?length_app. cbn. lia.
  - rewrite decide_False by (unfold Sort.le; lia).
    pose proof (IH q1 r1 (a :: s1) q2 (r2 ++ [b]) s2 y x (a :: m) (StronglySorted_app_1_l _ _ _ S1) S2 ltac:(lia)) as E.
    rewrite !length_app in E |- *. cbn [length] in E |- *. specialize (E ltac:(lia) ltac:(lia)).
    etransitivity; [etransitivity; [|exact E]|].
    + rewrite <-!app_assoc. cbn [app]. f_equal; rewrite ?length_app; cbn; lia.
    + rewrite drop_app_le by (rewrite merge_Permutation, !length_app; cbn; lia). rewrite <-app_assoc. cbn [app]. do 4 f_equal. rewrite ?length_app. cbn. lia.
Qed.

(** Both halves of a merge; the right section is not the longer one. *)
Lemma CFSortIndexesNMerge_spec (q1 l1 s1 q2 l2 s2 y x m : list Z) (right : bool) :
  StronglySorted le l1 -> StronglySorted le l2 -> (1 <= length l2 <= length l1)%nat ->
  length x = (if right then length l2 else length l1) ->
  CFSortIndexesNMerge cmp (q1 ++ l1 ++ s1) (Z.of_nat (length q1)) (Z.of_nat (length l1))
    (q2 ++ l2 ++ s2) (Z.of_nat (length q2)) (Z.of_nat (length l2)) (y ++ x ++ m) (Z.of_nat (length y)) right =
  Ok (y ++ (if right then drop else take) (length l1) (list_merge le l1 l2) ++ m).
Proof.
  intros S1 S2 L Lx. unfold CFSortIndexesNMerge.
  assert (E : forall b : bool, (b = true -> list_merge le l1 l2 = l1 ++ l2) ->
    (if b then if right then memmove (y ++ x ++ m) (Z.of_nat (length y)) (q2 ++ l2 ++ s2) (Z.of_nat (length q2)) (Z.of_nat (length l2))
               else memmove (y ++ x ++ m) (Z.of_nat (length y)) (q1 ++ l1 ++ s1) (Z.of_nat (length q1)) (Z.of_nat (length l1))
     else if right then nmerge_right cmp (Z.to_nat (Z.of_nat (length l2))) (q1 ++ l1 ++ s1) (Z.of_nat (length q1))
         (Z.of_nat (length q1) + (Z.of_nat (length l1) - 1)) (q2 ++ l2 ++ s2) (Z.of_nat (length q2)) (Z.of_nat (length q2) + (Z.of_nat (length l2) - 1))
         (y ++ x ++ m) (Z.of_nat (length y)) (Z.of_nat (length y) + Z.of_nat (length l2))
     else nmerge_left cmp (Z.to_nat (Z.of_nat (length l1))) (q1 ++ l1 ++ s1) (Z.of_nat (length q1)) (Z.of_nat (length q1) + Z.of_nat (length l1))
         (q2 ++ l2 ++ s2) (Z.of_nat (length q2)) (Z.of_nat (length q2) + Z.of_nat (length l2)) (y ++ x ++ m) (Z.of_nat (length y))
         (Z.of_nat (length y) + Z.of_nat (length l1))) =
    Ok (y ++ (if right then drop else take) (length l1) (list_merge le l1 l2) ++ m)).
  { intros [|] Hb.
    - rewrite Hb by done. destruct right; rewrite memmove_middle by lia; [by rewrite drop_app_length|by rewrite take_app_length].
    - rewrite !Nat2Z.id. destruct right.
      + pose proof (nmerge_right_spec (length l2) q1 l1 s1 q2 l2 s2 y x m S1 S2) as N. rewrite Lx in N.
        etransitivity; [etransitivity; [|apply N; lia]|]; [f_equal; lia|]. do 4 f_equal. lia.
      + pose proof (nmerge_left_spec (length l1) q1 l1 s1 q2 l2 s2 y x m) as N. rewrite Lx in N.
        etransitivity; [etransitivity; [|apply N; lia]|done]. f_equal; lia. }
  destruct (16 <? _); [|by apply (E false)].
  destruct l1 as [|a l1 _] using rev_ind; [cbn in L; lia|]. destruct l2 as [|b l2]; [cbn in L; lia|].
  replace (q1 ++ (l1 ++ [a]) ++ s1) with ((q1 ++ l1) ++ a :: s1) at 1 by (by rewrite <-!app_assoc).
  rewrite aget_middle by (rewrite !length_app; cbn; lia). cbn [mbind result_bind app]. rewrite aget_middle by done. cbn [mbind result_bind].
  apply (E (cmp a b <=? 0)). intros H%Z.leb_le. by apply merge_ordered.
Qed.

(** ** Phases on lists of sections *)

Context (sz : nat) (Hsz : (1 <= sz)%nat).

Fixpoint merge_pairs (S : list (list Z)) : list (list Z) :=
  match S with
  | a :: b :: r => take sz (list_merge le a b) :: drop sz (list_merge le a b) :: merge_pairs r
  | r => r
  end.

Definition merge_pairs_odd (S : list (list Z)) : list (list Z) :=
  match S with
  | a :: r => a :: merge_pairs r
  | [] => []
  end.

Lemma pair_ind {A} (P : list A -> Prop) :
  P [] -> (forall a, P [a]) -> (forall a b r, P r -> P (a :: b :: r)) -> forall l, P l.
Proof. intros H0 H1 H2. fix IH 1. intros [|a [|b r]]; [done|apply H1|apply H2, IH]. Qed.

(** All sections but the last are full; the last is not empty. *)
Fixpoint shaped (S : list (list Z)) : Prop :=
  match S with
  | [] => True
  | [z] => (1 <= length z <= sz)%nat
  | a :: r => length a = sz /\ shaped r
  end.

Lemma shaped_cons (a b : list Z) (r : list (list Z)) : shaped (a :: b :: r) <-> length a = sz /\ shaped (b :: r).
Proof. done. Qed.

Lemma shaped_tail (a : list Z) (r : list (list Z)) : shaped (a :: r) -> shaped r.
Proof. destruct r; [done|]. by intros [_ H]. Qed.

Lemma shaped_le (a : list Z) (r : list (list Z)) : shaped (a :: r) -> (1 <= length a <= sz)%nat.
Proof. destruct r; [done|]. intros [H _]. lia. Qed.

(** The sections keep their sizes. *)
Lemma shaped_lengths (S S' : list (list Z)) : map length S' = map length S -> shaped S -> shaped S'.
Proof.
  revert S'. induction S as [|a S IH]; intros [|a' S'] E; try done. cbn in E. injection E as Ea E.
  destruct S as [|b S], S' as [|b' S']; try done.
  - cbn. by rewrite Ea.
  - intros [H1 H2]. split; [congruence|]. by apply IH.
Qed.

Lemma merge_pairs_lengths (S : list (list Z)) : shaped S -> map length (merge_pairs S) = map length S.
Proof.
  induction S as [|a|a b r IH] using pair_ind; intros H; [done..|]. destruct H as [Ha H]. cbn [merge_pairs map].
  rewrite length_take, length_drop, merge_Permutation, length_app, Ha. f_equal; [lia|]. f_equal; [lia|]. apply IH. by apply (shaped_tail b).
Qed.

Lemma merge_pairs_sorted (S : list (list Z)) : Forall (StronglySorted le) S -> Forall (StronglySorted le) (merge_pairs S).
Proof.
  induction S as [|a|a b r IH] using pair_ind; intros H; [done..|]. apply Forall_cons in H as [Ha [Hb H]%Forall_cons]. cbn [merge_pairs].
  assert (M : StronglySorted le (list_merge le a b)) by by apply merge_sorted.
  rewrite <-(take_drop sz (list_merge le a b)) in M.
  repeat constructor; [by apply StronglySorted_app_1_l in M|by apply StronglySorted_app_1_r in M|by apply IH].
Qed.

Lemma merge_pairs_classes (S : list (list Z)) : Forall (StronglySorted le) S -> same_classes (concat S) (concat (merge_pairs S)).
Proof.
  induction S as [|a|a b r IH] using pair_ind; intros H; [done..|]. apply Forall_cons in H as [Ha [Hb H]%Forall_cons]. cbn [merge_pairs concat].
  rewrite (app_assoc (take _ _)), take_drop, (app_assoc a b). apply same_classes_app; [by apply merge_stable|by apply IH].
Qed.

Section Mass.

(** The values of a downward closed set, and how many of them a list of sections holds. *)
Context (P : Z -> Prop) `{HP : forall z, Decision (P z)} (Hdown : forall a b, le a b -> P b -> P a).

Definition mass (S : list (list Z)) : nat := length (filter P (concat S)).

Lemma mass_cons (a : list Z) (S : list (list Z)) : mass (a :: S) = (length (filter P a) + mass S)%nat.
Proof. unfold mass. cbn [concat]. by rewrite filter_app, length_app. Qed.

Lemma mass_drop_sorted (m : list Z) (k : nat) :
  StronglySorted le m -> length (filter P (drop k m)) = (length (filter P m) - k)%nat.
Proof.
  revert k. induction m as [|a m IH]; intros k S; [by rewrite drop_nil|]. destruct k as [|k]; [cbn [drop]; lia|].
  apply StronglySorted_inv in S as [S F]. cbn [drop]. rewrite (IH k S), filter_cons. destruct (decide (P a)) as [Pa|Pa]; [cbn; lia|].
  rewrite filter_no_match; [cbn; lia|]. intros y Hy Py. apply Pa. apply (Hdown a y); [|done]. rewrite Forall_forall in F. by apply F.
Qed.

Lemma mass_merge_pairs (S : list (list Z)) : Forall (StronglySorted le) S -> mass (merge_pairs S) = mass S.
Proof. intros H. unfold mass. by rewrite (same_classes_perm cmp _ _ (merge_pairs_classes S H)). Qed.

Lemma mass_even (j : nat) (S : list (list Z)) :
  Forall (StronglySorted le) S -> mass (drop (2 * j) (merge_pairs S)) = mass (drop (2 * j) S).
Proof.
  revert S. induction j as [|j IH]; intros S H; [by apply mass_merge_pairs|]. replace (2 * Datatypes.S j)%nat with (Datatypes.S (Datatypes.S (2 * j))) by lia.
  destruct S as [|a [|b r]]; [done..|]. cbn [merge_pairs drop]. apply IH. by do 2 apply Forall_cons in H as [_ H].
Qed.

Lemma mass_odd (j : nat) (S : list (list Z)) :
  Forall (StronglySorted le) S -> shaped S -> (2 * j + 1 < length S)%nat ->
  Z.of_nat (mass (drop (2 * j + 1) (merge_pairs S))) =
  Z.max (Z.of_nat (mass (drop (2 * j) S)) - Z.of_nat sz) (Z.of_nat (mass (drop (2 * j + 2) S))).
Proof.
  revert S. induction j as [|j IH]; intros S H Sh L.
  - destruct S as [|a [|b r]]; [cbn in L; lia..|]. apply Forall_cons in H as [Ha [Hb H]%Forall_cons]. cbn [merge_pairs drop Nat.mul Nat.add].
    rewrite !mass_cons, mass_merge_pairs by done. rewrite mass_drop_sorted by by apply merge_sorted.
    assert (E : length (filter P (list_merge le a b)) = (length (filter P a) + length (filter P b))%nat) by (by rewrite merge_Permutation, filter_app, length_app).
    rewrite drop_0. lia.
  - destruct S as [|a [|b r]]; [cbn in L; lia..|]. do 2 apply Forall_cons in H as [_ H]. do 2 apply shaped_tail in Sh.
    replace (2 * Datatypes.S j + 1)%nat with (Datatypes.S (Datatypes.S (2 * j + 1))) by lia. replace (2 * Datatypes.S j)%nat with (Datatypes.S (Datatypes.S (2 * j))) by lia.
    replace (Datatypes.S (Datatypes.S (2 * j)) + 2)%nat with (Datatypes.S (Datatypes.S (2 * j + 2))) by lia.
    cbn [merge_pairs drop]. apply IH; [done..|]. cbn in L. lia.
Qed.

(** How far the mass behind a boundary [b] can be from the sorted arrangement after [t]
    phases have moved it; [D] is that mass plus [b] full sections. *)
Definition bound (n T t b D : Z) : Prop :=
  D <= T \/ D <= b * Z.of_nat sz \/
  exists l r, 0 <= l /\ 0 <= r /\ l + r = t /\ D <= T + (b - l) * Z.of_nat sz /\ D <= (n - r) * Z.of_nat sz.

Lemma bound_step (n T t b D1 D2 : Z) :
  bound n T t (b - 1) D1 -> bound n T t (b + 1) D2 -> bound n T (t + 1) b (Z.max D1 (D2 - Z.of_nat sz)).
Proof.
  intros H1 H2. destruct (Z.max_spec D1 (D2 - Z.of_nat sz)) as [[_ ->]|[_ ->]].
  - destruct H2 as [H|[H|(l & r & ? & ? & ? & ? & ?)]]; [left; lia|right; left; lia|right; right]. exists l, (r + 1). split_and!; lia.
  - destruct H1 as [H|[H|(l & r & ? & ? & ? & ? & ?)]]; [left; lia|right; left; lia|right; right]. exists (l + 1), r. split_and!; lia.
Qed.

Lemma bound_final (n T t b D : Z) : n - 1 <= t -> bound n T t b D -> D <= Z.max T (b * Z.of_nat sz).
Proof.
  intros Ht [H|[H|(l & r & ? & ? & ? & H1 & H2)]]; [lia..|]. destruct (Z_le_gt_dec b l).
  - assert ((b - l) * Z.of_nat sz <= 0) by (apply Z.mul_nonpos_nonneg; lia). lia.
  - assert ((n - r) * Z.of_nat sz <= b * Z.of_nat sz) by (apply Z.mul_le_mono_nonneg_r; lia). lia.
Qed.

Definition excess (S : list (list Z)) (b : nat) : Z := Z.of_nat (mass (drop b S)) + Z.of_nat b * Z.of_nat sz.

(** Every boundary of a parity is within the bound of [t] phases. *)
Definition within (parity : bool) (n : nat) (T t : Z) (S : list (list Z)) : Prop :=
  forall b, (b <= n)%nat -> Nat.even b = parity -> bound (Z.of_nat n) T t (Z.of_nat b) (excess S b).

Lemma drop_mass_end (S : list (list Z)) (n T t : Z) (b : nat) : (length S <= b)%nat -> bound n T t (Z.of_nat b) (excess S b).
Proof. intros H. right. left. unfold excess. rewrite drop_ge by done. cbn. lia. Qed.

Lemma even_phase (S : list (list Z)) (T t : Z) :
  Forall (StronglySorted le) S -> shaped S -> within true (length S) T t S ->
  within true (length S) T t (merge_pairs S) /\ within false (length S) T (t + 1) (merge_pairs S).
Proof.
  intros H Sh W. pose proof (length_map length (merge_pairs S)) as Lm. rewrite merge_pairs_lengths, length_map in Lm by done. split.
  - intros b Hb Ev. unfold excess. apply Nat.even_spec in Ev as Ev'. destruct Ev' as [j ->]. rewrite mass_even by done. by apply W.
  - intros b Hb Od. destruct (decide (b = length S)) as [->|Nb]; [by apply drop_mass_end; rewrite Lm|].
    assert (exists j, b = (2 * j + 1)%nat) as [j ->] by (apply Nat.odd_spec; unfold Nat.odd; by rewrite Od).
    unfold excess. rewrite mass_odd by (done || lia).
    pose proof (W (2 * j)%nat ltac:(lia) ltac:(apply Nat.even_spec; by exists j)) as W1.
    pose proof (W (2 * j + 2)%nat ltac:(lia) ltac:(apply Nat.even_spec; exists (j + 1)%nat; lia)) as W2.
    replace (Z.of_nat (2 * j)) with (Z.of_nat (2 * j + 1) - 1) in W1 by lia. replace (Z.of_nat (2 * j + 2)) with (Z.of_nat (2 * j + 1) + 1) in W2 by lia.
    pose proof (bound_step _ _ _ _ _ _ W1 W2) as B. unfold excess in B.
    match type of B with bound _ _ _ _ ?d => match goal with |- bound _ _ _ _ ?e => replace e with d by lia end end. exact B.
Qed.

Lemma odd_phase (S : list (list Z)) (T t : Z) :
  Forall (StronglySorted le) S -> shaped S -> T = Z.of_nat (mass S) -> within false (length S) T t S ->
  within false (length S) T t (merge_pairs_odd S) /\ within true (length S) T (t + 1) (merge_pairs_odd S).
Proof.
  intros H Sh -> W. destruct S as [|a r]; [split; intros b Hb _; apply drop_mass_end; cbn; lia|]. cbn [merge_pairs_odd length].
  apply Forall_cons in H as [Ha H]. pose proof (shaped_tail _ _ Sh) as Shr.
  pose proof (length_map length (merge_pairs r)) as Lm. rewrite merge_pairs_lengths, length_map in Lm by done. split.
  - intros b Hb Od. assert (exists j, b = (2 * j + 1)%nat) as [j ->] by (apply Nat.odd_spec; unfold Nat.odd; by rewrite Od).
    pose proof (W (2 * j + 1)%nat Hb Od) as B. unfold excess in *. rewrite Nat.add_1_r in *. cbn [drop] in *. by rewrite mass_even.
  - intros b Hb Ev. apply Nat.even_spec in Ev as [j ->]. destruct j as [|j].
    { left. unfold excess. rewrite drop_0, !mass_cons, mass_merge_pairs by done. lia. }
    destruct (decide (2 * Datatypes.S j = Datatypes.S (length r))%nat) as [E|Nb]; [apply drop_mass_end; cbn [length]; lia|].
    pose proof (W (2 * j + 1)%nat ltac:(cbn [length] in *; lia) ltac:(by rewrite Nat.add_1_r, Nat.even_succ, <-Nat.negb_even, Nat.even_mul)) as W1.
    pose proof (W (2 * j + 3)%nat ltac:(cbn [length] in *; lia) ltac:(by rewrite Nat.even_add, Nat.even_mul)) as W2.
    replace (Z.of_nat (2 * j + 1)) with (Z.of_nat (2 * Datatypes.S j) - 1) in W1 by lia. replace (Z.of_nat (2 * j + 3)) with (Z.of_nat (2 * Datatypes.S j) + 1) in W2 by lia.
    pose proof (bound_step _ _ _ _ _ _ W1 W2) as B. unfold excess in *.
    replace (drop (2 * j + 1) (a :: r)) with (drop (2 * j) r) in B by (by rewrite Nat.add_1_r).
    replace (drop (2 * j + 3) (a :: r)) with (drop (2 * j + 2) r) in B by (by replace (2 * j + 3)%nat with (Datatypes.S (2 * j + 2)) by lia).
    replace (drop (2 * Datatypes.S j) (a :: merge_pairs r)) with (drop (2 * j + 1) (merge_pairs r)) by (by replace (2 * Datatypes.S j)%nat with (Datatypes.S (2 * j + 1)) by lia).
    rewrite mass_odd by (done || lia).
    match type of B with bound _ _ _ _ ?d => match goal with |- bound _ _ _ _ ?e => replace e with d by lia end end. exact B.
Qed.

(** ** Enough phases *)

Definition round (S : list (list Z)) : list (list Z) := merge_pairs_odd (merge_pairs S).

Lemma merge_pairs_odd_facts (S : list (list Z)) : Forall (StronglySorted le) S -> shaped S ->
  Forall (StronglySorted le) (merge_pairs_odd S) /\ map length (merge_pairs_odd S) = map length S /\ same_classes (concat S) (concat (merge_pairs_odd S)).
Proof.
  destruct S as [|a r]; [done|]. intros [Ha H]%Forall_cons Sh. cbn [merge_pairs_odd]. split_and!.
  - constructor; [done|by apply merge_pairs_sorted].
  - cbn [map]. f_equal. apply merge_pairs_lengths. by apply (shaped_tail a).
  - cbn [concat]. apply same_classes_app; [done|by apply merge_pairs_classes].
Qed.

Lemma round_facts (S : list (list Z)) : Forall (StronglySorted le) S -> shaped S ->
  Forall (StronglySorted le) (round S) /\ map length (round S) = map length S /\ same_classes (concat S) (concat (round S)).
Proof.
  intros H Sh. pose proof (merge_pairs_lengths S Sh) as L. destruct (merge_pairs_odd_facts (merge_pairs S)) as (H1 & H2 & H3).
  - by apply merge_pairs_sorted.
  - by apply (shaped_lengths S).
  - split_and!; [done|unfold round; congruence|]. eapply same_classes_trans; [by apply merge_pairs_classes|done].
Qed.

Lemma mass_round (S : list (list Z)) : Forall (StronglySorted le) S -> shaped S -> mass (round S) = mass S.
Proof. intros H Sh. unfold mass. by rewrite (same_classes_perm cmp _ _ (proj2 (proj2 (round_facts S H Sh)))). Qed.

Lemma rounds_within (k : nat) (S : list (list Z)) (t : Z) :
  Forall (StronglySorted le) S -> shaped S -> within true (length S) (Z.of_nat (mass S)) t S ->
  within true (length S) (Z.of_nat (mass S)) (t + 2 * Z.of_nat k) (Nat.iter k round S) /\
  ((1 <= k)%nat -> within false (length S) (Z.of_nat (mass S)) (t + 2 * Z.of_nat k - 1) (Nat.iter k round S)).
Proof.
  revert S t. induction k as [|k IH]; intros S t H Sh W.
  { split; [|lia]. by replace (t + 2 * Z.of_nat 0) with t by lia. }
  destruct (round_facts S H Sh) as (H' & L' & _). pose proof (shaped_lengths _ _ L' Sh) as Sh'.
  assert (Ln : length (round S) = length S) by (by rewrite <-(length_map length), L', length_map).
  destruct (even_phase S _ t H Sh W) as [_ We]. pose proof (merge_pairs_lengths S Sh) as Lm.
  assert (Lp : length (merge_pairs S) = length S) by (by rewrite <-(length_map length), Lm, length_map). rewrite <-Lp in We.
  destruct (odd_phase (merge_pairs S) (Z.of_nat (mass S)) (t + 1)) as [Wo1 Wo2]; [by apply merge_pairs_sorted|by apply (shaped_lengths S)|by rewrite mass_merge_pairs|done|].
  fold (round S) in Wo1, Wo2. rewrite Lp in Wo1, Wo2. rewrite <-(mass_round S H Sh) in Wo1, Wo2 |- *. rewrite <-Ln in Wo1, Wo2 |- *.
  rewrite Nat.iter_succ_r. destruct (IH (round S) (t + 1 + 1) H' Sh' Wo2) as [I1 I2].
  replace (t + 2 * Z.of_nat (Datatypes.S k)) with (t + 1 + 1 + 2 * Z.of_nat k) by lia. split; [done|]. intros _. destruct k as [|k]; [|apply I2; lia].
  by replace (t + 1 + 1 + 2 * Z.of_nat 0 - 1) with (t + 1) by lia.
Qed.

Lemma mass_le (S : list (list Z)) : shaped S -> Z.of_nat (mass S) <= Z.of_nat (length S) * Z.of_nat sz.
Proof.
  induction S as [|a S IH]; intros Sh; [cbn; lia|]. rewrite mass_cons. pose proof (length_filter P a). pose proof (shaped_le _ _ Sh).
  pose proof (IH (shaped_tail _ _ Sh)). cbn [length]. lia.
Qed.

Lemma shaped_drop (b : nat) (S : list (list Z)) : shaped S -> shaped (drop b S).
Proof. revert S. induction b as [|b IH]; intros [|a S] H; try done. apply IH. by apply (shaped_tail a). Qed.

Lemma mass_take_drop (b : nat) (S : list (list Z)) : mass S = (mass (take b S) + mass (drop b S))%nat.
Proof. unfold mass. by rewrite <-length_app, <-filter_app, <-concat_app, take_drop. Qed.

(** After enough rounds the mass behind a boundary is what does not fit before it. *)
Lemma rounds_packed (k : nat) (S : list (list Z)) (b : nat) :
  Forall (StronglySorted le) S -> shaped S -> (length S <= 2 * k)%nat -> (b <= length S)%nat ->
  Z.of_nat (mass (drop b (Nat.iter k round S))) <= Z.max (Z.of_nat (mass S) - Z.of_nat b * Z.of_nat sz) 0.
Proof.
  intros H Sh Hk Hb. destruct (rounds_within k S 0 H Sh) as [W1 W2].
  { intros c Hc _. right. right. exists 0, 0. unfold excess. pose proof (mass_le _ (shaped_drop c S Sh)) as M. rewrite length_drop, Nat2Z.inj_sub in M by lia.
    pose proof (mass_take_drop c S). split_and!; lia. }
  assert (Fin : bound (Z.of_nat (length S)) (Z.of_nat (mass S)) (2 * Z.of_nat k - (if Nat.even b then 0 else 1)) (Z.of_nat b) (excess (Nat.iter k round S) b)).
  { destruct (Nat.even b) eqn:Ev; [replace (2 * Z.of_nat k - 0) with (0 + 2 * Z.of_nat k) by lia; by apply W1|].
    replace (2 * Z.of_nat k - 1) with (0 + 2 * Z.of_nat k - 1) by lia. destruct b; [done|]. apply W2; [lia|done|done]. }
  apply bound_final in Fin; [unfold excess in Fin; lia|]. destruct (Nat.even b); lia.
Qed.

End Mass.

Lemma concat_sorted (S : list (list Z)) :
  Forall (StronglySorted le) S ->
  (forall S1 S2, S = S1 ++ S2 -> forall x y, x ∈ concat S1 -> y ∈ concat S2 -> le x y) -> StronglySorted le (concat S).
Proof.
  induction S as [|a S IH]; intros H X; [constructor|]. apply Forall_cons in H as [Ha H]. cbn [concat]. apply StronglySorted_app_2; [|done|].
  - intros x y Hx Hy. apply (X [a] S); [done| |done]. cbn. by rewrite app_nil_r.
  - apply IH; [done|]. intros S1 S2 -> x y Hx Hy. apply (X (a :: S1) S2); [done| |done]. cbn. apply elem_of_app. by right.
Qed.

Lemma shaped_full (S1 S2 : list (list Z)) : shaped (S1 ++ S2) -> S2 <> [] -> length (concat S1) = (length S1 * sz)%nat.
Proof.
  induction S1 as [|a S1 IH]; intros Sh N; [done|]. cbn [concat length]. rewrite length_app, IH; [|by apply (shaped_tail a)|done].
  cbn [app] in Sh. destruct (S1 ++ S2) as [|b r] eqn:E; [by apply app_eq_nil in E as [_ ?]|]. destruct Sh as [-> _]. lia.
Qed.

(** Half as many rounds as sections sort the sections. *)
Lemma rounds_facts (k : nat) (S : list (list Z)) : Forall (StronglySorted le) S -> shaped S ->
  Forall (StronglySorted le) (Nat.iter k round S) /\ map length (Nat.iter k round S) = map length S /\
  same_classes (concat S) (concat (Nat.iter k round S)).
Proof.
  intros H Sh. induction k as [|k (I1 & I2 & I3)]; [done|]. cbn [Nat.iter nat_rect]. destruct (round_facts (Nat.iter k round S)) as (R1 & R2 & R3); [done|by apply (shaped_lengths S)|].
  split_and!; [done|etransitivity; [exact R2|done]|by eapply same_classes_trans].
Qed.

Lemma rounds_sort (k : nat) (S : list (list Z)) :
  Forall (StronglySorted le) S -> shaped S -> (length S <= 2 * k)%nat -> stable_sorted cmp (concat S) (concat (Nat.iter k round S)).
Proof.
  intros H Sh Hk. destruct (rounds_facts k S H Sh) as (F1 & F2 & F3). split; [|done]. apply concat_sorted; [done|]. intros S1 S2 E x y Hx Hy.
  assert (Ln : length (Nat.iter k round S) = length S) by (by rewrite <-(length_map length), F2, length_map).
  pose proof (shaped_lengths _ _ F2 Sh) as Sh'. rewrite E in Ln, Sh'. rewrite length_app in Ln.
  assert (N2 : S2 <> []) by (intros ->; by apply elem_of_nil in Hy).
  set (P := fun z => le z y). assert (HP : forall z, Decision (P z)) by (intros z; unfold P; apply le_dec).
  assert (Down : forall a b, le a b -> P b -> P a) by (unfold P; intros a b Lab Pb; by transitivity b).
  pose proof (rounds_packed P Down k S (length S1) H Sh Hk ltac:(lia)) as B. rewrite E, drop_app_length in B.
  assert (M2 : (1 <= mass P S2)%nat).
  { unfold mass. destruct (filter P (concat S2)) eqn:Ef; [|cbn; lia]. exfalso. apply (filter_nil_not_elem_of P (concat S2) y Ef); [|done]. unfold P. reflexivity. }
  assert (T : mass P S = (mass P S1 + mass P S2)%nat).
  { unfold mass. rewrite <-length_app, <-filter_app, <-concat_app, <-E. by rewrite (same_classes_perm cmp _ _ F3). }
  assert (Full : length (filter P (concat S1)) = length (concat S1)).
  { pose proof (length_filter P (concat S1)). pose proof (shaped_full S1 S2 Sh' N2). unfold mass in T at 2. lia. }
  destruct (decide (P x)) as [Px|Px]; [done|]. pose proof (length_filter_lt P (concat S1) x Hx Px). lia.
Qed.

(** ** The sections in memory *)

Lemma merge_pairs_lookup (j : nat) (S : list (list Z)) (a b : list Z) :
  S !! (2 * j)%nat = Some a -> S !! (2 * j + 1)%nat = Some b ->
  merge_pairs S !! (2 * j)%nat = Some (take sz (list_merge le a b)) /\
  merge_pairs S !! (2 * j + 1)%nat = Some (drop sz (list_merge le a b)).
Proof.
  revert S. induction j as [|j IH]; intros S.
  - destruct S as [|a' [|b' r]]; try done. cbn. by intros [= ->] [= ->].
  - destruct S as [|a' [|b' r]]; [intros H; apply lookup_lt_Some in H; exfalso; change (length (@nil (list Z))) with 0%nat in H; lia| |].
    + intros H. apply lookup_lt_Some in H. exfalso. change (length [a']) with 1%nat in H. lia.
    + replace (2 * Datatypes.S j)%nat with (Datatypes.S (Datatypes.S (2 * j))) by lia. exact (IH r).
Qed.

Lemma merge_pairs_single (j : nat) (S : list (list Z)) : length S = (2 * j + 1)%nat -> merge_pairs S !! (2 * j)%nat = S !! (2 * j)%nat.
Proof.
  revert S. induction j as [|j IH]; intros S L.
  - by destruct S as [|a [|b r]].
  - destruct S as [|a [|b r]]; [cbn in L; lia..|]. replace (2 * Datatypes.S j)%nat with (Datatypes.S (Datatypes.S (2 * j))) by lia.
    apply IH. cbn in L. lia.
Qed.

Lemma section_at (S : list (list Z)) (i : nat) (a : list Z) :
  shaped S -> S !! i = Some a ->
  concat S = concat (take i S) ++ a ++ concat (drop (i + 1) S) /\ length (concat (take i S)) = (i * sz)%nat.
Proof.
  intros Sh Hi. pose proof (take_drop_middle S i a Hi) as E. rewrite <-Nat.add_1_r in E. split.
  - rewrite <-E at 1. by rewrite concat_app.
  - rewrite <-E in Sh. rewrite (shaped_full (take i S) (a :: drop (i + 1) S)) by done. rewrite length_take. apply lookup_lt_Some in Hi. lia.
Qed.

Lemma section_pair (S : list (list Z)) (i : nat) (a b : list Z) :
  shaped S -> S !! i = Some a -> S !! (i + 1)%nat = Some b ->
  exists pre post, concat S = pre ++ a ++ b ++ post /\ length pre = (i * sz)%nat /\ length a = sz /\
    length b = (if decide (i + 2 = length S)%nat then length b else sz) /\ (1 <= length b <= sz)%nat.
Proof.
  intros Sh Ha Hb. destruct (section_at S i a Sh Ha) as [E1 L1]. destruct (section_at S (i + 1) b Sh Hb) as [E2 L2].
  exists (concat (take i S)), (concat (drop (i + 1 + 1) S)).
  assert (La : length a = sz).
  { rewrite Nat.add_1_r, (take_S_r S i a Ha) in L2. rewrite concat_app, length_app, L1 in L2. cbn in L2. rewrite app_nil_r in L2. lia. }
  assert (Lb : shaped (drop (i + 1) S)) by by apply shaped_drop.
  assert (Eb : drop (i + 1) S = b :: drop (i + 1 + 1) S) by (rewrite (drop_S S b (i + 1)) by done; by rewrite (Nat.add_1_r (i + 1))).
  rewrite Eb in Lb. split_and!; [|done|done| |apply shaped_le in Lb; lia..].
  - by rewrite E1, Eb.
  - case_decide as D; [done|]. apply lookup_lt_Some in Hb. destruct (drop (i + 1 + 1) S) as [|c r] eqn:Ec; [|by destruct Lb].
    apply (f_equal length) in Ec. rewrite length_drop in Ec. cbn in Ec. lia.
Qed.

(** The first [k] buffers hold the first [k] sections of [S]. *)
Record holds (tmps : list (list Z)) (S : list (list Z)) (k : nat) : Prop := mk_holds {
  ho_length : length tmps = length S;
  ho_sizes : forall j t, tmps !! j = Some t -> length t = sz;
  ho_sections : forall j s, (j < k)%nat -> S !! j = Some s -> exists junk, tmps !! j = Some (s ++ junk)
}.

Lemma holds_store (tmps : list (list Z)) (S : list (list Z)) (k : nat) (s junk : list Z) :
  holds tmps S k -> S !! k = Some s -> length (s ++ junk) = sz -> holds (<[k := s ++ junk]> tmps) S (k + 1).
Proof.
  intros [H1 H2 H3] Hk L. assert (k < length tmps)%nat by (apply lookup_lt_Some in Hk; lia). split.
  - by rewrite length_insert.
  - intros j t Hj. destruct (decide (j = k)) as [->|N]; [rewrite list_lookup_insert_eq in Hj by done; by simplify_eq|].
    rewrite list_lookup_insert_ne in Hj by done. by apply (H2 j).
  - intros j s' Lj Hj. destruct (decide (j = k)) as [->|N].
    + rewrite list_lookup_insert_eq by done. simplify_eq. by exists junk.
    + rewrite list_lookup_insert_ne by done. apply H3; [lia|done].
Qed.

Section Memory.

Context (num last : nat).

Abbreviation zsz := (Z.of_nat sz).
Abbreviation znum := (Z.of_nat num).
Abbreviation zlast := (Z.of_nat last).

(** The section lengths the code computes with. *)
Definition sized (S : list (list Z)) : Prop :=
  length S = num /\ shaped S /\ (forall z, S !! (num - 1)%nat = Some z -> length z = last).

Lemma pair_length (S : list (list Z)) (i : nat) (b : list Z) :
  sized S -> S !! (i + 1)%nat = Some b -> length b = (if decide (i + 2 = length S)%nat then length b else sz) ->
  Z.of_nat (length b) = if Z.of_nat i + 2 =? znum then zlast else zsz.
Proof.
  intros (Ln & _ & Hl) Hb L. destruct (Z.eqb_spec (Z.of_nat i + 2) znum) as [E|E].
  - rewrite (Hl b); [done|]. by replace (num - 1)%nat with (i + 1)%nat by lia.
  - rewrite decide_False in L by lia. lia.
Qed.

Lemma odd_of_even (j : nat) : Z.odd (Z.of_nat (2 * j)) = false.
Proof. rewrite Nat2Z.inj_mul. by rewrite Z.odd_mul. Qed.

Lemma odd_of_odd (j : nat) : Z.odd (Z.of_nat (2 * j + 1)) = true.
Proof. rewrite Nat2Z.inj_add, Z.odd_add. by rewrite odd_of_even. Qed.

(** One merge of the even phase. *)
Lemma merge_even_step (S : list (list Z)) (k i : nat) (tmps : list (list Z)) :
  sized S -> Forall (StronglySorted le) S -> holds tmps (merge_pairs S) i -> (i < 2 * (num / 2))%nat ->
  exists tmps', merge_even cmp zsz znum zlast (Datatypes.S k) (Z.of_nat i) (concat S) tmps =
      merge_even cmp zsz znum zlast k (Z.of_nat (i + 1)) (concat S) tmps' /\ holds tmps' (merge_pairs S) (i + 1).
Proof.
  intros Sz H Ho Hi. pose proof Sz as (Ln & Sh & Hl). pose proof (Nat.div_mod_eq num 2).
  set (j := (i / 2)%nat). assert (Hj : i = (2 * j)%nat \/ i = (2 * j + 1)%nat) by (pose proof (Nat.div_mod_eq i 2); pose proof (Nat.mod_upper_bound i 2); unfold j; lia). clearbody j.
  destruct (lookup_lt_is_Some_2 S (2 * j)) as [a Ha]; [lia|]. destruct (lookup_lt_is_Some_2 S (2 * j + 1)) as [b Hb]; [lia|].
  destruct (section_pair S (2 * j) a b Sh Ha Hb) as (pre & post & E & Lp & La & Lb & Lb').
  pose proof (pair_length S (2 * j) b Sz Hb Lb) as Zb. destruct (merge_pairs_lookup j S a b Ha Hb) as [M1 M2].
  rewrite Forall_lookup in H. pose proof (H _ _ Ha) as Sa. pose proof (H _ _ Hb) as Sb.
  destruct (lookup_lt_is_Some_2 tmps i) as [t Ht]; [rewrite (ho_length _ _ _ Ho), <-(length_map length), merge_pairs_lengths, length_map by done; lia|].
  pose proof (ho_sizes _ _ _ Ho _ _ Ht) as Lt. cbn [merge_even]. rewrite (aget_nat tmps i t Ht). cbn [mbind result_bind].
  assert (Lm : length (list_merge le a b) = (sz + length b)%nat) by (rewrite merge_Permutation, length_app; lia).
  assert (E' : concat S = (pre ++ a) ++ b ++ post) by (by rewrite <-app_assoc).
  destruct Hj as [-> | ->]; [rewrite odd_of_even|rewrite odd_of_odd].
  - pose proof (CFSortIndexesNMerge_spec pre a (b ++ post) (pre ++ a) b post [] t [] false Sa Sb ltac:(lia) ltac:(lia)) as N.
    rewrite <-E, <-E' in N. cbn [app] in N. change (Z.of_nat (length (@nil Z))) with 0 in N. rewrite app_nil_r in N. rewrite app_nil_r in N.
    replace (Z.of_nat (2 * j) + 1 + 1) with (Z.of_nat (2 * j) + 2) by lia. rewrite <-Zb, La in *.
    replace (Z.of_nat (2 * j) * zsz - 0) with (Z.of_nat (length pre)) by lia.
    replace (Z.of_nat (2 * j) * zsz + zsz) with (Z.of_nat (length (pre ++ a))) by (rewrite length_app; lia).
    rewrite N. cbn [mbind result_bind]. rewrite aset_Ok by (apply lookup_lt_Some in Ht; lia). cbn [mbind result_bind]. rewrite Nat2Z.id.
    eexists. split; [f_equal; lia|]. rewrite <-(app_nil_r (take _ _)). apply holds_store; [done|done|]. rewrite app_nil_r, length_take. lia.
  - pose proof (CFSortIndexesNMerge_spec pre a (b ++ post) (pre ++ a) b post [] (take (length b) t) (drop (length b) t) true Sa Sb ltac:(lia) ltac:(rewrite length_take; lia)) as N.
    rewrite <-E, <-E' in N. cbn [app] in N. change (Z.of_nat (length (@nil Z))) with 0 in N. rewrite take_drop in N.
    replace (Z.of_nat (2 * j + 1) + 1 + 0) with (Z.of_nat (2 * j) + 2) by lia. rewrite <-Zb, La in *.
    replace (Z.of_nat (2 * j + 1) * zsz - zsz) with (Z.of_nat (length pre)) by lia.
    replace (Z.of_nat (2 * j + 1) * zsz + 0) with (Z.of_nat (length (pre ++ a))) by (rewrite length_app; lia).
    rewrite N. cbn [mbind result_bind]. rewrite aset_Ok by (apply lookup_lt_Some in Ht; lia). cbn [mbind result_bind]. rewrite Nat2Z.id.
    eexists. split; [f_equal; lia|]. apply holds_store; [done|done|]. rewrite length_app, !length_drop. lia.
Qed.

Lemma merge_even_spec (S : list (list Z)) : sized S -> Forall (StronglySorted le) S -> forall (k i : nat) (tmps : list (list Z)),
  holds tmps (merge_pairs S) i -> (i + k <= 2 * (num / 2))%nat ->
  exists tmps', merge_even cmp zsz znum zlast k (Z.of_nat i) (concat S) tmps = Ok tmps' /\ holds tmps' (merge_pairs S) (i + k).
Proof.
  intros Sz H k. induction k as [|k IH]; intros i tmps Ho L; [exists tmps; by rewrite Nat.add_0_r|].
  destruct (merge_even_step S k i tmps Sz H Ho) as (tmps1 & -> & Ho1); [lia|].
  destruct (IH (i + 1)%nat tmps1 Ho1) as (tmps' & E & Ho'); [lia|]. exists tmps'. by replace (i + Datatypes.S k)%nat with (i + 1 + k)%nat by lia.
Qed.

(** [W] is what [listp] holds during the odd phase: the sections 1 to [i] are done. *)
Record written (W S : list (list Z)) (i : nat) : Prop := mk_written {
  wr_lengths : map length W = map length S;
  wr_done : forall j, (1 <= j <= i)%nat -> W !! j = S !! j
}.

Lemma sized_lengths (S S' : list (list Z)) : map length S' = map length S -> sized S -> sized S'.
Proof.
  intros L (Ln & Sh & Hl). split_and!.
  - by rewrite <-(length_map length), L, length_map.
  - by apply (shaped_lengths S).
  - intros z Hz. assert (Hz' : map length S' !! (num - 1)%nat = Some (length z)) by (by rewrite list_lookup_fmap, Hz).
    rewrite L, list_lookup_fmap in Hz'. destruct (S !! (num - 1)%nat) as [z'|] eqn:E; [|done]. cbn in Hz'. injection Hz' as <-. by apply Hl.
Qed.

(** A section of the array is replaced by one of the same length. *)
Lemma replace_section (W : list (list Z)) (i : nat) (w s : list Z) :
  shaped W -> W !! i = Some w -> length s = length w ->
  exists y m, concat W = y ++ w ++ m /\ length y = (i * sz)%nat /\ concat (<[i := s]> W) = y ++ s ++ m.
Proof.
  intros Sh Hw L. destruct (section_at W i w Sh Hw) as [E Ly]. exists (concat (take i W)), (concat (drop (i + 1) W)). split_and!; [done|done|].
  assert (Li : (i < length W)%nat) by by apply lookup_lt_Some in Hw. rewrite insert_take_drop by done. by rewrite concat_app, Nat.add_1_r.
Qed.

Lemma written_store (W S : list (list Z)) (i : nat) (w s : list Z) :
  written W S i -> W !! (i + 1)%nat = Some w -> S !! (i + 1)%nat = Some s -> written (<[(i + 1)%nat := s]> W) S (i + 1).
Proof.
  intros [L D] Hw Hs. assert (Li : (i + 1 < length W)%nat) by by apply lookup_lt_Some in Hw. split.
  - change (map length (<[(i + 1)%nat := s]> W)) with (length <$> <[(i + 1)%nat := s]> W). rewrite list_fmap_insert. change (length <$> W) with (map length W).
    rewrite L. apply list_insert_id. by rewrite list_lookup_fmap, Hs.
  - intros j Hj. destruct (decide (j = (i + 1)%nat)) as [->|N]; [by rewrite list_lookup_insert_eq|]. rewrite list_lookup_insert_ne by done. apply D. lia.
Qed.

Lemma merge_odd_step (S W : list (list Z)) (k i : nat) (tmps : list (list Z)) :
  sized S -> Forall (StronglySorted le) S -> holds tmps S num -> written W (merge_pairs_odd S) i -> (i < 2 * ((num - 1) / 2))%nat ->
  exists W', merge_odd cmp zsz znum zlast (Datatypes.S k) (Z.of_nat i) (concat W) tmps =
      merge_odd cmp zsz znum zlast k (Z.of_nat (i + 1)) (concat W') tmps /\ written W' (merge_pairs_odd S) (i + 1).
Proof.
  intros Sz H Ho Hw Hi. pose proof Sz as (Ln & Sh & Hl). pose proof (Nat.div_mod_eq (num - 1) 2).
  destruct (merge_pairs_odd_facts S H Sh) as (_ & Lo & _). pose proof (eq_trans (wr_lengths _ _ _ Hw) Lo) as LW.
  pose proof (sized_lengths _ _ LW Sz) as (LnW & ShW & _).
  set (j := (i / 2)%nat). assert (Hj : i = (2 * j)%nat \/ i = (2 * j + 1)%nat) by (pose proof (Nat.div_mod_eq i 2); pose proof (Nat.mod_upper_bound i 2); unfold j; lia). clearbody j.
  destruct (lookup_lt_is_Some_2 S (2 * j + 1)) as [a Ha]; [lia|]. destruct (lookup_lt_is_Some_2 S (2 * j + 1 + 1)) as [b Hb]; [lia|].
  destruct (section_pair S (2 * j + 1) a b Sh Ha Hb) as (pre & post & E & Lp & La & Lb & Lb').
  pose proof (pair_length S (2 * j + 1) b Sz Hb Lb) as Zb.
  assert (M : merge_pairs_odd S !! (2 * j + 1)%nat = Some (take sz (list_merge le a b)) /\ merge_pairs_odd S !! (2 * j + 1 + 1)%nat = Some (drop sz (list_merge le a b))).
  { destruct S as [|s0 r]; [done|]. rewrite Nat.add_1_r in Ha. rewrite (Nat.add_1_r (2 * j + 1)) in Hb. cbn [lookup list_lookup] in Ha, Hb.
    rewrite (Nat.add_1_r (2 * j + 1)). cbn [merge_pairs_odd]. rewrite (Nat.add_1_r (2 * j)) at 1. by apply merge_pairs_lookup. }
  rewrite Forall_lookup in H. pose proof (H _ _ Ha) as Sa. pose proof (H _ _ Hb) as Sb.
  destruct (ho_sections _ _ _ Ho (2 * j + 1)%nat a ltac:(lia) Ha) as (ja & Ta). destruct (ho_sections _ _ _ Ho (2 * j + 1 + 1)%nat b ltac:(lia) Hb) as (jb & Tb).
  assert (Lm : length (list_merge le a b) = (sz + length b)%nat) by (rewrite merge_Permutation, length_app; lia).
  destruct (lookup_lt_is_Some_2 W (i + 1)) as [w Hw1]; [lia|].
  assert (Lw : forall s, merge_pairs_odd S !! (i + 1)%nat = Some s -> length s = length w).
  { intros s Hs. pose proof (wr_lengths _ _ _ Hw) as X. apply (f_equal (lookup (i + 1)%nat)) in X. rewrite !list_lookup_fmap, Hw1, Hs in X. by injection X. }
  cbn [merge_odd]. destruct M as [M1 M2]. destruct Hj as [-> | ->]; [rewrite odd_of_even|rewrite odd_of_odd].
  - replace (Z.of_nat (2 * j) + 1) with (Z.of_nat (2 * j + 1)) by lia. rewrite (aget_nat _ _ _ Ta). cbn [mbind result_bind].
    replace (Z.of_nat (2 * j) + 2) with (Z.of_nat (2 * j + 1 + 1)) by lia. rewrite (aget_nat _ _ _ Tb). cbn [mbind result_bind].
    pose proof (Lw _ M1) as L1. destruct (replace_section W (2 * j + 1) w (take sz (list_merge le a b)) ShW Hw1 L1) as (y & m & EW & Ly & EW').
    pose proof (CFSortIndexesNMerge_spec [] a ja [] b jb y w m false Sa Sb ltac:(lia) ltac:(rewrite length_take in L1; lia)) as N.
    rewrite <-EW, La, <-EW', Zb in N. cbn [app] in N. change (Z.of_nat (length (@nil Z))) with 0 in N.
    replace (Z.of_nat (2 * j) * zsz + zsz) with (Z.of_nat (length y)) by lia. rewrite N. cbn [mbind result_bind].
    eexists. split; [f_equal; lia|]. by apply (written_store W _ (2 * j) w).
  - rewrite Z.add_0_r, (aget_nat _ _ _ Ta). cbn [mbind result_bind].
    replace (Z.of_nat (2 * j + 1) + 1) with (Z.of_nat (2 * j + 1 + 1)) by lia. rewrite (aget_nat _ _ _ Tb). cbn [mbind result_bind].
    pose proof (Lw _ M2) as L1. destruct (replace_section W (2 * j + 1 + 1) w (drop sz (list_merge le a b)) ShW Hw1 L1) as (y & m & EW & Ly & EW').
    pose proof (CFSortIndexesNMerge_spec [] a ja [] b jb y w m true Sa Sb ltac:(lia) ltac:(rewrite length_drop in L1; lia)) as N.
    rewrite <-EW, La, <-EW', Zb in N. cbn [app] in N. change (Z.of_nat (length (@nil Z))) with 0 in N.
    replace (Z.of_nat (2 * j + 1 + 1) + 1) with (Z.of_nat (2 * j + 1) + 2) by lia.
    replace (Z.of_nat (2 * j + 1) * zsz + zsz) with (Z.of_nat (length y)) by lia. rewrite N. cbn [mbind result_bind].
    eexists. split; [f_equal; lia|]. by apply (written_store W _ (2 * j + 1) w).
Qed.

Lemma merge_odd_spec (S : list (list Z)) (tmps : list (list Z)) :
  sized S -> Forall (StronglySorted le) S -> holds tmps S num -> forall (k i : nat) (W : list (list Z)),
  written W (merge_pairs_odd S) i -> (i + k <= 2 * ((num - 1) / 2))%nat ->
  exists W', merge_odd cmp zsz znum zlast k (Z.of_nat i) (concat W) tmps = Ok (concat W') /\ written W' (merge_pairs_odd S) (i + k).
Proof.
  intros Sz H Ho k. induction k as [|k IH]; intros i W Hw L; [exists W; by rewrite Nat.add_0_r|].
  destruct (merge_odd_step S W k i tmps Sz H Ho Hw) as (W1 & -> & Hw1); [lia|].
  destruct (IH (i + 1)%nat W1 Hw1) as (W' & E & Hw'); [lia|]. exists W'. by replace (i + Datatypes.S k)%nat with (i + 1 + k)%nat by lia.
Qed.

Lemma holds_weaken (tmps S S' : list (list Z)) (k k' : nat) :
  holds tmps S k -> length S' = length S -> (k' <= k)%nat -> (forall j, (j < k')%nat -> S' !! j = S !! j) -> holds tmps S' k'.
Proof.
  intros [H1 H2 H3] L Hk Hs. split; [lia|done|]. intros j s Hj E. rewrite Hs in E by done. apply H3; [lia|done].
Qed.

(** A section copied from its buffer. *)
Lemma copy_section (W tmps S : list (list Z)) (i : nat) (s w : list Z) (n : Z) :
  shaped W -> holds tmps S num -> (i < num)%nat -> S !! i = Some s -> W !! i = Some w -> length s = length w -> n = Z.of_nat (length s) ->
  exists t, tmps !! i = Some t /\ memmove (concat W) (Z.of_nat i * zsz) t 0 n = Ok (concat (<[i := s]> W)).
Proof.
  intros Sh Ho Hi Hs Hw L ->. destruct (ho_sections _ _ _ Ho i s Hi Hs) as (junk & Ht). exists (s ++ junk). split; [done|].
  destruct (replace_section W i w s Sh Hw L) as (y & m & -> & Ly & ->). apply (memmove_middle y w m [] s junk); cbn; lia.
Qed.

Lemma half_count (n : nat) : Z.to_nat (Z.quot (Z.of_nat n) 2 * 2) = (2 * (n / 2))%nat.
Proof.
  rewrite Z.quot_div_nonneg by lia. change 2 with (Z.of_nat 2) at 1 2. rewrite <-Nat2Z.inj_div, <-Nat2Z.inj_mul, Nat2Z.id. lia.
Qed.

Lemma odd_count (n : nat) : Z.odd (Z.of_nat n) = true -> n = (2 * (n / 2) + 1)%nat.
Proof.
  intros H. pose proof (Nat.div_mod_eq n 2) as E. pose proof (Nat.mod_upper_bound n 2). destruct (n mod 2)%nat as [|[|]]; [|lia..].
  rewrite E, Nat.add_0_r, odd_of_even in H. done.
Qed.

Lemma even_count (n : nat) : Z.odd (Z.of_nat n) = false -> n = (2 * (n / 2))%nat.
Proof.
  intros H. pose proof (Nat.div_mod_eq n 2) as E. pose proof (Nat.mod_upper_bound n 2). destruct (n mod 2)%nat as [|[|]]; [lia| |lia].
  rewrite E, odd_of_odd in H. done.
Qed.

(** The last of an odd number of sections takes no part in the even phase. *)
Lemma copy_last (S tmps : list (list Z)) :
  sized S -> (1 <= num)%nat -> holds tmps (merge_pairs S) (2 * (num / 2)) ->
  exists tmps', (if Z.odd znum then tmp ← aget tmps (znum - 1); tmp ← memmove tmp 0 (concat S) ((znum - 1) * zsz) zlast; aset tmps (znum - 1) tmp
                 else Ok tmps) = Ok tmps' /\ holds tmps' (merge_pairs S) num.
Proof.
  intros (Ln & Sh & Hl) H1 Ho. destruct (Z.odd znum) eqn:Od; [|exists tmps; split; [done|]; by rewrite (even_count num Od)].
  pose proof (odd_count num Od) as En. set (j := (num / 2)%nat) in *. clearbody j. replace (znum - 1) with (Z.of_nat (2 * j)) by lia.
  destruct (lookup_lt_is_Some_2 S (2 * j)) as [z Hz]; [lia|]. destruct (section_at S _ z Sh Hz) as [E Lp].
  assert (Lz : length z = last) by (apply Hl; by replace (num - 1)%nat with (2 * j)%nat by lia).
  assert (Lz' : (1 <= length z <= sz)%nat).
  { apply (shaped_le z (drop (Datatypes.S (2 * j)) S)). rewrite <-(drop_S S z (2 * j) Hz). by apply shaped_drop. }
  destruct (lookup_lt_is_Some_2 tmps (2 * j)) as [t Ht]; [rewrite (ho_length _ _ _ Ho), <-(length_map length), merge_pairs_lengths, length_map by done; lia|].
  pose proof (ho_sizes _ _ _ Ho _ _ Ht) as Lt. rewrite (aget_nat _ _ _ Ht). cbn [mbind result_bind].
  assert (Mv : memmove t 0 (concat S) (Z.of_nat (2 * j) * zsz) zlast = Ok (z ++ drop last t)).
  { rewrite E. rewrite <-(take_drop last t) at 1. apply (memmove_middle [] (take last t) (drop last t)); [done|lia|rewrite length_take; lia|rewrite length_take; lia]. }
  rewrite Mv. cbn [mbind result_bind]. rewrite aset_Ok by (apply lookup_lt_Some in Ht; lia). rewrite Nat2Z.id. eexists. split; [done|].
  replace num with (2 * j + 1)%nat by lia. apply holds_store; [done|by rewrite merge_pairs_single by lia|]. rewrite length_app, length_drop. lia.
Qed.

(** The sections that take no part in the odd phase. *)
Lemma copy_ends (M tmps W : list (list Z)) :
  sized M -> Forall (StronglySorted le) M -> (2 <= num)%nat -> holds tmps M num -> written W (merge_pairs_odd M) (2 * ((num - 1) / 2)) ->
  (tmp0 ← aget tmps 0;
   listp ← memmove (concat W) (0 * zsz) tmp0 0 zsz;
   (if negb (Z.odd znum) then tmp ← aget tmps (znum - 1); memmove listp ((znum - 1) * zsz) tmp 0 zlast else Ok listp)) =
  Ok (concat (merge_pairs_odd M)).
Proof.
  intros Sz H H2 Ho [LW DW]. pose proof Sz as (Ln & Sh & Hl). destruct (merge_pairs_odd_facts M H Sh) as (_ & LO & _).
  pose proof (sized_lengths _ _ (eq_trans LW LO) Sz) as (LnW & ShW & HlW). pose proof (sized_lengths _ _ LO Sz) as (LnO & ShO & HlO).
  destruct M as [|m0 [|m1 r]] eqn:EM; [cbn in Ln; lia..|]. assert (L0 : length m0 = sz) by by destruct Sh.
  destruct (lookup_lt_is_Some_2 W 0) as [w0 Hw0]; [lia|].
  assert (Lw0 : length m0 = length w0).
  { apply (f_equal (lookup 0%nat)) in LW. rewrite !list_lookup_fmap, Hw0 in LW. cbn in LW. by injection LW. }
  destruct (copy_section W tmps (m0 :: m1 :: r) 0 m0 w0 zsz ShW Ho ltac:(lia) eq_refl Hw0 Lw0 ltac:(lia)) as (t0 & T0 & C0).
  rewrite (aget_nat tmps 0 t0 T0 : aget tmps 0 = _). cbn [mbind result_bind]. rewrite (C0 : memmove (concat W) (0 * zsz) t0 0 zsz = _). cbn [mbind result_bind].
  set (W1 := <[0%nat := m0]> W). assert (LW1 : map length W1 = map length W).
  { unfold W1. change (map length (<[0%nat := m0]> W)) with (length <$> <[0%nat := m0]> W). rewrite list_fmap_insert. apply list_insert_id. by rewrite list_lookup_fmap, Hw0, Lw0. }
  assert (Get1 : forall j, (j <= 2 * ((num - 1) / 2))%nat -> (j < num)%nat -> W1 !! j = merge_pairs_odd (m0 :: m1 :: r) !! j).
  { intros j Hj Hn. unfold W1. destruct (decide (j = 0%nat)) as [->|N]; [rewrite list_lookup_insert_eq by lia; done|]. rewrite list_lookup_insert_ne by done. apply DW. lia. }
  pose proof (Nat.div_mod_eq (num - 1) 2) as Dv. pose proof (Nat.mod_upper_bound (num - 1) 2) as Dm.
  destruct (Z.odd znum) eqn:Od; cbn [negb].
  - pose proof (odd_count num Od). do 2 f_equal. apply list_eq. intros j. destruct (decide (j < num)%nat) as [Hj|Hj]; [apply Get1; lia|].
    rewrite !lookup_ge_None_2; [done|lia|]. unfold W1. rewrite length_insert. lia.
  - pose proof (even_count num Od) as En. remember (num - 1)%nat as i eqn:Di. replace (znum - 1) with (Z.of_nat i) by lia.
    destruct (lookup_lt_is_Some_2 (m0 :: m1 :: r) i) as [z Hz]; [lia|]. destruct (lookup_lt_is_Some_2 W1 i) as [w Hw]; [unfold W1; rewrite length_insert; lia|].
    assert (Oz : merge_pairs_odd (m0 :: m1 :: r) !! i = Some z).
    { assert (Ei : i = Datatypes.S (2 * (num / 2 - 1))) by lia. rewrite Ei in Hz |- *. cbn [merge_pairs_odd lookup list_lookup] in Hz |- *.
      rewrite merge_pairs_single; [done|]. cbn [length] in Ln |- *. lia. }
    assert (Lz : length z = last) by (by apply Hl).
    assert (Lw : length z = length w).
    { pose proof (eq_trans LW1 LW) as X. apply (f_equal (lookup i)) in X. rewrite !list_lookup_fmap, Hw, Oz in X. by injection X. }
    assert (Sh1 : shaped W1) by (by apply (shaped_lengths W)).
    destruct (copy_section W1 tmps (m0 :: m1 :: r) i z w zlast Sh1 Ho ltac:(lia) Hz Hw Lw ltac:(lia)) as (t & T & Cp).
    rewrite (aget_nat _ _ _ T). cbn [mbind result_bind]. rewrite Cp. do 2 f_equal. apply list_eq. intros j.
    destruct (decide (j = i)) as [->|N]; [rewrite list_lookup_insert_eq by (apply lookup_lt_Some in Hw; lia); by rewrite Oz|]. rewrite list_lookup_insert_ne by done.
    destruct (decide (j < num)%nat) as [Hj|Hj]; [apply Get1; lia|]. rewrite !lookup_ge_None_2; [done|lia|]. unfold W1. rewrite length_insert. lia.
Qed.

Lemma merge_round_spec (S : list (list Z)) (k : nat) (tmps : list (list Z)) :
  sized S -> Forall (StronglySorted le) S -> (2 <= num)%nat -> holds tmps S 0 ->
  exists tmps', merge_rounds cmp zsz znum zlast (Datatypes.S k) (concat S) tmps = merge_rounds cmp zsz znum zlast k (concat (round S)) tmps' /\
    holds tmps' (round S) 0.
Proof.
  intros Sz H H2 Ho. pose proof Sz as (Ln & Sh & Hl). pose proof (merge_pairs_lengths S Sh) as Lm.
  pose proof (sized_lengths _ _ Lm Sz) as SzM. pose proof SzM as (LnM & ShM & HlM). pose proof (merge_pairs_sorted S H) as HM.
  destruct (merge_pairs_odd_facts (merge_pairs S) HM ShM) as (HO & LO & _). pose proof (sized_lengths _ _ LO SzM) as (LnO & ShO & HlO).
  cbn [merge_rounds]. rewrite half_count.
  destruct (merge_even_spec S Sz H (2 * (num / 2)) 0 tmps) as (tmps1 & E1 & Ho1); [apply (holds_weaken _ S _ 0); [done|lia..]|lia|].
  rewrite (E1 : merge_even cmp zsz znum zlast (2 * (num / 2)) 0 (concat S) tmps = _). cbn [mbind result_bind].
  destruct (copy_last S tmps1 Sz ltac:(lia) Ho1) as (tmps2 & E2 & Ho2). rewrite E2. cbn [mbind result_bind].
  assert (Hn : Z.to_nat (Z.quot (znum - 1) 2 * 2) = (2 * ((num - 1) / 2))%nat) by (replace (znum - 1) with (Z.of_nat (num - 1)) by lia; apply half_count).
  rewrite Hn.
  destruct (merge_odd_spec (merge_pairs S) tmps2 SzM HM Ho2 (2 * ((num - 1) / 2)) 0 S) as (W & E3 & HW); [|lia|].
  { split; [congruence|lia]. }
  rewrite (E3 : merge_odd cmp zsz znum zlast (2 * ((num - 1) / 2)) 0 (concat S) tmps2 = _). cbn [mbind result_bind].
  pose proof (copy_ends (merge_pairs S) tmps2 W SzM HM H2 Ho2 HW) as E4. exists tmps2. split; [|apply (holds_weaken _ (merge_pairs S) _ num); [done|unfold round; lia|lia|lia]].
  fold (round S) in E4. apply bind_Ok in E4 as (t0 & -> & E4). cbn [mbind result_bind]. apply bind_Ok in E4 as (l1 & -> & E4). cbn [mbind result_bind]. by rewrite E4.
Qed.

Lemma merge_rounds_spec (k : nat) : forall (S tmps : list (list Z)),
  sized S -> Forall (StronglySorted le) S -> (2 <= num)%nat -> holds tmps S 0 ->
  merge_rounds cmp zsz znum zlast k (concat S) tmps = Ok (concat (Nat.iter k round S)).
Proof.
  induction k as [|k IH]; intros S tmps Sz H H2 Ho; [done|].
  destruct (merge_round_spec S k tmps Sz H H2 Ho) as (tmps' & -> & Ho'). destruct (round_facts S H) as (H' & L' & _); [apply Sz|].
  rewrite Nat.iter_succ_r. apply (IH (round S) tmps'); [by apply (sized_lengths S)|done..].
Qed.

(** Sorting the sections: those before [i] are done. *)
Record sorting (V S : list (list Z)) (i : nat) : Prop := mk_sorting {
  so_lengths : map length V = map length S;
  so_done : forall j s v, (j < i)%nat -> S !! j = Some s -> V !! j = Some v -> stable_sorted cmp s v;
  so_todo : forall j, (i <= j)%nat -> V !! j = S !! j
}.

Lemma section_length (S : list (list Z)) (i : nat) (s : list Z) : sized S -> S !! i = Some s ->
  Z.of_nat (length s) = (if Z.of_nat i <? znum - 1 then zsz else zlast) /\ (length s <= sz)%nat.
Proof.
  intros (Ln & Sh & Hl) Hs. pose proof (lookup_lt_Some _ _ _ Hs). pose proof (shaped_drop i S Sh) as Sd. rewrite (drop_S S s i Hs) in Sd.
  pose proof (shaped_le _ _ Sd). split; [|lia]. destruct (Z.ltb_spec (Z.of_nat i) (znum - 1)) as [L|L].
  - destruct (drop (Datatypes.S i) S) as [|b r] eqn:E; [apply (f_equal length) in E; rewrite length_drop in E; cbn in E; lia|]. destruct Sd. lia.
  - f_equal. apply Hl. by replace (num - 1)%nat with i by lia.
Qed.

Lemma sort_sections_step (S V tmps : list (list Z)) (k i : nat) :
  sized S -> holds tmps S 0 -> sorting V S i -> (i < num)%nat ->
  exists V' tmps', sort_sections cmp zsz znum zlast (Datatypes.S k) (Z.of_nat i) (concat V) tmps =
      sort_sections cmp zsz znum zlast k (Z.of_nat (i + 1)) (concat V') tmps' /\ sorting V' S (i + 1) /\ holds tmps' S 0.
Proof.
  intros Sz Ho [L D T] Hi. pose proof (sized_lengths _ _ L Sz) as SzV. pose proof Sz as (Ln & _ & _). pose proof SzV as (LnV & ShV & _).
  destruct (lookup_lt_is_Some_2 V i) as [v Hv]; [lia|]. pose proof Hv as Hs. rewrite T in Hs by lia.
  destruct (section_at V i v ShV Hv) as [E Lp]. destruct (section_length V i v SzV Hv) as [Lv Lv'].
  destruct (lookup_lt_is_Some_2 tmps i) as [t Ht]; [rewrite (ho_length _ _ _ Ho); lia|]. pose proof (ho_sizes _ _ _ Ho _ _ Ht) as Lt.
  cbn [sort_sections]. rewrite (aget_nat _ _ _ Ht). cbn [mbind result_bind]. rewrite <-Lv, Nat2Z.id.
  destruct (CFSimpleMergeSort_spec cmp (length v) (concat (take i V)) v (concat (drop (i + 1) V)) t ltac:(lia) ltac:(lia)) as (v' & t' & Es & St & Lt').
  rewrite <-E, Lp, Nat2Z.inj_mul in Es. rewrite Es. cbn [mbind result_bind]. rewrite aset_Ok by (apply lookup_lt_Some in Ht; lia). cbn [mbind result_bind]. rewrite Nat2Z.id.
  assert (Lvv : length v' = length v) by exact (same_classes_length cmp _ _ (ss_stable cmp _ _ St)).
  destruct (replace_section V i v v' ShV Hv Lvv) as (y & m & EV & Ly & EV').
  assert (EV2 : concat (take i V) ++ v' ++ concat (drop (i + 1) V) = concat (<[i := v']> V)) by (by rewrite insert_take_drop, concat_app, Nat.add_1_r by lia).
  exists (<[i := v']> V), (<[i := t']> tmps). rewrite EV2. split; [f_equal; lia|]. split.
  - split.
    + change (map length (<[i := v']> V)) with (length <$> <[i := v']> V). rewrite list_fmap_insert. change (length <$> V) with (map length V). rewrite L.
      apply list_insert_id. by rewrite list_lookup_fmap, Hs, Lvv.
    + intros j s w Hj Sj Wj. destruct (decide (j = i)) as [->|N]; [rewrite list_lookup_insert_eq in Wj by lia; simplify_eq; done|].
      rewrite list_lookup_insert_ne in Wj by done. apply (D j); [lia|done..].
    + intros j Hj. rewrite list_lookup_insert_ne by lia. apply T. lia.
  - destruct Ho as [H1 H2 _]. split; [by rewrite length_insert| |lia]. intros j w Hw. destruct (decide (j = i)) as [->|N].
    + rewrite list_lookup_insert_eq in Hw by lia. simplify_eq. lia.
    + rewrite list_lookup_insert_ne in Hw by done. by apply (H2 j).
Qed.

Lemma sort_sections_spec (S : list (list Z)) : sized S -> forall (k i : nat) (V tmps : list (list Z)),
  holds tmps S 0 -> sorting V S i -> (i + k <= num)%nat ->
  exists V' tmps', sort_sections cmp zsz znum zlast k (Z.of_nat i) (concat V) tmps = Ok (concat V', tmps') /\ sorting V' S (i + k) /\ holds tmps' S 0.
Proof.
  intros Sz k. induction k as [|k IH]; intros i V tmps Ho So L; [exists V, tmps; by rewrite Nat.add_0_r|].
  destruct (sort_sections_step S V tmps k i Sz Ho So) as (V1 & tmps1 & -> & So1 & Ho1); [lia|].
  destruct (IH (i + 1)%nat V1 tmps1 Ho1 So1) as (V' & tmps' & E & So' & Ho'); [lia|]. exists V', tmps'. by replace (i + Datatypes.S k)%nat with (i + 1 + k)%nat by lia.
Qed.

Lemma sections_classes (S V : list (list Z)) : Forall2 (stable_sorted cmp) S V -> same_classes (concat S) (concat V).
Proof. induction 1 as [|s v S V [_ H] _ IH]; [done|]. cbn [concat]. by apply same_classes_app. Qed.

(** The whole sort on a list of sections. *)
Lemma sections_sort (S tmps : list (list Z)) :
  sized S -> (2 <= num)%nat -> holds tmps S 0 ->
  exists out, ('(listp, tmps) ← sort_sections cmp zsz znum zlast num 0 (concat S) tmps;
               merge_rounds cmp zsz znum zlast (Z.to_nat (Z.quot (znum + 1) 2)) listp tmps) = Ok out /\ stable_sorted cmp (concat S) out.
Proof.
  intros Sz H2 Ho. destruct (sort_sections_spec S Sz num 0 S tmps Ho) as (V & tmps' & E & [L D _] & Ho'); [split; [done|lia|done]|lia|].
  rewrite (E : sort_sections cmp zsz znum zlast num 0 (concat S) tmps = _). cbn [mbind result_bind]. pose proof (sized_lengths _ _ L Sz) as SzV. pose proof SzV as (LnV & ShV & _).
  assert (F2 : Forall2 (stable_sorted cmp) S V).
  { apply Forall2_same_length_lookup_2; [destruct Sz; lia|]. intros j s v Hs Hv. apply (D j); [|done..]. apply lookup_lt_Some in Hs. destruct Sz. lia. }
  assert (FV : Forall (StronglySorted le) V).
  { apply Forall_lookup. intros j v Hv. destruct (Forall2_lookup_r _ _ _ _ _ F2 Hv) as (s & _ & Ss). apply Ss. }
  exists (concat (Nat.iter (Z.to_nat (Z.quot (znum + 1) 2)) round V)). split.
  - apply merge_rounds_spec; [done..|]. apply (holds_weaken _ S _ 0); [done|destruct Sz; lia|lia|lia].
  - destruct (rounds_sort (Z.to_nat (Z.quot (znum + 1) 2)) V FV ShV) as [R1 R2]; [|split; [done|]].
    + rewrite Z.quot_div_nonneg by lia. pose proof (Z_div_mod_eq_full (znum + 1) 2). pose proof (Z.mod_pos_bound (znum + 1) 2). lia.
    + eapply same_classes_trans; [by apply sections_classes|done].
Qed.

End Memory.

End Merging.

(** ** CFSortIndexes *)

Section Indexes.

Context (cmp : Z -> Z -> Z) `{C : Comparator cmp}.
Context (fresh : Z -> list Z) (fresh_length : forall n, 0 <= n -> Z.of_nat (length (fresh n)) = n).

(** A list cut into full sections and a last one. *)
Lemma cut_sections (sz last : nat) (Hsz : (1 <= sz)%nat) (Hl : (1 <= last <= sz)%nat) : forall (n : nat) (l : list Z),
  length l = (n * sz + last)%nat -> exists S, concat S = l /\ sized sz (n + 1) last S.
Proof.
  induction n as [|n IH]; intros l L.
  - exists [l]. split; [by cbn; rewrite app_nil_r|]. split_and!; [done|cbn; lia..|]. intros z [= <-]. cbn in L. lia.
  - destruct (IH (drop sz l)) as (S & E & Ln & Sh & Hz); [rewrite length_drop; lia|]. exists (take sz l :: S). split; [cbn; by rewrite E, take_drop|].
    destruct S as [|b r]; [cbn in Ln; lia|]. split_and!; [cbn in *; lia| |].
    + split; [rewrite length_take; lia|done].
    + intros z Hz'. apply Hz. rewrite <-Hz'. replace (Datatypes.S n + 1 - 1)%nat with (Datatypes.S (n + 1 - 1)) by lia. done.
Qed.

Lemma CFSortIndexesN_spec (listp : list Z) (count ncores : Z) :
  Z.of_nat (length listp) = count -> 160 <= count -> 2 <= ncores ->
  exists out, CFSortIndexesN cmp fresh listp count ncores = Ok out /\ stable_sorted cmp listp out.
Proof.
  intros L Hc Hn. unfold CFSortIndexesN.
  set (per := Z.quot (count + ncores - 1) ncores). set (sz := Z.quot (per + 15) 16 * 16). set (num := Z.quot (count + sz - 1) sz).
  assert (Hper : 1 <= per /\ 2 * per <= count + 1).
  { unfold per. rewrite Z.quot_div_nonneg by lia. split; [apply Z.div_le_lower_bound; lia|].
    assert ((count + ncores - 1) / ncores <= (count + 1) / 2).
    { apply Z.div_le_lower_bound; [lia|]. pose proof (Z.mul_div_le (count + ncores - 1) ncores ltac:(lia)).
      assert (2 * ((count + ncores - 1) / ncores) < count + 2); [|lia].
      apply Z.mul_lt_mono_pos_l with (p := ncores); [lia|]. nia. }
    pose proof (Z.mul_div_le (count + 1) 2 ltac:(lia)). lia. }
  assert (Hsz : 1 <= sz < count).
  { unfold sz. rewrite Z.quot_div_nonneg by lia. pose proof (Z_div_mod_eq_full (per + 15) 16). pose proof (Z.mod_pos_bound (per + 15) 16 ltac:(lia)). lia. }
  assert (Hnum : 2 <= num /\ sz * (num - 1) < count <= sz * num).
  { unfold num. rewrite Z.quot_div_nonneg by lia. pose proof (Z_div_mod_eq_full (count + sz - 1) sz). pose proof (Z.mod_pos_bound (count + sz - 1) sz ltac:(lia)).
    split; [apply Z.div_le_lower_bound; lia|]. lia. }
  clearbody sz num. clear per Hper. set (last := count + sz - sz * num).
  destruct (cut_sections (Z.to_nat sz) (Z.to_nat last) ltac:(lia) ltac:(unfold last; lia) (Z.to_nat (num - 1)) listp) as (S & <- & Sz).
  { unfold last. nia. }
  replace (Z.to_nat (num - 1) + 1)%nat with (Z.to_nat num) in Sz by lia.
  destruct (sections_sort cmp (Z.to_nat sz) ltac:(lia) (Z.to_nat num) (Z.to_nat last) S (replicate (Z.to_nat num) (fresh sz)) Sz ltac:(lia)) as (out & E & St).
  { split; [rewrite length_replicate; by destruct Sz| |lia]. intros j t [-> _]%lookup_replicate. pose proof (fresh_length sz). lia. }
  rewrite !Z2Nat.id in E by (unfold last; lia). by exists out.
Qed.

Definition indexes (count : Z) : list Z := seqZ 0 count.

Lemma fill_indexes_spec (n : nat) : forall (pre x post : list Z), length x = n ->
  fill_indexes n (pre ++ x ++ post) (Z.of_nat (length pre)) = Ok (pre ++ seqZ (Z.of_nat (length pre)) (Z.of_nat n) ++ post).
Proof.
  induction n as [|n IH]; intros pre x post L; [by destruct x|]. destruct x as [|a x]; [done|]. cbn [fill_indexes app].
  rewrite aset_middle by done. cbn [mbind result_bind]. cbn in L. pose proof (IH (pre ++ [Z.of_nat (length pre)]) x post ltac:(lia)) as E.
  rewrite length_app in E. cbn [length] in E. rewrite <-!app_assoc in E. cbn [app] in E.
  etransitivity; [etransitivity; [|exact E]|]; [f_equal; lia|]. rewrite (seqZ_cons _ (Z.of_nat (Datatypes.S n))) by lia. cbn [app]. do 4 f_equal. f_equal; lia.
Qed.

Lemma fill_blocks_spec (sz count : Z) : 0 <= sz -> 0 <= count -> forall (k : nat) (n : Z) (x : list Z),
  0 <= n -> Z.of_nat (length x) = count - Z.min (n * sz) count -> count <= (n + Z.of_nat k) * sz ->
  fill_blocks k (seqZ 0 (Z.min (n * sz) count) ++ x) n sz count = Ok (seqZ 0 count).
Proof.
  intros Hs Hc k. induction k as [|k IH]; intros n x Hn L Hk.
  { cbn [fill_blocks]. rewrite Z.add_0_r in Hk. rewrite Z.min_r in L |- * by lia. destruct x; [by rewrite app_nil_r|cbn in L; lia]. }
  cbn [fill_blocks]. destruct (Z_le_gt_dec count (n * sz)) as [G|G].
  - rewrite Z.min_r in L by lia. rewrite (Z.min_r (n * sz)), Z.min_r by lia. replace (Z.to_nat (count - n * sz)) with 0%nat by lia. cbn [fill_indexes mbind result_bind].
    pose proof (IH (n + 1) x ltac:(lia)) as E. rewrite (Z.min_r ((n + 1) * sz)) in E by lia. apply E; lia.
  - rewrite (Z.min_l (n * sz)) in L by lia. rewrite (Z.min_l (n * sz)) by lia. assert (0 <= n * sz) by nia. set (lim := Z.min (n * sz + sz) count).
    rewrite <-(take_drop (Z.to_nat (lim - n * sz)) x).
    pose proof (fill_indexes_spec (Z.to_nat (lim - n * sz)) (seqZ 0 (n * sz)) (take (Z.to_nat (lim - n * sz)) x) (drop (Z.to_nat (lim - n * sz)) x)) as E.
    rewrite length_seqZ, !Z2Nat.id in E by (unfold lim; lia). rewrite E by (rewrite length_take; unfold lim; lia). cbn [mbind result_bind].
    pose proof (IH (n + 1) (drop (Z.to_nat (lim - n * sz)) x) ltac:(lia)) as E'.
    replace (Z.min ((n + 1) * sz) count) with lim in E' by (unfold lim; f_equal; lia). rewrite <-E'; [|rewrite length_drop; unfold lim; lia|lia].
    f_equal. rewrite app_assoc. f_equal. replace lim with (n * sz + (lim - n * sz)) at 2 by lia. rewrite seqZ_app by (unfold lim; lia). by rewrite Z.add_0_l.
Qed.

Lemma fill_spec (buf : list Z) (count : Z) : 1 <= count -> Z.of_nat (length buf) = count ->
  (if count <=? 65536 then fill_indexes (Z.to_nat count) buf 0 else fill_blocks 8 buf 0 ((count + 15) / 16 * 16 / 8) count) = Ok (indexes count).
Proof.
  intros Hc L. unfold indexes. destruct (count <=? 65536).
  - pose proof (fill_indexes_spec (Z.to_nat count) [] buf [] ltac:(lia)) as E. rewrite Z2Nat.id, !app_nil_r in E by lia. exact E.
  - assert (0 <= (count + 15) / 16 * 16 / 8) by (apply Z.div_pos; [|lia]; pose proof (Z.div_pos (count + 15) 16); lia).
    pose proof (fill_blocks_spec ((count + 15) / 16 * 16 / 8) count ltac:(done) ltac:(lia) 8 0 buf ltac:(lia)) as E. rewrite Z.mul_0_l, Z.min_l in E by lia.
    apply E; [lia|]. pose proof (Z_div_mod_eq_full (count + 15) 16). pose proof (Z.mod_pos_bound (count + 15) 16 ltac:(lia)).
      replace ((count + 15) / 16 * 16) with ((count + 15) / 16 * 2 * 8) by lia. rewrite Z.div_mul by lia. lia.
Qed.

Lemma sort_cores_spec (count opts active : Z) (o n : Z) :
  sort_cores count opts active = (o, n) -> Z.land o kCFSortConcurrent <> 0 -> 160 <= count /\ 2 <= n.
Proof.
  unfold sort_cores. destruct (Z.eqb_spec (Z.land opts kCFSortConcurrent) 0) as [E|E]; cbn [negb]; [by intros [= <- <-] ?|].
  destruct (Z.ltb_spec count 160), (Z.ltb_spec active 2); cbn [orb].
  1-3: intros [= <- <-] N; exfalso; apply N; rewrite <-Z.land_assoc, (Z.land_comm (Z.lnot _)), Z.land_lnot_diag; apply Z.land_0_r.
  intros Hp _. split; [done|]. repeat case_match; simplify_eq; lia.
Qed.

Lemma CFSortIndexes_spec (buf : list Z) (count opts active : Z) :
  1 <= count <= (2 ^ 63 - 1) / 8 -> Z.of_nat (length buf) = count ->
  exists out, CFSortIndexes cmp fresh buf count opts active = Ok out /\ stable_sorted cmp (indexes count) out /\ out ≡ₚ indexes count.
Proof.
  intros Hc L. unfold CFSortIndexes. rewrite (proj2 (Z.ltb_ge _ _)), (proj2 (Z.ltb_ge _ _)) by lia.
  destruct (sort_cores count opts active) as [o n] eqn:Ec. rewrite fill_spec by (done || lia). cbn [mbind result_bind].
  assert (Li : Z.of_nat (length (indexes count)) = count) by (unfold indexes; rewrite length_seqZ; lia).
  assert (Fin : exists out, (if negb (Z.land o kCFSortConcurrent =? 0) then CFSortIndexesN cmp fresh (indexes count) count n
    else '(indexBuffer, _) ← CFSimpleMergeSort cmp (Z.to_nat count) (indexes count) 0 count (fresh count); Ok indexBuffer) = Ok out /\ stable_sorted cmp (indexes count) out).
  { destruct (Z.eqb_spec (Z.land o kCFSortConcurrent) 0) as [Eo|No]; cbn [negb].
    - pose proof (CFSimpleMergeSort_spec cmp (Z.to_nat count) [] (indexes count) [] (fresh count) ltac:(lia) ltac:(pose proof (fresh_length count); lia)) as (out & t & E & St & _).
      cbn [app] in E. rewrite !app_nil_r, Li in E. exists out. split; [|done]. change (Z.of_nat (length (@nil Z))) with 0 in E. by rewrite E.
    - destruct (sort_cores_spec _ _ _ _ _ Ec No). by apply CFSortIndexesN_spec. }
  destruct Fin as (out & E & St). exists out. split_and!; [done|done|]. apply (same_classes_perm cmp). intros x. by apply (ss_stable cmp).
Qed.

(** C26. CFSortIndexes returns one and the same permutation of the indexes for every option and number
    of processors: the stable sort under the comparator. The concurrent variant, sections sorted apart
    and merged in odd-even rounds, therefore agrees with the sequential merge sort. *)
Theorem sort_indexes_stable (buf : list Z) (count : Z) :
  1 <= count <= (2 ^ 63 - 1) / 8 -> Z.of_nat (length buf) = count ->
  exists out, stable_sorted cmp (indexes count) out /\ out ≡ₚ indexes count /\
    forall opts active, CFSortIndexes cmp fresh buf count opts active = Ok out.
Proof.
  intros Hc L. destruct (CFSortIndexes_spec buf count 0 0 Hc L) as (out & _ & St & P). exists out. split_and!; [done..|]. intros opts active.
  destruct (CFSortIndexes_spec buf count opts active Hc L) as (out' & E & St' & _). rewrite E. f_equal.
  apply (sorted_classes_unique cmp); [apply St'|apply St|]. intros x. by rewrite (ss_stable _ _ _ St), (ss_stable _ _ _ St').
Qed.

End Indexes.

(** ** CFQSortArray and CFMergeSortArray *)

Section Arrays.

Context (cmp : Z -> Z -> Z) `{C : Comparator cmp}.
Context (fresh : Z -> list Z) (fresh_length : forall n, 0 <= n -> Z.of_nat (length (fresh n)) = n).

(** The block that CFSortIndexes is given compares the elements at two indexes. *)
Definition by_element (list : list Z) (a b : Z) : Z := cmp (element list a) (element list b).

#[export] Instance by_element_comparator (list : list Z) : Comparator (by_element list).
Proof. split; unfold by_element; intros *; [apply cmp_total|apply cmp_trans]. Qed.

Lemma gather_spec (list ixs : list Z) : Forall (fun i => 0 <= i < Z.of_nat (length list)) ixs -> gather ixs list = Ok (map (element list) ixs).
Proof.
  induction 1 as [|i ixs Hi _ IH]; [done|]. cbn [gather map]. rewrite IH. destruct (aget_bound list i Hi) as [v Hv]. rewrite Hv. cbn [mbind result_bind].
  apply aget_Ok in Hv as [_ Hv]. unfold element. by rewrite (nth_lookup_Some _ _ _ _ Hv).
Qed.

Lemma gather_all (list : list Z) : map (element list) (indexes (Z.of_nat (length list))) = list.
Proof.
  apply list_eq. intros i. change (map (element list) (indexes (Z.of_nat (length list)))) with (element list <$> indexes (Z.of_nat (length list))).
  rewrite list_lookup_fmap. unfold indexes. destruct (decide (i < length list)%nat) as [L|L].
  - rewrite lookup_seqZ_lt by lia. destruct (lookup_lt_is_Some_2 list i L) as [v Hv]. cbn. unfold element.
    by rewrite Z.add_0_l, Nat2Z.id, (nth_lookup_Some _ _ _ _ Hv).
  - rewrite lookup_seqZ_ge by lia. by rewrite lookup_ge_None_2 by lia.
Qed.

Lemma sorted_elements (list ixs : list Z) : StronglySorted (le (by_element list)) ixs -> StronglySorted (le cmp) (map (element list) ixs).
Proof. induction 1 as [|i ixs S IH F]; cbn; constructor; [done|]. by apply Forall_map. Qed.

Lemma filter_elements (list ixs : list Z) (i : Z) :
  filter (eqv cmp (element list i)) (map (element list) ixs) = map (element list) (filter (eqv (by_element list) i) ixs).
Proof.
  induction ixs as [|j ixs IH]; [done|]. cbn [map]. rewrite !filter_cons, IH.
  destruct (decide (eqv cmp (element list i) (element list j))), (decide (eqv (by_element list) i j)); done.
Qed.

Lemma filter_eqv_congr (x y : Z) (l : list Z) : eqv cmp x y -> filter (eqv cmp x) l = filter (eqv cmp y) l.
Proof.
  intros E. apply list_filter_iff. intros z. split; intros H.
  - eapply eqv_trans; [done| |exact H]. by apply eqv_sym.
  - by eapply eqv_trans.
Qed.

(** Sorting the indexes by their elements, stably, sorts the elements stably. *)
Lemma stable_elements (list ixs : list Z) :
  stable_sorted (by_element list) (indexes (Z.of_nat (length list))) ixs -> stable_sorted cmp list (map (element list) ixs).
Proof.
  intros [S H]. split; [by apply sorted_elements|]. intros x.
  destruct (filter (eqv cmp x) (map (element list) ixs)) as [|y r] eqn:E.
  - symmetry. apply elem_of_nil_inv. intros z Hz. apply list_elem_of_filter in Hz as [Ez Hz]. assert (Hz' : z ∈ map (element list) ixs).
    { rewrite <-(gather_all list) in Hz. apply list_elem_of_fmap in Hz as (i & -> & Hi). apply list_elem_of_fmap. exists i. split; [done|].
      by rewrite (same_classes_perm (by_element list) _ _ H). }
    assert (F : z ∈ filter (eqv cmp x) (map (element list) ixs)) by by apply list_elem_of_filter. rewrite E in F. by apply elem_of_nil in F.
  - assert (Hy : y ∈ filter (eqv cmp x) (map (element list) ixs)) by (rewrite E; left). rewrite <-E.
    apply list_elem_of_filter in Hy as [Exy Hy]. apply list_elem_of_fmap in Hy as (i & -> & Hi).
    rewrite !(filter_eqv_congr x (element list i)), filter_elements, H by done. by rewrite <-filter_elements, gather_all.
Qed.

Lemma sort_array_stable (opts : Z) (list : list Z) (elementSize : Z) :
  1 <= elementSize -> Z.of_nat (length list) <= (2 ^ 63 - 1) / 8 ->
  exists out, sort_array fresh opts cmp list elementSize = Ok out /\ stable_sorted cmp list out.
Proof.
  intros He Hl. unfold sort_array. rewrite (proj2 (Z.ltb_ge elementSize 1)), orb_false_r by lia. destruct (Z.ltb_spec (Z.of_nat (length list)) 2) as [L|L].
  - exists list. split; [done|]. split; [|done]. destruct list as [|a [|b list]]; [constructor|repeat constructor|cbn in L; lia].
  - fold (by_element list). set (count := Z.of_nat (length list)).
    destruct (CFSortIndexes_spec (by_element list) fresh fresh_length (fresh count) count opts 0) as (ixs & E & St & P); [lia|by apply fresh_length; lia|].
    change (fun a b => cmp (element list a) (element list b)) with (by_element list). rewrite E. cbn [mbind result_bind].
    rewrite gather_spec. 2: { rewrite P. apply Forall_forall. intros i Hi. apply elem_of_seqZ in Hi. lia. }
    cbn [mbind result_bind]. apply stable_elements in St. exists (map (element list) ixs). split; [|done].
    pose proof (memmove_middle [] list [] [] (map (element list) ixs) [] 0 0 count) as M. cbn [app] in M. rewrite !app_nil_r in M. apply M; [done..|].
    rewrite length_map, P. unfold indexes. rewrite length_seqZ. lia.
Qed.

Theorem sort_array_agree (list : list Z) (elementSize : Z) :
  1 <= elementSize -> Z.of_nat (length list) <= (2 ^ 63 - 1) / 8 ->
  exists out, CFQSortArray fresh cmp list elementSize = Ok out /\ CFMergeSortArray fresh cmp list elementSize = Ok out /\
    StronglySorted (le cmp) out /\ (forall x, filter (eqv cmp x) out = filter (eqv cmp x) list) /\ out ≡ₚ list.
Proof.
  intros He Hl. destruct (sort_array_stable 0 list elementSize He Hl) as (out & E & St). destruct (sort_array_stable kCFSortStable list elementSize He Hl) as (out' & E' & St').
  exists out. assert (H : same_classes cmp list out) by (intros x; apply St). split_and!; [done| |by destruct St|done|by apply (same_classes_perm cmp)].
  unfold CFMergeSortArray. rewrite E'. f_equal. apply (sorted_classes_unique cmp); [apply St'|apply St|]. intros x. by rewrite (ss_stable _ _ _ St), (ss_stable _ _ _ St').
Qed.

End Arrays.

(** ** Inputs on which the theorems apply *)

(** Ordering by the tens digit: values that differ only in their units are equivalent. *)
Definition sample_tens (a b : Z) : Z := if a / 10 <? b / 10 then -1 else if b / 10 <? a / 10 then 1 else 0.

#[export] Instance sample_tens_comparator : Comparator sample_tens.
Proof. split; unfold sample_tens; intros *; repeat case_match; lia. Qed.

Definition sample_fresh (n : Z) : list Z := replicate (Z.to_nat n) (-7).

Lemma sample_fresh_length (n : Z) : 0 <= n -> Z.of_nat (length (sample_fresh n)) = n.
Proof. intros H. unfold sample_fresh. rewrite length_replicate. lia. Qed.

(** The indexes 0 to 39 backwards by their tens. *)
Definition sample_down (a b : Z) : Z := sample_tens b a.

#[export] Instance sample_down_comparator : Comparator sample_down.
Proof. split; unfold sample_down, sample_tens; intros *; repeat case_match; lia. Qed.

(** The concurrent sort of 200 indexes, on two cores. *)
Lemma sort_indexes_witness : CFSortIndexes sample_down sample_fresh (sample_fresh 200) 200 kCFSortConcurrent 4 =
  Ok (concat (map (fun t => seqZ (10 * t) 10) (rev (seqZ 0 20)))).
Proof.
  destruct (sort_indexes_stable sample_down sample_fresh sample_fresh_length (sample_fresh 200) 200) as (out & _ & _ & E); [split; vm_compute; congruence|reflexivity|].
  pose proof (E kCFSortConcurrent 4) as E4. pose proof (E 0 0) as E0. rewrite E4, <-E0. vm_compute. reflexivity.
Defined.

Lemma sort_array_witness : CFQSortArray sample_fresh sample_tens [35; 12; 31; 19; 5; 38; 11] 8 = Ok [5; 12; 19; 11; 35; 31; 38] /\
  CFMergeSortArray sample_fresh sample_tens [35; 12; 31; 19; 5; 38; 11] 8 = Ok [5; 12; 19; 11; 35; 31; 38].
Proof.
  destruct (sort_array_agree sample_tens sample_fresh sample_fresh_length [35; 12; 31; 19; 5; 38; 11] 8) as (out & E & E' & _); [lia|vm_compute; congruence|].
  rewrite E', <-E. split; vm_compute; reflexivity.
Defined.

End SortN.
