(* ===== verification/Tree.v ===== *)
(** * CFTree.c: trees of sibling-linked nodes

    A node points to its parent, its next sibling, its first and its last child, and
    each child holds one retain of its parent.  Memory is a map from addresses to
    nodes with their retain counts; the release of the last reference deallocates a
    node, which detaches and releases its children.  A pointer to memory that is not
    a node is [Undef].  Function pointers of a context are their addresses; calls to
    them, calls of an applier and deallocations are logged.  The collectable
    allocator is not used; deallocation is that of the Mac target, which detaches the
    children (other targets leave them with a dangling parent). *)

From stdpp Require Import base list numbers option gmap.
From Stdlib Require Import ZArith Lia.
From S2P Require Import Prelude Sort.

Module Tree.

(** [struct __CFTreeCallBacks]; 0 is NULL. *)
Record CFTreeCallBacks : Type := mkCB { cb_retain : Z; cb_release : Z; cb_copyDescription : Z }.

(** [CFTreeContext], of version 0. *)
Record CFTreeContext : Type := mkContext { c_info : Z; c_callbacks : CFTreeCallBacks }.

Inductive callbacks_type : Type :=
| HasNullCallBacks
| HasCFTypeCallBacks
| HasCustomCallBacks.

(** [struct __CFTree], with the retain count of its base. *)
Record node : Type := mkNode {
  t_parent : Z;
  t_sibling : Z;
  t_child : Z;
  t_rightmostChild : Z;
  t_info : Z;
  t_type : callbacks_type;
  t_callbacks : CFTreeCallBacks;
  t_rc : Z
}.

Inductive event : Type :=
| RetainInfo (f info : Z)
| ReleaseInfo (f info : Z)
| Apply (t : Z)
| Free (t : Z).

Record heap : Type := mkHeap { h_mem : gmap Z node; h_log : list event }.

(** ** Memory *)

Definition load (h : heap) (t : Z) : result node :=
  match h_mem h !! t with Some n => Ok n | None => Undef end.

Definition store (h : heap) (t : Z) (f : node -> node) : result heap :=
  match h_mem h !! t with
  | Some _ => Ok (mkHeap (alter f t (h_mem h)) (h_log h))
  | None => Undef
  end.

Definition emit (h : heap) (e : event) : heap := mkHeap (h_mem h) (h_log h ++ [e]).

Definition set_parent (v : Z) (n : node) : node :=
  mkNode v (t_sibling n) (t_child n) (t_rightmostChild n) (t_info n) (t_type n) (t_callbacks n) (t_rc n).
Definition set_sibling (v : Z) (n : node) : node :=
  mkNode (t_parent n) v (t_child n) (t_rightmostChild n) (t_info n) (t_type n) (t_callbacks n) (t_rc n).
Definition set_child (v : Z) (n : node) : node :=
  mkNode (t_parent n) (t_sibling n) v (t_rightmostChild n) (t_info n) (t_type n) (t_callbacks n) (t_rc n).
Definition set_rightmost (v : Z) (n : node) : node :=
  mkNode (t_parent n) (t_sibling n) (t_child n) v (t_info n) (t_type n) (t_callbacks n) (t_rc n).
Definition set_rc (v : Z) (n : node) : node :=
  mkNode (t_parent n) (t_sibling n) (t_child n) (t_rightmostChild n) (t_info n) (t_type n) (t_callbacks n) v.
Definition set_context (info : Z) (ty : callbacks_type) (cb : CFTreeCallBacks) (n : node) : node :=
  mkNode (t_parent n) (t_sibling n) (t_child n) (t_rightmostChild n) info ty cb (t_rc n).

Section Operations.

(** The functions CFRetain, CFRelease and CFCopyDescription as addresses, and what a
    retain callback returns. *)
Context (cf_retain cf_release cf_copyDescription : Z) (invoke : Z -> Z -> Z).

Definition kCFTypeTreeCallBacks : CFTreeCallBacks := mkCB cf_retain cf_release cf_copyDescription.
Definition kCFNullTreeCallBacks : CFTreeCallBacks := mkCB 0 0 0.

Definition CFTreeGetCallBacks (n : node) : CFTreeCallBacks :=
  match t_type n with
  | HasNullCallBacks => kCFNullTreeCallBacks
  | HasCFTypeCallBacks => kCFTypeTreeCallBacks
  | HasCustomCallBacks => t_callbacks n
  end.

Definition CFTreeCallBacksMatchNull (c : CFTreeCallBacks) : bool :=
  (cb_retain c =? 0) && (cb_release c =? 0) && (cb_copyDescription c =? 0).

Definition CFTreeCallBacksMatchCFType (c : CFTreeCallBacks) : bool :=
  (cb_retain c =? cf_retain) && (cb_release c =? cf_release) && (cb_copyDescription c =? cf_copyDescription).

(** ** Contexts *)

Definition CFTreeGetContext (h : heap) (tree : Z) : result CFTreeContext :=
  n ← load h tree; Ok (mkContext (t_info n) (CFTreeGetCallBacks n)).

Definition CFTreeSetContext (h : heap) (tree : Z) (context : CFTreeContext) : result heap :=
  n ← load h tree;
  let oldcb := CFTreeGetCallBacks n in
  let oldinfo := t_info n in
  let cb := c_callbacks context in
  let '(newtype, callbacks) :=
    if CFTreeCallBacksMatchNull cb then (HasNullCallBacks, t_callbacks n)
    else if CFTreeCallBacksMatchCFType cb then (HasCFTypeCallBacks, t_callbacks n)
    else (HasCustomCallBacks, cb) in
  h ← store h tree (set_context oldinfo newtype callbacks);
  let newcb := CFTreeGetCallBacks (set_context oldinfo newtype callbacks n) in
  let retained := negb (cb_retain newcb =? 0) in
  let h := if retained then emit h (RetainInfo (cb_retain newcb) (c_info context)) else h in
  h ← store h tree (set_context (if retained then invoke (cb_retain newcb) (c_info context) else c_info context)
                      newtype callbacks);
  Ok (if negb (cb_release oldcb =? 0) then emit h (ReleaseInfo (cb_release oldcb) oldinfo) else h).

(** [memory] is the address of the new instance. *)
Definition CFTreeCreate (h : heap) (memory : Z) (context : CFTreeContext) : result heap :=
  CFTreeSetContext
    (mkHeap (<[memory := mkNode 0 0 0 0 0 HasNullCallBacks kCFNullTreeCallBacks 1]> (h_mem h)) (h_log h))
    memory context.

(** ** Queries *)

Definition CFTreeGetParent (h : heap) (tree : Z) : result Z := n ← load h tree; Ok (t_parent n).
Definition CFTreeGetNextSibling (h : heap) (tree : Z) : result Z := n ← load h tree; Ok (t_sibling n).
Definition CFTreeGetFirstChild (h : heap) (tree : Z) : result Z := n ← load h tree; Ok (t_child n).

(** A loop along [_sibling] makes at most one step per node. *)
Definition steps (h : heap) : nat := S (size (h_mem h)).

(** [cnt] is an [SInt32]. *)
Fixpoint count_loop (fuel : nat) (h : heap) (tree cnt : Z) : result Z :=
  if tree =? 0 then Ok cnt
  else match fuel with
       | O => NoFuel
       | S fuel => n ← load h tree; count_loop fuel h (t_sibling n) (s32 (cnt + 1))
       end.

Definition CFTreeGetChildCount (h : heap) (tree : Z) : result Z :=
  n ← load h tree; count_loop (steps h) h (t_child n) 0.

Fixpoint child_at_loop (fuel : nat) (h : heap) (tree idx : Z) : result Z :=
  if tree =? 0 then Ok 0
  else match fuel with
       | O => NoFuel
       | S fuel => if idx =? 0 then Ok tree else n ← load h tree; child_at_loop fuel h (t_sibling n) (idx - 1)
       end.

Definition CFTreeGetChildAtIndex (h : heap) (tree idx : Z) : result Z :=
  n ← load h tree; child_at_loop (steps h) h (t_child n) idx.

(** The children in order, as [CFTreeGetChildren] writes them and
    [CFTreeSortChildren] collects them. *)
Fixpoint children_loop (fuel : nat) (h : heap) (tree : Z) : result (list Z) :=
  if tree =? 0 then Ok []
  else match fuel with
       | O => NoFuel
       | S fuel => n ← load h tree; l ← children_loop fuel h (t_sibling n); Ok (tree :: l)
       end.

Definition CFTreeGetChildren (h : heap) (tree : Z) : result (list Z) :=
  n ← load h tree; children_loop (steps h) h (t_child n).

(** The applier does not change the tree. *)
Fixpoint apply_loop (fuel : nat) (h : heap) (tree : Z) : result heap :=
  if tree =? 0 then Ok h
  else match fuel with
       | O => NoFuel
       | S fuel => let h := emit h (Apply tree) in n ← load h tree; apply_loop fuel h (t_sibling n)
       end.

Definition CFTreeApplyFunctionToChildren (h : heap) (tree : Z) : result heap :=
  n ← load h tree; apply_loop (steps h) h (t_child n).

Fixpoint find_root_loop (fuel : nat) (h : heap) (tree : Z) : result Z :=
  match fuel with
  | O => NoFuel
  | S fuel => n ← load h tree; if t_parent n =? 0 then Ok tree else find_root_loop fuel h (t_parent n)
  end.

Definition CFTreeFindRoot (h : heap) (tree : Z) : result Z := find_root_loop (steps h) h tree.

(** ** Retain and release *)

Definition CFRetain (h : heap) (t : Z) : result heap := store h t (fun n => set_rc (t_rc n + 1) n).

(** The loop of [CFTreeRemoveAllChildren]; [rel] is CFRelease. *)
Fixpoint unlink_children (rel : heap -> Z -> result heap) (k : nat) (h : heap) (nextChild : Z) : result heap :=
  if nextChild =? 0 then Ok h
  else match k with
       | O => NoFuel
       | S k =>
         n ← load h nextChild;
         let nextSibling := t_sibling n in
         h ← store h nextChild (fun n => set_sibling 0 (set_parent 0 n));
         h ← rel h nextChild;
         unlink_children rel k h nextSibling
       end.

Definition remove_all_children (rel : heap -> Z -> result heap) (h : heap) (tree : Z) : result heap :=
  n ← load h tree;
  h ← store h tree (fun n => set_rightmost 0 (set_child 0 n));
  unlink_children rel (steps h) h (t_child n).

(** CFRelease of a tree: [__CFTreeDeallocate] and the end of the memory when the
    count reaches zero. *)
Fixpoint CFRelease (fuel : nat) (h : heap) (t : Z) : result heap :=
  match fuel with
  | O => NoFuel
  | S fuel =>
    n ← load h t;
    if 1 <? t_rc n then store h t (set_rc (t_rc n - 1))
    else
      h ← remove_all_children (CFRelease fuel) h t;
      let cb := CFTreeGetCallBacks n in
      let h := if negb (cb_release cb =? 0) then emit h (ReleaseInfo (cb_release cb) (t_info n)) else h in
      Ok (emit (mkHeap (delete t (h_mem h)) (h_log h)) (Free t))
  end.

Definition release (h : heap) (t : Z) : result heap := CFRelease (steps h) h t.

(** ** Changing the tree *)

Definition CFTreePrependChild (h : heap) (tree newChild : Z) : result heap :=
  h ← CFRetain h newChild;
  h ← store h newChild (set_parent tree);
  n ← load h tree;
  h ← store h newChild (set_sibling (t_child n));
  h ← (if t_child n =? 0 then store h tree (set_rightmost newChild) else Ok h);
  store h tree (set_child newChild).

Definition CFTreeAppendChild (h : heap) (tree newChild : Z) : result heap :=
  c ← load h newChild;
  if negb (t_parent c =? 0) then Halt
  else
    h ← CFRetain h newChild;
    h ← store h newChild (set_parent tree);
    h ← store h newChild (set_sibling 0);
    n ← load h tree;
    h ← (if t_child n =? 0 then store h tree (set_child newChild)
         else store h (t_rightmostChild n) (set_sibling newChild));
    store h tree (set_rightmost newChild).

Definition CFTreeInsertSibling (h : heap) (tree newSibling : Z) : result heap :=
  h ← CFRetain h newSibling;
  n ← load h tree;
  h ← store h newSibling (set_parent (t_parent n));
  h ← store h newSibling (set_sibling (t_sibling n));
  h ← store h tree (set_sibling newSibling);
  if t_parent n =? 0 then Ok h
  else
    p ← load h (t_parent n);
    if t_rightmostChild p =? tree then store h (t_parent n) (set_rightmost newSibling) else Ok h.

(** The search for the previous sibling. *)
Fixpoint unlink_from (fuel : nat) (h : heap) (parent tree sibling prevSibling : Z) : result heap :=
  if prevSibling =? 0 then Ok h
  else match fuel with
       | O => NoFuel
       | S fuel =>
         n ← load h prevSibling;
         if t_sibling n =? tree then
           h ← store h prevSibling (set_sibling sibling);
           p ← load h parent;
           if t_rightmostChild p =? tree then store h parent (set_rightmost prevSibling) else Ok h
         else unlink_from fuel h parent tree sibling (t_sibling n)
       end.

Definition CFTreeRemove (h : heap) (tree : Z) : result heap :=
  n ← load h tree;
  if t_parent n =? 0 then Ok h
  else
    p ← load h (t_parent n);
    h ← (if tree =? t_child p then
           h ← store h (t_parent n) (set_child (t_sibling n));
           if t_sibling n =? 0 then store h (t_parent n) (set_rightmost 0) else Ok h
         else unlink_from (steps h) h (t_parent n) tree (t_sibling n) (t_child p));
    h ← store h tree (fun n => set_sibling 0 (set_parent 0 n));
    release h tree.

Definition CFTreeRemoveAllChildren (h : heap) (tree : Z) : result heap :=
  remove_all_children release h tree.

(** The siblings relinked in the order of the list. *)
Fixpoint relink (h : heap) (list : list Z) : result heap :=
  match list with
  | [] => Ok h
  | [last] => store h last (set_sibling 0)
  | a :: (b :: _) as rest => h ← store h a (set_sibling b); relink h rest
  end.

(** [comparator] is the caller's with its context, [fresh] the contents of the index
    buffers of CFQSortArray. *)
Definition CFTreeSortChildren (fresh : Z -> list Z) (comparator : Z -> Z -> Z) (h : heap) (tree : Z) : result heap :=
  children ← CFTreeGetChildCount h tree;
  if 1 <? children then
    list ← CFTreeGetChildren h tree;
    list ← Sort.CFQSortArray fresh comparator list 8;
    match list with
    | [] => Undef
    | first :: _ =>
      h ← store h tree (set_child first);
      h ← relink h list;
      store h tree (set_rightmost (List.last list 0))
    end
  else Ok h.

End Operations.

(** ** The forest

    The abstract value of a memory: the list of the children of each node.  A node of
    [E] is exempt: it has been detached and waits to be released.  Cycles of parents
    are not excluded, because the insertions do not check for them; the theorems hold
    with and without. *)

Definition par_of (mem : gmap Z node) (a : Z) : option Z := t_parent <$> mem !! a.
Definition sib_of (mem : gmap Z node) (a : Z) : option Z := t_sibling <$> mem !! a.
Definition child_of (mem : gmap Z node) (a : Z) : option Z := t_child <$> mem !! a.
Definition right_of (mem : gmap Z node) (a : Z) : option Z := t_rightmostChild <$> mem !! a.
Definition rc_of (mem : gmap Z node) (a : Z) : option Z := t_rc <$> mem !! a.

Fixpoint chain (mem : gmap Z node) (p : Z) (l : list Z) : Prop :=
  match l with
  | [] => p = 0
  | a :: l => p = a /\ a <> 0 /\ exists s, sib_of mem a = Some s /\ chain mem s l
  end.

Definition last0 (l : list Z) : Z := default 0 (last l).

Record forest (mem : gmap Z node) (K : gmap Z (list Z)) (E : gset Z) : Prop := mk_forest {
  fo_dom : forall n, is_Some (mem !! n) <-> is_Some (K !! n);
  fo_null : mem !! 0 = None;
  fo_kids : forall n l, K !! n = Some l ->
    exists c, child_of mem n = Some c /\ chain mem c l /\ right_of mem n = Some (last0 l) /\ NoDup l;
  fo_par : forall n l c, K !! n = Some l -> c ∈ l -> c ∉ E /\ par_of mem c = Some n;
  fo_up : forall m p, m ∉ E -> par_of mem m = Some p -> p <> 0 -> exists l, K !! p = Some l /\ m ∈ l;
  fo_root : forall m, m ∉ E -> par_of mem m = Some 0 -> sib_of mem m = Some 0;
  fo_rc : forall n r, rc_of mem n = Some r -> 1 <= r
}.

Lemma chain_ext (mem mem' : gmap Z node) (l : list Z) (p : Z) :
  (forall a, a ∈ l -> sib_of mem' a = sib_of mem a) -> chain mem p l -> chain mem' p l.
Proof.
  revert p. induction l as [|a l IH]; intros p He C; [done|]. destruct C as (-> & N & s & S & C).
  split_and!; [done..|]. exists s. rewrite He by left. split; [done|]. apply IH; [|done]. intros. apply He. by right.
Qed.

Lemma chain_in (mem : gmap Z node) (l : list Z) (p a : Z) : chain mem p l -> a ∈ l -> a <> 0 /\ is_Some (mem !! a).
Proof.
  revert p. induction l as [|b l IH]; intros p C Ha; [by apply elem_of_nil in Ha|]. destruct C as (-> & N & s & S & C).
  apply elem_of_cons in Ha as [->|Ha]; [|by apply (IH s)]. split; [done|]. unfold sib_of in S. by destruct (mem !! b).
Qed.

Lemma chain_head (mem : gmap Z node) (l : list Z) (p : Z) : chain mem p l -> p = default 0 (head l).
Proof. by destruct l as [|a l]; [|intros [-> _]]. Qed.

Lemma no_zero (mem : gmap Z node) (K : gmap Z (list Z)) (E : gset Z) (l : list Z) : forest mem K E -> K !! 0 = Some l -> False.
Proof. intros F H. destruct (proj2 (fo_dom _ _ _ F 0)) as [n Hn]; [by exists l|]. by rewrite (fo_null _ _ _ F) in Hn. Qed.

(** The children of one node change: [l] becomes [l'], and nodes may enter or leave
    the exempt set.  Every other node keeps its links. *)
Lemma forest_relink (mem mem' : gmap Z node) (K : gmap Z (list Z)) (E E' : gset Z) (t c' : Z) (l l' : list Z) :
  forest mem K E -> K !! t = Some l ->
  (forall n, is_Some (mem' !! n) <-> is_Some (mem !! n)) ->
  (forall n, n <> t -> child_of mem' n = child_of mem n /\ right_of mem' n = right_of mem n) ->
  child_of mem' t = Some c' -> chain mem' c' l' -> right_of mem' t = Some (last0 l') -> NoDup l' ->
  (forall m, m ∉ l -> m ∉ l' -> m ∉ E -> par_of mem' m = par_of mem m /\ sib_of mem' m = sib_of mem m) ->
  (forall c, c ∈ l' -> c ∉ E' /\ par_of mem' c = Some t /\ (c ∈ l \/ c ∈ E \/ par_of mem c = Some 0)) ->
  (forall m, m ∈ l \/ m ∈ E -> m ∉ l' -> m ∉ E' -> par_of mem' m <> None -> par_of mem' m = Some 0 /\ sib_of mem' m = Some 0) ->
  (forall m, m ∈ E' -> m ∈ E \/ m ∈ l) ->
  (forall n r, rc_of mem' n = Some r -> 1 <= r) ->
  forest mem' (<[t := l']> K) E'.
Proof.
  intros F Kt Hd H1 Hc Hch Hr Hnd H3 H4 H5 H6 Hrc.
  assert (Other : forall n ln a, n <> t -> K !! n = Some ln -> a ∈ ln -> a ∉ l /\ a ∉ l' /\ a ∉ E /\ a ∉ E').
  { intros n ln a Nn Kn Ha. destruct (fo_par _ _ _ F n ln a Kn Ha) as [Ne P].
    assert (Nl : a ∉ l) by (intros Hl; destruct (fo_par _ _ _ F t l a Kt Hl); congruence).
    split_and!; [done| |done|intros He; by destruct (H6 a He)].
    intros Hl'. destruct (H4 a Hl') as (_ & _ & [?|[?|P0]]); [done..|]. rewrite P in P0. injection P0 as ->.
    by apply (no_zero _ _ _ ln F). }
  split.
  - intros n. rewrite Hd, (fo_dom _ _ _ F). destruct (decide (n = t)) as [->|Nn]; [|by rewrite lookup_insert_ne].
    rewrite lookup_insert_eq. split; [by eexists|]. by exists l.
  - destruct (mem' !! 0) as [n|] eqn:E0; [|done]. destruct (proj1 (Hd 0)) as [x Hx]; [by eexists|].
    by rewrite (fo_null _ _ _ F) in Hx.
  - intros n ln Kn. destruct (decide (n = t)) as [->|Nn].
    + rewrite lookup_insert_eq in Kn. injection Kn as <-. by exists c'.
    + rewrite lookup_insert_ne in Kn by done. destruct (fo_kids _ _ _ F n ln Kn) as (c & C1 & C2 & C3 & C4).
      destruct (H1 n Nn) as [-> ->]. exists c. split_and!; [done| |done|done]. apply (chain_ext mem); [|done].
      intros a Ha. destruct (Other n ln a Nn Kn Ha) as (A1 & A2 & A3 & A4). by apply H3.
  - intros n ln c Kn Hin. destruct (decide (n = t)) as [->|Nn].
    + rewrite lookup_insert_eq in Kn. injection Kn as <-. by destruct (H4 c Hin) as (? & ? & _).
    + rewrite lookup_insert_ne in Kn by done. destruct (Other n ln c Nn Kn Hin) as (A1 & A2 & A3 & A4). split; [done|].
      destruct (H3 c A1 A2 A3) as [-> _]. by destruct (fo_par _ _ _ F n ln c Kn Hin).
  - intros m p Ne P Np. destruct (decide (m ∈ l')) as [Hl'|Nl'].
    { destruct (H4 m Hl') as (_ & P' & _). rewrite P in P'. injection P' as ->. exists l'. by rewrite lookup_insert_eq. }
    destruct (decide (m ∈ l \/ m ∈ E)) as [Hle|Nle].
    { destruct (H5 m Hle Nl' Ne) as [P0 _]; [by rewrite P|]. congruence. }
    destruct (H3 m) as [P' _]; [tauto..|]. rewrite P' in P. destruct (fo_up _ _ _ F m p) as (lp & Kp & Hin); [tauto|done..|].
    exists lp. rewrite lookup_insert_ne; [done|]. intros <-. rewrite Kt in Kp. injection Kp as ->. tauto.
  - intros m Ne P. destruct (decide (m ∈ l')) as [Hl'|Nl'].
    { destruct (H4 m Hl') as (_ & P' & _). rewrite P in P'. injection P' as <-. by destruct (no_zero _ _ _ l F). }
    destruct (decide (m ∈ l \/ m ∈ E)) as [Hle|Nle].
    { apply (H5 m Hle Nl' Ne). by rewrite P. }
    destruct (H3 m) as [P' ->]; [tauto..|]. rewrite P' in P. apply (fo_root _ _ _ F); [tauto|done].
  - exact Hrc.
Qed.

(** ** What a release frees

    A node dies when it is a released root with one reference, or the child of a dead
    node and held by nobody else. *)

Definition kid (K : gmap Z (list Z)) (p n : Z) : Prop := exists l, K !! p = Some l /\ n ∈ l.

Inductive dies (rc : Z -> option Z) (K : gmap Z (list Z)) (R : gset Z) : Z -> Prop :=
| dies_root n : n ∈ R -> rc n = Some 1 -> dies rc K R n
| dies_kid p n : dies rc K R p -> kid K p n -> rc n = Some 1 -> dies rc K R n.

(** The children of the nodes of [D]. *)
Definition kids_of (K : gmap Z (list Z)) (D : gset Z) : gset Z :=
  set_bind (fun p => list_to_set (default [] (K !! p))) D.

(** A node that loses the reference of its parent. *)
Definition cut (n : node) : node := set_rc (t_rc n - 1) (set_sibling 0 (set_parent 0 n)).

(** The release of the roots [R]: the nodes of [D] go, the other roots and the other
    children of [D] become roots with one reference less, everything else stays. *)
Record released (mem : gmap Z node) (K : gmap Z (list Z)) (R D : gset Z) (mem' : gmap Z node)
    (K' : gmap Z (list Z)) : Prop := mk_released {
  re_dies : forall n, n ∈ D <-> dies (rc_of mem) K R n;
  re_kids : forall n, K' !! n = if decide (n ∈ D) then None else K !! n;
  re_mem : forall n, mem' !! n = if decide (n ∈ D) then None
                                 else if decide (n ∈ R ∪ kids_of K D) then cut <$> mem !! n else mem !! n
}.

Lemma elem_of_kids_of (K : gmap Z (list Z)) (D : gset Z) (n : Z) : n ∈ kids_of K D <-> exists p, p ∈ D /\ kid K p n.
Proof.
  unfold kids_of. rewrite elem_of_set_bind. split; intros (p & Hp & H); exists p; (split; [done|]).
  - rewrite elem_of_list_to_set in H. unfold kid. destruct (K !! p) as [l|]; [by exists l|by apply elem_of_nil in H].
  - destruct H as (l & -> & H). by rewrite elem_of_list_to_set.
Qed.

Lemma kid_unique (mem : gmap Z node) (K : gmap Z (list Z)) (E : gset Z) (p q n : Z) :
  forest mem K E -> kid K p n -> kid K q n -> p = q.
Proof.
  intros F (l1 & K1 & H1) (l2 & K2 & H2). destruct (fo_par _ _ _ F _ _ _ K1 H1), (fo_par _ _ _ F _ _ _ K2 H2). congruence.
Qed.

Lemma kid_exempt (mem : gmap Z node) (K : gmap Z (list Z)) (E : gset Z) (p n : Z) : forest mem K E -> kid K p n -> n ∉ E.
Proof. intros F (l & Kp & H). by destruct (fo_par _ _ _ F _ _ _ Kp H). Qed.

Lemma dies_mono (rc rc' : Z -> option Z) (K K' : gmap Z (list Z)) (R R' : gset Z) (n : Z) :
  (forall m, m ∈ R -> m ∈ R') -> (forall m, rc m = Some 1 -> rc' m = Some 1) ->
  (forall p m, kid K p m -> kid K' p m) -> dies rc K R n -> dies rc' K' R' n.
Proof. intros HR Hrc HK. induction 1; [apply dies_root|eapply dies_kid]; eauto. Qed.

Lemma dies_union (rc : Z -> option Z) (K : gmap Z (list Z)) (R1 R2 : gset Z) (n : Z) :
  dies rc K (R1 ∪ R2) n <-> dies rc K R1 n \/ dies rc K R2 n.
Proof.
  split.
  - induction 1 as [n H Hr|p n _ [H|H] Hk Hr]; [|left; by eapply dies_kid|right; by eapply dies_kid].
    apply elem_of_union in H as [H|H]; [left|right]; by apply dies_root.
  - intros [H|H]; (eapply dies_mono; [| | |exact H]; [set_solver|done|done]).
Qed.

Lemma dies_disjoint (mem : gmap Z node) (K : gmap Z (list Z)) (E R1 R2 : gset Z) (rc : Z -> option Z) (n : Z) :
  forest mem K E -> R1 ⊆ E -> R2 ⊆ E -> R1 ## R2 -> dies rc K R1 n -> dies rc K R2 n -> False.
Proof.
  intros F S1 S2 Dj. induction 1 as [n H Hr|p n _ IH Hk Hr]; intros H2; inversion H2 as [? H2' _|q ? H2' Hk' _]; subst.
  - set_solver.
  - apply (kid_exempt _ _ _ _ _ F) in Hk'. set_solver.
  - apply (kid_exempt _ _ _ _ _ F) in Hk. set_solver.
  - apply IH. by rewrite (kid_unique _ _ _ _ _ _ F Hk Hk').
Qed.

(** A forest from which [D] is deleted, where the exempt roots [R] and the children of
    [D] have been cut off. *)
Lemma forest_cut (mem mem' : gmap Z node) (K K' : gmap Z (list Z)) (E R D : gset Z) :
  forest mem K (E ∪ R) -> E ## R ->
  (forall n, n ∈ D -> n ∈ R \/ exists p, p ∈ D /\ kid K p n) ->
  (forall n, K' !! n = if decide (n ∈ D) then None else K !! n) ->
  (forall n, n ∈ D -> mem' !! n = None) ->
  (forall n, n ∉ D -> n ∉ R ∪ kids_of K D -> mem' !! n = mem !! n) ->
  (forall n, n ∉ D -> n ∈ R ∪ kids_of K D ->
     par_of mem' n = (fun _ => 0) <$> mem !! n /\ sib_of mem' n = (fun _ => 0) <$> mem !! n /\
     child_of mem' n = child_of mem n /\ right_of mem' n = right_of mem n /\
     forall r, rc_of mem' n = Some r -> 1 <= r) ->
  forest mem' K' E.
Proof.
  intros F Dj HD HK HMd HMs HMc.
  assert (Kid : forall n l a, K' !! n = Some l -> a ∈ l -> K !! n = Some l /\ a ∉ E ∪ R /\ a ∉ D /\ mem' !! a = mem !! a).
  { intros n l a Kn Ha. rewrite HK in Kn. destruct (decide (n ∈ D)) as [|Nn]; [done|]. assert (Hk : kid K n a) by by exists l.
    pose proof (kid_exempt _ _ _ _ _ F Hk) as Ne.
    assert (Na : a ∉ kids_of K D). { rewrite elem_of_kids_of. intros (p & Hp & Hk'). by rewrite (kid_unique _ _ _ _ _ _ F Hk Hk') in Nn. }
    assert (Nd : a ∉ D). { intros Hd. destruct (HD a Hd) as [?|Hp]; [set_solver|]. by apply elem_of_kids_of in Hp. }
    split_and!; [done..|]. apply HMs; set_solver. }
  assert (Same : forall n, n ∉ D -> child_of mem' n = child_of mem n /\ right_of mem' n = right_of mem n).
  { intros n Nd. destruct (decide (n ∈ R ∪ kids_of K D)) as [H|H]; [by destruct (HMc n Nd H) as (_ & _ & ? & ? & _)|].
    unfold child_of, right_of. by rewrite (HMs n Nd H). }
  assert (Dom : forall n, n ∉ D -> is_Some (mem' !! n) <-> is_Some (mem !! n)).
  { intros n Nd. destruct (Same n Nd) as [H _]. unfold child_of in H. rewrite <-!(fmap_is_Some t_child). by rewrite H. }
  split.
  - intros n. rewrite HK. destruct (decide (n ∈ D)) as [Hd|Nd]; [by rewrite HMd|]. by rewrite Dom, (fo_dom _ _ _ F).
  - destruct (decide (0 ∈ D)) as [Hd|Nd]; [by apply HMd|]. apply eq_None_not_Some. rewrite Dom by done.
    rewrite (fo_null _ _ _ F). by intros [? ?].
  - intros n l Kn. assert (Kn' := Kn). rewrite HK in Kn'. destruct (decide (n ∈ D)) as [|Nd]; [done|].
    destruct (fo_kids _ _ _ F n l Kn') as (c & C1 & C2 & C3 & C4). destruct (Same n Nd) as [-> ->]. exists c. split_and!; [done| |done|done].
    apply (chain_ext mem); [|done]. intros a Ha. unfold sib_of. by destruct (Kid n l a Kn Ha) as (_ & _ & _ & ->).
  - intros n l c Kn Hc. destruct (Kid n l c Kn Hc) as (Kn' & Ne & _ & Hm). split; [set_solver|]. unfold par_of. rewrite Hm.
    by destruct (fo_par _ _ _ F n l c Kn' Hc).
  - intros m p Ne P Np. assert (Nd : m ∉ D) by (intros Hd; unfold par_of in P; by rewrite HMd in P).
    destruct (decide (m ∈ R ∪ kids_of K D)) as [H|H].
    { destruct (HMc m Nd H) as (P' & _). rewrite P in P'. destruct (mem !! m); simplify_eq/=. }
    unfold par_of in P. rewrite HMs in P by done. destruct (fo_up _ _ _ F m p) as (l & Kp & Hl); [set_solver|done..|].
    exists l. split; [|done]. rewrite HK, decide_False; [done|]. intros Hp. apply H, elem_of_union_r, elem_of_kids_of. exists p. split; [done|]. by exists l.
  - intros m Ne P. assert (Nd : m ∉ D) by (intros Hd; unfold par_of in P; by rewrite HMd in P).
    destruct (decide (m ∈ R ∪ kids_of K D)) as [H|H].
    { destruct (HMc m Nd H) as (P' & S & _). rewrite S. rewrite P in P'. by destruct (mem !! m). }
    unfold par_of in P. unfold sib_of. rewrite HMs in P |- * by done. apply (fo_root _ _ _ F); [set_solver|done].
  - intros n r Hr. assert (Nd : n ∉ D) by (intros Hd; unfold rc_of in Hr; by rewrite HMd in Hr).
    destruct (decide (n ∈ R ∪ kids_of K D)) as [H|H]; [by destruct (HMc n Nd H) as (_ & _ & _ & _ & ?); eauto|].
    unfold rc_of in Hr. rewrite HMs in Hr by done. by apply (fo_rc _ _ _ F n).
Qed.

Lemma released_forest (mem mem' : gmap Z node) (K K' : gmap Z (list Z)) (E R D : gset Z) :
  forest mem K (E ∪ R) -> E ## R -> released mem K R D mem' K' -> forest mem' K' E.
Proof.
  intros F Dj [Hd Hk Hm]. eapply (forest_cut mem mem' K K' E R D); eauto.
  - intros n Hn. apply Hd in Hn. inversion Hn as [|p ? Hp]; subst; [by left|right]. exists p. by rewrite Hd.
  - intros n Hn. by rewrite Hm, decide_True.
  - intros n Hn Hs. by rewrite Hm, !decide_False.
  - intros n Hn Hs. unfold par_of, sib_of, child_of, right_of, rc_of. rewrite Hm, decide_False, decide_True by done.
    destruct (mem !! n) as [x|] eqn:En; [|done]. split_and!; [done..|]. simpl. intros r [= <-].
    assert (1 <= t_rc x) by (apply (fo_rc _ _ _ F n); unfold rc_of; by rewrite En).
    assert (t_rc x <> 1); [|lia]. intros Hr. apply Hn, Hd. assert (Hr' : rc_of mem n = Some 1) by (unfold rc_of; rewrite En; simpl; congruence).
    apply elem_of_union in Hs as [Hs|Hs]; [by apply dies_root|]. apply elem_of_kids_of in Hs as (p & Hp & Hk'). apply (dies_kid _ _ _ p); [by apply Hd|done..].
Qed.

(** Roots released one after the other. *)
Lemma released_dies (mem mem1 : gmap Z node) (K K1 : gmap Z (list Z)) (E R1 R2 D1 : gset Z) :
  forest mem K E -> R1 ⊆ E -> R2 ⊆ E -> R1 ## R2 -> released mem K R1 D1 mem1 K1 ->
  (forall n, dies (rc_of mem) K R2 n -> n ∉ D1) /\
  (forall n, n ∈ R2 \/ (exists p, dies (rc_of mem) K R2 p /\ kid K p n) -> n ∉ R1 ∪ kids_of K D1 /\ mem1 !! n = mem !! n) /\
  (forall n, dies (rc_of mem1) K1 R2 n <-> dies (rc_of mem) K R2 n).
Proof.
  intros F S1 S2 Dj [Hd Hk Hm].
  assert (A : forall n, dies (rc_of mem) K R2 n -> n ∉ D1).
  { intros n H2 H1. apply Hd in H1. by apply (dies_disjoint _ _ _ _ _ (rc_of mem) n F S1 S2 Dj). }
  assert (B : forall n, n ∈ R2 \/ (exists p, dies (rc_of mem) K R2 p /\ kid K p n) -> n ∉ R1 ∪ kids_of K D1 /\ mem1 !! n = mem !! n).
  { intros n Hn. assert (N : n ∉ R1 ∪ kids_of K D1).
    { rewrite elem_of_union, elem_of_kids_of. intros [HR|(q & Hq & Hkq)].
      - destruct Hn as [Hn|(p & _ & Hp)]; [set_solver|]. apply (kid_exempt _ _ _ _ _ F) in Hp. set_solver.
      - destruct Hn as [Hn|(p & Hp & Hkp)]; [apply (kid_exempt _ _ _ _ _ F) in Hkq; set_solver|].
        apply (A p Hp). by rewrite (kid_unique _ _ _ _ _ _ F Hkp Hkq). }
    split; [done|]. rewrite Hm, !decide_False; [done|done|]. intros H. apply N. apply Hd in H. inversion H as [|p ? Hp Hkp]; subst; [set_solver|].
    apply elem_of_union_r, elem_of_kids_of. exists p. by rewrite Hd. }
  split_and!; [done..|]. intros n. split.
  - induction 1 as [n Hn Hr|p n _ IH (l & Hl & Hin) Hr].
    + apply dies_root; [done|]. unfold rc_of in *. by rewrite <-(proj2 (B n (or_introl Hn))).
    + rewrite Hk, decide_False in Hl by by apply A. assert (kid K p n) by by exists l.
      apply (dies_kid _ _ _ p); [done..|]. unfold rc_of in *. rewrite <-(proj2 (B n ltac:(right; by exists p))). done.
  - induction 1 as [n Hn Hr|p n Hp IH (l & Hl & Hin) Hr].
    + apply dies_root; [done|]. unfold rc_of in *. by rewrite (proj2 (B n (or_introl Hn))).
    + apply (dies_kid _ _ _ p); [done| |].
      * exists l. by rewrite Hk, decide_False by by apply A.
      * unfold rc_of in *. rewrite (proj2 (B n ltac:(right; exists p; split; [done|by exists l]))). done.
Qed.

Lemma released_compose (mem mem1 mem2 : gmap Z node) (K K1 K2 : gmap Z (list Z)) (E R1 R2 D1 D2 : gset Z) :
  forest mem K E -> R1 ⊆ E -> R2 ⊆ E -> R1 ## R2 -> released mem K R1 D1 mem1 K1 -> released mem1 K1 R2 D2 mem2 K2 ->
  released mem K (R1 ∪ R2) (D1 ∪ D2) mem2 K2.
Proof.
  intros F S1 S2 Dj Re1 Re2. destruct (released_dies _ _ _ _ _ _ _ _ F S1 S2 Dj Re1) as (A & B & C).
  destruct Re1 as [Hd1 Hk1 Hm1], Re2 as [Hd2 Hk2 Hm2].
  assert (Hd2' : forall n, n ∈ D2 <-> dies (rc_of mem) K R2 n) by (intros n; by rewrite Hd2, C).
  assert (Kids : forall n, n ∈ kids_of K1 D2 <-> n ∈ kids_of K D2).
  { intros n. rewrite !elem_of_kids_of. unfold kid. split; intros (p & Hp & Hkp); exists p; (split; [done|]);
      rewrite Hk1, decide_False in * by (by apply A, Hd2'); done. }
  split.
  - intros n. rewrite elem_of_union, dies_union. by rewrite Hd1, Hd2'.
  - intros n. rewrite Hk2, Hk1. repeat case_decide; set_solver.
  - intros n. rewrite Hm2.
    assert (Aff : n ∈ R2 ∪ kids_of K1 D2 -> n ∉ R1 ∪ kids_of K D1 /\ mem1 !! n = mem !! n).
    { rewrite elem_of_union, Kids, elem_of_kids_of. intros H. apply B. destruct H as [?|(p & Hp & ?)]; [by left|right]. exists p. by rewrite <-Hd2'. }
    assert (KU : n ∈ R1 ∪ R2 ∪ kids_of K (D1 ∪ D2) <-> n ∈ R1 ∪ kids_of K D1 \/ n ∈ R2 ∪ kids_of K1 D2).
    { rewrite !elem_of_union, Kids, !elem_of_kids_of. set_solver. }
    assert (Sub : n ∈ D1 -> n ∈ R1 ∪ kids_of K D1).
    { intros H. apply Hd1 in H. inversion H as [|p ? Hp Hkp]; subst; [set_solver|].
      apply elem_of_union_r, elem_of_kids_of. exists p. by rewrite Hd1. }
    rewrite (decide_ext _ _ _ _ KU). destruct (decide (n ∈ D2)) as [H2|H2]; [by rewrite decide_True by set_solver|].
    destruct (decide (n ∈ R2 ∪ kids_of K1 D2)) as [Ha|Ha].
    + destruct (Aff Ha) as [N ->]. rewrite decide_False by set_solver. by rewrite decide_True by by right.
    + rewrite Hm1. destruct (decide (n ∈ D1)) as [H1|H1]; [by rewrite decide_True by set_solver|].
      rewrite (decide_False (P := n ∈ D1 ∪ D2)) by set_solver.
      destruct (decide (n ∈ R1 ∪ kids_of K D1)) as [Hb|Hb]; [by rewrite decide_True by by left|by rewrite decide_False by tauto].
Qed.

(** The number of attached nodes bounds the nesting of deallocations. *)
Definition attached (mem : gmap Z node) : gset Z := dom (filter (fun kv => t_parent kv.2 <> 0) mem).
Definition att (mem : gmap Z node) : nat := size (attached mem).

Lemma elem_of_attached (mem : gmap Z node) (a : Z) : a ∈ attached mem <-> exists p, par_of mem a = Some p /\ p <> 0.
Proof.
  unfold attached, par_of. rewrite elem_of_dom. split.
  - intros [x Hx]. apply map_lookup_filter_Some in Hx as [Hx Hp]. exists (t_parent x). by rewrite Hx.
  - intros (p & Hp & N). destruct (mem !! a) as [x|] eqn:Ex; [|done]. exists x. apply map_lookup_filter_Some. by simplify_eq/=.
Qed.

Lemma att_size (mem : gmap Z node) : (att mem <= size mem)%nat.
Proof.
  unfold att, attached. rewrite <-(size_dom (D := gset Z) mem). apply subseteq_size, dom_filter_subseteq.
Qed.

Lemma released_attached (mem mem' : gmap Z node) (K K' : gmap Z (list Z)) (R D : gset Z) :
  released mem K R D mem' K' -> (att mem' <= att mem)%nat.
Proof.
  intros [_ _ Hm]. unfold att. apply subseteq_size. intros n. rewrite !elem_of_attached. intros (p & Hp & N). unfold par_of in Hp.
  rewrite Hm in Hp. destruct (decide (n ∈ D)); [done|]. destruct (decide (n ∈ R ∪ kids_of K D)); [|by exists p].
  by destruct (mem !! n); simplify_eq/=.
Qed.

(** A detached node leaves the exempt set. *)
Lemma forest_detach (mem : gmap Z node) (K : gmap Z (list Z)) (E : gset Z) (c : Z) :
  forest mem K (E ∪ {[c]}) -> c ∉ E -> forest (alter (fun n => set_sibling 0 (set_parent 0 n)) c mem) K E.
Proof.
  intros F Nc. assert (Ek : forall n, n ∉ kids_of K ∅) by (intros n; rewrite elem_of_kids_of; set_solver).
  apply (forest_cut mem _ K K E {[c]} ∅); [done|set_solver|set_solver|done|set_solver| |].
  - intros n _ Hn. apply lookup_alter_ne. set_solver.
  - intros n _ Hn. assert (n = c) as -> by set_solver. unfold par_of, sib_of, child_of, right_of, rc_of. rewrite lookup_alter_eq.
    destruct (mem !! c) as [x|] eqn:Ex; [|done]. split_and!; [done..|]. intros r Hr. apply (fo_rc _ _ _ F c). unfold rc_of. by rewrite Ex.
Qed.

Lemma forest_exempt (mem : gmap Z node) (K : gmap Z (list Z)) (E : gset Z) (t : Z) :
  forest mem K E -> par_of mem t = Some 0 -> forest mem K (E ∪ {[t]}).
Proof.
  intros [F1 F2 F3 F4 F5 F6 F7] P. split; [done..| | | |done].
  - intros n l c Kn Hc. destruct (F4 n l c Kn Hc) as [Ne Pc]. split; [|done]. intros He.
    apply elem_of_union in He as [He|He]; [done|]. apply elem_of_singleton in He as ->. rewrite P in Pc. injection Pc as <-.
    destruct (proj2 (F1 0)) as [x Hx]; [by exists l|]. by rewrite F2 in Hx.
  - intros m p Hm. apply F5. set_solver.
  - intros m Hm. apply F6. set_solver.
Qed.

(** The links of the roots do not matter to what a release makes of them. *)
Lemma released_unlinked (mem mem' : gmap Z node) (K K' : gmap Z (list Z)) (c : Z) (D : gset Z) :
  released (alter (fun n => set_sibling 0 (set_parent 0 n)) c mem) K {[c]} D mem' K' -> released mem K {[c]} D mem' K'.
Proof.
  intros [Hd Hk Hm].
  assert (Rc : forall n, rc_of (alter (fun n => set_sibling 0 (set_parent 0 n)) c mem) n = rc_of mem n).
  { intros n. unfold rc_of. destruct (decide (n = c)) as [->|N]; [rewrite lookup_alter_eq; by destruct (mem !! c)|by rewrite lookup_alter_ne]. }
  split; [|done|].
  - intros n. rewrite Hd. split; apply dies_mono; [done|intros m; by rewrite Rc|done|done|intros m; by rewrite Rc|done].
  - intros n. rewrite Hm. destruct (decide (n ∈ D)); [done|]. destruct (decide (n = c)) as [->|N].
    + rewrite lookup_alter_eq, !decide_True by set_solver. by destruct (mem !! c).
    + by rewrite lookup_alter_ne.
Qed.

Lemma detach_attached (mem : gmap Z node) (c : Z) :
  c ∈ attached mem -> (att (alter (fun n => set_sibling 0 (set_parent 0 n)) c mem) < att mem)%nat.
Proof.
  intros Hc. unfold att. apply subset_size. split.
  - intros n. rewrite !elem_of_attached. intros (p & Hp & N). unfold par_of in *. destruct (decide (n = c)) as [->|Nn].
    + rewrite lookup_alter_eq in Hp. by destruct (mem !! c); simplify_eq/=.
    + rewrite lookup_alter_ne in Hp by done. by exists p.
  - intros Hs. apply Hs in Hc. apply elem_of_attached in Hc as (p & Hp & N). unfold par_of in Hp. rewrite lookup_alter_eq in Hp.
    by destruct (mem !! c); simplify_eq/=.
Qed.

Definition releases (rel : heap -> Z -> result heap) (fuel : nat) : Prop :=
  forall h K E t, forest (h_mem h) K E -> t ∉ E -> par_of (h_mem h) t = Some 0 -> (att (h_mem h) < fuel)%nat ->
  exists h' K' D, rel h t = Ok h' /\ released (h_mem h) K {[t]} D (h_mem h') K'.

Lemma store_Ok (h : heap) (t : Z) (f : node -> node) :
  is_Some (h_mem h !! t) -> store h t f = Ok (mkHeap (alter f t (h_mem h)) (h_log h)).
Proof. intros [n Hn]. unfold store. by rewrite Hn. Qed.

Lemma released_nil (mem : gmap Z node) (K : gmap Z (list Z)) : released mem K ∅ ∅ mem K.
Proof.
  assert (Ek : forall n, n ∉ ∅ ∪ kids_of K ∅) by (intros n; rewrite elem_of_union, elem_of_kids_of; set_solver).
  split; [|done|intros n; by rewrite !decide_False].
  intros n. split; [set_solver|]. induction 1; set_solver.
Qed.

(** The loop over the detached children. *)
Lemma unlink_children_spec (rel : heap -> Z -> result heap) (fuel : nat) : releases rel fuel -> forall (rest : list Z) (k : nat) (h : heap) (K : gmap Z (list Z)) (E : gset Z) (p : Z),
  forest (h_mem h) K (E ∪ list_to_set rest) -> NoDup rest -> E ## list_to_set rest -> chain (h_mem h) p rest ->
  (forall a, a ∈ rest -> a ∈ attached (h_mem h)) -> (att (h_mem h) <= fuel)%nat -> (length rest <= k)%nat ->
  exists h' K' D, unlink_children rel k h p = Ok h' /\ released (h_mem h) K (list_to_set rest) D (h_mem h') K'.
Proof.
  intros Rel rest. induction rest as [|c rest IH]; intros k h K E p F Nd Dj C Att Hf Hk.
  { simpl in C. subst p. exists h, K, ∅. split; [by destruct k|]. apply released_nil. }
  destruct C as (-> & Nz & s & Sib & C). apply NoDup_cons in Nd as [Nc Nd]. destruct k as [|k]; [simpl in Hk; lia|].
  set (h1 := mkHeap (alter (fun n => set_sibling 0 (set_parent 0 n)) c (h_mem h)) (h_log h)).
  assert (F1 : forest (h_mem h1) K (E ∪ list_to_set rest)).
  { apply forest_detach; [|set_solver]. replace (E ∪ list_to_set rest ∪ {[c]}) with (E ∪ list_to_set (c :: rest)) by set_solver. done. }
  assert (Sc : is_Some (h_mem h !! c)) by (unfold sib_of in Sib; by destruct (h_mem h !! c)).
  assert (P1 : par_of (h_mem h1) c = Some 0).
  { destruct Sc as [x Hx]. unfold par_of. simpl. by rewrite lookup_alter_eq, Hx. }
  assert (Lt : (att (h_mem h1) < att (h_mem h))%nat) by (apply detach_attached, Att; left).
  destruct (Rel h1 K (E ∪ list_to_set rest) c F1) as (h2 & K2 & D2 & E2 & R2); [set_solver|done|lia|].
  pose proof (released_forest _ _ _ _ _ _ _ (forest_exempt _ _ _ _ F1 P1) ltac:(set_solver) R2) as F2.
  pose proof (released_attached _ _ _ _ _ _ R2) as Le. apply released_unlinked in R2.
  destruct (released_dies _ _ _ _ _ {[c]} (list_to_set rest) _ F ltac:(set_solver) ltac:(set_solver) ltac:(set_solver) R2) as (_ & Same & _).
  assert (Eq : forall a, a ∈ rest -> h_mem h2 !! a = h_mem h !! a) by (intros a Ha; apply Same; left; set_solver).
  destruct (IH k h2 K2 E s F2) as (h3 & K3 & D3 & E3 & R3); [done|set_solver| | |lia|simpl in Hk; lia|].
  { apply (chain_ext (h_mem h)); [|done]. intros a Ha. unfold sib_of. by rewrite Eq. }
  { intros a Ha. specialize (Att a ltac:(by right)). apply elem_of_attached in Att. apply elem_of_attached. unfold par_of. by rewrite Eq. }
  exists h3, K3, (D2 ∪ D3). split.
  - simpl. rewrite (proj2 (Z.eqb_neq _ _)) by done. unfold sib_of in Sib. unfold load. destruct (h_mem h !! c) as [x|] eqn:Ex; [|done].
    simpl in Sib |- *. injection Sib as ->. rewrite store_Ok by by rewrite Ex. simpl. fold h1. rewrite E2. exact E3.
  - apply (released_compose (h_mem h) (h_mem h2) (h_mem h3) K K2 K3 (E ∪ list_to_set (c :: rest)) {[c]} (list_to_set rest)); try done; set_solver.
Qed.

Lemma released_one (mem : gmap Z node) (K : gmap Z (list Z)) (E : gset Z) (t : Z) (x : node) :
  forest mem K E -> t ∉ E -> mem !! t = Some x -> t_parent x = 0 -> 1 < t_rc x ->
  released mem K {[t]} ∅ (alter (set_rc (t_rc x - 1)) t mem) K.
Proof.
  intros F Ne Ex P Hr. assert (S : t_sibling x = 0).
  { assert (H : sib_of mem t = Some 0); [apply (fo_root _ _ _ F); [done|]|]; unfold par_of, sib_of in *; rewrite Ex in *; simpl in *; congruence. }
  assert (Ek : forall n, n ∉ kids_of K ∅) by (intros n; rewrite elem_of_kids_of; set_solver).
  split; [|done|].
  - intros n. split; [set_solver|]. induction 1 as [n Hn H1|]; [|done]. assert (n = t) as -> by set_solver.
    unfold rc_of in H1. rewrite Ex in H1. simpl in H1. injection H1. lia.
  - intros n. rewrite (decide_False (P := n ∈ (∅ : gset Z))) by set_solver. destruct (decide (n = t)) as [->|N].
    + rewrite lookup_alter_eq, decide_True, Ex by set_solver. destruct x; simpl in *. by subst.
    + rewrite lookup_alter_ne by done. rewrite decide_False; [done|]. specialize (Ek n). set_solver.
Qed.

(** The last reference: the children of [t] are released, then [t] goes. *)
Lemma released_last (mem mem1 mem2 : gmap Z node) (K K2 : gmap Z (list Z)) (E D : gset Z) (t : Z) (l : list Z) :
  forest mem K E -> t ∉ E -> par_of mem t = Some 0 -> rc_of mem t = Some 1 -> K !! t = Some l ->
  mem1 = alter (fun n => set_rightmost 0 (set_child 0 n)) t mem ->
  released mem1 (<[t := []]> K) (list_to_set l) D mem2 K2 ->
  released mem K {[t]} ({[t]} ∪ D) (delete t mem2) (delete t K2).
Proof.
  intros F Ne P Rc Kt -> [Hd Hk Hm].
  assert (Nt : forall p, kid K p t -> False).
  { intros p Hp. apply (kid_exempt _ _ _ _ _ (forest_exempt _ _ _ _ F P)) in Hp. set_solver. }
  assert (Rcs : forall n, rc_of (alter (fun n => set_rightmost 0 (set_child 0 n)) t mem) n = rc_of mem n).
  { intros n. unfold rc_of. destruct (decide (n = t)) as [->|N]; [rewrite lookup_alter_eq; by destruct (mem !! t)|by rewrite lookup_alter_ne]. }
  assert (Kid1 : forall p n, kid (<[t := []]> K) p n <-> p <> t /\ kid K p n).
  { intros p n. unfold kid. destruct (decide (p = t)) as [->|N].
    - rewrite lookup_insert_eq. split; [intros (? & [= <-] & H); by apply elem_of_nil in H|by intros []].
    - rewrite lookup_insert_ne by done. tauto. }
  assert (Dies : forall n, dies (rc_of mem) K {[t]} n <-> n = t \/ n ∈ D).
  { intros n. rewrite Hd. split.
    - induction 1 as [n Hn Hr|p n Hp IH Hkp Hr]; [left; set_solver|right]. rewrite <-Rcs in Hr. destruct (decide (p = t)) as [->|N].
      + apply dies_root; [|done]. destruct Hkp as (l' & Hl & Hin). set_solver.
      + destruct IH as [->|IH]; [done|]. apply (dies_kid _ _ _ p); [done| |done]. by apply Kid1.
    - intros [->|H]; [by apply dies_root; [set_solver|]|]. induction H as [n Hn Hr|p n Hp IH Hkp Hr]; rewrite Rcs in Hr.
      + apply (dies_kid _ _ _ t); [by apply dies_root; [set_solver|]| |done]. exists l. set_solver.
      + apply (dies_kid _ _ _ p); [done| |done]. by apply Kid1. }
  assert (NtD : t ∉ list_to_set l ∪ kids_of (<[t := []]> K) D).
  { rewrite elem_of_union, elem_of_kids_of. intros [H|(p & _ & H)]; [apply (Nt t); exists l; set_solver|]. apply Kid1 in H as [_ H]. by apply (Nt p). }
  assert (NtD' : t ∉ D).
  { intros H. apply NtD. apply Hd in H. inversion H as [|p ? Hp Hkp]; subst; [set_solver|]. apply elem_of_union_r, elem_of_kids_of. exists p. by rewrite Hd. }
  split.
  - intros n. rewrite Dies. set_solver.
  - intros n. destruct (decide (n = t)) as [->|N]; [by rewrite lookup_delete_eq, decide_True by set_solver|].
    rewrite lookup_delete_ne, Hk, lookup_insert_ne by done. repeat case_decide; set_solver.
  - intros n. destruct (decide (n = t)) as [->|N]; [by rewrite lookup_delete_eq, decide_True by set_solver|].
    rewrite lookup_delete_ne, Hm, lookup_alter_ne by done.
    assert (Eq : n ∈ {[t]} ∪ kids_of K ({[t]} ∪ D) <-> n ∈ list_to_set l ∪ kids_of (<[t := []]> K) D).
    { rewrite !elem_of_union, !elem_of_kids_of, elem_of_singleton. split.
      - intros [?|(p & Hp & Hkp)]; [done|]. destruct (decide (p = t)) as [->|Np].
        + left. destruct Hkp as (l' & Hl & Hin). set_solver.
        + right. exists p. rewrite Kid1. set_solver.
      - intros [Hl|(p & Hp & Hkp)]; right; [exists t; split; [set_solver|]; exists l; set_solver|]. exists p. apply Kid1 in Hkp as [_ Hkp]. set_solver. }
    rewrite (decide_ext _ _ _ _ Eq). assert (Ed : n ∈ {[t]} ∪ D <-> n ∈ D) by set_solver. by rewrite (decide_ext _ _ _ _ Ed).
Qed.


Definition clear_links (n : node) : node := set_rightmost 0 (set_child 0 n).

Lemma forest_clear (mem : gmap Z node) (K : gmap Z (list Z)) (E : gset Z) (t : Z) (l : list Z) :
  forest mem K E -> K !! t = Some l -> forest (alter clear_links t mem) (<[t := []]> K) (E ∪ list_to_set l).
Proof.
  intros F Kt. destruct (proj2 (fo_dom _ _ _ F t)) as [x Hx]; [by exists l|].
  assert (Same : forall n, par_of (alter clear_links t mem) n = par_of mem n /\ sib_of (alter clear_links t mem) n = sib_of mem n /\
                           rc_of (alter clear_links t mem) n = rc_of mem n).
  { intros n. unfold par_of, sib_of, rc_of. destruct (decide (n = t)) as [->|N]; [rewrite lookup_alter_eq, Hx|rewrite lookup_alter_ne by done]; done. }
  apply (forest_relink mem _ K E _ t 0 l []); try done.
  - intros n. destruct (decide (n = t)) as [->|N]; [rewrite lookup_alter_eq, Hx; split; by eexists|by rewrite lookup_alter_ne].
  - intros n N. unfold child_of, right_of. by rewrite lookup_alter_ne.
  - unfold child_of. by rewrite lookup_alter_eq, Hx.
  - unfold right_of. by rewrite lookup_alter_eq, Hx.
  - constructor.
  - intros m _ _ _. by destruct (Same m) as (-> & -> & _).
  - intros c Hc. by apply elem_of_nil in Hc.
  - set_solver.
  - set_solver.
  - intros n r. destruct (Same n) as (_ & _ & ->). apply (fo_rc _ _ _ F).
Qed.

Lemma chain_length (mem : gmap Z node) (l : list Z) (p : Z) : chain mem p l -> NoDup l -> (length l <= size mem)%nat.
Proof.
  intros C N. rewrite <-(size_dom (D := gset Z) mem), <-(size_list_to_set (C := gset Z) l) by done. apply subseteq_size. intros a Ha.
  apply elem_of_dom. apply elem_of_list_to_set in Ha. by apply (chain_in mem l p).
Qed.

Lemma remove_all_children_spec (rel : heap -> Z -> result heap) (fuel : nat) (h : heap) (K : gmap Z (list Z)) (E : gset Z) (t : Z) (l : list Z) :
  releases rel fuel -> forest (h_mem h) K E -> K !! t = Some l -> (att (h_mem h) <= fuel)%nat ->
  exists h' K' D, remove_all_children rel h t = Ok h' /\
    released (alter clear_links t (h_mem h)) (<[t := []]> K) (list_to_set l) D (h_mem h') K'.
Proof.
  intros Rel F Kt Ha. destruct (fo_kids _ _ _ F t l Kt) as (c & C1 & C2 & C3 & C4).
  destruct (proj2 (fo_dom _ _ _ F t)) as [x Hx]; [by exists l|].
  unfold remove_all_children, load. rewrite Hx. simpl. rewrite store_Ok by by rewrite Hx. simpl.
  assert (t_child x = c) as -> by (unfold child_of in C1; rewrite Hx in C1; simpl in C1; congruence).
  set (h1 := mkHeap (alter clear_links t (h_mem h)) (h_log h)).
  assert (Par : forall n, par_of (h_mem h1) n = par_of (h_mem h) n).
  { intros n. unfold par_of. simpl. destruct (decide (n = t)) as [->|N]; [by rewrite lookup_alter_eq, Hx|by rewrite lookup_alter_ne]. }
  assert (Cd : chain (h_mem h1) c l).
  { apply (chain_ext (h_mem h)); [|done]. intros a _. unfold sib_of. simpl.
    destruct (decide (a = t)) as [->|N]; [by rewrite lookup_alter_eq, Hx|by rewrite lookup_alter_ne]. }
  assert (At : attached (h_mem h1) = attached (h_mem h)).
  { apply set_eq. intros n. by rewrite !elem_of_attached, Par. }
  apply (unlink_children_spec rel fuel Rel l (steps h1) h1 (<[t := []]> K) E c); [by apply forest_clear|done| |done| | |].
  - intros n He Hl. apply elem_of_list_to_set in Hl. by destruct (fo_par _ _ _ F t l n Kt Hl).
  - intros a Hl. apply elem_of_attached. exists t. rewrite Par. destruct (fo_par _ _ _ F t l a Kt Hl). split; [done|].
    intros ->. by apply (no_zero _ _ _ l F).
  - unfold att. by rewrite At.
  - unfold steps. pose proof (chain_length _ _ _ Cd C4). lia.
Qed.

Section Release.

Context (cf_retain cf_release cf_copyDescription : Z).

Lemma CFRelease_spec (fuel : nat) : releases (CFRelease cf_retain cf_release cf_copyDescription fuel) fuel.
Proof.
  induction fuel as [|fuel IH]; intros h K E t F Ne P Ha; [lia|].
  assert (exists x, h_mem h !! t = Some x /\ t_parent x = 0) as (x & Hx & Px).
  { unfold par_of in P. destruct (h_mem h !! t) as [x|]; [|done]. exists x. by simplify_eq/=. }
  destruct (proj1 (fo_dom _ _ _ F t)) as [l Kt]; [by exists x|].
  assert (R1 : 1 <= t_rc x) by (apply (fo_rc _ _ _ F t); unfold rc_of; by rewrite Hx).
  simpl. unfold load. rewrite Hx. simpl. destruct (Z.ltb_spec 1 (t_rc x)) as [L|L].
  - rewrite store_Ok by by rewrite Hx. eexists _, K, ∅. split; [done|]. by apply (released_one _ _ E).
  - destruct (remove_all_children_spec _ fuel h K E t l IH F Kt) as (h1 & K1 & D & E1 & R); [lia|]. rewrite E1. simpl.
    eexists _, (delete t K1), ({[t]} ∪ D). split; [done|].
    replace (h_mem (if _ : bool then _ else _)) with (h_mem h1) by (by case_match).
    eapply (released_last (h_mem h) _ _ K K1 E D t l F Ne P); [|done..|done]. unfold rc_of. rewrite Hx. simpl. f_equal. lia.
Qed.

Lemma release_spec (fuel : nat) : releases (release cf_retain cf_release cf_copyDescription) fuel.
Proof.
  intros h K E t F Ne P _. apply (CFRelease_spec _ h K E t F Ne P). unfold steps. pose proof (att_size (h_mem h)). lia.
Qed.

End Release.

(** ** Fields of changed memories *)

Lemma field_same {A} (f : node -> A) (g : node -> node) (a n : Z) (mem : gmap Z node) :
  (forall x, f (g x) = f x) -> f <$> (alter g a mem !! n) = f <$> mem !! n.
Proof.
  intros H. destruct (decide (n = a)) as [->|N]; [rewrite lookup_alter_eq|by rewrite lookup_alter_ne].
  destruct (mem !! a); simpl; by rewrite ?H.
Qed.

Lemma field_new {A} (f : node -> A) (g : node -> node) (v : A) (a n : Z) (mem : gmap Z node) :
  (forall x, f (g x) = v) -> is_Some (mem !! a) -> f <$> (alter g a mem !! n) = if decide (n = a) then Some v else f <$> mem !! n.
Proof.
  intros H [x Hx]. destruct (decide (n = a)) as [->|N]; [rewrite lookup_alter_eq, Hx; simpl; by rewrite H|by rewrite lookup_alter_ne].
Qed.

Lemma alter_is_Some (g : node -> node) (a n : Z) (mem : gmap Z node) : is_Some (alter g a mem !! n) <-> is_Some (mem !! n).
Proof. destruct (decide (n = a)) as [->|N]; [by rewrite lookup_alter_eq, fmap_is_Some|by rewrite lookup_alter_ne]. Qed.

Ltac present := simpl; rewrite ?alter_is_Some; assumption.

Ltac field_step :=
  match goal with
  | |- context [?f <$> (alter ?g ?a ?m !! ?n)] =>
    first [ rewrite (field_same f g a n m) by reflexivity
          | erewrite (field_new f g _ a n m); [| intros; cbn; reflexivity | rewrite ?alter_is_Some; eassumption ] ]
  end.

Ltac fields := unfold par_of, sib_of, child_of, right_of, rc_of in *; repeat field_step.

(** A retain in the middle of an operation only raises one count. *)
Definition retained (n : node) : node := set_rc (t_rc n + 1) n.

Lemma rc_alter_retained (mem : gmap Z node) (a n r : Z) :
  (forall m r, rc_of mem m = Some r -> 1 <= r) -> rc_of (alter retained a mem) n = Some r -> 1 <= r.
Proof.
  unfold rc_of. intros Hr H. destruct (decide (n = a)) as [->|N]; [|rewrite lookup_alter_ne in H by done; by apply (Hr n)].
  rewrite lookup_alter_eq in H. destruct (mem !! a) as [x|] eqn:Ex; simplify_eq/=. specialize (Hr a (t_rc x)). rewrite Ex in Hr. simpl in Hr.
  specialize (Hr eq_refl). lia.
Qed.

Lemma root_links (mem : gmap Z node) (K : gmap Z (list Z)) (n : Z) :
  forest mem K ∅ -> par_of mem n = Some 0 -> is_Some (mem !! n) /\ n <> 0 /\ sib_of mem n = Some 0 /\ forall p l, K !! p = Some l -> n ∉ l.
Proof.
  intros F P. assert (S : is_Some (mem !! n)) by (unfold par_of in P; by destruct (mem !! n)). split_and!; [done| |by apply (fo_root _ _ _ F)|].
  - intros ->. rewrite (fo_null _ _ _ F) in S. by destruct S.
  - intros p l Kp Hn. destruct (fo_par _ _ _ F p l n Kp Hn) as [_ Q]. rewrite P in Q. injection Q as <-. by apply (no_zero _ _ _ l F).
Qed.

Lemma load_field {A} (f : node -> A) (h : heap) (a : Z) (v : A) :
  f <$> h_mem h !! a = Some v -> exists x, load h a = Ok x /\ f x = v.
Proof. unfold load. destruct (h_mem h !! a) as [x|]; [|done]. intros [= <-]. by exists x. Qed.

End Tree.
