(* ===== verification/TreeOps.v ===== *)
(** * CFTree.c: the operations on the forest

    The operations of Tree.v act on the lists of children: the insertions, CFTreeRemove
    and CFTreeRemoveAllChildren with what they free, the queries, the sort, the root of
    a node, contexts and new nodes. *)

From stdpp Require Import base list numbers option gmap.
From Stdlib Require Import ZArith Lia.
From S2P Require Import Prelude Sort SortN Tree.
Import Tree.

Module TreeOps.

Lemma chain_tail (mem : gmap Z node) (l0 l2 : list Z) (p a : Z) :
  chain mem p (l0 ++ a :: l2) -> exists s, sib_of mem a = Some s /\ chain mem s l2.
Proof. revert p. induction l0 as [|b l0 IH]; intros p (_ & _ & s & Hs & C); [by exists s|by apply (IH s)]. Qed.

Lemma chain_splice (mem mem' : gmap Z node) (l0 l2 l2' : list Z) (p a q : Z) :
  chain mem p (l0 ++ a :: l2) -> (forall n, n ∈ l0 -> sib_of mem' n = sib_of mem n) ->
  sib_of mem' a = Some q -> chain mem' q l2' -> chain mem' p (l0 ++ a :: l2').
Proof.
  revert p. induction l0 as [|b l0 IH]; intros p (-> & N & s & Hs & C) He Ha Cq; (split_and!; [done..|]); [by exists q|].
  exists s. rewrite He by left. split; [done|]. apply IH; [done| |done|done]. intros n Hn. apply He. by right.
Qed.

Lemma chain_insert (mem mem' : gmap Z node) (l1 l2 : list Z) (c tree new s : Z) :
  chain mem c (l1 ++ tree :: l2) -> chain mem s l2 -> NoDup (l1 ++ tree :: l2) -> new ∉ l1 ++ tree :: l2 -> new <> 0 ->
  (forall n, sib_of mem' n = if decide (n = tree) then Some new else if decide (n = new) then Some s else sib_of mem n) ->
  chain mem' c ((l1 ++ [tree]) ++ new :: l2).
Proof.
  intros C Cs Nd Nin Nz Hm. rewrite <-app_assoc. apply NoDup_app in Nd as (_ & Nd1 & Nd). apply NoDup_cons in Nd as [Nt _].
  apply (chain_splice mem _ l1 l2 (new :: l2) c tree new); [done| |by rewrite Hm, decide_True|].
  - intros n Hn. rewrite Hm, !decide_False; [done| |]; [intros ->; apply Nin; set_solver|]. intros ->. apply (Nd1 tree Hn). left.
  - split_and!; [done..|]. exists s. rewrite Hm, decide_False, decide_True by (try done; intros ->; apply Nin; set_solver).
    split; [done|]. apply (chain_ext mem); [|done]. intros n Hn. rewrite Hm, !decide_False; [done| |]; intros ->; [apply Nin; set_solver|done].
Qed.

Lemma chain_remove (mem mem' : gmap Z node) (l0 l2 : list Z) (c a tree s : Z) :
  chain mem c (l0 ++ a :: tree :: l2) -> chain mem s l2 -> NoDup (l0 ++ a :: tree :: l2) ->
  (forall n, n <> a -> n <> tree -> sib_of mem' n = sib_of mem n) -> sib_of mem' a = Some s ->
  chain mem' c ((l0 ++ [a]) ++ l2).
Proof.
  intros C Cs Nd Hm Ha. rewrite <-app_assoc. apply NoDup_app in Nd as (_ & Nd0 & Nd). apply NoDup_cons in Nd as [Nda Nd].
  apply NoDup_cons in Nd as [Ndt _]. apply (chain_splice mem _ l0 (tree :: l2) l2 c a s); [done| |done|].
  - intros n Hn. apply Hm; intros ->; apply (Nd0 _ Hn); set_solver.
  - apply (chain_ext mem); [|done]. intros n Hn. apply Hm; intros ->; [apply Nda; by right|done].
Qed.

(** A root becomes the child of [tree] between [l1] and [l2]. *)
Lemma forest_insert (mem mem' : gmap Z node) (K : gmap Z (list Z)) (tree new c' : Z) (l1 l2 : list Z) :
  forest mem K ∅ -> K !! tree = Some (l1 ++ l2) -> par_of mem new = Some 0 ->
  (forall n, is_Some (mem' !! n) <-> is_Some (mem !! n)) ->
  (forall n, n <> tree -> child_of mem' n = child_of mem n /\ right_of mem' n = right_of mem n) ->
  child_of mem' tree = Some c' -> chain mem' c' (l1 ++ new :: l2) -> right_of mem' tree = Some (last0 (l1 ++ new :: l2)) ->
  (forall n, par_of mem' n = if decide (n = new) then Some tree else par_of mem n) ->
  (forall n, n ∉ l1 -> n <> new -> sib_of mem' n = sib_of mem n) ->
  (forall n, rc_of mem' n = (if decide (n = new) then Z.add 1 else id) <$> rc_of mem n) ->
  forest mem' (<[tree := l1 ++ new :: l2]> K) ∅.
Proof.
  intros F Kt P Hd Hs Hc Hch Hr Hp Hsib Hrc. destruct (root_links _ _ _ F P) as (Sn & Nz & Sb & Nin).
  destruct (fo_kids _ _ _ F _ _ Kt) as (_ & _ & _ & _ & Nd). specialize (Nin _ _ Kt).
  apply (forest_relink mem mem' K ∅ ∅ tree c' (l1 ++ l2) (l1 ++ new :: l2)); try done.
  - rewrite <-Permutation_middle. by constructor.
  - intros m H1 H2 _. rewrite Hp, decide_False by (clear -H2; set_solver). split; [done|]. apply Hsib; clear -H2; set_solver.
  - intros c Hin. split; [apply not_elem_of_empty|]. rewrite Hp. destruct (decide (c = new)) as [->|N]; [by auto|].
    assert (Hin' : c ∈ l1 ++ l2) by (clear -Hin N; set_solver). destruct (fo_par _ _ _ F _ _ _ Kt Hin'). auto.
  - intros m [Hm|Hm] Hn; [|by apply not_elem_of_empty in Hm]. exfalso. apply Hn. clear -Hm. set_solver.
  - intros n r. rewrite Hrc. destruct (rc_of mem n) as [r0|] eqn:E0; [|done]. apply (fo_rc _ _ _ F) in E0.
    case_decide; intros [= <-]; simpl; unfold id; lia.
Qed.

Lemma last0_app (l : list Z) (a : Z) (l2 : list Z) : last0 (l ++ a :: l2) = last0 (a :: l2).
Proof. unfold last0. by rewrite last_app_cons. Qed.

Lemma rc_retained (mem : gmap Z node) (a n : Z) :
  t_rc <$> (alter retained a mem !! n) = (if decide (n = a) then Z.add 1 else id) <$> rc_of mem n.
Proof.
  unfold rc_of. case_decide as D; [subst; rewrite lookup_alter_eq|rewrite lookup_alter_ne by done; by destruct (mem !! n)].
  destruct (mem !! a); simpl; [f_equal; lia|done].
Qed.

(** The conditions of [forest_insert] on the fields of a changed memory. *)
Ltac inserted :=
  match goal with
  | |- forall n, is_Some _ <-> _ => intros n; by rewrite !alter_is_Some
  | |- forall n, rc_of _ n = _ => intros n; unfold rc_of; repeat field_step; apply rc_retained
  | |- forall n, par_of _ n = _ => intros n; by fields
  | |- forall n, n <> _ -> _ /\ _ => let N := fresh in intros n N; fields; by rewrite ?decide_False
  | |- _ => fields; by rewrite ?decide_True
  end.

Ltac load_as f a v y Hy :=
  match goal with
  | |- context [load ?h a] => destruct (load_field f h a v) as (y & -> & Hy); [simpl; fields|simpl]
  end.

(** [new] has become one of the children [l] of [p], which holds one reference to it;
    nothing else has changed. *)
Definition gains (h : heap) (K : gmap Z (list Z)) (p : Z) (l : list Z) (new : Z) (r : result heap) : Prop :=
  exists h', r = Ok h' /\ forest (h_mem h') (<[p := l]> K) ∅ /\
    (forall n, rc_of (h_mem h') n = (if decide (n = new) then Z.add 1 else id) <$> rc_of (h_mem h) n) /\ h_log h' = h_log h.

Lemma CFTreePrependChild_spec (h : heap) (K : gmap Z (list Z)) (tree new : Z) (l : list Z) :
  forest (h_mem h) K ∅ -> K !! tree = Some l -> par_of (h_mem h) new = Some 0 ->
  gains h K tree (new :: l) new (CFTreePrependChild h tree new).
Proof.
  intros F Kt P. destruct (root_links _ _ _ F P) as (Sn & Nz & Sb & Nin). specialize (Nin _ _ Kt).
  assert (St : is_Some (h_mem h !! tree)) by (apply (fo_dom _ _ _ F); by exists l).
  destruct (fo_kids _ _ _ F tree l Kt) as (c & C1 & C2 & C3 & C4).
  unfold gains, CFTreePrependChild, CFRetain. fold retained. rewrite store_Ok by done. simpl. rewrite store_Ok by present. simpl.
  load_as t_child tree c y Hy; [done|]. rewrite Hy, store_Ok by present. simpl. destruct l as [|a l].
  - simpl in C2. subst c. simpl. rewrite store_Ok by present. simpl. rewrite store_Ok by present. eexists. split; [done|]. simpl.
    split; [|split; [inserted|done]]. apply (forest_insert (h_mem h) _ K tree new new [] []); try done; try inserted.
    + split_and!; [done..|]. exists 0. fields. by rewrite decide_True.
    + intros n _ N. fields. by rewrite decide_False.
  - destruct C2 as (-> & Na & C2). rewrite (proj2 (Z.eqb_neq _ _)) by done. simpl. rewrite store_Ok by present. eexists. split; [done|]. simpl.
    split; [|split; [inserted|done]]. apply (forest_insert (h_mem h) _ K tree new new [] (a :: l)); try done; try inserted.
    + simpl. split_and!; [done..|]. exists a. split; [fields; by rewrite decide_True|]. apply (chain_ext (h_mem h) _ (a :: l)); [|by split_and!].
      intros b Hb. fields. by rewrite decide_False by (intros ->; by apply Nin).
    + intros n _ N. fields. by rewrite decide_False.
Qed.

Lemma CFTreeAppendChild_spec (h : heap) (K : gmap Z (list Z)) (tree new : Z) (l : list Z) :
  forest (h_mem h) K ∅ -> K !! tree = Some l -> par_of (h_mem h) new = Some 0 ->
  gains h K tree (l ++ [new]) new (CFTreeAppendChild h tree new).
Proof.
  intros F Kt P. destruct (root_links _ _ _ F P) as (Sn & Nz & Sb & Nin). specialize (Nin _ _ Kt).
  assert (St : is_Some (h_mem h !! tree)) by (apply (fo_dom _ _ _ F); by exists l).
  destruct (fo_kids _ _ _ F tree l Kt) as (c & C1 & C2 & C3 & C4).
  unfold gains, CFTreeAppendChild, CFRetain. fold retained. load_as t_parent new 0 x Hx; [done|]. rewrite Hx. simpl.
  rewrite store_Ok by done. simpl. rewrite store_Ok by present. simpl. rewrite store_Ok by present. simpl.
  load_as (fun n => (t_child n, t_rightmostChild n)) tree (c, last0 l) y Hy.
  { destruct (h_mem h !! tree); simpl in *; congruence. }
  injection Hy as -> ->. destruct l as [|a l _] using rev_ind.
  - simpl in C2. subst c. simpl. rewrite store_Ok by present. simpl. rewrite store_Ok by present. eexists. split; [done|]. simpl.
    split; [|split; [inserted|done]]. apply (forest_insert (h_mem h) _ K tree new new [] []); try done; try inserted.
    + split_and!; [done..|]. exists 0. fields. by rewrite decide_True.
    + intros n _ N. fields. by rewrite decide_False.
  - destruct (chain_in _ _ _ a C2) as [Na Sa]; [set_solver|].
    assert (Nan : a <> new) by (intros ->; apply Nin; set_solver).
    rewrite last0_app. unfold last0. simpl. rewrite (proj2 (Z.eqb_neq c 0)) by (by destruct l as [|b l]; destruct C2 as (-> & ? & _)).
    rewrite store_Ok by present. simpl. rewrite store_Ok by present. eexists. split; [done|]. simpl.
    split; [|split; [inserted|done]]. apply (forest_insert (h_mem h) _ K tree new c (l ++ [a]) []); try done; try inserted.
    + by rewrite app_nil_r.
    + rewrite <-app_assoc. apply (chain_splice (h_mem h) _ l [] [new] c a new); [done| | |].
      * apply NoDup_app in C4 as (_ & C4 & _). intros n Hn. fields. rewrite !decide_False; [done|..]; [|intros ->; by apply (C4 a Hn), list_elem_of_singleton].
        intros ->. apply Nin. set_solver.
      * fields. by rewrite decide_True.
      * simpl. split_and!; [done..|]. exists 0. fields. by rewrite decide_False, decide_True.
    + rewrite last0_app. inserted.
    + intros n Hn N. fields. rewrite !decide_False; [done|done|]. intros ->. apply Hn. set_solver.
Qed.

Lemma last0_rightmost (l1 l2 : list Z) (t : Z) :
  NoDup (l1 ++ t :: l2) -> (last0 (l1 ++ t :: l2) =? t) = bool_decide (l2 = []).
Proof.
  intros Nd. rewrite last0_app. destruct l2 as [|b l2]; [unfold last0; simpl; by rewrite Z.eqb_refl|].
  rewrite bool_decide_false by done. apply Z.eqb_neq. unfold last0. intros H.
  apply NoDup_app in Nd as (_ & _ & Nd). apply NoDup_cons in Nd as [Nt _]. apply Nt. rewrite <-H.
  apply list_elem_of_lookup. rewrite last_cons_cons. destruct (last (b :: l2)) as [z|] eqn:L; [|by apply last_None in L].
  rewrite last_lookup in L. by eexists.
Qed.

Lemma CFTreeInsertSibling_spec (h : heap) (K : gmap Z (list Z)) (p tree new : Z) (l1 l2 : list Z) :
  forest (h_mem h) K ∅ -> K !! p = Some (l1 ++ tree :: l2) -> par_of (h_mem h) new = Some 0 ->
  gains h K p (l1 ++ tree :: new :: l2) new (CFTreeInsertSibling h tree new).
Proof.
  intros F Kp P. destruct (root_links _ _ _ F P) as (Sn & Nz & Sb & Nin). specialize (Nin _ _ Kp).
  assert (Sp : is_Some (h_mem h !! p)) by (apply (fo_dom _ _ _ F); by eexists).
  destruct (fo_kids _ _ _ F p _ Kp) as (c & C1 & C2 & C3 & C4).
  destruct (chain_in _ _ _ tree C2) as [Nt St]; [set_solver|]. destruct (chain_tail _ _ _ _ _ C2) as (s & Hs & Cs).
  destruct (fo_par _ _ _ F p _ tree Kp) as [_ Pt]; [set_solver|]. assert (Np : p <> 0) by (intros ->; by apply (no_zero _ _ _ _ F Kp)).
  assert (Ntn : tree <> new) by (intros ->; apply Nin; set_solver).
  unfold gains, CFTreeInsertSibling, CFRetain. fold retained. rewrite store_Ok by done. simpl.
  load_as (fun n => (t_parent n, t_sibling n)) tree (p, s) y Hy.
  { destruct (h_mem h !! tree); simpl in *; congruence. }
  injection Hy as -> ->. do 3 (rewrite store_Ok by present; simpl). rewrite (proj2 (Z.eqb_neq p 0)) by done.
  load_as t_rightmostChild p (last0 (l1 ++ tree :: l2)) z Hz; [done|]. rewrite Hz, last0_rightmost by done.
  assert (Chain : forall mem', (forall n, sib_of mem' n = if decide (n = tree) then Some new else if decide (n = new) then Some s else sib_of (h_mem h) n) ->
    chain mem' c ((l1 ++ [tree]) ++ new :: l2)) by (intros mem' Hm; by apply (chain_insert (h_mem h) _ _ _ _ _ _ s)).
  replace (l1 ++ tree :: new :: l2) with ((l1 ++ [tree]) ++ new :: l2) by by rewrite <-app_assoc.
  assert (Kp' : K !! p = Some ((l1 ++ [tree]) ++ l2)) by by rewrite <-app_assoc.
  destruct l2 as [|b l2]; simpl.
  - rewrite store_Ok by present. eexists. split; [done|]. simpl.
    split; [|split; [inserted|done]]. apply (forest_insert (h_mem h) _ K p new c (l1 ++ [tree]) []); try done; try inserted.
    + apply Chain. intros n. by fields.
    + rewrite last0_app. inserted.
    + intros n Hn N. fields. rewrite !decide_False; [done|done|]. intros ->. apply Hn. set_solver.
  - eexists. split; [done|]. simpl.
    split; [|split; [inserted|done]]. apply (forest_insert (h_mem h) _ K p new c (l1 ++ [tree]) (b :: l2)); try done; try inserted.
    + apply Chain. intros n. by fields.
    + rewrite last0_app. rewrite last0_app in C3. fields. rewrite C3. done.
    + intros n Hn N. fields. rewrite !decide_False; [done|done|]. intros ->. apply Hn. set_solver.
Qed.

Theorem insertions_refine (h : heap) (K : gmap Z (list Z)) (tree new : Z) :
  forest (h_mem h) K ∅ -> par_of (h_mem h) new = Some 0 ->
  (forall l, K !! tree = Some l ->
     gains h K tree (new :: l) new (CFTreePrependChild h tree new) /\ gains h K tree (l ++ [new]) new (CFTreeAppendChild h tree new)) /\
  (forall p l1 l2, K !! p = Some (l1 ++ tree :: l2) -> gains h K p (l1 ++ tree :: new :: l2) new (CFTreeInsertSibling h tree new)).
Proof.
  intros F P. split; [|by intros; apply CFTreeInsertSibling_spec].
  intros l Kt. split; [by apply CFTreePrependChild_spec|by apply CFTreeAppendChild_spec].
Qed.

(** [tree] leaves the children of [p]. *)
Lemma forest_remove (mem mem' : gmap Z node) (K : gmap Z (list Z)) (p tree c' : Z) (l1 l2 : list Z) :
  forest mem K ∅ -> K !! p = Some (l1 ++ tree :: l2) ->
  (forall n, is_Some (mem' !! n) <-> is_Some (mem !! n)) ->
  (forall n, n <> p -> child_of mem' n = child_of mem n /\ right_of mem' n = right_of mem n) ->
  child_of mem' p = Some c' -> chain mem' c' (l1 ++ l2) -> right_of mem' p = Some (last0 (l1 ++ l2)) ->
  (forall n, par_of mem' n = if decide (n = tree) then Some 0 else par_of mem n) ->
  (forall n, n ∉ l1 -> n <> tree -> sib_of mem' n = sib_of mem n) -> sib_of mem' tree = Some 0 ->
  (forall n, rc_of mem' n = rc_of mem n) ->
  forest mem' (<[p := l1 ++ l2]> K) ∅.
Proof.
  intros F Kp Hd Hs Hc Hch Hr Hp Hsib St Hrc. destruct (fo_kids _ _ _ F _ _ Kp) as (_ & _ & _ & _ & Nd).
  rewrite <-Permutation_middle in Nd. apply NoDup_cons in Nd as [Nt Nd].
  apply (forest_relink mem mem' K ∅ ∅ p c' (l1 ++ tree :: l2) (l1 ++ l2)); try done.
  - intros m H1 _ _. rewrite Hp, decide_False by (clear -H1; set_solver). split; [done|]. apply Hsib; clear -H1; set_solver.
  - intros c Hin. split; [apply not_elem_of_empty|]. assert (Hin' : c ∈ l1 ++ tree :: l2) by (clear -Hin; set_solver).
    rewrite Hp, decide_False by (by intros ->). destruct (fo_par _ _ _ F _ _ _ Kp Hin'). auto.
  - intros m [Hm|Hm] Hn _ _; [|by apply not_elem_of_empty in Hm]. assert (m = tree) as -> by (clear -Hm Hn; set_solver).
    by rewrite Hp, decide_True.
  - intros n r. rewrite Hrc. apply (fo_rc _ _ _ F).
Qed.

(** The loop stops at the node before [tree]. *)
Lemma unlink_from_spec (l0 l2 : list Z) (h : heap) (fuel : nat) (parent tree sibling prev a : Z) :
  chain (h_mem h) prev (l0 ++ a :: tree :: l2) -> NoDup (l0 ++ a :: tree :: l2) -> (length l0 < fuel)%nat ->
  unlink_from fuel h parent tree sibling prev =
    (h ← store h a (set_sibling sibling);
     p ← load h parent;
     if t_rightmostChild p =? tree then store h parent (set_rightmost a) else Ok h).
Proof.
  revert prev fuel. induction l0 as [|b l0 IH]; intros prev fuel (-> & Nz & s & Hs & C) Nd Hf; (destruct fuel as [|fuel]; [simpl in Hf; lia|]);
    simpl; rewrite (proj2 (Z.eqb_neq _ 0)) by done; load_as t_sibling a s x Hx || load_as t_sibling b s x Hx; try done; rewrite Hx.
  - destruct C as (-> & _). by rewrite Z.eqb_refl.
  - apply NoDup_cons in Nd as [_ Nd]. rewrite (proj2 (Z.eqb_neq s tree)); [apply IH; [done|done|simpl in Hf; lia]|]. intros ->.
    destruct l0 as [|b' l0]; destruct C as (<- & _); simpl in Nd; apply NoDup_cons in Nd as [Nd _]; apply Nd; set_solver.
Qed.

(** What a client sees of a release: the forest that is left, the nodes freed and the
    counts. *)
Record dropped (mem : gmap Z node) (K : gmap Z (list Z)) (R D : gset Z) (mem' : gmap Z node) (K' : gmap Z (list Z)) : Prop := mk_dropped {
  dr_forest : forest mem' K' ∅;
  dr_dies : forall n, n ∈ D <-> dies (rc_of mem) K R n;
  dr_kids : forall n, K' !! n = if decide (n ∈ D) then None else K !! n;
  dr_rc : forall n, rc_of mem' n = if decide (n ∈ D) then None
                                   else if decide (n ∈ R ∪ kids_of K D) then Z.pred <$> rc_of mem n else rc_of mem n
}.

Lemma released_dropped (mem mem1 mem' : gmap Z node) (K K' : gmap Z (list Z)) (R D : gset Z) :
  forest mem1 K R -> (forall n, rc_of mem1 n = rc_of mem n) -> released mem1 K R D mem' K' -> dropped mem K R D mem' K'.
Proof.
  intros F Rc Re. split.
  - apply (released_forest mem1 _ K _ _ R D); [|set_solver|done]. by rewrite union_empty_l_L.
  - intros n. rewrite (re_dies _ _ _ _ _ _ Re). split; apply dies_mono; [done|intros m; by rewrite Rc|done|done|intros m; by rewrite Rc|done].
  - apply Re.
  - intros n. rewrite <-Rc. unfold rc_of. rewrite (re_mem _ _ _ _ _ _ Re). repeat case_decide; [done| |done]. by destruct (mem1 !! n).
Qed.

Arguments unlink_from : simpl never.

Section Releasing.

Context (cf_retain cf_release cf_copyDescription : Z).

Ltac removed :=
  match goal with
  | |- forall n, is_Some _ <-> _ => intros n; by rewrite !alter_is_Some
  | |- forall n, rc_of _ n = _ => intros n; by fields
  | |- forall n, par_of _ n = _ => intros n; by fields
  | |- forall n, n <> _ -> _ /\ _ => let N := fresh in intros n N; fields; by rewrite ?decide_False
  | |- _ => fields; by rewrite ?decide_True
  end.

(** The memory after the unlinking. *)
Lemma unlinked (h : heap) (K : gmap Z (list Z)) (p tree : Z) (l1 l2 : list Z) :
  forest (h_mem h) K ∅ -> K !! p = Some (l1 ++ tree :: l2) ->
  exists h1, CFTreeRemove cf_retain cf_release cf_copyDescription h tree = release cf_retain cf_release cf_copyDescription h1 tree /\
    forest (h_mem h1) (<[p := l1 ++ l2]> K) ∅ /\ par_of (h_mem h1) tree = Some 0 /\ forall n, rc_of (h_mem h1) n = rc_of (h_mem h) n.
Proof.
  intros F Kp. assert (Sp : is_Some (h_mem h !! p)) by (apply (fo_dom _ _ _ F); by eexists).
  destruct (fo_kids _ _ _ F p _ Kp) as (c & C1 & C2 & C3 & C4). destruct (chain_in _ _ _ tree C2) as [Nt St]; [set_solver|].
  destruct (chain_tail _ _ _ _ _ C2) as (s & Hs & Cs). destruct (fo_par _ _ _ F p _ tree Kp) as [_ Pt]; [set_solver|].
  assert (Np : p <> 0) by (intros ->; by apply (no_zero _ _ _ _ F Kp)).
  unfold CFTreeRemove. load_as (fun n => (t_parent n, t_sibling n)) tree (p, s) y Hy.
  { destruct (h_mem h !! tree); simpl in *; congruence. }
  injection Hy as -> ->. rewrite (proj2 (Z.eqb_neq p 0)) by done. load_as t_child p c z Hz; [done|]. rewrite Hz.
  destruct l1 as [|a l0 _] using rev_ind.
  - destruct C2 as (-> & _). rewrite Z.eqb_refl, store_Ok by present. simpl. destruct l2 as [|b l2].
    + simpl in Cs. subst s. simpl. rewrite store_Ok by present. simpl. rewrite store_Ok by present. eexists. split; [done|]. simpl.
      split; [|split; [removed|removed]]. apply (forest_remove (h_mem h) _ K p tree 0 [] []); try done; try removed.
      intros n _ N. fields. by rewrite decide_False.
    + destruct Cs as (-> & Nb & Cs). rewrite (proj2 (Z.eqb_neq b 0)) by done. simpl. rewrite store_Ok by present. eexists. split; [done|]. simpl.
      split; [|split; [removed|removed]]. apply (forest_remove (h_mem h) _ K p tree b [] (b :: l2)); try done; try removed.
      * apply (chain_ext (h_mem h) _ (b :: l2)); [|by split_and!]. apply NoDup_cons in C4 as [C4 _]. intros n Hn. fields.
        rewrite decide_False; [done|]. by intros ->.
      * intros n _ N. fields. by rewrite decide_False.
  - assert (Nat : a <> tree). { intros ->. rewrite <-app_assoc in C4. apply NoDup_app in C4 as (_ & _ & C4). apply NoDup_cons in C4 as [C4 _]. apply C4. left. }
    rewrite <-app_assoc in C2, C4. simpl in C2, C4. destruct (chain_in _ _ _ a C2) as [Na Sa]; [set_solver|].
    rewrite (proj2 (Z.eqb_neq tree c)). 2: { intros <-. destruct l0 as [|b l0]; destruct C2 as (-> & _); [done|]. apply NoDup_cons in C4 as [C4 _]. apply C4; set_solver. }
    rewrite (unlink_from_spec l0 l2 _ _ _ _ _ _ a) by (try done; pose proof (chain_length _ _ _ C2 C4) as L; unfold steps; rewrite length_app in L; simpl in L; lia).
    rewrite store_Ok by done. simpl. load_as t_rightmostChild p (last0 ((l0 ++ [a]) ++ tree :: l2)) w Hw; [done|].
    rewrite Hw, last0_rightmost by (by rewrite <-app_assoc).
    assert (Chain : forall mem', (forall n, n <> a -> n <> tree -> sib_of mem' n = sib_of (h_mem h) n) -> sib_of mem' a = Some s ->
      chain mem' c ((l0 ++ [a]) ++ l2)) by (intros mem' Hm Ha; by apply (chain_remove (h_mem h) _ _ _ _ _ tree s)).
    destruct l2 as [|b l2]; simpl.
    + rewrite store_Ok by present. simpl. rewrite store_Ok by present. eexists. split; [done|]. simpl.
      split; [|split; [removed|removed]]. apply (forest_remove (h_mem h) _ K p tree c (l0 ++ [a]) []); try done; try removed.
      * apply Chain; [intros n N1 N2; fields; by rewrite !decide_False|]. fields. by rewrite decide_False, decide_True.
      * rewrite app_nil_r, last0_app. removed.
      * intros n Hn N. fields. rewrite !decide_False; [done| |done]. intros ->. apply Hn. set_solver.
    + rewrite store_Ok by present. eexists. split; [done|]. simpl.
      split; [|split; [removed|removed]]. apply (forest_remove (h_mem h) _ K p tree c (l0 ++ [a]) (b :: l2)); try done; try removed.
      * apply Chain; [intros n N1 N2; fields; by rewrite !decide_False|]. fields. by rewrite decide_False, decide_True.
      * rewrite last0_app in C3 |- *. fields. by rewrite C3.
      * intros n Hn N. fields. rewrite !decide_False; [done| |done]. intros ->. apply Hn. set_solver.
Qed.

(** The release of a root. *)
Theorem release_frees (h : heap) (K : gmap Z (list Z)) (t : Z) :
  forest (h_mem h) K ∅ -> par_of (h_mem h) t = Some 0 ->
  exists h' K' D, release cf_retain cf_release cf_copyDescription h t = Ok h' /\ dropped (h_mem h) K {[t]} D (h_mem h') K'.
Proof.
  intros F P. destruct (release_spec cf_retain cf_release cf_copyDescription (S (att (h_mem h))) h K ∅ t) as (h' & K' & D & E & R); [done|set_solver|done|lia|].
  exists h', K', D. split; [done|]. apply (released_dropped _ (h_mem h)); [|done|done]. rewrite <-(union_empty_l_L {[t]}). by apply forest_exempt.
Qed.

(** C34. CFTreeRemove takes a node out of the list of its parent's children and releases it: if nobody
    else holds it, it is freed together with exactly the descendants that nobody else holds, and the
    survivors become roots. *)
Theorem remove_refines (h : heap) (K : gmap Z (list Z)) (p tree : Z) (l1 l2 : list Z) :
  forest (h_mem h) K ∅ -> K !! p = Some (l1 ++ tree :: l2) ->
  exists h' K' D, CFTreeRemove cf_retain cf_release cf_copyDescription h tree = Ok h' /\
    dropped (h_mem h) (<[p := l1 ++ l2]> K) {[tree]} D (h_mem h') K'.
Proof.
  intros F Kp. destruct (unlinked h K p tree l1 l2 F Kp) as (h1 & -> & F1 & P1 & R1).
  destruct (release_spec cf_retain cf_release cf_copyDescription (S (att (h_mem h1))) h1 _ ∅ tree F1) as (h' & K' & D & E & R); [set_solver|done|lia|].
  exists h', K', D. split; [done|]. apply (released_dropped _ (h_mem h1)); [|done|done]. rewrite <-(union_empty_l_L {[tree]}). by apply forest_exempt.
Qed.

Theorem remove_all_children_refines (h : heap) (K : gmap Z (list Z)) (t : Z) (l : list Z) :
  forest (h_mem h) K ∅ -> K !! t = Some l ->
  exists h' K' D, CFTreeRemoveAllChildren cf_retain cf_release cf_copyDescription h t = Ok h' /\
    dropped (h_mem h) (<[t := []]> K) (list_to_set l) D (h_mem h') K'.
Proof.
  intros F Kt. destruct (remove_all_children_spec _ (att (h_mem h)) h K ∅ t l (release_spec cf_retain cf_release cf_copyDescription _) F Kt) as (h' & K' & D & E & R); [lia|].
  exists h', K', D. split; [done|]. apply (released_dropped _ (alter clear_links t (h_mem h))); [|intros n; by fields|done].
  rewrite <-(union_empty_l_L (list_to_set l)). by apply forest_clear.
Qed.

End Releasing.

(** ** The loops over the children *)

Lemma loops_spec (l : list Z) (h : heap) (p : Z) (fuel : nat) :
  chain (h_mem h) p l -> (length l <= fuel)%nat ->
  children_loop fuel h p = Ok l /\
  (forall cnt, 0 <= cnt -> cnt + Z.of_nat (length l) < 2 ^ 31 -> count_loop fuel h p cnt = Ok (cnt + Z.of_nat (length l))) /\
  (forall idx, child_at_loop fuel h p idx = Ok (if idx <? 0 then 0 else nth (Z.to_nat idx) l 0)).
Proof.
  revert p fuel. induction l as [|a l IH]; intros p fuel C Hf.
  { simpl in C. subst p. destruct fuel; (split_and!; [done|intros; simpl; by rewrite Z.add_0_r|]);
      intros idx; simpl; (destruct (idx <? 0); [done|]); by destruct (Z.to_nat idx). }
  destruct C as (-> & Na & s & Hs & C). destruct fuel as [|fuel]; [simpl in Hf; lia|].
  destruct (IH s fuel C) as (I1 & I2 & I3); [simpl in Hf; lia|].
  simpl. rewrite (proj2 (Z.eqb_neq a 0)) by done. split_and!.
  - load_as t_sibling a s x Hx; [done|]. by rewrite Hx, I1.
  - intros cnt H0 H1. load_as t_sibling a s x Hx; [done|]. rewrite Hx.
    rewrite swrap_small by (unfold in_s; simpl in H1; lia). rewrite I2 by lia. f_equal. lia.
  - intros idx. destruct (Z.eqb_spec idx 0) as [->|N]; [done|]. load_as t_sibling a s x Hx; [done|]. rewrite Hx, I3. f_equal.
    destruct (Z.ltb_spec idx 0); [by rewrite (proj2 (Z.ltb_lt _ _)) by lia|]. rewrite (proj2 (Z.ltb_ge _ _)) by lia.
    by replace (Z.to_nat idx) with (S (Z.to_nat (idx - 1))) by lia.
Qed.

Lemma apply_children_spec (l : list Z) (h : heap) (p : Z) (fuel : nat) :
  chain (h_mem h) p l -> (length l <= fuel)%nat -> apply_loop fuel h p = Ok (mkHeap (h_mem h) (h_log h ++ (Apply <$> l))).
Proof.
  revert h p fuel. induction l as [|a l IH]; intros h p fuel C Hf.
  { simpl in C. subst p. destruct fuel; simpl; rewrite app_nil_r; by destruct h. }
  destruct C as (-> & Na & s & Hs & C). destruct fuel as [|fuel]; [simpl in Hf; lia|].
  simpl. rewrite (proj2 (Z.eqb_neq a 0)) by done. load_as t_sibling a s x Hx; [done|].
  rewrite Hx, (IH (emit h (Apply a)) s fuel C) by (simpl in Hf; lia). simpl. by rewrite <-app_assoc.
Qed.

Lemma kids_chain (h : heap) (K : gmap Z (list Z)) (t : Z) (l : list Z) :
  forest (h_mem h) K ∅ -> K !! t = Some l ->
  exists x, load h t = Ok x /\ chain (h_mem h) (t_child x) l /\ (length l <= steps h)%nat /\ NoDup l.
Proof.
  intros F Kt. destruct (fo_kids _ _ _ F t l Kt) as (c & C1 & C2 & _ & C4). destruct (load_field t_child h t c) as (x & Hx & <-); [done|].
  exists x. pose proof (chain_length _ _ _ C2 C4). unfold steps. split_and!; [done|done|lia|done].
Qed.

Theorem children_queries (h : heap) (K : gmap Z (list Z)) (t : Z) (l : list Z) :
  forest (h_mem h) K ∅ -> K !! t = Some l ->
  CFTreeGetChildren h t = Ok l /\
  (Z.of_nat (length l) < 2 ^ 31 -> CFTreeGetChildCount h t = Ok (Z.of_nat (length l))) /\
  (forall idx, CFTreeGetChildAtIndex h t idx = Ok (if idx <? 0 then 0 else nth (Z.to_nat idx) l 0)) /\
  CFTreeApplyFunctionToChildren h t = Ok (mkHeap (h_mem h) (h_log h ++ (Apply <$> l))).
Proof.
  intros F Kt. destruct (kids_chain _ _ _ _ F Kt) as (x & Hx & C & L & _). destruct (loops_spec _ _ _ _ C L) as (I1 & I2 & I3).
  unfold CFTreeGetChildren, CFTreeGetChildCount, CFTreeGetChildAtIndex, CFTreeApplyFunctionToChildren. rewrite Hx. cbn [mbind result_bind].
  split_and!; [done|intros; by rewrite I2 by lia|done|by apply apply_children_spec].
Qed.

(** ** Sorting *)

Lemma last_last0 (a : Z) (l : list Z) : List.last (a :: l) 0 = default 0 (last (a :: l)).
Proof. revert a. induction l as [|b l IH]; intros a; [done|]. exact (IH b). Qed.


Lemma relink_spec (l : list Z) (h : heap) (a : Z) :
  NoDup (a :: l) -> (forall n, n ∈ a :: l -> n <> 0 /\ is_Some (h_mem h !! n)) ->
  exists h', relink h (a :: l) = Ok h' /\ chain (h_mem h') a (a :: l) /\ h_log h' = h_log h /\
    (forall n, is_Some (h_mem h' !! n) <-> is_Some (h_mem h !! n)) /\
    (forall n, par_of (h_mem h') n = par_of (h_mem h) n /\ child_of (h_mem h') n = child_of (h_mem h) n /\
               right_of (h_mem h') n = right_of (h_mem h) n /\ rc_of (h_mem h') n = rc_of (h_mem h) n) /\
    (forall n, n ∉ a :: l -> sib_of (h_mem h') n = sib_of (h_mem h) n).
Proof.
  revert h a. induction l as [|b l IH]; intros h a Nd Hin; destruct (Hin a) as [Na Sa]; [left| |left|].
  - simpl. rewrite store_Ok by done. eexists. split; [done|]. simpl. split_and!; [done|done|exists 0; fields; by rewrite decide_True|done| | |].
    + intros n. by rewrite alter_is_Some.
    + intros n. by fields.
    + intros n Hn. fields. rewrite decide_False; [done|]. intros ->. apply Hn. left.
  - apply NoDup_cons in Nd as [Nab Nd]. set (h1 := mkHeap (alter (set_sibling b) a (h_mem h)) (h_log h)).
    destruct (IH h1 b Nd) as (h' & E & C & Lg & Dm & Fs & Sb).
    { intros n Hn. simpl. rewrite alter_is_Some. apply Hin. by right. }
    exists h'. split; [cbn [relink]; rewrite store_Ok by done; exact E|]. split; [|split; [done|]].
    + split_and!; [done..|]. exists b. split; [|done]. rewrite Sb by done. unfold h1. simpl. fields. by rewrite decide_True.
    + split_and!.
      * intros n. rewrite Dm. apply alter_is_Some.
      * intros n. destruct (Fs n) as (-> & -> & -> & ->). unfold h1. simpl. by fields.
      * intros n Hn. rewrite Sb by (intros ?; apply Hn; by right). unfold h1. simpl. fields. rewrite decide_False; [done|]. intros ->. apply Hn. left.
Qed.

Theorem sort_children_refines (fresh : Z -> list Z) (cmp : Z -> Z -> Z) (h : heap) (K : gmap Z (list Z)) (t : Z) (l : list Z) :
  Sort.Comparator cmp -> (forall n, 0 <= n -> Z.of_nat (length (fresh n)) = n) ->
  forest (h_mem h) K ∅ -> K !! t = Some l -> Z.of_nat (length l) < 2 ^ 31 ->
  exists h' out, CFTreeSortChildren fresh cmp h t = Ok h' /\ Sort.stable_sorted cmp l out /\ forest (h_mem h') (<[t := out]> K) ∅ /\
    (forall n, rc_of (h_mem h') n = rc_of (h_mem h) n) /\ h_log h' = h_log h.
Proof.
  intros Cm Hf F Kt Hl. destruct (SortN.sort_array_stable cmp fresh Hf 0 l 8 ltac:(lia)) as (out & Eo & So); [apply Z.div_le_lower_bound; lia|].
  assert (Hs : out ≡ₚ l) by (apply (Sort.same_classes_perm cmp); intros z; apply (Sort.ss_stable cmp _ _ So)). destruct (kids_chain _ _ _ _ F Kt) as (x & Hx & C & L & Nd). destruct (loops_spec _ _ _ _ C L) as (I1 & I2 & _).
  assert (St : is_Some (h_mem h !! t)) by (apply (fo_dom _ _ _ F); by exists l).
  unfold CFTreeSortChildren, CFTreeGetChildCount, CFTreeGetChildren. rewrite Hx. cbn [mbind result_bind]. rewrite I2 by lia. cbn [mbind result_bind].
  destruct (Z.ltb_spec 1 (0 + Z.of_nat (length l))) as [L1|L1].
  - rewrite I1. cbn [mbind result_bind]. unfold Sort.CFQSortArray. rewrite Eo. cbn [mbind result_bind]. destruct out as [|a l'] eqn:El; [apply Permutation_length in Hs; simpl in Hs; lia|].
    rewrite store_Ok by done. cbn [mbind result_bind].
    destruct (relink_spec l' (mkHeap (alter (set_child a) t (h_mem h)) (h_log h)) a) as (h1 & E1 & C1 & Lg & Dm & Fs & Sb).
    { by rewrite Hs. }
    { intros n Hn. rewrite Hs in Hn. simpl. rewrite alter_is_Some. by apply (chain_in _ l (t_child x)). }
    simpl in E1 |- *. rewrite E1. cbn [mbind result_bind]. assert (St1 : is_Some (h_mem h1 !! t)) by (by rewrite Dm; simpl; rewrite alter_is_Some).
    rewrite store_Ok by done. eexists _, _. split; [done|]. split; [exact So|]. simpl in Fs, Dm, Sb, Lg |- *. split_and!; [|intros n; destruct (Fs n) as (_ & _ & _ & R); fields; rewrite R; by fields|done].
    apply (forest_relink (h_mem h) _ K ∅ ∅ t a l (a :: l')); try done.
    + intros n. by rewrite alter_is_Some, Dm, alter_is_Some.
    + intros n N. destruct (Fs n) as (_ & Fc & Fr & _). fields. rewrite Fc, Fr. fields. by rewrite !decide_False.
    + destruct (Fs t) as (_ & Fc & _). fields. rewrite Fc. fields. by rewrite decide_True.
    + apply (chain_ext (h_mem h1)); [|done]. intros n _. by fields.
    + fields. rewrite decide_True by done. unfold last0. f_equal. apply last_last0.
    + by rewrite Hs.
    + intros m _ Hm _. destruct (Fs m) as (Fp & _). specialize (Sb m Hm). fields. rewrite Fp, Sb. by fields.
    + intros n Hn. split; [apply not_elem_of_empty|]. destruct (Fs n) as (Fp & _). rewrite Hs in Hn. destruct (fo_par _ _ _ F _ _ _ Kt Hn) as [_ Pn]. fields.
      rewrite Fp. fields. auto.
    + intros m [Hm|Hm] Hn; [|by apply not_elem_of_empty in Hm]. by rewrite Hs in Hn.
    + intros n r. destruct (Fs n) as (_ & _ & _ & Fr). intros Hr. apply (fo_rc _ _ _ F n). revert Hr. fields. rewrite Fr. by fields.
  - exists h, out. split; [done|]. split; [done|]. split; [|done]. destruct l as [|a [|? ?]]; [apply Permutation_nil_r in Hs as ->|apply Permutation_singleton_r in Hs as ->|simpl in L1; lia];
      by rewrite insert_id.
Qed.

(** ** Ancestors *)

Fixpoint ancestors (mem : gmap Z node) (t : Z) (l : list Z) : Prop :=
  match l with
  | [] => False
  | a :: l => t = a /\ match l with
                      | [] => par_of mem a = Some 0
                      | p :: _ => p <> 0 /\ par_of mem a = Some p /\ ancestors mem p l
                      end
  end.

Lemma ancestors_unique (mem : gmap Z node) (l1 l2 : list Z) (t : Z) : ancestors mem t l1 -> ancestors mem t l2 -> l1 = l2.
Proof.
  revert l2 t. induction l1 as [|a l1 IH]; intros [|b l2] t H1 H2; [done..|]. destruct H1 as [-> H1], H2 as [<- H2].
  destruct l1 as [|p l1], l2 as [|q l2]; [done| | |].
  - destruct H2 as (? & ? & _). congruence.
  - destruct H1 as (? & ? & _). congruence.
  - destruct H1 as (_ & P1 & H1), H2 as (_ & P2 & H2). f_equal. apply (IH _ p H1). congruence.
Qed.

Lemma ancestors_suffix (mem : gmap Z node) (l : list Z) (t a : Z) : ancestors mem t l -> a ∈ l -> exists l', ancestors mem a l' /\ (length l' <= length l)%nat.
Proof.
  revert t. induction l as [|b l IH]; intros t H Ha; [done|]. destruct (decide (a = t)) as [->|N]; [by exists (b :: l)|].
  destruct H as [-> H]. apply elem_of_cons in Ha as [->|Ha]; [done|]. destruct l as [|p l]; [by apply elem_of_nil in Ha|].
  destruct H as (_ & _ & H). destruct (IH p H Ha) as (l' & H' & L). exists l'. split; [done|]. simpl in *. lia.
Qed.

Lemma ancestors_length (mem : gmap Z node) (l : list Z) (t : Z) : ancestors mem t l -> (length l <= size mem)%nat.
Proof.
  intros H. assert (A : NoDup l /\ forall a, a ∈ l -> is_Some (mem !! a)).
  { revert t H. induction l as [|b l IH]; intros t H; [done|]. assert (H0 := H). destruct H as [-> H]. split.
    - destruct l as [|p l]; [apply NoDup_singleton|]. destruct H as (_ & P & H). apply NoDup_cons. split; [|by apply (IH p)].
      intros Hb. destruct (ancestors_suffix _ _ _ _ H Hb) as (l' & H' & L). rewrite (ancestors_unique _ _ _ _ H' H0) in L. simpl in L. lia.
    - intros a Ha. apply elem_of_cons in Ha as [->|Ha].
      + unfold par_of in H. destruct (mem !! b); [done|]. destruct l; [done|]. by destruct H as (_ & ? & _).
      + destruct l as [|p l]; [by apply elem_of_nil in Ha|]. destruct H as (_ & _ & H). by apply (IH p H). }
  destruct A as [N A]. rewrite <-(size_dom (D := gset Z) mem), <-(size_list_to_set (C := gset Z) l) by done. apply subseteq_size. intros a Ha.
  apply elem_of_dom, A. by apply elem_of_list_to_set in Ha.
Qed.

Lemma find_root_loop_spec (l : list Z) (h : heap) (t : Z) (fuel : nat) :
  ancestors (h_mem h) t l -> (length l <= fuel)%nat -> find_root_loop fuel h t = Ok (last0 l).
Proof.
  revert t fuel. induction l as [|a l IH]; intros t fuel H Hf; [done|]. destruct H as [-> H]. destruct fuel as [|fuel]; [simpl in Hf; lia|]. simpl.
  destruct l as [|p l].
  - load_as t_parent a 0 x Hx; [done|]. by rewrite Hx.
  - destruct H as (Np & P & H). load_as t_parent a p x Hx; [done|]. rewrite Hx, (proj2 (Z.eqb_neq p 0)) by done.
    rewrite (IH p fuel H) by (simpl in *; lia). unfold last0. by rewrite last_cons_cons.
Qed.

Theorem find_root_correct (h : heap) (K : gmap Z (list Z)) (r t : Z) :
  forest (h_mem h) K ∅ -> rtc (kid K) r t -> par_of (h_mem h) r = Some 0 -> CFTreeFindRoot h t = Ok r.
Proof.
  intros F Rt P. assert (exists l, ancestors (h_mem h) t l /\ last0 l = r) as (l & A & <-).
  { revert t Rt. apply rtc_ind_r; [by exists [r]|]. intros t n _ (l0 & K0 & Hin) (l & A & L). destruct l as [|p l]; [done|].
    destruct A as [-> A]. exists (n :: p :: l). destruct (fo_par _ _ _ F p l0 n K0 Hin) as [_ Pn].
    split; [|unfold last0 in *; by rewrite last_cons_cons]. split_and!; [done| |done|done]. intros ->. by apply (no_zero _ _ _ _ F K0). }
  apply find_root_loop_spec; [done|]. pose proof (ancestors_length _ _ _ A). unfold steps. lia.
Qed.

(** ** Contexts *)

Lemma forest_fresh (mem mem' : gmap Z node) (K : gmap Z (list Z)) (a : Z) (x : node) :
  forest mem K ∅ -> mem !! a = None -> a <> 0 -> (forall n, n <> a -> mem' !! n = mem !! n) -> mem' !! a = Some x ->
  (t_parent x, t_sibling x, t_child x, t_rightmostChild x, t_rc x) = (0, 0, 0, 0, 1) ->
  forest mem' (<[a := []]> K) ∅.
Proof.
  intros F Na Nz Hs Ha [= X1 X2 X3 X4 X5].
  assert (Ka : forall n l, <[a := []]> K !! n = Some l -> n <> a -> K !! n = Some l) by (intros n l H N; by rewrite lookup_insert_ne in H).
  assert (In : forall n l c, K !! n = Some l -> c ∈ l -> c <> a).
  { intros n l c Kn Hc ->. destruct (fo_par _ _ _ F n l a Kn Hc) as [_ P]. unfold par_of in P. by rewrite Na in P. }
  split.
  - intros n. destruct (decide (n = a)) as [->|N]; [rewrite Ha, lookup_insert_eq; split; by eexists|]. rewrite Hs, lookup_insert_ne by done. apply (fo_dom _ _ _ F).
  - rewrite Hs by done. apply (fo_null _ _ _ F).
  - intros n l Kn. destruct (decide (n = a)) as [->|N].
    { rewrite lookup_insert_eq in Kn. injection Kn as <-. exists 0. unfold child_of, right_of. rewrite Ha. simpl. rewrite X3, X4. split_and!; [done..|constructor]. }
    destruct (fo_kids _ _ _ F n l (Ka _ _ Kn N)) as (c & C1 & C2 & C3 & C4). exists c. unfold child_of, right_of in *. rewrite Hs by done. split_and!; [done| |done|done].
    apply (chain_ext mem); [|done]. intros b Hb. unfold sib_of. by rewrite Hs by (by apply (In n l b (Ka _ _ Kn N))).
  - intros n l c Kn Hc. destruct (decide (n = a)) as [->|N]; [rewrite lookup_insert_eq in Kn; injection Kn as <-; by apply elem_of_nil in Hc|].
    split; [apply not_elem_of_empty|]. unfold par_of. rewrite Hs by (by apply (In n l c (Ka _ _ Kn N))). by destruct (fo_par _ _ _ F n l c (Ka _ _ Kn N) Hc).
  - intros m p _ P Np. unfold par_of in P. destruct (decide (m = a)) as [->|N]; [rewrite Ha in P; simplify_eq/=; congruence|]. rewrite Hs in P by done.
    destruct (fo_up _ _ _ F m p) as (l & Kp & Hm); [apply not_elem_of_empty|done..|]. exists l. split; [|done]. rewrite lookup_insert_ne; [done|].
    intros <-. destruct (proj2 (fo_dom _ _ _ F a)) as [y Hy]; [by exists l|]. congruence.
  - intros m _ P. unfold par_of, sib_of in *. destruct (decide (m = a)) as [->|N]; [rewrite Ha; simpl; by rewrite X2|]. rewrite Hs in P |- * by done.
    apply (fo_root _ _ _ F); [apply not_elem_of_empty|done].
  - intros n r Hr. unfold rc_of in Hr. destruct (decide (n = a)) as [->|N]; [rewrite Ha in Hr; simplify_eq/=; lia|]. rewrite Hs in Hr by done. by apply (fo_rc _ _ _ F n).
Qed.

Section Contexts.

Context (cf_retain cf_release cf_copyDescription : Z) (invoke : Z -> Z -> Z).

(** The form in which callbacks are stored gives the callbacks back. *)
Lemma stored_callbacks (cb cb0 st : CFTreeCallBacks) (ty : callbacks_type) (info : Z) (n : node) :
  (if CFTreeCallBacksMatchNull cb then (HasNullCallBacks, cb0)
   else if CFTreeCallBacksMatchCFType cf_retain cf_release cf_copyDescription cb then (HasCFTypeCallBacks, cb0)
   else (HasCustomCallBacks, cb)) = (ty, st) ->
  CFTreeGetCallBacks cf_retain cf_release cf_copyDescription (set_context info ty st n) = cb.
Proof.
  destruct (CFTreeCallBacksMatchNull cb) eqn:E1; [|destruct (CFTreeCallBacksMatchCFType _ _ _ cb) eqn:E2]; intros [= <- <-]; destruct cb as [r l d].
  - unfold CFTreeCallBacksMatchNull in E1. cbn in E1. apply andb_true_iff in E1 as [[->%Z.eqb_eq ->%Z.eqb_eq]%andb_true_iff ->%Z.eqb_eq]. done.
  - unfold CFTreeCallBacksMatchCFType in E2. cbn in E2. apply andb_true_iff in E2 as [[->%Z.eqb_eq ->%Z.eqb_eq]%andb_true_iff ->%Z.eqb_eq]. done.
  - done.
Qed.

Definition context_info (ctx : CFTreeContext) : Z :=
  if cb_retain (c_callbacks ctx) =? 0 then c_info ctx else invoke (cb_retain (c_callbacks ctx)) (c_info ctx).

(** The new info is retained before the old one is released. *)
Definition context_events (ctx old : CFTreeContext) : list event :=
  (if cb_retain (c_callbacks ctx) =? 0 then [] else [RetainInfo (cb_retain (c_callbacks ctx)) (c_info ctx)]) ++
  (if cb_release (c_callbacks old) =? 0 then [] else [ReleaseInfo (cb_release (c_callbacks old)) (c_info old)]).

Lemma set_context_mem (h : heap) (t : Z) (ctx old : CFTreeContext) :
  CFTreeGetContext cf_retain cf_release cf_copyDescription h t = Ok old ->
  exists i ty st, CFTreeSetContext cf_retain cf_release cf_copyDescription invoke h t ctx =
      Ok (mkHeap (alter (set_context (context_info ctx) ty st) t (alter (set_context i ty st) t (h_mem h)))
            (h_log h ++ context_events ctx old)) /\
    (forall info m, CFTreeGetCallBacks cf_retain cf_release cf_copyDescription (set_context info ty st m) = c_callbacks ctx).
Proof.
  unfold CFTreeGetContext, CFTreeSetContext, load. destruct (h_mem h !! t) as [n|] eqn:En; [|done]. simpl. intros [= <-].
  destruct (if CFTreeCallBacksMatchNull (c_callbacks ctx) then (HasNullCallBacks, t_callbacks n) else _) as [ty st] eqn:Ep.
  assert (St : forall info m, CFTreeGetCallBacks cf_retain cf_release cf_copyDescription (set_context info ty st m) = c_callbacks ctx)
    by (intros; by apply (stored_callbacks _ (t_callbacks n))).
  exists (t_info n), ty, st. split; [|done]. rewrite store_Ok by (by rewrite En). simpl. rewrite St. unfold context_info, context_events. simpl.
  set (cb := c_callbacks ctx). set (oldcb := CFTreeGetCallBacks _ _ _ n).
  assert (Sn : forall lg, is_Some (h_mem (mkHeap (alter (set_context (t_info n) ty st) t (h_mem h)) lg) !! t)) by (intros lg; simpl; by rewrite alter_is_Some, En).
  destruct (cb_retain cb =? 0); simpl; (rewrite store_Ok by apply Sn); simpl; destruct (cb_release oldcb =? 0); simpl; unfold emit; simpl;
    by rewrite ?app_nil_r, <-?app_assoc.
Qed.

(** A context that is set is the one that is read. *)
Theorem set_context_spec (h : heap) (t : Z) (ctx old : CFTreeContext) :
  CFTreeGetContext cf_retain cf_release cf_copyDescription h t = Ok old ->
  exists h', CFTreeSetContext cf_retain cf_release cf_copyDescription invoke h t ctx = Ok h' /\
    CFTreeGetContext cf_retain cf_release cf_copyDescription h' t = Ok (mkContext (context_info ctx) (c_callbacks ctx)) /\
    h_log h' = h_log h ++ context_events ctx old /\
    forall n, n <> t -> h_mem h' !! n = h_mem h !! n.
Proof.
  intros G. destruct (set_context_mem h t ctx old G) as (i & ty & st & -> & St). eexists. split; [done|].
  unfold CFTreeGetContext, load in G |- *. simpl. rewrite !lookup_alter_eq. destruct (h_mem h !! t) as [n|]; [|done]. simpl. rewrite St.
  split_and!; [done..|]. intros m N. by rewrite !lookup_alter_ne.
Qed.

(** A new node is a root without children that the caller owns. *)
Theorem create_refines (h : heap) (K : gmap Z (list Z)) (memory : Z) (ctx : CFTreeContext) :
  forest (h_mem h) K ∅ -> h_mem h !! memory = None -> memory <> 0 ->
  exists h', CFTreeCreate cf_retain cf_release cf_copyDescription invoke h memory ctx = Ok h' /\
    forest (h_mem h') (<[memory := []]> K) ∅ /\ rc_of (h_mem h') memory = Some 1 /\
    CFTreeGetContext cf_retain cf_release cf_copyDescription h' memory = Ok (mkContext (context_info ctx) (c_callbacks ctx)).
Proof.
  intros F Nm Nz. unfold CFTreeCreate. set (x := mkNode 0 0 0 0 0 HasNullCallBacks kCFNullTreeCallBacks 1).
  destruct (set_context_mem (mkHeap (<[memory := x]> (h_mem h)) (h_log h)) memory ctx (mkContext 0 kCFNullTreeCallBacks)) as (i & ty & st & -> & St).
  { unfold CFTreeGetContext, load. simpl. by rewrite lookup_insert_eq. }
  eexists. split; [done|]. simpl. split_and!.
  - eapply (forest_fresh (h_mem h)); [done..| | |].
    + intros n N. by rewrite !lookup_alter_ne, lookup_insert_ne.
    + rewrite !lookup_alter_eq, lookup_insert_eq. done.
    + done.
  - fields. by rewrite lookup_insert_eq.
  - unfold CFTreeGetContext, load. simpl. rewrite !lookup_alter_eq, lookup_insert_eq. simpl. by rewrite St.
Qed.

End Contexts.

(** ** Five nodes: 1 has the children 2 and 3, 2 has the child 4, which has a second
    owner, and 5 is a root *)

Definition sample_context : CFTreeContext := mkContext 7 kCFNullTreeCallBacks.
Definition sample_create (h : result heap) (a : Z) : result heap := h ← h; CFTreeCreate 91 92 93 (fun _ i => i) h a sample_context.
Definition sample_nodes : result heap := foldl sample_create (Ok (mkHeap ∅ [])) [1; 2; 3; 4; 5].

(** The creator releases its reference to 2 and 3, and keeps that to 1 and 4. *)
Definition sample_tree : result heap :=
  h ← sample_nodes;
  h ← CFTreeAppendChild h 1 2;
  h ← CFTreeAppendChild h 1 3;
  h ← CFTreeAppendChild h 2 4;
  h ← CFRelease 91 92 93 1 h 2;
  CFRelease 91 92 93 1 h 3.

Definition sample_heap : heap := match sample_tree with Ok h => h | _ => mkHeap ∅ [] end.

Definition sample_kids : gmap Z (list Z) := list_to_map [(1, [2; 3]); (2, [4]); (3, []); (4, []); (5, [])].

Lemma forest_empty : forest ∅ ∅ ∅.
Proof. split; unfold par_of, rc_of; intros *; rewrite ?lookup_empty; try done; split; by intros [? ?]. Qed.

Lemma forest_counts (mem : gmap Z node) (K : gmap Z (list Z)) (a v : Z) :
  forest mem K ∅ -> 1 <= v -> forest (alter (set_rc v) a mem) K ∅.
Proof.
  intros F Hv. set (mem' := alter (set_rc v) a mem).
  assert (Same : forall n, par_of mem' n = par_of mem n /\ sib_of mem' n = sib_of mem n /\ child_of mem' n = child_of mem n /\ right_of mem' n = right_of mem n).
  { intros n. subst mem'. by fields. }
  split.
  - intros n. unfold mem'. rewrite alter_is_Some. apply (fo_dom _ _ _ F).
  - apply eq_None_not_Some. unfold mem'. rewrite alter_is_Some, (fo_null _ _ _ F). by intros [? ?].
  - intros n l Kn. destruct (fo_kids _ _ _ F n l Kn) as (c & C1 & C2 & C3 & C4). exists c. destruct (Same n) as (_ & _ & -> & ->).
    split_and!; [done| |done..]. apply (chain_ext mem); [|done]. intros b _. by destruct (Same b) as (_ & -> & _).
  - intros n l c Kn Hc. destruct (Same c) as (-> & _). by apply (fo_par _ _ _ F n l).
  - intros m p Ne. destruct (Same m) as (-> & _). by apply (fo_up _ _ _ F).
  - intros m Ne. destruct (Same m) as (-> & -> & _). by apply (fo_root _ _ _ F).
  - intros n r. unfold rc_of, mem'. destruct (decide (n = a)) as [->|N]; [rewrite lookup_alter_eq|rewrite lookup_alter_ne by done; apply (fo_rc _ _ _ F)].
    destruct (mem !! a); [|done]. by intros [= <-].
Qed.

Ltac sample_step E := vm_compute in E; injection E as <-.

Lemma sample_forest : forest (h_mem sample_heap) sample_kids ∅.
Proof.
  destruct (create_refines 91 92 93 (fun _ i => i) (mkHeap ∅ []) ∅ 1 sample_context forest_empty) as (h1 & E1 & F1 & _); [done..|]. sample_step E1.
  destruct (create_refines 91 92 93 (fun _ i => i) _ _ 2 sample_context F1) as (h2 & E2 & F2 & _); [done..|]. sample_step E2.
  destruct (create_refines 91 92 93 (fun _ i => i) _ _ 3 sample_context F2) as (h3 & E3 & F3 & _); [done..|]. sample_step E3.
  destruct (create_refines 91 92 93 (fun _ i => i) _ _ 4 sample_context F3) as (h4 & E4 & F4 & _); [done..|]. sample_step E4.
  destruct (create_refines 91 92 93 (fun _ i => i) _ _ 5 sample_context F4) as (h0 & E0 & F0 & _); [done..|]. sample_step E0.
  destruct (CFTreeAppendChild_spec _ _ 1 2 [] F0) as (h5 & E5 & F5 & _); [done..|]. sample_step E5.
  destruct (CFTreeAppendChild_spec _ _ 1 3 [2] F5) as (h6 & E6 & F6 & _); [done..|]. sample_step E6.
  destruct (CFTreeAppendChild_spec _ _ 2 4 [] F6) as (h7 & E7 & F7 & _); [done..|]. sample_step E7.
  apply (forest_counts _ _ 2 1) in F7; [|done]. apply (forest_counts _ _ 3 1) in F7; [|done]. revert F7.
  match goal with |- forest ?m ?k _ -> _ => assert (m = h_mem sample_heap) as -> by (vm_compute; reflexivity);
    assert (k = sample_kids) as -> by (vm_compute; reflexivity) end. done.
Qed.

Lemma insertions_witness :
  gains sample_heap sample_kids 2 [5; 4] 5 (CFTreePrependChild sample_heap 2 5) /\
  gains sample_heap sample_kids 1 [2; 5; 3] 5 (CFTreeInsertSibling sample_heap 2 5).
Proof.
  destruct (insertions_refine sample_heap sample_kids 2 5 sample_forest ltac:(reflexivity)) as [H1 H2].
  split; [exact (proj1 (H1 [4] ltac:(reflexivity)))|exact (H2 1 [] [3] ltac:(reflexivity))].
Defined.

(** Removing 2 frees it and keeps 4 as a root. *)
Lemma remove_witness :
  exists h' K' D, CFTreeRemove 91 92 93 sample_heap 2 = Ok h' /\ dropped (h_mem sample_heap) (<[1 := [3]]> sample_kids) {[2]} D (h_mem h') K' /\
    h_mem h' !! 2 = None /\ rc_of (h_mem h') 4 = Some 1.
Proof.
  destruct (remove_refines 91 92 93 sample_heap sample_kids 1 2 [] [3] sample_forest ltac:(reflexivity)) as (h' & K' & D & E & R).
  exists h', K', D. split; [exact E|]. split; [exact R|]. vm_compute in E. injection E as <-. split; reflexivity.
Defined.

Lemma remove_all_children_witness :
  exists h' K' D, CFTreeRemoveAllChildren 91 92 93 sample_heap 1 = Ok h' /\
    dropped (h_mem sample_heap) (<[1 := []]> sample_kids) (list_to_set [2; 3]) D (h_mem h') K'.
Proof. exact (remove_all_children_refines 91 92 93 sample_heap sample_kids 1 [2; 3] sample_forest ltac:(reflexivity)). Defined.

Lemma queries_witness : CFTreeGetChildren sample_heap 1 = Ok [2; 3] /\ CFTreeGetChildAtIndex sample_heap 1 1 = Ok 3.
Proof.
  destruct (children_queries sample_heap sample_kids 1 [2; 3] sample_forest ltac:(reflexivity)) as (Q1 & _ & Q3 & _).
  split; [exact Q1|exact (Q3 1)].
Defined.

Lemma sort_children_witness :
  exists h', CFTreeSortChildren SortN.sample_fresh (fun a b => b - a) sample_heap 1 = Ok h' /\ forest (h_mem h') (<[1 := [3; 2]]> sample_kids) ∅.
Proof.
  destruct (sort_children_refines SortN.sample_fresh (fun a b => b - a) sample_heap sample_kids 1 [2; 3]) as (h' & out & E & S & F & _).
  - split; intros *; lia.
  - exact SortN.sample_fresh_length.
  - exact sample_forest.
  - reflexivity.
  - reflexivity.
  - exists h'. split; [exact E|]. assert (C : Sort.Comparator (fun a b => b - a)) by (split; intros *; lia).
    replace out with [3; 2] in F; [exact F|]. apply (Sort.sorted_classes_unique (fun a b => b - a)); [repeat constructor; unfold Sort.le; lia|apply S|].
    intros x. rewrite (Sort.ss_stable _ _ _ S), !filter_cons, filter_nil.
    destruct (decide (Sort.eqv (fun a b => b - a) x 2)) as [[E1 E2]|], (decide (Sort.eqv (fun a b => b - a) x 3)) as [[E3 E4]|]; try reflexivity.
    exfalso. clear -E1 E2 E3 E4. unfold Sort.le in *. lia.
Defined.

Lemma find_root_witness : CFTreeFindRoot sample_heap 4 = Ok 1.
Proof.
  apply (find_root_correct sample_heap sample_kids 1 4 sample_forest); [|reflexivity].
  apply (rtc_l _ 1 2 4); [|apply rtc_once].
  - exists [2; 3]. split; [reflexivity|apply elem_of_cons; left; reflexivity].
  - exists [4]. split; [reflexivity|apply elem_of_cons; left; reflexivity].
Defined.

End TreeOps.
