(* ===== verification/Array.v ===== *)
(** * CFArray.c: arrays, immutable or in a deque

    An immutable array keeps its buckets behind its header; a mutable one keeps them in
    a deque, a block with free space on both sides of the values, and moves the shorter
    side when values are inserted or removed.  A bucket is [None] until it has been
    written, and the use of such a bucket as a value is [Undef].  Function pointers are
    their addresses (0 is NULL); the calls of retain and release callbacks and of an
    applier are logged.  Callbacks leave the array alone.  The collectable allocator is
    not used, so no array is weak or finalized, and allocations succeed. *)

From stdpp Require Import base list numbers option.
From Stdlib Require Import ZArith Lia.
From S2P Require Import Prelude Sort.

Module Array.

(** [CFArrayCallBacks], of version 0. *)
Record CFArrayCallBacks : Type := mkCB { cb_retain : Z; cb_release : Z; cb_copyDescription : Z; cb_equal : Z }.

Definition kCFNullArrayCallBacks : CFArrayCallBacks := mkCB 0 0 0 0.

Inductive callbacks_type : Type :=
| HasNullCallBacks
| HasCFTypeCallBacks
| HasCustomCallBacks.

(** [struct __CFArrayDeque] and the buckets that follow it. *)
Record CFArrayDeque : Type := mkDeque { d_leftIdx : Z; d_capacity : Z; d_buckets : list (option Z) }.

Inductive storage : Type :=
| Immutable (buckets : list (option Z))
| Deque (store : option CFArrayDeque).

(** [struct __CFArray], with the callbacks at the end of the header. *)
Record CFArray : Type := mkArray {
  a_count : Z;
  a_mutations : Z;
  a_type : callbacks_type;
  a_callbacks : CFArrayCallBacks;
  a_storage : storage
}.

Inductive event : Type :=
| Retain (f v : Z)
| Release (f v : Z)
| Apply (v : Z).

Definition set_count (a : CFArray) (v : Z) : CFArray :=
  mkArray v (a_mutations a) (a_type a) (a_callbacks a) (a_storage a).
Definition set_storage (a : CFArray) (s : storage) : CFArray :=
  mkArray (a_count a) (a_mutations a) (a_type a) (a_callbacks a) s.
Definition mutated (a : CFArray) : CFArray :=
  mkArray (a_count a) (s64 (a_mutations a + 1)) (a_type a) (a_callbacks a) (a_storage a).
Definition set_buckets (d : CFArrayDeque) (bs : list (option Z)) : CFArrayDeque :=
  mkDeque (d_leftIdx d) (d_capacity d) bs.

(** The use of [buckets[i]._item]. *)
Definition item (bs : list (option Z)) (i : Z) : result Z :=
  o ← aget bs i; match o with Some v => Ok v | None => Undef end.

(** The values of a buffer that has been filled. *)
Fixpoint filled (bs : list (option Z)) : result (list Z) :=
  match bs with
  | [] => Ok []
  | o :: bs => v ← (match o with Some v => Ok v | None => Undef end); vs ← filled bs; Ok (v :: vs)
  end.

(** [malloc] of [n] buckets. *)
Definition fresh_buckets (n : Z) : list (option Z) := replicate (Z.to_nat n) None.

(** [1 << n] is an [int]: undefined from 31 on. *)
Definition int_bit (n : Z) : result Z := if 31 <=? n then Undef else Ok (Z.shiftl 1 n).

Definition MAX_BUCKETS_PER_DEQUE : Z := 2 ^ 63 - 1.

Definition CFArrayDequeRoundUpCapacity (capacity : Z) : result Z :=
  if capacity <? 4 then Ok 4
  else bit ← int_bit (flsl capacity); Ok (Z.min bit MAX_BUCKETS_PER_DEQUE).

Section Operations.

(** [kCFTypeArrayCallBacks], what a retain callback returns and what an equal callback
    answers. *)
Context (kCFTypeArrayCallBacks : CFArrayCallBacks) (retain_call : Z -> Z -> Z) (equal_call : Z -> Z -> Z -> bool).

Definition CFArrayGetCallBacks (a : CFArray) : CFArrayCallBacks :=
  match a_type a with
  | HasNullCallBacks => kCFNullArrayCallBacks
  | HasCFTypeCallBacks => kCFTypeArrayCallBacks
  | HasCustomCallBacks => a_callbacks a
  end.

(** The callbacks pointer may be NULL. *)
Definition CFArrayCallBacksMatchNull (c : option CFArrayCallBacks) : bool :=
  match c with
  | None => true
  | Some c => (cb_retain c =? 0) && (cb_release c =? 0) && (cb_copyDescription c =? 0) && (cb_equal c =? 0)
  end.

Definition CFArrayCallBacksMatchCFType (c : CFArrayCallBacks) : bool :=
  (cb_retain c =? cb_retain kCFTypeArrayCallBacks) && (cb_release c =? cb_release kCFTypeArrayCallBacks) &&
  (cb_copyDescription c =? cb_copyDescription kCFTypeArrayCallBacks) && (cb_equal c =? cb_equal kCFTypeArrayCallBacks).

(** The buckets and the position of the left-most value in them. *)
Definition CFArrayGetBucketsPtr (a : CFArray) : result (list (option Z) * Z) :=
  match a_storage a with
  | Immutable bs => Ok (bs, 0)
  | Deque None => Undef
  | Deque (Some d) => Ok (d_buckets d, d_leftIdx d)
  end.

(** The same buckets after stores to them. *)
Definition with_buckets (a : CFArray) (bs : list (option Z)) : CFArray :=
  match a_storage a with
  | Immutable _ => set_storage a (Immutable bs)
  | Deque None => a
  | Deque (Some d) => set_storage a (Deque (Some (set_buckets d bs)))
  end.

Definition CFArrayGetBucketAtIndex (a : CFArray) (idx : Z) : result (list (option Z) * Z) :=
  '(bs, p) ← CFArrayGetBucketsPtr a; Ok (bs, p + idx).

(** ** Releasing values *)

Fixpoint release_loop (n : nat) (release : Z) (bs : list (option Z)) (i : Z) : result (list (option Z) * list event) :=
  match n with
  | O => Ok (bs, [])
  | S n =>
    ev ← (if release =? 0 then Ok [] else v ← item bs i; Ok [Release release v]);
    bs ← aset bs i (Some 0);
    '(bs, ev') ← release_loop n release bs (i + 1);
    Ok (bs, ev ++ ev')
  end.

Definition CFArrayReleaseValues (a : CFArray) (location len : Z) (releaseStorageIfPossible : bool) : result (CFArray * list event) :=
  let cb := CFArrayGetCallBacks a in
  match a_storage a with
  | Immutable bs =>
    if negb (cb_release cb =? 0) && (0 <? len) then
      '(bs, ev) ← release_loop (Z.to_nat len) (cb_release cb) bs location;
      Ok (set_storage a (Immutable bs), ev)
    else Ok (a, [])
  | Deque store =>
    '(a, ev) ←
      match store with
      | Some d =>
        if 0 <? len then
          '(bs, ev) ← release_loop (Z.to_nat len) (cb_release cb) (d_buckets d) (d_leftIdx d + location);
          Ok (set_storage a (Deque (Some (set_buckets d bs))), ev)
        else Ok (a, [])
      | None => Ok (a, [])
      end;
    if releaseStorageIfPossible && (location =? 0) && (a_count a =? len)
    then Ok (set_storage (set_count a 0) (Deque None), ev)
    else Ok (a, ev)
  end.

(** Without the collector. *)
Definition CFArrayDeallocate (a : CFArray) : result (CFArray * list event) := CFArrayReleaseValues a 0 (a_count a) true.

(** ** Equality and hash *)

(** [n] of the [cnt] values are still to be compared. *)
Fixpoint equal_loop (n : nat) (equal : Z) (a1 a2 : CFArray) (idx : Z) : result bool :=
  match n with
  | O => Ok true
  | S n =>
    '(bs1, p1) ← CFArrayGetBucketAtIndex a1 idx; val1 ← item bs1 p1;
    '(bs2, p2) ← CFArrayGetBucketAtIndex a2 idx; val2 ← item bs2 p2;
    if val1 =? val2 then equal_loop n equal a1 a2 (idx + 1)
    else if equal =? 0 then Ok false
    else if equal_call equal val1 val2 then equal_loop n equal a1 a2 (idx + 1) else Ok false
  end.

(** [same]: the two references are one. *)
Definition CFArrayEqual (same : bool) (a1 a2 : CFArray) : result bool :=
  if same then Ok true else
  let cnt := a_count a1 in
  if negb (cnt =? a_count a2) then Ok false else
  let cb1 := CFArrayGetCallBacks a1 in
  let cb2 := CFArrayGetCallBacks a2 in
  if negb (cb_equal cb1 =? cb_equal cb2) then Ok false
  else if 0 =? cnt then Ok true
  else equal_loop (Z.to_nat cnt) (cb_equal cb1) a1 a2 0.

Definition CFArrayHash (a : CFArray) : Z := a_count a.

(** ** Queries *)

Definition CFArrayGetCount (a : CFArray) : Z := a_count a.

Definition CFArrayGetValueAtIndex (a : CFArray) (idx : Z) : result Z :=
  '(bs, p) ← CFArrayGetBucketAtIndex a idx; item bs p.

(** [(void * )(-1)] for an index out of bounds. *)
Definition CFArrayCheckAndGetValueAtIndex (a : CFArray) (idx : Z) : result Z :=
  if (0 <=? idx) && (idx <? a_count a) then '(bs, p) ← CFArrayGetBucketAtIndex a idx; item bs p
  else Ok (-1).

Definition CFArrayGetValues (a : CFArray) (location len : Z) (values : list (option Z)) : result (list (option Z)) :=
  if 0 <? len then '(bs, p) ← CFArrayGetBucketsPtr a; memmove values 0 bs (p + location) len
  else Ok values.

(** The test of the four searches. *)
Definition value_matches (a : CFArray) (value it : Z) : bool :=
  let cb := CFArrayGetCallBacks a in
  (value =? it) || (negb (cb_equal cb =? 0) && equal_call (cb_equal cb) value it).

Fixpoint count_of_value (n : nat) (a : CFArray) (i value count : Z) : result Z :=
  match n with
  | O => Ok count
  | S n => it ← CFArrayGetValueAtIndex a i; count_of_value n a (i + 1) value (if value_matches a value it then count + 1 else count)
  end.

Definition CFArrayGetCountOfValue (a : CFArray) (location len value : Z) : result Z :=
  count_of_value (Z.to_nat len) a location value 0.

Fixpoint contains_value (n : nat) (a : CFArray) (i value : Z) : result bool :=
  match n with
  | O => Ok false
  | S n => it ← CFArrayGetValueAtIndex a i; if value_matches a value it then Ok true else contains_value n a (i + 1) value
  end.

Definition CFArrayContainsValue (a : CFArray) (location len value : Z) : result bool :=
  contains_value (Z.to_nat len) a location value.

Definition kCFNotFound : Z := -1.

Fixpoint first_index (n : nat) (a : CFArray) (i value : Z) : result Z :=
  match n with
  | O => Ok kCFNotFound
  | S n => it ← CFArrayGetValueAtIndex a i; if value_matches a value it then Ok i else first_index n a (i + 1) value
  end.

Definition CFArrayGetFirstIndexOfValue (a : CFArray) (location len value : Z) : result Z :=
  first_index (Z.to_nat len) a location value.

(** [for (idx = range.length; idx--;)]. *)
Fixpoint last_index (n : nat) (a : CFArray) (location value : Z) : result Z :=
  match n with
  | O => Ok kCFNotFound
  | S idx =>
    it ← CFArrayGetValueAtIndex a (location + Z.of_nat idx);
    if value_matches a value it then Ok (Z.of_nat idx + location) else last_index idx a location value
  end.

Definition CFArrayGetLastIndexOfValue (a : CFArray) (location len value : Z) : result Z :=
  last_index (Z.to_nat len) a location value.

Fixpoint apply_loop (n : nat) (a : CFArray) (i : Z) : result (list event) :=
  match n with
  | O => Ok []
  | S n => it ← CFArrayGetValueAtIndex a i; ev ← apply_loop n a (i + 1); Ok (Apply it :: ev)
  end.

Definition CFArrayApplyFunction (a : CFArray) (location len : Z) : result (list event) := apply_loop (Z.to_nat len) a location.

(** Where the enumeration's mutation counter is. *)
Inductive mutations_ptr : Type := ConstMu | ArrayMutations.

(** [struct __objcFastEnumerationStateEquivalent]: the items are a position in buckets. *)
Record enumeration : Type := mkEnum { e_state : Z; e_mutationsPtr : option mutations_ptr; e_items : option (list (option Z) * Z) }.

Definition CFArrayFastEnumeration (a : CFArray) (st : enumeration) : result (Z * enumeration) :=
  if a_count a =? 0 then Ok (0, st)
  else if e_state st =? 0 then
    items ← CFArrayGetBucketsPtr a;
    Ok (a_count a, mkEnum 1 (Some (match a_storage a with Immutable _ => ConstMu | Deque _ => ArrayMutations end)) (Some items))
  else Ok (0, st).

(** ** Making room in a deque *)

Definition memset (bs : list (option Z)) (d n : Z) : result (list (option Z)) :=
  if (0 <=? n) && (0 <=? d) && (d + n <=? Z.of_nat (length bs))
  then Ok (take (Z.to_nat d) bs ++ replicate (Z.to_nat n) (Some 0) ++ drop (Z.to_nat (d + n)) bs)
  else Undef.

(** [if (0 < n) objc_memmove_collectable(dst + d, src + s, n * sizeof(bucket))]. *)
Definition move (dst : list (option Z)) (d : Z) (src : list (option Z)) (s n : Z) : result (list (option Z)) :=
  if 0 <? n then memmove dst d src s n else Ok dst.

(** [if (0 < n) memset(bs + d, 0, n * sizeof(bucket))]. *)
Definition clear (bs : list (option Z)) (d n : Z) : result (list (option Z)) :=
  if 0 <? n then memset bs d n else Ok bs.

(** [_capacity] is unsigned, as are the sums it takes part in. *)
Definition CFArrayRepositionDequeRegions (deque : CFArrayDeque) (cnt location len newCount : Z) : result CFArrayDeque :=
  let buckets := d_buckets deque in
  let futureCnt := cnt - len + newCount in
  let L := d_leftIdx deque in
  let A := location in
  let B := len in
  let C := cnt - B - A in
  let R := s64 (d_capacity deque - cnt - L) in
  let numNewElems := newCount - B in
  let wiggle := Z.shiftr (d_capacity deque) 17 in
  let wiggle := if wiggle <? 4 then 4 else wiggle in
  if (d_capacity deque <? u32 futureCnt) || ((cnt <? futureCnt) && (L + R <? wiggle)) then
    capacity ← CFArrayDequeRoundUpCapacity (futureCnt + wiggle);
    let oldL := L in
    let newL := Z.quot (capacity - futureCnt) 2 in
    let oldC0 := oldL + A + B in
    let newC0 := newL + A + newCount in
    newBuckets ← move (fresh_buckets capacity) newL buckets oldL A;
    newBuckets ← move newBuckets newC0 buckets oldC0 C;
    Ok (mkDeque newL capacity newBuckets)
  else if ((numNewElems <? 0) && (C <? A)) || ((numNewElems <=? R) && (C <? A)) then
    let oldC0 := L + A + B in
    let newC0 := L + A + newCount in
    buckets ← move buckets newC0 buckets oldC0 C;
    buckets ← clear buckets (newC0 + C) (oldC0 - newC0);
    Ok (mkDeque L (d_capacity deque) buckets)
  else if (numNewElems <? 0) || ((numNewElems <=? L) && (A <=? C)) then
    let oldL := L in
    let newL := L - numNewElems in
    buckets ← move buckets newL buckets oldL A;
    buckets ← clear buckets oldL (newL - oldL);
    Ok (mkDeque newL (d_capacity deque) buckets)
  else
    let oldL := L in
    let newL := Z.quot (L + R - numNewElems) 2 in
    let newL := newL - Z.quot newL 2 in
    let oldC0 := oldL + A + B in
    let newC0 := newL + A + newCount in
    if newL <? oldL then
      buckets ← move buckets newL buckets oldL A;
      buckets ← move buckets newC0 buckets oldC0 C;
      buckets ← clear buckets (newC0 + C) (oldC0 - newC0);
      Ok (mkDeque newL (d_capacity deque) buckets)
    else
      buckets ← move buckets newC0 buckets oldC0 C;
      buckets ← move buckets newL buckets oldL A;
      buckets ← clear buckets oldL (newL - oldL);
      Ok (mkDeque newL (d_capacity deque) buckets).

(** ** Replacing values *)

Fixpoint retain_loop (n : nat) (retain : Z) (newValues : list Z) (idx : Z) : result (list Z * list event) :=
  match n with
  | O => Ok ([], [])
  | S n =>
    v ← aget newValues idx;
    '(newv, ev) ← retain_loop n retain newValues (idx + 1);
    Ok (retain_call retain v :: newv, Retain retain v :: ev)
  end.

(** The callers assert that the array is mutable. *)
Definition CFArrayReplaceValues_ (a : CFArray) (location len : Z) (newValues : list Z) (newCount : Z) : result (CFArray * list event) :=
  let cnt := a_count a in
  let futureCnt := cnt - len + newCount in
  let cb := CFArrayGetCallBacks a in
  '(newv, ev) ← (if negb (cb_retain cb =? 0) then retain_loop (Z.to_nat newCount) (cb_retain cb) newValues 0 else Ok (newValues, []));
  let a := mutated a in
  '(a, ev') ← (if 0 <? len then CFArrayReleaseValues a location len false else Ok (a, []));
  match a_storage a with
  | Immutable _ => Undef
  | Deque store =>
    store ←
      match store with
      | None =>
        if 0 <=? futureCnt then
          capacity ← CFArrayDequeRoundUpCapacity futureCnt;
          Ok (Some (mkDeque (Z.quot (capacity - newCount) 2) capacity (fresh_buckets capacity)))
        else Ok None
      | Some d =>
        if negb (len =? newCount) then d ← CFArrayRepositionDequeRegions d cnt location len newCount; Ok (Some d)
        else Ok (Some d)
      end;
    store ←
      (if 0 <? newCount then
         match store with
         | None => Undef
         | Some d => bs ← memmove (d_buckets d) (d_leftIdx d + location) (map Some newv) 0 newCount; Ok (Some (set_buckets d bs))
         end
       else Ok store);
    Ok (set_count (set_storage a (Deque store)) futureCnt, ev ++ ev')
  end.

Definition CFArrayReplaceValues (a : CFArray) (location len : Z) (newValues : list Z) (newCount : Z) : result (CFArray * list event) :=
  CFArrayReplaceValues_ a location len newValues newCount.

(** The old block, header and [oldcap] buckets, is copied into the new one. *)
Definition CFArraySetCapacity (a : CFArray) (cap : Z) : result CFArray :=
  match a_storage a with
  | Immutable _ => Ok a
  | Deque store =>
    capacity ← CFArrayDequeRoundUpCapacity cap;
    d ←
      match store with
      | None => Ok (mkDeque (Z.quot capacity 2) capacity (fresh_buckets capacity))
      | Some old =>
        bs ← memmove (fresh_buckets capacity) 0 (d_buckets old) 0 (d_capacity old);
        Ok (mkDeque (d_leftIdx old) capacity bs)
      end;
    Ok (set_storage a (Deque (Some d)))
  end.

(** ** The mutators *)

Definition CFArrayAppendValue (a : CFArray) (value : Z) : result (CFArray * list event) :=
  CFArrayReplaceValues_ a (a_count a) 0 [value] 1.

Definition CFArraySetValueAtIndex (a : CFArray) (idx value : Z) : result (CFArray * list event) :=
  if idx =? a_count a then CFArrayReplaceValues_ a idx 0 [value] 1
  else
    let cb := CFArrayGetCallBacks a in
    '(bs, p) ← CFArrayGetBucketAtIndex a idx;
    let '(value, ev) := if negb (cb_retain cb =? 0) then (retain_call (cb_retain cb) value, [Retain (cb_retain cb) value]) else (value, []) in
    old_value ← aget bs p;
    bs ← aset bs p (Some value);
    ev' ← (if negb (cb_release cb =? 0) then match old_value with Some v => Ok [Release (cb_release cb) v] | None => Undef end else Ok []);
    Ok (mutated (with_buckets a bs), ev ++ ev').

Definition CFArrayInsertValueAtIndex (a : CFArray) (idx value : Z) : result (CFArray * list event) :=
  CFArrayReplaceValues_ a idx 0 [value] 1.

Definition CFArrayExchangeValuesAtIndices (a : CFArray) (idx1 idx2 : Z) : result CFArray :=
  '(bs, p1) ← CFArrayGetBucketAtIndex a idx1;
  '(_, p2) ← CFArrayGetBucketAtIndex a idx2;
  tmp ← aget bs p1;
  other ← aget bs p2;
  bs ← aset bs p1 other;
  bs ← aset bs p2 tmp;
  Ok (mutated (with_buckets a bs)).

Definition CFArrayRemoveValueAtIndex (a : CFArray) (idx : Z) : result (CFArray * list event) :=
  CFArrayReplaceValues_ a idx 1 [] 0.

Definition CFArrayRemoveAllValues (a : CFArray) : result (CFArray * list event) :=
  '(a, ev) ← CFArrayReleaseValues a 0 (a_count a) true;
  Ok (mutated (set_count a 0), ev).

(** [other] is [None] when the other array is the array itself. *)
Fixpoint append_loop (n : nat) (a : CFArray) (other : option CFArray) (idx : Z) : result (CFArray * list event) :=
  match n with
  | O => Ok (a, [])
  | S n =>
    v ← CFArrayGetValueAtIndex (default a other) idx;
    '(a, ev) ← CFArrayAppendValue a v;
    '(a, ev') ← append_loop n a other (idx + 1);
    Ok (a, ev ++ ev')
  end.

Definition CFArrayAppendArray (a : CFArray) (other : option CFArray) (location len : Z) : result (CFArray * list event) :=
  append_loop (Z.to_nat len) a other location.

(** ** Creation *)

(** The two kinds of [flags]. *)
Inductive flavor : Type := kImmutable | kDeque.

Definition CFArrayInit (flags : flavor) (capacity : Z) (callBacks : option CFArrayCallBacks) : CFArray :=
  let '(ty, cb) :=
    if CFArrayCallBacksMatchNull callBacks then (HasNullCallBacks, kCFNullArrayCallBacks)
    else match callBacks with
         | None => (HasNullCallBacks, kCFNullArrayCallBacks)
         | Some c => if CFArrayCallBacksMatchCFType c then (HasCFTypeCallBacks, kCFNullArrayCallBacks) else (HasCustomCallBacks, c)
         end in
  match flags with
  | kImmutable => mkArray 0 0 ty cb (Immutable (fresh_buckets capacity))
  | kDeque => mkArray 0 1 ty cb (Deque None)
  end.

Definition CFArrayCreateTransfer (values : list Z) (numValues : Z) : result CFArray :=
  bs ← memmove (fresh_buckets numValues) 0 (map Some values) 0 numValues;
  Ok (mkArray numValues 0 HasCFTypeCallBacks kCFNullArrayCallBacks (Immutable bs)).

(** The loops that fill the buckets of a new array, [value idx] being the next value. *)
Fixpoint fill_loop (n : nat) (retain : Z) (value : Z -> result Z) (bs : list (option Z)) (idx : Z) : result (list (option Z) * list event) :=
  match n with
  | O => Ok (bs, [])
  | S n =>
    v ← value idx;
    bs ← aset bs idx (Some (if negb (retain =? 0) then retain_call retain v else v));
    '(bs, ev) ← fill_loop n retain value bs (idx + 1);
    Ok (bs, (if negb (retain =? 0) then [Retain retain v] else []) ++ ev)
  end.

Definition CFArrayCreate0 (values : list Z) (numValues : Z) (callBacks : option CFArrayCallBacks) : result (CFArray * list event) :=
  let a := CFArrayInit kImmutable numValues callBacks in
  let cb := CFArrayGetCallBacks a in
  '(buckets, _) ← CFArrayGetBucketsPtr a;
  '(bs, ev) ← fill_loop (Z.to_nat numValues) (cb_retain cb) (aget values) buckets 0;
  Ok (set_count (with_buckets a bs) numValues, ev).

Definition CFArrayCreateMutable0 (capacity : Z) (callBacks : option CFArrayCallBacks) : CFArray := CFArrayInit kDeque capacity callBacks.

Definition CFArrayCreateCopy0 (array : CFArray) : result (CFArray * list event) :=
  let numValues := CFArrayGetCount array in
  let a := CFArrayInit kImmutable numValues (Some (CFArrayGetCallBacks array)) in
  let cb := CFArrayGetCallBacks a in
  '(buckets, _) ← CFArrayGetBucketsPtr a;
  '(bs, ev) ← fill_loop (Z.to_nat numValues) (cb_retain cb) (CFArrayGetValueAtIndex array) buckets 0;
  Ok (set_count (with_buckets a bs) numValues, ev).

Fixpoint copy_loop (n : nat) (a array : CFArray) (idx : Z) : result (CFArray * list event) :=
  match n with
  | O => Ok (a, [])
  | S n =>
    value ← CFArrayGetValueAtIndex array idx;
    '(a, ev) ← CFArrayAppendValue a value;
    '(a, ev') ← copy_loop n a array (idx + 1);
    Ok (a, ev ++ ev')
  end.

Definition CFArrayCreateMutableCopy0 (capacity : Z) (array : CFArray) : result (CFArray * list event) :=
  let numValues := CFArrayGetCount array in
  let a := CFArrayInit kDeque capacity (Some (CFArrayGetCallBacks array)) in
  a ← (if 0 =? capacity then CFArraySetCapacity a numValues else Ok a);
  copy_loop (Z.to_nat numValues) a array 0.

(** ** Sorting and searching *)

Section Compare.

(** A comparator with its context. *)
Context (comparator : Z -> Z -> Z).

(** One pass: [idx] runs up to [location + cnt - 1]. *)
Fixpoint zsort_pass (n : nat) (a : CFArray) (idx : Z) : result CFArray :=
  match n with
  | O => Ok a
  | S n =>
    x ← CFArrayGetValueAtIndex a idx;
    y ← CFArrayGetValueAtIndex a (idx + 1);
    a ← (if comparator y x <? 0 then CFArrayExchangeValuesAtIndices a idx (idx + 1) else Ok a);
    zsort_pass n a (idx + 1)
  end.

(** [while (1 < cnt)]. *)
Fixpoint CFZSort (cnt : nat) (a : CFArray) (location : Z) : result CFArray :=
  match cnt with
  | S (S _ as cnt1) => a ← zsort_pass cnt1 a location; CFZSort cnt1 a location
  | _ => Ok a
  end.

(** [fresh] is the contents of the index buffers of CFQSortArray. *)
Definition sorted_values (fresh : Z -> list Z) (a : CFArray) (location len : Z) : result (list Z) :=
  values ← CFArrayGetValues a location len (fresh_buckets len);
  values ← filled values;
  Sort.CFQSortArray fresh comparator values 8.

Definition CFArraySortValues_ (fresh : Z -> list Z) (a : CFArray) : result (CFArray * list event) :=
  let len := CFArrayGetCount a in
  if len <? 2 then Ok (a, [])
  else values ← sorted_values fresh a 0 len; CFArrayReplaceValues a 0 len values len.

Definition CFArraySortValues (fresh : Z -> list Z) (a : CFArray) (location len : Z) : result (CFArray * list event) :=
  let immutable := match a_storage a with Immutable _ => true | Deque _ => false end in
  let cb := CFArrayGetCallBacks a in
  let retains := negb (cb_retain cb =? 0) in
  let releases := negb (cb_release cb =? 0) in
  if negb immutable && ((retains && negb releases) || (negb retains && releases)) then
    a ← CFZSort (Z.to_nat len) a location; Ok (a, [])
  else if len <? 2 then Ok (a, [])
  else
    values ← sorted_values fresh a location len;
    if negb immutable then CFArrayReplaceValues a location len values len else Ok (a, []).

(** [while (lg--)]. *)
Fixpoint bsearch_loop (lg : nat) (a : CFArray) (location value idx : Z) : result Z :=
  match lg with
  | O => Ok idx
  | S lg =>
    bit ← int_bit (Z.of_nat lg);
    it ← CFArrayGetValueAtIndex a (location + idx + bit);
    bsearch_loop lg a location value (if comparator it value <? 0 then idx + bit else idx)
  end.

Definition CFArrayBSearchValues (a : CFArray) (location len value : Z) : result Z :=
  if len <=? 0 then Ok location else
  it ← CFArrayGetValueAtIndex a (location + len - 1);
  if comparator it value <? 0 then Ok (location + len) else
  it ← CFArrayGetValueAtIndex a location;
  if comparator value it <? 0 then Ok location else
  let lg := flsl len - 1 in
  bit ← int_bit lg;
  it ← CFArrayGetValueAtIndex a (location + -1 + bit);
  let idx := if comparator it value <? 0 then len - bit else -1 in
  idx ← bsearch_loop (Z.to_nat lg) a location value idx;
  Ok (idx + 1 + location).

End Compare.

End Operations.

End Array.
