(* ===== verification/ArrayDeque.v ===== *)
(** * The deque of a CFArray

    What the values of an array are ([contents]), and that making room in the deque
    (__CFArrayRepositionDequeRegions) keeps the values on both sides of the replaced
    range, whichever way it moves them; replacing a range of values then refines the
    replacement in a list. *)

From stdpp Require Import base list numbers option.
From Stdlib Require Import ZArith Lia.
From S2P Require Import Prelude Array.
Import Array.

Module ArrayDeque.

(** ** Overwriting a part of a list *)

Definition splice {A} (l : list A) (d : nat) (y : list A) : list A := take d l ++ y ++ drop (d + length y) l.

Lemma length_splice {A} (l y : list A) (d : nat) : (d + length y <= length l)%nat -> length (splice l d y) = length l.
Proof. intros. unfold splice. rewrite !length_app, length_take, length_drop. lia. Qed.

Lemma splice_nil {A} (l : list A) (d : nat) : splice l d [] = l.
Proof. unfold splice. cbn [length app]. by rewrite Nat.add_0_r, take_drop. Qed.

Lemma splice_app_l {A} (l1 l2 y : list A) (d : nat) : (d + length y <= length l1)%nat -> splice (l1 ++ l2) d y = splice l1 d y ++ l2.
Proof. intros. unfold splice. by rewrite take_app_le, drop_app_le, <-!app_assoc by lia. Qed.

Lemma splice_app_r {A} (l1 l2 y : list A) (d : nat) : (length l1 <= d)%nat -> splice (l1 ++ l2) d y = l1 ++ splice l2 (d - length l1) y.
Proof.
  intros. unfold splice. rewrite take_app_ge, drop_app_ge, <-app_assoc by lia. do 3 f_equal. f_equal. lia.
Qed.

Lemma splice_middle {A} (p x q y : list A) : length x = length y -> splice (p ++ x ++ q) (length p) y = p ++ y ++ q.
Proof.
  intros E. rewrite splice_app_r, Nat.sub_diag, splice_app_l by lia. f_equal. unfold splice. cbn [take app Nat.add].
  rewrite <-E, drop_all. by rewrite app_nil_r.
Qed.

Lemma memmove_splice {A} (dst s1 y s2 : list A) (d s n : Z) :
  0 <= d -> d + n <= Z.of_nat (length dst) -> s = Z.of_nat (length s1) -> n = Z.of_nat (length y) ->
  memmove dst d (s1 ++ y ++ s2) s n = Ok (splice dst (Z.to_nat d) y).
Proof.
  intros Hd Hn -> ->. unfold memmove. rewrite !length_app. repeat (rewrite (proj2 (Z.leb_le _ _)) by lia). cbn [andb].
  rewrite !Nat2Z.id, drop_app_length, take_app_length. unfold splice. do 4 f_equal. lia.
Qed.

Lemma move_splice (dst s1 y s2 : list (option Z)) (d s n : Z) :
  0 <= d -> d + n <= Z.of_nat (length dst) -> s = Z.of_nat (length s1) -> n = Z.of_nat (length y) ->
  move dst d (s1 ++ y ++ s2) s n = Ok (splice dst (Z.to_nat d) y).
Proof.
  intros Hd Hn Hs Hy. unfold move. destruct (Z.ltb_spec 0 n); [by apply memmove_splice|].
  destruct y; [by rewrite splice_nil|cbn in Hy; lia].
Qed.

Lemma clear_splice (bs : list (option Z)) (d n : Z) :
  0 <= d -> d + n <= Z.of_nat (length bs) -> clear bs d n = Ok (splice bs (Z.to_nat d) (replicate (Z.to_nat n) (Some 0))).
Proof.
  intros Hd Hn. unfold clear, memset. destruct (Z.ltb_spec 0 n).
  - repeat (rewrite (proj2 (Z.leb_le _ _)) by lia). cbn [andb]. unfold splice. rewrite length_replicate. do 4 f_equal. lia.
  - replace (Z.to_nat n) with 0%nat by lia. cbn [replicate]. by rewrite splice_nil.
Qed.

(** ** The values of an array *)

Definition deque_holds (d : CFArrayDeque) (vs : list Z) : Prop :=
  d_capacity d = Z.of_nat (length (d_buckets d)) /\ d_capacity d <= 2 ^ 30 /\
  exists pre post, d_buckets d = pre ++ map Some vs ++ post /\ d_leftIdx d = Z.of_nat (length pre).

Definition contents (a : CFArray) (vs : list Z) : Prop :=
  a_count a = Z.of_nat (length vs) /\
  match a_storage a with
  | Immutable bs => exists post, bs = map Some vs ++ post
  | Deque None => vs = []
  | Deque (Some d) => deque_holds d vs
  end.

Definition mutable (a : CFArray) : Prop := match a_storage a with Deque _ => True | Immutable _ => False end.

(** ** Two regions of buckets, with a gap between them *)

Definition placed (l : list (option Z)) (L : Z) (va : list (option Z)) (C0 : Z) (vc : list (option Z)) : Prop :=
  exists p q r, l = p ++ va ++ q ++ vc ++ r /\ L = Z.of_nat (length p) /\ C0 = L + Z.of_nat (length va) + Z.of_nat (length q).

Section Placed.

Context (va vc : list (option Z)) (A C : Z).

(** [A] and [C] are the lengths of the two regions. *)
Definition sizes : Prop := A = Z.of_nat (length va) /\ C = Z.of_nat (length vc).

Lemma move_right (l : list (option Z)) (L C0 C0' : Z) :
  sizes -> placed l L va C0 vc -> L + A <= C0' -> C0' + C <= Z.of_nat (length l) ->
  exists l', move l C0' l C0 C = Ok l' /\ placed l' L va C0' vc /\ length l' = length l.
Proof.
  intros [HA HC] (p & q & r & -> & -> & ->) H1 H2. exists (splice (p ++ va ++ q ++ vc ++ r) (Z.to_nat C0') vc). split_and!.
  - rewrite !(app_assoc p), (app_assoc (p ++ va) q). apply move_splice; rewrite ?length_app in *; lia.
  - exists p, (take (Z.to_nat C0' - length p - length va) (q ++ vc ++ r)), (drop (Z.to_nat C0' - length p - length va + length vc) (q ++ vc ++ r)).
    rewrite !length_app in H2. split_and!; [|lia|rewrite length_take, !length_app; lia].
    rewrite !splice_app_r by lia. by unfold splice.
  - apply length_splice. lia.
Qed.

Lemma move_left (l : list (option Z)) (L C0 L' : Z) :
  sizes -> placed l L va C0 vc -> 0 <= L' -> L' + A <= C0 ->
  exists l', move l L' l L A = Ok l' /\ placed l' L' va C0 vc /\ length l' = length l.
Proof.
  intros [HA HC] (p & q & r & -> & -> & ->) H1 H2. exists (splice (p ++ va ++ q ++ vc ++ r) (Z.to_nat L') va). split_and!.
  - apply move_splice; rewrite ?length_app in *; lia.
  - exists (take (Z.to_nat L') (p ++ va ++ q)), (drop (Z.to_nat L' + length va) (p ++ va ++ q)), r.
    split_and!; [|rewrite length_take, !length_app; lia|rewrite length_drop, !length_app; lia].
    rewrite (app_assoc va), (app_assoc p), splice_app_l by (rewrite !length_app; lia). unfold splice. by rewrite <-!app_assoc.
  - apply length_splice. rewrite !length_app. lia.
Qed.

Lemma clear_right (l : list (option Z)) (L C0 n : Z) :
  sizes -> placed l L va C0 vc -> C0 + C + n <= Z.of_nat (length l) ->
  exists l', clear l (C0 + C) n = Ok l' /\ placed l' L va C0 vc /\ length l' = length l.
Proof.
  intros [HA HC] (p & q & r & -> & -> & ->) H. rewrite clear_splice by lia. eexists. split; [done|]. split.
  - exists p, q, (splice r 0 (replicate (Z.to_nat n) (Some 0))). split_and!; [|done..]. rewrite !splice_app_r by lia. do 5 f_equal. lia.
  - apply length_splice. rewrite length_replicate, !length_app in *. lia.
Qed.

Lemma clear_left (l : list (option Z)) (L C0 d n : Z) :
  sizes -> placed l L va C0 vc -> 0 <= d -> d + n <= L -> 0 <= n ->
  exists l', clear l d n = Ok l' /\ placed l' L va C0 vc /\ length l' = length l.
Proof.
  intros [HA HC] (p & q & r & -> & -> & ->) H H1 H2. rewrite clear_splice by (rewrite ?length_app; lia). eexists. split; [done|]. split.
  - exists (splice p (Z.to_nat d) (replicate (Z.to_nat n) (Some 0))), q, r.
    rewrite splice_app_l, length_splice by (rewrite length_replicate; lia). done.
  - apply length_splice. rewrite length_replicate, length_app. lia.
Qed.

(** Copies of the two regions in a new block. *)
Lemma move_new (l : list (option Z)) (L C0 L' C0' cap : Z) :
  sizes -> placed l L va C0 vc -> 0 <= L' -> L' + A <= C0' -> C0' + C <= cap ->
  exists l1 l2, move (fresh_buckets cap) L' l L A = Ok l1 /\ move l1 C0' l C0 C = Ok l2 /\ placed l2 L' va C0' vc /\ Z.of_nat (length l2) = cap.
Proof.
  intros [HA HC] (p & q & r & -> & -> & ->) H1 H2 H3.
  assert (Lf : length (fresh_buckets cap) = Z.to_nat cap) by apply length_replicate.
  exists (splice (fresh_buckets cap) (Z.to_nat L') va). assert (L1 : length (splice (fresh_buckets cap) (Z.to_nat L') va) = Z.to_nat cap) by (rewrite length_splice; lia).
  eexists. split_and!; [apply move_splice; lia|..].
  - rewrite !(app_assoc p), (app_assoc (p ++ va) q). apply move_splice; rewrite ?length_app; lia.
  - set (f := fresh_buckets cap) in *.
    exists (take (Z.to_nat L') f), (take (Z.to_nat (C0' - L' - A)) (drop (Z.to_nat L' + length va) f)),
      (drop (Z.to_nat (C0' - L' - A) + length vc) (drop (Z.to_nat L' + length va) f)).
    rewrite !length_take, length_drop. split_and!; [|lia..]. unfold splice at 2. rewrite !splice_app_r by (rewrite ?length_take; lia).
    rewrite length_take. replace (Z.to_nat C0' - Z.to_nat L' `min` length f - length va)%nat with (Z.to_nat (C0' - L' - A)) by lia. done.
  - rewrite length_splice; lia.
Qed.

End Placed.

Lemma deque_round_up_spec (c : Z) : c < 2 ^ 30 -> exists k, CFArrayDequeRoundUpCapacity c = Ok k /\ c <= k /\ 4 <= k <= 2 ^ 30 /\ (4 <= c -> c < k).
Proof.
  intros H. unfold CFArrayDequeRoundUpCapacity, int_bit, flsl. destruct (Z.ltb_spec c 4); [exists 4; split; [done|lia]|].
  rewrite (proj2 (Z.leb_gt c 0)) by lia. pose proof (Z.log2_spec c ltac:(lia)) as [E1 E2]. assert (Z.log2 c < 30) by (apply Z.log2_lt_pow2; lia).
  assert (2 <= Z.log2 c) by (apply (Z.log2_le_mono 4); lia).
  rewrite (proj2 (Z.leb_gt 31 _)) by lia. cbn [mbind result_bind]. rewrite Z.shiftl_1_l.
  pose proof (Z.pow_le_mono_r 2 (Z.log2 c + 1) 30 ltac:(lia) ltac:(lia)). pose proof (Z.pow_le_mono_r 2 3 (Z.log2 c + 1) ltac:(lia) ltac:(lia)).
  replace (Z.succ (Z.log2 c)) with (Z.log2 c + 1) in E2 by lia. exists (2 ^ (Z.log2 c + 1)). rewrite Z.min_l by (unfold MAX_BUCKETS_PER_DEQUE; lia). split; [done|]. lia.
Qed.

(** ** Making room *)

(** Counts below which no shift or cast of the deque's arithmetic overflows. *)
Definition max_count : Z := 2 ^ 30 - 2 ^ 13.

(** The block is valid and has a gap of [n] buckets between the two regions. *)
Definition gapped (d : CFArrayDeque) (va : list (option Z)) (n : Z) (vc : list (option Z)) : Prop :=
  d_capacity d = Z.of_nat (length (d_buckets d)) /\ d_capacity d <= 2 ^ 30 /\
  placed (d_buckets d) (d_leftIdx d) va (d_leftIdx d + Z.of_nat (length va) + n) vc.

Lemma placed_bound (l va vc : list (option Z)) (L C0 : Z) :
  placed l L va C0 vc -> 0 <= L /\ L + Z.of_nat (length va) <= C0 /\ C0 + Z.of_nat (length vc) <= Z.of_nat (length l).
Proof. intros (p & q & r & -> & -> & ->). rewrite !length_app. lia. Qed.

Lemma wiggle_bound (c : Z) : 0 <= c <= 2 ^ 30 -> 4 <= (if Z.shiftr c 17 <? 4 then 4 else Z.shiftr c 17) <= 2 ^ 13.
Proof.
  intros H. rewrite Z.shiftr_div_pow2 by lia. assert (c / 2 ^ 17 <= 2 ^ 13) by (apply Z.div_le_upper_bound; lia).
  destruct (Z.ltb_spec (c / 2 ^ 17) 4); lia.
Qed.

Lemma reposition_gap_spec (d : CFArrayDeque) (va vc : list (option Z)) (len newCount : Z) :
  gapped d va len vc -> 0 <= len -> 0 <= newCount -> len <> newCount ->
  Z.of_nat (length va) + newCount + Z.of_nat (length vc) < max_count ->
  exists d', CFArrayRepositionDequeRegions d (Z.of_nat (length va) + len + Z.of_nat (length vc)) (Z.of_nat (length va)) len newCount = Ok d' /\
    gapped d' va newCount vc.
Proof.
  intros (Hc & Hm & P) Hl Hn Hne Hmax. unfold max_count in Hmax. pose proof (placed_bound _ _ _ _ _ P) as B.
  assert (S : sizes va vc (Z.of_nat (length va)) (Z.of_nat (length vc))) by done. unfold CFArrayRepositionDequeRegions. set (A := Z.of_nat (length va)) in *. set (C := Z.of_nat (length vc)) in *.
  replace (A + len + C - len - A) with C by lia. replace (A + len + C - len + newCount) with (A + newCount + C) by lia.
  rewrite swrap_small by (unfold in_s; lia). rewrite uwrap_small by (unfold in_u; lia).
  pose proof (wiggle_bound (d_capacity d) ltac:(lia)) as W. set (w := if Z.shiftr (d_capacity d) 17 <? 4 then 4 else Z.shiftr (d_capacity d) 17) in *. clearbody w.
  set (L := d_leftIdx d) in *. set (R := d_capacity d - (A + len + C) - L).
  destruct ((d_capacity d <? A + newCount + C) || ((A + len + C <? A + newCount + C) && (L + R <? w))) eqn:G1.
  { destruct (deque_round_up_spec (A + newCount + C + w) ltac:(lia)) as (cap & -> & Hcap & Hcap2 & Hcap3). cbn [mbind result_bind].
    rewrite Z.quot_div_nonneg by lia. pose proof (Z.div_pos (cap - (A + newCount + C)) 2). pose proof (Z.mul_div_le (cap - (A + newCount + C)) 2).
    destruct (move_new va vc A C (d_buckets d) L (L + A + len) ((cap - (A + newCount + C)) / 2) ((cap - (A + newCount + C)) / 2 + A + newCount) cap) as (l1 & l2 & E1 & E2 & P2 & L2); [done|done|lia..|].
    rewrite E1. cbn [mbind result_bind]. rewrite E2. cbn [mbind result_bind]. eexists. split; [done|]. unfold gapped. cbn. split_and!; [done|lia|done]. }
  assert (F : A + newCount + C <= d_capacity d) by (apply orb_false_iff in G1 as [G1 _]; lia). clear G1 W w.
  destruct (((newCount - len <? 0) && (C <? A)) || ((newCount - len <=? R) && (C <? A))) eqn:G2.
  { destruct (move_right va vc A C (d_buckets d) L (L + A + len) (L + A + newCount)) as (l1 & -> & P1 & L1); [done|done|lia|unfold R in *; lia|]. cbn [mbind result_bind].
    destruct (clear_right va vc A C l1 L (L + A + newCount) (L + A + len - (L + A + newCount))) as (l2 & -> & P2 & L2); [done|done|unfold R in *; lia|]. cbn [mbind result_bind].
    eexists. split; [done|]. unfold gapped. cbn. split_and!; [lia|lia|done]. }
  destruct ((newCount - len <? 0) || ((newCount - len <=? L) && (A <=? C))) eqn:G3.
  { destruct (move_left va vc A C (d_buckets d) L (L + A + len) (L - (newCount - len))) as (l1 & -> & P1 & L1); [done|done|lia|lia|]. cbn [mbind result_bind].
    assert (exists l2, clear l1 L (L - (newCount - len) - L) = Ok l2 /\ placed l2 (L - (newCount - len)) va (L + A + len) vc /\ length l2 = length l1) as (l2 & -> & P2 & L2).
    { destruct (Z.leb_spec (newCount - len) 0); [apply (clear_left va vc A C); [done|done|lia..]|].
      exists l1. split_and!; [|done..]. unfold clear. by rewrite (proj2 (Z.ltb_ge _ _)) by lia. }
    cbn [mbind result_bind]. eexists. split; [done|]. unfold gapped. cbn. split_and!; [lia|lia|]. fold A. by replace (L - (newCount - len) + A + newCount) with (L + A + len) by lia. }
  assert (Hpos : len < newCount) by lia. clear G2 G3.
  rewrite (Z.quot_div_nonneg (L + R - (newCount - len))) by (unfold R; lia). pose proof (Z.div_pos (L + R - (newCount - len)) 2 ltac:(unfold R; lia) ltac:(lia)) as D0.
  pose proof (Z.mul_div_le (L + R - (newCount - len)) 2 ltac:(lia)) as D1. set (h := (L + R - (newCount - len)) / 2) in *. clearbody h.
  rewrite (Z.quot_div_nonneg h) by lia. pose proof (Z.div_pos h 2 ltac:(lia) ltac:(lia)) as D2. pose proof (Z.mul_div_le h 2 ltac:(lia)) as D3.
  set (newL := h - h / 2) in *. assert (D4 : 0 <= newL <= h) by lia. clearbody newL. unfold R in D1. clear D2 D3 D0.
  destruct (Z.ltb_spec newL L) as [G|G].
  - destruct (move_left va vc A C (d_buckets d) L (L + A + len) newL) as (l1 & -> & P1 & L1); [done|done|lia|lia|]. cbn [mbind result_bind].
    destruct (move_right va vc A C l1 newL (L + A + len) (newL + A + newCount)) as (l2 & -> & P2 & L2); [done|done|lia|lia|]. cbn [mbind result_bind].
    destruct (clear_right va vc A C l2 newL (newL + A + newCount) (L + A + len - (newL + A + newCount))) as (l3 & -> & P3 & L3); [done|done|lia|]. cbn [mbind result_bind].
    eexists. split; [done|]. unfold gapped. cbn. split_and!; [lia|lia|done].
  - destruct (move_right va vc A C (d_buckets d) L (L + A + len) (newL + A + newCount)) as (l1 & -> & P1 & L1); [done|done|lia|lia|]. cbn [mbind result_bind].
    destruct (move_left va vc A C l1 L (newL + A + newCount) newL) as (l2 & -> & P2 & L2); [done|done|lia|lia|]. cbn [mbind result_bind].
    destruct (clear_left va vc A C l2 newL (newL + A + newCount) L (newL - L)) as (l3 & -> & P3 & L3); [done|done|lia..|]. cbn [mbind result_bind].
    eexists. split; [done|]. unfold gapped. cbn. split_and!; [lia|lia|done].
Qed.

Lemma fresh_gapped (cap n : Z) : 0 <= n <= cap -> cap <= 2 ^ 30 -> gapped (mkDeque (Z.quot (cap - n) 2) cap (fresh_buckets cap)) [] n [].
Proof.
  intros H1 H2. assert (E : length (fresh_buckets cap) = Z.to_nat cap) by apply length_replicate. rewrite Z.quot_div_nonneg by lia.
  pose proof (Z.div_pos (cap - n) 2). pose proof (Z.mul_div_le (cap - n) 2). set (L := (cap - n) / 2) in *. clearbody L.
  unfold gapped. cbn. split_and!; [lia|done|]. set (f := fresh_buckets cap) in *.
  exists (take (Z.to_nat L) f), (take (Z.to_nat n) (drop (Z.to_nat L) f)), (drop (Z.to_nat n) (drop (Z.to_nat L) f)).
  rewrite !length_take, length_drop. cbn. split_and!; [by rewrite !take_drop|lia..].
Qed.

(** ** Replacing values *)

Section Callbacks.

Context (kCFType : CFArrayCallBacks) (retain_call : Z -> Z -> Z).

Definition retain_fn (a : CFArray) : Z := cb_retain (CFArrayGetCallBacks kCFType a).
Definition release_fn (a : CFArray) : Z := cb_release (CFArrayGetCallBacks kCFType a).

(** What is stored for a value, and the calls for a list of values. *)
Definition stored (a : CFArray) (v : Z) : Z := if retain_fn a =? 0 then v else retain_call (retain_fn a) v.
Definition retains (a : CFArray) (vs : list Z) : list event := if retain_fn a =? 0 then [] else map (Retain (retain_fn a)) vs.
Definition releases (a : CFArray) (vs : list Z) : list event := if release_fn a =? 0 then [] else map (Release (release_fn a)) vs.

Lemma releases_app (a : CFArray) (vs ws : list Z) : releases a (vs ++ ws) = releases a vs ++ releases a ws.
Proof. unfold releases. destruct (_ =? _); [done|apply map_app]. Qed.

Lemma release_loop_spec (f : Z) (vs : list Z) : forall (p r : list (option Z)) (i : Z), i = Z.of_nat (length p) ->
  release_loop (length vs) f (p ++ map Some vs ++ r) i = Ok (p ++ replicate (length vs) (Some 0) ++ r, if f =? 0 then [] else map (Release f) vs).
Proof.
  induction vs as [|v vs IH]; intros p r i Hi; cbn [length release_loop map app replicate]; [by destruct (f =? 0)|].
  assert (E : aget (p ++ Some v :: map Some vs ++ r) i = Ok (Some v)) by by apply aget_middle. unfold item. rewrite E. cbn [mbind result_bind].
  rewrite aset_middle by done. specialize (IH (p ++ [Some 0]) r (i + 1)). rewrite <-!app_assoc in IH. cbn [app] in IH.
  destruct (f =? 0); cbn [mbind result_bind]; rewrite IH by (rewrite length_app; cbn; lia); done.
Qed.

Lemma retain_loop_spec (f : Z) (vs : list Z) : forall (p : list Z) (i : Z), i = Z.of_nat (length p) ->
  retain_loop retain_call (length vs) f (p ++ vs) i = Ok (map (retain_call f) vs, map (Retain f) vs).
Proof.
  induction vs as [|v vs IH]; intros p i Hi; [done|]. cbn [length retain_loop map]. rewrite aget_middle by done. cbn [mbind result_bind].
  specialize (IH (p ++ [v]) (i + 1)). rewrite <-app_assoc in IH. cbn [app] in IH. by rewrite IH by (rewrite length_app; cbn; lia).
Qed.

Lemma contents_count (a : CFArray) (vs : list Z) : contents a vs -> a_count a = Z.of_nat (length vs).
Proof. by intros []. Qed.

(** The header of an array after one mutation. *)
Definition stepped (a a' : CFArray) : Prop :=
  mutable a' /\ a_type a' = a_type a /\ a_callbacks a' = a_callbacks a /\ a_mutations a' = s64 (a_mutations a + 1).

(** The copy of the new values into the gap. *)
Lemma fill_gap (d : CFArrayDeque) (va vc newv : list Z) (n : Z) :
  gapped d (map Some va) n (map Some vc) -> Z.of_nat (length newv) = n ->
  exists d', (if 0 <? n then bs ← memmove (d_buckets d) (d_leftIdx d + Z.of_nat (length va)) (map Some newv) 0 n; Ok (Some (set_buckets d bs)) else Ok (Some d)) = Ok (Some d') /\
    deque_holds d' (va ++ newv ++ vc).
Proof.
  intros (Hc & Hm & p & q & r & E & HL & HC) Hn. rewrite length_map in HC. destruct (Z.ltb_spec 0 n) as [G|G].
  - exists (set_buckets d (p ++ map Some (va ++ newv ++ vc) ++ r)). split.
    + rewrite E, app_assoc. replace (map Some newv) with ([] ++ map Some newv ++ []) by by rewrite app_nil_r.
      rewrite memmove_splice; cbn [length]; rewrite ?length_app, ?length_map; [|lia..]. cbn [mbind result_bind]. do 3 f_equal.
      rewrite HL. replace (Z.to_nat (Z.of_nat (length p) + Z.of_nat (length va))) with (length (p ++ map Some va)) by (rewrite length_app, length_map; lia).
      rewrite splice_middle by (rewrite length_map; lia). by rewrite !map_app, <-!app_assoc.
    + split_and!; cbn; [|done|by exists p, r]. rewrite Hc, E. f_equal. rewrite !map_app, !length_app, !length_map. lia.
  - exists d. split; [done|]. destruct newv; [|cbn in Hn; lia]. destruct q; [|cbn in HC; lia]. split_and!; [done|done|]. exists p, r. split; [|done].
    rewrite E. cbn [app]. by rewrite map_app, <-!app_assoc.
Qed.

(** Releasing the replaced values leaves a gap of their length. *)
Lemma release_values_gap (a : CFArray) (d : CFArrayDeque) (va vb vc : list Z) :
  a_storage a = Deque (Some d) -> deque_holds d (va ++ vb ++ vc) ->
  exists d', (if 0 <? Z.of_nat (length vb) then CFArrayReleaseValues kCFType a (Z.of_nat (length va)) (Z.of_nat (length vb)) false else Ok (a, []))
      = Ok (set_storage a (Deque (Some d')), releases a vb) /\ gapped d' (map Some va) (Z.of_nat (length vb)) (map Some vc).
Proof.
  intros Es (Hc & Hm & p & r & E & HL). rewrite !map_app, <-!app_assoc in E. destruct (Z.ltb_spec 0 (Z.of_nat (length vb))) as [G|G].
  - exists (set_buckets d (p ++ map Some va ++ replicate (length vb) (Some 0) ++ map Some vc ++ r)). split.
    + unfold CFArrayReleaseValues. rewrite Es, (proj2 (Z.ltb_lt _ _)) by done. rewrite Nat2Z.id, E, app_assoc.
      rewrite release_loop_spec by (rewrite length_app, length_map; lia). cbn [mbind result_bind andb]. by rewrite <-app_assoc.
    + split_and!; cbn; [|done|]; [rewrite Hc, E; f_equal; rewrite !length_app, length_replicate, !length_map; lia|].
      exists p, (replicate (length vb) (Some 0)), r. rewrite length_replicate, length_map. split_and!; [done|done|lia].
  - exists d. destruct vb; [|cbn in G; lia]. split; [unfold releases, set_storage; destruct a; cbn in *; rewrite Es; by destruct (_ =? 0)|].
    split_and!; [done|done|]. exists p, [], r. rewrite length_map. split_and!; [done|done|cbn; lia].
Qed.

Lemma replace_values_spec (a : CFArray) (va vb vc new : list Z) :
  mutable a -> contents a (va ++ vb ++ vc) -> Z.of_nat (length va) + Z.of_nat (length new) + Z.of_nat (length vc) < max_count ->
  exists a', CFArrayReplaceValues_ kCFType retain_call a (Z.of_nat (length va)) (Z.of_nat (length vb)) new (Z.of_nat (length new)) = Ok (a', retains a new ++ releases a vb) /\
    contents a' (va ++ map (stored a) new ++ vc) /\ stepped a a'.
Proof.
  intros Hm [Hc Hs] Hb. unfold CFArrayReplaceValues_. fold (retain_fn a). rewrite Hc.
  assert (R : (if negb (retain_fn a =? 0) then retain_loop retain_call (Z.to_nat (Z.of_nat (length new))) (retain_fn a) new 0 else Ok (new, [])) = Ok (map (stored a) new, retains a new)).
  { unfold stored, retains. rewrite Nat2Z.id. destruct (retain_fn a =? 0); cbn [negb]; [by rewrite map_id|]. exact (retain_loop_spec (retain_fn a) new [] 0 eq_refl). }
  rewrite R. cbn [mbind result_bind]. clear R. set (newv := map (stored a) new) in *. assert (Ln : length newv = length new) by apply length_map.
  set (m := mutated a) in *. assert (Em : releases a vb = releases m vb) by done. rewrite Em. rewrite <-Ln in *. unfold mutable in Hm. destruct (a_storage a) as [|[d|]] eqn:Es; [done| |].
  - destruct (release_values_gap m d va vb vc Es Hs) as (d1 & -> & Hg). cbn [mbind result_bind]. cbn [a_storage set_storage].
    assert (exists d2, (if negb (Z.of_nat (length vb) =? Z.of_nat (length newv)) then d ← CFArrayRepositionDequeRegions d1 (Z.of_nat (length (va ++ vb ++ vc))) (Z.of_nat (length va)) (Z.of_nat (length vb)) (Z.of_nat (length newv)); Ok (Some d) else Ok (Some d1)) = Ok (Some d2) /\ gapped d2 (map Some va) (Z.of_nat (length newv)) (map Some vc)) as (d2 & -> & Hg2).
    { destruct (Z.eqb_spec (Z.of_nat (length vb)) (Z.of_nat (length newv))) as [<-|N]; cbn [negb]; [by exists d1|].
      destruct (reposition_gap_spec d1 (map Some va) (map Some vc) (Z.of_nat (length vb)) (Z.of_nat (length newv))) as (d2 & E & Hg2); [done|lia|lia|done|rewrite !length_map; lia|].
      exists d2. split; [|done]. rewrite !length_map in E. rewrite !length_app, !Nat2Z.inj_add, Z.add_assoc, E. done. }
    cbn [mbind result_bind]. destruct (fill_gap d2 va vc newv _ Hg2 eq_refl) as (d3 & -> & H3). cbn [mbind result_bind]. eexists. split; [done|]. split; [|by split_and!].
    split; [cbn; rewrite !length_app; lia|done].
  - destruct va, vb, vc; try done. cbn [length app]. change (Z.of_nat 0) with 0 in *. rewrite Z.ltb_irrefl. cbn [mbind result_bind]. change (a_storage m) with (a_storage a). rewrite Es. cbn [mbind result_bind]. rewrite Z.sub_diag, Z.add_0_l, (proj2 (Z.leb_le 0 _)) by lia.
    destruct (deque_round_up_spec (Z.of_nat (length newv))) as (k & -> & Hk & Hk2 & _); [unfold max_count in Hb; cbn in Hb; lia|]. cbn [mbind result_bind].
    destruct (fill_gap _ [] [] newv _ (fresh_gapped k (Z.of_nat (length newv)) ltac:(lia) ltac:(lia)) eq_refl) as (d3 & E3 & H3). cbn [length] in E3. change (Z.of_nat 0) with 0 in E3. rewrite E3. cbn [mbind result_bind].
    eexists. split; [by unfold releases; destruct (_ =? _)|]. split; [|by split_and!]. split; [cbn; rewrite length_app; cbn; lia|done].
Qed.

End Callbacks.

End ArrayDeque.
