(* ===== verification/ArrayOps.v ===== *)
(** * CFArray.c against lists

    With [contents] of ArrayDeque.v as the abstraction, each mutator is the operation on
    lists it names, with the retain and release calls it makes; the queries and the
    searches answer for the list; and creation and copying give new arrays with the
    same values. *)

From stdpp Require Import base list numbers option sorting.
From Stdlib Require Import ZArith Lia.
From S2P Require Import Prelude Sort SortN Array ArrayDeque.
Import Array ArrayDeque.

Module ArrayOps.

Section Operations.

Context (kCFType : CFArrayCallBacks) (retain_call : Z -> Z -> Z) (equal_call : Z -> Z -> Z -> bool).

Abbreviation stored := (stored kCFType retain_call).
Abbreviation retains := (retains kCFType).
Abbreviation releases := (releases kCFType).

(** ** The buckets of an array that is not empty *)

Definition same_header (a a' : CFArray) : Prop :=
  (mutable a -> mutable a') /\ a_type a' = a_type a /\ a_callbacks a' = a_callbacks a /\ a_mutations a' = a_mutations a.

Lemma buckets_view (a : CFArray) (vs : list Z) : contents a vs -> vs <> [] ->
  exists pre post, CFArrayGetBucketsPtr a = Ok (pre ++ map Some vs ++ post, Z.of_nat (length pre)) /\
    forall ws, length ws = length vs -> contents (with_buckets a (pre ++ map Some ws ++ post)) ws /\ same_header a (with_buckets a (pre ++ map Some ws ++ post)).
Proof.
  intros [Hc Hs] Hv. unfold CFArrayGetBucketsPtr, with_buckets, contents, same_header, mutable. destruct (a_storage a) as [bs|[d|]] eqn:Es; [| |done].
  - destruct Hs as [post ->]. exists [], post. split; [done|]. intros ws Hw. cbn. rewrite Hc, Hw. split; [split; [done|by exists post]|done].
  - destruct Hs as (Hd & Hm & pre & post & E & HL). exists pre, post. rewrite E, HL. split; [done|]. intros ws Hw. cbn. rewrite Hc, Hw. split; [|done]. split; [done|].
    split_and!; cbn; [rewrite Hd, E, !length_app, !length_map, Hw; lia|done|by exists pre, post].
Qed.

(** Reading and writing the bucket of a value. *)
Lemma view_get (pre post : list (option Z)) (vs : list Z) (i : nat) (v : Z) :
  vs !! i = Some v -> aget (pre ++ map Some vs ++ post) (Z.of_nat (length pre) + Z.of_nat i) = Ok (Some v).
Proof.
  intros Hi. pose proof (lookup_lt_Some _ _ _ Hi). apply aget_Ok. split; [lia|]. replace (Z.to_nat (Z.of_nat (length pre) + Z.of_nat i)) with (length pre + i)%nat by lia.
  rewrite lookup_app_r, Nat.add_comm, Nat.add_sub, lookup_app_l by (rewrite ?length_map; lia). by rewrite list_lookup_fmap, Hi.
Qed.

Lemma view_set (pre post : list (option Z)) (vs : list Z) (i : nat) (w : Z) :
  (i < length vs)%nat -> aset (pre ++ map Some vs ++ post) (Z.of_nat (length pre) + Z.of_nat i) (Some w) = Ok (pre ++ map Some (<[i := w]> vs) ++ post).
Proof.
  intros Hi. rewrite aset_Ok by (rewrite !length_app, length_map; lia). replace (Z.to_nat (Z.of_nat (length pre) + Z.of_nat i)) with (length pre + i)%nat by lia.
  rewrite insert_app_r, insert_app_l by (rewrite length_map; lia). by rewrite <-list_fmap_insert.
Qed.

Lemma get_value_spec (a : CFArray) (vs : list Z) (i : Z) (v : Z) : contents a vs -> 0 <= i -> vs !! Z.to_nat i = Some v -> CFArrayGetValueAtIndex a i = Ok v.
Proof.
  intros H Hi Hv. destruct (buckets_view a vs H) as (pre & post & E & _); [by intros ->|]. unfold CFArrayGetValueAtIndex, CFArrayGetBucketAtIndex.
  rewrite E. cbn [mbind result_bind]. unfold item. replace i with (Z.of_nat (Z.to_nat i)) by lia. by rewrite (view_get _ _ _ _ _ Hv).
Qed.

(** ** The mutators *)

Lemma count_of (a : CFArray) (vs : list Z) : contents a vs -> a_count a = Z.of_nat (length vs).
Proof. by intros []. Qed.

Lemma insert_spec (a : CFArray) (vs : list Z) (i : nat) (v : Z) :
  mutable a -> contents a vs -> Z.of_nat (length vs) + 1 < max_count -> (i <= length vs)%nat ->
  exists a', CFArrayReplaceValues_ kCFType retain_call a (Z.of_nat i) 0 [v] 1 = Ok (a', retains a [v]) /\
    contents a' (take i vs ++ stored a v :: drop i vs) /\ stepped a a'.
Proof.
  intros Hm H Hb Hi. destruct (replace_values_spec kCFType retain_call a (take i vs) [] (drop i vs) [v]) as (a' & E & Ha' & St); [done|by rewrite app_nil_l, take_drop| |].
  { rewrite length_take, length_drop. cbn. lia. }
  exists a'. rewrite length_take, Nat.min_l in E by done. cbn [length] in E. change (Z.of_nat 0) with 0 in E. change (Z.of_nat 1) with 1 in E.
  split_and!; [|done|done]. rewrite E. do 2 f_equal. unfold ArrayDeque.releases. destruct (_ =? _); by rewrite app_nil_r.
Qed.

Lemma append_spec (a : CFArray) (vs : list Z) (v : Z) :
  mutable a -> contents a vs -> Z.of_nat (length vs) + 1 < max_count ->
  exists a', CFArrayAppendValue kCFType retain_call a v = Ok (a', retains a [v]) /\ contents a' (vs ++ [stored a v]) /\ stepped a a'.
Proof.
  intros Hm H Hb. destruct (insert_spec a vs (length vs) v Hm H Hb (le_n _)) as (a' & E & Ha & St). unfold CFArrayAppendValue. rewrite (count_of _ _ H).
  exists a'. rewrite firstn_all, drop_all in Ha. done.
Qed.

Lemma remove_spec (a : CFArray) (vs : list Z) (i : nat) (v : Z) :
  mutable a -> contents a vs -> Z.of_nat (length vs) < max_count -> vs !! i = Some v ->
  exists a', CFArrayRemoveValueAtIndex kCFType retain_call a (Z.of_nat i) = Ok (a', releases a [v]) /\ contents a' (delete i vs) /\ stepped a a'.
Proof.
  intros Hm H Hb Hi. pose proof (lookup_lt_Some _ _ _ Hi) as Hl.
  destruct (replace_values_spec kCFType retain_call a (take i vs) [v] (drop (S i) vs) []) as (a' & E & Ha' & St); [done|by cbn [app]; rewrite (take_drop_middle _ _ _ Hi)| |].
  { rewrite length_take, length_drop. cbn. lia. }
  exists a'. rewrite length_take, Nat.min_l in E by lia. cbn [length map app] in E, Ha'. rewrite <-delete_take_drop in Ha'. split_and!; [|done|done].
  unfold CFArrayRemoveValueAtIndex. change (Z.of_nat 0) with 0 in E. change (Z.of_nat 1) with 1 in E. rewrite E. do 2 f_equal. unfold ArrayDeque.retains. by destruct (_ =? _).
Qed.

Lemma stepped_header (a a1 : CFArray) : mutable a -> same_header a a1 -> stepped a (mutated a1).
Proof. intros Hm (H1 & H2 & H3 & H4). unfold stepped. cbn. rewrite H4. split_and!; [by apply H1|done..]. Qed.

Lemma contents_mutated (a : CFArray) (vs : list Z) : contents a vs -> contents (mutated a) vs.
Proof. done. Qed.

Lemma set_value_spec (a : CFArray) (vs : list Z) (i : nat) (v old : Z) :
  mutable a -> contents a vs -> vs !! i = Some old ->
  exists a', CFArraySetValueAtIndex kCFType retain_call a (Z.of_nat i) v = Ok (a', retains a [v] ++ releases a [old]) /\ contents a' (<[i := stored a v]> vs) /\ stepped a a'.
Proof.
  intros Hm H Hi. pose proof (lookup_lt_Some _ _ _ Hi) as Hl. destruct (buckets_view a vs H) as (pre & post & E & Hw); [by intros ->|].
  unfold CFArraySetValueAtIndex, CFArrayGetBucketAtIndex. rewrite (proj2 (Z.eqb_neq _ _)) by (rewrite (count_of _ _ H); lia).
  rewrite E. cbn [mbind result_bind]. fold (retain_fn kCFType a). fold (release_fn kCFType a).
  destruct (Hw (<[i := stored a v]> vs)) as [Hc Hh]; [by rewrite length_insert|]. set (x := stored a v) in *.
  exists (mutated (with_buckets a (pre ++ map Some (<[i := x]> vs) ++ post))). split; [|split; [by apply contents_mutated|by apply stepped_header]].
  unfold x, ArrayDeque.stored, ArrayDeque.retains, ArrayDeque.releases.
  destruct (retain_fn kCFType a =? 0); cbn [negb]; rewrite (view_get _ _ _ _ _ Hi); cbn [mbind result_bind]; rewrite view_set by done; cbn [mbind result_bind]; by destruct (release_fn kCFType a =? 0).
Qed.

Lemma exchange_spec (a : CFArray) (vs : list Z) (i j : nat) (x y : Z) :
  contents a vs -> vs !! i = Some x -> vs !! j = Some y ->
  exists a1, CFArrayExchangeValuesAtIndices a (Z.of_nat i) (Z.of_nat j) = Ok (mutated a1) /\ contents a1 (<[j := x]> (<[i := y]> vs)) /\ same_header a a1.
Proof.
  intros H Hi Hj. pose proof (lookup_lt_Some _ _ _ Hi) as Hl. pose proof (lookup_lt_Some _ _ _ Hj) as Hl'. destruct (buckets_view a vs H) as (pre & post & E & Hw); [by intros ->|].
  unfold CFArrayExchangeValuesAtIndices, CFArrayGetBucketAtIndex. rewrite E. cbn [mbind result_bind].
  rewrite (view_get _ _ _ _ _ Hi). cbn [mbind result_bind]. rewrite (view_get _ _ _ _ _ Hj). cbn [mbind result_bind].
  rewrite view_set by done. cbn [mbind result_bind]. rewrite view_set by (by rewrite length_insert). cbn [mbind result_bind].
  eexists. split; [done|]. apply Hw. by rewrite !length_insert.
Qed.

Lemma release_all_spec (a : CFArray) (vs : list Z) : mutable a -> contents a vs ->
  CFArrayReleaseValues kCFType a 0 (a_count a) true = Ok (set_storage (set_count a 0) (Deque None), releases a vs).
Proof.
  intros Hm [Hc Hs]. unfold CFArrayReleaseValues. unfold mutable in Hm. fold (release_fn kCFType a). destruct (a_storage a) as [|[d|]] eqn:Es; [done| |].
  - destruct Hs as (_ & _ & pre & post & E & HL). destruct (Z.ltb_spec 0 (a_count a)).
    + rewrite E, Hc, Nat2Z.id, release_loop_spec by lia. cbn [mbind result_bind]. unfold set_storage, set_count. cbn. by rewrite Hc, Z.eqb_refl.
    + destruct vs; [|cbn in Hc; lia]. cbn [mbind result_bind andb]. rewrite !Z.eqb_refl. cbn [andb]. unfold ArrayDeque.releases. by destruct (release_fn kCFType a =? 0).
  - subst vs. cbn [mbind result_bind andb]. rewrite !Z.eqb_refl. cbn [andb]. unfold ArrayDeque.releases. by destruct (release_fn kCFType a =? 0).
Qed.

(** C25. CFArrayAppendValue, InsertValueAtIndex, SetValueAtIndex, RemoveValueAtIndex,
    ExchangeValuesAtIndices and RemoveAllValues are the operations of their names on the list of values,
    with exactly the retain and release calls of the values that come and go. *)
Theorem mutators_refine (a : CFArray) (vs : list Z) (v : Z) :
  mutable a -> contents a vs -> Z.of_nat (length vs) + 1 < max_count ->
  (exists a', CFArrayAppendValue kCFType retain_call a v = Ok (a', retains a [v]) /\ contents a' (vs ++ [stored a v]) /\ stepped a a') /\
  (forall i, (i <= length vs)%nat -> exists a', CFArrayInsertValueAtIndex kCFType retain_call a (Z.of_nat i) v = Ok (a', retains a [v]) /\
     contents a' (take i vs ++ stored a v :: drop i vs) /\ stepped a a') /\
  (forall i old, vs !! i = Some old ->
     (exists a', CFArraySetValueAtIndex kCFType retain_call a (Z.of_nat i) v = Ok (a', retains a [v] ++ releases a [old]) /\ contents a' (<[i := stored a v]> vs) /\ stepped a a') /\
     (exists a', CFArrayRemoveValueAtIndex kCFType retain_call a (Z.of_nat i) = Ok (a', releases a [old]) /\ contents a' (delete i vs) /\ stepped a a')) /\
  (exists a', CFArraySetValueAtIndex kCFType retain_call a (Z.of_nat (length vs)) v = Ok (a', retains a [v]) /\ contents a' (vs ++ [stored a v]) /\ stepped a a') /\
  (forall i j x y, vs !! i = Some x -> vs !! j = Some y ->
     exists a', CFArrayExchangeValuesAtIndices a (Z.of_nat i) (Z.of_nat j) = Ok a' /\ contents a' (<[j := x]> (<[i := y]> vs)) /\ stepped a a') /\
  (exists a', CFArrayRemoveAllValues kCFType a = Ok (a', releases a vs) /\ contents a' [] /\ stepped a a').
Proof.
  intros Hm H Hb. destruct (append_spec a vs v Hm H Hb) as (aa & Ea & Ha & Sa). split_and!.
  - eauto.
  - intros i Hi. by apply insert_spec.
  - intros i old Hi. split; [by apply set_value_spec|apply remove_spec; [done|done|lia|done]].
  - exists aa. split; [|done]. unfold CFArraySetValueAtIndex, CFArrayAppendValue in *. by rewrite (count_of _ _ H), Z.eqb_refl in *.
  - intros i j x y Hi Hj. destruct (exchange_spec a vs i j x y H Hi Hj) as (a1 & E & H1 & Hh). exists (mutated a1). split_and!; [done|done|by apply stepped_header].
  - unfold CFArrayRemoveAllValues. rewrite (release_all_spec a vs Hm H). cbn [mbind result_bind]. eexists. by split.
Qed.

(** C24. _CFArrayReplaceValues refines the replacement of a range in a list, whichever way the deque is
    repositioned or reallocated: the values outside the range are kept in order, the new values are
    retained before the old ones are released, once each, and the mutation count goes up. *)
Theorem replace_values_refines (a : CFArray) (vs new : list Z) (location len : nat) :
  mutable a -> contents a vs -> (location + len <= length vs)%nat -> Z.of_nat (length vs) - Z.of_nat len + Z.of_nat (length new) < max_count ->
  exists a', CFArrayReplaceValues kCFType retain_call a (Z.of_nat location) (Z.of_nat len) new (Z.of_nat (length new)) =
      Ok (a', retains a new ++ releases a (take len (drop location vs))) /\
    contents a' (take location vs ++ map (stored a) new ++ drop (location + len) vs) /\ stepped a a'.
Proof.
  intros Hm H Hr Hb. rewrite <-(drop_drop vs len location).
  destruct (replace_values_spec kCFType retain_call a (take location vs) (take len (drop location vs)) (drop len (drop location vs)) new) as (a' & E & Ha' & St);
    [done|by rewrite !take_drop|rewrite length_take, !length_drop; lia|].
  exists a'. rewrite !length_take, length_drop in E. rewrite !Nat.min_l in E by lia. done.
Qed.

(** ** Queries *)

(** The values of [sub] are at the indexes from [i] on. *)
Definition reads (a : CFArray) (i : Z) (sub : list Z) : Prop :=
  forall k v, sub !! k = Some v -> CFArrayGetValueAtIndex a (i + Z.of_nat k) = Ok v.

Lemma reads_cons (a : CFArray) (i v : Z) (sub : list Z) : reads a i (v :: sub) -> CFArrayGetValueAtIndex a i = Ok v /\ reads a (i + 1) sub.
Proof.
  intros H. split; [rewrite <-(Z.add_0_r i); by apply (H 0%nat)|]. intros k w Hk. replace (i + 1 + Z.of_nat k) with (i + Z.of_nat (S k)) by lia. by apply H.
Qed.

Lemma contents_reads (a : CFArray) (vs : list Z) (location len : nat) : contents a vs -> reads a (Z.of_nat location) (take len (drop location vs)).
Proof.
  intros H k v Hk. apply (get_value_spec a vs); [done|lia|]. rewrite lookup_take_Some, lookup_drop in Hk. destruct Hk as [Hk _]. rewrite <-Hk. f_equal. lia.
Qed.

Abbreviation matches := (value_matches kCFType equal_call).

Lemma count_matches_spec (a : CFArray) (value : Z) (sub : list Z) : forall i c, reads a i sub ->
  count_of_value kCFType equal_call (length sub) a i value c = Ok (c + Z.of_nat (length (filter (fun it => matches a value it = true) sub))).
Proof.
  induction sub as [|v sub IH]; intros i c H; cbn [length count_of_value]; [cbn; f_equal; lia|]. apply reads_cons in H as [-> H]. cbn [mbind result_bind].
  rewrite IH by done. f_equal. rewrite filter_cons. destruct (matches a value v); [rewrite decide_True by done|rewrite decide_False by done]; cbn [length]; lia.
Qed.

Lemma contains_value_spec (a : CFArray) (value : Z) (sub : list Z) : forall i, reads a i sub ->
  contains_value kCFType equal_call (length sub) a i value = Ok (existsb (matches a value) sub).
Proof.
  induction sub as [|v sub IH]; intros i H; cbn [length contains_value existsb]; [done|]. apply reads_cons in H as [-> H]. cbn [mbind result_bind].
  rewrite IH by done. by destruct (matches a value v).
Qed.

(** The index of the first match, or of the last. *)
Definition is_first (a : CFArray) (value location : Z) (sub : list Z) (r : Z) : Prop :=
  (r = kCFNotFound /\ forall v, v ∈ sub -> matches a value v = false) \/
  (exists k v, r = location + Z.of_nat k /\ sub !! k = Some v /\ matches a value v = true /\ forall j w, (j < k)%nat -> sub !! j = Some w -> matches a value w = false).
Definition is_last (a : CFArray) (value location : Z) (sub : list Z) (r : Z) : Prop :=
  (r = kCFNotFound /\ forall v, v ∈ sub -> matches a value v = false) \/
  (exists k v, r = location + Z.of_nat k /\ sub !! k = Some v /\ matches a value v = true /\ forall j w, (k < j)%nat -> sub !! j = Some w -> matches a value w = false).

Lemma first_match_spec (a : CFArray) (value : Z) (sub : list Z) : forall i, reads a i sub ->
  exists r, first_index kCFType equal_call (length sub) a i value = Ok r /\ is_first a value i sub r.
Proof.
  induction sub as [|v sub IH]; intros i H; cbn [length first_index].
  { exists kCFNotFound. split; [done|]. left. split; [done|]. intros v []%elem_of_nil. }
  apply reads_cons in H as [-> H]. cbn [mbind result_bind]. destruct (matches a value v) eqn:M.
  - exists i. split; [done|]. right. exists 0%nat, v. split_and!; [lia|done|done|lia].
  - destruct (IH (i + 1) H) as (r & -> & Hr). exists r. split; [done|]. destruct Hr as [[-> Hn]|(k & w & -> & Hk & Mk & Hj)].
    + left. split; [done|]. intros w [->|Hw]%elem_of_cons; [done|by apply Hn].
    + right. exists (S k), w. split_and!; [lia|done|done|]. intros [|j] u Hj' Hu; [by simplify_eq/=|]. apply (Hj j); [lia|done].
Qed.

Lemma last_match_spec (a : CFArray) (value location : Z) (sub : list Z) : reads a location sub ->
  exists r, last_index kCFType equal_call (length sub) a location value = Ok r /\ is_last a value location sub r.
Proof.
  induction sub as [|v sub IH] using rev_ind; intros H.
  { exists kCFNotFound. split; [done|]. left. split; [done|]. intros v []%elem_of_nil. }
  rewrite length_app, Nat.add_1_r. cbn [last_index]. rewrite (H (length sub) v) by (by apply list_lookup_middle). cbn [mbind result_bind]. destruct (matches a value v) eqn:M.
  - eexists. split; [done|]. right. exists (length sub), v. split_and!; [lia|by apply list_lookup_middle|done|]. intros j w Hj Hw. apply lookup_lt_Some in Hw. rewrite length_app in Hw. cbn in Hw. lia.
  - destruct IH as (r & -> & Hr). { intros k w Hk. apply H. by rewrite lookup_app_l by (by eapply lookup_lt_Some). }
    exists r. split; [done|]. destruct Hr as [[-> Hn]|(k & w & -> & Hk & Mk & Hj)].
    + left. split; [done|]. intros w [Hw|Hw]%elem_of_app; [by apply Hn|]. apply list_elem_of_singleton in Hw as ->. done.
    + right. exists k, w. split_and!; [lia|by apply lookup_app_l_Some|done|]. intros j u Hj' [Hu|[Hu Hu']]%lookup_app_Some; [by apply (Hj j)|].
      apply list_lookup_singleton_Some in Hu' as [_ <-]. done.
Qed.

Lemma apply_loop_reads (a : CFArray) (sub : list Z) : forall i, reads a i sub -> apply_loop (length sub) a i = Ok (map Apply sub).
Proof.
  induction sub as [|v sub IH]; intros i H; cbn [length apply_loop]; [done|]. apply reads_cons in H as [-> H]. cbn [mbind result_bind]. by rewrite IH.
Qed.

Lemma get_values_spec (a : CFArray) (vs : list Z) (location len : nat) (values : list (option Z)) :
  contents a vs -> (location + len <= length vs)%nat -> (len <= length values)%nat ->
  CFArrayGetValues a (Z.of_nat location) (Z.of_nat len) values = Ok (map Some (take len (drop location vs)) ++ drop len values).
Proof.
  intros H Hr Hv. unfold CFArrayGetValues. assert (Ls : length (take len (drop location vs)) = len) by (rewrite length_take, length_drop; lia). destruct (Z.ltb_spec 0 (Z.of_nat len)) as [G|G].
  - destruct (buckets_view a vs H) as (pre & post & E & _); [by intros ->; cbn in Hr; lia|]. rewrite E. cbn [mbind result_bind].
    rewrite <-(take_drop location vs) at 1. rewrite <-(take_drop len (drop location vs)) at 1. rewrite !map_app, <-!app_assoc, (app_assoc pre).
    rewrite memmove_splice; [|lia|lia|rewrite length_app, length_map, length_take; lia|by rewrite length_map, Ls]. unfold splice. cbn. by rewrite length_map, Ls.
  - destruct len; [done|lia].
Qed.

Theorem queries_answer (a : CFArray) (vs : list Z) (location len : nat) (value : Z) :
  contents a vs -> (location + len <= length vs)%nat ->
  let sub := take len (drop location vs) in
  CFArrayGetCountOfValue kCFType equal_call a (Z.of_nat location) (Z.of_nat len) value = Ok (Z.of_nat (length (filter (fun it => matches a value it = true) sub))) /\
  CFArrayContainsValue kCFType equal_call a (Z.of_nat location) (Z.of_nat len) value = Ok (existsb (matches a value) sub) /\
  (exists r, CFArrayGetFirstIndexOfValue kCFType equal_call a (Z.of_nat location) (Z.of_nat len) value = Ok r /\ is_first a value (Z.of_nat location) sub r) /\
  (exists r, CFArrayGetLastIndexOfValue kCFType equal_call a (Z.of_nat location) (Z.of_nat len) value = Ok r /\ is_last a value (Z.of_nat location) sub r) /\
  CFArrayApplyFunction a (Z.of_nat location) (Z.of_nat len) = Ok (map Apply sub) /\
  CFArrayGetValues a (Z.of_nat location) (Z.of_nat len) (fresh_buckets (Z.of_nat len)) = Ok (map Some sub) /\
  (forall i, CFArrayCheckAndGetValueAtIndex a i = Ok (if i <? 0 then -1 else default (-1) (vs !! Z.to_nat i))).
Proof.
  intros H Hr sub. pose proof (contents_reads a vs location len H) as Hs. fold sub in Hs. assert (Ls : length sub = len) by (unfold sub; rewrite length_take, length_drop; lia).
  unfold CFArrayGetCountOfValue, CFArrayContainsValue, CFArrayGetFirstIndexOfValue, CFArrayGetLastIndexOfValue, CFArrayApplyFunction. rewrite Nat2Z.id, <-Ls. split_and!.
  - by rewrite count_matches_spec.
  - by apply contains_value_spec.
  - by apply first_match_spec.
  - by apply last_match_spec.
  - by apply apply_loop_reads.
  - rewrite (get_values_spec a vs); [|done|lia|unfold fresh_buckets; rewrite length_replicate; lia]. unfold fresh_buckets. rewrite (drop_ge (replicate _ _)) by (rewrite length_replicate; lia). by rewrite app_nil_r, Ls.
  - intros i. unfold CFArrayCheckAndGetValueAtIndex. fold (CFArrayGetValueAtIndex a i). rewrite (count_of _ _ H). destruct (Z.ltb_spec i 0); [by rewrite (proj2 (Z.leb_gt _ _)) by lia|].
    rewrite (proj2 (Z.leb_le 0 i)) by lia. cbn [andb]. destruct (Z.ltb_spec i (Z.of_nat (length vs))).
    + destruct (lookup_lt_is_Some_2 vs (Z.to_nat i)) as [v Hv]; [lia|]. rewrite Hv. by apply (get_value_spec a vs).
    + by rewrite lookup_ge_None_2 by lia.
Qed.

(** ** Equality *)

Definition equal_values (f x y : Z) : Prop := x = y \/ (f <> 0 /\ equal_call f x y = true).

Lemma equal_loop_spec (f : Z) (a1 a2 : CFArray) (vs ws : list Z) : forall i, length vs = length ws -> reads a1 i vs -> reads a2 i ws ->
  exists b, equal_loop equal_call (length vs) f a1 a2 i = Ok b /\ (b = true <-> Forall2 (equal_values f) vs ws).
Proof.
  clear retain_call. revert ws. induction vs as [|v vs IH]; intros [|w ws] i L H1 H2; [by exists true|done|done|]. apply reads_cons in H1 as [E1 H1]. apply reads_cons in H2 as [E2 H2].
  destruct (IH ws (i + 1) (Nat.succ_inj _ _ L) H1 H2) as (b & Eb & Hb). cbn [length equal_loop].
  apply bind_Ok in E1 as ([bs1 p1] & -> & E1). apply bind_Ok in E2 as ([bs2 p2] & G2 & E2). cbn [mbind result_bind]. rewrite E1. cbn [mbind result_bind]. rewrite G2. cbn [mbind result_bind]. rewrite E2. cbn [mbind result_bind]. rewrite Eb.
  assert (F : Forall2 (equal_values f) (v :: vs) (w :: ws) <-> equal_values f v w /\ b = true) by (rewrite Forall2_cons; naive_solver). unfold equal_values in F at 2.
  destruct (Z.eqb_spec v w) as [->|N]; [exists b; naive_solver|]. destruct (Z.eqb_spec f 0); [exists false; naive_solver|].
  destruct (equal_call f v w); [exists b|exists false]; naive_solver.
Qed.

Theorem equal_iff (a1 a2 : CFArray) (vs ws : list Z) : contents a1 vs -> contents a2 ws ->
  exists b, CFArrayEqual kCFType equal_call false a1 a2 = Ok b /\
    (b = true <-> cb_equal (CFArrayGetCallBacks kCFType a1) = cb_equal (CFArrayGetCallBacks kCFType a2) /\
                  Forall2 (equal_values (cb_equal (CFArrayGetCallBacks kCFType a1))) vs ws) /\
    (b = true -> CFArrayHash a1 = CFArrayHash a2).
Proof.
  clear retain_call. intros H1 H2. unfold CFArrayEqual, CFArrayHash. rewrite (count_of _ _ H1), (count_of _ _ H2). set (f := cb_equal (CFArrayGetCallBacks kCFType a1)). set (g := cb_equal (CFArrayGetCallBacks kCFType a2)).
  destruct (Z.eqb_spec (Z.of_nat (length vs)) (Z.of_nat (length ws))) as [L|L]; cbn [negb].
  2: { exists false. split; [done|]. split; [|done]. split; [done|]. intros [_ F]. apply Forall2_length in F. lia. }
  destruct (Z.eqb_spec f g) as [E|E]; cbn [negb]; [|exists false; naive_solver]. destruct (Z.eqb_spec 0 (Z.of_nat (length vs))) as [L0|L0].
  { destruct vs, ws; try (cbn in *; lia). exists true. done. }
  pose proof (contents_reads a1 vs 0 (length vs) H1) as R1. pose proof (contents_reads a2 ws 0 (length ws) H2) as R2. rewrite drop_0, firstn_all in R1, R2. rewrite Nat2Z.id.
  destruct (equal_loop_spec f a1 a2 vs ws 0 ltac:(lia) R1 R2) as (b & Eb & Hb). exists b. rewrite Hb. naive_solver.
Qed.

(** ** Binary search *)

Section Search.

Context (cmp : Z -> Z -> Z) `{C : Sort.Comparator cmp} (sign : forall x y, cmp x y < 0 <-> 0 < cmp y x).
Context (a : CFArray) (location value : Z) (sub : list Z) (R : reads a location sub) (sorted : StronglySorted (Sort.le cmp) sub).

Definition below_value (j : Z) : Prop := exists w, sub !! Z.to_nat j = Some w /\ cmp w value < 0.

Lemma sorted_lookup (i j : nat) (u w : Z) : (i <= j)%nat -> sub !! i = Some u -> sub !! j = Some w -> cmp u w <= 0.
Proof.
  intros L Hu Hw. destruct (decide (i = j)) as [->|N]; [simplify_eq; apply (Sort.le_refl cmp)|]. clear R. revert i j L N Hu Hw.
  induction sorted as [|x l S IH F]; intros i j L N Hu Hw; [done|]. destruct j as [|j]; [lia|]. destruct i as [|i]; cbn in *; simplify_eq.
  - rewrite Forall_forall in F. apply F. by eapply list_elem_of_lookup_2.
  - apply (IH S i j); [lia|lia|done|done].
Qed.

Lemma below_mono (i j : Z) : 0 <= i <= j -> below_value j -> below_value i.
Proof.
  intros L (w & Hw & Cw). destruct (lookup_lt_is_Some_2 sub (Z.to_nat i)) as [u Hu]; [apply lookup_lt_Some in Hw; lia|]. exists u. split; [done|].
  pose proof (sorted_lookup (Z.to_nat i) (Z.to_nat j) u w ltac:(lia) Hu Hw) as Luw. destruct (Z_lt_ge_dec (cmp u value) 0) as [|G]; [done|].
  assert (cmp value u <= 0) by (pose proof (sign u value); lia). assert (cmp value w <= 0) by (by eapply Sort.cmp_trans). pose proof (sign w value). lia.
Qed.

Lemma probe (j : Z) : 0 <= j < Z.of_nat (length sub) ->
  exists w, CFArrayGetValueAtIndex a (location + j) = Ok w /\ ((cmp w value <? 0) = true <-> below_value j).
Proof.
  intros Hj. destruct (lookup_lt_is_Some_2 sub (Z.to_nat j)) as [w Hw]; [lia|]. exists w. split; [replace j with (Z.of_nat (Z.to_nat j)) by lia; by apply R|].
  rewrite Z.ltb_lt. split; [by exists w|]. intros (w' & Hw' & ?). by simplify_eq.
Qed.

(** The search interval is halved around the place of the value. *)
Lemma bsearch_loop_spec (lg : nat) : forall idx, (lg < 32)%nat ->
  -1 <= idx -> idx + 2 ^ Z.of_nat lg <= Z.of_nat (length sub) -> (0 <= idx -> below_value idx) -> ~ below_value (idx + 2 ^ Z.of_nat lg) ->
  exists r, bsearch_loop cmp lg a location value idx = Ok r /\ -1 <= r < Z.of_nat (length sub) /\ (0 <= r -> below_value r) /\ ~ below_value (r + 1).
Proof.
  induction lg as [|lg IH]; intros idx Hlg H1 H2 H3 H4; [exists idx; cbn in *; split; [done|]; split_and!; [lia|lia|done|done]|].
  rewrite Nat2Z.inj_succ, Z.pow_succ_r in H2, H4 by lia. pose proof (pow2_pos (Z.of_nat lg)). cbn [bsearch_loop]. unfold int_bit.
  rewrite (proj2 (Z.leb_gt 31 _)), Z.shiftl_1_l by lia. cbn [mbind result_bind].
  destruct (probe (idx + 2 ^ Z.of_nat lg)) as (w & E & P); [lia|]. rewrite <-Z.add_assoc, E. cbn [mbind result_bind].
  destruct (cmp w value <? 0); apply IH; try lia; try done.
  - intros _. by apply P.
  - by rewrite <-Z.add_assoc, Z.add_diag.
  - intros B. by apply P in B.
Qed.

(** The number of values that the search passes. *)
Lemma bsearch_spec : Z.of_nat (length sub) < 2 ^ 31 ->
  exists k, CFArrayBSearchValues cmp a location (Z.of_nat (length sub)) value = Ok (location + Z.of_nat k) /\ (k <= length sub)%nat /\
    (forall j w, (j < k)%nat -> sub !! j = Some w -> cmp w value < 0) /\ (forall j w, (k <= j)%nat -> sub !! j = Some w -> 0 <= cmp w value).
Proof.
  intros Hlen. set (n := Z.of_nat (length sub)) in *.
  assert (Fin : forall r, -1 <= r < n -> (0 <= r -> below_value r) -> ~ below_value (r + 1) ->
    (Z.to_nat (r + 1) <= length sub)%nat /\ (forall j w, (j < Z.to_nat (r + 1))%nat -> sub !! j = Some w -> cmp w value < 0) /\ (forall j w, (Z.to_nat (r + 1) <= j)%nat -> sub !! j = Some w -> 0 <= cmp w value)).
  { intros r Hr B1 B2. split_and!; [lia| |].
    - intros j w Hj Hw. destruct (below_mono (Z.of_nat j) r ltac:(lia) (B1 ltac:(lia))) as (w' & Hw' & ?). rewrite Nat2Z.id in Hw'. by simplify_eq.
    - intros j w Hj Hw. destruct (Z_lt_ge_dec (cmp w value) 0) as [G|G]; [|lia]. destruct B2. apply (below_mono _ (Z.of_nat j)); [lia|]. exists w. by rewrite Nat2Z.id. }
  assert (NB : ~ below_value n). { intros (w & Hw & _). apply lookup_lt_Some in Hw. lia. }
  unfold CFArrayBSearchValues. destruct (Z.leb_spec n 0) as [G|G].
  { exists 0%nat. split; [f_equal; lia|]. replace 0%nat with (Z.to_nat (-1 + 1)) by done. apply Fin; [lia|lia|]. by replace (-1 + 1) with n by lia. }
  destruct (probe (n - 1)) as (w & E & P); [lia|]. rewrite <-Z.add_sub_assoc, E. cbn [mbind result_bind]. destruct (cmp w value <? 0) eqn:Cw.
  { exists (Z.to_nat n). split; [f_equal; lia|]. replace (Z.to_nat n) with (Z.to_nat (n - 1 + 1)) by (f_equal; lia). apply Fin; [lia|by intros _; apply P|by rewrite Z.sub_add]. }
  destruct (probe 0) as (u & E0 & P0); [lia|]. rewrite Z.add_0_r in E0. rewrite E0. cbn [mbind result_bind]. destruct (Z.ltb_spec (cmp value u) 0) as [Cu|Cu].
  { exists 0%nat. split; [f_equal; lia|]. replace 0%nat with (Z.to_nat (-1 + 1)) by done. apply Fin; [lia|lia|]. intros B. apply P0, Z.ltb_lt in B. pose proof (sign value u). lia. }
  clear E P E0 P0 Cw Cu w u. unfold flsl. rewrite (proj2 (Z.leb_gt n 0)), Z.add_simpl_r by lia. pose proof (Z.log2_spec n G) as [B1 B2]. pose proof (Z.log2_nonneg n).
  assert (Z.log2 n < 31) by (apply Z.log2_lt_pow2; lia). rewrite Z.pow_succ_r in B2 by lia. unfold int_bit. rewrite (proj2 (Z.leb_gt 31 _)), Z.shiftl_1_l by lia. cbn [mbind result_bind].
  destruct (probe (-1 + 2 ^ Z.log2 n)) as (w & E & P); [lia|]. rewrite <-Z.add_assoc, E. cbn [mbind result_bind].
  destruct (bsearch_loop_spec (Z.to_nat (Z.log2 n)) (if cmp w value <? 0 then n - 2 ^ Z.log2 n else -1)) as (r & -> & Hr & R1 & R2); rewrite ?Z2Nat.id by lia; [lia|destruct (cmp w value <? 0); lia..| | |].
  - destruct (cmp w value <? 0); [|lia]. intros _. apply (below_mono _ (-1 + 2 ^ Z.log2 n)); [lia|by apply P].
  - destruct (cmp w value <? 0); [by rewrite Z.sub_add|]. intros B. by apply P in B.
  - cbn [mbind result_bind]. exists (Z.to_nat (r + 1)). split; [f_equal; lia|by apply Fin].
Qed.

End Search.

Theorem bsearch_lower_bound (cmp : Z -> Z -> Z) (C : Sort.Comparator cmp) (sign : forall x y, cmp x y < 0 <-> 0 < cmp y x)
  (a : CFArray) (vs : list Z) (location len : nat) (value : Z) :
  contents a vs -> (location + len <= length vs)%nat -> Z.of_nat len < 2 ^ 31 -> StronglySorted (Sort.le cmp) (take len (drop location vs)) ->
  exists k, CFArrayBSearchValues cmp a (Z.of_nat location) (Z.of_nat len) value = Ok (Z.of_nat (location + k)) /\ (k <= len)%nat /\
    (forall j w, (j < k)%nat -> vs !! (location + j)%nat = Some w -> cmp w value < 0) /\
    (forall j w, (k <= j < len)%nat -> vs !! (location + j)%nat = Some w -> 0 <= cmp w value).
Proof.
  intros H Hr Hl Hs. set (sub := take len (drop location vs)) in *. assert (Ls : length sub = len) by (unfold sub; rewrite length_take, length_drop; lia).
  assert (look : forall j, (j < len)%nat -> sub !! j = vs !! (location + j)%nat) by (intros j Hj; unfold sub; by rewrite lookup_take_lt, lookup_drop).
  destruct (bsearch_spec cmp sign a (Z.of_nat location) value sub (contents_reads a vs location len H) Hs) as (k & E & Hk & K1 & K2); [lia|].
  rewrite Ls in E, Hk. exists k. split_and!; [by rewrite E, Nat2Z.inj_add|done| |].
  - intros j w Hj Hw. apply (K1 j); [done|]. by rewrite look by lia.
  - intros j w Hj Hw. apply (K2 j); [lia|]. by rewrite look by lia.
Qed.

(** ** Appending the values of an array, which may be the array itself *)

Definition same_callbacks (a a' : CFArray) : Prop := a_type a' = a_type a /\ a_callbacks a' = a_callbacks a.

Lemma same_callbacks_get (a a' : CFArray) : same_callbacks a a' -> CFArrayGetCallBacks kCFType a' = CFArrayGetCallBacks kCFType a.
Proof. intros [E1 E2]. unfold CFArrayGetCallBacks. by rewrite E1, E2. Qed.

(** Where the values to append are. *)
Definition source_of (other : option CFArray) (vs : list Z) (i : nat) (sub : list Z) : Prop :=
  match other with
  | Some b => reads b (Z.of_nat i) sub
  | None => forall k v, sub !! k = Some v -> vs !! (i + k)%nat = Some v
  end.

Lemma source_cons (other : option CFArray) (a : CFArray) (vs : list Z) (i : nat) (v : Z) (sub : list Z) : contents a vs ->
  source_of other vs i (v :: sub) -> CFArrayGetValueAtIndex (default a other) (Z.of_nat i) = Ok v /\ forall ws, source_of other (vs ++ ws) (S i) sub.
Proof.
  intros H. destruct other as [b|]; cbn [source_of default].
  - intros [E R]%reads_cons. split; [done|]. intros _. by rewrite Nat2Z.inj_succ.
  - intros Hs. split; [apply (get_value_spec a vs); [done|lia|]; rewrite Nat2Z.id, <-(Nat.add_0_r i); by apply Hs|].
    intros ws k w Hk. apply lookup_app_l_Some. rewrite Nat.add_succ_comm. by apply Hs.
Qed.

Lemma append_loop_spec (other : option CFArray) (sub : list Z) : forall a vs i,
  mutable a -> contents a vs -> source_of other vs i sub -> Z.of_nat (length vs) + Z.of_nat (length sub) < max_count ->
  exists a', append_loop kCFType retain_call (length sub) a other (Z.of_nat i) = Ok (a', retains a sub) /\
    contents a' (vs ++ map (stored a) sub) /\ mutable a' /\ same_callbacks a a'.
Proof.
  induction sub as [|v sub IH]; intros a vs i Hm H Hs Hb; cbn [length append_loop].
  { exists a. rewrite app_nil_r. split; [|done]. unfold ArrayDeque.retains. by destruct (_ =? _). }
  destruct (source_cons other a vs i v sub H Hs) as [-> Hs']. cbn [mbind result_bind]. cbn [length] in Hb.
  destruct (append_spec a vs v Hm H ltac:(lia)) as (a1 & -> & H1 & M1 & T1 & C1 & _). cbn [mbind result_bind].
  destruct (IH a1 (vs ++ [stored a v]) (S i) M1 H1 (Hs' _)) as (a2 & E & H2 & M2 & T2 & C2); [rewrite length_app; cbn; lia|].
  replace (Z.of_nat (S i)) with (Z.of_nat i + 1) in E by lia. rewrite E. cbn [mbind result_bind]. exists a2.
  assert (G : CFArrayGetCallBacks kCFType a1 = CFArrayGetCallBacks kCFType a) by by apply same_callbacks_get.
  assert (Ef : retain_fn kCFType a1 = retain_fn kCFType a) by (unfold retain_fn; by rewrite G). split_and!.
  - unfold ArrayDeque.retains. rewrite Ef. by destruct (retain_fn kCFType a =? 0).
  - rewrite <-app_assoc in H2. cbn [app] in H2. unfold ArrayDeque.stored in *. by rewrite Ef in H2.
  - done.
  - split; [by rewrite T2|by rewrite C2].
Qed.

Theorem append_array_refines (a : CFArray) (vs : list Z) (other : option CFArray) (ws : list Z) (location len : nat) :
  mutable a -> contents a vs -> (match other with Some b => contents b ws | None => ws = vs end) ->
  (location + len <= length ws)%nat -> Z.of_nat (length vs) + Z.of_nat len < max_count ->
  exists a', CFArrayAppendArray kCFType retain_call a other (Z.of_nat location) (Z.of_nat len) = Ok (a', retains a (take len (drop location ws))) /\
    contents a' (vs ++ map (stored a) (take len (drop location ws))) /\ mutable a' /\ same_callbacks a a'.
Proof.
  intros Hm H Ho Hr Hb. set (sub := take len (drop location ws)). assert (Ls : length sub = len) by (unfold sub; rewrite length_take, length_drop; lia).
  unfold CFArrayAppendArray. rewrite Nat2Z.id, <-Ls. apply append_loop_spec; [done|done| |lia]. destruct other as [b|]; cbn.
  - by apply contents_reads.
  - subst ws. intros k v Hk. unfold sub in Hk. rewrite lookup_take_Some, lookup_drop in Hk. by destruct Hk.
Qed.

(** ** Creation *)

Lemma init_callbacks (fl : flavor) (capacity : Z) (cb : option CFArrayCallBacks) :
  CFArrayGetCallBacks kCFType (CFArrayInit kCFType fl capacity cb) = default kCFNullArrayCallBacks cb.
Proof.
  unfold CFArrayInit. destruct (CFArrayCallBacksMatchNull cb) eqn:M.
  - destruct fl, cb as [[r l c e]|]; cbn in *; try done; rewrite !andb_true_iff, !Z.eqb_eq in M; destruct M as [[[-> ->] ->] ->]; done.
  - destruct cb as [c|]; [|done]. destruct (CFArrayCallBacksMatchCFType kCFType c) eqn:M'; [|by destruct fl].
    unfold CFArrayCallBacksMatchCFType in M'. rewrite !andb_true_iff, !Z.eqb_eq in M'. destruct c, M' as [[[E1 E2] E3] E4]. cbn in *. subst. destruct fl; cbn; by destruct kCFType.
Qed.

Lemma fill_loop_spec (f : Z) (value : Z -> result Z) (vs : list Z) : forall p x r i, i = Z.of_nat (length p) -> length x = length vs ->
  (forall k v, vs !! k = Some v -> value (i + Z.of_nat k) = Ok v) ->
  fill_loop retain_call (length vs) f value (p ++ x ++ r) i =
    Ok (p ++ map Some (map (fun v => if f =? 0 then v else retain_call f v) vs) ++ r, if f =? 0 then [] else map (Retain f) vs).
Proof.
  induction vs as [|v vs IH]; intros p x r i Hi Hx Hv; cbn [length fill_loop map]; [destruct x; [by destruct (f =? 0)|done]|]. destruct x as [|y x]; [done|]. cbn [app].
  pose proof (Hv 0%nat v eq_refl) as E0. rewrite Z.add_0_r in E0. rewrite E0. cbn [mbind result_bind]. rewrite aset_middle by done. cbn [mbind result_bind].
  specialize (IH (p ++ [Some (if negb (f =? 0) then retain_call f v else v)]) x r (i + 1)). rewrite <-app_assoc in IH. cbn [app] in IH. rewrite IH.
  - cbn [mbind result_bind]. rewrite <-app_assoc. by destruct (f =? 0).
  - rewrite length_app. cbn. lia.
  - by injection Hx.
  - intros k w Hk. replace (i + 1 + Z.of_nat k) with (i + Z.of_nat (S k)) by lia. by apply Hv.
Qed.

(** A new array with the callbacks [cb], and what it stores for a value. *)
Definition created (cb : CFArrayCallBacks) (vs : list Z) (a : CFArray) (ev : list event) : Prop :=
  contents a (map (fun v => if cb_retain cb =? 0 then v else retain_call (cb_retain cb) v) vs) /\
  ev = (if cb_retain cb =? 0 then [] else map (Retain (cb_retain cb)) vs) /\ CFArrayGetCallBacks kCFType a = cb.

Lemma fill_new (cb : option CFArrayCallBacks) (vs : list Z) (value : Z -> result Z) : (forall k v, vs !! k = Some v -> value (Z.of_nat k) = Ok v) ->
  let a := CFArrayInit kCFType kImmutable (Z.of_nat (length vs)) cb in
  exists a' ev, ('(buckets, _) ← CFArrayGetBucketsPtr a;
    '(bs, ev) ← fill_loop retain_call (length vs) (cb_retain (CFArrayGetCallBacks kCFType a)) value buckets 0;
    Ok (set_count (with_buckets a bs) (Z.of_nat (length vs)), ev)) = Ok (a', ev) /\ created (default kCFNullArrayCallBacks cb) vs a' ev.
Proof.
  intros Hv a. assert (Ecb : CFArrayGetCallBacks kCFType a = default kCFNullArrayCallBacks cb) by apply init_callbacks.
  assert (Ea : a_storage a = Immutable (fresh_buckets (Z.of_nat (length vs)))) by (unfold a, CFArrayInit; by repeat case_match).
  unfold CFArrayGetBucketsPtr. rewrite Ea. cbn [mbind result_bind]. rewrite Ecb. set (c := default kCFNullArrayCallBacks cb) in *.
  pose proof (fill_loop_spec (cb_retain c) value vs [] (fresh_buckets (Z.of_nat (length vs))) [] 0 eq_refl ltac:(unfold fresh_buckets; rewrite length_replicate; lia) Hv) as E.
  cbn [app] in E. rewrite !app_nil_r in E. rewrite E. cbn [mbind result_bind]. eexists _, _. split; [done|]. unfold created, with_buckets. rewrite Ea. split_and!; [|done|done].
  split; [cbn; by rewrite length_map|]. cbn. exists []. by rewrite app_nil_r.
Qed.

Lemma copy_loop_append (n : nat) : forall a array i, copy_loop kCFType retain_call n a array i = append_loop kCFType retain_call n a (Some array) i.
Proof. induction n as [|n IH]; intros a array i; [done|]. cbn [copy_loop append_loop]. change (default a (Some array)) with array. destruct (CFArrayGetValueAtIndex array i) as [v| | |]; [|reflexivity..]. cbn [mbind result_bind]. destruct (CFArrayAppendValue kCFType retain_call a v) as [[a' ev]| | |]; [|reflexivity..]. cbn [mbind result_bind]. by rewrite IH. Qed.

(** The array with its values in a block of [k] buckets. *)
Definition recapacitated (a a' : CFArray) (vs : list Z) (k : Z) : Prop :=
  contents a' vs /\ same_header a a' /\
  exists d, a_storage a' = Deque (Some d) /\ d_capacity d = k /\ Z.of_nat (length (d_buckets d)) = k.

Lemma set_capacity_holds (a : CFArray) (vs : list Z) (cap k : Z) : mutable a -> contents a vs -> CFArrayDequeRoundUpCapacity cap = Ok k -> 0 <= k <= 2 ^ 30 ->
  match a_storage a with
  | Deque (Some d) => if k <? d_capacity d then CFArraySetCapacity a cap = Undef
                      else exists a', CFArraySetCapacity a cap = Ok a' /\ recapacitated a a' vs k
  | _ => exists a', CFArraySetCapacity a cap = Ok a' /\ recapacitated a a' vs k
  end.
Proof.
  intros Hm [Hc Hs] Ek Hk. unfold CFArraySetCapacity. rewrite Ek. cbn [mbind result_bind]. unfold mutable in Hm. assert (Lf : length (fresh_buckets k) = Z.to_nat k) by apply length_replicate.
  destruct (a_storage a) as [|[d|]] eqn:Es; [done| |].
  - destruct Hs as (Hd & Hd' & pre & post & E & HL). destruct (Z.ltb_spec k (d_capacity d)) as [G|G].
    + unfold memmove. rewrite (proj2 (Z.leb_gt (0 + d_capacity d) _)), andb_false_r by lia. done.
    + replace (d_buckets d) with ([] ++ d_buckets d ++ []) by by rewrite app_nil_r. rewrite memmove_splice by (done || lia). cbn [mbind result_bind].
      eexists. split; [done|]. split_and!; [|done|eexists; split; [done|]; cbn; rewrite length_splice by (cbn; lia); split; [done|lia]]. split; [done|]. cbn. unfold deque_holds. cbn. rewrite length_splice by (cbn; lia). split_and!; [lia|lia|].
      exists pre, (post ++ drop (length (d_buckets d)) (fresh_buckets k)). split; [|done]. unfold splice. cbn. by rewrite E, <-!app_assoc.
  - subst vs. eexists. split; [done|]. split_and!; [|done|eexists; split; [done|]; cbn [d_capacity d_buckets]; split; [done|lia]]. split; [done|]. cbn.
    destruct (fresh_gapped k 0 ltac:(lia) ltac:(lia)) as (G1 & G2 & p & q & r & E & HL & HC). split; [exact G1|]. split; [exact G2|]. exists p, (q ++ r). split; [exact E|]. cbn [d_leftIdx] in *. by rewrite <-HL, Z.sub_0_r.
Qed.

(** From 2^30 on the shift of the rounding leaves the range of an [int]. *)
Lemma round_up_overflow (cap : Z) : 2 ^ 30 <= cap -> CFArrayDequeRoundUpCapacity cap = Undef.
Proof.
  intros H. unfold CFArrayDequeRoundUpCapacity, int_bit, flsl. rewrite (proj2 (Z.ltb_ge cap 4)), (proj2 (Z.leb_gt cap 0)) by lia.
  assert (30 <= Z.log2 cap) by (apply Z.log2_le_pow2; lia). by rewrite (proj2 (Z.leb_le 31 _)) by lia.
Qed.

(** C33. On a mutable array _CFArraySetCapacity of less than 2^30 either stores a new deque that has
    exactly the rounded capacity, no less than the one asked for, and holds the same values, or writes
    outside the new block, which it does exactly when the old deque had more buckets than the new one,
    whatever the number of values; from 2^30 on the rounding overflows an int. *)
Theorem set_capacity_bounds (a : CFArray) (vs : list Z) (cap : Z) :
  mutable a -> contents a vs ->
  (2 ^ 30 <= cap -> CFArraySetCapacity a cap = Undef) /\
  (cap < 2 ^ 30 -> exists k, CFArrayDequeRoundUpCapacity cap = Ok k /\ cap <= k /\
    (CFArraySetCapacity a cap = Undef <-> exists d, a_storage a = Deque (Some d) /\ k < d_capacity d) /\
    (CFArraySetCapacity a cap <> Undef ->
     exists a' d', CFArraySetCapacity a cap = Ok a' /\ a_storage a' = Deque (Some d') /\ d_capacity d' = k /\
       Z.of_nat (length (d_buckets d')) = k /\ contents a' vs /\ same_header a a')).
Proof.
  intros Hm H. split.
  { intros Hc. unfold CFArraySetCapacity, mutable in *. destruct (a_storage a); [done|]. by rewrite round_up_overflow. }
  intros Hc. destruct (deque_round_up_spec cap Hc) as (k & Ek & Hk & Hk2 & _). exists k. split; [done|]. split; [done|].
  pose proof (set_capacity_holds a vs cap k Hm H Ek ltac:(lia)) as S. unfold mutable in Hm. destruct (a_storage a) as [|[d|]] eqn:Es; [done| |].
  - destruct (Z.ltb_spec k (d_capacity d)) as [G|G].
    + split; [|done]. split; [by exists d|done].
    + destruct S as (a' & E & C' & S & d' & D1 & D2 & D3). split; [|by exists a', d']. rewrite E. split; [done|]. intros (d0 & [= <-] & ?). lia.
  - destruct S as (a' & E & C' & S & d' & D1 & D2 & D3). split; [|by exists a', d']. rewrite E. split; [done|]. by intros (d0 & ? & _).
Qed.

Lemma init_empty (capacity : Z) (cb : option CFArrayCallBacks) :
  contents (CFArrayInit kCFType kDeque capacity cb) [] /\ mutable (CFArrayInit kCFType kDeque capacity cb).
Proof. unfold CFArrayInit. repeat case_match; done. Qed.

Lemma mutable_copy_spec (capacity : Z) (array : CFArray) (vs : list Z) : contents array vs -> Z.of_nat (length vs) < max_count ->
  exists a ev, CFArrayCreateMutableCopy0 kCFType retain_call capacity array = Ok (a, ev) /\ mutable a /\ created (CFArrayGetCallBacks kCFType array) vs a ev.
Proof.
  intros H Hb. unfold CFArrayCreateMutableCopy0, CFArrayGetCount. rewrite (count_of _ _ H), Nat2Z.id. set (cb := CFArrayGetCallBacks kCFType array). set (n := CFArrayInit kCFType kDeque capacity (Some cb)).
  destruct (init_empty capacity (Some cb)) as [Hn Mn]. fold n in Hn, Mn.
  assert (exists n', (if 0 =? capacity then CFArraySetCapacity n (Z.of_nat (length vs)) else Ok n) = Ok n' /\ contents n' [] /\ mutable n' /\ same_callbacks n n') as (n' & -> & Hn' & Mn' & Sn).
  { destruct (0 =? capacity); [|by exists n]. destruct (deque_round_up_spec (Z.of_nat (length vs))) as (k & Ek & _ & Hk & _); [unfold max_count in Hb; lia|].
    pose proof (set_capacity_holds n [] (Z.of_nat (length vs)) k Mn Hn Ek ltac:(lia)) as S. assert (Es : a_storage n = Deque None) by (unfold n, CFArrayInit; by repeat case_match).
    rewrite Es in S. destruct S as (n' & E & Hn' & (M' & T' & C' & _) & _). exists n'. split_and!; [done|done|by apply M'|by split]. }
  cbn [mbind result_bind]. rewrite copy_loop_append. pose proof (contents_reads array vs 0 (length vs) H) as R. rewrite drop_0, firstn_all in R.
  destruct (append_loop_spec (Some array) vs n' [] 0 Mn' Hn' R) as (a & E & Ha & Ma & Sa); [cbn; lia|]. exists a, (retains n' vs). split; [exact E|]. split; [done|].
  assert (G : CFArrayGetCallBacks kCFType n' = cb) by (rewrite (same_callbacks_get _ _ Sn); apply init_callbacks).
  unfold created, ArrayDeque.retains, ArrayDeque.stored, retain_fn in *. rewrite G in *. split_and!; [done|done|]. by rewrite (same_callbacks_get _ _ Sa).
Qed.

Theorem creation_refines :
  (forall vs cb, exists a ev, CFArrayCreate0 kCFType retain_call vs (Z.of_nat (length vs)) cb = Ok (a, ev) /\ created (default kCFNullArrayCallBacks cb) vs a ev) /\
  (forall vs, exists a, CFArrayCreateTransfer vs (Z.of_nat (length vs)) = Ok a /\ contents a vs /\ CFArrayGetCallBacks kCFType a = kCFType) /\
  (forall array vs, contents array vs ->
     (exists a ev, CFArrayCreateCopy0 kCFType retain_call array = Ok (a, ev) /\ created (CFArrayGetCallBacks kCFType array) vs a ev) /\
     (Z.of_nat (length vs) < max_count -> forall capacity, exists a ev, CFArrayCreateMutableCopy0 kCFType retain_call capacity array = Ok (a, ev) /\
        mutable a /\ created (CFArrayGetCallBacks kCFType array) vs a ev)) /\
  (forall capacity cb, let a := CFArrayCreateMutable0 kCFType capacity cb in mutable a /\ contents a [] /\ CFArrayGetCallBacks kCFType a = default kCFNullArrayCallBacks cb).
Proof.
  split_and!.
  - intros vs cb. unfold CFArrayCreate0. rewrite Nat2Z.id. apply fill_new. intros k v Hk. by apply aget_nat.
  - intros vs. unfold CFArrayCreateTransfer. replace (map Some vs) with ([] ++ map Some vs ++ []) by by rewrite app_nil_r.
    assert (Lf : length (fresh_buckets (Z.of_nat (length vs))) = length vs) by (unfold fresh_buckets; rewrite length_replicate; lia).
    rewrite memmove_splice; [|lia|lia|done|by rewrite length_map]. cbn [mbind result_bind]. eexists. split; [done|]. split; [|done]. split; [done|]. exists [].
    unfold splice. cbn. rewrite drop_ge by (rewrite Lf, length_map; lia). done.
  - intros array vs H. split; [|intros Hb capacity; by apply mutable_copy_spec]. unfold CFArrayCreateCopy0, CFArrayGetCount. rewrite (count_of _ _ H), Nat2Z.id.
    apply (fill_new (Some (CFArrayGetCallBacks kCFType array))). pose proof (contents_reads array vs 0 (length vs) H) as R. by rewrite drop_0, firstn_all in R.
  - intros capacity cb a. destruct (init_empty capacity cb) as [H M]. split_and!; [done|done|apply init_callbacks].
Qed.

End Operations.

(** ** Arrays on which the theorems apply *)

Definition sample_type_callbacks : CFArrayCallBacks := mkCB 1 2 3 4.
Definition sample_callbacks : CFArrayCallBacks := mkCB 100 200 300 400.
Definition sample_retain (f v : Z) : Z := v + 1000.
Definition sample_equal (f x y : Z) : bool := x mod 10 =? y mod 10.

(** Three values in a deque of eight buckets. *)
Definition sample_array : CFArray :=
  mkArray 3 1 HasCustomCallBacks sample_callbacks (Deque (Some (mkDeque 1 8 [None; Some 7; Some 9; Some 17; None; Some 0; None; None]))).

Lemma sample_contents : contents sample_array [7; 9; 17].
Proof. split; [done|]. split; [done|]. split; [done|]. exists [None], [None; Some 0; None; None]. done. Qed.

Lemma mutators_witness :
  (exists a', CFArrayInsertValueAtIndex sample_type_callbacks sample_retain sample_array 2 5 = Ok (a', [Retain 100 5]) /\ contents a' [7; 9; 1005; 17]) /\
  (exists a', CFArrayRemoveValueAtIndex sample_type_callbacks sample_retain sample_array 0 = Ok (a', [Release 200 7]) /\ contents a' [9; 17]).
Proof.
  destruct (mutators_refine sample_type_callbacks sample_retain sample_array [7; 9; 17] 5) as (_ & Hi & Hs & _); [done|apply sample_contents|vm_compute; reflexivity|]. split.
  - destruct (Hi 2%nat) as (a' & E & H & _); [cbn; lia|]. by exists a'.
  - destruct (Hs 0%nat 7 eq_refl) as [_ (a' & E & H & _)]. by exists a'.
Defined.

Lemma replace_values_witness :
  exists a', CFArrayReplaceValues sample_type_callbacks sample_retain sample_array 1 1 [4; 5; 6; 8; 3] 5 =
      Ok (a', [Retain 100 4; Retain 100 5; Retain 100 6; Retain 100 8; Retain 100 3; Release 200 9]) /\ contents a' [7; 1004; 1005; 1006; 1008; 1003; 17].
Proof.
  destruct (replace_values_refines sample_type_callbacks sample_retain sample_array [7; 9; 17] [4; 5; 6; 8; 3] 1 1) as (a' & E & H & _); [done|apply sample_contents|cbn; lia|vm_compute; reflexivity|].
  by exists a'.
Defined.

Lemma array_queries_witness :
  CFArrayGetCountOfValue sample_type_callbacks sample_equal sample_array 0 3 27 = Ok 2 /\ CFArrayContainsValue sample_type_callbacks sample_equal sample_array 1 1 27 = Ok false /\
  CFArrayCheckAndGetValueAtIndex sample_array 3 = Ok (-1).
Proof.
  destruct (queries_answer sample_type_callbacks sample_equal sample_array [7; 9; 17] 0 3 27) as (H1 & _ & _ & _ & _ & _ & H2); [apply sample_contents|cbn; lia|].
  destruct (queries_answer sample_type_callbacks sample_equal sample_array [7; 9; 17] 1 1 27) as (_ & H3 & _); [apply sample_contents|cbn; lia|].
  split_and!; [exact H1|exact H3|exact (H2 3)].
Defined.

Lemma array_equal_witness : exists a ev b, CFArrayCreate0 sample_type_callbacks (fun _ v => v) [27; 39; 17] 3 (Some sample_callbacks) = Ok (a, ev) /\
  CFArrayEqual sample_type_callbacks sample_equal false sample_array a = Ok b /\ b = true.
Proof.
  eexists _, _. assert (H : contents (mkArray 3 0 HasCustomCallBacks sample_callbacks (Immutable [Some 27; Some 39; Some 17])) [27; 39; 17]) by (split; [done|by exists []]).
  destruct (equal_iff sample_type_callbacks sample_equal sample_array _ [7; 9; 17] [27; 39; 17] sample_contents H) as (b & E & Hb & _). exists b. split; [vm_compute; reflexivity|]. split; [exact E|].
  apply Hb. split; [reflexivity|]. repeat (apply Forall2_cons_2; [right; split; [done|reflexivity]|]). apply Forall2_nil_2.
Defined.

(** Numbers as they are ordered. *)
Definition sample_order (x y : Z) : Z := x - y.
#[export] Instance sample_order_comparator : Sort.Comparator sample_order.
Proof. split; unfold sample_order; lia. Qed.

Lemma bsearch_witness : CFArrayBSearchValues sample_order sample_array 0 3 10 = Ok 2.
Proof.
  destruct (bsearch_lower_bound sample_order sample_order_comparator ltac:(unfold sample_order; lia) sample_array [7; 9; 17] 0 3 10) as (k & E & Hk & H1 & H2);
    [apply sample_contents|cbn; lia|lia|repeat constructor; unfold Sort.le, sample_order; lia|].
  rewrite (E : CFArrayBSearchValues sample_order sample_array 0 3 10 = _). f_equal. pose proof (H1 2%nat 17). pose proof (H2 1%nat 9). unfold sample_order in *. cbn in *.
  assert (~ (2 < k)%nat) by (intros L; specialize (H L eq_refl); lia). assert (~ (k <= 1)%nat) by (intros L; specialize (H0 ltac:(lia) eq_refl); lia). lia.
Defined.

Lemma append_array_witness :
  exists a', CFArrayAppendArray sample_type_callbacks sample_retain sample_array None 1 2 = Ok (a', [Retain 100 9; Retain 100 17]) /\ contents a' [7; 9; 17; 1009; 1017].
Proof.
  destruct (append_array_refines sample_type_callbacks sample_retain sample_array [7; 9; 17] None [7; 9; 17] 1 2) as (a' & E & H & _); [done|apply sample_contents|done|cbn; lia|vm_compute; reflexivity|].
  by exists a'.
Defined.

(** Three values in eight buckets: a capacity of three overruns the new block, one of
    nine gives sixteen buckets. *)
Lemma set_capacity_witness : CFArraySetCapacity sample_array 3 = Undef /\ CFArraySetCapacity sample_array (2 ^ 30) = Undef /\
  exists a' d', CFArraySetCapacity sample_array 9 = Ok a' /\ a_storage a' = Deque (Some d') /\ d_capacity d' = 16 /\ contents a' [7; 9; 17].
Proof.
  destruct (set_capacity_bounds sample_array [7; 9; 17] 3) as [_ H3]; [done|apply sample_contents|].
  destruct (set_capacity_bounds sample_array [7; 9; 17] (2 ^ 30)) as [Hbig _]; [done|apply sample_contents|].
  destruct (set_capacity_bounds sample_array [7; 9; 17] 9) as [_ H9]; [done|apply sample_contents|]. split; [|split].
  - destruct (H3 ltac:(lia)) as (k & E & _ & H & _). injection E as <-. apply H. by eexists.
  - apply Hbig. lia.
  - destruct (H9 ltac:(lia)) as (k & E & _ & _ & H). injection E as <-. destruct H as (a' & d' & E' & S' & K' & _ & C' & _); [by vm_compute|]. by exists a', d'.
Defined.

End ArrayOps.
