(* ===== verification/ArraySort.v ===== *)
(** * Sorting a CFArray

    CFArraySortValues has two algorithms: CFQSortArray on a copy of the values, which
    are then replaced, and __CFZSort, an exchange sort in place, for arrays whose
    callbacks retain without releasing or the other way round.  Both give the one
    stable sort of the range. *)

From stdpp Require Import base list numbers option sorting.
From Stdlib Require Import ZArith Lia.
From S2P Require Import Prelude Sort SortN Array ArrayDeque ArrayOps.
Import Array ArrayDeque ArrayOps.

Module ArraySort.

Section Sorting.

Context (kCFType : CFArrayCallBacks) (retain_call : Z -> Z -> Z).
Context (cmp : Z -> Z -> Z) `{C : Sort.Comparator cmp} (sign : forall x y, cmp x y < 0 <-> 0 < cmp y x).
Context (fresh : Z -> list Z) (fresh_length : forall n, 0 <= n -> Z.of_nat (length (fresh n)) = n).

Abbreviation le := (Sort.le cmp).
Abbreviation same_classes := (Sort.same_classes cmp).
Abbreviation stored := (stored kCFType retain_call).
Abbreviation retains := (retains kCFType).
Abbreviation releases := (releases kCFType).

(** ** The exchange sort on lists *)

(** One pass carries the greatest value to the end. *)
Fixpoint bubble (x : Z) (l : list Z) : list Z :=
  match l with
  | [] => [x]
  | y :: l => if cmp y x <? 0 then y :: bubble x l else x :: bubble y l
  end.

Lemma bubble_classes (l : list Z) : forall x, same_classes (x :: l) (bubble x l).
Proof.
  induction l as [|y l IH]; intros x; [done|]. cbn [bubble]. destruct (Z.ltb_spec (cmp y x) 0) as [G|G].
  - eapply Sort.same_classes_trans; [apply (Sort.swap_classes cmp []); by apply sign|]. by apply (Sort.same_classes_app cmp [y] [y]).
  - by apply (Sort.same_classes_app cmp [x] [x]).
Qed.

Lemma bubble_last (l : list Z) : forall x, exists s m, bubble x l = s ++ [m] /\ length s = length l /\ le x m /\ forall z, z ∈ s -> le z m.
Proof.
  induction l as [|y l IH]; intros x.
  { exists [], x. split_and!; [done|done|apply (Sort.le_refl cmp)|]. intros z []%elem_of_nil. }
  cbn [bubble]. destruct (Z.ltb_spec (cmp y x) 0) as [G|G].
  - destruct (IH x) as (s & m & -> & L & H1 & H2). exists (y :: s), m. split_and!; [done|by cbn; rewrite L|done|].
    intros z [->|Hz]%elem_of_cons; [|by apply H2]. apply (Sort.le_trans cmp _ x); [unfold Sort.le; lia|done].
  - destruct (IH y) as (s & m & -> & L & H1 & H2). assert (Hxy : le x y) by (unfold Sort.le; pose proof (sign y x); lia).
    assert (le x m) by (by apply (Sort.le_trans cmp _ y)). exists (x :: s), m. split_and!; [done|by cbn; rewrite L|done|]. intros z [->|Hz]%elem_of_cons; [done|by apply H2].
Qed.

(** ** The exchange sort of the array *)

Definition exchanged (a a' : CFArray) : Prop := (mutable a -> mutable a') /\ a_type a' = a_type a /\ a_callbacks a' = a_callbacks a.

Lemma zsort_pass_spec (l : list Z) : forall a p x q, contents a (p ++ x :: l ++ q) ->
  exists a', zsort_pass cmp (length l) a (Z.of_nat (length p)) = Ok a' /\ contents a' (p ++ bubble x l ++ q) /\ exchanged a a'.
Proof.
  induction l as [|y l IH]; intros a p x q H; [by exists a|]. cbn [length zsort_pass app] in *.
  rewrite (get_value_spec a _ (Z.of_nat (length p)) x H) by (rewrite ?Nat2Z.id, ?list_lookup_middle; done || lia). cbn [mbind result_bind].
  assert (Hy : (p ++ x :: y :: l ++ q) !! S (length p) = Some y) by (rewrite lookup_app_r, Nat.sub_succ_l, Nat.sub_diag by lia; done).
  rewrite (get_value_spec a _ (Z.of_nat (length p) + 1) y H); [|lia|by replace (Z.to_nat (Z.of_nat (length p) + 1)) with (S (length p)) by lia].
  cbn [mbind result_bind bubble]. assert (Next : forall b u v, contents b (p ++ u :: v :: l ++ q) -> exchanged a b ->
    exists a', zsort_pass cmp (length l) b (Z.of_nat (length p) + 1) = Ok a' /\ contents a' (p ++ (u :: bubble v l) ++ q) /\ exchanged a a').
  { intros b u v Hb (X1 & X2 & X3). destruct (IH b (p ++ [u]) v q) as (a' & E & Ha & Y1 & Y2 & Y3); [by rewrite <-app_assoc|]. rewrite length_app, Nat2Z.inj_add in E. exists a'. rewrite <-app_assoc in Ha.
    split_and!; [done|done|]. unfold exchanged. split_and!; [tauto|congruence|congruence]. }
  destruct (cmp y x <? 0); [|by apply (Next a)].
  destruct (exchange_spec a _ (length p) (S (length p)) x y H) as (a1 & E1 & H1 & M1 & T1 & C1 & _); [by rewrite list_lookup_middle|done|].
  rewrite Nat2Z.inj_succ, <-Z.add_1_r in E1. rewrite E1. cbn [mbind result_bind]. apply Next; [|by split_and!]. apply contents_mutated.
  rewrite insert_app_r_alt, Nat.sub_diag in H1 by lia. cbn in H1. by rewrite insert_app_r_alt, Nat.sub_succ_l, Nat.sub_diag in H1 by lia.
Qed.

Lemma zsort_spec (n : nat) : forall a p s t q, length s = n -> contents a (p ++ s ++ t ++ q) ->
  StronglySorted le t -> (forall x y, x ∈ s -> y ∈ t -> le x y) ->
  exists a' s', CFZSort cmp n a (Z.of_nat (length p)) = Ok a' /\ contents a' (p ++ s' ++ t ++ q) /\ exchanged a a' /\ same_classes s s' /\ StronglySorted le (s' ++ t).
Proof.
  induction n as [|n IH]; intros a p s t q Ls H St Hst.
  { destruct s; [|done]. by exists a, []. }
  destruct s as [|x s]; [done|]. injection Ls as Ls. destruct n as [|n].
  { destruct s; [|done]. exists a, [x]. split_and!; [done|done|done|done|]. constructor; [done|]. apply Forall_forall. intros y Hy. apply Hst; [left|done]. }
  destruct (zsort_pass_spec s a p x (t ++ q) H) as (a1 & E1 & H1 & X1 & X2 & X3). rewrite Ls in E1.
  change (CFZSort cmp (S (S n)) a (Z.of_nat (length p))) with (zsort_pass cmp (S n) a (Z.of_nat (length p)) ≫= fun a => CFZSort cmp (S n) a (Z.of_nat (length p))). rewrite E1. cbn [mbind result_bind].
  destruct (bubble_last s x) as (s1 & m & Eb & L1 & _ & Hm). pose proof (bubble_classes s x) as Hc. rewrite Eb in *.
  assert (P : forall z, z ∈ s1 ++ [m] -> z ∈ x :: s) by (intros z; by apply (Sort.same_classes_elem cmp)).
  destruct (IH a1 p s1 (m :: t) q) as (a' & s' & E & H' & (Y1 & Y2 & Y3) & Hc' & S').
  - lia.
  - by rewrite <-app_assoc in H1.
  - constructor; [done|]. apply Forall_forall. intros y Hy. apply Hst; [|done]. apply P, elem_of_app. right. left.
  - intros u y Hu [->|Hy]%elem_of_cons; [by apply Hm|]. apply Hst; [|done]. apply P, elem_of_app. by left.
  - exists a', (s' ++ [m]). split_and!; [done|by rewrite <-app_assoc|unfold exchanged; split_and!; [tauto|congruence..]| |by rewrite <-app_assoc].
    intros z. rewrite <-(Hc z), !filter_app. by rewrite (Hc' z).
Qed.

(** ** Sorting a copy of the values *)

Lemma filled_spec (l : list Z) : filled (map Some l) = Ok l.
Proof. induction l as [|v l IH]; [done|]. cbn [map filled mbind result_bind]. by rewrite IH. Qed.

Lemma sorted_values_spec (a : CFArray) (vs : list Z) (location len : nat) :
  contents a vs -> (location + len <= length vs)%nat -> Z.of_nat (length vs) < max_count ->
  exists out, sorted_values cmp fresh a (Z.of_nat location) (Z.of_nat len) = Ok out /\ Sort.stable_sorted cmp (take len (drop location vs)) out.
Proof.
  intros H Hr Hb. unfold sorted_values. set (sub := take len (drop location vs)). assert (Ls : length sub = len) by (unfold sub; rewrite length_take, length_drop; lia).
  rewrite (get_values_spec a vs) by (done || unfold fresh_buckets; rewrite length_replicate; lia). unfold fresh_buckets. rewrite (drop_ge (replicate _ _)), app_nil_r by (rewrite length_replicate; lia).
  cbn [mbind result_bind]. rewrite filled_spec. cbn [mbind result_bind]. fold sub. unfold max_count in Hb.
  apply (SortN.sort_array_stable cmp fresh fresh_length 0 sub 8); [lia|]. apply Z.div_le_lower_bound; lia.
Qed.

Lemma replace_sorted (a : CFArray) (vs out : list Z) (location len : nat) :
  mutable a -> contents a vs -> (location + len <= length vs)%nat -> Z.of_nat (length vs) < max_count -> length out = len ->
  exists a', CFArrayReplaceValues kCFType retain_call a (Z.of_nat location) (Z.of_nat len) out (Z.of_nat len) = Ok (a', retains a out ++ releases a (take len (drop location vs))) /\
    contents a' (take location vs ++ map (stored a) out ++ drop (location + len) vs) /\ mutable a'.
Proof.
  intros Hm H Hr Hb Lo. rewrite <-(drop_drop vs len location).
  destruct (replace_values_spec kCFType retain_call a (take location vs) (take len (drop location vs)) (drop len (drop location vs)) out) as (a' & E & Ha & M & _);
    [done|by rewrite !take_drop|rewrite length_take, !length_drop; lia|].
  exists a'. rewrite !length_take, length_drop, !Nat.min_l, Lo in E by lia. done.
Qed.

(** Whether the callbacks retain without releasing or release without retaining. *)
Definition unbalanced (a : CFArray) : bool := xorb (retain_fn kCFType a =? 0) (release_fn kCFType a =? 0).

Lemma short_sorted (l : list Z) : (length l < 2)%nat -> Sort.stable_sorted cmp l l.
Proof. intros L. split; [|done]. destruct l as [|x [|y l]]; [constructor|repeat constructor|cbn in L; lia]. Qed.

(** The whole of CFArraySortValues. *)
Lemma sort_values_spec (a : CFArray) (vs : list Z) (location len : nat) :
  contents a vs -> (location + len <= length vs)%nat -> Z.of_nat (length vs) < max_count ->
  let sub := take len (drop location vs) in
  exists out, Sort.stable_sorted cmp sub out /\ out ≡ₚ sub /\
    (mutable a -> exists a', mutable a' /\
       if unbalanced a || bool_decide (len < 2)%nat then
         CFArraySortValues kCFType retain_call cmp fresh a (Z.of_nat location) (Z.of_nat len) = Ok (a', []) /\
         contents a' (take location vs ++ out ++ drop (location + len) vs)
       else
         CFArraySortValues kCFType retain_call cmp fresh a (Z.of_nat location) (Z.of_nat len) = Ok (a', retains a out ++ releases a sub) /\
         contents a' (take location vs ++ map (stored a) out ++ drop (location + len) vs)) /\
    (~ mutable a -> CFArraySortValues kCFType retain_call cmp fresh a (Z.of_nat location) (Z.of_nat len) = Ok (a, [])).
Proof.
  intros H Hr Hb sub. destruct (sorted_values_spec a vs location len H Hr Hb) as (out & Es & St). fold sub in St.
  assert (Hc : same_classes sub out) by (intros x; apply (Sort.ss_stable cmp _ _ St)). assert (Ls : length sub = len) by (unfold sub; rewrite length_take, length_drop; lia).
  pose proof (Sort.same_classes_length cmp _ _ Hc) as Lo. pose proof (Sort.same_classes_perm cmp _ _ Hc) as Pe. exists out. split; [done|]. split; [done|].
  assert (Small : (len < 2)%nat -> out = sub).
  { intros L. apply (Sort.sorted_classes_unique cmp); [apply St|apply short_sorted; lia|]. by apply Sort.same_classes_sym. }
  assert (Split : vs = take location vs ++ sub ++ drop (location + len) vs) by (unfold sub; by rewrite <-drop_drop, !take_drop).
  unfold CFArraySortValues. fold (retain_fn kCFType a) (release_fn kCFType a). unfold unbalanced. split.
  - intros Hm. assert (Em : match a_storage a with Immutable _ => true | Deque _ => false end = false) by (unfold mutable in Hm; by destruct (a_storage a)). rewrite Em. cbn [negb andb].
    replace ((negb (retain_fn kCFType a =? 0) && negb (negb (release_fn kCFType a =? 0))) || (negb (negb (retain_fn kCFType a =? 0)) && negb (release_fn kCFType a =? 0)))
      with (xorb (retain_fn kCFType a =? 0) (release_fn kCFType a =? 0)) by (by destruct (retain_fn kCFType a =? 0), (release_fn kCFType a =? 0)).
    destruct (xorb (retain_fn kCFType a =? 0) (release_fn kCFType a =? 0)); cbn [orb].
    + destruct (zsort_spec len a (take location vs) sub [] (drop (location + len) vs)) as (a' & s' & E & H' & (M' & _) & Hc' & S'); [done|by cbn [app]; rewrite <-Split|constructor|intros x y _ []%elem_of_nil|].
      rewrite app_nil_r in S'. rewrite length_take, Nat.min_l in E by lia. rewrite Nat2Z.id, E. cbn [mbind result_bind]. exists a'. split_and!; [by apply M'|done|].
      replace out with s'; [done|]. apply (Sort.sorted_classes_unique cmp); [done|apply St|]. intros x. by rewrite (Hc x), (Hc' x).
    + destruct (Z.ltb_spec (Z.of_nat len) 2) as [G|G]; [rewrite bool_decide_true by lia|rewrite bool_decide_false by lia].
      * exists a. split_and!; [done|done|]. rewrite Small by lia. by rewrite <-Split.
      * rewrite Es. cbn [mbind result_bind]. destruct (replace_sorted a vs out location len Hm H Hr Hb) as (a' & E & Ha & M); [lia|]. exists a'. done.
  - intros Hm. assert (Em : match a_storage a with Immutable _ => true | Deque _ => false end = true) by (unfold mutable in Hm; by destruct (a_storage a)). rewrite Em. cbn [negb andb].
    destruct (Z.of_nat len <? 2); [done|]. by rewrite Es.
Qed.

(** C32. CFArraySortValues puts the stable sort of the range in its place by either of its algorithms,
    the exchange sort for unbalanced callbacks and CFQSortArray otherwise, with the retains and releases
    of the replaced values in the second case only, and leaves an immutable array alone. *)
Theorem sort_values_stable (a : CFArray) (vs : list Z) (location len : nat) :
  contents a vs -> (location + len <= length vs)%nat -> Z.of_nat (length vs) < max_count ->
  let sub := take len (drop location vs) in
  exists out, Sort.stable_sorted cmp sub out /\ out ≡ₚ sub /\
    (mutable a -> exists a', mutable a' /\
       if unbalanced a || bool_decide (len < 2)%nat then
         CFArraySortValues kCFType retain_call cmp fresh a (Z.of_nat location) (Z.of_nat len) = Ok (a', []) /\
         contents a' (take location vs ++ out ++ drop (location + len) vs)
       else
         CFArraySortValues kCFType retain_call cmp fresh a (Z.of_nat location) (Z.of_nat len) = Ok (a', retains a out ++ releases a sub) /\
         contents a' (take location vs ++ map (stored a) out ++ drop (location + len) vs)) /\
    (~ mutable a -> CFArraySortValues kCFType retain_call cmp fresh a (Z.of_nat location) (Z.of_nat len) = Ok (a, [])).
Proof. apply sort_values_spec. Qed.

(** The private variant always sorts a copy. *)
Lemma sort_all_spec (a : CFArray) (vs : list Z) : mutable a -> contents a vs -> Z.of_nat (length vs) < max_count -> (2 <= length vs)%nat ->
  exists out a', Sort.stable_sorted cmp vs out /\ CFArraySortValues_ kCFType retain_call cmp fresh a = Ok (a', retains a out ++ releases a vs) /\ contents a' (map (stored a) out).
Proof.
  intros Hm H Hb L. unfold CFArraySortValues_, CFArrayGetCount. rewrite (contents_count a vs H), (proj2 (Z.ltb_ge _ 2)) by lia.
  destruct (sorted_values_spec a vs 0 (length vs) H ltac:(lia) Hb) as (out & E & St). rewrite drop_0, firstn_all in St. rewrite (E : sorted_values cmp fresh a 0 _ = _). cbn [mbind result_bind].
  assert (Lo : length out = length vs) by (apply (Sort.same_classes_length cmp); intros x; apply (Sort.ss_stable cmp _ _ St)).
  destruct (replace_sorted a vs out 0 (length vs) Hm H ltac:(lia) Hb Lo) as (a' & E' & Ha & _). rewrite drop_0, firstn_all in E'. cbn [take app Nat.add] in Ha. rewrite drop_all, app_nil_r in Ha.
  exists out, a'. split_and!; [done|exact E'|done].
Qed.

End Sorting.

(** ** An array on which the theorem applies *)

#[local] Existing Instance SortN.sample_tens_comparator.

Lemma sample_tens_sign (x y : Z) : SortN.sample_tens x y < 0 <-> 0 < SortN.sample_tens y x.
Proof. unfold SortN.sample_tens. destruct (Z.ltb_spec (x / 10) (y / 10)), (Z.ltb_spec (y / 10) (x / 10)); lia. Qed.

Lemma sort_values_witness :
  exists a', CFArraySortValues sample_type_callbacks sample_retain SortN.sample_tens SortN.sample_fresh
      (mkArray 4 1 HasCustomCallBacks (mkCB 100 0 0 0) (Deque (Some (mkDeque 0 4 [Some 31; Some 25; Some 12; Some 22])))) 1 3 = Ok (a', []) /\ contents a' [31; 12; 25; 22].
Proof.
  destruct (sort_values_stable sample_type_callbacks sample_retain SortN.sample_tens sample_tens_sign SortN.sample_fresh SortN.sample_fresh_length (mkArray 4 1 HasCustomCallBacks (mkCB 100 0 0 0) (Deque (Some (mkDeque 0 4 [Some 31; Some 25; Some 12; Some 22])))) [31; 25; 12; 22] 1 3) as (out & St & _ & Hm & _).
  - split; [done|]. split_and!; [done|done|]. by exists [], [].
  - cbn. lia.
  - vm_compute. reflexivity.
  - destruct (Hm I) as (a' & _ & E & H). exists a'. split; [exact E|]. replace out with [12; 25; 22] in H; [exact H|].
    apply (Sort.sorted_classes_unique SortN.sample_tens); [repeat constructor; unfold Sort.le; vm_compute; congruence|apply St|]. intros x. rewrite (Sort.ss_stable _ _ _ St). cbn [take drop].
    rewrite !filter_cons, filter_nil. destruct (decide (Sort.eqv SortN.sample_tens x 25)) as [[E1 E2]|], (decide (Sort.eqv SortN.sample_tens x 12)) as [[E3 E4]|]; try done.
    exfalso. clear -E1 E2 E3 E4. unfold Sort.le, SortN.sample_tens in *. change (25 / 10) with 2 in *. change (12 / 10) with 1 in *. repeat case_match; lia.
Defined.

End ArraySort.
