(* ===== verification/BasicHash.v ===== *)
(** * CFBasicHash.c: the hash table of CFDictionary, CFSet and CFBag

    Open addressing with three probing styles, tables of prime sizes, optional arrays
    of keys, counts and cached hash codes beside the array of values.  A word of 0
    marks an empty bucket and a word of all ones a deleted one; the two values are
    stored as substitutes.  Callbacks are fields of the table (the code stores their
    index in a global array); the calls that retain and release are logged in [ht_log].
    Callbacks leave the table alone.  The collectable allocator is not used and
    allocations succeed. *)

From stdpp Require Import base list numbers option.
From Stdlib Require Import ZArith Lia.
From S2P Require Import Prelude.

Module BasicHash.

(** ** Tables *)

Definition pad64 (l : list Z) : list Z := l ++ replicate (64 - length l) 0.

Definition CFBasicHashTableSizes : list Z := pad64 [
  0; 3; 7; 13; 23; 41; 71; 127; 191; 251; 383; 631; 1087; 1723;
  2803; 4523; 7351; 11959; 19447; 31231; 50683; 81919; 132607;
  214519; 346607; 561109; 907759; 1468927; 2376191; 3845119;
  6221311; 10066421; 16287743; 26354171; 42641881; 68996069;
  111638519; 180634607; 292272623; 472907251;
  765180413; 1238087663; 2003267557; 3241355263; 5244622819].

Definition CFBasicHashTableCapacities : list Z := pad64 [
  0; 3; 6; 11; 19; 32; 52; 85; 118; 155; 237; 390; 672; 1065;
  1732; 2795; 4543; 7391; 12019; 19302; 31324; 50629; 81956;
  132580; 214215; 346784; 561026; 907847; 1468567; 2376414;
  3844982; 6221390; 10066379; 16287773; 26354132; 42641916;
  68996399; 111638327; 180634415; 292272755;
  472907503; 765180257; 1238087439; 2003267722; 3241355160].

Definition CFBasicHashPrimitiveRoots : list Z := pad64 [
  0; 2; 3; 2; 5; 6; 7; 3; 19; 6; 5; 3; 3; 3;
  2; 5; 6; 3; 3; 6; 2; 3; 3;
  3; 5; 10; 3; 3; 22; 3;
  3; 3; 5; 2; 22; 2;
  11; 5; 5; 2;
  3; 10; 2; 3; 10;
  2; 3; 5; 3;
  3; 2; 7; 2;
  3; 3; 3; 2;
  3; 5; 5;
  2; 3; 2].

(** ** Words *)

Definition kEmpty : Z := 0.
Definition kDeleted : Z := 2 ^ 64 - 1.
Definition CFBasicHashSubABZero : Z := 0xa7baadb1.
Definition CFBasicHashSubABOne : Z := 0xa5baadb9.

Definition decode (w : Z) : Z :=
  if CFBasicHashSubABZero =? w then 0 else if CFBasicHashSubABOne =? w then kDeleted else w.
Definition encode (w : Z) : Z :=
  if 0 =? w then CFBasicHashSubABZero else if kDeleted =? w then CFBasicHashSubABOne else w.

(** ** The table *)

(** [struct __CFBasicHashCallbacks] less the descriptions; a release callback only says
    whether it is there. *)
Record CFBasicHashCallbacks : Type := mkCallbacks {
  retainValue : option (Z -> Z);
  retainKey : option (Z -> Z);
  releaseValue : bool;
  releaseKey : bool;
  equateValues : option (Z -> Z -> bool);
  equateKeys : option (Z -> Z -> bool);
  hashKey : option (Z -> Z);
  getIndirectKey : option (Z -> Z)
}.

(** The bits of [struct __CFBasicHash] that are set at creation, with the immutable bit
    of the base, [null_rc] and [finalized]. *)
Record config : Type := mkConfig {
  is_mutable : bool;
  hash_style : Z;
  has_keys : bool;
  has_counts : bool;
  has_hashes : bool;
  indirect_keys : bool;
  fast_grow : bool;
  null_rc : bool;
  finalized : bool;
  callbacks : CFBasicHashCallbacks
}.

Inductive event : Type :=
| RetainValue (v : Z)
| RetainKey (k : Z)
| ReleaseValue (v : Z)
| ReleaseKey (k : Z).

(** The bits that change and the arrays; a NULL array is empty. *)
Record CFBasicHash : Type := mkHash {
  ht_config : config;
  ht_mutations : Z;
  ht_used : Z;
  ht_deleted : Z;
  ht_idx : Z;
  ht_width : Z;
  ht_values : list Z;
  ht_keys : list Z;
  ht_counts : list Z;
  ht_hashes : list Z;
  ht_log : list event
}.

Definition set_config (c : config) (h : CFBasicHash) : CFBasicHash :=
  mkHash c (ht_mutations h) (ht_used h) (ht_deleted h) (ht_idx h) (ht_width h) (ht_values h) (ht_keys h) (ht_counts h) (ht_hashes h) (ht_log h).
Definition set_values (l : list Z) (h : CFBasicHash) : CFBasicHash :=
  mkHash (ht_config h) (ht_mutations h) (ht_used h) (ht_deleted h) (ht_idx h) (ht_width h) l (ht_keys h) (ht_counts h) (ht_hashes h) (ht_log h).
Definition set_keys (l : list Z) (h : CFBasicHash) : CFBasicHash :=
  mkHash (ht_config h) (ht_mutations h) (ht_used h) (ht_deleted h) (ht_idx h) (ht_width h) (ht_values h) l (ht_counts h) (ht_hashes h) (ht_log h).
Definition set_counts (w : Z) (l : list Z) (h : CFBasicHash) : CFBasicHash :=
  mkHash (ht_config h) (ht_mutations h) (ht_used h) (ht_deleted h) (ht_idx h) w (ht_values h) (ht_keys h) l (ht_hashes h) (ht_log h).
Definition set_hashes (l : list Z) (h : CFBasicHash) : CFBasicHash :=
  mkHash (ht_config h) (ht_mutations h) (ht_used h) (ht_deleted h) (ht_idx h) (ht_width h) (ht_values h) (ht_keys h) (ht_counts h) l (ht_log h).
Definition set_used (u d : Z) (h : CFBasicHash) : CFBasicHash :=
  mkHash (ht_config h) (ht_mutations h) u d (ht_idx h) (ht_width h) (ht_values h) (ht_keys h) (ht_counts h) (ht_hashes h) (ht_log h).
Definition mutate (h : CFBasicHash) : CFBasicHash :=
  mkHash (ht_config h) (u16 (ht_mutations h + 1)) (ht_used h) (ht_deleted h) (ht_idx h) (ht_width h) (ht_values h) (ht_keys h) (ht_counts h) (ht_hashes h) (ht_log h).
Definition emit (e : list event) (h : CFBasicHash) : CFBasicHash :=
  mkHash (ht_config h) (ht_mutations h) (ht_used h) (ht_deleted h) (ht_idx h) (ht_width h) (ht_values h) (ht_keys h) (ht_counts h) (ht_hashes h) (ht_log h ++ e).

Definition cb (h : CFBasicHash) : CFBasicHashCallbacks := callbacks (ht_config h).

(** ** Callbacks *)

Definition CFBasicHashImportValue (h : CFBasicHash) (stack_value : Z) : Z * CFBasicHash :=
  match retainValue (cb h) with
  | Some func => if null_rc (ht_config h) then (stack_value, h) else (func stack_value, emit [RetainValue stack_value] h)
  | None => (stack_value, h)
  end.

Definition CFBasicHashImportKey (h : CFBasicHash) (stack_key : Z) : Z * CFBasicHash :=
  match retainKey (cb h) with
  | Some func => if null_rc (ht_config h) then (stack_key, h) else (func stack_key, emit [RetainKey stack_key] h)
  | None => (stack_key, h)
  end.

Definition CFBasicHashEjectValue (h : CFBasicHash) (stack_value : Z) : CFBasicHash :=
  if negb (releaseValue (cb h)) || null_rc (ht_config h) then h else emit [ReleaseValue stack_value] h.

Definition CFBasicHashEjectKey (h : CFBasicHash) (stack_key : Z) : CFBasicHash :=
  if negb (releaseKey (cb h)) || null_rc (ht_config h) then h else emit [ReleaseKey stack_key] h.

Definition CFBasicHashTestEqualValue (h : CFBasicHash) (a b : Z) : bool :=
  match equateValues (cb h) with None => a =? b | Some func => func a b end.

Definition CFBasicHashTestEqualKey (h : CFBasicHash) (in_coll_key stack_key : Z) : bool :=
  match equateKeys (cb h) with None => in_coll_key =? stack_key | Some func => func in_coll_key stack_key end.

Definition CFBasicHashHashKey (h : CFBasicHash) (stack_key : Z) : Z :=
  match hashKey (cb h) with None => stack_key | Some func => func stack_key end.

Definition CFBasicHashGetIndirectKey (h : CFBasicHash) (coll_key : Z) : Z :=
  match getIndirectKey (cb h) with None => coll_key | Some func => func coll_key end.

(** ** Buckets *)

Definition CFBasicHashGetValue (h : CFBasicHash) (idx : Z) : result Z :=
  val ← aget (ht_values h) idx; Ok (decode val).

Definition CFBasicHashSetValue (h : CFBasicHash) (idx stack_value : Z) (ignoreOld literal : bool) : result CFBasicHash :=
  old_value ← (if ignoreOld then Ok 0 else aget (ht_values h) idx);
  values ← aset (ht_values h) idx (if literal then stack_value else encode stack_value);
  let h := set_values values h in
  Ok (if negb ignoreOld && negb ((old_value =? 0) || (old_value =? kDeleted)) then CFBasicHashEjectValue h (decode old_value) else h).

Definition CFBasicHashGetKey (h : CFBasicHash) (idx : Z) : result Z :=
  if has_keys (ht_config h) then key ← aget (ht_keys h) idx; Ok (decode key)
  else
    stack_value ← CFBasicHashGetValue h idx;
    if indirect_keys (ht_config h) then Ok (CFBasicHashGetIndirectKey h stack_value) else Ok stack_value.

Definition CFBasicHashSetKey (h : CFBasicHash) (idx stack_key : Z) (ignoreOld literal : bool) : result CFBasicHash :=
  if negb (has_keys (ht_config h)) then Halt else
  old_key ← (if ignoreOld then Ok 0 else aget (ht_keys h) idx);
  keys ← aset (ht_keys h) idx (if literal then stack_key else encode stack_key);
  let h := set_keys keys h in
  Ok (if negb ignoreOld && negb ((old_key =? 0) || (old_key =? kDeleted)) then CFBasicHashEjectKey h (decode old_key) else h).

Definition CFBasicHashIsEmptyOrDeleted (h : CFBasicHash) (idx : Z) : result bool :=
  stack_value ← aget (ht_values h) idx; Ok ((0 =? stack_value) || (kDeleted =? stack_value)).

Definition CFBasicHashIsDeleted (h : CFBasicHash) (idx : Z) : result bool :=
  stack_value ← aget (ht_values h) idx; Ok (kDeleted =? stack_value).

(** ** Counts: 1, 2, 4 or 8 bytes wide *)

Definition CFBasicHashGetSlotCount (h : CFBasicHash) (idx : Z) : result Z := aget (ht_counts h) idx.

(** The signed maximum of the width, above which the counts are widened. *)
Definition count_limit (width : Z) : Z := 2 ^ (8 * 2 ^ width - 1) - 1.

Definition CFBasicHashNumBuckets (h : CFBasicHash) : result Z := aget CFBasicHashTableSizes (ht_idx h).

Definition CFBasicHashBumpCounts (h : CFBasicHash) : result CFBasicHash :=
  if ht_width h =? 3 then Halt
  else
    num_buckets ← CFBasicHashNumBuckets h;
    counts ← memmove (replicate (Z.to_nat num_buckets) 0) 0 (ht_counts h) 0 num_buckets;
    Ok (set_counts (ht_width h + 1) counts h).

(** The recursion ends at the widest width. *)
Fixpoint inc_slot_count (fuel : nat) (h : CFBasicHash) (idx : Z) : result CFBasicHash :=
  match fuel with
  | O => NoFuel
  | S fuel =>
    val ← aget (ht_counts h) idx;
    if val <? count_limit (ht_width h) then
      counts ← aset (ht_counts h) idx (val + 1); Ok (set_counts (ht_width h) counts h)
    else h ← CFBasicHashBumpCounts h; inc_slot_count fuel h idx
  end.

Definition CFBasicHashIncSlotCount (h : CFBasicHash) (idx : Z) : result CFBasicHash := inc_slot_count 5 h idx.

Definition CFBasicHashDecSlotCount (h : CFBasicHash) (idx : Z) : result CFBasicHash :=
  val ← aget (ht_counts h) idx;
  counts ← aset (ht_counts h) idx (uwrap (8 * 2 ^ ht_width h) (val - 1));
  Ok (set_counts (ht_width h) counts h).

(** ** Capacities *)

Definition CFBasicHashGetCapacityForNumBuckets (num_buckets_idx : Z) : result Z := aget CFBasicHashTableCapacities num_buckets_idx.

Fixpoint capacity_index (caps : list Z) (idx capacity : Z) : result Z :=
  match caps with
  | [] => Halt
  | c :: caps => if capacity <=? c then Ok idx else capacity_index caps (idx + 1) capacity
  end.

Definition CFBasicHashGetNumBucketsIndexForCapacity (capacity : Z) : result Z :=
  capacity_index CFBasicHashTableCapacities 0 capacity.

Definition CFBasicHashGetNumBuckets (h : CFBasicHash) : result Z := CFBasicHashNumBuckets h.
Definition CFBasicHashGetCapacity (h : CFBasicHash) : result Z := CFBasicHashGetCapacityForNumBuckets (ht_idx h).

(** The fields of an empty result other than [idx] and [count] are not read. *)
Record CFBasicHashBucket : Type := mkBucket { b_idx : Z; b_key : Z; b_value : Z; b_count : Z }.

Definition bucket_count (h : CFBasicHash) (idx : Z) : result Z :=
  if has_counts (ht_config h) then CFBasicHashGetSlotCount h idx else Ok 1.

Definition CFBasicHashGetBucket (h : CFBasicHash) (idx : Z) : result CFBasicHashBucket :=
  vacant ← CFBasicHashIsEmptyOrDeleted h idx;
  if (vacant : bool) then Ok (mkBucket idx 0 0 0)
  else
    count ← bucket_count h idx;
    value ← CFBasicHashGetValue h idx;
    key ← CFBasicHashGetKey h idx;
    Ok (mkBucket idx key value count).

(** ** Probing (CFBasicHashFindBucket.m, included once per style) *)

Definition kCFNotFound : Z := -1.
Definition kLinearHashing : Z := 1.
Definition kDoubleHashing : Z := 2.
Definition kExponentialHashing : Z := 3.

Section Probing.

Context (style num_buckets h1 h2 pr : Z).

(** The next probe and, for the exponential style, the next power of the root. *)
Definition next_probe (probe acc : Z) : Z * Z :=
  if style =? kLinearHashing then
    let probe := u64 (probe + 1) in (if num_buckets <=? probe then u64 (probe - num_buckets) else probe, acc)
  else if style =? kDoubleHashing then
    let probe := u64 (probe + h2) in (if num_buckets <=? probe then u64 (probe - num_buckets) else probe, acc)
  else
    let probe := u64 (h1 + u64 (h2 * acc)) in
    let acc := u64 (acc * pr) in
    (if num_buckets <=? probe then probe mod num_buckets else probe, if num_buckets <=? acc then acc mod num_buckets else acc).

(** [n] probes are left; [keys] is the array that is probed. *)
Fixpoint find_loop (n : nat) (h : CFBasicHash) (keys : list Z) (stack_key hash_code probe acc deleted_idx : Z) : result CFBasicHashBucket :=
  match n with
  | O => Ok (mkBucket deleted_idx 0 0 0)
  | S n =>
    curr_key ← aget keys probe;
    let '(probe', acc') := next_probe probe acc in
    if curr_key =? 0 then Ok (mkBucket (if kCFNotFound =? deleted_idx then probe else deleted_idx) 0 0 0)
    else if curr_key =? kDeleted then
      find_loop n h keys stack_key hash_code probe' acc' (if kCFNotFound =? deleted_idx then probe else deleted_idx)
    else
      let curr_key := decode curr_key in
      let curr_key := if indirect_keys (ht_config h) then CFBasicHashGetIndirectKey h curr_key else curr_key in
      same ← (if curr_key =? stack_key then Ok true
              else
                cached ← (if has_hashes (ht_config h) then hc ← aget (ht_hashes h) probe; Ok (hc =? hash_code) else Ok true);
                Ok (cached && CFBasicHashTestEqualKey h curr_key stack_key));
      if (same : bool) then
        value ← CFBasicHashGetValue h probe;
        count ← bucket_count h probe;
        Ok (mkBucket probe curr_key value count)
      else find_loop n h keys stack_key hash_code probe' acc' deleted_idx
  end.

(** The variant for rehashing, where no bucket is deleted and no key is present. *)
Fixpoint find_free_loop (n : nat) (keys : list Z) (probe acc : Z) : result Z :=
  match n with
  | O => Ok kCFNotFound
  | S n =>
    curr_key ← aget keys probe;
    if curr_key =? 0 then Ok probe
    else let '(probe, acc) := next_probe probe acc in find_free_loop n keys probe acc
  end.

End Probing.

(** The parameters of a probe sequence: number of buckets, start, step and root. *)
Definition probing (idx hash_code : Z) : result (Z * Z * Z * Z) :=
  num_buckets ← aget CFBasicHashTableSizes idx;
  pr ← aget CFBasicHashPrimitiveRoots idx;
  let h1 := hash_code mod num_buckets in
  let h2 := (hash_code / num_buckets) mod num_buckets in
  let h2 := if 0 =? h2 then num_buckets - 1 else h2 in
  Ok (num_buckets, h1, h2, pr).

Definition probed_keys (h : CFBasicHash) : list Z := if has_keys (ht_config h) then ht_keys h else ht_values h.

Definition known_style (h : CFBasicHash) : bool :=
  (hash_style (ht_config h) =? kLinearHashing) || (hash_style (ht_config h) =? kDoubleHashing) || (hash_style (ht_config h) =? kExponentialHashing).

(** __CFBasicHashFindBucket: another style halts. *)
Definition find_bucket (h : CFBasicHash) (stack_key : Z) : result CFBasicHashBucket :=
  if 0 =? ht_idx h then Ok (mkBucket kCFNotFound 0 0 0)
  else if negb (known_style h) then Halt
  else
    let hash_code := CFBasicHashHashKey h stack_key in
    '(num_buckets, h1, h2, pr) ← probing (ht_idx h) hash_code;
    find_loop (hash_style (ht_config h)) num_buckets h1 h2 pr (Z.to_nat num_buckets) h (probed_keys h) stack_key hash_code h1 pr kCFNotFound.

Definition CFBasicHashFindBucket_NoCollision (h : CFBasicHash) (stack_key key_hash : Z) : result Z :=
  if 0 =? ht_idx h then Ok kCFNotFound
  else if negb (known_style h) then Halt
  else
    let hash_code := if key_hash =? 0 then CFBasicHashHashKey h stack_key else key_hash in
    '(num_buckets, h1, h2, pr) ← probing (ht_idx h) hash_code;
    find_free_loop (hash_style (ht_config h)) num_buckets h1 h2 pr (Z.to_nat num_buckets) (probed_keys h) h1 pr.

Definition is_substitute (w : Z) : bool := (CFBasicHashSubABZero =? w) || (CFBasicHashSubABOne =? w).

Definition CFBasicHashFindBucket (h : CFBasicHash) (stack_key : Z) : result CFBasicHashBucket :=
  if is_substitute stack_key then Ok (mkBucket kCFNotFound 0 0 0) else find_bucket h stack_key.

Definition set_null_rc (b : bool) (c : config) : config :=
  mkConfig (is_mutable c) (hash_style c) (has_keys c) (has_counts c) (has_hashes c) (indirect_keys c) (fast_grow c) b (finalized c) (callbacks c).

Definition CFBasicHashSuppressRC (h : CFBasicHash) : CFBasicHash := set_config (set_null_rc true (ht_config h)) h.
Definition CFBasicHashUnsuppressRC (h : CFBasicHash) : CFBasicHash := set_config (set_null_rc false (ht_config h)) h.

(** ** Queries *)

Fixpoint sum_counts (n : nat) (h : CFBasicHash) (idx total : Z) : result Z :=
  match n with
  | O => Ok total
  | S n => c ← CFBasicHashGetSlotCount h idx; sum_counts n h (idx + 1) (total + c)
  end.

Definition CFBasicHashGetCount (h : CFBasicHash) : result Z :=
  if has_counts (ht_config h) then cnt ← CFBasicHashNumBuckets h; sum_counts (Z.to_nat cnt) h 0 0
  else Ok (ht_used h).

Definition CFBasicHashGetCountOfKey (h : CFBasicHash) (stack_key : Z) : result Z :=
  if is_substitute stack_key then Ok 0
  else if 0 =? ht_used h then Ok 0
  else bkt ← find_bucket h stack_key; Ok (b_count bkt).

(** The block of an application acts on [S] and says whether to go on. *)
Fixpoint apply_loop {S} (n : nat) (h : CFBasicHash) (block : CFBasicHashBucket -> S -> result (S * bool)) (used idx : Z) (s : S) : result S :=
  match n with
  | O => Ok s
  | Datatypes.S n =>
    if negb (0 <? used) then Ok s
    else
      bkt ← CFBasicHashGetBucket h idx;
      if 0 <? b_count bkt then
        '(s, go) ← block bkt s;
        if negb go then Ok s else apply_loop n h block (used - 1) (idx + 1) s
      else apply_loop n h block used (idx + 1) s
  end.

Definition CFBasicHashApply {S} (h : CFBasicHash) (block : CFBasicHashBucket -> S -> result (S * bool)) (s : S) : result S :=
  cnt ← CFBasicHashNumBuckets h; apply_loop (Z.to_nat cnt) h block (ht_used h) 0 s.

Fixpoint apply_indexed_loop {S} (n : nat) (h : CFBasicHash) (block : CFBasicHashBucket -> S -> result (S * bool)) (idx : Z) (s : S) : result S :=
  match n with
  | O => Ok s
  | Datatypes.S n =>
    bkt ← CFBasicHashGetBucket h idx;
    if 0 <? b_count bkt then
      '(s, go) ← block bkt s;
      if negb go then Ok s else apply_indexed_loop n h block (idx + 1) s
    else apply_indexed_loop n h block (idx + 1) s
  end.

Definition CFBasicHashApplyIndexed {S} (h : CFBasicHash) (location len : Z) (block : CFBasicHashBucket -> S -> result (S * bool)) (s : S) : result S :=
  if len <? 0 then Halt
  else if len =? 0 then Ok s
  else
    cnt ← CFBasicHashNumBuckets h;
    if cnt <? location + len then Halt else apply_indexed_loop (Z.to_nat len) h block location s.

Definition CFBasicHashGetCountOfValue (h : CFBasicHash) (stack_value : Z) : result Z :=
  if CFBasicHashSubABZero =? stack_value then Ok 0
  else if 0 =? ht_used h then Ok 0
  else if negb (has_keys (ht_config h)) then bkt ← find_bucket h stack_value; Ok (b_count bkt)
  else
    CFBasicHashApply h (fun bkt total =>
      Ok ((if (stack_value =? b_value bkt) || CFBasicHashTestEqualValue h (b_value bkt) stack_value then total + b_count bkt else total), true)) 0.

Definition CFBasicHashesAreEqual (ht1 ht2 : CFBasicHash) : result bool :=
  cnt1 ← CFBasicHashGetCount ht1;
  cnt2 ← CFBasicHashGetCount ht2;
  if negb (cnt1 =? cnt2) then Ok false
  else if 0 =? cnt1 then Ok true
  else
    CFBasicHashApply ht1 (fun bkt1 equal =>
      bkt2 ← find_bucket ht2 (b_key bkt1);
      if negb (b_count bkt1 =? b_count bkt2) then Ok (false, false)
      else if has_keys (ht_config ht1) && negb (b_value bkt1 =? b_value bkt2) && negb (CFBasicHashTestEqualValue ht1 (b_value bkt1) (b_value bkt2))
      then Ok (false, false)
      else Ok (equal, true)) true.

Definition CFBasicHashHash (h : CFBasicHash) : result Z := CFBasicHashGetCount h.

(** The values and keys written to the buffers, each as often as it counts. *)
Fixpoint elements_loop (n : nat) (h : CFBasicHash) (bufferslen used idx : Z) (out : list (Z * Z)) : result (list (Z * Z)) :=
  match n with
  | O => Ok out
  | S n =>
    if negb ((0 <? used) && (Z.of_nat (length out) <? bufferslen)) then Ok out
    else
      bkt ← CFBasicHashGetBucket h idx;
      if 0 <? b_count bkt then
        let room := bufferslen - Z.of_nat (length out) in
        elements_loop n h bufferslen (used - 1) (idx + 1) (out ++ replicate (Z.to_nat (Z.min (b_count bkt) room)) (b_value bkt, b_key bkt))
      else elements_loop n h bufferslen used (idx + 1) out
  end.

Definition CFBasicHashGetElements (h : CFBasicHash) (bufferslen : Z) : result (list (Z * Z)) :=
  cnt ← CFBasicHashNumBuckets h; elements_loop (Z.to_nat cnt) h bufferslen (ht_used h) 0 [].

(** One batch of an enumeration from bucket [state] on: the keys and the new state. *)
Fixpoint enumeration_loop (n : nat) (h : CFBasicHash) (count used state : Z) (items : list Z) : result (list Z * Z) :=
  match n with
  | O => Ok (items, state)
  | S n =>
    if negb ((0 <? used) && (Z.of_nat (length items) <? count)) then Ok (items, state)
    else
      bkt ← CFBasicHashGetBucket h state;
      if 0 <? b_count bkt then enumeration_loop n h count (used - 1) (state + 1) (items ++ [b_key bkt])
      else enumeration_loop n h count used (state + 1) items
  end.

Definition CFBasicHashFastEnumeration (h : CFBasicHash) (state count : Z) : result (list Z * Z) :=
  cnt ← CFBasicHashNumBuckets h; enumeration_loop (Z.to_nat (cnt - state)) h count (ht_used h) state [].

(** ** Emptying *)

Fixpoint drain_loop (n : nat) (h : CFBasicHash) (old_values old_keys : list Z) (idx : Z) : result CFBasicHash :=
  match n with
  | O => Ok h
  | S n =>
    stack_value ← aget old_values idx;
    h ← (if negb (stack_value =? 0) && negb (stack_value =? kDeleted) then
           let h := CFBasicHashEjectValue h (decode stack_value) in
           if has_keys (ht_config h) then old_key ← aget old_keys idx; Ok (CFBasicHashEjectKey h (decode old_key))
           else Ok h
         else Ok h);
    drain_loop n h old_values old_keys (idx + 1)
  end.

(** Without the collector the fields are always cleared. *)
Definition CFBasicHashDrain (h : CFBasicHash) : result CFBasicHash :=
  old_num_buckets ← CFBasicHashNumBuckets h;
  let cleared := mkHash (ht_config h) (u16 (ht_mutations h + 1)) 0 0 0 (ht_width h) [] [] [] [] (ht_log h) in
  drain_loop (Z.to_nat old_num_buckets) cleared (ht_values h) (ht_keys h) 0.

(** ** Rehashing *)

(** Bucket [idx] of the old arrays is put into the new table [h]. *)
Definition rehash_bucket (h old : CFBasicHash) (idx : Z) : result CFBasicHash :=
  stack_value ← aget (ht_values old) idx;
  if negb (stack_value =? 0) && negb (stack_value =? kDeleted) then
    let stack_value := decode stack_value in
    stack_key ← (if has_keys (ht_config h) then k ← aget (ht_keys old) idx; Ok (decode k) else Ok stack_value);
    let stack_key := if indirect_keys (ht_config h) then CFBasicHashGetIndirectKey h stack_value else stack_key in
    old_hash ← (if has_hashes (ht_config h) then aget (ht_hashes old) idx else Ok 0);
    bkt_idx ← CFBasicHashFindBucket_NoCollision h stack_key old_hash;
    h ← CFBasicHashSetValue h bkt_idx stack_value false false;
    h ← (if has_keys (ht_config h) then CFBasicHashSetKey h bkt_idx stack_key false false else Ok h);
    h ← (if has_counts (ht_config h) then
           c ← aget (ht_counts old) idx; counts ← aset (ht_counts h) bkt_idx c; Ok (set_counts (ht_width h) counts h)
         else Ok h);
    (if has_hashes (ht_config h) then hashes ← aset (ht_hashes h) bkt_idx old_hash; Ok (set_hashes hashes h) else Ok h)
  else Ok h.

Fixpoint rehash_loop (n : nat) (h old : CFBasicHash) (idx : Z) : result CFBasicHash :=
  match n with
  | O => Ok h
  | S n => h ← rehash_bucket h old idx; rehash_loop n h old (idx + 1)
  end.

Definition new_array (present : bool) (n : Z) : list Z := if present then replicate (Z.to_nat n) 0 else [].

Definition CFBasicHashRehash (h : CFBasicHash) (newItemCount : Z) : result CFBasicHash :=
  new_num_buckets_idx ←
    (if negb (0 =? newItemCount) then
       let newItemCount := if newItemCount <? 0 then 0 else newItemCount in
       i ← CFBasicHashGetNumBucketsIndexForCapacity (ht_used h + newItemCount);
       Ok (if (1 =? newItemCount) && fast_grow (ht_config h) then i + 1 else i)
     else Ok (ht_idx h));
  new_num_buckets ← aget CFBasicHashTableSizes new_num_buckets_idx;
  old_num_buckets ← aget CFBasicHashTableSizes (ht_idx h);
  let c := ht_config h in
  let new := mkHash c (ht_mutations h) (ht_used h) 0 new_num_buckets_idx (ht_width h)
    (new_array true new_num_buckets) (new_array (has_keys c) new_num_buckets) (new_array (has_counts c) new_num_buckets)
    (new_array (has_hashes c) new_num_buckets) (ht_log h) in
  rehash_loop (Z.to_nat old_num_buckets) new h 0.

(** [used_buckets] is unsigned; [capacity] is compared as a CFIndex. *)
Definition CFBasicHashSetCapacity (h : CFBasicHash) (capacity : Z) : result CFBasicHash :=
  if negb (is_mutable (ht_config h)) then Halt
  else if ht_used h <? capacity then CFBasicHashRehash (mutate h) (capacity - ht_used h)
  else Ok h.

(** ** Adding, replacing and removing at a bucket *)

(** The second half of __CFBasicHashAddValue: bucket [bkt_idx] is written. *)
Definition fill_bucket (h : CFBasicHash) (bkt_idx stack_key stack_value : Z) : result CFBasicHash :=
  let key_hash := if has_hashes (ht_config h) then CFBasicHashHashKey h stack_key else 0 in
  let '(stack_value, h) := CFBasicHashImportValue h stack_value in
  let '(stack_key, h) := if has_keys (ht_config h) then CFBasicHashImportKey h stack_key else (stack_key, h) in
  h ← CFBasicHashSetValue h bkt_idx stack_value false false;
  h ← (if has_keys (ht_config h) then CFBasicHashSetKey h bkt_idx stack_key false false else Ok h);
  h ← (if has_counts (ht_config h) then CFBasicHashIncSlotCount h bkt_idx else Ok h);
  h ← (if has_hashes (ht_config h) then hashes ← aset (ht_hashes h) bkt_idx key_hash; Ok (set_hashes hashes h) else Ok h);
  Ok (set_used (u32 (ht_used h + 1)) (ht_deleted h) h).

Definition add_value_at (h : CFBasicHash) (bkt_idx stack_key stack_value : Z) : result CFBasicHash :=
  let h := mutate h in
  capacity ← CFBasicHashGetCapacity h;
  '(h, bkt_idx) ←
    (if capacity <? u32 (ht_used h + 1) then
       h ← CFBasicHashRehash h 1; i ← CFBasicHashFindBucket_NoCollision h stack_key 0; Ok (h, i)
     else
       deleted ← CFBasicHashIsDeleted h bkt_idx;
       Ok (if (deleted : bool) then set_used (ht_used h) (u16 (ht_deleted h - 1)) h else h, bkt_idx));
  fill_bucket h bkt_idx stack_key stack_value.

Definition replace_value_at (h : CFBasicHash) (bkt_idx stack_key stack_value : Z) : result CFBasicHash :=
  let h := mutate h in
  let '(stack_value, h) := CFBasicHashImportValue h stack_value in
  let '(stack_key, h) := if has_keys (ht_config h) then CFBasicHashImportKey h stack_key else (stack_key, h) in
  h ← CFBasicHashSetValue h bkt_idx stack_value false false;
  if has_keys (ht_config h) then CFBasicHashSetKey h bkt_idx stack_key false false else Ok h.

(** The first half of __CFBasicHashRemoveValue: bucket [bkt_idx] is marked deleted. *)
Definition erase_bucket (h : CFBasicHash) (bkt_idx : Z) : result CFBasicHash :=
  let h := mutate h in
  h ← CFBasicHashSetValue h bkt_idx kDeleted false true;
  h ← (if has_keys (ht_config h) then CFBasicHashSetKey h bkt_idx kDeleted false true else Ok h);
  h ← (if has_counts (ht_config h) then CFBasicHashDecSlotCount h bkt_idx else Ok h);
  h ← (if has_hashes (ht_config h) then hashes ← aset (ht_hashes h) bkt_idx 0; Ok (set_hashes hashes h) else Ok h);
  Ok (set_used (u32 (ht_used h - 1)) (u16 (ht_deleted h + 1)) h).

Definition remove_value_at (h : CFBasicHash) (bkt_idx : Z) : result CFBasicHash :=
  h ← erase_bucket h bkt_idx;
  do_shrink ←
    (if fast_grow (ht_config h) then
       if 5 <? ht_idx h then c ← CFBasicHashGetCapacityForNumBuckets (ht_idx h - 5); Ok (ht_used h <? c) else Ok false
     else
       if 2 <? ht_idx h then c ← CFBasicHashGetCapacityForNumBuckets (ht_idx h - 2); Ok (ht_used h <? c) else Ok false);
  if (do_shrink : bool) then CFBasicHashRehash h (-1)
  else
    num_buckets ← CFBasicHashNumBuckets h;
    if (0 =? ht_deleted h) || ((20 <=? num_buckets) && (num_buckets / 4 <=? ht_deleted h)) then CFBasicHashRehash h 0 else Ok h.

(** ** The mutators *)

Definition CFBasicHashAddValue (h : CFBasicHash) (stack_key stack_value : Z) : result (CFBasicHash * bool) :=
  if negb (is_mutable (ht_config h)) then Halt
  else if is_substitute stack_key then Halt
  else if is_substitute stack_value then Halt
  else
    bkt ← find_bucket h stack_key;
    if 0 <? b_count bkt then
      let h := mutate h in
      if has_counts (ht_config h) && (b_count bkt <? 2 ^ 63 - 1) then h ← CFBasicHashIncSlotCount h (b_idx bkt); Ok (h, true)
      else Ok (h, false)
    else h ← add_value_at h (b_idx bkt) stack_key stack_value; Ok (h, true).

Definition CFBasicHashReplaceValue (h : CFBasicHash) (stack_key stack_value : Z) : result CFBasicHash :=
  if negb (is_mutable (ht_config h)) then Halt
  else if is_substitute stack_key then Halt
  else if is_substitute stack_value then Halt
  else
    bkt ← find_bucket h stack_key;
    if 0 <? b_count bkt then replace_value_at h (b_idx bkt) stack_key stack_value else Ok h.

(** CFBasicHashSetValue, the public function of that name. *)
Definition CFBasicHashSetValue_ (h : CFBasicHash) (stack_key stack_value : Z) : result CFBasicHash :=
  if negb (is_mutable (ht_config h)) then Halt
  else if is_substitute stack_key then Halt
  else if is_substitute stack_value then Halt
  else
    bkt ← find_bucket h stack_key;
    if 0 <? b_count bkt then replace_value_at h (b_idx bkt) stack_key stack_value
    else add_value_at h (b_idx bkt) stack_key stack_value.

(** What CFBasicHashRemoveValue and CFBasicHashRemoveValueAtIndex do with a bucket. *)
Definition remove_bucket (h : CFBasicHash) (bkt : CFBasicHashBucket) : result (CFBasicHash * Z) :=
  if 1 <? b_count bkt then
    let h := mutate h in
    h ← (if has_counts (ht_config h) && (b_count bkt <? 2 ^ 63 - 1) then CFBasicHashDecSlotCount h (b_idx bkt) else Ok h);
    Ok (h, b_count bkt)
  else if 0 <? b_count bkt then h ← remove_value_at h (b_idx bkt); Ok (h, b_count bkt)
  else Ok (h, b_count bkt).

Definition CFBasicHashRemoveValue (h : CFBasicHash) (stack_key : Z) : result (CFBasicHash * Z) :=
  if negb (is_mutable (ht_config h)) then Halt
  else if is_substitute stack_key then Ok (h, 0)
  else bkt ← find_bucket h stack_key; remove_bucket h bkt.

Definition CFBasicHashRemoveValueAtIndex (h : CFBasicHash) (idx : Z) : result (CFBasicHash * Z) :=
  if negb (is_mutable (ht_config h)) then Halt
  else bkt ← CFBasicHashGetBucket h idx; remove_bucket h bkt.

Definition CFBasicHashRemoveAllValues (h : CFBasicHash) : result CFBasicHash :=
  if negb (is_mutable (ht_config h)) then Halt
  else if 0 =? ht_idx h then Ok h
  else CFBasicHashDrain h.

Definition set_finalized (c : config) : config :=
  mkConfig (is_mutable c) (hash_style c) (has_keys c) (has_counts c) (has_hashes c) (indirect_keys c) (fast_grow c) (null_rc c) true (callbacks c).

Definition CFBasicHashDeallocate (h : CFBasicHash) : result CFBasicHash :=
  if finalized (ht_config h) then Halt else CFBasicHashDrain (set_config (set_finalized (ht_config h)) h).

Definition CFBasicHashMakeImmutable (h : CFBasicHash) : CFBasicHash :=
  let c := ht_config h in
  set_config (mkConfig false (hash_style c) (has_keys c) (has_counts c) (has_hashes c) (indirect_keys c) (fast_grow c) (null_rc c) (finalized c) (callbacks c)) h.

(** ** Integer values that are renumbered *)

Fixpoint renumber_up (n : nat) (h : CFBasicHash) (int_value idx : Z) : result CFBasicHash :=
  match n with
  | O => Ok h
  | S n =>
    vacant ← CFBasicHashIsEmptyOrDeleted h idx;
    h ← (if (vacant : bool) then Ok h
         else
           stack_value ← CFBasicHashGetValue h idx;
           if int_value <=? stack_value then h ← CFBasicHashSetValue h idx (u64 (stack_value + 1)) true false; Ok (mutate h)
           else Ok h);
    renumber_up n h int_value (idx + 1)
  end.

Definition CFBasicHashAddIntValueAndInc (h : CFBasicHash) (stack_key int_value : Z) : result (CFBasicHash * bool) :=
  if negb (is_mutable (ht_config h)) then Halt
  else if is_substitute stack_key then Halt
  else if is_substitute int_value then Halt
  else
    bkt ← find_bucket h stack_key;
    if 0 <? b_count bkt then Ok (mutate h, false)
    else
      capacity ← CFBasicHashGetCapacity h;
      '(h, bkt_idx) ←
        (if capacity <? u32 (ht_used h + 1) then
           h ← CFBasicHashRehash h 1; i ← CFBasicHashFindBucket_NoCollision h stack_key 0; Ok (h, i)
         else Ok (h, b_idx bkt));
      cnt ← CFBasicHashNumBuckets h;
      h ← renumber_up (Z.to_nat cnt) h int_value 0;
      h ← add_value_at h bkt_idx stack_key int_value;
      Ok (h, true).

Fixpoint renumber_down (n : nat) (h : CFBasicHash) (int_value idx bkt_idx : Z) : result (CFBasicHash * Z) :=
  match n with
  | O => Ok (h, bkt_idx)
  | S n =>
    vacant ← CFBasicHashIsEmptyOrDeleted h idx;
    '(h, bkt_idx) ←
      (if (vacant : bool) then Ok (h, bkt_idx)
       else
         stack_value ← CFBasicHashGetValue h idx;
         let bkt_idx := if int_value =? stack_value then idx else bkt_idx in
         if int_value <? stack_value then h ← CFBasicHashSetValue h idx (u64 (stack_value - 1)) true false; Ok (mutate h, bkt_idx)
         else Ok (h, bkt_idx));
    renumber_down n h int_value (idx + 1) bkt_idx
  end.

(** The index [~0UL] becomes -1 as a CFIndex. *)
Definition CFBasicHashRemoveIntValueAndDec (h : CFBasicHash) (int_value : Z) : result CFBasicHash :=
  if negb (is_mutable (ht_config h)) then Halt
  else if is_substitute int_value then Halt
  else
    cnt ← CFBasicHashNumBuckets h;
    '(h, bkt_idx) ← renumber_down (Z.to_nat cnt) h int_value 0 (-1);
    remove_value_at h bkt_idx.

(** ** Creation *)

Definition kCFBasicHashHasKeys : Z := Z.shiftl 1 0.
Definition kCFBasicHashHasCounts : Z := Z.shiftl 1 1.
Definition kCFBasicHashHasHashCache : Z := Z.shiftl 1 2.
Definition kCFBasicHashIntegerValues : Z := Z.shiftl 1 6.
Definition kCFBasicHashIntegerKeys : Z := Z.shiftl 1 7.
Definition kCFBasicHashStrongValues : Z := Z.shiftl 1 8.
Definition kCFBasicHashStrongKeys : Z := Z.shiftl 1 9.
Definition kCFBasicHashWeakValues : Z := Z.shiftl 1 10.
Definition kCFBasicHashWeakKeys : Z := Z.shiftl 1 11.
Definition kCFBasicHashIndirectKeys : Z := Z.shiftl 1 12.
Definition kCFBasicHashLinearHashing : Z := Z.shiftl kLinearHashing 13.
Definition kCFBasicHashDoubleHashing : Z := Z.shiftl kDoubleHashing 13.
Definition kCFBasicHashExponentialHashing : Z := Z.shiftl kExponentialHashing 13.
Definition kCFBasicHashAggressiveGrowth : Z := Z.shiftl 1 15.

Definition flag (flags bit : Z) : bool := negb (Z.land flags bit =? 0).

(** The combinations of flags that halt. *)
Definition flags_clash (flags : Z) : bool :=
  let f := flag flags in
  (f kCFBasicHashStrongValues && f kCFBasicHashWeakValues) || (f kCFBasicHashStrongValues && f kCFBasicHashIntegerValues) ||
  (f kCFBasicHashStrongKeys && f kCFBasicHashWeakKeys) || (f kCFBasicHashStrongKeys && f kCFBasicHashIntegerKeys) ||
  (f kCFBasicHashWeakValues && f kCFBasicHashIntegerValues) || (f kCFBasicHashWeakKeys && f kCFBasicHashIntegerKeys) ||
  (f kCFBasicHashIndirectKeys && f kCFBasicHashStrongKeys) || (f kCFBasicHashIndirectKeys && f kCFBasicHashWeakKeys) ||
  (f kCFBasicHashIndirectKeys && f kCFBasicHashIntegerKeys).

Definition CFBasicHashCreate (flags : Z) (callBacks : CFBasicHashCallbacks) : result CFBasicHash :=
  if flags_clash flags then Halt
  else
    Ok (mkHash
      (mkConfig true (Z.land (Z.shiftr flags 13) 3) (flag flags kCFBasicHashHasKeys) (flag flags kCFBasicHashHasCounts)
         (flag flags kCFBasicHashHasHashCache) (flag flags kCFBasicHashIndirectKeys) (flag flags kCFBasicHashAggressiveGrowth)
         false false callBacks)
      1 0 0 0 0 [] [] [] [] []).

(** Bucket [idx] of the source is written to the copy; [old_keys] are the source's. *)
Definition copy_bucket (h src : CFBasicHash) (idx : Z) : result CFBasicHash :=
  stack_value ← aget (ht_values src) idx;
  if negb (stack_value =? 0) && negb (stack_value =? kDeleted) then
    let '(v, h) := CFBasicHashImportValue h (decode stack_value) in
    h ← CFBasicHashSetValue h idx v true false;
    if has_keys (ht_config h) then
      old_key ← aget (ht_keys src) idx;
      let '(k, h) := CFBasicHashImportKey h (decode old_key) in
      CFBasicHashSetKey h idx k true false
    else Ok h
  else
    h ← CFBasicHashSetValue h idx stack_value true true;
    if has_keys (ht_config h) then CFBasicHashSetKey h idx stack_value true true else Ok h.

Fixpoint copy_loop (n : nat) (h src : CFBasicHash) (idx : Z) : result CFBasicHash :=
  match n with
  | O => Ok h
  | S n => h ← copy_bucket h src idx; copy_loop n h src (idx + 1)
  end.

(** The copy is a new mutable object with the bits of the source; its log starts empty. *)
Definition CFBasicHashCreateCopy (src : CFBasicHash) : result CFBasicHash :=
  new_num_buckets ← CFBasicHashNumBuckets src;
  let c := ht_config src in
  let c := mkConfig true (hash_style c) (has_keys c) (has_counts c) (has_hashes c) (indirect_keys c) (fast_grow c) (null_rc c) false (callbacks c) in
  let h := mkHash c 1 (ht_used src) (ht_deleted src) (ht_idx src) (ht_width src)
    (new_array true new_num_buckets) (new_array (has_keys c) new_num_buckets) [] [] [] in
  if 0 =? new_num_buckets then Ok h
  else
    h ← copy_loop (Z.to_nat new_num_buckets) h src 0;
    counts ← (if has_counts c then memmove (replicate (Z.to_nat new_num_buckets) 0) 0 (ht_counts src) 0 new_num_buckets else Ok []);
    hashes ← (if has_hashes c then memmove (replicate (Z.to_nat new_num_buckets) 0) 0 (ht_hashes src) 0 new_num_buckets else Ok []);
    Ok (set_hashes hashes (set_counts (ht_width h) counts h)).

(** ** The global array of callbacks *)

(** [None] where the array has not been filled; a callback is found or appended. *)
Fixpoint ptr_index (ptrs : list Z) (ptr idx : Z) : option Z :=
  match ptrs with
  | [] => None
  | p :: ptrs => if p =? ptr then Some idx else ptr_index ptrs ptr (idx + 1)
  end.

(** [ptrs] are the entries below CFBasicHashCallBackPtrsCount. *)
Definition CFBasicHashGetPtrIndex (ptrs : list Z) (ptr : Z) : result (list Z * Z) :=
  match ptr_index ptrs ptr 0 with
  | Some idx => Ok (ptrs, idx)
  | None => if 1000 <? Z.of_nat (length ptrs) then Halt else Ok (ptrs ++ [ptr], Z.of_nat (length ptrs))
  end.

End BasicHash.
