(* ===== verification/HashProbe.v ===== *)
(** * The probe sequences of CFBasicHashFindBucket.m visit every bucket

    The three probing styles step through the buckets in closed form; the table sizes
    are primes and the listed roots are primitive, which makes the double and the
    exponential style permutations of the buckets too.  Primality and order are checked
    by computation over the tables of the source. *)

From stdpp Require Import base list numbers option.
From Stdlib Require Import ZArith Lia Zdivisibility Zpow_facts.
From S2P Require Import Prelude BasicHash.

Module HashProbe.
Import BasicHash.

(** ** Lists that cover a range *)

Lemma length_below (n : Z) : length (below n) = Z.to_nat n.
Proof. unfold below. by rewrite length_fmap, length_seq. Qed.

Lemma elem_below (n i : Z) : i ∈ below n <-> 0 <= i < n.
Proof.
  unfold below. rewrite list_elem_of_fmap. split.
  - intros (j & -> & Hj%elem_of_seq). lia.
  - intros. exists (Z.to_nat i). rewrite elem_of_seq. lia.
Qed.

Lemma NoDup_below (n : Z) : NoDup (below n).
Proof. apply NoDup_fmap_2_strong; [lia|apply NoDup_seq]. Qed.

Lemma below_cover (l : list Z) (n : Z) :
  NoDup l -> Forall (fun i => 0 <= i < n) l -> length l = Z.to_nat n -> l ≡ₚ below n.
Proof.
  intros N R E. apply submseteq_length_Permutation; [|rewrite length_below; lia].
  apply NoDup_submseteq; [done|]. intros i Hi. apply elem_below. rewrite list.Forall_forall in R. by apply R.
Qed.

(** ** Primality by trial division *)

Fixpoint odd_free (n : nat) (p d : Z) : bool :=
  match n with
  | O => p <? d * d
  | S n => if p mod d =? 0 then false else odd_free n p (d + 2)
  end.

Definition is_prime (p : Z) : bool :=
  (p =? 2) || ((2 <? p) && negb (p mod 2 =? 0) && odd_free (Z.to_nat (Z.sqrt p / 2)) p 3).

Lemma odd_free_spec (n : nat) (p d : Z) :
  odd_free n p d = true -> 0 < d ->
  p < (d + 2 * Z.of_nat n) * (d + 2 * Z.of_nat n) /\ forall i, 0 <= i < Z.of_nat n -> ~ (d + 2 * i | p).
Proof.
  revert d. induction n as [|n IH]; intros d; cbn [odd_free]; intros H Hd.
  - apply Z.ltb_lt in H. split; [|lia]. replace (d + 2 * Z.of_nat 0) with d by lia. done.
  - destruct (Z.eqb_spec (p mod d) 0); [done|]. destruct (IH (d + 2) H ltac:(lia)) as [L F]. split.
    { replace (d + 2 * Z.of_nat (S n)) with (d + 2 + 2 * Z.of_nat n) by lia. done. }
    intros i Hi D. destruct (decide (i = 0)) as [->|].
    + rewrite Z.mul_0_r, Z.add_0_r in D. apply Z.mod_divide in D; lia.
    + apply (F (i - 1)); [lia|]. by replace (d + 2 + 2 * (i - 1)) with (d + 2 * i) by lia.
Qed.

Lemma no_divisor_prime (p : Z) :
  1 < p -> (forall d, 1 < d -> d * d <= p -> ~ (d | p)) -> Z.prime p.
Proof.
  intros Hp H. split; [done|]. intros d Hd [e E].
  assert (0 < e < p) by nia.
  destruct (Z_le_gt_dec (d * d) p).
  - apply (H d); [lia|done|]. by exists e.
  - apply (H e); [nia|nia|]. exists d. lia.
Qed.

Lemma is_prime_spec (p : Z) : is_prime p = true -> Z.prime p.
Proof.
  unfold is_prime. intros [->%Z.eqb_eq|[[H2 Hm]%andb_prop H]%andb_prop]%orb_prop; [apply Z.prime_2|].
  apply Z.ltb_lt in H2. apply negb_true_iff, Z.eqb_neq in Hm. apply odd_free_spec in H as [L F]; [|lia].
  apply no_divisor_prime; [lia|]. intros d Hd Hdd D.
  pose proof (Z.div_mod d 2 ltac:(lia)) as E. pose proof (Z.mod_pos_bound d 2 ltac:(lia)).
  destruct (decide (d mod 2 = 0)).
  - apply Hm, Z.mod_divide; [lia|]. apply Z.divide_trans with d; [|done]. apply Z.mod_divide; lia.
  - apply (F (d / 2 - 1)); [|by replace (3 + 2 * (d / 2 - 1)) with d by lia]. nia.
Qed.

(** ** Orders modulo a prime *)

Section Order.

Context (n a : Z) (Hn : 1 < n).

Lemma one_pow (e k : Z) : 0 <= e -> 0 <= k -> a ^ e mod n = 1 -> a ^ (e * k) mod n = 1.
Proof.
  intros He Hk H. rewrite Z.pow_mul_r, Zpower_mod, H, Z.pow_1_l by lia. apply Z.mod_small; lia.
Qed.

Lemma one_mod (e m : Z) : 0 < e -> 0 <= m -> a ^ e mod n = 1 -> a ^ m mod n = 1 -> a ^ (m mod e) mod n = 1.
Proof.
  intros He Hm H1 H2. pose proof (Z.mod_pos_bound m e He). pose proof (Z.div_pos m e Hm He).
  rewrite (Z.div_mod m e), Z.pow_add_r, Z.mul_mod, one_pow, Z.mul_1_l, Z.mod_mod in H2 by nia. done.
Qed.

Lemma prime_factor (l : list Z) (m : Z) :
  Forall Z.prime l -> 1 < m -> (m | foldr Z.mul 1 l) -> exists q, q ∈ l /\ (q | m).
Proof.
  induction 1 as [|q l Hq _ IH]; intros Hm D; cbn in D.
  - apply Z.divide_1_r in D. lia.
  - destruct (decide (m mod q = 0)) as [M|M]; rewrite Z.mod_divide in M by (pose proof (Z.prime_ge_2 q Hq); lia); [exists q; split; [left|done]|].
    destruct IH as (r & ? & ?); [done| |exists r; split; [by right|done]].
    apply Z.gauss with q; [done|]. rewrite Z.gcd_comm. by apply Z.coprime_prime_l.
Qed.

(** With the factors of [n - 1] the order of [a] is [n - 1]. *)
Lemma full_order (factors : list Z) (e : Z) :
  Forall Z.prime factors -> foldr Z.mul 1 factors = n - 1 -> a ^ (n - 1) mod n = 1 ->
  Forall (fun q => a ^ ((n - 1) / q) mod n <> 1) factors ->
  0 < e < n - 1 -> a ^ e mod n <> 1.
Proof.
  intros HP HF H1 HQ. induction e as [e IH] using (well_founded_induction (Z.lt_wf 0)). intros He H.
  pose proof (Z.mod_pos_bound (n - 1) e ltac:(lia)).
  destruct (decide ((n - 1) mod e = 0)) as [E|].
  2:{ apply (IH ((n - 1) mod e)); [lia|lia|]. apply one_mod; (lia || done). }
  apply Z.mod_divide in E as [m E]; [|lia].
  destruct (prime_factor factors m HP) as (q & Hq & [m' ->]); [nia|rewrite HF, E; apply Z.divide_factor_l|].
  rewrite list.Forall_forall in HP, HQ. pose proof (Z.prime_ge_2 q (HP q Hq)).
  apply (HQ q Hq).
  replace ((n - 1) / q) with (e * m'); [apply one_pow; (nia || done)|].
  apply Z.div_unique_exact; nia.
Qed.

End Order.

(** ** The tables of the source *)

(** The prime factors of each size less one. *)
Definition size_factors : list (list Z) := [
  []; [2]; [2; 3]; [2; 2; 3]; [2; 11]; [2; 2; 2; 5]; [2; 5; 7]; [2; 3; 3; 7]; [2; 5; 19]; [2; 5; 5; 5];
  [2; 191]; [2; 3; 3; 5; 7]; [2; 3; 181]; [2; 3; 7; 41]; [2; 3; 467]; [2; 7; 17; 19]; [2; 3; 5; 5; 7; 7];
  [2; 3; 1993]; [2; 3; 7; 463]; [2; 3; 3; 5; 347]; [2; 3; 8447]; [2; 3; 3; 3; 37; 41]; [2; 3; 3; 53; 139];
  [2; 3; 35753]; [2; 13; 13331]; [2; 2; 3; 19; 23; 107]; [2; 3; 3; 29; 37; 47]; [2; 3; 3; 79; 1033];
  [2; 5; 237619]; [2; 3; 640853]; [2; 3; 5; 207377]; [2; 2; 5; 7; 13; 5531]; [2; 41; 139; 1429];
  [2; 5; 179; 14723]; [2; 2; 2; 3; 5; 269; 1321]; [2; 2; 19; 907843]; [2; 55819259]; [2; 79; 1143257];
  [2; 239; 611449]; [2; 3; 3; 5; 5; 5; 101; 2081]; [2; 2; 79; 449; 5393]; [2; 7; 17; 29; 179381];
  [2; 2; 3; 3; 17; 71; 46103]; [2; 3; 540225877]].

(** The largest index whose size squared fits 64 bits. *)
Definition max_idx : Z := 43.

Definition root_ok (n a : Z) (factors : list Z) : bool :=
  forallb is_prime factors && (foldr Z.mul 1 factors =? n - 1) && (Zpow_mod a (n - 1) n =? 1) &&
  forallb (fun q => negb (Zpow_mod a ((n - 1) / q) n =? 1)) factors.

Definition size_ok (i : nat) : bool :=
  match CFBasicHashTableSizes !! i, CFBasicHashTableCapacities !! i, CFBasicHashPrimitiveRoots !! i, size_factors !! i with
  | Some n, Some c, Some a, Some fs =>
    is_prime n && (n <? 2 ^ 32) && (0 <? a) && (a <? n) && (0 <? c) && (c <=? n) && root_ok n a fs
  | _, _, _, _ => false
  end.

Lemma sizes_checked : forallb size_ok (seq 1 43) = true.
Proof. vm_compute. reflexivity. Qed.

(** What the check gives for one index. *)
Record size_facts (idx n c a : Z) : Prop := mkFacts {
  sf_size : aget CFBasicHashTableSizes idx = Ok n;
  sf_capacity : aget CFBasicHashTableCapacities idx = Ok c;
  sf_root : aget CFBasicHashPrimitiveRoots idx = Ok a;
  sf_prime : Z.prime n;
  sf_small : 1 < n < 2 ^ 32;
  sf_root_range : 0 < a < n;
  sf_capacity_range : 0 < c <= n;
  sf_order : forall e, 0 < e < n - 1 -> a ^ e mod n <> 1
}.

Lemma root_ok_order (n a : Z) (fs : list Z) (e : Z) :
  1 < n -> root_ok n a fs = true -> 0 < e < n - 1 -> a ^ e mod n <> 1.
Proof.
  intros Hn [[[HP HF]%andb_prop H1]%andb_prop HQ]%andb_prop He.
  apply Z.eqb_eq in HF, H1. rewrite Zpow_mod_correct in H1 by lia. rewrite forallb_forall in HP, HQ.
  apply full_order with fs; try done; apply list.Forall_forall; intros q Hq%list_elem_of_In.
  - by apply is_prime_spec, HP.
  - specialize (HQ q Hq). rewrite Zpow_mod_correct in HQ by lia. by apply negb_true_iff, Z.eqb_neq in HQ.
Qed.

Lemma size_facts_exist (idx : Z) : 1 <= idx <= max_idx -> exists n c a, size_facts idx n c a.
Proof.
  unfold max_idx. intros H. pose proof (proj1 (forallb_forall _ _) sizes_checked (Z.to_nat idx)) as C.
  specialize (C ltac:(apply in_seq; lia)). unfold size_ok in C.
  destruct (CFBasicHashTableSizes !! _) as [n|] eqn:En; [|done].
  destruct (CFBasicHashTableCapacities !! _) as [c|] eqn:Ec; [|done].
  destruct (CFBasicHashPrimitiveRoots !! _) as [a|] eqn:Ea; [|done].
  destruct (size_factors !! _) as [fs|]; [|done].
  apply andb_prop in C as [C Hr]. repeat apply andb_prop in C as [C ?].
  apply is_prime_spec in C. pose proof (Z.prime_ge_2 n C).
  exists n, c, a. split; try (apply aget_Ok; split; [lia|done]); try lia; try done.
  intros e. apply root_ok_order with fs; (lia || done).
Qed.

(** ** Closed forms *)

Section Sequence.

Context (style num_buckets h1 h2 pr : Z).

(** The first [n] probes from a state of the loop. *)
Fixpoint probes (n : nat) (probe acc : Z) : list Z :=
  match n with
  | O => []
  | S n => let '(probe', acc') := next_probe style num_buckets h1 h2 pr probe acc in probe :: probes n probe' acc'
  end.

(** The comments of CFBasicHashFindBucket.m. *)
Definition term (i : nat) : Z :=
  if style =? kLinearHashing then (h1 + Z.of_nat i) mod num_buckets
  else if style =? kDoubleHashing then (h1 + Z.of_nat i * h2) mod num_buckets
  else match i with O => h1 | S _ => (h1 + pr ^ Z.of_nat i * h2) mod num_buckets end.

Definition power (i : nat) : Z :=
  if (style =? kLinearHashing) || (style =? kDoubleHashing) then pr else pr ^ Z.of_nat (S i) mod num_buckets.

Context (Hn : 1 < num_buckets < 2 ^ 32) (H1 : 0 <= h1 < num_buckets) (H2 : 0 < h2 < num_buckets)
  (Hpr : 0 < pr < num_buckets).

Lemma wrap_once (x c : Z) :
  0 <= c < num_buckets ->
  (if num_buckets <=? u64 (x mod num_buckets + c) then u64 (u64 (x mod num_buckets + c) - num_buckets) else u64 (x mod num_buckets + c)) =
  (x + c) mod num_buckets.
Proof.
  intros Hc. pose proof (Z.mod_pos_bound x num_buckets ltac:(lia)).
  rewrite (uwrap_small 64 (_ + c)) by (unfold in_u; lia). rewrite <- (Z.add_mod_idemp_l x) by lia.
  destruct (Z.leb_spec num_buckets (x mod num_buckets + c)).
  - rewrite uwrap_small by (unfold in_u; lia). apply Z.mod_unique_pos with 1; lia.
  - symmetry. apply Z.mod_small. lia.
Qed.

Lemma mod_if (x : Z) : 0 <= x -> (if num_buckets <=? x then x mod num_buckets else x) = x mod num_buckets.
Proof. intros. destruct (Z.leb_spec num_buckets x); [done|]. symmetry. apply Z.mod_small. lia. Qed.

Lemma next_probe_term (i : nat) :
  next_probe style num_buckets h1 h2 pr (term i) (power i) = (term (S i), power (S i)).
Proof.
  unfold next_probe, term, power.
  destruct (style =? kLinearHashing); cbn [orb].
  { rewrite wrap_once by lia. do 2 f_equal. lia. }
  destruct (style =? kDoubleHashing); cbn [orb].
  { rewrite wrap_once by lia. do 2 f_equal. lia. }
  set (a := pr ^ Z.of_nat (S i)). assert (0 <= a) by (apply Z.pow_nonneg; lia).
  pose proof (Z.mod_pos_bound a num_buckets ltac:(lia)).
  rewrite (uwrap_small 64 (h2 * _)), (uwrap_small 64 (_ * pr)), (uwrap_small 64 (h1 + _)), !mod_if by (unfold in_u; nia).
  f_equal.
  - rewrite (Z.mul_comm h2), Z.add_mod, Z.mul_mod_idemp_l, <- Z.add_mod by lia. done.
  - rewrite Z.mul_mod_idemp_l by lia. f_equal. unfold a.
    rewrite (Nat2Z.inj_succ (S i)), Z.pow_succ_r by lia. lia.
Qed.

Lemma probes_term (n i : nat) : probes n (term i) (power i) = map term (seq i n).
Proof.
  revert i. induction n as [|n IH]; intros i; cbn [probes seq map]; [done|].
  by rewrite next_probe_term, IH.
Qed.

Lemma probes_start (n : nat) : probes n h1 pr = map term (seq 0 n).
Proof.
  rewrite <- probes_term. f_equal; unfold term, power.
  - change (Z.of_nat 0) with 0. rewrite Z.mul_0_l, Z.add_0_r, Z.mod_small by lia.
    by destruct (_ =? _); [|destruct (_ =? _)].
  - destruct (_ || _); [done|]. rewrite Z.pow_1_r. symmetry. apply Z.mod_small. lia.
Qed.

Lemma term_range (i : nat) : 0 <= term i < num_buckets.
Proof.
  unfold term. destruct (_ =? _); [|destruct (_ =? _)]; [apply Z.mod_pos_bound; lia..|].
  destruct i; [done|apply Z.mod_pos_bound; lia].
Qed.

Context (HP : Z.prime num_buckets) (HO : forall e, 0 < e < num_buckets - 1 -> pr ^ e mod num_buckets <> 1).

Lemma cong_divide (x y : Z) : x mod num_buckets = y mod num_buckets -> (num_buckets | y - x).
Proof. intros E. apply Z.mod_divide; [lia|]. rewrite Zminus_mod, E, Z.sub_diag. by apply Z.mod_0_l; lia. Qed.

Lemma small_coprime (x : Z) : 0 < x < num_buckets -> Z.coprime num_buckets x.
Proof. intros. apply Z.coprime_prime_small; [done|lia]. Qed.

Lemma exponential_apart (i d : Z) :
  0 <= i -> 0 < d < num_buckets - 1 -> ~ (num_buckets | pr ^ i * h2 * (pr ^ d - 1)).
Proof.
  intros Hi Hd D. apply Z.gauss in D.
  2:{ apply Z.coprime_mul_r; [apply Z.coprime_pow_r; [lia|]|]; by apply small_coprime. }
  apply (HO d Hd). apply Z.mod_divide in D; [|lia].
  replace (pr ^ d) with (pr ^ d - 1 + 1) by lia. rewrite <- Z.add_mod_idemp_l, D by lia. apply Z.mod_small. lia.
Qed.

Lemma term_lt_inj (i j : nat) : (i < j)%nat -> Z.of_nat j < num_buckets -> term i <> term j.
Proof.
  intros Hij Hj. unfold term. destruct (_ =? _); [|destruct (_ =? _)].
  - intros E%cong_divide%Z.divide_pos_le; lia.
  - intros E%cong_divide. replace (_ - _) with (h2 * (Z.of_nat j - Z.of_nat i)) in E by lia.
    apply Z.gauss, Z.divide_pos_le in E; [lia|lia|]. by apply small_coprime.
  - destruct j as [|j]; [lia|]. destruct i as [|i]; intros E.
    + rewrite <- (Z.mod_small h1 num_buckets) in E at 1 by lia. apply cong_divide in E as D.
      replace (_ - _) with (pr ^ Z.of_nat (S j) * h2) in D by lia.
      apply Z.gauss, Z.divide_pos_le in D; [lia|lia|]. apply Z.coprime_pow_r; [lia|]. by apply small_coprime.
    + apply cong_divide in E. apply (exponential_apart (Z.of_nat (S i)) (Z.of_nat (S j) - Z.of_nat (S i))); [lia|lia|].
      replace (_ * h2 * _) with (h1 + pr ^ Z.of_nat (S j) * h2 - (h1 + pr ^ Z.of_nat (S i) * h2)); [done|].
      replace (pr ^ Z.of_nat (S j)) with (pr ^ Z.of_nat (S i) * pr ^ (Z.of_nat (S j) - Z.of_nat (S i))); [ring|].
      rewrite <- Z.pow_add_r by lia. f_equal. lia.
Qed.

Lemma probes_NoDup : NoDup (probes (Z.to_nat num_buckets) h1 pr).
Proof.
  rewrite probes_start. apply NoDup_fmap_2_strong; [|apply NoDup_seq].
  intros i j Hi%elem_of_seq Hj%elem_of_seq E. destruct (Nat.lt_trichotomy i j) as [?|[?|?]]; [|done|]; exfalso.
  - apply (term_lt_inj i j); (lia || done).
  - apply (term_lt_inj j i); (lia || done).
Qed.

Lemma probes_range : Forall (fun i => 0 <= i < num_buckets) (probes (Z.to_nat num_buckets) h1 pr).
Proof. rewrite probes_start. apply Forall_fmap, list.Forall_forall. intros i _. apply term_range. Qed.

Lemma length_probes (n : nat) (probe acc : Z) : length (probes n probe acc) = n.
Proof. revert probe acc. induction n; intros; cbn; [done|]. destruct (next_probe _ _ _ _ _ _ _). cbn. by f_equal. Qed.

Lemma probes_cover : probes (Z.to_nat num_buckets) h1 pr ≡ₚ below num_buckets.
Proof. apply below_cover; [apply probes_NoDup|apply probes_range|apply length_probes]. Qed.

End Sequence.

(** ** The path of a hash code through a table *)

Definition path (style idx hash_code : Z) : list Z :=
  match probing idx hash_code with
  | Ok (num_buckets, h1, h2, pr) => probes style num_buckets h1 h2 pr (Z.to_nat num_buckets) h1 pr
  | _ => []
  end.

Lemma probing_Ok (idx hash_code n c a : Z) :
  size_facts idx n c a ->
  exists h1 h2, probing idx hash_code = Ok (n, h1, h2, a) /\ 0 <= h1 < n /\ 0 < h2 < n.
Proof.
  intros F. pose proof (sf_small _ _ _ _ F). unfold probing.
  rewrite (sf_size _ _ _ _ F), (sf_root _ _ _ _ F). cbn [mbind result_bind].
  eexists _, _. split; [done|]. split; [apply Z.mod_pos_bound; lia|].
  pose proof (Z.mod_pos_bound (hash_code / n) n ltac:(lia)).
  destruct (Z.eqb_spec 0 ((hash_code / n) mod n)); lia.
Qed.

Lemma path_permutation (style idx hash_code n : Z) :
  1 <= idx <= max_idx -> aget CFBasicHashTableSizes idx = Ok n -> path style idx hash_code ≡ₚ below n.
Proof.
  intros Hi Hn. destruct (size_facts_exist idx Hi) as (n' & c & a & F).
  pose proof (sf_size _ _ _ _ F) as E. rewrite Hn in E. injection E as <-.
  destruct (probing_Ok idx hash_code n c a F) as (h1 & h2 & P & ? & ?). unfold path. rewrite P.
  destruct F. apply probes_cover; done.
Qed.

Lemma path_elem (style idx hash_code n i : Z) :
  1 <= idx <= max_idx -> aget CFBasicHashTableSizes idx = Ok n -> i ∈ path style idx hash_code <-> 0 <= i < n.
Proof.
  intros Hi Hn. rewrite path_permutation by done. apply elem_below.
Qed.

(** C21. In each of the three styles and at every table size whose square fits a machine word, the
    probes are the terms the comments of the source give, without overflow, and meet every bucket
    exactly once: the sizes are primes and the listed roots are primitive. *)
Theorem probe_sequence_complete (style idx hash_code n : Z) :
  1 <= idx <= max_idx -> aget CFBasicHashTableSizes idx = Ok n ->
  exists h1 h2 pr,
    probing idx hash_code = Ok (n, h1, h2, pr) /\
    path style idx hash_code = map (term style n h1 h2 pr) (seq 0 (Z.to_nat n)) /\
    path style idx hash_code ≡ₚ below n.
Proof.
  intros Hi Hn. destruct (size_facts_exist idx Hi) as (n' & c & a & F).
  pose proof (sf_size _ _ _ _ F) as E. rewrite Hn in E. injection E as <-.
  destruct (probing_Ok idx hash_code n c a F) as (h1 & h2 & P & ? & ?). exists h1, h2, a.
  split_and!; [done| |by apply path_permutation]. unfold path. rewrite P. destruct F. by apply probes_start.
Qed.

Lemma probe_sequence_witness :
  path kExponentialHashing 2 1000000 ≡ₚ below 7 /\ path kDoubleHashing 3 12345 ≡ₚ below 13.
Proof.
  split.
  - destruct (probe_sequence_complete kExponentialHashing 2 1000000 7) as (? & ? & ? & ? & ? & ?); [unfold max_idx; lia|reflexivity|done].
  - destruct (probe_sequence_complete kDoubleHashing 3 12345 13) as (? & ? & ? & ? & ? & ?); [unfold max_idx; lia|reflexivity|done].
Defined.

End HashProbe.
