(* ===== verification/HashTable.v ===== *)
(** * CFBasicHash: the table as a list of slots

    A table stands for a list of slots, one per bucket: empty, deleted, or an entry with
    its key, value and count.  [reps] says how the four arrays hold the slots, [arranged]
    that every entry is reachable along the path of its key and that no two keys are
    equal, [counted] what the counters hold.  Searching, writing and rehashing are
    described on the slots. *)

From stdpp Require Import base list numbers option.
From Stdlib Require Import ZArith Lia.
From S2P Require Import Prelude BasicHash HashProbe.

Module HashTable.
Import BasicHash HashProbe.

(** ** Keys *)

Definition key_eq (c : config) (a b : Z) : bool :=
  match equateKeys (callbacks c) with None => a =? b | Some func => func a b end.
Definition hash_of (c : config) (k : Z) : Z :=
  match hashKey (callbacks c) with None => k | Some func => func k end.

(** The key of a value in a table without an array of keys. *)
Definition key_of (c : config) (v : Z) : Z :=
  if indirect_keys c then match getIndirectKey (callbacks c) with None => v | Some func => func v end else v.

(** What a table relies on: the documented contract of the equality and hash callbacks,
    one of the three styles, and no indirect keys beside an array of keys. *)
Class KeyLaws (c : config) : Prop := {
  key_eq_refl : forall a, key_eq c a a = true;
  key_eq_sym : forall a b, key_eq c a b = true -> key_eq c b a = true;
  key_eq_trans : forall a b d, key_eq c a b = true -> key_eq c b d = true -> key_eq c a d = true;
  key_eq_hash : forall a b, key_eq c a b = true -> hash_of c a = hash_of c b;
  style_known : hash_style c = kLinearHashing \/ hash_style c = kDoubleHashing \/ hash_style c = kExponentialHashing;
  keys_direct : has_keys c = true -> indirect_keys c = false
}.

(** ** Words *)

Lemma encode_occupied (w : Z) : encode w <> 0 /\ encode w <> kDeleted.
Proof.
  unfold encode, CFBasicHashSubABZero, CFBasicHashSubABOne, kDeleted.
  destruct (Z.eqb_spec 0 w); [lia|]. destruct (Z.eqb_spec (2 ^ 64 - 1) w); lia.
Qed.

Lemma encode_vacant (w : Z) : (encode w =? 0) = false /\ (encode w =? kDeleted) = false.
Proof. destruct (encode_occupied w). by split; apply Z.eqb_neq. Qed.

Lemma decode_encode (w : Z) : is_substitute w = false -> decode (encode w) = w.
Proof.
  unfold is_substitute, decode, encode. intros [H0 H1]%orb_false_elim.
  destruct (Z.eqb_spec 0 w) as [<-|]; [done|]. destruct (Z.eqb_spec kDeleted w) as [<-|]; [done|].
  by rewrite H0, H1.
Qed.

(** ** Slots *)

Record entry : Type := mkEntry { e_key : Z; e_value : Z; e_count : Z }.

Inductive slot : Type :=
| Empty
| Deleted
| Full (e : entry).

#[export] Instance entry_eq_dec : EqDecision entry.
Proof. solve_decision. Defined.
#[export] Instance slot_eq_dec : EqDecision slot.
Proof. solve_decision. Defined.

Definition raw_value (s : slot) : Z :=
  match s with Empty => 0 | Deleted => kDeleted | Full e => encode (e_value e) end.
Definition raw_key (s : slot) : Z :=
  match s with Empty => 0 | Deleted => kDeleted | Full e => encode (e_key e) end.
Definition raw_count (s : slot) : Z := match s with Full e => e_count e | _ => 0 end.
Definition raw_hash (c : config) (s : slot) : Z := match s with Full e => hash_of c (e_key e) | _ => 0 end.

Definition slot_entry (s : slot) : option entry := match s with Full e => Some e | _ => None end.
Definition entries (sl : list slot) : list entry := omap slot_entry sl.

Definition array_of (present : bool) (f : slot -> Z) (sl : list slot) : list Z := if present then map f sl else [].

(** What the arrays can hold of an entry. *)
Definition entry_ok (c : config) (width : Z) (e : entry) : Prop :=
  is_substitute (e_value e) = false /\
  (if has_keys c then is_substitute (e_key e) = false else e_key e = key_of c (e_value e)) /\
  1 <= e_count e <= (if has_counts c then count_limit width else 1).

Definition slot_ok (c : config) (width : Z) (s : slot) : Prop :=
  match s with Full e => entry_ok c width e | _ => True end.

Record reps (h : CFBasicHash) (sl : list slot) : Prop := mkReps {
  r_idx : 0 <= ht_idx h <= max_idx;
  r_size : aget CFBasicHashTableSizes (ht_idx h) = Ok (Z.of_nat (length sl));
  r_values : ht_values h = map raw_value sl;
  r_keys : ht_keys h = array_of (has_keys (ht_config h)) raw_key sl;
  r_counts : ht_counts h = array_of (has_counts (ht_config h)) raw_count sl;
  r_hashes : ht_hashes h = array_of (has_hashes (ht_config h)) (raw_hash (ht_config h)) sl;
  r_width : 0 <= ht_width h <= 3;
  r_slots : Forall (slot_ok (ht_config h) (ht_width h)) sl
}.

Definition slot_at (sl : list slot) (i : Z) : option slot := if i <? 0 then None else sl !! Z.to_nat i.

(** Bucket [i] comes on the path before any empty bucket. *)
Definition reachable (sl : list slot) (p : list Z) (i : Z) : Prop :=
  exists p1 p2, p = p1 ++ i :: p2 /\ Forall (fun j => slot_at sl j <> Some Empty) p1.

Definition key_path (c : config) (idx k : Z) : list Z := path (hash_style c) idx (hash_of c k).

Record arranged (c : config) (idx : Z) (sl : list slot) : Prop := mkArranged {
  a_distinct : forall i j e e', slot_at sl i = Some (Full e) -> slot_at sl j = Some (Full e') ->
    key_eq c (e_key e) (e_key e') = true -> i = j;
  a_reachable : forall i e, slot_at sl i = Some (Full e) -> reachable sl (key_path c idx (e_key e)) i
}.

Definition deleted_count (sl : list slot) : Z := Z.of_nat (length (filter (fun s => s = Deleted) sl)).

Record counted (h : CFBasicHash) (sl : list slot) : Prop := mkCounted {
  c_used : ht_used h = Z.of_nat (length (entries sl));
  c_capacity : exists c, aget CFBasicHashTableCapacities (ht_idx h) = Ok c /\ ht_used h <= c;
  c_deleted : ht_deleted h = deleted_count sl;
  c_deleted_range : ht_deleted h < 2 ^ 16
}.

(** The invariant of a table. *)
Record table (h : CFBasicHash) (sl : list slot) : Prop := mkTable {
  t_reps : reps h sl;
  t_arranged : arranged (ht_config h) (ht_idx h) sl;
  t_counted : counted h sl
}.

(** ** Slots and arrays *)

Lemma slot_at_Some (sl : list slot) (i : Z) (s : slot) :
  slot_at sl i = Some s <-> 0 <= i /\ sl !! Z.to_nat i = Some s.
Proof. unfold slot_at. destruct (Z.ltb_spec i 0); [split; [done|lia]|]. split; [done|by intros []]. Qed.

Lemma slot_at_lt (sl : list slot) (i : Z) (s : slot) : slot_at sl i = Some s -> 0 <= i < Z.of_nat (length sl).
Proof. intros [Hi L%lookup_lt_Some]%slot_at_Some. lia. Qed.

Lemma slot_at_ge (sl : list slot) (i : Z) : 0 <= i < Z.of_nat (length sl) -> exists s, slot_at sl i = Some s.
Proof.
  intros H. destruct (lookup_lt_is_Some_2 sl (Z.to_nat i)) as [s Hs]; [lia|]. exists s. apply slot_at_Some. split; [lia|done].
Qed.

Lemma slot_at_elem (sl : list slot) (s : slot) : s ∈ sl -> exists i, slot_at sl i = Some s.
Proof.
  intros [i Hi]%list_elem_of_lookup_1. exists (Z.of_nat i). apply slot_at_Some. rewrite Nat2Z.id. split; [lia|done].
Qed.

Lemma aget_slot (f : slot -> Z) (sl : list slot) (i : Z) (s : slot) :
  slot_at sl i = Some s -> aget (map f sl) i = Ok (f s).
Proof. intros [Hi Hs]%slot_at_Some. apply aget_Ok. split; [done|]. by rewrite list_lookup_fmap, Hs. Qed.

Lemma aset_slot (f : slot -> Z) (sl : list slot) (i : Z) (s : slot) :
  0 <= i < Z.of_nat (length sl) -> aset (map f sl) i (f s) = Ok (map f (<[Z.to_nat i := s]> sl)).
Proof.
  intros Hi. rewrite aset_Ok by (rewrite length_fmap; lia). f_equal. symmetry. apply list_fmap_insert.
Qed.

Lemma slot_at_insert (sl : list slot) (i j : Z) (s : slot) :
  0 <= i < Z.of_nat (length sl) ->
  slot_at (<[Z.to_nat i := s]> sl) j = if decide (i = j) then Some s else slot_at sl j.
Proof.
  intros Hi. unfold slot_at. destruct (decide (i = j)) as [<-|].
  - destruct (Z.ltb_spec i 0); [lia|]. apply list_lookup_insert_eq. lia.
  - destruct (Z.ltb_spec j 0); [done|]. apply list_lookup_insert_ne. lia.
Qed.

Lemma entries_elem (sl : list slot) (e : entry) : e ∈ entries sl <-> exists i, slot_at sl i = Some (Full e).
Proof.
  unfold entries. rewrite list_elem_of_omap. split.
  - intros (s & Hs & E). destruct s; [done|done|]. injection E as ->. by apply slot_at_elem.
  - intros [i [_ H]%slot_at_Some]. exists (Full e). split; [by eapply list_elem_of_lookup_2|done].
Qed.

Section Search.

Context {h : CFBasicHash} {sl : list slot} (R : reps h sl) {L : KeyLaws (ht_config h)}.

#[local] Abbreviation c := (ht_config h).

Lemma slot_entry_ok (i : Z) (e : entry) : slot_at sl i = Some (Full e) -> entry_ok c (ht_width h) e.
Proof.
  intros [_ H]%slot_at_Some. pose proof (r_slots _ _ R) as F. by apply (Forall_lookup_1 _ _ _ _ F) in H.
Qed.

Lemma get_value (i : Z) (e : entry) :
  slot_at sl i = Some (Full e) -> CFBasicHashGetValue h i = Ok (e_value e).
Proof.
  intros H. unfold CFBasicHashGetValue. rewrite (r_values _ _ R), (aget_slot _ _ _ _ H). cbn [mbind result_bind raw_value].
  destruct (slot_entry_ok i e H). by rewrite decode_encode.
Qed.

Lemma get_count (i : Z) (e : entry) : slot_at sl i = Some (Full e) -> bucket_count h i = Ok (e_count e).
Proof.
  intros H. destruct (slot_entry_ok i e H) as (_ & _ & C). unfold bucket_count.
  destruct (has_counts (ht_config h)) eqn:E; [|f_equal; lia].
  unfold CFBasicHashGetSlotCount. rewrite (r_counts _ _ R). unfold array_of. rewrite E. by rewrite (aget_slot _ _ _ _ H).
Qed.

Lemma get_key (i : Z) (e : entry) : slot_at sl i = Some (Full e) -> CFBasicHashGetKey h i = Ok (e_key e).
Proof.
  intros H. destruct (slot_entry_ok i e H) as (_ & K & _). unfold CFBasicHashGetKey.
  destruct (has_keys (ht_config h)) eqn:E.
  - rewrite (r_keys _ _ R). unfold array_of. rewrite E, (aget_slot _ _ _ _ H). cbn [mbind result_bind raw_key].
    by rewrite decode_encode.
  - rewrite (get_value i e H). cbn [mbind result_bind]. rewrite K. unfold key_of. by destruct (indirect_keys _).
Qed.

Lemma get_vacant (i : Z) (s : slot) :
  slot_at sl i = Some s -> CFBasicHashIsEmptyOrDeleted h i = Ok (match s with Full _ => false | _ => true end).
Proof.
  intros H. unfold CFBasicHashIsEmptyOrDeleted. rewrite (r_values _ _ R), (aget_slot _ _ _ _ H). cbn [mbind result_bind].
  destruct s; [done|done|]. cbn [raw_value]. rewrite !(Z.eqb_sym _ (encode _)). by destruct (encode_vacant (e_value e)) as [-> ->].
Qed.

Lemma get_deleted (i : Z) (s : slot) :
  slot_at sl i = Some s -> CFBasicHashIsDeleted h i = Ok (match s with Deleted => true | _ => false end).
Proof.
  intros H. unfold CFBasicHashIsDeleted. rewrite (r_values _ _ R), (aget_slot _ _ _ _ H). cbn [mbind result_bind].
  destruct s; [done|done|]. cbn [raw_value]. rewrite Z.eqb_sym. by destruct (encode_vacant (e_value e)) as [_ ->].
Qed.

(** The bucket of an entry, and of a slot that holds none. *)
Definition bucket_of (i : Z) (e : entry) : CFBasicHashBucket := mkBucket i (e_key e) (e_value e) (e_count e).

Lemma get_bucket (i : Z) (s : slot) :
  slot_at sl i = Some s ->
  CFBasicHashGetBucket h i = Ok (match s with Full e => bucket_of i e | _ => mkBucket i 0 0 0 end).
Proof.
  intros H. unfold CFBasicHashGetBucket. rewrite (get_vacant i s H). cbn [mbind result_bind].
  destruct s; [done|done|]. by rewrite (get_count i e H), (get_value i e H), (get_key i e H).
Qed.

(** ** Searching on slots *)

Fixpoint search (p : list Z) (k deleted_idx : Z) : CFBasicHashBucket :=
  match p with
  | [] => mkBucket deleted_idx 0 0 0
  | i :: p =>
    let vacant_idx := if kCFNotFound =? deleted_idx then i else deleted_idx in
    match slot_at sl i with
    | Some Deleted => search p k vacant_idx
    | Some (Full e) => if key_eq c (e_key e) k then bucket_of i e else search p k deleted_idx
    | _ => mkBucket vacant_idx 0 0 0
    end
  end.

(** The word probed at a full bucket is its key, or the value the key is derived from. *)
Lemma probed_key (i : Z) (e : entry) :
  slot_at sl i = Some (Full e) ->
  exists w, aget (probed_keys h) i = Ok (encode w) /\ is_substitute w = false /\
    (if indirect_keys c then CFBasicHashGetIndirectKey h w else w) = e_key e.
Proof.
  intros H. destruct (slot_entry_ok i e H) as (V & K & _). unfold probed_keys.
  destruct (has_keys (ht_config h)) eqn:E.
  - exists (e_key e). rewrite (r_keys _ _ R). unfold array_of. rewrite E, (aget_slot _ _ _ _ H).
    by rewrite (keys_direct E).
  - exists (e_value e). rewrite (r_values _ _ R), (aget_slot _ _ _ _ H). by rewrite K.
Qed.

Lemma probed_vacant (i : Z) (s : slot) :
  slot_at sl i = Some s -> s = Empty \/ s = Deleted -> aget (probed_keys h) i = Ok (raw_value s).
Proof.
  intros H Hs. unfold probed_keys. destruct (has_keys (ht_config h)) eqn:E.
  - rewrite (r_keys _ _ R). unfold array_of. rewrite E, (aget_slot _ _ _ _ H). by destruct Hs as [-> | ->].
  - by rewrite (r_values _ _ R), (aget_slot _ _ _ _ H).
Qed.

(** The cached hash code only saves calls of the equality callback. *)
Lemma same_key (i k : Z) (e : entry) :
  slot_at sl i = Some (Full e) ->
  (if e_key e =? k then Ok true
   else
     cached ← (if has_hashes c then hc ← aget (ht_hashes h) i; Ok (hc =? hash_of c k) else Ok true);
     Ok (cached && CFBasicHashTestEqualKey h (e_key e) k)) = Ok (key_eq c (e_key e) k).
Proof.
  intros H. destruct (Z.eqb_spec (e_key e) k) as [<-|]; [by rewrite key_eq_refl|].
  change (CFBasicHashTestEqualKey h (e_key e) k) with (key_eq c (e_key e) k).
  destruct (has_hashes (ht_config h)) eqn:E; [|done].
  rewrite (r_hashes _ _ R). unfold array_of. rewrite E, (aget_slot _ _ _ _ H). cbn [mbind result_bind raw_hash]. f_equal.
  destruct (key_eq _ _ k) eqn:Q; [|by rewrite andb_false_r].
  by rewrite (key_eq_hash _ _ Q), Z.eqb_refl.
Qed.

Lemma find_loop_search (style num_buckets h1 h2 pr : Z) (n : nat) (k probe acc deleted_idx : Z) :
  Forall (fun i => 0 <= i < Z.of_nat (length sl)) (probes style num_buckets h1 h2 pr n probe acc) ->
  find_loop style num_buckets h1 h2 pr n h (probed_keys h) k (hash_of c k) probe acc deleted_idx =
  Ok (search (probes style num_buckets h1 h2 pr n probe acc) k deleted_idx).
Proof.
  revert probe acc deleted_idx. induction n as [|n IH]; intros probe acc dl; cbn [probes find_loop]; [done|].
  destruct (next_probe _ _ _ _ _ _ _) as [probe' acc']. intros [Hi F]%Forall_cons_1.
  destruct (slot_at_ge sl probe Hi) as [s Hs]. cbn [search]. rewrite Hs. destruct s as [| |e].
  - by rewrite (probed_vacant _ _ Hs) by auto.
  - rewrite (probed_vacant _ _ Hs) by auto. apply IH. done.
  - destruct (probed_key _ _ Hs) as (w & -> & Hw & Hk). cbn [mbind result_bind].
    destruct (encode_vacant w) as [-> ->]. rewrite decode_encode by done. rewrite Hk, same_key by done.
    cbn [mbind result_bind]. destruct (key_eq c (e_key e) k); [|by apply IH].
    rewrite (get_value _ _ Hs), (get_count _ _ Hs). done.
Qed.

(** ** What a search finds *)

Definition vacant (i : Z) : Prop := slot_at sl i = Some Empty \/ slot_at sl i = Some Deleted.
Definition passed (i : Z) : Prop := slot_at sl i <> Some Empty.
Definition unlike (k i : Z) : Prop := forall e, slot_at sl i = Some (Full e) -> key_eq c (e_key e) k = false.

Inductive searched (p : list Z) (k deleted_idx : Z) : CFBasicHashBucket -> Prop :=
| hit i e p1 p2 :
    p = p1 ++ i :: p2 -> Forall passed p1 -> slot_at sl i = Some (Full e) -> key_eq c (e_key e) k = true ->
    searched p k deleted_idx (bucket_of i e)
| miss p1 p2 i :
    p = p1 ++ p2 -> Forall passed p1 -> Forall (unlike k) p1 ->
    (p2 = [] \/ exists j p3, p2 = j :: p3 /\ slot_at sl j = Some Empty) ->
    (if decide (deleted_idx = kCFNotFound) then
       (vacant i /\ reachable sl p i) \/ (i = kCFNotFound /\ p2 = [] /\ Forall (fun j => ~ vacant j) p1)
     else i = deleted_idx) ->
    searched p k deleted_idx (mkBucket i 0 0 0).

Lemma reachable_cons (p : list Z) (i j : Z) : passed i -> reachable sl p j -> reachable sl (i :: p) j.
Proof. intros H (p1 & p2 & -> & F). exists (i :: p1), p2. split; [done|]. by constructor. Qed.

Lemma searched_cons (p : list Z) (k deleted_idx i : Z) (b : CFBasicHashBucket) :
  passed i -> unlike k i -> ~ vacant i -> searched p k deleted_idx b -> searched (i :: p) k deleted_idx b.
Proof.
  intros Hp Hu Hv [j e p1 p2 -> F S Q|p1 p2 j -> F U P V].
  - apply hit with (i :: p1) p2; [done|by constructor|done..].
  - apply miss with (i :: p1) p2; [done|by constructor|by constructor|done|].
    destruct (decide _); [|done]. destruct V as [[? ?]|(? & ? & ?)]; [left|right]; split_and!; try done.
    + by apply reachable_cons.
    + by constructor.
Qed.

Lemma searched_deleted (p : list Z) (k deleted_idx i : Z) (b : CFBasicHashBucket) :
  slot_at sl i = Some Deleted -> searched p k (if kCFNotFound =? deleted_idx then i else deleted_idx) b ->
  searched (i :: p) k deleted_idx b.
Proof.
  intros Hi H. pose proof (slot_at_lt _ _ _ Hi).
  assert (passed i) by (unfold passed; congruence). assert (unlike k i) by (intros e; congruence).
  destruct H as [j e p1 p2 -> F S Q|p1 p2 j -> F U P V].
  - apply hit with (i :: p1) p2; [done|by constructor|done..].
  - apply miss with (i :: p1) p2; [done|by constructor|by constructor|done|].
    unfold kCFNotFound in *. destruct (Z.eqb_spec (-1) deleted_idx), (decide (deleted_idx = -1)); try lia.
    rewrite decide_False in V by lia. subst. left. split; [by right|]. exists [], (p1 ++ p2). by split.
Qed.

Lemma search_searched (p : list Z) (k deleted_idx : Z) :
  Forall (fun i => 0 <= i < Z.of_nat (length sl)) p -> searched p k deleted_idx (search p k deleted_idx).
Proof.
  intros F. revert deleted_idx. induction F as [|i p Hi F IH]; intros dl; cbn [search].
  { apply miss with [] []; [done|done|done|by left|]. destruct (decide _); [right; by split_and!|done]. }
  destruct (slot_at_ge sl i Hi) as [s Hs]. rewrite Hs. destruct s as [| |e].
  - apply miss with [] (i :: p); [done|done|done|right; by exists i, p|]. unfold kCFNotFound.
    destruct (Z.eqb_spec (-1) dl), (decide (dl = -1)); try lia.
    left. split; [by left|]. exists [], p. by split.
  - by apply searched_deleted.
  - destruct (key_eq c (e_key e) k) eqn:Q; [by apply hit with [] p|].
    apply searched_cons; [unfold passed; congruence|intros e'; congruence|unfold vacant; intros [?|?]; congruence|by apply IH].
Qed.

Lemma before_or_after {A} (l1 l2 r1 r2 : list A) (x y : A) :
  l1 ++ x :: l2 = r1 ++ y :: r2 -> y ∈ l1 \/ x ∈ r1 \/ x = y.
Proof.
  revert r1. induction l1 as [|a l1 IH]; intros [|b r1]; cbn; intros [= -> E].
  - auto.
  - right. left. left.
  - left. left.
  - destruct (IH r1 E) as [?|[?|?]]; [left; by right|right; left; by right|auto].
Qed.

(** A miss means that no entry has the key. *)
Lemma miss_absent (k : Z) (p1 p2 : list Z) :
  arranged c (ht_idx h) sl -> key_path c (ht_idx h) k = p1 ++ p2 -> Forall (unlike k) p1 ->
  (p2 = [] \/ exists j p3, p2 = j :: p3 /\ slot_at sl j = Some Empty) ->
  Forall (fun e => key_eq c (e_key e) k = false) (entries sl).
Proof.
  intros A E U P. apply list.Forall_forall. intros e [i Hi]%entries_elem. destruct (key_eq _ _ _) eqn:Q; [|done].
  rewrite list.Forall_forall in U.
  destruct (a_reachable _ _ _ A i e Hi) as (q1 & q2 & Ep & F). unfold key_path in Ep. rewrite (key_eq_hash _ _ Q) in Ep.
  fold (key_path c (ht_idx h) k) in Ep. rewrite E in Ep. destruct P as [->|(j & p3 & -> & Hj)].
  - rewrite app_nil_r in Ep. rewrite (U i) in Q; [done|subst; apply elem_of_app; right; left|done].
  - rewrite list.Forall_forall in F. destruct (before_or_after _ _ _ _ _ _ Ep) as [I|[I| ->]].
    + by rewrite (U i I e Hi) in Q.
    + by destruct (F j I).
    + congruence.
Qed.

(** The outcome of looking for [k]: its entry, or a place to put it. *)
Inductive located (k : Z) : CFBasicHashBucket -> Prop :=
| present i e : slot_at sl i = Some (Full e) -> key_eq c (e_key e) k = true -> located k (bucket_of i e)
| absent i :
    Forall (fun e => key_eq c (e_key e) k = false) (entries sl) ->
    (vacant i /\ reachable sl (key_path c (ht_idx h) k) i) \/
    (i = kCFNotFound /\ length (entries sl) = length sl) ->
    located k (mkBucket i 0 0 0).

Lemma entries_full : (forall i, 0 <= i < Z.of_nat (length sl) -> ~ vacant i) -> length (entries sl) = length sl.
Proof.
  clear R L. unfold vacant. induction sl as [|s l IH]; intros H; [done|]. cbn. 
  pose proof (H 0 ltac:(cbn; lia)) as H0. destruct s; [by destruct H0; left|by destruct H0; right|]. cbn. f_equal.
  apply IH. intros i Hi HV. apply (H (i + 1)); [cbn; lia|]. unfold slot_at in *.
  destruct (Z.ltb_spec i 0), (Z.ltb_spec (i + 1) 0); try lia.
  by replace (Z.to_nat (i + 1)) with (S (Z.to_nat i)) by lia.
Qed.

Lemma find_bucket_search (k : Z) :
  find_bucket h k = Ok (if 0 =? ht_idx h then mkBucket kCFNotFound 0 0 0 else search (key_path c (ht_idx h) k) k kCFNotFound).
Proof.
  unfold find_bucket. pose proof (r_idx _ _ R). destruct (Z.eqb_spec 0 (ht_idx h)); [done|].
  assert (known_style h = true) as -> by (unfold known_style; destruct style_known as [-> | [-> | ->]]; done).
  destruct (size_facts_exist (ht_idx h)) as (n' & cap & a & F); [lia|].
  destruct (probing_Ok _ (hash_of c k) _ _ _ F) as (h1 & h2 & P & H1 & H2).
  change (CFBasicHashHashKey h k) with (hash_of c k). cbn [negb]. unfold key_path, path. rewrite P. cbn [mbind result_bind].
  apply find_loop_search. pose proof (r_size _ _ R) as E. rewrite (sf_size _ _ _ _ F) in E. injection E as ->.
  destruct F. by apply probes_range.
Qed.

Lemma find_bucket_located (k : Z) :
  arranged c (ht_idx h) sl -> exists b, find_bucket h k = Ok b /\ located k b.
Proof.
  intros A. rewrite find_bucket_search. eexists. split; [done|]. pose proof (r_idx _ _ R). pose proof (r_size _ _ R) as Z.
  destruct (Z.eqb_spec 0 (ht_idx h)) as [E|].
  { rewrite <- E in Z. injection Z as Z. assert (sl = []) as Hs by (apply nil_length_inv; lia).
    apply absent; [rewrite Hs; constructor|right; by rewrite Hs]. }
  assert (forall i, i ∈ key_path c (ht_idx h) k <-> 0 <= i < Z.of_nat (length sl)) as C.
  { intros i. apply path_elem; [lia|done]. }
  destruct (search_searched (key_path c (ht_idx h) k) k kCFNotFound) as [i e p1 p2 E F S Q|p1 p2 i E F U P V].
  - apply list.Forall_forall. intros i Hi. by apply C.
  - by apply present.
  - apply absent; [by apply miss_absent with p1 p2|]. rewrite decide_True in V by done.
    destruct V as [V|(-> & -> & N)]; [by left|right]. split; [done|]. apply entries_full. intros i Hi%C.
    rewrite E, app_nil_r in Hi. rewrite list.Forall_forall in N. by apply N.
Qed.

End Search.

(** ** Writing a slot *)

Definition value_releases (c : config) (s : slot) : list event :=
  match s with Full e => if releaseValue (callbacks c) && negb (null_rc c) then [ReleaseValue (e_value e)] else [] | _ => [] end.
Definition key_releases (c : config) (s : slot) : list event :=
  match s with
  | Full e => if has_keys c && releaseKey (callbacks c) && negb (null_rc c) then [ReleaseKey (e_key e)] else []
  | _ => []
  end.
Definition releases (c : config) (s : slot) : list event := value_releases c s ++ key_releases c s.

Lemma emit_nil (h : CFBasicHash) : emit [] h = h.
Proof. destruct h. unfold emit. cbn. by rewrite app_nil_r. Qed.

Lemma set_value_Ok (h : CFBasicHash) (sl : list slot) (i x w : Z) (s s' : slot) (lit : bool) :
  ht_values h = map raw_value sl -> slot_at sl i = Some s -> slot_ok (ht_config h) w s ->
  (if lit then x else encode x) = raw_value s' ->
  CFBasicHashSetValue h i x false lit =
    Ok (emit (value_releases (ht_config h) s) (set_values (map raw_value (<[Z.to_nat i := s']> sl)) h)).
Proof.
  intros V H O E. pose proof (slot_at_lt _ _ _ H). unfold CFBasicHashSetValue.
  rewrite V, (aget_slot _ _ _ _ H). cbn [mbind result_bind]. rewrite E, aset_slot by done. cbn [mbind result_bind negb andb].
  f_equal. destruct s; [by rewrite emit_nil|by rewrite emit_nil|]. cbn [raw_value]. destruct O as [O _].
  destruct (encode_vacant (e_value e)) as [-> ->]. rewrite decode_encode by done. cbn [orb negb].
  unfold CFBasicHashEjectValue, cb. cbn [ht_config set_values value_releases].
  destruct (releaseValue _), (null_rc _); cbn; try by rewrite emit_nil. done.
Qed.

Lemma set_key_Ok (h : CFBasicHash) (sl : list slot) (i x w : Z) (s s' : slot) (lit : bool) :
  ht_keys h = array_of (has_keys (ht_config h)) raw_key sl -> slot_at sl i = Some s -> slot_ok (ht_config h) w s ->
  (has_keys (ht_config h) = true -> (if lit then x else encode x) = raw_key s') ->
  (if has_keys (ht_config h) then CFBasicHashSetKey h i x false lit else Ok h) =
    Ok (emit (key_releases (ht_config h) s) (set_keys (array_of (has_keys (ht_config h)) raw_key (<[Z.to_nat i := s']> sl)) h)).
Proof.
  intros V H O E. pose proof (slot_at_lt _ _ _ H). unfold CFBasicHashSetKey.
  destruct (has_keys (ht_config h)) eqn:K; cbn [array_of] in *.
  - cbn [negb]. rewrite V, (aget_slot _ _ _ _ H). cbn [mbind result_bind]. rewrite (E eq_refl), aset_slot by done.
    cbn [mbind result_bind negb andb]. f_equal. destruct s; [by rewrite emit_nil|by rewrite emit_nil|]. cbn [raw_key].
    destruct O as (_ & O & _). rewrite K in O.
    destruct (encode_vacant (e_key e)) as [-> ->]. rewrite decode_encode by done. cbn [orb negb].
    unfold CFBasicHashEjectKey, cb. cbn [ht_config set_keys key_releases]. rewrite K.
    destruct (releaseKey _), (null_rc _); cbn; try by rewrite emit_nil. done.
  - f_equal. assert (key_releases (ht_config h) s = []) as -> by (destruct s; cbn; [done|done|by rewrite K]).
    rewrite emit_nil. destruct h. cbn in *. unfold set_keys. cbn. by rewrite V.
Qed.

Lemma set_hash_Ok (h : CFBasicHash) (sl : list slot) (i x : Z) (s' : slot) :
  ht_hashes h = array_of (has_hashes (ht_config h)) (raw_hash (ht_config h)) sl -> 0 <= i < Z.of_nat (length sl) ->
  (has_hashes (ht_config h) = true -> x = raw_hash (ht_config h) s') ->
  (if has_hashes (ht_config h) then hashes ← aset (ht_hashes h) i x; Ok (set_hashes hashes h) else Ok h) =
    Ok (set_hashes (array_of (has_hashes (ht_config h)) (raw_hash (ht_config h)) (<[Z.to_nat i := s']> sl)) h).
Proof.
  intros V H E. destruct (has_hashes (ht_config h)) eqn:K; cbn [array_of] in *.
  - rewrite V, (E eq_refl), aset_slot by done. done.
  - destruct h. cbn in *. unfold set_hashes. cbn. by rewrite V.
Qed.

(** ** Counts *)

Lemma count_limit_mono (w w' : Z) : 0 <= w <= w' -> count_limit w <= count_limit w'.
Proof.
  intros H. unfold count_limit. pose proof (Z.pow_le_mono_r 2 w w' ltac:(lia) ltac:(lia)).
  pose proof (Z.pow_le_mono_r 2 (8 * 2 ^ w - 1) (8 * 2 ^ w' - 1) ltac:(lia) ltac:(lia)). lia.
Qed.

Lemma bump_Ok (h : CFBasicHash) :
  aget CFBasicHashTableSizes (ht_idx h) = Ok (Z.of_nat (length (ht_counts h))) -> ht_width h <> 3 ->
  CFBasicHashBumpCounts h = Ok (set_counts (ht_width h + 1) (ht_counts h) h).
Proof.
  intros N W. unfold CFBasicHashBumpCounts. rewrite (proj2 (Z.eqb_neq _ _) W).
  unfold CFBasicHashNumBuckets. rewrite N. cbn [mbind result_bind]. rewrite Nat2Z.id.
  pose proof (memmove_middle [] (replicate (length (ht_counts h)) 0) [] [] (ht_counts h) []) as M.
  cbn [app] in M. rewrite !app_nil_r in M. rewrite M; [done|done|done| |]; by rewrite length_replicate.
Qed.

(** Widening keeps the counts; one of the widths takes any count below the largest. *)
Lemma inc_slot_count_Ok (fuel : nat) (h : CFBasicHash) (i v : Z) :
  aget CFBasicHashTableSizes (ht_idx h) = Ok (Z.of_nat (length (ht_counts h))) ->
  0 <= ht_width h <= 3 -> 3 - ht_width h < Z.of_nat fuel ->
  aget (ht_counts h) i = Ok v -> v < 2 ^ 63 - 1 ->
  exists w, inc_slot_count fuel h i = Ok (set_counts w (<[Z.to_nat i := v + 1]> (ht_counts h)) h) /\
    ht_width h <= w <= 3 /\ v + 1 <= count_limit w.
Proof.
  revert h. induction fuel as [|fuel IH]; intros h N W F G V; [lia|]. cbn [inc_slot_count]. rewrite G. cbn [mbind result_bind].
  pose proof (proj1 (aget_Ok _ _ _) G) as [? ?%lookup_lt_Some].
  destruct (Z.ltb_spec v (count_limit (ht_width h))).
  - exists (ht_width h). rewrite aset_Ok by lia. split; [done|lia].
  - assert (ht_width h <> 3) by (intros E; rewrite E in *; change (count_limit 3) with (2 ^ 63 - 1) in *; lia).
    rewrite bump_Ok by done. cbn [mbind result_bind].
    destruct (IH (set_counts (ht_width h + 1) (ht_counts h) h)) as (w & E & ? & ?); cbn in *; try done; try lia.
    exists w. rewrite E. split; [done|lia].
Qed.

Lemma inc_count_Ok (h : CFBasicHash) (sl : list slot) (i : Z) (s s' : slot) :
  aget CFBasicHashTableSizes (ht_idx h) = Ok (Z.of_nat (length sl)) -> 0 <= ht_width h <= 3 ->
  ht_counts h = array_of (has_counts (ht_config h)) raw_count sl -> slot_at sl i = Some s ->
  (has_counts (ht_config h) = true -> raw_count s < 2 ^ 63 - 1 /\ raw_count s' = raw_count s + 1) ->
  exists w,
    (if has_counts (ht_config h) then CFBasicHashIncSlotCount h i else Ok h) =
      Ok (set_counts w (array_of (has_counts (ht_config h)) raw_count (<[Z.to_nat i := s']> sl)) h) /\
    ht_width h <= w <= 3 /\ (has_counts (ht_config h) = true -> raw_count s' <= count_limit w).
Proof.
  intros N W V H C. destruct (has_counts (ht_config h)) eqn:K; cbn [array_of] in *.
  - destruct (C eq_refl) as [C1 C2]. unfold CFBasicHashIncSlotCount.
    destruct (inc_slot_count_Ok 5 h i (raw_count s)) as (w & E & ? & ?); try done.
    + by rewrite V, length_fmap.
    + lia.
    + rewrite V. by apply aget_slot.
    + exists w. rewrite E, V, C2. split; [|split; [lia|done]]. do 2 f_equal. rewrite <- C2. symmetry. apply list_fmap_insert.
  - exists (ht_width h). split; [|split; [lia|done]]. destruct h. cbn in *. unfold set_counts. cbn. by rewrite V.
Qed.

Lemma dec_count_Ok (h : CFBasicHash) (sl : list slot) (i : Z) (s s' : slot) :
  0 <= ht_width h <= 3 ->
  ht_counts h = array_of (has_counts (ht_config h)) raw_count sl -> slot_at sl i = Some s ->
  (has_counts (ht_config h) = true -> 1 <= raw_count s <= count_limit (ht_width h) /\ raw_count s' = raw_count s - 1) ->
  (if has_counts (ht_config h) then CFBasicHashDecSlotCount h i else Ok h) =
    Ok (set_counts (ht_width h) (array_of (has_counts (ht_config h)) raw_count (<[Z.to_nat i := s']> sl)) h).
Proof.
  intros W V H C. pose proof (slot_at_lt _ _ _ H). destruct (has_counts (ht_config h)) eqn:K; cbn [array_of] in *.
  - destruct (C eq_refl) as [C1 C2]. unfold CFBasicHashDecSlotCount. rewrite V, (aget_slot _ _ _ _ H). cbn [mbind result_bind].
    rewrite uwrap_small, <- C2, aset_slot by (done || unfold in_u, count_limit in *;
      rewrite (pow2_split (8 * 2 ^ ht_width h)) by (pose proof (pow2_pos (ht_width h)); lia); lia). done.
  - destruct h. cbn in *. unfold set_counts. cbn. by rewrite V.
Qed.

End HashTable.
