(* ===== verification/HashRehash.v ===== *)
(** * CFBasicHash: arrangement and rehashing

    Filling a vacant slot on the path of a key, changing an entry in place and deleting
    one keep a table arranged.  Rehashing moves the entries to a new table: it succeeds
    whenever the new capacity takes them, loses none, calls no callback but the hash
    function and clears the deleted buckets. *)

From stdpp Require Import base list numbers option.
From Stdlib Require Import ZArith Lia.
From S2P Require Import Prelude BasicHash HashProbe HashTable.

Module HashRehash.
Import BasicHash HashProbe HashTable.

(** ** Arrangement *)

Lemma reachable_mono (sl sl' : list slot) (p : list Z) (i : Z) :
  (forall j, slot_at sl' j = Some Empty -> slot_at sl j = Some Empty) -> reachable sl p i -> reachable sl' p i.
Proof.
  intros M (p1 & p2 & -> & F). exists p1, p2. split; [done|]. eapply list.Forall_impl; [apply F|]. cbn. auto.
Qed.

Section Arranged.

Context {c : config} {idx : Z} {sl : list slot} {L : KeyLaws c} (A : arranged c idx sl) (i : Z)
  (Hi : 0 <= i < Z.of_nat (length sl)).

Lemma reachable_insert (s : slot) (p : list Z) (j : Z) :
  s <> Empty -> reachable sl p j -> reachable (<[Z.to_nat i := s]> sl) p j.
Proof.
  intros N. apply reachable_mono. intros j'. rewrite slot_at_insert by done. destruct (decide (i = j')); congruence.
Qed.

Lemma key_path_eq (k k' : Z) : key_eq c k k' = true -> key_path c idx k = key_path c idx k'.
Proof. intros E. unfold key_path. by rewrite (key_eq_hash _ _ E). Qed.

(** A new entry goes to a slot its key reaches. *)
Lemma arranged_add (k : Z) (e : entry) :
  key_eq c (e_key e) k = true -> Forall (fun e' => key_eq c (e_key e') k = false) (entries sl) ->
  reachable sl (key_path c idx k) i -> arranged c idx (<[Z.to_nat i := Full e]> sl).
Proof.
  intros E F P. rewrite list.Forall_forall in F.
  assert (forall j e', slot_at sl j = Some (Full e') -> key_eq c (e_key e') (e_key e) <> true) as N.
  { intros j e' Hj Q. pose proof (key_eq_trans _ _ _ Q E) as Q'. rewrite F in Q' by (apply entries_elem; eauto). done. }
  split.
  - intros j j' e1 e2. rewrite !slot_at_insert by done.
    destruct (decide (i = j)), (decide (i = j')); intros X Y Q; simplify_eq; try done.
    + apply key_eq_sym in Q. by destruct (N _ _ Y).
    + by destruct (N _ _ X).
    + by apply (a_distinct _ _ _ A) with e1 e2.
  - intros j e'. rewrite slot_at_insert by done. destruct (decide (i = j)) as [<-|]; intros H.
    + injection H as <-. rewrite (key_path_eq _ _ E). by apply reachable_insert.
    + apply reachable_insert; [done|]. by apply (a_reachable _ _ _ A).
Qed.

(** An entry changes in place. *)
Lemma arranged_replace (e e' : entry) :
  slot_at sl i = Some (Full e) -> key_eq c (e_key e') (e_key e) = true -> arranged c idx (<[Z.to_nat i := Full e']> sl).
Proof.
  intros S E. split.
  - intros j j' e1 e2. rewrite !slot_at_insert by done.
    destruct (decide (i = j)), (decide (i = j')); intros X Y Q; simplify_eq; try done.
    + apply (a_distinct _ _ _ A) with e e2; [done|done|]. apply key_eq_trans with (e_key e1); [by apply key_eq_sym|done].
    + apply (a_distinct _ _ _ A) with e1 e; [done|done|]. by apply key_eq_trans with (e_key e2).
    + by apply (a_distinct _ _ _ A) with e1 e2.
  - intros j e1. rewrite slot_at_insert by done. destruct (decide (i = j)) as [<-|]; intros H.
    + injection H as <-. rewrite (key_path_eq _ _ E). apply reachable_insert; [done|]. by apply (a_reachable _ _ _ A).
    + apply reachable_insert; [done|]. by apply (a_reachable _ _ _ A).
Qed.

Lemma arranged_delete : arranged c idx (<[Z.to_nat i := Deleted]> sl).
Proof.
  split.
  - intros j j' e1 e2. rewrite !slot_at_insert by done.
    destruct (decide (i = j)), (decide (i = j')); intros X Y Q; simplify_eq. by apply (a_distinct _ _ _ A) with e1 e2.
  - intros j e1. rewrite slot_at_insert by done. destruct (decide (i = j)) as [<-|]; intros H; [done|].
    apply reachable_insert; [done|]. by apply (a_reachable _ _ _ A).
Qed.

End Arranged.

(** ** Entries *)

Lemma entries_insert (sl : list slot) (i : Z) (s s' : slot) :
  slot_at sl i = Some s ->
  exists es1 es2, entries sl = es1 ++ option_list (slot_entry s) ++ es2 /\
    entries (<[Z.to_nat i := s']> sl) = es1 ++ option_list (slot_entry s') ++ es2.
Proof.
  intros [Hi H]%slot_at_Some. exists (entries (take (Z.to_nat i) sl)), (entries (drop (S (Z.to_nat i)) sl)).
  assert (forall l1 x l2, entries (l1 ++ x :: l2) = entries l1 ++ option_list (slot_entry x) ++ entries l2) as D.
  { intros l1 x l2. unfold entries. rewrite omap_app. f_equal. by destruct x. }
  rewrite <- D, take_drop_middle by done. split; [done|]. rewrite insert_take_drop by (by eapply lookup_lt_Some). apply D.
Qed.

Lemma entries_fill (sl : list slot) (i : Z) (e : entry) :
  vacant (sl := sl) i -> entries (<[Z.to_nat i := Full e]> sl) ≡ₚ e :: entries sl.
Proof.
  intros [H|H]; destruct (entries_insert sl i _ (Full e) H) as (es1 & es2 & -> & ->); cbn; symmetry; apply Permutation_middle.
Qed.

Lemma length_entries_lt (sl : list slot) : (length (entries sl) < length sl)%nat -> exists i, vacant (sl := sl) i.
Proof.
  intros H. assert (Empty ∈ sl \/ Deleted ∈ sl) as [E|E].
  - unfold entries in H. induction sl as [|s sl IH]; cbn in H; [lia|]. destruct s; [left; left|right; left|]. cbn in H.
    destruct IH; [lia|left; by right|right; by right].
  - apply slot_at_elem in E as [i Hi]. exists i. by left.
  - apply slot_at_elem in E as [i Hi]. exists i. by right.
Qed.

(** ** A free bucket for a key *)

Section Free.

Context {h : CFBasicHash} {sl : list slot} (R : reps h sl) {L : KeyLaws (ht_config h)}.

Definition fresh_slots (sl : list slot) : Prop := Forall (fun s => s <> Deleted) sl.

Context (N : fresh_slots sl).

(** The first empty bucket of a path. *)
Lemma find_free_loop_Ok (style num_buckets h1 h2 pr : Z) (n : nat) (probe acc : Z) :
  Forall (fun i => 0 <= i < Z.of_nat (length sl)) (probes style num_buckets h1 h2 pr n probe acc) ->
  Exists (fun i => slot_at sl i = Some Empty) (probes style num_buckets h1 h2 pr n probe acc) ->
  exists i, find_free_loop style num_buckets h1 h2 pr n (probed_keys h) probe acc = Ok i /\
    slot_at sl i = Some Empty /\ reachable sl (probes style num_buckets h1 h2 pr n probe acc) i.
Proof.
  revert probe acc. induction n as [|n IH]; intros probe acc; cbn [probes find_free_loop].
  { intros _ E. by apply Exists_nil in E. }
  destruct (next_probe _ _ _ _ _ _ _) as [probe' acc']. intros [Hi F]%Forall_cons_1 E.
  destruct (slot_at_ge sl probe Hi) as [s Hs]. destruct s as [| |e].
  - exists probe. rewrite (probed_vacant R _ _ Hs) by auto. split_and!; [done|done|]. exists [], (probes style num_buckets h1 h2 pr n probe' acc'). by split.
  - apply slot_at_Some in Hs as [_ Hs]. by apply (Forall_lookup_1 _ _ _ _ N) in Hs.
  - destruct (probed_key R _ _ Hs) as (w & -> & _ & _). cbn [mbind result_bind]. destruct (encode_vacant w) as [-> _].
    apply Exists_cons in E as [E|E]; [congruence|]. destruct (IH _ _ F E) as (i & -> & ? & ?).
    exists i. split_and!; [done|done|]. apply reachable_cons; [|done]. unfold passed. congruence.
Qed.

Lemma find_free_Ok (k key_hash : Z) :
  (length (entries sl) < length sl)%nat -> key_hash = 0 \/ key_hash = hash_of (ht_config h) k ->
  exists i, CFBasicHashFindBucket_NoCollision h k key_hash = Ok i /\
    slot_at sl i = Some Empty /\ reachable sl (key_path (ht_config h) (ht_idx h) k) i.
Proof.
  intros Hlt Hh. pose proof (r_idx _ _ R). pose proof (r_size _ _ R) as Z. unfold CFBasicHashFindBucket_NoCollision.
  destruct (Z.eqb_spec 0 (ht_idx h)) as [E|]; [rewrite <- E in Z; injection Z as Z; lia|].
  assert (known_style h = true) as -> by (unfold known_style; destruct style_known as [-> | [-> | ->]]; done).
  assert ((if key_hash =? 0 then CFBasicHashHashKey h k else key_hash) = hash_of (ht_config h) k) as ->.
  { destruct (Z.eqb_spec key_hash 0); [done|]. by destruct Hh. }
  destruct (size_facts_exist (ht_idx h)) as (n' & cap & a & F); [lia|].
  destruct (probing_Ok _ (hash_of (ht_config h) k) _ _ _ F) as (h1 & h2 & P & H1 & H2).
  cbn [negb]. rewrite P. cbn [mbind result_bind].
  assert (key_path (ht_config h) (ht_idx h) k = probes (hash_style (ht_config h)) n' h1 h2 a (Z.to_nat n') h1 a) as K.
  { unfold key_path, path. by rewrite P. }
  rewrite K. apply find_free_loop_Ok; rewrite <- K.
  - apply list.Forall_forall. intros i. unfold key_path. rewrite path_elem by (done || lia). done.
  - destruct (length_entries_lt sl Hlt) as [i [V|V]].
    + apply list.Exists_exists. exists i. split; [|done]. unfold key_path. rewrite path_elem by (done || lia).
      by eapply slot_at_lt.
    + apply slot_at_Some in V as [_ V]. by apply (Forall_lookup_1 _ _ _ _ N) in V.
Qed.

End Free.

(** ** Moving the entries *)

(** Two tables that differ in their arrays only. *)
Record same_rest (h h' : CFBasicHash) : Prop := mkSame {
  s_config : ht_config h' = ht_config h;
  s_mutations : ht_mutations h' = ht_mutations h;
  s_used : ht_used h' = ht_used h;
  s_deleted : ht_deleted h' = ht_deleted h;
  s_idx : ht_idx h' = ht_idx h;
  s_width : ht_width h' = ht_width h;
  s_log : ht_log h' = ht_log h
}.

#[export] Instance same_rest_preorder : PreOrder same_rest.
Proof. split; [done|]. intros h1 h2 h3 [] []. split; congruence. Qed.

(** A table that is being filled. *)
Record filling (h : CFBasicHash) (sl : list slot) : Prop := mkFilling {
  f_reps : reps h sl;
  f_arranged : arranged (ht_config h) (ht_idx h) sl;
  f_fresh : fresh_slots sl
}.

Section Move.

Context {old : CFBasicHash} {slo : list slot} (RO : reps old slo) {L : KeyLaws (ht_config old)}
  (AO : arranged (ht_config old) (ht_idx old) slo).

(** The key that is rehashed. *)
Lemma moved_key (h : CFBasicHash) (idx : Z) (e : entry) :
  ht_config h = ht_config old -> slot_at slo idx = Some (Full e) ->
  exists k, (if has_keys (ht_config h) then k ← aget (ht_keys old) idx; Ok (decode k) else Ok (e_value e)) = Ok k /\
    (if indirect_keys (ht_config h) then CFBasicHashGetIndirectKey h (e_value e) else k) = e_key e.
Proof.
  intros C H. destruct (slot_entry_ok RO idx e H) as (V & K & _). unfold CFBasicHashGetIndirectKey, cb. rewrite C.
  destruct (has_keys (ht_config old)) eqn:E.
  - exists (e_key e). rewrite (r_keys _ _ RO). unfold array_of. rewrite E, (aget_slot _ _ _ _ H). cbn [mbind result_bind raw_key].
    rewrite decode_encode by done. by rewrite (keys_direct E).
  - exists (e_value e). split; [done|]. exact (eq_sym K).
Qed.

Lemma moved_hash (idx : Z) (e : entry) :
  slot_at slo idx = Some (Full e) ->
  exists x, (if has_hashes (ht_config old) then aget (ht_hashes old) idx else Ok 0) = Ok x /\
    (x = 0 \/ x = hash_of (ht_config old) (e_key e)) /\ (has_hashes (ht_config old) = true -> x = hash_of (ht_config old) (e_key e)).
Proof.
  intros H. destruct (has_hashes (ht_config old)) eqn:E.
  - rewrite (r_hashes _ _ RO). unfold array_of. rewrite E, (aget_slot _ _ _ _ H). eexists. split; [done|]. split; [by right|done].
  - exists 0. split; [done|]. split; [by left|done].
Qed.

Lemma moved_count (h : CFBasicHash) (sl : list slot) (idx i : Z) (e : entry) :
  ht_config h = ht_config old -> ht_counts h = array_of (has_counts (ht_config h)) raw_count sl ->
  slot_at slo idx = Some (Full e) -> 0 <= i < Z.of_nat (length sl) ->
  (if has_counts (ht_config h) then
     c ← aget (ht_counts old) idx; counts ← aset (ht_counts h) i c; Ok (set_counts (ht_width h) counts h)
   else Ok h) =
    Ok (set_counts (ht_width h) (array_of (has_counts (ht_config h)) raw_count (<[Z.to_nat i := Full e]> sl)) h).
Proof.
  intros C V H Hi. pose proof (r_counts _ _ RO) as O. rewrite <- C in O.
  destruct (has_counts (ht_config h)) eqn:K; cbn [array_of] in *.
  - rewrite O, (aget_slot _ _ _ _ H). cbn [mbind result_bind]. rewrite V, aset_slot by done. done.
  - destruct h. cbn in *. unfold set_counts. cbn. by rewrite V.
Qed.

Lemma rehash_bucket_Ok (h : CFBasicHash) (sl : list slot) (idx : Z) (e : entry) :
  ht_config h = ht_config old -> ht_width h = ht_width old -> filling h sl ->
  slot_at slo idx = Some (Full e) -> (length (entries sl) < length sl)%nat ->
  Forall (fun e' => key_eq (ht_config old) (e_key e') (e_key e) = false) (entries sl) ->
  exists h' sl', rehash_bucket h old idx = Ok h' /\ filling h' sl' /\ same_rest h h' /\
    entries sl' ≡ₚ e :: entries sl /\ length sl' = length sl.
Proof.
  intros C W [R A N] H Hlt D. pose proof (slot_entry_ok RO idx e H) as O. unfold rehash_bucket.
  rewrite (r_values _ _ RO), (aget_slot _ _ _ _ H). cbn [mbind result_bind raw_value].
  destruct (encode_vacant (e_value e)) as [-> ->]. rewrite decode_encode by apply O. cbn [negb andb].
  destruct (moved_key h idx e C H) as (k & -> & Hk). cbn [mbind result_bind]. rewrite Hk. clear k Hk.
  destruct (moved_hash idx e H) as (x & Hx & Hx0 & Hx1). rewrite C, Hx. cbn [mbind result_bind].
  assert (KeyLaws (ht_config h)) as LH by by rewrite C.
  destruct (find_free_Ok R N (e_key e) x Hlt) as (i & -> & Hi & P); [by rewrite C|]. cbn [mbind result_bind].
  pose proof (slot_at_lt _ _ _ Hi) as Hr.
  rewrite (set_value_Ok h sl i _ (ht_width h) Empty (Full e) false (r_values _ _ R) Hi I eq_refl). cbn [mbind result_bind value_releases].
  rewrite emit_nil. set (h1 := set_values _ h).
  rewrite (set_key_Ok h1 sl i _ (ht_width h) Empty (Full e) false (r_keys _ _ R) Hi I (fun _ => eq_refl)). cbn [mbind result_bind key_releases].
  rewrite emit_nil. set (h2 := set_keys _ h1).
  rewrite (moved_count h2 sl idx i e C (r_counts _ _ R) H Hr). cbn [mbind result_bind]. set (h3 := set_counts _ _ h2).
  rewrite (set_hash_Ok h3 sl i x (Full e) (r_hashes _ _ R) Hr) by (intros E; change (ht_config h3) with (ht_config h) in *; rewrite C in *; auto).
  eexists _, (<[Z.to_nat i := Full e]> sl). split; [done|]. split; [|split; [by destruct h|]].
  - split.
    + destruct R. split; cbn; try done; [by rewrite length_insert|]. apply Forall_insert; [done|]. cbn. by rewrite C, W.
    + cbn. apply arranged_add with (e_key e); [done|done|apply key_eq_refl|by rewrite C|done].
    + apply Forall_insert; [apply N|done].
  - split; [by apply entries_fill; left|apply length_insert].
Qed.

Lemma rehash_vacant (h : CFBasicHash) (idx : Z) :
  vacant (sl := slo) idx -> rehash_bucket h old idx = Ok h.
Proof. intros [H|H]; unfold rehash_bucket; by rewrite (r_values _ _ RO), (aget_slot _ _ _ _ H). Qed.

(** The entries before [idx] have another key than the one at [idx]. *)
Lemma earlier_apart (sl1 sl2 : list slot) (e : entry) :
  slo = sl1 ++ Full e :: sl2 -> Forall (fun e' => key_eq (ht_config old) (e_key e') (e_key e) = false) (entries sl1).
Proof.
  intros E. apply list.Forall_forall. intros e' [i Hi]%entries_elem. destruct (key_eq _ _ _) eqn:Q; [|done].
  pose proof (slot_at_lt _ _ _ Hi). apply slot_at_Some in Hi as [H0 Hi].
  assert (i = Z.of_nat (length sl1)); [|lia].
  apply (a_distinct _ _ _ AO) with e' e; [| |done]; rewrite E; apply slot_at_Some; (split; [lia|]).
  - by apply lookup_app_l_Some.
  - rewrite Nat2Z.id. by apply list_lookup_middle.
Qed.

Lemma rehash_loop_Ok (sl1 sl2 : list slot) (h : CFBasicHash) (sl : list slot) :
  slo = sl1 ++ sl2 -> ht_config h = ht_config old -> ht_width h = ht_width old -> filling h sl ->
  entries sl ≡ₚ entries sl1 -> (length (entries slo) <= length sl)%nat ->
  exists h' sl', rehash_loop (length sl2) h old (Z.of_nat (length sl1)) = Ok h' /\ filling h' sl' /\ same_rest h h' /\
    entries sl' ≡ₚ entries slo /\ length sl' = length sl.
Proof.
  revert sl1 h sl. induction sl2 as [|s sl2 IH]; intros sl1 h sl E C W F P Hle; cbn [length rehash_loop].
  { exists h, sl. rewrite E, app_nil_r. by split_and!. }
  assert (slot_at slo (Z.of_nat (length sl1)) = Some s) as Hs.
  { rewrite E. apply slot_at_Some. split; [lia|]. rewrite Nat2Z.id. by apply list_lookup_middle. }
  assert (forall e, entries (sl1 ++ [Full e]) ≡ₚ e :: entries sl1) as Snoc.
  { intros e. unfold entries. rewrite omap_app. cbn. symmetry. apply Permutation_cons_append. }
  assert (slo = (sl1 ++ [s]) ++ sl2) as E' by by rewrite <- app_assoc.
  replace (Z.of_nat (length sl1) + 1) with (Z.of_nat (length (sl1 ++ [s]))) by (rewrite length_app; cbn; lia).
  assert (s = Empty \/ s = Deleted \/ exists e, s = Full e) as S by (destruct s; eauto).
  destruct S as [->|[->|[e ->]]].
  - rewrite (rehash_vacant h) by by left. cbn [mbind result_bind]. apply (IH _ h sl); try done.
    unfold entries in *. by rewrite omap_app, app_nil_r.
  - rewrite (rehash_vacant h) by by right. cbn [mbind result_bind]. apply (IH _ h sl); try done.
    unfold entries in *. by rewrite omap_app, app_nil_r.
  - destruct (rehash_bucket_Ok h sl _ e C W F Hs) as (h' & sl' & -> & F' & S & P' & Z).
    + rewrite P. rewrite E' in Hle. unfold entries in *. rewrite !omap_app, !length_app in Hle. cbn in Hle. lia.
    + rewrite P. by apply earlier_apart with sl2.
    + cbn [mbind result_bind]. destruct (IH (sl1 ++ [Full e]) h' sl') as (h2 & sl2' & E2 & F2 & S2 & P2 & Z2); try done.
      * by rewrite (s_config _ _ S).
      * by rewrite (s_width _ _ S).
      * by rewrite P', P, Snoc.
      * lia.
      * exists h2, sl2'. split_and!; [done|done|by transitivity h'|done|lia].
Qed.

End Move.

(** ** Capacities *)

(** The capacity of table 42; one more step of an aggressively growing table is 43. *)
Definition max_entries : Z := 1238087439.

Lemma capacity_index_spec (caps : list Z) (idx capacity : Z) (j : nat) (x : Z) :
  caps !! j = Some x -> capacity <= x ->
  exists i y, (i <= j)%nat /\ caps !! i = Some y /\ capacity <= y /\ capacity_index caps idx capacity = Ok (idx + Z.of_nat i) /\
    forall i' z, (i' < i)%nat -> caps !! i' = Some z -> z < capacity.
Proof.
  revert idx j. induction caps as [|c caps IH]; intros idx j Hj Hx; [done|]. cbn [capacity_index].
  destruct (Z.leb_spec capacity c).
  - exists 0%nat, c. split_and!; [lia|done|done|f_equal; lia|lia].
  - destruct j as [|j]; [cbn in Hj; simplify_eq; lia|]. destruct (IH (idx + 1) j Hj Hx) as (i & y & ? & ? & ? & E & M).
    exists (S i), y. split_and!; [lia|done|done|rewrite E; f_equal; lia|].
    intros [|i'] z Hi Hz; [cbn in Hz; simplify_eq; lia|]. apply (M i'); [lia|done].
Qed.

(** The smallest table that takes [capacity] entries. *)
Lemma index_for_capacity (capacity : Z) :
  capacity <= max_entries ->
  exists i c, CFBasicHashGetNumBucketsIndexForCapacity capacity = Ok i /\ 0 <= i <= 42 /\
    aget CFBasicHashTableCapacities i = Ok c /\ capacity <= c /\
    (forall j d, 0 <= j < i -> aget CFBasicHashTableCapacities j = Ok d -> d < capacity).
Proof.
  intros H. destruct (capacity_index_spec CFBasicHashTableCapacities 0 capacity 42 max_entries eq_refl H) as (i & y & ? & ? & ? & ? & M).
  exists (Z.of_nat i), y. split_and!; [done|lia|lia|by apply aget_nat|done|].
  intros j d Hj [_ Hd]%aget_Ok. apply (M (Z.to_nat j)); [lia|done].
Qed.

Lemma capacity_step (i c : Z) :
  0 <= i <= 42 -> aget CFBasicHashTableCapacities i = Ok c ->
  exists d, aget CFBasicHashTableCapacities (i + 1) = Ok d /\ c < d.
Proof.
  intros Hi Hc.
  pose proof (below_spec 43 (fun i => match aget CFBasicHashTableCapacities i, aget CFBasicHashTableCapacities (i + 1) with
    | Ok c, Ok d => c <? d | _, _ => false end) i eq_refl ltac:(lia)) as B. cbv beta in B. rewrite Hc in B.
  destruct (aget _ (i + 1)) as [d| | |]; try done. exists d. split; [done|lia].
Qed.

Lemma capacity_size (i c : Z) :
  0 <= i <= max_idx -> aget CFBasicHashTableCapacities i = Ok c ->
  exists n, aget CFBasicHashTableSizes i = Ok n /\ 0 <= c <= n /\ n < 2 ^ 32.
Proof.
  intros Hi Hc. destruct (decide (i = 0)) as [-> |Hne]; [exists 0; injection Hc as <-; split; [done|lia]|].
  destruct (size_facts_exist i) as (n & c' & a & F); [lia|]. exists n. split; [apply F|].
  pose proof (sf_capacity _ _ _ _ F). pose proof (sf_capacity_range _ _ _ _ F). pose proof (sf_small _ _ _ _ F).
  assert (c = c') by congruence. lia.
Qed.

(** ** Rehashing *)

Definition empty_slots (n : Z) : list slot := replicate (Z.to_nat n) Empty.

Lemma entries_empty (n : Z) : entries (empty_slots n) = [].
Proof. unfold entries, empty_slots. by induction (Z.to_nat n). Qed.

Lemma slot_at_empty (n i : Z) (s : slot) : slot_at (empty_slots n) i = Some s -> s = Empty.
Proof. intros [_ [? _]%lookup_replicate]%slot_at_Some. done. Qed.

Lemma new_array_of (present : bool) (f : slot -> Z) (n : Z) : f Empty = 0 -> new_array present n = array_of present f (empty_slots n).
Proof. intros E. unfold new_array, array_of, empty_slots. destruct present; [|done]. rewrite fmap_replicate. by rewrite E. Qed.

(** The table before the entries are moved. *)
Definition blank (h : CFBasicHash) (idx n : Z) : CFBasicHash :=
  let c := ht_config h in
  mkHash c (ht_mutations h) (ht_used h) 0 idx (ht_width h) (new_array true n) (new_array (has_keys c) n)
    (new_array (has_counts c) n) (new_array (has_hashes c) n) (ht_log h).

Lemma blank_filling (h : CFBasicHash) (idx n : Z) :
  0 <= idx <= max_idx -> 0 <= ht_width h <= 3 -> aget CFBasicHashTableSizes idx = Ok n -> 0 <= n ->
  filling (blank h idx n) (empty_slots n).
Proof.
  intros Hi Hw Hn H0. split; [split|split|]; cbn; try done.
  - unfold empty_slots. by rewrite length_replicate, Z2Nat.id.
  - by apply (new_array_of true).
  - by apply new_array_of.
  - by apply new_array_of.
  - by apply new_array_of.
  - by apply Forall_replicate.
  - intros i j e e' Hs%slot_at_empty. done.
  - intros i e Hs%slot_at_empty. done.
  - by apply Forall_replicate.
Qed.

Lemma fresh_deleted (sl : list slot) : fresh_slots sl -> deleted_count sl = 0.
Proof.
  unfold deleted_count. induction 1 as [|s sl Hs _ IH]; [done|]. by rewrite filter_cons_False.
Qed.

Record rehashed (h : CFBasicHash) (sl : list slot) (h' : CFBasicHash) (sl' : list slot) : Prop := mkRehashed {
  rh_table : table h' sl';
  rh_fresh : fresh_slots sl';
  rh_entries : entries sl' ≡ₚ entries sl;
  rh_config : ht_config h' = ht_config h;
  rh_used : ht_used h' = ht_used h;
  rh_mutations : ht_mutations h' = ht_mutations h;
  rh_log : ht_log h' = ht_log h
}.

Section Rehash.

Context {h : CFBasicHash} {sl : list slot} {L : KeyLaws (ht_config h)} (R : reps h sl)
  (A : arranged (ht_config h) (ht_idx h) sl) (U : ht_used h = Z.of_nat (length (entries sl))).

Lemma move_Ok (idx n c : Z) :
  0 <= idx <= max_idx -> aget CFBasicHashTableSizes idx = Ok n -> aget CFBasicHashTableCapacities idx = Ok c ->
  ht_used h <= c ->
  exists h' sl', rehash_loop (length sl) (blank h idx n) h 0 = Ok h' /\ ht_idx h' = idx /\ rehashed h sl h' sl'.
Proof.
  intros Hi Hn Hc Hu. destruct (capacity_size idx c Hi Hc) as (n' & En & ? & ?). rewrite Hn in En. injection En as <-.
  pose proof (blank_filling h idx n Hi (r_width _ _ R) Hn ltac:(lia)) as F.
  assert (length (empty_slots n) = Z.to_nat n) as Z by apply length_replicate.
  destruct (rehash_loop_Ok R A [] sl (blank h idx n) (empty_slots n)) as (h' & sl' & E & [R' A' F'] & S & P & _); try done.
  { by rewrite entries_empty. }
  { rewrite Z. lia. }
  exists h', sl'. destruct S as [Sc Sm Su Sd Si Sw Sl]. split_and!; [done|done|]. split; try done.
  split; [done|done|]. split.
  - by rewrite Su, P.
  - exists c. rewrite Si, Su. done.
  - rewrite Sd. symmetry. by apply fresh_deleted.
  - rewrite Sd. cbn. lia.
Qed.

(** Growing by [n] items, or shrinking where [n] is negative. *)
Lemma rehash_grow (n : Z) :
  n <> 0 -> ht_used h + Z.max 0 n <= max_entries ->
  exists h' sl', CFBasicHashRehash h n = Ok h' /\ rehashed h sl h' sl' /\
    exists c, aget CFBasicHashTableCapacities (ht_idx h') = Ok c /\ ht_used h + Z.max 0 n <= c.
Proof.
  intros Hn Hm. unfold CFBasicHashRehash. destruct (Z.eqb_spec 0 n); [lia|]. cbn [negb].
  destruct (index_for_capacity (ht_used h + Z.max 0 n) Hm) as (i & c & E & Hi & Hc & Hle & _).
  replace (if n <? 0 then 0 else n) with (Z.max 0 n) by (destruct (Z.ltb_spec n 0); lia).
  rewrite E. cbn [mbind result_bind].
  assert (exists i' c', (if (1 =? Z.max 0 n) && fast_grow (ht_config h) then i + 1 else i) = i' /\ 0 <= i' <= max_idx /\
    aget CFBasicHashTableCapacities i' = Ok c' /\ ht_used h + Z.max 0 n <= c') as (i' & c' & -> & Hi' & Hc' & Hle').
  { unfold max_idx. destruct (capacity_step i c Hi Hc) as (d & ? & ?).
    destruct (_ && _); [exists (i + 1), d|exists i, c]; split_and!; try done; lia. }
  destruct (capacity_size i' c' Hi' Hc') as (nb & Hnb & _ & _). rewrite Hnb. cbn [mbind result_bind].
  rewrite (r_size _ _ R). cbn [mbind result_bind]. rewrite Nat2Z.id.
  destruct (move_Ok i' nb c' Hi' Hnb Hc' ltac:(lia)) as (h' & sl' & EL & Ei & RH). exists h', sl'. split_and!; [exact EL|done|].
  exists c'. by rewrite Ei.
Qed.

(** Rehashing in place. *)
Lemma rehash_same (c : Z) :
  aget CFBasicHashTableCapacities (ht_idx h) = Ok c -> ht_used h <= c ->
  exists h' sl', CFBasicHashRehash h 0 = Ok h' /\ rehashed h sl h' sl'.
Proof.
  intros Hc Hu. unfold CFBasicHashRehash. cbn [Z.eqb negb]. cbn [mbind result_bind]. rewrite (r_size _ _ R). cbn [mbind result_bind].
  rewrite Nat2Z.id. destruct (move_Ok _ _ c (r_idx _ _ R) (r_size _ _ R) Hc Hu) as (h' & sl' & E & _ & RH).
  exists h', sl'. split; [exact E|done].
Qed.

End Rehash.

End HashRehash.
