(* ===== verification/HashOps.v ===== *)
(** * CFBasicHash: the operations refine a dictionary with counts

    The abstract dictionary is the list of entries, up to order; a key stands for every
    equal key.  Adding, replacing, setting and removing through the public functions keep
    the invariant [table], change the entries as the dictionary operations say, and call
    the retain callbacks before the release callbacks. *)

From stdpp Require Import base list numbers option.
From Stdlib Require Import ZArith Lia.
From S2P Require Import Prelude BasicHash HashProbe HashTable HashRehash.

Module HashOps.
Import BasicHash HashProbe HashTable HashRehash.

(** ** The abstract dictionary *)

Section Dictionary.

Context (c : config).

Definition retained_value (v : Z) : Z :=
  match retainValue (callbacks c) with Some func => if null_rc c then v else func v | None => v end.
Definition retained_key (k : Z) : Z :=
  match retainKey (callbacks c) with Some func => if null_rc c then k else func k | None => k end.

(** The key under which a table holds [k] and [v]. *)
Definition stored_key (k v : Z) : Z := if has_keys c then retained_key k else key_of c (retained_value v).

Definition value_retains (v : Z) : list event :=
  match retainValue (callbacks c) with Some _ => if null_rc c then [] else [RetainValue v] | None => [] end.
Definition key_retains (k : Z) : list event :=
  if has_keys c then match retainKey (callbacks c) with Some _ => if null_rc c then [] else [RetainKey k] | None => [] end else [].
Definition retains (k v : Z) : list event := value_retains v ++ key_retains k.

(** The caller's part: what the callbacks return can be stored, and the stored key is
    equal to the given one. *)
Definition storable (k v : Z) : Prop :=
  is_substitute (retained_value v) = false /\ (has_keys c = true -> is_substitute (retained_key k) = false) /\
  key_eq c (stored_key k v) k = true.

Definition new_entry (k v n : Z) : entry := mkEntry (stored_key k v) (retained_value v) n.

Fixpoint dict_find (k : Z) (es : list entry) : option entry :=
  match es with [] => None | e :: es => if key_eq c (e_key e) k then Some e else dict_find k es end.
Definition dict_update (f : entry -> entry) (k : Z) (es : list entry) : list entry :=
  map (fun e => if key_eq c (e_key e) k then f e else e) es.
Definition dict_delete (k : Z) (es : list entry) : list entry :=
  filter (fun e => key_eq c (e_key e) k = false) es.

Definition recount (f : Z -> Z) (e : entry) : entry := mkEntry (e_key e) (e_value e) (f (e_count e)).

Definition dict_add (k v : Z) (es : list entry) : list entry * bool :=
  match dict_find k es with
  | None => (new_entry k v 1 :: es, true)
  | Some e =>
    if has_counts c && (e_count e <? 2 ^ 63 - 1) then (dict_update (recount (Z.add 1)) k es, true) else (es, false)
  end.
Definition dict_replace (k v : Z) (es : list entry) : list entry :=
  dict_update (fun e => new_entry k v (e_count e)) k es.
Definition dict_set (k v : Z) (es : list entry) : list entry :=
  match dict_find k es with None => new_entry k v 1 :: es | Some _ => dict_replace k v es end.
Definition dict_remove (k : Z) (es : list entry) : list entry * Z :=
  match dict_find k es with
  | None => (es, 0)
  | Some e =>
    (if 1 <? e_count e then if has_counts c && (e_count e <? 2 ^ 63 - 1) then dict_update (recount Z.pred) k es else es
     else dict_delete k es, e_count e)
  end.

(** The keys other than [k] are untouched. *)
Lemma dict_find_absent (k : Z) (es : list entry) :
  Forall (fun e => key_eq c (e_key e) k = false) es -> dict_find k es = None.
Proof. induction 1 as [|e es H _ IH]; cbn; [done|]. by rewrite H. Qed.

Lemma dict_update_absent (f : entry -> entry) (k : Z) (es : list entry) :
  Forall (fun e => key_eq c (e_key e) k = false) es -> dict_update f k es = es.
Proof. unfold dict_update. induction 1 as [|e es H _ IH]; cbn; [done|]. by rewrite H, IH. Qed.

Lemma dict_delete_absent (k : Z) (es : list entry) :
  Forall (fun e => key_eq c (e_key e) k = false) es -> dict_delete k es = es.
Proof. unfold dict_delete. induction 1 as [|e es H _ IH]; [done|]. rewrite filter_cons_True by done. by rewrite IH. Qed.

Context (k : Z) (es1 es2 : list entry) (e : entry)
  (F1 : Forall (fun e => key_eq c (e_key e) k = false) es1) (F2 : Forall (fun e => key_eq c (e_key e) k = false) es2)
  (E : key_eq c (e_key e) k = true).

Lemma dict_find_split : dict_find k (es1 ++ e :: es2) = Some e.
Proof. clear F2. induction es1 as [|e' l IH]; cbn [app dict_find]; [by rewrite E|]. apply Forall_cons_1 in F1 as [-> F]. by apply IH. Qed.

Lemma dict_update_split (f : entry -> entry) : dict_update f k (es1 ++ e :: es2) = es1 ++ f e :: es2.
Proof.
  pose proof (dict_update_absent f k es1 F1) as U1. pose proof (dict_update_absent f k es2 F2) as U2. unfold dict_update in *.
  rewrite map_app. cbn. by rewrite U1, U2, E.
Qed.

Lemma dict_delete_split : dict_delete k (es1 ++ e :: es2) = es1 ++ es2.
Proof.
  pose proof (dict_delete_absent k es1 F1) as U1. pose proof (dict_delete_absent k es2 F2) as U2. unfold dict_delete in *.
  rewrite list.filter_app, filter_cons_False by (rewrite E; done). by rewrite U1, U2.
Qed.

End Dictionary.

(** ** Entries of an arranged table *)

Lemma slot_at_take_drop (sl : list slot) (i : Z) (e : entry) :
  0 <= i -> e ∈ entries (take (Z.to_nat i) sl) \/ e ∈ entries (drop (S (Z.to_nat i)) sl) ->
  exists j, j <> i /\ slot_at sl j = Some (Full e).
Proof.
  intros Hi [[j Hj]%entries_elem|[j Hj]%entries_elem]; apply slot_at_Some in Hj as [H0 Hj].
  - apply lookup_take_Some in Hj as [Hj ?]. exists j. split; [lia|]. by apply slot_at_Some.
  - rewrite lookup_drop in Hj. exists (i + 1 + j). split; [lia|]. apply slot_at_Some. split; [lia|].
    by replace (Z.to_nat (i + 1 + j)) with (S (Z.to_nat i) + Z.to_nat j)%nat by lia.
Qed.

Lemma entry_split {c : config} {L : KeyLaws c} (idx : Z) (sl : list slot) (i k : Z) (e : entry) :
  arranged c idx sl -> slot_at sl i = Some (Full e) -> key_eq c (e_key e) k = true ->
  exists es1 es2, entries sl = es1 ++ e :: es2 /\
    (forall s, entries (<[Z.to_nat i := s]> sl) = es1 ++ option_list (slot_entry s) ++ es2) /\
    Forall (fun e => key_eq c (e_key e) k = false) es1 /\ Forall (fun e => key_eq c (e_key e) k = false) es2.
Proof.
  intros A H Q. pose proof (proj1 (slot_at_Some _ _ _) H) as [Hi Hs].
  exists (entries (take (Z.to_nat i) sl)), (entries (drop (S (Z.to_nat i)) sl)).
  assert (forall l1 x l2, entries (l1 ++ x :: l2) = entries l1 ++ option_list (slot_entry x) ++ entries l2) as D.
  { intros l1 x l2. unfold entries. rewrite omap_app. f_equal. by destruct x. }
  assert (forall e', e' ∈ entries (take (Z.to_nat i) sl) \/ e' ∈ entries (drop (S (Z.to_nat i)) sl) -> key_eq c (e_key e') k = false) as N.
  { intros e' He. destruct (slot_at_take_drop sl i e' Hi He) as (j & Hj & Hs'). destruct (key_eq c (e_key e') k) eqn:Q'; [|done].
    destruct Hj. apply (a_distinct _ _ _ A) with e' e; [done|done|]. apply key_eq_trans with k; [done|by apply key_eq_sym]. }
  split_and!.
  - rewrite <- (take_drop_middle sl (Z.to_nat i) (Full e)) at 1 by done. apply D.
  - intros s. rewrite insert_take_drop by (by eapply lookup_lt_Some). apply D.
  - apply list.Forall_forall. auto.
  - apply list.Forall_forall. auto.
Qed.

Lemma deleted_insert (sl : list slot) (i : Z) (s s' : slot) :
  slot_at sl i = Some s ->
  deleted_count (<[Z.to_nat i := s']> sl) + (if decide (s = Deleted) then 1 else 0) =
  deleted_count sl + (if decide (s' = Deleted) then 1 else 0).
Proof.
  intros [_ H]%slot_at_Some. rewrite insert_take_drop by (by eapply lookup_lt_Some).
  replace (deleted_count sl) with (deleted_count (take (Z.to_nat i) sl ++ s :: drop (S (Z.to_nat i)) sl)) by (by rewrite take_drop_middle).
  unfold deleted_count.
  rewrite !list.filter_app, !length_app, !filter_cons. destruct (decide (s = Deleted)), (decide (s' = Deleted)); cbn [length]; lia.
Qed.

Lemma deleted_positive (sl : list slot) (i : Z) : slot_at sl i = Some Deleted -> 0 < deleted_count sl.
Proof.
  intros H. pose proof (deleted_insert sl i Deleted Empty H) as E. rewrite decide_True, decide_False in E by done.
  unfold deleted_count in *. lia.
Qed.

(** ** Importing *)

Lemma import_value (h : CFBasicHash) (v : Z) :
  CFBasicHashImportValue h v = (retained_value (ht_config h) v, emit (value_retains (ht_config h) v) h).
Proof.
  unfold CFBasicHashImportValue, cb, retained_value, value_retains.
  destruct (retainValue (callbacks (ht_config h))), (null_rc (ht_config h)); by rewrite ?emit_nil.
Qed.

Lemma import_key (h : CFBasicHash) (k : Z) :
  (if has_keys (ht_config h) then CFBasicHashImportKey h k else (k, h)) =
  (if has_keys (ht_config h) then retained_key (ht_config h) k else k, emit (key_retains (ht_config h) k) h).
Proof.
  unfold CFBasicHashImportKey, cb, retained_key, key_retains.
  destruct (has_keys (ht_config h)), (retainKey (callbacks (ht_config h))), (null_rc (ht_config h)); by rewrite ?emit_nil.
Qed.

(** What an operation leaves alone, and what it logs. *)
Record logged (h h' : CFBasicHash) (evs : list event) : Prop := mkLogged {
  l_config : ht_config h' = ht_config h;
  l_log : ht_log h' = ht_log h ++ evs
}.

Section Bucket.

Context {h : CFBasicHash} {sl : list slot} {L : KeyLaws (ht_config h)} (R : reps h sl)
  (A : arranged (ht_config h) (ht_idx h) sl).

#[local] Abbreviation c := (ht_config h).

Lemma new_entry_ok (k v n w : Z) :
  storable c k v -> 1 <= n <= (if has_counts c then count_limit w else 1) -> entry_ok c w (new_entry c k v n).
Proof.
  intros (V & K & _) Hn. split_and!; cbn; try done; try lia. unfold stored_key. destruct (has_keys c); auto.
Qed.

Lemma slot_ok_mono (w w' : Z) (s : slot) : 0 <= w <= w' -> slot_ok c w s -> slot_ok c w' s.
Proof.
  intros Hw. destruct s; cbn; try done. intros (? & ? & ?). split_and!; try done; [lia|].
  pose proof (count_limit_mono w w' Hw). destruct (has_counts c); lia.
Qed.

Lemma slots_ok_mono (w : Z) : ht_width h <= w -> Forall (slot_ok c w) sl.
Proof.
  intros Hw. eapply list.Forall_impl; [apply (r_slots _ _ R)|]. intros s. apply slot_ok_mono. pose proof (r_width _ _ R). lia.
Qed.

(** Writing the new entry of [k] and [v] to a vacant bucket. *)
Lemma fill_bucket_Ok (i k v : Z) :
  vacant (sl := sl) i -> storable c k v ->
  exists h', fill_bucket h i k v = Ok h' /\ reps h' (<[Z.to_nat i := Full (new_entry c k v 1)]> sl) /\
    logged h h' (retains c k v) /\ ht_used h' = u32 (ht_used h + 1) /\ ht_deleted h' = ht_deleted h /\
    ht_idx h' = ht_idx h /\ ht_mutations h' = ht_mutations h.
Proof.
  intros V S. assert (exists s, slot_at sl i = Some s /\ (s = Empty \/ s = Deleted)) as (s & Hs & Hv) by (destruct V; eauto).
  pose proof (slot_at_lt _ _ _ Hs) as Hi. set (e := new_entry c k v 1).
  assert (slot_ok c (ht_width h) s) as Os by (by destruct Hv as [-> | ->]).
  assert (value_releases c s = [] /\ key_releases c s = []) as [RV RK] by (by destruct Hv as [-> | ->]).
  assert (raw_count s = 0) as Rc by (by destruct Hv as [-> | ->]).
  unfold fill_bucket. rewrite import_value. set (h1 := emit _ h).
  change (ht_config h1) with c. rewrite (import_key h1). change (ht_config h1) with c. set (h2 := emit _ h1).
  rewrite (set_value_Ok h2 sl i (retained_value c v) (ht_width h) s (Full e) false (r_values _ _ R) Hs Os eq_refl).
  change (ht_config h2) with c. rewrite RV, emit_nil. cbn [mbind result_bind]. set (h3 := set_values _ h2).
  rewrite (set_key_Ok h3 sl i _ (ht_width h) s (Full e) false (r_keys _ _ R) Hs Os).
  2:{ change (ht_config h3) with c. intros E. cbn. unfold stored_key. by rewrite E. }
  change (ht_config h3) with c. rewrite RK, emit_nil. cbn [mbind result_bind]. set (h4 := set_keys _ h3).
  destruct (inc_count_Ok h4 sl i s (Full e) (r_size _ _ R) (r_width _ _ R) (r_counts _ _ R) Hs) as (w & Ew & Hw & Hc).
  { intros _. rewrite Rc. split; [lia|done]. }
  rewrite Ew. cbn [mbind result_bind]. set (h5 := set_counts _ _ h4).
  rewrite (set_hash_Ok h5 sl i _ (Full e) (r_hashes _ _ R) Hi).
  2:{ change (ht_config h5) with c. intros E. rewrite E. change (CFBasicHashHashKey h k) with (hash_of c k). cbn.
      symmetry. apply key_eq_hash. apply S. }
  cbn [mbind result_bind]. eexists. split; [done|]. split_and!; try done.
  - destruct R. split; cbn; try done.
    + by rewrite length_insert.
    + change (ht_width h4) with (ht_width h) in Hw. lia.
    + apply Forall_insert; [apply slots_ok_mono; apply Hw|]. apply new_entry_ok; [done|].
      destruct (has_counts c) eqn:E; [|lia]. split; [lia|]. by apply Hc.
  - split; [done|]. cbn. by rewrite <- app_assoc.
Qed.

(** Writing over the entry of an equal key. *)
Lemma replace_value_at_Ok (i k v : Z) (e : entry) :
  slot_at sl i = Some (Full e) -> key_eq c (e_key e) k = true -> storable c k v ->
  exists h', replace_value_at h i k v = Ok h' /\ reps h' (<[Z.to_nat i := Full (new_entry c k v (e_count e))]> sl) /\
    logged h h' (retains c k v ++ releases c (Full e)) /\ ht_used h' = ht_used h /\ ht_deleted h' = ht_deleted h /\
    ht_idx h' = ht_idx h /\ ht_mutations h' = u16 (ht_mutations h + 1).
Proof.
  intros Hs Q S. pose proof (slot_entry_ok R i e Hs) as O. set (e' := new_entry c k v (e_count e)).
  pose proof (slot_at_lt _ _ _ Hs) as Hi. unfold replace_value_at. rewrite import_value. change (ht_config (mutate h)) with c. set (h1 := emit _ _).
  change (ht_config h1) with c. rewrite (import_key h1). change (ht_config h1) with c. set (h2 := emit _ h1).
  rewrite (set_value_Ok h2 sl i (retained_value c v) (ht_width h) (Full e) (Full e') false (r_values _ _ R) Hs O eq_refl).
  cbn [mbind result_bind]. change (ht_config h2) with c. set (h3 := emit _ (set_values _ h2)).
  rewrite (set_key_Ok h3 sl i _ (ht_width h) (Full e) (Full e') false (r_keys _ _ R) Hs O).
  2:{ change (ht_config h3) with c. intros E. cbn. unfold stored_key. by rewrite E. }
  eexists. split; [done|]. split_and!; try done.
  - destruct R. split; cbn; try done.
    + by rewrite length_insert.
    + rewrite r_counts0. unfold array_of. destruct (has_counts c); [|done].
      rewrite list_fmap_insert. cbn. symmetry. apply list_insert_id. apply slot_at_Some in Hs as [_ Hs].
      by rewrite list_lookup_fmap, Hs.
    + rewrite r_hashes0. unfold array_of. destruct (has_hashes c); [|done].
      rewrite list_fmap_insert. cbn. symmetry. apply list_insert_id. apply slot_at_Some in Hs as [_ Hs].
      rewrite list_lookup_fmap, Hs. cbn. f_equal. rewrite (key_eq_hash _ _ Q). symmetry. apply key_eq_hash, S.
    + apply Forall_insert; [done|]. apply new_entry_ok; [done|]. apply O.
  - split; [done|]. cbn. unfold releases, retains. by rewrite !app_assoc.
Qed.

(** Marking a bucket deleted. *)
Lemma erase_bucket_Ok (i : Z) (e : entry) :
  slot_at sl i = Some (Full e) -> e_count e = 1 ->
  exists h', erase_bucket h i = Ok h' /\ reps h' (<[Z.to_nat i := Deleted]> sl) /\
    logged h h' (releases c (Full e)) /\ ht_used h' = u32 (ht_used h - 1) /\ ht_deleted h' = u16 (ht_deleted h + 1) /\
    ht_idx h' = ht_idx h /\ ht_mutations h' = u16 (ht_mutations h + 1).
Proof.
  intros Hs C. pose proof (slot_entry_ok R i e Hs) as O. pose proof (slot_at_lt _ _ _ Hs) as Hi. unfold erase_bucket.
  rewrite (set_value_Ok (mutate h) sl i kDeleted (ht_width h) (Full e) Deleted true (r_values _ _ R) Hs O eq_refl).
  cbn [mbind result_bind]. change (ht_config (mutate h)) with c. set (h1 := emit _ _).
  rewrite (set_key_Ok h1 sl i kDeleted (ht_width h) (Full e) Deleted true (r_keys _ _ R) Hs O (fun _ => eq_refl)).
  cbn [mbind result_bind]. change (ht_config h1) with c. set (h2 := emit _ _).
  rewrite (dec_count_Ok h2 sl i (Full e) Deleted (r_width _ _ R) (r_counts _ _ R) Hs).
  2:{ intros E. change (ht_config h2) with c in E. cbn. rewrite C. split; [|done]. destruct O as (_ & _ & O).
      rewrite E in O. rewrite C in O. done. }
  cbn [mbind result_bind]. set (h3 := set_counts _ _ h2).
  rewrite (set_hash_Ok h3 sl i 0 Deleted (r_hashes _ _ R) Hi (fun _ => eq_refl)). cbn [mbind result_bind].
  eexists. split; [done|]. split_and!; try done.
  - destruct R. split; cbn; try done; [by rewrite length_insert|]. by apply Forall_insert.
  - split; [done|]. cbn. by rewrite <- app_assoc.
Qed.

(** Changing the count of an entry. *)
Lemma reps_recount (i w n : Z) (e : entry) :
  slot_at sl i = Some (Full e) -> has_counts c = true -> ht_width h <= w <= 3 -> 1 <= n <= count_limit w ->
  reps (set_counts w (array_of (has_counts c) raw_count (<[Z.to_nat i := Full (recount (fun _ => n) e)]> sl)) h)
    (<[Z.to_nat i := Full (recount (fun _ => n) e)]> sl).
Proof.
  intros Hs K Hw Hn. pose proof (slot_entry_ok R i e Hs) as (O1 & O2 & _). apply slot_at_Some in Hs as [_ Hs].
  assert (forall f : slot -> Z, f (Full e) = f (Full (recount (fun _ => n) e)) ->
    map f sl = map f (<[Z.to_nat i := Full (recount (fun _ => n) e)]> sl)) as M.
  { intros f E. rewrite list_fmap_insert, list_insert_id; [done|]. by rewrite list_lookup_fmap, Hs, <- E. }
  destruct R. split; cbn; try done.
  - by rewrite length_insert.
  - rewrite r_values0. by apply M.
  - rewrite r_keys0. unfold array_of. destruct (has_keys c); [by apply M|done].
  - rewrite r_hashes0. unfold array_of. destruct (has_hashes c); [by apply M|done].
  - lia.
  - apply Forall_insert; [apply slots_ok_mono; lia|]. split_and!; cbn; try done; [lia|]. rewrite K. lia.
Qed.

End Bucket.

(** ** Adding and removing *)

(** A table whose deleted counter leaves out bucket [i]. *)
Lemma fill_changed {h : CFBasicHash} {sl : list slot} {L : KeyLaws (ht_config h)} (i k v cap : Z) (s : slot) :
  reps h sl -> arranged (ht_config h) (ht_idx h) sl -> slot_at sl i = Some s -> s = Empty \/ s = Deleted ->
  reachable sl (key_path (ht_config h) (ht_idx h) k) i ->
  Forall (fun e => key_eq (ht_config h) (e_key e) k = false) (entries sl) -> storable (ht_config h) k v ->
  ht_used h = Z.of_nat (length (entries sl)) -> aget CFBasicHashTableCapacities (ht_idx h) = Ok cap ->
  ht_used h + 1 <= cap -> ht_used h < max_entries ->
  ht_deleted h = deleted_count sl - (if decide (s = Deleted) then 1 else 0) -> ht_deleted h < 2 ^ 16 ->
  exists h' sl', fill_bucket h i k v = Ok h' /\ table h' sl' /\ entries sl' ≡ₚ new_entry (ht_config h) k v 1 :: entries sl /\
    logged h h' (retains (ht_config h) k v) /\ ht_mutations h' = ht_mutations h.
Proof.
  intros R A Hs Hv P Abs S U Hcap Hle Hm D DR. pose proof (slot_at_lt _ _ _ Hs) as Hi.
  assert (vacant (sl := sl) i) as V by (destruct Hv as [-> | ->]; [by left|by right]).
  destruct (fill_bucket_Ok R i k v V S) as (h' & E' & R' & [Lc Ll] & U' & D' & I' & M').
  rewrite uwrap_small in U' by (unfold in_u, max_entries in *; lia).
  exists h', (<[Z.to_nat i := Full (new_entry (ht_config h) k v 1)]> sl).
  assert (entries (<[Z.to_nat i := Full (new_entry (ht_config h) k v 1)]> sl) ≡ₚ new_entry (ht_config h) k v 1 :: entries sl)
    as PE by by apply entries_fill.
  split_and!; try done. split; [done| |split].
  - rewrite Lc, I'. apply arranged_add with k; [done|done|apply S|done|done].
  - rewrite U', PE. cbn [length]. lia.
  - exists cap. rewrite U', I'. done.
  - pose proof (deleted_insert sl i s (Full (new_entry (ht_config h) k v 1)) Hs) as DI.
    rewrite (decide_False (P := Full _ = Deleted)) in DI by done. rewrite D', D. lia.
  - by rewrite D'.
Qed.

Section Change.

Context {h : CFBasicHash} {sl : list slot} {L : KeyLaws (ht_config h)} (T : table h sl).

#[local] Abbreviation c := (ht_config h).

Lemma mutate_reps : reps (mutate h) sl.
Proof. destruct (t_reps _ _ T). by split. Qed.

(** The table after an operation: its entries, its mutation count and its log. *)
Record changed (h' : CFBasicHash) (es : list entry) (evs : list event) : Prop := mkChanged {
  ch_table : exists sl', table h' sl' /\ entries sl' ≡ₚ es;
  ch_logged : logged h h' evs;
  ch_mutations : ht_mutations h' = u16 (ht_mutations h + 1)
}.

Lemma located_absent (i k : Z) :
  located (sl := sl) (h := h) k (mkBucket i 0 0 0) ->
  Forall (fun e => key_eq c (e_key e) k = false) (entries sl) /\
  ((vacant (sl := sl) i /\ reachable sl (key_path c (ht_idx h) k) i) \/ (i = kCFNotFound /\ length (entries sl) = length sl)).
Proof.
  intros Loc. remember (mkBucket i 0 0 0) as b eqn:Eb. destruct Loc as [i' e Hs Q|i' Abs Pl]; [|by injection Eb as ->].
  destruct (slot_entry_ok (t_reps _ _ T) i' e Hs) as (_ & _ & Hc). injection Eb as _ _ _ Ec. lia.
Qed.

Lemma grow_add_Ok (k v : Z) :
  Forall (fun e => key_eq c (e_key e) k = false) (entries sl) -> storable c k v -> ht_used h < max_entries ->
  exists h1 i1 h', CFBasicHashRehash (mutate h) 1 = Ok h1 /\ CFBasicHashFindBucket_NoCollision h1 k 0 = Ok i1 /\
    fill_bucket h1 i1 k v = Ok h' /\ changed h' (new_entry c k v 1 :: entries sl) (retains c k v).
Proof.
  intros Abs S Hm. pose proof T as [R A [U _ _ _]].
  destruct (rehash_grow (h := mutate h) mutate_reps A U 1) as (h1 & sl1 & E1 & RH & cap1 & Hcap1 & Hle1); [lia|cbn; lia|].
  destruct RH as [[R1 A1 C1] F1 P1 Ec Eu Em El]. cbn in Ec, Eu, Em, El, Hle1.
  assert (KeyLaws (ht_config h1)) as L1 by by rewrite Ec.
  destruct (capacity_size _ _ (r_idx _ _ R1) Hcap1) as (n & Hn & ? & ?). rewrite (r_size _ _ R1) in Hn. injection Hn as <-.
  pose proof (c_used _ _ C1) as U1.
  destruct (find_free_Ok R1 F1 k 0) as (i1 & Ei & Hi1 & P); [lia|by left|].
  destruct (fill_changed i1 k v cap1 Empty R1 A1 Hi1 (or_introl eq_refl) P) as (h' & sl' & E' & T' & P' & [Lc Ll] & M'); try done; try lia.
  - rewrite P1, Ec. done.
  - by rewrite Ec.
  - rewrite (c_deleted _ _ C1), decide_False by done. lia.
  - apply C1.
  - rewrite Ec in *. exists h1, i1, h'. split_and!; try done. split; [exists sl'|split; congruence|congruence].
    by rewrite P', P1.
Qed.

Lemma add_value_at_Ok (i k v : Z) :
  located (sl := sl) (h := h) k (mkBucket i 0 0 0) -> storable c k v -> ht_used h < max_entries ->
  exists h', add_value_at h i k v = Ok h' /\ changed h' (new_entry c k v 1 :: entries sl) (retains c k v).
Proof.
  intros [Abs Pl]%located_absent S Hm. pose proof T as [R A [U [cap [Hcap Hle]] D DR]].
  unfold add_value_at. change (CFBasicHashGetCapacity (mutate h)) with (aget CFBasicHashTableCapacities (ht_idx h)). rewrite Hcap.
  cbn [mbind result_bind]. change (ht_used (mutate h)) with (ht_used h).
  rewrite (uwrap_small 32) by (unfold in_u, max_entries in *; lia).
  destruct (Z.ltb_spec cap (ht_used h + 1)).
  { destruct (grow_add_Ok k v Abs S Hm) as (h1 & i1 & h' & -> & Ei & E' & Ch). exists h'. cbn [mbind result_bind].
    rewrite Ei. by split. }
  destruct Pl as [[V P]|[_ Full]].
  2:{ destruct (capacity_size _ _ (r_idx _ _ R) Hcap) as (n & Hn & ? & ?). rewrite (r_size _ _ R) in Hn. injection Hn as <-. lia. }
  assert (exists s, slot_at sl i = Some s /\ (s = Empty \/ s = Deleted)) as (s & Hs & Hv) by (destruct V; eauto).
  rewrite (get_deleted mutate_reps i s Hs). cbn [mbind result_bind].
  set (h1 := if _ : bool then _ else _).
  assert (ht_deleted h1 = deleted_count sl - (if decide (s = Deleted) then 1 else 0)) as D1.
  { subst h1. destruct Hv as [-> | ->]; [rewrite decide_False by done; cbn; lia|]. rewrite decide_True by done. cbn.
    pose proof (deleted_positive _ _ Hs). rewrite uwrap_small by (unfold in_u; lia). lia. }
  assert (reps h1 sl) as R1 by (subst h1; destruct R, Hv as [-> | ->]; by split).
  assert (ht_config h1 = c /\ ht_idx h1 = ht_idx h /\ ht_used h1 = ht_used h /\ ht_log h1 = ht_log h /\ ht_mutations h1 = u16 (ht_mutations h + 1))
    as (Ec & Ei & Eu & El & Em) by (subst h1; by destruct Hv as [-> | ->]).
  assert (KeyLaws (ht_config h1)) as L1 by by rewrite Ec.
  destruct (fill_changed (h := h1) (sl := sl) i k v cap s) as (h' & sl' & E' & T' & P' & [Lc Ll] & M'); try done; try (by rewrite ?Ec, ?Ei); try lia.
  - destruct (decide _); lia.
  - rewrite Ec in *. exists h'. split; [done|]. split; [by exists sl'|split; congruence|congruence].
Qed.

Lemma capacity_small (i : Z) :
  0 <= i <= 42 -> exists c, aget CFBasicHashTableCapacities i = Ok c /\ c <= max_entries.
Proof.
  intros Hi. pose proof (below_spec 43 (fun i => match aget CFBasicHashTableCapacities i with Ok c => c <=? max_entries | _ => false end)
    i eq_refl ltac:(lia)) as B. cbv beta in B. destruct (aget _ i) as [d| | |]; try done. exists d. split; [done|lia].
Qed.

(** Whether the table is small enough to shrink by [n] sizes. *)
Lemma shrink_test (h1 : CFBasicHash) (n : Z) :
  0 < n -> ht_idx h1 <= max_idx ->
  exists b, (if n <? ht_idx h1 then c ← CFBasicHashGetCapacityForNumBuckets (ht_idx h1 - n); Ok (ht_used h1 <? c) else Ok false) = Ok b /\
    (b = true -> ht_used h1 <= max_entries).
Proof.
  unfold max_idx. intros Hn Hi. destruct (Z.ltb_spec n (ht_idx h1)); [|by exists false].
  destruct (capacity_small (ht_idx h1 - n)) as (d & E & Hd); [lia|]. unfold CFBasicHashGetCapacityForNumBuckets.
  rewrite E. cbn [mbind result_bind]. eexists. split; [done|]. lia.
Qed.

Lemma remove_value_at_Ok (i k : Z) (e : entry) :
  slot_at sl i = Some (Full e) -> key_eq c (e_key e) k = true -> e_count e = 1 ->
  exists h', remove_value_at h i = Ok h' /\ changed h' (dict_delete c k (entries sl)) (releases c (Full e)).
Proof.
  intros Hs Q C. pose proof T as [R A [U [cap [Hcap Hle]] D DR]]. pose proof (slot_at_lt _ _ _ Hs) as Hi.
  destruct (entry_split (ht_idx h) sl i k e A Hs Q) as (es1 & es2 & E & EI & F1 & F2).
  assert (entries (<[Z.to_nat i := Deleted]> sl) = dict_delete c k (entries sl)) as ED.
  { by rewrite E, EI, dict_delete_split. }
  assert (length (entries sl) = S (length (dict_delete c k (entries sl)))) as EL.
  { rewrite E, dict_delete_split by done. rewrite !length_app. cbn. lia. }
  pose proof (arranged_delete A i Hi) as A1.
  destruct (erase_bucket_Ok R i e Hs C) as (h1 & E1 & R1 & [Lc Ll] & U1 & D1 & I1 & M1).
  destruct (capacity_size _ _ (r_idx _ _ R) Hcap) as (n & Hn & ? & ?).
  rewrite uwrap_small in U1 by (unfold in_u; lia).
  assert (ht_used h1 = Z.of_nat (length (entries (<[Z.to_nat i := Deleted]> sl)))) as U1' by (rewrite ED; lia).
  assert (KeyLaws (ht_config h1)) as L1 by by rewrite Lc.
  assert (arranged (ht_config h1) (ht_idx h1) (<[Z.to_nat i := Deleted]> sl)) as A1' by by rewrite Lc, I1.
  assert (forall h' sl', rehashed h1 (<[Z.to_nat i := Deleted]> sl) h' sl' ->
    changed h' (dict_delete c k (entries sl)) (releases c (Full e))) as RC.
  { intros h' sl' [T' _ P' Ec' _ Em' El']. split; [exists sl'; by rewrite P', ED|split; congruence|congruence]. }
  unfold remove_value_at. rewrite E1. cbn [mbind result_bind].
  assert (exists b, (if fast_grow (ht_config h1) then
       if 5 <? ht_idx h1 then c ← CFBasicHashGetCapacityForNumBuckets (ht_idx h1 - 5); Ok (ht_used h1 <? c) else Ok false
     else
       if 2 <? ht_idx h1 then c ← CFBasicHashGetCapacityForNumBuckets (ht_idx h1 - 2); Ok (ht_used h1 <? c) else Ok false) = Ok b /\
    (b = true -> ht_used h1 <= max_entries)) as (b & -> & Hb).
  { pose proof (r_idx _ _ R1). destruct (fast_grow _); apply shrink_test; lia. }
  cbn [mbind result_bind]. destruct b.
  { destruct (rehash_grow R1 A1' U1' (-1)) as (h' & sl' & -> & RH & _); [lia|specialize (Hb eq_refl); lia|]. eauto. }
  unfold CFBasicHashNumBuckets. rewrite (r_size _ _ R1). cbn [mbind result_bind].
  destruct (_ || _) eqn:B.
  { destruct (rehash_same R1 A1' U1' cap) as (h' & sl' & -> & RH); [by rewrite I1|lia|]. eauto. }
  apply orb_false_elim in B as [B _]. apply Z.eqb_neq in B.
  assert (ht_deleted h + 1 <> 2 ^ 16) as ND by (intros W; rewrite D1, W in B; by vm_compute in B).
  assert (0 <= ht_deleted h) by (rewrite D; unfold deleted_count; lia).
  rewrite uwrap_small in D1 by (unfold in_u; lia).
  exists h1. split; [done|]. split; [|by split|done]. exists (<[Z.to_nat i := Deleted]> sl). split; [|by rewrite ED].
  split; [done|done|]. split; [done| | |].
  - exists cap. rewrite I1. split; [done|lia].
  - pose proof (deleted_insert sl i (Full e) Deleted Hs) as DI. rewrite decide_False, decide_True in DI by done. lia.
  - lia.
Qed.

End Change.

End HashOps.
