(* ===== verification/HashDict.v ===== *)
(** * CFBasicHash: the public mutators and queries

    Each public function against the abstract dictionary of HashOps, on every branch:
    absent and present keys, counted and uncounted tables, immutable tables and the two
    reserved words. *)

From stdpp Require Import base list numbers option.
From Stdlib Require Import ZArith Lia.
From S2P Require Import Prelude BasicHash HashProbe HashTable HashRehash HashOps.

Module HashDict.
Import BasicHash HashProbe HashTable HashRehash HashOps.

Section Public.

Context {h : CFBasicHash} {sl : list slot} {L : KeyLaws (ht_config h)} (T : table h sl).

#[local] Abbreviation c := (ht_config h).

(** ** Searching agrees with the dictionary *)

Inductive looked_up (k : Z) : CFBasicHashBucket -> Prop :=
| looked_present i e :
    slot_at sl i = Some (Full e) -> key_eq c (e_key e) k = true -> dict_find c k (entries sl) = Some e ->
    1 <= e_count e -> looked_up k (bucket_of i e)
| looked_absent i :
    located (sl := sl) (h := h) k (mkBucket i 0 0 0) -> dict_find c k (entries sl) = None -> looked_up k (mkBucket i 0 0 0).

Lemma find_bucket_Ok (k : Z) : exists b, find_bucket h k = Ok b /\ looked_up k b.
Proof.
  pose proof T as [R A _]. destruct (find_bucket_located R k A) as (b & E & Loc). exists b. split; [done|].
  destruct Loc as [i e Hs Q|i Abs Pl].
  - apply looked_present; try done; [|by destruct (slot_entry_ok R i e Hs) as (_ & _ & ? & _)].
    destruct (entry_split (ht_idx h) sl i k e A Hs Q) as (es1 & es2 & -> & _ & F1 & F2). by apply dict_find_split.
  - apply looked_absent; [by apply absent|by apply dict_find_absent].
Qed.

Lemma mutate_table : table (mutate h) sl.
Proof. pose proof T as [R A []]. split; [by apply mutate_reps|done|by split]. Qed.

Lemma mutate_changed : changed (h := h) (mutate h) (entries sl) [].
Proof. split; [exists sl; split; [apply mutate_table|done]|split; [done|]; cbn; by rewrite app_nil_r|done]. Qed.

(** A new count for the entry at a bucket, in counts of width [w]. *)
Lemma recount_changed (i k w n : Z) (e : entry) :
  slot_at sl i = Some (Full e) -> key_eq c (e_key e) k = true -> has_counts c = true ->
  ht_width h <= w <= 3 -> 1 <= n <= count_limit w ->
  changed (h := h)
    (set_counts w (array_of (has_counts c) raw_count (<[Z.to_nat i := Full (recount (fun _ => n) e)]> sl)) (mutate h))
    (dict_update c (recount (fun _ => n)) k (entries sl)) [].
Proof.
  intros Hs Q K Hw Hn. pose proof T as [R A [U [cap [Hcap Hle]] D DR]].
  destruct (entry_split (ht_idx h) sl i k e A Hs Q) as (es1 & es2 & E & EI & F1 & F2).
  assert (entries (<[Z.to_nat i := Full (recount (fun _ => n) e)]> sl) = dict_update c (recount (fun _ => n)) k (entries sl)) as EU.
  { by rewrite E, EI, dict_update_split. }
  split; [|split; [done|]; cbn; by rewrite app_nil_r|done]. eexists. split; [|by rewrite EU]. split.
  - apply (reps_recount (mutate_reps T) i w n e Hs K Hw Hn).
  - cbn. apply arranged_replace with e; [done|by eapply slot_at_lt|done|apply key_eq_refl].
  - split; cbn; [|by exists cap| |done].
    + rewrite EU. unfold dict_update. by rewrite length_map.
    + pose proof (deleted_insert sl i (Full e) (Full (recount (fun _ => n) e)) Hs) as DI. rewrite !decide_False in DI by done. lia.
Qed.

Lemma dict_update_ext (f g : entry -> entry) (k : Z) (es : list entry) :
  (forall e, e ∈ es -> key_eq c (e_key e) k = true -> f e = g e) -> dict_update c f k es = dict_update c g k es.
Proof.
  intros H. unfold dict_update. apply map_ext_in. intros e He%list_elem_of_In.
  destruct (key_eq c (e_key e) k) eqn:E; [by apply H|done].
Qed.

(** The one entry of the key of [e] is [e]. *)
Lemma recount_one (f : Z -> Z) (i k : Z) (e : entry) :
  slot_at sl i = Some (Full e) -> key_eq c (e_key e) k = true ->
  dict_update c (recount (fun _ => f (e_count e))) k (entries sl) = dict_update c (recount f) k (entries sl).
Proof.
  intros Hs Q. apply dict_update_ext. intros e' [j Hj]%entries_elem Q'.
  assert (i = j) as <-.
  { apply (a_distinct _ _ _ (t_arranged _ _ T)) with e e'; [done|done|]. apply key_eq_trans with k; [done|by apply key_eq_sym]. }
  rewrite Hs in Hj. by simplify_eq.
Qed.

(** ** Adding *)

Definition add_events (k v : Z) : list event := match dict_find c k (entries sl) with None => retains c k v | Some _ => [] end.

Lemma add_value_Ok (k v : Z) :
  is_mutable c = true -> is_substitute k = false -> is_substitute v = false -> storable c k v -> ht_used h < max_entries ->
  exists h', CFBasicHashAddValue h k v = Ok (h', snd (dict_add c k v (entries sl))) /\
    changed (h := h) h' (fst (dict_add c k v (entries sl))) (add_events k v).
Proof.
  intros HM Hk Hv S Hm. pose proof T as [R A C]. unfold CFBasicHashAddValue. rewrite HM, Hk, Hv. cbn [negb].
  destruct (find_bucket_Ok k) as (b & -> & Lk). cbn [mbind result_bind]. unfold dict_add, add_events.
  destruct Lk as [i e Hs Q -> Hc|i Loc ->].
  - cbn [b_count b_idx bucket_of]. rewrite (proj2 (Z.ltb_lt 0 _)) by lia. change (ht_config (mutate h)) with c.
    destruct (has_counts c) eqn:K; cbn [andb]; [|exists (mutate h); split; [done|apply mutate_changed]].
    destruct (Z.ltb_spec (e_count e) (2 ^ 63 - 1)); [|exists (mutate h); split; [done|apply mutate_changed]].
    destruct (inc_count_Ok (mutate h) sl i (Full e) (Full (recount (fun _ => 1 + e_count e) e)) (r_size _ _ R) (r_width _ _ R) (r_counts _ _ R) Hs)
      as (w & Ew & Hw & Hl); [intros _; cbn; lia|].
    change (ht_config (mutate h)) with c in *. rewrite K in Ew. rewrite Ew. cbn [mbind result_bind]. eexists. split; [done|].
    cbn [fst]. rewrite <- (recount_one (Z.add 1) i k e Hs Q). rewrite <- K at 1. apply recount_changed; try done.
    split; [lia|]. by apply Hl.
  - cbn [b_count b_idx]. destruct (add_value_at_Ok T i k v Loc S Hm) as (h' & E & Ch). exists h'.
    cbn [Z.ltb Z.compare]. rewrite E. by split.
Qed.

(** ** Replacing and setting *)

Definition replace_events (k v : Z) : list event :=
  match dict_find c k (entries sl) with None => [] | Some e => retains c k v ++ releases c (Full e) end.

Lemma replace_changed (i k v : Z) (e : entry) :
  slot_at sl i = Some (Full e) -> key_eq c (e_key e) k = true -> dict_find c k (entries sl) = Some e -> storable c k v ->
  exists h', replace_value_at h i k v = Ok h' /\ changed (h := h) h' (dict_replace c k v (entries sl)) (replace_events k v).
Proof.
  intros Hs Q F S. pose proof T as [R A [U [cap [Hcap Hle]] D DR]].
  destruct (replace_value_at_Ok R i k v e Hs Q S) as (h' & E & R' & Lg & U' & D' & I' & M'). exists h'. split; [done|].
  unfold replace_events. rewrite F. pose proof Lg as [Lc Ll]. split; [|done|done].
  destruct (entry_split (ht_idx h) sl i k e A Hs Q) as (es1 & es2 & Ee & EI & F1 & F2).
  assert (entries (<[Z.to_nat i := Full (new_entry c k v (e_count e))]> sl) = dict_replace c k v (entries sl)) as ER.
  { unfold dict_replace. by rewrite EI, Ee, dict_update_split. }
  eexists. split; [|by rewrite ER]. split; [done| |split].
  - rewrite Lc, I'. apply arranged_replace with e; [done|by eapply slot_at_lt|done|].
    apply key_eq_trans with k; [apply S|by apply key_eq_sym].
  - rewrite U', ER. unfold dict_replace, dict_update. by rewrite length_map.
  - rewrite I', U'. by exists cap.
  - pose proof (deleted_insert sl i (Full e) (Full (new_entry c k v (e_count e))) Hs) as DI. rewrite !decide_False in DI by done. lia.
  - by rewrite D'.
Qed.

(** An absent key leaves the table as it is. *)
Lemma replace_value_Ok (k v : Z) :
  is_mutable c = true -> is_substitute k = false -> is_substitute v = false -> storable c k v ->
  match dict_find c k (entries sl) with
  | None => CFBasicHashReplaceValue h k v = Ok h
  | Some _ => exists h', CFBasicHashReplaceValue h k v = Ok h' /\
      changed (h := h) h' (dict_replace c k v (entries sl)) (replace_events k v)
  end.
Proof.
  intros HM Hk Hv S. unfold CFBasicHashReplaceValue. rewrite HM, Hk, Hv. cbn [negb].
  destruct (find_bucket_Ok k) as (b & -> & Lk). cbn [mbind result_bind]. destruct Lk as [i e Hs Q F Hc|i Loc F]; rewrite F; [|done].
  cbn [b_count b_idx bucket_of]. rewrite (proj2 (Z.ltb_lt 0 _)) by lia. by apply replace_changed with e.
Qed.

Definition set_events (k v : Z) : list event :=
  match dict_find c k (entries sl) with None => retains c k v | Some e => retains c k v ++ releases c (Full e) end.

Lemma set_value_Ok_ (k v : Z) :
  is_mutable c = true -> is_substitute k = false -> is_substitute v = false -> storable c k v -> ht_used h < max_entries ->
  exists h', CFBasicHashSetValue_ h k v = Ok h' /\ changed (h := h) h' (dict_set c k v (entries sl)) (set_events k v).
Proof.
  intros HM Hk Hv S Hm. unfold CFBasicHashSetValue_. rewrite HM, Hk, Hv. cbn [negb].
  destruct (find_bucket_Ok k) as (b & -> & Lk). cbn [mbind result_bind]. unfold dict_set, set_events.
  destruct Lk as [i e Hs Q F Hc|i Loc F]; cbn [b_count b_idx bucket_of].
  - rewrite (proj2 (Z.ltb_lt 0 _)) by lia. destruct (replace_changed i k v e Hs Q F S) as (h' & E & Ch). exists h'. split; [done|].
    unfold replace_events in Ch. rewrite F in *. done.
  - rewrite F. cbn [Z.ltb Z.compare]. by apply add_value_at_Ok.
Qed.

(** ** Removing *)

Definition remove_events (k : Z) : list event :=
  match dict_find c k (entries sl) with Some e => if 1 <? e_count e then [] else releases c (Full e) | None => [] end.

Lemma remove_bucket_Ok (i k : Z) (e : entry) :
  slot_at sl i = Some (Full e) -> key_eq c (e_key e) k = true -> dict_find c k (entries sl) = Some e ->
  exists h', remove_bucket h (bucket_of i e) = Ok (h', e_count e) /\
    changed (h := h) h' (fst (dict_remove c k (entries sl))) (remove_events k).
Proof.
  intros Hs Q F. pose proof T as [R A _]. pose proof (slot_entry_ok R i e Hs) as (_ & _ & Hc).
  unfold remove_bucket, dict_remove, remove_events. rewrite F. cbn [b_count b_idx bucket_of fst].
  destruct (Z.ltb_spec 1 (e_count e)).
  - assert (has_counts c = true) as K by (destruct (has_counts c); [done|lia]). rewrite K in Hc.
    change (ht_config (mutate h)) with c. rewrite K. cbn [andb].
    destruct (Z.ltb_spec (e_count e) (2 ^ 63 - 1)); [|exists (mutate h); split; [done|apply mutate_changed]].
    pose proof (dec_count_Ok (mutate h) sl i (Full e) (Full (recount (fun _ => Z.pred (e_count e)) e)) (r_width _ _ R) (r_counts _ _ R) Hs) as Ed.
    change (ht_config (mutate h)) with c in Ed. rewrite K in Ed.
    rewrite Ed by (intros _; split; [exact Hc|done]). cbn [mbind result_bind]. eexists. split; [done|].
    rewrite <- (recount_one Z.pred i k e Hs Q). rewrite <- K at 1. change (ht_width (mutate h)) with (ht_width h).
    pose proof (r_width _ _ R). apply recount_changed; try done; lia.
  - destruct (Z.ltb_spec 0 (e_count e)); [|lia].
    destruct (remove_value_at_Ok T i k e Hs Q ltac:(lia)) as (h' & E & Ch). exists h'. rewrite E. by split.
Qed.

(** The count before the removal is returned; 0 means that the key was absent. *)
Lemma remove_value_Ok (k : Z) :
  is_mutable c = true -> is_substitute k = false ->
  match dict_find c k (entries sl) with
  | None => CFBasicHashRemoveValue h k = Ok (h, 0)
  | Some e => exists h', CFBasicHashRemoveValue h k = Ok (h', e_count e) /\
      changed (h := h) h' (fst (dict_remove c k (entries sl))) (remove_events k)
  end.
Proof.
  intros HM Hk. unfold CFBasicHashRemoveValue. rewrite HM, Hk. cbn [negb].
  destruct (find_bucket_Ok k) as (b & -> & Lk). cbn [mbind result_bind]. destruct Lk as [i e Hs Q F Hc|i Loc F]; rewrite F; [|done].
  by apply remove_bucket_Ok.
Qed.

(** Removing by position finds the entry of a bucket. *)
Lemma remove_value_at_index_Ok (i : Z) (e : entry) :
  is_mutable c = true -> slot_at sl i = Some (Full e) ->
  exists h', CFBasicHashRemoveValueAtIndex h i = Ok (h', e_count e) /\
    changed (h := h) h' (fst (dict_remove c (e_key e) (entries sl))) (remove_events (e_key e)).
Proof.
  intros HM Hs. pose proof T as [R A _]. unfold CFBasicHashRemoveValueAtIndex. rewrite HM. cbn [negb].
  rewrite (get_bucket R i _ Hs). cbn [mbind result_bind]. apply remove_bucket_Ok; [done|apply key_eq_refl|].
  destruct (entry_split (ht_idx h) sl i (e_key e) e A Hs (key_eq_refl _)) as (es1 & es2 & -> & _ & F1 & F2).
  by apply dict_find_split; [|apply key_eq_refl].
Qed.

End Public.

(** ** Guards *)

(** An immutable table and the two reserved words stop the program, except that
    removing a reserved word does nothing. *)
Lemma mutators_guard (h : CFBasicHash) (k v n i : Z) :
  is_mutable (ht_config h) = false \/ is_substitute k = true \/ is_substitute v = true ->
  CFBasicHashAddValue h k v = Halt /\ CFBasicHashReplaceValue h k v = Halt /\ CFBasicHashSetValue_ h k v = Halt /\
  (is_mutable (ht_config h) = false ->
     CFBasicHashRemoveValue h k = Halt /\ CFBasicHashRemoveValueAtIndex h i = Halt /\ CFBasicHashRemoveAllValues h = Halt /\
     CFBasicHashSetCapacity h n = Halt /\ CFBasicHashAddIntValueAndInc h k v = Halt /\ CFBasicHashRemoveIntValueAndDec h v = Halt) /\
  (is_mutable (ht_config h) = true -> is_substitute k = true -> CFBasicHashRemoveValue h k = Ok (h, 0)).
Proof.
  intros H. unfold CFBasicHashAddValue, CFBasicHashReplaceValue, CFBasicHashSetValue_, CFBasicHashRemoveValue, CFBasicHashRemoveValueAtIndex,
    CFBasicHashRemoveAllValues, CFBasicHashSetCapacity, CFBasicHashAddIntValueAndInc, CFBasicHashRemoveIntValueAndDec.
  destruct (is_mutable (ht_config h)), (is_substitute k), (is_substitute v); cbn; try done; by destruct H as [?|[?|?]].
Qed.

End HashDict.
