(* ===== verification/HashRun.v ===== *)
(** * CFBasicHash: runs of operations

    A table that starts out empty and goes through any sequence of additions,
    replacements, settings and removals answers as the abstract dictionary does, and
    every value and key it retained is released exactly once by the time it is drained. *)

From stdpp Require Import base list numbers option.
From Stdlib Require Import ZArith Lia.
From S2P Require Import Prelude BasicHash HashProbe HashTable HashRehash HashOps HashDict.

Module HashRun.
Import BasicHash HashProbe HashTable HashRehash HashOps HashDict.

Inductive op : Type :=
| OpAdd (k v : Z)
| OpReplace (k v : Z)
| OpSet (k v : Z)
| OpRemove (k : Z).

(** What the caller sees: whether a key was added, the count before a removal. *)
Definition hash_step (h : CFBasicHash) (o : op) : result (CFBasicHash * Z) :=
  match o with
  | OpAdd k v => '(h, b) ← CFBasicHashAddValue h k v; Ok (h, if (b : bool) then 1 else 0)
  | OpReplace k v => h ← CFBasicHashReplaceValue h k v; Ok (h, 0)
  | OpSet k v => h ← CFBasicHashSetValue_ h k v; Ok (h, 0)
  | OpRemove k => CFBasicHashRemoveValue h k
  end.

Fixpoint hash_run (h : CFBasicHash) (os : list op) : result (CFBasicHash * list Z) :=
  match os with
  | [] => Ok (h, [])
  | o :: os => '(h, r) ← hash_step h o; '(h, rs) ← hash_run h os; Ok (h, r :: rs)
  end.

Section Abstract.

Context (c : config).

Definition dict_step (o : op) (es : list entry) : list entry * Z :=
  match o with
  | OpAdd k v => let '(es, b) := dict_add c k v es in (es, if (b : bool) then 1 else 0)
  | OpReplace k v => (dict_replace c k v es, 0)
  | OpSet k v => (dict_set c k v es, 0)
  | OpRemove k => dict_remove c k es
  end.

Fixpoint dict_run (os : list op) (es : list entry) : list entry * list Z :=
  match os with
  | [] => (es, [])
  | o :: os => let '(es, r) := dict_step o es in let '(es, rs) := dict_run os es in (es, r :: rs)
  end.

Definition op_ok (o : op) : Prop :=
  match o with
  | OpAdd k v | OpReplace k v | OpSet k v => is_substitute k = false /\ is_substitute v = false /\ storable c k v
  | OpRemove k => is_substitute k = false
  end.

(** The callbacks each operation makes, from the entry of its key. *)
Definition step_events (o : op) (es : list entry) : list event :=
  match o with
  | OpAdd k v => match dict_find c k es with None => retains c k v | Some _ => [] end
  | OpReplace k v => match dict_find c k es with None => [] | Some e => retains c k v ++ releases c (Full e) end
  | OpSet k v => match dict_find c k es with None => retains c k v | Some e => retains c k v ++ releases c (Full e) end
  | OpRemove k => match dict_find c k es with Some e => if 1 <? e_count e then [] else releases c (Full e) | None => [] end
  end.

(** The callbacks of a run. *)
Fixpoint run_events (os : list op) (es : list entry) : list event :=
  match os with [] => [] | o :: os => step_events o es ++ run_events os (fst (dict_step o es)) end.

(** A key finds any entry that has it. *)
Definition functional (es : list entry) : Prop :=
  forall e k, e ∈ es -> key_eq c (e_key e) k = true -> dict_find c k es = Some e.

Lemma dict_find_Some (k : Z) (es : list entry) (e : entry) :
  dict_find c k es = Some e -> e ∈ es /\ key_eq c (e_key e) k = true.
Proof.
  induction es as [|e' es IH]; cbn; [done|]. destruct (key_eq c (e_key e') k) eqn:Q.
  - intros [= ->]. split; [left|done].
  - intros [? ?]%IH. split; [by right|done].
Qed.

Lemma dict_find_None (k : Z) (es : list entry) :
  dict_find c k es = None <-> Forall (fun e => key_eq c (e_key e) k = false) es.
Proof.
  split; [|apply dict_find_absent]. induction es as [|e es IH]; cbn; [by constructor|].
  destruct (key_eq c (e_key e) k) eqn:Q; [done|]. intros. constructor; auto.
Qed.

Lemma dict_find_perm (k : Z) (es es' : list entry) : functional es -> es' ≡ₚ es -> dict_find c k es' = dict_find c k es.
Proof.
  intros F P. destruct (dict_find c k es') as [e|] eqn:E.
  - apply dict_find_Some in E as [? ?]. symmetry. apply F; [by rewrite <- P|done].
  - symmetry. apply dict_find_None. rewrite <- P. by apply dict_find_None.
Qed.

#[export] Instance dict_update_proper (f : entry -> entry) (k : Z) : Proper ((≡ₚ) ==> (≡ₚ)) (dict_update c f k).
Proof. intros es es' P. unfold dict_update. by rewrite P. Qed.

#[export] Instance dict_delete_proper (k : Z) : Proper ((≡ₚ) ==> (≡ₚ)) (dict_delete c k).
Proof. intros es es' P. unfold dict_delete. by rewrite P. Qed.

(** The order of the entries does not matter. *)
Lemma dict_step_perm (o : op) (es es' : list entry) :
  functional es -> es' ≡ₚ es ->
  fst (dict_step o es') ≡ₚ fst (dict_step o es) /\ snd (dict_step o es') = snd (dict_step o es).
Proof.
  intros F P. destruct o as [k v|k v|k v|k]; cbn; unfold dict_add, dict_set, dict_remove, dict_replace;
    rewrite ?(dict_find_perm k es es' F P).
  - destruct (dict_find c k es) as [e|]; [|cbn; by rewrite P]. destruct (_ && _); cbn; by rewrite P.
  - by rewrite P.
  - destruct (dict_find c k es); by rewrite P.
  - destruct (dict_find c k es) as [e|]; [|done]. cbn. destruct (1 <? e_count e); [destruct (_ && _)|]; by rewrite P.
Qed.

Lemma step_events_perm (o : op) (es es' : list entry) : functional es -> es' ≡ₚ es -> step_events o es' = step_events o es.
Proof. intros F P. destruct o as [k v|k v|k v|k]; cbn; by rewrite (dict_find_perm k es es' F P). Qed.

Lemma dict_step_length (o : op) (es : list entry) : (length (fst (dict_step o es)) <= S (length es))%nat.
Proof.
  destruct o as [k v|k v|k v|k]; cbn; unfold dict_add, dict_set, dict_remove, dict_replace, dict_update, dict_delete.
  - destruct (dict_find c k es) as [e|]; [|done]. destruct (_ && _); cbn; rewrite ?length_map; lia.
  - rewrite length_map. lia.
  - destruct (dict_find c k es) as [e|]; [rewrite length_map; lia|done].
  - destruct (dict_find c k es) as [e|]; [|cbn; lia]. cbn.
    destruct (1 <? e_count e); [destruct (_ && _); rewrite ?length_map; lia|]. pose proof (length_filter (fun e => key_eq c (e_key e) k = false) es). lia.
Qed.

End Abstract.

Lemma table_functional {h : CFBasicHash} {sl : list slot} {L : KeyLaws (ht_config h)} :
  table h sl -> functional (ht_config h) (entries sl).
Proof.
  intros [_ A _] e k [i Hi]%entries_elem Q.
  destruct (entry_split (ht_idx h) sl i k e A Hi Q) as (es1 & es2 & -> & _ & F1 & _). by apply dict_find_split.
Qed.

(** One operation. *)
Lemma hash_step_Ok {h : CFBasicHash} {sl : list slot} {L : KeyLaws (ht_config h)} (o : op) :
  table h sl -> is_mutable (ht_config h) = true -> op_ok (ht_config h) o -> ht_used h < max_entries ->
  exists h' sl', hash_step h o = Ok (h', snd (dict_step (ht_config h) o (entries sl))) /\ table h' sl' /\
    entries sl' ≡ₚ fst (dict_step (ht_config h) o (entries sl)) /\ logged h h' (step_events (ht_config h) o (entries sl)).
Proof.
  intros T HM O Hm. assert (forall hh, hh = h -> logged h hh []) as Same by (intros ? ->; split; [done|by rewrite app_nil_r]).
  destruct o as [k v|k v|k v|k]; cbn [hash_step op_ok dict_step step_events] in *.
  - destruct O as (? & ? & ?). destruct (add_value_Ok T k v) as (h' & -> & [(sl' & ? & ?) ? ?]); try done.
    exists h', sl'. unfold add_events in *. destruct (dict_add _ _ _ _). by split_and!.
  - destruct O as (? & ? & ?). pose proof (replace_value_Ok T k v) as H'. unfold replace_events in H'.
    destruct (dict_find _ k _) as [e|] eqn:F.
    + destruct H' as (h' & -> & [(sl' & ? & ?) ? ?]); try done. exists h', sl'. by split_and!.
    + rewrite H' by done. exists h, sl. split_and!; [done|done| |by apply Same].
      unfold dict_replace. by rewrite dict_update_absent by (by apply dict_find_None).
  - destruct O as (? & ? & ?). destruct (set_value_Ok_ T k v) as (h' & -> & [(sl' & ? & ?) ? ?]); try done.
    exists h', sl'. by split_and!.
  - pose proof (remove_value_Ok T k HM O) as H'. unfold remove_events, dict_remove in *.
    destruct (dict_find _ k _) as [e|] eqn:F; cbn [fst snd] in *.
    + destruct H' as (h' & -> & [(sl' & ? & ?) ? ?]). exists h', sl'. by split_and!.
    + rewrite H'. exists h, sl. split_and!; [done|done|done|by apply Same].
Qed.

(** ** Balance of retains and releases *)

Definition values_in (c : config) (evs : list event) : list Z := omap (fun e => match e with RetainValue v => Some (retained_value c v) | _ => None end) evs.
Definition values_out (evs : list event) : list Z := omap (fun e => match e with ReleaseValue v => Some v | _ => None end) evs.
Definition keys_in (c : config) (evs : list event) : list Z := omap (fun e => match e with RetainKey k => Some (retained_key c k) | _ => None end) evs.
Definition keys_out (evs : list event) : list Z := omap (fun e => match e with ReleaseKey k => Some k | _ => None end) evs.

(** What was retained is what was released and what the table holds. *)
Definition balanced (c : config) (evs : list event) (es : list entry) : Prop :=
  values_in c evs ≡ₚ values_out evs ++ map e_value es /\
  (has_keys c = true -> keys_in c evs ≡ₚ keys_out evs ++ map e_key es).

(** A table that counts references. *)
Definition counting (c : config) : Prop :=
  is_Some (retainValue (callbacks c)) /\ releaseValue (callbacks c) = true /\ null_rc c = false /\
  (has_keys c = true -> is_Some (retainKey (callbacks c)) /\ releaseKey (callbacks c) = true).

(** The entry that a key finds is the only one that has the key. *)
Definition keyed (c : config) (es : list entry) : Prop :=
  forall k e, dict_find c k es = Some e ->
    key_eq c (e_key e) k = true /\
    exists es1 es2, es = es1 ++ e :: es2 /\
      Forall (fun e => key_eq c (e_key e) k = false) es1 /\ Forall (fun e => key_eq c (e_key e) k = false) es2.

Lemma table_keyed {h : CFBasicHash} {sl : list slot} {L : KeyLaws (ht_config h)} :
  table h sl -> keyed (ht_config h) (entries sl).
Proof.
  intros [_ A _] k e [[i Hi]%entries_elem Q]%dict_find_Some. split; [done|].
  destruct (entry_split (ht_idx h) sl i k e A Hi Q) as (es1 & es2 & -> & _ & F1 & F2). by exists es1, es2.
Qed.

Section Balance.

Context {c : config} (C : counting c).

Lemma values_in_app (l1 l2 : list event) : values_in c (l1 ++ l2) = values_in c l1 ++ values_in c l2.
Proof. apply omap_app. Qed.
Lemma values_out_app (l1 l2 : list event) : values_out (l1 ++ l2) = values_out l1 ++ values_out l2.
Proof. apply omap_app. Qed.
Lemma keys_in_app (l1 l2 : list event) : keys_in c (l1 ++ l2) = keys_in c l1 ++ keys_in c l2.
Proof. apply omap_app. Qed.
Lemma keys_out_app (l1 l2 : list event) : keys_out (l1 ++ l2) = keys_out l1 ++ keys_out l2.
Proof. apply omap_app. Qed.

Lemma retains_counted (k v : Z) :
  values_in c (retains c k v) = [retained_value c v] /\ values_out (retains c k v) = [] /\
  (has_keys c = true -> keys_in c (retains c k v) = [retained_key c k]) /\ keys_out (retains c k v) = [].
Proof.
  destruct C as ([rv Ev] & _ & N & K). unfold retains, value_retains, key_retains. rewrite Ev, N.
  destruct (has_keys c); [|by split_and!]. destruct (K eq_refl) as [[rk Ek] _]. rewrite Ek. by split_and!.
Qed.

Lemma releases_counted (e : entry) :
  values_in c (releases c (Full e)) = [] /\ values_out (releases c (Full e)) = [e_value e] /\
  keys_in c (releases c (Full e)) = [] /\ (has_keys c = true -> keys_out (releases c (Full e)) = [e_key e]).
Proof.
  destruct C as (_ & Ev & N & K). unfold releases, value_releases, key_releases. rewrite Ev, N.
  destruct (has_keys c); [|by split_and!]. destruct (K eq_refl) as [_ ->]. by split_and!.
Qed.

Lemma balanced_add (evs : list event) (es : list entry) (k v n : Z) :
  balanced c evs es -> balanced c (evs ++ retains c k v) (new_entry c k v n :: es).
Proof.
  intros [BV BK]. destruct (retains_counted k v) as (V1 & V2 & K1 & K2). split.
  - rewrite values_in_app, values_out_app, V1, V2, app_nil_r, BV. cbn. solve_Permutation.
  - intros E. rewrite keys_in_app, keys_out_app, (K1 E), K2, app_nil_r, (BK E). cbn. unfold stored_key. rewrite E. solve_Permutation.
Qed.

Lemma balanced_release (evs : list event) (es1 es2 : list entry) (e : entry) :
  balanced c evs (es1 ++ e :: es2) -> balanced c (evs ++ releases c (Full e)) (es1 ++ es2).
Proof.
  intros [BV BK]. destruct (releases_counted e) as (V1 & V2 & K1 & K2). split.
  - rewrite values_in_app, values_out_app, V1, V2, app_nil_r, BV, !map_app. cbn. solve_Permutation.
  - intros E. rewrite keys_in_app, keys_out_app, K1, (K2 E), app_nil_r, (BK E), !map_app. cbn. solve_Permutation.
Qed.

Lemma balanced_perm (evs : list event) (es es' : list entry) : es ≡ₚ es' -> balanced c evs es -> balanced c evs es'.
Proof. intros P [BV BK]. split; [by rewrite BV, P|]. intros E. by rewrite (BK E), P. Qed.

(** Writing over an entry retains the new and releases the old. *)
Lemma balanced_replace (evs : list event) (es1 es2 : list entry) (e : entry) (k v n : Z) :
  balanced c evs (es1 ++ e :: es2) ->
  balanced c (evs ++ retains c k v ++ releases c (Full e)) (es1 ++ new_entry c k v n :: es2).
Proof.
  intros B. rewrite app_assoc. apply balanced_perm with ((new_entry c k v n :: es1) ++ es2); [cbn; solve_Permutation|].
  apply balanced_release. by apply balanced_add.
Qed.

Lemma balanced_recount (evs : list event) (es : list entry) (f : Z -> Z) (k : Z) :
  balanced c evs es -> balanced c evs (dict_update c (recount f) k es).
Proof.
  assert (forall g : entry -> Z, (forall e, g (recount f e) = g e) -> map g (dict_update c (recount f) k es) = map g es) as M.
  { intros g G. unfold dict_update. rewrite map_map. apply map_ext. intros e. destruct (key_eq _ _ _); [apply G|done]. }
  intros [BV BK]. split; [by rewrite M|]. intros E. rewrite M by done. by apply BK.
Qed.

Lemma step_balanced (o : op) (evs : list event) (es : list entry) :
  keyed c es -> balanced c evs es -> balanced c (evs ++ step_events c o es) (fst (dict_step c o es)).
Proof.
  intros K B. assert (forall k e v, dict_find c k es = Some e ->
    balanced c (evs ++ retains c k v ++ releases c (Full e)) (dict_replace c k v es)) as Rep.
  { intros k e v F. destruct (K k e F) as (Q & es1 & es2 & -> & F1 & F2). unfold dict_replace.
    rewrite dict_update_split by done. by apply balanced_replace. }
  destruct o as [k v|k v|k v|k]; cbn; unfold dict_add, dict_set, dict_remove; destruct (dict_find c k es) as [e|] eqn:F.
  - rewrite app_nil_r. destruct (_ && _); [by apply balanced_recount|done].
  - by apply balanced_add.
  - by apply Rep.
  - rewrite app_nil_r. unfold dict_replace. by rewrite dict_update_absent by (by apply dict_find_None).
  - by apply Rep.
  - by apply balanced_add.
  - cbn. destruct (1 <? e_count e).
    + rewrite app_nil_r. destruct (_ && _); [by apply balanced_recount|done].
    + destruct (K k e F) as (Q & es1 & es2 & -> & F1 & F2). rewrite dict_delete_split by done. by apply balanced_release.
  - by rewrite app_nil_r.
Qed.

End Balance.

(** ** Runs *)

Section Run.

Context {c : config} {L : KeyLaws c}.

Lemma hash_run_Ok (os : list op) (h : CFBasicHash) (sl : list slot) (es : list entry) :
  ht_config h = c -> table h sl -> entries sl ≡ₚ es -> is_mutable c = true -> Forall (op_ok c) os ->
  ht_used h + Z.of_nat (length os) <= max_entries ->
  exists h' sl', hash_run h os = Ok (h', snd (dict_run c os es)) /\ ht_config h' = c /\ table h' sl' /\
    entries sl' ≡ₚ fst (dict_run c os es) /\ ht_log h' = ht_log h ++ run_events c os es /\
    (counting c -> balanced c (ht_log h) (entries sl) -> balanced c (ht_log h') (entries sl')).
Proof.
  revert h sl es. induction os as [|o os IH]; intros h sl es Ec T P HM O Hm; cbn [hash_run dict_run].
  { exists h, sl. cbn. rewrite app_nil_r. by split_and!. }
  apply Forall_cons_1 in O as [O1 O]. cbn [length] in Hm. subst c.
  destruct (hash_step_Ok o T HM O1 ltac:(lia)) as (h1 & sl1 & -> & T1 & P1 & [Lc Ll]). cbn [mbind result_bind].
  destruct (dict_step_perm (ht_config h) o (entries sl) es (table_functional T)) as [PS RS]; [by symmetry|].
  pose proof (step_events_perm (ht_config h) o (entries sl) es (table_functional T) ltac:(by symmetry)) as EV. cbn [run_events]. rewrite EV.
  destruct (dict_step (ht_config h) o es) as [es1 r] eqn:ES. cbn [fst snd] in *.
  pose proof (dict_step_length (ht_config h) o (entries sl)) as LS.
  destruct (IH h1 sl1 es1 Lc T1) as (h2 & sl2 & E2 & Ec2 & T2 & P2 & Lg2 & B2); try done.
  { by rewrite P1, <- PS. }
  { rewrite (c_used _ _ (t_counted _ _ T1)), P1. rewrite (c_used _ _ (t_counted _ _ T)) in Hm. lia. }
  rewrite E2. cbn [mbind result_bind]. destruct (dict_run (ht_config h) os es1) as [es2 rs]. cbn [fst snd] in *.
  exists h2, sl2. split_and!; try done; [by rewrite RS|by rewrite Lg2, Ll, <- app_assoc|]. intros C B. apply B2; [done|].
  rewrite Ll. apply balanced_perm with (es := fst (dict_step (ht_config h) o (entries sl))); [by symmetry|].
  apply step_balanced; [done|by apply table_keyed|done].
Qed.

End Run.

(** ** Draining *)

Lemma emit_app (h : CFBasicHash) (l1 l2 : list event) : emit l2 (emit l1 h) = emit (l1 ++ l2) h.
Proof. unfold emit. cbn. by rewrite app_assoc. Qed.

Lemma eject_entry (h : CFBasicHash) (e : entry) :
  (if has_keys (ht_config h) then CFBasicHashEjectKey (CFBasicHashEjectValue h (e_value e)) (e_key e)
   else CFBasicHashEjectValue h (e_value e)) = emit (releases (ht_config h) (Full e)) h.
Proof.
  unfold CFBasicHashEjectKey, CFBasicHashEjectValue, releases, value_releases, key_releases, cb.
  destruct (releaseValue (callbacks (ht_config h))), (releaseKey (callbacks (ht_config h))) eqn:K, (null_rc (ht_config h)) eqn:N, (has_keys (ht_config h));
    cbn; rewrite ?N, ?K, ?emit_nil; cbn; rewrite ?emit_app; done.
Qed.

Lemma drain_loop_Ok {h : CFBasicHash} {sl : list slot} (R : reps h sl) (sl1 sl2 : list slot) (h0 : CFBasicHash) :
  sl = sl1 ++ sl2 -> ht_config h0 = ht_config h ->
  drain_loop (length sl2) h0 (ht_values h) (ht_keys h) (Z.of_nat (length sl1)) =
    Ok (emit (concat (map (releases (ht_config h)) sl2)) h0).
Proof.
  revert sl1 h0. induction sl2 as [|s sl2 IH]; intros sl1 h0 E C; cbn [length drain_loop map concat]; [by rewrite emit_nil|].
  assert (slot_at sl (Z.of_nat (length sl1)) = Some s) as Hs.
  { rewrite E. apply slot_at_Some. split; [lia|]. rewrite Nat2Z.id. by apply list_lookup_middle. }
  rewrite (r_values _ _ R), (aget_slot _ _ _ _ Hs), <- (r_values _ _ R). cbn [mbind result_bind].
  assert (sl = (sl1 ++ [s]) ++ sl2) as E' by by rewrite <- app_assoc.
  replace (Z.of_nat (length sl1) + 1) with (Z.of_nat (length (sl1 ++ [s]))) by (rewrite length_app; cbn; lia).
  destruct s as [| |e]; cbn [raw_value]; [by apply IH|by apply IH|].
  destruct (slot_entry_ok R _ _ Hs) as (O1 & O2 & _).
  destruct (encode_vacant (e_value e)) as [-> ->]. rewrite decode_encode by done. cbn [negb andb].
  assert ((if has_keys (ht_config (CFBasicHashEjectValue h0 (e_value e)))
    then old_key ← aget (ht_keys h) (Z.of_nat (length sl1)); Ok (CFBasicHashEjectKey (CFBasicHashEjectValue h0 (e_value e)) (decode old_key))
    else Ok (CFBasicHashEjectValue h0 (e_value e))) = Ok (emit (releases (ht_config h) (Full e)) h0)) as ->.
  { rewrite <- C, <- eject_entry. 
    assert (ht_config (CFBasicHashEjectValue h0 (e_value e)) = ht_config h0) as -> by (unfold CFBasicHashEjectValue; by destruct (_ || _)).
    rewrite C. destruct (has_keys (ht_config h)) eqn:K; [|done]. rewrite (r_keys _ _ R). unfold array_of. rewrite K, (aget_slot _ _ _ _ Hs).
    cbn [mbind result_bind raw_key]. by rewrite decode_encode. }
  cbn [mbind result_bind]. rewrite IH by done. by rewrite emit_app.
Qed.

Lemma concat_releases (c : config) (sl : list slot) :
  concat (map (releases c) sl) = concat (map (fun e => releases c (Full e)) (entries sl)).
Proof. unfold entries. induction sl as [|[| |e] sl IH]; cbn; [done|done|done|]. f_equal. exact IH. Qed.

(** The values and keys are released in the order of the buckets; the table is empty. *)
Lemma drain_Ok {h : CFBasicHash} {sl : list slot} :
  table h sl ->
  exists h', CFBasicHashDrain h = Ok h' /\ table h' [] /\ ht_mutations h' = u16 (ht_mutations h + 1) /\
    logged h h' (concat (map (fun e => releases (ht_config h) (Full e)) (entries sl))).
Proof.
  intros [R A C]. unfold CFBasicHashDrain, CFBasicHashNumBuckets. rewrite (r_size _ _ R). cbn [mbind result_bind]. rewrite Nat2Z.id.
  eexists. split; [apply (drain_loop_Ok R [] sl); done|]. rewrite concat_releases. split_and!; [|done|done].
  split; [split|split|split]; cbn; try done.
  - unfold array_of. by destruct (has_keys _).
  - unfold array_of. by destruct (has_counts _).
  - unfold array_of. by destruct (has_hashes _).
  - apply R.
  - intros i j e e' [_ ?]%slot_at_Some. done.
  - intros i e [_ ?]%slot_at_Some. done.
  - by exists 0.
Qed.

Lemma drain_balanced {c : config} (C : counting c) (es : list entry) (evs : list event) :
  balanced c evs es -> balanced c (evs ++ concat (map (fun e => releases c (Full e)) es)) [].
Proof.
  revert evs. induction es as [|e es IH]; intros evs B; cbn [map concat]; [by rewrite app_nil_r|].
  rewrite app_assoc. apply IH. by apply (balanced_release C evs [] es e).
Qed.

(** ** Creation *)

Definition created_config (flags : Z) (callBacks : CFBasicHashCallbacks) : config :=
  mkConfig true (Z.land (Z.shiftr flags 13) 3) (flag flags kCFBasicHashHasKeys) (flag flags kCFBasicHashHasCounts)
    (flag flags kCFBasicHashHasHashCache) (flag flags kCFBasicHashIndirectKeys) (flag flags kCFBasicHashAggressiveGrowth)
    false false callBacks.

Lemma create_Ok (flags : Z) (callBacks : CFBasicHashCallbacks) :
  flags_clash flags = false ->
  exists h, CFBasicHashCreate flags callBacks = Ok h /\ ht_config h = created_config flags callBacks /\ table h [] /\
    ht_used h = 0 /\ ht_log h = [].
Proof.
  intros F. unfold CFBasicHashCreate. rewrite F. eexists. split_and!; [done|done| |done|done].
  split; [split|split|split]; cbn; try done.
  - unfold array_of. by destruct (flag _ _).
  - unfold array_of. by destruct (flag _ _).
  - unfold array_of. by destruct (flag _ _).
  - intros i j e e' [_ ?]%slot_at_Some. done.
  - intros i e [_ ?]%slot_at_Some. done.
  - by exists 0.
Qed.

(** ** The theorems *)

(** C11. Any sequence of additions, replacements, settings and removals on a new CFBasicHash, in each of
    the three probing styles and with or without keys, counts and cached hash codes, succeeds; the
    values returned, the entries left and the calls of the retain and release callbacks are those of an
    abstract dictionary, and the table satisfies its invariant. *)
Theorem hash_run_refines (flags : Z) (callBacks : CFBasicHashCallbacks) (os : list op) :
  let c := created_config flags callBacks in
  flags_clash flags = false -> KeyLaws c -> Forall (op_ok c) os -> Z.of_nat (length os) <= max_entries ->
  exists h0 h sl, CFBasicHashCreate flags callBacks = Ok h0 /\ hash_run h0 os = Ok (h, snd (dict_run c os [])) /\
    table h sl /\ entries sl ≡ₚ fst (dict_run c os []) /\ ht_log h = run_events c os [].
Proof.
  intros c F L O Hm. destruct (create_Ok flags callBacks F) as (h0 & E0 & C0 & T0 & U0 & L0).
  destruct (hash_run_Ok os h0 [] [] C0 T0) as (h & sl & E & _ & T & P & Lg & _); [done|done|done|lia|].
  exists h0, h, sl. rewrite L0 in Lg. by split_and!.
Qed.

(** C12. A CFBasicHash that counts references and lives through any sequence of operations until it is
    deallocated has released every value and every key exactly as often as it retained it. *)
Theorem hash_lifetime_balanced (flags : Z) (callBacks : CFBasicHashCallbacks) (os : list op) :
  let c := created_config flags callBacks in
  flags_clash flags = false -> KeyLaws c -> counting c -> Forall (op_ok c) os -> Z.of_nat (length os) <= max_entries ->
  exists h0 h rs h', CFBasicHashCreate flags callBacks = Ok h0 /\ hash_run h0 os = Ok (h, rs) /\ CFBasicHashDeallocate h = Ok h' /\
    ht_used h' = 0 /\ values_in c (ht_log h') ≡ₚ values_out (ht_log h') /\
    (has_keys c = true -> keys_in c (ht_log h') ≡ₚ keys_out (ht_log h')).
Proof.
  intros c F L C O Hm. destruct (create_Ok flags callBacks F) as (h0 & E0 & C0 & T0 & U0 & L0).
  destruct (hash_run_Ok os h0 [] [] C0 T0) as (h & sl & E & Ec & T & _ & _ & B); [done|done|done|lia|].
  assert (balanced c (ht_log h) (entries sl)) as Bh by (apply B; [done|]; rewrite L0; done).
  assert (table (set_config (set_finalized (ht_config h)) h) sl) as Tf.
  { destruct T as [[] [] []]. split; [by split|by split|by split]. }
  destruct (drain_Ok Tf) as (h' & E' & T' & _ & [Lc' Ll']).
  assert (balanced c (ht_log h') []) as [BV BK].
  { rewrite Ll'. change (ht_config (set_config _ h)) with (set_finalized (ht_config h)). rewrite Ec.
    exact (drain_balanced C (entries sl) (ht_log h) Bh). }
  exists h0, h, (snd (dict_run c os [])), h'. split_and!; try done.
  - unfold CFBasicHashDeallocate. assert (finalized (ht_config h) = false) as -> by (by rewrite Ec). done.
  - by rewrite (c_used _ _ (t_counted _ _ T')).
  - by rewrite app_nil_r in BV.
  - intros K. specialize (BK K). by rewrite app_nil_r in BK.
Qed.

(** ** A dictionary of words *)

Definition word_callbacks : CFBasicHashCallbacks :=
  mkCallbacks (Some (fun v => v)) (Some (fun k => k)) true true None None None None.

(** Keys, counts and hash codes, probed with the powers of a primitive root. *)
Definition word_flags : Z :=
  kCFBasicHashHasKeys + kCFBasicHashHasCounts + kCFBasicHashHasHashCache + kCFBasicHashExponentialHashing.

#[export] Instance word_laws : KeyLaws (created_config word_flags word_callbacks).
Proof.
  split.
  - intros a. apply Z.eqb_refl.
  - intros a b H%Z.eqb_eq. by apply Z.eqb_eq.
  - intros a b d H1%Z.eqb_eq H2%Z.eqb_eq. apply Z.eqb_eq. congruence.
  - intros a b H%Z.eqb_eq. exact H.
  - right. right. reflexivity.
  - reflexivity.
Qed.

Definition word_ops : list op := [OpAdd 5 50; OpAdd 0 60; OpAdd 5 70; OpSet 0 61; OpReplace 9 1; OpAdd 7 (2 ^ 64 - 1); OpAdd 8 1; OpRemove 5; OpRemove 5; OpRemove 4].

(** The table after these operations. *)
Definition word_hash : CFBasicHash :=
  match (h0 ← CFBasicHashCreate word_flags word_callbacks; hash_run h0 word_ops) with
  | Ok (h, _) => h
  | _ => mkHash (created_config word_flags word_callbacks) 0 0 0 0 0 [] [] [] [] []
  end.

Lemma word_ops_ok : Forall (op_ok (created_config word_flags word_callbacks)) word_ops.
Proof. repeat constructor. Qed.

#[export] Instance word_hash_laws : KeyLaws (ht_config word_hash).
Proof. exact word_laws. Qed.

Lemma word_table : exists sl, table word_hash sl /\ entries sl ≡ₚ [mkEntry 8 1 1; mkEntry 7 (2 ^ 64 - 1) 1; mkEntry 0 61 1].
Proof.
  destruct (create_Ok word_flags word_callbacks eq_refl) as (h0 & E0 & C0 & T0 & U0 & L0).
  destruct (hash_run_Ok word_ops h0 [] [] C0 T0) as (h & sl & E & _ & T & P & _); [done|done|apply word_ops_ok|rewrite U0; vm_compute; done|].
  exists sl. assert (word_hash = h) as ->; [|done]. unfold word_hash. rewrite E0. cbn [mbind result_bind]. by rewrite E.
Qed.

Lemma hash_run_witness :
  exists h0 h sl, CFBasicHashCreate word_flags word_callbacks = Ok h0 /\ hash_run h0 word_ops = Ok (h, [1; 1; 1; 0; 0; 1; 1; 2; 1; 0]) /\
    table h sl /\ entries sl ≡ₚ [mkEntry 8 1 1; mkEntry 7 (2 ^ 64 - 1) 1; mkEntry 0 61 1] /\
    ht_log h = [RetainValue 50; RetainKey 5; RetainValue 60; RetainKey 0; RetainValue 61; RetainKey 0; ReleaseValue 60; ReleaseKey 0;
                RetainValue (2 ^ 64 - 1); RetainKey 7; RetainValue 1; RetainKey 8; ReleaseValue 50; ReleaseKey 5].
Proof.
  apply (hash_run_refines word_flags word_callbacks word_ops); [reflexivity|apply word_laws| |vm_compute; discriminate].
  apply word_ops_ok.
Defined.

Lemma hash_lifetime_witness :
  exists h0 h rs h', CFBasicHashCreate word_flags word_callbacks = Ok h0 /\ hash_run h0 word_ops = Ok (h, rs) /\
    CFBasicHashDeallocate h = Ok h' /\ ht_used h' = 0 /\
    values_in (created_config word_flags word_callbacks) (ht_log h') ≡ₚ values_out (ht_log h') /\
    (true = true -> keys_in (created_config word_flags word_callbacks) (ht_log h') ≡ₚ keys_out (ht_log h')).
Proof.
  apply (hash_lifetime_balanced word_flags word_callbacks word_ops);
    [reflexivity|apply word_laws| | |vm_compute; discriminate].
  - split; [by eexists|]. split; [done|]. split; [done|]. intros _. split; [by eexists|done].
  - apply word_ops_ok.
Defined.

End HashRun.
