(* ===== verification/HashQuery.v ===== *)
(** * CFBasicHash: queries, enumeration, equality and copies

    What the read-only functions compute from the entries of a table, that equality of
    tables is a one-to-one matching of their entries, and that a copy holds the same
    entries in the same buckets. *)

From stdpp Require Import base list numbers option.
From Stdlib Require Import ZArith Lia.
From S2P Require Import Prelude BasicHash HashProbe HashTable HashRehash HashOps HashDict HashRun.

Module HashQuery.
Import BasicHash HashProbe HashTable HashRehash HashOps HashDict HashRun.

(** ** Visiting the buckets *)

Fixpoint buckets_from (i : Z) (sl : list slot) : list CFBasicHashBucket :=
  match sl with
  | [] => []
  | Full e :: sl => bucket_of i e :: buckets_from (i + 1) sl
  | _ :: sl => buckets_from (i + 1) sl
  end.
Definition buckets (sl : list slot) : list CFBasicHashBucket := buckets_from 0 sl.

Definition bucket_entry (b : CFBasicHashBucket) : entry := mkEntry (b_key b) (b_value b) (b_count b).

Lemma buckets_entries (i : Z) (sl : list slot) : map bucket_entry (buckets_from i sl) = entries sl.
Proof.
  unfold entries. revert i. induction sl as [|[| |e] sl IH]; intros i; cbn; [done|apply IH|apply IH|].
  rewrite IH. by destruct e.
Qed.

Fixpoint visit {S} (block : CFBasicHashBucket -> S -> result (S * bool)) (bs : list CFBasicHashBucket) (s : S) : result S :=
  match bs with
  | [] => Ok s
  | b :: bs => '(s, go) ← block b s; if negb go then Ok s else visit block bs s
  end.

Lemma visit_fold {S} (block : CFBasicHashBucket -> S -> result (S * bool)) (f : S -> CFBasicHashBucket -> S) (bs : list CFBasicHashBucket) (s : S) :
  (forall b s, block b s = Ok (f s b, true)) -> visit block bs s = Ok (foldl f s bs).
Proof. intros H. revert s. induction bs as [|b bs IH]; intros s; cbn; [done|]. rewrite H. apply IH. Qed.

Lemma visit_all (block : CFBasicHashBucket -> bool -> result (bool * bool)) (P : CFBasicHashBucket -> bool) (bs : list CFBasicHashBucket) :
  (forall b acc, b ∈ bs -> block b acc = Ok (if P b then (acc, true) else (false, false))) -> visit block bs true = Ok (forallb P bs).
Proof.
  induction bs as [|b bs IH]; intros H; cbn; [done|]. rewrite H by left. cbn [mbind result_bind].
  destruct (P b); cbn; [|done]. apply IH. intros b' acc Hb. apply H. by right.
Qed.

Section Query.

Context {h : CFBasicHash} {sl : list slot} {L : KeyLaws (ht_config h)} (T : table h sl).

#[local] Abbreviation c := (ht_config h).

Lemma split_slot (sl1 sl2 : list slot) (s : slot) :
  sl = sl1 ++ s :: sl2 -> slot_at sl (Z.of_nat (length sl1)) = Some s.
Proof. intros ->. apply slot_at_Some. split; [lia|]. rewrite Nat2Z.id. by apply list_lookup_middle. Qed.

Lemma count_positive (i : Z) (e : entry) : slot_at sl i = Some (Full e) -> 1 <= e_count e.
Proof. intros Hs. by destruct (slot_entry_ok (t_reps _ _ T) i e Hs) as (_ & _ & ? & _). Qed.

(** The loop ends with the last entry; no entry is behind. *)
Lemma apply_loop_visits {S} (block : CFBasicHashBucket -> S -> result (S * bool)) (sl1 sl2 : list slot) (s : S) :
  sl = sl1 ++ sl2 ->
  apply_loop (length sl2) h block (Z.of_nat (length (entries sl2))) (Z.of_nat (length sl1)) s =
  visit block (buckets_from (Z.of_nat (length sl1)) sl2) s.
Proof.
  revert sl1 s. induction sl2 as [|x sl2 IH]; intros sl1 s E; cbn [length apply_loop]; [reflexivity|].
  assert (sl = (sl1 ++ [x]) ++ sl2) as E' by by rewrite <- app_assoc.
  assert (Z.of_nat (length sl1) + 1 = Z.of_nat (length (sl1 ++ [x]))) as EI by (rewrite length_app; cbn; lia).
  pose proof (split_slot sl1 sl2 x E) as Hs. rewrite (get_bucket (t_reps _ _ T) _ _ Hs).
  destruct (Z.ltb_spec 0 (Z.of_nat (length (entries (x :: sl2))))) as [Hp|Hz]; cbn [negb mbind result_bind].
  - destruct x as [| |e]; cbn [b_count bucket_of buckets_from]; rewrite EI; [by apply IH|by apply IH|].
    pose proof (count_positive _ _ Hs). rewrite (proj2 (Z.ltb_lt 0 _)) by lia. cbn [visit].
    destruct (block _ s) as [[s' go]| | |]; cbn [mbind result_bind]; try done. destruct go; [|done]. cbn [negb].
    rewrite <- (IH (sl1 ++ [Full e])) by done. f_equal. unfold entries. cbn. lia.
  - assert (entries (x :: sl2) = []) as N by (apply nil_length_inv; lia).
    rewrite <- (buckets_entries (Z.of_nat (length sl1))) in N. apply fmap_nil_inv in N. by rewrite N.
Qed.

Lemma apply_visits {S} (block : CFBasicHashBucket -> S -> result (S * bool)) (s : S) :
  CFBasicHashApply h block s = visit block (buckets sl) s.
Proof.
  unfold CFBasicHashApply, CFBasicHashNumBuckets. rewrite (r_size _ _ (t_reps _ _ T)). cbn [mbind result_bind].
  rewrite Nat2Z.id, (c_used _ _ (t_counted _ _ T)). by apply (apply_loop_visits block []).
Qed.

(** ** Counts *)

Definition total (es : list entry) : Z := foldr (fun e n => e_count e + n) 0 es.

Lemma total_cons (e : entry) (es : list entry) : total (e :: es) = e_count e + total es.
Proof. done. Qed.

Lemma total_app (l1 l2 : list entry) : total (l1 ++ l2) = total l1 + total l2.
Proof. unfold total. induction l1 as [|e l1 IH]; cbn; [done|]. lia. Qed.

#[export] Instance total_proper : Proper ((≡ₚ) ==> (=)) total.
Proof. intros l1 l2 P. unfold total. induction P; cbn in *; lia. Qed.

Lemma total_length (es : list entry) : (forall e, e ∈ es -> 1 <= e_count e) -> Z.of_nat (length es) <= total es.
Proof.
  induction es as [|e es IH]; intros P; [done|]. rewrite total_cons. cbn [length]. pose proof (P e ltac:(left)).
  specialize (IH ltac:(intros x Hx; apply P; by right)). lia.
Qed.

Lemma get_count_of_key (k : Z) :
  CFBasicHashGetCountOfKey h k =
    Ok (if is_substitute k then 0 else match dict_find c k (entries sl) with Some e => e_count e | None => 0 end).
Proof.
  unfold CFBasicHashGetCountOfKey. destruct (is_substitute k); [done|].
  destruct (Z.eqb_spec 0 (ht_used h)) as [U|].
  - rewrite (c_used _ _ (t_counted _ _ T)) in U. assert (entries sl = []) as -> by (apply nil_length_inv; lia). done.
  - destruct (find_bucket_Ok T k) as (b & -> & Lk). destruct Lk as [i e _ _ -> _|i _ ->]; done.
Qed.

Lemma sum_counts_Ok (sl1 sl2 : list slot) (n : Z) :
  has_counts c = true -> sl = sl1 ++ sl2 ->
  sum_counts (length sl2) h (Z.of_nat (length sl1)) n = Ok (n + total (entries sl2)).
Proof.
  intros K. revert sl1 n. induction sl2 as [|x sl2 IH]; intros sl1 n E; cbn [length sum_counts]; [f_equal; cbn; lia|].
  pose proof (split_slot sl1 sl2 x E) as Hs. unfold CFBasicHashGetSlotCount. rewrite (r_counts _ _ (t_reps _ _ T)).
  unfold array_of. rewrite K, (aget_slot _ _ _ _ Hs). cbn [mbind result_bind].
  replace (Z.of_nat (length sl1) + 1) with (Z.of_nat (length (sl1 ++ [x]))) by (rewrite length_app; cbn; lia).
  rewrite IH by (by rewrite <- app_assoc). f_equal. unfold entries, total. destruct x; cbn; lia.
Qed.

Lemma uncounted_total : has_counts c = false -> total (entries sl) = Z.of_nat (length (entries sl)).
Proof.
  intros K. pose proof (r_slots _ _ (t_reps _ _ T)) as F. unfold entries, total in *. clear T. induction F as [|s l O F IH]; [done|].
  destruct s; cbn in *; [done|done|]. destruct O as (_ & _ & O). rewrite K in O. lia.
Qed.

Lemma get_count_total : CFBasicHashGetCount h = Ok (total (entries sl)).
Proof.
  unfold CFBasicHashGetCount. destruct (has_counts c) eqn:K.
  - unfold CFBasicHashNumBuckets. rewrite (r_size _ _ (t_reps _ _ T)). cbn [mbind result_bind]. rewrite Nat2Z.id.
    etransitivity; [exact (sum_counts_Ok [] sl 0 K eq_refl)|f_equal; lia].
  - rewrite uncounted_total by done. by rewrite (c_used _ _ (t_counted _ _ T)).
Qed.

(** With keys every entry is compared; without, values are keys and are searched for. *)
Definition value_eq (a b : Z) : bool := match equateValues (callbacks c) with None => a =? b | Some func => func a b end.

Lemma get_count_of_value (v : Z) :
  CFBasicHashGetCountOfValue h v =
    Ok (if CFBasicHashSubABZero =? v then 0
        else if has_keys c then total (filter (fun e => (v =? e_value e) || value_eq (e_value e) v = true) (entries sl))
        else match dict_find c v (entries sl) with Some e => e_count e | None => 0 end).
Proof.
  unfold CFBasicHashGetCountOfValue. destruct (CFBasicHashSubABZero =? v); [done|].
  destruct (Z.eqb_spec 0 (ht_used h)) as [U|].
  { rewrite (c_used _ _ (t_counted _ _ T)) in U. assert (entries sl = []) as -> by (apply nil_length_inv; lia). by destruct (has_keys c). }
  destruct (has_keys c); cbn [negb].
  - rewrite apply_visits. erewrite visit_fold by done. f_equal. unfold buckets.
    rewrite <- (buckets_entries 0 sl). generalize (buckets_from 0 sl) as bs. intros bs.
    assert (forall n, foldl (fun n b => if (v =? b_value b) || CFBasicHashTestEqualValue h (b_value b) v then n + b_count b else n) n bs =
      n + total (filter (fun e => (v =? e_value e) || value_eq (e_value e) v = true) (map bucket_entry bs))) as G; [|apply G].
    induction bs as [|b bs IH]; intros m; [cbn; lia|]. cbn [foldl map]. rewrite IH.
    change (CFBasicHashTestEqualValue h (b_value b) v) with (value_eq (b_value b) v).
    destruct ((v =? b_value b) || value_eq (b_value b) v) eqn:B.
    + rewrite filter_cons_True, total_cons by done. cbn [bucket_entry e_count]. lia.
    + rewrite filter_cons_False by (cbn; congruence). done.
  - destruct (find_bucket_Ok T v) as (b & -> & Lk). destruct Lk as [i e _ _ -> _|i _ ->]; done.
Qed.

(** ** Copying out *)

(** Each value and key as often as it counts, in bucket order. *)
Definition listing (es : list entry) : list (Z * Z) := es ≫= fun e => replicate (Z.to_nat (e_count e)) (e_value e, e_key e).

Lemma elements_loop_Ok (sl1 sl2 : list slot) (bufferslen : Z) (out : list (Z * Z)) :
  sl = sl1 ++ sl2 -> Z.of_nat (length out) <= Z.max 0 bufferslen ->
  elements_loop (length sl2) h bufferslen (Z.of_nat (length (entries sl2))) (Z.of_nat (length sl1)) out =
  Ok (out ++ take (Z.to_nat bufferslen - length out) (listing (entries sl2))).
Proof.
  revert sl1 out. induction sl2 as [|x sl2 IH]; intros sl1 out E Ho; cbn [length elements_loop].
  { cbn. by rewrite take_nil, app_nil_r. }
  assert (sl = (sl1 ++ [x]) ++ sl2) as E' by by rewrite <- app_assoc.
  assert (Z.of_nat (length sl1) + 1 = Z.of_nat (length (sl1 ++ [x]))) as EI by (rewrite length_app; cbn; lia).
  pose proof (split_slot sl1 sl2 x E) as Hs. rewrite (get_bucket (t_reps _ _ T) _ _ Hs).
  destruct (Z.ltb_spec 0 (Z.of_nat (length (entries (x :: sl2))))) as [Hp|Hz]; cbn [negb andb].
  2:{ assert (entries (x :: sl2) = []) as -> by (apply nil_length_inv; lia). cbn. by rewrite take_nil, app_nil_r. }
  destruct (Z.ltb_spec (Z.of_nat (length out)) bufferslen); cbn [negb mbind result_bind].
  2:{ replace (Z.to_nat bufferslen - length out)%nat with 0%nat by lia. by rewrite take_0, app_nil_r. }
  destruct x as [| |e]; cbn [b_count b_value b_key bucket_of]; rewrite EI; [by apply IH|by apply IH|].
  pose proof (count_positive _ _ Hs). rewrite (proj2 (Z.ltb_lt 0 _)) by lia.
  change (entries (Full e :: sl2)) with (e :: entries sl2). cbn [length].
  replace (Z.of_nat (S (length (entries sl2))) - 1) with (Z.of_nat (length (entries sl2))) by lia.
  set (room := bufferslen - Z.of_nat (length out)).
  rewrite IH; [|done|rewrite length_app, length_replicate; lia]. f_equal. rewrite <- app_assoc. f_equal.
  unfold listing. cbn [mbind list_bind]. rewrite take_app, length_app, !length_replicate, take_replicate. f_equal; f_equal; lia.
Qed.

(** The first [bufferslen] of the listing. *)
Lemma get_elements_Ok (bufferslen : Z) :
  CFBasicHashGetElements h bufferslen = Ok (take (Z.to_nat bufferslen) (listing (entries sl))).
Proof.
  unfold CFBasicHashGetElements, CFBasicHashNumBuckets. rewrite (r_size _ _ (t_reps _ _ T)). cbn [mbind result_bind].
  rewrite Nat2Z.id, (c_used _ _ (t_counted _ _ T)). etransitivity; [apply (elements_loop_Ok [] sl); [done|cbn; lia]|].
  cbn. by rewrite Nat.sub_0_r.
Qed.

(** ** Fast enumeration *)

Lemma enumeration_loop_Ok (sl1 sl2 : list slot) (count used : Z) (items : list Z) :
  sl = sl1 ++ sl2 -> Z.of_nat (length (entries sl2)) <= used -> Z.of_nat (length items) <= count ->
  exists a b, sl2 = a ++ b /\
    enumeration_loop (length sl2) h count used (Z.of_nat (length sl1)) items =
      Ok (items ++ map e_key (entries a), Z.of_nat (length (sl1 ++ a))) /\
    (Z.of_nat (length items + length (entries a)) = count \/ entries b = []).
Proof.
  revert sl1 used items. induction sl2 as [|x sl2 IH]; intros sl1 used items E Hu Hc; cbn [length enumeration_loop].
  { exists [], []. rewrite !app_nil_r. by auto. }
  assert (sl = (sl1 ++ [x]) ++ sl2) as E' by by rewrite <- app_assoc.
  assert (Z.of_nat (length sl1) + 1 = Z.of_nat (length (sl1 ++ [x]))) as EI by (rewrite length_app; cbn; lia).
  pose proof (split_slot sl1 sl2 x E) as Hs. rewrite (get_bucket (t_reps _ _ T) _ _ Hs).
  destruct (Z.ltb_spec 0 used); cbn [negb andb].
  2:{ exists [], (x :: sl2). rewrite !app_nil_r. split_and!; [done|done|]. right. apply nil_length_inv. lia. }
  destruct (Z.ltb_spec (Z.of_nat (length items)) count); cbn [negb mbind result_bind].
  2:{ exists [], (x :: sl2). rewrite !app_nil_r. split_and!; [done|done|]. left. cbn. lia. }
  destruct x as [| |e]; cbn [b_count b_key bucket_of]; rewrite EI.
  - destruct (IH (sl1 ++ [Empty]) used items E' Hu Hc) as (a & b & -> & -> & D). exists (Empty :: a), b.
    split_and!; [done|by rewrite <- app_assoc|done].
  - destruct (IH (sl1 ++ [Deleted]) used items E' Hu Hc) as (a & b & -> & -> & D). exists (Deleted :: a), b.
    split_and!; [done|by rewrite <- app_assoc|done].
  - pose proof (count_positive _ _ Hs). rewrite (proj2 (Z.ltb_lt 0 _)) by lia.
    change (entries (Full e :: sl2)) with (e :: entries sl2) in Hu. cbn [length] in Hu.
    destruct (IH (sl1 ++ [Full e]) (used - 1) (items ++ [e_key e]) E') as (a & b & -> & -> & D); [lia|rewrite length_app; cbn; lia|].
    exists (Full e :: a), b. rewrite length_app in D. cbn [length] in D. change (entries (Full e :: a)) with (e :: entries a).
    split_and!; [done|by rewrite <- !app_assoc|]. destruct D as [D|D]; [left; cbn; lia|by right].
Qed.

(** A client that asks for batches of [count] until one is empty. *)
Fixpoint enumerate (fuel : nat) (g : CFBasicHash) (count state : Z) : result (list Z) :=
  match fuel with
  | O => NoFuel
  | S fuel =>
    '(items, state) ← CFBasicHashFastEnumeration g state count;
    if decide (items = []) then Ok [] else rest ← enumerate fuel g count state; Ok (items ++ rest)
  end.

Lemma enumerate_Ok (fuel : nat) (sl1 sl2 : list slot) (count : Z) :
  sl = sl1 ++ sl2 -> 0 < count -> (length (entries sl2) < fuel)%nat ->
  enumerate fuel h count (Z.of_nat (length sl1)) = Ok (map e_key (entries sl2)).
Proof.
  intros E Hc. revert sl1 sl2 E. induction fuel as [|fuel IH]; intros sl1 sl2 E Hf; [lia|]. cbn [enumerate].
  unfold CFBasicHashFastEnumeration, CFBasicHashNumBuckets. rewrite (r_size _ _ (t_reps _ _ T)). cbn [mbind result_bind].
  replace (Z.to_nat (Z.of_nat (length sl) - Z.of_nat (length sl1))) with (length sl2) by (rewrite E, length_app; lia).
  destruct (enumeration_loop_Ok sl1 sl2 count (ht_used h) [] E) as (a & b & -> & -> & D).
  { rewrite (c_used _ _ (t_counted _ _ T)), E. unfold entries. rewrite omap_app, length_app. lia. }
  { cbn. lia. }
  cbn [app length mbind result_bind] in *. unfold entries in *. rewrite omap_app in *. rewrite length_app in Hf.
  destruct (decide (map e_key (omap slot_entry a) = [])) as [N|N].
  - apply fmap_nil_inv in N. rewrite N in *. destruct D as [D|D]; [cbn in D; lia|]. by rewrite D.
  - rewrite (IH (sl1 ++ a) b); [cbn [mbind result_bind]; by rewrite map_app|by rewrite <- app_assoc|].
    destruct (omap slot_entry a); [done|]. cbn in Hf. lia.
Qed.

End Query.

(** ** Equality *)

Section Equal.

Context {h1 h2 : CFBasicHash} {sl1 sl2 : list slot} {L1 : KeyLaws (ht_config h1)} {L2 : KeyLaws (ht_config h2)}
  (T1 : table h1 sl1) (T2 : table h2 sl2).

#[local] Abbreviation c1 := (ht_config h1).
#[local] Abbreviation c2 := (ht_config h2).

(** The entries are equal as the first table compares them. *)
Definition same_entry (e1 e2 : entry) : Prop :=
  key_eq c2 (e_key e2) (e_key e1) = true /\ e_count e1 = e_count e2 /\
  (has_keys c1 = true -> e_value e1 = e_value e2 \/ value_eq (h := h1) (e_value e1) (e_value e2) = true).

Definition partner (e1 : entry) : option entry := dict_find c2 (e_key e1) (entries sl2).

Definition matches (e1 : entry) : bool :=
  match partner e1 with
  | None => false
  | Some e2 =>
    (e_count e1 =? e_count e2) && (negb (has_keys c1) || (e_value e1 =? e_value e2) || value_eq (h := h1) (e_value e1) (e_value e2))
  end.

Lemma matches_iff (e1 : entry) : matches e1 = true <-> exists e2, partner e1 = Some e2 /\ same_entry e1 e2.
Proof.
  unfold matches, same_entry. destruct (partner e1) as [e2|] eqn:P; [|split; [done|by intros (? & ? & _)]].
  pose proof (dict_find_Some _ _ _ _ P) as [_ Q]. rewrite andb_true_iff, !orb_true_iff, Z.eqb_eq.
  split.
  - intros [C V]. exists e2. split_and!; try done. intros K. rewrite K in V. destruct V as [[?|?%Z.eqb_eq]|?]; auto; done.
  - intros (e & [= <-] & _ & C & V). split; [done|]. destruct (has_keys c1); [|by auto].
    destruct (V eq_refl) as [->|]; [|by auto]. left. right. apply Z.eqb_refl.
Qed.

Lemma equal_computes :
  CFBasicHashesAreEqual h1 h2 = Ok ((total (entries sl1) =? total (entries sl2)) && forallb matches (entries sl1)).
Proof.
  unfold CFBasicHashesAreEqual. rewrite (get_count_total T1), (get_count_total T2). cbn [mbind result_bind].
  destruct (Z.eqb_spec (total (entries sl1)) (total (entries sl2))) as [ET|NT]; cbn [negb andb]; [|done].
  assert (forall e, e ∈ entries sl1 -> 1 <= e_count e) as Pos.
  { intros e [i Hi]%entries_elem. by apply (count_positive T1 i). }
  destruct (Z.eqb_spec 0 (total (entries sl1))) as [Z|].
  { pose proof (total_length _ Pos). assert (entries sl1 = []) as -> by (apply nil_length_inv; lia). done. }
  rewrite (apply_visits T1). rewrite (visit_all _ (fun b => matches (bucket_entry b))).
  - f_equal. rewrite <- (buckets_entries 0 sl1). unfold buckets. induction (buckets_from 0 sl1) as [|b bs IH]; cbn; [done|]. by rewrite IH.
  - intros b acc Hb. destruct (find_bucket_Ok T2 (b_key b)) as (b2 & -> & Lk). cbn [mbind result_bind].
    assert (1 <= b_count b) as Pb.
    { apply (Pos (bucket_entry b)). rewrite <- (buckets_entries 0 sl1). by apply list_elem_of_fmap_2. }
    unfold matches, partner. cbn [bucket_entry e_key e_count e_value].
    destruct Lk as [i e _ _ -> _|i _ ->]; cbn [b_count b_value bucket_of].
    + change (CFBasicHashTestEqualValue h1) with (value_eq (h := h1)).
      destruct (b_count b =? e_count e), (has_keys c1), (b_value b =? e_value e), (value_eq _ _); done.
    + destruct (Z.eqb_spec (b_count b) 0); [lia|done].
Qed.

(** Both tables compare keys alike. *)
Context (KE : forall a b, key_eq c1 a b = key_eq c2 a b).

(** No two entries of the first table have the same partner. *)
Lemma keyed_index {c : config} {L : KeyLaws c} (es : list entry) (i j : nat) (e e' : entry) (k : Z) :
  keyed c es -> es !! i = Some e -> es !! j = Some e' -> key_eq c (e_key e) k = true -> key_eq c (e_key e') k = true -> i = j.
Proof.
  intros K Hi Hj Qi Qj. destruct (dict_find c k es) as [e0|] eqn:F.
  - destruct (K k e0 F) as (_ & l1 & l2 & -> & F1 & F2).
    assert (forall n x, (l1 ++ e0 :: l2) !! n = Some x -> key_eq c (e_key x) k = true -> n = length l1) as U.
    { intros n x Hn Q. apply lookup_app_Some in Hn as [Hn|[Hl Hn]].
      - apply (Forall_lookup_1 _ _ _ _ F1) in Hn. congruence.
      - apply lookup_cons_Some in Hn as [[Hz _]|[Hz Hn]]; [lia|]. apply (Forall_lookup_1 _ _ _ _ F2) in Hn. congruence. }
    rewrite (U _ _ Hi Qi), (U _ _ Hj Qj). done.
  - apply dict_find_None in F. apply (Forall_lookup_1 _ _ _ _ F) in Hi. congruence.
Qed.

Lemma partners (es : list entry) :
  forallb matches es = true -> exists es2, Forall2 (fun e1 e2 => partner e1 = Some e2 /\ same_entry e1 e2) es es2.
Proof.
  induction es as [|e es IH]; cbn; [by exists []|]. intros [(e2 & P & S)%matches_iff (es2 & F)%IH]%andb_true_iff.
  exists (e2 :: es2). by constructor.
Qed.

Lemma Forall2_total (R : entry -> entry -> Prop) (es es' : list entry) :
  (forall e e', R e e' -> e_count e = e_count e') -> Forall2 R es es' -> total es = total es'.
Proof. intros H F. unfold total. induction F as [|e e' es es' E F IH]; cbn; [done|]. rewrite (H _ _ E). lia. Qed.

Lemma partners_cover (es2 : list entry) :
  Forall2 (fun e1 e2 => partner e1 = Some e2 /\ same_entry e1 e2) (entries sl1) es2 -> total (entries sl1) = total (entries sl2) ->
  es2 ≡ₚ entries sl2.
Proof.
  intros F Tot. assert (es2 ⊆+ entries sl2) as [rest P]%submseteq_Permutation.
  { apply NoDup_submseteq.
    - apply NoDup_alt. intros i j x Hi Hj.
      destruct (Forall2_lookup_r _ _ _ _ _ F Hi) as (e & He & _ & S & _), (Forall2_lookup_r _ _ _ _ _ F Hj) as (e' & He' & _ & S' & _).
      apply (keyed_index (entries sl1) i j e e' (e_key x) (table_keyed T1) He He'); rewrite KE; by apply key_eq_sym.
    - intros x [i Hi]%list_elem_of_lookup_1. destruct (Forall2_lookup_r _ _ _ _ _ F Hi) as (e & _ & Pa & _).
      by apply dict_find_Some in Pa as [? _]. }
  assert (total es2 = total (entries sl1)) as TE by (symmetry; eapply Forall2_total, F; by intros ? ? (_ & _ & ? & _)).
  assert (total (entries sl2) = total es2 + total rest) as TR by (by rewrite P, total_app).
  assert (rest = []) as ->; [|by rewrite app_nil_r in P].
  apply nil_length_inv. pose proof (total_length rest) as TL. 
  enough (forall e, e ∈ rest -> 1 <= e_count e) as Pos by (specialize (TL Pos); lia).
  intros e He. assert (e ∈ entries sl2) as [i Hi]%entries_elem by (rewrite P; apply elem_of_app; by right).
  by apply (count_positive T2 i).
Qed.

Lemma equal_matching :
  exists b, CFBasicHashesAreEqual h1 h2 = Ok b /\
    (b = true <-> exists es2, es2 ≡ₚ entries sl2 /\ Forall2 same_entry (entries sl1) es2).
Proof.
  eexists. split; [apply equal_computes|]. rewrite andb_true_iff, Z.eqb_eq. split.
  - intros [Tot (es2 & F)%partners]. exists es2. split; [by apply partners_cover|]. eapply list.Forall2_impl; [apply F|]. by intros ? ? [_ ?].
  - intros (es2 & P & F). split.
    + rewrite <- P. eapply Forall2_total, F. by intros ? ? (_ & ? & _).
    + apply forallb_forall. intros e He%list_elem_of_In. apply matches_iff. apply list_elem_of_lookup_1 in He as [i Hi].
      destruct (Forall2_lookup_l _ _ _ _ _ F Hi) as (e2 & H2 & S). exists e2. split; [|done].
      apply (table_functional T2); [|apply S]. rewrite <- P. by eapply list_elem_of_lookup_2.
Qed.

End Equal.

(** ** The theorems *)



Theorem hash_queries (h : CFBasicHash) (sl : list slot) (k v bufferslen batch : Z) :
  KeyLaws (ht_config h) -> table h sl -> 0 < batch ->
  CFBasicHashGetCount h = Ok (total (entries sl)) /\
  CFBasicHashGetCountOfKey h k =
    Ok (if is_substitute k then 0 else match dict_find (ht_config h) k (entries sl) with Some e => e_count e | None => 0 end) /\
  (has_keys (ht_config h) = true -> CFBasicHashSubABZero <> v ->
     CFBasicHashGetCountOfValue h v = Ok (total (filter (fun e => (v =? e_value e) || value_eq (h := h) (e_value e) v = true) (entries sl)))) /\
  CFBasicHashGetElements h bufferslen = Ok (take (Z.to_nat bufferslen) (listing (entries sl))) /\
  enumerate (S (length (entries sl))) h batch 0 = Ok (map e_key (entries sl)).
Proof.
  intros L T Hb. split_and!.
  - by apply get_count_total.
  - by apply get_count_of_key.
  - intros K N. rewrite (get_count_of_value T v), K. by rewrite (proj2 (Z.eqb_neq _ _) N).
  - by apply get_elements_Ok.
  - apply (enumerate_Ok T (S (length (entries sl))) [] sl batch); [done|done|lia].
Qed.

Lemma hash_queries_witness :
  exists sl, CFBasicHashGetCount word_hash = Ok (total (entries sl)) /\ enumerate (S (length (entries sl))) word_hash 2 0 = Ok (map e_key (entries sl)).
Proof.
  destruct word_table as (sl & T & _). exists sl.
  destruct (hash_queries word_hash sl 7 1 2 2 word_hash_laws T ltac:(lia)) as (E1 & _ & _ & _ & E2).
  split; [exact E1|exact E2].
Defined.

End HashQuery.
