(* ===== verification/HashCopy.v ===== *)
(** * CFBasicHash: copies, capacity, emptying and renumbering

    A copy has the slots of its source with the retained values and keys; reserving
    capacity and removing all values keep the invariant; the integer values that
    CFBasicHashAddIntValueAndInc and CFBasicHashRemoveIntValueAndDec maintain stay a
    numbering. *)

From stdpp Require Import base list numbers option.
From Stdlib Require Import ZArith Lia.
From S2P Require Import Prelude BasicHash HashProbe HashTable HashRehash HashOps HashDict HashRun HashQuery.

Module HashCopy.
Import BasicHash HashProbe HashTable HashRehash HashOps HashDict HashRun HashQuery.

(** ** Writing without regard to the old word *)

Lemma put_value_Ok (h : CFBasicHash) (sl : list slot) (i x : Z) (s' : slot) (lit : bool) :
  ht_values h = map raw_value sl -> 0 <= i < Z.of_nat (length sl) -> (if lit then x else encode x) = raw_value s' ->
  CFBasicHashSetValue h i x true lit = Ok (set_values (map raw_value (<[Z.to_nat i := s']> sl)) h).
Proof.
  intros V Hi E. unfold CFBasicHashSetValue. cbn [mbind result_bind]. rewrite V, E, aset_slot by done. done.
Qed.

Lemma put_key_Ok (h : CFBasicHash) (sl : list slot) (i x : Z) (s' : slot) (lit : bool) :
  ht_keys h = array_of (has_keys (ht_config h)) raw_key sl -> 0 <= i < Z.of_nat (length sl) ->
  (has_keys (ht_config h) = true -> (if lit then x else encode x) = raw_key s') ->
  (if has_keys (ht_config h) then CFBasicHashSetKey h i x true lit else Ok h) =
    Ok (set_keys (array_of (has_keys (ht_config h)) raw_key (<[Z.to_nat i := s']> sl)) h).
Proof.
  intros V Hi E. unfold CFBasicHashSetKey. destruct (has_keys (ht_config h)) eqn:K; cbn [array_of negb mbind result_bind] in *.
  - rewrite V, (E eq_refl), aset_slot by done. done.
  - destruct h. cbn in *. unfold set_keys. cbn. by rewrite V.
Qed.

(** ** Copies *)

Section Copy.

Context {src : CFBasicHash} {sl : list slot} {L : KeyLaws (ht_config src)} (T : table src sl).

#[local] Abbreviation c := (ht_config src).

Definition copied (e : entry) : entry := new_entry c (e_key e) (e_value e) (e_count e).
Definition copied_slot (s : slot) : slot := match s with Full e => Full (copied e) | s => s end.
Definition copy_retains (s : slot) : list event := match s with Full e => retains c (e_key e) (e_value e) | _ => [] end.

Context (SE : forall e, e ∈ entries sl -> storable c (e_key e) (e_value e)).

Definition copy_config : config :=
  mkConfig true (hash_style c) (has_keys c) (has_counts c) (has_hashes c) (indirect_keys c) (fast_grow c) (null_rc c) false (callbacks c).

(** A copy with some of its slots written. *)
Definition partial_copy (h : CFBasicHash) (cur : list slot) (evs : list event) : CFBasicHash :=
  mkHash (ht_config h) (ht_mutations h) (ht_used h) (ht_deleted h) (ht_idx h) (ht_width h) (map raw_value cur)
    (array_of (has_keys (ht_config h)) raw_key cur) (ht_counts h) (ht_hashes h) evs.

Lemma copy_bucket_Ok (h : CFBasicHash) (cur : list slot) (evs : list event) (i : Z) (s : slot) :
  ht_config h = copy_config -> slot_at sl i = Some s -> length cur = length sl ->
  copy_bucket (partial_copy h cur evs) src i =
    Ok (partial_copy h (<[Z.to_nat i := copied_slot s]> cur) (evs ++ copy_retains s)).
Proof.
  intros C Hs Z. pose proof T as [R _ _]. pose proof (slot_at_lt _ _ _ Hs) as Hi. rewrite <- Z in Hi. unfold copy_bucket.
  set (p := partial_copy h cur evs).
  rewrite (r_values _ _ R), (aget_slot _ _ _ _ Hs). cbn [mbind result_bind].
  destruct s as [| |e]; cbn [raw_value].
  - cbn [Z.eqb negb andb]. rewrite (put_value_Ok p cur i 0 Empty true eq_refl Hi eq_refl). cbn [mbind result_bind].
    rewrite (put_key_Ok (set_values _ p) cur i 0 Empty true eq_refl Hi (fun _ => eq_refl)). cbn. by rewrite app_nil_r.
  - change (kDeleted =? 0) with false. rewrite Z.eqb_refl. cbn [negb andb].
    rewrite (put_value_Ok p cur i kDeleted Deleted true eq_refl Hi eq_refl). cbn [mbind result_bind].
    rewrite (put_key_Ok (set_values _ p) cur i kDeleted Deleted true eq_refl Hi (fun _ => eq_refl)). cbn. by rewrite app_nil_r.
  - destruct (slot_entry_ok R i e Hs) as (O1 & O2 & _).
    destruct (encode_vacant (e_value e)) as [-> ->]. rewrite decode_encode by done. cbn [negb andb].
    rewrite import_value. set (h1 := emit _ p).
    assert (ht_config h1 = copy_config) as C1 by done.
    rewrite (put_value_Ok h1 cur i _ (Full (copied e)) false eq_refl Hi) by (cbn; by rewrite C). cbn [mbind result_bind].
    set (h2 := set_values _ h1). assert (ht_config h2 = copy_config) as C2 by done.
    destruct (has_keys (ht_config h2)) eqn:K.
    + assert (has_keys c = true) as Kc by (rewrite C2 in K; exact K).
      rewrite (r_keys _ _ R). unfold array_of at 1. rewrite Kc in *. rewrite (aget_slot _ _ _ _ Hs). cbn [mbind result_bind raw_key].
      rewrite decode_encode by done. pose proof (import_key h2 (e_key e)) as IK. rewrite K in IK. rewrite IK.
      pose proof (put_key_Ok (emit (key_retains (ht_config h2) (e_key e)) h2) cur i (retained_key (ht_config h2) (e_key e)) (Full (copied e)) false eq_refl Hi) as PK.
      change (ht_config (emit _ h2)) with (ht_config h2) in PK. rewrite K in PK. rewrite PK.
      * unfold h2, h1, p, partial_copy, set_keys, emit, set_values. cbn. rewrite C. cbn. rewrite Kc, <- app_assoc. reflexivity.
      * intros _. cbn. unfold stored_key. rewrite Kc, C. done.
    + f_equal. unfold h2, h1, p, partial_copy. cbn. cbn in K. rewrite C in *. cbn in *. rewrite K. unfold retains, key_retains.
      rewrite K, app_nil_r. reflexivity.
Qed.

Lemma copy_loop_Ok (h : CFBasicHash) (sl1 sl2 : list slot) (evs : list event) :
  ht_config h = copy_config -> sl = sl1 ++ sl2 ->
  copy_loop (length sl2) (partial_copy h (map copied_slot sl1 ++ replicate (length sl2) Empty) evs) src (Z.of_nat (length sl1)) =
    Ok (partial_copy h (map copied_slot sl) (evs ++ concat (map copy_retains sl2))).
Proof.
  intros C. revert sl1 evs. induction sl2 as [|s sl2 IH]; intros sl1 evs E; cbn [length copy_loop map concat replicate].
  { by rewrite E, !app_nil_r. }
  rewrite (copy_bucket_Ok h _ evs (Z.of_nat (length sl1)) s C (split_slot T sl1 sl2 s E)).
  2:{ rewrite E, !length_app, length_map. cbn. by rewrite length_replicate. }
  cbn [mbind result_bind]. rewrite Nat2Z.id, <- (length_map copied_slot sl1) at 1.
  rewrite insert_app_r_alt, Nat.sub_diag by lia. cbn [insert list_insert].
  replace (Z.of_nat (length sl1) + 1) with (Z.of_nat (length (sl1 ++ [s]))) by (rewrite length_app; cbn; lia).
  assert (map copied_slot sl1 ++ copied_slot s :: replicate (length sl2) Empty = map copied_slot (sl1 ++ [s]) ++ replicate (length sl2) Empty)
    as -> by (by rewrite map_app, <- app_assoc).
  rewrite IH by (by rewrite <- app_assoc). by rewrite <- app_assoc.
Qed.

Lemma slot_at_copied (i : Z) (s' : slot) :
  slot_at (map copied_slot sl) i = Some s' <-> exists s, slot_at sl i = Some s /\ s' = copied_slot s.
Proof.
  split.
  - intros [Hi Hs]%slot_at_Some. apply list_lookup_fmap_Some in Hs as (s & -> & Hs). exists s. split; [by apply slot_at_Some|done].
  - intros (s & [Hi Hs]%slot_at_Some & ->). apply slot_at_Some. split; [done|]. by rewrite list_lookup_fmap, Hs.
Qed.

Lemma entries_copied : entries (map copied_slot sl) = map copied (entries sl).
Proof. clear T SE. unfold entries. induction sl as [|[| |e] l IH]; cbn; [done|exact IH|exact IH|]. f_equal. exact IH. Qed.

Lemma copied_key (i : Z) (e : entry) : slot_at sl i = Some (Full e) -> key_eq c (e_key (copied e)) (e_key e) = true.
Proof. intros H. apply SE. apply entries_elem. eauto. Qed.

Lemma copied_arranged : arranged copy_config (ht_idx src) (map copied_slot sl).
Proof.
  pose proof T as [_ A _]. split.
  - intros i j e e' (s & Hs & Es)%slot_at_copied (s' & Hs' & Es')%slot_at_copied Q.
    destruct s, s'; cbn in Es, Es'; simplify_eq. apply (a_distinct _ _ _ A) with e0 e1; [done|done|].
    apply key_eq_trans with (e_key (copied e0)); [apply key_eq_sym; by apply (copied_key i)|].
    apply key_eq_trans with (e_key (copied e1)); [exact Q|by apply (copied_key j)].
  - intros i e' (s & Hs & Es)%slot_at_copied. destruct s as [| |e]; cbn in Es; simplify_eq.
    apply reachable_mono with sl; [intros j (s & Hj & E)%slot_at_copied; by destruct s|].
    change (key_path copy_config (ht_idx src) (e_key (copied e))) with (key_path c (ht_idx src) (e_key (copied e))).
    rewrite (key_path_eq _ _ (copied_key i e Hs)). by apply (a_reachable _ _ _ A).
Qed.

Lemma copied_deleted : deleted_count (map copied_slot sl) = deleted_count sl.
Proof.
  clear T SE. unfold deleted_count. f_equal. induction sl as [|s l IH]; [done|]. cbn [map]. rewrite !filter_cons.
  destruct s; cbn [copied_slot]; rewrite ?decide_True, ?decide_False by done; cbn; by rewrite ?IH.
Qed.

Lemma copied_arrays :
  map raw_count (map copied_slot sl) = map raw_count sl /\
  map (raw_hash c) (map copied_slot sl) = map (raw_hash c) sl /\
  Forall (slot_ok c (ht_width src)) (map copied_slot sl).
Proof.
  pose proof T as [R _ _]. assert (forall i s, sl !! i = Some s ->
    raw_hash c (copied_slot s) = raw_hash c s /\ slot_ok c (ht_width src) (copied_slot s)) as H.
  { intros i s Hs. assert (slot_at sl (Z.of_nat i) = Some s) as Ha by (apply slot_at_Some; rewrite Nat2Z.id; split; [lia|done]).
    destruct s as [| |e]; [done|done|]. cbn. split; [apply key_eq_hash; by apply (copied_key (Z.of_nat i))|].
    apply new_entry_ok; [apply SE, entries_elem; eauto|]. by apply (slot_entry_ok R (Z.of_nat i)). }
  split_and!.
  - rewrite map_map. apply map_ext. by intros [| |e].
  - rewrite map_map. apply list_eq. intros i. rewrite !list_lookup_fmap. destruct (sl !! i) as [s|] eqn:E; [|done]. cbn. f_equal. by apply (H i).
  - apply Forall_fmap, Forall_lookup_2. intros i s Hs. by apply (H i).
Qed.

Lemma memmove_whole (l : list Z) : memmove (replicate (length l) 0) 0 l 0 (Z.of_nat (length l)) = Ok l.
Proof.
  pose proof (memmove_middle [] (replicate (length l) 0) [] [] l []) as M. cbn [app] in M. rewrite !app_nil_r in M.
  apply M; [done|done| |]; by rewrite length_replicate.
Qed.

Lemma copy_array (present : bool) (f : slot -> Z) :
  (if present then memmove (replicate (Z.to_nat (Z.of_nat (length sl))) 0) 0 (array_of present f sl) 0 (Z.of_nat (length sl)) else Ok []) =
  Ok (array_of present f sl).
Proof.
  destruct present; [|done]. cbn. rewrite Nat2Z.id. pose proof (memmove_whole (map f sl)) as M. by rewrite length_map in M.
Qed.

Lemma create_copy_Ok :
  exists h', CFBasicHashCreateCopy src = Ok h' /\ ht_config h' = copy_config /\ ht_mutations h' = 1 /\
    table h' (map copied_slot sl) /\ ht_log h' = concat (map copy_retains sl).
Proof.
  pose proof T as [R A C]. destruct copied_arrays as (AC & AH & AO). unfold CFBasicHashCreateCopy, CFBasicHashNumBuckets.
  rewrite (r_size _ _ R). cbn [mbind result_bind]. fold copy_config. set (h := mkHash copy_config _ _ _ _ _ _ _ _ _ _).
  assert (forall h', h' = mkHash copy_config 1 (ht_used src) (ht_deleted src) (ht_idx src) (ht_width src) (map raw_value (map copied_slot sl))
      (array_of (has_keys c) raw_key (map copied_slot sl)) (array_of (has_counts c) raw_count sl) (array_of (has_hashes c) (raw_hash c) sl)
      (concat (map copy_retains sl)) ->
    ht_config h' = copy_config /\ ht_mutations h' = 1 /\ table h' (map copied_slot sl) /\ ht_log h' = concat (map copy_retains sl)) as Fin.
  { intros h' ->. split_and!; [done|done| |done]. split; [|exact copied_arranged|].
    - destruct R. split; cbn; try done; [by rewrite length_map| |]; unfold array_of; [destruct (has_counts c)|destruct (has_hashes c)]; try done.
    - destruct C as [U [cap Hcap] D DR]. split; cbn; [|by exists cap|by rewrite copied_deleted|done]. by rewrite entries_copied, length_map. }
  destruct (Z.eqb_spec 0 (Z.of_nat (length sl))) as [Z|NZ].
  { exists h. split; [done|]. apply Fin. assert (sl = []) as -> by (apply nil_length_inv; lia). subst h. cbn.
    unfold array_of, new_array. by destruct (has_keys c), (has_counts c), (has_hashes c). }
  rewrite Nat2Z.id.
  assert (h = partial_copy h (map copied_slot [] ++ replicate (length sl) Empty) []) as ->.
  { subst h. unfold partial_copy. cbn. f_equal.
    - unfold new_array. rewrite Nat2Z.id, fmap_replicate. done.
    - unfold new_array, array_of. destruct (has_keys c); [|done]. by rewrite Nat2Z.id, fmap_replicate. }
  pose proof (copy_loop_Ok h [] sl [] eq_refl eq_refl) as CL. change (Z.of_nat (length [])) with 0 in CL. rewrite CL. cbn [mbind result_bind].
  change (has_counts copy_config) with (has_counts c). change (has_hashes copy_config) with (has_hashes c).
  rewrite (r_counts _ _ R), (r_hashes _ _ R). pose proof (copy_array (has_counts c) raw_count) as CC.
  pose proof (copy_array (has_hashes c) (raw_hash c)) as CH. rewrite Nat2Z.id in CC, CH. rewrite CC. cbn [mbind result_bind]. rewrite CH.
  cbn [mbind result_bind]. eexists. split; [done|]. by apply Fin.
Qed.

End Copy.

(** A copy equals its source, if the retained values equal the values. *)
Lemma copy_equal {src : CFBasicHash} {sl : list slot} {L : KeyLaws (ht_config src)} (T : table src sl) :
  (forall e, e ∈ entries sl -> storable (ht_config src) (e_key e) (e_value e)) ->
  (forall v, retained_value (ht_config src) v = v) ->
  exists h', CFBasicHashCreateCopy src = Ok h' /\ CFBasicHashesAreEqual src h' = Ok true.
Proof.
  intros SE RV. destruct (create_copy_Ok T SE) as (h' & E & C & _ & T' & _). exists h'. split; [done|].
  assert (KeyLaws (ht_config h')) as L' by (rewrite C; destruct L; by split).
  destruct (equal_matching T T') as (b & -> & B); [by rewrite C|]. f_equal. apply B.
  exists (map (copied (src := src)) (entries sl)). split; [by rewrite entries_copied|].
  apply Forall2_fmap_r, Forall_Forall2_diag, list.Forall_forall. intros e He. unfold same_entry. rewrite C.
  split_and!; [apply SE, He|done|]. intros _. left. cbn. by rewrite RV.
Qed.

(** ** Capacity and emptying *)

Section Whole.

Context {h : CFBasicHash} {sl : list slot} {L : KeyLaws (ht_config h)} (T : table h sl).

Lemma set_capacity_Ok (capacity : Z) :
  is_mutable (ht_config h) = true -> capacity <= max_entries ->
  exists h' sl', CFBasicHashSetCapacity h capacity = Ok h' /\ table h' sl' /\ entries sl' ≡ₚ entries sl /\ logged h h' [] /\
    exists cap, aget CFBasicHashTableCapacities (ht_idx h') = Ok cap /\ Z.max capacity (ht_used h) <= cap.
Proof.
  intros HM Hc. unfold CFBasicHashSetCapacity. rewrite HM. cbn [negb]. pose proof T as [R A [U [cap [Hcap Hle]] D DR]].
  destruct (Z.ltb_spec (ht_used h) capacity).
  - destruct (rehash_grow (h := mutate h) (mutate_reps T) A U (capacity - ht_used h)) as (h' & sl' & E & RH & cap' & Hcap' & Hle'); [lia|cbn; lia|].
    exists h', sl'. destruct RH as [T' _ P' Ec' _ _ El']. cbn in *. split_and!; try done.
    + split; [done|]. by rewrite app_nil_r.
    + exists cap'. split; [done|lia].
  - exists h, sl. split_and!; try done; [split; [done|by rewrite app_nil_r]|]. exists cap. split; [done|lia].
Qed.

Lemma remove_all_Ok :
  is_mutable (ht_config h) = true ->
  exists h', CFBasicHashRemoveAllValues h = Ok h' /\ table h' [] /\
    logged h h' (concat (map (fun e => releases (ht_config h) (Full e)) (entries sl))).
Proof.
  intros HM. unfold CFBasicHashRemoveAllValues. rewrite HM. cbn [negb]. destruct (Z.eqb_spec 0 (ht_idx h)) as [Z|].
  - pose proof (r_size _ _ (t_reps _ _ T)) as E. rewrite <- Z in E. injection E as E. assert (sl = []) as -> by (apply nil_length_inv; lia).
    exists h. split_and!; [done|done|]. split; [done|by rewrite app_nil_r].
  - destruct (drain_Ok T) as (h' & E & T' & _ & Lg). by exists h'.
Qed.

End Whole.

(** ** Numbered keys *)

(** The numbering goes up by one from [v] on, or down above [v]. *)
Definition bump (v : Z) (e : entry) : entry :=
  if v <=? e_value e then mkEntry (e_key e) (u64 (e_value e + 1)) (e_count e) else e.
Definition drop_by_one (v : Z) (e : entry) : entry :=
  if v <? e_value e then mkEntry (e_key e) (u64 (e_value e - 1)) (e_count e) else e.

Definition map_slot (f : entry -> entry) (s : slot) : slot := match s with Full e => Full (f e) | s => s end.

Lemma entries_map_slot (f : entry -> entry) (sl : list slot) : entries (map (map_slot f) sl) = map f (entries sl).
Proof. unfold entries. induction sl as [|[| |e] l IH]; cbn; [done|exact IH|exact IH|]. f_equal. exact IH. Qed.

Lemma slot_at_map_slot (f : entry -> entry) (sl : list slot) (i : Z) (s' : slot) :
  slot_at (map (map_slot f) sl) i = Some s' <-> exists s, slot_at sl i = Some s /\ s' = map_slot f s.
Proof.
  split.
  - intros [Hi Hs]%slot_at_Some. apply list_lookup_fmap_Some in Hs as (s & -> & Hs). exists s. split; [by apply slot_at_Some|done].
  - intros (s & [Hi Hs]%slot_at_Some & ->). apply slot_at_Some. split; [done|]. by rewrite list_lookup_fmap, Hs.
Qed.

(** A change of values in a table with an array of keys. *)
Lemma revalued_arranged {c : config} {idx : Z} {sl : list slot} (f : entry -> entry) :
  (forall e, e_key (f e) = e_key e) -> arranged c idx sl -> arranged c idx (map (map_slot f) sl).
Proof.
  intros K [AD AR]. split.
  - intros i j e e' (s & Hs & Es)%slot_at_map_slot (s' & Hs' & Es')%slot_at_map_slot Q.
    destruct s, s'; cbn in Es, Es'; simplify_eq. rewrite !K in Q. by apply AD with e0 e1.
  - intros i e' (s & Hs & Es)%slot_at_map_slot. destruct s as [| |e]; cbn in Es; simplify_eq. rewrite K.
    apply reachable_mono with sl; [intros j (s & Hj & E)%slot_at_map_slot; by destruct s|]. by apply AR.
Qed.

(** What renumbering leaves alone. *)
Record renumbered (h h' : CFBasicHash) : Prop := mkRenumbered {
  n_config : ht_config h' = ht_config h;
  n_used : ht_used h' = ht_used h;
  n_deleted : ht_deleted h' = ht_deleted h;
  n_idx : ht_idx h' = ht_idx h;
  n_log : ht_log h' = ht_log h
}.

#[export] Instance renumbered_preorder : PreOrder renumbered.
Proof. split; [done|]. intros h1 h2 h3 [] []. split; congruence. Qed.

Lemma revalue_Ok (h : CFBasicHash) (cur : list slot) (i : Z) (e e' : entry) :
  reps h cur -> has_keys (ht_config h) = true -> slot_at cur i = Some (Full e) ->
  e_key e' = e_key e -> e_count e' = e_count e -> is_substitute (e_value e') = false ->
  exists h', CFBasicHashSetValue h i (e_value e') true false = Ok h' /\
    reps (mutate h') (<[Z.to_nat i := Full e']> cur) /\ renumbered h (mutate h').
Proof.
  intros R K Hs Ek Ec P. pose proof (slot_at_lt _ _ _ Hs) as Hi. pose proof (slot_entry_ok R i e Hs) as (O1 & O2 & O3).
  eexists. split; [apply (put_value_Ok h cur i _ (Full e') false (r_values _ _ R) Hi eq_refl)|]. split; [|done].
  apply slot_at_Some in Hs as [_ Hs].
  assert (forall f : slot -> Z, f (Full e) = f (Full e') -> map f cur = map f (<[Z.to_nat i := Full e']> cur)) as M.
  { intros f E. rewrite list_fmap_insert, list_insert_id; [done|]. by rewrite list_lookup_fmap, Hs, <- E. }
  destruct R. split; cbn; try done; [by rewrite length_insert| | | |].
  - rewrite r_keys0. unfold array_of. destruct (has_keys _); [|done]. apply M. cbn. by rewrite Ek.
  - rewrite r_counts0. unfold array_of. destruct (has_counts _); [|done]. apply M. done.
  - rewrite r_hashes0. unfold array_of. destruct (has_hashes _); [|done]. apply M. cbn. by rewrite Ek.
  - apply Forall_insert; [done|]. rewrite K in O2. split_and!; [done|rewrite K, Ek; done|rewrite Ec; apply O3..].
Qed.

(** The values after a renumbering can be stored. *)
Definition plain (f : entry -> entry) (sl : list slot) : Prop := forall e, e ∈ entries sl -> is_substitute (e_value (f e)) = false.

Lemma insert_middle (sl1 sl2 : list slot) (x y : slot) : <[length sl1 := y]> (sl1 ++ x :: sl2) = (sl1 ++ [y]) ++ sl2.
Proof. rewrite insert_app_r_alt, Nat.sub_diag by lia. cbn. by rewrite <- app_assoc. Qed.

Lemma middle_at (sl1 sl2 : list slot) (x : slot) : slot_at (sl1 ++ x :: sl2) (Z.of_nat (length sl1)) = Some x.
Proof. apply slot_at_Some. split; [lia|]. rewrite Nat2Z.id. by apply list_lookup_middle. Qed.

Lemma plain_tail (f : entry -> entry) (x : slot) (sl : list slot) : plain f (x :: sl) -> plain f sl.
Proof. intros P e He. apply P. unfold entries in *. destruct x; cbn; [done|done|by right]. Qed.

Lemma renumber_up_Ok (v : Z) (sl1 sl2 : list slot) (h : CFBasicHash) :
  reps h (sl1 ++ sl2) -> has_keys (ht_config h) = true -> plain (bump v) sl2 ->
  exists h', renumber_up (length sl2) h v (Z.of_nat (length sl1)) = Ok h' /\
    reps h' (sl1 ++ map (map_slot (bump v)) sl2) /\ renumbered h h'.
Proof.
  revert sl1 h. induction sl2 as [|x sl2 IH]; intros sl1 h R K P; cbn [length renumber_up map]; [by exists h|].
  rewrite (get_vacant R _ x (middle_at sl1 sl2 x)). cbn [mbind result_bind].
  assert (exists h1, (if match x with Full _ => false | _ => true end then Ok h
       else stack_value ← CFBasicHashGetValue h (Z.of_nat (length sl1));
         if v <=? stack_value then h ← CFBasicHashSetValue h (Z.of_nat (length sl1)) (u64 (stack_value + 1)) true false; Ok (mutate h) else Ok h) = Ok h1 /\
    reps h1 ((sl1 ++ [map_slot (bump v) x]) ++ sl2) /\ renumbered h h1) as (h1 & -> & R1 & N1).
  { destruct x as [| |e]; [exists h; by rewrite <- app_assoc|exists h; by rewrite <- app_assoc|].
    rewrite (get_value R _ e (middle_at sl1 sl2 (Full e))). cbn [mbind result_bind map_slot].
    pose proof (P e ltac:(left)) as Pe. unfold bump in *. destruct (v <=? e_value e); [|exists h; by rewrite <- app_assoc].
    destruct (revalue_Ok h _ (Z.of_nat (length sl1)) e (mkEntry (e_key e) (u64 (e_value e + 1)) (e_count e)) R K (middle_at sl1 sl2 (Full e)))
      as (h1 & E1 & R1 & N1); [done|done|done|]. cbn [e_value] in E1. rewrite E1. exists (mutate h1).
    rewrite Nat2Z.id, insert_middle in R1. done. }
  cbn [mbind result_bind].
  replace (Z.of_nat (length sl1) + 1) with (Z.of_nat (length (sl1 ++ [map_slot (bump v) x]))) by (rewrite length_app; cbn; lia).
  destruct (IH (sl1 ++ [map_slot (bump v) x]) h1 R1) as (h2 & E2 & R2 & N2); [by rewrite (n_config _ _ N1)|by apply plain_tail in P|].
  exists h2. split_and!; [done|by rewrite <- app_assoc in R2|by transitivity h1].
Qed.

Lemma deleted_map_slot (f : entry -> entry) (sl : list slot) : deleted_count (map (map_slot f) sl) = deleted_count sl.
Proof.
  unfold deleted_count. f_equal. induction sl as [|s l IH]; [done|]. cbn [map]. rewrite !filter_cons.
  destruct s; cbn [map_slot]; rewrite ?decide_True, ?decide_False by done; cbn; by rewrite ?IH.
Qed.

Lemma renumbered_table (f : entry -> entry) (h h' : CFBasicHash) (sl : list slot) :
  (forall e, e_key (f e) = e_key e) -> table h sl -> reps h' (map (map_slot f) sl) -> renumbered h h' -> table h' (map (map_slot f) sl).
Proof.
  intros K [R A [U [cap Hcap] D DR]] R' [Nc Nu Nd Ni _]. split; [done|rewrite Nc, Ni; by apply revalued_arranged|].
  split; [by rewrite Nu, entries_map_slot, length_map|exists cap; by rewrite Ni, Nu|by rewrite Nd, deleted_map_slot|by rewrite Nd].
Qed.

Lemma bump_key (v : Z) (e : entry) : e_key (bump v e) = e_key e.
Proof. unfold bump. by destruct (_ <=? _). Qed.
Lemma drop_key (v : Z) (e : entry) : e_key (drop_by_one v e) = e_key e.
Proof. unfold drop_by_one. by destruct (_ <? _). Qed.

(** A place for a key stays one. *)
Lemma renumbered_place (f : entry -> entry) (sl : list slot) (p : list Z) (i : Z) :
  vacant (sl := sl) i -> reachable sl p i -> vacant (sl := map (map_slot f) sl) i /\ reachable (map (map_slot f) sl) p i.
Proof.
  intros V P. split.
  - destruct V as [V|V]; [left|right]; apply slot_at_map_slot; eauto.
  - apply reachable_mono with sl; [|done]. intros j (s & Hj & E)%slot_at_map_slot. by destruct s.
Qed.

Section Numbering.

Context {h : CFBasicHash} {sl : list slot} {L : KeyLaws (ht_config h)} (T : table h sl) (HM : is_mutable (ht_config h) = true)
  (HK : has_keys (ht_config h) = true).

#[local] Abbreviation c := (ht_config h).

Lemma renumber_add (h1 : CFBasicHash) (sl1 : list slot) (i k v cap : Z) :
  table h1 sl1 -> ht_config h1 = c -> entries sl1 ≡ₚ entries sl -> ht_log h1 = ht_log h -> ht_used h1 = ht_used h ->
  vacant (sl := sl1) i -> reachable sl1 (key_path c (ht_idx h1) k) i ->
  Forall (fun e => key_eq c (e_key e) k = false) (entries sl) -> storable c k v -> plain (bump v) sl -> ht_used h < max_entries ->
  exists h2 h' sl', renumber_up (length sl1) h1 v 0 = Ok h2 /\ add_value_at h2 i k v = Ok h' /\ table h' sl' /\
    entries sl' ≡ₚ new_entry c k v 1 :: map (bump v) (entries sl) /\ logged h h' (retains c k v).
Proof.
  intros T1 Ec P1 El Eu V Pl Abs S Pv Hm. pose proof T1 as [R1 _ _].
  destruct (renumber_up_Ok v [] sl1 h1 R1) as (h2 & E2 & R2 & N2); [by rewrite Ec|intros e He; apply Pv; by rewrite <- P1|].
  pose proof (renumbered_table (bump v) h1 h2 sl1 (bump_key v) T1 R2 N2) as T2. cbn [app] in R2.
  destruct (renumbered_place (bump v) sl1 _ i V Pl) as [V2 Pl2].
  assert (ht_config h2 = c) as Ec2 by (rewrite (n_config _ _ N2); done).
  assert (KeyLaws (ht_config h2)) as L2 by by rewrite Ec2.
  destruct (add_value_at_Ok T2 i k v) as (h' & E' & [(sl' & T' & P') [Lc Ll] _]).
  - apply absent; [|left; by rewrite (n_idx _ _ N2), Ec2]. rewrite entries_map_slot, P1, Ec2. apply Forall_fmap.
    eapply list.Forall_impl; [apply Abs|]. intros e He. cbn. by rewrite bump_key.
  - by rewrite Ec2.
  - rewrite (n_used _ _ N2). lia.
  - exists h2, h', sl'. rewrite Ec2 in *. split_and!; try done.
    + by rewrite P', entries_map_slot, P1.
    + split; [congruence|]. by rewrite Ll, (n_log _ _ N2), El.
Qed.

Lemma add_int_value_Ok (k v : Z) :
  is_substitute k = false -> is_substitute v = false -> storable c k v -> plain (bump v) sl -> ht_used h < max_entries ->
  match dict_find c k (entries sl) with
  | Some _ => CFBasicHashAddIntValueAndInc h k v = Ok (mutate h, false)
  | None => exists h' sl', CFBasicHashAddIntValueAndInc h k v = Ok (h', true) /\ table h' sl' /\
      entries sl' ≡ₚ new_entry c k v 1 :: map (bump v) (entries sl) /\ logged h h' (retains c k v)
  end.
Proof.
  intros Hk Hv S Pv Hm. unfold CFBasicHashAddIntValueAndInc. rewrite HM, Hk, Hv. cbn [negb].
  destruct (find_bucket_Ok T k) as (b & -> & Lk). cbn [mbind result_bind]. destruct Lk as [i e Hs Q F Hc|i Loc F]; rewrite F.
  { cbn [b_count bucket_of]. by rewrite (proj2 (Z.ltb_lt 0 _)) by lia. }
  cbn [b_count b_idx Z.ltb Z.compare]. destruct (located_absent T i k Loc) as [Abs Pl].
  pose proof T as [R A [U [cap [Hcap Hle]] D DR]]. unfold CFBasicHashGetCapacity, CFBasicHashGetCapacityForNumBuckets.
  rewrite Hcap. cbn [mbind result_bind]. rewrite (uwrap_small 32) by (unfold in_u, max_entries in *; lia).
  assert (exists h1 i1 sl1, (if cap <? ht_used h + 1 then h ← CFBasicHashRehash h 1; i ← CFBasicHashFindBucket_NoCollision h k 0; Ok (h, i) else Ok (h, i)) =
      Ok (h1, i1) /\ table h1 sl1 /\ ht_config h1 = c /\ entries sl1 ≡ₚ entries sl /\ ht_log h1 = ht_log h /\ ht_used h1 = ht_used h /\
      vacant (sl := sl1) i1 /\ reachable sl1 (key_path c (ht_idx h1) k) i1) as (h1 & i1 & sl1 & -> & T1 & Ec & P1 & El & Eu & V & Pl1).
  { destruct (Z.ltb_spec cap (ht_used h + 1)).
    - destruct (rehash_grow R A U 1) as (h1 & sl1 & -> & [T1 F1 P1 Ec Eu _ El] & cap1 & Hcap1 & Hle1); [lia|lia|]. cbn [mbind result_bind].
      pose proof T1 as [R1 _ C1]. assert (KeyLaws (ht_config h1)) as L1 by by rewrite Ec.
      destruct (capacity_size _ _ (r_idx _ _ R1) Hcap1) as (n & Hn & ? & ?). rewrite (r_size _ _ R1) in Hn. injection Hn as <-.
      pose proof (c_used _ _ C1). destruct (find_free_Ok R1 F1 k 0) as (i1 & -> & Hi1 & Pl1); [lia|by left|].
      exists h1, i1, sl1. rewrite Ec in *. split_and!; try done. by left.
    - destruct Pl as [[V Pl]|[_ Full]]; [by exists h, i, sl|].
      destruct (capacity_size _ _ (r_idx _ _ R) Hcap) as (n & Hn & ? & ?). rewrite (r_size _ _ R) in Hn. injection Hn as <-. lia. }
  cbn [mbind result_bind]. unfold CFBasicHashNumBuckets. rewrite (r_size _ _ (t_reps _ _ T1)). cbn [mbind result_bind]. rewrite Nat2Z.id.
  destruct (renumber_add h1 sl1 i1 k v cap T1) as (h2 & h' & sl' & -> & E' & T' & P' & Lg); try done.
  cbn [mbind result_bind]. exists h', sl'. by rewrite E'.
Qed.

(** The last bucket that holds [v]. *)
Fixpoint last_holding (v i : Z) (l : list slot) (b : Z) : Z :=
  match l with
  | [] => b
  | Full e :: l => last_holding v (i + 1) l (if v =? e_value e then i else b)
  | _ :: l => last_holding v (i + 1) l b
  end.

Lemma renumber_down_Ok (v : Z) (sl1 sl2 : list slot) (g : CFBasicHash) (b : Z) :
  reps g (sl1 ++ sl2) -> has_keys (ht_config g) = true -> plain (drop_by_one v) sl2 ->
  exists g', renumber_down (length sl2) g v (Z.of_nat (length sl1)) b = Ok (g', last_holding v (Z.of_nat (length sl1)) sl2 b) /\
    reps g' (sl1 ++ map (map_slot (drop_by_one v)) sl2) /\ renumbered g g'.
Proof.
  revert sl1 g b. induction sl2 as [|x sl2 IH]; intros sl1 g b R K P; cbn [length renumber_down map last_holding]; [by exists g|].
  rewrite (get_vacant R _ x (middle_at sl1 sl2 x)). cbn [mbind result_bind].
  set (b1 := match x with Full e => if v =? e_value e then Z.of_nat (length sl1) else b | _ => b end).
  assert (exists g1, (if match x with Full _ => false | _ => true end then Ok (g, b)
       else stack_value ← CFBasicHashGetValue g (Z.of_nat (length sl1));
         if v <? stack_value then
           h ← CFBasicHashSetValue g (Z.of_nat (length sl1)) (u64 (stack_value - 1)) true false;
           Ok (mutate h, if v =? stack_value then Z.of_nat (length sl1) else b)
         else Ok (g, if v =? stack_value then Z.of_nat (length sl1) else b)) = Ok (g1, b1) /\
    reps g1 ((sl1 ++ [map_slot (drop_by_one v) x]) ++ sl2) /\ renumbered g g1) as (g1 & -> & R1 & N1).
  { destruct x as [| |e]; [exists g; by rewrite <- app_assoc|exists g; by rewrite <- app_assoc|].
    rewrite (get_value R _ e (middle_at sl1 sl2 (Full e))). cbn [mbind result_bind map_slot].
    pose proof (P e ltac:(left)) as Pe. unfold drop_by_one in *. destruct (v <? e_value e); [|exists g; by rewrite <- app_assoc].
    destruct (revalue_Ok g _ (Z.of_nat (length sl1)) e (mkEntry (e_key e) (u64 (e_value e - 1)) (e_count e)) R K (middle_at sl1 sl2 (Full e)))
      as (h1 & E1 & R1 & N1); [done|done|done|]. cbn [e_value] in E1. rewrite E1. exists (mutate h1).
    rewrite Nat2Z.id, insert_middle in R1. done. }
  cbn [mbind result_bind].
  assert (Z.of_nat (length sl1) + 1 = Z.of_nat (length (sl1 ++ [map_slot (drop_by_one v) x]))) as EI by (rewrite length_app; cbn; lia).
  rewrite EI. destruct (IH (sl1 ++ [map_slot (drop_by_one v) x]) g1 b1 R1) as (g2 & E2 & R2 & N2);
    [by rewrite (n_config _ _ N1)|by apply plain_tail in P|].
  exists g2. split_and!; [|by rewrite <- app_assoc in R2|by transitivity g1]. rewrite E2. subst b1. by destruct x.
Qed.

Lemma last_holding_absent (v i : Z) (l : list slot) (b : Z) :
  (forall e, e ∈ entries l -> e_value e <> v) -> last_holding v i l b = b.
Proof.
  revert i b. induction l as [|[| |e] l IH]; intros i b H; cbn; [done|by apply IH|by apply IH|].
  pose proof (H e ltac:(left)). rewrite (proj2 (Z.eqb_neq v (e_value e))) by congruence.
  apply IH. intros e' He. apply H. by right.
Qed.

Lemma last_holding_present (v i : Z) (sl1 sl2 : list slot) (e : entry) (b : Z) :
  e_value e = v -> (forall e', e' ∈ entries sl2 -> e_value e' <> v) ->
  last_holding v i (sl1 ++ Full e :: sl2) b = i + Z.of_nat (length sl1).
Proof.
  intros E H. revert i b. induction sl1 as [|[| |e'] l IH]; intros i b; cbn [app last_holding length].
  - rewrite last_holding_absent, <- E, Z.eqb_refl by done. lia.
  - rewrite IH. lia.
  - rewrite IH. lia.
  - rewrite IH. lia.
Qed.

Lemma remove_int_value_Ok (v i : Z) (e : entry) :
  is_substitute v = false -> plain (drop_by_one v) sl -> slot_at sl i = Some (Full e) -> e_value e = v -> e_count e = 1 ->
  (forall e', e' ∈ entries sl -> e_value e' = v -> key_eq c (e_key e') (e_key e) = true) ->
  exists h' sl', CFBasicHashRemoveIntValueAndDec h v = Ok h' /\ table h' sl' /\
    entries sl' ≡ₚ map (drop_by_one v) (dict_delete c (e_key e) (entries sl)) /\ logged h h' (releases c (Full e)).
Proof.
  intros Hv Pv Hs Ev Ec1 U. pose proof T as [R A _]. unfold CFBasicHashRemoveIntValueAndDec. rewrite HM, Hv. cbn [negb].
  unfold CFBasicHashNumBuckets. rewrite (r_size _ _ R). cbn [mbind result_bind]. rewrite Nat2Z.id.
  destruct (renumber_down_Ok v [] sl h (-1) R HK Pv) as (h1 & E1 & R1 & N1). cbn [app] in R1. change (Z.of_nat (length [])) with 0 in E1.
  rewrite E1. cbn [mbind result_bind]. pose proof (renumbered_table _ h h1 sl (drop_key v) T R1 N1) as T1.
  assert (last_holding v 0 sl (-1) = i) as ->.
  { pose proof (proj1 (slot_at_Some _ _ _) Hs) as [Hi Hl]. rewrite <- (take_drop_middle sl (Z.to_nat i) (Full e)) by done.
    rewrite last_holding_present; [apply lookup_lt_Some in Hl; rewrite length_take; lia|done|].
    intros e' He E'. assert (e' ∈ entries sl) as Hin.
    { rewrite <- (take_drop_middle sl (Z.to_nat i) (Full e)) by done. unfold entries in *. rewrite omap_app. apply elem_of_app. right. by right. }
    destruct (slot_at_take_drop sl i e' Hi (or_intror He)) as (j & Hj & Hsj). apply Hj.
    apply (a_distinct _ _ _ A) with e' e; [done|done|by apply U]. }
  assert (drop_by_one v e = e) as De by (unfold drop_by_one; by rewrite (proj2 (Z.ltb_ge _ _)) by lia).
  assert (ht_config h1 = c) as Ec by apply N1. assert (KeyLaws (ht_config h1)) as L1 by by rewrite Ec.
  destruct (remove_value_at_Ok T1 i (e_key e) e) as (h' & E' & [(sl' & T' & P') [Lc Ll] _]).
  - apply slot_at_map_slot. exists (Full e). split; [done|]. cbn. by rewrite De.
  - apply key_eq_refl.
  - done.
  - exists h', sl'. rewrite Ec in *. split_and!; [done|done| |split; [congruence|by rewrite Ll, (n_log _ _ N1)]].
    rewrite P', entries_map_slot. unfold dict_delete. clear. induction (entries sl) as [|x l IH]; [done|]. cbn [map].
    rewrite !filter_cons, drop_key. destruct (decide _); cbn [map]; by rewrite IH.
Qed.

(** Without the value the code goes on with bucket -1: it writes outside the table. *)
Lemma remove_int_absent (v : Z) :
  is_substitute v = false -> plain (drop_by_one v) sl -> (forall e, e ∈ entries sl -> e_value e <> v) ->
  CFBasicHashRemoveIntValueAndDec h v = Undef.
Proof.
  intros Hv Pv N. pose proof T as [R A _]. unfold CFBasicHashRemoveIntValueAndDec. rewrite HM, Hv. cbn [negb].
  unfold CFBasicHashNumBuckets. rewrite (r_size _ _ R). cbn [mbind result_bind]. rewrite Nat2Z.id.
  destruct (renumber_down_Ok v [] sl h (-1) R HK Pv) as (h1 & E1 & R1 & N1). change (Z.of_nat (length [])) with 0 in E1.
  rewrite E1, last_holding_absent by done. done.
Qed.

End Numbering.

(** ** Numberings *)

(** The values are 0, 1, ... in some order. *)
Definition numbered (es : list entry) : Prop := map e_value es ≡ₚ below (Z.of_nat (length es)).

Lemma numbered_range (es : list entry) (e : entry) : numbered es -> e ∈ es -> 0 <= e_value e < Z.of_nat (length es).
Proof. unfold numbered. intros N He. apply elem_below. rewrite <- N. by apply list_elem_of_fmap_2. Qed.

Lemma small_plain (v : Z) : 0 <= v <= max_entries -> is_substitute v = false.
Proof.
  unfold max_entries, is_substitute, CFBasicHashSubABZero, CFBasicHashSubABOne. intros H.
  destruct (Z.eqb_spec 0xa7baadb1 v), (Z.eqb_spec 0xa5baadb9 v); lia || done.
Qed.

Lemma bump_value (v : Z) (e : entry) :
  0 <= e_value e <= max_entries -> e_value (bump v e) = if v <=? e_value e then e_value e + 1 else e_value e.
Proof.
  intros H. unfold bump. destruct (_ <=? _); [|done]. cbn. apply uwrap_small. unfold in_u, max_entries in *. lia.
Qed.

Lemma drop_value (v : Z) (e : entry) :
  0 <= v -> 0 <= e_value e <= max_entries -> e_value (drop_by_one v e) = if v <? e_value e then e_value e - 1 else e_value e.
Proof.
  intros Hv H. unfold drop_by_one. destruct (Z.ltb_spec v (e_value e)); [|done]. cbn. apply uwrap_small. unfold in_u, max_entries in *. lia.
Qed.

(** The values after a renumbering [f], which acts on them as [g]. *)
Lemma renumbered_values (f : entry -> entry) (g : Z -> Z) (es : list entry) :
  (forall e, e ∈ es -> e_value (f e) = g (e_value e)) -> map e_value (map f es) = map g (map e_value es).
Proof. intros H. rewrite !map_map. apply map_ext_in. intros e He%list_elem_of_In. by apply H. Qed.

Lemma numbered_add (es : list entry) (e0 : entry) (v : Z) :
  numbered es -> e_value e0 = v -> 0 <= v <= Z.of_nat (length es) -> Z.of_nat (length es) <= max_entries ->
  numbered (e0 :: map (bump v) es).
Proof.
  intros N E Hv Hm. unfold numbered. cbn [map length]. rewrite length_map.
  rewrite (renumbered_values _ (fun x => if v <=? x then x + 1 else x)).
  2:{ intros e He. apply bump_value. pose proof (numbered_range es e N He). lia. }
  unfold numbered in N. rewrite N, E. apply below_cover.
  - constructor.
    + intros (x & Ex & Hx)%list_elem_of_fmap. destruct (Z.leb_spec v x); lia.
    + apply NoDup_fmap_2_strong; [|apply NoDup_below]. intros x y _ _. destruct (Z.leb_spec v x), (Z.leb_spec v y); lia.
  - constructor; [lia|]. apply Forall_fmap, list.Forall_forall. intros x Hx%elem_below. cbn. destruct (Z.leb_spec v x); lia.
  - cbn [length]. rewrite length_map, length_below. lia.
Qed.

Lemma numbered_remove (es : list entry) (es1 es2 : list entry) (e0 : entry) (v : Z) :
  es = es1 ++ e0 :: es2 -> numbered es -> e_value e0 = v -> Z.of_nat (length es) <= max_entries ->
  numbered (map (drop_by_one v) (es1 ++ es2)).
Proof.
  intros -> N E Hm. pose proof (numbered_range _ e0 N ltac:(apply elem_of_app; right; left)) as Hv.
  assert (v :: map e_value (es1 ++ es2) ≡ₚ below (Z.of_nat (length (es1 ++ e0 :: es2)))) as P.
  { unfold numbered in N. rewrite <- N, !map_app. cbn. rewrite E. apply Permutation_middle. }
  assert (NoDup (v :: map e_value (es1 ++ es2))) as ND by (rewrite P; apply NoDup_below).
  assert (forall x, x ∈ map e_value (es1 ++ es2) -> 0 <= x < Z.of_nat (length (es1 ++ e0 :: es2)) /\ x <> v) as Rg.
  { intros x Hx. apply list.NoDup_cons in ND as [ND _]. split; [|congruence]. apply elem_below. rewrite <- P. by right. }
  unfold numbered. rewrite length_map, (renumbered_values _ (fun x => if v <? x then x - 1 else x)).
  2:{ intros e He. apply drop_value; [lia|]. pose proof (Rg (e_value e) ltac:(by apply list_elem_of_fmap_2)). lia. }
  rewrite !length_app in *. cbn [length] in *. apply below_cover.
  - apply list.NoDup_cons in ND as [_ ND]. apply NoDup_fmap_2_strong; [|done]. intros x y Hx%Rg Hy%Rg.
    destruct (Z.ltb_spec v x), (Z.ltb_spec v y); lia.
  - apply Forall_fmap, list.Forall_forall. intros x Hx%Rg. cbn. destruct (Z.ltb_spec v x); lia.
  - rewrite !length_map, length_app. lia.
Qed.

(** ** The theorems *)

Theorem numbering_kept (h : CFBasicHash) (sl : list slot) (k v : Z) :
  KeyLaws (ht_config h) -> table h sl -> is_mutable (ht_config h) = true -> has_keys (ht_config h) = true -> has_counts (ht_config h) = false ->
  (forall x, retained_value (ht_config h) x = x) -> numbered (entries sl) -> ht_used h < max_entries -> 0 <= v <= ht_used h ->
  is_substitute k = false -> storable (ht_config h) k v ->
  (dict_find (ht_config h) k (entries sl) = None ->
     exists h' sl', CFBasicHashAddIntValueAndInc h k v = Ok (h', true) /\ table h' sl' /\ numbered (entries sl') /\
       entries sl' ≡ₚ new_entry (ht_config h) k v 1 :: map (bump v) (entries sl)) /\
  (v < ht_used h ->
     exists h' sl' e, CFBasicHashRemoveIntValueAndDec h v = Ok h' /\ table h' sl' /\ numbered (entries sl') /\
       e ∈ entries sl /\ e_value e = v /\ entries sl' ≡ₚ map (drop_by_one v) (dict_delete (ht_config h) (e_key e) (entries sl))).
Proof.
  intros L T HM HK HC RV N Hm Hv Hk S. pose proof (c_used _ _ (t_counted _ _ T)) as U.
  assert (forall es es', es ≡ₚ es' -> numbered es' -> numbered es) as NP.
  { intros es es' P Ne. unfold numbered in *. by rewrite P. }
  assert (forall e, e ∈ entries sl -> 0 <= e_value e < max_entries) as Rg by (intros e He; pose proof (numbered_range _ _ N He); lia).
  split.
  - intros F. pose proof (add_int_value_Ok T HM HK k v Hk (small_plain v ltac:(lia)) S) as A. rewrite F in A.
    destruct A as (h' & sl' & E & T' & P & _); [|done|].
    + intros e He. specialize (Rg e He). apply small_plain. rewrite bump_value by lia. destruct (v <=? e_value e); lia.
    + exists h', sl'. split_and!; try done. apply (NP _ _ P). apply numbered_add; [done|apply RV|lia|lia].
  - intros Hlt. assert (v ∈ map e_value (entries sl)) as (e & -> & He)%list_elem_of_fmap by (unfold numbered in N; rewrite N; apply elem_below; lia).
    pose proof (proj1 (entries_elem _ _) He) as [i Hi].
    assert (e_count e = 1) as C1.
    { destruct (slot_entry_ok (t_reps _ _ T) i e Hi) as (_ & _ & O). rewrite HC in O. lia. }
    destruct (entry_split (ht_idx h) sl i (e_key e) e (t_arranged _ _ T) Hi (key_eq_refl _)) as (es1 & es2 & Ee & _ & F1 & F2).
    destruct (remove_int_value_Ok T HM HK (e_value e) i e) as (h' & sl' & E & T' & P & _); try done.
    + apply small_plain. lia.
    + intros x Hx. specialize (Rg x Hx). apply small_plain. rewrite drop_value by lia. destruct (Z.ltb_spec (e_value e) (e_value x)); lia.
    + intros x Hx Ex. assert (x = e) as ->; [|apply key_eq_refl].
      assert (NoDup (map e_value (entries sl))) as ND by (unfold numbered in N; rewrite N; apply NoDup_below).
      apply list_elem_of_lookup_1 in Hx as [a Ha], He as [b Hb].
      assert (a = b) as ->; [|congruence].
      apply (NoDup_lookup _ a b (e_value e) ND); rewrite list_lookup_fmap; [by rewrite Ha; cbn; rewrite Ex|by rewrite Hb].
    + exists h', sl', e. split_and!; try done. apply (NP _ _ P). rewrite Ee, dict_delete_split by (done || apply key_eq_refl).
      apply numbered_remove with (entries sl) e; [done|done|done|lia].
Qed.


(** A table of three numbered keys. *)
Definition int_flags : Z := kCFBasicHashHasKeys + kCFBasicHashDoubleHashing.
Definition int_callbacks : CFBasicHashCallbacks := mkCallbacks None None false false None None None None.
Definition int_ops : list op := [OpAdd 10 1; OpAdd 20 0; OpAdd 30 2].

#[export] Instance int_laws : KeyLaws (created_config int_flags int_callbacks).
Proof.
  split.
  - intros a. apply Z.eqb_refl.
  - intros a b H%Z.eqb_eq. by apply Z.eqb_eq.
  - intros a b d H1%Z.eqb_eq H2%Z.eqb_eq. apply Z.eqb_eq. congruence.
  - intros a b H%Z.eqb_eq. exact H.
  - right. left. reflexivity.
  - reflexivity.
Qed.

Lemma int_table :
  exists h sl, ht_config h = created_config int_flags int_callbacks /\ table h sl /\
    entries sl ≡ₚ [mkEntry 30 2 1; mkEntry 20 0 1; mkEntry 10 1 1] /\ ht_used h = 3.
Proof.
  destruct (create_Ok int_flags int_callbacks eq_refl) as (h0 & E0 & C0 & T0 & U0 & L0).
  destruct (hash_run_Ok int_ops h0 [] [] C0 T0) as (h & sl & E & C & T & P & _); [done|done|repeat constructor|rewrite U0; vm_compute; done|].
  exists h, sl. split_and!; [done|done|done|]. rewrite (c_used _ _ (t_counted _ _ T)), P. done.
Qed.

Lemma numbering_witness :
  exists h sl h' sl', table h sl /\ entries sl ≡ₚ [mkEntry 30 2 1; mkEntry 20 0 1; mkEntry 10 1 1] /\
    CFBasicHashAddIntValueAndInc h 40 1 = Ok (h', true) /\ entries sl' ≡ₚ mkEntry 40 1 1 :: map (bump 1) (entries sl).
Proof.
  destruct int_table as (h & sl & C & T & P & U).
  destruct (numbering_kept h sl 40 1) as [A _]; rewrite ?C, ?U; try done.
  - apply int_laws.
  - unfold numbered. rewrite P. change ([2; 0; 1] ≡ₚ [0; 1; 2]). solve_Permutation.
  - destruct A as (h' & sl' & E' & _ & _ & P'); [apply dict_find_None; rewrite C, P; repeat constructor|].
    exists h, sl, h', sl'. rewrite C in P'. done.
Defined.

(** C22. __CFBasicHashRehash, to grow, to shrink or in place, succeeds when the used buckets and the new
    items together are at most 1238087439 (the capacity of table 42 of 44), gives a table with that
    capacity, keeps every entry with its count, clears the deleted buckets, calls no retain or release
    callback and re-establishes the invariant. *)
Theorem rehash_keeps_entries (h : CFBasicHash) (sl : list slot) (n : Z) :
  KeyLaws (ht_config h) -> table h sl -> ht_used h + Z.max 0 n <= max_entries ->
  exists h' sl', CFBasicHashRehash h n = Ok h' /\ table h' sl' /\ fresh_slots sl' /\ entries sl' ≡ₚ entries sl /\ ht_log h' = ht_log h /\
    exists cap, aget CFBasicHashTableCapacities (ht_idx h') = Ok cap /\ ht_used h + Z.max 0 n <= cap.
Proof.
  intros L [R A [U [cap [Hcap Hle]] D DR]] Hm. destruct (decide (n = 0)) as [->|Hn].
  - destruct (rehash_same R A U cap Hcap Hle) as (h' & sl' & E & [T' F' P' Ec Eu _ El]). exists h', sl'. split_and!; try done.
    destruct (c_capacity _ _ (t_counted _ _ T')) as (cap' & ? & ?). exists cap'. split; [done|lia].
  - destruct (rehash_grow R A U n Hn Hm) as (h' & sl' & E & [T' F' P' Ec Eu _ El] & RC). by exists h', sl'.
Qed.

(** Above that bound the step of a table that grows aggressively leaves the list: from
    2003267722 entries on, one more asks for table 44, is given table 45, and that is a
    table of no buckets. *)
Theorem fast_grow_leaves_list (h : CFBasicHash) (old : Z) :
  fast_grow (ht_config h) = true -> 2003267722 <= ht_used h < 3241355160 -> aget CFBasicHashTableSizes (ht_idx h) = Ok old ->
  exists new, ht_idx new = 45 /\ ht_values new = [] /\ CFBasicHashNumBuckets new = Ok 0 /\
    CFBasicHashRehash h 1 = rehash_loop (Z.to_nat old) new h 0.
Proof.
  intros F U O. unfold CFBasicHashRehash. cbn [negb Z.eqb]. change (1 <? 0) with false. cbv iota.
  assert (Ei : CFBasicHashGetNumBucketsIndexForCapacity (ht_used h + 1) = Ok 44).
  { unfold CFBasicHashGetNumBucketsIndexForCapacity. destruct (capacity_index_spec CFBasicHashTableCapacities 0 (ht_used h + 1) 44 3241355160 eq_refl ltac:(lia)) as (i & y & Hi & Hy & Hle & -> & _).
    destruct (Nat.eq_dec i 44) as [->|N]; [done|]. exfalso.
    assert (Small : Forall (fun c => c <= 2003267722) (take 44 CFBasicHashTableCapacities)) by (apply (bool_decide_unpack _); by vm_compute).
    rewrite Forall_lookup in Small. specialize (Small i y). rewrite lookup_take_lt in Small by lia. specialize (Small Hy). lia. }
  rewrite Ei, F. cbn [mbind result_bind andb]. rewrite O. eexists. split; [|split; [|split; [|reflexivity]]]; reflexivity.
Qed.

Lemma rehash_witness :
  exists sl h' sl', CFBasicHashRehash word_hash 20 = Ok h' /\ table h' sl' /\ entries sl' ≡ₚ entries sl /\
    entries sl ≡ₚ [mkEntry 8 1 1; mkEntry 7 (2 ^ 64 - 1) 1; mkEntry 0 61 1].
Proof.
  destruct word_table as (sl & T & P). exists sl.
  destruct (rehash_keeps_entries word_hash sl 20 word_hash_laws T) as (h' & sl' & E & T' & _ & P' & _); [vm_compute; discriminate|].
  exists h', sl'. split; [exact E|]. split; [exact T'|]. split; [exact P'|exact P].
Defined.

Theorem copy_refines (src : CFBasicHash) (sl : list slot) :
  KeyLaws (ht_config src) -> table src sl -> (forall e, e ∈ entries sl -> storable (ht_config src) (e_key e) (e_value e)) ->
  exists h', CFBasicHashCreateCopy src = Ok h' /\ is_mutable (ht_config h') = true /\
    table h' (map (copied_slot (src := src)) sl) /\
    entries (map (copied_slot (src := src)) sl) = map (copied (src := src)) (entries sl) /\
    ht_log h' = concat (map (copy_retains (src := src)) sl) /\
    ((forall v, retained_value (ht_config src) v = v) -> CFBasicHashesAreEqual src h' = Ok true).
Proof.
  intros L T SE. destruct (create_copy_Ok T SE) as (h' & E & C & _ & T' & Lg). exists h'.
  split_and!; [done|by rewrite C|done|apply entries_copied|done|].
  intros RV. destruct (copy_equal T SE RV) as (h2 & E2 & Q). rewrite E in E2. by injection E2 as <-.
Qed.

Lemma copy_witness : exists h', CFBasicHashCreateCopy word_hash = Ok h' /\ CFBasicHashesAreEqual word_hash h' = Ok true.
Proof.
  destruct word_table as (sl & T & P).
  destruct (copy_refines word_hash sl word_hash_laws T) as (h' & E & _ & _ & _ & _ & Q).
  - intros e He. rewrite P in He. repeat (apply elem_of_cons in He as [->|He]; [done|]). by apply not_elem_of_nil in He.
  - exists h'. split; [exact E|]. apply Q. intros v. reflexivity.
Defined.

End HashCopy.
