(* ===== verification/Collections.v ===== *)
(** * CFDictionary.c, CFSet.c and CFBag.c

    The three collections are thin layers over CFBasicHash: a dictionary has an array of
    keys, a bag has counts, a set has neither; all probe linearly.  In a set and a bag the
    key callbacks serve for the values too and a value is its own key.  The dispatch of
    bridged Objective-C objects, the write barriers of the collector, the KVO bit and the
    descriptions are left out. *)

From stdpp Require Import base list numbers option.
From Stdlib Require Import ZArith Lia.
From S2P Require Import Prelude BasicHash.

(** ** Callbacks *)

(** The key (or value) callbacks of a collection; [None] is a NULL field. *)
Record KeyCallBacks : Type := mkKeyCallBacks {
  k_retain : option (Z -> Z);
  k_release : bool;
  k_equal : option (Z -> Z -> bool);
  k_hash : option (Z -> Z)
}.
Record ValueCallBacks : Type := mkValueCallBacks {
  v_retain : option (Z -> Z);
  v_release : bool;
  v_equal : option (Z -> Z -> bool)
}.

Definition key_field {A} (cb : option KeyCallBacks) (f : KeyCallBacks -> A) (null : A) : A :=
  match cb with Some cb => f cb | None => null end.
Definition value_field {A} (cb : option ValueCallBacks) (f : ValueCallBacks -> A) (null : A) : A :=
  match cb with Some cb => f cb | None => null end.

(** Room for the values, where there are any. *)
Definition reserve (ht : BasicHash.CFBasicHash) (numValues : Z) : result BasicHash.CFBasicHash :=
  if 0 <? numValues then BasicHash.CFBasicHashSetCapacity ht numValues else Ok ht.

Module Dictionary.
Import BasicHash.

Definition dictionary_flags : Z := Z.lor kCFBasicHashLinearHashing kCFBasicHashHasKeys.

Definition dictionary_callbacks_of (keyCallBacks : option KeyCallBacks) (valueCallBacks : option ValueCallBacks) : CFBasicHashCallbacks :=
  mkCallbacks (value_field valueCallBacks v_retain None) (key_field keyCallBacks k_retain None)
    (value_field valueCallBacks v_release false) (key_field keyCallBacks k_release false)
    (value_field valueCallBacks v_equal None) (key_field keyCallBacks k_equal None) (key_field keyCallBacks k_hash None) None.

Definition CFDictionaryCreateGeneric (keyCallBacks : option KeyCallBacks) (valueCallBacks : option ValueCallBacks) : result CFBasicHash :=
  CFBasicHashCreate dictionary_flags (dictionary_callbacks_of keyCallBacks valueCallBacks).

(** The pairs are added in their order. *)
Fixpoint dictionary_add_values (n : nat) (ht : CFBasicHash) (klist vlist : list Z) (idx : Z) : result CFBasicHash :=
  match n with
  | O => Ok ht
  | S n =>
    k ← aget klist idx; v ← aget vlist idx;
    '(ht, _) ← CFBasicHashAddValue ht k v;
    dictionary_add_values n ht klist vlist (idx + 1)
  end.

(** [keyCallBacks] and [valueCallBacks] are kCFTypeDictionaryKeyCallBacks and
    kCFTypeDictionaryValueCallBacks, whose functions belong to the runtime. *)
Definition CFDictionaryCreateTransfer (keyCallBacks : KeyCallBacks) (valueCallBacks : ValueCallBacks) (klist vlist : list Z) (numValues : Z) : result CFBasicHash :=
  ht ← CFBasicHashCreate dictionary_flags (dictionary_callbacks_of (Some keyCallBacks) (Some valueCallBacks));
  ht ← reserve (CFBasicHashSuppressRC ht) numValues;
  ht ← dictionary_add_values (Z.to_nat numValues) ht klist vlist 0;
  Ok (CFBasicHashMakeImmutable (CFBasicHashUnsuppressRC ht)).

Definition CFDictionaryCreate (klist vlist : list Z) (numValues : Z) (keyCallBacks : option KeyCallBacks) (valueCallBacks : option ValueCallBacks) : result CFBasicHash :=
  ht ← CFDictionaryCreateGeneric keyCallBacks valueCallBacks;
  ht ← reserve ht numValues;
  ht ← dictionary_add_values (Z.to_nat numValues) ht klist vlist 0;
  Ok (CFBasicHashMakeImmutable ht).

(** The capacity is only a hint and is not used. *)
Definition CFDictionaryCreateMutable (capacity : Z) (keyCallBacks : option KeyCallBacks) (valueCallBacks : option ValueCallBacks) : result CFBasicHash :=
  CFDictionaryCreateGeneric keyCallBacks valueCallBacks.

Definition CFDictionaryCreateCopy (other : CFBasicHash) : result CFBasicHash :=
  ht ← CFBasicHashCreateCopy other; Ok (CFBasicHashMakeImmutable ht).
Definition CFDictionaryCreateMutableCopy (capacity : Z) (other : CFBasicHash) : result CFBasicHash := CFBasicHashCreateCopy other.

Definition CFDictionaryEqual (cf1 cf2 : CFBasicHash) : result bool := CFBasicHashesAreEqual cf1 cf2.
Definition CFDictionaryHash (cf : CFBasicHash) : result Z := CFBasicHashHash cf.
Definition CFDictionaryDeallocate (cf : CFBasicHash) : result CFBasicHash := CFBasicHashDeallocate cf.

Definition CFDictionaryGetCount (hc : CFBasicHash) : result Z := CFBasicHashGetCount hc.
Definition CFDictionaryGetCountOfKey (hc : CFBasicHash) (key : Z) : result Z := CFBasicHashGetCountOfKey hc key.
Definition CFDictionaryContainsKey (hc : CFBasicHash) (key : Z) : result bool :=
  n ← CFBasicHashGetCountOfKey hc key; Ok (0 <? n).
Definition CFDictionaryGetValue (hc : CFBasicHash) (key : Z) : result Z :=
  bkt ← CFBasicHashFindBucket hc key; Ok (if 0 <? b_count bkt then b_value bkt else 0).

(** [None]: false is returned and nothing is stored. *)
Definition CFDictionaryGetValueIfPresent (hc : CFBasicHash) (key : Z) : result (option Z) :=
  bkt ← CFBasicHashFindBucket hc key; Ok (if 0 <? b_count bkt then Some (b_value bkt) else None).
Definition CFDictionaryGetCountOfValue (hc : CFBasicHash) (value : Z) : result Z := CFBasicHashGetCountOfValue hc value.
Definition CFDictionaryContainsValue (hc : CFBasicHash) (value : Z) : result bool :=
  n ← CFBasicHashGetCountOfValue hc value; Ok (0 <? n).
Definition CFDictionaryGetKeyIfPresent (hc : CFBasicHash) (key : Z) : result (option Z) :=
  bkt ← CFBasicHashFindBucket hc key; Ok (if 0 <? b_count bkt then Some (b_key bkt) else None).

(** Pairs of a value and its key. *)
Definition CFDictionaryGetKeysAndValues (hc : CFBasicHash) : result (list (Z * Z)) :=
  n ← CFDictionaryGetCount hc; CFBasicHashGetElements hc n.

Definition CFDictionaryApplyFunction {S} (hc : CFBasicHash) (applier : Z -> Z -> S -> result S) (context : S) : result S :=
  CFBasicHashApply hc (fun bkt s => s ← applier (b_key bkt) (b_value bkt) s; Ok (s, true)) context.

Definition CFDictionaryFastEnumeration (hc : CFBasicHash) (state count : Z) : result (list Z * Z) := CFBasicHashFastEnumeration hc state count.
Definition CFDictionaryIsMutable (hc : CFBasicHash) : bool := is_mutable (ht_config hc).
Definition CFDictionarySetCapacity (hc : CFBasicHash) (cap : Z) : result CFBasicHash := CFBasicHashSetCapacity hc cap.

Definition CFDictionaryAddValue (hc : CFBasicHash) (key value : Z) : result CFBasicHash :=
  '(hc, _) ← CFBasicHashAddValue hc key value; Ok hc.
Definition CFDictionaryReplaceValue (hc : CFBasicHash) (key value : Z) : result CFBasicHash := CFBasicHashReplaceValue hc key value.
Definition CFDictionarySetValue (hc : CFBasicHash) (key value : Z) : result CFBasicHash := CFBasicHashSetValue_ hc key value.
Definition CFDictionaryRemoveValue (hc : CFBasicHash) (key : Z) : result CFBasicHash :=
  '(hc, _) ← CFBasicHashRemoveValue hc key; Ok hc.
Definition CFDictionaryRemoveAllValues (hc : CFBasicHash) : result CFBasicHash := CFBasicHashRemoveAllValues hc.

End Dictionary.

Module HashSet.
Import BasicHash.

Definition set_flags : Z := kCFBasicHashLinearHashing.

(** The callbacks of the values are those of the keys. *)
Definition set_callbacks_of (keyCallBacks : option KeyCallBacks) : CFBasicHashCallbacks :=
  mkCallbacks (key_field keyCallBacks k_retain None) (key_field keyCallBacks k_retain None)
    (key_field keyCallBacks k_release false) (key_field keyCallBacks k_release false)
    (key_field keyCallBacks k_equal None) (key_field keyCallBacks k_equal None) (key_field keyCallBacks k_hash None) None.

Definition CFSetCreateGeneric (keyCallBacks : option KeyCallBacks) : result CFBasicHash :=
  CFBasicHashCreate set_flags (set_callbacks_of keyCallBacks).

Fixpoint set_add_values (n : nat) (ht : CFBasicHash) (klist : list Z) (idx : Z) : result CFBasicHash :=
  match n with
  | O => Ok ht
  | S n => k ← aget klist idx; '(ht, _) ← CFBasicHashAddValue ht k k; set_add_values n ht klist (idx + 1)
  end.

Definition CFSetCreateTransfer (keyCallBacks : KeyCallBacks) (klist : list Z) (numValues : Z) : result CFBasicHash :=
  ht ← CFBasicHashCreate set_flags (set_callbacks_of (Some keyCallBacks));
  ht ← reserve (CFBasicHashSuppressRC ht) numValues;
  ht ← set_add_values (Z.to_nat numValues) ht klist 0;
  Ok (CFBasicHashMakeImmutable (CFBasicHashUnsuppressRC ht)).

Definition CFSetCreate (klist : list Z) (numValues : Z) (keyCallBacks : option KeyCallBacks) : result CFBasicHash :=
  ht ← CFSetCreateGeneric keyCallBacks;
  ht ← reserve ht numValues;
  ht ← set_add_values (Z.to_nat numValues) ht klist 0;
  Ok (CFBasicHashMakeImmutable ht).

Definition CFSetCreateMutable (capacity : Z) (keyCallBacks : option KeyCallBacks) : result CFBasicHash :=
  CFSetCreateGeneric keyCallBacks.
Definition CFSetCreateCopy (other : CFBasicHash) : result CFBasicHash :=
  ht ← CFBasicHashCreateCopy other; Ok (CFBasicHashMakeImmutable ht).
Definition CFSetCreateMutableCopy (capacity : Z) (other : CFBasicHash) : result CFBasicHash := CFBasicHashCreateCopy other.

Definition CFSetEqual (cf1 cf2 : CFBasicHash) : result bool := CFBasicHashesAreEqual cf1 cf2.
Definition CFSetHash (cf : CFBasicHash) : result Z := CFBasicHashHash cf.
Definition CFSetDeallocate (cf : CFBasicHash) : result CFBasicHash := CFBasicHashDeallocate cf.

Definition CFSetGetCount (hc : CFBasicHash) : result Z := CFBasicHashGetCount hc.
Definition CFSetGetCountOfValue (hc : CFBasicHash) (key : Z) : result Z := CFBasicHashGetCountOfKey hc key.
Definition CFSetContainsValue (hc : CFBasicHash) (key : Z) : result bool :=
  n ← CFBasicHashGetCountOfKey hc key; Ok (0 <? n).
Definition CFSetGetValue (hc : CFBasicHash) (key : Z) : result Z :=
  bkt ← CFBasicHashFindBucket hc key; Ok (if 0 <? b_count bkt then b_value bkt else 0).
Definition CFSetGetValueIfPresent (hc : CFBasicHash) (key : Z) : result (option Z) :=
  bkt ← CFBasicHashFindBucket hc key; Ok (if 0 <? b_count bkt then Some (b_value bkt) else None).

(** Pairs of a value and its key, which are the same. *)
Definition CFSetGetValues (hc : CFBasicHash) : result (list (Z * Z)) :=
  n ← CFSetGetCount hc; CFBasicHashGetElements hc n.

Definition CFSetApplyFunction {S} (hc : CFBasicHash) (applier : Z -> S -> result S) (context : S) : result S :=
  CFBasicHashApply hc (fun bkt s => s ← applier (b_value bkt) s; Ok (s, true)) context.

Definition CFSetFastEnumeration (hc : CFBasicHash) (state count : Z) : result (list Z * Z) := CFBasicHashFastEnumeration hc state count.
Definition CFSetIsMutable (hc : CFBasicHash) : bool := is_mutable (ht_config hc).
Definition CFSetSetCapacity (hc : CFBasicHash) (cap : Z) : result CFBasicHash := CFBasicHashSetCapacity hc cap.

Definition CFSetAddValue (hc : CFBasicHash) (key : Z) : result CFBasicHash :=
  '(hc, _) ← CFBasicHashAddValue hc key key; Ok hc.
Definition CFSetReplaceValue (hc : CFBasicHash) (key : Z) : result CFBasicHash := CFBasicHashReplaceValue hc key key.
Definition CFSetSetValue (hc : CFBasicHash) (key : Z) : result CFBasicHash := CFBasicHashSetValue_ hc key key.
Definition CFSetRemoveValue (hc : CFBasicHash) (key : Z) : result CFBasicHash :=
  '(hc, _) ← CFBasicHashRemoveValue hc key; Ok hc.
Definition CFSetRemoveAllValues (hc : CFBasicHash) : result CFBasicHash := CFBasicHashRemoveAllValues hc.

End HashSet.

Module Bag.
Import BasicHash.

Definition bag_flags : Z := Z.lor kCFBasicHashLinearHashing kCFBasicHashHasCounts.

(** The callbacks of the values are those of the keys. *)
Definition bag_callbacks_of (keyCallBacks : option KeyCallBacks) : CFBasicHashCallbacks :=
  mkCallbacks (key_field keyCallBacks k_retain None) (key_field keyCallBacks k_retain None)
    (key_field keyCallBacks k_release false) (key_field keyCallBacks k_release false)
    (key_field keyCallBacks k_equal None) (key_field keyCallBacks k_equal None) (key_field keyCallBacks k_hash None) None.

Definition CFBagCreateGeneric (keyCallBacks : option KeyCallBacks) : result CFBasicHash :=
  CFBasicHashCreate bag_flags (bag_callbacks_of keyCallBacks).

Fixpoint bag_add_values (n : nat) (ht : CFBasicHash) (klist : list Z) (idx : Z) : result CFBasicHash :=
  match n with
  | O => Ok ht
  | S n => k ← aget klist idx; '(ht, _) ← CFBasicHashAddValue ht k k; bag_add_values n ht klist (idx + 1)
  end.

Definition CFBagCreateTransfer (keyCallBacks : KeyCallBacks) (klist : list Z) (numValues : Z) : result CFBasicHash :=
  ht ← CFBasicHashCreate bag_flags (bag_callbacks_of (Some keyCallBacks));
  ht ← reserve (CFBasicHashSuppressRC ht) numValues;
  ht ← bag_add_values (Z.to_nat numValues) ht klist 0;
  Ok (CFBasicHashMakeImmutable (CFBasicHashUnsuppressRC ht)).

Definition CFBagCreate (klist : list Z) (numValues : Z) (keyCallBacks : option KeyCallBacks) : result CFBasicHash :=
  ht ← CFBagCreateGeneric keyCallBacks;
  ht ← reserve ht numValues;
  ht ← bag_add_values (Z.to_nat numValues) ht klist 0;
  Ok (CFBasicHashMakeImmutable ht).

Definition CFBagCreateMutable (capacity : Z) (keyCallBacks : option KeyCallBacks) : result CFBasicHash :=
  CFBagCreateGeneric keyCallBacks.
Definition CFBagCreateCopy (other : CFBasicHash) : result CFBasicHash :=
  ht ← CFBasicHashCreateCopy other; Ok (CFBasicHashMakeImmutable ht).
Definition CFBagCreateMutableCopy (capacity : Z) (other : CFBasicHash) : result CFBasicHash := CFBasicHashCreateCopy other.

Definition CFBagEqual (cf1 cf2 : CFBasicHash) : result bool := CFBasicHashesAreEqual cf1 cf2.
Definition CFBagHash (cf : CFBasicHash) : result Z := CFBasicHashHash cf.
Definition CFBagDeallocate (cf : CFBasicHash) : result CFBasicHash := CFBasicHashDeallocate cf.

Definition CFBagGetCount (hc : CFBasicHash) : result Z := CFBasicHashGetCount hc.
Definition CFBagGetCountOfValue (hc : CFBasicHash) (key : Z) : result Z := CFBasicHashGetCountOfKey hc key.
Definition CFBagContainsValue (hc : CFBasicHash) (key : Z) : result bool :=
  n ← CFBasicHashGetCountOfKey hc key; Ok (0 <? n).
Definition CFBagGetValue (hc : CFBasicHash) (key : Z) : result Z :=
  bkt ← CFBasicHashFindBucket hc key; Ok (if 0 <? b_count bkt then b_value bkt else 0).
Definition CFBagGetValueIfPresent (hc : CFBasicHash) (key : Z) : result (option Z) :=
  bkt ← CFBasicHashFindBucket hc key; Ok (if 0 <? b_count bkt then Some (b_value bkt) else None).

(** Pairs of a value and its key, which are the same. *)
Definition CFBagGetValues (hc : CFBasicHash) : result (list (Z * Z)) :=
  n ← CFBagGetCount hc; CFBasicHashGetElements hc n.

(** The applier sees a value as often as it counts. *)
Fixpoint apply_times {S} (cnt : nat) (applier : Z -> S -> result S) (value : Z) (s : S) : result S :=
  match cnt with
  | O => Ok s
  | Datatypes.S cnt => s ← applier value s; apply_times cnt applier value s
  end.

Definition CFBagApplyFunction {S} (hc : CFBasicHash) (applier : Z -> S -> result S) (context : S) : result S :=
  CFBasicHashApply hc (fun bkt s => s ← apply_times (Z.to_nat (b_count bkt)) applier (b_value bkt) s; Ok (s, true)) context.

Definition CFBagFastEnumeration (hc : CFBasicHash) (state count : Z) : result (list Z * Z) := CFBasicHashFastEnumeration hc state count.
Definition CFBagIsMutable (hc : CFBasicHash) : bool := is_mutable (ht_config hc).
Definition CFBagSetCapacity (hc : CFBasicHash) (cap : Z) : result CFBasicHash := CFBasicHashSetCapacity hc cap.

Definition CFBagAddValue (hc : CFBasicHash) (key : Z) : result CFBasicHash :=
  '(hc, _) ← CFBasicHashAddValue hc key key; Ok hc.
Definition CFBagReplaceValue (hc : CFBasicHash) (key : Z) : result CFBasicHash := CFBasicHashReplaceValue hc key key.
Definition CFBagSetValue (hc : CFBasicHash) (key : Z) : result CFBasicHash := CFBasicHashSetValue_ hc key key.
Definition CFBagRemoveValue (hc : CFBasicHash) (key : Z) : result CFBasicHash :=
  '(hc, _) ← CFBasicHashRemoveValue hc key; Ok hc.
Definition CFBagRemoveAllValues (hc : CFBasicHash) : result CFBasicHash := CFBasicHashRemoveAllValues hc.

End Bag.
