(* ===== verification/CollectionOps.v ===== *)
(** * Dictionaries, sets and bags: what a lookup finds after an update

    The collections of Collections.v against the abstract dictionary: a lookup after an
    update, the contents of a new collection (the first of several equal keys wins), and
    the ownership of transferred values. *)

From stdpp Require Import base list numbers option.
From Stdlib Require Import ZArith Lia.
From S2P Require Import Prelude BasicHash HashProbe HashTable HashRehash HashOps HashDict HashRun HashQuery HashCopy Collections.

Module CollectionOps.
Import BasicHash HashProbe HashTable HashRehash HashOps HashDict HashRun HashQuery HashCopy.

(** ** Lookups in the abstract dictionary *)

Section Find.

Context (c : config) {L : KeyLaws c}.

Lemma key_eq_congr (a b x : Z) : key_eq c a b = true -> key_eq c a x = key_eq c b x.
Proof.
  intros E. destruct (key_eq c a x) eqn:A, (key_eq c b x) eqn:B; try done; exfalso.
  - apply key_eq_sym in E. by rewrite (key_eq_trans _ _ _ E A) in B.
  - by rewrite (key_eq_trans _ _ _ E B) in A.
Qed.

Lemma dict_find_congr (k k' : Z) (es : list entry) : key_eq c k k' = true -> dict_find c k es = dict_find c k' es.
Proof.
  intros E. induction es as [|e es IH]; cbn; [done|]. rewrite IH.
  assert (key_eq c (e_key e) k = key_eq c (e_key e) k') as ->; [|done].
  destruct (key_eq c (e_key e) k) eqn:A, (key_eq c (e_key e) k') eqn:B; try done; exfalso.
  - by rewrite (key_eq_trans _ _ _ A E) in B.
  - apply key_eq_sym in E. by rewrite (key_eq_trans _ _ _ B E) in A.
Qed.

Lemma dict_find_update (f : entry -> entry) (k k' : Z) (es : list entry) :
  (forall e, key_eq c (e_key e) k = true -> key_eq c (e_key (f e)) k = true) ->
  dict_find c k' (dict_update c f k es) = if key_eq c k k' then f <$> dict_find c k es else dict_find c k' es.
Proof.
  intros F. unfold dict_update. induction es as [|e es IH]; cbn [map dict_find]; [by destruct (key_eq c k k')|].
  rewrite IH. destruct (key_eq c (e_key e) k) eqn:A.
  - rewrite (key_eq_congr _ _ _ (F e A)), (key_eq_congr _ _ _ A). by destruct (key_eq c k k').
  - destruct (key_eq c (e_key e) k') eqn:B; [|done]. destruct (key_eq c k k') eqn:K; [|done].
    apply key_eq_sym in K. by rewrite (key_eq_trans _ _ _ B K) in A.
Qed.

Lemma dict_find_delete (k k' : Z) (es : list entry) :
  dict_find c k' (dict_delete c k es) = if key_eq c k k' then None else dict_find c k' es.
Proof.
  unfold dict_delete. induction es as [|e es IH]; [by destruct (key_eq c k k')|]. rewrite filter_cons.
  destruct (decide (key_eq c (e_key e) k = false)) as [A|A]; cbn [dict_find]; rewrite IH.
  - destruct (key_eq c (e_key e) k') eqn:B; [|done]. destruct (key_eq c k k') eqn:K; [|done].
    apply key_eq_sym in K. by rewrite (key_eq_trans _ _ _ B K) in A.
  - apply not_false_is_true in A. rewrite (key_eq_congr _ _ _ A). by destruct (key_eq c k k').
Qed.

Lemma dict_find_new (k v n k' : Z) (es : list entry) :
  storable c k v -> dict_find c k' (new_entry c k v n :: es) = if key_eq c k k' then Some (new_entry c k v n) else dict_find c k' es.
Proof. intros S. cbn [dict_find]. cbn [e_key new_entry]. by rewrite (key_eq_congr (stored_key c k v) k k') by apply S. Qed.

(** What is found under [k'] after an operation. *)
Definition step_find (o : op) (es : list entry) (k' : Z) : option entry :=
  match o with
  | OpAdd k v =>
    if key_eq c k k' then
      Some (match dict_find c k es with
            | None => new_entry c k v 1
            | Some e => if has_counts c && (e_count e <? 2 ^ 63 - 1) then recount (Z.add 1) e else e
            end)
    else dict_find c k' es
  | OpReplace k v => if key_eq c k k' then (fun e => new_entry c k v (e_count e)) <$> dict_find c k es else dict_find c k' es
  | OpSet k v =>
    if key_eq c k k' then Some (match dict_find c k es with None => new_entry c k v 1 | Some e => new_entry c k v (e_count e) end)
    else dict_find c k' es
  | OpRemove k =>
    if key_eq c k k' then
      match dict_find c k es with
      | Some e => if 1 <? e_count e then Some (if has_counts c && (e_count e <? 2 ^ 63 - 1) then recount Z.pred e else e) else None
      | None => None
      end
    else dict_find c k' es
  end.

Lemma dict_step_find (o : op) (es : list entry) (k' : Z) :
  op_ok c o -> dict_find c k' (fst (dict_step c o es)) = step_find o es k'.
Proof.
  intros O. assert (forall f k e, key_eq c (e_key e) k = true -> key_eq c (e_key (recount f e)) k = true) as RC by done.
  assert (forall k, key_eq c k k' = true -> dict_find c k' es = dict_find c k es) as CG by (intros k E; symmetry; by apply dict_find_congr).
  destruct o as [k v|k v|k v|k]; cbn in O |- *; unfold dict_add, dict_set, dict_remove, dict_replace.
  - destruct O as (_ & _ & S). destruct (dict_find c k es) as [e|] eqn:F; cbn [fst].
    + destruct (_ && _); cbn [fst]; [rewrite dict_find_update by apply RC; rewrite F; done|].
      destruct (key_eq c k k') eqn:K; [by rewrite (CG k K)|done].
    + by rewrite dict_find_new.
  - destruct O as (_ & _ & S). rewrite dict_find_update; [done|]. intros e _. apply S.
  - destruct O as (_ & _ & S). destruct (dict_find c k es) as [e|] eqn:F; [|by rewrite dict_find_new].
    rewrite dict_find_update by (intros; apply S). by rewrite F.
  - destruct (dict_find c k es) as [e|] eqn:F; cbn [fst].
    + destruct (1 <? e_count e); [|apply dict_find_delete].
      destruct (_ && _); [rewrite dict_find_update by apply RC; by rewrite F|].
      destruct (key_eq c k k') eqn:K; [by rewrite (CG k K)|done].
    + destruct (key_eq c k k') eqn:K; [by rewrite (CG k K)|done].
Qed.

End Find.

(** ** Lookups in a table *)

Lemma hash_step_find {h : CFBasicHash} {sl : list slot} {L : KeyLaws (ht_config h)} (o : op) :
  table h sl -> is_mutable (ht_config h) = true -> op_ok (ht_config h) o -> ht_used h < max_entries ->
  exists h' sl' r, hash_step h o = Ok (h', r) /\ ht_config h' = ht_config h /\ table h' sl' /\
    forall k', dict_find (ht_config h) k' (entries sl') = step_find (ht_config h) o (entries sl) k'.
Proof.
  intros T HM O Hm. destruct (hash_step_Ok o T HM O Hm) as (h' & sl' & E & T' & P & [Lc _]).
  exists h', sl', (snd (dict_step (ht_config h) o (entries sl))). split_and!; [done|done|done|]. intros k'.
  assert (KeyLaws (ht_config h')) as L' by by rewrite Lc.
  pose proof (table_functional T') as F. rewrite Lc in F. rewrite <- (dict_find_perm _ k' _ _ F (symmetry P)). by apply dict_step_find.
Qed.

Lemma find_public {h : CFBasicHash} {sl : list slot} {L : KeyLaws (ht_config h)} (k : Z) :
  table h sl -> is_substitute k = false ->
  exists b, CFBasicHashFindBucket h k = Ok b /\
    match dict_find (ht_config h) k (entries sl) with
    | Some e => bucket_entry b = e /\ 0 < b_count b
    | None => b_count b = 0
    end.
Proof.
  intros T Hk. unfold CFBasicHashFindBucket. rewrite Hk. destruct (find_bucket_Ok T k) as (b & -> & Lk). exists b. split; [done|].
  destruct Lk as [i e _ _ -> Hc|i _ ->]; [|done]. split; [by destruct e|cbn; lia].
Qed.

(** ** The contract of the key callbacks *)

Definition callback_eq (kcb : option KeyCallBacks) (a b : Z) : bool :=
  match key_field kcb k_equal None with None => a =? b | Some func => func a b end.
Definition callback_hash (kcb : option KeyCallBacks) (k : Z) : Z :=
  match key_field kcb k_hash None with None => k | Some func => func k end.

(** Equality is an equivalence, and equal keys have equal hash codes. *)
Class KeyCallBackLaws (kcb : option KeyCallBacks) : Prop := {
  callback_refl : forall a, callback_eq kcb a a = true;
  callback_sym : forall a b, callback_eq kcb a b = true -> callback_eq kcb b a = true;
  callback_trans : forall a b d, callback_eq kcb a b = true -> callback_eq kcb b d = true -> callback_eq kcb a d = true;
  callback_compat : forall a b, callback_eq kcb a b = true -> callback_hash kcb a = callback_hash kcb b
}.

#[export] Instance null_callback_laws : KeyCallBackLaws None.
Proof.
  split; cbn.
  - intros a. apply Z.eqb_refl.
  - intros a b H%Z.eqb_eq. by apply Z.eqb_eq.
  - intros a b d H1%Z.eqb_eq H2%Z.eqb_eq. apply Z.eqb_eq. congruence.
  - intros a b H%Z.eqb_eq. exact H.
Qed.

Section Instances.

Context (kcb : option KeyCallBacks) {K : KeyCallBackLaws kcb}.

(** The configurations of the three collections. *)
Definition dictionary_config (vcb : option ValueCallBacks) : config :=
  created_config Dictionary.dictionary_flags (Dictionary.dictionary_callbacks_of kcb vcb).
Definition set_config : config := created_config HashSet.set_flags (HashSet.set_callbacks_of kcb).
Definition bag_config : config := created_config Bag.bag_flags (Bag.bag_callbacks_of kcb).

#[export] Instance dictionary_laws (vcb : option ValueCallBacks) : KeyLaws (dictionary_config vcb).
Proof. destruct K as [R S T H]. split; [exact R|exact S|exact T|exact H|by left|reflexivity]. Qed.
#[export] Instance set_laws : KeyLaws set_config.
Proof. destruct K as [R S T H]. split; [exact R|exact S|exact T|exact H|by left|reflexivity]. Qed.
#[export] Instance bag_laws : KeyLaws bag_config.
Proof. destruct K as [R S T H]. split; [exact R|exact S|exact T|exact H|by left|reflexivity]. Qed.

End Instances.

(** ** Settings of the table that do not touch its contents *)

Lemma retable (h : CFBasicHash) (sl : list slot) (cf : config) :
  table h sl -> hash_style cf = hash_style (ht_config h) -> has_keys cf = has_keys (ht_config h) -> has_counts cf = has_counts (ht_config h) ->
  has_hashes cf = has_hashes (ht_config h) -> indirect_keys cf = indirect_keys (ht_config h) -> callbacks cf = callbacks (ht_config h) ->
  table (BasicHash.set_config cf h) sl.
Proof.
  intros [R A C] E1 E2 E3 E4 E5 E6. destruct cf as [m st ks cs hs ik fg nr fi cb], h as [[m' st' ks' cs' hs' ik' fg' nr' fi' cb'] mu u d ix w vs kys cts hss lg].
  cbn in *. subst. destruct R, A, C. split; [by split|by split|by split].
Qed.

Lemma immutable_table (h : CFBasicHash) (sl : list slot) : table h sl -> table (CFBasicHashMakeImmutable h) sl.
Proof. intros T. by apply retable. Qed.
Lemma suppress_table (h : CFBasicHash) (sl : list slot) : table h sl -> table (CFBasicHashSuppressRC h) sl.
Proof. intros T. by apply retable. Qed.
Lemma unsuppress_table (h : CFBasicHash) (sl : list slot) : table h sl -> table (CFBasicHashUnsuppressRC h) sl.
Proof. intros T. by apply retable. Qed.

(** ** Dictionaries *)

Module Dict.
Import Dictionary.

Lemma get_value_if_present {h : CFBasicHash} {sl : list slot} {L : KeyLaws (ht_config h)} (k : Z) :
  table h sl -> is_substitute k = false ->
  CFDictionaryGetValueIfPresent h k = Ok (e_value <$> dict_find (ht_config h) k (entries sl)).
Proof.
  intros T Hk. unfold CFDictionaryGetValueIfPresent. destruct (find_public k T Hk) as (b & -> & B). cbn [mbind result_bind].
  destruct (dict_find _ k _) as [e|]; [destruct B as [<- Hp]|rewrite B; done]. by rewrite (proj2 (Z.ltb_lt _ _) Hp).
Qed.

(** The value found under the first of several equal keys. *)
Fixpoint first_value (c : config) (ps : list (Z * Z)) (k' : Z) : option Z :=
  match ps with
  | [] => None
  | (k, v) :: ps => if key_eq c k k' then Some (retained_value c v) else first_value c ps k'
  end.

Definition pair_ok (c : config) (p : Z * Z) : Prop := op_ok c (OpAdd (fst p) (snd p)).

Definition adds (ps : list (Z * Z)) : list op := map (fun p => OpAdd (fst p) (snd p)) ps.

(** Adding the values of two buffers is a run of additions. *)
Lemma add_values_run (kl1 kl2 vl1 vl2 : list Z) (h h' : CFBasicHash) (rs : list Z) :
  length vl1 = length kl1 -> length vl2 = length kl2 -> hash_run h (adds (zip kl2 vl2)) = Ok (h', rs) ->
  dictionary_add_values (length kl2) h (kl1 ++ kl2) (vl1 ++ vl2) (Z.of_nat (length kl1)) = Ok h'.
Proof.
  intros E1 E2. revert kl1 vl1 vl2 h rs E1 E2. induction kl2 as [|k kl2 IH]; intros kl1 vl1 [|v vl2] h rs E1 E2 H; [|done|done|].
  { cbn in H |- *. by injection H as <- _. }
  change (adds (zip (k :: kl2) (v :: vl2))) with (OpAdd k v :: adds (zip kl2 vl2)) in H.
  cbn [length dictionary_add_values hash_run hash_step] in *.
  rewrite (aget_middle kl1 kl2 k) by done. cbn [mbind result_bind]. rewrite (aget_middle vl1 vl2 v) by lia. cbn [mbind result_bind].
  destruct (CFBasicHashAddValue h k v) as [[h1 b]| | |]; cbn [mbind result_bind] in *; try done.
  destruct (hash_run h1 (adds (zip kl2 vl2))) as [[h2 rs2]| | |] eqn:R; cbn [mbind result_bind] in H; try done. injection H as -> _.
  replace (Z.of_nat (length kl1) + 1) with (Z.of_nat (length (kl1 ++ [k]))) by (rewrite length_app; cbn; lia).
  replace (kl1 ++ k :: kl2) with ((kl1 ++ [k]) ++ kl2) by (by rewrite <- app_assoc).
  replace (vl1 ++ v :: vl2) with ((vl1 ++ [v]) ++ vl2) by (by rewrite <- app_assoc).
  apply IH with rs2; [rewrite !length_app; cbn; lia|cbn in E2; lia|done].
Qed.

Lemma adds_find {c : config} {L : KeyLaws c} (ps : list (Z * Z)) (es : list entry) (k' : Z) :
  has_counts c = false -> Forall (op_ok c) (adds ps) ->
  e_value <$> dict_find c k' (fst (dict_run c (adds ps) es)) =
    match dict_find c k' es with Some e => Some (e_value e) | None => first_value c ps k' end.
Proof.
  intros NC. revert es. induction ps as [|[k v] ps IH]; intros es O; cbn [adds map fst snd dict_run first_value] in *.
  { by destruct (dict_find c k' es). }
  apply Forall_cons_1 in O as [O1 O]. pose proof (dict_step_find c (OpAdd k v) es k' O1) as F.
  destruct (dict_step c (OpAdd k v) es) as [es1 r]. cbn [fst] in F. specialize (IH es1 O). unfold adds in IH.
  destruct (dict_run c _ es1) as [es2 rs]. cbn [fst] in *. rewrite IH, F. cbn [step_find]. rewrite NC. cbn [andb].
  destruct (key_eq c k k') eqn:K; [|done]. rewrite (dict_find_congr c k k' es K). by destruct (dict_find c k' es).
Qed.

Lemma reserve_Ok {h : CFBasicHash} {sl : list slot} {L : KeyLaws (ht_config h)} (n : Z) :
  table h sl -> is_mutable (ht_config h) = true -> n <= max_entries ->
  exists h' sl', reserve h n = Ok h' /\ table h' sl' /\ entries sl' ≡ₚ entries sl /\ logged h h' [].
Proof.
  intros T HM Hn. unfold reserve. destruct (0 <? n).
  - destruct (set_capacity_Ok T n HM Hn) as (h' & sl' & E & T' & P & Lg & _). by exists h', sl'.
  - exists h, sl. split_and!; try done. split; [done|by rewrite app_nil_r].
Qed.

(** Reserving room and adding the pairs to an empty table. *)
Lemma fill_Ok (h : CFBasicHash) (klist vlist : list Z) :
  KeyLaws (ht_config h) -> table h [] -> is_mutable (ht_config h) = true -> length vlist = length klist ->
  Forall (op_ok (ht_config h)) (adds (zip klist vlist)) -> Z.of_nat (length klist) <= max_entries ->
  exists h1 h' sl', reserve h (Z.of_nat (length klist)) = Ok h1 /\ dictionary_add_values (length klist) h1 klist vlist 0 = Ok h' /\
    table h' sl' /\ ht_config h' = ht_config h /\ entries sl' ≡ₚ fst (dict_run (ht_config h) (adds (zip klist vlist)) []) /\
    ht_log h' = ht_log h ++ run_events (ht_config h) (adds (zip klist vlist)) [].
Proof.
  intros L T HM E O Hn. destruct (reserve_Ok (Z.of_nat (length klist)) T HM Hn) as (h1 & sl1 & E1 & T1 & P1 & [Lc Ll]).
  destruct (hash_run_Ok (c := ht_config h) (adds (zip klist vlist)) h1 sl1 [] Lc T1) as (h' & sl' & R & C' & T' & P' & Lg & _); try done.
  { rewrite (c_used _ _ (t_counted _ _ T1)), P1. unfold adds. rewrite length_map, length_zip_with. cbn. lia. }
  exists h1, h', sl'. split_and!; try done.
  - by apply (add_values_run [] klist [] vlist h1 h' (snd (dict_run (ht_config h) (adds (zip klist vlist)) []))).
  - by rewrite Lg, Ll, app_nil_r.
Qed.

Theorem dictionary_create_first_wins (kcb : option KeyCallBacks) (vcb : option ValueCallBacks) (klist vlist : list Z) (k' : Z) :
  KeyCallBackLaws kcb -> length vlist = length klist -> Z.of_nat (length klist) <= max_entries ->
  Forall (op_ok (dictionary_config kcb vcb)) (adds (zip klist vlist)) -> is_substitute k' = false ->
  exists h, CFDictionaryCreate klist vlist (Z.of_nat (length klist)) kcb vcb = Ok h /\ CFDictionaryIsMutable h = false /\
    CFDictionaryGetValueIfPresent h k' = Ok (first_value (dictionary_config kcb vcb) (zip klist vlist) k').
Proof.
  intros K E Hn O Hk. destruct (create_Ok dictionary_flags (dictionary_callbacks_of kcb vcb) eq_refl) as (h0 & E0 & C0 & T0 & _).
  fold (dictionary_config kcb vcb) in C0. pose proof (dictionary_laws kcb vcb) as L. rewrite <- C0 in O, L.
  destruct (fill_Ok h0 klist vlist L T0) as (h1 & h2 & sl & E1 & E2 & T & C & P & _); [by rewrite C0|done|done|done|].
  exists (CFBasicHashMakeImmutable h2). unfold CFDictionaryCreate, CFDictionaryCreateGeneric. rewrite E0. cbn [mbind result_bind].
  rewrite E1. cbn [mbind result_bind]. rewrite Nat2Z.id, E2. cbn [mbind result_bind]. split; [reflexivity|]. split; [reflexivity|].
  apply immutable_table in T as TI. assert (KeyLaws (ht_config (CFBasicHashMakeImmutable h2))) as LI.
  { rewrite <- C in L. destruct L as [L1 L2 L3 L4 L5 L6]. split; [exact L1|exact L2|exact L3|exact L4|exact L5|exact L6]. }
  rewrite (get_value_if_present k' TI Hk). f_equal.
  change (dict_find (ht_config (CFBasicHashMakeImmutable h2)) k') with (dict_find (ht_config h2) k').
  assert (KeyLaws (ht_config h2)) as L2 by by rewrite C. pose proof (table_functional T) as F.
  rewrite <- (dict_find_perm _ k' _ _ F (symmetry P)), C, (adds_find (L := L)); [by rewrite C0|by rewrite C0|exact O].
Qed.

Lemma dictionary_create_witness :
  exists h, CFDictionaryCreate [5; 6; 5] [50; 60; 70] 3 None None = Ok h /\ CFDictionaryIsMutable h = false /\
    CFDictionaryGetValueIfPresent h 5 = Ok (Some 50).
Proof.
  apply (dictionary_create_first_wins None None [5; 6; 5] [50; 60; 70] 5); [apply null_callback_laws|reflexivity|vm_compute; discriminate| |reflexivity].
  repeat constructor.
Defined.

(** C23. After CFDictionarySetValue, AddValue, ReplaceValue or RemoveValue, looking up any key finds
    what a finite map up to equality of keys would hold. *)
Theorem dictionary_lookup_laws (h : CFBasicHash) (sl : list slot) (k v k' : Z) :
  KeyLaws (ht_config h) -> table h sl -> is_mutable (ht_config h) = true -> has_counts (ht_config h) = false -> ht_used h < max_entries ->
  is_substitute k = false -> is_substitute v = false -> is_substitute k' = false -> storable (ht_config h) k v ->
  exists old old', CFDictionaryGetValueIfPresent h k = Ok old /\ CFDictionaryGetValueIfPresent h k' = Ok old' /\
  let new := Some (retained_value (ht_config h) v) in
  let hit := key_eq (ht_config h) k k' in
  (exists h', CFDictionarySetValue h k v = Ok h' /\ CFDictionaryGetValueIfPresent h' k' = Ok (if hit then new else old')) /\
  (exists h', CFDictionaryAddValue h k v = Ok h' /\
     CFDictionaryGetValueIfPresent h' k' = Ok (if hit then match old with Some _ => old | None => new end else old')) /\
  (exists h', CFDictionaryReplaceValue h k v = Ok h' /\
     CFDictionaryGetValueIfPresent h' k' = Ok (if hit then match old with Some _ => new | None => None end else old')) /\
  (exists h', CFDictionaryRemoveValue h k = Ok h' /\ CFDictionaryGetValueIfPresent h' k' = Ok (if hit then None else old')).
Proof.
  intros L T HM NC Hm Hk Hv Hk' S. eexists _, _. split; [exact (get_value_if_present k T Hk)|]. split; [exact (get_value_if_present k' T Hk')|].
  assert (forall o, op_ok (ht_config h) o -> exists h' r, hash_step h o = Ok (h', r) /\
    CFDictionaryGetValueIfPresent h' k' = Ok (e_value <$> step_find (ht_config h) o (entries sl) k')) as Step.
  { intros o O. destruct (hash_step_find o T HM O Hm) as (h' & sl' & r & E & C & T' & F). exists h', r. split; [done|].
    assert (KeyLaws (ht_config h')) as L' by by rewrite C. rewrite (get_value_if_present k' T' Hk'), C. by rewrite F. }
  assert (forall e, dict_find (ht_config h) k (entries sl) = Some e -> e_count e = 1) as One.
  { intros e [[i Hi]%entries_elem _]%dict_find_Some. destruct (slot_entry_ok (t_reps _ _ T) i e Hi) as (_ & _ & Hc). rewrite NC in Hc. lia. }
  cbv zeta. split_and!.
  - destruct (Step (OpSet k v)) as (h' & r & E & G); [done|]. exists h'. cbn [hash_step] in E.
    apply bind_Ok in E as (h2 & E & [= -> _]). split; [done|]. rewrite G. cbn [step_find]. destruct (key_eq _ k k'); [|done].
    by destruct (dict_find _ k _).
  - destruct (Step (OpAdd k v)) as (h' & r & E & G); [done|]. exists h'. cbn [hash_step] in E.
    apply bind_Ok in E as ([h2 b] & E & [= -> _]). unfold CFDictionaryAddValue. rewrite E. split; [done|]. rewrite G. cbn [step_find]. rewrite NC.
    destruct (key_eq _ k k'); [|done]. by destruct (dict_find _ k _).
  - destruct (Step (OpReplace k v)) as (h' & r & E & G); [done|]. exists h'. cbn [hash_step] in E.
    apply bind_Ok in E as (h2 & E & [= -> _]). split; [done|]. rewrite G. cbn [step_find]. destruct (key_eq _ k k'); [|done].
    by destruct (dict_find _ k _).
  - destruct (Step (OpRemove k)) as (h' & r & E & G); [done|]. exists h'. cbn [hash_step] in E.
    unfold CFDictionaryRemoveValue. rewrite E. split; [done|]. rewrite G. cbn [step_find]. destruct (key_eq _ k k'); [|done].
    destruct (dict_find _ k _) as [e|] eqn:F; [|done]. by rewrite (One e eq_refl).
Qed.

Lemma dictionary_lookup_witness :
  exists h h', CFDictionarySetValue h 20 7 = Ok h' /\ CFDictionaryGetValueIfPresent h 20 = Ok (Some 0) /\
    CFDictionaryGetValueIfPresent h' 20 = Ok (Some 7).
Proof.
  destruct int_table as (h & sl & C & T & P & U).
  assert (KeyLaws (ht_config h)) as L by (rewrite C; apply int_laws).
  destruct (dictionary_lookup_laws h sl 20 7 20 L T) as (old & old' & E & _ & (h' & Es & Eg) & _);
    [by rewrite C|by rewrite C|rewrite U; vm_compute; done|reflexivity|reflexivity|reflexivity|rewrite C; done|].
  exists h, h'. split; [exact Es|]. rewrite C in Eg. split; [|exact Eg].
  rewrite (get_value_if_present 20 T eq_refl). pose proof (table_functional T) as F.
  rewrite <- (dict_find_perm _ 20 _ _ F (symmetry P)), C. reflexivity.
Defined.

(** ** Transferred references *)

(** No two keys are equal. *)
Fixpoint apart (c : config) (ks : list Z) : Prop :=
  match ks with [] => True | k :: ks => Forall (fun k' => key_eq c k k' = false) ks /\ apart c ks end.

Lemma adds_apart {c : config} {L : KeyLaws c} (ps : list (Z * Z)) (es : list entry) :
  Forall (op_ok c) (adds ps) -> apart c (map fst ps) ->
  Forall (fun p => dict_find c (fst p) es = None) ps ->
  fst (dict_run c (adds ps) es) ≡ₚ map (fun p => new_entry c (fst p) (snd p) 1) ps ++ es.
Proof.
  revert es. induction ps as [|[k v] ps IH]; intros es O A F; cbn [adds map fst snd dict_run apart] in *; [done|]. destruct A as [A1 A].
  apply Forall_cons_1 in O as [O1 O]. apply Forall_cons_1 in F as [F1 F]. cbn [fst] in F1.
  cbn [dict_step]. unfold dict_add. rewrite F1. specialize (IH (new_entry c k v 1 :: es) O A). unfold adds in IH.
  destruct (dict_run c _ _) as [es2 rs]. cbn [fst] in *. rewrite IH; [cbn; symmetry; apply Permutation_middle|].
  apply list.Forall_forall. intros [k2 v2] Hp. cbn [fst]. rewrite (dict_find_new c k v 1 k2 es) by apply O1.
  rewrite list.Forall_forall in A1. rewrite list.Forall_forall in F. rewrite (A1 k2) by (apply list_elem_of_fmap; by exists (k2, v2)). by apply (F (k2, v2)).
Qed.

Lemma suppressed_events (c : config) (os : list op) (es : list entry) : null_rc c = true -> run_events c os es = [].
Proof.
  intros N. assert (forall k v, retains c k v = []) as R.
  { intros k v. unfold retains, value_retains, key_retains. rewrite N. by destruct (retainValue (callbacks c)), (has_keys c), (retainKey (callbacks c)). }
  assert (forall e, releases c (Full e) = []) as Q.
  { intros e. unfold releases, value_releases, key_releases. rewrite N. by rewrite !andb_false_r. }
  revert es. induction os as [|o os IH]; intros es; cbn; [done|]. rewrite IH, app_nil_r.
  destruct o as [k v|k v|k v|k]; cbn [step_events]; destruct (dict_find c k es) as [e|]; rewrite ?R, ?Q; try done. by destruct (1 <? e_count e).
Qed.

Lemma suppressed_identity (c : config) (x : Z) : null_rc c = true -> retained_value c x = x /\ retained_key c x = x.
Proof. intros N. unfold retained_value, retained_key. rewrite N. by destruct (retainValue (callbacks c)), (retainKey (callbacks c)). Qed.

Lemma released_entries (c : config) (es : list entry) :
  releaseValue (callbacks c) = true -> releaseKey (callbacks c) = true -> has_keys c = true -> null_rc c = false ->
  values_out (concat (map (fun e => releases c (Full e)) es)) = map e_value es /\
  keys_out (concat (map (fun e => releases c (Full e)) es)) = map e_key es.
Proof.
  intros RV RK HK N. induction es as [|e es [IHv IHk]]; [done|]. cbn [map concat].
  rewrite values_out_app, keys_out_app, IHv, IHk. unfold releases, value_releases, key_releases. rewrite RV, RK, HK, N. done.
Qed.

Theorem transfer_owns_references (kcb : KeyCallBacks) (vcb : ValueCallBacks) (klist vlist : list Z) :
  let c := set_null_rc true (dictionary_config (Some kcb) (Some vcb)) in
  KeyCallBackLaws (Some kcb) -> k_release kcb = true -> v_release vcb = true -> length vlist = length klist ->
  Z.of_nat (length klist) <= max_entries -> Forall (op_ok c) (adds (zip klist vlist)) -> apart c klist ->
  exists h h', CFDictionaryCreateTransfer kcb vcb klist vlist (Z.of_nat (length klist)) = Ok h /\ ht_log h = [] /\
    CFDictionaryDeallocate h = Ok h' /\ values_out (ht_log h') ≡ₚ vlist /\ keys_out (ht_log h') ≡ₚ klist.
Proof.
  intros c K RK RV E Hn O A.
  destruct (create_Ok dictionary_flags (dictionary_callbacks_of (Some kcb) (Some vcb)) eq_refl) as (h0 & E0 & C0 & T0 & _ & Lg0).
  assert (ht_config (CFBasicHashSuppressRC h0) = c) as CS by (cbn; by rewrite C0).
  assert (KeyLaws c) as L.
  { pose proof (dictionary_laws (Some kcb) (Some vcb)) as [L1 L2 L3 L4 L5 L6]. split; [exact L1|exact L2|exact L3|exact L4|exact L5|exact L6]. }
  pose proof (suppress_table _ _ T0) as TS. rewrite <- CS in O, L, A.
  destruct (fill_Ok (CFBasicHashSuppressRC h0) klist vlist L TS) as (h1 & h2 & sl & E1 & E2 & T & C & P & Lg); [by rewrite CS|done|done|done|].
  rewrite suppressed_events in Lg by (by rewrite CS). rewrite app_nil_r in Lg. change (ht_log (CFBasicHashSuppressRC h0)) with (ht_log h0) in Lg. rewrite Lg0 in Lg.
  set (h := CFBasicHashMakeImmutable (CFBasicHashUnsuppressRC h2)).
  assert (table (BasicHash.set_config (set_finalized (ht_config h)) h) sl) as TF.
  { apply retable; try done. by apply immutable_table, unsuppress_table. }
  destruct (drain_Ok TF) as (h' & E' & _ & _ & [_ Ll']). change (ht_log (BasicHash.set_config _ h)) with (ht_log h2) in Ll'. rewrite Lg in Ll'.
  destruct (released_entries (ht_config (BasicHash.set_config (set_finalized (ht_config h)) h)) (entries sl)) as [Out Ok'];
    [subst h; cbn; by rewrite C, CS..|reflexivity|]. cbn [app] in Ll'. rewrite <- Ll' in Out, Ok'.
  assert (entries sl ≡ₚ map (fun p => new_entry c (fst p) (snd p) 1) (zip klist vlist)) as PE.
  { rewrite P, CS. rewrite CS in O, L, A. rewrite adds_apart, app_nil_r; [done|done| |by apply list.Forall_forall].
    change (map fst (zip klist vlist)) with ((zip klist vlist).*1). rewrite fst_zip by lia. done. }
  exists h, h'. split_and!.
  - unfold CFDictionaryCreateTransfer. rewrite E0. cbn [mbind result_bind]. rewrite E1. cbn [mbind result_bind]. by rewrite Nat2Z.id, E2.
  - exact Lg.
  - unfold CFDictionaryDeallocate, CFBasicHashDeallocate. assert (finalized (ht_config h) = false) as ->; [|exact E'].
    subst h. cbn. rewrite C, CS. done.
  - rewrite Out, PE, map_map. rewrite (map_ext _ snd) by (intros p; apply suppressed_identity; done).
    change (map snd (zip klist vlist)) with ((zip klist vlist).*2). by rewrite snd_zip by lia.
  - rewrite Ok', PE, map_map. rewrite (map_ext _ fst) by (intros p; cbn; apply suppressed_identity; done).
    change (map fst (zip klist vlist)) with ((zip klist vlist).*1). by rewrite fst_zip by lia.
Qed.

(** Reference-counted words, compared as words. *)
Definition counted_keys : KeyCallBacks := mkKeyCallBacks (Some (fun k => k)) true None None.
Definition counted_values : ValueCallBacks := mkValueCallBacks (Some (fun v => v)) true None.

#[export] Instance counted_laws : KeyCallBackLaws (Some counted_keys).
Proof. destruct null_callback_laws as [R S T H]. split; [exact R|exact S|exact T|exact H]. Qed.

Lemma transfer_witness :
  exists h h', CFDictionaryCreateTransfer counted_keys counted_values [5; 6] [50; 60] 2 = Ok h /\ ht_log h = [] /\
    CFDictionaryDeallocate h = Ok h' /\ values_out (ht_log h') ≡ₚ [50; 60] /\ keys_out (ht_log h') ≡ₚ [5; 6].
Proof.
  apply (transfer_owns_references counted_keys counted_values [5; 6] [50; 60]);
    [apply counted_laws|reflexivity|reflexivity|reflexivity|vm_compute; discriminate|repeat constructor|].
  repeat constructor.
Defined.

(** With a repeated key the second pair is neither stored nor released: its references
    are lost. *)
Example transfer_leaks_duplicates :
  exists h h', CFDictionaryCreateTransfer counted_keys counted_values [5; 5] [50; 60] 2 = Ok h /\
    CFDictionaryDeallocate h = Ok h' /\ values_out (ht_log h') = [50] /\ keys_out (ht_log h') = [5].
Proof. eexists _, _. split; [vm_compute; reflexivity|]. split; [vm_compute; reflexivity|]. by split. Qed.

End Dict.

(** ** Sets and bags *)

Section Members.

Context {h : CFBasicHash} {sl : list slot} {L : KeyLaws (ht_config h)} (T : table h sl) (HM : is_mutable (ht_config h) = true)
  (Hm : ht_used h < max_entries).

#[local] Abbreviation c := (ht_config h).

Definition count_in (es : list entry) (k : Z) : Z := match dict_find c k es with Some e => e_count e | None => 0 end.

Lemma count_in_nonneg (k : Z) : 0 <= count_in (entries sl) k.
Proof.
  unfold count_in. destruct (dict_find c k _) as [e|] eqn:F; [|done]. apply dict_find_Some in F as [[i Hi]%entries_elem _].
  pose proof (count_positive T i e Hi). lia.
Qed.

Lemma total_step (o : op) :
  op_ok c o -> has_counts c = true \/ (forall k, count_in (entries sl) k <= 1) ->
  match o with
  | OpAdd k v => count_in (entries sl) k < 2 ^ 63 - 1 ->
      total (fst (dict_step c o (entries sl))) = total (entries sl) + (if has_counts c then 1 else 1 - count_in (entries sl) k)
  | OpRemove k => count_in (entries sl) k < 2 ^ 63 - 1 ->
      total (fst (dict_step c o (entries sl))) = total (entries sl) - Z.min 1 (count_in (entries sl) k)
  | _ => True
  end.
Proof.
  intros O HC. pose proof (table_keyed T) as K. destruct o as [k v|k v|k v|k]; try done; unfold count_in in *; cbn; unfold dict_add, dict_remove; intros Hlt.
  - destruct (dict_find c k (entries sl)) as [e|] eqn:F.
    + destruct (K k e F) as (Q & es1 & es2 & E & F1 & F2). rewrite (proj2 (Z.ltb_lt _ _) Hlt), andb_true_r.
      destruct (has_counts c) eqn:C; cbn [fst].
      * rewrite E, dict_update_split, !total_app, !total_cons by done. cbn. lia.
      * destruct HC as [?|HC]; [done|]. specialize (HC k). rewrite F in HC.
        assert (1 <= e_count e); [|lia]. apply dict_find_Some in F as [[i Hi]%entries_elem _]. by apply (count_positive T i).
    + cbn [fst]. rewrite total_cons. cbn. destruct (has_counts c); lia.
  - destruct (dict_find c k (entries sl)) as [e|] eqn:F; cbn [fst]; [|lia].
    destruct (K k e F) as (Q & es1 & es2 & E & F1 & F2). apply dict_find_Some in F as [[i Hi]%entries_elem _].
    pose proof (count_positive T i e Hi). destruct (Z.ltb_spec 1 (e_count e)).
    + rewrite (proj2 (Z.ltb_lt _ _) Hlt), andb_true_r. destruct (slot_entry_ok (t_reps _ _ T) i e Hi) as (_ & _ & Hc).
      destruct (has_counts c); [|lia]. rewrite E, dict_update_split, !total_app, !total_cons by done. cbn. lia.
    + rewrite E, dict_delete_split, !total_app, total_cons by done. lia.
Qed.

Lemma count_of_key (k : Z) : is_substitute k = false -> CFBasicHashGetCountOfKey h k = Ok (count_in (entries sl) k).
Proof. intros Hk. rewrite (get_count_of_key T k). by rewrite Hk. Qed.

Lemma member_step (o : op) (k' : Z) :
  op_ok c o -> is_substitute k' = false ->
  exists h' r, hash_step h o = Ok (h', r) /\
    CFBasicHashGetCountOfKey h' k' = Ok (match step_find c o (entries sl) k' with Some e => e_count e | None => 0 end) /\
    CFBasicHashGetCount h' = Ok (total (fst (dict_step c o (entries sl)))).
Proof.
  intros O Hk'. destruct (hash_step_Ok o T HM O Hm) as (h' & sl' & E & T' & P & [C _]).
  assert (KeyLaws (ht_config h')) as L' by by rewrite C. exists h', (snd (dict_step c o (entries sl))). split_and!; [done| |].
  - rewrite (get_count_of_key T' k'), Hk', C. pose proof (table_functional T') as F. rewrite C in F.
    by rewrite <- (dict_find_perm _ k' _ _ F (symmetry P)), dict_step_find.
  - rewrite (get_count_total T'). by rewrite P.
Qed.

End Members.

Theorem bag_count_laws (h : CFBasicHash) (sl : list slot) (k k' : Z) :
  KeyLaws (ht_config h) -> table h sl -> is_mutable (ht_config h) = true -> has_counts (ht_config h) = true -> ht_used h < max_entries ->
  is_substitute k = false -> is_substitute k' = false -> storable (ht_config h) k k ->
  exists n n' total, Bag.CFBagGetCountOfValue h k = Ok n /\ Bag.CFBagGetCountOfValue h k' = Ok n' /\ Bag.CFBagGetCount h = Ok total /\
  let hit := key_eq (ht_config h) k k' in
  (n < 2 ^ 63 - 1 ->
   (exists h', Bag.CFBagAddValue h k = Ok h' /\ Bag.CFBagGetCountOfValue h' k' = Ok (if hit then n + 1 else n') /\
      Bag.CFBagGetCount h' = Ok (total + 1)) /\
   (exists h', Bag.CFBagRemoveValue h k = Ok h' /\ Bag.CFBagGetCountOfValue h' k' = Ok (if hit then Z.max 0 (n - 1) else n') /\
      Bag.CFBagGetCount h' = Ok (total - Z.min 1 n))).
Proof.
  intros L T HM HC Hm Hk Hk' S. exists (count_in (h := h) (entries sl) k), (count_in (h := h) (entries sl) k'), (total (entries sl)).
  split; [by apply count_of_key|]. split; [by apply count_of_key|]. split; [by apply get_count_total|]. cbv zeta. intros Hlt.
  assert (op_ok (ht_config h) (OpAdd k k)) as OA by done. assert (op_ok (ht_config h) (OpRemove k)) as OR by done. split.
  - destruct (member_step T HM Hm (OpAdd k k) k' OA Hk') as (h' & r & E & G & N). cbn [hash_step] in E.
    apply bind_Ok in E as ([h2 b] & E & [= -> _]). exists h'. unfold Bag.CFBagAddValue. rewrite E. split_and!; [done| |].
    + unfold Bag.CFBagGetCountOfValue. rewrite G. cbn [step_find]. unfold count_in in *. rewrite HC. cbn [andb]. destruct (key_eq _ k k'); [|done].
      destruct (dict_find _ k _) as [e|]; [|done]. rewrite (proj2 (Z.ltb_lt _ _) Hlt). cbn. f_equal. lia.
    + unfold Bag.CFBagGetCount. rewrite N, (total_step T (OpAdd k k) OA) by auto. by rewrite HC.
  - destruct (member_step T HM Hm (OpRemove k) k' OR Hk') as (h' & r & E & G & N). cbn [hash_step] in E.
    exists h'. unfold Bag.CFBagRemoveValue. rewrite E. split_and!; [done| |].
    + unfold Bag.CFBagGetCountOfValue. rewrite G. cbn [step_find]. unfold count_in in *. rewrite HC. cbn [andb]. destruct (key_eq _ k k'); [|done].
      destruct (dict_find _ k _) as [e|] eqn:F; [|done]. rewrite (proj2 (Z.ltb_lt _ _) Hlt).
      pose proof (count_in_nonneg (h := h) T k) as Hn. unfold count_in in Hn. rewrite F in Hn.
      destruct (Z.ltb_spec 1 (e_count e)); cbn; f_equal; lia.
    + unfold Bag.CFBagGetCount. by rewrite N, (total_step T (OpRemove k) OR) by auto.
Qed.

(** A bag of 4, 4 and 9. *)
Lemma bag_table :
  exists h sl, ht_config h = bag_config None /\ table h sl /\ entries sl ≡ₚ [mkEntry 9 9 1; mkEntry 4 4 2] /\ ht_used h = 2.
Proof.
  destruct (create_Ok Bag.bag_flags (Bag.bag_callbacks_of None) eq_refl) as (h0 & E0 & C0 & T0 & U0 & L0).
  destruct (hash_run_Ok (c := bag_config None) [OpAdd 4 4; OpAdd 4 4; OpAdd 9 9] h0 [] [] C0 T0) as (h & sl & E & C & T & P & _);
    [done|done|repeat constructor|rewrite U0; vm_compute; done|].
  exists h, sl. split_and!; [done|done|done|]. rewrite (c_used _ _ (t_counted _ _ T)), P. done.
Qed.

Lemma bag_count_witness :
  exists h n, Bag.CFBagGetCountOfValue h 4 = Ok n /\ n = 2 /\
    exists h', Bag.CFBagAddValue h 4 = Ok h' /\ Bag.CFBagGetCountOfValue h' 4 = Ok (n + 1).
Proof.
  destruct bag_table as (h & sl & C & T & P & U). assert (KeyLaws (ht_config h)) as L by (rewrite C; apply bag_laws, null_callback_laws).
  destruct (bag_count_laws h sl 4 4 L T) as (n & n' & tot & En & _ & _ & Laws);
    [by rewrite C|by rewrite C|rewrite U; vm_compute; done|reflexivity|reflexivity|rewrite C; done|].
  assert (n = 2) as ->.
  { unfold Bag.CFBagGetCountOfValue in En. rewrite (count_of_key T 4 eq_refl) in En. injection En as <-. unfold count_in.
    rewrite <- (dict_find_perm _ 4 _ _ (table_functional T) (symmetry P)), C. reflexivity. }
  destruct (Laws ltac:(lia)) as [(h' & Ea & Ec & _) _]. rewrite C in Ec. exists h, 2. split; [exact En|]. split; [done|]. exists h'. split; [exact Ea|exact Ec].
Defined.

(** A set holds each value once: after adding a value it is a member and the number of
    members grows exactly if it was not one; after removing it it is none; the membership
    of unequal values stays. *)
Theorem set_member_laws (h : CFBasicHash) (sl : list slot) (k k' : Z) :
  KeyLaws (ht_config h) -> table h sl -> is_mutable (ht_config h) = true -> has_counts (ht_config h) = false -> ht_used h < max_entries ->
  is_substitute k = false -> is_substitute k' = false -> storable (ht_config h) k k ->
  exists m m' total, HashSet.CFSetContainsValue h k = Ok m /\ HashSet.CFSetContainsValue h k' = Ok m' /\ HashSet.CFSetGetCount h = Ok total /\
  let hit := key_eq (ht_config h) k k' in
  (exists h', HashSet.CFSetAddValue h k = Ok h' /\ HashSet.CFSetContainsValue h' k' = Ok (hit || m') /\
     HashSet.CFSetGetCount h' = Ok (total + (if m then 0 else 1))) /\
  (exists h', HashSet.CFSetRemoveValue h k = Ok h' /\ HashSet.CFSetContainsValue h' k' = Ok (negb hit && m') /\
     HashSet.CFSetGetCount h' = Ok (total - (if m then 1 else 0))).
Proof.
  intros L T HM HC Hm Hk Hk' S.
  assert (forall k, count_in (h := h) (entries sl) k = 0 \/ count_in (h := h) (entries sl) k = 1) as One.
  { intros x. unfold count_in. destruct (dict_find _ x _) as [e|] eqn:F; [right|by left]. apply dict_find_Some in F as [[i Hi]%entries_elem _].
    destruct (slot_entry_ok (t_reps _ _ T) i e Hi) as (_ & _ & Hc). rewrite HC in Hc. lia. }
  assert (forall k, count_in (h := h) (entries sl) k <= 1) as Le by (intros x; destruct (One x); lia).
  exists (0 <? count_in (h := h) (entries sl) k), (0 <? count_in (h := h) (entries sl) k'), (total (entries sl)).
  unfold HashSet.CFSetContainsValue. rewrite !(count_of_key T) by done. split; [done|]. split; [done|]. split; [by apply get_count_total|]. cbv zeta.
  assert (op_ok (ht_config h) (OpAdd k k)) as OA by done. assert (op_ok (ht_config h) (OpRemove k)) as OR by done. split.
  - destruct (member_step T HM Hm (OpAdd k k) k' OA Hk') as (h' & r & E & G & N). cbn [hash_step] in E.
    apply bind_Ok in E as ([h2 b] & E & [= -> _]). exists h'. unfold HashSet.CFSetAddValue. rewrite E, G. split_and!; [done| |].
    + cbn [mbind result_bind step_find]. rewrite HC. cbn [andb]. destruct (key_eq _ k k'); [|done].
      pose proof (One k) as O1. unfold count_in in O1. destruct (dict_find _ k _) as [e|] eqn:F; [|done].
      apply dict_find_Some in F as [[i Hi]%entries_elem _]. pose proof (count_positive T i e Hi).
      cbn [orb]. f_equal. apply Z.ltb_lt. lia.
    + unfold HashSet.CFSetGetCount. rewrite N, (total_step T (OpAdd k k) OA) by (auto; destruct (One k); lia). rewrite HC.
      f_equal. destruct (One k) as [-> | ->]; cbn; lia.
  - destruct (member_step T HM Hm (OpRemove k) k' OR Hk') as (h' & r & E & G & N). cbn [hash_step] in E.
    exists h'. unfold HashSet.CFSetRemoveValue. rewrite E, G. split_and!; [done| |].
    + cbn [mbind result_bind step_find]. destruct (key_eq _ k k'); [|done]. pose proof (One k) as O1. unfold count_in in O1.
      destruct (dict_find _ k _) as [e|] eqn:F; [|done]. destruct (Z.ltb_spec 1 (e_count e)); [lia|done].
    + unfold HashSet.CFSetGetCount. rewrite N, (total_step T (OpRemove k) OR) by (auto; destruct (One k); lia).
      f_equal. destruct (One k) as [-> | ->]; cbn; lia.
Qed.

Lemma set_table : exists h sl, ht_config h = set_config None /\ table h sl /\ entries sl ≡ₚ [mkEntry 9 9 1; mkEntry 4 4 1] /\ ht_used h = 2.
Proof.
  destruct (create_Ok HashSet.set_flags (HashSet.set_callbacks_of None) eq_refl) as (h0 & E0 & C0 & T0 & U0 & L0).
  destruct (hash_run_Ok (c := set_config None) [OpAdd 4 4; OpAdd 4 4; OpAdd 9 9] h0 [] [] C0 T0) as (h & sl & E & C & T & P & _);
    [done|done|repeat constructor|rewrite U0; vm_compute; done|].
  exists h, sl. split_and!; [done|done|done|]. rewrite (c_used _ _ (t_counted _ _ T)), P. done.
Qed.

Lemma set_member_witness :
  exists h m h', HashSet.CFSetContainsValue h 5 = Ok m /\ HashSet.CFSetAddValue h 5 = Ok h' /\ HashSet.CFSetContainsValue h' 5 = Ok (true || m).
Proof.
  destruct set_table as (h & sl & C & T & P & U). assert (KeyLaws (ht_config h)) as L by (rewrite C; apply set_laws, null_callback_laws).
  destruct (set_member_laws h sl 5 5 L T) as (m & m' & tot & _ & Em & _ & (h' & Ea & Ec & _) & _);
    [by rewrite C|by rewrite C|rewrite U; vm_compute; done|reflexivity|reflexivity|rewrite C; done|].
  rewrite C in Ec. exists h, m', h'. split; [exact Em|]. split; [exact Ea|exact Ec].
Defined.

End CollectionOps.
