(* ===== verification/Storage.v ===== *)
(** * CFStorage.c: a 2-3 tree of byte blocks with shared nodes

    A storage keeps its values in the leaves of a tree whose branches have two or three
    children.  Nodes have reference counts and may be shared between storages: a node
    that may be shared is marked frozen and is copied before it is changed, unless its
    count says that nobody else holds it.  The root node is a field of the storage; here
    it has an address of its own and the reference count 0, by which the code recognises
    it.

    Memory is a map from addresses to nodes; an access through a NULL or dangling pointer
    is [Undef].  A byte is a cell, [None] until something is written to it; the block of a
    leaf is its own and is freed with it.  A pointer into a block is the address of the
    leaf and an offset.  The collectable allocator is not used, allocation succeeds, and
    the calls of a dispatch_apply are made in order.  Reference counts are integers: a
    count that overflows 32 bits would need as many nodes.  The fuel of the recursions
    down a tree is the number of nodes. *)

From stdpp Require Import base list numbers option gmap.
From Stdlib Require Import ZArith Lia.
From S2P Require Import Prelude.

Module Storage.

Abbreviation cell := (option Z).

Record CFRange : Type := CFRangeMake { location : Z; rlength : Z }.

(** [info] of [CFStorageNode]; the constructor is [isLeaf]. *)
Inductive node_info : Type :=
| Leaf (capacityInBytes : Z) (memory : option (list cell)) (cachedRange : CFRange)
| Branch (child0 child1 child2 : Z).

Record CFStorageNode : Type := mkNode {
  numBytes : Z;
  refCount : Z;
  isFrozen : bool;
  info : node_info
}.

(** [struct __CFStorage]; [byteToValueShifter] is [None] for NO_SHIFTER and [rootNode] is
    the address of the field. *)
Record CFStorage : Type := mkStorage {
  valueSize : Z;
  byteToValueShifter : option Z;
  alwaysFrozen : bool;
  cacheNode : Z;
  maxLeafCapacity : Z;
  rootNode : Z
}.

(** The nodes and the next unused address. *)
Record heap : Type := mkHeap { h_nodes : gmap Z CFStorageNode; h_next : Z }.

Definition load (h : heap) (a : Z) : result CFStorageNode :=
  match h_nodes h !! a with Some n => Ok n | None => Undef end.

Definition put (h : heap) (a : Z) (n : CFStorageNode) : heap := mkHeap (<[a := n]> (h_nodes h)) (h_next h).

Definition steps (h : heap) : nat := S (size (h_nodes h)).

Definition set_numBytes (v : Z) (n : CFStorageNode) : CFStorageNode := mkNode v (refCount n) (isFrozen n) (info n).
Definition set_refCount (v : Z) (n : CFStorageNode) : CFStorageNode := mkNode (numBytes n) v (isFrozen n) (info n).
Definition set_frozen (v : bool) (n : CFStorageNode) : CFStorageNode := mkNode (numBytes n) (refCount n) v (info n).
Definition set_info (v : node_info) (n : CFStorageNode) : CFStorageNode := mkNode (numBytes n) (refCount n) (isFrozen n) v.

Definition set_cache (c : Z) (s : CFStorage) : CFStorage :=
  mkStorage (valueSize s) (byteToValueShifter s) (alwaysFrozen s) c (maxLeafCapacity s) (rootNode s).

(** The block and the children; the wrong member of the union is [Undef]. *)
Definition leaf_memory (n : CFStorageNode) : result (option (list cell)) :=
  match info n with Leaf _ m _ => Ok m | Branch _ _ _ => Undef end.

Definition memory_of (n : CFStorageNode) : result (list cell) :=
  match info n with Leaf _ (Some m) _ => Ok m | _ => Undef end.

Definition set_memory (m : list cell) (n : CFStorageNode) : result CFStorageNode :=
  match info n with Leaf c _ r => Ok (set_info (Leaf c (Some m) r) n) | Branch _ _ _ => Undef end.

Definition children (n : CFStorageNode) : result (Z * Z * Z) :=
  match info n with Branch c0 c1 c2 => Ok (c0, c1, c2) | Leaf _ _ _ => Undef end.

Definition isLeaf (n : CFStorageNode) : bool := match info n with Leaf _ _ _ => true | Branch _ _ _ => false end.

(** ** Ranges and units *)

Definition intersectionRange (a b : CFRange) : CFRange :=
  let start := Z.max (location a) (location b) in
  let e := Z.min (location a + rlength a) (location b + rlength b) in
  if e <=? start then CFRangeMake 0 0 else CFRangeMake start (e - start).

Definition kMaxLeafCapacity : Z := 4096 * 3.
Definition PAGE_SIZE : Z := 4096.
Definition PAGE_LIMIT : Z := 2048.

Definition roundToPage (num : Z) : Z := Z.land (s32 (s32 num + PAGE_SIZE - 1)) (Z.lnot (PAGE_SIZE - 1)).

Definition CFStorageConvertByteToValue (s : CFStorage) (byte : Z) : Z :=
  match byteToValueShifter s with Some k => Z.shiftr byte k | None => Z.quot byte (valueSize s) end.

Definition CFStorageConvertBytesToValueRange (s : CFStorage) (offset len : Z) : CFRange :=
  CFRangeMake (CFStorageConvertByteToValue s offset) (CFStorageConvertByteToValue s len).

Definition CFStorageConvertValueToByte (s : CFStorage) (value : Z) : Z :=
  match byteToValueShifter s with Some k => Z.shiftl value k | None => value * valueSize s end.

Definition CFStorageConvertValuesToByteRange (s : CFStorage) (offset len : Z) : CFRange :=
  CFRangeMake (CFStorageConvertValueToByte s offset) (CFStorageConvertValueToByte s len).

(** ** The block of a leaf *)

(** realloc: the old bytes as far as they fit, then bytes that nothing was written to. *)
Definition realloc (m : option (list cell)) (cap : Z) : list cell :=
  let old := take (Z.to_nat cap) (default [] m) in old ++ replicate (Z.to_nat cap - length old) None.

Definition rounded_capacity (s : CFStorage) (cap : Z) : Z :=
  if PAGE_LIMIT <? cap then Z.min (roundToPage cap) (maxLeafCapacity s) else Z.quot (cap + 63) 64 * 64.

Definition CFStorageAllocLeafNodeMemory (s : CFStorage) (h : heap) (node cap : Z) (compact : bool) : result heap :=
  n ← load h node;
  match info n with
  | Branch _ _ _ => Undef
  | Leaf capacityInBytes memory r =>
    let cap := rounded_capacity s cap in
    if (if compact then negb (cap =? capacityInBytes) else capacityInBytes <? cap)
    then Ok (put h node (set_info (Leaf cap (Some (realloc memory cap)) r) n))
    else Ok h
  end.

(** ** Reference counts and freezing *)

Definition CFStorageRetainNode (h : heap) (node : Z) : result heap :=
  n ← load h node;
  if 0 <? refCount n then Ok (put h node (set_refCount (refCount n + 1) n)) else Ok h.

(** [__CFStorageReleaseNode] with [__CFStorageDeallocateNode]. *)
Fixpoint CFStorageReleaseNode (fuel : nat) (h : heap) (node : Z) : result heap :=
  match fuel with
  | O => NoFuel
  | S fuel =>
    n ← load h node;
    if 0 <? refCount n then
      let newRefCount := refCount n - 1 in
      let h := put h node (set_refCount newRefCount n) in
      if newRefCount =? 0 then
        h ← match info n with
            | Leaf _ _ _ => Ok h
            | Branch c0 c1 c2 =>
              h ← (if c0 =? 0 then Ok h else CFStorageReleaseNode fuel h c0);
              h ← (if c1 =? 0 then Ok h else CFStorageReleaseNode fuel h c1);
              if c2 =? 0 then Ok h else CFStorageReleaseNode fuel h c2
            end;
        Ok (mkHeap (delete node (h_nodes h)) (h_next h))
      else Ok h
    else Ok h
  end.

Definition release (h : heap) (node : Z) : result heap := CFStorageReleaseNode (steps h) h node.
Definition CFStorageReleaseNodeWithNullCheck (h : heap) (node : Z) : result heap :=
  if node =? 0 then Ok h else release h node.

Definition CFStorageFreezeNode (h : heap) (node : Z) : result heap :=
  n ← load h node; Ok (put h node (set_frozen true n)).

Definition CFStorageThawNodeDuringMutation (h : heap) (node : Z) : result (heap * bool) :=
  n ← load h node;
  if refCount n =? 1 then Ok (put h node (set_frozen false n), true) else Ok (h, false).

Definition CFStorageSetChild (h : heap) (parentNode childIndex newChild : Z) : result heap :=
  n ← load h parentNode;
  '(c0, c1, c2) ← children n;
  if childIndex =? 0 then Ok (put h parentNode (set_info (Branch newChild c1 c2) n))
  else if childIndex =? 1 then Ok (put h parentNode (set_info (Branch c0 newChild c2) n))
  else if childIndex =? 2 then Ok (put h parentNode (set_info (Branch c0 c1 newChild) n))
  else Undef.

(** Retains and freezes what is not NULL. *)
Definition retain_frozen (h : heap) (node : Z) : result heap :=
  if node =? 0 then Ok h else h ← CFStorageRetainNode h node; CFStorageFreezeNode h node.

(** [__CFStorageGetChildren] with both options, as its only caller uses it. *)
Definition CFStorageGetChildren (h : heap) (parent : Z) : result (heap * (Z * Z * Z)) :=
  n ← load h parent;
  '(c0, c1, c2) ← children n;
  h ← retain_frozen h c0; h ← retain_frozen h c1; h ← retain_frozen h c2;
  Ok (h, (c0, c1, c2)).

(** ** The cache *)

Definition CFStorageSetCache (h : heap) (s : CFStorage) (node locInBytes : Z) : result (heap * CFStorage) :=
  h ← (if node =? 0 then Ok h
       else n ← load h node;
            match info n with
            | Branch _ _ _ => Undef
            | Leaf c m _ => Ok (put h node (set_info (Leaf c m (CFStorageConvertBytesToValueRange s locInBytes (numBytes n))) n))
            end);
  Ok (h, set_cache node s).

(** A pointer and the range of values it is consecutive with. *)
Definition found : Type := (Z * Z) * CFRange.

Definition CFStorageGetFromCache (h : heap) (s : CFStorage) (loc : Z) (requireUnfrozenNode : bool) : result (heap * option found) :=
  let cachedNode := cacheNode s in
  if cachedNode =? 0 then Ok (h, None)
  else
    n ← load h cachedNode;
    if requireUnfrozenNode && isFrozen n then Ok (h, None)
    else
      m ← leaf_memory n;
      h ← match m with Some _ => Ok h | None => CFStorageAllocLeafNodeMemory s h cachedNode (numBytes n) false end;
      match info n with
      | Branch _ _ _ => Undef
      | Leaf _ _ r =>
        if (loc <? location r) || (location r + rlength r <=? loc) then Ok (h, None)
        else Ok (h, Some ((cachedNode, CFStorageConvertValueToByte s (loc - location r)), r))
      end.

(** ** Finding a byte *)

(** The child, its number and the byte relative to it. *)
Definition CFStorageFindChild (h : heap) (node byteNum : Z) (forInsertionOrDeletion : bool) : result (Z * Z * Z) :=
  n ← load h node;
  '(c0, c1, c2) ← children n;
  let back := if forInsertionOrDeletion then 1 else 0 in
  let byteNum := byteNum - back in
  n0 ← load h c0;
  if byteNum <? numBytes n0 then Ok (c0, 0, byteNum + back)
  else
    let byteNum := byteNum - numBytes n0 in
    n1 ← load h c1;
    if byteNum <? numBytes n1 then Ok (c1, 1, byteNum + back)
    else Ok (c2, 2, byteNum - numBytes n1 + back).

Definition CFStorageCreateNode (s : CFStorage) (h : heap) (leaf : bool) (bytes : Z) : heap * Z :=
  let i := if leaf then Leaf 0 None (CFRangeMake 0 0) else Branch 0 0 0 in
  (mkHeap (<[h_next h := mkNode bytes 1 (alwaysFrozen s) i]> (h_nodes h)) (h_next h + 1), h_next h).

(** COPYMEM of [n] bytes from offset [so] of a block to offset [d] of the block of a leaf. *)
Definition copy_to_leaf (h : heap) (dst d : Z) (src : list cell) (so n : Z) : result heap :=
  t ← load h dst;
  m ← memory_of t;
  m ← memmove m d src so n;
  t ← set_memory m t;
  Ok (put h dst t).

Definition retain_child (h : heap) (node : Z) : result heap := if node =? 0 then Ok h else CFStorageRetainNode h node.
Definition freeze_child (h : heap) (node : Z) : result heap := if node =? 0 then Ok h else CFStorageFreezeNode h node.

Definition CFStorageCopyNode (s : CFStorage) (h : heap) (node : Z) : result (heap * Z) :=
  n ← load h node;
  let '(h, res) := CFStorageCreateNode s h (isLeaf n) (numBytes n) in
  match info n with
  | Leaf _ None _ => Ok (h, res)
  | Leaf _ (Some m) _ =>
    h ← CFStorageAllocLeafNodeMemory s h res (numBytes n) false;
    h ← copy_to_leaf h res 0 m 0 (numBytes n);
    Ok (h, res)
  | Branch c0 c1 c2 =>
    h ← CFStorageRetainNode h c0; h ← CFStorageSetChild h res 0 c0;
    h ← retain_child h c1; h ← CFStorageSetChild h res 1 c1;
    h ← retain_child h c2; h ← CFStorageSetChild h res 2 c2;
    h ← (if isFrozen n then h ← CFStorageFreezeNode h c0; h ← freeze_child h c1; freeze_child h c2 else Ok h);
    Ok (h, res)
  end.

(** The pointer, the leaf and the range of its bytes. *)
Fixpoint CFStorageFindByte (fuel : nat) (s : CFStorage) (h : heap) (node byteNum absoluteByteOffsetOfNode : Z) (requireUnfreezing : bool)
    : result (heap * (Z * Z) * CFRange) :=
  match fuel with
  | O => NoFuel
  | S fuel =>
    n ← load h node;
    if isLeaf n then
      h ← CFStorageAllocLeafNodeMemory s h node (numBytes n) false;
      Ok (h, (node, byteNum), CFRangeMake absoluteByteOffsetOfNode (numBytes n))
    else
      '(child, childNum, relativeByteNum) ← CFStorageFindChild h node byteNum false;
      c ← load h child;
      '(h, child) ←
        (if requireUnfreezing && isFrozen c then
           '(h, thawed) ← CFStorageThawNodeDuringMutation h child;
           if thawed : bool then Ok (h, child)
           else
             '(h, unfrozenReplacement) ← CFStorageCopyNode s h child;
             h ← CFStorageSetChild h node childNum unfrozenReplacement;
             h ← release h child;
             Ok (h, unfrozenReplacement)
         else Ok (h, child));
      CFStorageFindByte fuel s h child relativeByteNum (absoluteByteOffsetOfNode + (byteNum - relativeByteNum)) requireUnfreezing
  end.

Definition GetValueAtIndex (h : heap) (s : CFStorage) (idx : Z) (requireUnfreezing : bool) : result (heap * CFStorage * (Z * Z) * CFRange) :=
  '(h, r) ← CFStorageGetFromCache h s idx requireUnfreezing;
  match r with
  | Some (p, range) => Ok (h, s, p, range)
  | None =>
    '(h, p, rangeInBytes) ← CFStorageFindByte (steps h) s h (rootNode s) (CFStorageConvertValueToByte s idx) 0 requireUnfreezing;
    '(h, s) ← CFStorageSetCache h s (fst p) (location rangeInBytes);
    Ok (h, s, p, CFStorageConvertBytesToValueRange s (location rangeInBytes) (rlength rangeInBytes))
  end.

(** ** Deletion *)

Definition CFLeafCopyRangeToOffset (h : heap) (src : list cell) (srcRange : CFRange) (dstLeaf dstLocation : Z) : result heap :=
  if 0 <? rlength srcRange then copy_to_leaf h dstLeaf dstLocation src (location srcRange) (rlength srcRange) else Ok h.

(** NULL is 0. *)
Definition CFStorageDeleteLeafFrozen (s : CFStorage) (h : heap) (node : Z) (range : CFRange) : result (heap * Z) :=
  n ← load h node;
  let rangeToDeleteEnd := location range + rlength range in
  let remainingBytes := numBytes n - rlength range in
  if remainingBytes =? 0 then Ok (h, 0)
  else
    let '(h, newNode) := CFStorageCreateNode s h true remainingBytes in
    m ← leaf_memory n;
    match m with
    | None => Ok (h, newNode)
    | Some m =>
      let nonDeletedPrefix := CFRangeMake 0 (location range) in
      let nonDeletedSuffix := CFRangeMake rangeToDeleteEnd (numBytes n - rangeToDeleteEnd) in
      h ← CFStorageAllocLeafNodeMemory s h newNode remainingBytes false;
      h ← CFLeafCopyRangeToOffset h m nonDeletedPrefix newNode 0;
      h ← CFLeafCopyRangeToOffset h m nonDeletedSuffix newNode (rlength nonDeletedPrefix);
      Ok (h, newNode)
    end.

(** The loop of [__CFStoragePopulateBranchChildrenAfterDeletion] over the children up to
    the first NULL; [del] is [__CFStorageDeleteFrozen] or [__CFStorageDelete]. *)
Fixpoint populate (del : heap -> Z -> CFRange -> result (heap * Z)) (childrenAreDefinitelyFrozen : bool)
    (h : heap) (existing : list Z) (range : CFRange) (childByteOffset : Z) : result (heap * list Z) :=
  match existing with
  | [] => Ok (h, [])
  | existingChild :: existing =>
    if existingChild =? 0 then Ok (h, [])
    else
      n ← load h existingChild;
      let existingChildLength := numBytes n in
      let part := intersectionRange range (CFRangeMake childByteOffset existingChildLength) in
      '(h, kept) ←
        (if rlength part =? 0 then
           h ← CFStorageRetainNode h existingChild;
           h ← (if childrenAreDefinitelyFrozen then CFStorageFreezeNode h existingChild else Ok h);
           Ok (h, [existingChild])
         else
           '(h, newChild) ← del h existingChild (CFRangeMake (location part - childByteOffset) (rlength part));
           Ok (h, if newChild =? 0 then [] else [newChild]));
      '(h, rest) ← populate del childrenAreDefinitelyFrozen h existing range (childByteOffset + existingChildLength);
      Ok (h, kept ++ rest)
  end.

Definition CFStoragePopulateBranchChildrenAfterDeletion (del : heap -> Z -> CFRange -> result (heap * Z))
    (h : heap) (node : Z) (range : CFRange) (childrenAreDefinitelyFrozen : bool) : result (heap * list Z) :=
  n ← load h node;
  '(c0, c1, c2) ← children n;
  populate del childrenAreDefinitelyFrozen h [c0; c1; c2] range 0.

(** [newChildren[0 .. newChildIndex - 1]] into a new branch, the last first. *)
Fixpoint set_children (h : heap) (node idx : Z) (newChildren : list Z) : result heap :=
  match newChildren with
  | [] => Ok h
  | c :: rest => h ← set_children h node (idx + 1) rest; CFStorageSetChild h node idx c
  end.

Definition CFStorageDeleteBranchFrozen (del : heap -> Z -> CFRange -> result (heap * Z)) (s : CFStorage) (h : heap) (node : Z) (range : CFRange)
    : result (heap * Z) :=
  n ← load h node;
  if rlength range =? numBytes n then Ok (h, 0)
  else
    '(h, newChildren) ← CFStoragePopulateBranchChildrenAfterDeletion del h node range true;
    match newChildren with
    | [] => Undef
    | [c] => Ok (h, c)
    | _ =>
      let '(h, res) := CFStorageCreateNode s h false 0 in
      h ← set_children h res 0 newChildren;
      r ← load h res;
      Ok (put h res (set_numBytes (numBytes n - rlength range) r), res)
    end.

Fixpoint CFStorageDeleteFrozen (fuel : nat) (s : CFStorage) (h : heap) (node : Z) (range : CFRange) : result (heap * Z) :=
  match fuel with
  | O => NoFuel
  | S fuel =>
    n ← load h node;
    if isLeaf n then CFStorageDeleteLeafFrozen s h node range
    else CFStorageDeleteBranchFrozen (CFStorageDeleteFrozen fuel s) s h node range
  end.

(** [del] is [__CFStorageDelete]. *)
Definition CFStorageDeleteUnfrozen (del : heap -> Z -> CFRange -> result (heap * Z)) (s : CFStorage) (h : heap) (node : Z) (range : CFRange)
    (compact : bool) : result (heap * Z) :=
  n ← load h node;
  if rlength range =? numBytes n then Ok (h, 0)
  else
    match info n with
    | Leaf _ memory _ =>
      let bytes := numBytes n - rlength range in
      let h := put h node (set_numBytes bytes n) in
      h ← match memory with
          | None => Ok h
          | Some m =>
            h ← copy_to_leaf h node (location range) m (location range + rlength range) (bytes - location range);
            if compact then CFStorageAllocLeafNodeMemory s h node bytes true else Ok h
          end;
      h ← CFStorageRetainNode h node;
      Ok (h, node)
    | Branch c0 c1 c2 =>
      '(h, newChildren) ← CFStoragePopulateBranchChildrenAfterDeletion del h node range false;
      n ← load h node;
      let h := put h node (set_numBytes (numBytes n - rlength range) n) in
      h ← release h c0;
      h ← CFStorageReleaseNodeWithNullCheck h c1;
      h ← CFStorageReleaseNodeWithNullCheck h c2;
      n ← load h node;
      let h := put h node (set_info (Branch 0 0 0) n) in
      match newChildren with
      | [] => Undef
      | [c] => Ok (h, c)
      | _ =>
        h ← CFStorageSetChild h node 0 (nth 0 newChildren 0);
        h ← CFStorageSetChild h node 1 (nth 1 newChildren 0);
        h ← CFStorageSetChild h node 2 (nth 2 newChildren 0);
        h ← CFStorageRetainNode h node;
        Ok (h, node)
      end
    end.

Fixpoint CFStorageDelete (fuel : nat) (s : CFStorage) (compact : bool) (h : heap) (node : Z) (range : CFRange) : result (heap * Z) :=
  match fuel with
  | O => NoFuel
  | S fuel =>
    n ← load h node;
    '(h, frozen) ← (if isFrozen n then '(h, thawed) ← CFStorageThawNodeDuringMutation h node; Ok (h, negb thawed) else Ok (h, false));
    if frozen : bool then CFStorageDeleteFrozen (S fuel) s h node range
    else CFStorageDeleteUnfrozen (CFStorageDelete fuel s compact) s h node range compact
  end.

(** ** Insertion *)

(** [CFStorageDoubleNodeReturn], with the heap and the storage whose cache was set. *)
Definition insertion : Type := heap * CFStorage * Z * Z.

(** COPYMEM of a part that is not empty. *)
Definition copy_overlap (h : heap) (dst : Z) (src : option (list cell)) (overlap : CFRange) (size shift : Z) : result heap :=
  if 0 <? rlength overlap then
    match src with
    | None => Undef
    | Some m => copy_to_leaf h dst (location overlap - shift) m (location overlap - size) (rlength overlap)
    end
  else Ok h.

Definition CFStorageInsertLeafFrozen (h : heap) (s : CFStorage) (node byteNum size absoluteByteNum : Z) : result insertion :=
  n ← load h node;
  m ← leaf_memory n;
  let newTotalSize := size + numBytes n in
  if newTotalSize <=? maxLeafCapacity s then
    let '(h, leftResult) := CFStorageCreateNode s h true newTotalSize in
    h ← match m with
        | None => Ok h
        | Some m =>
          h ← CFStorageAllocLeafNodeMemory s h leftResult newTotalSize false;
          h ← copy_to_leaf h leftResult 0 m 0 byteNum;
          copy_to_leaf h leftResult (byteNum + size) m byteNum (numBytes n - byteNum)
        end;
    '(h, s) ← CFStorageSetCache h s leftResult (absoluteByteNum - byteNum);
    Ok (h, s, leftResult, 0)
  else if byteNum =? numBytes n then
    let '(h, rightResult) := CFStorageCreateNode s h true size in
    '(h, s) ← CFStorageSetCache h s rightResult absoluteByteNum;
    Ok (h, s, node, rightResult)
  else if byteNum =? 0 then
    h ← CFStorageRetainNode h node;
    let '(h, leftResult) := CFStorageCreateNode s h true size in
    '(h, s) ← CFStorageSetCache h s leftResult absoluteByteNum;
    Ok (h, s, leftResult, node)
  else
    let leftAmount := maxLeafCapacity s in
    let rightAmount := newTotalSize - maxLeafCapacity s in
    let '(h, leftResult) := CFStorageCreateNode s h true leftAmount in
    let '(h, rightResult) := CFStorageCreateNode s h true rightAmount in
    h ← CFStorageAllocLeafNodeMemory s h leftResult leftAmount false;
    h ← CFStorageAllocLeafNodeMemory s h rightResult rightAmount false;
    h ← copy_overlap h leftResult m (CFRangeMake 0 byteNum) 0 0;
    let preservedData := CFRangeMake (byteNum + size) (numBytes n - byteNum) in
    h ← copy_overlap h leftResult m (intersectionRange (CFRangeMake 0 leftAmount) preservedData) size 0;
    h ← copy_overlap h rightResult m (intersectionRange (CFRangeMake leftAmount rightAmount) preservedData) size leftAmount;
    '(h, s) ← CFStorageSetCache h s leftResult (absoluteByteNum - byteNum);
    Ok (h, s, leftResult, rightResult).

(** [newChildren] of [__CFStorageInsertBranchFrozen] after the shift, from the children
    [a], [b], [c], the child that replaces number [childNum] and its new sibling. *)
Definition distribute (a b c childNum child sibling : Z) : Z * Z * Z * Z :=
  let '(a, b, c) := if childNum =? 0 then (child, b, c) else if childNum =? 1 then (a, child, c) else (a, b, child) in
  if sibling =? 0 then (a, b, c, 0)
  else if childNum =? 0 then (a, sibling, b, c)
  else if childNum =? 1 then (a, b, sibling, c)
  else (a, b, c, sibling).

(** [ins] is [__CFStorageInsertFrozen]. *)
Definition CFStorageInsertBranchFrozen (ins : heap -> CFStorage -> Z -> Z -> Z -> Z -> result insertion)
    (h : heap) (s : CFStorage) (node byteNum size absoluteByteNum : Z) : result insertion :=
  n ← load h node;
  let '(h, copyOfMe) := CFStorageCreateNode s h false 0 in
  '(child, childNum, relativeByteNum) ← CFStorageFindChild h node byteNum true;
  '(h, s, newChild, sibling) ← ins h s child relativeByteNum size absoluteByteNum;
  '(h, (a, b, c)) ← CFStorageGetChildren h node;
  h ← (if negb (child =? newChild) then release h child else Ok h);
  let '(n0, n1, n2, n3) := distribute a b c childNum newChild sibling in
  h ← CFStorageSetChild h copyOfMe 0 n0;
  h ← CFStorageSetChild h copyOfMe 1 n1;
  if n3 =? 0 then
    h ← CFStorageSetChild h copyOfMe 2 n2;
    r ← load h copyOfMe;
    Ok (put h copyOfMe (set_numBytes (numBytes n + size) r), s, copyOfMe, 0)
  else
    let '(h, siblingOfMe) := CFStorageCreateNode s h false 0 in
    h ← CFStorageSetChild h siblingOfMe 0 n2;
    h ← CFStorageSetChild h siblingOfMe 1 n3;
    b0 ← load h n0; b1 ← load h n1; b2 ← load h n2; b3 ← load h n3;
    r ← load h copyOfMe;
    let h := put h copyOfMe (set_numBytes (numBytes b0 + numBytes b1) r) in
    r ← load h siblingOfMe;
    let h := put h siblingOfMe (set_numBytes (numBytes b2 + numBytes b3) r) in
    Ok (h, s, copyOfMe, siblingOfMe).

Fixpoint CFStorageInsertFrozen (fuel : nat) (h : heap) (s : CFStorage) (node byteNum size absoluteByteNum : Z) : result insertion :=
  match fuel with
  | O => NoFuel
  | S fuel =>
    n ← load h node;
    if isLeaf n then CFStorageInsertLeafFrozen h s node byteNum size absoluteByteNum
    else CFStorageInsertBranchFrozen (CFStorageInsertFrozen fuel) h s node byteNum size absoluteByteNum
  end.

(** The cache is set before [node] gets its new length in the last overflowing case. *)
Definition CFStorageInsertLeafUnfrozen (h : heap) (s : CFStorage) (node byteNum size absoluteByteNum : Z) : result insertion :=
  n ← load h node;
  match info n with
  | Branch _ _ _ => Undef
  | Leaf capacityInBytes memory r =>
    if maxLeafCapacity s <? size + numBytes n then
      if byteNum =? numBytes n then
        let '(h, newNode) := CFStorageCreateNode s h true size in
        '(h, s) ← CFStorageSetCache h s newNode absoluteByteNum;
        Ok (h, s, node, newNode)
      else if byteNum =? 0 then
        let '(h, newNode) := CFStorageCreateNode s h true 0 in
        t ← load h newNode;
        let h := put h newNode (set_info (Leaf capacityInBytes memory (CFRangeMake 0 0)) (set_numBytes (numBytes n) t)) in
        let h := put h node (set_info (Leaf 0 None r) (set_numBytes size n)) in
        '(h, s) ← CFStorageSetCache h s node absoluteByteNum;
        Ok (h, s, node, newNode)
      else if byteNum + size <=? maxLeafCapacity s then
        let '(h, newNode) := CFStorageCreateNode s h true (numBytes n - byteNum) in
        h ← match memory with
            | None => Ok h
            | Some m =>
              h ← CFStorageAllocLeafNodeMemory s h newNode (numBytes n - byteNum) false;
              h ← copy_to_leaf h newNode 0 m byteNum (numBytes n - byteNum);
              CFStorageAllocLeafNodeMemory s h node (byteNum + size) false
            end;
        n ← load h node;
        let h := put h node (set_numBytes (byteNum + size) n) in
        '(h, s) ← CFStorageSetCache h s node (absoluteByteNum - byteNum);
        Ok (h, s, node, newNode)
      else
        let overflow := numBytes n + size - maxLeafCapacity s in
        let '(h, newNode) := CFStorageCreateNode s h true overflow in
        h ← match memory with
            | None => Ok h
            | Some m =>
              h ← CFStorageAllocLeafNodeMemory s h newNode overflow false;
              h ← copy_to_leaf h newNode (byteNum + size - maxLeafCapacity s) m byteNum (numBytes n - byteNum);
              CFStorageAllocLeafNodeMemory s h node (maxLeafCapacity s) false
            end;
        '(h, s) ← CFStorageSetCache h s node (absoluteByteNum - byteNum);
        n ← load h node;
        Ok (put h node (set_numBytes (maxLeafCapacity s) n), s, node, newNode)
    else
      h ← match memory with
          | None => Ok h
          | Some _ =>
            h ← CFStorageAllocLeafNodeMemory s h node (numBytes n + size) false;
            t ← load h node;
            m ← memory_of t;
            copy_to_leaf h node (byteNum + size) m byteNum (numBytes n - byteNum)
          end;
      t ← load h node;
      let h := put h node (set_numBytes (numBytes n + size) t) in
      '(h, s) ← CFStorageSetCache h s node (absoluteByteNum - byteNum);
      Ok (h, s, node, 0)
  end.

(** The children of [node] and of [anotherNode] when a full branch gets a fourth child. *)
Definition split_children (h : heap) (node anotherNode childNum newChild : Z) : result heap :=
  n ← load h node;
  '(_, c1, c2) ← children n;
  h ← (if childNum =? 0 then
         h ← CFStorageSetChild h anotherNode 0 c1;
         h ← CFStorageSetChild h anotherNode 1 c2;
         CFStorageSetChild h node 1 newChild
       else if childNum =? 1 then
         h ← CFStorageSetChild h anotherNode 0 newChild;
         CFStorageSetChild h anotherNode 1 c2
       else
         h ← CFStorageSetChild h anotherNode 0 c2;
         CFStorageSetChild h anotherNode 1 newChild);
  CFStorageSetChild h node 2 0.

(** The sum of the lengths of the first two children becomes the length of a branch. *)
Definition sum_two (h : heap) (node : Z) : result heap :=
  n ← load h node;
  '(c0, c1, _) ← children n;
  b0 ← load h c0; b1 ← load h c1;
  Ok (put h node (set_numBytes (numBytes b0 + numBytes b1) n)).

Definition add_bytes (h : heap) (node size : Z) : result heap :=
  n ← load h node; Ok (put h node (set_numBytes (numBytes n + size) n)).

(** The last part of [__CFStorageInsertBranchUnfrozen]: the new sibling of child number
    [childNum] becomes a child. *)
Definition after_child (h : heap) (s : CFStorage) (node childNum newChild size : Z) : result insertion :=
  if newChild =? 0 then
    h ← add_bytes h node size;
    Ok (h, s, node, 0)
  else
    n ← load h node;
    '(_, c1, c2) ← children n;
    if c2 =? 0 then
      h ← (if childNum =? 0 then CFStorageSetChild h node 2 c1 else Ok h);
      h ← CFStorageSetChild h node (childNum + 1) newChild;
      h ← add_bytes h node size;
      Ok (h, s, node, 0)
    else
      let '(h, anotherNode) := CFStorageCreateNode s h false 0 in
      h ← split_children h node anotherNode childNum newChild;
      h ← sum_two h node;
      h ← sum_two h anotherNode;
      Ok (h, s, node, anotherNode).

(** [ins] is [__CFStorageInsert]. *)
Definition CFStorageInsertBranchUnfrozen (ins : heap -> CFStorage -> Z -> Z -> Z -> Z -> result insertion)
    (h : heap) (s : CFStorage) (node byteNum size absoluteByteNum : Z) : result insertion :=
  '(childNode, childNum, relativeByteNum) ← CFStorageFindChild h node byteNum true;
  '(h, s, child, newChild) ← ins h s childNode relativeByteNum size absoluteByteNum;
  h ← (if negb (child =? childNode) then h ← release h childNode; CFStorageSetChild h node childNum child else Ok h);
  after_child h s node childNum newChild size.

Definition CFStorageInsertUnfrozen (ins : heap -> CFStorage -> Z -> Z -> Z -> Z -> result insertion)
    (h : heap) (s : CFStorage) (node byteNum size absoluteByteNum : Z) : result insertion :=
  n ← load h node;
  if isLeaf n then CFStorageInsertLeafUnfrozen h s node byteNum size absoluteByteNum
  else CFStorageInsertBranchUnfrozen ins h s node byteNum size absoluteByteNum.

Fixpoint CFStorageInsert (fuel : nat) (h : heap) (s : CFStorage) (node byteNum size absoluteByteNum : Z) : result insertion :=
  match fuel with
  | O => NoFuel
  | S fuel =>
    n ← load h node;
    '(h, frozen) ← (if isFrozen n then '(h, thawed) ← CFStorageThawNodeDuringMutation h node; Ok (h, negb thawed) else Ok (h, false));
    if frozen : bool then CFStorageInsertFrozen (S fuel) h s node byteNum size absoluteByteNum
    else CFStorageInsertUnfrozen (CFStorageInsert fuel) h s node byteNum size absoluteByteNum
  end.

(** ** Creation and clearing *)

Definition CFStorageCreate (h : heap) (size : Z) : heap * CFStorage :=
  let shifter := if (0 <? size) && (Z.land size (size - 1) =? 0) then Some (Z.log2 size) else None in
  let cap := if negb (size =? 0) && negb (Z.rem kMaxLeafCapacity size =? 0) then Z.quot kMaxLeafCapacity size * size else kMaxLeafCapacity in
  (mkHeap (<[h_next h := mkNode 0 0 false (Leaf 0 None (CFRangeMake 0 0))]> (h_nodes h)) (h_next h + 1),
   mkStorage size shifter false 0 cap (h_next h)).

Definition CFStorageSetAlwaysFrozen (s : CFStorage) (b : bool) : CFStorage :=
  mkStorage (valueSize s) (byteToValueShifter s) b (cacheNode s) (maxLeafCapacity s) (rootNode s).

Definition CFStorageClearRootNode (h : heap) (s : CFStorage) : result heap :=
  n ← load h (rootNode s);
  h ← match info n with
      | Leaf _ _ _ => Ok h
      | Branch c0 c1 c2 =>
        h ← CFStorageReleaseNodeWithNullCheck h c0;
        h ← CFStorageReleaseNodeWithNullCheck h c1;
        CFStorageReleaseNodeWithNullCheck h c2
      end;
  n ← load h (rootNode s);
  Ok (put h (rootNode s) (mkNode 0 (refCount n) (isFrozen n) (Leaf 0 None (CFRangeMake 0 0)))).

(** The root node goes with the storage. *)
Definition CFStorageDeallocate (h : heap) (s : CFStorage) : result heap :=
  h ← CFStorageClearRootNode h s;
  Ok (mkHeap (delete (rootNode s) (h_nodes h)) (h_next h)).

(** ** The public operations *)

Definition CFStorageGetCount (h : heap) (s : CFStorage) : result Z :=
  n ← load h (rootNode s); Ok (CFStorageConvertByteToValue s (numBytes n)).

Definition CFStorageHash (h : heap) (s : CFStorage) : result Z := CFStorageGetCount h s.

Fixpoint CFStorageGetNodeCapacity (fuel : nat) (h : heap) (node : Z) : result Z :=
  if node =? 0 then Ok 0
  else match fuel with
       | O => NoFuel
       | S fuel =>
         n ← load h node;
         match info n with
         | Leaf c _ _ => Ok c
         | Branch c0 c1 c2 =>
           a ← CFStorageGetNodeCapacity fuel h c0;
           b ← CFStorageGetNodeCapacity fuel h c1;
           c ← CFStorageGetNodeCapacity fuel h c2;
           Ok (a + b + c)
         end
       end.

Definition CFStorageGetCapacity (h : heap) (s : CFStorage) : result Z :=
  c ← CFStorageGetNodeCapacity (steps h) h (rootNode s); Ok (CFStorageConvertByteToValue s c).

Definition CFStorageGetValueAtIndex (h : heap) (s : CFStorage) (idx : Z) : result (heap * CFStorage * (Z * Z) * CFRange) :=
  GetValueAtIndex h s idx true.
Definition CFStorageGetConstValueAtIndex (h : heap) (s : CFStorage) (idx : Z) : result (heap * CFStorage * (Z * Z) * CFRange) :=
  GetValueAtIndex h s idx false.

(** The root takes a new sibling: its contents move to a node of the heap, which becomes
    its first child. *)
Definition grow_root (h : heap) (s : CFStorage) (newNode : Z) : result (heap * CFStorage) :=
  n ← load h (rootNode s);
  let '(h, heapRoot) := CFStorageCreateNode s h (isLeaf n) (numBytes n) in
  t ← load h heapRoot;
  let h := put h heapRoot (set_info (info n) t) in
  let s := if isLeaf n then set_cache 0 s else s in
  b ← load h newNode;
  Ok (put h (rootNode s) (mkNode (numBytes n + numBytes b) (refCount n) (isFrozen n) (Branch heapRoot newNode 0)), s).

Fixpoint insert_loop (fuel : nat) (h : heap) (s : CFStorage) (numBytesToInsert byteNum : Z) : result (heap * CFStorage) :=
  if numBytesToInsert <=? 0 then Ok (h, s)
  else match fuel with
       | O => NoFuel
       | S fuel =>
         let insertThisTime := Z.min numBytesToInsert (maxLeafCapacity s) in
         '(h, s, _, sibling) ← CFStorageInsertUnfrozen (CFStorageInsert (steps h)) h s (rootNode s) byteNum insertThisTime byteNum;
         '(h, s) ← (if sibling =? 0 then Ok (h, s) else grow_root h s sibling);
         insert_loop fuel h s (numBytesToInsert - insertThisTime) (byteNum + insertThisTime)
       end.

Definition CFStorageInsertValues (h : heap) (s : CFStorage) (range : CFRange) : result (heap * CFStorage) :=
  let numBytesToInsert := CFStorageConvertValueToByte s (rlength range) in
  let byteNum := CFStorageConvertValueToByte s (location range) in
  insert_loop (Z.to_nat numBytesToInsert) h s numBytesToInsert byteNum.

(** The root acquires the contents of [newRoot]. *)
Definition replace_root (h : heap) (s : CFStorage) (newRoot : Z) : result heap :=
  r ← load h newRoot;
  n ← load h (rootNode s);
  match info r with
  | Leaf _ memory _ =>
    let empty := Leaf 0 None (CFRangeMake 0 0) in
    if negb (isFrozen r) then
      let h := put h (rootNode s) (mkNode (numBytes r) (refCount n) (isFrozen n) (Leaf 0 memory (CFRangeMake 0 0))) in
      Ok (put h newRoot (set_info empty r))
    else
      let h := put h (rootNode s) (mkNode (numBytes r) (refCount n) (isFrozen n) empty) in
      match memory with
      | None => Ok h
      | Some m =>
        h ← CFStorageAllocLeafNodeMemory s h (rootNode s) (numBytes r) false;
        copy_to_leaf h (rootNode s) 0 m 0 (numBytes r)
      end
  | Branch c0 c1 c2 =>
    let h := put h (rootNode s) (mkNode (numBytes r) (refCount n) (isFrozen n) (Branch 0 0 0)) in
    h ← CFStorageRetainNode h c0; h ← CFStorageSetChild h (rootNode s) 0 c0;
    h ← CFStorageRetainNode h c1; h ← CFStorageSetChild h (rootNode s) 1 c1;
    h ← retain_child h c2; CFStorageSetChild h (rootNode s) 2 c2
  end.

Definition CFStorageDeleteValues (h : heap) (s : CFStorage) (range : CFRange) : result (heap * CFStorage) :=
  let byteRange := CFStorageConvertValuesToByteRange s (location range) (rlength range) in
  '(h, s) ← CFStorageSetCache h s 0 0;
  '(h, newRoot) ← CFStorageDeleteUnfrozen (CFStorageDelete (steps h) s true) s h (rootNode s) byteRange true;
  h ← (if newRoot =? 0 then CFStorageClearRootNode h s
       else if newRoot =? rootNode s then Ok h
       else replace_root h s newRoot);
  h ← CFStorageReleaseNodeWithNullCheck h newRoot;
  Ok (h, s).

(** The cells behind a pointer. *)
Definition read_at (h : heap) (p : Z * Z) (n : Z) : result (list cell) :=
  t ← load h (fst p);
  m ← memory_of t;
  if (0 <=? snd p) && (0 <=? n) && (snd p + n <=? Z.of_nat (length m)) then Ok (take (Z.to_nat n) (drop (Z.to_nat (snd p)) m)) else Undef.

Fixpoint get_loop (fuel : nat) (h : heap) (s : CFStorage) (range : CFRange) : result (heap * CFStorage * list cell) :=
  if rlength range <=? 0 then Ok (h, s, [])
  else match fuel with
       | O => NoFuel
       | S fuel =>
         '(h, s, storagePtr, leafRange) ← GetValueAtIndex h s (location range) false;
         let cntThisTime := Z.min (rlength range) (rlength leafRange - (location range - location leafRange)) in
         bytes ← read_at h storagePtr (CFStorageConvertValueToByte s cntThisTime);
         '(h, s, rest) ← get_loop fuel h s (CFRangeMake (location range + cntThisTime) (rlength range - cntThisTime));
         Ok (h, s, bytes ++ rest)
       end.

Definition CFStorageGetValues (h : heap) (s : CFStorage) (range : CFRange) : result (heap * CFStorage * list cell) :=
  get_loop (Z.to_nat (rlength range)) h s range.

Fixpoint replace_loop (fuel : nat) (h : heap) (s : CFStorage) (range : CFRange) (values : list cell) : result (heap * CFStorage) :=
  if rlength range <=? 0 then Ok (h, s)
  else match fuel with
       | O => NoFuel
       | S fuel =>
         '(h, s, storagePtr, leafRange) ← GetValueAtIndex h s (location range) true;
         let cntThisTime := Z.min (rlength range) (rlength leafRange - (location range - location leafRange)) in
         let byteCntThisTime := CFStorageConvertValueToByte s cntThisTime in
         h ← copy_to_leaf h (fst storagePtr) (snd storagePtr) values 0 byteCntThisTime;
         replace_loop fuel h s (CFRangeMake (location range + cntThisTime) (rlength range - cntThisTime)) (drop (Z.to_nat byteCntThisTime) values)
       end.

Definition CFStorageReplaceValues (h : heap) (s : CFStorage) (range : CFRange) (values : list cell) : result (heap * CFStorage) :=
  replace_loop (Z.to_nat (rlength range)) h s range values.

(** [state] and [extra[0]] of the enumeration; the pointer and the number of values. *)
Definition CFStorageFastEnumeration (h : heap) (s : CFStorage) (state extra : Z)
    : result (heap * CFStorage * Z * Z * option ((Z * Z) * Z)) :=
  extra ← (if state =? 0 then CFStorageGetCount h s else Ok extra);
  if extra <=? state then Ok (h, s, state, extra, None)
  else
    '(h, s, itemsPtr, leafRange) ← CFStorageGetValueAtIndex h s state;
    Ok (h, s, state + rlength leafRange, extra, Some (itemsPtr, rlength leafRange)).

(** ** Enumeration *)

Definition bytes_of (h : heap) (node : Z) : result Z := if node =? 0 then Ok 0 else n ← load h node; Ok (numBytes n).

(** The children of a branch with their offsets and their overlaps with a range. *)
Definition overlapping (h : heap) (node : Z) (range : CFRange) : result (list (Z * Z * CFRange)) :=
  n ← load h node;
  '(c0, c1, c2) ← children n;
  b0 ← load h c0;
  l1 ← bytes_of h c1;
  l2 ← bytes_of h c2;
  let l0 := numBytes b0 in
  Ok [(c0, 0, intersectionRange (CFRangeMake 0 l0) range);
      (c1, l0, intersectionRange (CFRangeMake l0 l1) range);
      (c2, l0 + l1, intersectionRange (CFRangeMake (l0 + l1) l2) range)].

(** The calls for the overlapping children, until one stops the enumeration; in sequence
    the two branches of the function differ by the token only. *)
Fixpoint visit_children {S} (enum : heap -> Z -> Z -> CFRange -> S -> result (heap * S * bool)) (h : heap) (cs : list (Z * Z * CFRange))
    (globalOffsetOfNode : Z) (x : S) : result (heap * S * bool) :=
  match cs with
  | [] => Ok (h, x, false)
  | (child, offset, overlap) :: cs =>
    if 0 <? rlength overlap then
      '(h, x, stop) ← enum h child (globalOffsetOfNode + offset) (CFRangeMake (location overlap - offset) (rlength overlap)) x;
      if stop : bool then Ok (h, x, true) else visit_children enum h cs globalOffsetOfNode x
    else visit_children enum h cs globalOffsetOfNode x
  end.

(** The applier sees the cells of its range and sets [stop]; it does not change the
    storage. *)
Fixpoint CFStorageEnumerateNodesInByteRangeWithBlock {S} (fuel : nat) (s : CFStorage) (applier : list cell -> CFRange -> S -> result (S * bool))
    (h : heap) (node globalOffsetOfNode : Z) (range : CFRange) (x : S) : result (heap * S * bool) :=
  match fuel with
  | O => NoFuel
  | Datatypes.S fuel =>
    n ← load h node;
    match info n with
    | Leaf _ memory _ =>
      let start := location range in
      let len := Z.min (rlength range) (numBytes n - start) in
      h ← match memory with Some _ => Ok h | None => CFStorageAllocLeafNodeMemory s h node (numBytes n) false end;
      vals ← read_at h (node, start) len;
      '(x, stop) ← applier vals (CFStorageConvertBytesToValueRange s (globalOffsetOfNode + start) len) x;
      Ok (h, x, stop)
    | Branch _ _ _ =>
      cs ← overlapping h node range;
      visit_children (CFStorageEnumerateNodesInByteRangeWithBlock fuel s applier) h cs globalOffsetOfNode x
    end
  end.

Definition CFStorageApplyBlock {S} (h : heap) (s : CFStorage) (range : CFRange) (applier : list cell -> CFRange -> S -> result (S * bool)) (x : S)
    : result (heap * S) :=
  if rlength range =? 0 then Ok (h, x)
  else
    let byteRange := CFStorageConvertValuesToByteRange s (location range) (rlength range) in
    '(h, x, _) ← CFStorageEnumerateNodesInByteRangeWithBlock (steps h) s applier h (rootNode s) 0 byteRange x;
    Ok (h, x).

(** [while (subrange.length--)]: one call per value. *)
Fixpoint apply_values {S} (applier : list cell -> S -> result S) (size : nat) (n : nat) (vals : list cell) (x : S) : result S :=
  match n with
  | O => Ok x
  | Datatypes.S n => x ← applier (take size vals) x; apply_values applier size n (drop size vals) x
  end.

Definition CFStorageApplyFunction {S} (h : heap) (s : CFStorage) (range : CFRange) (applier : list cell -> S -> result S) (x : S) : result (heap * S) :=
  CFStorageApplyBlock h s range
    (fun vals subrange x => x ← apply_values applier (Z.to_nat (valueSize s)) (Z.to_nat (rlength subrange)) vals x; Ok (x, false)) x.

(** ** Subranges *)

(** The node and the range of its bytes. *)
Fixpoint CFStorageFindNodeContainingByteRange (fuel : nat) (h : heap) (node : Z) (nodeRange : CFRange) (globalOffsetOfNode : Z) : result (Z * CFRange) :=
  match fuel with
  | O => NoFuel
  | S fuel =>
    n ← load h node;
    if isLeaf n then Ok (node, CFRangeMake globalOffsetOfNode (numBytes n))
    else
      cs ← overlapping h node nodeRange;
      match filter (fun c => rlength (snd c) <> 0) cs with
      | [(child, offset, _)] =>
        CFStorageFindNodeContainingByteRange fuel h child (CFRangeMake (location nodeRange - offset) (rlength nodeRange)) (globalOffsetOfNode + offset)
      | _ => Ok (node, CFRangeMake globalOffsetOfNode (numBytes n))
      end
  end.

(** The children of the containing node, frozen and retained, become those of the root. *)
Definition share_children (h : heap) (root c0 c1 c2 : Z) : result heap :=
  if c0 =? 0 then Ok h
  else
    h ← CFStorageFreezeNode h c0; h ← CFStorageRetainNode h c0; h ← CFStorageSetChild h root 0 c0;
    if c1 =? 0 then Ok h
    else
      h ← CFStorageFreezeNode h c1; h ← CFStorageRetainNode h c1; h ← CFStorageSetChild h root 1 c1;
      if c2 =? 0 then Ok h
      else h ← CFStorageFreezeNode h c2; h ← CFStorageRetainNode h c2; CFStorageSetChild h root 2 c2.

Definition CFStorageCreateWithSubrange (h : heap) (storage : CFStorage) (range : CFRange) : result (heap * CFStorage) :=
  let '(h, res) := CFStorageCreate h (valueSize storage) in
  if rlength range <=? 0 then Ok (h, res)
  else
    let byteRange := CFStorageConvertValuesToByteRange storage (location range) (rlength range) in
    '(containing, byteRangeOfContainingNode) ← CFStorageFindNodeContainingByteRange (steps h) h (rootNode storage) byteRange 0;
    n ← load h containing;
    match info n with
    | Leaf _ _ _ =>
      '(h, res) ← CFStorageInsertValues h res (CFRangeMake 0 (rlength range));
      n ← load h containing;
      m ← leaf_memory n;
      match m with
      | None => Ok (h, res)
      | Some m =>
        let offsetIntoNode := location byteRange - location byteRangeOfContainingNode in
        CFStorageReplaceValues h res (CFRangeMake 0 (rlength range)) (drop (Z.to_nat offsetIntoNode) m)
      end
    | Branch c0 c1 c2 =>
      r ← load h (rootNode res);
      let h := put h (rootNode res) (mkNode (rlength byteRangeOfContainingNode) (refCount r) (isFrozen r) (Branch 0 0 0)) in
      h ← share_children h (rootNode res) c0 c1 c2;
      let rangeOfContainingNode := CFStorageConvertBytesToValueRange res (location byteRangeOfContainingNode) (rlength byteRangeOfContainingNode) in
      let prefixToTrim := location range - location rangeOfContainingNode in
      let suffixToTrim := (location rangeOfContainingNode + rlength rangeOfContainingNode) - (location range + rlength range) in
      '(h, res) ← (if 0 <? suffixToTrim then CFStorageDeleteValues h res (CFRangeMake (rlength rangeOfContainingNode - suffixToTrim) suffixToTrim)
                   else Ok (h, res));
      if 0 <? prefixToTrim then CFStorageDeleteValues h res (CFRangeMake 0 prefixToTrim) else Ok (h, res)
    end.

(** ** Equality *)

(** memcmp is equal; a byte that nothing was written to has no value. *)
Fixpoint same_bytes (l1 l2 : list cell) : result bool :=
  match l1, l2 with
  | [], [] => Ok true
  | Some a :: l1, Some b :: l2 => if a =? b then same_bytes l1 l2 else Ok false
  | _, _ => Undef
  end.

Fixpoint equal_loop (fuel : nat) (h : heap) (s1 s2 : CFStorage) (loc count : Z) (ptr1 ptr2 : Z * Z) (range1 range2 : CFRange)
    : result (heap * CFStorage * CFStorage * bool) :=
  if count <=? loc then Ok (h, s1, s2, true)
  else match fuel with
       | O => NoFuel
       | S fuel =>
         '(h, s1, ptr1, range1) ← (if location range1 + rlength range1 <=? loc then CFStorageGetValueAtIndex h s1 loc else Ok (h, s1, ptr1, range1));
         '(h, s2, ptr2, range2) ← (if location range2 + rlength range2 <=? loc then CFStorageGetValueAtIndex h s2 loc else Ok (h, s2, ptr2, range2));
         let cntThisTime := Z.min (location range1 + rlength range1) (location range2 + rlength range2) - loc in
         let n := valueSize s1 * cntThisTime in
         m1 ← read_at h ptr1 n;
         m2 ← read_at h ptr2 n;
         eq ← same_bytes m1 m2;
         if (eq : bool) then
           equal_loop fuel h s1 s2 (loc + cntThisTime) count (fst ptr1, snd ptr1 + n) (fst ptr2, snd ptr2 + n) range1 range2
         else Ok (h, s1, s2, false)
       end.

Definition CFStorageEqual (h : heap) (s1 s2 : CFStorage) : result (heap * CFStorage * CFStorage * bool) :=
  count ← CFStorageGetCount h s1;
  count2 ← CFStorageGetCount h s2;
  if negb (count =? count2) then Ok (h, s1, s2, false)
  else if negb (valueSize s1 =? valueSize s2) then Ok (h, s1, s2, false)
  else equal_loop (Z.to_nat count) h s1 s2 0 count (0, 0) (0, 0) (CFRangeMake 0 0) (CFRangeMake 0 0).

End Storage.
