(* ===== verification/StorageHeap.v ===== *)
(** * The heap of CFStorage.c: references, contents and contexts

    The invariants under which the operations of Storage.v are correct.  [edges] lists the
    child pointers of a heap; [counted] says that every reference count is the number of
    child pointers to the node and of the references the running function holds; a node
    with two parents is frozen ([shared_frozen]).  [tree] relates a node to the bytes it
    stores.  A [context] of a node is a set of nodes that must survive a change of it: it
    is closed under children but for the node itself and supported by its own members, so
    a child that is also in the context has two parents and is frozen. *)

From stdpp Require Import base list numbers option gmap.
From Stdlib Require Import ZArith Lia.
From S2P Require Import Prelude Storage.
Import Storage.

Module StorageHeap.

(** ** References *)

Definition occ (b : Z) (l : list Z) : nat := length (filter (fun x => x = b) l).

Lemma occ_app (b : Z) (l1 l2 : list Z) : occ b (l1 ++ l2) = (occ b l1 + occ b l2)%nat.
Proof. unfold occ. by rewrite list.filter_app, length_app. Qed.

Lemma occ_cons (b x : Z) (l : list Z) : occ b (x :: l) = ((if decide (x = b) then 1 else 0) + occ b l)%nat.
Proof. unfold occ. rewrite filter_cons. by destruct (decide (x = b)). Qed.

Lemma occ_nil (b : Z) : occ b [] = 0%nat.
Proof. done. Qed.

#[export] Instance occ_proper (b : Z) : Proper ((≡ₚ) ==> (=)) (occ b).
Proof. intros l1 l2 P. unfold occ. by rewrite P. Qed.

Lemma occ_elem (b : Z) (l : list Z) : b ∈ l <-> (0 < occ b l)%nat.
Proof.
  induction l as [|x l IH]; [rewrite occ_nil, elem_of_nil; split; [done|lia]|].
  rewrite elem_of_cons, occ_cons, IH. destruct (decide (x = b)) as [->|N]; [split; [lia|by left]|]. cbn [Nat.add].
  split; [intros [->|?]; done|by right].
Qed.

Lemma occ_zero (b : Z) (l : list Z) : b ∉ l <-> occ b l = 0%nat.
Proof. rewrite occ_elem. lia. Qed.

(** The child pointers that are not NULL. *)
Definition slots (n : CFStorageNode) : list Z :=
  match info n with Leaf _ _ _ => [] | Branch c0 c1 c2 => filter (fun c => c <> 0) [c0; c1; c2] end.

Abbreviation nodes := (gmap Z CFStorageNode).

Definition edges (m : nodes) : list Z := concat (map (fun p => slots (snd p)) (map_to_list m)).

Lemma edges_insert_new (m : nodes) (k : Z) (n : CFStorageNode) : m !! k = None -> edges (<[k := n]> m) ≡ₚ slots n ++ edges m.
Proof. intros H. unfold edges. by rewrite map_to_list_insert. Qed.

Lemma edges_delete (m : nodes) (k : Z) (n : CFStorageNode) : m !! k = Some n -> edges m ≡ₚ slots n ++ edges (delete k m).
Proof.
  intros H. rewrite <- (insert_delete_id m k n H) at 1. apply edges_insert_new. apply lookup_delete_eq.
Qed.

Lemma edges_update (m : nodes) (k : Z) (n n' : CFStorageNode) :
  m !! k = Some n -> slots n ++ edges (<[k := n']> m) ≡ₚ slots n' ++ edges m.
Proof.
  intros H. rewrite (edges_delete m k n H). rewrite <- insert_delete_eq.
  rewrite edges_insert_new by apply lookup_delete_eq. rewrite !app_assoc. by rewrite (Permutation_app_comm (slots n)).
Qed.

Lemma edges_same (m : nodes) (k : Z) (n n' : CFStorageNode) :
  m !! k = Some n -> slots n' = slots n -> edges (<[k := n']> m) ≡ₚ edges m.
Proof. intros H E. pose proof (edges_update m k n n' H) as P. rewrite E in P. by apply Permutation_app_inv_l in P. Qed.

Lemma edges_elem (m : nodes) (b : Z) : b ∈ edges m <-> exists p n, m !! p = Some n /\ b ∈ slots n.
Proof.
  unfold edges. rewrite list_elem_of_In, in_concat. split.
  - intros (l & Hl & Hb). apply in_map_iff in Hl as ((p & n) & <- & Hp). exists p, n.
    apply list_elem_of_In, elem_of_map_to_list in Hp. by rewrite list_elem_of_In.
  - intros (p & n & Hp & Hb). exists (slots n). split; [|by apply list_elem_of_In].
    apply in_map_iff. exists (p, n). split; [done|]. by apply list_elem_of_In, elem_of_map_to_list.
Qed.

(** Two nodes point to [b]: it has two references. *)
Lemma two_parents (m : nodes) (p q b : Z) (np nq : CFStorageNode) :
  p <> q -> m !! p = Some np -> m !! q = Some nq -> b ∈ slots np -> b ∈ slots nq -> (2 <= occ b (edges m))%nat.
Proof.
  intros N Hp Hq Bp Bq. rewrite (edges_delete m p np Hp).
  rewrite (edges_delete (delete p m) q nq) by (by rewrite lookup_delete_ne). rewrite !occ_app.
  apply occ_elem in Bp, Bq. lia.
Qed.

Lemma slot_occ (m : nodes) (p b : Z) (n : CFStorageNode) : m !! p = Some n -> (occ b (slots n) <= occ b (edges m))%nat.
Proof. intros H. rewrite (edges_delete m p n H), occ_app. lia. Qed.

(** ** The invariant of a heap

    [R]: the addresses of the root nodes; [ext]: the references the running function
    holds. *)

Definition counted (R : gset Z) (X : list Z) (m : nodes) : Prop :=
  forall b n, m !! b = Some n -> refCount n = if decide (b ∈ R) then 0 else Z.of_nat (occ b X).

Definition shared_frozen (m : nodes) : Prop :=
  forall b n, m !! b = Some n -> (2 <= occ b (edges m))%nat -> isFrozen n = true.

Record heap_ok (R : gset Z) (ext : list Z) (h : heap) : Prop := mk_heap_ok {
  ho_counted : counted R (ext ++ edges (h_nodes h)) (h_nodes h);
  ho_frozen : shared_frozen (h_nodes h);
  ho_fresh : forall b n, h_nodes h !! b = Some n -> 0 < b < h_next h;
  ho_next : 0 < h_next h;
  ho_refs : forall b, b ∈ ext ++ edges (h_nodes h) -> b ∉ R /\ is_Some (h_nodes h !! b);
  ho_roots : forall r, r ∈ R -> is_Some (h_nodes h !! r)
}.

#[export] Instance heap_ok_proper (R : gset Z) : Proper ((≡ₚ) ==> (=) ==> iff) (heap_ok R).
Proof.
  assert (A : forall e1 e2 h, e1 ≡ₚ e2 -> heap_ok R e1 h -> heap_ok R e2 h).
  { intros e1 e2 h P [C F N X D O]. split; [|done..| |done].
    - intros b n Hb. rewrite (C b n Hb). destruct (decide _); [done|]. by rewrite P.
    - intros b Hb. apply D. by rewrite P. }
  intros e1 e2 P h ? <-. split; by apply A.
Qed.

Definition alloc (h : heap) (n : CFStorageNode) : heap := mkHeap (<[h_next h := n]> (h_nodes h)) (h_next h + 1).

Section Primitives.

Context {R : gset Z}.

Lemma fresh_None (ext : list Z) (h : heap) : heap_ok R ext h -> h_nodes h !! h_next h = None.
Proof. intros H. destruct (h_nodes h !! h_next h) as [n|] eqn:E; [|done]. apply (ho_fresh _ _ _ H) in E. lia. Qed.

Lemma fresh_unreferenced (ext : list Z) (h : heap) :
  heap_ok R ext h -> h_next h ∉ ext /\ h_next h ∉ edges (h_nodes h) /\ h_next h ∉ R.
Proof.
  intros H. pose proof (fresh_None ext h H) as N.
  assert (A : h_next h ∉ ext ++ edges (h_nodes h)).
  { intros B. apply (ho_refs _ _ _ H) in B as [_ [n E]]. by rewrite N in E. }
  rewrite elem_of_app in A. split_and!; [tauto..|]. intros B. apply (ho_roots _ _ _ H) in B as [n E]. by rewrite N in E.
Qed.

Lemma null_None (ext : list Z) (h : heap) : heap_ok R ext h -> h_nodes h !! 0 = None.
Proof. intros H. destruct (h_nodes h !! 0) as [n|] eqn:E; [|done]. apply (ho_fresh _ _ _ H) in E. lia. Qed.

Lemma alloc_ok (ext : list Z) (h : heap) (n : CFStorageNode) :
  heap_ok R ext h -> refCount n = 1 -> slots n = [] -> heap_ok R (h_next h :: ext) (alloc h n).
Proof.
  intros H Hr Hs. destruct (fresh_unreferenced ext h H) as (F1 & F2 & F3). pose proof (fresh_None ext h H) as N.
  destruct H as [C F B X D O].
  assert (E : edges (<[h_next h := n]> (h_nodes h)) ≡ₚ edges (h_nodes h)) by (by rewrite edges_insert_new, Hs).
  split; cbn.
  - intros b nb. destruct (decide (b = h_next h)) as [->|Nb].
    + rewrite lookup_insert_eq. intros [= <-]. rewrite decide_False by done. rewrite occ_cons, decide_True, E, occ_app by done.
      apply occ_zero in F1, F2. rewrite F1, F2, Hr. done.
    + rewrite lookup_insert_ne by done. intros Hb. rewrite (C b nb Hb). destruct (decide _); [done|].
      rewrite occ_cons, decide_False, E by done. done.
  - intros b nb. rewrite E. destruct (decide (b = h_next h)) as [->|Nb].
    + intros _. apply occ_zero in F2. lia.
    + rewrite lookup_insert_ne by done. apply F.
  - intros b nb. destruct (decide (b = h_next h)) as [->|Nb]; [lia|]. rewrite lookup_insert_ne by done. intros Hb. apply B in Hb. lia.
  - lia.
  - intros b. rewrite E, elem_of_cons. intros [->|Hb]; [rewrite lookup_insert_eq; split; [done|by eexists]|].
    destruct (D b Hb) as [? ?]. split; [done|]. destruct (decide (b = h_next h)) as [->|Nb]; [by rewrite lookup_insert_eq; eexists|].
    by rewrite lookup_insert_ne.
  - intros r Hr'. rewrite lookup_insert_ne by (by intros E'; subst r). by apply O.
Qed.

(** A node is rewritten; its references move between the function and its slots. *)
Lemma put_ok (ext ext' : list Z) (h : heap) (a : Z) (n n' : CFStorageNode) :
  heap_ok R ext h -> h_nodes h !! a = Some n -> refCount n' = refCount n -> ext' ++ slots n' ≡ₚ ext ++ slots n ->
  shared_frozen (h_nodes (put h a n')) -> heap_ok R ext' (put h a n').
Proof.
  intros [C F B X D O] Ha Hr P Sf.
  assert (E : ext' ++ edges (<[a := n']> (h_nodes h)) ≡ₚ ext ++ edges (h_nodes h)).
  { apply (Permutation_app_inv_l (slots n)). pose proof (edges_update _ a n n' Ha) as U.
    rewrite (Permutation_app_swap_app (slots n) ext'), U, app_assoc, P, <- app_assoc.
    by rewrite (Permutation_app_swap_app (slots n) ext). }
  split; cbn.
  - intros b nb. destruct (decide (b = a)) as [->|Nb].
    + rewrite lookup_insert_eq. intros [= <-]. rewrite Hr, (C a n Ha). destruct (decide _); [done|]. by rewrite E.
    + rewrite lookup_insert_ne by done. intros Hb. rewrite (C b nb Hb). destruct (decide _); [done|]. by rewrite E.
  - exact Sf.
  - intros b nb. destruct (decide (b = a)) as [->|Nb]; [intros _; by apply (B a n)|]. rewrite lookup_insert_ne by done. apply B.
  - done.
  - intros b. rewrite E. intros Hb. destruct (D b Hb) as [? ?]. split; [done|].
    destruct (decide (b = a)) as [->|Nb]; [by rewrite lookup_insert_eq; eexists|]. by rewrite lookup_insert_ne.
  - intros r Hr'. destruct (decide (r = a)) as [->|Nb]; [by rewrite lookup_insert_eq; eexists|]. rewrite lookup_insert_ne by done. by apply O.
Qed.

Lemma shared_frozen_put (h : heap) (a : Z) (n n' : CFStorageNode) :
  shared_frozen (h_nodes h) -> h_nodes h !! a = Some n -> slots n' = slots n -> (isFrozen n = true -> isFrozen n' = true \/ (occ a (edges (h_nodes h)) < 2)%nat) ->
  shared_frozen (h_nodes (put h a n')).
Proof.
  intros F Ha Hs Hf b nb Hb. cbn in *. rewrite (edges_same _ a n n' Ha Hs). destruct (decide (b = a)) as [->|Nb].
  - rewrite lookup_insert_eq in Hb. injection Hb as <-. intros Ho. pose proof (F a n Ha Ho) as Hn. destruct (Hf Hn); [done|lia].
  - rewrite lookup_insert_ne in Hb by done. by apply F.
Qed.

(** Bytes, block or cached range of a node change. *)
Lemma put_same_ok (ext : list Z) (h : heap) (a : Z) (n n' : CFStorageNode) :
  heap_ok R ext h -> h_nodes h !! a = Some n -> refCount n' = refCount n -> slots n' = slots n -> (isFrozen n = true -> isFrozen n' = true) ->
  heap_ok R ext (put h a n').
Proof.
  intros H Ha Hr Hs Hf. apply (put_ok ext _ _ _ n); [done..|by rewrite Hs|]. apply (shared_frozen_put _ _ n); [by apply H|done..|].
  intros Hn. left. by apply Hf.
Qed.

Lemma freeze_ok (ext : list Z) (h : heap) (a : Z) (n : CFStorageNode) :
  heap_ok R ext h -> h_nodes h !! a = Some n -> heap_ok R ext (put h a (set_frozen true n)).
Proof. intros H Ha. by apply (put_same_ok _ _ _ n). Qed.

Lemma thaw_ok (ext : list Z) (h : heap) (a : Z) (n : CFStorageNode) :
  heap_ok R ext h -> h_nodes h !! a = Some n -> refCount n = 1 -> heap_ok R ext (put h a (set_frozen false n)).
Proof.
  intros H Ha Hr. apply (put_ok ext _ _ _ n); [done..|]. apply (shared_frozen_put _ _ n); [by apply H|done..|].
  intros _. right. pose proof (ho_counted _ _ _ H a n Ha) as C. rewrite occ_app in C. destruct (decide _); lia.
Qed.

(** The count of a node changes with the references the function holds. *)
Lemma recount_ok (ext ext' : list Z) (h : heap) (a v : Z) (n : CFStorageNode) :
  heap_ok R ext h -> h_nodes h !! a = Some n -> a ∉ R -> v = refCount n + Z.of_nat (occ a ext') - Z.of_nat (occ a ext) ->
  (forall b, b <> a -> occ b ext' = occ b ext) -> heap_ok R ext' (put h a (set_refCount v n)).
Proof.
  intros [C F B X D O] Ha Na -> He.
  assert (E : edges (<[a := set_refCount (refCount n + Z.of_nat (occ a ext') - Z.of_nat (occ a ext)) n]> (h_nodes h)) ≡ₚ edges (h_nodes h))
    by (by apply (edges_same _ _ n)).
  split; cbn.
  - intros b nb. destruct (decide (b = a)) as [->|Nb].
    + rewrite lookup_insert_eq. intros [= <-]. rewrite decide_False by done. cbn. pose proof (C a n Ha) as Ca.
      rewrite decide_False, occ_app in Ca by done. rewrite occ_app, E. lia.
    + rewrite lookup_insert_ne by done. intros Hb. rewrite (C b nb Hb). destruct (decide _); [done|]. rewrite !occ_app, E, He by done. done.
  - intros b nb Hb. rewrite E. destruct (decide (b = a)) as [->|Nb].
    + rewrite lookup_insert_eq in Hb. injection Hb as <-. apply (F a n Ha).
    + rewrite lookup_insert_ne in Hb by done. by apply F.
  - intros b nb. destruct (decide (b = a)) as [->|Nb]; [intros _; by apply (B a n)|]. rewrite lookup_insert_ne by done. apply B.
  - done.
  - intros b. rewrite E. intros Hb. destruct (decide (b = a)) as [->|Nb]; [by rewrite lookup_insert_eq; split; [|eexists]|].
    rewrite lookup_insert_ne by done. apply D. revert Hb. rewrite !elem_of_app, !occ_elem, He by done. done.
  - intros r Hr'. destruct (decide (r = a)) as [->|Nb]; [done|]. rewrite lookup_insert_ne by done. by apply O.
Qed.

Lemma referenced_count (ext : list Z) (h : heap) (a : Z) (n : CFStorageNode) :
  heap_ok R ext h -> h_nodes h !! a = Some n -> a ∈ ext ++ edges (h_nodes h) ->
  a ∉ R /\ refCount n = Z.of_nat (occ a ext) + Z.of_nat (occ a (edges (h_nodes h))) /\ 1 <= refCount n.
Proof.
  intros H Ha Hx. destruct (ho_refs _ _ _ H a Hx) as [Na _]. pose proof (ho_counted _ _ _ H a n Ha) as C.
  rewrite decide_False in C by done. apply occ_elem in Hx. rewrite occ_app in C, Hx. split; [done|]. lia.
Qed.

Lemma retain_ok (ext : list Z) (h : heap) (a : Z) (n : CFStorageNode) :
  heap_ok R ext h -> h_nodes h !! a = Some n -> a ∈ ext ++ edges (h_nodes h) ->
  CFStorageRetainNode h a = Ok (put h a (set_refCount (refCount n + 1) n)) /\
  heap_ok R (a :: ext) (put h a (set_refCount (refCount n + 1) n)).
Proof.
  intros H Ha Hx. destruct (referenced_count ext h a n H Ha Hx) as (Na & C & L). split.
  - unfold CFStorageRetainNode, load. rewrite Ha. cbn. by destruct (Z.ltb_spec 0 (refCount n)); [|lia].
  - apply (recount_ok ext); [done..| |].
    + rewrite occ_cons, decide_True by done. lia.
    + intros b Nb. rewrite occ_cons, decide_False by done. done.
Qed.

(** A release that leaves other references. *)
Lemma release_shared_ok (ext : list Z) (h : heap) (a : Z) (n : CFStorageNode) :
  heap_ok R (a :: ext) h -> h_nodes h !! a = Some n -> 2 <= refCount n ->
  release h a = Ok (put h a (set_refCount (refCount n - 1) n)) /\ heap_ok R ext (put h a (set_refCount (refCount n - 1) n)).
Proof.
  intros H Ha Hr. destruct (referenced_count (a :: ext) h a n H Ha) as (Na & C & L); [by left|]. split.
  - unfold release, steps. cbn [CFStorageReleaseNode]. unfold load. rewrite Ha. cbn.
    destruct (Z.ltb_spec 0 (refCount n)); [|lia]. by destruct (Z.eqb_spec (refCount n - 1) 0); [lia|].
  - apply (recount_ok (a :: ext)); [done..| |].
    + rewrite occ_cons, decide_True by done. lia.
    + intros b Nb. rewrite occ_cons, decide_False by done. done.
Qed.

End Primitives.

End StorageHeap.
