(* ===== verification/StorageTree.v ===== *)
(** * The contents of a storage and what survives a change

    [tree d m a l]: the node at [a] is the root of a tree of height at most [d] that stores
    the bytes [l].  [kept]: a node looks the same to its readers.  [context]: the nodes that
    a change of one node must keep. *)

From stdpp Require Import base list numbers option gmap relations.
From Stdlib Require Import ZArith Lia.
From S2P Require Import Prelude Storage StorageHeap.
Import Storage StorageHeap.

Module StorageTree.

Abbreviation len l := (Z.of_nat (length l)).

(** ** Contents *)

(** [capacityInBytes] is 0 or the size of the block, which holds the bytes of the leaf. *)
Definition block_ok (c : Z) (mem : option (list cell)) (n : Z) : Prop :=
  match mem with None => c = 0 | Some m => n <= len m /\ (c = 0 \/ c = len m) end.

Definition leaf_cells (mem : option (list cell)) (n : Z) : list cell :=
  match mem with None => replicate (Z.to_nat n) None | Some m => take (Z.to_nat n) m end.

(** [M]: the capacity of a leaf; [vs]: the size of a value. *)
Definition leaf_of (M vs : Z) (n : CFStorageNode) (l : list cell) : Prop :=
  exists c mem r, info n = Leaf c mem r /\ block_ok c mem (numBytes n) /\ 0 <= numBytes n <= M /\ (vs | numBytes n) /\
    l = leaf_cells mem (numBytes n).

Section Trees.

(** The capacity of a leaf and the size of a value. *)
Context (M vs : Z).

Definition branch_of (n : CFStorageNode) (cs : list Z) : Prop :=
  exists c0 c1 c2, info n = Branch c0 c1 c2 /\ c0 <> 0 /\ c1 <> 0 /\ cs = c0 :: c1 :: (if decide (c2 = 0) then [] else [c2]).

Fixpoint tree (d : nat) (m : nodes) (a : Z) (l : list cell) : Prop :=
  exists n, m !! a = Some n /\
    (leaf_of M vs n l \/
     exists cs ls, branch_of n cs /\ l = concat ls /\ numBytes n = len l /\
       match d with O => False | S d => Forall2 (fun c lc => lc <> [] /\ tree d m c lc) cs ls end).

Lemma leaf_bytes (n : CFStorageNode) (l : list cell) : leaf_of M vs n l -> numBytes n = len l.
Proof.
  intros (c & mem & r & E & B & H & V & ->). destruct mem as [m|]; cbn in *; [rewrite length_take|rewrite length_replicate]; lia.
Qed.

Lemma leaf_isLeaf (n : CFStorageNode) (l : list cell) : leaf_of M vs n l -> isLeaf n = true.
Proof. intros (c & mem & r & E & _). unfold isLeaf. by rewrite E. Qed.

Lemma branch_isLeaf (n : CFStorageNode) (cs : list Z) : branch_of n cs -> isLeaf n = false.
Proof. intros (c0 & c1 & c2 & E & _). unfold isLeaf. by rewrite E. Qed.

Lemma leaf_slots (n : CFStorageNode) (l : list cell) : leaf_of M vs n l -> slots n = [].
Proof. intros (c & mem & r & E & _). unfold slots. by rewrite E. Qed.

Lemma branch_slots (n : CFStorageNode) (cs : list Z) : branch_of n cs -> slots n = cs.
Proof.
  intros (c0 & c1 & c2 & E & N0 & N1 & ->). unfold slots. rewrite E, !filter_cons, !decide_True by done.
  destruct (decide (c2 = 0)) as [->|N2]; [by rewrite decide_False by (by intros ?)|by rewrite decide_True].
Qed.

Lemma leaf_not_branch (n : CFStorageNode) (l : list cell) (cs : list Z) : leaf_of M vs n l -> branch_of n cs -> False.
Proof. intros L B. apply leaf_isLeaf in L. apply branch_isLeaf in B. congruence. Qed.

Lemma leaf_det (n : CFStorageNode) (l l' : list cell) : leaf_of M vs n l -> leaf_of M vs n l' -> l = l'.
Proof. intros (c & mem & r & E & _ & _ & _ & ->) (c' & mem' & r' & E' & _ & _ & _ & ->). congruence. Qed.

Lemma branch_det (n : CFStorageNode) (cs cs' : list Z) : branch_of n cs -> branch_of n cs' -> cs = cs'.
Proof. intros B B'. apply branch_slots in B, B'. congruence. Qed.

Lemma tree_bytes (d : nat) (m : nodes) (a : Z) (l : list cell) : tree d m a l -> exists n, m !! a = Some n /\ numBytes n = len l.
Proof.
  destruct d as [|d]; intros (n & Hn & [L|(cs & ls & B & E & Eb & T)]); exists n; (split; [done|]); try done; by apply leaf_bytes.
Qed.

Lemma tree_mono (d d' : nat) (m : nodes) (a : Z) (l : list cell) : (d <= d')%nat -> tree d m a l -> tree d' m a l.
Proof.
  revert d' a l. induction d as [|d IH]; intros d' a l Hd (n & Hn & [L|(cs & ls & B & E & Eb & T)]).
  - destruct d'; by exists n; split; [|left].
  - done.
  - destruct d'; by exists n; split; [|left].
  - destruct d' as [|d']; [lia|]. exists n. split; [done|]. right. exists cs, ls. split_and!; [done..|].
    eapply list.Forall2_impl; [exact T|]. intros c lc [? ?]. split; [done|]. apply IH; [lia|done].
Qed.

Lemma tree_node (d : nat) (m : nodes) (a : Z) (l : list cell) (n : CFStorageNode) :
  tree d m a l -> m !! a = Some n ->
  leaf_of M vs n l \/ exists d' cs ls, d = S d' /\ branch_of n cs /\ l = concat ls /\ numBytes n = len l /\ Forall2 (fun c lc => lc <> [] /\ tree d' m c lc) cs ls.
Proof.
  destruct d as [|d]; intros (n' & Hn & [L|(cs & ls & B & E & Eb & T)]) Hn'; rewrite Hn in Hn'; injection Hn' as <-;
    [by left|done|by left|]. right. by exists d, cs, ls.
Qed.

Lemma tree_leaf (d : nat) (m : nodes) (a : Z) (l : list cell) (n : CFStorageNode) : m !! a = Some n -> leaf_of M vs n l -> tree d m a l.
Proof. intros Hn L. destruct d; by exists n; split; [|left]. Qed.

Lemma tree_branch (d : nat) (m : nodes) (a : Z) (n : CFStorageNode) (cs : list Z) (ls : list (list cell)) :
  m !! a = Some n -> branch_of n cs -> numBytes n = len (concat ls) -> Forall2 (fun c lc => lc <> [] /\ tree d m c lc) cs ls ->
  tree (S d) m a (concat ls).
Proof. intros Hn B E F. exists n. split; [done|]. right. by exists cs, ls. Qed.

(** A child stores fewer bytes than its parent. *)
Lemma child_shorter (d : nat) (m : nodes) (a c : Z) (l : list cell) (n : CFStorageNode) :
  tree d m a l -> m !! a = Some n -> c ∈ slots n -> exists d' lc, d = S d' /\ tree d' m c lc /\ lc <> [] /\ (length lc < length l)%nat.
Proof.
  intros T Hn Hc. destruct (tree_node d m a l n T Hn) as [L|(d' & cs & ls & -> & B & -> & _ & F)].
  { rewrite (leaf_slots n l L) in Hc. by apply elem_of_nil in Hc. }
  rewrite (branch_slots n cs B) in Hc. destruct B as (c0 & c1 & c2 & _ & _ & _ & ->).
  apply list_elem_of_lookup in Hc as [i Hi]. destruct (Forall2_lookup_l _ _ _ _ _ F Hi) as (lc & Hl & Nc & Tc).
  exists d', lc. split_and!; [done..|]. rewrite <- (take_drop_middle ls i lc Hl). rewrite concat_app. cbn. rewrite !length_app.
  assert (forall l, l ∈ ls -> l <> []) as Nl.
  { intros l Hin. apply list_elem_of_lookup in Hin as [j Hj]. by destruct (Forall2_lookup_r _ _ _ _ _ F Hj) as (? & _ & ? & _). }
  assert (2 <= length ls)%nat by (rewrite <- (Forall2_length _ _ _ F); cbn; lia).
  assert (exists x, x ∈ take i ls \/ x ∈ drop (S i) ls) as [x Hx].
  { destruct i as [|i].
    - destruct ls as [|l0 [|l1 ls]]; cbn in *; [lia..|]. exists l1. right. left.
    - destruct ls as [|l0 ls]; [done|]. exists l0. left. cbn. left. }
  assert (x <> []) as Nx.
  { apply Nl. destruct Hx as [Hx|Hx]; [rewrite <- (take_drop i ls), elem_of_app; by left|].
    rewrite <- (take_drop (S i) ls), elem_of_app. by right. }
  assert (forall L, x ∈ L -> (0 < length (concat L))%nat) as P.
  { intros L HL. induction L as [|y L IH]; [by apply elem_of_nil in HL|]. cbn. rewrite length_app.
    apply elem_of_cons in HL as [<-|HL]; [destruct x; [done|cbn; lia]|]. specialize (IH HL). lia. }
  destruct Hx as [Hx|Hx]; apply P in Hx; lia.
Qed.

(** ** Reachability *)

Definition edge (m : nodes) (p c : Z) : Prop := exists n, m !! p = Some n /\ c ∈ slots n.
Abbreviation reach m := (rtc (edge m)).

Lemma reach_tree (d : nat) (m : nodes) (a b : Z) (l : list cell) :
  tree d m a l -> reach m a b -> exists d' lb, (d' <= d)%nat /\ tree d' m b lb /\ (length lb <= length l)%nat.
Proof.
  intros T H. revert d l T. induction H as [a|a c b (n & Hn & Hc) _ IH]; intros d l T; [by exists d, l|].
  destruct (child_shorter d m a c l n T Hn Hc) as (d' & lc & -> & Tc & _ & L). destruct (IH d' lc Tc) as (d2 & lb & ? & ? & ?).
  exists d2, lb. split_and!; [lia|done|lia].
Qed.

Lemma tree_acyclic (d : nat) (m : nodes) (a c : Z) (l : list cell) : tree d m a l -> edge m a c -> ~ reach m c a.
Proof.
  intros T (n & Hn & Hc) H. destruct (child_shorter d m a c l n T Hn Hc) as (d' & lc & -> & Tc & _ & L).
  destruct (reach_tree d' m c a lc Tc H) as (d2 & la & _ & Ta & L').
  destruct (tree_bytes _ _ _ _ T) as (n1 & H1 & E1). destruct (tree_bytes _ _ _ _ Ta) as (n2 & H2 & E2).
  rewrite H1 in H2. injection H2 as ->. lia.
Qed.

(** The last pointer on a path. *)
Lemma reach_last (m : nodes) (a b : Z) : reach m a b -> a = b \/ exists p, reach m a p /\ edge m p b.
Proof. intros H. apply rtc_inv_r in H as [->|(p & H & E)]; [by left|right; by exists p]. Qed.

(** ** What readers see *)

(** A leaf has a block. *)
Definition allocated (n : CFStorageNode) : Prop :=
  match info n with Leaf _ None _ => False | _ => True end.

Definition kept (m m' : nodes) (b : Z) : Prop :=
  forall n, m !! b = Some n -> exists n', m' !! b = Some n' /\ numBytes n' = numBytes n /\ slots n' = slots n /\ isLeaf n' = isLeaf n /\ (allocated n -> allocated n') /\
    (forall M vs l, leaf_of M vs n l -> leaf_of M vs n' l) /\ (forall cs, branch_of n cs -> branch_of n' cs).

Lemma kept_refl (m : nodes) (b : Z) : kept m m b.
Proof. intros n Hn. by exists n. Qed.

Lemma kept_trans (m1 m2 m3 : nodes) (b : Z) : kept m1 m2 b -> kept m2 m3 b -> kept m1 m3 b.
Proof.
  intros K1 K2 n Hn. destruct (K1 n Hn) as (n2 & H2 & E2 & S2 & F2 & A2 & L2 & B2). destruct (K2 n2 H2) as (n3 & H3 & E3 & S3 & F3 & A3 & L3 & B3).
  exists n3. split_and!; [done|congruence|congruence|congruence|auto..].
Qed.

Lemma kept_ne (m : nodes) (a b : Z) (n : CFStorageNode) : b <> a -> kept m (<[a := n]> m) b.
Proof. intros N nb Hb. exists nb. by rewrite lookup_insert_ne. Qed.

(** The node itself changes only its count, its mark or its cached range. *)
Lemma kept_put (m : nodes) (a b : Z) (n n' : CFStorageNode) :
  m !! a = Some n -> numBytes n' = numBytes n -> info n' = info n -> kept m (<[a := n']> m) b.
Proof.
  intros Ha Eb Ei. destruct (decide (b = a)) as [->|N]; [|by apply kept_ne]. intros n0 H0. rewrite Ha in H0. injection H0 as <-.
  exists n'. rewrite lookup_insert_eq. split_and!; [done..|by unfold slots; rewrite Ei|by unfold isLeaf; rewrite Ei|by unfold allocated; rewrite Ei| |].
  - intros M' vs' l (c & mem & r & E & B & H). rewrite <- Eb, <- Ei in *. by exists c, mem, r.
  - intros cs (c0 & c1 & c2 & E & H). rewrite <- Ei in *. by exists c0, c1, c2.
Qed.

Lemma kept_new (m : nodes) (a b : Z) (n : CFStorageNode) : m !! a = None -> kept m (<[a := n]> m) b.
Proof. intros Ha nb Hb. exists nb. rewrite lookup_insert_ne; [done|]. intros <-. congruence. Qed.

Lemma tree_kept (P : Z -> Prop) (d : nat) (m m' : nodes) (a : Z) (l : list cell) :
  (forall b c, P b -> edge m b c -> P c) -> (forall b, P b -> kept m m' b) -> P a -> tree d m a l -> tree d m' a l.
Proof.
  intros Cl K. revert a l. induction d as [|d IH]; intros a l Pa T; destruct (tree_bytes _ _ _ _ T) as (n & Hn & _);
    destruct (K a Pa n Hn) as (n' & Hn' & Eb & _ & _ & _ & KL & KB); destruct (tree_node _ _ _ _ n T Hn) as [L|(d' & cs & ls & [=] & B & -> & Ebn & F)].
  - apply (tree_leaf _ _ _ _ n'); auto.
  - apply (tree_leaf _ _ _ _ n'); auto.
  - subst d'. apply (tree_branch _ _ _ n' cs); [done|auto|congruence|]. 
    assert (forall c, c ∈ cs -> P c) as Pc.
    { intros c Hc. apply (Cl a); [done|]. exists n. split; [done|]. by rewrite (branch_slots n cs B). }
    clear - F Pc IH. induction F as [|c lc cs ls [Nl Tc] F IHF]; constructor; [split; [done|]; apply IH; [apply Pc; left|done]|].
    apply IHF. intros c' Hc. apply Pc. by right.
Qed.

(** ** Contexts *)

Record context (R : gset Z) (Q : Z -> Prop) (m : nodes) (a : Z) : Prop := mk_context {
  cx_dom : forall b, Q b -> is_Some (m !! b);
  cx_out : ~ Q a;
  cx_closed : forall b c, Q b -> edge m b c -> Q c \/ c = a;
  cx_support : forall b, Q b -> b ∈ R \/ (2 <= occ b (edges m))%nat \/ exists q, Q q /\ edge m q b;
  cx_entry : a ∈ R \/ exists q, Q q /\ edge m q a
}.

(** The nodes to keep while a child of [a] changes: those of the context of [a], [a] and
    what its other children reach. *)
Definition beside (Q : Z -> Prop) (m : nodes) (a : Z) (others : list Z) (b : Z) : Prop :=
  Q b \/ b = a \/ exists c, c ∈ others /\ reach m c b.

Lemma context_shared (R : gset Z) (Q : Z -> Prop) (ext : list Z) (h : heap) (a c : Z) :
  heap_ok R ext h -> context R Q (h_nodes h) a -> edge (h_nodes h) a c -> Q c -> (2 <= occ c (edges (h_nodes h)))%nat.
Proof.
  intros H X (n & Hn & Hc) Qc. destruct (cx_support _ _ _ _ X c Qc) as [Rc|[O2|(q & Qq & nq & Hq & Hcq)]]; [|done|].
  - destruct (ho_refs _ _ _ H c) as [Nc _]; [|done]. apply elem_of_app. right. apply edges_elem. by exists a, n.
  - apply (two_parents _ a q c n nq); [|done..]. intros <-. by apply (cx_out _ _ _ _ X).
Qed.

Lemma sub_context (R : gset Z) (Q : Z -> Prop) (ext : list Z) (h : heap) (d : nat) (a c : Z) (l : list cell) (n : CFStorageNode) (others : list Z) :
  heap_ok R ext h -> context R Q (h_nodes h) a -> tree d (h_nodes h) a l -> h_nodes h !! a = Some n -> slots n ≡ₚ c :: others ->
  (occ c (edges (h_nodes h)) < 2)%nat -> context R (beside Q (h_nodes h) a others) (h_nodes h) c.
Proof.
  intros H X T Hn Hs Ho. set (m := h_nodes h) in *.
  assert (Ed : forall x, x ∈ c :: others -> edge m a x) by (intros x Hx; exists n; split; [done|]; by rewrite Hs).
  assert (Ac : forall x, x ∈ c :: others -> ~ reach m x a) by (intros x Hx; by apply (tree_acyclic d m a x l T), Ed).
  split.
  - intros b [Qb|[->|(x & Hx & Hr)]]; [by apply (cx_dom _ _ _ _ X)|by eexists|].
    destruct (Ed x (list_elem_of_further _ _ _ Hx)) as (na & Ha & Hxa). rewrite Hn in Ha. injection Ha as <-.
    destruct (child_shorter d m a x l n T Hn Hxa) as (d' & lx & -> & Tx & _ & _).
    destruct (reach_tree d' m x b lx Tx Hr) as (d2 & lb & _ & Tb & _). destruct (tree_bytes _ _ _ _ Tb) as (nb & Hb & _). by exists nb.
  - intros [Qc|[->|(x & Hx & Hr)]].
    + pose proof (context_shared R Q ext h a c H X (Ed c (list_elem_of_here _ _)) Qc). unfold m in Ho. lia.
    + apply (Ac a); [left|done].
    + destruct (reach_last m x c Hr) as [->|(p & Hp & np & Hnp & Hcp)].
      * assert (2 <= occ c (slots n))%nat as O2 by (rewrite Hs, occ_cons, decide_True by done; apply occ_elem in Hx; lia).
        pose proof (slot_occ m a c n Hn). lia.
      * assert (p <> a) as Np by (intros ->; by apply (Ac x); [right|]).
        pose proof (two_parents m p a c np n Np Hnp Hn Hcp) as O2. rewrite Hs in O2. specialize (O2 (list_elem_of_here _ _)). lia.
  - intros b x Hb Hbx. destruct (decide (x = c)) as [->|Nx]; [by right|left]. destruct Hb as [Qb|[->|(y & Hy & Hr)]].
    + destruct (cx_closed _ _ _ _ X b x Qb Hbx) as [Qx| ->]; [by left|by right; left].
    + right; right. destruct Hbx as (na & Ha & Hxa). rewrite Hn in Ha. injection Ha as <-. rewrite Hs in Hxa.
      apply elem_of_cons in Hxa as [->|Hxa]; [done|]. by exists x.
    + right; right. exists y. split; [done|]. by eapply rtc_r.
  - intros b [Qb|[->|(y & Hy & Hr)]].
    + destruct (cx_support _ _ _ _ X b Qb) as [Rb|[O2|(q & Qq & Eq)]]; [by left|by right; left|right; right]. exists q. split; [by left|done].
    + destruct (cx_entry _ _ _ _ X) as [Ra|(q & Qq & Eq)]; [by left|right; right]. exists q. split; [by left|done].
    + right; right. destruct (reach_last m y b Hr) as [->|(p & Hp & Ep)].
      * exists a. split; [by right; left|]. apply Ed. by right.
      * exists p. split; [|done]. right; right. by exists y.
  - right. exists a. split; [by right; left|]. apply Ed. left.
Qed.

(** The tree of a sibling survives a change that keeps the nodes beside it. *)
Lemma sibling_kept (Q : Z -> Prop) (d : nat) (m m' : nodes) (a c : Z) (others : list Z) (l : list cell) :
  (forall b, beside Q m a others b -> kept m m' b) -> c ∈ others -> tree d m c l -> tree d m' c l.
Proof.
  intros K Hc. apply (tree_kept (reach m c)); [|by intros b Hb; apply K; right; right; exists c|done].
  intros b x Hb Hx. by eapply rtc_r.
Qed.

(** The nodes that may be shared: a set that contains every node with two parents and what
    it reaches, whose leaves have blocks. *)
Record region (S : Z -> Prop) (m : nodes) : Prop := mk_region {
  rg_shared : forall b, (2 <= occ b (edges m))%nat -> S b;
  rg_closed : forall b c, S b -> edge m b c -> S c;
  rg_allocated : forall b n, S b -> m !! b = Some n -> allocated n
}.

Lemma kept_edge (m m' : nodes) (a c : Z) : kept m m' a -> edge m a c -> edge m' a c.
Proof. intros K (n & Hn & Hc). destruct (K n Hn) as (n' & Hn' & _ & E & _). exists n'. by rewrite E. Qed.

Lemma kept_edge_inv (m m' : nodes) (a c : Z) : kept m m' a -> is_Some (m !! a) -> edge m' a c -> edge m a c.
Proof. intros K [n Hn] (n' & Hn' & Hc). destruct (K n Hn) as (n2 & H2 & _ & E & _). exists n. split; [done|]. rewrite H2 in Hn'. injection Hn' as <-. by rewrite <- E. Qed.

(** Nothing in the region changes, and no node outside it gets a second parent. *)
Lemma region_kept (S : Z -> Prop) (m m' : nodes) :
  region S m -> (forall b, S b -> is_Some (m !! b)) -> (forall b, S b -> kept m m' b) -> (forall b, (2 <= occ b (edges m'))%nat -> S b) -> region S m'.
Proof.
  intros [_ C A] D K H. split; [done| |].
  - intros b c Hb Hc. apply (C b); [done|]. apply (kept_edge_inv m m'); [by apply K|by apply D|done].
  - intros b n' Hb Hn'. destruct (D b Hb) as [n Hn]. destruct (K b Hb n Hn) as (n2 & H2 & _ & _ & _ & A2 & _). rewrite H2 in Hn'. injection Hn' as <-.
    apply A2. by apply (A b).
Qed.

(** ** Changes of marks and counts *)

Definition mild (m m' : nodes) : Prop :=
  forall x, option_relation (fun n n' => numBytes n' = numBytes n /\ info n' = info n /\ (isFrozen n = true -> isFrozen n' = true)) (fun _ => False) (fun _ => False)
    (m !! x) (m' !! x).

Lemma mild_refl (m : nodes) : mild m m.
Proof. intros x. by destruct (m !! x). Qed.

Lemma mild_trans (m1 m2 m3 : nodes) : mild m1 m2 -> mild m2 m3 -> mild m1 m3.
Proof.
  intros H1 H2 x. specialize (H1 x). specialize (H2 x). destruct (m1 !! x), (m2 !! x), (m3 !! x); cbn in *; try done.
  destruct H1 as (? & ? & ?), H2 as (? & ? & ?). split_and!; [congruence..|auto].
Qed.

Lemma mild_put (m : nodes) (a : Z) (n n' : CFStorageNode) :
  m !! a = Some n -> numBytes n' = numBytes n -> info n' = info n -> (isFrozen n = true -> isFrozen n' = true) -> mild m (<[a := n']> m).
Proof.
  intros Ha E1 E2 E3 x. destruct (decide (x = a)) as [->|N]; [rewrite lookup_insert_eq, Ha; by cbn|].
  rewrite lookup_insert_ne by done. by destruct (m !! x).
Qed.

Lemma mild_kept (m m' : nodes) (x : Z) : mild m m' -> kept m m' x.
Proof.
  intros H n Hn. specialize (H x). rewrite Hn in H. destruct (m' !! x) as [n'|]; [|done]. cbn in H. destruct H as (E1 & E2 & _). exists n'.
  unfold slots, isLeaf, allocated. rewrite E2. split_and!; [done..| |].
  - intros M' vs' l (c & mem & r & E & B & H). rewrite <- E1, <- E2 in *. by exists c, mem, r.
  - intros cs (c0 & c1 & c2 & E & H). rewrite <- E2 in *. by exists c0, c1, c2.
Qed.

Lemma mild_edges (m m' : nodes) : mild m m' -> edges m' ≡ₚ edges m.
Proof.
  revert m'. induction m as [|k n m Hk IH] using map_ind; intros m' H.
  - assert (m' = ∅) as ->; [|done]. apply map_eq. intros x. specialize (H x). rewrite lookup_empty in *. by destruct (m' !! x).
  - pose proof (H k) as Hk'. rewrite lookup_insert_eq in Hk'. destruct (m' !! k) as [n'|] eqn:En; [|done]. destruct Hk' as (_ & E & _).
    rewrite (edges_delete m' k n' En), edges_insert_new by done. f_equiv; [unfold slots; by rewrite E|]. apply IH. intros x. specialize (H x).
    destruct (decide (x = k)) as [->|N]; [by rewrite Hk, lookup_delete_eq|]. rewrite lookup_insert_ne in H by done. by rewrite lookup_delete_ne.
Qed.

Lemma mild_lookup (m m' : nodes) (x : Z) (n : CFStorageNode) : mild m m' -> m !! x = Some n ->
  exists n', m' !! x = Some n' /\ numBytes n' = numBytes n /\ info n' = info n /\ (isFrozen n = true -> isFrozen n' = true).
Proof. intros H Hn. specialize (H x). rewrite Hn in H. destruct (m' !! x) as [n'|]; [|done]. by exists n'. Qed.

(** A tree does not see a node that it does not reach. *)
Lemma tree_put_other (d : nat) (m : nodes) (x y : Z) (n : CFStorageNode) (l : list cell) :
  x ∉ edges m -> y <> x -> tree d m y l -> tree d (<[x := n]> m) y l.
Proof.
  intros Hx Ny T. apply (tree_kept (reach m y) d m); [by intros b c Hb Hc; eapply rtc_r| |done|done].
  intros b Hb. apply kept_ne. intros ->. destruct (reach_last m y x Hb) as [->|(p & _ & np & Hp & Hx')]; [done|].
  apply Hx. apply edges_elem. by exists p, np.
Qed.

Lemma tree_all_kept (d : nat) (m m' : nodes) (y : Z) (l : list cell) : (forall x, kept m m' x) -> tree d m y l -> tree d m' y l.
Proof. intros K. by apply (tree_kept (fun _ => True)). Qed.

(** ** Children *)

Lemma branch_children (n : CFStorageNode) (cs : list Z) : branch_of n cs ->
  exists c0 c1 c2, children n = Ok (c0, c1, c2) /\ info n = Branch c0 c1 c2 /\ c0 <> 0 /\ c1 <> 0 /\ cs = c0 :: c1 :: (if decide (c2 = 0) then [] else [c2]).
Proof. intros (c0 & c1 & c2 & E & H). exists c0, c1, c2. unfold children. by rewrite E. Qed.

(** The child that holds a byte, or in which a byte is inserted. *)
Lemma find_child_spec (d : nat) (h : heap) (a b : Z) (ins : bool) (n : CFStorageNode) (cs : list Z) (ls : list (list cell)) :
  h_nodes h !! a = Some n -> branch_of n cs -> Forall2 (fun c lc => lc <> [] /\ tree d (h_nodes h) c lc) cs ls ->
  0 <= b -> b < len (concat ls) + (if ins then 1 else 0) ->
  exists i c lc rel, cs !! i = Some c /\ ls !! i = Some lc /\ CFStorageFindChild h a b ins = Ok (c, Z.of_nat i, rel) /\
    b = len (concat (take i ls)) + rel /\ 0 <= rel /\ rel < len lc + (if ins then 1 else 0).
Proof.
  intros Hn B F Hb Hl. destruct (branch_children n cs B) as (c0 & c1 & c2 & Ec & _ & N0 & N1 & ->).
  unfold CFStorageFindChild, load. rewrite Hn. cbn [mbind result_bind]. rewrite Ec. cbn [mbind result_bind].
  inversion F as [|? l0 ? ls1 [Nl0 T0] F1]; subst. inversion F1 as [|? l1 ? ls2 [Nl1 T1] F2]; subst.
  destruct (tree_bytes _ _ _ _ T0) as (n0 & H0 & E0). destruct (tree_bytes _ _ _ _ T1) as (n1 & H1 & E1). rewrite H0. cbn [mbind result_bind].
  set (k := if ins then 1 else 0) in *. assert (0 <= k <= 1) by (by unfold k; destruct ins).
  assert (forall (x : list cell), x <> [] -> 0 < len x) as Pos by (intros [|? ?] ?; [done|cbn; lia]). pose proof (Pos l0 Nl0). pose proof (Pos l1 Nl1).
  destruct (Z.ltb_spec (b - k) (numBytes n0)) as [L0|L0].
  { exists 0%nat, c0, l0, b. split_and!; [done|done|by do 2 f_equal; lia|cbn; lia|lia|lia]. }
  rewrite H1. cbn [mbind result_bind]. destruct (Z.ltb_spec (b - k - numBytes n0) (numBytes n1)) as [L1|L1].
  { exists 1%nat, c1, l1, (b - len l0). split_and!; [done|done|by do 2 f_equal; lia|cbn; rewrite app_nil_r; lia|lia|lia]. }
  destruct (decide (c2 = 0)) as [->|N2].
  { inversion F2; subst. cbn in Hl. rewrite !app_nil_r, !length_app in Hl. lia. }
  inversion F2 as [|? l2 ? ls3 [Nl2 T2] F3]; subst. inversion F3; subst. cbn in Hl. rewrite !app_nil_r, !length_app in Hl.
  exists 2%nat, c2, l2, (b - len l0 - len l1). split_and!; [done|done|by do 2 f_equal; lia|cbn; rewrite app_nil_r, length_app; lia|lia|lia].
Qed.

End Trees.

End StorageTree.
