(* ===== verification/StorageLeaf.v ===== *)
(** * The leaves of a storage: allocation, copying and insertion

    What the functions on a single leaf do to its bytes: the block grows without losing
    them, an insertion opens a gap in one leaf or spreads over two. *)

From stdpp Require Import base list numbers option gmap.
From Stdlib Require Import ZArith Lia.
From S2P Require Import Prelude Storage StorageHeap StorageTree.
Import Storage StorageHeap StorageTree.

Module StorageLeaf.

(** ** Heaps *)

Lemma load_Ok (h : heap) (a : Z) (n : CFStorageNode) : h_nodes h !! a = Some n -> load h a = Ok n.
Proof. intros H. unfold load. by rewrite H. Qed.

Lemma load_put (h : heap) (a : Z) (n : CFStorageNode) : load (put h a n) a = Ok n.
Proof. apply load_Ok. apply lookup_insert_eq. Qed.

Lemma load_put_ne (h : heap) (a b : Z) (n : CFStorageNode) : b <> a -> load (put h a n) b = load h b.
Proof. intros N. unfold load. cbn. by rewrite lookup_insert_ne. Qed.

Lemma put_put (h : heap) (a : Z) (n n' : CFStorageNode) : put (put h a n) a n' = put h a n'.
Proof. unfold put. cbn. by rewrite insert_insert_eq. Qed.

Lemma put_swap (h : heap) (a b : Z) (n n' : CFStorageNode) : a <> b -> put (put h a n) b n' = put (put h b n') a n.
Proof. intros N. unfold put. cbn. by rewrite insert_insert_ne. Qed.

Lemma put_id (h : heap) (a : Z) (n : CFStorageNode) : h_nodes h !! a = Some n -> put h a n = h.
Proof. intros H. unfold put. rewrite insert_id by done. by destruct h. Qed.

Lemma put_alloc (h : heap) (n n' : CFStorageNode) : put (alloc h n) (h_next h) n' = alloc h n'.
Proof. unfold put, alloc. cbn. by rewrite insert_insert_eq. Qed.

Lemma lookup_alloc (h : heap) (n : CFStorageNode) : h_nodes (alloc h n) !! h_next h = Some n.
Proof. apply lookup_insert_eq. Qed.

Lemma load_alloc (h : heap) (n : CFStorageNode) : load (alloc h n) (h_next h) = Ok n.
Proof. apply load_Ok, lookup_alloc. Qed.

Lemma load_alloc_ne (h : heap) (a : Z) (n : CFStorageNode) : a <> h_next h -> load (alloc h n) a = load h a.
Proof. intros N. unfold load. cbn. by rewrite lookup_insert_ne. Qed.

Definition new_node (s : CFStorage) (leaf : bool) (bytes : Z) : CFStorageNode :=
  mkNode bytes 1 (alwaysFrozen s) (if leaf then Leaf 0 None (CFRangeMake 0 0) else Branch 0 0 0).

Lemma create_alloc (s : CFStorage) (h : heap) (leaf : bool) (bytes : Z) :
  CFStorageCreateNode s h leaf bytes = (alloc h (new_node s leaf bytes), h_next h).
Proof. done. Qed.

Lemma lookup_alloc_ne (h : heap) (a : Z) (n : CFStorageNode) : a <> h_next h -> h_nodes (alloc h n) !! a = h_nodes h !! a.
Proof. intros N. cbn. by rewrite lookup_insert_ne. Qed.

(** ** Lists *)

Lemma memmove_Ok {A} (dst src : list A) (d s n : Z) :
  0 <= n -> 0 <= d -> d + n <= len dst -> 0 <= s -> s + n <= len src ->
  memmove dst d src s n = Ok (take (Z.to_nat d) dst ++ take (Z.to_nat n) (drop (Z.to_nat s) src) ++ drop (Z.to_nat (d + n)) dst).
Proof. intros. unfold memmove. by repeat (rewrite (proj2 (Z.leb_le _ _)) by lia). Qed.

Lemma take_plus {A} (l : list A) (i j : nat) : take (i + j) l = take i l ++ take j (drop i l).
Proof. by rewrite take_take_drop. Qed.

Lemma take_app_exact {A} (l1 l2 : list A) (n : nat) : n = length l1 -> take n (l1 ++ l2) = l1.
Proof. intros ->. by rewrite take_app_length. Qed.

(** The bytes [l] with [k] others at position [i]. *)
Definition inserted (l : list cell) (i k : Z) (l' : list cell) : Prop :=
  exists gap, len gap = k /\ l' = take (Z.to_nat i) l ++ gap ++ drop (Z.to_nat i) l.

Lemma inserted_length (l l' : list cell) (i k : Z) : inserted l i k l' -> len l' = len l + k.
Proof. intros (g & <- & ->). rewrite !length_app, length_take, length_drop. lia. Qed.

(** ** Blocks *)

Lemma roundToPage_covers (cap : Z) : 0 <= cap <= kMaxLeafCapacity -> cap <= roundToPage cap.
Proof.
  intros H. unfold roundToPage, kMaxLeafCapacity, PAGE_SIZE in *. rewrite !swrap_small by (unfold in_s; rewrite ?swrap_small by (unfold in_s; lia); lia).
  change (4096 - 1) with (Z.ones 12). rewrite <- Z.ldiff_land, Z.ldiff_ones_r by lia. rewrite Z.shiftr_div_pow2, Z.shiftl_mul_pow2 by lia.
  change (2 ^ 12) with 4096. pose proof (Z.div_mod (cap + 4096 - 1) 4096 ltac:(lia)). pose proof (Z.mod_pos_bound (cap + 4096 - 1) 4096 ltac:(lia)). lia.
Qed.

Lemma rounded_covers (s : CFStorage) (cap : Z) :
  0 <= cap <= maxLeafCapacity s -> maxLeafCapacity s <= kMaxLeafCapacity -> cap <= rounded_capacity s cap.
Proof.
  intros H HM. unfold rounded_capacity. destruct (Z.ltb_spec PAGE_LIMIT cap).
  - pose proof (roundToPage_covers cap ltac:(lia)). lia.
  - rewrite Z.quot_div_nonneg by lia. pose proof (Z.div_mod (cap + 63) 64 ltac:(lia)).
    pose proof (Z.mod_pos_bound (cap + 63) 64 ltac:(lia)). lia.
Qed.

Lemma realloc_length (mem : option (list cell)) (cap : Z) : 0 <= cap -> len (realloc mem cap) = cap.
Proof. intros H. unfold realloc. rewrite length_app, length_replicate, !length_take. lia. Qed.

Lemma realloc_take (c : Z) (mem : option (list cell)) (cap k : Z) :
  block_ok c mem k -> 0 <= k <= cap -> take (Z.to_nat k) (realloc mem cap) = leaf_cells mem k.
Proof.
  intros B H. unfold realloc. destruct mem as [m|]; cbn in *.
  - rewrite take_app_le by (rewrite length_take; lia). rewrite take_take. f_equal. lia.
  - rewrite take_nil. cbn. rewrite take_replicate. f_equal. lia.
Qed.

Lemma realloc_replicate (cap : Z) : realloc None cap = replicate (Z.to_nat cap) None.
Proof. unfold realloc. cbn [default]. rewrite take_nil. cbn [length app]. f_equal. lia. Qed.

Lemma leaf_cells_take (mem : option (list cell)) (i k : Z) : 0 <= i <= k -> leaf_cells mem i = take (Z.to_nat i) (leaf_cells mem k).
Proof. intros H. destruct mem; cbn; [rewrite take_take|rewrite take_replicate]; f_equal; lia. Qed.

Lemma leaf_cells_length (c : Z) (mem : option (list cell)) (k : Z) : block_ok c mem k -> 0 <= k -> len (leaf_cells mem k) = k.
Proof. intros B H. destruct mem; cbn in *; [rewrite length_take|rewrite length_replicate]; lia. Qed.

Definition cachedRange (n : CFStorageNode) : CFRange :=
  match info n with Leaf _ _ r => r | Branch _ _ _ => CFRangeMake 0 0 end.

(** The block of a leaf is made large enough; the first bytes stay. *)
Lemma alloc_block (s : CFStorage) (h : heap) (a c cap k : Z) (mem : option (list cell)) (r : CFRange) (n : CFStorageNode) :
  maxLeafCapacity s <= kMaxLeafCapacity -> h_nodes h !! a = Some n -> info n = Leaf c mem r -> block_ok c mem k -> 0 <= k <= cap ->
  0 < cap <= maxLeafCapacity s ->
  exists c' m, CFStorageAllocLeafNodeMemory s h a cap false = Ok (put h a (set_info (Leaf c' (Some m) r) n)) /\
    cap <= len m /\ (c' = 0 \/ c' = len m) /\ take (Z.to_nat k) m = leaf_cells mem k.
Proof.
  intros HM Ha Hi B Hk Hcap. pose proof (rounded_covers s cap ltac:(lia) HM) as Hr. unfold CFStorageAllocLeafNodeMemory.
  rewrite (load_Ok h a n Ha). cbn [mbind result_bind]. rewrite Hi. cbn [andb]. destruct (Z.ltb_spec c (rounded_capacity s cap)) as [L|L].
  - eexists _, _. split; [done|]. rewrite realloc_length by lia. split_and!; [lia|by right|]. apply (realloc_take c); [done|lia].
  - destruct mem as [m|]; cbn in B; [|lia]. destruct B as [B [->|Hc]]; [lia|]. exists c, m. split_and!; [|lia|by right|done].
    f_equal. rewrite <- Hi. symmetry. destruct n; cbn. by apply put_id.
Qed.

Lemma copy_leaf (h : heap) (a c d so k : Z) (m m' src : list cell) (r : CFRange) (n : CFStorageNode) :
  h_nodes h !! a = Some n -> info n = Leaf c (Some m) r -> memmove m d src so k = Ok m' ->
  copy_to_leaf h a d src so k = Ok (put h a (set_info (Leaf c (Some m') r) n)).
Proof.
  intros Ha Hi Hm. unfold copy_to_leaf. rewrite (load_Ok h a n Ha). cbn [mbind result_bind]. unfold memory_of, set_memory.
  rewrite Hi. cbn [mbind result_bind]. rewrite Hm. cbn [mbind result_bind]. done.
Qed.

(** A new leaf with a block of its own that gets [k] bytes of another block. *)
Lemma filled_leaf (s : CFStorage) (h : heap) (bytes d so k : Z) (src : list cell) :
  maxLeafCapacity s <= kMaxLeafCapacity -> 0 < bytes <= maxLeafCapacity s -> 0 <= k -> 0 <= d -> d + k <= bytes -> 0 <= so -> so + k <= len src ->
  exists c m, (h1 ← CFStorageAllocLeafNodeMemory s (alloc h (new_node s true bytes)) (h_next h) bytes false; copy_to_leaf h1 (h_next h) d src so k) =
      Ok (alloc h (mkNode bytes 1 (alwaysFrozen s) (Leaf c (Some m) (CFRangeMake 0 0)))) /\
    bytes <= len m /\ (c = 0 \/ c = len m) /\ take (Z.to_nat k) (drop (Z.to_nat d) m) = take (Z.to_nat k) (drop (Z.to_nat so) src).
Proof.
  intros HM Hb Hk Hd Hdk Hso Hsk.
  destruct (alloc_block s (alloc h (new_node s true bytes)) (h_next h) 0 bytes 0 None (CFRangeMake 0 0) (new_node s true bytes) HM
              (lookup_alloc _ _) eq_refl eq_refl ltac:(lia) Hb) as (c & m & -> & L & C & _).
  cbn [mbind result_bind]. rewrite put_alloc. erewrite copy_leaf; [|apply lookup_alloc|done|apply memmove_Ok; lia]. rewrite put_alloc.
  set (m2 := take (Z.to_nat d) m ++ take (Z.to_nat k) (drop (Z.to_nat so) src) ++ drop (Z.to_nat (d + k)) m).
  assert (L2 : len m2 = len m) by (unfold m2; rewrite !length_app, !length_take, !length_drop; lia).
  exists c, m2. split_and!; [done|lia|lia|]. unfold m2. rewrite drop_app_length' by (rewrite length_take; lia).
  rewrite take_app_exact; [done|rewrite length_take, length_drop; lia].
Qed.

Definition conv (s : CFStorage) (off k : Z) : CFRange := CFStorageConvertBytesToValueRange s off k.

Lemma set_cache_leaf (h : heap) (s : CFStorage) (a off c : Z) (mem : option (list cell)) (r : CFRange) (n : CFStorageNode) :
  a <> 0 -> h_nodes h !! a = Some n -> info n = Leaf c mem r ->
  CFStorageSetCache h s a off = Ok (put h a (set_info (Leaf c mem (conv s off (numBytes n))) n), set_cache a s).
Proof.
  intros Na Ha Hi. unfold CFStorageSetCache. destruct (Z.eqb_spec a 0); [done|]. rewrite (load_Ok h a n Ha). cbn [mbind result_bind].
  by rewrite Hi.
Qed.

(** ** Insertion into a leaf that is not shared *)

Definition similar (n n' : CFStorageNode) : Prop := refCount n' = refCount n /\ isFrozen n' = isFrozen n.

Section Insertion.

Context (M vs : Z) (s : CFStorage) (HM : maxLeafCapacity s = M) (HK : M <= kMaxLeafCapacity) (HV : (vs | M)).

(** One leaf holds all bytes, or a new leaf holds the last of them; a leaf that holds
    inserted bytes is cached, [base] being the position of the first byte. *)
Inductive leaf_result (h : heap) (a : Z) (n : CFStorageNode) (base : Z) (l' : list cell) : heap -> CFStorage -> Z -> Prop :=
| one_leaf (n1 : CFStorageNode) (k : Z) :
    similar n n1 -> leaf_of M vs n1 l' -> cachedRange n1 = conv s base k -> 0 <= k <= numBytes n1 -> (vs | k) ->
    leaf_result h a n base l' (put h a n1) (set_cache a s) 0
| two_leaves (n1 n2 : CFStorageNode) (l1 l2 : list cell) (c k : Z) :
    similar n n1 -> refCount n2 = 1 -> leaf_of M vs n1 l1 -> leaf_of M vs n2 l2 -> l1 <> [] -> l2 <> [] -> l' = l1 ++ l2 -> (vs | k) ->
    (c = a /\ cachedRange n1 = conv s base k /\ 0 <= k <= numBytes n1 \/
     c = h_next h /\ cachedRange n2 = conv s (base + len l1) k /\ 0 <= k <= numBytes n2) ->
    leaf_result h a n base l' (put (alloc h n2) a n1) (set_cache c s) (h_next h).

Lemma nonempty_len {A} (l : list A) : 0 < len l -> l <> [].
Proof. by destruct l. Qed.

Lemma leaf_of_block (n : CFStorageNode) (c k : Z) (mem : option (list cell)) (r : CFRange) :
  info n = Leaf c mem r -> numBytes n = k -> block_ok c mem k -> 0 <= k <= M -> (vs | k) -> leaf_of M vs n (leaf_cells mem k).
Proof. intros Hi <- B H V. by exists c, mem, r. Qed.

Section Leaf.

Context (h : heap) (a c : Z) (mem : option (list cell)) (r : CFRange) (n : CFStorageNode) (l : list cell).
Context (Ha : h_nodes h !! a = Some n) (Hi : info n = Leaf c mem r) (B : block_ok c mem (numBytes n)) (Hn : 0 <= numBytes n <= M) (Vn : (vs | numBytes n))
  (El : l = leaf_cells mem (numBytes n)).
Context (b size base : Z) (Hb : 0 <= b <= numBytes n) (Hs : 0 < size <= M) (Vb : (vs | b)) (Vs : (vs | size)).
Context (Na : a <> 0) (Nx : a <> h_next h) (N0 : h_next h <> 0).

Lemma block_prefix : block_ok c mem b.
Proof. destruct mem; cbn in *; lia. Qed.

Lemma leaf_len : len l = numBytes n.
Proof. rewrite El. by apply (leaf_cells_length c); [|lia]. Qed.

(** Room for all bytes in the leaf. *)
Lemma insert_fits : size + numBytes n <= M -> exists h' s' l',
  CFStorageInsertLeafUnfrozen h s a b size (base + b) = Ok (h', s', a, 0) /\ inserted l b size l' /\ leaf_result h a n base l' h' s' 0.
Proof.
  intros Hfit. pose proof leaf_len as Ll. unfold CFStorageInsertLeafUnfrozen. rewrite (load_Ok h a n Ha). cbn [mbind result_bind]. rewrite Hi, HM.
  destruct (Z.ltb_spec M (size + numBytes n)); [lia|]. destruct mem as [m|] eqn:Em.
  - destruct (alloc_block s h a c (numBytes n + size) (numBytes n) (Some m) r n ltac:(lia) Ha Hi B ltac:(lia) ltac:(lia)) as (c1 & m1 & -> & L1 & C1 & T1).
    cbn [mbind result_bind]. rewrite load_put. cbn [mbind result_bind memory_of info set_info].
    erewrite copy_leaf; [|apply lookup_insert_eq|done|apply memmove_Ok; lia]. cbn [mbind result_bind]. rewrite load_put. cbn [mbind result_bind].
    rewrite !put_put. erewrite set_cache_leaf; [|done|apply lookup_insert_eq|done]. cbn [mbind result_bind]. rewrite put_put. cbn [numBytes set_numBytes].
    eexists _, _, _. split; [replace (base + b - b) with base by lia; reflexivity|].
    set (m2 := take (Z.to_nat (b + size)) m1 ++ take (Z.to_nat (numBytes n - b)) (drop (Z.to_nat b) m1) ++ drop (Z.to_nat (b + size + (numBytes n - b))) m1).
    assert (L2 : len m2 = len m1) by (unfold m2; rewrite !length_app, !length_take, !length_drop; lia).
    split; [|eapply (one_leaf h a n base (leaf_cells (Some m2) (numBytes n + size)) _ (numBytes n + size));
             [done|eapply leaf_of_block; [done|done| |lia|by apply Z.divide_add_r]|done|cbn; lia|by apply Z.divide_add_r]].
    + exists (take (Z.to_nat size) (drop (Z.to_nat b) m1)). split; [rewrite length_take, length_drop; lia|]. cbn [leaf_cells].
      assert (E1 : take (Z.to_nat b) l = take (Z.to_nat b) m1) by (rewrite El, <- T1, take_take; f_equal; lia).
      assert (E2 : drop (Z.to_nat b) l = take (Z.to_nat (numBytes n - b)) (drop (Z.to_nat b) m1)).
      { rewrite El, <- T1, skipn_firstn_comm. f_equal. lia. }
      rewrite E1, E2. unfold m2. rewrite app_assoc, app_assoc, take_app_exact; [|rewrite !length_app, !length_take, !length_drop; lia].
      f_equal. rewrite <- take_plus. f_equal. lia.
    + cbn. lia.
  - cbn [mbind result_bind]. rewrite (load_Ok h a n Ha). cbn [mbind result_bind].
    erewrite set_cache_leaf; [|done|apply lookup_insert_eq|cbn; exact Hi]. cbn [mbind result_bind]. rewrite put_put. cbn [numBytes set_numBytes].
    eexists _, _, _. split; [replace (base + b - b) with base by lia; reflexivity|].
    split; [|eapply (one_leaf h a n base (leaf_cells None (numBytes n + size)) _ (numBytes n + size));
             [done|eapply leaf_of_block; [done|done|done|lia|by apply Z.divide_add_r]|done|cbn; lia|by apply Z.divide_add_r]].
    exists (replicate (Z.to_nat size) None). split; [rewrite length_replicate; lia|]. rewrite El. cbn [leaf_cells].
    rewrite take_replicate, drop_replicate, <- !replicate_add. f_equal. lia.
Qed.

(** A new leaf behind the old one. *)
Lemma insert_behind : M < size + numBytes n -> b = numBytes n -> exists h' s' l',
  CFStorageInsertLeafUnfrozen h s a b size (base + b) = Ok (h', s', a, h_next h) /\ inserted l b size l' /\ leaf_result h a n base l' h' s' (h_next h).
Proof.
  intros Hov Eb. pose proof leaf_len as Ll. unfold CFStorageInsertLeafUnfrozen. rewrite (load_Ok h a n Ha). cbn [mbind result_bind]. rewrite Hi, HM.
  destruct (Z.ltb_spec M (size + numBytes n)); [|lia]. destruct (Z.eqb_spec b (numBytes n)); [|done]. rewrite create_alloc.
  erewrite set_cache_leaf; [|done|apply lookup_alloc|done]. cbn [mbind result_bind]. rewrite put_alloc. cbn [numBytes new_node].
  set (n2 := set_info _ _).
  assert (E : alloc h n2 = put (alloc h n2) a n) by (symmetry; apply put_id; cbn; by rewrite lookup_insert_ne).
  rewrite E. eexists _, _, _. split; [reflexivity|].
  assert (L2 : leaf_of M vs n2 (leaf_cells None size)) by (eapply leaf_of_block; [done|done|done|lia|done]).
  split; [|eapply (two_leaves _ _ _ _ _ n n2 l (leaf_cells None size) _ size); [done|done| |exact L2| | |reflexivity|done|right]].
  - exists (leaf_cells None size). cbn [leaf_cells]. rewrite length_replicate. split; [lia|].
    rewrite take_ge, drop_ge, app_nil_r by lia. done.
  - rewrite El. by eapply leaf_of_block.
  - apply nonempty_len. lia.
  - apply nonempty_len. cbn [leaf_cells]. rewrite length_replicate. lia.
  - split_and!; [done| |cbn; lia..]. unfold n2, cachedRange. cbn [info set_info]. f_equal. lia.
Qed.

(** The new leaf takes the old bytes, the old leaf the new ones. *)
Lemma insert_before : M < size + numBytes n -> b = 0 -> exists h' s' l',
  CFStorageInsertLeafUnfrozen h s a b size (base + b) = Ok (h', s', a, h_next h) /\ inserted l b size l' /\ leaf_result h a n base l' h' s' (h_next h).
Proof.
  intros Hov Eb. pose proof leaf_len as Ll. unfold CFStorageInsertLeafUnfrozen. rewrite (load_Ok h a n Ha). cbn [mbind result_bind]. rewrite Hi, HM.
  destruct (Z.ltb_spec M (size + numBytes n)); [|lia]. destruct (Z.eqb_spec b (numBytes n)); [lia|]. destruct (Z.eqb_spec b 0); [|lia].
  rewrite create_alloc, load_alloc. cbn [mbind result_bind]. rewrite put_alloc.
  erewrite set_cache_leaf; [|done|apply lookup_insert_eq|done]. cbn [mbind result_bind]. rewrite put_put. cbn [numBytes set_info set_numBytes].
  match goal with |- context [put (alloc h ?y) a ?x] => set (n1 := x); set (n2 := y) end.
  assert (L1 : leaf_of M vs n1 (leaf_cells None size)) by (eapply leaf_of_block; [done|done|done|lia|done]).
  assert (L2 : leaf_of M vs n2 l) by (rewrite El; by eapply leaf_of_block).
  eexists _, _, _. split; [reflexivity|].
  split; [|eapply (two_leaves _ _ _ _ _ n1 n2 (leaf_cells None size) l _ size); [done|done|done|done| | |reflexivity|done|left]].
  - exists (leaf_cells None size). cbn [leaf_cells]. rewrite length_replicate, Eb. split; [lia|]. done.
  - apply nonempty_len. cbn [leaf_cells]. rewrite length_replicate. lia.
  - apply nonempty_len. lia.
  - split_and!; [done| |cbn; lia..]. unfold n1, cachedRange. cbn [info set_info]. f_equal. lia.
Qed.

(** The bytes behind the gap move to a new leaf, behind [d2] bytes of the gap; the old
    leaf gets a block of [cap1] bytes. *)
Lemma split_blocks (bytes2 d2 cap1 : Z) :
  0 <= d2 -> bytes2 = d2 + (numBytes n - b) -> bytes2 <= M -> b < numBytes n -> b <= cap1 <= M -> 0 < cap1 -> (vs | bytes2) ->
  exists c1 mem1 n2 g2, match mem with
      | Some m => h1 ← CFStorageAllocLeafNodeMemory s (alloc h (new_node s true bytes2)) (h_next h) bytes2 false;
                  h1 ← copy_to_leaf h1 (h_next h) d2 m b (numBytes n - b); CFStorageAllocLeafNodeMemory s h1 a cap1 false
      | None => Ok (alloc h (new_node s true bytes2)) end = Ok (put (alloc h n2) a (set_info (Leaf c1 mem1 r) n)) /\
    block_ok c1 mem1 cap1 /\ leaf_cells mem1 b = leaf_cells mem b /\ refCount n2 = 1 /\ len g2 = d2 /\ leaf_of M vs n2 (g2 ++ drop (Z.to_nat b) l).
Proof.
  intros Hd2 Eb2 Hb2 Hlt Hcap Hpos V2. pose proof block_prefix as Bp. destruct mem as [m|] eqn:Em.
  - cbn in B. destruct (filled_leaf s h bytes2 d2 b (numBytes n - b) m ltac:(lia) ltac:(lia) ltac:(lia) ltac:(lia) ltac:(lia) ltac:(lia) ltac:(lia))
      as (c2 & m2 & E2 & L2 & C2 & T2).
    apply bind_Ok in E2 as (h2 & -> & E2). cbn [mbind result_bind]. rewrite E2. cbn [mbind result_bind].
    destruct (alloc_block s (alloc h (mkNode bytes2 1 (alwaysFrozen s) (Leaf c2 (Some m2) (CFRangeMake 0 0)))) a c cap1 b (Some m) r n)
      as (c1 & m1 & -> & L1 & C1 & T1); [lia|by rewrite lookup_alloc_ne|done|exact Bp|lia..|].
    eexists c1, (Some m1), _, (take (Z.to_nat d2) m2). split_and!; [reflexivity|cbn; lia|done|done|rewrite length_take; lia|].
    replace (take (Z.to_nat d2) m2 ++ drop (Z.to_nat b) l) with (leaf_cells (Some m2) bytes2); [eapply leaf_of_block; [done|done|cbn; lia|lia|done]|].
    cbn [leaf_cells]. replace (Z.to_nat bytes2) with (Z.to_nat d2 + Z.to_nat (numBytes n - b))%nat by lia. rewrite take_plus, T2, El.
    cbn [leaf_cells]. rewrite skipn_firstn_comm. do 2 f_equal. lia.
  - eexists c, None, _, (replicate (Z.to_nat d2) None). split_and!; [|done|done| | |].
    + rewrite <- Hi. replace (set_info (info n) n) with n by (by destruct n). rewrite put_id by (by rewrite lookup_alloc_ne). reflexivity.
    + done.
    + rewrite length_replicate. lia.
    + replace (replicate (Z.to_nat d2) None ++ drop (Z.to_nat b) l) with (leaf_cells None bytes2);
        [eapply leaf_of_block; [done|done|done|lia|done]|].
      rewrite El. cbn [leaf_cells]. rewrite drop_replicate, <- replicate_add. f_equal. lia.
Qed.

(** The bytes of the two leaves. *)
Lemma split_inserted (c1 cap1 d2 : Z) (mem1 : option (list cell)) (g2 : list cell) :
  block_ok c1 mem1 cap1 -> 0 <= b <= cap1 -> leaf_cells mem1 b = leaf_cells mem b -> len g2 = d2 -> cap1 - b + d2 = size ->
  inserted l b size (leaf_cells mem1 cap1 ++ g2 ++ drop (Z.to_nat b) l).
Proof.
  intros B1 Hc T1 L2 E. pose proof (leaf_cells_length c1 mem1 cap1 B1 ltac:(lia)) as L1.
  exists (drop (Z.to_nat b) (leaf_cells mem1 cap1) ++ g2). split; [rewrite length_app, length_drop; lia|].
  rewrite <- (take_drop (Z.to_nat b) (leaf_cells mem1 cap1)) at 1. rewrite <- !app_assoc. f_equal.
  rewrite <- leaf_cells_take, T1, El by lia. apply leaf_cells_take. lia.
Qed.

(** The gap ends in the old leaf. *)
Lemma insert_within : M < size + numBytes n -> b <> numBytes n -> b <> 0 -> b + size <= M -> exists h' s' l',
  CFStorageInsertLeafUnfrozen h s a b size (base + b) = Ok (h', s', a, h_next h) /\ inserted l b size l' /\ leaf_result h a n base l' h' s' (h_next h).
Proof.
  intros Hov N1 N2 Hw. pose proof leaf_len as Ll. unfold CFStorageInsertLeafUnfrozen. rewrite (load_Ok h a n Ha). cbn [mbind result_bind]. rewrite Hi, HM.
  destruct (Z.ltb_spec M (size + numBytes n)); [|lia]. destruct (Z.eqb_spec b (numBytes n)) as [|_]; [done|]. destruct (Z.eqb_spec b 0) as [|_]; [done|].
  destruct (Z.leb_spec (b + size) M); [|lia]. rewrite create_alloc. assert (V3 : (vs | b + size)) by (by apply Z.divide_add_r).
  destruct (split_blocks (numBytes n - b) 0 (b + size)) as (c1 & mem1 & n2 & g2 & -> & B1 & T1 & R2 & G2 & L2); [lia..|by apply Z.divide_sub_r|].
  cbn [mbind result_bind]. rewrite load_put. cbn [mbind result_bind]. rewrite put_put.
  erewrite set_cache_leaf; [|done|apply lookup_insert_eq|done]. cbn [mbind result_bind]. rewrite put_put. cbn [numBytes set_info set_numBytes].
  match goal with |- context [put (alloc h n2) a ?x] => set (n1 := x) end.
  assert (L1 : leaf_of M vs n1 (leaf_cells mem1 (b + size))) by (eapply leaf_of_block; [done|done|done|lia|done]).
  assert (Len1 : len (leaf_cells mem1 (b + size)) = b + size) by (by apply (leaf_cells_length c1); [|lia]).
  eexists _, _, (leaf_cells mem1 (b + size) ++ g2 ++ drop (Z.to_nat b) l). split; [reflexivity|].
  split; [apply (split_inserted c1 _ 0 mem1 g2); [done|lia|done|done|lia]|].
  eapply (two_leaves _ _ _ _ _ n1 n2 _ _ _ (b + size)); [done|done|exact L1|exact L2| | |reflexivity|done|left].
  - apply nonempty_len. lia.
  - apply nonempty_len. rewrite length_app, length_drop. lia.
  - split_and!; [done| |cbn; lia..]. unfold n1, cachedRange. cbn [info set_info]. f_equal. lia.
Qed.

(** The gap goes on in the new leaf; the cache is set to the old length. *)
Lemma insert_across : M < size + numBytes n -> b <> numBytes n -> b <> 0 -> M < b + size -> exists h' s' l',
  CFStorageInsertLeafUnfrozen h s a b size (base + b) = Ok (h', s', a, h_next h) /\ inserted l b size l' /\ leaf_result h a n base l' h' s' (h_next h).
Proof.
  intros Hov N1 N2 Hw. pose proof leaf_len as Ll. unfold CFStorageInsertLeafUnfrozen. rewrite (load_Ok h a n Ha). cbn [mbind result_bind]. rewrite Hi, HM.
  destruct (Z.ltb_spec M (size + numBytes n)); [|lia]. destruct (Z.eqb_spec b (numBytes n)) as [|_]; [done|]. destruct (Z.eqb_spec b 0) as [|_]; [done|].
  destruct (Z.leb_spec (b + size) M); [lia|]. rewrite create_alloc.
  destruct (split_blocks (numBytes n + size - M) (b + size - M) M) as (c1 & mem1 & n2 & g2 & -> & B1 & T1 & R2 & G2 & L2);
    [lia..|by apply Z.divide_sub_r; [apply Z.divide_add_r|]|].
  cbn [mbind result_bind]. erewrite set_cache_leaf; [|done|apply lookup_insert_eq|done]. cbn [mbind result_bind]. rewrite put_put, load_put.
  cbn [mbind result_bind]. rewrite put_put. cbn [numBytes set_info set_numBytes].
  match goal with |- context [put (alloc h n2) a ?x] => set (n1 := x) end.
  assert (L1 : leaf_of M vs n1 (leaf_cells mem1 M)) by (eapply leaf_of_block; [done|unfold n1; cbn; exact HM|done|lia|done]).
  assert (Len1 : len (leaf_cells mem1 M) = M) by (by apply (leaf_cells_length c1); [|lia]).
  eexists _, _, (leaf_cells mem1 M ++ g2 ++ drop (Z.to_nat b) l). split; [reflexivity|].
  split; [apply (split_inserted c1 _ (b + size - M) mem1 g2); [done|lia|done|done|lia]|].
  eapply (two_leaves _ _ _ _ _ n1 n2 _ _ _ (numBytes n)); [done|done|exact L1|exact L2| | |reflexivity|done|left].
  - apply nonempty_len. lia.
  - apply nonempty_len. rewrite length_app, length_drop. lia.
  - split_and!; [done| |lia|cbn; rewrite HM; lia]. unfold n1, cachedRange. cbn [info set_info]. f_equal. lia.
Qed.

Lemma insert_leaf : exists h' s' sib l',
  CFStorageInsertLeafUnfrozen h s a b size (base + b) = Ok (h', s', a, sib) /\ inserted l b size l' /\ leaf_result h a n base l' h' s' sib.
Proof.
  destruct (Z.le_gt_cases (size + numBytes n) M) as [L|L]; [destruct (insert_fits L) as (h' & s' & l' & H); by exists h', s', 0, l'|].
  assert (exists h' s' l', CFStorageInsertLeafUnfrozen h s a b size (base + b) = Ok (h', s', a, h_next h) /\ inserted l b size l' /\
            leaf_result h a n base l' h' s' (h_next h)) as (h' & s' & l' & H); [|by exists h', s', (h_next h), l'].
  destruct (decide (b = numBytes n)); [by apply insert_behind; [lia|]|]. destruct (decide (b = 0)); [by apply insert_before; [lia|]|].
  destruct (Z.le_gt_cases (b + size) M); [apply insert_within; [lia|done..]|apply insert_across; [lia|done|done|lia]].
Qed.

End Leaf.

End Insertion.

End StorageLeaf.
