(* ===== verification/StorageFrozen.v ===== *)
(** * Insertion into a leaf that may be shared

    The old leaf is left alone: the bytes go to one or two new leaves, or the old leaf is
    kept beside a new one when the position is at its end or its start. *)

From stdpp Require Import base list numbers option gmap.
From Stdlib Require Import ZArith Lia.
From S2P Require Import Prelude Storage StorageHeap StorageTree StorageLeaf.
Import Storage StorageHeap StorageTree StorageLeaf.

Module StorageFrozen.

(** [x] written over [m] at [d]. *)
Definition splice {A} (m : list A) (d : nat) (x : list A) : list A := take d m ++ x ++ drop (d + length x) m.

Lemma splice_block_length {A} (m x : list A) (d : nat) : (d + length x <= length m)%nat -> length (splice m d x) = length m.
Proof. intros H. unfold splice. rewrite !length_app, length_take, length_drop. lia. Qed.

Lemma splice_take {A} (m x : list A) (d : nat) : (d + length x <= length m)%nat -> take (d + length x) (splice m d x) = take d m ++ x.
Proof. intros H. unfold splice. rewrite app_assoc. apply take_app_exact. rewrite length_app, length_take. lia. Qed.

Lemma splice_two {A} (m x y : list A) (d : nat) :
  (length x <= d)%nat -> (d + length y <= length m)%nat ->
  take (d + length y) (splice (splice m 0 x) d y) = x ++ take (d - length x) (drop (length x) m) ++ y.
Proof.
  intros Hx Hd. rewrite splice_take by (rewrite splice_block_length; lia). rewrite (app_assoc x). f_equal.
  unfold splice. change (take 0 m ++ x ++ drop (0 + length x) m) with (x ++ drop (length x) m).
  by rewrite take_app, (take_ge x) by lia.
Qed.

Lemma memmove_cells (dst src : list cell) (d so k : Z) :
  0 <= k -> 0 <= d -> d + k <= len dst -> 0 <= so -> so + k <= len src ->
  memmove dst d src so k = Ok (splice dst (Z.to_nat d) (take (Z.to_nat k) (drop (Z.to_nat so) src))).
Proof.
  intros. rewrite memmove_Ok by lia. unfold splice. rewrite length_take, length_drop. do 4 f_equal. lia.
Qed.

Section Insertion.

Context (M vs : Z) (s : CFStorage) (HM : maxLeafCapacity s = M) (HK : M <= kMaxLeafCapacity) (HV : (vs | M)).
Context (h : heap) (a c : Z) (mem : option (list cell)) (r : CFRange) (n : CFStorageNode) (l : list cell).
Context (Ha : h_nodes h !! a = Some n) (Hi : info n = Leaf c mem r) (B : block_ok c mem (numBytes n)) (Hn : 0 < numBytes n <= M) (Vn : (vs | numBytes n))
  (El : l = leaf_cells mem (numBytes n)) (Al : allocated n).
Context (b size abs : Z) (Hb : 0 <= b <= numBytes n) (Hs : 0 < size <= M) (Vs : (vs | size)).
Context (N0 : 0 < h_next h) (Hr : 0 < refCount n).

(** The outcomes: one new leaf; a new leaf behind or before the old one; two new leaves. *)
Inductive frozen_result (l' : list cell) : heap -> Z -> Z -> Prop :=
| fr_one (n1 : CFStorageNode) : refCount n1 = 1 -> leaf_of M vs n1 l' -> frozen_result l' (alloc h n1) (h_next h) 0
| fr_behind (n2 : CFStorageNode) (l2 : list cell) :
    refCount n2 = 1 -> leaf_of M vs n2 l2 -> l2 <> [] -> l' = l ++ l2 -> frozen_result l' (alloc h n2) a (h_next h)
| fr_before (n1 : CFStorageNode) (l1 : list cell) :
    refCount n1 = 1 -> leaf_of M vs n1 l1 -> l1 <> [] -> l' = l1 ++ l ->
    frozen_result l' (alloc (put h a (set_refCount (refCount n + 1) n)) n1) (h_next h) a
| fr_two (n1 n2 : CFStorageNode) (l1 l2 : list cell) :
    refCount n1 = 1 -> refCount n2 = 1 -> leaf_of M vs n1 l1 -> leaf_of M vs n2 l2 -> l1 <> [] -> l2 <> [] -> l' = l1 ++ l2 ->
    frozen_result l' (alloc (alloc h n1) n2) (h_next h) (h_next h + 1).

Lemma frozen_len : len l = numBytes n.
Proof. rewrite El. by apply (leaf_cells_length c); [|lia]. Qed.

Lemma old_block : exists m, mem = Some m /\ numBytes n <= len m /\ l = take (Z.to_nat (numBytes n)) m.
Proof. unfold allocated in Al. rewrite Hi in Al. destruct mem as [m|]; [|done]. exists m. cbn in B. split_and!; [done|lia|done]. Qed.

(** A block for a new leaf of [k] bytes. *)
Lemma new_block (g : heap) (k : Z) : 0 < k <= M -> exists c' m', k <= len m' /\ (c' = 0 \/ c' = len m') /\
  CFStorageAllocLeafNodeMemory s (alloc g (new_node s true k)) (h_next g) k false =
    Ok (alloc g (mkNode k 1 (alwaysFrozen s) (Leaf c' (Some m') (CFRangeMake 0 0)))).
Proof.
  intros Hk. destruct (alloc_block s (alloc g (new_node s true k)) (h_next g) 0 k 0 None (CFRangeMake 0 0) (new_node s true k) ltac:(lia)
              (lookup_alloc _ _) eq_refl eq_refl ltac:(lia) ltac:(lia)) as (c' & m' & -> & L & C & _).
  exists c', m'. split_and!; [done..|]. by rewrite put_alloc.
Qed.

(** A copy into a new leaf. *)
Lemma new_copy (g : heap) (k c' d so j : Z) (m' src : list cell) (f : bool) (rc : CFRange) :
  0 <= j -> 0 <= d -> d + j <= len m' -> 0 <= so -> so + j <= len src ->
  copy_to_leaf (alloc g (mkNode k 1 f (Leaf c' (Some m') rc))) (h_next g) d src so j =
    Ok (alloc g (mkNode k 1 f (Leaf c' (Some (splice m' (Z.to_nat d) (take (Z.to_nat j) (drop (Z.to_nat so) src)))) rc))).
Proof. intros. erewrite copy_leaf; [|apply lookup_alloc|done|by apply memmove_cells]. by rewrite put_alloc. Qed.

Lemma cache_new (g : heap) (nd : CFStorageNode) (c' off : Z) (m' : option (list cell)) (rc : CFRange) :
  0 < h_next g -> info nd = Leaf c' m' rc ->
  CFStorageSetCache (alloc g nd) s (h_next g) off = Ok (alloc g (set_info (Leaf c' m' (conv s off (numBytes nd))) nd), set_cache (h_next g) s).
Proof. intros Ng E. erewrite set_cache_leaf; [|lia|apply lookup_alloc|exact E]. by rewrite put_alloc. Qed.

Lemma frozen_fits : size + numBytes n <= M -> exists h' l',
  CFStorageInsertLeafFrozen h s a b size abs = Ok (h', set_cache (h_next h) s, h_next h, 0) /\ inserted l b size l' /\ frozen_result l' h' (h_next h) 0.
Proof.
  intros Hfit. pose proof frozen_len as Ll. destruct old_block as (m & -> & Lm & Elm).
  unfold CFStorageInsertLeafFrozen. rewrite (load_Ok h a n Ha). unfold leaf_memory. cbn [mbind result_bind]. rewrite Hi. cbn [mbind result_bind].
  rewrite HM. destruct (Z.leb_spec (size + numBytes n) M); [|lia]. rewrite create_alloc.
  destruct (new_block h (size + numBytes n) ltac:(lia)) as (c' & m' & L' & C' & ->). cbn [mbind result_bind].
  rewrite new_copy by lia. cbn [mbind result_bind]. rewrite drop_0.
  set (x := take (Z.to_nat b) m). assert (Lx : len x = b) by (unfold x; rewrite length_take; lia).
  assert (Ls : length (splice m' (Z.to_nat 0) x) = length m') by (apply splice_block_length; cbn; lia).
  rewrite new_copy by lia. cbn [mbind result_bind]. erewrite cache_new; [|done|reflexivity]. cbn [mbind result_bind].
  set (y := take (Z.to_nat (numBytes n - b)) (drop (Z.to_nat b) m)).
  assert (Ly : len y = numBytes n - b) by (unfold y; rewrite length_take, length_drop; lia).
  set (z := splice (splice m' (Z.to_nat 0) x) (Z.to_nat (b + size)) y).
  assert (Lz : length z = length m') by (unfold z; rewrite splice_block_length; lia).
  eexists _, (leaf_cells (Some z) (size + numBytes n)). split; [reflexivity|]. split.
  - exists (take (Z.to_nat (b + size) - length x) (drop (length x) m')). split; [rewrite length_take, length_drop; lia|]. cbn [leaf_cells].
    replace (Z.to_nat (size + numBytes n)) with (Z.to_nat (b + size) + length y)%nat by lia. unfold z.
    rewrite splice_two by lia. f_equal; [unfold x; rewrite Elm, take_take; f_equal; lia|]. f_equal. unfold y. rewrite Elm, skipn_firstn_comm. f_equal. lia.
  - apply fr_one; [done|]. eapply leaf_of_block; [done|done|cbn; lia|lia|by apply Z.divide_add_r].
Qed.

Lemma frozen_behind : M < size + numBytes n -> b = numBytes n -> exists h' l',
  CFStorageInsertLeafFrozen h s a b size abs = Ok (h', set_cache (h_next h) s, a, h_next h) /\ inserted l b size l' /\ frozen_result l' h' a (h_next h).
Proof.
  intros Hov Eb. pose proof frozen_len as Ll. unfold CFStorageInsertLeafFrozen. rewrite (load_Ok h a n Ha). unfold leaf_memory.
  cbn [mbind result_bind]. rewrite Hi. cbn [mbind result_bind]. rewrite HM. destruct (Z.leb_spec (size + numBytes n) M); [lia|].
  destruct (Z.eqb_spec b (numBytes n)); [|done]. rewrite create_alloc. erewrite cache_new; [|done|reflexivity]. cbn [mbind result_bind].
  eexists _, (l ++ leaf_cells None size). split; [reflexivity|]. split.
  - exists (leaf_cells None size). cbn [leaf_cells]. rewrite length_replicate. split; [lia|]. by rewrite take_ge, drop_ge, app_nil_r by lia.
  - apply (fr_behind _ _ (leaf_cells None size)); [done|eapply leaf_of_block; [done|done|done|lia|done]| |done].
    apply nonempty_len. cbn. rewrite length_replicate. lia.
Qed.

Lemma frozen_before : M < size + numBytes n -> b = 0 -> exists h' l',
  CFStorageInsertLeafFrozen h s a b size abs = Ok (h', set_cache (h_next h) s, h_next h, a) /\ inserted l b size l' /\ frozen_result l' h' (h_next h) a.
Proof.
  intros Hov Eb. pose proof frozen_len as Ll. unfold CFStorageInsertLeafFrozen. rewrite (load_Ok h a n Ha). unfold leaf_memory.
  cbn [mbind result_bind]. rewrite Hi. cbn [mbind result_bind]. rewrite HM. destruct (Z.leb_spec (size + numBytes n) M); [lia|].
  destruct (Z.eqb_spec b (numBytes n)); [lia|]. destruct (Z.eqb_spec b 0); [|done].
  unfold CFStorageRetainNode. rewrite (load_Ok h a n Ha). cbn [mbind result_bind]. destruct (Z.ltb_spec 0 (refCount n)); [|lia]. cbn [mbind result_bind].
  rewrite create_alloc. erewrite cache_new; [|done|reflexivity]. cbn [mbind result_bind].
  eexists _, (leaf_cells None size ++ l). split; [reflexivity|]. split.
  - exists (leaf_cells None size). cbn [leaf_cells]. rewrite length_replicate. split; [lia|]. by rewrite Eb.
  - apply (fr_before _ _ (leaf_cells None size)); [done|eapply leaf_of_block; [done|done|done|lia|done]| |done].
    apply nonempty_len. cbn. rewrite length_replicate. lia.
Qed.

(** The same below another new node. *)
Lemma put_under (g : heap) (x x' y : CFStorageNode) : put (alloc (alloc g x) y) (h_next g) x' = alloc (alloc g x') y.
Proof. unfold put, alloc. cbn. rewrite (insert_insert_ne _ (h_next g) (h_next g + 1)) by lia. by rewrite insert_insert_eq. Qed.

Lemma lookup_under (g : heap) (x y : CFStorageNode) : h_nodes (alloc (alloc g x) y) !! h_next g = Some x.
Proof. rewrite lookup_alloc_ne by (cbn; lia). apply lookup_alloc. Qed.

Lemma copy_under (g : heap) (k c' d so j : Z) (m' src : list cell) (f : bool) (rc : CFRange) (y : CFStorageNode) :
  0 <= j -> 0 <= d -> d + j <= len m' -> 0 <= so -> so + j <= len src ->
  copy_to_leaf (alloc (alloc g (mkNode k 1 f (Leaf c' (Some m') rc))) y) (h_next g) d src so j =
    Ok (alloc (alloc g (mkNode k 1 f (Leaf c' (Some (splice m' (Z.to_nat d) (take (Z.to_nat j) (drop (Z.to_nat so) src)))) rc))) y).
Proof. intros. erewrite copy_leaf; [|apply lookup_under|done|by apply memmove_cells]. by rewrite put_under. Qed.

Lemma intersection_of (a0 k0 a1 k1 : Z) :
  intersectionRange (CFRangeMake a0 k0) (CFRangeMake a1 k1) =
    if Z.min (a0 + k0) (a1 + k1) <=? Z.max a0 a1 then CFRangeMake 0 0 else CFRangeMake (Z.max a0 a1) (Z.min (a0 + k0) (a1 + k1) - Z.max a0 a1).
Proof. done. Qed.

Lemma copy_overlap_some (g : heap) (dst o k sz sh : Z) (m : list cell) :
  0 < k -> copy_overlap g dst (Some m) (CFRangeMake o k) sz sh = copy_to_leaf g dst (o - sh) m (o - sz) k.
Proof. intros H. unfold copy_overlap. cbn [rlength location]. by destruct (Z.ltb_spec 0 k); [|lia]. Qed.

Lemma copy_overlap_none (g : heap) (dst o sz sh : Z) (m : option (list cell)) : copy_overlap g dst m (CFRangeMake o 0) sz sh = Ok g.
Proof. done. Qed.

(** Two new leaves with blocks. *)
Definition two (c1 c2 : Z) (m1 m2 : list cell) : heap :=
  alloc (alloc h (mkNode M 1 (alwaysFrozen s) (Leaf c1 (Some m1) (CFRangeMake 0 0))))
    (mkNode (size + numBytes n - M) 1 (alwaysFrozen s) (Leaf c2 (Some m2) (CFRangeMake 0 0))).

(** The insertion up to the copies of the bytes behind the gap. *)
Lemma frozen_middle : M < size + numBytes n -> b <> numBytes n -> b <> 0 -> exists m c1 c2 m1 m2,
  mem = Some m /\ numBytes n <= len m /\ l = take (Z.to_nat (numBytes n)) m /\
  M <= len m1 /\ (c1 = 0 \/ c1 = len m1) /\ size + numBytes n - M <= len m2 /\ (c2 = 0 \/ c2 = len m2) /\
  CFStorageInsertLeafFrozen h s a b size abs =
    (h1 ← copy_overlap (two c1 c2 (splice m1 0 (take (Z.to_nat b) m)) m2) (h_next h) (Some m)
            (intersectionRange (CFRangeMake 0 M) (CFRangeMake (b + size) (numBytes n - b))) size 0;
     h1 ← copy_overlap h1 (h_next h + 1) (Some m)
            (intersectionRange (CFRangeMake M (size + numBytes n - M)) (CFRangeMake (b + size) (numBytes n - b))) size M;
     '(h1, s1) ← CFStorageSetCache h1 s (h_next h) (abs - b);
     Ok (h1, s1, h_next h, h_next h + 1)).
Proof.
  intros Hov N1 N2. destruct old_block as (m & -> & Lm & Elm).
  unfold CFStorageInsertLeafFrozen. rewrite (load_Ok h a n Ha). unfold leaf_memory. cbn [mbind result_bind]. rewrite Hi. cbn [mbind result_bind].
  rewrite HM. destruct (Z.leb_spec (size + numBytes n) M); [lia|]. destruct (Z.eqb_spec b (numBytes n)) as [|_]; [done|].
  destruct (Z.eqb_spec b 0) as [|_]; [done|]. rewrite !create_alloc.
  destruct (alloc_block s (alloc (alloc h (new_node s true M)) (new_node s true (size + numBytes n - M))) (h_next h) 0 M 0 None (CFRangeMake 0 0)
              (new_node s true M) ltac:(lia) (lookup_under _ _ _) eq_refl eq_refl ltac:(lia) ltac:(lia)) as (c1 & m1 & -> & L1 & C1 & _).
  cbn [mbind result_bind]. rewrite put_under.
  destruct (new_block (alloc h (mkNode M 1 (alwaysFrozen s) (Leaf c1 (Some m1) (CFRangeMake 0 0)))) (size + numBytes n - M) ltac:(lia)) as (c2 & m2 & L2 & C2 & E2).
  exists m, c1, c2, m1, m2. split_and!; [done..|].
  change (set_info (Leaf c1 (Some m1) (CFRangeMake 0 0)) (new_node s true M)) with (mkNode M 1 (alwaysFrozen s) (Leaf c1 (Some m1) (CFRangeMake 0 0))).
  change (h_next (alloc h (mkNode M 1 (alwaysFrozen s) (Leaf c1 (Some m1) (CFRangeMake 0 0))))) with (h_next h + 1) in E2.
  change (h_next (alloc h (new_node s true M))) with (h_next h + 1). rewrite E2. cbn [mbind result_bind].
  rewrite (copy_overlap_some _ _ 0 b) by lia. rewrite !Z.sub_0_r. rewrite copy_under by lia. cbn [mbind result_bind]. by rewrite drop_0.
Qed.

(** What the two leaves hold in the end. *)
Lemma frozen_two_result (c1 c2 : Z) (z1 z2 : list cell) (rc : CFRange) (l' : list cell) :
  M < size + numBytes n -> M <= len z1 -> (c1 = 0 \/ c1 = len z1) -> size + numBytes n - M <= len z2 -> (c2 = 0 \/ c2 = len z2) ->
  l' = take (Z.to_nat M) z1 ++ take (Z.to_nat (size + numBytes n - M)) z2 ->
  frozen_result l' (alloc (alloc h (mkNode M 1 (alwaysFrozen s) (Leaf c1 (Some z1) rc)))
                      (mkNode (size + numBytes n - M) 1 (alwaysFrozen s) (Leaf c2 (Some z2) (CFRangeMake 0 0)))) (h_next h) (h_next h + 1).
Proof.
  intros Hov L1 C1 L2 C2 ->. eapply fr_two; [done|done| | | | |reflexivity].
  - eapply (leaf_of_block _ _ _ c1 M (Some z1)); [done|done|cbn; lia|lia|done].
  - eapply (leaf_of_block _ _ _ c2 _ (Some z2)); [done|done|cbn; lia|lia|apply Z.divide_sub_r; [by apply Z.divide_add_r|done]].
  - apply nonempty_len. rewrite length_take. lia.
  - apply nonempty_len. rewrite length_take. lia.
Qed.

(** The gap ends in the left leaf, which also gets the bytes that fit behind it. *)
Lemma frozen_within : M < size + numBytes n -> b <> numBytes n -> b <> 0 -> b + size < M -> exists h' l',
  CFStorageInsertLeafFrozen h s a b size abs = Ok (h', set_cache (h_next h) s, h_next h, h_next h + 1) /\ inserted l b size l' /\
  frozen_result l' h' (h_next h) (h_next h + 1).
Proof.
  intros Hov N1 N2 Hw. pose proof frozen_len as Ll. destruct (frozen_middle Hov N1 N2) as (m & c1 & c2 & m1 & m2 & _ & Lm & Elm & L1 & C1 & L2 & C2 & ->).
  set (x := take (Z.to_nat b) m). assert (Lx : len x = b) by (unfold x; rewrite length_take; lia).
  assert (Ls : length (splice m1 0 x) = length m1) by (apply splice_block_length; cbn; lia).
  rewrite !intersection_of. destruct (Z.leb_spec (Z.min (0 + M) (b + size + (numBytes n - b))) (Z.max 0 (b + size))); [lia|].
  destruct (Z.leb_spec (Z.min (M + (size + numBytes n - M)) (b + size + (numBytes n - b))) (Z.max M (b + size))); [lia|].
  replace (Z.min (0 + M) (b + size + (numBytes n - b))) with M by lia. replace (Z.max 0 (b + size)) with (b + size) by lia.
  replace (Z.min (M + (size + numBytes n - M)) (b + size + (numBytes n - b))) with (size + numBytes n) by lia. replace (Z.max M (b + size)) with M by lia.
  rewrite copy_overlap_some, Z.sub_0_r by lia. replace (b + size - size) with b by lia. unfold two. rewrite copy_under by lia. cbn [mbind result_bind].
  rewrite copy_overlap_some, Z.sub_diag by lia.
  match goal with |- context [copy_to_leaf (alloc ?g _) _ _ _ _ _] => change (h_next h + 1) with (h_next g) at 1 end.
  rewrite new_copy by lia. cbn [mbind result_bind].
  set (y := take (Z.to_nat (M - (b + size))) (drop (Z.to_nat b) m)). set (w := take (Z.to_nat (size + numBytes n - M)) (drop (Z.to_nat (M - size)) m)).
  assert (Ly : len y = M - (b + size)) by (unfold y; rewrite length_take, length_drop; lia).
  assert (Lw : len w = size + numBytes n - M) by (unfold w; rewrite length_take, length_drop; lia).
  erewrite set_cache_leaf; [|lia|apply lookup_under|reflexivity]. cbn [mbind result_bind]. rewrite put_under.
  eexists _, _. split; [reflexivity|]. split.
  2:{ apply frozen_two_result; [done|rewrite splice_block_length; lia..|by rewrite splice_block_length; cbn; lia|by rewrite splice_block_length; cbn; lia|reflexivity]. }
  exists (take (Z.to_nat (b + size) - length x) (drop (length x) m1)). split; [rewrite length_take, length_drop; lia|].
  replace (Z.to_nat M) with (Z.to_nat (b + size) + length y)%nat by lia. rewrite splice_two by lia.
  replace (Z.to_nat (size + numBytes n - M)) with (Z.to_nat 0 + length w)%nat by lia. rewrite splice_take by (cbn; lia).
  rewrite <- !app_assoc. f_equal; [unfold x; rewrite Elm, take_take; f_equal; lia|]. f_equal. change (take (Z.to_nat 0) m2) with (@nil cell). cbn [app].
  unfold y, w. rewrite Elm, skipn_firstn_comm. replace (Z.to_nat (M - size)) with (Z.to_nat b + Z.to_nat (M - (b + size)))%nat by lia.
  rewrite <- drop_drop, <- take_plus. f_equal. lia.
Qed.

(** The gap fills the left leaf and goes on in the right one. *)
Lemma frozen_across : M < size + numBytes n -> b <> numBytes n -> b <> 0 -> M <= b + size -> exists h' l',
  CFStorageInsertLeafFrozen h s a b size abs = Ok (h', set_cache (h_next h) s, h_next h, h_next h + 1) /\ inserted l b size l' /\
  frozen_result l' h' (h_next h) (h_next h + 1).
Proof.
  intros Hov N1 N2 Hw. pose proof frozen_len as Ll. destruct (frozen_middle Hov N1 N2) as (m & c1 & c2 & m1 & m2 & _ & Lm & Elm & L1 & C1 & L2 & C2 & ->).
  set (x := take (Z.to_nat b) m). assert (Lx : len x = b) by (unfold x; rewrite length_take; lia).
  rewrite !intersection_of. destruct (Z.leb_spec (Z.min (0 + M) (b + size + (numBytes n - b))) (Z.max 0 (b + size))); [|lia].
  destruct (Z.leb_spec (Z.min (M + (size + numBytes n - M)) (b + size + (numBytes n - b))) (Z.max M (b + size))); [lia|].
  replace (Z.min (M + (size + numBytes n - M)) (b + size + (numBytes n - b))) with (size + numBytes n) by lia. replace (Z.max M (b + size)) with (b + size) by lia.
  rewrite copy_overlap_none. cbn [mbind result_bind]. rewrite copy_overlap_some by lia. replace (b + size - size) with b by lia. unfold two.
  match goal with |- context [copy_to_leaf (alloc ?g _) _ _ _ _ _] => change (h_next h + 1) with (h_next g) at 1 end.
  rewrite new_copy by lia. cbn [mbind result_bind]. set (w := take (Z.to_nat (size + numBytes n - (b + size))) (drop (Z.to_nat b) m)).
  assert (Lw : len w = numBytes n - b) by (unfold w; rewrite length_take, length_drop; lia).
  erewrite set_cache_leaf; [|lia|apply lookup_under|reflexivity]. cbn [mbind result_bind]. rewrite put_under.
  eexists _, _. split; [reflexivity|]. split.
  2:{ apply frozen_two_result; [done|rewrite splice_block_length; lia..|by rewrite splice_block_length; lia|by rewrite splice_block_length; lia|reflexivity]. }
  exists (take (Z.to_nat (M - b)) (drop (length x) m1) ++ take (Z.to_nat (b + size - M)) m2).
  split; [rewrite length_app, !length_take, length_drop; lia|].
  replace (Z.to_nat (size + numBytes n - M)) with (Z.to_nat (b + size - M) + length w)%nat by lia. rewrite splice_take by lia.
  replace (Z.to_nat M) with (length x + Z.to_nat (M - b))%nat by lia. unfold splice. change (take 0 m1) with (@nil cell). cbn [app Nat.add].
  rewrite take_plus, take_app_length, drop_app_length, <- !app_assoc. f_equal; [unfold x; rewrite Elm, take_take; f_equal; lia|]. do 2 f_equal.
  unfold w. rewrite Elm, skipn_firstn_comm. f_equal. lia.
Qed.

Lemma insert_frozen_leaf : exists h' k child sib l',
  CFStorageInsertLeafFrozen h s a b size abs = Ok (h', set_cache k s, child, sib) /\ inserted l b size l' /\ frozen_result l' h' child sib.
Proof.
  destruct (Z.le_gt_cases (size + numBytes n) M) as [L|L]; [destruct (frozen_fits L) as (h' & l' & H); by eexists _, _, _, _, _|].
  destruct (decide (b = numBytes n)) as [Eb|Nb]; [destruct (frozen_behind ltac:(lia) Eb) as (h' & l' & H); by eexists _, _, _, _, _|].
  destruct (decide (b = 0)) as [E0|Nb0]; [destruct (frozen_before ltac:(lia) E0) as (h' & l' & H); by eexists _, _, _, _, _|].
  destruct (Z.lt_ge_cases (b + size) M) as [W|W].
  - destruct (frozen_within ltac:(lia) Nb Nb0 W) as (h' & l' & H); by eexists _, _, _, _, _.
  - destruct (frozen_across ltac:(lia) Nb Nb0 W) as (h' & l' & H); by eexists _, _, _, _, _.
Qed.

End Insertion.

End StorageFrozen.
