(* ===== verification/StorageInsert.v ===== *)
(** * Insertion down a tree

    [__CFStorageInsertFrozen] leaves every old node as it was and returns new nodes (or the
    old one beside a new one); [__CFStorageInsertUnfrozen] changes its node in place and
    keeps the context of the node. *)

From stdpp Require Import base list numbers option gmap.
From Stdlib Require Import ZArith Lia.
From S2P Require Import Prelude Storage StorageHeap StorageTree StorageLeaf StorageFrozen.
Import Storage StorageHeap StorageTree StorageLeaf StorageFrozen.

Module StorageInsert.

(** ** Pieces of the branch functions *)

Lemma retain_frozen_ok (R : gset Z) (ext : list Z) (h : heap) (c : Z) :
  heap_ok R ext h -> c <> 0 -> c ∈ ext ++ edges (h_nodes h) -> exists h',
    retain_frozen h c = Ok h' /\ heap_ok R (c :: ext) h' /\ mild (h_nodes h) (h_nodes h') /\ h_next h' = h_next h /\
    (forall n', h_nodes h' !! c = Some n' -> isFrozen n' = true).
Proof.
  intros H Nc Hc. destruct (ho_refs _ _ _ H c Hc) as [_ [n Hn]]. destruct (retain_ok ext h c n H Hn Hc) as [E H1].
  unfold retain_frozen. destruct (Z.eqb_spec c 0); [done|]. rewrite E. cbn [mbind result_bind]. unfold CFStorageFreezeNode. rewrite load_put.
  cbn [mbind result_bind]. eexists. split; [reflexivity|]. split_and!; [eapply freeze_ok; [exact H1|apply lookup_insert_eq]| |done|].
  - rewrite put_put. cbn. by apply (mild_put _ _ n).
  - cbn. rewrite lookup_insert_eq. by intros n' [= <-].
Qed.

Definition nonzero (c : Z) : list Z := if decide (c = 0) then [] else [c].

Lemma retain_frozen_opt (R : gset Z) (ext : list Z) (h : heap) (c : Z) :
  heap_ok R ext h -> (c <> 0 -> c ∈ ext ++ edges (h_nodes h)) -> exists h',
    retain_frozen h c = Ok h' /\ heap_ok R (nonzero c ++ ext) h' /\ mild (h_nodes h) (h_nodes h') /\ h_next h' = h_next h /\
    (forall n', c <> 0 -> h_nodes h' !! c = Some n' -> isFrozen n' = true).
Proof.
  intros H Hc. unfold nonzero. destruct (decide (c = 0)) as [->|N].
  - exists h. split_and!; [done|done|apply mild_refl|done|done].
  - destruct (retain_frozen_ok R ext h c H N (Hc N)) as (h' & E & H1 & Mi & Nx & F). exists h'. split_and!; [done..|]. intros n' _. apply F.
Qed.

Lemma mild_frozen (m m' : nodes) (x : Z) : mild m m' ->
  (forall n, m !! x = Some n -> isFrozen n = true) -> forall n', m' !! x = Some n' -> isFrozen n' = true.
Proof.
  intros H F n' Hn'. specialize (H x). rewrite Hn' in H. destruct (m !! x) as [n|]; [|done]. destruct H as (_ & _ & H). apply H. by apply F.
Qed.

Lemma get_children_ok (R : gset Z) (ext : list Z) (h : heap) (a : Z) (n : CFStorageNode) (cs : list Z) :
  heap_ok R ext h -> h_nodes h !! a = Some n -> branch_of n cs -> exists h' c0 c1 c2,
    CFStorageGetChildren h a = Ok (h', (c0, c1, c2)) /\ cs = c0 :: c1 :: nonzero c2 /\ c0 <> 0 /\ c1 <> 0 /\ heap_ok R (cs ++ ext) h' /\
    mild (h_nodes h) (h_nodes h') /\ h_next h' = h_next h /\ (forall c n', c ∈ cs -> h_nodes h' !! c = Some n' -> isFrozen n' = true).
Proof.
  intros H Hn B. pose proof (branch_slots n cs B) as Hs. destruct (branch_children n cs B) as (c0 & c1 & c2 & Ec & _ & N0 & N1 & Ecs).
  assert (Re : forall c, c ∈ cs -> c ∈ edges (h_nodes h)) by (intros c Hc; apply edges_elem; exists a, n; by rewrite Hs).
  unfold CFStorageGetChildren. rewrite (load_Ok h a n Hn). cbn [mbind result_bind]. rewrite Ec. cbn [mbind result_bind].
  destruct (retain_frozen_ok R ext h c0 H N0) as (h1 & -> & H1 & M1 & X1 & F1); [apply elem_of_app; right; apply Re; rewrite Ecs; left|].
  cbn [mbind result_bind]. pose proof (mild_edges _ _ M1) as E1.
  destruct (retain_frozen_ok R (c0 :: ext) h1 c1 H1 N1) as (h2 & -> & H2 & M2 & X2 & F2).
  { apply elem_of_app. right. rewrite E1. apply Re. rewrite Ecs. right. left. }
  cbn [mbind result_bind]. pose proof (mild_edges _ _ M2) as E2.
  destruct (retain_frozen_opt R (c1 :: c0 :: ext) h2 c2 H2) as (h3 & -> & H3 & M3 & X3 & F3).
  { intros N2. apply elem_of_app. right. rewrite E2, E1. apply Re. rewrite Ecs. do 2 right. rewrite decide_False by done. left. }
  cbn [mbind result_bind]. exists h3, c0, c1, c2. split_and!; [done|done|done|done| | |congruence|].
  - eapply heap_ok_proper; [|reflexivity|exact H3]. rewrite Ecs. fold (nonzero c2). cbn [app]. solve_Permutation.
  - by eapply mild_trans; [|eapply mild_trans].
  - intros c n' Hc. rewrite Ecs in Hc. fold (nonzero c2) in Hc. apply elem_of_cons in Hc as [->|Hc]; [|apply elem_of_cons in Hc as [->|Hc]].
    + apply (mild_frozen (h_nodes h1)); [by eapply mild_trans|done].
    + by apply (mild_frozen (h_nodes h2)).
    + unfold nonzero in Hc. destruct (decide (c2 = 0)); [by apply elem_of_nil in Hc|]. apply list_elem_of_singleton in Hc as ->. by apply F3.
Qed.

(** A new branch takes over references that the function holds. *)
Lemma fill_branch_ok (R : gset Z) (ext cs : list Z) (h : heap) (x : Z) (n n' : CFStorageNode) :
  heap_ok R (cs ++ ext) h -> h_nodes h !! x = Some n -> slots n = [] -> slots n' = cs -> refCount n' = refCount n -> isFrozen n' = isFrozen n ->
  (forall c nc, c ∈ cs -> h_nodes h !! c = Some nc -> isFrozen nc = true \/ (occ c cs + occ c (edges (h_nodes h)) < 2)%nat) ->
  heap_ok R ext (put h x n').
Proof.
  intros H Hn Hs Hs' Hr Hf Hc. apply (put_ok (cs ++ ext) _ _ _ n); [done..| |].
  - rewrite Hs, Hs', app_nil_r. apply Permutation_app_comm.
  - intros b nb Hb. cbn in *. pose proof (edges_update _ x n n' Hn) as E. rewrite Hs, Hs' in E. cbn [app] in E. rewrite E, occ_app.
    intros Ho. destruct (decide (b ∈ cs)) as [Hin|Nin].
    + destruct (decide (b = x)) as [->|Nx].
      * rewrite lookup_insert_eq in Hb. injection Hb as <-. rewrite Hf. destruct (Hc x n Hin Hn); [done|lia].
      * rewrite lookup_insert_ne in Hb by done. destruct (Hc b nb Hin Hb); [done|lia].
    + apply occ_zero in Nin. rewrite Nin in Ho. cbn in Ho. destruct (decide (b = x)) as [->|Nx].
      * rewrite lookup_insert_eq in Hb. injection Hb as <-. rewrite Hf. by apply (ho_frozen _ _ _ H x).
      * rewrite lookup_insert_ne in Hb by done. by apply (ho_frozen _ _ _ H b).
Qed.

Lemma set_child_ok (h : heap) (x c0 c1 c2 v : Z) (n : CFStorageNode) :
  h_nodes h !! x = Some n -> info n = Branch c0 c1 c2 ->
  CFStorageSetChild h x 0 v = Ok (put h x (set_info (Branch v c1 c2) n)) /\
  CFStorageSetChild h x 1 v = Ok (put h x (set_info (Branch c0 v c2) n)) /\
  CFStorageSetChild h x 2 v = Ok (put h x (set_info (Branch c0 c1 v) n)).
Proof. intros Hx Hi. unfold CFStorageSetChild, children. rewrite (load_Ok h x n Hx). cbn [mbind result_bind]. by rewrite Hi. Qed.

Section SetChild.

Context (g : heap) (a c0 c1 c2 v : Z) (n : CFStorageNode).

Lemma set_put0 : CFStorageSetChild (put g a (set_info (Branch c0 c1 c2) n)) a 0 v = Ok (put g a (set_info (Branch v c1 c2) n)).
Proof. unfold CFStorageSetChild. rewrite load_put. cbn. by rewrite put_put. Qed.

Lemma set_put1 : CFStorageSetChild (put g a (set_info (Branch c0 c1 c2) n)) a 1 v = Ok (put g a (set_info (Branch c0 v c2) n)).
Proof. unfold CFStorageSetChild. rewrite load_put. cbn. by rewrite put_put. Qed.

Lemma set_put2 : CFStorageSetChild (put g a (set_info (Branch c0 c1 c2) n)) a 2 v = Ok (put g a (set_info (Branch c0 c1 v) n)).
Proof. unfold CFStorageSetChild. rewrite load_put. cbn. by rewrite put_put. Qed.

End SetChild.

Lemma put_alloc_ne (h : heap) (a : Z) (n n' : CFStorageNode) : a <> h_next h -> put (alloc h n) a n' = alloc (put h a n') n.
Proof. intros N. unfold put, alloc. cbn. by rewrite insert_insert_ne. Qed.

(** [newChildren]: child number [i] is replaced by one or two nodes. *)
Definition spread (cs : list Z) (i : nat) (child sib : Z) : list Z := take i cs ++ child :: nonzero sib ++ drop (S i) cs.

Lemma distribute_spec (c0 c1 c2 c child sib : Z) (i : nat) :
  c0 <> 0 -> c1 <> 0 -> child <> 0 -> (c0 :: c1 :: nonzero c2) !! i = Some c -> exists n0 n1 n2 n3,
    distribute c0 c1 c2 (Z.of_nat i) child sib = (n0, n1, n2, n3) /\ n0 <> 0 /\ n1 <> 0 /\ (n3 <> 0 -> n2 <> 0) /\
    spread (c0 :: c1 :: nonzero c2) i child sib = n0 :: n1 :: nonzero n2 ++ nonzero n3.
Proof.
  intros N0 N1 Nc Hi. unfold distribute, spread, nonzero in *.
  destruct (decide (c2 = 0)) as [->|N2]; destruct i as [|[|[|i]]]; cbn in *; try done; destruct (Z.eqb_spec sib 0) as [->|Ns];
    (eexists _, _, _, _; split; [reflexivity|]); repeat case_decide; done.
Qed.

(** ** Insertion into nodes that may be shared *)

Section Frozen.

Context (M vs : Z) (HK : M <= kMaxLeafCapacity) (HV : (vs | M)) (R : gset Z) (S : Z -> Prop).

Lemma tree_aligned (d : nat) (m : nodes) (a : Z) (l : list cell) : tree M vs d m a l -> (vs | len l).
Proof.
  revert a l. induction d as [|d IH]; intros a l T; destruct (tree_bytes _ _ _ _ _ _ T) as (n & Hn & Eb);
    destruct (tree_node _ _ _ _ _ _ n T Hn) as [(c & mem & r & Hi & B & Hb & V & _)|(d' & cs & ls & [=] & B & -> & _ & F)]; try (by rewrite <- Eb).
  subst d'. clear - F IH. induction F as [|c lc cs ls [_ Tc] F IHF]; [by exists 0|]. cbn. rewrite length_app, Nat2Z.inj_add.
  apply Z.divide_add_r; [by eapply IH|done].
Qed.

Lemma kids_aligned (d : nat) (m : nodes) (cs : list Z) (ls : list (list cell)) :
  Forall2 (fun c lc => lc <> [] /\ tree M vs d m c lc) cs ls -> (vs | len (concat ls)).
Proof.
  intros F. induction F as [|c lc cs ls [_ Tc] F IHF]; [by exists 0|]. cbn. rewrite length_app, Nat2Z.inj_add.
  apply Z.divide_add_r; [by eapply tree_aligned|done].
Qed.

(** What the node and its new sibling store. *)
Definition stores (d : nat) (m : nodes) (child sib : Z) (l' : list cell) : Prop :=
  sib = 0 /\ tree M vs d m child l' \/
  sib <> 0 /\ exists l1 l2, l' = l1 ++ l2 /\ l1 <> [] /\ l2 <> [] /\ tree M vs d m child l1 /\ tree M vs d m sib l2.

(** The references the function returns: the node is not counted when it is the old one. *)
Definition returned (a child sib : Z) : list Z := (if decide (child = a) then [] else [child]) ++ nonzero sib.

Record frozen_post (ext : list Z) (h : heap) (a : Z) (d : nat) (l' : list cell) (h' : heap) (child sib : Z) : Prop := mk_frozen_post {
  fp_heap : heap_ok R (returned a child sib ++ ext) h';
  fp_stores : stores d (h_nodes h') child sib l';
  fp_kept : forall x, kept (h_nodes h) (h_nodes h') x;
  fp_region : region S (h_nodes h');
  fp_old : forall x, is_Some (h_nodes h !! x) -> ~ S x -> (occ x (edges (h_nodes h')) <= occ x (edges (h_nodes h)))%nat;
  fp_child : child <> 0 /\ child <> sib /\ (child = a \/ h_nodes h !! child = None /\ occ child (edges (h_nodes h')) = 0%nat);
  fp_sib : sib = 0 \/ sib = a \/ h_nodes h !! sib = None /\ occ sib (edges (h_nodes h')) = 0%nat
}.

Lemma alloc_leaf_edges (h : heap) (ext : list Z) (n : CFStorageNode) : heap_ok R ext h -> slots n = [] -> edges (h_nodes (alloc h n)) ≡ₚ edges (h_nodes h).
Proof. intros H Hs. cbn. rewrite edges_insert_new by (by apply (fresh_None (R := R) ext)). by rewrite Hs. Qed.

Lemma alloc_kept (h : heap) (ext : list Z) (n : CFStorageNode) (x : Z) : heap_ok R ext h -> kept (h_nodes h) (h_nodes (alloc h n)) x.
Proof. intros H. apply kept_new. by apply (fresh_None (R := R) ext). Qed.

Lemma region_alloc (h : heap) (ext : list Z) (n : CFStorageNode) :
  heap_ok R ext h -> slots n = [] -> (forall x, S x -> is_Some (h_nodes h !! x)) -> region S (h_nodes h) -> region S (h_nodes (alloc h n)).
Proof.
  intros H Hs D G. apply (region_kept S (h_nodes h)); [done..| |].
  - intros b _. by apply (alloc_kept h ext).
  - intros b. rewrite (alloc_leaf_edges h ext n H Hs). apply G.
Qed.

(** A new leaf takes the place of a node. *)
Lemma alloc_leaf_post (h : heap) (ext : list Z) (d : nat) (a : Z) (n n1 : CFStorageNode) (l' : list cell) :
  heap_ok R ext h -> region S (h_nodes h) -> (forall x, S x -> is_Some (h_nodes h !! x)) -> h_nodes h !! a = Some n ->
  refCount n1 = 1 -> leaf_of M vs n1 l' -> frozen_post ext h a d l' (alloc h n1) (h_next h) 0.
Proof.
  intros H G D Hn R1 L1. pose proof (alloc_leaf_edges h ext n1 H (leaf_slots M vs _ _ L1)) as E. pose proof (fresh_None ext h H) as Fn.
  destruct (fresh_unreferenced ext h H) as (_ & Fg & _). pose proof (ho_next _ _ _ H) as Hx. assert (h_next h <> a) by (intros Ea; rewrite Ea in Fn; congruence). split.
  - unfold returned, nonzero. rewrite decide_False, decide_True by done. apply alloc_ok; [done..|]. by eapply leaf_slots.
  - left. split; [done|]. eapply tree_leaf; [apply lookup_alloc|done].
  - intros x. by apply (alloc_kept h ext).
  - apply (region_alloc h ext); [done|by eapply leaf_slots|done..].
  - intros x _ _. by rewrite E.
  - split_and!; [lia|lia|right]. rewrite E. split; [done|by apply occ_zero].
  - by left.
Qed.

Lemma frozen_leaf_ok (h : heap) (s : CFStorage) (ext : list Z) (d : nat) (a b size abs : Z) (n : CFStorageNode) (l : list cell) :
  maxLeafCapacity s = M -> heap_ok R ext h -> region S (h_nodes h) -> (forall x, S x -> is_Some (h_nodes h !! x)) -> S a -> a ∈ ext ++ edges (h_nodes h) ->
  h_nodes h !! a = Some n -> leaf_of M vs n l -> l <> [] -> 0 <= b <= len l -> 0 < size <= M -> (vs | b) -> (vs | size) ->
  exists h' k child sib l', CFStorageInsertLeafFrozen h s a b size abs = Ok (h', set_cache k s, child, sib) /\ inserted l b size l' /\
    frozen_post ext h a d l' h' child sib.
Proof.
  intros HM H G D Sa Ra Hn L Nl Hb Hs Vb Vs. pose proof (leaf_bytes M vs n l L) as El. pose proof L as (c & mem & r & Hi & B & Hbn & Vn & Em).
  assert (0 < len l) as Pl by (destruct l; [done|cbn; lia]). destruct (referenced_count ext h a n H Hn Ra) as (Na & _ & Rc).
  pose proof (fresh_None ext h H) as Fn. destruct (fresh_unreferenced ext h H) as (Fe & Fg & Fr). pose proof (ho_next _ _ _ H) as Hx.
  assert (a <> h_next h) as Nx by (intros ->; congruence). assert (a <> 0) as N0 by (intros ->; rewrite (null_None ext h H) in Hn; done).
  destruct (insert_frozen_leaf M vs s HM HK HV h a c mem r n l Hn Hi B ltac:(lia) Vn Em (rg_allocated _ _ G a n Sa Hn) b size abs ltac:(lia) Hs Vs Hx ltac:(lia))
    as (h' & k & child & sib & l' & -> & I & Fr').
  exists h', k, child, sib, l'. split; [done|]. split; [done|]. apply occ_zero in Fg as Fo. destruct Fr' as [n1 R1 L1|n2 l2 R2 L2 N2 ->|n1 l1 R1 L1 N1 ->|n1 n2 l1 l2 R1 R2 L1 L2 N1 N2 ->].
  - by apply (alloc_leaf_post h ext d a n n1).
  - pose proof (alloc_leaf_edges h ext n2 H (leaf_slots M vs _ _ L2)) as E. split.
    + unfold returned, nonzero. rewrite decide_True, decide_False by lia. apply alloc_ok; [done..|]. by eapply leaf_slots.
    + right. split; [lia|]. exists l, l2. split_and!; [done..| |].
      * eapply tree_leaf; [by rewrite lookup_alloc_ne|done].
      * eapply tree_leaf; [apply lookup_alloc|done].
    + intros x. by apply (alloc_kept h ext).
    + apply (region_alloc h ext); [done|by eapply leaf_slots|done..].
    + intros x _ _. by rewrite E.
    + split_and!; [done|done|by left].
    + right; right. by rewrite E.
  - destruct (retain_ok ext h a n H Hn Ra) as [_ H1]. set (h1 := put h a (set_refCount (refCount n + 1) n)) in *.
    assert (Mi : mild (h_nodes h) (h_nodes h1)) by (by apply (mild_put _ a n)). pose proof (mild_edges _ _ Mi) as E1.
    pose proof (alloc_leaf_edges h1 _ n1 H1 (leaf_slots M vs _ _ L1)) as E. rewrite E1 in E.
    assert (G1 : region S (h_nodes h1)).
    { apply (region_kept S (h_nodes h)); [done..| |]; [intros x _; by apply mild_kept|]. intros x. rewrite E1. apply G. }
    assert (D1 : forall x, S x -> is_Some (h_nodes h1 !! x)).
    { intros x Sx. destruct (D x Sx) as [nx Hnx]. destruct (mild_lookup _ _ x nx Mi Hnx) as (n' & ? & _). by exists n'. }
    split.
    + unfold returned, nonzero. rewrite decide_False, decide_False by done. apply (alloc_ok (a :: ext) h1); [done..|]. by eapply leaf_slots.
    + right. split; [done|]. exists l1, l. split_and!; [done..| |].
      * eapply tree_leaf; [apply (lookup_alloc h1)|done].
      * destruct (mild_kept _ _ a Mi n Hn) as (n' & Hn' & _ & _ & _ & _ & KL & _). eapply (tree_leaf _ _ _ _ _ _ n'); [by rewrite (lookup_alloc_ne h1)|by apply KL].
    + intros x. eapply kept_trans; [by apply mild_kept|by apply (alloc_kept h1 (a :: ext))].
    + apply (region_alloc h1 (a :: ext)); [done|by eapply leaf_slots|done..].
    + intros x _ _. by rewrite E.
    + split_and!; [lia|done|right]. by rewrite E.
    + right; left. done.
  - pose proof (alloc_ok ext h n1 H R1 (leaf_slots M vs _ _ L1)) as H1. pose proof (alloc_leaf_edges h ext n1 H (leaf_slots M vs _ _ L1)) as E1.
    pose proof (alloc_leaf_edges _ _ n2 H1 (leaf_slots M vs _ _ L2)) as E. rewrite E1 in E. pose proof (region_alloc h ext n1 H (leaf_slots M vs _ _ L1) D G) as G1.
    assert (D1 : forall x, S x -> is_Some (h_nodes (alloc h n1) !! x)).
    { intros x Sx. destruct (D x Sx) as [nx Hnx]. exists nx. rewrite lookup_alloc_ne; [done|]. intros ->. congruence. }
    destruct (fresh_unreferenced _ _ H1) as (_ & Fg2 & _). rewrite E1 in Fg2. change (h_next (alloc h n1)) with (h_next h + 1) in Fg2.
    split.
    + unfold returned, nonzero. rewrite decide_False, decide_False by lia. cbn [app].
      rewrite (Permutation_swap (h_next h + 1) (h_next h)). apply (alloc_ok _ (alloc h n1)); [done..|]. by eapply leaf_slots.
    + right. split; [lia|]. exists l1, l2. split_and!; [done..| |].
      * eapply tree_leaf; [apply lookup_under|done].
      * eapply tree_leaf; [apply (lookup_alloc (alloc h n1))|done].
    + intros x. eapply kept_trans; [by apply (alloc_kept h ext)|by apply (alloc_kept _ (h_next h :: ext))].
    + apply (region_alloc _ (h_next h :: ext)); [done|by eapply leaf_slots|done..].
    + intros x _ _. by rewrite E.
    + split_and!; [lia|lia|right]. by rewrite E.
    + right; right. rewrite E. split; [|by apply occ_zero]. destruct (h_nodes h !! (h_next h + 1)) eqn:Ex; [|done]. apply (ho_fresh _ _ _ H) in Ex. lia.
Qed.

(** ** Lists of children *)

Abbreviation kids d m := (Forall2 (fun c lc => lc <> [] /\ tree M vs d m c lc)).

(** The children after the insertion with what they store. *)
Lemma kids_spread (d : nat) (m : nodes) (cs : list Z) (ls : list (list cell)) (i : nat) (child sib : Z) (l' : list cell) :
  kids d m (take i cs) (take i ls) -> kids d m (drop (Datatypes.S i) cs) (drop (Datatypes.S i) ls) -> l' <> [] -> stores d m child sib l' ->
  exists parts, kids d m (spread cs i child sib) parts /\ concat parts = concat (take i ls) ++ l' ++ concat (drop (Datatypes.S i) ls) /\
    (sib = 0 -> parts = take i ls ++ l' :: drop (Datatypes.S i) ls) /\ exists tl, parts = take i ls ++ tl.
Proof.
  intros Ft Fd Nl' St. unfold spread, nonzero. destruct St as [[-> T]|(Ns & l1 & l2 & -> & N1 & N2 & T1 & T2)].
  - rewrite decide_True by done. exists (take i ls ++ l' :: drop (Datatypes.S i) ls). rewrite concat_app. split_and!; [|done|done|by eexists].
    by apply Forall2_app; [|constructor].
  - rewrite decide_False by done. exists (take i ls ++ l1 :: l2 :: drop (Datatypes.S i) ls). rewrite concat_app. cbn. rewrite <- app_assoc. split_and!; [|done|done|by eexists].
    apply Forall2_app; [done|]. by do 2 (constructor; [done|]).
Qed.

Lemma inserted_child (ls : list (list cell)) (i : nat) (lc lc' : list cell) (b rel size : Z) :
  ls !! i = Some lc -> b = len (concat (take i ls)) + rel -> 0 <= rel <= len lc -> inserted lc rel size lc' ->
  inserted (concat ls) b size (concat (take i ls) ++ lc' ++ concat (drop (Datatypes.S i) ls)).
Proof.
  intros Hl Eb Hr (g & Lg & ->). exists g. split; [done|].
  pose proof (f_equal (@concat cell) (take_drop_middle ls i lc Hl)) as E. rewrite concat_app in E. cbn [concat] in E. rewrite <- E.
  replace (Z.to_nat b) with (length (concat (take i ls)) + Z.to_nat rel)%nat by lia. rewrite take_app_add, drop_app_add.
  rewrite take_app_le, drop_app_le by lia. by rewrite <- !app_assoc.
Qed.

Lemma kids_kept (d : nat) (m m' : nodes) (cs : list Z) (ls : list (list cell)) : (forall x, kept m m' x) -> kids d m cs ls -> kids d m' cs ls.
Proof. intros K F. eapply list.Forall2_impl; [exact F|]. intros c lc [? ?]. split; [done|]. by eapply tree_all_kept. Qed.

Lemma stores_kept (d : nat) (m m' : nodes) (child sib : Z) (l' : list cell) : (forall x, kept m m' x) -> stores d m child sib l' -> stores d m' child sib l'.
Proof.
  intros K [[-> T]|(Ns & l1 & l2 & ? & ? & ? & T1 & T2)]; [left; split; [done|]; by eapply tree_all_kept|].
  right. split; [done|]. exists l1, l2. split_and!; [done..|by eapply tree_all_kept|by eapply tree_all_kept].
Qed.

Lemma kids_put_other (d : nat) (m : nodes) (x : Z) (n : CFStorageNode) (cs : list Z) (ls : list (list cell)) :
  x ∉ edges m -> x ∉ cs -> kids d m cs ls -> kids d (<[x := n]> m) cs ls.
Proof.
  intros Hx Hc F. induction F as [|c lc cs ls [? T] F IH]; constructor; [|apply IH; by intros ?; apply Hc; right].
  split; [done|]. apply tree_put_other; [done| |done]. intros ->. apply Hc. left.
Qed.

(** An empty branch: its three pointers are NULL. *)
Lemma empty_branch (n : CFStorageNode) : slots n = [] -> isLeaf n = false -> info n = Branch 0 0 0.
Proof.
  unfold slots, isLeaf. destruct (info n) as [|c0 c1 c2]; [done|]. rewrite !filter_cons. repeat case_decide; try done. intros _ _.
  f_equal; lia.
Qed.

(** ** New branches

    [holding E ks g]: from the heap [h] the function has come to [g], where it holds the
    references [ks] for the slots of new branches and the references [E]. *)
Record holding (h : heap) (E ks : list Z) (g : heap) : Prop := mk_holding {
  hd_heap : heap_ok R (ks ++ E) g;
  hd_kept : forall y, kept (h_nodes h) (h_nodes g) y;
  hd_region : region S (h_nodes g);
  hd_old : forall y, is_Some (h_nodes h !! y) -> ~ S y -> (occ y (edges (h_nodes g)) <= occ y (edges (h_nodes h)))%nat;
  hd_kids : forall y, y ∈ ks -> S y /\ (forall ny, h_nodes g !! y = Some ny -> isFrozen ny = true) \/
    h_nodes h !! y = None /\ (occ y ks + occ y (edges (h_nodes g)) <= 1)%nat
}.

Section Holding.

Context (h : heap) (D : forall x, S x -> is_Some (h_nodes h !! x)).

Lemma holding_dom (E ks : list Z) (g : heap) (y : Z) : holding h E ks g -> S y -> is_Some (h_nodes g !! y).
Proof. intros H Sy. destruct (D y Sy) as [n Hn]. destruct (hd_kept _ _ _ _ H y n Hn) as (n' & ? & _). by exists n'. Qed.

Lemma holding_fresh (E ks : list Z) (g : heap) : holding h E ks g -> h_nodes h !! h_next g = None.
Proof.
  intros H. destruct (h_nodes h !! h_next g) as [n|] eqn:En; [|done]. destruct (hd_kept _ _ _ _ H _ n En) as (n' & Hn' & _).
  by rewrite (fresh_None _ _ (hd_heap _ _ _ _ H)) in Hn'.
Qed.

Lemma holding_alloc (E ks : list Z) (g : heap) (n : CFStorageNode) :
  holding h E ks g -> refCount n = 1 -> slots n = [] -> holding h (h_next g :: E) ks (alloc g n).
Proof.
  intros H Hr Hs. pose proof (alloc_leaf_edges g _ n (hd_heap _ _ _ _ H) Hs) as Ee. split.
  - eapply heap_ok_proper; [|reflexivity|apply alloc_ok; [apply H|done..]]. solve_Permutation.
  - intros y. eapply kept_trans; [by apply H|]. by apply (alloc_kept g (ks ++ E)), H.
  - apply (region_alloc g (ks ++ E)); [by apply H|done| |by apply H]. intros y. by apply (holding_dom E ks).
  - intros y Hy Ny. rewrite Ee. by apply H.
  - intros y Hy. rewrite Ee. destruct (hd_kids _ _ _ _ H y Hy) as [[Sy Fy]|?]; [left|by right]. split; [done|]. intros ny.
    rewrite lookup_alloc_ne; [apply Fy|]. intros ->. destruct (holding_dom _ _ _ _ H Sy) as [? Hx]. by rewrite (fresh_None _ _ (hd_heap _ _ _ _ H)) in Hx.
Qed.

(** A new branch gets the first of the references. *)
Lemma holding_fill (E ks1 ks2 : list Z) (g : heap) (x : Z) (n n' : CFStorageNode) :
  holding h E (ks1 ++ ks2) g -> h_nodes g !! x = Some n -> slots n = [] -> h_nodes h !! x = None -> slots n' = ks1 ->
  refCount n' = refCount n -> isFrozen n' = isFrozen n -> holding h E ks2 (put g x n').
Proof.
  intros H Hn Hs Hx Hs' Hr Hf. pose proof (edges_update _ x n n' Hn) as Ee. rewrite Hs, Hs' in Ee. cbn [app] in Ee.
  assert (Nx : forall y, S y -> y <> x) by (intros y Sy ->; destruct (D x Sy); congruence).
  assert (Kd : forall y, y ∈ ks1 -> y ∈ ks1 ++ ks2) by (intros y ?; apply elem_of_app; by left).
  split.
  - apply (fill_branch_ok R _ ks1 g x n); [by rewrite app_assoc; apply H|done..|]. intros y ny Hy Hny.
    destruct (hd_kids _ _ _ _ H y (Kd y Hy)) as [[Sy Fy]|[_ O]]; [left; by apply Fy|right]. rewrite occ_app in O. lia.
  - intros y. destruct (decide (y = x)) as [->|Ny]; [intros ny Hy; congruence|]. eapply kept_trans; [by apply H|by apply kept_ne].
  - apply (region_kept S (h_nodes g)); [by apply H|by intros y; apply (holding_dom _ _ _ _ H)|intros y Sy; apply kept_ne; by apply Nx|].
    intros y. cbn. rewrite Ee, occ_app. intros O. destruct (decide (y ∈ ks1)) as [Hy|Hy].
    + destruct (hd_kids _ _ _ _ H y (Kd y Hy)) as [[Sy _]|[_ O']]; [done|]. rewrite occ_app in O'. lia.
    + apply occ_zero in Hy. apply (hd_region _ _ _ _ H). lia.
  - intros y Hy Ny. cbn. rewrite Ee, occ_app. destruct (decide (y ∈ ks1)) as [Hk|Hk].
    + destruct (hd_kids _ _ _ _ H y (Kd y Hk)) as [[Sy _]|[Hn' _]]; [done|]. rewrite Hn' in Hy. by destruct Hy.
    + apply occ_zero in Hk. rewrite Hk. by apply H.
  - intros y Hy. cbn. rewrite Ee, occ_app. destruct (hd_kids _ _ _ _ H y) as [[Sy Fy]|[Hn' O]]; [apply elem_of_app; by right|left|right].
    + split; [done|]. intros ny. rewrite lookup_insert_ne by (by apply not_eq_sym, Nx). apply Fy.
    + split; [done|]. rewrite occ_app in O. lia.
Qed.

End Holding.

(** ** A branch *)

Section Branch.

Context (h : heap) (s : CFStorage) (ext : list Z) (d : nat) (a b size abs : Z) (n : CFStorageNode) (cs : list Z) (ls : list (list cell)).
Context (HM : maxLeafCapacity s = M) (H : heap_ok R ext h) (G : region S (h_nodes h)) (D : forall x, S x -> is_Some (h_nodes h !! x)) (Sa : S a).
Context (Hn : h_nodes h !! a = Some n) (B : branch_of n cs) (F : kids d (h_nodes h) cs ls).

Abbreviation x := (h_next h).
Abbreviation h1 := (alloc h (new_node s false 0)).

Lemma child_shared (c : Z) : c ∈ cs -> S c.
Proof. intros Hc. apply (rg_closed _ _ G a); [done|]. exists n. split; [done|]. by rewrite (branch_slots n cs B). Qed.

Lemma start_holding : holding h (x :: ext) [] h1.
Proof.
  apply (holding_alloc h D ext [] h); [|done|done]. split; [done|intros y; apply kept_refl|done|done|].
  intros y Hy. by apply elem_of_nil in Hy.
Qed.

(** After the insertion into child number [i]: the old children are retained and frozen,
    the replaced one is released, and the function holds the new children. *)
Lemma gather (i : nat) (c child sib : Z) (lc' : list cell) (h2 : heap) :
  cs !! i = Some c -> frozen_post (x :: ext) h1 c d lc' h2 child sib ->
  exists h3 c0 c1 c2 h4, CFStorageGetChildren h2 a = Ok (h3, (c0, c1, c2)) /\ cs = c0 :: c1 :: nonzero c2 /\ c0 <> 0 /\ c1 <> 0 /\
    (if negb (c =? child) then release h3 c else Ok h3) = Ok h4 /\ holding h (x :: ext) (spread cs i child sib) h4 /\
    (forall y, kept (h_nodes h1) (h_nodes h4) y) /\ stores d (h_nodes h4) child sib lc' /\
    (occ x (spread cs i child sib) + occ x (edges (h_nodes h4)) = 0)%nat.
Proof.
  intros Hc [P1 P2 P3 P4 P5 P6 P7]. pose proof start_holding as [H1 K1 G1 O1 _]. pose proof (fresh_None ext h H) as Fx.
  assert (Nax : a <> x) by (intros Ea; rewrite Ea in Hn; congruence).
  destruct (P3 a n) as (n2 & Hn2 & _ & _ & _ & _ & _ & KB); [by rewrite lookup_alloc_ne|]. pose proof (KB cs B) as B2.
  destruct (get_children_ok R _ h2 a n2 cs P1 Hn2 B2) as (h3 & c0 & c1 & c2 & -> & Ecs & N0 & N1 & H3 & M3 & X3 & F3).
  pose proof (mild_edges _ _ M3) as E3. exists h3, c0, c1, c2.
  assert (Hcc : c ∈ cs) by (by eapply list_elem_of_lookup_2).
  assert (exists h4, (if negb (c =? child) then release h3 c else Ok h3) = Ok h4 /\ heap_ok R (spread cs i child sib ++ x :: ext) h4 /\ mild (h_nodes h3) (h_nodes h4))
    as (h4 & E4 & H4 & M4).
  { unfold returned in H3. destruct (Z.eqb_spec c child) as [<-|Nc]; cbn [negb].
    - exists h3. rewrite decide_True in H3 by done. split_and!; [done| |apply mild_refl].
      eapply heap_ok_proper; [|reflexivity|exact H3]. unfold spread. rewrite <- (take_drop_middle cs i c Hc) at 3. solve_Permutation.
    - rewrite decide_False in H3 by done.
      assert (P : cs ++ ([child] ++ nonzero sib) ++ x :: ext ≡ₚ c :: spread cs i child sib ++ x :: ext).
      { unfold spread. rewrite <- (take_drop_middle cs i c Hc) at 1. solve_Permutation. }
      rewrite P in H3. destruct (ho_refs _ _ _ H3 c) as [_ [nc Hnc]]; [left|].
      destruct (referenced_count _ h3 c nc H3 Hnc) as (_ & Rc & _); [left|].
      assert (0 < occ c (edges (h_nodes h3)))%nat by (apply occ_elem; rewrite E3; apply edges_elem; exists a, n2; by rewrite (branch_slots n2 cs B2)).
      rewrite occ_cons, decide_True in Rc by done. destruct (release_shared_ok _ h3 c nc H3 Hnc ltac:(lia)) as [-> H4].
      eexists. split_and!; [reflexivity|done|]. by apply (mild_put _ c nc). }
  exists h4. pose proof (mild_trans _ _ _ M3 M4) as M24. pose proof (mild_edges _ _ M24) as E24.
  assert (K24 : forall y, kept (h_nodes h2) (h_nodes h4) y) by (intros y; by apply mild_kept).
  assert (K14 : forall y, kept (h_nodes h1) (h_nodes h4) y) by (intros y; by eapply kept_trans).
  assert (D2 : forall y, S y -> is_Some (h_nodes h2 !! y)).
  { intros y Sy. destruct (D y Sy) as [ny Hy]. destruct (K1 y ny Hy) as (n1' & Hy1 & _). destruct (P3 y n1' Hy1) as (n' & ? & _). by exists n'. }
  assert (Sx : ~ S x) by (intros Sx; destruct (D _ Sx); congruence).
  assert (Ox : occ x (edges (h_nodes h4)) = 0%nat).
  { rewrite E24. destruct (fresh_unreferenced _ _ H) as (_ & Fg & _). apply occ_zero in Fg. specialize (P5 x). rewrite lookup_alloc in P5. specialize (P5 ltac:(by eexists) Sx).
    rewrite (alloc_leaf_edges h ext _ H) in P5 by done. lia. }
  assert (New : forall y, h_nodes h1 !! y = None -> h_nodes h !! y = None /\ y <> x /\ y ∉ cs).
  { intros y Hy. assert (Hy' : h_nodes h !! y = None).
    { destruct (h_nodes h !! y) as [ny|] eqn:E; [|done]. destruct (K1 y ny E) as (? & ? & _). congruence. }
    split_and!; [done|by intros ->; rewrite lookup_alloc in Hy|]. intros Hin. apply child_shared, D in Hin. rewrite Hy' in Hin. by destruct Hin. }
  split_and!; try done.
  - split; [done| | | |].
    + intros y. by eapply kept_trans.
    + apply (region_kept S (h_nodes h2)); [done..|by intros; apply K24|]. intros y. rewrite E24. apply P4.
    + intros y Hy Ny. rewrite E24. etransitivity; [|by apply O1]. apply P5; [|done]. destruct Hy as [ny Hy]. destruct (K1 y ny Hy) as (? & ? & _). by eexists.
    + intros y Hy. destruct (decide (y ∈ cs)) as [Hy'|Hy'].
      { left. split; [by apply child_shared|]. apply (mild_frozen (h_nodes h3)); [done|]. intros ny. by apply F3. }
      right. assert (Ot : occ y (take i cs) = 0%nat /\ occ y (drop (Datatypes.S i) cs) = 0%nat).
      { split; apply occ_zero; intros Hin; apply Hy'; rewrite <- (take_drop_middle cs i c Hc), elem_of_app; [by left|]. right. by right. }
      rewrite E24. unfold spread in *. rewrite !elem_of_app, elem_of_cons, elem_of_app in Hy. rewrite occ_app, occ_cons, occ_app. destruct Ot as [Ot1 Ot2]. rewrite Ot1, Ot2.
      assert (Hcs : y = child \/ y ∈ nonzero sib) by (apply occ_zero in Ot1, Ot2; tauto). clear Hy.
      assert (Ons : (occ y (nonzero sib) <= 1)%nat) by (unfold nonzero; case_decide; [rewrite occ_nil; lia|rewrite occ_cons, occ_nil; case_decide; lia]).
      destruct P6 as (N6 & Ncs & P6). destruct Hcs as [->|Hs].
      * destruct P6 as [->|[Ny Oy]]; [done|]. split; [by apply New|]. rewrite Oy, decide_True by done.
        assert (occ child (nonzero sib) = 0%nat) as ->; [|lia]. apply occ_zero. unfold nonzero. case_decide; [by apply not_elem_of_nil|]. by rewrite list_elem_of_singleton.
      * unfold nonzero in Hs. case_decide; [by apply elem_of_nil in Hs|]. apply list_elem_of_singleton in Hs as ->. destruct P7 as [?|[->|[Ny Oy]]]; [done..|].
        split; [by apply New|]. rewrite Oy, decide_False by done. lia.
  - by apply (stores_kept d (h_nodes h2)).
  - rewrite Ox, Nat.add_0_r. apply occ_zero. unfold spread. rewrite elem_of_app, elem_of_cons, elem_of_app.
    assert (Ncx : x ∉ cs) by (intros Hin; by apply Sx, child_shared).
    destruct P6 as (N6 & Ncs & P6). intros [Hin|[Hin|[Hin|Hin]]].
    + apply Ncx. rewrite <- (take_drop_middle cs i c Hc), elem_of_app. by left.
    + destruct P6 as [->|[Ny _]]; [congruence|]. by apply New in Ny as (_ & Ny & _).
    + unfold nonzero in Hin. case_decide; [by apply elem_of_nil in Hin|]. apply list_elem_of_singleton in Hin as <-. destruct P7 as [?|[Ec|[Ny _]]]; [done|by rewrite Ec in Ncx|].
      by apply New in Ny as (_ & Ny & _).
    + apply Ncx. rewrite <- (take_drop_middle cs i c Hc), elem_of_app. right. by right.
Qed.

Section Finish.

Context (h4 : heap) (ks : list Z) (parts : list (list cell)) (n0 n1 n2 n3 : Z) (nx : CFStorageNode).
Context (Hh : holding h (x :: ext) ks h4) (Ox : (occ x ks + occ x (edges (h_nodes h4)) = 0)%nat) (Fk : kids d (h_nodes h4) ks parts).
Context (Hx : h_nodes h4 !! x = Some nx) (Ex : info nx = Branch 0 0 0) (N0 : n0 <> 0) (N1 : n1 <> 0) (N3 : n3 <> 0 -> n2 <> 0).
Context (Ek : ks = n0 :: n1 :: nonzero n2 ++ nonzero n3).

(** The copy has all children. *)
Lemma finish_three (bytes : Z) : n3 = 0 -> bytes = len (concat parts) ->
  frozen_post ext h a (Datatypes.S d) (concat parts) (put h4 x (set_numBytes bytes (set_info (Branch n0 n1 n2) nx))) x 0.
Proof.
  intros E3 Ebs. assert (Nxa : x <> a) by (intros E; rewrite <- E, (fresh_None ext h H) in Hn; done). set (nx' := set_numBytes _ _). pose proof (fresh_None ext h H) as Fx. pose proof (ho_next _ _ _ H) as Px.
  assert (Bx : branch_of nx' ks) by (exists n0, n1, n2; split_and!; [done..|]; by rewrite Ek, E3; unfold nonzero at 2; rewrite decide_True, app_nil_r by done).
  pose proof (branch_slots _ _ Bx) as Sx. assert (Sn : slots nx = []) by (unfold slots; by rewrite Ex).
  destruct (holding_fill h D (x :: ext) ks [] h4 x nx nx') as [P1 P2 P3 P4 _]; [by rewrite app_nil_r|done..|].
  pose proof (edges_update _ x nx nx' Hx) as Ee. rewrite Sn, Sx in Ee. cbn [app] in Ee. split.
  - unfold returned, nonzero. rewrite decide_False, decide_True by done. done.
  - left. split; [done|]. apply (tree_branch _ _ _ _ _ nx' ks); [apply lookup_insert_eq|done..|].
    apply kids_put_other; [apply occ_zero; lia..|done].
  - done.
  - done.
  - done.
  - split_and!; [lia|lia|right]. split; [done|]. cbn. rewrite Ee, occ_app. lia.
  - by left.
Qed.

(** The copy has two children and its new sibling the other two. *)
Lemma finish_four : n3 <> 0 -> exists h5 b0 b1 b2 b3 r r',
  (g ← CFStorageSetChild (alloc (put h4 x (set_info (Branch n0 n1 0) nx)) (new_node s false 0)) (h_next h4) 0 n2;
   CFStorageSetChild g (h_next h4) 1 n3) = Ok h5 /\
  load h5 n0 = Ok b0 /\ load h5 n1 = Ok b1 /\ load h5 n2 = Ok b2 /\ load h5 n3 = Ok b3 /\ load h5 x = Ok r /\
  load (put h5 x (set_numBytes (numBytes b0 + numBytes b1) r)) (h_next h4) = Ok r' /\
  frozen_post ext h a (Datatypes.S d) (concat parts)
    (put (put h5 x (set_numBytes (numBytes b0 + numBytes b1) r)) (h_next h4) (set_numBytes (numBytes b2 + numBytes b3) r')) x (h_next h4).
Proof.
  intros N3'. assert (Nxa : x <> a) by (intros E; rewrite <- E, (fresh_None ext h H) in Hn; done). specialize (N3 N3'). set (y := h_next h4). set (nx1 := set_info (Branch n0 n1 0) nx). set (g1 := put h4 x nx1).
  pose proof (fresh_None ext h H) as Fx. pose proof (ho_next _ _ _ H) as Px. pose proof (ho_next _ _ _ (hd_heap _ _ _ _ Hh)) as Py. fold y in Py.
  pose proof (ho_fresh _ _ _ (hd_heap _ _ _ _ Hh) x nx Hx) as Lx. fold y in Lx.
  assert (Ek' : ks = [n0; n1] ++ [n2; n3]) by (by rewrite Ek; unfold nonzero; rewrite !decide_False). rewrite Ek' in Fk, Hh, Ox.
  apply Forall2_app_inv_l in Fk as (p1 & p2 & F1 & F2 & ->). rewrite concat_app. rewrite occ_app in Ox. assert (Sn : slots nx = []) by (unfold slots; by rewrite Ex).
  destruct (set_child_ok (alloc g1 (new_node s false 0)) y 0 0 0 n2 (new_node s false 0)) as [E1 _]; [apply (lookup_alloc g1)|done|]. rewrite E1. cbn [mbind result_bind].
  change y with (h_next g1) at 1. rewrite put_alloc. set (ny1 := set_info _ _).
  destruct (set_child_ok (alloc g1 ny1) y n2 0 0 n3 ny1) as (_ & E2 & _); [apply (lookup_alloc g1)|done|]. rewrite E2.
  change y with (h_next g1) at 1. rewrite put_alloc. set (ny2 := set_info _ ny1).
  assert (Nxk : x ∉ [n0; n1] /\ x ∉ [n2; n3] /\ x ∉ edges (h_nodes h4)) by (rewrite !occ_zero; lia). destruct Nxk as (Nx1 & Nx2 & Nxe).
  assert (Fin : forall bx by', let nx2 := set_numBytes bx nx1 in let ny3 := set_numBytes by' ny2 in
    holding h (y :: x :: ext) [] (alloc (put h4 x nx2) ny3) /\ edges (h_nodes (alloc (put h4 x nx2) ny3)) ≡ₚ [n2; n3] ++ [n0; n1] ++ edges (h_nodes h4) /\
    kids d (h_nodes (alloc (put h4 x nx2) ny3)) [n0; n1] p1 /\ kids d (h_nodes (alloc (put h4 x nx2) ny3)) [n2; n3] p2).
  { intros bx by' nx2 ny3. assert (S2 : slots nx2 = [n0; n1]) by (by apply branch_slots; exists n0, n1, 0).
    assert (S3 : slots ny3 = [n2; n3]) by (by apply branch_slots; exists n2, n3, 0).
    pose proof (holding_fill h D _ _ _ h4 x nx nx2 Hh Hx Sn Fx S2 eq_refl eq_refl) as Hg. pose proof (fresh_None _ _ (hd_heap _ _ _ _ Hg)) as Fy.
    pose proof (holding_alloc h D _ _ _ (new_node s false 0) Hg eq_refl eq_refl) as Ha. pose proof (holding_fresh h _ _ _ Hg) as Fh. cbn [h_next put] in Ha, Fh, Fy.
    pose proof (edges_update _ x nx nx2 Hx) as Ee. rewrite Sn, S2 in Ee. cbn [app] in Ee. split_and!.
    - rewrite <- (put_alloc (put h4 x nx2) (new_node s false 0)). apply (holding_fill h D _ [n2; n3] [] _ _ (new_node s false 0)); [done|apply (lookup_alloc (put h4 x nx2))|done..].
    - cbn. rewrite edges_insert_new by done. by rewrite S3, Ee.
    - eapply kids_kept; [intros z; by apply kept_new|]. by apply kids_put_other.
    - eapply kids_kept; [intros z; by apply kept_new|]. by apply kids_put_other. }
  destruct (Fin (numBytes nx) (numBytes ny2)) as (_ & _ & K1 & K2).
  replace (set_numBytes (numBytes nx) nx1) with nx1 in K1, K2 by done. replace (set_numBytes (numBytes ny2) ny2) with ny2 in K1, K2 by done. fold g1 in K1, K2.
  inversion K1 as [|? l0 ? ? [_ T0] K1']; subst. inversion K1' as [|? l1 ? ? [_ T1] K1'']; subst. inversion K1''; subst.
  inversion K2 as [|? l2 ? ? [_ T2] K2']; subst. inversion K2' as [|? l3 ? ? [_ T3] K2'']; subst. inversion K2''; subst.
  destruct (tree_bytes _ _ _ _ _ _ T0) as (b0 & L0 & B0). destruct (tree_bytes _ _ _ _ _ _ T1) as (b1 & L1 & B1).
  destruct (tree_bytes _ _ _ _ _ _ T2) as (b2 & L2 & B2). destruct (tree_bytes _ _ _ _ _ _ T3) as (b3 & L3 & B3).
  assert (Lx5 : h_nodes (alloc g1 ny2) !! x = Some nx1) by (rewrite lookup_alloc_ne by (change (h_next g1) with y; lia); apply lookup_insert_eq).
  eexists _, b0, b1, b2, b3, nx1, ny2. split; [reflexivity|]. split_and!; [by apply load_Ok..| |].
  { rewrite load_put_ne by lia. apply (load_alloc g1). }
  set (bx := numBytes b0 + numBytes b1). set (by' := numBytes b2 + numBytes b3).
  rewrite put_alloc_ne by (change (h_next g1) with y; lia). unfold g1. rewrite put_put. change y with (h_next (put h4 x (set_numBytes bx nx1))) at 1. rewrite put_alloc.
  destruct (Fin bx by') as ([P1 P2 P3 P4 _] & Pe & PK1 & PK2). cbn [app] in P1. set (h' := alloc _ _) in *.
  assert (Bx : branch_of (set_numBytes bx nx1) [n0; n1]) by (by exists n0, n1, 0). assert (By : branch_of (set_numBytes by' ny2) [n2; n3]) by (by exists n2, n3, 0).
  pose proof (fresh_unreferenced _ _ (hd_heap _ _ _ _ Hh)) as (Fy1 & Fy2 & _). fold y in Fy1, Fy2. rewrite <- app_assoc, elem_of_app in Fy1. cbn [app] in Fy1.
  assert (Oy : occ y [n0; n1] = 0%nat /\ occ y [n2; n3] = 0%nat /\ occ y (edges (h_nodes h4)) = 0%nat) by (rewrite <- !occ_zero; split_and!; [tauto| |done]; intros Hy; apply Fy1; right; rewrite !elem_of_cons in *; tauto).
  assert (Fyh : h_nodes h !! y = None) by (by apply (holding_fresh h _ _ _ Hh)).
  split.
  - unfold returned, nonzero. rewrite decide_False, decide_False by (done || lia). cbn [app]. by rewrite (Permutation_swap y x).
  - right. split; [lia|]. eexists _, _. split; [reflexivity|].
    assert (Hl : forall q r : list cell, q <> [] -> concat [q; r] <> []) by (by intros [|? ?] r).
    split_and!; [apply Hl; by inversion F1 as [|? ? ? ? [? _]]|apply Hl; by inversion F2 as [|? ? ? ? [? _]]| |].
    + apply (tree_branch _ _ _ _ _ (set_numBytes bx nx1) [n0; n1]); [unfold h'; rewrite lookup_alloc_ne by (cbn; lia); apply lookup_insert_eq|done| |done].
      cbn. rewrite app_nil_r, length_app. unfold bx. lia.
    + apply (tree_branch _ _ _ _ _ (set_numBytes by' ny2) [n2; n3]); [apply (lookup_alloc (put h4 x _))|done| |done].
      cbn. rewrite app_nil_r, length_app. unfold by'. lia.
  - done.
  - done.
  - done.
  - split_and!; [lia|lia|right]. split; [done|]. rewrite Pe, !occ_app. lia.
  - right; right. split; [done|]. rewrite Pe, !occ_app. lia.
Qed.

End Finish.

Context (Hb : 0 <= b <= len (concat ls)) (Hs : 0 < size <= M) (Eb : numBytes n = len (concat ls)).

Context (Vb : (vs | b)) (ins : heap -> CFStorage -> Z -> Z -> Z -> Z -> result insertion).
Context (IH : forall c rel lc, c ∈ cs -> tree M vs d (h_nodes h1) c lc -> lc <> [] -> 0 <= rel <= len lc -> (vs | rel) ->
  exists h2 k child sib lc', ins h1 s c rel size abs = Ok (h2, set_cache k s, child, sib) /\ inserted lc rel size lc' /\
    frozen_post (x :: ext) h1 c d lc' h2 child sib).

Lemma frozen_branch_ok : exists h' k child sib l',
  CFStorageInsertBranchFrozen ins h s a b size abs = Ok (h', set_cache k s, child, sib) /\ inserted (concat ls) b size l' /\
  frozen_post ext h a (Datatypes.S d) l' h' child sib.
Proof.
  assert (Nax : a <> x) by (intros E; rewrite E, (fresh_None ext h H) in Hn; done).
  assert (K1 : forall y, kept (h_nodes h) (h_nodes h1) y) by (intros y; apply (hd_kept _ _ _ _ start_holding)).
  unfold CFStorageInsertBranchFrozen. rewrite (load_Ok h a n Hn). cbn [mbind result_bind]. rewrite create_alloc.
  destruct (find_child_spec M vs d h1 a b true n cs ls) as (i & c & lc & rel & Hc & Hl & -> & Er & Hr1 & Hr2);
    [by rewrite lookup_alloc_ne|done|by apply (kids_kept d (h_nodes h))|lia|lia|]. cbn [mbind result_bind].
  destruct (Forall2_lookup_lr _ _ _ _ _ _ F Hc Hl) as [Nlc Tc].
  destruct (IH c rel lc) as (h2 & k & child & sib & lc' & -> & I & P); [by eapply list_elem_of_lookup_2|by eapply tree_all_kept|done|lia| |].
  { replace rel with (b - len (concat (take i ls))) by lia. apply Z.divide_sub_r; [done|]. eapply kids_aligned. by apply Forall2_take. }
  cbn [mbind result_bind]. destruct (gather i c child sib lc' h2 Hc P) as (h3 & c0 & c1 & c2 & h4 & -> & Ecs & N0 & N1 & E4 & Hh & K14 & St & Ox).
  cbn [mbind result_bind]. rewrite E4. cbn [mbind result_bind].
  destruct (distribute_spec c0 c1 c2 c child sib i N0 N1) as (n0 & n1 & n2 & n3 & -> & M0 & M1 & M3 & Ek); [by apply P|by rewrite <- Ecs|].
  rewrite <- Ecs in Ek. pose proof (inserted_child ls i lc lc' b rel size Hl Er ltac:(lia) I) as Hi. pose proof (inserted_length _ _ _ _ Hi) as Li.
  assert (Nl' : lc' <> []) by (apply inserted_length in I; apply nonempty_len; lia).
  pose proof (kids_kept d _ _ cs ls (hd_kept _ _ _ _ Hh) F) as F4.
  destruct (kids_spread d (h_nodes h4) cs ls i child sib lc') as (parts & Fk & Ep & _); [by apply Forall2_take|by apply Forall2_drop|done..|].
  rewrite <- Ep in Hi, Li. destruct (K14 x (new_node s false 0) (lookup_alloc _ _)) as (nx & Hx & _ & Sx & Lx & _).
  pose proof (empty_branch nx Sx Lx) as Ex. destruct (set_child_ok h4 x 0 0 0 n0 nx Hx Ex) as (-> & _). cbn [mbind result_bind].
  set (nx0 := set_info _ nx). destruct (set_child_ok (put h4 x nx0) x n0 0 0 n1 nx0) as (_ & -> & _); [apply lookup_insert_eq|done|].
  cbn [mbind result_bind]. rewrite put_put. set (nx1 := set_info _ nx0).
  destruct (Z.eqb_spec n3 0) as [E3|E3].
  - destruct (set_child_ok (put h4 x nx1) x n0 n1 0 n2 nx1) as (_ & _ & ->); [apply lookup_insert_eq|done|]. cbn [mbind result_bind].
    rewrite load_put. cbn [mbind result_bind]. rewrite !put_put. eexists _, k, x, 0, (concat parts). split; [reflexivity|]. split; [done|].
    apply (finish_three h4 (spread cs i child sib) parts n0 n1 n2 n3 nx); [done..|lia].
  - rewrite create_alloc. destruct (finish_four h4 _ parts n0 n1 n2 n3 nx Hh Ox Fk Hx Ex M0 M1 M3 Ek E3) as (h5 & b0 & b1 & b2 & b3 & r & r' & E5 & L0 & L1 & L2 & L3 & Lr & Lr' & Pf).
    change (new_node (set_cache k s) false 0) with (new_node s false 0). change (h_next (put h4 x nx1)) with (h_next h4).
    destruct (CFStorageSetChild _ (h_next h4) 0 n2) as [g| | |] eqn:Eg; cbn [mbind result_bind] in E5 |- *; try done.
    rewrite E5. cbn [mbind result_bind]. rewrite L0. cbn [mbind result_bind]. rewrite L1. cbn [mbind result_bind]. rewrite L2. cbn [mbind result_bind].
    rewrite L3. cbn [mbind result_bind]. rewrite Lr. cbn [mbind result_bind]. rewrite Lr'. cbn [mbind result_bind].
    by eexists _, k, x, (h_next h4), (concat parts).
Qed.

End Branch.

Lemma insert_frozen_ok (s : CFStorage) (size abs : Z) (fuel : nat) :
  maxLeafCapacity s = M -> 0 < size <= M -> (vs | size) -> forall d h ext a b l, (d < fuel)%nat ->
  heap_ok R ext h -> region S (h_nodes h) -> (forall x, S x -> is_Some (h_nodes h !! x)) -> S a -> a ∈ ext ++ edges (h_nodes h) ->
  tree M vs d (h_nodes h) a l -> l <> [] -> 0 <= b <= len l -> (vs | b) ->
  exists h' k child sib l', CFStorageInsertFrozen fuel h s a b size abs = Ok (h', set_cache k s, child, sib) /\ inserted l b size l' /\
    frozen_post ext h a d l' h' child sib.
Proof.
  intros HM Hs Vs. induction fuel as [|fuel IH]; intros d h ext a b l Hd H G D Sa Ra T Nl Hb Vb; [lia|].
  destruct (tree_bytes _ _ _ _ _ _ T) as (n & Hn & Eb). cbn [CFStorageInsertFrozen]. rewrite (load_Ok h a n Hn). cbn [mbind result_bind].
  destruct (tree_node _ _ _ _ _ _ n T Hn) as [L|(d' & cs & ls & -> & B & -> & _ & F)].
  - rewrite (leaf_isLeaf _ _ _ _ L). by apply (frozen_leaf_ok h s ext d a b size abs n l).
  - rewrite (branch_isLeaf n cs B). apply (frozen_branch_ok h s ext d' a b size abs n cs ls); try done.
    intros c rel lc Hc Tc Nlc Hr Vr. pose proof (start_holding h s ext H G D) as [H1 K1 G1 _ _].
    pose proof (child_shared h a n cs G Sa Hn B c Hc) as Sc.
    assert (D1 : forall x, S x -> is_Some (h_nodes (alloc h (new_node s false 0)) !! x)).
    { intros x Sx. destruct (D x Sx) as [nx Hx]. destruct (K1 x nx Hx) as (? & ? & _). by eexists. }
    apply IH; try done; [lia|]. apply elem_of_app. right. rewrite (alloc_leaf_edges h ext _ H) by done. apply edges_elem. exists a, n.
    by rewrite (branch_slots n cs B).
Qed.

End Frozen.

End StorageInsert.
