(* ===== verification/StorageCopy.v ===== *)
(** * Copies of shared nodes

    [__CFStorageCopyNode] makes a node of the same bytes; the children of a branch get one
    more parent and are marked. *)

From stdpp Require Import base list numbers option gmap relations.
From Stdlib Require Import ZArith Lia.
From S2P Require Import Prelude Storage StorageHeap StorageTree StorageLeaf StorageFrozen StorageInsert.
Import Storage StorageHeap StorageTree StorageLeaf StorageFrozen StorageInsert.

Module StorageCopy.

(** ** Retaining and freezing beside a new node *)

Lemma retain_put (g : heap) (x c : Z) (n : CFStorageNode) : x <> c ->
  CFStorageRetainNode (put g x n) c = (g' ← CFStorageRetainNode g c; Ok (put g' x n)).
Proof.
  intros N. unfold CFStorageRetainNode. rewrite load_put_ne by (by apply not_eq_sym). destruct (load g c) as [t| | |]; cbn [mbind result_bind]; try done.
  destruct (0 <? refCount t); cbn [mbind result_bind]; [|done]. by rewrite put_swap.
Qed.

Lemma retain_child_put (g : heap) (x c : Z) (n : CFStorageNode) : x <> c ->
  retain_child (put g x n) c = (g' ← retain_child g c; Ok (put g' x n)).
Proof. intros N. unfold retain_child. destruct (c =? 0); [done|by apply retain_put]. Qed.

Lemma freeze_put (g : heap) (x c : Z) (n : CFStorageNode) : x <> c ->
  CFStorageFreezeNode (put g x n) c = (g' ← CFStorageFreezeNode g c; Ok (put g' x n)).
Proof.
  intros N. unfold CFStorageFreezeNode. rewrite load_put_ne by (by apply not_eq_sym). destruct (load g c) as [t| | |]; cbn [mbind result_bind]; try done.
  by rewrite put_swap.
Qed.

Lemma freeze_child_put (g : heap) (x c : Z) (n : CFStorageNode) : x <> c ->
  freeze_child (put g x n) c = (g' ← freeze_child g c; Ok (put g' x n)).
Proof. intros N. unfold freeze_child. destruct (c =? 0); [done|by apply freeze_put]. Qed.

Lemma retain_child_ok (R : gset Z) (ext : list Z) (h : heap) (c : Z) :
  heap_ok R ext h -> (c <> 0 -> c ∈ edges (h_nodes h)) -> exists h',
    retain_child h c = Ok h' /\ heap_ok R (nonzero c ++ ext) h' /\ mild (h_nodes h) (h_nodes h') /\ h_next h' = h_next h.
Proof.
  intros H Hc. unfold retain_child, nonzero. destruct (Z.eqb_spec c 0) as [->|N]; [exists h; split_and!; [done|done|apply mild_refl|done]|].
  rewrite decide_False by done. assert (Hx : c ∈ ext ++ edges (h_nodes h)) by (apply elem_of_app; right; by apply Hc).
  destruct (ho_refs _ _ _ H c Hx) as [_ [n Hn]]. destruct (retain_ok ext h c n H Hn Hx) as [-> H1]. eexists. split_and!; [reflexivity|done|by apply (mild_put _ c n)|done].
Qed.

Lemma freeze_child_ok (R : gset Z) (ext : list Z) (h : heap) (c : Z) :
  heap_ok R ext h -> (c <> 0 -> is_Some (h_nodes h !! c)) -> exists h',
    freeze_child h c = Ok h' /\ heap_ok R ext h' /\ mild (h_nodes h) (h_nodes h') /\ (forall n, c <> 0 -> h_nodes h' !! c = Some n -> isFrozen n = true).
Proof.
  intros H Hc. unfold freeze_child. destruct (Z.eqb_spec c 0) as [->|N]; [exists h; split_and!; [done|done|apply mild_refl|done]|].
  destruct (Hc N) as [n Hn]. unfold CFStorageFreezeNode. rewrite (load_Ok h c n Hn). cbn [mbind result_bind]. eexists.
  split_and!; [reflexivity|by apply freeze_ok|by apply (mild_put _ c n)|]. intros n' _. cbn. rewrite lookup_insert_eq. by intros [= <-].
Qed.

Lemma retain_child_lookup (g g' : heap) (x c : Z) : x <> c -> retain_child g c = Ok g' -> h_nodes g' !! x = h_nodes g !! x.
Proof.
  intros N. unfold retain_child, CFStorageRetainNode. destruct (c =? 0); [by intros [= <-]|]. destruct (load g c) as [t| | |]; cbn; try done.
  destruct (0 <? refCount t); intros [= <-]; [|done]. cbn. by rewrite lookup_insert_ne.
Qed.

Lemma freeze_child_lookup (g g' : heap) (x c : Z) : x <> c -> freeze_child g c = Ok g' -> h_nodes g' !! x = h_nodes g !! x.
Proof.
  intros N. unfold freeze_child, CFStorageFreezeNode. destruct (c =? 0); [by intros [= <-]|]. destruct (load g c) as [t| | |]; cbn; try done.
  intros [= <-]. cbn. by rewrite lookup_insert_ne.
Qed.

(** The three children are retained, then marked. *)
Definition take_children (g : heap) (c0 c1 c2 : Z) : result heap :=
  g ← retain_child g c0; g ← retain_child g c1; g ← retain_child g c2;
  g ← freeze_child g c0; g ← freeze_child g c1; freeze_child g c2.

Lemma take_children_ok (R : gset Z) (ext : list Z) (g : heap) (c0 c1 c2 : Z) :
  heap_ok R ext g -> (forall c, c ∈ [c0; c1; c2] -> c <> 0 -> c ∈ edges (h_nodes g)) -> exists g',
    take_children g c0 c1 c2 = Ok g' /\ heap_ok R ((nonzero c0 ++ nonzero c1 ++ nonzero c2) ++ ext) g' /\ mild (h_nodes g) (h_nodes g') /\
    (forall c n, c ∈ nonzero c0 ++ nonzero c1 ++ nonzero c2 -> h_nodes g' !! c = Some n -> isFrozen n = true).
Proof.
  intros H Hc. unfold take_children.
  destruct (retain_child_ok R ext g c0 H) as (g1 & -> & H1 & M1 & _); [apply Hc; left|]. cbn [mbind result_bind]. pose proof (mild_edges _ _ M1) as E1.
  destruct (retain_child_ok R _ g1 c1 H1) as (g2 & -> & H2 & M2 & _); [rewrite E1; apply Hc; right; left|]. cbn [mbind result_bind]. pose proof (mild_edges _ _ M2) as E2.
  destruct (retain_child_ok R _ g2 c2 H2) as (g3 & -> & H3 & M3 & _); [rewrite E2, E1; apply Hc; do 2 right; left|]. cbn [mbind result_bind]. pose proof (mild_edges _ _ M3) as E3.
  assert (D : forall c, c ∈ [c0; c1; c2] -> c <> 0 -> is_Some (h_nodes g3 !! c)).
  { intros c Hin N. apply (ho_refs _ _ _ H3 c), elem_of_app. right. rewrite E3, E2, E1. by apply Hc. }
  assert (Dm : forall m c, mild (h_nodes g3) m -> c ∈ [c0; c1; c2] -> c <> 0 -> is_Some (m !! c)).
  { intros m c Mm Hin N. destruct (D c Hin N) as [n Hn]. destruct (mild_lookup _ _ c n Mm Hn) as (n' & ? & _). by exists n'. }
  destruct (freeze_child_ok R _ g3 c0 H3) as (g4 & -> & H4 & M4 & F4); [apply D; left|]. cbn [mbind result_bind].
  destruct (freeze_child_ok R _ g4 c1 H4) as (g5 & -> & H5 & M5 & F5); [apply Dm; [done|right; left]|]. cbn [mbind result_bind].
  destruct (freeze_child_ok R _ g5 c2 H5) as (g6 & -> & H6 & M6 & F6); [apply Dm; [by eapply mild_trans|do 2 right; left]|].
  exists g6. split_and!; [done| |exact (mild_trans _ _ _ M1 (mild_trans _ _ _ M2 (mild_trans _ _ _ M3 (mild_trans _ _ _ M4 (mild_trans _ _ _ M5 M6)))))|].
  - eapply heap_ok_proper; [|reflexivity|exact H6]. solve_Permutation.
  - assert (Nz : forall c v, c ∈ nonzero v -> c = v /\ v <> 0).
    { intros c v. unfold nonzero. case_decide; [by intros ?%elem_of_nil|]. by intros ->%list_elem_of_singleton. }
    intros c n. rewrite !elem_of_app. intros [Hin|[Hin|Hin]]; apply Nz in Hin as [-> N].
    + apply (mild_frozen (h_nodes g4)); [by eapply mild_trans|]. intros n' Hn'. by apply F4.
    + apply (mild_frozen (h_nodes g5)); [done|]. intros n' Hn'. by apply F5.
    + by apply F6.
Qed.

(** The code of [__CFStorageCopyNode] for a frozen branch, with the new node [x]. *)
Lemma copy_eval (g0 g : heap) (x c0 c1 c2 : Z) (nb : CFStorageNode) :
  h_nodes g0 !! x = Some nb -> info nb = Branch 0 0 0 -> x <> c0 -> x <> c1 -> x <> c2 -> c0 <> 0 -> take_children g0 c0 c1 c2 = Ok g ->
  h_nodes g !! x = Some nb /\
  (h ← CFStorageRetainNode g0 c0; h ← CFStorageSetChild h x 0 c0; h ← retain_child h c1; h ← CFStorageSetChild h x 1 c1;
   h ← retain_child h c2; h ← CFStorageSetChild h x 2 c2;
   h ← (h ← CFStorageFreezeNode h c0; h ← freeze_child h c1; freeze_child h c2); Ok (h, x)) = Ok (put g x (set_info (Branch c0 c1 c2) nb), x).
Proof.
  intros Hx Ei Nx0 Nx1 Nx2 N0 Eg. unfold take_children in Eg.
  assert (Er : forall h, CFStorageRetainNode h c0 = retain_child h c0) by (intros h; unfold retain_child; by destruct (Z.eqb_spec c0 0)).
  assert (Ef : forall h, CFStorageFreezeNode h c0 = freeze_child h c0) by (intros h; unfold freeze_child; by destruct (Z.eqb_spec c0 0)).
  rewrite Er.
  destruct (retain_child g0 c0) as [g1| | |] eqn:R0; cbn [mbind result_bind] in Eg |- *; try done.
  destruct (retain_child g1 c1) as [g2| | |] eqn:R1; cbn [mbind result_bind] in Eg; try done.
  destruct (retain_child g2 c2) as [g3| | |] eqn:R2; cbn [mbind result_bind] in Eg; try done.
  destruct (freeze_child g3 c0) as [g4| | |] eqn:F0; cbn [mbind result_bind] in Eg; try done.
  destruct (freeze_child g4 c1) as [g5| | |] eqn:F1; cbn [mbind result_bind] in Eg; try done.
  pose proof (retain_child_lookup _ _ x c0 Nx0 R0) as L1. pose proof (retain_child_lookup _ _ x c1 Nx1 R1) as L2. pose proof (retain_child_lookup _ _ x c2 Nx2 R2) as L3.
  pose proof (freeze_child_lookup _ _ x c0 Nx0 F0) as L4. pose proof (freeze_child_lookup _ _ x c1 Nx1 F1) as L5. pose proof (freeze_child_lookup _ _ x c2 Nx2 Eg) as L6.
  split; [congruence|]. destruct (set_child_ok g1 x 0 0 0 c0 nb) as (-> & _); [congruence|done|]. cbn [mbind result_bind].
  rewrite retain_child_put by done. rewrite R1. cbn [mbind result_bind]. rewrite set_put1. cbn [mbind result_bind].
  rewrite retain_child_put by done. rewrite R2. cbn [mbind result_bind]. rewrite set_put2. cbn [mbind result_bind].
  rewrite Ef, freeze_child_put by done. rewrite F0. cbn [mbind result_bind]. rewrite freeze_child_put by done. rewrite F1. cbn [mbind result_bind].
  rewrite freeze_child_put by done. rewrite Eg. done.
Qed.

(** ** The copy *)

Section Copy.

Context (M vs : Z) (HK : M <= kMaxLeafCapacity) (R : gset Z) (S : Z -> Prop).
Context (s : CFStorage) (HM : maxLeafCapacity s = M) (h : heap) (ext : list Z) (c : Z) (n : CFStorageNode).
Context (H : heap_ok R ext h) (G : region S (h_nodes h)) (D : forall x, S x -> is_Some (h_nodes h !! x)) (Sc : S c) (Hn : h_nodes h !! c = Some n).

Lemma copy_leaf_ok (d : nat) (l : list cell) : leaf_of M vs n l -> l <> [] -> exists h',
  CFStorageCopyNode s h c = Ok (h', h_next h) /\ frozen_post M vs R S ext h c d l h' (h_next h) 0.
Proof.
  intros L Nl. pose proof (leaf_bytes _ _ _ _ L) as El. assert (0 < len l) by (destruct l; [done|cbn; lia]). unfold CFStorageCopyNode. rewrite (load_Ok h c n Hn). cbn [mbind result_bind].
  rewrite create_alloc, (leaf_isLeaf _ _ _ _ L). destruct L as (cap & mem & r & Hi & B & Hb & V & E). rewrite Hi.
  assert (Post : forall n1, refCount n1 = 1 -> leaf_of M vs n1 l -> frozen_post M vs R S ext h c d l (alloc h n1) (h_next h) 0)
    by (intros n1 R1 L1; by apply (alloc_leaf_post M vs R S h ext d c n)).
  destruct mem as [m|].
  - cbn in B. destruct (filled_leaf s h (numBytes n) 0 0 (numBytes n) m) as (c1 & m1 & E1 & L1 & C1 & T1); [lia..|].
    destruct (CFStorageAllocLeafNodeMemory s (alloc h (new_node s true (numBytes n))) (h_next h) (numBytes n) false) as [g| | |]; cbn [mbind result_bind] in E1 |- *; try done.
    rewrite E1. cbn [mbind result_bind]. eexists. split; [reflexivity|]. apply Post; [done|]. exists c1, (Some m1), (CFRangeMake 0 0). rewrite !drop_0 in T1.
    cbn. split_and!; [done|lia|done|lia|lia|done|]. rewrite E. cbn. by rewrite T1.
  - eexists. split; [reflexivity|]. apply Post; [done|]. exists 0, None, (CFRangeMake 0 0). by rewrite E.
Qed.

Lemma copy_branch_ok (d : nat) (cs : list Z) (ls : list (list cell)) :
  isFrozen n = true -> branch_of n cs -> numBytes n = len (concat ls) -> Forall2 (fun c lc => lc <> [] /\ tree M vs d (h_nodes h) c lc) cs ls ->
  exists h', CFStorageCopyNode s h c = Ok (h', h_next h) /\ frozen_post M vs R S ext h c (Datatypes.S d) (concat ls) h' (h_next h) 0.
Proof.
  intros Fz B Eb F. destruct (branch_children n cs B) as (c0 & c1 & c2 & _ & Ei & N0 & N1 & Ecs). fold (nonzero c2) in Ecs.
  pose proof (branch_slots n cs B) as Sn. pose proof (fresh_None ext h H) as Fx. destruct (fresh_unreferenced ext h H) as (_ & Fe & _).
  set (x := h_next h) in *. set (nb := new_node s false (numBytes n)). set (g0 := alloc h nb).
  assert (Kid : forall y, y ∈ cs -> y ∈ edges (h_nodes h)) by (intros y Hy; apply edges_elem; exists c, n; by rewrite Sn).
  assert (Ec3 : nonzero c0 ++ nonzero c1 ++ nonzero c2 = cs) by (rewrite Ecs; unfold nonzero at 1 2; by rewrite !decide_False).
  assert (Hh0 : holding R S h (x :: ext) [] g0).
  { apply (holding_alloc R S h D ext [] h nb); [|done|done]. split; [done|intros y; apply kept_refl|done|done|]. by intros y Hy%elem_of_nil. }
  assert (E0 : edges (h_nodes g0) ≡ₚ edges (h_nodes h)) by (by apply (alloc_leaf_edges R h ext)).
  assert (In3 : forall y, y ∈ [c0; c1; c2] -> y <> 0 -> y ∈ cs).
  { intros y Hy Ny. rewrite Ecs. rewrite !elem_of_cons, elem_of_nil in Hy. destruct Hy as [->|[->|[->|[]]]]; [left|right; left|]. do 2 right. unfold nonzero. rewrite decide_False by done. left. }
  destruct (take_children_ok R (x :: ext) g0 c0 c1 c2 (hd_heap _ _ _ _ _ _ Hh0)) as (g & Eg & Hg & Mg & Fg); [intros y Hy Ny; rewrite E0; by apply Kid, In3|].
  rewrite Ec3 in Hg, Fg. pose proof (mild_edges _ _ Mg) as E1.
  assert (Sk : forall y, y ∈ cs -> S y) by (intros y Hy; apply (rg_closed _ _ G c); [done|]; exists n; by rewrite Sn).
  assert (Hh : holding R S h (x :: ext) cs g).
  { destruct Hh0 as [_ K0 G0 O0 _]. split; [done| | | |].
    - intros y. eapply kept_trans; [by apply K0|by apply mild_kept].
    - apply (region_kept S (h_nodes g0)); [done| |by intros; apply mild_kept|intros y; rewrite E1; apply G0].
      intros y Sy. destruct (D y Sy) as [ny Hy]. destruct (K0 y ny Hy) as (? & ? & _). by eexists.
    - intros y Hy Ny. rewrite E1. by apply O0.
    - intros y Hy. left. split; [by apply Sk|]. intros ny. by apply Fg. }
  assert (Ncx : x ∉ cs) by (intros Hx; by apply Kid in Hx).
  assert (Nx0 : x <> c0 /\ x <> c1 /\ x <> c2).
  { rewrite Ecs in Ncx. rewrite !elem_of_cons in Ncx. split_and!; [tauto|tauto|]. intros E2. destruct (decide (c2 = 0)) as [->|N2]; [pose proof (ho_next _ _ _ H); unfold x in E2; lia|].
    apply Ncx. do 2 right. unfold nonzero. rewrite decide_False by done. rewrite E2. left. }
  destruct Nx0 as (Nx0 & Nx1 & Nx2). destruct (copy_eval g0 g x c0 c1 c2 nb) as [Hx Ev]; [apply lookup_alloc|done..|].
  exists (put g x (set_info (Branch c0 c1 c2) nb)). split.
  - unfold CFStorageCopyNode. rewrite (load_Ok h c n Hn). cbn [mbind result_bind]. rewrite create_alloc, (branch_isLeaf n cs B), Ei, Fz. exact Ev.
  - change (set_info (Branch c0 c1 c2) nb) with (set_numBytes (numBytes n) (set_info (Branch c0 c1 c2) nb)).
    apply (finish_three M vs R S h ext d c n H D Hn g cs ls c0 c1 c2 0 nb Hh); try done.
    + rewrite E1, E0. apply occ_zero in Ncx, Fe. unfold x in *. lia.
    + eapply (kids_kept M vs d (h_nodes h)); [apply Hh|done].
    + by rewrite Ecs; unfold nonzero at 3; rewrite decide_True, app_nil_r.
Qed.

End Copy.

End StorageCopy.
