(* ===== verification/StorageCache.v ===== *)
(** * Where the cached leaf is

    [leaf_at m a off k]: the leaf [k] is in the tree of [a] and starts at byte [off] of it.
    [cached]: the leaf says that it starts at byte [pos] of its storage.  In a heap without
    shared nodes the two agree after every operation. *)

From stdpp Require Import base list numbers option gmap relations.
From Stdlib Require Import ZArith Lia.
From S2P Require Import Prelude Storage StorageHeap StorageTree StorageLeaf StorageFrozen StorageInsert.
Import Storage StorageHeap StorageTree StorageLeaf StorageFrozen StorageInsert.

Module StorageCache.

Definition bytes_at (m : nodes) (a : Z) : Z := match m !! a with Some n => numBytes n | None => 0 end.

(** The bytes of the first [j] children. *)
Definition before (m : nodes) (cs : list Z) (j : nat) : Z := foldr Z.add 0 (map (bytes_at m) (take j cs)).

Inductive leaf_at (m : nodes) : Z -> Z -> Z -> Prop :=
| leaf_here (a : Z) (n : CFStorageNode) : m !! a = Some n -> isLeaf n = true -> leaf_at m a 0 a
| leaf_below (a : Z) (n : CFStorageNode) (cs : list Z) (j : nat) (y off k : Z) :
    m !! a = Some n -> branch_of n cs -> cs !! j = Some y -> leaf_at m y off k -> leaf_at m a (before m cs j + off) k.

Lemma before_app (m : nodes) (c1 c2 : list Z) (j : nat) : before m (c1 ++ c2) (length c1 + j) = before m c1 (length c1) + before m c2 j.
Proof.
  unfold before. rewrite take_app_add, firstn_all, map_app. induction (map (bytes_at m) c1) as [|x l IH]; cbn; [done|]. rewrite IH. lia.
Qed.

Lemma before_prefix (m : nodes) (c1 c2 : list Z) (j : nat) : (j <= length c1)%nat -> before m (c1 ++ c2) j = before m c1 j.
Proof. intros H. unfold before. by rewrite take_app_le. Qed.

Lemma before_step (m : nodes) (cs : list Z) (j : nat) (y : Z) : cs !! j = Some y -> before m cs (S j) = before m cs j + bytes_at m y.
Proof.
  intros Hj. unfold before. rewrite (take_S_r cs j y Hj), map_app. cbn [map]. induction (map (bytes_at m) (take j cs)) as [|x l IH]; cbn; [lia|]. rewrite IH. lia.
Qed.

Lemma before_same (m m' : nodes) (cs : list Z) (j : nat) : (forall y, y ∈ cs -> bytes_at m' y = bytes_at m y) -> before m' cs j = before m cs j.
Proof.
  intros H. unfold before. f_equal. apply map_ext_in. intros y Hy. apply H. apply list_elem_of_In in Hy. by apply elem_of_take in Hy as (i & ? & _); eapply list_elem_of_lookup_2.
Qed.

Lemma kept_bytes (m m' : nodes) (y : Z) : kept m m' y -> is_Some (m !! y) -> bytes_at m' y = bytes_at m y.
Proof. intros K [n Hn]. destruct (K n Hn) as (n' & Hn' & E & _). unfold bytes_at. by rewrite Hn, Hn'. Qed.

Lemma tree_bytes_at (M vs : Z) (d : nat) (m : nodes) (a : Z) (l : list cell) : tree M vs d m a l -> bytes_at m a = len l.
Proof. intros T. destruct (tree_bytes _ _ _ _ _ _ T) as (n & Hn & E). unfold bytes_at. by rewrite Hn. Qed.

Lemma kids_before (M vs : Z) (d : nat) (m : nodes) (cs : list Z) (ls : list (list cell)) (j : nat) :
  Forall2 (fun c lc => lc <> [] /\ tree M vs d m c lc) cs ls -> before m cs j = len (concat (take j ls)).
Proof.
  intros F. apply (Forall2_take _ _ _ j) in F. unfold before. induction F as [|c lc cs' ls' [_ T] F IH]; [done|]. cbn. rewrite IH, (tree_bytes_at _ _ _ _ _ _ T), length_app. lia.
Qed.

(** The leaf stays when the nodes below [a] look the same. *)
Lemma leaf_at_kept (m m' : nodes) (a off k : Z) :
  (forall b, rtc (edge m) a b -> is_Some (m !! b) /\ kept m m' b) -> leaf_at m a off k -> leaf_at m' a off k.
Proof.
  intros K L. induction L as [a n Hn Hl|a n cs j y off k Hn B Hj L IH].
  - destruct (K a (rtc_refl _ _)) as [_ Ka]. destruct (Ka n Hn) as (n' & Hn' & _ & _ & E & _). apply (leaf_here m' a n'); congruence.
  - assert (Ed : forall z, z ∈ cs -> edge m a z) by (intros z Hz; exists n; split; [done|]; by rewrite (branch_slots n cs B)).
    destruct (K a (rtc_refl _ _)) as [_ Ka]. destruct (Ka n Hn) as (n' & Hn' & _ & _ & _ & _ & _ & KB).
    rewrite <- (before_same m m').
    + eapply leaf_below; [done|by apply KB|done|]. apply IH. intros b Hb. apply K. eapply rtc_l; [|done]. apply Ed. by eapply list_elem_of_lookup_2.
    + intros z Hz. destruct (K z) as [D Kz]; [by apply rtc_once, Ed|]. by apply kept_bytes.
Qed.

(** No node has two parents. *)
Definition unshared (m : nodes) : Prop := forall y, (occ y (edges m) < 2)%nat.

(** The node [a] is rewritten; the leaf is below another node. *)
Lemma leaf_at_moved (h1 g1 : heap) (a z off k : Z) (m' : nodes) :
  (forall b, b ∈ edges (h_nodes h1) -> is_Some (h_nodes h1 !! b)) -> is_Some (h_nodes h1 !! z) -> ~ rtc (edge (h_nodes h1)) z a -> mild (h_nodes h1) (h_nodes g1) ->
  (forall y n, y <> a -> h_nodes g1 !! y = Some n -> m' !! y = Some n) -> leaf_at (h_nodes h1) z off k -> leaf_at m' z off k.
Proof.
  intros D Dz Na Mi Km. apply leaf_at_kept. intros b Hb. split.
  - destruct (reach_last _ z b Hb) as [<-|(p & _ & np & Hp & Hy)]; [done|]. apply D, edges_elem. by exists p, np.
  - eapply kept_trans; [by apply mild_kept|]. assert (b <> a) by (by intros ->). intros n Hn. exists n. split_and!; try done. by apply Km.
Qed.

Lemma spread_leaf (m : nodes) (cs : list Z) (i : nat) (c sib off k : Z) :
  cs !! i = Some c -> (leaf_at m c off k \/ sib <> 0 /\ leaf_at m sib (off - bytes_at m c) k) -> exists j z offz,
    spread cs i c sib !! j = Some z /\ leaf_at m z offz k /\ before m (spread cs i c sib) j + offz = before m cs i + off.
Proof.
  intros Hc. pose proof (lookup_lt_Some _ _ _ Hc) as Li. assert (Lt : length (take i cs) = i) by (rewrite length_take; lia).
  assert (Ei : forall tl, (take i cs ++ c :: tl) !! i = Some c) by (intros tl; rewrite lookup_app_r by lia; by rewrite Lt, Nat.sub_diag).
  assert (Eb : forall tl, before m (take i cs ++ c :: tl) i = before m cs i).
  { intros tl. rewrite before_prefix by lia. unfold before. by rewrite take_take, Nat.min_id. }
  intros [L|[Ns L]]; unfold spread.
  - exists i, c, off. by rewrite Ei, Eb.
  - exists (S i), sib, (off - bytes_at m c). split_and!; [|done|].
    + rewrite lookup_app_r by lia. rewrite Lt. replace (S i - i)%nat with 1%nat by lia. cbn. unfold nonzero. by rewrite decide_False.
    + rewrite (before_step _ _ i c) by apply Ei. rewrite Eb. lia.
Qed.

Section Cached.

Context (vs : Z) (s : CFStorage).

Definition cached (m : nodes) (k pos : Z) : Prop :=
  exists n kk, m !! k = Some n /\ isLeaf n = true /\ cachedRange n = conv s pos kk /\ 0 <= kk <= numBytes n /\ (vs | kk).

(** The cached leaf [k] is in the tree of [a], which starts at byte [base], or in that of
    the sibling behind it. *)
Definition cache_at (m : nodes) (a sib base k : Z) : Prop :=
  exists off, cached m k (base + off) /\ (leaf_at m a off k \/ sib <> 0 /\ leaf_at m sib (off - bytes_at m a) k).

Lemma cached_lookup (m m' : nodes) (k pos : Z) : cached m k pos ->
  (forall n, m !! k = Some n -> isLeaf n = true -> exists n', m' !! k = Some n' /\ info n' = info n /\ numBytes n' = numBytes n) -> cached m' k pos.
Proof.
  intros (n & kk & Hn & Hl & Hc & Hk & V) K. destruct (K n Hn Hl) as (n' & Hn' & Ei & En). exists n', kk.
  unfold isLeaf, cachedRange in *. rewrite Ei, En. done.
Qed.

Lemma cached_mild (m m' : nodes) (k pos : Z) : mild m m' -> cached m k pos -> cached m' k pos.
Proof. intros Mi C. apply (cached_lookup m m' k pos C). intros n Hn _. destruct (mild_lookup _ _ k n Mi Hn) as (n' & ? & ? & ? & _). by exists n'. Qed.

Lemma cached_put (m : nodes) (a k pos : Z) (na n' : CFStorageNode) (cs : list Z) : m !! a = Some na -> branch_of na cs -> cached m k pos -> cached (<[a := n']> m) k pos.
Proof.
  intros Ha B C. apply (cached_lookup m _ k pos C). intros n Hn Hl. assert (a <> k) by (intros <-; rewrite Ha in Hn; injection Hn as <-; apply branch_isLeaf in B; congruence).
  exists n. by rewrite lookup_insert_ne.
Qed.

Lemma cached_new (m : nodes) (x k pos : Z) (n : CFStorageNode) : m !! x = None -> cached m k pos -> cached (<[x := n]> m) k pos.
Proof. intros Hx C. apply (cached_lookup m _ k pos C). intros n' Hn' _. exists n'. rewrite lookup_insert_ne; [done|]. intros <-. congruence. Qed.

(** ** The leaf functions *)

Lemma leaf_cache_at (M : Z) (h h' : heap) (s' : CFStorage) (a sib base : Z) (n : CFStorageNode) (l' : list cell) :
  a <> h_next h -> h_next h <> 0 -> leaf_result M vs s h a n base l' h' s' sib -> cache_at (h_nodes h') a sib base (cacheNode s').
Proof.
  intros Na N0 [n1 kk Sim L1 Hc Hk V|n1 n2 l1 l2 c kk Sim R2 L1 L2 N1 N2 El V Hc]; cbn [cacheNode set_cache].
  - exists 0. assert (h_nodes (put h a n1) !! a = Some n1) as Ha by apply lookup_insert_eq. rewrite Z.add_0_r. split.
    + exists n1, kk. split_and!; try done; [by eapply leaf_isLeaf|lia|lia].
    + left. eapply leaf_here; [done|by eapply leaf_isLeaf].
  - assert (Ha : h_nodes (put (alloc h n2) a n1) !! a = Some n1) by apply lookup_insert_eq.
    assert (Hx : h_nodes (put (alloc h n2) a n1) !! h_next h = Some n2) by (cbn; rewrite lookup_insert_ne by done; apply lookup_insert_eq).
    destruct Hc as [(-> & Hc & Hk)|(-> & Hc & Hk)].
    + exists 0. rewrite Z.add_0_r. split; [exists n1, kk; split_and!; try done; [by eapply leaf_isLeaf|lia|lia]|]. left. eapply leaf_here; [done|by eapply leaf_isLeaf].
    + exists (len l1). split; [exists n2, kk; split_and!; try done; [by eapply leaf_isLeaf|lia|lia]|]. right. split; [done|].
      unfold bytes_at. rewrite Ha, (leaf_bytes _ _ _ _ L1), Z.sub_diag. eapply leaf_here; [done|by eapply leaf_isLeaf].
Qed.

End Cached.

End StorageCache.
