(* ===== verification/StorageRelease.v ===== *)
(** * Releasing a reference

    [__CFStorageReleaseNode] gives up one reference: the counts stay right, what is still
    referenced stays as it is, and the nodes that nothing references any more are freed.
    A run of it does not depend on the nodes that it cannot reach. *)

From stdpp Require Import base list numbers option gmap relations.
From Stdlib Require Import ZArith Lia.
From S2P Require Import Prelude Storage StorageHeap StorageTree StorageLeaf StorageFrozen StorageInsert StorageCache.
Import Storage StorageHeap StorageTree StorageLeaf StorageFrozen StorageInsert StorageCache.

Module StorageRelease.

Abbreviation reach m := (rtc (edge m)).

(** Every path from [a] ends after at most [d] pointers. *)
Fixpoint within (d : nat) (m : nodes) (a : Z) : Prop :=
  exists n, m !! a = Some n /\ match d with O => slots n = [] | S d => Forall (within d m) (slots n) end.

Lemma tree_within (M vs : Z) (d : nat) (m : nodes) (a : Z) (l : list cell) : tree M vs d m a l -> within d m a.
Proof.
  revert a l. induction d as [|d IH]; intros a l T; destruct (tree_bytes _ _ _ _ _ _ T) as (n & Hn & _); exists n; (split; [done|]);
    destruct (tree_node _ _ _ _ _ _ n T Hn) as [L|(d' & cs & ls & [=] & B & -> & _ & F)]; [by eapply leaf_slots|by rewrite (leaf_slots _ _ _ _ L)|].
  subst d'. rewrite (branch_slots n cs B). clear - F IH. induction F as [|c lc cs ls [_ T] F IHF]; constructor; [by eapply IH|done].
Qed.

Lemma empty_within (d : nat) (m : nodes) (a : Z) (n : CFStorageNode) : m !! a = Some n -> slots n = [] -> within d m a.
Proof. intros Hn E. destruct d; exists n; [done|]. by rewrite E. Qed.

(** The nodes that are left are as they were, up to their counts. *)
Definition thin (m m' : nodes) : Prop :=
  forall y n', m' !! y = Some n' -> exists n, m !! y = Some n /\ numBytes n' = numBytes n /\ isFrozen n' = isFrozen n /\ info n' = info n.

Lemma thin_refl (m : nodes) : thin m m.
Proof. intros y n Hn. by exists n. Qed.

Lemma thin_trans (m1 m2 m3 : nodes) : thin m1 m2 -> thin m2 m3 -> thin m1 m3.
Proof.
  intros H1 H2 y n3 H3. destruct (H2 y n3 H3) as (n2 & Hn2 & ? & ? & ?). destruct (H1 y n2 Hn2) as (n1 & Hn1 & ? & ? & ?). exists n1. split_and!; congruence.
Qed.

Lemma thin_recount (m : nodes) (a v : Z) (n : CFStorageNode) : m !! a = Some n -> thin m (<[a := set_refCount v n]> m).
Proof.
  intros Hn y n'. destruct (decide (y = a)) as [->|N]; [rewrite lookup_insert_eq; intros [= <-]; by exists n|]. rewrite lookup_insert_ne by done. intros H. by exists n'.
Qed.

Lemma thin_delete (m : nodes) (a : Z) : thin m (delete a m).
Proof. intros y n Hn. apply lookup_delete_Some in Hn as [_ Hn]. by exists n. Qed.

Lemma thin_slots (n n' : CFStorageNode) : info n' = info n -> slots n' = slots n.
Proof. unfold slots. by intros ->. Qed.

Lemma thin_edge (m m' : nodes) (p c : Z) : thin m m' -> edge m' p c -> edge m p c.
Proof. intros T (n' & Hn' & Hc). destruct (T p n' Hn') as (n & Hn & _ & _ & Ei). exists n. by rewrite <- (thin_slots _ _ Ei). Qed.

Lemma thin_reach (m m' : nodes) (a y : Z) : thin m m' -> reach m' a y -> reach m a y.
Proof. intros T. induction 1 as [a|a c y E _ IH]; [done|]. eapply rtc_l; [by eapply thin_edge|done]. Qed.

Lemma thin_None (m m' : nodes) (y : Z) : thin m m' -> m !! y = None -> m' !! y = None.
Proof. intros T E. destruct (m' !! y) as [n'|] eqn:E'; [|done]. destruct (T y n' E') as (n & ? & _). congruence. Qed.

Lemma thin_occ (m m' : nodes) (y : Z) : thin m m' -> (occ y (edges m') <= occ y (edges m))%nat.
Proof.
  revert m. induction m' as [|k n' m' Hk IH] using map_ind; intros m T; [unfold edges; rewrite map_to_list_empty; cbn; lia|].
  destruct (T k n') as (n & Hn & _ & _ & Ei); [apply lookup_insert_eq|]. rewrite (edges_insert_new m' k n' Hk), (edges_delete m k n Hn), !occ_app, (thin_slots _ _ Ei).
  assert (T' : thin (delete k m) m'); [|specialize (IH _ T'); lia]. intros z nz Hz. assert (z <> k) by (intros ->; congruence).
  rewrite lookup_delete_ne by done. apply T. by rewrite lookup_insert_ne.
Qed.

(** What is still referenced keeps its contents. *)
Section Alive.

Context (m m' : nodes) (T : thin m m') (A : forall b, b ∈ edges m' -> is_Some (m' !! b)).

Lemma within_thin (d : nat) (a : Z) : is_Some (m' !! a) -> within d m a -> within d m' a.
Proof.
  revert a. induction d as [|d IH]; intros a [n' Hn'] (n & Hn & F); destruct (T a n' Hn') as (n0 & Hn0 & _ & _ & Ei); rewrite Hn in Hn0; injection Hn0 as <-; exists n'; (split; [done|]);
    rewrite (thin_slots _ _ Ei); [done|].
  apply list.Forall_forall. intros c Hc. rewrite list.Forall_forall in F. apply IH; [|by apply F]. apply A, edges_elem. exists a, n'. by rewrite (thin_slots _ _ Ei).
Qed.

Lemma leaf_thin (M vs : Z) (n n' : CFStorageNode) (l : list cell) : numBytes n' = numBytes n -> info n' = info n -> leaf_of M vs n l -> leaf_of M vs n' l.
Proof. intros Eb Ei (c & mem & r & L). exists c, mem, r. by rewrite Eb, Ei. Qed.

Lemma branch_thin (n n' : CFStorageNode) (cs : list Z) : info n' = info n -> branch_of n cs -> branch_of n' cs.
Proof. intros Ei (c0 & c1 & c2 & L). exists c0, c1, c2. by rewrite Ei. Qed.

Lemma tree_thin (M vs : Z) (d : nat) (a : Z) (l : list cell) : is_Some (m' !! a) -> tree M vs d m a l -> tree M vs d m' a l.
Proof.
  revert a l. induction d as [|d IH]; intros a l [n' Hn'] Ta; destruct (T a n' Hn') as (n & Hn & Eb & _ & Ei);
    destruct (tree_node _ _ _ _ _ _ n Ta Hn) as [L|(d' & cs & ls & [=] & B & -> & En & F)]; try by eapply tree_leaf; [|by eapply leaf_thin].
  subst d'. apply (tree_branch _ _ _ _ _ n' cs); [done|by eapply branch_thin|congruence|].
  assert (Ac : forall c, c ∈ cs -> is_Some (m' !! c)) by (intros c Hc; apply A, edges_elem; exists a, n'; rewrite (thin_slots _ _ Ei), (branch_slots n cs B); done).
  clear - F Ac IH. induction F as [|c lc cs ls [Nl Tc] F IHF]; constructor; [split; [done|apply IH; [apply Ac; left|done]]|]. apply IHF. intros c' Hc. apply Ac. by right.
Qed.

End Alive.

(** ** Freeing a node *)

Definition del (h : heap) (a : Z) : heap := mkHeap (delete a (h_nodes h)) (h_next h).

Section Free.

Context {R : gset Z}.

(** The node with the last reference goes; its slots are references of the function. *)
Lemma del_ok (ext : list Z) (h : heap) (a : Z) (n : CFStorageNode) :
  heap_ok R (a :: ext) h -> h_nodes h !! a = Some n -> refCount n = 1 -> heap_ok R (slots n ++ ext) (del h a) /\ (a ∉ edges (h_nodes h)) /\ a ∉ ext.
Proof.
  intros H Hn R1. destruct (referenced_count _ h a n H Hn) as (Na & C1 & _); [by left|]. rewrite occ_cons, decide_True in C1 by done.
  assert (E0 : a ∉ edges (h_nodes h)) by (apply occ_zero; lia). assert (X0 : a ∉ ext) by (apply occ_zero; lia). split; [|done].
  destruct H as [C F B X D O]. pose proof (edges_delete _ a n Hn) as E.
  assert (P : (slots n ++ ext) ++ edges (delete a (h_nodes h)) ≡ₚ ext ++ edges (h_nodes h)) by (rewrite E; solve_Permutation).
  split; cbn.
  - intros b nb Hb. apply lookup_delete_Some in Hb as [Nb Hb]. rewrite (C b nb Hb). destruct (decide _); [done|]. rewrite P. cbn [app]. rewrite occ_cons, decide_False by done. done.
  - intros b nb Hb O2. apply lookup_delete_Some in Hb as [Nb Hb]. apply (F b nb Hb). rewrite E, occ_app. lia.
  - intros b nb Hb. apply lookup_delete_Some in Hb as [_ Hb]. by apply (B b nb).
  - done.
  - intros b. rewrite P. intros Hb. destruct (D b) as [? ?]; [by right|]. split; [done|]. rewrite lookup_delete_ne; [done|]. intros <-.
    apply elem_of_app in Hb as [?|?]; done.
  - intros r Hr. rewrite lookup_delete_ne by (by intros <-). by apply O.
Qed.

(** ** Nodes that a run cannot reach *)

Definition over (X : nodes) (h : heap) : heap := mkHeap (X ∪ h_nodes h) (h_next h).

Lemma over_lookup (X : nodes) (h : heap) (a : Z) : X !! a = None -> h_nodes (over X h) !! a = h_nodes h !! a.
Proof. intros E. cbn. by apply lookup_union_r. Qed.

Lemma over_put (X : nodes) (h : heap) (a : Z) (n : CFStorageNode) : X !! a = None -> put (over X h) a n = over X (put h a n).
Proof. intros E. unfold put, over. cbn. f_equal. by apply insert_union_r. Qed.

Lemma over_free (X : nodes) (h : heap) (a : Z) (n : CFStorageNode) : X !! a = None -> put (over X h) a n = over (<[a := n]> X) (del h a).
Proof.
  intros E. unfold put, over, del. cbn. f_equal. apply map_eq. intros y. destruct (decide (y = a)) as [->|N].
  - rewrite lookup_insert_eq. symmetry. apply lookup_union_Some_l. apply lookup_insert_eq.
  - rewrite lookup_insert_ne by done. by rewrite !lookup_union, lookup_insert_ne, lookup_delete_ne.
Qed.

Lemma over_del (X : nodes) (h : heap) (a : Z) (n : CFStorageNode) : X !! a = None -> h_nodes h !! a = None -> del (over (<[a := n]> X) h) a = over X h.
Proof.
  intros E1 E2. unfold del, over. cbn. f_equal. apply map_eq. intros y. destruct (decide (y = a)) as [->|N].
  - rewrite lookup_delete_eq, lookup_union, E1, E2. done.
  - by rewrite lookup_delete_ne, !lookup_union, lookup_insert_ne.
Qed.

Lemma over_empty (h : heap) : over ∅ h = h.
Proof. destruct h. unfold over. cbn. by rewrite map_empty_union. Qed.

(** What a release does. *)
Record released (run : heap -> result heap) (ext : list Z) (h : heap) (a : Z) (h' : heap) : Prop := mk_released {
  re_heap : heap_ok R ext h';
  re_thin : thin (h_nodes h) (h_nodes h');
  re_next : h_next h' = h_next h;
  re_frame : forall X, (forall y, is_Some (X !! y) -> ~ reach (h_nodes h) a y) -> run (over X h) = Ok (over X h')
}.

Lemma released_run (run : heap -> result heap) (ext : list Z) (h : heap) (a : Z) (h' : heap) : released run ext h a h' -> run h = Ok h'.
Proof. intros [_ _ _ F]. specialize (F ∅). rewrite !over_empty in F. apply F. intros y. rewrite lookup_empty. by intros [? [=]]. Qed.

Lemma released_same (run : heap -> result heap) (ext : list Z) (h : heap) (a y : Z) (h' : heap) :
  released run ext h a h' -> ~ reach (h_nodes h) a y -> h_nodes h' !! y = h_nodes h !! y.
Proof.
  intros Re Ny. destruct (h_nodes h !! y) as [n|] eqn:E; [|by eapply thin_None; [apply Re|]]. pose proof (released_run _ _ _ _ _ Re) as Run.
  destruct Re as [_ _ _ F]. specialize (F {[y := n]}). assert (over {[y := n]} h = h) as Eo.
  { destruct h as [m x]. unfold over. cbn in *. f_equal. rewrite <- insert_union_singleton_l. by apply insert_id. }
  rewrite Eo, Run in F. assert (Ok h' = Ok (over {[y := n]} h')) as [= ->] by (apply F; by intros z [? [-> _]%lookup_singleton_Some]).
  cbn. apply lookup_union_Some_l. apply lookup_singleton_eq.
Qed.

(** ** The recursion *)

(** A slot is released unless it is NULL. *)
Definition release_slot (fuel : nat) (c : Z) (h : heap) : result heap := if c =? 0 then Ok h else CFStorageReleaseNode fuel h c.

Definition release_each (fuel : nat) (cs : list Z) (h : heap) : result heap := foldl (fun r c => h ← r; release_slot fuel c h) (Ok h) cs.

Lemma release_each_cons (fuel : nat) (c : Z) (cs : list Z) (h : heap) : release_each fuel (c :: cs) h = h' ← release_slot fuel c h; release_each fuel cs h'.
Proof.
  unfold release_each. cbn [foldl mbind result_bind]. destruct (release_slot fuel c h) as [h'| | |]; cbn [mbind result_bind]; [done|..];
    induction cs as [|c' cs IH]; cbn; done.
Qed.

Definition releasable (fuel : nat) : Prop := forall d h ext a, (d < fuel)%nat -> heap_ok R (a :: ext) h -> within d (h_nodes h) a ->
  exists h', released (fun h => CFStorageReleaseNode fuel h a) ext h a h'.

(** The references [cs] are given up one after the other. *)
Lemma release_each_ok (fuel : nat) : releasable fuel -> forall cs d h ext, (d < fuel)%nat -> heap_ok R (filter (fun c => c <> 0) cs ++ ext) h ->
  Forall (fun c => c <> 0 -> within d (h_nodes h) c) cs -> exists h', heap_ok R ext h' /\ thin (h_nodes h) (h_nodes h') /\ h_next h' = h_next h /\
    forall X, (forall y c, is_Some (X !! y) -> c ∈ cs -> c <> 0 -> ~ reach (h_nodes h) c y) -> release_each fuel cs (over X h) = Ok (over X h').
Proof.
  intros IH. induction cs as [|c cs IHc]; intros d h ext Hd H F; [exists h; split_and!; [done|apply thin_refl|done|by intros]|].
  apply Forall_cons in F as [Fc F]. rewrite filter_cons in H. destruct (decide (c = 0)) as [->|Nc].
  - rewrite decide_False in H by (by intros []). destruct (IHc d h ext Hd H F) as (h' & H' & T & Nx & Fr). exists h'. split_and!; try done.
    intros X HX. rewrite release_each_cons. cbn. apply Fr. intros y c' Hy Hc'. apply HX; [done|by right].
  - rewrite decide_True in H by done. cbn [app] in H. destruct (IH d h _ c Hd H (Fc Nc)) as (h1 & Re). pose proof Re as [H1 T1 N1 F1].
    destruct (IHc d h1 ext Hd H1) as (h' & H' & T & Nx & Fr).
    { apply list.Forall_forall. intros c' Hc' Nc'. rewrite list.Forall_forall in F.
      assert (D1 : forall b, b ∈ edges (h_nodes h1) -> is_Some (h_nodes h1 !! b)) by (intros b Hb; apply (ho_refs _ _ _ H1), elem_of_app; by right).
      apply (within_thin (h_nodes h)); [done|done| |by apply F]. apply (ho_refs _ _ _ H1), elem_of_app. left. apply elem_of_app. left. by apply list_elem_of_filter. }
    exists h'. split_and!; [done|by eapply thin_trans|congruence|]. intros X HX. rewrite release_each_cons. unfold release_slot. destruct (Z.eqb_spec c 0); [done|].
    rewrite F1 by (intros y Hy; apply HX; [done|left|done]). cbn [mbind result_bind]. apply Fr. intros y c' Hy Hc' Nc' Hr.
    apply (HX y c' Hy); [by right|done|]. by eapply thin_reach.
Qed.

(** The code for the last reference. *)
Lemma release_last (fuel : nat) (h : heap) (a : Z) (n : CFStorageNode) : h_nodes h !! a = Some n -> refCount n = 1 ->
  CFStorageReleaseNode (S fuel) h a =
    g ← release_each fuel (match info n with Leaf _ _ _ => [] | Branch c0 c1 c2 => [c0; c1; c2] end) (put h a (set_refCount 0 n)); Ok (del g a).
Proof.
  intros Hn R1. cbn [CFStorageReleaseNode]. rewrite (load_Ok h a n Hn). cbn [mbind result_bind]. rewrite R1. cbn [Z.ltb Z.compare Z.sub Z.add Z.opp Z.pos_sub Z.eqb].
  destruct (info n); [done|]. rewrite !release_each_cons. unfold release_slot. repeat (case_match; cbn [mbind result_bind]; try done).
Qed.

Lemma release_ok (fuel : nat) : releasable fuel.
Proof.
  induction fuel as [|fuel IH]; intros d h ext a Hd H W; [lia|]. assert (exists n, h_nodes h !! a = Some n) as [n Hn] by (destruct d; destruct W as (n & ? & _); by exists n).
  destruct (referenced_count _ h a n H Hn) as (Na & _ & Lr); [by left|]. destruct (decide (refCount n = 1)) as [R1|R1].
  - destruct (del_ok ext h a n H Hn R1) as (Hd' & Ea & Xa). set (cs := match info n with Leaf _ _ _ => [] | Branch c0 c1 c2 => [c0; c1; c2] end).
    assert (Es : slots n = filter (fun c => c <> 0) cs) by (unfold slots, cs; by destruct (info n)).
    assert (Ns : forall c, c ∈ slots n -> c <> a) by (intros c Hc ->; apply Ea, edges_elem; by exists a, n).
    assert (Rd : forall c y, c ∈ slots n -> reach (h_nodes (del h a)) c y -> reach (h_nodes h) a y).
    { intros c y Hc Hr. eapply rtc_l; [by exists n|]. eapply thin_reach; [apply (thin_delete _ a)|exact Hr]. }
    assert (exists h', heap_ok R ext h' /\ thin (h_nodes (del h a)) (h_nodes h') /\ h_next h' = h_next h /\
      forall X, (forall y c, is_Some (X !! y) -> c ∈ cs -> c <> 0 -> ~ reach (h_nodes (del h a)) c y) -> release_each fuel cs (over X (del h a)) = Ok (over X h')) as (h' & H' & T & Nx & Fr).
    { destruct d as [|d].
      - destruct W as (n0 & Hn0 & E0). rewrite Hn in Hn0. injection Hn0 as <-. exists (del h a). rewrite E0 in Hd', Es. split_and!; [done|apply thin_refl|done|].
        intros X _. clear - Es. unfold cs in *. destruct (info n) as [|c0 c1 c2]; [done|]. symmetry in Es. rewrite !filter_cons in Es.
        rewrite !release_each_cons. unfold release_slot.
        destruct (decide (c0 <> 0)), (decide (c1 <> 0)), (decide (c2 <> 0)); try done.
        assert (c0 = 0) as -> by lia. assert (c1 = 0) as -> by lia. assert (c2 = 0) as -> by lia. done.
      - destruct W as (n0 & Hn0 & Fw). rewrite Hn in Hn0. injection Hn0 as <-.
        destruct (release_each_ok fuel IH cs d (del h a) ext) as (h' & ? & ? & ? & ?); [lia|by rewrite <- Es| |by exists h'].
        apply list.Forall_forall. intros c Hc Nc. assert (Hcs : c ∈ slots n) by (rewrite Es; by apply list_elem_of_filter).
        apply (within_thin (h_nodes h)); [apply thin_delete| | |rewrite list.Forall_forall in Fw; by apply Fw].
        + intros b Hb. apply (ho_refs _ _ _ Hd'), elem_of_app. by right.
        + apply (ho_refs _ _ _ Hd'), elem_of_app. left. apply elem_of_app. by left. }
    exists h'. split; [done|eapply thin_trans; [apply (thin_delete _ a)|exact T]|done|]. intros X HX.
    assert (Xa' : X !! a = None) by (destruct (X !! a) eqn:E; [destruct (HX a); [by eexists|done]|done]).
    rewrite (release_last fuel _ a n) by (done || by rewrite over_lookup). fold cs. rewrite over_free by done. rewrite Fr; cbn [mbind result_bind].
    + rewrite over_del; [done|done|]. eapply thin_None; [exact T|]. apply lookup_delete_eq.
    + intros y c Hy Hc Nc Hr. assert (Hcs : c ∈ slots n) by (rewrite Es; by apply list_elem_of_filter).
      destruct (decide (y = a)) as [->|Ny]; [|rewrite lookup_insert_ne in Hy by done; apply (HX y Hy); by eapply Rd].
      destruct (reach_last _ _ _ Hr) as [E|(p & _ & np & Hp & Hq)]; [by apply (Ns c)|]. cbn in Hp. apply lookup_delete_Some in Hp as [_ Hp]. apply Ea, edges_elem. by exists p, np.
  - exists (put h a (set_refCount (refCount n - 1) n)). split.
    + apply (recount_ok (a :: ext)); [done..| |]; [rewrite occ_cons, decide_True by done; lia|]. intros b Nb. by rewrite occ_cons, decide_False.
    + by apply thin_recount.
    + done.
    + intros X HX. assert (Xa' : X !! a = None) by (destruct (X !! a) eqn:E; [destruct (HX a); [by eexists|done]|done]).
      cbn [CFStorageReleaseNode]. rewrite (load_Ok _ a n) by (by rewrite over_lookup). cbn [mbind result_bind]. destruct (Z.ltb_spec 0 (refCount n)); [|lia].
      destruct (Z.eqb_spec (refCount n - 1) 0); [lia|]. by rewrite over_put.
Qed.

End Free.

End StorageRelease.
