(* ===== verification/StorageUnfrozen.v ===== *)
(** * Insertion into nodes that are not shared

    [__CFStorageInsertUnfrozen] changes its node in place, and [__CFStorageInsert] chooses
    between it and [__CFStorageInsertFrozen] by the mark and the count of the node.  Both
    keep the nodes of the context of the node they change, hence every other storage. *)

From stdpp Require Import base list numbers option gmap relations.
From Stdlib Require Import ZArith Lia.
From S2P Require Import Prelude Storage StorageHeap StorageTree StorageLeaf StorageFrozen StorageInsert StorageCache.
Import Storage StorageHeap StorageTree StorageLeaf StorageFrozen StorageInsert StorageCache.

Module StorageUnfrozen.

Abbreviation reach m := (rtc (edge m)).

(** ** Pointers of heaps that keep their nodes *)

Lemma kept_edges (m m' : nodes) : (forall x, kept m m' x) -> forall y, (occ y (edges m) <= occ y (edges m'))%nat.
Proof.
  revert m'. induction m as [|k n m Hk IH] using map_ind; intros m' K y; [unfold edges at 1; rewrite map_to_list_empty; cbn; lia|].
  destruct (K k n) as (n' & Hn' & _ & E & _); [apply lookup_insert_eq|].
  rewrite edges_insert_new, (edges_delete m' k n' Hn'), !occ_app, E by done. apply Nat.add_le_mono_l, IH.
  intros x nx Hx. assert (x <> k) by (by intros ->; rewrite Hk in Hx). destruct (K x nx) as (n2 & H2 & P); [by rewrite lookup_insert_ne|].
  exists n2. by rewrite lookup_delete_ne.
Qed.

Lemma edge_put_same (m : nodes) (c p x : Z) (n n' : CFStorageNode) :
  m !! c = Some n -> slots n' = slots n -> edge (<[c := n']> m) p x <-> edge m p x.
Proof.
  intros Hc E. unfold edge. destruct (decide (p = c)) as [->|N]; [rewrite lookup_insert_eq, Hc|by rewrite lookup_insert_ne].
  split; intros (n0 & [= <-] & Hx); eexists; (split; [reflexivity|]); [by rewrite <- E|by rewrite E].
Qed.

Lemma context_put_same (R : gset Z) (Q : Z -> Prop) (m : nodes) (a c : Z) (n n' : CFStorageNode) :
  m !! c = Some n -> slots n' = slots n -> context R Q m a -> context R Q (<[c := n']> m) a.
Proof.
  intros Hc E [X1 X2 X3 X4 X5]. assert (Ee : forall p x, edge (<[c := n']> m) p x <-> edge m p x) by (intros; by apply (edge_put_same m c p x n)). split.
  - intros b Qb. destruct (decide (b = c)) as [->|N]; [rewrite lookup_insert_eq; by eexists|]. rewrite lookup_insert_ne by done. by apply X1.
  - done.
  - intros b x Qb Hx. apply (X3 b x Qb), Ee, Hx.
  - intros b Qb. rewrite (edges_same m c n n' Hc E). destruct (X4 b Qb) as [?|[?|(q & Qq & Hq)]]; [by left|by right; left|right; right]. exists q. by rewrite Ee.
  - destruct X5 as [?|(q & Qq & Hq)]; [by left|right]. exists q. by rewrite Ee.
Qed.

Lemma tree_put_unreached (M vs : Z) (d : nat) (m : nodes) (x y : Z) (n : CFStorageNode) (l : list cell) :
  ~ reach m y x -> tree M vs d m y l -> tree M vs d (<[x := n]> m) y l.
Proof.
  intros Hr. apply (tree_kept M vs (reach m y) d m); [by intros b c Hb Hc; eapply rtc_r| |done]. intros b Hb. apply kept_ne. by intros ->.
Qed.

Lemma release_count (h : heap) (c : Z) (n : CFStorageNode) :
  h_nodes h !! c = Some n -> 2 <= refCount n -> release h c = Ok (put h c (set_refCount (refCount n - 1) n)).
Proof.
  intros Hc Hr. unfold release, steps. cbn [CFStorageReleaseNode]. rewrite (load_Ok h c n Hc). cbn.
  destruct (Z.ltb_spec 0 (refCount n)); [|lia]. by destruct (Z.eqb_spec (refCount n - 1) 0); [lia|].
Qed.

Lemma set_child_same (h : heap) (a c : Z) (i : nat) (n : CFStorageNode) (cs : list Z) :
  h_nodes h !! a = Some n -> branch_of n cs -> cs !! i = Some c -> CFStorageSetChild h a (Z.of_nat i) c = Ok h.
Proof.
  intros Hn (c0 & c1 & c2 & E & _ & _ & ->) Hc. destruct (set_child_ok h a c0 c1 c2 c n Hn E) as (E0 & E1 & E2).
  assert (Id : forall v, v = info n -> put h a (set_info v n) = h) by (intros v ->; apply put_id; by destruct n).
  destruct i as [|[|[|i]]]; cbn in Hc.
  - injection Hc as ->. change (Z.of_nat 0) with 0. by rewrite E0, Id.
  - injection Hc as ->. change (Z.of_nat 1) with 1. by rewrite E1, Id.
  - destruct (decide (c2 = 0)); [done|]. injection Hc as ->. change (Z.of_nat 2) with 2. by rewrite E2, Id.
  - by destruct (decide (c2 = 0)).
Qed.

Lemma mild_insert (m m' : nodes) (a : Z) (n : CFStorageNode) : mild m m' -> mild (<[a := n]> m) (<[a := n]> m').
Proof.
  intros H x. destruct (decide (x = a)) as [->|N]; [by rewrite !lookup_insert_eq|]. rewrite !lookup_insert_ne by done. apply H.
Qed.

Section Unfrozen.

Context (M vs : Z) (HK : M <= kMaxLeafCapacity) (HV : (vs | M)) (R : gset Z) (S : Z -> Prop).

Abbreviation kids d m := (Forall2 (fun c lc => lc <> [] /\ tree M vs d m c lc)).

Lemma kids_put_unreached (d : nat) (m : nodes) (x : Z) (n : CFStorageNode) (cs : list Z) (ls : list (list cell)) :
  (forall y, y ∈ cs -> ~ reach m y x) -> kids d m cs ls -> kids d (<[x := n]> m) cs ls.
Proof.
  intros Sub K. induction K as [|y ly cs' ls' [Ny Ty] K IH]; constructor; [split; [done|]|by apply IH; intros z Hz; apply Sub; right].
  apply tree_put_unreached; [apply Sub; left|done].
Qed.

(** The ancestors of a node with one parent are those of its context. *)
Lemma ancestors (Q : Z -> Prop) (ext : list Z) (h h1 : heap) (a z : Z) :
  context R Q (h_nodes h) a -> region S (h_nodes h) -> heap_ok R ext h1 -> ~ S a ->
  (forall y, Q y \/ y = a -> kept (h_nodes h) (h_nodes h1) y) ->
  (forall y, is_Some (h_nodes h !! y) -> ~ S y -> (occ y (edges (h_nodes h1)) <= occ y (edges (h_nodes h)))%nat) -> is_Some (h_nodes h !! a) ->
  reach (h_nodes h1) z a -> (Q z \/ z = a) /\ ~ S z.
Proof.
  intros X G H1 Sa K Od Da Hr. remember a as y eqn:Ey in Hr. induction Hr as [y|z w y Hzw Hr IH]; [subst y; split; [by right|done]|].
  destruct (IH Ey) as [Pw Sw]. assert (Ow : (occ w (edges (h_nodes h)) < 2)%nat).
  { destruct (decide (2 <= occ w (edges (h_nodes h)))%nat) as [L|L]; [|lia]. by apply (rg_shared _ _ G) in L. }
  assert (Ew : w ∈ edges (h_nodes h1)) by (apply edges_elem; destruct Hzw as (nz & ? & ?); by exists z, nz).
  assert (Rw : w ∉ R) by (apply (ho_refs _ _ _ H1); apply elem_of_app; by right).
  assert (Dw : is_Some (h_nodes h !! w)) by (destruct Pw as [Qw| ->]; [by apply (cx_dom _ _ _ _ X)|done]).
  assert (exists q, Q q /\ edge (h_nodes h) q w) as (q & Qq & Hq).
  { destruct Pw as [Qw| ->]; [destruct (cx_support _ _ _ _ X w Qw) as [?|[?|?]]; [done|lia|done]|]. by destruct (cx_entry _ _ _ _ X). }
  pose proof (kept_edge _ _ q w (K q (or_introl Qq)) Hq) as (nq & Hnq & Hwq). destruct Hzw as (nz & Hnz & Hwz).
  assert (z = q) as ->.
  { destruct (decide (z = q)) as [|N]; [done|]. pose proof (two_parents _ z q w nz nq N Hnz Hnq Hwz Hwq). pose proof (Od w Dw Sw). lia. }
  split; [by left|]. intros Sq. by apply Sw, (rg_closed _ _ G q w).
Qed.

Record unfrozen_post (Q : Z -> Prop) (h : heap) (a : Z) (d : nat) (l' : list cell) (h' : heap) (sib : Z) : Prop := mk_unfrozen_post {
  up_heap : heap_ok R (nonzero sib) h';
  up_stores : stores M vs d (h_nodes h') a sib l';
  up_kept : forall y, Q y -> kept (h_nodes h) (h_nodes h') y;
  up_dom : forall y, is_Some (h_nodes h !! y) -> is_Some (h_nodes h' !! y);
  up_region : region S (h_nodes h');
  up_old : forall y, is_Some (h_nodes h !! y) -> ~ S y -> (occ y (edges (h_nodes h')) <= occ y (edges (h_nodes h)))%nat;
  up_sib : sib = 0 \/ h_nodes h !! sib = None /\ occ sib (edges (h_nodes h')) = 0%nat
}.

(** What a branch learns of the insertion into its child [c]. *)
Record child_post (Q : Z -> Prop) (h : heap) (c : Z) (d : nat) (l' : list cell) (h' : heap) (child sib : Z) : Prop := mk_child_post {
  cp_heap : heap_ok R (returned c child sib) h';
  cp_stores : stores M vs d (h_nodes h') child sib l';
  cp_kept : forall y, Q y -> kept (h_nodes h) (h_nodes h') y;
  cp_dom : forall y, is_Some (h_nodes h !! y) -> is_Some (h_nodes h' !! y);
  cp_region : region S (h_nodes h');
  cp_old : forall y, is_Some (h_nodes h !! y) -> ~ S y -> (occ y (edges (h_nodes h')) <= occ y (edges (h_nodes h)))%nat;
  cp_child : child <> 0 /\ child <> sib /\ (child = c \/ h_nodes h !! child = None /\ occ child (edges (h_nodes h')) = 0%nat);
  cp_sib : sib = 0 \/ sib = c /\ child <> c \/ h_nodes h !! sib = None /\ occ sib (edges (h_nodes h')) = 0%nat;
  cp_shared : child <> c -> (2 <= occ c (edges (h_nodes h')))%nat
}.

Lemma unfrozen_child (Q : Z -> Prop) (h : heap) (c : Z) (d : nat) (l' : list cell) (h' : heap) (sib : Z) :
  c <> 0 -> is_Some (h_nodes h !! c) -> unfrozen_post Q h c d l' h' sib -> child_post Q h c d l' h' c sib.
Proof.
  intros Nc Dc [P1 P2 P3 P4 P5 P6 P7]. split; try done.
  - unfold returned. by rewrite decide_True.
  - split_and!; [done| |by left]. destruct P7 as [->|[N _]]; [done|]. intros ->. rewrite N in Dc. by destruct Dc.
  - destruct P7; [by left|by right; right].
Qed.

Lemma frozen_child (Q : Z -> Prop) (h : heap) (c : Z) (d : nat) (l' : list cell) (h' : heap) (child sib : Z) :
  (2 <= occ c (edges (h_nodes h)))%nat -> frozen_post M vs R S [] h c d l' h' child sib -> child_post Q h c d l' h' child sib.
Proof.
  intros O [P1 P2 P3 P4 P5 P6 P7]. split; try done.
  - by rewrite app_nil_r in P1.
  - intros y [n Hn]. destruct (P3 y n Hn) as (n' & ? & _). by exists n'.
  - destruct P7 as [?|[->|?]]; [by left| |by right; right]. right; left. split; [done|]. by destruct P6 as (_ & ? & _).
  - intros _. pose proof (kept_edges _ _ P3 c). lia.
Qed.

Lemma unfrozen_leaf_ok (Q : Z -> Prop) (h : heap) (s : CFStorage) (d : nat) (a b size abs : Z) (n : CFStorageNode) (l : list cell) :
  maxLeafCapacity s = M -> heap_ok R [] h -> context R Q (h_nodes h) a -> region S (h_nodes h) -> (forall x, S x -> Q x) ->
  h_nodes h !! a = Some n -> leaf_of M vs n l -> 0 <= b <= len l -> 0 < size <= M -> (vs | b) -> (vs | size) ->
  exists h' k sib l', CFStorageInsertLeafUnfrozen h s a b size abs = Ok (h', set_cache k s, a, sib) /\ inserted l b size l' /\
    unfrozen_post Q h a d l' h' sib /\ cache_at vs s (h_nodes h') a sib (abs - b) k.
Proof.
  intros HM H X G SQ Hn L Hb Hs Vb Vs. pose proof L as (c & mem & r & Hi & B & Hbn & Vn & Em). pose proof (leaf_bytes _ _ _ _ L) as El.
  pose proof (fresh_None [] h H) as Fn. destruct (fresh_unreferenced [] h H) as (_ & Fg & _). pose proof (ho_next _ _ _ H) as Hx.
  assert (a <> h_next h) as Nx by (intros ->; congruence). pose proof (ho_fresh _ _ _ H a n Hn) as La.
  destruct (insert_leaf M vs s HM HK HV h a c mem r n l Hn Hi B Hbn Vn Em b size (abs - b)) as (h' & s' & sib & l' & E & I & P); [lia..|done|done|lia|lia|lia|].
  replace (abs - b + b) with abs in E by lia. rewrite E. pose proof (leaf_cache_at vs s M h h' s' a sib (abs - b) n l' Nx ltac:(lia) P) as Ca.
  assert (Nq : forall y, Q y -> y <> a) by (intros y Qy ->; by apply (cx_out _ _ _ _ X)).
  assert (DS : forall y, S y -> is_Some (h_nodes h !! y)) by (intros y Sy; by apply (cx_dom _ _ _ _ X), SQ).
  pose proof (leaf_slots _ _ _ _ L) as Sn. destruct P as [n1 k [Rn Fz] L1 _ _ _|n1 n2 l1 l2 c' k [Rn Fz] R2 L1 L2 N1 N2 El' _ _].
  - exists (put h a n1), a, 0, l'. split; [done|]. split; [done|]. split; [|done]. pose proof (leaf_slots _ _ _ _ L1) as S1.
    pose proof (edges_same _ a n n1 Hn ltac:(by rewrite S1, Sn)) as Ee. split.
    + apply (put_same_ok _ _ _ n); [done..|by rewrite S1, Sn|by rewrite Fz].
    + left. split; [done|]. apply (tree_leaf _ _ _ _ _ _ n1); [apply lookup_insert_eq|done].
    + intros y Qy. apply kept_ne. by apply Nq.
    + intros y Hy. cbn. destruct (decide (y = a)) as [->|N]; [by rewrite lookup_insert_eq; eexists|by rewrite lookup_insert_ne].
    + apply (region_kept S (h_nodes h)); [done..|intros y Sy; by apply kept_ne, Nq, SQ|]. intros y. cbn. rewrite Ee. apply G.
    + intros y _ _. cbn. by rewrite Ee.
    + by left.
  - rewrite El' in I. exists (put (alloc h n2) a n1), c', (h_next h), (l1 ++ l2). split; [done|]. split; [done|]. split; [|done]. pose proof (leaf_slots _ _ _ _ L1) as S1. pose proof (leaf_slots _ _ _ _ L2) as S2.
    pose proof (alloc_ok [] h n2 H R2 S2) as H2. assert (Ha : h_nodes (alloc h n2) !! a = Some n) by (by rewrite lookup_alloc_ne).
    assert (Ee : edges (h_nodes (put (alloc h n2) a n1)) ≡ₚ edges (h_nodes h)).
    { cbn [put h_nodes]. rewrite (edges_same _ a n n1) by (done || by rewrite S1, Sn). by apply (alloc_leaf_edges R h []). }
    assert (Kn : forall y, Q y -> kept (h_nodes h) (h_nodes (put (alloc h n2) a n1)) y).
    { intros y Qy. eapply kept_trans; [by apply (alloc_kept R h [])|]. by apply kept_ne, Nq. }
    split.
    + unfold nonzero. rewrite decide_False by lia. apply (put_same_ok _ _ _ n); [done..|by rewrite S1, Sn|by rewrite Fz].
    + right. split; [lia|]. exists l1, l2. split_and!; [done..| |]; (eapply tree_leaf; [|done]); [apply lookup_insert_eq|].
      cbn. rewrite lookup_insert_ne by done. apply lookup_insert_eq.
    + done.
    + intros y Hy. cbn. destruct (decide (y = a)) as [->|N]; [by rewrite lookup_insert_eq; eexists|rewrite lookup_insert_ne by done].
      destruct (decide (y = h_next h)) as [->|N']; [by rewrite lookup_insert_eq; eexists|by rewrite lookup_insert_ne].
    + apply (region_kept S (h_nodes h)); [done..|intros y Sy; by apply Kn, SQ|]. intros y. rewrite Ee. apply G.
    + intros y _ _. by rewrite Ee.
    + right. split; [done|]. rewrite Ee. by apply occ_zero.
Qed.

(** ** A branch whose child has changed *)

Lemma occ_spread (cs : list Z) (i : nat) (c child sib y : Z) : cs !! i = Some c ->
  (occ y (spread cs i child sib) + occ y [c] = occ y cs + occ y [child] + occ y (nonzero sib))%nat.
Proof.
  intros Hc. rewrite <- (take_drop_middle cs i c Hc) at 2. unfold spread.
  rewrite !occ_app, !occ_cons, !occ_app, !occ_nil. lia.
Qed.

Section Branch.

Context (Q : Z -> Prop) (h : heap) (d : nat) (a : Z) (n : CFStorageNode) (cs : list Z) (ls : list (list cell)).
Context (H : heap_ok R [] h) (X : context R Q (h_nodes h) a) (G : region S (h_nodes h)) (SQ : forall x, S x -> Q x).
Context (Hn : h_nodes h !! a = Some n) (B : branch_of n cs) (Eb : numBytes n = len (concat ls)) (F : kids d (h_nodes h) cs ls).

Section Child.

Context (i : nat) (c child sib : Z) (lc' : list cell) (h1 : heap) (na : CFStorageNode).
Context (Hc : cs !! i = Some c) (P : child_post (beside Q (h_nodes h) a (take i cs ++ drop (Datatypes.S i) cs)) h c d lc' h1 child sib).
Context (Hna : h_nodes h1 !! a = Some na) (Bna : branch_of na cs).

Abbreviation ks := (spread cs i child sib).

Lemma branch_tree : tree M vs (Datatypes.S d) (h_nodes h) a (concat ls).
Proof. by apply (tree_branch _ _ _ _ _ n cs). Qed.

Lemma branch_edge (y : Z) : y ∈ cs -> edge (h_nodes h) a y.
Proof. intros Hy. exists n. split; [done|]. by rewrite (branch_slots n cs B). Qed.

Lemma branch_unshared : ~ S a.
Proof. intros Sa. by apply (cx_out _ _ _ _ X), SQ. Qed.

Lemma child_ne : a <> c.
Proof.
  intros E. apply (tree_acyclic M vs _ _ a c _ branch_tree); [apply branch_edge; by eapply list_elem_of_lookup_2|]. by rewrite E.
Qed.

(** Only new nodes gain references. *)
Lemma spread_count (y : Z) : (occ y ks <= occ y cs)%nat \/ h_nodes h !! y = None /\ occ y (edges (h_nodes h1)) = 0%nat /\ (occ y ks <= 1)%nat.
Proof.
  destruct (cp_child _ _ _ _ _ _ _ _ P) as (_ & Ncs & Pc). pose proof (cp_sib _ _ _ _ _ _ _ _ P) as Ps.
  pose proof (occ_spread cs i c child sib y Hc) as E. rewrite !occ_cons, !occ_nil in E.
  pose proof (slot_occ _ a y na Hna) as Sl. rewrite (branch_slots _ _ Bna) in Sl.
  assert (Es : occ y (nonzero sib) = if decide (y = sib /\ sib <> 0) then 1%nat else 0%nat).
  { unfold nonzero. repeat case_decide; rewrite ?occ_cons, ?occ_nil; repeat case_decide; try done; naive_solver. }
  rewrite Es in E. repeat case_decide; subst; try (left; lia); try (right; split_and!; [naive_solver..|]; naive_solver lia); naive_solver lia.
Qed.

Lemma spread_total (y : Z) (e : list Z) : (occ y e + occ y cs <= occ y ks + occ y (edges (h_nodes h1)))%nat ->
  ((2 <= occ y e -> 2 <= occ y (edges (h_nodes h1))) /\ (is_Some (h_nodes h !! y) -> occ y e <= occ y (edges (h_nodes h1))))%nat.
Proof. intros L. destruct (spread_count y) as [?|(E & ? & ?)]; [lia|]. split; [lia|]. rewrite E. by intros [? ?]. Qed.

Lemma rewritten_edges (n' : CFStorageNode) (y : Z) :
  (occ y (edges (<[a := n']> (h_nodes h1))) + occ y cs = occ y (slots n') + occ y (edges (h_nodes h1)))%nat.
Proof.
  pose proof (edges_update _ a na n' Hna) as E. apply (occ_proper y) in E. rewrite !occ_app, (branch_slots _ _ Bna) in E. lia.
Qed.

(** The old child is released and the node rewritten; a reference of the function may
    stay out of the new slots. *)
Lemma settle : exists g1, mild (h_nodes h1) (h_nodes g1) /\ h_next g1 = h_next h1 /\ h_nodes g1 !! a = Some na /\
  (if negb (child =? c) then g ← release h1 c; CFStorageSetChild g a (Z.of_nat i) child else Ok h1) = CFStorageSetChild g1 a (Z.of_nat i) child /\
  (forall ext n', similar na n' -> ext ++ slots n' ≡ₚ ks -> heap_ok R ext (put g1 a n')) /\
  (child <> c -> forall n', release (put h1 a n') c = Ok (put g1 a n')).
Proof.
  pose proof (cp_heap _ _ _ _ _ _ _ _ P) as H1. pose proof child_ne as Nac. pose proof (branch_slots _ _ Bna) as Sna.
  assert (Perm : c :: ks ≡ₚ cs ++ child :: nonzero sib).
  { unfold spread. rewrite <- (take_drop_middle cs i c Hc) at 3. solve_Permutation. }
  assert (Sub : forall ext n', ext ++ slots n' ≡ₚ ks -> shared_frozen (h_nodes h1) -> similar na n' -> shared_frozen (h_nodes (put h1 a n'))).
  { intros ext n' E Sf [_ Ef] y ny Hy O. apply spread_total in O; [|cbn; rewrite rewritten_edges, <- E, occ_app; lia]. cbn in Hy. destruct (decide (y = a)) as [->|N].
    - rewrite lookup_insert_eq in Hy. injection Hy as <-. rewrite Ef. by apply (Sf a).
    - rewrite lookup_insert_ne in Hy by done. by apply (Sf y). }
  unfold returned in H1. destruct (Z.eqb_spec child c) as [Ec|Nc]; cbn [negb].
  - exists h1. split_and!; [apply mild_refl|done|done|rewrite Ec; by rewrite (set_child_same h1 a c i na cs)| |done].
    intros ext n' Sim E. rewrite decide_True in H1 by done. cbn [app] in H1. apply (put_ok (nonzero sib) _ _ _ na); [done|done|apply Sim| |].
    + apply (Permutation_cons_inv (a := c)). rewrite E, Perm, Sna, Ec. solve_Permutation.
    + apply (Sub ext); [done|by apply H1|done].
  - rewrite decide_False in H1 by done. pose proof (cp_shared _ _ _ _ _ _ _ _ P Nc) as O2.
    destruct (ho_refs _ _ _ H1 c) as [_ [nc Hnc]]; [apply elem_of_app; right; apply occ_elem; lia|].
    destruct (referenced_count _ h1 c nc H1 Hnc) as (_ & Rc & _); [apply elem_of_app; right; apply occ_elem; lia|].
    exists (put h1 c (set_refCount (refCount nc - 1) nc)). split_and!.
    + by apply (mild_put _ c nc).
    + done.
    + cbn. by rewrite lookup_insert_ne.
    + by rewrite (release_count h1 c nc) by (done || lia).
    + intros ext n' Sim E. rewrite put_swap by (by apply not_eq_sym).
      assert (H2 : heap_ok R (c :: ext) (put h1 a n')).
      { apply (put_ok ([child] ++ nonzero sib) _ _ _ na); [done|done|apply Sim| |by apply (Sub ext); [|apply H1|]].
        cbn [app]. rewrite E, Perm, Sna. solve_Permutation. }
      apply release_shared_ok; [done|cbn; by rewrite lookup_insert_ne by done|]. 
      destruct (referenced_count (c :: ext) _ c nc H2) as (_ & Rc' & _); [cbn; by rewrite lookup_insert_ne|left|].
      lia.
    + intros _ n'. rewrite (release_count _ c nc) by (cbn; rewrite ?lookup_insert_ne by done; done || lia). by rewrite put_swap.
Qed.

(** No child points back to the node. *)
Lemma spread_avoids (y : Z) : y ∈ ks -> ~ reach (h_nodes h1) y a.
Proof.
  intros Hy Hr. apply (ancestors Q (returned c child sib) h h1 a y) in Hr as [Py Sy]; try done.
  - destruct (spread_count y) as [L|(E & _)].
    + assert (Hy' : y ∈ cs) by (apply occ_elem in Hy; apply occ_elem; lia). destruct Py as [Qy| ->].
      * apply Sy, (rg_shared _ _ G), (context_shared R Q [] h a y H X); [by apply branch_edge|done].
      * by apply (tree_acyclic M vs _ _ a a _ branch_tree); [apply branch_edge|].
    + destruct Py as [Qy| ->]; [|congruence]. apply (cx_dom _ _ _ _ X) in Qy as [? ?]. congruence.
  - apply P.
  - apply branch_unshared.
  - intros z [Qz| ->]; apply P; [by left|by right; left].
  - apply P.
Qed.

Lemma spread_kids : lc' <> [] -> exists parts, kids d (h_nodes h1) ks parts /\ concat parts = concat (take i ls) ++ lc' ++ concat (drop (Datatypes.S i) ls) /\
  (sib = 0 -> parts = take i ls ++ lc' :: drop (Datatypes.S i) ls) /\ exists tl, parts = take i ls ++ tl.
Proof.
  intros Nl. assert (Keep : forall cs' ls', (forall y, y ∈ cs' -> y ∈ take i cs ++ drop (Datatypes.S i) cs) -> kids d (h_nodes h) cs' ls' -> kids d (h_nodes h1) cs' ls').
  { intros cs' ls' Sub K. induction K as [|y ly cs' ls' [Ny Ty] K IH]; constructor; [split; [done|]|by apply IH; intros z Hz; apply Sub; right].
    eapply (sibling_kept M vs Q); [apply P|apply Sub; left|done]. }
  apply kids_spread; [| |done|apply P].
  - apply Keep; [intros y Hy; apply elem_of_app; by left|by apply Forall2_take].
  - apply Keep; [intros y Hy; apply elem_of_app; by right|by apply Forall2_drop].
Qed.

Section Settled.

Context (g1 : heap) (parts : list (list cell)) (Mi : mild (h_nodes h1) (h_nodes g1)) (Fk : kids d (h_nodes h1) ks parts).
Context (Hg : forall ext n', similar na n' -> ext ++ slots n' ≡ₚ ks -> heap_ok R ext (put g1 a n')).

Lemma settled_edges (n' : CFStorageNode) (y : Z) :
  (occ y (edges (h_nodes (put g1 a n'))) + occ y cs = occ y (slots n') + occ y (edges (h_nodes h1)))%nat.
Proof.
  rewrite <- rewritten_edges. f_equal. apply occ_proper. cbn. apply mild_edges. by apply mild_insert.
Qed.

Lemma settled_kids (n' : CFStorageNode) : kids d (h_nodes (put g1 a n')) ks parts.
Proof.
  pose proof (kids_kept M vs d _ _ ks parts (fun y => mild_kept _ _ y (mild_insert _ _ a n' Mi))) as K. apply K. clear K.
  apply kids_put_unreached; [apply spread_avoids|done].
Qed.

Lemma settled_kept (n' : CFStorageNode) (y : Z) : Q y -> kept (h_nodes h) (h_nodes (put g1 a n')) y.
Proof.
  intros Qy. eapply kept_trans; [apply P; by left|]. eapply kept_trans; [by apply mild_kept|]. apply kept_ne.
  intros ->. by apply (cx_out _ _ _ _ X).
Qed.

Lemma settled_dom (n' : CFStorageNode) (y : Z) : is_Some (h_nodes h !! y) -> is_Some (h_nodes (put g1 a n') !! y).
Proof.
  intros Hy. apply (cp_dom _ _ _ _ _ _ _ _ P) in Hy as [ny Hy]. destruct (mild_lookup _ _ y ny Mi Hy) as (n2 & H2 & _). cbn.
  destruct (decide (y = a)) as [->|N]; [by rewrite lookup_insert_eq; eexists|]. rewrite lookup_insert_ne by done. by eexists.
Qed.

(** A heap with no more pointers than the new children. *)
Lemma settled_region (m : nodes) : (forall y, Q y -> kept (h_nodes h) m y) ->
  (forall y, (occ y (edges m) + occ y cs <= occ y ks + occ y (edges (h_nodes h1)))%nat) -> region S m.
Proof.
  intros K L. apply (region_kept S (h_nodes h)); [done|intros y Sy; by apply (cx_dom _ _ _ _ X), SQ|intros y Sy; by apply K, SQ|].
  intros y O. apply (rg_shared _ _ (cp_region _ _ _ _ _ _ _ _ P)). by apply (spread_total y (edges m)).
Qed.

Lemma settled_old (m : nodes) (y : Z) : (occ y (edges m) + occ y cs <= occ y ks + occ y (edges (h_nodes h1)))%nat ->
  is_Some (h_nodes h !! y) -> ~ S y -> (occ y (edges m) <= occ y (edges (h_nodes h)))%nat.
Proof.
  intros L Hy Ny. etransitivity; [by apply (spread_total y (edges m))|]. by apply P.
Qed.

Lemma settled_three (n' : CFStorageNode) : similar na n' -> branch_of n' ks -> numBytes n' = len (concat parts) ->
  unfrozen_post Q h a (Datatypes.S d) (concat parts) (put g1 a n') 0.
Proof.
  intros Sim Bn En. pose proof (branch_slots _ _ Bn) as Sn.
  assert (L : forall y, (occ y (edges (h_nodes (put g1 a n'))) + occ y cs <= occ y ks + occ y (edges (h_nodes h1)))%nat) by (intros y; rewrite settled_edges, Sn; lia).
  split.
  - apply Hg; [done|]. by rewrite Sn.
  - left. split; [done|]. apply (tree_branch _ _ _ _ _ n' ks); [apply lookup_insert_eq|done|done|apply settled_kids].
  - apply settled_kept.
  - apply settled_dom.
  - apply settled_region; [apply settled_kept|done].
  - intros y. by apply settled_old.
  - by left.
Qed.

Lemma settled_frozen (n' : CFStorageNode) (y : Z) (ny : CFStorageNode) : similar na n' -> (2 <= occ y (edges (h_nodes h1)))%nat ->
  h_nodes (put g1 a n') !! y = Some ny -> isFrozen ny = true.
Proof.
  intros [_ Ef] O Hy. assert (Fz : forall nz, h_nodes h1 !! y = Some nz -> isFrozen nz = true) by (intros nz Hz; by apply (ho_frozen _ _ _ (cp_heap _ _ _ _ _ _ _ _ P) y)).
  cbn in Hy. destruct (decide (y = a)) as [->|N].
  - rewrite lookup_insert_eq in Hy. injection Hy as <-. rewrite Ef. by apply Fz.
  - rewrite lookup_insert_ne in Hy by done. by apply (mild_frozen (h_nodes h1) (h_nodes g1) y).
Qed.

Section Four.

Context (k0 k1 k2 k3 : Z) (n' ny : CFStorageNode) (p1 p2 : list (list cell)).
Context (Ek : ks = [k0; k1] ++ [k2; k3]) (Ep : parts = p1 ++ p2) (K1 : kids d (h_nodes h1) [k0; k1] p1) (K2 : kids d (h_nodes h1) [k2; k3] p2).
Context (Sim : similar na n') (B1 : branch_of n' [k0; k1]) (B2 : branch_of ny [k2; k3]) (R2 : refCount ny = 1).

Abbreviation g2 := (put g1 a n').
Abbreviation y := (h_next g1).

Lemma four_heap : heap_ok R [k2; k3] g2 /\ heap_ok R [y] (alloc g2 ny).
Proof.
  assert (H2 : heap_ok R [k2; k3] g2) by (apply Hg; [done|]; rewrite (branch_slots _ _ B1), Ek; apply Permutation_app_comm). split; [done|].
  set (nb := set_info (Branch 0 0 0) ny). rewrite <- (put_alloc g2 nb). pose proof (fresh_None _ _ H2) as Fy.
  apply (fill_branch_ok R [y] [k2; k3] _ _ nb).
  - eapply heap_ok_proper; [|reflexivity|by apply (alloc_ok [k2; k3] g2 nb)]. apply Permutation_app_comm.
  - apply (lookup_alloc g2).
  - done.
  - by apply branch_slots.
  - done.
  - done.
  - intros k nk Hk Hnk. rewrite (alloc_leaf_edges R g2 _ nb H2 eq_refl).
    destruct (decide (occ k [k2; k3] + occ k (edges (h_nodes g2)) < 2)%nat) as [?|O]; [by right|left].
    apply (settled_frozen n' k); [done| |].
    + apply (spread_total k ([k2; k3] ++ edges (h_nodes g2))); [|rewrite occ_app; lia].
      pose proof (settled_edges n' k) as E. rewrite (branch_slots _ _ B1) in E. rewrite Ek, !occ_app. lia.
    + rewrite lookup_alloc_ne in Hnk; [done|]. intros ->. destruct (ho_refs _ _ _ H2 y) as [_ [? ?]]; [apply elem_of_app; by left|]. cbn in *. congruence.
Qed.

Lemma settled_four : numBytes n' = len (concat p1) -> numBytes ny = len (concat p2) ->
  unfrozen_post Q h a (Datatypes.S d) (concat parts) (alloc g2 ny) y.
Proof.
  intros E1 E2. destruct four_heap as [H2 H3]. pose proof (fresh_None _ _ H2) as Fy. destruct (fresh_unreferenced _ _ H2) as (Fk1 & Fe & _). pose proof (ho_next _ _ _ H2) as Py.
  cbn [h_next put] in Fy, Fk1, Fe, Py.
  assert (Ee : edges (h_nodes (alloc g2 ny)) ≡ₚ [k2; k3] ++ edges (h_nodes g2)) by (cbn; rewrite edges_insert_new by done; by rewrite (branch_slots _ _ B2)).
  assert (Kn : forall z, kept (h_nodes g2) (h_nodes (alloc g2 ny)) z) by (intros z; by apply kept_new).
  assert (Kq : forall z, Q z -> kept (h_nodes h) (h_nodes (alloc g2 ny)) z) by (intros z Qz; eapply kept_trans; [by apply settled_kept|done]).
  assert (L : forall z, (occ z (edges (h_nodes (alloc g2 ny))) + occ z cs <= occ z ks + occ z (edges (h_nodes h1)))%nat).
  { intros z. pose proof (settled_edges n' z) as E. rewrite (branch_slots _ _ B1) in E. rewrite Ee, Ek, !occ_app. lia. }
  assert (Av : forall l, (forall z, z ∈ l -> z ∈ ks) -> forall q, kids d (h_nodes h1) l q -> kids d (h_nodes (alloc g2 ny)) l q).
  { intros l Sub q K. apply (kids_kept M vs d (h_nodes g2)); [done|].
    apply (kids_kept M vs d (<[a := n']> (h_nodes h1))); [intros z; by apply mild_kept, mild_insert|]. apply kids_put_unreached; [|done].
    intros z Hz. by apply spread_avoids, Sub. }
  assert (Ne : forall l q, kids d (h_nodes h1) l q -> l <> [] -> concat q <> []) by (intros l q [|? [|? ?] ? ? [? _]]; done).
  assert (Nay : a <> y) by (intros E; rewrite <- E in Fy; cbn in Fy; rewrite lookup_insert_eq in Fy; done).
  split.
  - unfold nonzero. by rewrite decide_False by lia.
  - right. split; [lia|]. exists (concat p1), (concat p2). rewrite Ep, concat_app. split_and!; [done|by eapply Ne|by eapply Ne| |].
    + apply (tree_branch _ _ _ _ _ n' [k0; k1]); [rewrite lookup_alloc_ne by done; apply lookup_insert_eq|done|done|].
      apply Av; [|done]. intros z Hz. rewrite Ek. apply elem_of_app. by left.
    + apply (tree_branch _ _ _ _ _ ny [k2; k3]); [apply (lookup_alloc g2)|done|done|].
      apply Av; [|done]. intros z Hz. rewrite Ek. apply elem_of_app. by right.
  - done.
  - intros z Hz. destruct (settled_dom n' z Hz) as [nz Hz']. destruct (Kn z nz Hz') as (? & ? & _). by eexists.
  - by apply settled_region.
  - intros z. by apply settled_old.
  - right. split.
    + destruct (h_nodes h !! y) as [?|] eqn:E; [|done]. destruct (settled_dom n' y) as [? ?]; [by eexists|]. cbn in *. congruence.
    + rewrite Ee, occ_app. apply occ_zero in Fe, Fk1. cbn in *. lia.
Qed.

End Four.

End Settled.

End Child.

End Branch.

End Unfrozen.

End StorageUnfrozen.
