(* ===== verification/StorageCow.v ===== *)
(** * Copy on write: an insertion changes one storage

    [__CFStorageInsertBranchUnfrozen], [__CFStorageInsert] and [CFStorageInsertValues]: the
    bytes are inserted in the storage, every node of its context keeps its contents, and the
    invariant of the heap holds again. *)

From stdpp Require Import base list numbers option gmap relations.
From Stdlib Require Import ZArith Lia.
From S2P Require Import Prelude Storage StorageHeap StorageTree StorageLeaf StorageFrozen StorageInsert StorageCache StorageUnfrozen.
Import Storage StorageHeap StorageTree StorageLeaf StorageFrozen StorageInsert StorageCache StorageUnfrozen.

Module StorageCow.

(** ** The code of a branch after the insertion into its child *)

Section Access.

Context (g : heap) (a c0 c1 c2 v : Z) (n m : CFStorageNode).

Lemma set_alloc0 (y : Z) : y = h_next g ->
  CFStorageSetChild (alloc g (set_info (Branch c0 c1 c2) n)) y 0 v = Ok (alloc g (set_info (Branch v c1 c2) n)).
Proof. intros ->. unfold CFStorageSetChild. rewrite load_alloc. cbn [mbind result_bind children info set_info Z.eqb]. by rewrite put_alloc. Qed.

Lemma set_alloc1 (y : Z) : y = h_next g ->
  CFStorageSetChild (alloc g (set_info (Branch c0 c1 c2) n)) y 1 v = Ok (alloc g (set_info (Branch c0 v c2) n)).
Proof. intros ->. unfold CFStorageSetChild. rewrite load_alloc. cbn [mbind result_bind children info set_info Z.eqb Pos.eqb]. by rewrite put_alloc. Qed.

(** The node below the last allocated one. *)
Lemma set_under (i : Z) (h : heap) : a <> h_next g ->
  CFStorageSetChild g a i v = Ok h -> h_next h = h_next g -> CFStorageSetChild (alloc g m) a i v = Ok (alloc h m).
Proof.
  intros N. unfold CFStorageSetChild. rewrite load_alloc_ne by done. destruct (load g a) as [t| | |]; cbn [mbind result_bind]; try done.
  destruct (children t) as [[[d0 d1] d2]| | |]; cbn [mbind result_bind]; try done.
  repeat case_match; intros [= <-] _; by rewrite put_alloc_ne.
Qed.

End Access.

(** Evaluates the accesses to the node [a] of [put g a _] and to the last allocated node. *)
Ltac access := repeat (first
  [ progress cbn [mbind result_bind Z.eqb Pos.eqb Z.add Pos.add children info set_info]
  | rewrite load_put | rewrite put_put | rewrite set_put0 | rewrite set_put1 | rewrite set_put2
  | rewrite set_alloc0 by done | rewrite set_alloc1 by done | rewrite load_alloc_ne by done
  | erewrite set_under by (first [apply set_put0 | apply set_put1 | apply set_put2 | done]) ]).

Section Evaluation.

Context (g1 : heap) (s : CFStorage) (a c0 c1 c2 c child sib size : Z) (i : nat) (na : CFStorageNode).
Context (Ha : h_nodes g1 !! a = Some na) (Ei : info na = Branch c0 c1 c2) (N0 : c0 <> 0) (N1 : c1 <> 0) (Nc : child <> 0).
Context (Hi : (c0 :: c1 :: nonzero c2) !! i = Some c) (Nay : a <> h_next g1).

Abbreviation code := (g ← CFStorageSetChild g1 a (Z.of_nat i) child; after_child g s a (Z.of_nat i) sib size).

Lemma eval_three : sib = 0 \/ c2 = 0 -> exists k0 k1 k2,
  code = Ok (put g1 a (mkNode (numBytes na + size) (refCount na) (isFrozen na) (Branch k0 k1 k2)), s, a, 0) /\ k0 <> 0 /\ k1 <> 0 /\
  spread (c0 :: c1 :: nonzero c2) i child sib = k0 :: k1 :: nonzero k2.
Proof.
  intros Hz. destruct (set_child_ok g1 a c0 c1 c2 child na Ha Ei) as (E0 & E1 & E2). unfold after_child, spread, add_bytes. destruct (Z.eqb_spec sib 0) as [->|Ns].
  - unfold nonzero in *. rewrite (decide_True (P := 0 = 0)) by done.
    destruct i as [|[|[|j]]]; [change (Z.of_nat 0) with 0; rewrite E0|change (Z.of_nat 1) with 1; rewrite E1|change (Z.of_nat 2) with 2; rewrite E2|by destruct (decide (c2 = 0))].
    + access. by eexists _, _, _.
    + access. by eexists _, _, _.
    + destruct (decide (c2 = 0)) as [->|N2]; [done|]. access. eexists _, _, _. split; [reflexivity|]. by rewrite decide_False.
  - destruct Hz as [?| ->]; [done|]. unfold nonzero in *. rewrite (decide_True (P := 0 = 0)) in * by done. rewrite (decide_False (P := sib = 0)) by done.
    destruct i as [|[|j]]; [change (Z.of_nat 0) with 0; rewrite E0|change (Z.of_nat 1) with 1; rewrite E1|done].
    + access. eexists _, _, _. split; [reflexivity|]. by rewrite decide_False.
    + access. eexists _, _, _. split; [reflexivity|]. by rewrite decide_False.
Qed.

(** [b0] ... [b3]: the lengths of the children, which the rewriting does not change. *)
Lemma eval_four : sib <> 0 -> c2 <> 0 -> exists k0 k1 k2 k3, spread (c0 :: c1 :: nonzero c2) i child sib = [k0; k1] ++ [k2; k3] /\
  k0 <> 0 /\ k1 <> 0 /\ k2 <> 0 /\ k3 <> 0 /\ forall b0 b1 b2 b3,
  (forall n' ny, let g := alloc (put g1 a n') ny in bytes_of g k0 = Ok b0 /\ bytes_of g k1 = Ok b1 /\ bytes_of g k2 = Ok b2 /\ bytes_of g k3 = Ok b3) ->
  code = Ok (alloc (put g1 a (mkNode (b0 + b1) (refCount na) (isFrozen na) (Branch k0 k1 0))) (mkNode (b2 + b3) 1 (alwaysFrozen s) (Branch k2 k3 0)),
             s, a, h_next g1).
Proof.
  intros Ns N2. destruct (set_child_ok g1 a c0 c1 c2 child na Ha Ei) as (E0 & E1 & E2). unfold after_child, spread, nonzero in *. rewrite !decide_False in * by done.
  destruct (Z.eqb_spec sib 0); [done|].
  assert (Hb : forall g k v, k <> 0 -> bytes_of g k = Ok v -> exists t, load g k = Ok t /\ numBytes t = v).
  { intros g k v Nk. unfold bytes_of. destruct (Z.eqb_spec k 0); [done|]. destruct (load g k) as [t| | |]; cbn; try done. intros [= <-]. by exists t. }
  assert (Sum : forall k0 k1 k2 k3, k0 <> 0 -> k1 <> 0 -> k2 <> 0 -> k3 <> 0 -> forall b0 b1 b2 b3,
    (forall n' ny, let g := alloc (put g1 a n') ny in bytes_of g k0 = Ok b0 /\ bytes_of g k1 = Ok b1 /\ bytes_of g k2 = Ok b2 /\ bytes_of g k3 = Ok b3) ->
    (h ← sum_two (alloc (put g1 a (set_info (Branch k0 k1 0) na)) (set_info (Branch k2 k3 0) (new_node s false 0))) a;
     h ← sum_two h (h_next g1); Ok (h, s, a, h_next g1)) =
    Ok (alloc (put g1 a (mkNode (b0 + b1) (refCount na) (isFrozen na) (Branch k0 k1 0))) (mkNode (b2 + b3) 1 (alwaysFrozen s) (Branch k2 k3 0)), s, a, h_next g1)).
  { intros k0 k1 k2 k3 M0 M1 M2 M3 b0 b1 b2 b3 L. unfold sum_two. access.
    match goal with |- context [load (alloc (put g1 a ?x) ?y) k0] => destruct (L x y) as (L0 & L1 & _) end.
    apply Hb in L0 as (t0 & -> & <-); [|done]. access. apply Hb in L1 as (t1 & -> & <-); [|done]. access.
    rewrite put_alloc_ne by done. access. 
    match goal with |- context [load (alloc ?g ?ny) (h_next g1)] => change (h_next g1) with (h_next g); rewrite load_alloc end. access.
    match goal with |- context [load (alloc (put g1 a ?x) ?y) k2] => destruct (L x y) as (_ & _ & L2 & L3) end.
    apply Hb in L2 as (t2 & -> & <-); [|done]. access. apply Hb in L3 as (t3 & -> & <-); [|done]. access.
    match goal with |- context [put (alloc ?g ?ny) (h_next ?g')] => change (h_next g') with (h_next g); by rewrite put_alloc end. }
  destruct i as [|[|[|j]]]; [change (Z.of_nat 0) with 0; rewrite E0|change (Z.of_nat 1) with 1; rewrite E1|change (Z.of_nat 2) with 2; rewrite E2|done];
    cbn [take drop app]; (eexists _, _, _, _; split; [reflexivity|]; split_and!; [done..|]); intros b0 b1 b2 b3 L;
    access; (match goal with |- context [?v =? 0] => destruct (Z.eqb_spec v 0) as [|_]; [done|] end); access; rewrite create_alloc; change (new_node s false 0) with (set_info (Branch 0 0 0) (new_node s false 0));
    unfold split_children; access; by apply Sum.
Qed.

End Evaluation.

(** ** Insertion *)

Lemma mild_None (m m' : nodes) (x : Z) : mild m m' -> m !! x = None -> m' !! x = None.
Proof. intros H E. specialize (H x). rewrite E in H. by destruct (m' !! x). Qed.

Section Insert.

Context (M vs : Z) (HK : M <= kMaxLeafCapacity) (HV : (vs | M)) (R : gset Z) (S : Z -> Prop).
Context (s : CFStorage) (HM : maxLeafCapacity s = M) (size abs : Z) (Hs : 0 < size <= M) (Vs : (vs | size)).

Abbreviation kids d m := (Forall2 (fun c lc => lc <> [] /\ tree M vs d m c lc)).

Lemma tree_bytes_of (d : nat) (g : heap) (c : Z) (l : list cell) : c <> 0 -> tree M vs d (h_nodes g) c l -> bytes_of g c = Ok (len l).
Proof.
  intros Nc T. destruct (tree_bytes _ _ _ _ _ _ T) as (n & Hn & E). unfold bytes_of. destruct (Z.eqb_spec c 0); [done|].
  rewrite (load_Ok g c n Hn). cbn. by rewrite E.
Qed.

(** The cached leaf is below one of the new children. *)
Lemma settled_cache (ext : list Z) (h1 g1 : heap) (d : nat) (a base k : Z) (na : CFStorageNode) (cs : list Z) (i : nat) (c sib : Z) (parts ls : list (list cell)) :
  heap_ok R ext h1 -> h_nodes h1 !! a = Some na -> branch_of na cs -> cs !! i = Some c -> kids d (h_nodes h1) (spread cs i c sib) parts ->
  (exists tl, parts = take i ls ++ tl) -> (i < length ls)%nat -> (forall y, y ∈ spread cs i c sib -> ~ reach (h_nodes h1) y a) -> mild (h_nodes h1) (h_nodes g1) ->
  cache_at vs s (h_nodes h1) c sib (base + len (concat (take i ls))) k ->
  exists j z offz, spread cs i c sib !! j = Some z /\ forall m', (forall y n, y <> a -> h_nodes g1 !! y = Some n -> m' !! y = Some n) ->
    leaf_at m' z offz k /\ cached vs s m' k (base + (len (concat (take j parts)) + offz)).
Proof.
  intros H1 Ha B Hc F [tl Etl] Li Av Mi (off & C & L). destruct (spread_leaf _ cs i c sib off k Hc L) as (j & z & offz & Hj & Lz & Ej). exists j, z, offz. split; [done|].
  assert (Hz : z ∈ spread cs i c sib) by (by eapply list_elem_of_lookup_2). rewrite (kids_before M vs d _ _ parts j F) in Ej.
  assert (Eb : before (h_nodes h1) cs i = len (concat (take i ls))).
  { assert (length (take i cs) = i) as Lt by (apply lookup_lt_Some in Hc; rewrite length_take; lia).
    assert (before (h_nodes h1) cs i = before (h_nodes h1) (spread cs i c sib) i) as ->
      by (unfold spread; rewrite before_prefix by lia; unfold before; by rewrite take_take, Nat.min_id).
    rewrite (kids_before M vs d _ _ parts i F), Etl, take_app_length' by (rewrite length_take; lia). done. }
  intros m' Km. split.
  - apply (leaf_at_moved h1 g1 a); [intros b Hb; apply (ho_refs _ _ _ H1 b), elem_of_app; by right| |by apply Av|done|done|done].
    destruct (Forall2_lookup_l _ _ _ _ _ F Hj) as (lz & _ & _ & Tz). destruct (tree_bytes _ _ _ _ _ _ Tz) as (nz & ? & _). by exists nz.
  - replace (base + (len (concat (take j parts)) + offz)) with (base + len (concat (take i ls)) + off) by lia.
    apply (cached_mild _ _ _ _ _ _ Mi) in C. apply (cached_lookup _ _ _ _ _ _ C). intros n Hn Hl. exists n. split; [|done]. apply Km; [|done].
    intros <-. destruct (mild_lookup _ _ k na Mi Ha) as (n' & Hn' & _ & Ei & _). apply branch_isLeaf in B. unfold isLeaf in *. rewrite Hn in Hn'. injection Hn' as ->. rewrite Ei in Hl. congruence.
Qed.

Lemma unfrozen_branch_ok (ins : heap -> CFStorage -> Z -> Z -> Z -> Z -> result insertion) (Q : Z -> Prop) (h : heap) (d : nat) (a b : Z)
    (n : CFStorageNode) (cs : list Z) (ls : list (list cell)) :
  heap_ok R [] h -> context R Q (h_nodes h) a -> region S (h_nodes h) -> (forall x, S x -> Q x) ->
  h_nodes h !! a = Some n -> branch_of n cs -> numBytes n = len (concat ls) -> kids d (h_nodes h) cs ls -> 0 <= b <= len (concat ls) -> (vs | b) ->
  (forall i c lc rel, cs !! i = Some c -> tree M vs d (h_nodes h) c lc -> lc <> [] -> 0 <= rel <= len lc -> (vs | rel) ->
    exists h1 k child sib lc', ins h s c rel size abs = Ok (h1, set_cache k s, child, sib) /\ inserted lc rel size lc' /\
      child_post M vs R S (beside Q (h_nodes h) a (take i cs ++ drop (Datatypes.S i) cs)) h c d lc' h1 child sib /\
      (unshared (h_nodes h) -> child = c /\ cache_at vs s (h_nodes h1) c sib (abs - rel) k)) ->
  exists h' k sib l', CFStorageInsertBranchUnfrozen ins h s a b size abs = Ok (h', set_cache k s, a, sib) /\ inserted (concat ls) b size l' /\
    unfrozen_post M vs R S Q h a (Datatypes.S d) l' h' sib /\ (unshared (h_nodes h) -> cache_at vs s (h_nodes h') a sib (abs - b) k).
Proof.
  intros H X G SQ Hn B Eb F Hb Vb IH. unfold CFStorageInsertBranchUnfrozen.
  destruct (find_child_spec M vs d h a b true n cs ls Hn B F) as (i & c & lc & rel & Hc & Hl & -> & Er & Hr1 & Hr2); [lia..|]. cbn [mbind result_bind].
  destruct (Forall2_lookup_lr _ _ _ _ _ _ F Hc Hl) as [Nlc Tc].
  destruct (IH i c lc rel Hc Tc Nlc) as (h1 & k & child & sib & lc' & -> & I & P & Ca); [lia| |].
  { replace rel with (b - len (concat (take i ls))) by lia. apply Z.divide_sub_r; [done|]. eapply kids_aligned. by apply Forall2_take. }
  cbn [mbind result_bind]. clear IH. pose proof (inserted_child ls i lc lc' b rel size Hl Er ltac:(lia) I) as Ins. pose proof (inserted_length _ _ _ _ Ins) as Li.
  assert (Nl' : lc' <> []) by (apply inserted_length in I; apply nonempty_len; lia).
  destruct (cp_kept _ _ _ _ _ _ _ _ _ _ _ _ P a (or_intror (or_introl eq_refl)) n Hn) as (na & Hna & Ena & _ & _ & _ & _ & KB). pose proof (KB cs B) as Bna.
  destruct (settle M vs R S Q h d a n cs ls Hn B Eb F i c child sib lc' h1 na Hc P Hna Bna) as (g1 & Mi & Nx & Hg & -> & Hok & _).
  destruct (spread_kids M vs R S Q h d a cs ls F i c child sib lc' h1 P Nl') as (parts & Fk & Ep & _ & Etl). rewrite <- Ep in Ins, Li.
  pose proof (spread_avoids M vs R S Q h d a n cs ls H X G SQ Hn B Eb F i c child sib lc' h1 na Hc P Hna Bna) as Av.
  pose proof (lookup_lt_Some _ _ _ Hl) as Lls. replace (abs - rel) with ((abs - b) + len (concat (take i ls))) in Ca by lia.
  pose proof (branch_children na cs Bna) as (c0 & c1 & c2 & _ & Ei & N0 & N1 & Ecs). fold (nonzero c2) in Ecs.
  destruct (cp_child _ _ _ _ _ _ _ _ _ _ _ _ P) as (Nc & _). pose proof Hc as Hc'. rewrite Ecs in Hc'.
  destruct (decide (sib = 0 \/ c2 = 0)) as [Hz|Hz].
  - destruct (eval_three g1 (set_cache k s) a c0 c1 c2 c child sib size i na Hg Ei N0 N1 Nc Hc' Hz) as (k0 & k1 & k2 & Ev & M0 & M1 & Ek).
    rewrite <- Ecs in Ek. eexists _, k, 0, (concat parts). split; [exact Ev|]. split; [done|].
    set (n' := mkNode _ _ _ _). assert (Bn : branch_of n' (spread cs i child sib)) by (exists k0, k1, k2; by rewrite Ek). split.
    { apply (settled_three M vs R S Q h d a n cs ls H X G SQ Hn B Eb F i c child sib lc' h1 na Hc P Hna Bna g1 parts Mi Fk Hok); [done|done|cbn; lia]. }
    intros U. destruct (Ca U) as [-> Cc].
    destruct (settled_cache _ h1 g1 d a (abs - b) k na cs i c sib parts ls (cp_heap _ _ _ _ _ _ _ _ _ _ _ _ P) Hna Bna Hc Fk Etl Lls Av Mi Cc) as (j & z & offz & Hj & Lz).
    destruct (Lz (h_nodes (put g1 a n'))) as [L1 C1]; [intros y t Ny Hy; cbn; by rewrite lookup_insert_ne|]. exists (len (concat (take j parts)) + offz). split; [done|left].
    rewrite <- (kids_before M vs d (h_nodes (put g1 a n')) (spread cs i c sib) parts j)
      by (by apply (settled_kids M vs R S Q h d a n cs ls H X G SQ Hn B Eb F i c c sib lc' h1 na Hc P Hna Bna)).
    eapply leaf_below; [apply lookup_insert_eq|done|done|done].
  - assert (Nay : a <> h_next g1).
    { rewrite Nx. intros E. rewrite E, (fresh_None _ _ (cp_heap _ _ _ _ _ _ _ _ _ _ _ _ P)) in Hna. done. }
    destruct (eval_four g1 (set_cache k s) a c0 c1 c2 c child sib size i na Hg Ei N0 N1 Nc Hc' Nay) as (k0 & k1 & k2 & k3 & Ek & M0 & M1 & M2 & M3 & Ev); [tauto..|].
    rewrite <- Ecs in Ek. pose proof Fk as Fk'. rewrite Ek in Fk'. apply Forall2_app_inv_l in Fk' as (p1 & p2 & K1 & K2 & Epp).
    assert (Ak : forall n' ny, kids d (h_nodes (alloc (put g1 a n') ny)) ([k0; k1] ++ [k2; k3]) (p1 ++ p2)).
    { intros n' ny. rewrite <- Ek, <- Epp.
      apply (kids_kept M vs d (h_nodes (put g1 a n'))); [|by apply (settled_kids M vs R S Q h d a n cs ls H X G SQ Hn B Eb F i c child sib lc' h1 na Hc P Hna Bna)].
      intros y. apply kept_new. cbn. rewrite lookup_insert_ne by done. apply (mild_None _ _ _ Mi). rewrite Nx. by eapply fresh_None, P. }
    pose proof K1 as (l0 & q1 & [_ T0] & (l1 & q2 & [_ T1] & ->%Forall2_nil_inv_l & ->)%Forall2_cons_inv_l & E1)%Forall2_cons_inv_l.
    pose proof K2 as (l2 & q3 & [_ T2] & (l3 & q4 & [_ T3] & ->%Forall2_nil_inv_l & ->)%Forall2_cons_inv_l & E2)%Forall2_cons_inv_l.
    rewrite E1 in K1, Epp, Ak. rewrite E2 in K2, Epp, Ak. rewrite Epp in *.
    specialize (Ev (len l0) (len l1) (len l2) (len l3)). eexists _, k, (h_next g1), (concat ([l0; l1] ++ [l2; l3])).
    split; [apply Ev|split; [done|split]].
    + intros n' ny g. specialize (Ak n' ny). cbn [app] in Ak. rewrite !Forall2_cons in Ak. destruct Ak as ([_ A0] & [_ A1] & [_ A2] & [_ A3] & _).
      split_and!; by eapply tree_bytes_of.
    + apply (settled_four M vs R S Q h d a n _ ls H X G SQ Hn B Eb F i c child sib lc' h1 na Hc P Hna Bna g1 _ Mi Hok k0 k1 k2 k3 _ _ [l0; l1] [l2; l3]);
        try done; [by exists k0, k1, 0|by exists k2, k3, 0|cbn; rewrite app_nil_r, length_app; lia..].
    + set (n1 := mkNode (len l0 + _) _ _ _). set (ny := mkNode _ 1 _ _). specialize (Ak n1 ny). intros U. destruct (Ca U) as [-> Cc].
      destruct (settled_cache _ h1 g1 d a (abs - b) k na cs i c sib _ ls (cp_heap _ _ _ _ _ _ _ _ _ _ _ _ P) Hna Bna Hc Fk Etl Lls Av Mi Cc) as (j & z & offz & Hj & Lz).
      assert (Hny : h_nodes (alloc (put g1 a n1) ny) !! h_next g1 = Some ny) by apply lookup_insert_eq.
      assert (Hn1 : h_nodes (alloc (put g1 a n1) ny) !! a = Some n1) by (cbn; rewrite lookup_insert_ne by done; apply lookup_insert_eq).
      destruct (Lz (h_nodes (alloc (put g1 a n1) ny))) as [L1 C1].
      { intros y t Ny Hy. assert (y <> h_next g1); [|cbn; by rewrite !lookup_insert_ne].
        intros ->. rewrite Nx in Hy. rewrite (mild_None _ _ _ Mi) in Hy; [done|]. by eapply fresh_None, P. }
      rewrite <- (kids_before M vs d _ _ _ j Ak) in C1. eexists. split; [exact C1|]. rewrite Ek in Hj.
      assert (Ba : branch_of n1 [k0; k1]) by (by exists k0, k1, 0). assert (By : branch_of ny [k2; k3]) by (by exists k2, k3, 0).
      destruct (decide (j < length [k0; k1])%nat) as [Lj|Lj].
      * left. rewrite lookup_app_l in Hj by done. rewrite before_prefix by lia. by eapply leaf_below.
      * right. rewrite lookup_app_r in Hj by lia. split; [rewrite Nx; pose proof (ho_next _ _ _ (cp_heap _ _ _ _ _ _ _ _ _ _ _ _ P)); lia|].
        replace j with (length [k0; k1] + (j - 2))%nat at 1 by (cbn in *; lia). rewrite before_app. 
        apply Forall2_app_inv in Ak as [Ak1 _]; [|done]. rewrite (kids_before M vs d _ _ _ _ Ak1).
        unfold bytes_at. rewrite Hn1. replace (_ - _) with (before (h_nodes (alloc (put g1 a n1) ny)) [k2; k3] (j - 2) + offz) by (cbn; rewrite app_nil_r, length_app; lia).
        eapply leaf_below; [exact Hny|done|exact Hj|done].
Qed.

Definition unfrozen_insert (fuel : nat) : Prop := forall Q h d a b l, (d <= fuel)%nat ->
  heap_ok R [] h -> context R Q (h_nodes h) a -> region S (h_nodes h) -> (forall x, S x -> Q x) -> tree M vs d (h_nodes h) a l -> 0 <= b <= len l -> (vs | b) ->
  exists h' k sib l', CFStorageInsertUnfrozen (CFStorageInsert fuel) h s a b size abs = Ok (h', set_cache k s, a, sib) /\ inserted l b size l' /\
    unfrozen_post M vs R S Q h a d l' h' sib /\ (unshared (h_nodes h) -> cache_at vs s (h_nodes h') a sib (abs - b) k).

Definition child_insert (fuel : nat) : Prop := forall Q h d a n cs l i c lc rel, (d < fuel)%nat ->
  heap_ok R [] h -> context R Q (h_nodes h) a -> region S (h_nodes h) -> (forall x, S x -> Q x) ->
  h_nodes h !! a = Some n -> branch_of n cs -> tree M vs (Datatypes.S d) (h_nodes h) a l ->
  cs !! i = Some c -> tree M vs d (h_nodes h) c lc -> lc <> [] -> 0 <= rel <= len lc -> (vs | rel) ->
  exists h1 k child sib lc', CFStorageInsert fuel h s c rel size abs = Ok (h1, set_cache k s, child, sib) /\ inserted lc rel size lc' /\
    child_post M vs R S (beside Q (h_nodes h) a (take i cs ++ drop (Datatypes.S i) cs)) h c d lc' h1 child sib /\
    (unshared (h_nodes h) -> child = c /\ cache_at vs s (h_nodes h1) c sib (abs - rel) k).

Lemma unfrozen_from_child (fuel : nat) : child_insert fuel -> unfrozen_insert fuel.
Proof.
  intros IH Q h d a b l Hd H X G SQ T Hb Vb. destruct (tree_bytes _ _ _ _ _ _ T) as (n & Hn & Eb).
  unfold CFStorageInsertUnfrozen. rewrite (load_Ok h a n Hn). cbn [mbind result_bind].
  destruct (tree_node _ _ _ _ _ _ n T Hn) as [L|(d' & cs & ls & -> & B & -> & _ & F)].
  - rewrite (leaf_isLeaf _ _ _ _ L). destruct (unfrozen_leaf_ok M vs HK HV R S Q h s d a b size abs n l) as (h' & k & sib & l' & E & I & P & C); try done.
    by exists h', k, sib, l'.
  - rewrite (branch_isLeaf n cs B). apply (unfrozen_branch_ok (CFStorageInsert fuel) Q h d' a b n cs ls); try done.
    intros i c lc rel Hc Tc Nlc Hr Vr. by apply (IH Q h d' a n cs (concat ls) i c lc rel); [lia|..].
Qed.

(** The mark of a node that has one parent is removed. *)
Lemma thawed_post (Q : Z -> Prop) (h : heap) (c : Z) (nc n' : CFStorageNode) (d : nat) (l' : list cell) (h' : heap) (sib : Z) :
  h_nodes h !! c = Some nc -> numBytes n' = numBytes nc -> info n' = info nc ->
  unfrozen_post M vs R S Q (put h c n') c d l' h' sib -> unfrozen_post M vs R S Q h c d l' h' sib.
Proof.
  intros Hc Eb Ei [P1 P2 P3 P4 P5 P6 P7]. assert (Es : slots n' = slots nc) by (unfold slots; by rewrite Ei).
  assert (Dm : forall y, is_Some (h_nodes h !! y) <-> is_Some (h_nodes (put h c n') !! y)).
  { intros y. cbn. destruct (decide (y = c)) as [->|N]; [rewrite lookup_insert_eq, Hc; split; by eexists|by rewrite lookup_insert_ne]. }
  split; [done|done| | |done| |].
  - intros y Qy. eapply kept_trans; [by apply (kept_put _ c y nc n')|by apply P3].
  - intros y Hy. by apply P4, Dm.
  - intros y Hy Ny. rewrite <- (edges_same _ c nc n' Hc Es). by apply P6; [apply Dm|].
  - destruct P7 as [?|[N O]]; [by left|right]. split; [|done]. destruct (h_nodes h !! sib) eqn:E; [|done].
    destruct (proj1 (Dm sib)) as [? ?]; [by eexists|congruence].
Qed.

Lemma child_from_unfrozen (fuel : nat) : unfrozen_insert fuel -> child_insert (Datatypes.S fuel).
Proof.
  intros IH Q h d a n cs l i c lc rel Hd H X G SQ Hn B T Hc Tc Nlc Hr Vr. destruct (tree_bytes _ _ _ _ _ _ Tc) as (nc & Hnc & _).
  assert (Hcc : c ∈ edges (h_nodes h)) by (apply edges_elem; exists a, n; rewrite (branch_slots n cs B); split; [done|by eapply list_elem_of_lookup_2]).
  destruct (referenced_count [] h c nc H Hnc) as (_ & Rc & _); [done|]. rewrite occ_nil in Rc. pose proof (ho_fresh _ _ _ H c nc Hnc) as Lc.
  set (Q' := beside Q (h_nodes h) a (take i cs ++ drop (Datatypes.S i) cs)).
  assert (Un : forall n', (occ c (edges (h_nodes h)) < 2)%nat -> numBytes n' = numBytes nc -> info n' = info nc -> heap_ok R [] (put h c n') ->
    exists h1 k child sib lc', CFStorageInsertUnfrozen (CFStorageInsert fuel) (put h c n') s c rel size abs = Ok (h1, set_cache k s, child, sib) /\ inserted lc rel size lc' /\
      child_post M vs R S Q' h c d lc' h1 child sib /\ (unshared (h_nodes h) -> child = c /\ cache_at vs s (h_nodes h1) c sib (abs - rel) k)).
  { intros n' O Eb Ei H'. assert (Es : slots n' = slots nc) by (unfold slots; by rewrite Ei).
    assert (Kp : forall y, kept (h_nodes h) (h_nodes (put h c n')) y) by (intros y; by apply (kept_put _ c y nc n')).
    assert (X' : context R Q' (h_nodes h) c).
    { apply (sub_context M vs R Q [] h (Datatypes.S d) a c l n (take i cs ++ drop (Datatypes.S i) cs)); try done.
      rewrite (branch_slots n cs B). rewrite <- (take_drop_middle cs i c Hc) at 1. solve_Permutation. }
    destruct (IH Q' (put h c n') d c rel lc) as (h1 & k & sib & lc' & E & I & P & C); try done.
    - lia.
    - by apply (context_put_same R Q' _ c c nc).
    - apply (region_kept S (h_nodes h)); [done|intros y Sy; by apply (cx_dom _ _ _ _ X), SQ|by intros|]. intros y. cbn. rewrite (edges_same _ c nc n' Hnc Es). apply G.
    - intros y Sy. left. by apply SQ.
    - by eapply tree_all_kept.
    - exists h1, k, c, sib, lc'. split; [done|]. split; [done|]. split.
      + apply unfrozen_child; [lia|by eexists|]. by eapply thawed_post.
      + intros U. split; [done|]. apply C. intros y. cbn. rewrite (edges_same _ c nc n' Hnc Es). apply U. }
  cbn [CFStorageInsert]. rewrite (load_Ok h c nc Hnc). cbn [mbind result_bind]. destruct (isFrozen nc) eqn:Fz.
  - unfold CFStorageThawNodeDuringMutation. rewrite (load_Ok h c nc Hnc). cbn [mbind result_bind]. destruct (Z.eqb_spec (refCount nc) 1) as [E1|E1]; cbn [mbind result_bind negb].
    + apply Un; [lia|done|done|]. by apply thaw_ok.
    + apply occ_elem in Hcc as Oc. assert (O2 : (2 <= occ c (edges (h_nodes h)))%nat) by lia.
      destruct (insert_frozen_ok M vs HK HV R S s size abs (Datatypes.S fuel) HM Hs Vs d h [] c rel lc) as (h1 & k & child & sib & lc' & E & I & P); try done.
      * intros y Sy. by apply (cx_dom _ _ _ _ X), SQ.
      * by apply (rg_shared _ _ G).
      * exists h1, k, child, sib, lc'. split; [done|]. split; [done|]. split; [by apply frozen_child|]. intros U. specialize (U c). lia.
  - destruct (Un nc) as (h1 & k & child & sib & lc' & E & I & P); [|done|done|by rewrite put_id|].
    + destruct (decide (2 <= occ c (edges (h_nodes h)))%nat) as [O|O]; [|lia]. pose proof (ho_frozen _ _ _ H c nc Hnc O). congruence.
    + rewrite put_id in E by done. by exists h1, k, child, sib, lc'.
Qed.

Lemma unfrozen_insert_ok (fuel : nat) : unfrozen_insert fuel.
Proof. apply unfrozen_from_child. induction fuel as [|fuel IH]; [intros Q h d a n cs l i c lc rel Hd; lia|]. by apply child_from_unfrozen, unfrozen_from_child. Qed.

End Insert.

End StorageCow.
