(* ===== verification/StorageValues.v ===== *)
(** * CFStorageInsertValues on a heap with several storages

    The roots of the storages are the set [R].  [shared] nodes are those with two parents
    and what they reach; [written] says that their leaves have blocks.  An insertion into
    one storage inserts in its bytes and leaves the bytes of every other storage. *)

From stdpp Require Import base list numbers option gmap relations.
From Stdlib Require Import ZArith Lia.
From S2P Require Import Prelude Storage StorageHeap StorageTree StorageLeaf StorageFrozen StorageInsert StorageCache StorageUnfrozen StorageCow.
Import Storage StorageHeap StorageTree StorageLeaf StorageFrozen StorageInsert StorageCache StorageUnfrozen StorageCow.

Module StorageValues.

(** ** Heights

    A path goes down to fewer bytes, so it meets no node twice: the height of a tree is
    less than the number of nodes, the fuel of the recursions. *)

Lemma dom_room (m : nodes) (X : gset Z) (a c : Z) :
  X ⊆ dom m -> a ∉ X -> c ∉ X -> a <> c -> is_Some (m !! a) -> is_Some (m !! c) -> (size X + 2 <= size m)%nat.
Proof.
  intros HX Na Nc N Ha Hc. apply elem_of_dom in Ha, Hc. rewrite <- size_dom.
  assert (E : size ({[a; c]} ∪ X) = (2 + size X)%nat).
  { rewrite size_union by set_solver. rewrite size_union by set_solver. by rewrite !size_singleton. }
  pose proof (subseteq_size ({[a; c]} ∪ X) (dom m) ltac:(set_solver)). lia.
Qed.

Lemma tree_height_aux (M vs : Z) (d : nat) (m : nodes) (a : Z) (l : list cell) (X : gset Z) :
  tree M vs d m a l -> X ⊆ dom m -> (forall x, x ∈ X -> ~ reach m a x) -> tree M vs (size m - size X - 1) m a l.
Proof.
  revert a l X. induction d as [|d IH]; intros a l X T HX Hr; destruct (tree_bytes _ _ _ _ _ _ T) as (n & Hn & _);
    destruct (tree_node _ _ _ _ _ _ n T Hn) as [L|(d' & cs & ls & [=] & B & -> & Eb & F)]; try by eapply tree_leaf.
  subst d'. assert (Ec : forall c, c ∈ cs -> edge m a c) by (intros c Hc; exists n; split; [done|]; by rewrite (branch_slots n cs B)).
  assert (Na : a ∉ X) by (intros Ha; by apply (Hr a)).
  assert (Kc : forall c lc, c ∈ cs -> tree M vs d m c lc -> (size X + 2 <= size m)%nat /\ tree M vs (size m - size X - 2) m c lc).
  { intros c lc Hc Tc. assert (Nc : ~ reach m c a) by (by apply (tree_acyclic M vs _ _ a c _ T), Ec).
    destruct (tree_bytes _ _ _ _ _ _ Tc) as (nc & Hnc & _).
    assert (Ncx : c ∉ X) by (intros Hx; apply (Hr c Hx); eapply rtc_l; [by apply Ec|done]).
    assert (size X + 2 <= size m)%nat by (apply (dom_room m X a c); try done; [by intros ->|by eexists..]). split; [done|].
    specialize (IH c lc ({[a]} ∪ X) Tc). rewrite size_union, size_singleton in IH by set_solver.
    replace (size m - size X - 2)%nat with (size m - (1 + size X) - 1)%nat by lia. apply IH.
    - assert (a ∈ dom m) by (apply elem_of_dom; by eexists). set_solver.
    - intros x Hx Hx'. apply elem_of_union in Hx as [->%elem_of_singleton|Hx]; [done|]. apply (Hr x Hx). eapply rtc_l; [by apply Ec|done]. }
  assert (exists c lc, c ∈ cs /\ tree M vs d m c lc) as (c & lc & Hc & Tc).
  { destruct B as (c0 & c1 & c2 & _ & _ & _ & ->). apply Forall2_cons_inv_l in F as (lc & ? & [_ Tc] & _). exists c0, lc. split; [left|done]. }
  destruct (Kc c lc Hc Tc) as [Room _]. replace (size m - size X - 1)%nat with (S (size m - size X - 2)) by lia.
  apply (tree_branch _ _ _ _ _ n cs); [done..|]. clear - F Kc. induction F as [|y ly cs ls [Ny Ty] F IHF]; constructor.
  - split; [done|]. apply Kc; [left|done].
  - apply IHF. intros c lc Hc. apply Kc. by right.
Qed.

Lemma tree_height (M vs : Z) (d : nat) (m : nodes) (a : Z) (l : list cell) : tree M vs d m a l -> tree M vs (size m) m a l.
Proof.
  intros T. eapply tree_mono; [|apply (tree_height_aux M vs d m a l ∅ T)]; [lia|set_solver..].
Qed.

(** ** The context of a root *)

Definition shared (m : nodes) (y : Z) : Prop := exists z, (2 <= occ z (edges m))%nat /\ reach m z y.

Definition others (R : gset Z) (m : nodes) (a y : Z) : Prop := shared m y \/ exists r, r ∈ R /\ r <> a /\ reach m r y.

Definition written (h : heap) : Prop := forall b n, shared (h_nodes h) b -> h_nodes h !! b = Some n -> allocated n.

(** The invariant between two operations. *)
Record world (R : gset Z) (h : heap) : Prop := mk_world { wo_heap : heap_ok R [] h; wo_written : written h }.

Section Root.

Context (R : gset Z) (h : heap) (W : world R h).

Lemma shared_region : region (shared (h_nodes h)) (h_nodes h).
Proof.
  split.
  - intros b O. by exists b.
  - intros b c (z & O & Hz) Hc. exists z. split; [done|]. by eapply rtc_r.
  - apply W.
Qed.

Lemma reach_dom (m : nodes) (z y : Z) : (forall b, b ∈ edges m -> is_Some (m !! b)) -> is_Some (m !! z) -> reach m z y -> is_Some (m !! y).
Proof. intros D Hz Hr. destruct (reach_last m z y Hr) as [->|(p & _ & np & Hp & Hy)]; [done|]. apply D, edges_elem. by exists p, np. Qed.

Lemma root_reach (a z : Z) : a ∈ R -> reach (h_nodes h) z a -> z = a.
Proof.
  intros Ra Hr. destruct (reach_last _ z a Hr) as [->|(p & _ & np & Hp & Ha)]; [done|].
  destruct (ho_refs _ _ _ (wo_heap _ _ W) a) as [N _]; [|done]. cbn. apply edges_elem. by exists p, np.
Qed.

Lemma others_context (a : Z) : a ∈ R -> context R (others R (h_nodes h) a) (h_nodes h) a.
Proof.
  intros Ra. pose proof (wo_heap _ _ W) as H.
  assert (D : forall b, b ∈ edges (h_nodes h) -> is_Some (h_nodes h !! b)) by (intros b Hb; by apply (ho_refs _ _ _ H b)).
  assert (O2 : forall z, (2 <= occ z (edges (h_nodes h)))%nat -> z ∈ edges (h_nodes h)) by (intros z O; apply occ_elem; lia).
  split.
  - intros b [(z & O & Hz)|(r & Rr & _ & Hr)]; [apply (reach_dom _ z)|apply (reach_dom _ r)]; auto. by apply (ho_roots _ _ _ H).
  - intros [(z & O & Hz)|(r & Rr & Nr & Hr)].
    + apply root_reach in Hz as ->; [|done]. destruct (ho_refs _ _ _ H a) as [N _]; [by apply O2|done].
    + by apply root_reach in Hr.
  - intros b c [(z & O & Hz)|(r & Rr & Nr & Hr)] Hc; left; [left; exists z|right; exists r]; split_and!; try done; by eapply rtc_r.
  - intros b [(z & O & Hz)|(r & Rr & Nr & Hr)].
    + destruct (reach_last _ z b Hz) as [->|(p & Hp & Ep)]; [by right; left|right; right]. exists p. split; [left; by exists z|done].
    + destruct (reach_last _ r b Hr) as [->|(p & Hp & Ep)]; [by left|right; right]. exists p. split; [right; by exists r|done].
  - by left.
Qed.

Lemma shared_others (a y : Z) : shared (h_nodes h) y -> others R (h_nodes h) a y.
Proof. by left. Qed.

(** What is kept for the other roots. *)
Lemma other_tree (M vs : Z) (d : nat) (m' : nodes) (a r : Z) (l : list cell) :
  (forall y, others R (h_nodes h) a y -> kept (h_nodes h) m' y) -> r ∈ R -> r <> a -> tree M vs d (h_nodes h) r l -> tree M vs d m' r l.
Proof.
  intros K Rr Nr. apply (tree_kept M vs (fun y => others R (h_nodes h) a y)); [|done|right; by exists r].
  intros b c [(z & O & Hz)|(r' & Rr' & Nr' & Hr)] Hc; [left; exists z|right; exists r']; split_and!; try done; by eapply rtc_r.
Qed.

End Root.

(** The nodes of a region contain the shared ones. *)
Lemma region_written (S : Z -> Prop) (h : heap) : region S (h_nodes h) -> written h.
Proof.
  intros G b n (z & O & Hz) Hn. apply (rg_allocated _ _ G b); [|done]. apply (rg_shared _ _ G) in O. clear Hn.
  induction Hz as [z|z w b Hzw Hz IH]; [done|]. apply IH. by apply (rg_closed _ _ G z).
Qed.

(** ** A new level *)

Section Grow.

Context (M vs : Z) (R : gset Z) (S : Z -> Prop) (h : heap) (s : CFStorage) (d : nat) (sib : Z) (n : CFStorageNode) (l1 l2 : list cell).
Context (H : heap_ok R [sib] h) (G : region S (h_nodes h)) (DS : forall y, S y -> is_Some (h_nodes h !! y)).

Abbreviation a := (rootNode s).
Abbreviation x := (h_next h).

Context (Ra : a ∈ R) (Hn : h_nodes h !! a = Some n) (Os : occ sib (edges (h_nodes h)) = 0%nat) (Ns : sib <> 0).
Context (T1 : tree M vs d (h_nodes h) a l1) (T2 : tree M vs d (h_nodes h) sib l2) (N1 : l1 <> []) (N2 : l2 <> []).

Abbreviation nx := (mkNode (numBytes n) 1 (alwaysFrozen s) (info n)).
Abbreviation na := (mkNode (len l1 + len l2) (refCount n) (isFrozen n) (Branch x sib 0)).

Lemma root_unreferenced : (a ∉ edges (h_nodes h)) /\ a <> sib /\ a <> x /\ sib <> x /\ (x ∉ edges (h_nodes h)) /\ 0 < x.
Proof.
  destruct (fresh_unreferenced _ _ H) as (F1 & F2 & _). pose proof (fresh_None _ _ H) as Fx. split_and!.
  - intros Ha. destruct (ho_refs _ _ _ H a) as [? _]; [apply elem_of_app; by right|done].
  - intros E. destruct (ho_refs _ _ _ H a) as [? _]; [rewrite E; apply elem_of_app; left; left|done].
  - intros E. rewrite E in Hn. congruence.
  - intros E. apply F1. rewrite <- E. left.
  - done.
  - apply H.
Qed.

Lemma grown_edges (y : Z) : occ y (edges (h_nodes (put (alloc h nx) a na))) = (occ y [x; sib] + occ y (edges (h_nodes h)))%nat.
Proof.
  destruct root_unreferenced as (_ & _ & Nax & Nsx & _ & Px). pose proof (fresh_None _ _ H) as Fx.
  assert (Sa : slots na = [x; sib]) by (apply branch_slots; exists x, sib, 0; split_and!; [done|lia|done|done]).
  assert (Ha : h_nodes (alloc h nx) !! a = Some n) by (by rewrite lookup_alloc_ne). pose proof (edges_update _ a n na Ha) as E. apply (occ_proper y) in E.
  rewrite Sa, !occ_app in E. cbn [h_nodes alloc] in E. rewrite (occ_proper y _ _ (edges_insert_new _ x nx Fx)), occ_app in E.
  change (slots nx) with (slots n) in E. cbn [h_nodes put]. cbn [h_nodes alloc]. lia.
Qed.

Lemma grown_heap : heap_ok R [] (put (alloc h nx) a na).
Proof.
  destruct root_unreferenced as (Ea & Nas & Nax & Nsx & Ex & Px). apply occ_zero in Ex as Ox. apply occ_zero in Ea as Oa.
  set (nb := mkNode (numBytes n) 1 (alwaysFrozen s) (Branch 0 0 0)).
  assert (Sa : slots na = [x; sib]) by (apply branch_slots; exists x, sib, 0; split_and!; [done|lia|done|done]).
  pose proof (alloc_ok _ h nb H eq_refl eq_refl) as H1. assert (Ha : h_nodes (alloc h nb) !! a = Some n) by (by rewrite lookup_alloc_ne).
  pose proof (edges_update _ a n na Ha) as E. rewrite Sa, (alloc_leaf_edges R h _ nb H eq_refl) in E.
  assert (Fz : forall y ny, (2 <= occ y ([x; sib] ++ edges (h_nodes h)))%nat -> h_nodes (put (alloc h nb) a na) !! y = Some ny -> isFrozen ny = true).
  { intros y ny O Hy. rewrite occ_app, !occ_cons, occ_nil in O. repeat case_decide; subst; try lia.
    assert (y <> a) by (intros ->; lia). cbn in Hy. rewrite !lookup_insert_ne in Hy by done. apply (ho_frozen _ _ _ H y ny Hy). lia. }
  assert (H2 : heap_ok R (slots n) (put (alloc h nb) a na)).
  { apply (put_ok [x; sib] _ _ _ n); [done|done|done|rewrite Sa; apply Permutation_app_comm|].
    intros y ny Hy O. apply (Fz y ny); [|done]. rewrite <- E, occ_app. cbn [h_nodes put] in O. lia. }
  rewrite <- (put_alloc h nb), put_swap by (by apply not_eq_sym).
  apply (fill_branch_ok R [] (slots n) _ x nb); [by rewrite app_nil_r|cbn; rewrite lookup_insert_ne by done; apply lookup_insert_eq|done..|].
  intros c nc Hc Hnc. destruct (decide (occ c (slots n) + occ c (edges (h_nodes (put (alloc h nb) a na))) < 2)%nat) as [?|O]; [by right|left].
  apply (Fz c nc); [|done]. rewrite <- E, occ_app. cbn [h_nodes put] in O. lia.
Qed.

Lemma grown_kept (y : Z) : y <> a -> kept (h_nodes h) (h_nodes (put (alloc h nx) a na)) y.
Proof. intros Ny. eapply kept_trans; [by apply (alloc_kept R h [sib])|by apply kept_ne]. Qed.

Lemma grown_tree : tree M vs (Datatypes.S d) (h_nodes (put (alloc h nx) a na)) a (l1 ++ l2).
Proof.
  destruct root_unreferenced as (Ea & Nas & Nax & Nsx & Ex & Px). pose proof (fresh_None _ _ H) as Fx.
  assert (K : forall y l, y <> a -> y <> x -> forall d', tree M vs d' (h_nodes h) y l -> tree M vs d' (h_nodes (put (alloc h nx) a na)) y l).
  { intros y l Ny Nyx d' T. apply (tree_kept M vs (fun z => reach (h_nodes h) y z) d' (h_nodes h)); [by intros b c Hb Hc; eapply rtc_r| |done|done].
    intros z Hz. apply grown_kept. intros ->. destruct (reach_last _ _ _ Hz) as [->|(p & _ & np & Hp & Hq)]; [done|]. apply Ea, edges_elem. by exists p, np. }
  replace (l1 ++ l2) with (concat [l1; l2]) by (cbn; by rewrite app_nil_r).
  apply (tree_branch _ _ _ _ _ na [x; sib]); [apply lookup_insert_eq|by exists x, sib, 0; split_and!; [|lia|..]|cbn; rewrite app_nil_r, length_app; lia|].
  constructor; [split; [done|]|constructor; [split; [done|]|done]]; [|by apply K].
  assert (Hx : h_nodes (put (alloc h nx) a na) !! x = Some nx) by (cbn; rewrite lookup_insert_ne by done; apply lookup_insert_eq).
  destruct (tree_node _ _ _ _ _ _ n T1 Hn) as [L|(d' & cs & ls & Ed & B & E1 & Eb & F)].
  - apply (tree_leaf _ _ _ _ _ _ nx); [done|]. destruct L as (c & mem & r & L). by exists c, mem, r.
  - assert (TT : tree M vs (Datatypes.S d') (h_nodes (put (alloc h nx) a na)) x (concat ls)); [|by rewrite Ed; rewrite <- E1 in TT].
    apply (tree_branch _ _ _ _ _ nx cs); [done| |cbn; congruence|].
    + destruct B as (c0 & c1 & c2 & B). by exists c0, c1, c2.
    + assert (Sub : forall y, y ∈ cs -> y ∈ edges (h_nodes h)) by (intros y Hy; apply edges_elem; exists a, n; by rewrite (branch_slots n cs B)).
      clear - F Sub K Ea Ex. induction F as [|y ly cs ls [Ny Ty] F IHF]; constructor; [split; [done|]|by apply IHF; intros z Hz; apply Sub; right].
      apply K; [| |done]; intros ->; [apply Ea|apply Ex]; apply Sub; left.
Qed.

Lemma grow_root_ok : grow_root h s sib = Ok (put (alloc h nx) a na, set_cache (if isLeaf n then 0 else cacheNode s) s).
Proof.
  destruct root_unreferenced as (_ & Nas & Nax & Nsx & _ & _). unfold grow_root. rewrite (load_Ok h a n Hn). cbn [mbind result_bind]. rewrite create_alloc, load_alloc.
  cbn [mbind result_bind]. rewrite put_alloc. change (set_info (info n) (new_node s (isLeaf n) (numBytes n))) with nx.
  destruct (tree_bytes _ _ _ _ _ _ T2) as (n2 & H2 & E2). destruct (tree_bytes _ _ _ _ _ _ T1) as (n1 & H1 & E1). rewrite Hn in H1. injection H1 as <-.
  rewrite load_alloc_ne, (load_Ok h sib n2 H2) by done. cbn [mbind result_bind]. rewrite E1, E2. destruct (isLeaf n); [done|]. by destruct s.
Qed.

(** The cached leaf is now below the node that has the children of the old root. *)
Lemma grown_cache (base k : Z) : isLeaf n = false -> cache_at vs s (h_nodes h) a sib base k ->
  exists off, leaf_at (h_nodes (put (alloc h nx) a na)) a off k /\ cached vs s (h_nodes (put (alloc h nx) a na)) k (base + off).
Proof.
  intros Lf (off & C & L). destruct root_unreferenced as (Ea & Nas & Nax & Nsx & Ex & Px). exists off. set (m' := h_nodes (put (alloc h nx) a na)).
  assert (Km : forall y t, y <> a -> h_nodes h !! y = Some t -> m' !! y = Some t).
  { intros y t Ny Hy. unfold m'. cbn. rewrite !lookup_insert_ne; try done. intros <-. rewrite (fresh_None _ _ H) in Hy. done. }
  assert (Mv : forall y o, y <> a -> is_Some (h_nodes h !! y) -> leaf_at (h_nodes h) y o k -> leaf_at m' y o k).
  { intros y o Ny Dy. apply (leaf_at_moved h h a); [intros b Hb; apply (ho_refs _ _ _ H b), elem_of_app; by right|done| |apply mild_refl|done].
    intros Hr. destruct (reach_last _ _ _ Hr) as [->|(p & _ & np & Hp & Hq)]; [done|]. apply Ea, edges_elem. by exists p, np. }
  assert (Ha : m' !! a = Some na) by apply lookup_insert_eq. assert (Ba : branch_of na [x; sib]) by (exists x, sib, 0; split_and!; [done|lia|done|done]).
  assert (Hx : m' !! x = Some nx) by (unfold m'; cbn; rewrite lookup_insert_ne by done; apply lookup_insert_eq). split.
  - destruct L as [L|[_ L]].
    + inversion L as [a' n' Hn' Lf'|a' n' cs j y o k' Hn' B Hj Ly]; subst; rewrite Hn in Hn'; injection Hn' as <-; [congruence|].
      assert (Dc : forall z, z ∈ cs -> z <> a /\ is_Some (h_nodes h !! z)).
      { intros z Hz. assert (z ∈ edges (h_nodes h)) as Hzz by (apply edges_elem; exists a, n; by rewrite (branch_slots n cs B)).
        split; [by intros ->|]. apply (ho_refs _ _ _ H z), elem_of_app. by right. }
      destruct (Dc y) as [Ny Dy]; [by eapply list_elem_of_lookup_2|].
      change (leaf_at m' a (before m' [x; sib] 0 + (before (h_nodes h) cs j + o)) k). eapply leaf_below; [exact Ha|exact Ba|reflexivity|].
      rewrite <- (before_same _ m'); [|intros z Hz; destruct (Dc z Hz) as [Nz [t Ht]]; unfold bytes_at; by rewrite (Km z t Nz Ht), Ht].
      eapply leaf_below; [exact Hx| |exact Hj|by apply Mv]. destruct B as (c0 & c1 & c2 & B). by exists c0, c1, c2.
    + replace off with (before m' [x; sib] 1 + (off - bytes_at (h_nodes h) a)) by (unfold before, bytes_at; cbn [take map foldr]; rewrite Hx, Hn; cbn; lia).
      eapply leaf_below; [exact Ha|exact Ba|reflexivity|]. destruct (tree_bytes _ _ _ _ _ _ T2) as (n2 & H2 & _). by apply Mv; [|by eexists|].
  - apply (cached_lookup _ _ _ _ _ _ C). intros t Ht Lt. exists t. split; [|done]. apply Km; [|done]. intros ->. congruence.
Qed.

Lemma grown_region : (forall y, S y -> y <> a) -> region S (h_nodes (put (alloc h nx) a na)).
Proof.
  intros Na. destruct root_unreferenced as (_ & _ & _ & Nsx & Ex & _). apply occ_zero in Ex as Ox.
  apply (region_kept S (h_nodes h)); [done|done|intros y Sy; by apply grown_kept, Na|]. intros y. rewrite grown_edges, !occ_cons, occ_nil.
  intros O. repeat case_decide; subst; try lia. apply G. lia.
Qed.

End Grow.

(** ** The operation *)

Definition shifter_ok (s : CFStorage) : Prop := match byteToValueShifter s with Some k => 0 <= k /\ valueSize s = 2 ^ k | None => True end.

(** A storage with the bytes [l]. *)
Record storage_ok (R : gset Z) (h : heap) (s : CFStorage) (l : list cell) : Prop := mk_storage_ok {
  so_root : rootNode s ∈ R;
  so_size : 0 < valueSize s;
  so_shifter : shifter_ok s;
  so_capacity : 0 < maxLeafCapacity s <= kMaxLeafCapacity;
  so_aligned : (valueSize s | maxLeafCapacity s);
  so_tree : exists d, tree (maxLeafCapacity s) (valueSize s) d (h_nodes h) (rootNode s) l
}.

Lemma value_bytes (s : CFStorage) (v : Z) : shifter_ok s -> CFStorageConvertValueToByte s v = v * valueSize s.
Proof. unfold shifter_ok, CFStorageConvertValueToByte. destruct (byteToValueShifter s); [|done]. intros [? ->]. by rewrite Z.shiftl_mul_pow2. Qed.

Lemma storage_set_cache (R : gset Z) (h : heap) (s : CFStorage) (l : list cell) (k : Z) : storage_ok R h s l -> storage_ok R h (set_cache k s) l.
Proof. by intros []. Qed.

Lemma storage_tree (R : gset Z) (h h' : heap) (s : CFStorage) (l l' : list cell) (d : nat) :
  storage_ok R h s l -> tree (maxLeafCapacity s) (valueSize s) d (h_nodes h') (rootNode s) l' -> storage_ok R h' s l'.
Proof. intros [? ? ? ? ? _] T. split; try done. by exists d. Qed.

(** The other storages. *)
Definition undisturbed (R : gset Z) (h h' : heap) (s : CFStorage) : Prop :=
  forall s2 l2, rootNode s2 <> rootNode s -> storage_ok R h s2 l2 -> storage_ok R h' s2 l2.

Lemma undisturbed_trees (R : gset Z) (h h' : heap) (s : CFStorage) :
  (forall M vs d r l, r ∈ R -> r <> rootNode s -> tree M vs d (h_nodes h) r l -> tree M vs d (h_nodes h') r l) -> undisturbed R h h' s.
Proof. intros K s2 l2 N So. destruct (so_tree _ _ _ _ So) as [d T]. eapply storage_tree; [done|]. apply K; [apply So|done|exact T]. Qed.

(** The cache of a storage is empty or names the leaf that starts where its cached range
    does; an empty storage has no cached leaf. *)
Definition located (h : heap) (s : CFStorage) : Prop := cacheNode s = 0 \/ 0 < bytes_at (h_nodes h) (rootNode s) /\
  exists off, leaf_at (h_nodes h) (rootNode s) off (cacheNode s) /\ cached (valueSize s) s (h_nodes h) (cacheNode s) off.

Lemma region_unshared (S : Z -> Prop) (m : nodes) : (forall y, ~ S y) -> region S m -> unshared m.
Proof. intros N G y. destruct (decide (occ y (edges m) < 2)%nat) as [|O]; [done|]. destruct (N y). apply (rg_shared _ _ G). lia. Qed.

Lemma unshared_shared (m : nodes) (y : Z) : unshared m -> ~ shared m y.
Proof. intros U (z & O & _). specialize (U z). lia. Qed.

Definition insert_piece (h : heap) (s : CFStorage) (b size : Z) : result (heap * CFStorage) :=
  '(h, s, _, sibling) ← CFStorageInsertUnfrozen (CFStorageInsert (steps h)) h s (rootNode s) b size b;
  if sibling =? 0 then Ok (h, s) else grow_root h s sibling.

Lemma insert_piece_ok (R : gset Z) (h : heap) (s : CFStorage) (l : list cell) (b k0 : Z) :
  world R h -> storage_ok R h s l -> 0 <= b <= len l -> 0 < k0 <= maxLeafCapacity s -> (valueSize s | b) -> (valueSize s | k0) ->
  exists h' k l', insert_piece h s b k0 = Ok (h', set_cache k s) /\ inserted l b k0 l' /\ world R h' /\ storage_ok R h' s l' /\ undisturbed R h h' s /\
    (unshared (h_nodes h) -> unshared (h_nodes h') /\ located h' (set_cache k s)).
Proof.
  intros W So Hb Hs Vb Vs. destruct (so_tree _ _ _ _ So) as [d T]. apply tree_height in T. set (Sh := shared (h_nodes h)). set (Q := others R (h_nodes h) (rootNode s)).
  pose proof (others_context R h W (rootNode s) (so_root _ _ _ _ So)) as X. fold Q in X.
  destruct (unfrozen_insert_ok (maxLeafCapacity s) (valueSize s) ltac:(apply So) ltac:(apply So) R Sh s eq_refl k0 b Hs Vs (steps h) Q h (size (h_nodes h)) (rootNode s) b l)
    as (h1 & k & sib & l' & E & I & [P1 P2 P3 P4 P5 P6 P7] & C); [unfold steps; lia|apply W|done|by apply (shared_region R)|by left|done..|]. rewrite Z.sub_diag in C.
  assert (DS : forall y, Sh y -> is_Some (h_nodes h !! y)) by (intros y Sy; apply (cx_dom _ _ _ _ X); by left).
  assert (NS : forall y, Q y -> y <> rootNode s) by (intros y Qy ->; by apply (cx_out _ _ _ _ X)).
  assert (Us : forall g, unshared (h_nodes h) -> region Sh g -> unshared g) by (intros g U; apply region_unshared; intros y; by apply unshared_shared).
  unfold insert_piece. rewrite E. cbn [mbind result_bind]. destruct P2 as [[-> T']|(Ns & l1 & l2 & -> & N1 & N2 & T1 & T2)].
  - exists h1, k, l'. cbn. split_and!; [done|done|split; [done|by eapply region_written]|by eapply storage_tree| |].
    + apply undisturbed_trees. intros M' vs' d' r lr Rr Nr. by eapply other_tree.
    + intros U. split; [by apply Us|]. right. apply inserted_length in I. split; [cbn; rewrite (tree_bytes_at _ _ _ _ _ _ T'); lia|].
      destruct (C U) as (off & Ck & [L|[? _]]); [|done]. by exists off.
  - destruct (Z.eqb_spec sib 0) as [|_]; [done|]. destruct P7 as [?|[_ Os]]; [done|]. unfold nonzero in P1. rewrite decide_False in P1 by done.
    destruct (tree_bytes _ _ _ _ _ _ T1) as (n & Hn & _). pose proof (so_root _ _ _ _ So) as Ra.
    assert (DS1 : forall y, Sh y -> is_Some (h_nodes h1 !! y)) by (intros y Sy; by apply P4, DS).
    rewrite (grow_root_ok (maxLeafCapacity s) (valueSize s) R h1 (set_cache k s) _ sib n l1 l2 P1 Ra Hn T1 T2).
    assert (Gr : region Sh (h_nodes (put (alloc h1 (mkNode (numBytes n) 1 (alwaysFrozen s) (info n))) (rootNode s)
      (mkNode (len l1 + len l2) (refCount n) (isFrozen n) (Branch (h_next h1) sib 0))))).
    { eapply (grown_region (maxLeafCapacity s) (valueSize s) R Sh h1 (set_cache k s)); try done. intros y Sy. apply NS. by left. }
    eexists _, _, (l1 ++ l2). split; [reflexivity|]. split; [done|]. split_and!.
    + split; [by eapply (grown_heap (maxLeafCapacity s) (valueSize s) R h1 (set_cache k s) _ sib n l1 l2)|by eapply region_written].
    + eapply storage_tree; [done|]. by eapply (grown_tree (maxLeafCapacity s) (valueSize s) R h1 (set_cache k s)).
    + apply undisturbed_trees. intros M' vs' d' r lr Rr Nr. apply (other_tree R h M' vs' d' _ (rootNode s)); [|done..].
      intros y Qy. eapply kept_trans; [by apply P3|]. apply (grown_kept R); [done|]. by apply NS.
    + intros U. split; [by apply Us|]. destruct (isLeaf n) eqn:Lf; [by left|right]. specialize (C U).
      apply inserted_length in I. rewrite length_app in I. split; [unfold bytes_at; cbn; rewrite lookup_insert_eq; cbn; lia|].
      eapply (grown_cache (maxLeafCapacity s) (valueSize s) R h1 (set_cache k s) _ sib n l1 l2) in C; done.
Qed.

Lemma inserted_trans (l l1 l2 : list cell) (b k1 k2 : Z) : 0 <= b <= len l -> 0 <= k1 -> inserted l b k1 l1 -> inserted l1 (b + k1) k2 l2 -> inserted l b (k1 + k2) l2.
Proof.
  intros Hb Hk (g1 & L1 & ->) (g2 & L2 & ->). exists (g1 ++ g2). split; [rewrite length_app; lia|].
  assert (Lt : length (take (Z.to_nat b) l) = Z.to_nat b) by (rewrite length_take; lia).
  replace (Z.to_nat (b + k1)) with (length (take (Z.to_nat b) l ++ g1)) by (rewrite length_app; lia).
  rewrite (app_assoc (take _ l) g1), take_app_length, drop_app_length. by rewrite <- !app_assoc.
Qed.

Lemma insert_loop_ok (R : gset Z) (fuel : nat) : forall h s l b n,
  world R h -> storage_ok R h s l -> 0 <= b <= len l -> 0 <= n -> (Z.to_nat n <= fuel)%nat -> (valueSize s | b) -> (valueSize s | n) ->
  exists h' k l', insert_loop fuel h s n b = Ok (h', set_cache k s) /\ inserted l b n l' /\ world R h' /\ storage_ok R h' s l' /\ undisturbed R h h' s /\
    (unshared (h_nodes h) -> unshared (h_nodes h') /\ (located h' (set_cache k s) \/ h' = h /\ k = cacheNode s /\ l' = l)).
Proof.
  induction fuel as [|fuel IH]; intros h s l b n W So Hb Hn Hf Vb Vn; cbn [insert_loop]; destruct (Z.leb_spec n 0); try lia.
  1, 2: exists h, (cacheNode s), l; replace n with 0 in * by lia; split_and!; [by destruct s| |done|done|by intros ?|by split; [|right]];
    exists []; split; [done|]; cbn; by rewrite take_drop.
  set (m := Z.min n (maxLeafCapacity s)). pose proof (so_capacity _ _ _ _ So) as Cap.
  assert (Vm : (valueSize s | m)) by (unfold m; destruct (Z.min_spec n (maxLeafCapacity s)) as [[_ ->]|[_ ->]]; [done|apply So]).
  destruct (insert_piece_ok R h s l b m W So Hb ltac:(lia) Vb Vm) as (h1 & k & l1 & E & I & W1 & So1 & U1 & C1).
  destruct (IH h1 (set_cache k s) l1 (b + m) (n - m)) as (h2 & k2 & l2 & E2 & I2 & W2 & So2 & U2 & C2).
  - done.
  - by apply storage_set_cache.
  - apply inserted_length in I. lia.
  - lia.
  - lia.
  - by apply Z.divide_add_r.
  - by apply Z.divide_sub_r.
  - exists h2, k2, l2. split_and!.
    + unfold insert_piece in E.
      destruct (CFStorageInsertUnfrozen _ h s (rootNode s) b m b) as [[[[h0 s0] c0] sib]| | |]; cbn [mbind result_bind] in E |- *; try done.
      destruct (sib =? 0); cbn [mbind result_bind]; [injection E as -> ->; exact E2|]. rewrite E. cbn [mbind result_bind]. exact E2.
    + replace n with (m + (n - m)) by lia. eapply inserted_trans; [done|lia|done|done].
    + done.
    + by apply (storage_set_cache _ _ _ _ (cacheNode s)) in So2; destruct s.
    + intros s2 l3 N So3. apply U2; [done|]. by apply U1.
    + intros Un. destruct (C1 Un) as [Un1 Lo]. destruct (C2 Un1) as [? [?|(-> & -> & _)]]; (split; [done|by left]).
Qed.

Lemma insert_values (R : gset Z) (h : heap) (s : CFStorage) (l : list cell) (range : CFRange) :
  world R h -> storage_ok R h s l -> 0 <= location range -> location range * valueSize s <= len l -> 0 <= rlength range ->
  exists h' k l', CFStorageInsertValues h s range = Ok (h', set_cache k s) /\
    inserted l (location range * valueSize s) (rlength range * valueSize s) l' /\
    world R h' /\ storage_ok R h' (set_cache k s) l' /\ undisturbed R h h' s /\
    (unshared (h_nodes h) -> unshared (h_nodes h') /\ (located h' (set_cache k s) \/ h' = h /\ k = cacheNode s /\ l' = l)).
Proof.
  intros W So Hl Hll Hr. pose proof (so_size _ _ _ _ So) as Hv. unfold CFStorageInsertValues. rewrite !value_bytes by apply So.
  destruct (insert_loop_ok R (Z.to_nat (rlength range * valueSize s)) h s l (location range * valueSize s) (rlength range * valueSize s))
    as (h' & k & l' & E & I & W' & So' & U & C); [done|done|split; [nia|done]|nia|lia|by exists (location range)|by exists (rlength range)|].
  exists h', k, l'. split_and!; [done..|by apply storage_set_cache|done|done].
Qed.

(** C14. CFStorageInsertValues never runs into undefined behaviour on a heap where storages share frozen
    nodes whose leaves have blocks: it makes room at the position, keeps the other bytes in order, keeps
    the reference counts, the marks and the tree invariant, and changes no byte of any other storage. *)
Theorem CFStorageInsertValues_ok (R : gset Z) (h : heap) (s : CFStorage) (l : list cell) (range : CFRange) :
  world R h -> storage_ok R h s l -> 0 <= location range -> location range * valueSize s <= len l -> 0 <= rlength range ->
  exists h' k l', CFStorageInsertValues h s range = Ok (h', set_cache k s) /\
    inserted l (location range * valueSize s) (rlength range * valueSize s) l' /\
    world R h' /\ storage_ok R h' (set_cache k s) l' /\
    (forall s2 l2, rootNode s2 <> rootNode s -> storage_ok R h s2 l2 -> storage_ok R h' s2 l2).
Proof.
  intros W So Hl Hll Hr. destruct (insert_values R h s l range W So Hl Hll Hr) as (h' & k & l' & E & I & W' & So' & U & _). by exists h', k, l'.
Qed.

End StorageValues.
