(* ===== verification/StorageRead.v ===== *)
(** * Reading a storage

    [CFStorageGetValues] returns the bytes of the range, through the cache where it
    applies.  Reading changes a heap only quietly: a leaf may get its block and a new cached
    range, which no other storage sees in its bytes. *)

From stdpp Require Import base list numbers option gmap relations.
From Stdlib Require Import ZArith Lia.
From S2P Require Import Prelude Storage StorageHeap StorageTree StorageLeaf StorageFrozen StorageInsert StorageCache StorageUnfrozen StorageCow StorageValues.
Import Storage StorageHeap StorageTree StorageLeaf StorageFrozen StorageInsert StorageCache StorageUnfrozen StorageCow StorageValues.

Module StorageRead.

(** ** Quiet changes *)

Definition quiet_node (n n' : CFStorageNode) : Prop :=
  numBytes n' = numBytes n /\ refCount n' = refCount n /\ isFrozen n' = isFrozen n /\ slots n' = slots n /\ isLeaf n' = isLeaf n /\
  (allocated n -> allocated n') /\ (forall M vs l, leaf_of M vs n l -> leaf_of M vs n' l) /\ (forall cs, branch_of n cs -> branch_of n' cs).

Definition quiet (m m' : nodes) : Prop := forall x, option_relation quiet_node (fun _ => False) (fun _ => False) (m !! x) (m' !! x).

Lemma quiet_refl (m : nodes) : quiet m m.
Proof. intros x. by destruct (m !! x). Qed.

Lemma quiet_trans (m1 m2 m3 : nodes) : quiet m1 m2 -> quiet m2 m3 -> quiet m1 m3.
Proof.
  intros H1 H2 x. specialize (H1 x). specialize (H2 x). destruct (m1 !! x), (m2 !! x), (m3 !! x); cbn in *; try done.
  destruct H1 as (? & ? & ? & ? & ? & ? & ? & ?), H2 as (? & ? & ? & ? & ? & ? & ? & ?). split_and!; [congruence..| | |]; auto.
Qed.

Lemma quiet_lookup (m m' : nodes) (x : Z) (n : CFStorageNode) : quiet m m' -> m !! x = Some n -> exists n', m' !! x = Some n' /\ quiet_node n n'.
Proof. intros H Hn. specialize (H x). rewrite Hn in H. destruct (m' !! x) as [n'|]; [|done]. by exists n'. Qed.

Lemma quiet_back (m m' : nodes) (x : Z) (n' : CFStorageNode) : quiet m m' -> m' !! x = Some n' -> exists n, m !! x = Some n /\ quiet_node n n'.
Proof. intros H Hn. specialize (H x). rewrite Hn in H. destruct (m !! x) as [n|]; [|done]. by exists n. Qed.

Lemma quiet_kept (m m' : nodes) (x : Z) : quiet m m' -> kept m m' x.
Proof. intros H n Hn. destruct (quiet_lookup m m' x n H Hn) as (n' & ? & ? & ? & ? & ? & ? & ? & ? & ?). by exists n'. Qed.

Lemma quiet_put (m : nodes) (x : Z) (n n' : CFStorageNode) : m !! x = Some n -> quiet_node n n' -> quiet m (<[x := n']> m).
Proof.
  intros Hn Q y. destruct (decide (y = x)) as [->|N]; [by rewrite lookup_insert_eq, Hn|]. rewrite lookup_insert_ne by done. by destruct (m !! y).
Qed.

Lemma quiet_edges (m m' : nodes) : quiet m m' -> edges m' ≡ₚ edges m.
Proof.
  revert m'. induction m as [|k n m Hk IH] using map_ind; intros m' H.
  - assert (m' = ∅) as ->; [|done]. apply map_eq. intros x. specialize (H x). rewrite lookup_empty in *. by destruct (m' !! x).
  - destruct (quiet_lookup _ _ k n H) as (n' & Hn' & _ & _ & _ & E & _); [apply lookup_insert_eq|].
    rewrite (edges_delete m' k n' Hn'), edges_insert_new by done. f_equiv; [by rewrite E|]. apply IH. intros x. specialize (H x).
    destruct (decide (x = k)) as [->|N]; [by rewrite Hk, lookup_delete_eq|]. rewrite lookup_insert_ne in H by done. by rewrite lookup_delete_ne.
Qed.

Lemma quiet_heap (R : gset Z) (ext : list Z) (h h' : heap) : quiet (h_nodes h) (h_nodes h') -> h_next h' = h_next h -> heap_ok R ext h -> heap_ok R ext h'.
Proof.
  intros Q Nx [C F B X D O]. pose proof (quiet_edges _ _ Q) as E. split.
  - intros b n' Hb. destruct (quiet_back _ _ b n' Q Hb) as (n & Hn & _ & Er & _). rewrite Er, (C b n Hn). destruct (decide (b ∈ R)); [done|]. by rewrite E.
  - intros b n' Hb. rewrite E. destruct (quiet_back _ _ b n' Q Hb) as (n & Hn & _ & _ & Ef & _). rewrite Ef. by apply F.
  - intros b n' Hb. destruct (quiet_back _ _ b n' Q Hb) as (n & Hn & _). rewrite Nx. by apply (B b n).
  - by rewrite Nx.
  - intros b. rewrite E. intros Hb. destruct (D b Hb) as [? [n Hn]]. split; [done|]. destruct (quiet_lookup _ _ b n Q Hn) as (n' & ? & _). by exists n'.
  - intros r Hr. destruct (O r Hr) as [n Hn]. destruct (quiet_lookup _ _ r n Q Hn) as (n' & ? & _). by exists n'.
Qed.

Lemma quiet_world (R : gset Z) (h h' : heap) : quiet (h_nodes h) (h_nodes h') -> h_next h' = h_next h -> world R h -> world R h'.
Proof.
  intros Q Nx W. split; [by eapply quiet_heap; [..|apply W]|]. apply (region_written (shared (h_nodes h))).
  apply (region_kept (shared (h_nodes h)) (h_nodes h)); [by apply (shared_region R)| |by intros; apply quiet_kept|].
  - intros y (z & O & Hz). pose proof (wo_heap _ _ W) as H. apply (reach_dom _ z); [by intros b Hb; apply (ho_refs _ _ _ H b)| |done].
    apply (ho_refs _ _ _ H z). cbn. apply occ_elem. lia.
  - intros b. rewrite (quiet_edges _ _ Q). intros O. by exists b.
Qed.

Lemma quiet_storage (R : gset Z) (h h' : heap) (s : CFStorage) (l : list cell) : quiet (h_nodes h) (h_nodes h') -> storage_ok R h s l -> storage_ok R h' s l.
Proof.
  intros Q So. destruct (so_tree _ _ _ _ So) as [d T]. eapply storage_tree; [done|]. eapply tree_all_kept; [|exact T]. intros x. by apply quiet_kept.
Qed.

Lemma quiet_cached (n : CFStorageNode) (c : Z) (mem : option (list cell)) (r r' : CFRange) :
  info n = Leaf c mem r -> quiet_node n (set_info (Leaf c mem r') n).
Proof.
  intros Hi. unfold quiet_node, slots, isLeaf, allocated. cbn. rewrite Hi. split_and!; [done..| |].
  - intros M' vs' l' (c1 & mem1 & r1 & E1 & P). rewrite Hi in E1. injection E1 as <- <- <-. by exists c, mem, r'.
  - intros cs (c0 & c1 & c2 & E & _). congruence.
Qed.

Lemma quiet_leaf_at (m m' : nodes) (a off k : Z) : quiet m m' -> leaf_at m a off k -> leaf_at m' a off k.
Proof.
  intros Q L. induction L as [a n Hn Hl|a n cs j y off k Hn B Hj L IH]; destruct (quiet_lookup _ _ a n Q Hn) as (n' & Hn' & _ & _ & _ & _ & El & _ & _ & KB).
  - apply (leaf_here m' a n'); congruence.
  - rewrite <- (before_same m m'); [by eapply leaf_below; [|apply KB|..]|]. intros z _. specialize (Q z). unfold bytes_at.
    destruct (m !! z), (m' !! z); try done. by destruct Q.
Qed.

Lemma quiet_unshared (m m' : nodes) : quiet m m' -> unshared m -> unshared m'.
Proof. intros Q U y. rewrite (quiet_edges _ _ Q). apply U. Qed.

(** ** The block of a leaf for reading *)

Section Reading.

Context (M vs : Z) (s : CFStorage) (HM : maxLeafCapacity s = M) (HK : M <= kMaxLeafCapacity) (HS : valueSize s = vs) (HP : 0 < vs) (Hsh : shifter_ok s).

(** [n] is a leaf with a block that holds the bytes [lc]. *)
Definition readable (n : CFStorageNode) (lc : list cell) : Prop := leaf_of M vs n lc /\ exists m, memory_of n = Ok m.

Lemma leaf_block_ok (h : heap) (a : Z) (n : CFStorageNode) (lc : list cell) :
  h_nodes h !! a = Some n -> leaf_of M vs n lc -> lc <> [] -> exists n', CFStorageAllocLeafNodeMemory s h a (numBytes n) false = Ok (put h a n') /\
    quiet_node n n' /\ readable n' lc /\ cachedRange n' = cachedRange n.
Proof.
  intros Ha L Nl. pose proof (leaf_bytes _ _ _ _ L) as El. assert (0 < len lc) by (destruct lc; [done|cbn; lia]). pose proof L as (c & mem & r & Hi & B & Hb & V & ->).
  destruct (alloc_block s h a c (numBytes n) (numBytes n) mem r n ltac:(lia) Ha Hi B ltac:(lia) ltac:(lia)) as (c' & m & -> & Hm & Hc & Ht).
  eexists. split; [reflexivity|]. set (n' := set_info _ _).
  assert (L' : forall M' vs' l, leaf_of M' vs' n l -> leaf_of M' vs' n' l).
  { intros M' vs' l (c1 & mem1 & r1 & E1 & B1 & Hb1 & V1 & ->). rewrite Hi in E1. injection E1 as <- <- <-. exists c', (Some m), r. cbn. split_and!; [done|done|done|lia|lia|done|]. by rewrite Ht. }
  split_and!; [|split; [by apply L'|by exists m]|unfold cachedRange; by rewrite Hi].
  unfold quiet_node. cbn. unfold slots, isLeaf, allocated. rewrite Hi. cbn. split_and!; [done..|]. intros cs (c0 & c1 & c2 & E & _). congruence.
Qed.

Lemma cached_block (h : heap) (a : Z) (n : CFStorageNode) (lc : list cell) (c : Z) (mem : option (list cell)) (r : CFRange) :
  h_nodes h !! a = Some n -> info n = Leaf c mem r -> leaf_of M vs n lc -> lc <> [] ->
  exists n', match mem with Some _ => Ok h | None => CFStorageAllocLeafNodeMemory s h a (numBytes n) false end = Ok (put h a n') /\
    quiet_node n n' /\ readable n' lc /\ cachedRange n' = cachedRange n.
Proof.
  intros Hn Hi L Nl. destruct mem as [m|].
  - exists n. split_and!; [by rewrite put_id|unfold quiet_node; by split_and!|split; [done|]|done]. exists m. unfold memory_of. by rewrite Hi.
  - by apply leaf_block_ok.
Qed.

(** ** Finding a byte *)

(** The leaf [a], which starts at byte [off] of [l], holds the bytes [lc] of it. *)
Definition found_leaf (m : nodes) (a off : Z) (l lc : list cell) : Prop :=
  exists n, m !! a = Some n /\ readable n lc /\ 0 <= off /\ (vs | off) /\ lc = take (length lc) (drop (Z.to_nat off) l).

Lemma slice_child (ls : list (list cell)) (i : nat) (c lc : list cell) (off : Z) :
  ls !! i = Some c -> 0 <= off -> off + len lc <= len c -> lc = take (length lc) (drop (Z.to_nat off) c) ->
  lc = take (length lc) (drop (Z.to_nat (len (concat (take i ls)) + off)) (concat ls)).
Proof.
  intros Hc Ho Hl E. pose proof (f_equal (@concat cell) (take_drop_middle ls i c Hc)) as Ec. rewrite concat_app in Ec. cbn [concat] in Ec. rewrite <- Ec.
  replace (Z.to_nat (len (concat (take i ls)) + off)) with (length (concat (take i ls)) + Z.to_nat off)%nat by lia.
  rewrite drop_app_add, drop_app_le by lia. rewrite take_app_le by (rewrite length_drop; lia). done.
Qed.

Lemma find_byte_ok (fuel : nat) : forall d h a b abs l, (d < fuel)%nat -> tree M vs d (h_nodes h) a l -> 0 <= b < len l ->
  exists h' leaf off lc, CFStorageFindByte fuel s h a b abs false = Ok (h', (leaf, b - off), CFRangeMake (abs + off) (len lc)) /\
    quiet (h_nodes h) (h_nodes h') /\ h_next h' = h_next h /\ found_leaf (h_nodes h') leaf off l lc /\ leaf_at (h_nodes h') a off leaf /\
    off <= b < off + len lc /\ off + len lc <= len l.
Proof.
  induction fuel as [|fuel IH]; intros d h a b abs l Hd T Hb; [lia|]. destruct (tree_bytes _ _ _ _ _ _ T) as (n & Hn & En).
  cbn [CFStorageFindByte]. rewrite (load_Ok h a n Hn). cbn [mbind result_bind]. destruct (tree_node _ _ _ _ _ _ n T Hn) as [L|(d' & cs & ls & -> & B & -> & _ & F)].
  - rewrite (leaf_isLeaf _ _ _ _ L). destruct (leaf_block_ok h a n l Hn L) as (n' & -> & Qn & Rn & _); [by intros ->; cbn in Hb; lia|]. cbn [mbind result_bind].
    exists (put h a n'), a, 0, l. rewrite En. split_and!; [by rewrite Z.sub_0_r, Z.add_0_r|by apply (quiet_put _ a n)|done| |eapply leaf_here; [apply lookup_insert_eq|]; by destruct Rn as [Rn _]; eapply leaf_isLeaf|lia|lia|lia].
    exists n'. split_and!; [apply lookup_insert_eq|done|lia|by exists 0|]. by rewrite drop_0, firstn_all.
  - rewrite (branch_isLeaf n cs B).
    destruct (find_child_spec M vs d' h a b false n cs ls Hn B F) as (i & c & lc & rel & Hc & Hl & -> & Er & Hr1 & Hr2); [lia..|]. cbn [mbind result_bind].
    destruct (Forall2_lookup_lr _ _ _ _ _ _ F Hc Hl) as [_ Tc]. destruct (tree_bytes _ _ _ _ _ _ Tc) as (nc & Hnc & _). rewrite (load_Ok h c nc Hnc). cbn [mbind result_bind andb].
    destruct (IH d' h c rel (abs + (b - rel)) lc) as (h' & leaf & off & lf & -> & Q & Nx & (nf & Hf & Rf & Of & Vf & Ef) & Lf & Hoff & Hlen); [lia|done|lia|].
    exists h', leaf, (len (concat (take i ls)) + off), lf.
    replace (b - (len (concat (take i ls)) + off)) with (rel - off) by lia. replace (abs + (len (concat (take i ls)) + off)) with (abs + (b - rel) + off) by lia.
    split_and!; [done|done|done| | |lia|lia|].
    + exists nf. split_and!; [done|done|lia| |by apply (slice_child ls i lc)].
      apply Z.divide_add_r; [|done]. eapply kids_aligned. by apply Forall2_take.
    + destruct (quiet_lookup _ _ a n Q Hn) as (n' & Hn' & _ & _ & _ & _ & _ & _ & _ & KB).
      rewrite <- (kids_before M vs d' (h_nodes h') cs ls i) by (eapply kids_kept; [intros z; by apply quiet_kept|done]). by eapply leaf_below; [|apply KB|..].
    + pose proof (f_equal (@concat cell) (take_drop_middle ls i lc Hl)) as Ec. rewrite concat_app in Ec. cbn [concat] in Ec. rewrite <- Ec, !length_app. lia.
Qed.

(** ** The cache *)

Lemma byte_value (v : Z) : 0 <= v -> CFStorageConvertByteToValue s (v * vs) = v.
Proof.
  intros Hv. unfold CFStorageConvertByteToValue. unfold shifter_ok in Hsh. rewrite HS in *. destruct (byteToValueShifter s) as [k|].
  - destruct Hsh as [Hk ->]. rewrite Z.shiftr_div_pow2 by done. by rewrite Z.div_mul by lia.
  - by rewrite Z.quot_mul by lia.
Qed.

(** The cached leaf holds the bytes of [l] at its cached range. *)
Definition cache_ok (h : heap) (l : list cell) (c : Z) : Prop :=
  c = 0 \/ exists n lc off k, h_nodes h !! c = Some n /\ leaf_of M vs n lc /\ lc <> [] /\ cachedRange n = CFRangeMake off k /\ 0 <= off /\ 0 <= k /\
    k * vs <= len lc /\ (off + k) * vs <= len l /\ take (Z.to_nat (k * vs)) lc = take (Z.to_nat (k * vs)) (drop (Z.to_nat (off * vs)) l).

(** [p] points to value [idx] of [l] in a leaf that holds the values of [range]. *)
Definition at_index (m : nodes) (l : list cell) (idx : Z) (p : Z * Z) (range : CFRange) : Prop :=
  exists n lc, m !! fst p = Some n /\ readable n lc /\ 0 <= location range <= idx /\ idx < location range + rlength range /\
    snd p = (idx - location range) * vs /\ rlength range * vs <= len lc /\ (location range + rlength range) * vs <= len l /\
    take (Z.to_nat (rlength range * vs)) lc = take (Z.to_nat (rlength range * vs)) (drop (Z.to_nat (location range * vs)) l).

Lemma located_put (h : heap) (n n' : CFStorageNode) : h_nodes h !! cacheNode s = Some n -> quiet_node n n' -> cachedRange n' = cachedRange n ->
  located h s -> located (put h (cacheNode s) n') s.
Proof.
  intros Hn Qn Ec [E|(Hp & off & L & (n0 & kk & Hn0 & Hl & Hc & Hk & V))]; [by left|right]. pose proof (quiet_put _ _ _ _ Hn Qn) as Q.
  rewrite Hn in Hn0. injection Hn0 as <-. destruct Qn as (Eb & _ & _ & _ & El & _). split.
  - specialize (Q (rootNode s)). unfold bytes_at in *. cbn in *. destruct (h_nodes h !! rootNode s), (_ !! rootNode s); try done. destruct Q as [-> _]. done.
  - exists off. split; [by eapply quiet_leaf_at|]. exists n', kk. split_and!; [apply lookup_insert_eq|congruence|congruence|lia|lia|done].
Qed.

Lemma from_cache_ok (h : heap) (l : list cell) (idx : Z) : cache_ok h l (cacheNode s) -> exists h' r,
  CFStorageGetFromCache h s idx false = Ok (h', r) /\ quiet (h_nodes h) (h_nodes h') /\ h_next h' = h_next h /\ cache_ok h' l (cacheNode s) /\ (located h s -> located h' s) /\
  match r with Some (p, range) => at_index (h_nodes h') l idx p range | None => True end.
Proof.
  intros C. pose proof C as C'. unfold CFStorageGetFromCache. destruct C as [E|(n & lc & off & k & Hn & L & Nl & Er & Ho & Hk & Hl & Hll & Ht)].
  { rewrite E. cbn. exists h, None. split_and!; [done|apply quiet_refl|done|by left|done|done]. }
  destruct (Z.eqb_spec (cacheNode s) 0) as [E|N].
  { exists h, None. split_and!; [done|apply quiet_refl|done|done|done|done]. }
  rewrite (load_Ok h _ n Hn). cbn [mbind result_bind andb]. pose proof L as (c & mem & r & Hi & _). unfold leaf_memory. rewrite Hi. cbn [mbind result_bind].
  destruct (cached_block h (cacheNode s) n lc c mem r Hn Hi L Nl) as (n' & -> & Qn & Rn & Cn).
  cbn [mbind result_bind]. assert (E : r = CFRangeMake off k) by (unfold cachedRange in Er; by rewrite Hi in Er). subst r. cbn [location rlength].
  assert (C2 : cache_ok (put h (cacheNode s) n') l (cacheNode s)).
  { right. exists n', lc, off, k. split_and!; [apply lookup_insert_eq|apply Rn|done|by rewrite Cn, Er|done..]. }
  pose proof (quiet_put _ _ _ _ Hn Qn) as Q.
  assert (Lo : located h s -> located (put h (cacheNode s) n') s) by (by eapply located_put).
  destruct (Z.ltb_spec idx off) as [L1|L1]; cbn [orb]; [by exists (put h (cacheNode s) n'), None; split_and!|].
  destruct (Z.leb_spec (off + k) idx) as [L2|L2]; [by exists (put h (cacheNode s) n'), None; split_and!|].
  eexists _, (Some _). split; [reflexivity|]. split_and!; [done|done|done|done|]. exists n', lc. cbn [fst snd location rlength].
  split_and!; [apply lookup_insert_eq|done|lia|lia|lia| |done..]. by rewrite value_bytes, HS.
Qed.

Lemma get_value_ok (R : gset Z) (h : heap) (l : list cell) (d : nat) (idx : Z) :
  heap_ok R [] h -> tree M vs d (h_nodes h) (rootNode s) l -> cache_ok h l (cacheNode s) -> 0 <= idx -> (idx + 1) * vs <= len l ->
  exists h' k p range, GetValueAtIndex h s idx false = Ok (h', set_cache k s, p, range) /\ quiet (h_nodes h) (h_nodes h') /\ h_next h' = h_next h /\
    cache_ok h' l k /\ at_index (h_nodes h') l idx p range /\ (located h s -> located h' (set_cache k s)).
Proof.
  intros H T C Hi Hl. unfold GetValueAtIndex. destruct (from_cache_ok h l idx C) as (h1 & [[p range]|] & -> & Q1 & X1 & C1 & Lo1 & A1); cbn [mbind result_bind].
  { exists h1, (cacheNode s), p, range. split_and!; [by destruct s|done..|by destruct s]. }
  assert (T1 : tree M vs (size (h_nodes h1)) (h_nodes h1) (rootNode s) l) by (eapply tree_height, tree_all_kept; [intros x; by apply quiet_kept|done]).
  rewrite value_bytes, HS by done.
  destruct (find_byte_ok (steps h1) (size (h_nodes h1)) h1 (rootNode s) (idx * vs) 0 l) as (h2 & leaf & off & lc & -> & Q2 & X2 & (n & Hn & [L Mm] & Ho & [o ->] & Es) & Lf & Hb & Hlen);
    [unfold steps; lia|done|nia|]. cbn [mbind result_bind fst location rlength].
  assert (Hc0 : 0 < leaf) by (apply (ho_fresh _ _ _ (quiet_heap R [] h h2 ltac:(by eapply quiet_trans) ltac:(congruence) H) leaf n Hn)).
  pose proof L as (c & mem & r & Hinf & _ & Hbn & [v Ev] & _). pose proof (leaf_bytes _ _ _ _ L) as El.
  rewrite (set_cache_leaf h2 s leaf (0 + o * vs) c mem r n ltac:(lia) Hn Hinf). cbn [mbind result_bind]. assert (Hv : 0 < v) by nia. assert (Ho' : 0 <= o) by nia.
  assert (Ec : conv s (0 + o * vs) (numBytes n) = CFRangeMake o v) by (unfold conv, CFStorageConvertBytesToValueRange; by rewrite Z.add_0_l, Ev, !byte_value by lia).
  rewrite Ec. set (n' := set_info _ n). change (CFStorageConvertBytesToValueRange (set_cache leaf s)) with (conv s). rewrite <- El, Ec.
  pose proof (quiet_cached n c mem r (CFRangeMake o v) Hinf) as Qn. fold n' in Qn.
  assert (L' : leaf_of M vs n' lc) by (by apply Qn).
  assert (Et : take (Z.to_nat (v * vs)) lc = take (Z.to_nat (v * vs)) (drop (Z.to_nat (o * vs)) l)).
  { rewrite <- Ev, El, Nat2Z.id. rewrite <- Es. by rewrite firstn_all. }
  eexists _, leaf, _, _. split; [reflexivity|]. split_and!.
  - eapply quiet_trans; [done|]. eapply quiet_trans; [done|]. by apply (quiet_put _ leaf n).
  - cbn. congruence.
  - right. exists n', lc, o, v. split_and!; [apply lookup_insert_eq|done|intros ->; cbn in Hb; lia|done|lia|lia|lia|nia|done].
  - exists n', lc. cbn [fst snd location rlength]. split_and!; [apply lookup_insert_eq| |lia|nia|nia|nia|lia|nia|done].
    split; [done|]. destruct Mm as [m Hm]. exists m. unfold memory_of in *. rewrite Hinf in Hm. done.
  - intros _. right. pose proof (quiet_put _ _ _ _ Hn Qn) as Q3. cbn [cacheNode set_cache rootNode valueSize].
    assert (T3 : tree M vs (size (h_nodes h1)) (h_nodes (put h2 leaf n')) (rootNode s) l).
    { eapply tree_all_kept; [|exact T1]. intros y. apply quiet_kept. eapply quiet_trans; [exact Q2|done]. }
    split; [rewrite (tree_bytes_at _ _ _ _ _ _ T3); nia|]. exists (o * vs). split; [by eapply quiet_leaf_at|].
    exists n', (numBytes n). rewrite HS. change (conv (set_cache leaf s)) with (conv s). rewrite Z.add_0_l in Ec. rewrite Ec.
    split_and!; [apply lookup_insert_eq|unfold isLeaf; done|done|lia|cbn; lia|by exists v].
Qed.

Lemma read_at_ok (h : heap) (l : list cell) (idx j : Z) (p : Z * Z) (range : CFRange) :
  at_index (h_nodes h) l idx p range -> 0 <= j -> idx + j <= location range + rlength range ->
  read_at h p (j * vs) = Ok (take (Z.to_nat (j * vs)) (drop (Z.to_nat (idx * vs)) l)).
Proof.
  intros (n & lc & Hn & [L [m Hm]] & Hr & Hlt & Hs & Hlc & Hll & Et) Hj Hjr. set (o := idx - location range) in *. unfold read_at. rewrite Hs. rewrite (load_Ok h _ n Hn). cbn [mbind result_bind].
  rewrite Hm. cbn [mbind result_bind]. pose proof (leaf_bytes _ _ _ _ L) as El. destruct L as (c & mem & r & Hi & B & Hb & _ & Em). unfold memory_of in Hm. rewrite Hi in Hm.
  destruct mem as [m'|]; [|done]. injection Hm as ->. cbn in B, Em.
  destruct (Z.leb_spec 0 (o * vs)); [|nia]. destruct (Z.leb_spec 0 (j * vs)); [|nia]. cbn [andb].
  destruct (Z.leb_spec (o * vs + j * vs) (len m)) as [_|N]; [|nia]. f_equal.
  assert (Sub : forall (x : list cell) a b, take b (drop a x) = drop a (take (a + b) x)) by (intros; by rewrite take_drop_commute).
  replace (Z.to_nat (idx * vs)) with (Z.to_nat (location range * vs) + Z.to_nat (o * vs))%nat by nia.
  rewrite <- drop_drop, (Sub m), (Sub (drop _ l)). f_equal. set (k := Z.to_nat (rlength range * vs)) in *.
  assert (Ek : (Z.to_nat (o * vs) + Z.to_nat (j * vs) <= k)%nat) by nia. apply (f_equal (take (Z.to_nat (o * vs) + Z.to_nat (j * vs)))) in Et.
  rewrite !take_take, !(Nat.min_l _ k) in Et by done. rewrite <- Et, Em, take_take. f_equal. nia.
Qed.

End Reading.

(** ** The operation *)

Lemma get_loop_ok (R : gset Z) (fuel : nat) : forall h s l loc n,
  world R h -> storage_ok R h s l -> cache_ok (maxLeafCapacity s) (valueSize s) h l (cacheNode s) -> 0 <= loc -> 0 <= n -> (Z.to_nat n <= fuel)%nat ->
  (loc + n) * valueSize s <= len l ->
  exists h' k, get_loop fuel h s (CFRangeMake loc n) =
      Ok (h', set_cache k s, take (Z.to_nat (n * valueSize s)) (drop (Z.to_nat (loc * valueSize s)) l)) /\
    quiet (h_nodes h) (h_nodes h') /\ h_next h' = h_next h /\ cache_ok (maxLeafCapacity s) (valueSize s) h' l k /\ (located h s -> located h' (set_cache k s)).
Proof.
  induction fuel as [|fuel IH]; intros h s l loc n W So C Hloc Hn Hf Hl; cbn [get_loop rlength location]; destruct (Z.leb_spec n 0); try lia.
  1, 2: exists h, (cacheNode s); replace n with 0 by lia; split_and!; [by destruct s|apply quiet_refl|done|done|by destruct s].
  pose proof (so_size _ _ _ _ So) as Hv. destruct (so_tree _ _ _ _ So) as [d T].
  destruct (get_value_ok (maxLeafCapacity s) (valueSize s) s eq_refl ltac:(apply So) eq_refl Hv (so_shifter _ _ _ _ So) R h l d loc)
    as (h1 & k & p & range & -> & Q1 & X1 & C1 & A1 & Lo1); [apply W|done|done|done|nia|]. cbn [mbind result_bind].
  set (cnt := Z.min n (rlength range - (loc - location range))). pose proof A1 as (n1 & lc & _ & _ & Hr & Hlt & _).
  assert (Hcnt : 0 < cnt <= n /\ loc + cnt <= location range + rlength range) by lia. clearbody cnt.
  rewrite value_bytes by apply So. cbn [valueSize set_cache]. rewrite (read_at_ok (maxLeafCapacity s) (valueSize s) Hv h1 l loc cnt p range A1) by lia. cbn [mbind result_bind].
  destruct (IH h1 (set_cache k s) l (loc + cnt) (n - cnt)) as (h2 & k2 & E & Q2 & X2 & C2 & Lo2);
    [by eapply quiet_world|by apply storage_set_cache; eapply quiet_storage|done|lia|lia|lia|cbn; nia|].
  rewrite E. cbn [mbind result_bind valueSize set_cache]. exists h2, k2. split_and!; [|by eapply quiet_trans|congruence|done|by intros; apply Lo2, Lo1].
  do 2 f_equal. replace (Z.to_nat (n * valueSize s)) with (Z.to_nat (cnt * valueSize s) + Z.to_nat ((n - cnt) * valueSize s))%nat by nia.
  rewrite take_plus, drop_drop. do 2 f_equal. f_equal. nia.
Qed.

(** [CFStorageGetValues] returns the values of the range, on heaps with shared nodes too,
    and leaves the contents of every storage as it was. *)
Theorem CFStorageGetValues_ok (R : gset Z) (h : heap) (s : CFStorage) (l : list cell) (range : CFRange) :
  world R h -> storage_ok R h s l -> cache_ok (maxLeafCapacity s) (valueSize s) h l (cacheNode s) ->
  0 <= location range -> 0 <= rlength range -> (location range + rlength range) * valueSize s <= len l ->
  exists h' k, CFStorageGetValues h s range =
      Ok (h', set_cache k s, take (Z.to_nat (rlength range * valueSize s)) (drop (Z.to_nat (location range * valueSize s)) l)) /\
    world R h' /\ cache_ok (maxLeafCapacity s) (valueSize s) h' l k /\
    (forall s2 l2, storage_ok R h s2 l2 -> storage_ok R h' s2 l2).
Proof.
  destruct range as [loc n]. cbn [location rlength]. intros W So C Hl Hn Hr.
  destruct (get_loop_ok R (Z.to_nat n) h s l loc n W So C Hl Hn (le_n _) Hr) as (h' & k & E & Q & X & C' & _). exists h', k.
  split_and!; [exact E|by eapply quiet_world|done|]. intros s2 l2. by apply quiet_storage.
Qed.

End StorageRead.
