(* ===== verification/StorageWrite.v ===== *)
(** * Writing into a storage

    Before it writes, [__CFStorageFindByte] makes the path from the root to the leaf
    private: nodes that may be shared are copied.  [below] describes such a path: every node
    on it has one parent.  [CFStorageReplaceValues] then changes the bytes of one storage
    only. *)

From stdpp Require Import base list numbers option gmap relations.
From Stdlib Require Import ZArith Lia.
From S2P Require Import Prelude Storage StorageHeap StorageTree StorageLeaf StorageFrozen StorageInsert StorageCopy StorageCache StorageUnfrozen StorageCow StorageValues StorageRead.
Import Storage StorageHeap StorageTree StorageLeaf StorageFrozen StorageInsert StorageCopy StorageCache StorageUnfrozen StorageCow StorageValues StorageRead.

Module StorageWrite.

(** The bytes [x] at position [off] of [l]. *)
Definition splice (l : list cell) (off : Z) (x : list cell) : list cell :=
  take (Z.to_nat off) l ++ x ++ drop (Z.to_nat off + length x) l.

Definition slice (l : list cell) (off : Z) (x : list cell) : Prop :=
  0 <= off /\ off + len x <= len l /\ x = take (length x) (drop (Z.to_nat off) l).

Lemma splice_slice (l x : list cell) (off : Z) : slice l off x -> splice l off x = l.
Proof.
  intros (Ho & Hl & E). unfold splice. rewrite E at 1. rewrite <- (take_drop (Z.to_nat off) l) at 4. f_equal.
  rewrite <- drop_drop. by rewrite take_drop.
Qed.

Lemma splice_length (l x : list cell) (off : Z) : 0 <= off -> off + len x <= len l -> length (splice l off x) = length l.
Proof. intros Ho Hl. unfold splice. rewrite !length_app, length_take, length_drop. lia. Qed.

Lemma slice_splice (l x : list cell) (off : Z) : 0 <= off -> off + len x <= len l -> slice (splice l off x) off x.
Proof.
  intros Ho Hl. split_and!; [done|by rewrite splice_length|]. unfold splice. rewrite drop_app_length' by (rewrite length_take; lia). by rewrite take_app_length.
Qed.

Lemma splice_at (p x r y : list cell) (off : Z) : 0 <= off -> len p = off -> length y = length x -> splice (p ++ x ++ r) off y = p ++ y ++ r.
Proof.
  intros Ho Hp Hy. unfold splice. rewrite take_app_length' by lia. do 2 f_equal.
  rewrite app_assoc, drop_app_length' by (rewrite length_app; lia). done.
Qed.

Lemma slice_split (l x : list cell) (off : Z) : slice l off x -> exists p r, l = p ++ x ++ r /\ len p = off.
Proof.
  intros (Ho & Hl & E). exists (take (Z.to_nat off) l), (drop (length x) (drop (Z.to_nat off) l)). rewrite length_take. split; [|lia].
  rewrite E at 1. by rewrite !take_drop.
Qed.

(** A part of a part. *)
Lemma splice_inner (l x1 x x2 y : list cell) (off : Z) :
  slice l off (x1 ++ x ++ x2) -> length y = length x -> splice l off (x1 ++ y ++ x2) = splice l (off + len x1) y.
Proof.
  intros Sl Ey. pose proof Sl as (Ho & _). apply slice_split in Sl as (p & r & -> & Hp).
  rewrite splice_at by (done || rewrite !length_app; lia). rewrite <- !app_assoc, (app_assoc p x1 (x ++ x2 ++ r)), splice_at by (rewrite ?length_app; lia). by rewrite <- !app_assoc.
Qed.

Lemma splice_splice (l x y : list cell) (off : Z) : 0 <= off -> off + len x + len y <= len l -> splice (splice l off x) (off + len x) y = splice l off (x ++ y).
Proof.
  intros Ho Hl. assert (Lt : len (take (Z.to_nat off) l) = off) by (rewrite length_take; lia). unfold splice at 2.
  rewrite <- (take_drop (length y) (drop (Z.to_nat off + length x) l)). rewrite (app_assoc (take _ l) x), drop_drop.
  rewrite splice_at by (rewrite ?length_app, ?length_take, ?length_drop; lia). unfold splice. rewrite length_app, <- !app_assoc, Nat.add_assoc. done.
Qed.

Lemma slice_inner (l x1 x x2 : list cell) (off : Z) : slice l off (x1 ++ x ++ x2) -> slice l (off + len x1) x.
Proof.
  intros Sl. pose proof Sl as (Ho & Hl & _). apply slice_split in Sl as (p & r & -> & Hp). rewrite !length_app in Hl. split_and!; [lia|rewrite !length_app; lia|].
  rewrite <- !app_assoc, (app_assoc p x1), drop_app_length' by (rewrite length_app; lia). by rewrite take_app_length.
Qed.

Section Private.

Context (M vs : Z) (HK : M <= kMaxLeafCapacity) (HV : (vs | M)) (R : gset Z) (root : Z) (d0 : nat).

Abbreviation kids d m := (Forall2 (fun c lc => lc <> [] /\ tree M vs d m c lc)).

(** The node [a], a tree of height [d], stores the bytes [la] at position [off] of the bytes
    [l] of the root, and no node on the way to it has another parent. *)
Inductive below (m : nodes) (l : list cell) : nat -> Z -> list cell -> Z -> Prop :=
| below_root : tree M vs d0 m root l -> below m l d0 root l 0
| below_child (d : nat) (a off : Z) (n : CFStorageNode) (cs : list Z) (ls : list (list cell)) (i : nat) (c : Z) (lc : list cell) :
    below m l (S d) a (concat ls) off -> m !! a = Some n -> branch_of n cs -> numBytes n = len (concat ls) -> kids d m cs ls ->
    cs !! i = Some c -> ls !! i = Some lc -> (occ c (edges m) < 2)%nat -> below m l d c lc (off + len (concat (take i ls))).

Lemma concat_middle (ls : list (list cell)) (i : nat) (lc : list cell) :
  ls !! i = Some lc -> concat ls = concat (take i ls) ++ lc ++ concat (drop (S i) ls).
Proof. intros H. rewrite <- (take_drop_middle ls i lc H) at 1. rewrite concat_app. done. Qed.

Lemma below_tree (m : nodes) (l : list cell) (d : nat) (a off : Z) (la : list cell) :
  below m l d a la off -> tree M vs d m a la /\ slice l off la /\ (vs | off) /\ tree M vs d0 m root l.
Proof.
  induction 1 as [T|d a off n cs ls i c lc Hb (T & Sl & V & Tr) Hn B Eb F Hc Hl O].
  - split_and!; [done| |by exists 0|done]. unfold slice. split_and!; [lia|lia|by rewrite drop_0, firstn_all].
  - destruct (Forall2_lookup_lr _ _ _ _ _ _ F Hc Hl) as [_ Tc]. split_and!; [done| | |done].
    + rewrite (concat_middle ls i lc Hl) in Sl. by eapply slice_inner.
    + apply Z.divide_add_r; [done|]. eapply kids_aligned. by apply Forall2_take.
Qed.

(** Changes that readers do not see. *)
Lemma below_same (m m' : nodes) (l : list cell) (d : nat) (a off : Z) (la : list cell) :
  (forall x, kept m m' x) -> (forall y, (occ y (edges m') <= occ y (edges m))%nat) -> below m l d a la off -> below m' l d a la off.
Proof.
  intros K O. induction 1 as [T|d a off n cs ls i c lc Hb IH Hn B Eb F Hc Hl Oc].
  - apply below_root. by eapply tree_all_kept.
  - destruct (K a n Hn) as (n' & Hn' & E' & _ & _ & _ & _ & KB). eapply (below_child m' l d a off n' cs ls i); [done|done|by apply KB|congruence| |done|done|].
    + by eapply kids_kept.
    + specialize (O c). lia.
Qed.

(** In a heap without shared nodes every leaf is private. *)
Lemma below_leaf (m : nodes) (l : list cell) (a off k : Z) : unshared m -> leaf_at m a off k -> forall d la o, below m l d a la o ->
  exists d' lc n, below m l d' k lc (o + off) /\ m !! k = Some n /\ leaf_of M vs n lc.
Proof.
  intros U. induction 1 as [a n Hn Hl|a n cs j y off k Hn B Hj L IH]; intros d la o Hb; destruct (below_tree _ _ _ _ _ _ Hb) as (T & _).
  - exists d, la, n. rewrite Z.add_0_r. split_and!; [done|done|]. destruct (tree_node _ _ _ _ _ _ n T Hn) as [?|(d' & cs & ls & _ & B & _)]; [done|].
    apply branch_isLeaf in B. congruence.
  - destruct (tree_node _ _ _ _ _ _ n T Hn) as [Lf|(d' & cs' & ls & -> & B' & -> & Eb & F)]; [apply leaf_isLeaf in Lf; apply branch_isLeaf in B; congruence|].
    assert (cs' = cs) as -> by (by rewrite <- (branch_slots n cs B), (branch_slots n cs' B')).
    destruct (Forall2_lookup_l _ _ _ _ _ F Hj) as (lc & Hl & _). rewrite (kids_before M vs d' m cs ls j F), Z.add_assoc.
    apply (IH d' lc). by apply (below_child m l d' a o n cs ls j y lc).
Qed.

Lemma below_nonempty (m : nodes) (l : list cell) (d : nat) (a off : Z) (la : list cell) : l <> [] -> below m l d a la off -> la <> [].
Proof. intros Nl. destruct 1 as [|d a off n cs ls i c lc Hb Hn B Eb F Hc Hl O]; [done|]. by destruct (Forall2_lookup_lr _ _ _ _ _ _ F Hc Hl). Qed.

Lemma below_at (m : nodes) (l : list cell) (d : nat) (a off : Z) (la : list cell) : below m l d a la off -> forall o k, leaf_at m a o k -> leaf_at m root (off + o) k.
Proof.
  induction 1 as [T|d a off n cs ls i c lc Hb IH Hn B Eb F Hc Hl O]; intros o k L; [done|]. rewrite <- Z.add_assoc. apply IH.
  rewrite <- (kids_before M vs d m cs ls i F). by eapply leaf_below.
Qed.

(** A private node has a context, and when it changes the path to it stays. *)
Lemma below_context (h : heap) (l : list cell) (d : nat) (a off : Z) (la : list cell) :
  world R h -> root ∈ R -> below (h_nodes h) l d a la off -> exists Q, context R Q (h_nodes h) a /\ (forall y, shared (h_nodes h) y -> Q y) /\
    (forall r y, r ∈ R -> r <> root -> reach (h_nodes h) r y -> Q y) /\
    forall m' la', length la' = length la -> (forall y, Q y -> kept (h_nodes h) m' y) ->
      (forall y, is_Some (h_nodes h !! y) -> ~ shared (h_nodes h) y -> (occ y (edges m') <= occ y (edges (h_nodes h)))%nat) ->
      tree M vs d m' a la' -> below m' (splice l off la') d a la' off.
Proof.
  intros W Ra. induction 1 as [T|d a off n cs ls i c lc Hb IH Hn B Eb F Hc Hl O].
  - exists (others R (h_nodes h) root). split_and!; [by apply others_context|by left|by right; exists r|].
    intros m' la' El K Old T'. unfold splice. change (Z.to_nat 0) with 0%nat. rewrite take_0, drop_ge by lia. rewrite app_nil_r. by apply below_root.
  - destruct IH as (Q & X & SQ & RQ & Mv). destruct (below_tree _ _ _ _ _ _ Hb) as (T & Sl & _ & _).
    set (oth := take i cs ++ drop (S i) cs). assert (Ps : slots n ≡ₚ c :: oth).
    { rewrite (branch_slots n cs B). rewrite <- (take_drop_middle cs i c Hc) at 1. unfold oth. solve_Permutation. }
    pose proof (sub_context M vs R Q [] h _ a c _ n oth (wo_heap _ _ W) X T Hn Ps O) as X'. exists (beside Q (h_nodes h) a oth).
    split_and!; [done|intros y Sy; left; by apply SQ|intros r y Rr Nr Hr; left; by eapply RQ|].
    intros m' lc' El K Old Tc'. destruct (K a (or_intror (or_introl eq_refl)) n Hn) as (n' & Hn' & Eb' & _ & _ & _ & _ & KB). pose proof (KB cs B) as B'.
    destruct (Forall2_lookup_lr _ _ _ _ _ _ F Hc Hl) as [Nlc _]. assert (Nlc' : lc' <> []) by (destruct lc'; [destruct lc; done|done]).
    assert (Keep : forall cs' ls', (forall y, y ∈ cs' -> y ∈ oth) -> kids d (h_nodes h) cs' ls' -> kids d m' cs' ls').
    { intros cs' ls' Sub K'. induction K' as [|y ly cs' ls' [Ny Ty] K' IH']; constructor; [split; [done|]|by apply IH'; intros z Hz; apply Sub; right].
      eapply (sibling_kept M vs Q); [exact K|apply Sub; left|done]. }
    set (ls' := take i ls ++ lc' :: drop (S i) ls). assert (Ec : concat ls' = concat (take i ls) ++ lc' ++ concat (drop (S i) ls)) by (unfold ls'; by rewrite concat_app).
    assert (F' : kids d m' cs ls').
    { rewrite <- (take_drop_middle cs i c Hc). apply Forall2_app; [apply Keep; [intros y Hy; apply elem_of_app; by left|by apply Forall2_take]|].
      constructor; [done|]. apply Keep; [intros y Hy; apply elem_of_app; by right|by apply Forall2_drop]. }
    assert (Li : length (take i ls) = i) by (apply lookup_lt_Some in Hl; rewrite length_take; lia).
    assert (Ll : length (concat ls') = length (concat ls)) by (rewrite Ec, (concat_middle ls i lc Hl), !length_app, El; lia).
    assert (Tk : take i ls' = take i ls) by (unfold ls'; by rewrite take_app_length').
    assert (Dc : is_Some (h_nodes h !! c)) by (apply (ho_refs _ _ _ (wo_heap _ _ W) c); cbn; apply edges_elem; exists a, n; split; [done|]; rewrite Ps; left).
    rewrite (concat_middle ls i lc Hl) in Sl. rewrite <- (splice_inner l _ lc _ lc' off Sl El), <- Ec, <- Tk.
    eapply (below_child m' _ d a off n' cs ls' i).
    + apply Mv; [done|intros y Qy; apply K; by left|done|]. apply (tree_branch _ _ _ _ _ n' cs); [done|done|congruence|done].
    + done.
    + done.
    + congruence.
    + done.
    + done.
    + unfold ls'. by rewrite list_lookup_middle.
    + assert (~ shared (h_nodes h) c) as Nsc by (intros Sc; apply (cx_out _ _ _ _ X'); left; by apply SQ). specialize (Old c Dc Nsc). lia.
Qed.

(** ** One step down *)

(** The heap keeps its invariant and the other storages. *)
Definition steady (h h' : heap) : Prop :=
  world R h' /\ (forall y, is_Some (h_nodes h !! y) -> is_Some (h_nodes h' !! y)) /\
  (unshared (h_nodes h) -> unshared (h_nodes h')) /\ forall M' vs' d r l, r ∈ R -> r <> root -> tree M' vs' d (h_nodes h) r l -> tree M' vs' d (h_nodes h') r l.

Lemma steady_size (h h' : heap) : steady h h' -> (size (h_nodes h) <= size (h_nodes h'))%nat.
Proof.
  intros (_ & D & _). rewrite <- (size_dom (D := gset Z) (h_nodes h)), <- (size_dom (D := gset Z) (h_nodes h')). apply subseteq_size. intros y. rewrite !elem_of_dom. apply D.
Qed.

Lemma steady_trans (h1 h2 h3 : heap) : steady h1 h2 -> steady h2 h3 -> steady h1 h3.
Proof. intros (_ & D1 & U1 & K1) (W2 & D2 & U2 & K2). split_and!; [done|auto|auto|]. intros M' vs' d r l Rr Nr T. by apply K2, K1. Qed.

Lemma steady_kept (h h' : heap) : world R h' -> (forall x, kept (h_nodes h) (h_nodes h') x) -> edges (h_nodes h') ≡ₚ edges (h_nodes h) -> steady h h'.
Proof.
  intros W K E. split_and!; [done|intros y [n Hn]; destruct (K y n Hn) as (n' & ? & _); by exists n'|intros U y; rewrite E; apply U|]. intros M' vs' d r l _ _ T. by eapply tree_all_kept.
Qed.

Lemma steady_quiet (h h' : heap) : world R h -> quiet (h_nodes h) (h_nodes h') -> h_next h' = h_next h -> steady h h'.
Proof. intros W Q Nx. apply steady_kept; [by eapply quiet_world|intros x; by apply quiet_kept|by apply quiet_edges]. Qed.

Lemma set_child_spread (na : CFStorageNode) (cs : list Z) (i : nat) (c v a : Z) :
  branch_of na cs -> cs !! i = Some c -> v <> 0 -> exists nw, similar na nw /\ numBytes nw = numBytes na /\ branch_of nw (spread cs i v 0) /\
    forall g, h_nodes g !! a = Some na -> CFStorageSetChild g a (Z.of_nat i) v = Ok (put g a nw).
Proof.
  intros (c0 & c1 & c2 & E & N0 & N1 & ->) Hc Nv. unfold spread, nonzero. rewrite (decide_True (P := 0 = 0)) by done.
  destruct i as [|[|[|j]]]; cbn in Hc; [| | |by destruct (decide (c2 = 0))].
  - exists (set_info (Branch v c1 c2) na). split_and!; [done|done|by exists v, c1, c2|]. intros g Hg. by apply (set_child_ok g a c0 c1 c2 v na).
  - exists (set_info (Branch c0 v c2) na). split_and!; [done|done|by exists c0, v, c2|]. intros g Hg. by apply (set_child_ok g a c0 c1 c2 v na).
  - destruct (decide (c2 = 0)) as [|N2]; [done|]. exists (set_info (Branch c0 c1 v) na). split_and!; [done|done| |intros g Hg; by apply (set_child_ok g a c0 c1 c2 v na)].
    exists c0, c1, v. split_and!; [done..|]. cbn. by rewrite decide_False.
Qed.

Lemma spread_one (cs : list Z) (i : nat) (c v : Z) : cs !! i = Some c -> spread cs i v 0 !! i = Some v.
Proof.
  intros Hc. unfold spread, nonzero. rewrite decide_True by done. apply lookup_lt_Some in Hc. assert (i = length (take i cs)) as Li by (rewrite length_take; lia).
  rewrite Li at 3. by apply list_lookup_middle.
Qed.

Section Step.

Context (s : CFStorage) (HM : maxLeafCapacity s = M) (h : heap) (W : world R h) (Ra : root ∈ R).
Context (l : list cell) (d : nat) (a off : Z) (n : CFStorageNode) (cs : list Z) (ls : list (list cell)) (i : nat) (c : Z) (lc : list cell) (nc : CFStorageNode).
Context (Hb : below (h_nodes h) l (S d) a (concat ls) off) (Hn : h_nodes h !! a = Some n) (B : branch_of n cs) (Eb : numBytes n = len (concat ls)).
Context (F : kids d (h_nodes h) cs ls) (Hc : cs !! i = Some c) (Hl : ls !! i = Some lc) (Hnc : h_nodes h !! c = Some nc).

Lemma step_facts : lc <> [] /\ tree M vs d (h_nodes h) c lc /\ (c ∈ edges (h_nodes h)) /\ refCount nc = Z.of_nat (occ c (edges (h_nodes h))).
Proof.
  destruct (Forall2_lookup_lr _ _ _ _ _ _ F Hc Hl) as [Nlc Tc].
  assert (Hcc : c ∈ edges (h_nodes h)) by (apply edges_elem; exists a, n; rewrite (branch_slots n cs B); split; [done|by eapply list_elem_of_lookup_2]).
  destruct (referenced_count [] h c nc (wo_heap _ _ W) Hnc) as (_ & Rc & _); [done|]. by rewrite occ_nil in Rc.
Qed.

Lemma step_in_place : (occ c (edges (h_nodes h)) < 2)%nat -> below (h_nodes h) l d c lc (off + len (concat (take i ls))).
Proof. intros O. by apply (below_child _ l d a off n cs ls i c lc). Qed.

Lemma step_thaw : refCount nc = 1 -> let h1 := put h c (set_frozen false nc) in
  steady h h1 /\ below (h_nodes h1) l d c lc (off + len (concat (take i ls))).
Proof.
  intros R1 h1. destruct step_facts as (_ & _ & Hcc & Rc). assert (K : forall x, kept (h_nodes h) (h_nodes h1) x) by (intros x; by apply (kept_put _ c x nc)).
  assert (E : edges (h_nodes h1) ≡ₚ edges (h_nodes h)) by (by apply (edges_same _ c nc)). split.
  - apply steady_kept; [|done|done]. split; [apply thaw_ok; [apply W|done|done]|]. apply (region_written (shared (h_nodes h))).
    apply (region_kept (shared (h_nodes h)) (h_nodes h)); [by apply (shared_region R)| |done|intros b; rewrite E; intros O; by exists b].
    intros y Sy. apply (cx_dom _ _ _ _ (others_context R h W root Ra)). by left.
  - apply (below_same (h_nodes h)); [done|intros y; by rewrite E|]. apply step_in_place. lia.
Qed.

Lemma step_copy : isFrozen nc = true -> refCount nc <> 1 -> exists h1 rep, 
  ('(g, rep) ← CFStorageCopyNode s h c; g ← CFStorageSetChild g a (Z.of_nat i) rep; g ← release g c; Ok (g, rep)) = Ok (h1, rep) /\
  steady h h1 /\ below (h_nodes h1) l d rep lc (off + len (concat (take i ls))).
Proof.
  intros Fz R1. destruct step_facts as (Nlc & Tc & Hcc & Rc). apply occ_elem in Hcc as Oc. assert (O2 : (2 <= occ c (edges (h_nodes h)))%nat) by lia.
  pose proof (wo_heap _ _ W) as H. pose proof (shared_region R h W) as G. assert (Sc : shared (h_nodes h) c) by (by exists c).
  assert (D : forall y, shared (h_nodes h) y -> is_Some (h_nodes h !! y)) by (intros y Sy; apply (cx_dom _ _ _ _ (others_context R h W root Ra)); by left).
  destruct (below_context h l (S d) a off (concat ls) W Ra Hb) as (Q & X & SQ & RQ & Mv).
  assert (exists h2, CFStorageCopyNode s h c = Ok (h2, h_next h) /\ frozen_post M vs R (shared (h_nodes h)) [] h c d lc h2 (h_next h) 0) as (h2 & -> & P).
  { destruct (tree_node _ _ _ _ _ _ nc Tc Hnc) as [L|(d' & cs' & ls' & -> & B' & -> & Eb' & F')].
    - by apply (copy_leaf_ok M vs HK R _ s HM h [] c nc).
    - by apply (copy_branch_ok M vs R _ s h [] c nc H G D Sc Hnc d' cs' ls'). }
  cbn [mbind result_bind]. set (rep := h_next h) in *. assert (Nrc : rep <> c) by (intros E; unfold rep in E; rewrite <- E, (fresh_None [] h H) in Hnc; done).
  apply (frozen_child M vs R _ (beside Q (h_nodes h) a (take i cs ++ drop (S i) cs))) in P; [|done].
  destruct (cp_child _ _ _ _ _ _ _ _ _ _ _ _ P) as (Nr & _ & [?|[_ Orep]]); [done|].
  destruct (cp_kept _ _ _ _ _ _ _ _ _ _ _ _ P a (or_intror (or_introl eq_refl)) n Hn) as (na & Hna & Ena & _ & _ & _ & _ & KB). pose proof (KB cs B) as Bna.
  destruct (settle M vs R _ Q h d a n cs ls Hn B Eb F i c rep 0 lc h2 na Hc P Hna Bna) as (g1 & Mi & Nx & Hg & _ & Hok & Hrel).
  destruct (spread_kids M vs R _ Q h d a cs ls F i c rep 0 lc h2 P Nlc) as (parts & Fk & _ & Ep & _). rewrite Ep in Fk by done. clear Ep parts. rewrite (take_drop_middle ls i lc Hl) in Fk.
  destruct (set_child_spread na cs i c rep a Bna Hc Nr) as (nw & Sim & Enw & Bnw & Set_). rewrite (Set_ h2 Hna). cbn [mbind result_bind]. rewrite (Hrel Nrc). cbn [mbind result_bind].
  pose proof (settled_three M vs R _ Q h d a n cs ls H X G SQ Hn B Eb F i c rep 0 lc h2 na Hc P Hna Bna g1 ls Mi Fk Hok nw Sim Bnw ltac:(congruence)) as [P1 P2 P3 P4 P5 P6 _].
  exists (put g1 a nw), rep. split; [done|]. split.
  - split_and!; [split; [done|by eapply region_written]|done|intros U; specialize (U c); lia|]. intros M' vs' d' r lr Rr Nroot. apply (tree_kept M' vs' (fun y => reach (h_nodes h) r y)); [by intros b y Hy Hb'; eapply rtc_r| |done].
    intros y Hy. apply P3. by eapply RQ.
  - destruct P2 as [[_ Ta]|[? _]]; [|done]. destruct (below_tree _ _ _ _ _ _ Hb) as (_ & Sl & _). rewrite <- (splice_slice l (concat ls) off Sl).
    eapply (below_child _ _ d a off nw (spread cs i rep 0) ls i).
    + by apply Mv.
    + apply lookup_insert_eq.
    + done.
    + congruence.
    + by apply (settled_kids M vs R _ Q h d a n cs ls H X G SQ Hn B Eb F i c rep 0 lc h2 na Hc P Hna Bna).
    + by eapply spread_one.
    + done.
    + pose proof (settled_edges a cs ls h2 na Hna Bna g1 Mi nw rep) as Se. rewrite (branch_slots _ _ Bnw) in Se.
      destruct (spread_count M vs R _ Q h d a cs ls i c rep 0 lc h2 na Hc P Hna Bna rep) as [?|(_ & _ & ?)]; lia.
Qed.

End Step.

(** ** A private leaf *)

Section Find.

Context (s : CFStorage) (HM : maxLeafCapacity s = M) (HS : valueSize s = vs) (HP : 0 < vs) (Hsh : shifter_ok s) (Hroot : rootNode s = root) (Ra : root ∈ R).

(** A private leaf with a block, which starts at byte [off] of [l]. *)
Definition private_leaf (h : heap) (l : list cell) (leaf off : Z) (lc : list cell) : Prop :=
  exists d n, below (h_nodes h) l d leaf lc off /\ h_nodes h !! leaf = Some n /\ readable M vs n lc.

Lemma below_quiet (h h' : heap) (l : list cell) (d : nat) (a off : Z) (la : list cell) :
  quiet (h_nodes h) (h_nodes h') -> below (h_nodes h) l d a la off -> below (h_nodes h') l d a la off.
Proof. intros Q. apply below_same; [intros x; by apply quiet_kept|]. intros y. by rewrite (quiet_edges _ _ Q). Qed.

Lemma find_byte_private (l : list cell) (fuel : nat) : forall h d a off la b abs, world R h -> below (h_nodes h) l d a la off -> (d < fuel)%nat -> 0 <= b < len la ->
  exists h' leaf o lc, CFStorageFindByte fuel s h a b abs true = Ok (h', (leaf, b - o), CFRangeMake (abs + o) (len lc)) /\
    steady h h' /\ private_leaf h' l leaf (off + o) lc /\ 0 <= o <= b /\ b < o + len lc.
Proof.
  induction fuel as [|fuel IH]; intros h d a off la b abs W Hb Hd Hr; [lia|]. destruct (below_tree _ _ _ _ _ _ Hb) as (T & Sl & _ & _).
  destruct (tree_bytes _ _ _ _ _ _ T) as (n & Hn & En). cbn [CFStorageFindByte]. rewrite (load_Ok h a n Hn). cbn [mbind result_bind].
  destruct (tree_node _ _ _ _ _ _ n T Hn) as [L|(d' & cs & ls & -> & B & -> & _ & F)].
  - rewrite (leaf_isLeaf _ _ _ _ L). destruct (leaf_block_ok M vs s HM HK h a n la Hn L) as (n' & -> & Qn & Rn & _); [by intros ->; cbn in Hr; lia|]. cbn [mbind result_bind].
    pose proof (quiet_put _ _ _ _ Hn Qn) as Q. exists (put h a n'), a, 0, la. rewrite En, Z.sub_0_r, !Z.add_0_r. split_and!; [done|by apply steady_quiet| |lia|lia|lia].
    exists d, n'. split_and!; [by apply (below_quiet h)|apply lookup_insert_eq|done].
  - rewrite (branch_isLeaf n cs B).
    destruct (find_child_spec M vs d' h a b false n cs ls Hn B F) as (i & c & lc & rel & Hc & Hl & -> & Er & Hr1 & Hr2); [lia..|]. cbn [mbind result_bind].
    destruct (Forall2_lookup_lr _ _ _ _ _ _ F Hc Hl) as [_ Tc]. destruct (tree_bytes _ _ _ _ _ _ Tc) as (nc & Hnc & _). rewrite (load_Ok h c nc Hnc). cbn [mbind result_bind andb].
    assert (exists h1 child, (if isFrozen nc then '(g, thawed) ← CFStorageThawNodeDuringMutation h c;
        if thawed : bool then Ok (g, c) else '(g, rep) ← CFStorageCopyNode s g c; g ← CFStorageSetChild g a (Z.of_nat i) rep; g ← release g c; Ok (g, rep) else Ok (h, c)) = Ok (h1, child) /\
        steady h h1 /\ below (h_nodes h1) l d' child lc (off + len (concat (take i ls)))) as (h1 & child & -> & St & Hb1).
    { destruct (isFrozen nc) eqn:Fz.
      - unfold CFStorageThawNodeDuringMutation. rewrite (load_Ok h c nc Hnc). cbn [mbind result_bind]. destruct (Z.eqb_spec (refCount nc) 1) as [R1|R1]; cbn [mbind result_bind].
        + eexists _, c. split; [reflexivity|]. by apply (step_thaw h W Ra l d' a off n cs ls i c lc nc).
        + by apply (step_copy s HM h W Ra l d' a off n cs ls i c lc nc).
      - exists h, c. split; [done|]. split; [by split|]. apply (step_in_place h l d' a off n cs ls i c lc); try done.
        destruct (decide (2 <= occ c (edges (h_nodes h)))%nat) as [O|O]; [|lia]. pose proof (ho_frozen _ _ _ (wo_heap _ _ W) c nc Hnc O). congruence. }
    cbn [mbind result_bind]. destruct (IH h1 d' child _ lc rel (abs + (b - rel)) (proj1 St) Hb1) as (h' & leaf & o & lf & -> & St' & P & Ho & Hlt); [lia|lia|].
    exists h', leaf, (len (concat (take i ls)) + o), lf.
    replace (b - (len (concat (take i ls)) + o)) with (rel - o) by lia. replace (abs + (len (concat (take i ls)) + o)) with (abs + (b - rel) + o) by lia.
    rewrite Z.add_assoc. split_and!; [done|by eapply steady_trans|done|lia|lia|lia].
Qed.

(** ** The cache *)

Definition cache_private (h : heap) (l : list cell) (c : Z) : Prop :=
  c = 0 \/ exists d lc off k n, below (h_nodes h) l d c lc (off * vs) /\ h_nodes h !! c = Some n /\ leaf_of M vs n lc /\ lc <> [] /\
    cachedRange n = CFRangeMake off k /\ 0 <= off /\ 0 <= k /\ k * vs <= len lc.

(** [p] points to value [idx] in a private leaf, whose cached range is [range]. *)
Definition at_private (h : heap) (l : list cell) (idx : Z) (p : Z * Z) (range : CFRange) : Prop :=
  exists d n lc, below (h_nodes h) l d (fst p) lc (location range * vs) /\ h_nodes h !! fst p = Some n /\ readable M vs n lc /\ cachedRange n = range /\
    0 <= location range <= idx /\ idx < location range + rlength range /\ snd p = (idx - location range) * vs /\ rlength range * vs <= len lc.

Lemma from_cache_private (h : heap) (l : list cell) (idx : Z) : world R h -> cache_private h l (cacheNode s) -> exists h' r,
  CFStorageGetFromCache h s idx true = Ok (h', r) /\ steady h h' /\ quiet (h_nodes h) (h_nodes h') /\
  match r with Some (p, range) => at_private h' l idx p range /\ fst p = cacheNode s | None => True end.
Proof.
  intros W C. unfold CFStorageGetFromCache. destruct C as [E|(d & lc & off & k & n & Hb & Hn & L & Nl & Er & Ho & Hk & Hl)].
  { rewrite E. cbn. exists h, None. split_and!; [done|by apply steady_quiet; [|apply quiet_refl|]|apply quiet_refl|done]. }
  destruct (Z.eqb_spec (cacheNode s) 0) as [E|N].
  { exists h, None. split_and!; [done|by apply steady_quiet; [|apply quiet_refl|]|apply quiet_refl|done]. }
  rewrite (load_Ok h _ n Hn). cbn [mbind result_bind andb]. destruct (isFrozen n).
  { exists h, None. split_and!; [done|by apply steady_quiet; [|apply quiet_refl|]|apply quiet_refl|done]. }
  pose proof L as (c & mem & r & Hi & _). unfold leaf_memory. rewrite Hi. cbn [mbind result_bind].
  destruct (cached_block M vs s HM HK h (cacheNode s) n lc c mem r Hn Hi L Nl) as (n' & -> & Qn & Rn & Cn). cbn [mbind result_bind].
  assert (E : r = CFRangeMake off k) by (unfold cachedRange in Er; by rewrite Hi in Er). subst r. cbn [location rlength].
  pose proof (quiet_put _ _ _ _ Hn Qn) as Q. pose proof (steady_quiet h (put h (cacheNode s) n') W Q eq_refl) as St.
  destruct (Z.ltb_spec idx off) as [L1|L1]; cbn [orb]; [by exists (put h (cacheNode s) n'), None; split_and!|].
  destruct (Z.leb_spec (off + k) idx) as [L2|L2]; [by exists (put h (cacheNode s) n'), None; split_and!|].
  eexists _, (Some _). split; [reflexivity|]. split_and!; [done|done| |done]. exists d, n', lc. cbn [fst snd location rlength].
  split_and!; [by apply (below_quiet h)|apply lookup_insert_eq|done|by rewrite Cn, Er|lia|lia|lia| |done]. by rewrite value_bytes, HS.
Qed.

Lemma get_private_ok (h : heap) (l : list cell) (idx : Z) :
  world R h -> tree M vs d0 (h_nodes h) root l -> (d0 <= size (h_nodes h))%nat -> cache_private h l (cacheNode s) -> 0 <= idx -> (idx + 1) * vs <= len l ->
  exists h' p range, GetValueAtIndex h s idx true = Ok (h', set_cache (fst p) s, p, range) /\ steady h h' /\ at_private h' l idx p range.
Proof.
  intros W T Hd C Hi Hl. unfold GetValueAtIndex. destruct (from_cache_private h l idx W C) as (h1 & [[p range]|] & -> & St1 & Q1 & A1); cbn [mbind result_bind].
  { destruct A1 as [A1 Ep]. exists h1, p, range. split_and!; [rewrite Ep; by destruct s|done..]. }
  rewrite Hroot, value_bytes, HS by done. pose proof (steady_size _ _ St1) as Sz.
  destruct (find_byte_private l (steps h1) h1 d0 root 0 l (idx * vs) 0) as (h2 & leaf & o & lc & -> & St2 & (d & n & Hb & Hn & L & Mm) & Ho & Hlt);
    [apply St1|apply below_root; eapply tree_all_kept; [intros x; by apply quiet_kept|done]|unfold steps; lia|nia|]. cbn [mbind result_bind fst location rlength].
  destruct (below_tree _ _ _ _ _ _ Hb) as (_ & Sl & [o' Eo] & _). rewrite Z.add_0_l in Eo, Hb, Sl |- *. subst o.
  assert (Hc0 : 0 < leaf) by (apply (ho_fresh _ _ _ (wo_heap _ _ (proj1 St2)) leaf n Hn)).
  pose proof L as (c & mem & r & Hinf & _ & Hbn & [v Ev] & _). pose proof (leaf_bytes _ _ _ _ L) as El.
  rewrite (set_cache_leaf h2 s leaf (o' * vs) c mem r n ltac:(lia) Hn Hinf). cbn [mbind result_bind]. assert (Hv : 0 < v) by nia. assert (Ho' : 0 <= o') by nia.
  assert (Ec : conv s (o' * vs) (numBytes n) = CFRangeMake o' v)
    by (unfold conv, CFStorageConvertBytesToValueRange; by rewrite Ev, !(byte_value vs s HS HP Hsh) by lia).
  rewrite Ec. set (n' := set_info _ n). change (CFStorageConvertBytesToValueRange (set_cache leaf s)) with (conv s). rewrite <- El, Ec.
  pose proof (quiet_cached n c mem r (CFRangeMake o' v) Hinf) as Qn. fold n' in Qn.
  exists (put h2 leaf n'), (leaf, idx * vs - o' * vs), (CFRangeMake o' v). split; [done|]. pose proof (quiet_put _ _ _ _ Hn Qn) as Q2. split.
  - eapply steady_trans; [done|]. eapply steady_trans; [done|]. apply steady_quiet; [apply St2|done|done].
  - exists d, n', lc. cbn [fst snd location rlength]. split_and!; [by apply (below_quiet h2)|apply lookup_insert_eq| |done|lia|nia|nia|nia|lia].
    split; [by apply Qn|]. destruct Mm as [m Hm]. exists m. unfold memory_of in *. rewrite Hinf in Hm. done.
Qed.

(** ** The write *)

Lemma written_block (m v : list cell) (sp k nb : nat) : (sp + k <= nb)%nat -> (nb <= length m)%nat -> length v = k ->
  take nb (take sp m ++ v ++ drop (sp + k) m) = splice (take nb m) (Z.of_nat sp) v.
Proof.
  intros H1 H2 H3. unfold splice. rewrite Nat2Z.id, H3, take_take, Nat.min_l by lia.
  rewrite !take_app, length_take. rewrite (take_ge (take sp m)) by (rewrite length_take; lia). rewrite (take_ge v) by lia. do 2 f_equal.
  replace (Nat.min sp (length m)) with sp by lia. rewrite H3. replace nb with ((sp + k) + (nb - sp - k))%nat at 2 by lia. by rewrite take_drop_commute.
Qed.

Lemma write_private (h : heap) (l : list cell) (idx j : Z) (p : Z * Z) (range : CFRange) (values : list cell) :
  world R h -> at_private h l idx p range -> 0 < j -> idx + j <= location range + rlength range -> j * vs <= len values ->
  let l' := splice l (idx * vs) (take (Z.to_nat (j * vs)) values) in
  exists h', copy_to_leaf h (fst p) (snd p) values 0 (j * vs) = Ok h' /\ steady h h' /\ tree M vs d0 (h_nodes h') root l' /\ cache_private h' l' (fst p).
Proof.
  intros W (d & n & lc & Hb & Hn & [L [m Hm]] & Er & Hr & Hlt & Hs & Hlc) Hj Hjr Hv l'. destruct p as [leaf sp]. cbn [fst snd] in *.
  pose proof (leaf_bytes _ _ _ _ L) as El. pose proof L as (c & mem & r & Hi & Bl & Hbn & Vn & Em). unfold memory_of in Hm. rewrite Hi in Hm.
  destruct mem as [m0|]; [|done]. injection Hm as ->. cbn in Bl, Em. set (v := take (Z.to_nat (j * vs)) values) in *.
  assert (Lv : length v = Z.to_nat (j * vs)) by (unfold v; rewrite length_take; lia).
  assert (Hsp : 0 <= sp /\ sp + j * vs <= len lc) by nia.
  pose proof (memmove_Ok m values sp 0 (j * vs) ltac:(nia) ltac:(lia) ltac:(lia) ltac:(lia) ltac:(lia)) as Mm. change (Z.to_nat 0) with 0%nat in Mm. rewrite drop_0 in Mm. fold v in Mm.
  rewrite (copy_leaf h leaf c sp 0 (j * vs) m _ values r n Hn Hi Mm). set (m' := take _ m ++ _). set (n' := set_info _ n).
  set (lc' := splice lc sp v). assert (Elc : lc' = take (Z.to_nat (numBytes n)) m').
  { unfold lc', m'. rewrite Em. replace (Z.to_nat (sp + j * vs)) with (Z.to_nat sp + Z.to_nat (j * vs))%nat by nia.
    rewrite written_block by (done || nia). f_equal. lia. }
  assert (Ll : length lc' = length lc) by (apply splice_length; lia).
  assert (Lm : len m' = len m) by (unfold m'; rewrite !length_app, length_take, length_drop; lia).
  assert (L' : leaf_of M vs n' lc').
  { exists c, (Some m'), r. cbn. split_and!; [done|lia|destruct Bl as [_ [?|?]]; [by left|right; lia]|lia|lia|done|done]. }
  destruct (below_context h l d leaf _ lc W Ra Hb) as (Q & X & SQ & RQ & Mv).
  assert (Sn : slots n' = slots n) by (unfold slots; by rewrite Hi). pose proof (edges_same _ leaf n n' Hn Sn) as Ee.
  assert (K : forall y, Q y -> kept (h_nodes h) (h_nodes (put h leaf n')) y) by (intros y Qy; apply kept_ne; intros ->; by apply (cx_out _ _ _ _ X)).
  destruct (below_tree _ _ _ _ _ _ Hb) as (_ & Sl & _).
  assert (Eq : splice l (location range * vs) lc' = l').
  { unfold lc', l'. unfold splice at 2. rewrite <- (take_drop (Z.to_nat sp) lc) in Sl. rewrite <- (take_drop (length v) (drop (Z.to_nat sp) lc)) in Sl. rewrite drop_drop in Sl.
    rewrite (splice_inner l _ _ _ v _ Sl) by (rewrite length_take, length_drop; lia). f_equal. rewrite length_take. lia. }
  assert (Hb' : below (h_nodes (put h leaf n')) l' d leaf lc' (location range * vs)).
  { rewrite <- Eq. apply Mv; [done|done|intros y _ _; cbn; by rewrite Ee|]. eapply tree_leaf; [apply lookup_insert_eq|done]. }
  exists (put h leaf n'). split; [done|]. split; [split_and!|split].
  - split; [apply (put_same_ok _ _ _ n); [apply W|done..]|]. apply (region_written (shared (h_nodes h))).
    apply (region_kept (shared (h_nodes h)) (h_nodes h)); [by apply (shared_region R)|intros y Sy; by apply (cx_dom _ _ _ _ X), SQ|intros y Sy; by apply K, SQ|].
    intros y. cbn. rewrite Ee. intros O. by exists y.
  - intros y Hy. cbn. destruct (decide (y = leaf)) as [->|N]; [rewrite lookup_insert_eq; by eexists|by rewrite lookup_insert_ne].
  - intros U y. cbn. rewrite Ee. apply U.
  - intros M' vs' d' r' lr Rr Nroot. apply (tree_kept M' vs' (fun y => reach (h_nodes h) r' y)); [by intros b y Hy Hb''; eapply rtc_r| |done].
    intros y Hy. apply K. by eapply RQ.
  - by apply below_tree in Hb' as (_ & _ & _ & ?).
  - right. exists d, lc', (location range), (rlength range), n'. split_and!; [done|apply lookup_insert_eq|done| | |lia|nia|lia].
    + intros E. rewrite E in Ll. cbn in Ll. nia.
    + unfold cachedRange in Er. rewrite Hi in Er. cbn. rewrite Er. by destruct range.
Qed.

End Find.

Lemma replace_loop_ok (fuel : nat) : forall h s l loc n values,
  maxLeafCapacity s = M -> valueSize s = vs -> 0 < vs -> shifter_ok s -> rootNode s = root -> root ∈ R ->
  world R h -> tree M vs d0 (h_nodes h) root l -> (d0 <= size (h_nodes h))%nat -> cache_private h l (cacheNode s) ->
  0 <= loc -> 0 <= n -> (Z.to_nat n <= fuel)%nat -> (loc + n) * vs <= len l -> n * vs <= len values ->
  let l' := splice l (loc * vs) (take (Z.to_nat (n * vs)) values) in
  exists h' k, replace_loop fuel h s (CFRangeMake loc n) values = Ok (h', set_cache k s) /\ steady h h' /\ tree M vs d0 (h_nodes h') root l' /\ cache_private h' l' k.
Proof.
  induction fuel as [|fuel IH]; intros h s l loc n values HM HS HP Hsh Hroot Ra W T Hd C Hloc Hn Hf Hl Hv; cbn [replace_loop rlength location]; destruct (Z.leb_spec n 0); try lia.
  1, 2: exists h, (cacheNode s); replace n with 0 by lia; cbn [Z.mul]; change (Z.to_nat 0) with 0%nat; rewrite take_0;
    rewrite splice_slice by (unfold slice; split_and!; [nia|cbn; nia|done]); split_and!; [by destruct s|by apply steady_quiet; [|apply quiet_refl|]|done|done].
  destruct (get_private_ok s HM HS HP Hsh Hroot Ra h l loc W T Hd C) as (h1 & p & range & -> & St1 & A1); [lia|nia|]. cbn [mbind result_bind].
  set (cnt := Z.min n (rlength range - (loc - location range))). pose proof A1 as (dl & n1 & lc & Hb1 & _ & _ & _ & Hr & Hlt & _).
  assert (Hcnt : 0 < cnt <= n /\ loc + cnt <= location range + rlength range) by lia. clearbody cnt.
  rewrite value_bytes by done. cbn [valueSize set_cache]. rewrite HS.
  destruct (write_private HP Ra h1 l loc cnt p range values (proj1 St1) A1) as (h2 & -> & St2 & T2 & C2); [lia|lia|nia|]. cbn [mbind result_bind].
  set (v1 := take (Z.to_nat (cnt * vs)) values) in *. assert (Lv : len v1 = cnt * vs) by (unfold v1; rewrite length_take; nia).
  pose proof (steady_size _ _ St1). pose proof (steady_size _ _ St2).
  destruct (IH h2 (set_cache (fst p) s) (splice l (loc * vs) v1) (loc + cnt) (n - cnt) (drop (Z.to_nat (cnt * vs)) values)) as (h3 & k & E & St3 & T3 & C3);
    try done; [apply St2|lia|lia|lia|lia|rewrite splice_length by nia; nia|rewrite length_drop; nia|].
  rewrite E. exists h3, k. assert (Ef : splice (splice l (loc * vs) v1) ((loc + cnt) * vs) (take (Z.to_nat ((n - cnt) * vs)) (drop (Z.to_nat (cnt * vs)) values)) =
    splice l (loc * vs) (take (Z.to_nat (n * vs)) values)).
  { replace (Z.to_nat (n * vs)) with (Z.to_nat (cnt * vs) + Z.to_nat ((n - cnt) * vs))%nat by nia. rewrite take_plus. fold v1.
    replace ((loc + cnt) * vs) with (loc * vs + len v1) by nia. apply splice_splice; [nia|]. rewrite length_take, length_drop. nia. }
  rewrite Ef in T3, C3. split_and!; [done|by eapply steady_trans; [|eapply steady_trans]|done|done].
Qed.

End Private.

(** The cache of a storage is empty or points to a private leaf, where it says. *)
Definition ready (h : heap) (s : CFStorage) (l : list cell) : Prop :=
  exists d, tree (maxLeafCapacity s) (valueSize s) d (h_nodes h) (rootNode s) l /\ (d <= size (h_nodes h))%nat /\
    cache_private (maxLeafCapacity s) (valueSize s) (rootNode s) d h l (cacheNode s).

Lemma ready_empty (R : gset Z) (h : heap) (s : CFStorage) (l : list cell) : storage_ok R h s l -> cacheNode s = 0 -> ready h s l.
Proof. intros So E. destruct (so_tree _ _ _ _ So) as [d T]. apply tree_height in T. exists (size (h_nodes h)). split_and!; [done|done|by left]. Qed.

(** Without shared nodes the two descriptions of the cache agree. *)
Lemma located_ready (R : gset Z) (h : heap) (s : CFStorage) (l : list cell) : storage_ok R h s l -> unshared (h_nodes h) -> located h s -> ready h s l.
Proof.
  intros So U [E|(Hp & off & L & (n & kk & Hn & _ & Hc & Hk & [v ->]))]; [by eapply ready_empty|]. pose proof (so_size _ _ _ _ So) as Hv.
  destruct (so_tree _ _ _ _ So) as [d T]. apply tree_height in T. rewrite (tree_bytes_at _ _ _ _ _ _ T) in Hp. exists (size (h_nodes h)). split_and!; [done|done|right].
  destruct (below_leaf (maxLeafCapacity s) (valueSize s) (rootNode s) (size (h_nodes h)) _ l _ _ _ U L (size (h_nodes h)) l 0) as (d' & lc & n' & Hb & Hn' & Lf); [by apply below_root|].
  rewrite Hn in Hn'. injection Hn' as <-. rewrite Z.add_0_l in Hb. destruct (below_tree _ _ _ _ _ _ _ _ _ _ Hb) as (_ & (Ho & _) & [o ->] & _).
  pose proof (leaf_bytes _ _ _ _ Lf). exists d', lc, o, v, n. split_and!; [done|done|done| | |nia|nia|lia].
  - eapply below_nonempty; [|exact Hb]. intros ->. cbn in Hp. lia.
  - rewrite Hc. unfold conv, CFStorageConvertBytesToValueRange. rewrite !(byte_value (valueSize s) s eq_refl Hv (so_shifter _ _ _ _ So)) by nia. done.
Qed.

Lemma ready_located (R : gset Z) (h : heap) (s : CFStorage) (l : list cell) : storage_ok R h s l -> ready h s l -> located h s.
Proof.
  intros So (d & T & _ & [E|(d' & lc & off & k & n & Hb & Hn & L & Nl & Er & Ho & Hk & Hl)]); [by left|right]. pose proof (so_size _ _ _ _ So) as Hv.
  destruct (below_tree _ _ _ _ _ _ _ _ _ _ Hb) as (_ & (_ & Sl & _) & _). split; [rewrite (tree_bytes_at _ _ _ _ _ _ T); destruct lc; [done|cbn in Sl; nia]|].
  exists (off * valueSize s). rewrite <- (Z.add_0_r (off * valueSize s)) at 1. split; [eapply below_at; [exact Hb|]; eapply leaf_here; [done|by eapply leaf_isLeaf]|].
  exists n, (k * valueSize s). rewrite (leaf_bytes _ _ _ _ L). split_and!; [done|by eapply leaf_isLeaf| |nia|lia|by exists k].
  rewrite Er. unfold conv, CFStorageConvertBytesToValueRange. rewrite !(byte_value (valueSize s) s eq_refl Hv (so_shifter _ _ _ _ So)) by nia. done.
Qed.

(** A private cache is correct for reading. *)
Lemma ready_cache_ok (h : heap) (s : CFStorage) (l : list cell) : 0 < valueSize s -> ready h s l -> cache_ok (maxLeafCapacity s) (valueSize s) h l (cacheNode s).
Proof.
  intros Hv (d & _ & _ & [E|(dl & lc & off & k & n & Hb & Hn & L & Nl & Er & Ho & Hk & Hl)]); [by left|right].
  destruct (below_tree _ _ _ _ _ _ _ _ _ _ Hb) as (_ & (_ & Sl & E) & _). exists n, lc, off, k. split_and!; try done; [nia|].
  apply (f_equal (take (Z.to_nat (k * valueSize s)))) in E. rewrite take_take, Nat.min_l in E by lia. done.
Qed.

Lemma replace_values (R : gset Z) (h : heap) (s : CFStorage) (l values : list cell) (range : CFRange) :
  world R h -> storage_ok R h s l -> ready h s l ->
  0 <= location range -> 0 <= rlength range -> (location range + rlength range) * valueSize s <= len l -> len values = rlength range * valueSize s ->
  exists h' k, let l' := splice l (location range * valueSize s) values in
    CFStorageReplaceValues h s range values = Ok (h', set_cache k s) /\ world R h' /\
    storage_ok R h' (set_cache k s) l' /\ ready h' (set_cache k s) l' /\ undisturbed R h h' s /\ (unshared (h_nodes h) -> unshared (h_nodes h')).
Proof.
  destruct range as [loc n]. cbn [location rlength]. intros W So (d & T & Hd & C) Hl Hn Hr Hv. unfold CFStorageReplaceValues. cbn [rlength].
  destruct (replace_loop_ok (maxLeafCapacity s) (valueSize s) ltac:(apply So) R (rootNode s) d (Z.to_nat n) h s l loc n values) as (h' & k & E & St & T' & C');
    try done; [apply So|apply So|apply So|lia|]. rewrite take_ge in T', C' by lia. pose proof (steady_size _ _ _ _ St). destruct St as (W' & _ & U & K).
  exists h', k. split_and!; [done|done|apply storage_set_cache; by eapply storage_tree| |by apply undisturbed_trees|done].
  exists d. split_and!; [done|lia|done].
Qed.

(** C28. CFStorageReplaceValues copies every shared node on the way before it writes, so that the bytes
    of the range are replaced in its storage and no other storage changes, as long as the cache is empty
    or names a leaf that is not shared. *)
Theorem CFStorageReplaceValues_ok (R : gset Z) (h : heap) (s : CFStorage) (l values : list cell) (range : CFRange) :
  world R h -> storage_ok R h s l -> ready h s l ->
  0 <= location range -> 0 <= rlength range -> (location range + rlength range) * valueSize s <= len l -> len values = rlength range * valueSize s ->
  exists h' k, let l' := splice l (location range * valueSize s) values in
    CFStorageReplaceValues h s range values = Ok (h', set_cache k s) /\ world R h' /\
    storage_ok R h' (set_cache k s) l' /\ ready h' (set_cache k s) l' /\
    (forall s2 l2, rootNode s2 <> rootNode s -> storage_ok R h s2 l2 -> storage_ok R h' s2 l2).
Proof.
  intros W So C Hl Hn Hr Hv. destruct (replace_values R h s l values range W So C Hl Hn Hr Hv) as (h' & k & E & W' & So' & C' & U & _). by exists h', k.
Qed.

End StorageWrite.
