(* ===== verification/StorageCut.v ===== *)
(** * What a deletion leaves, and the trees of a heap without shared nodes

    [cut]: the bytes of a part of a storage that a deletion leaves.  In a heap without
    shared nodes the subtrees of two siblings have no node in common. *)

From stdpp Require Import base list numbers option gmap relations.
From Stdlib Require Import ZArith Lia.
From S2P Require Import Prelude Storage StorageHeap StorageTree StorageLeaf StorageFrozen StorageInsert StorageCache StorageRelease StorageUnfrozen StorageCow StorageValues.
Import Storage StorageHeap StorageTree StorageLeaf StorageFrozen StorageInsert StorageCache StorageRelease StorageUnfrozen StorageCow StorageValues.

Module StorageCut.

Abbreviation reach m := (rtc (edge m)).

(** ** Bytes *)

(** [l] starts at byte [off]; the bytes from [loc] to [loc + k] go. *)
Definition cut (l : list cell) (off loc k : Z) : list cell := take (Z.to_nat (loc - off)) l ++ drop (Z.to_nat (loc + k - off)) l.

Lemma cut_app (l1 l2 : list cell) (off loc k : Z) : 0 <= k -> cut (l1 ++ l2) off loc k = cut l1 off loc k ++ cut l2 (off + len l1) loc k.
Proof.
  intros Hk. unfold cut. rewrite take_app, drop_app. replace (Z.to_nat (loc - (off + len l1))) with (Z.to_nat (loc - off) - length l1)%nat by lia.
  replace (Z.to_nat (loc + k - (off + len l1))) with (Z.to_nat (loc + k - off) - length l1)%nat by lia. rewrite <- !app_assoc. f_equal.
  destruct (decide (Z.to_nat (loc - off) <= length l1)%nat) as [L|L].
  - replace (Z.to_nat (loc - off) - length l1)%nat with 0%nat by lia. by rewrite take_0.
  - rewrite (drop_ge l1) by lia. done.
Qed.

Lemma cut_length (l : list cell) (off loc k : Z) : off <= loc -> 0 <= k -> loc + k <= off + len l -> len (cut l off loc k) = len l - k.
Proof. intros H1 H2 H3. unfold cut. rewrite length_app, length_take, length_drop. lia. Qed.

(** The part of the range that a child sees. *)
Lemma part_cut (l : list cell) (off loc k : Z) : 0 <= k ->
  let part := intersectionRange (CFRangeMake loc k) (CFRangeMake off (len l)) in
  (rlength part = 0 /\ cut l off loc k = l) \/
  (0 < rlength part /\ off <= location part /\ location part + rlength part <= off + len l /\
   (location part = loc \/ location part = off) /\ (location part + rlength part = loc + k \/ location part + rlength part = off + len l) /\
   cut l off loc k = cut l 0 (location part - off) (rlength part)).
Proof.
  intros Hk. unfold intersectionRange. cbn [location rlength]. destruct (Z.leb_spec (Z.min (loc + k) (off + len l)) (Z.max loc off)) as [L|L]; cbn [location rlength].
  - left. split; [done|]. unfold cut. destruct (decide (loc <= off)) as [E|E].
    + replace (Z.to_nat (loc - off)) with 0%nat by lia. rewrite take_0. cbn. destruct (decide (len l = 0)) as [E0|E0]; [destruct l; [by rewrite drop_nil|cbn in E0; lia]|].
      replace (Z.to_nat (loc + k - off)) with 0%nat by lia. done.
    + destruct (decide (off + len l <= loc)) as [E1|E1]; [rewrite take_ge, drop_ge by lia; by rewrite app_nil_r|].
      assert (k = 0) as -> by lia. rewrite Z.add_0_r. apply take_drop.
  - right. split_and!; [lia|lia|lia|lia|lia|]. unfold cut. f_equal.
    + destruct (decide (loc <= off)); [by replace (Z.to_nat (loc - off)) with (Z.to_nat (Z.max loc off - off - 0)) by lia|].
      by replace (Z.to_nat (Z.max loc off - off - 0)) with (Z.to_nat (loc - off)) by lia.
    + destruct (decide (loc + k <= off + len l)); [f_equal; lia|]. rewrite !drop_ge by lia. done.
Qed.

(** ** Siblings *)

Lemma one_parent (m : nodes) (p q y : Z) : unshared m -> edge m p y -> edge m q y -> p = q.
Proof.
  intros U (np & Hp & Hyp) (nq & Hq & Hyq). destruct (decide (p = q)) as [|N]; [done|]. pose proof (two_parents m p q y np nq N Hp Hq Hyp Hyq). specialize (U y). lia.
Qed.

Lemma reach_compare (m : nodes) (c c' y : Z) : unshared m -> reach m c y -> reach m c' y -> reach m c c' \/ reach m c' c.
Proof.
  intros U H. revert y H c'. refine (rtc_ind_r _ _ _ _); [intros c' H'; by right|]. intros x y Hx E IH c' H'.
  destruct (reach_last _ _ _ H') as [->|(p & Hp & E')]; [left; by eapply rtc_r|]. rewrite (one_parent m p x y U E' E) in Hp. by apply IH.
Qed.

Lemma siblings_apart (M vs : Z) (d : nat) (m : nodes) (a c c' y : Z) (l : list cell) :
  unshared m -> tree M vs d m a l -> edge m a c -> edge m a c' -> c <> c' -> reach m c y -> reach m c' y -> False.
Proof.
  intros U T E E' N H H'. assert (Ap : forall x z, edge m a x -> edge m a z -> x <> z -> ~ reach m x z).
  { intros x z Ex Ez Nx Hr. destruct (reach_last _ _ _ Hr) as [|(p & Hp & Ep)]; [done|]. rewrite (one_parent m p a z U Ep Ez) in Hp.
    by apply (tree_acyclic M vs d m a x l T Ex). }
  destruct (reach_compare m c c' y U H H') as [Hr|Hr]; [by apply (Ap c c')|by apply (Ap c' c); [| |apply not_eq_sym|]].
Qed.

Lemma unshared_slots (m : nodes) (a : Z) (n : CFStorageNode) : unshared m -> m !! a = Some n -> NoDup (slots n).
Proof.
  intros U Hn. assert (O : forall y, (occ y (slots n) < 2)%nat) by (intros y; pose proof (slot_occ m a y n Hn); specialize (U y); lia).
  clear - O. induction (slots n) as [|x l IH]; constructor.
  - intros Hx. specialize (O x). rewrite occ_cons, decide_True in O by done. apply occ_elem in Hx. lia.
  - apply IH. intros y. specialize (O y). rewrite occ_cons in O. lia.
Qed.

(** ** Nodes that stay *)

Definition unchanged (m m' : nodes) (a : Z) : Prop := forall y, reach m a y -> m' !! y = m !! y.

Lemma unchanged_edge (m m' : nodes) (p c : Z) : m' !! p = m !! p -> edge m' p c -> edge m p c.
Proof. intros E (n & Hn & Hc). exists n. by rewrite <- E. Qed.

Lemma unchanged_reach (m m' : nodes) (a y : Z) : unchanged m m' a -> reach m' a y -> reach m a y.
Proof.
  intros K. revert y. refine (rtc_ind_r _ _ _ _); [done|]. intros x y Hx E IH. eapply rtc_r; [by apply IH|]. eapply unchanged_edge; [|done]. by apply K, IH.
Qed.

Lemma unchanged_reach' (m m' : nodes) (a y : Z) : unchanged m m' a -> reach m a y -> reach m' a y.
Proof.
  intros K. revert y. refine (rtc_ind_r _ _ _ _); [done|]. intros x y Hx E IH. eapply rtc_r; [done|]. eapply unchanged_edge; [|done]. by rewrite K.
Qed.

Lemma unchanged_tree (M vs : Z) (d : nat) (m m' : nodes) (a : Z) (l : list cell) : unchanged m m' a -> tree M vs d m a l -> tree M vs d m' a l.
Proof.
  intros K. apply (tree_kept M vs (fun y => reach m a y)); [by intros b c Hb Hc; eapply rtc_r| |done]. intros b Hb n Hn. exists n. rewrite (K b Hb). by split_and!.
Qed.

(** A node that release can free: a tree, or a node without children. *)
Definition finite (m : nodes) (a : Z) : Prop := (exists M vs d l, tree M vs d m a l) \/ exists n, m !! a = Some n /\ slots n = [].

Lemma finite_within (m : nodes) (a : Z) : finite m a -> within (size m) m a.
Proof. intros [(M & vs & d & l & T)|(n & Hn & E)]; [by eapply tree_within, tree_height|by eapply empty_within]. Qed.

Lemma finite_unchanged (m m' : nodes) (a : Z) : unchanged m m' a -> finite m a -> finite m' a.
Proof.
  intros K [(M & vs & d & l & T)|(n & Hn & E)]; [left; exists M, vs, d, l; by eapply unchanged_tree|right]. exists n. by rewrite K.
Qed.

Lemma finite_thin (m m' : nodes) (a : Z) : thin m m' -> (forall b, b ∈ edges m' -> is_Some (m' !! b)) -> is_Some (m' !! a) -> finite m a -> finite m' a.
Proof.
  intros T A S [(M & vs & d & l & Ta)|(n & Hn & E)]; [left; exists M, vs, d, l; by eapply tree_thin|right].
  destruct S as [n' Hn']. destruct (T a n' Hn') as (n0 & Hn0 & _ & _ & Ei). exists n'. split; [done|]. rewrite (thin_slots _ _ Ei). congruence.
Qed.

(** ** Release with the fuel of the heap *)

Lemma release_unfold (fuel : nat) (h : heap) (a : Z) : CFStorageReleaseNode (S fuel) h a =
  n ← load h a;
  if 0 <? refCount n then
    let g := put h a (set_refCount (refCount n - 1) n) in
    if refCount n - 1 =? 0 then
      g ← match info n with
          | Leaf _ _ _ => Ok g
          | Branch c0 c1 c2 => g ← release_slot fuel c0 g; g ← release_slot fuel c1 g; release_slot fuel c2 g
          end;
      Ok (del g a)
    else Ok g
  else Ok h.
Proof. done. Qed.

Lemma release_more (fuel : nat) : forall h a h', CFStorageReleaseNode fuel h a = Ok h' -> CFStorageReleaseNode (S fuel) h a = Ok h'.
Proof.
  induction fuel as [|fuel IH]; intros h a h'; [done|]. rewrite (release_unfold (S fuel)), (release_unfold fuel).
  destruct (load h a) as [n| | |]; cbn [mbind result_bind]; try done. destruct (0 <? refCount n); [|done]. cbn zeta. destruct (refCount n - 1 =? 0); [|done].
  assert (St : forall c g g', release_slot fuel c g = Ok g' -> release_slot (S fuel) c g = Ok g') by (unfold release_slot; intros c g g'; destruct (c =? 0); [done|apply IH]).
  destruct (info n) as [|c0 c1 c2]; [done|]. set (g := put h a _).
  destruct (release_slot fuel c0 g) as [g1| | |] eqn:E0; cbn [mbind result_bind]; try done. rewrite (St _ _ _ E0). cbn [mbind result_bind].
  destruct (release_slot fuel c1 g1) as [g2| | |] eqn:E1; cbn [mbind result_bind]; try done. rewrite (St _ _ _ E1). cbn [mbind result_bind].
  destruct (release_slot fuel c2 g2) as [g3| | |] eqn:E2; cbn [mbind result_bind]; try done. by rewrite (St _ _ _ E2).
Qed.

Lemma release_mono (fuel fuel' : nat) (h : heap) (a : Z) (h' : heap) : (fuel <= fuel')%nat -> CFStorageReleaseNode fuel h a = Ok h' -> CFStorageReleaseNode fuel' h a = Ok h'.
Proof. induction 1 as [|fuel' L IH]; [done|]. intros H. by apply release_more, IH. Qed.

Lemma release_finite (R : gset Z) (ext : list Z) (h : heap) (a : Z) : heap_ok R (a :: ext) h -> finite (h_nodes h) a ->
  exists h', @released R (fun h => release h a) ext h a h'.
Proof.
  intros H F. apply finite_within in F. destruct (release_ok (R := R) (S (size (h_nodes h))) (size (h_nodes h)) h ext a) as (h' & [R1 R2 R3 R4]); [lia|done|done|].
  exists h'. split; [done..|]. intros X HX. eapply release_mono; [|by apply R4]. unfold steps. apply le_n_S. cbn.
  rewrite <- !(size_dom (D := gset Z)), dom_union_L. apply subseteq_size. set_solver.
Qed.

End StorageCut.
