(* ===== verification/StorageDelete.v ===== *)
(** * Deletion in a heap without shared nodes

    [__CFStorageDeleteUnfrozen] and [__CFStorageDelete]: the node that comes back stores the
    bytes that are left and carries a reference for the caller; what the deletion does not
    need any more is freed, and nothing outside the subtree changes. *)

From stdpp Require Import base list numbers option gmap relations.
From Stdlib Require Import ZArith Lia.
From S2P Require Import Prelude Storage StorageHeap StorageTree StorageLeaf StorageFrozen StorageInsert StorageCache StorageRelease StorageUnfrozen StorageCow StorageValues StorageCut.
Import Storage StorageHeap StorageTree StorageLeaf StorageFrozen StorageInsert StorageCache StorageRelease StorageUnfrozen StorageCow StorageValues StorageCut.

Module StorageDelete.

Lemma unshared_frozen (m : nodes) : unshared m -> shared_frozen m.
Proof. intros U b n _ O. specialize (U b). lia. Qed.

Section Delete.

Context (M vs : Z) (HK : M <= kMaxLeafCapacity) (R : gset Z) (s : CFStorage) (HM : maxLeafCapacity s = M) (compact : bool).

Abbreviation kids d m := (Forall2 (fun c lc => lc <> [] /\ tree M vs d m c lc)).

(** The reference that comes with a result: none for NULL and for the root node. *)
Definition hold (r : Z) : list Z := if decide (r = 0 \/ r ∈ R) then [] else [r].

(** [a]: the node before, [r]: the node that comes back, with the bytes [l']. *)
Record deleted (ext : list Z) (h : heap) (a : Z) (d : nat) (l' : list cell) (h' : heap) (r : Z) : Prop := mk_deleted {
  de_heap : heap_ok R (hold r ++ ext) h';
  de_unshared : unshared (h_nodes h');
  de_next : h_next h' = h_next h;
  de_frame : forall y, ~ reach (h_nodes h) a y -> h_nodes h' !! y = h_nodes h !! y;
  de_edges : forall y, ~ reach (h_nodes h) a y -> (occ y (edges (h_nodes h')) <= occ y (edges (h_nodes h)))%nat;
  de_old : finite (h_nodes h') a /\ forall y, reach (h_nodes h') a y -> reach (h_nodes h) a y;
  de_new : (r = 0 /\ l' = []) \/
    (r <> 0 /\ l' <> [] /\ tree M vs d (h_nodes h') r l' /\ (forall y, reach (h_nodes h') r y -> reach (h_nodes h) a y) /\
     (r = a \/ occ r (edges (h_nodes h')) = 0%nat /\ exists na, h_nodes h' !! a = Some na /\ slots na = []))
}.

Lemma retain_held (ext : list Z) (h : heap) (a : Z) (n : CFStorageNode) : heap_ok R ext h -> h_nodes h !! a = Some n -> a ∈ R \/ a ∈ edges (h_nodes h) ->
  exists v, CFStorageRetainNode h a = Ok (put h a (set_refCount v n)) /\ heap_ok R (hold a ++ ext) (put h a (set_refCount v n)).
Proof.
  intros H Hn Ha. pose proof (ho_fresh _ _ _ H a n Hn) as Fa. unfold hold. destruct (decide (a = 0 \/ a ∈ R)) as [[?|Ra]|N]; [lia| |].
  - pose proof (ho_counted _ _ _ H a n Hn) as C. rewrite decide_True in C by done. exists 0. rewrite <- C at 1 2. unfold CFStorageRetainNode.
    rewrite (load_Ok h a n Hn). cbn [mbind result_bind]. rewrite C. cbn. destruct n; cbn in *. subst. by rewrite put_id.
  - destruct Ha as [?|Ha]; [tauto|]. destruct (retain_ok ext h a n H Hn) as [E H']; [apply elem_of_app; by right|]. by eexists.
Qed.

(** ** A leaf *)

(** A block that holds the first bytes of another one. *)
Lemma compact_block (h : heap) (a c b : Z) (m : list cell) (r : CFRange) (n : CFStorageNode) :
  h_nodes h !! a = Some n -> info n = Leaf c (Some m) r -> numBytes n = b -> 0 < b <= M -> b <= len m -> c = 0 \/ c = len m ->
  exists c' m', (if compact then CFStorageAllocLeafNodeMemory s h a b true else Ok h) = Ok (put h a (set_info (Leaf c' (Some m') r) n)) /\
    b <= len m' /\ (c' = 0 \/ c' = len m') /\ take (Z.to_nat b) m' = take (Z.to_nat b) m.
Proof.
  intros Hn Hi Eb Hb Hm Hc. assert (Same : Ok h = Ok (put h a (set_info (Leaf c (Some m) r) n)) :> result heap).
  { rewrite <- Hi. f_equal. symmetry. destruct n; cbn. by apply put_id. }
  destruct compact; [|by exists c, m]. pose proof (rounded_covers s b ltac:(lia) ltac:(lia)) as Hr. unfold CFStorageAllocLeafNodeMemory. rewrite (load_Ok h a n Hn). cbn [mbind result_bind].
  rewrite Hi. destruct (Z.eqb_spec (rounded_capacity s b) c) as [E|E]; cbn [negb]; [by exists c, m|]. eexists _, _. split; [done|].
  rewrite realloc_length by lia. split_and!; [lia|by right|]. apply (realloc_take c (Some m)); [done|lia].
Qed.

Lemma delete_leaf_ok (dl : heap -> Z -> CFRange -> result (heap * Z)) (h : heap) (ext : list Z) (a : Z) (d : nat) (n : CFStorageNode) (l : list cell) (loc k : Z) :
  heap_ok R ext h -> unshared (h_nodes h) -> h_nodes h !! a = Some n -> leaf_of M vs n l -> a ∈ R \/ a ∈ edges (h_nodes h) ->
  0 <= loc -> 0 <= k -> loc + k <= len l -> k <> len l -> (vs | k) ->
  exists h', CFStorageDeleteUnfrozen dl s h a (CFRangeMake loc k) compact = Ok (h', a) /\ deleted ext h a d (cut l 0 loc k) h' a.
Proof.
  intros H U Hn L Ha Hloc Hk Hlk Nk Vk. pose proof (leaf_bytes _ _ _ _ L) as El. pose proof L as (c & mem & r & Hi & B & Hb & Vn & Ec).
  set (b := numBytes n - k). assert (Vb : (vs | b)) by (by apply Z.divide_sub_r).
  assert (exists n', refCount n' = refCount n /\ isFrozen n' = isFrozen n /\ leaf_of M vs n' (cut l 0 loc k) /\
    CFStorageDeleteUnfrozen dl s h a (CFRangeMake loc k) compact = h ← CFStorageRetainNode (put h a n') a; Ok (h, a)) as (n' & Er & Ef & L' & ->).
  { unfold CFStorageDeleteUnfrozen. rewrite (load_Ok h a n Hn). cbn [mbind result_bind rlength location]. destruct (Z.eqb_spec k (numBytes n)); [lia|]. rewrite Hi. fold b.
    assert (Eb : Z.to_nat (loc + k - 0) = Z.to_nat (loc + k)) by lia. destruct mem as [m|]; cbn in B, Ec.
    - erewrite copy_leaf; [|apply lookup_insert_eq|done|apply memmove_Ok; lia]. cbn [mbind result_bind]. rewrite put_put.
      set (m1 := take (Z.to_nat loc) m ++ _). assert (L1 : len m1 = len m) by (unfold m1; rewrite !length_app, !length_take, !length_drop; lia).
      destruct (compact_block (put h a (set_info (Leaf c (Some m1) r) (set_numBytes b n))) a c b m1 r (set_info (Leaf c (Some m1) r) (set_numBytes b n)))
        as (c' & m' & -> & Lm & Hc' & Et); [apply lookup_insert_eq|done|done|lia|lia|lia|]. cbn [mbind result_bind]. rewrite put_put.
      eexists. split_and!; [| | |reflexivity]; [done|done|]. exists c', (Some m'), r. cbn. split_and!; [done|lia|done|lia|lia|done|].
      rewrite Et. unfold m1, cut. rewrite Ec, Z.sub_0_r, Eb, app_assoc.
      rewrite take_app_exact by (rewrite length_app, !length_take, length_drop; lia). rewrite take_take, Nat.min_l by lia. f_equal.
      rewrite skipn_firstn_comm. f_equal. lia.
    - cbn [mbind result_bind]. eexists. split_and!; [| | |reflexivity]; [done|done|]. exists c, None, r. cbn. split_and!; [done|done|lia|lia|done|].
      unfold cut. rewrite Ec, take_replicate, drop_replicate, <- replicate_add. f_equal. lia. }
  assert (Hn' : h_nodes (put h a n') !! a = Some n') by apply lookup_insert_eq.
  assert (Es : slots n' = slots n) by (by rewrite (leaf_slots _ _ _ _ L), (leaf_slots _ _ _ _ L')).
  pose proof (edges_same _ a n n' Hn Es) as Ee.
  destruct (retain_held ext (put h a n') a n') as (v & -> & H'); [|done|cbn; by rewrite Ee|].
  { apply (put_same_ok ext _ _ n); [done..|]. by rewrite Ef. }
  rewrite put_put in H'. rewrite put_put. cbn [mbind result_bind]. eexists. split; [reflexivity|]. set (n2 := set_refCount v n').
  assert (L2 : leaf_of M vs n2 (cut l 0 loc k)) by (by destruct L' as (c' & mem' & r' & L'); exists c', mem', r').
  assert (Ee2 : edges (h_nodes (put h a n2)) ≡ₚ edges (h_nodes h)) by (by apply (edges_same _ a n)).
  assert (Rx : forall y, reach (h_nodes (put h a n2)) a y -> reach (h_nodes h) a y).
  { intros y Hr. destruct (rtc_inv _ _ Hr) as [->|(z & (nz & Hz & Hs) & _)]; [done|]. cbn in Hz. rewrite lookup_insert_eq in Hz. injection Hz as <-.
    rewrite (leaf_slots _ _ _ _ L2) in Hs. by apply elem_of_nil in Hs. }
  assert (T2 : tree M vs d (h_nodes (put h a n2)) a (cut l 0 loc k)) by (eapply tree_leaf; [apply lookup_insert_eq|done]).
  split; [done|intros y; rewrite Ee2; apply U|done| |intros y _; by rewrite Ee2|split; [|done]; left; by eexists _, _, _, _|right].
  - intros y Hy. cbn. apply lookup_insert_ne. intros <-. by apply Hy.
  - pose proof (ho_fresh _ _ _ H a n Hn). split_and!; [lia| |done|done|by left]. apply nonempty_len. rewrite cut_length; lia.
Qed.

(** ** The children of a branch *)

Lemma populate_null (dl : heap -> Z -> CFRange -> result (heap * Z)) (fz : bool) (cs : list Z) : forall h range off,
  populate dl fz h (cs ++ [0]) range off = populate dl fz h cs range off.
Proof.
  induction cs as [|c cs IH]; intros h range off; [done|]. cbn [populate app]. destruct (c =? 0); [done|]. destruct (load h c) as [n| | |]; cbn [mbind result_bind]; try done.
  match goal with |- context [mbind _ ?x] => destruct x as [[h1 kp]| | |]; cbn [mbind result_bind]; try done end. by rewrite IH.
Qed.

(** The children [cs] were replaced by [K], which store [parts]. *)
Record populated (ext : list Z) (h : heap) (cs : list Z) (d : nat) (h' : heap) (K : list Z) (parts : list (list cell)) : Prop := mk_populated {
  po_heap : heap_ok R (K ++ ext) h';
  po_unshared : unshared (h_nodes h');
  po_next : h_next h' = h_next h;
  po_frame : forall y, (forall c, c ∈ cs -> ~ reach (h_nodes h) c y) -> h_nodes h' !! y = h_nodes h !! y;
  po_edges : forall y, (forall c, c ∈ cs -> ~ reach (h_nodes h) c y) -> (occ y (edges (h_nodes h')) <= occ y (edges (h_nodes h)))%nat;
  po_old : forall c, c ∈ cs -> finite (h_nodes h') c /\ forall y, reach (h_nodes h') c y -> exists c', c' ∈ cs /\ reach (h_nodes h) c' y;
  po_kids : kids d (h_nodes h') K parts;
  po_nodup : NoDup K;
  po_new : forall x, x ∈ K -> (x ∈ cs \/ occ x (edges (h_nodes h')) = 0%nat) /\ forall y, reach (h_nodes h') x y -> exists c, c ∈ cs /\ reach (h_nodes h) c y;
  po_length : (length K <= length cs)%nat
}.

Definition apart (m : nodes) (c : Z) (cs : list Z) : Prop := forall c' y, c' ∈ cs -> reach m c y -> reach m c' y -> False.

Section Step.

Context (ext : list Z) (h h1 : heap) (c : Z) (cs : list Z) (d : nat) (K1 : list Z) (p1 : list (list cell)).
Context (P1 : populated ext h [c] d h1 K1 p1) (Ap : apart (h_nodes h) c cs).

Lemma step_unchanged (c' : Z) : c' ∈ cs -> unchanged (h_nodes h) (h_nodes h1) c'.
Proof.
  intros Hc y Hy. apply (po_frame _ _ _ _ _ _ _ P1). intros x Hx Hr. apply list_elem_of_singleton in Hx as ->. by apply (Ap c' y).
Qed.

Lemma step_reach (c' y : Z) : c' ∈ cs -> reach (h_nodes h1) c' y <-> reach (h_nodes h) c' y.
Proof. intros Hc. split; [by apply unchanged_reach, step_unchanged|by apply unchanged_reach', step_unchanged]. Qed.

Lemma step_new (x y : Z) : x ∈ K1 -> reach (h_nodes h1) x y -> reach (h_nodes h) c y.
Proof. intros Hx Hr. destruct (po_new _ _ _ _ _ _ _ P1 x Hx) as [_ Rx]. by destruct (Rx y Hr) as (? & ->%list_elem_of_singleton & ?). Qed.

Lemma populated_cons (h2 : heap) (K2 : list Z) (p2 : list (list cell)) : populated (K1 ++ ext) h1 cs d h2 K2 p2 -> populated ext h (c :: cs) d h2 (K1 ++ K2) (p1 ++ p2).
Proof.
  intros P2. assert (Fr : forall y, reach (h_nodes h) c y -> h_nodes h2 !! y = h_nodes h1 !! y).
  { intros y Hy. apply (po_frame _ _ _ _ _ _ _ P2). intros c' Hc' Hr. apply (Ap c' y); [done|done|]. by apply step_reach. }
  assert (Un : forall x, x ∈ K1 -> unchanged (h_nodes h1) (h_nodes h2) x) by (intros x Hx y Hy; by apply Fr, (step_new x)).
  assert (R2 : forall c' y, c' ∈ cs -> reach (h_nodes h1) c' y -> exists c'', c'' ∈ c :: cs /\ reach (h_nodes h) c'' y).
  { intros c' y Hc' Hr. exists c'. split; [by right|]. by apply step_reach. }
  assert (N2 : forall x c', c' ∈ cs -> reach (h_nodes h) c x -> ~ reach (h_nodes h1) c' x) by (intros x c' Hc' Hx Hr; apply (Ap c' x); [done|done|by apply step_reach]).
  split.
  - eapply heap_ok_proper; [|reflexivity|apply (po_heap _ _ _ _ _ _ _ P2)]. solve_Permutation.
  - apply P2.
  - rewrite (po_next _ _ _ _ _ _ _ P2). apply P1.
  - intros y Hy. rewrite (po_frame _ _ _ _ _ _ _ P2); [apply (po_frame _ _ _ _ _ _ _ P1); intros x Hx; apply Hy; apply list_elem_of_singleton in Hx as ->; left|].
    intros c' Hc'. rewrite step_reach by done. apply Hy. by right.
  - intros y Hy. etrans; [apply (po_edges _ _ _ _ _ _ _ P2)|apply (po_edges _ _ _ _ _ _ _ P1)]; [|intros x Hx; apply Hy; apply list_elem_of_singleton in Hx as ->; left].
    intros c' Hc'. rewrite step_reach by done. apply Hy. by right.
  - intros x Hx. apply elem_of_cons in Hx as [->|Hx].
    + destruct (po_old _ _ _ _ _ _ _ P1 c) as [F1 R1]; [left|]. assert (Uc : unchanged (h_nodes h1) (h_nodes h2) c).
      { intros y Hy. destruct (R1 y Hy) as (? & ->%list_elem_of_singleton & Hr). by apply Fr. }
      split; [by eapply finite_unchanged|]. intros y Hy. apply (unchanged_reach _ _ _ _ Uc) in Hy. destruct (R1 y Hy) as (? & ->%list_elem_of_singleton & Hr). exists c. split; [left|done].
    + destruct (po_old _ _ _ _ _ _ _ P2 x Hx) as [F2 R2']. split; [done|]. intros y Hy. destruct (R2' y Hy) as (c' & Hc' & Hr). by apply (R2 c').
  - apply Forall2_app; [|apply P2]. pose proof (po_kids _ _ _ _ _ _ _ P1) as F. clear - F Un. induction F as [|x lx K1 p1 [Nl T] F IH]; constructor.
    + split; [done|]. eapply unchanged_tree; [|done]. apply Un. left.
    + apply IH. intros y Hy. apply Un. by right.
  - apply NoDup_app. split_and!; [apply P1| |apply P2]. intros x Hx1 Hx2. destruct (po_new _ _ _ _ _ _ _ P2 x Hx2) as [_ Rx]. destruct (Rx x (rtc_refl _ _)) as (c' & Hc' & Hr).
    apply (N2 x c'); [done|by apply (step_new x)|done].
  - intros x Hx. apply elem_of_app in Hx as [Hx|Hx].
    + pose proof (step_new x x Hx (rtc_refl _ _)) as Rc. destruct (po_new _ _ _ _ _ _ _ P1 x Hx) as [O R1]. split.
      * destruct O as [->%list_elem_of_singleton|O]; [left; left|right]. pose proof (po_edges _ _ _ _ _ _ _ P2 x) as Oe. rewrite O in Oe.
        assert (forall c', c' ∈ cs -> ~ reach (h_nodes h1) c' x) as Ox by (intros c' Hc'; by apply N2). specialize (Oe Ox). lia.
      * intros y Hy. apply (unchanged_reach _ _ _ _ (Un x Hx)) in Hy. destruct (R1 y Hy) as (? & ->%list_elem_of_singleton & Hr). exists c. split; [left|done].
    + destruct (po_new _ _ _ _ _ _ _ P2 x Hx) as [O R1]. split; [destruct O as [O|O]; [left; by right|by right]|]. intros y Hy. destruct (R1 y Hy) as (c' & Hc' & Hr). by apply (R2 c').
  - rewrite length_app. pose proof (po_length _ _ _ _ _ _ _ P1). pose proof (po_length _ _ _ _ _ _ _ P2). cbn in *. lia.
Qed.

End Step.

(** A child that the range does not meet. *)
Lemma keep_child (ext : list Z) (h : heap) (c : Z) (d : nat) (lc : list cell) : heap_ok R ext h -> unshared (h_nodes h) -> tree M vs d (h_nodes h) c lc -> lc <> [] ->
  c ∈ edges (h_nodes h) -> exists h', CFStorageRetainNode h c = Ok h' /\ populated ext h [c] d h' [c] [lc].
Proof.
  intros H U T Nl Hc. destruct (tree_bytes _ _ _ _ _ _ T) as (n & Hn & _). destruct (retain_ok ext h c n H Hn) as [E H']; [apply elem_of_app; by right|].
  eexists. split; [exact E|]. set (n' := set_refCount _ n) in *. assert (Ee : edges (h_nodes (put h c n')) ≡ₚ edges (h_nodes h)) by (by apply (edges_same _ c n)).
  assert (Kp : forall y, kept (h_nodes h) (h_nodes (put h c n')) y) by (intros y; by apply (kept_put _ c y n n')). pose proof (tree_all_kept _ _ _ _ _ _ _ Kp T) as T'.
  assert (Th : thin (h_nodes h) (h_nodes (put h c n'))) by (by apply thin_recount).
  assert (Rc : forall y, reach (h_nodes (put h c n')) c y -> exists c', c' ∈ [c] /\ reach (h_nodes h) c' y) by (intros y Hy; exists c; split; [left|by eapply thin_reach]).
  split; [done|intros y; rewrite Ee; apply U|done| |intros y _; by rewrite Ee| | |by apply NoDup_singleton| |done].
  - intros y Hy. apply lookup_insert_ne. intros <-. by apply (Hy c); [left|].
  - intros x ->%list_elem_of_singleton. split; [left; by eexists _, _, _, _|done].
  - by constructor.
  - intros x ->%list_elem_of_singleton. split; [left; left|done].
Qed.

(** A child that something is deleted from. *)
Lemma deleted_child (ext : list Z) (h : heap) (c : Z) (d : nat) (l' : list cell) (h' : heap) (r : Z) : c ∈ edges (h_nodes h) -> heap_ok R ext h ->
  deleted ext h c d l' h' r -> exists parts, populated ext h [c] d h' (if r =? 0 then [] else [r]) parts /\ concat parts = l'.
Proof.
  intros Hc H [D1 D2 D3 D4 D5 [D6 D7] D8].
  assert (Fr : forall y, (forall x, x ∈ [c] -> ~ reach (h_nodes h) x y) -> ~ reach (h_nodes h) c y) by (intros y Hy; apply Hy; left).
  assert (Old : forall x, x ∈ [c] -> finite (h_nodes h') x /\ forall y, reach (h_nodes h') x y -> exists c', c' ∈ [c] /\ reach (h_nodes h) c' y).
  { intros x ->%list_elem_of_singleton. split; [done|]. intros y Hy. exists c. split; [left|by apply D7]. }
  unfold hold in D1. destruct D8 as [(-> & ->)|(Nr & Nl & T & Rr & Or)].
  - exists []. split; [|done]. rewrite decide_True in D1 by (by left). cbn [Z.eqb]. split; [done|done|done|auto|auto|done|done|constructor|by intros x Hx%elem_of_nil|cbn; lia].
  - exists [l']. split; [|cbn; by rewrite app_nil_r]. destruct (Z.eqb_spec r 0) as [|_]; [done|]. 
    assert (r ∉ R) as NR.
    { intros Hr. assert (Hrc : reach (h_nodes h) c r) by (apply Rr; done). assert (r ∈ edges (h_nodes h)) as He.
      { destruct (reach_last _ _ _ Hrc) as [->|(p & _ & np & Hp & Hq)]; [done|]. apply edges_elem. by exists p, np. }
      destruct (ho_refs _ _ _ H r) as [? _]; [apply elem_of_app; by right|done]. }
    rewrite decide_False in D1 by tauto. split; [done|done|done|auto|auto|done|by constructor|by apply NoDup_singleton| |done].
    intros x ->%list_elem_of_singleton. split; [destruct Or as [->|[Or _]]; [left; left|by right]|]. intros y Hy. exists c. split; [left|by apply Rr].
Qed.

(** What the recursion gives for a child. *)
Definition child_ok (dl : heap -> Z -> CFRange -> result (heap * Z)) (d : nat) : Prop := forall h ext c lc loc k,
  heap_ok R ext h -> unshared (h_nodes h) -> tree M vs d (h_nodes h) c lc -> lc <> [] -> c ∈ edges (h_nodes h) -> (forall y, reach (h_nodes h) c y -> y ∉ ext) ->
  0 <= loc -> 0 < k -> loc + k <= len lc -> (vs | loc) -> (vs | k) ->
  exists h' r, dl h c (CFRangeMake loc k) = Ok (h', r) /\ deleted ext h c d (cut lc 0 loc k) h' r.

Lemma populate_ok (dl : heap -> Z -> CFRange -> result (heap * Z)) (d : nat) (a : Z) (n : CFStorageNode) (loc k : Z) :
  child_ok dl d -> 0 <= k -> (vs | loc) -> (vs | k) -> forall cs ls h ext off,
  heap_ok R ext h -> unshared (h_nodes h) -> kids d (h_nodes h) cs ls -> NoDup cs -> h_nodes h !! a = Some n ->
  (forall c, c ∈ cs -> (c ∈ slots n) /\ ~ reach (h_nodes h) c a) -> (forall c y, c ∈ cs -> reach (h_nodes h) c y -> y ∉ ext) ->
  (forall c c' y, c ∈ cs -> c' ∈ cs -> c <> c' -> reach (h_nodes h) c y -> reach (h_nodes h) c' y -> False) -> (vs | off) ->
  exists h' K parts, populate dl false h cs (CFRangeMake loc k) off = Ok (h', K) /\ populated ext h cs d h' K parts /\ concat parts = cut (concat ls) off loc k.
Proof.
  intros IH Hk Vl Vk. induction cs as [|c cs IHc]; intros ls h ext off H U F Nd Ha Sl Ex Ap Vo.
  { apply Forall2_nil_inv_l in F as ->. exists h, [], []. split_and!; [done| |by unfold cut; cbn [concat]; rewrite take_nil, drop_nil].
    split; [done|done|done|done|done|by intros c Hc%elem_of_nil|constructor|constructor|by intros c Hc%elem_of_nil|done]. }
  apply Forall2_cons_inv_l in F as (lc & ls' & [Nlc Tc] & F & ->). apply NoDup_cons in Nd as [Nc Nd]. destruct (tree_bytes _ _ _ _ _ _ Tc) as (nc & Hnc & Eb).
  destruct (Sl c) as [Hs Na]; [left|]. assert (Hc : c ∈ edges (h_nodes h)) by (apply edges_elem; by exists a, n). pose proof (ho_fresh _ _ _ H c nc Hnc).
  assert (Ac : apart (h_nodes h) c cs) by (intros c' y Hc' R1 R2; apply (Ap c c' y); [left|by right|by intros ->|done|done]).
  assert (Vc : (vs | len lc)) by (by eapply tree_aligned).
  assert (exists h1 K1 p1, ('(g, kp) ← (if rlength (intersectionRange (CFRangeMake loc k) (CFRangeMake off (numBytes nc))) =? 0 then g ← CFStorageRetainNode h c; g ← Ok g; Ok (g, [c])
      else '(g, newChild) ← dl h c (CFRangeMake (location (intersectionRange (CFRangeMake loc k) (CFRangeMake off (numBytes nc))) - off)
             (rlength (intersectionRange (CFRangeMake loc k) (CFRangeMake off (numBytes nc))))); Ok (g, if newChild =? 0 then [] else [newChild])); Ok (g, kp)) = Ok (h1, K1) /\
      populated ext h [c] d h1 K1 p1 /\ concat p1 = cut lc off loc k) as (h1 & K1 & p1 & E1 & P1 & C1).
  { rewrite Eb. destruct (part_cut lc off loc k Hk) as [[E0 Ec]|(Hp & Hp1 & Hp2 & Hp3 & Hp4 & Ec)]; rewrite Ec.
    - rewrite E0. destruct (keep_child ext h c d lc H U Tc Nlc Hc) as (h1 & -> & P). exists h1, [c], [lc]. split_and!; [done|done|cbn; by rewrite app_nil_r].
    - destruct (Z.eqb_spec (rlength (intersectionRange (CFRangeMake loc k) (CFRangeMake off (len lc)))) 0) as [|_]; [lia|]. set (part := intersectionRange _ _) in *.
      assert (V1 : (vs | location part)) by (by destruct Hp3 as [-> | ->]).
      assert (V2 : (vs | rlength part)).
      { replace (rlength part) with (location part + rlength part - location part) by lia. apply Z.divide_sub_r; [|done]. destruct Hp4 as [-> | ->]; by apply Z.divide_add_r. }
      destruct (IH h ext c lc (location part - off) (rlength part)) as (h1 & r & -> & D); try done; [intros y Hy; apply (Ex c); [left|done]|lia|lia|by apply Z.divide_sub_r|].
      destruct (deleted_child ext h c d _ h1 r Hc H D) as (parts & P & C). by exists h1, (if r =? 0 then [] else [r]), parts. }
  cbn [populate]. destruct (Z.eqb_spec c 0); [lia|]. rewrite (load_Ok h c nc Hnc). cbn [mbind result_bind] in E1 |- *.
  match type of E1 with mbind _ ?x = _ => destruct x as [[h1' K1']| | |]; cbn [mbind result_bind] in E1 |- *; try done end. injection E1 as -> ->.
  pose proof (step_unchanged ext h h1 c cs d K1 p1 P1 Ac) as Un. pose proof (step_reach ext h h1 c cs d K1 p1 P1 Ac) as Rc.
  destruct (IHc ls' h1 (K1 ++ ext) (off + numBytes nc)) as (h2 & K2 & p2 & E2 & P2 & C2).
  - apply P1.
  - apply P1.
  - clear - F Un. induction F as [|x lx cs ls [Nl T] F IHF]; constructor; [split; [done|]; eapply unchanged_tree; [|done]; apply Un; left|]. apply IHF. intros y Hy. apply Un. by right.
  - done.
  - rewrite (po_frame _ _ _ _ _ _ _ P1); [done|]. by intros x ->%list_elem_of_singleton.
  - intros c' Hc'. rewrite Rc by done. apply Sl. by right.
  - intros c' y Hc'. rewrite Rc by done. intros Hr. rewrite not_elem_of_app. split; [|by apply (Ex c'); [right|]]. intros Hy.
    apply (Ac c' y); [done| |done]. by apply (step_new ext h h1 c d K1 p1 P1 y).
  - intros x x' y Hx Hx' Nx. rewrite !Rc by done. apply Ap; [by right..|done].
  - apply Z.divide_add_r; [done|]. by rewrite Eb.
  - rewrite E2. cbn [mbind result_bind]. exists h2, (K1 ++ K2), (p1 ++ p2). split_and!; [done|by apply (populated_cons ext h h1 c cs d K1 p1 P1 Ac)|].
    rewrite concat_app, C1, C2, Eb. cbn [concat]. by rewrite cut_app.
Qed.

(** ** Releasing the old children *)

Lemma release_null_ok (ext : list Z) (h : heap) (c : Z) : heap_ok R (nonzero c ++ ext) h -> (c <> 0 -> finite (h_nodes h) c) ->
  exists h', released (R := R) (fun h => CFStorageReleaseNodeWithNullCheck h c) ext h c h'.
Proof.
  unfold nonzero, CFStorageReleaseNodeWithNullCheck. intros H F. destruct (decide (c = 0)) as [->|N].
  - exists h. split; [done|apply thin_refl|done|done].
  - destruct (Z.eqb_spec c 0); [done|]. apply release_finite; [done|by apply F].
Qed.

Lemma over_single (h : heap) (a : Z) (n : CFStorageNode) : over {[a := n]} h = put h a n.
Proof. unfold over, put. f_equal. by rewrite <- insert_union_singleton_l. Qed.

(** [h']: the heap after the references [cs] were given up. *)
Record freed (ext : list Z) (h : heap) (cs : list Z) (h' : heap) : Prop := mk_freed {
  fr_heap : heap_ok R ext h';
  fr_thin : thin (h_nodes h) (h_nodes h');
  fr_next : h_next h' = h_next h;
  fr_frame : forall y, (forall c, c ∈ cs -> ~ reach (h_nodes h) c y) -> h_nodes h' !! y = h_nodes h !! y
}.

Lemma alive_refs (ext : list Z) (h : heap) : heap_ok R ext h -> forall b, b ∈ edges (h_nodes h) -> is_Some (h_nodes h !! b).
Proof. intros H b Hb. apply (ho_refs _ _ _ H), elem_of_app. by right. Qed.

Lemma release_three (ext : list Z) (h : heap) (c0 c1 c2 : Z) (cs : list Z) : c0 <> 0 -> c1 <> 0 -> cs = c0 :: c1 :: nonzero c2 ->
  heap_ok R (cs ++ ext) h -> (forall c, c ∈ cs -> finite (h_nodes h) c) -> exists h', freed ext h cs h' /\
    forall a n, a <> 0 -> (forall c, c ∈ cs -> ~ reach (h_nodes h) c a) ->
      (g ← release (put h a n) c0; g ← CFStorageReleaseNodeWithNullCheck g c1; CFStorageReleaseNodeWithNullCheck g c2) = Ok (put h' a n).
Proof.
  intros N0 N1 Ecs H F.
  assert (St : forall e g c, heap_ok R (nonzero c ++ e) g -> thin (h_nodes h) (h_nodes g) -> (c <> 0 -> c ∈ cs) ->
    exists g', released (R := R) (fun g => CFStorageReleaseNodeWithNullCheck g c) e g c g').
  { intros e g c Hg T Hc. apply release_null_ok; [done|]. intros Nc. apply (finite_thin (h_nodes h)); [done|by eapply alive_refs| |by apply F, Hc].
    apply (ho_refs _ _ _ Hg). apply elem_of_app. left. apply elem_of_app. left. unfold nonzero. rewrite decide_False by done. left. }
  assert (H0 : heap_ok R (nonzero c0 ++ nonzero c1 ++ nonzero c2 ++ ext) h) by (rewrite Ecs in H; unfold nonzero at 1 2; by rewrite !decide_False).
  assert (In2 : c2 <> 0 -> c2 ∈ cs) by (intros N2; rewrite Ecs; do 2 right; unfold nonzero; rewrite decide_False by done; left).
  destruct (St _ h c0 H0 (thin_refl _)) as (h1 & R1); [intros _; rewrite Ecs; left|]. pose proof (re_thin _ _ _ _ _ R1) as T1.
  destruct (St _ h1 c1 (re_heap _ _ _ _ _ R1) T1) as (h2 & R2); [intros _; rewrite Ecs; right; left|]. pose proof (thin_trans _ _ _ T1 (re_thin _ _ _ _ _ R2)) as T2.
  destruct (St _ h2 c2 (re_heap _ _ _ _ _ R2) T2 In2) as (h3 & R3). pose proof (thin_trans _ _ _ T2 (re_thin _ _ _ _ _ R3)) as T3.
  assert (Far : forall y, (forall c, c ∈ cs -> ~ reach (h_nodes h) c y) -> y <> 0 -> ~ reach (h_nodes h) c0 y /\ ~ reach (h_nodes h1) c1 y /\ ~ reach (h_nodes h2) c2 y).
  { intros y Hy Ny. rewrite Ecs in Hy. split_and!; [apply Hy; left|intros Hr; apply (Hy c1); [right; left|exact (thin_reach _ _ _ _ T1 Hr)]|].
    intros Hr. destruct (decide (c2 = 0)) as [->|N2]; [|apply (Hy c2); [rewrite <- Ecs; auto|exact (thin_reach _ _ _ _ T2 Hr)]].
    destruct (rtc_inv _ _ Hr) as [<-|(z & (nz & Hz & _) & _)]; [done|]. rewrite (null_None _ _ (re_heap _ _ _ _ _ R2)) in Hz. done. }
  exists h3. split.
  - split; [apply R3|done|rewrite (re_next _ _ _ _ _ R3), (re_next _ _ _ _ _ R2); apply R1|]. intros y Hy. destruct (decide (y = 0)) as [->|Ny].
    { rewrite (null_None _ _ H0). eapply null_None, R3. }
    destruct (Far y Hy Ny) as (F0 & F1 & F2). by rewrite (released_same _ _ _ _ y _ R3 F2), (released_same _ _ _ _ y _ R2 F1), (released_same _ _ _ _ y _ R1 F0).
  - intros a n Nz Ha. destruct (Far a Ha Nz) as (F0 & F1 & F2). rewrite <- (over_single h), <- (over_single h3).
    assert (Xs : forall g c, ~ reach (h_nodes g) c a -> forall y, is_Some (({[a := n]} : nodes) !! y) -> ~ reach (h_nodes g) c y)
      by (intros g c Na y [? [<- _]%lookup_singleton_Some]; done).
    pose proof (re_frame _ _ _ _ _ R1 {[a := n]} (Xs _ _ F0)) as E0. unfold CFStorageReleaseNodeWithNullCheck at 1 in E0. destruct (Z.eqb_spec c0 0); [done|].
    rewrite E0. cbn [mbind result_bind]. rewrite (re_frame _ _ _ _ _ R2 {[a := n]} (Xs _ _ F1)). cbn [mbind result_bind]. by apply (re_frame _ _ _ _ _ R3), Xs.
Qed.

(** ** A branch after its children *)

Section Branch.

Context (ext : list Z) (h : heap) (a : Z) (n : CFStorageNode) (cs : list Z) (ls : list (list cell)) (d : nat) (k : Z).
Context (H : heap_ok R ext h) (U : unshared (h_nodes h)) (Hn : h_nodes h !! a = Some n) (B : branch_of n cs) (Eb : numBytes n = len (concat ls)).
Context (F : kids d (h_nodes h) cs ls).
Context (h1 : heap) (K : list Z) (parts : list (list cell)) (P : populated ext h cs d h1 K parts).

Lemma deleted_branch_tree : tree M vs (S d) (h_nodes h) a (concat ls).
Proof. by apply (tree_branch _ _ _ _ _ n cs). Qed.

Lemma child_edge (c : Z) : c ∈ cs -> edge (h_nodes h) a c.
Proof. intros Hc. exists n. by rewrite (branch_slots n cs B). Qed.

Lemma child_below (c : Z) : c ∈ cs -> ~ reach (h_nodes h) c a.
Proof. intros Hc. apply (tree_acyclic M vs (S d) _ a c (concat ls)); [apply deleted_branch_tree|by apply child_edge]. Qed.

Lemma child_reach (c y : Z) : c ∈ cs -> reach (h_nodes h) c y -> reach (h_nodes h) a y.
Proof. intros Hc Hr. eapply rtc_l; [by apply child_edge|done]. Qed.

Lemma node_stays : h_nodes h1 !! a = Some n.
Proof. rewrite (po_frame _ _ _ _ _ _ _ P); [done|]. intros c Hc. by apply child_below. Qed.

(** The node without its children. *)
Abbreviation nE := (mkNode (numBytes n - k) (refCount n) (isFrozen n) (Branch 0 0 0)).
Abbreviation hE := (put h1 a nE).

Lemma emptied_reach (x y : Z) : reach (h_nodes hE) x y -> reach (h_nodes h1) x y.
Proof.
  induction 1 as [x|x z y (nx & Hx & Hz) _ IH]; [done|]. eapply rtc_l; [|done]. cbn in Hx. destruct (decide (x = a)) as [->|N].
  - rewrite lookup_insert_eq in Hx. injection Hx as <-. by apply elem_of_nil in Hz.
  - rewrite lookup_insert_ne in Hx by done. by exists nx.
Qed.

Lemma emptied_edges : cs ++ edges (h_nodes hE) ≡ₚ edges (h_nodes h1).
Proof. pose proof (edges_update _ a n nE node_stays) as E. rewrite (branch_slots n cs B) in E. exact E. Qed.

Lemma emptied_ok : heap_ok R (cs ++ K ++ ext) hE /\ unshared (h_nodes hE).
Proof.
  assert (UE : unshared (h_nodes hE)).
  { intros y. pose proof (occ_proper y _ _ emptied_edges) as E. rewrite occ_app in E. pose proof (po_unshared _ _ _ _ _ _ _ P y). lia. }
  split; [|done]. apply (put_ok (K ++ ext) _ _ _ n); [apply P|apply node_stays|done| |by apply unshared_frozen].
  rewrite (branch_slots n cs B). cbn. rewrite app_nil_r. apply Permutation_app_comm.
Qed.

Lemma emptied_apart (x : Z) : x ∈ cs \/ x ∈ K -> ~ reach (h_nodes h1) x a.
Proof.
  intros Hx Hr. assert (exists c, c ∈ cs /\ reach (h_nodes h) c a) as (c & Hc & Hca); [|by apply (child_below c)].
  destruct Hx as [Hx|Hx]; [by apply (po_old _ _ _ _ _ _ _ P x Hx)|by apply (po_new _ _ _ _ _ _ _ P x Hx)].
Qed.

Lemma emptied_unchanged (x : Z) : x ∈ cs \/ x ∈ K -> unchanged (h_nodes h1) (h_nodes hE) x.
Proof. intros Hx y Hy. apply lookup_insert_ne. intros <-. by apply (emptied_apart x). Qed.

(** [h3]: the old children are released. *)
Context (h3 : heap) (Fr : freed (K ++ ext) hE cs h3).

Lemma freed_node : h_nodes h3 !! a = Some nE.
Proof.
  rewrite (fr_frame _ _ _ _ Fr); [apply lookup_insert_eq|]. intros c Hc Hr. apply (emptied_apart c); [by left|by apply emptied_reach].
Qed.

Lemma freed_reach (x y : Z) : x ∈ K -> reach (h_nodes h3) x y -> y <> a /\ reach (h_nodes h) a y.
Proof.
  intros Hx Hr. assert (R1 : reach (h_nodes h1) x y) by (by eapply emptied_reach, thin_reach; [apply (fr_thin _ _ _ _ Fr)|]).
  split; [intros ->; apply (emptied_apart x); [by right|done]|]. destruct (po_new _ _ _ _ _ _ _ P x Hx) as [_ Rx]. destruct (Rx y R1) as (c & Hc & Hr'). by apply (child_reach c).
Qed.

Lemma freed_kids : kids d (h_nodes h3) K parts.
Proof.
  pose proof (po_kids _ _ _ _ _ _ _ P) as Fk. assert (Al : forall x, x ∈ K -> is_Some (h_nodes h3 !! x)).
  { intros x Hx. apply (ho_refs _ _ _ (fr_heap _ _ _ _ Fr)). apply elem_of_app. left. apply elem_of_app. by left. }
  assert (Kt : forall x lx, x ∈ K -> tree M vs d (h_nodes h1) x lx -> tree M vs d (h_nodes h3) x lx).
  { intros x lx Hx T. apply (tree_thin (h_nodes hE)); [apply Fr|by eapply alive_refs, Fr|by apply Al|]. eapply unchanged_tree; [|done]. apply emptied_unchanged. by right. }
  clear - Fk Kt. induction Fk as [|x lx K parts [Nl T] Fk IH]; constructor; [split; [done|apply Kt; [left|done]]|]. apply IH. intros y ly Hy. apply Kt. by right.
Qed.

Lemma freed_occ (y : Z) : (occ y (edges (h_nodes h3)) <= occ y (edges (h_nodes h1)))%nat.
Proof.
  pose proof (thin_occ _ _ y (fr_thin _ _ _ _ Fr)). pose proof (occ_proper y _ _ emptied_edges) as E. rewrite occ_app in E. lia.
Qed.

Lemma freed_new (x : Z) : x ∈ K -> occ x (edges (h_nodes h3)) = 0%nat.
Proof.
  intros Hx. destruct (po_new _ _ _ _ _ _ _ P x Hx) as [[Hc|O] _]; [|pose proof (freed_occ x); lia]. pose proof (thin_occ _ _ x (fr_thin _ _ _ _ Fr)).
  pose proof (occ_proper x _ _ emptied_edges) as E. rewrite occ_app in E. apply occ_elem in Hc. pose proof (po_unshared _ _ _ _ _ _ _ P x). lia.
Qed.

Lemma freed_frame (y : Z) : ~ reach (h_nodes h) a y -> h_nodes h3 !! y = h_nodes h !! y /\ (occ y (edges (h_nodes h3)) <= occ y (edges (h_nodes h)))%nat.
Proof.
  intros Ny. assert (Nc : forall c, c ∈ cs -> ~ reach (h_nodes h) c y) by (intros c Hc Hr; by apply Ny, (child_reach c)). split.
  - rewrite (fr_frame _ _ _ _ Fr); [cbn; rewrite lookup_insert_ne by (by intros <-); by apply (po_frame _ _ _ _ _ _ _ P)|].
    intros c Hc Hr. apply emptied_reach in Hr. destruct (po_old _ _ _ _ _ _ _ P c Hc) as [_ Ro]. destruct (Ro y Hr) as (c' & Hc' & Hr'). by apply (Nc c').
  - etrans; [apply freed_occ|]. by apply (po_edges _ _ _ _ _ _ _ P).
Qed.

Lemma freed_next : h_next h3 = h_next h.
Proof. rewrite (fr_next _ _ _ _ Fr). apply P. Qed.

Lemma parent_stays (p : Z) (np : CFStorageNode) : h_nodes h !! p = Some np -> a ∈ slots np -> h_nodes h3 !! p = Some np.
Proof.
  intros Hp Hs. rewrite <- Hp. apply freed_frame. intros Hr. assert (Ep : edge (h_nodes h) p a) by (by exists np). destruct (rtc_inv _ _ Hr) as [E|(z & Ez & Hz)].
  - rewrite <- E in Ep. by apply (tree_acyclic M vs (S d) (h_nodes h) a a (concat ls) deleted_branch_tree Ep).
  - apply (tree_acyclic M vs (S d) (h_nodes h) a z (concat ls) deleted_branch_tree Ez). by eapply rtc_r.
Qed.

(** One child is left: it takes the place of the branch. *)
Lemma one_child (x : Z) : K = [x] -> 0 < len (concat parts) -> deleted ext h a (S d) (concat parts) h3 x.
Proof.
  intros EK Hl. assert (Hx : x ∈ K) by (rewrite EK; left). pose proof (fr_heap _ _ _ _ Fr) as H3.
  destruct (ho_refs _ _ _ H3 x) as [Rx [nx Hnx]]; [apply elem_of_app; left; apply elem_of_app; by left|]. pose proof (ho_fresh _ _ _ H3 x nx Hnx).
  split.
  - unfold hold. rewrite decide_False by (intros [?|?]; [lia|done]). by rewrite EK in H3.
  - intros y. pose proof (freed_occ y). pose proof (po_unshared _ _ _ _ _ _ _ P y). lia.
  - apply freed_next.
  - intros y Hy. by apply freed_frame.
  - intros y Hy. by apply freed_frame.
  - split; [right; exists nE; split; [apply freed_node|done]|]. intros y Hr. destruct (rtc_inv _ _ Hr) as [->|(z & (nz & Hz & Hs) & _)]; [done|].
    rewrite freed_node in Hz. injection Hz as <-. by apply elem_of_nil in Hs.
  - right. pose proof freed_kids as Fk. rewrite EK in Fk. apply Forall2_cons_inv_l in Fk as (lx & q & [Nl T] & ->%Forall2_nil_inv_l & Ep). rewrite Ep. cbn [concat]. rewrite app_nil_r.
    split_and!; [lia|done|eapply tree_mono; [|done]; lia|intros y Hr; by apply (freed_reach x)|right]. split; [by apply freed_new|]. exists nE. split; [apply freed_node|done].
Qed.

Lemma new_unshared (nF : CFStorageNode) : branch_of nF K ->
  edges (h_nodes (put h3 a nF)) ≡ₚ K ++ edges (h_nodes h3) /\ unshared (h_nodes (put h3 a nF)).
Proof.
  intros BF. assert (Ed : edges (h_nodes (put h3 a nF)) ≡ₚ K ++ edges (h_nodes h3)).
  { pose proof (edges_update _ a nE nF freed_node) as E. rewrite (branch_slots _ _ BF) in E. exact E. }
  split; [done|]. intros y. rewrite Ed, occ_app. destruct (decide (y ∈ K)) as [Hy|Hy].
  - pose proof (freed_new y Hy). pose proof (po_nodup _ _ _ _ _ _ _ P) as Nd. assert (occ y K <= 1)%nat; [|lia]. clear - Nd.
    induction Nd as [|x K Nx Nd IH]; [rewrite occ_nil; lia|]. rewrite occ_cons. destruct (decide (x = y)) as [->|]; [apply occ_zero in Nx; lia|lia].
  - apply occ_zero in Hy. pose proof (freed_occ y). pose proof (po_unshared _ _ _ _ _ _ _ P y). lia.
Qed.

Lemma new_nonzero (x : Z) : x ∈ K -> x <> 0.
Proof.
  intros Hx. destruct (ho_refs _ _ _ (fr_heap _ _ _ _ Fr) x) as [_ [nx Hnx]]; [apply elem_of_app; left; apply elem_of_app; by left|].
  pose proof (ho_fresh _ _ _ (fr_heap _ _ _ _ Fr) x nx Hnx). lia.
Qed.

(** Two or three children are left: they become the children of the branch. *)
Lemma new_children (x0 x1 x2 : Z) (v : Z) : let nF := mkNode (numBytes n - k) v (isFrozen n) (Branch x0 x1 x2) in
  K = x0 :: x1 :: nonzero x2 -> numBytes n - k = len (concat parts) -> 0 < len (concat parts) -> heap_ok R (hold a ++ ext) (put h3 a nF) ->
  deleted ext h a (S d) (concat parts) (put h3 a nF) a.
Proof.
  intros nF EK Hnb Hl HF. pose proof (ho_fresh _ _ _ H a n Hn) as Fa.
  assert (BF : branch_of nF K) by (exists x0, x1, x2; split_and!; [done|apply new_nonzero; rewrite EK; left|apply new_nonzero; rewrite EK; right; left|done]).
  destruct (new_unshared nF BF) as [Ed UF].
  assert (Un : forall x, x ∈ K -> unchanged (h_nodes h3) (h_nodes (put h3 a nF)) x) by (intros x Hx y Hr; apply lookup_insert_ne; intros <-; by destruct (freed_reach x a Hx Hr)).
  assert (Ra : forall y, reach (h_nodes (put h3 a nF)) a y -> reach (h_nodes h) a y).
  { intros y Hr. destruct (rtc_inv _ _ Hr) as [->|(z & (nz & Hz & Hs) & Hr')]; [done|]. cbn in Hz. rewrite lookup_insert_eq in Hz. injection Hz as <-.
    rewrite (branch_slots _ _ BF) in Hs. apply (freed_reach z); [done|]. by eapply unchanged_reach; [apply Un|]. }
  assert (Tr : tree M vs (S d) (h_nodes (put h3 a nF)) a (concat parts)).
  { apply (tree_branch _ _ _ _ _ nF K); [apply lookup_insert_eq|done|done|]. pose proof freed_kids as Fk. clear - Fk Un.
    induction Fk as [|x lx K parts [Nl T] Fk IH]; constructor; [split; [done|]; eapply unchanged_tree; [|done]; apply Un; left|]. apply IH. intros y Hy. apply Un. by right. }
  assert (Oc : forall y, ~ reach (h_nodes h) a y -> occ y K = 0%nat) by (intros y Hy; apply occ_zero; intros Hy'; by destruct (freed_reach y y Hy' (rtc_refl _ _))).
  split; [done|done|apply freed_next| | | |right; split_and!; [lia|by apply nonempty_len|done|done|by left]].
  - intros y Hy. cbn. rewrite lookup_insert_ne by (by intros <-). by apply freed_frame.
  - intros y Hy. rewrite Ed, occ_app, Oc by done. by apply freed_frame.
  - split; [|done]. left. by eexists _, _, _, _.
Qed.

End Branch.

Lemma delete_branch_ok (dl : heap -> Z -> CFRange -> result (heap * Z)) (h : heap) (ext : list Z) (a : Z) (d : nat) (n : CFStorageNode) (cs : list Z) (ls : list (list cell)) (loc k : Z) :
  child_ok dl d -> heap_ok R ext h -> unshared (h_nodes h) -> h_nodes h !! a = Some n -> branch_of n cs -> numBytes n = len (concat ls) -> kids d (h_nodes h) cs ls ->
  a ∈ R \/ a ∈ edges (h_nodes h) -> (forall y, reach (h_nodes h) a y -> y ∉ ext) ->
  0 <= loc -> 0 <= k -> loc + k <= len (concat ls) -> k <> len (concat ls) -> (vs | loc) -> (vs | k) ->
  exists h' r, CFStorageDeleteUnfrozen dl s h a (CFRangeMake loc k) compact = Ok (h', r) /\ deleted ext h a (S d) (cut (concat ls) 0 loc k) h' r.
Proof.
  intros IH H U Hn B Eb F Ha Ex Hloc Hk Hlk Nk Vl Vk. pose proof (ho_fresh _ _ _ H a n Hn) as Fa. pose proof (deleted_branch_tree h a n cs ls d Hn B Eb F) as T.
  destruct (branch_children n cs B) as (c0 & c1 & c2 & Ech & Ei & N0 & N1 & Ecs). fold (nonzero c2) in Ecs.
  destruct (populate_ok dl d a n loc k IH Hk Vl Vk cs ls h ext 0) as (h1 & K & parts & Ep & P & Ec); try done; [| | | |by exists 0|].
  { rewrite <- (branch_slots n cs B). by apply (unshared_slots (h_nodes h) a). }
  { intros c Hc. split; [by rewrite (branch_slots n cs B)|by apply (child_below h a n cs ls d)]. }
  { intros c y Hc Hr. apply Ex. by apply (child_reach h a n cs Hn B c). }
  { intros c c' y Hc Hc' Nc. apply (siblings_apart M vs (S d) _ a c c' y (concat ls)); try done; by apply (child_edge h a n cs). }
  assert (Hl : len (concat parts) = numBytes n - k) by (rewrite Ec, cut_length; lia). rewrite <- Ec.
  pose proof (node_stays ext h a n cs ls d Hn B Eb F h1 K parts P) as Hn1. destruct (emptied_ok ext h a n cs ls d k Hn B Eb F h1 K parts P) as [HE UE].
  pose proof (emptied_apart ext h a n cs ls d Hn B Eb F h1 K parts P) as Ap.
  set (hE := put h1 a (mkNode (numBytes n - k) (refCount n) (isFrozen n) (Branch 0 0 0))) in *.
  destruct (release_three (K ++ ext) hE c0 c1 c2 cs N0 N1 Ecs HE) as (h3 & Fr & Ev).
  { intros c Hc. eapply finite_unchanged; [by eapply (emptied_unchanged ext h a n cs); [..|left]|]. by apply (po_old _ _ _ _ _ _ _ P). }
  assert (Cal : CFStoragePopulateBranchChildrenAfterDeletion dl h a (CFRangeMake loc k) false = Ok (h1, K)).
  { unfold CFStoragePopulateBranchChildrenAfterDeletion. rewrite (load_Ok h a n Hn). cbn [mbind result_bind]. rewrite Ech. cbn [mbind result_bind]. rewrite <- Ep, Ecs.
    unfold nonzero. destruct (decide (c2 = 0)) as [->|]; [apply (populate_null dl false [c0; c1])|done]. }
  unfold CFStorageDeleteUnfrozen. rewrite (load_Ok h a n Hn). cbn [mbind result_bind rlength]. destruct (Z.eqb_spec k (numBytes n)); [lia|]. rewrite Ei, Cal. cbn [mbind result_bind].
  rewrite (load_Ok h1 a n Hn1). cbn [mbind result_bind]. assert (Nr : forall c, c ∈ cs -> ~ reach (h_nodes hE) c a).
  { intros c Hc Hr. apply (Ap c); [by left|]. by eapply emptied_reach. }
  specialize (Ev a (set_numBytes (numBytes n - k) n) ltac:(lia) Nr). unfold hE in Ev at 1. rewrite put_put in Ev.
  destruct (release (put h1 a _) c0) as [g0| | |]; cbn [mbind result_bind] in Ev |- *; try done.
  destruct (CFStorageReleaseNodeWithNullCheck g0 c1) as [g1| | |]; cbn [mbind result_bind] in Ev |- *; try done. rewrite Ev. cbn [mbind result_bind].
  rewrite load_put. cbn [mbind result_bind]. rewrite put_put. set (nB := set_numBytes _ n).
  pose proof (freed_node ext h a n cs ls d k Hn B Eb F h1 K parts P h3 Fr) as Hn3. pose proof (fr_heap _ _ _ _ Fr) as H3.
  pose proof (one_child ext h a n cs ls d k Hn B Eb F h1 K parts P h3 Fr) as One. pose proof (new_nonzero ext a n cs ls k h1 K h3 Fr) as Nz.
  pose proof (new_unshared ext h a n cs ls d k Hn B Eb F h1 K parts P h3 Fr) as Uf. pose proof (new_children ext h a n cs ls d k H Hn B Eb F h1 K parts P h3 Fr) as New.
  pose proof (po_length _ _ _ _ _ _ _ P) as Lk. rewrite Ecs in Lk.
  destruct K as [|x0 [|x1 K']].
  - pose proof (po_kids _ _ _ _ _ _ _ P) as Fk. apply Forall2_nil_inv_l in Fk as ->. cbn in Hl. lia.
  - exists h3, x0. split; [|apply One; [done|lia]]. do 2 f_equal. by apply put_id.
  - assert (exists x2, K' = nonzero x2 /\ nth 0 K' 0 = x2) as (x2 & EK & Enth).
    { unfold nonzero. destruct K' as [|x2 [|x3 K']]; [by exists 0|exists x2|cbn in Lk; unfold nonzero in Lk; destruct (decide (c2 = 0)); cbn in Lk; lia].
      split; [|done]. rewrite decide_False; [done|]. apply Nz. do 2 right. left. }
    cbn [nth] in Enth |- *. change (match K' with [] => 0 | x :: _ => x end) with (nth 0 K' 0). rewrite Enth.
    rewrite set_put0. cbn [mbind result_bind]. rewrite set_put1. cbn [mbind result_bind]. rewrite set_put2. cbn [mbind result_bind].
    set (nF := set_info (Branch x0 x1 x2) nB). rewrite EK in *.
    assert (BF : branch_of nF (x0 :: x1 :: nonzero x2)) by (exists x0, x1, x2; split_and!; [done|apply Nz; left|apply Nz; right; left|done]). destruct (Uf nF BF) as [Ed UF].
    assert (HF : heap_ok R ext (put h3 a nF)).
    { apply (put_ok ((x0 :: x1 :: nonzero x2) ++ ext) _ _ _ _ nF H3 Hn3); [done| |by apply unshared_frozen]. rewrite (branch_slots _ _ BF). cbn. rewrite app_nil_r. apply Permutation_app_comm. }
    destruct (retain_held ext (put h3 a nF) a nF HF) as (v & -> & HF'); [apply lookup_insert_eq| |].
    { destruct Ha as [?|Ha]; [by left|right]. rewrite Ed. apply elem_of_app. right. apply edges_elem in Ha as (p & np & Hp & Hs).
      apply edges_elem. exists p, np. split; [|done]. by apply (parent_stays ext h a n cs ls d k Hn B Eb F h1 (x0 :: x1 :: nonzero x2) parts P h3 Fr). }
    cbn [mbind result_bind]. rewrite put_put in HF' |- *. eexists _, a. split; [reflexivity|]. by apply (New x0 x1 x2 v); [..|lia|].
Qed.

(** ** The recursion *)

Definition node_ok (fuel d : nat) : Prop := forall h ext a l loc k,
  heap_ok R ext h -> unshared (h_nodes h) -> tree M vs d (h_nodes h) a l -> a ∈ R \/ a ∈ edges (h_nodes h) -> (forall y, reach (h_nodes h) a y -> y ∉ ext) ->
  0 <= loc -> 0 <= k -> loc + k <= len l -> (vs | loc) -> (vs | k) ->
  exists h' r, CFStorageDeleteUnfrozen (CFStorageDelete fuel s compact) s h a (CFRangeMake loc k) compact = Ok (h', r) /\ deleted ext h a d (cut l 0 loc k) h' r.

Lemma node_from_child (fuel d : nat) : (forall d', d = S d' -> child_ok (CFStorageDelete fuel s compact) d') -> node_ok fuel d.
Proof.
  intros IH h ext a l loc k H U T Ha Ex Hloc Hk Hlk Vl Vk. destruct (tree_bytes _ _ _ _ _ _ T) as (n & Hn & Eb). destruct (decide (k = len l)) as [->|Nk].
  - exists h, 0. split.
    + unfold CFStorageDeleteUnfrozen. rewrite (load_Ok h a n Hn). cbn [mbind result_bind rlength]. by destruct (Z.eqb_spec (len l) (numBytes n)); [|lia].
    + split; [|done|done|done|done|split; [left; by eexists _, _, _, _|done]|left].
      * unfold hold. by rewrite decide_True by (by left).
      * split; [done|]. assert (loc = 0) as -> by lia. unfold cut. by rewrite drop_ge by lia.
  - destruct (tree_node _ _ _ _ _ _ n T Hn) as [L|(d' & cs & ls & -> & B & -> & _ & F)].
    + destruct (delete_leaf_ok (CFStorageDelete fuel s compact) h ext a d n l loc k) as (h' & E & D); try done. by exists h', a.
    + by apply (delete_branch_ok _ h ext a d' n cs ls); [apply IH|..].
Qed.

Lemma deleted_mark (ext : list Z) (h : heap) (c : Z) (nc n' : CFStorageNode) (d : nat) (l' : list cell) (h' : heap) (r : Z) :
  h_nodes h !! c = Some nc -> slots n' = slots nc -> deleted ext (put h c n') c d l' h' r -> deleted ext h c d l' h' r.
Proof.
  intros Hc Es [D1 D2 D3 D4 D5 [D6 D7] D8]. assert (Ed : forall p y, edge (h_nodes (put h c n')) p y -> edge (h_nodes h) p y).
  { intros p y (np & Hp & Hy). cbn in Hp. destruct (decide (p = c)) as [->|N]; [rewrite lookup_insert_eq in Hp; injection Hp as <-; exists nc; by rewrite <- Es|].
    rewrite lookup_insert_ne in Hp by done. by exists np. }
  assert (Rc : forall x y, reach (h_nodes (put h c n')) x y -> reach (h_nodes h) x y) by (induction 1; [done|]; eapply rtc_l; [by apply Ed|done]).
  split; [done|done|done| | |split; [done|auto]|].
  - intros y Hy. rewrite D4 by (by intros Hr; apply Hy, Rc). cbn. apply lookup_insert_ne. intros <-. by apply Hy.
  - intros y Hy. rewrite <- (edges_same _ c nc n' Hc Es). apply D5. by intros Hr; apply Hy, Rc.
  - destruct D8 as [?|(? & ? & ? & ? & ?)]; [by left|right]. split_and!; auto.
Qed.

Lemma child_from_node (fuel d : nat) : node_ok fuel d -> child_ok (CFStorageDelete (S fuel) s compact) d.
Proof.
  intros IH h ext c lc loc k H U T Nlc Hc Ex Hloc Hk Hlk Vl Vk. destruct (tree_bytes _ _ _ _ _ _ T) as (nc & Hnc & _).
  destruct (referenced_count ext h c nc H Hnc) as (_ & Rc & _); [apply elem_of_app; by right|]. pose proof (U c) as O2. pose proof (Ex c (rtc_refl _ _)) as O0.
  apply occ_elem in Hc as O1. apply occ_zero in O0. cbn [CFStorageDelete]. rewrite (load_Ok h c nc Hnc). cbn [mbind result_bind]. destruct (isFrozen nc) eqn:Fz.
  - unfold CFStorageThawNodeDuringMutation. rewrite (load_Ok h c nc Hnc). cbn [mbind result_bind]. destruct (Z.eqb_spec (refCount nc) 1) as [R1|R1]; [|lia]. cbn [mbind result_bind negb].
    set (n' := set_frozen false nc). assert (Es : slots n' = slots nc) by done. pose proof (edges_same _ c nc n' Hnc Es) as Ee.
    assert (Rx : forall y, reach (h_nodes (put h c n')) c y -> reach (h_nodes h) c y).
    { intros y. cbn. induction 1 as [|x z y (nx & Hx & Hz) _ IHr]; [done|]. eapply rtc_l; [|done]. destruct (decide (x = c)) as [->|N];
        [rewrite lookup_insert_eq in Hx; injection Hx as <-; by exists nc|rewrite lookup_insert_ne in Hx by done; by exists nx]. }
    destruct (IH (put h c n') ext c lc loc k) as (h' & r & -> & D); try done; [by apply thaw_ok|intros y; cbn; rewrite Ee; apply U| |right; cbn; by rewrite Ee|auto|lia|].
    { eapply tree_all_kept; [|done]. intros y. by apply (kept_put _ c y nc n'). }
    exists h', r. split; [done|]. by eapply deleted_mark.
  - cbn [mbind result_bind]. apply IH; try done; [by right|lia].
Qed.

Lemma delete_node_ok (fuel d : nat) : (d <= fuel)%nat -> node_ok fuel d.
Proof.
  revert d. induction fuel as [|fuel IH]; intros d Hd; apply node_from_child; intros d' ->; [lia|]. apply child_from_node, IH. lia.
Qed.

End Delete.

End StorageDelete.
