(* ===== verification/StorageRoot.v ===== *)
(** * CFStorageDeleteValues and the end of a storage

    The root node is part of its storage: when a deletion returns another node, the root
    takes over its contents.  [CFStorageDeleteValues] leaves the other bytes, in order;
    deallocation frees what nobody else refers to and leaves the other storages. *)

From stdpp Require Import base list numbers option gmap relations.
From Stdlib Require Import ZArith Lia.
From S2P Require Import Prelude Storage StorageHeap StorageTree StorageLeaf StorageFrozen StorageInsert StorageCache StorageRelease StorageUnfrozen StorageCow StorageValues StorageCut StorageDelete.
Import Storage StorageHeap StorageTree StorageLeaf StorageFrozen StorageInsert StorageCache StorageRelease StorageUnfrozen StorageCow StorageValues StorageCut StorageDelete.

Module StorageRoot.

(** ** The root takes over the contents of another node *)

Lemma retain_Ok (h : heap) (c : Z) (n : CFStorageNode) : h_nodes h !! c = Some n -> 0 < refCount n ->
  CFStorageRetainNode h c = Ok (put h c (set_refCount (refCount n + 1) n)).
Proof. intros Hn Hr. unfold CFStorageRetainNode. rewrite (load_Ok h c n Hn). cbn [mbind result_bind]. by destruct (Z.ltb_spec 0 (refCount n)); [|lia]. Qed.

Lemma retain_under (g : heap) (root c : Z) (x n : CFStorageNode) : c <> root -> h_nodes g !! c = Some n -> 0 < refCount n ->
  CFStorageRetainNode (put g root x) c = Ok (put (put g c (set_refCount (refCount n + 1) n)) root x).
Proof. intros N Hn Hr. rewrite (retain_Ok _ c n); [by rewrite put_swap by (by apply not_eq_sym)| |done]. cbn. by rewrite lookup_insert_ne. Qed.

(** Each of the nodes has one more reference. *)
Definition bump (ps : list (Z * CFStorageNode)) (h : heap) : heap := foldl (fun g p => put g (fst p) (set_refCount (refCount (snd p) + 1) (snd p))) h ps.

Lemma bump_cons (c : Z) (n : CFStorageNode) (ps : list (Z * CFStorageNode)) (h : heap) : bump ((c, n) :: ps) h = bump ps (put h c (set_refCount (refCount n + 1) n)).
Proof. done. Qed.

Lemma bump_put (ps : list (Z * CFStorageNode)) (h : heap) (c : Z) (n : CFStorageNode) : c ∉ map fst ps -> put (bump ps h) c n = bump ps (put h c n).
Proof.
  revert h. induction ps as [|[x nx] ps IH]; intros h N; [done|]. cbn [map fst] in N. apply not_elem_of_cons in N as [Nx N].
  rewrite !bump_cons. rewrite IH by done. by rewrite put_swap by (by apply not_eq_sym).
Qed.

Lemma bump_lookup (ps : list (Z * CFStorageNode)) (h : heap) (c : Z) : c ∉ map fst ps -> h_nodes (bump ps h) !! c = h_nodes h !! c.
Proof.
  revert h. induction ps as [|[x nx] ps IH]; intros h N; [done|]. cbn [map fst] in N. apply not_elem_of_cons in N as [Nx N].
  rewrite !bump_cons. rewrite IH by done. cbn. by apply lookup_insert_ne, not_eq_sym.
Qed.

(** Releasing them again gives the old heap. *)
Lemma release_bumped (fuel : nat) (X : nodes) (ps : list (Z * CFStorageNode)) (h : heap) : NoDup (map fst ps) ->
  Forall (fun p => X !! fst p = None /\ fst p <> 0 /\ h_nodes h !! fst p = Some (snd p) /\ 0 < refCount (snd p)) ps ->
  release_each (S fuel) (map fst ps) (over X (bump ps h)) = Ok (over X h).
Proof.
  revert h. induction ps as [|[c n] ps IH]; intros h Nd F; [done|]. cbn [map fst] in *. apply NoDup_cons in Nd as [Nc Nd]. apply Forall_cons in F as ((Xc & Zc & Hn & Rn) & F). cbn [fst snd] in *.
  rewrite release_each_cons. unfold release_slot. destruct (Z.eqb_spec c 0); [done|]. set (b := set_refCount (refCount n + 1) n).
  rewrite release_unfold, (load_Ok _ c b) by (rewrite over_lookup by done; rewrite bump_cons, bump_lookup by done; apply lookup_insert_eq).
  cbn [mbind result_bind]. change (refCount b) with (refCount n + 1). destruct (Z.ltb_spec 0 (refCount n + 1)); [|lia]. cbn zeta. destruct (Z.eqb_spec (refCount n + 1 - 1) 0); [lia|].
  cbn [mbind result_bind]. assert (set_refCount (refCount n + 1 - 1) b = n) as -> by (destruct n; unfold b, set_refCount; cbn; f_equal; lia).
  rewrite over_put by done. rewrite bump_cons, bump_put by done. rewrite put_put, put_id by done. by apply IH.
Qed.

Lemma release_each_null (fuel : nat) (cs : list Z) (h : heap) : release_each fuel (cs ++ [0]) h = release_each fuel cs h.
Proof. unfold release_each. rewrite foldl_app. cbn. by destruct (foldl _ _ cs). Qed.

(** Lookups in a map with a few changed entries. *)
Ltac entry := repeat (first [rewrite lookup_insert_eq | rewrite lookup_insert_ne by done | rewrite lookup_delete_eq | rewrite lookup_delete_ne by done]).

Section Replace.

Context (h : heap) (s : CFStorage) (r : Z) (na nr : CFStorageNode).

Abbreviation a := (rootNode s).

Context (Ha : h_nodes h !! a = Some na) (Hr : h_nodes h !! r = Some nr) (Nr : r <> a) (N0 : r <> 0) (R1 : refCount nr = 1).

(** The node [r] has one reference and no child: it goes. *)
Lemma release_leaf (g : heap) (n : CFStorageNode) : h_nodes g !! r = Some n -> refCount n = 1 -> slots n = [] -> isLeaf n = true ->
  CFStorageReleaseNodeWithNullCheck g r = Ok (del g r).
Proof.
  intros Hn Rn _ Ln. unfold CFStorageReleaseNodeWithNullCheck, release, steps. destruct (Z.eqb_spec r 0); [done|]. rewrite (release_last _ g r n Hn Rn). unfold isLeaf in Ln.
  destruct (info n); [|done]. cbn [release_each foldl mbind result_bind]. f_equal. unfold del, put. cbn [h_nodes h_next]. f_equal. apply delete_insert_eq.
Qed.

Lemma take_over_leaf (M vs : Z) (l : list cell) : maxLeafCapacity s = M -> M <= kMaxLeafCapacity -> leaf_of M vs nr l -> l <> [] ->
  exists nR, (g ← replace_root h s r; CFStorageReleaseNodeWithNullCheck g r) = Ok (put (del h r) a nR) /\
    refCount nR = refCount na /\ isFrozen nR = isFrozen na /\ leaf_of M vs nR l.
Proof.
  intros HM HK L Nl. pose proof (leaf_bytes _ _ _ _ L) as El. assert (0 < len l) by (destruct l; [done|cbn; lia]). pose proof L as (c & mem & rg & Hi & Bk & Hb & Vb & Ec).
  assert (Fin : forall x, del (put h a x) r = put (del h r) a x).
  { intros x. unfold del, put. cbn. f_equal. by rewrite delete_insert_ne. }
  unfold replace_root. rewrite (load_Ok h r nr Hr), (load_Ok h a na Ha). cbn [mbind result_bind]. rewrite Hi. destruct (isFrozen nr); cbn [negb].
  - destruct mem as [m|]; cbn in Bk, Ec.
    + set (nb := mkNode _ _ _ _). destruct (alloc_block s (put h a nb) a 0 (numBytes nr) 0 None (CFRangeMake 0 0) nb) as (c' & m' & -> & Lm & Hc' & _);
        [lia|apply lookup_insert_eq|done|done|lia|lia|]. cbn [mbind result_bind]. rewrite put_put.
      erewrite copy_leaf; [|apply lookup_insert_eq|done|apply memmove_Ok; lia]. cbn [mbind result_bind]. rewrite put_put. rewrite (release_leaf _ nr); cbn; entry; try done;
        [|by eapply leaf_slots|by eapply leaf_isLeaf]. rewrite Fin. eexists. split_and!; [reflexivity|done|done|]. set (m2 := _ ++ _).
      assert (L2 : len m2 = len m') by (unfold m2; rewrite !length_app, !length_take, !length_drop; lia). exists c', (Some m2), (CFRangeMake 0 0). cbn.
      split_and!; [done|lia|lia|lia|lia|done|]. rewrite Ec. unfold m2. change (Z.to_nat 0) with 0%nat. rewrite take_0, drop_0. cbn [app].
      by rewrite take_app_exact by (rewrite length_take; lia).
    + cbn [mbind result_bind]. rewrite (release_leaf _ nr); cbn; entry; try done; [|by eapply leaf_slots|by eapply leaf_isLeaf]. rewrite Fin. eexists. split_and!; [reflexivity|done|done|].
      by exists 0, None, (CFRangeMake 0 0).
  - cbn [mbind result_bind]. rewrite (release_leaf _ (set_info (Leaf 0 None (CFRangeMake 0 0)) nr)); cbn; entry; try done.
    exists (mkNode (numBytes nr) (refCount na) (isFrozen na) (Leaf 0 mem (CFRangeMake 0 0))). split_and!; [|done|done|].
    + rewrite put_swap by done. unfold del, put. cbn. do 2 f_equal. rewrite delete_insert_ne, delete_insert_eq by done. reflexivity.
    + exists 0, mem, (CFRangeMake 0 0). cbn. split_and!; [done| |lia|lia|done|done]. destruct mem; [|done]. cbn in *. lia.
Qed.

(** The last steps: [ps] have a reference from the root and one from [r]. *)
Lemma release_taken (ps : list (Z * CFStorageNode)) (c0 c1 c2 : Z) (nR : CFStorageNode) : info nr = Branch c0 c1 c2 -> map fst ps = c0 :: c1 :: nonzero c2 -> NoDup (map fst ps) ->
  Forall (fun p => fst p <> a /\ fst p <> r /\ fst p <> 0 /\ h_nodes h !! fst p = Some (snd p) /\ 0 < refCount (snd p)) ps ->
  CFStorageReleaseNodeWithNullCheck (put (bump ps h) a nR) r = Ok (put (del h r) a nR).
Proof.
  intros Hi Eps Nd F. assert (Out : forall c, (c = a \/ c = r) -> c ∉ map fst ps).
  { intros c Hc Hin. apply list_elem_of_fmap in Hin as ([x nx] & -> & Hx). rewrite list.Forall_forall in F. destruct (F _ Hx) as (? & ? & _). cbn in *. by destruct Hc. }
  unfold CFStorageReleaseNodeWithNullCheck, release. destruct (Z.eqb_spec r 0); [done|]. unfold steps.
  rewrite (release_last _ _ r nr); [|cbn; rewrite lookup_insert_ne by done; rewrite bump_lookup; [done|apply Out; by right]|done]. rewrite Hi.
  assert (exists f, size (h_nodes (put (bump ps h) a nR)) = S f) as [f ->].
  { destruct (size (h_nodes (put (bump ps h) a nR))) eqn:E; [|by eexists]. apply map_size_empty_inv in E. cbn in E. by apply insert_non_empty in E. }
  assert (Ez : forall g, release_each (S f) [c0; c1; c2] g = release_each (S f) (map fst ps) g).
  { intros g. rewrite Eps. unfold nonzero. destruct (decide (c2 = 0)) as [->|]; [apply (release_each_null _ [c0; c1])|done]. }
  rewrite Ez. set (X := <[r := set_refCount 0 nr]> {[a := nR]} : nodes).
  assert (EX : forall g, put (put g a nR) r (set_refCount 0 nr) = over X g).
  { intros g. unfold put, over, X. cbn. f_equal. by rewrite <- insert_union_l, <- insert_union_singleton_l. }
  rewrite EX, release_bumped; [|done|].
  - cbn [mbind result_bind]. rewrite <- EX. f_equal. unfold del, put. cbn [h_nodes h_next]. f_equal. by rewrite delete_insert_eq, delete_insert_ne.
  - eapply list.Forall_impl; [exact F|]. intros [c nc] (? & ? & ? & ? & ?). cbn [fst snd] in *. split_and!; try done. unfold X. by rewrite lookup_insert_ne, lookup_singleton_ne.
Qed.

(** The children get a reference from the root and lose the one of [r]. *)
Lemma take_over_branch (cs : list Z) : branch_of nr cs -> NoDup cs -> (forall c, c ∈ cs -> c <> a /\ c <> r /\ exists n, h_nodes h !! c = Some n /\ 0 < refCount n) ->
  exists nR, (g ← replace_root h s r; CFStorageReleaseNodeWithNullCheck g r) = Ok (put (del h r) a nR) /\
    refCount nR = refCount na /\ isFrozen nR = isFrozen na /\ numBytes nR = numBytes nr /\ branch_of nR cs.
Proof.
  intros (c0 & c1 & c2 & Hi & Z0 & Z1 & Ecs) Nd Ch. rewrite Ecs in Nd, Ch. apply NoDup_cons in Nd as [D0 Nd]. apply NoDup_cons in Nd as [D1 _].
  destruct (Ch c0) as (A0 & B0 & n0 & H0 & P0); [left|]. destruct (Ch c1) as (A1 & B1 & n1 & H1 & P1); [right; left|].
  assert (N01 : c0 <> c1) by (intros ->; apply D0; left).
  exists (mkNode (numBytes nr) (refCount na) (isFrozen na) (Branch c0 c1 c2)). split_and!; [|done|done|done|by exists c0, c1, c2].
  unfold replace_root. rewrite (load_Ok h r nr Hr), (load_Ok h a na Ha). cbn [mbind result_bind]. rewrite Hi.
  set (nb := mkNode (numBytes nr) (refCount na) (isFrozen na) (Branch 0 0 0)). change nb with (set_info (Branch 0 0 0) nb) at 1.
  rewrite (retain_under h a c0 _ n0) by done. cbn [mbind result_bind]. rewrite set_put0. cbn [mbind result_bind].
  rewrite (retain_under _ a c1 _ n1); [|done|cbn; by entry|done]. cbn [mbind result_bind]. rewrite set_put1. cbn [mbind result_bind]. unfold retain_child.
  destruct (Z.eqb_spec c2 0) as [->|Z2]; cbn [mbind result_bind].
  - rewrite set_put2. cbn [mbind result_bind]. apply (release_taken [(c0, n0); (c1, n1)] c0 c1 0); [done|done|cbn; apply NoDup_cons; split; [set_solver|apply NoDup_singleton]|].
    repeat constructor; done.
  - rewrite decide_False in Ecs, D0, D1, Ch by done. destruct (Ch c2) as (A2 & B2 & n2 & H2 & P2); [do 2 right; left|].
    assert (N02 : c0 <> c2) by (intros ->; apply D0; right; left). assert (N12 : c1 <> c2) by (intros ->; apply D1; left).
    rewrite (retain_under _ a c2 _ n2); [|done|cbn; by entry|done]. cbn [mbind result_bind]. rewrite set_put2. cbn [mbind result_bind].
    apply (release_taken [(c0, n0); (c1, n1); (c2, n2)] c0 c1 c2); [done|unfold nonzero; by rewrite decide_False| |repeat constructor; done].
    cbn. do 2 (apply NoDup_cons; split; [done|]). apply NoDup_singleton.
Qed.

End Replace.

(** ** Other storages *)

Lemma thin_world (R : gset Z) (h h' : heap) : written h -> thin (h_nodes h) (h_nodes h') -> heap_ok R [] h' -> world R h'.
Proof.
  intros W T H'. split; [done|]. intros b n' (z & O & Hz) Hb. destruct (T b n' Hb) as (n & Hn & _ & _ & Ei). assert (allocated n) as A; [|unfold allocated in *; by rewrite Ei].
  apply (W b n); [|done]. exists z. split; [pose proof (thin_occ _ _ z T); lia|by eapply thin_reach].
Qed.

Lemma unshared_world (R : gset Z) (h : heap) : heap_ok R [] h -> unshared (h_nodes h) -> world R h.
Proof. intros H U. split; [done|]. intros b n Sb. by apply unshared_shared in Sb. Qed.

(** Two roots reach no node in common when no node is shared. *)
Lemma roots_apart (R : gset Z) (h : heap) (r1 r2 y : Z) : heap_ok R [] h -> unshared (h_nodes h) -> r1 ∈ R -> r2 ∈ R -> r1 <> r2 ->
  reach (h_nodes h) r1 y -> ~ reach (h_nodes h) r2 y.
Proof.
  intros H U H1 H2 N R1 R2. assert (Ap : forall r x, r ∈ R -> reach (h_nodes h) x r -> x = r).
  { intros r x Hr Hx. destruct (reach_last _ _ _ Hx) as [->|(p & _ & np & Hp & Hs)]; [done|]. destruct (ho_refs _ _ _ H r) as [? _]; [|done]. cbn. apply edges_elem. by exists p, np. }
  destruct (reach_compare _ _ _ _ U R1 R2) as [E|E]; apply Ap in E; congruence.
Qed.

(** ** An empty root *)

Section Clear.

Context (R : gset Z) (h : heap) (s : CFStorage) (l : list cell) (n : CFStorageNode).
Context (W : world R h) (So : storage_ok R h s l) (Hn : h_nodes h !! rootNode s = Some n).

Abbreviation a := (rootNode s).
Abbreviation nL := (mkNode 0 (refCount n) (isFrozen n) (Leaf 0 None (CFRangeMake 0 0))).

Lemma root_edges (y : Z) : reach (h_nodes h) y a -> y = a.
Proof.
  intros Hr. destruct (reach_last _ _ _ Hr) as [|(p & _ & np & Hp & Hs)]; [done|]. destruct (ho_refs _ _ _ (wo_heap _ _ W) a) as [N _]; [cbn; apply edges_elem; by exists p, np|].
  destruct N. apply So.
Qed.

Lemma cleared_edges : slots n ++ edges (h_nodes (put h a nL)) ≡ₚ edges (h_nodes h).
Proof. exact (edges_update _ a n nL Hn). Qed.

Lemma cleared_reach (x y : Z) : reach (h_nodes (put h a nL)) x y -> reach (h_nodes h) x y.
Proof.
  induction 1 as [x|x z y (nx & Hx & Hz) _ IH]; [done|]. eapply rtc_l; [|done]. cbn in Hx. destruct (decide (x = a)) as [->|N].
  - rewrite lookup_insert_eq in Hx. injection Hx as <-. by apply elem_of_nil in Hz.
  - rewrite lookup_insert_ne in Hx by done. by exists nx.
Qed.

Lemma cleared_ok : heap_ok R (slots n) (put h a nL) /\ written (put h a nL).
Proof.
  assert (Le : forall y, (occ y (edges (h_nodes (put h a nL))) <= occ y (edges (h_nodes h)))%nat)
    by (intros y; pose proof (occ_proper y _ _ cleared_edges) as E; rewrite occ_app in E; lia).
  assert (Nz : forall z, (2 <= occ z (edges (h_nodes h)))%nat -> z <> a).
  { intros z O ->. assert (Ha : a ∈ edges (h_nodes h)) by (apply occ_elem; lia). destruct (ho_refs _ _ _ (wo_heap _ _ W) a Ha) as [N _]. destruct N. apply So. }
  split.
  - apply (put_ok [] _ _ _ n); [apply W|done|done|cbn; by rewrite app_nil_r|]. intros b nb Hb O. assert (O2 : (2 <= occ b (edges (h_nodes h)))%nat) by (specialize (Le b); lia).
    cbn in Hb. rewrite lookup_insert_ne in Hb by (by apply not_eq_sym, Nz). by apply (ho_frozen _ _ _ (wo_heap _ _ W) b).
  - intros b nb (z & O & Hz) Hb. assert (O2 : (2 <= occ z (edges (h_nodes h)))%nat) by (specialize (Le z); lia). apply cleared_reach in Hz.
    assert (b <> a) by (intros ->; apply root_edges in Hz; by apply (Nz z)). cbn in Hb. rewrite lookup_insert_ne in Hb by done. apply (wo_written _ _ W b); [by exists z|done].
Qed.

Lemma cleared_unchanged (x : Z) : x <> a -> unchanged (h_nodes h) (h_nodes (put h a nL)) x.
Proof. intros N y Hy. apply lookup_insert_ne. intros <-. by apply root_edges in Hy. Qed.

Lemma clear_root_ok : exists h', CFStorageClearRootNode h s = Ok h' /\ world R h' /\ thin (h_nodes (put h a nL)) (h_nodes h') /\ h_nodes h' !! a = Some nL.
Proof.
  destruct (so_tree _ _ _ _ So) as [d T]. destruct cleared_ok as [HL WL]. unfold CFStorageClearRootNode. rewrite (load_Ok h a n Hn). cbn [mbind result_bind].
  destruct (tree_node _ _ _ _ _ _ n T Hn) as [L|(d' & cs & ls & -> & B & _ & _ & F)].
  - pose proof L as (c & mem & r & Hi & _). rewrite Hi. cbn [mbind result_bind]. rewrite (load_Ok h a n Hn). cbn [mbind result_bind]. eexists. split; [reflexivity|].
    rewrite (leaf_slots _ _ _ _ L) in HL. split_and!; [by split|apply thin_refl|apply lookup_insert_eq].
  - destruct (branch_children n cs B) as (c0 & c1 & c2 & _ & Ei & N0 & N1 & Ecs). fold (nonzero c2) in Ecs. rewrite (branch_slots n cs B) in HL.
    assert (Nc : forall c, c ∈ cs -> c <> a) by (intros c Hc ->; destruct (ho_refs _ _ _ HL a) as [Nn _]; [apply elem_of_app; by left|]; apply Nn, So).
    destruct (release_three R [] (put h a nL) c0 c1 c2 cs N0 N1 Ecs) as (h3 & Fr & Ev); [by rewrite app_nil_r| |].
    { intros c Hc. apply (finite_unchanged (h_nodes h)); [by apply cleared_unchanged, Nc|left]. apply list_elem_of_lookup in Hc as [i Hi]. destruct (Forall2_lookup_l _ _ _ _ _ F Hi) as (lc & _ & _ & Tc).
      by eexists _, _, _, _. }
    assert (Nr : forall c, c ∈ cs -> ~ reach (h_nodes (put h a nL)) c a) by (intros c Hc Hr; apply cleared_reach, root_edges in Hr; by apply (Nc c)).
    pose proof (ho_fresh _ _ _ (wo_heap _ _ W) a n Hn) as Fa. specialize (Ev a n ltac:(lia) Nr). rewrite put_put, put_id in Ev by done. rewrite Ei.
    assert (CFStorageReleaseNodeWithNullCheck h c0 = release h c0) as -> by (unfold CFStorageReleaseNodeWithNullCheck; by destruct (Z.eqb_spec c0 0)).
    match goal with |- exists h', mbind _ ?x = _ /\ _ => replace x with (Ok (put h3 a n)) end. cbn [mbind result_bind]. rewrite load_put. cbn [mbind result_bind]. rewrite put_put.
    assert (Hn3 : h_nodes h3 !! a = Some nL) by (rewrite (fr_frame _ _ _ _ _ Fr); [apply lookup_insert_eq|done]). rewrite put_id by done.
    exists h3. split_and!; [done|by eapply thin_world; [exact WL|apply Fr|apply Fr]|apply Fr|done].
Qed.

(** The other storages after the root was cleared. *)
Lemma cleared_tree (M vs : Z) (d : nat) (h' : heap) (r : Z) (lr : list cell) : heap_ok R [] h' -> thin (h_nodes (put h a nL)) (h_nodes h') -> r ∈ R -> r <> a ->
  tree M vs d (h_nodes h) r lr -> tree M vs d (h_nodes h') r lr.
Proof.
  intros H' T Rr Nr Tr. apply (tree_thin (h_nodes (put h a nL))); [done|by eapply alive_refs|by apply (ho_roots _ _ _ H')|].
  eapply unchanged_tree; [by apply cleared_unchanged|done].
Qed.

Lemma cleared_unshared (h' : heap) : thin (h_nodes (put h a nL)) (h_nodes h') -> unshared (h_nodes h) -> unshared (h_nodes h').
Proof.
  intros T U y. pose proof (thin_occ _ _ y T). pose proof (occ_proper y _ _ cleared_edges) as E. rewrite occ_app in E. specialize (U y). lia.
Qed.

End Clear.

(** ** The operations *)

Lemma clear_root (R : gset Z) (h : heap) (s : CFStorage) (l : list cell) : world R h -> storage_ok R h s l ->
  exists h' n, CFStorageClearRootNode h s = Ok h' /\ world R h' /\ storage_ok R h' s [] /\ undisturbed R h h' s /\ (unshared (h_nodes h) -> unshared (h_nodes h')) /\
    h_nodes h' !! rootNode s = Some n /\ slots n = [].
Proof.
  intros W So. destruct (so_tree _ _ _ _ So) as [d T]. destruct (tree_bytes _ _ _ _ _ _ T) as (n & Hn & _).
  destruct (clear_root_ok R h s l n W So Hn) as (h' & E & W' & Th & Hr). eexists h', _. split_and!; [done|done| | |by eapply cleared_unshared|exact Hr|done].
  - eapply storage_tree; [done|]. eapply (tree_leaf _ _ 0); [exact Hr|]. exists 0, None, (CFRangeMake 0 0). cbn. pose proof (so_capacity _ _ _ _ So). split_and!; [done|done|lia|lia|by exists 0|done].
  - apply undisturbed_trees. intros M vs d' r lr Rr Nr. apply (cleared_tree R h s l n); [done..|apply W'|done|done|done].
Qed.

(** C29. Deallocating a storage whose nodes may be shared releases its tree: the root is gone, the
    reference counts of the remaining nodes are right and every other storage keeps its bytes. *)
Theorem CFStorageDeallocate_ok (R : gset Z) (h : heap) (s : CFStorage) (l : list cell) : world R h -> storage_ok R h s l ->
  exists h', CFStorageDeallocate h s = Ok h' /\ world (R ∖ {[rootNode s]}) h' /\ h_nodes h' !! rootNode s = None /\
    (forall s2 l2, rootNode s2 <> rootNode s -> storage_ok R h s2 l2 -> storage_ok (R ∖ {[rootNode s]}) h' s2 l2).
Proof.
  intros W So. destruct (clear_root R h s l W So) as (h1 & n & E & W1 & _ & Ud & _ & Hn & Es). unfold CFStorageDeallocate. rewrite E. cbn [mbind result_bind].
  set (h' := mkHeap _ _). pose proof (wo_heap _ _ W1) as H1. pose proof (so_root _ _ _ _ So) as Ra. exists h'. split; [done|].
  assert (Ed : edges (h_nodes h') ≡ₚ edges (h_nodes h1)) by (pose proof (edges_delete _ _ n Hn) as Ee; rewrite Es in Ee; by rewrite Ee).
  assert (Ne : rootNode s ∉ edges (h_nodes h1)) by (intros Hr; by destruct (ho_refs _ _ _ H1 (rootNode s) Hr)).
  assert (Th : thin (h_nodes h1) (h_nodes h')) by apply thin_delete.
  assert (H' : heap_ok (R ∖ {[rootNode s]}) [] h').
  { destruct H1 as [C F B X D O]. split; [..|done| |].
    - intros b nb Hb. cbn in Hb. apply lookup_delete_Some in Hb as [Nb Hb]. rewrite (C b nb Hb). destruct (decide (b ∈ R)), (decide (b ∈ R ∖ {[rootNode s]})); [done|set_solver|set_solver|]. cbn [app]. by rewrite Ed.
    - intros b nb Hb. cbn in Hb. apply lookup_delete_Some in Hb as [_ Hb]. rewrite Ed. by apply F.
    - intros b nb Hb. cbn in Hb. apply lookup_delete_Some in Hb as [_ Hb]. by apply (B b nb).
    - intros b Hb. cbn [app] in Hb. rewrite Ed in Hb. destruct (D b Hb) as [? ?]. split; [set_solver|]. cbn. rewrite lookup_delete_ne by (by intros <-). done.
    - intros r Hr. cbn. rewrite lookup_delete_ne by set_solver. apply O. set_solver. }
  split_and!; [by eapply thin_world; [apply W1|..]|apply lookup_delete_eq|]. intros s2 l2 Nr So2. destruct (Ud s2 l2 Nr So2) as [Rr Sz Sh Cp Al [d T]]. split; try done; [set_solver|].
  exists d. apply (tree_thin (h_nodes h1)); [done|by eapply alive_refs|cbn; rewrite lookup_delete_ne by done; by apply (ho_roots _ _ _ H1)|done].
Qed.

(** The root has the contents of [r], which is gone. *)
Lemma taken_ok (R : gset Z) (h : heap) (s : CFStorage) (d : nat) (r : Z) (l : list cell) (na : CFStorageNode) :
  heap_ok R [r] h -> unshared (h_nodes h) -> rootNode s ∈ R -> h_nodes h !! rootNode s = Some na -> slots na = [] -> occ r (edges (h_nodes h)) = 0%nat ->
  maxLeafCapacity s <= kMaxLeafCapacity -> tree (maxLeafCapacity s) (valueSize s) d (h_nodes h) r l -> l <> [] ->
  exists h', (g ← replace_root h s r; CFStorageReleaseNodeWithNullCheck g r) = Ok h' /\ heap_ok R [] h' /\ unshared (h_nodes h') /\
    tree (maxLeafCapacity s) (valueSize s) d (h_nodes h') (rootNode s) l /\ forall y, y <> rootNode s -> y <> r -> h_nodes h' !! y = h_nodes h !! y.
Proof.
  intros H U Ra Ha Sa Or HK T Nl. destruct (tree_bytes _ _ _ _ _ _ T) as (nr & Hr & Eb). pose proof (ho_fresh _ _ _ H r nr Hr) as Fr.
  destruct (referenced_count [r] h r nr H Hr) as (NR & Rc & _); [left|]. rewrite Or, occ_cons, decide_True, occ_nil in Rc by done.
  assert (Nr : r <> rootNode s) by (by intros ->). destruct (del_ok [] h r nr H Hr ltac:(lia)) as (Hd & Er & _). rewrite app_nil_r in Hd.
  assert (Fin : forall nR, refCount nR = refCount na -> slots nR = slots nr ->
    heap_ok R [] (put (del h r) (rootNode s) nR) /\ unshared (h_nodes (put (del h r) (rootNode s) nR)) /\
    forall y, y <> rootNode s -> y <> r -> h_nodes (put (del h r) (rootNode s) nR) !! y = h_nodes h !! y).
  { intros nR E1 E2. assert (Ha' : h_nodes (del h r) !! rootNode s = Some na) by (cbn; by entry).
    assert (Ed : edges (h_nodes (put (del h r) (rootNode s) nR)) ≡ₚ edges (h_nodes h)).
    { rewrite (edges_delete _ r nr Hr). pose proof (edges_update _ _ na nR Ha') as Eu. rewrite Sa, E2 in Eu. exact Eu. }
    assert (Uf : unshared (h_nodes (put (del h r) (rootNode s) nR))) by (intros y; rewrite Ed; apply U). split_and!; [|done|intros y N1 N2; cbn; by entry].
    apply (put_ok (slots nr) _ _ _ na); [done|done|done|by rewrite E2, Sa, app_nil_r|by apply unshared_frozen]. }
  destruct (tree_node _ _ _ _ _ _ nr T Hr) as [L|(d' & cs & ls & -> & B & -> & _ & F)].
  - destruct (take_over_leaf h s r na nr Ha Hr Nr ltac:(lia) ltac:(lia) _ (valueSize s) l eq_refl HK L Nl) as (nR & -> & E1 & _ & LR).
    destruct (Fin nR E1) as (F1 & F2 & F3); [by rewrite (leaf_slots _ _ _ _ LR), (leaf_slots _ _ _ _ L)|]. eexists. split_and!; [done..| |done]. eapply tree_leaf; [apply lookup_insert_eq|done].
  - assert (Ec : forall c, c ∈ cs -> c ∈ edges (h_nodes h)) by (intros c Hc; apply edges_elem; exists r, nr; by rewrite (branch_slots nr cs B)).
    assert (Nc : forall c, c ∈ cs -> c <> rootNode s /\ c <> r).
    { intros c Hc. specialize (Ec c Hc). split; [intros ->|by intros ->]. destruct (ho_refs _ _ _ H (rootNode s)) as [? _]; [apply elem_of_app; by right|done]. }
    destruct (take_over_branch h s r na nr Ha Hr Nr ltac:(lia) ltac:(lia) cs B) as (nR & -> & E1 & _ & Enb & BR).
    + rewrite <- (branch_slots nr cs B). by apply (unshared_slots (h_nodes h) r).
    + intros c Hc. destruct (Nc c Hc). split_and!; [done..|]. destruct (alive_refs R [r] h H c (Ec c Hc)) as [n Hn]. exists n. split; [done|].
      destruct (referenced_count [r] h c n H Hn) as (_ & _ & ?); [apply elem_of_app; right; by apply Ec|lia].
    + destruct (Fin nR E1) as (F1 & F2 & F3); [by rewrite (branch_slots _ _ BR), (branch_slots _ _ B)|]. eexists. split_and!; [done..| |done].
      apply (tree_branch _ _ _ _ _ nR cs); [apply lookup_insert_eq|done|congruence|].
      assert (Un : forall c, c ∈ cs -> unchanged (h_nodes h) (h_nodes (put (del h r) (rootNode s) nR)) c).
      { intros c Hc y Hy. assert (y ∈ edges (h_nodes h)) as Hye.
        { destruct (reach_last _ _ _ Hy) as [<-|(p & _ & np & Hp & Hs)]; [by apply Ec|]. apply edges_elem. by exists p, np. }
        apply F3; [intros ->|by intros ->]. destruct (ho_refs _ _ _ H (rootNode s)) as [? _]; [apply elem_of_app; by right|done]. }
      clear - F Un. induction F as [|c lc cs ls [Nl T] F IH]; constructor; [split; [done|]; eapply unchanged_tree; [|done]; apply Un; left|]. apply IH. intros c' Hc. apply Un. by right.
Qed.

Lemma delete_values (R : gset Z) (h : heap) (s : CFStorage) (l : list cell) (range : CFRange) :
  world R h -> unshared (h_nodes h) -> storage_ok R h s l ->
  0 <= location range -> 0 <= rlength range -> (location range + rlength range) * valueSize s <= len l ->
  exists h', CFStorageDeleteValues h s range = Ok (h', set_cache 0 s) /\ world R h' /\ unshared (h_nodes h') /\
    storage_ok R h' (set_cache 0 s) (cut l 0 (location range * valueSize s) (rlength range * valueSize s)) /\
    undisturbed R h h' s.
Proof.
  destruct range as [loc k]. cbn [location rlength]. intros W U So Hl Hk Hlk. pose proof (so_size _ _ _ _ So) as Hv. pose proof (wo_heap _ _ W) as H.
  destruct (so_tree _ _ _ _ So) as [d T]. apply tree_height in T. pose proof (so_root _ _ _ _ So) as Ra.
  destruct (delete_node_ok (maxLeafCapacity s) (valueSize s) ltac:(apply So) R (set_cache 0 s) eq_refl true (steps h) (size (h_nodes h)) ltac:(unfold steps; lia)
    h [] (rootNode s) l (loc * valueSize s) (k * valueSize s)) as (h1 & r & E & D); [done|done|done|by left|by intros y _ ?%elem_of_nil|nia|nia|nia|by exists loc|by exists k|].
  unfold CFStorageDeleteValues, CFStorageConvertValuesToByteRange. cbn [location rlength CFStorageSetCache Z.eqb mbind result_bind]. rewrite !value_bytes by apply So.
  change (rootNode (set_cache 0 s)) with (rootNode s). rewrite E. cbn [mbind result_bind]. destruct D as [D1 D2 D3 D4 D5 _ D8]. set (l' := cut l 0 _ _) in *.
  assert (El : len l' = len l - k * valueSize s) by (unfold l'; rewrite cut_length; nia).
  assert (Ap : forall r2 y, r2 ∈ R -> r2 <> rootNode s -> reach (h_nodes h) r2 y -> ~ reach (h_nodes h) (rootNode s) y) by (intros r2 y R2 N2 Hy; by apply (roots_apart R h r2)).
  destruct D8 as [(-> & El')|(N0 & Nl & T' & Dn & Sa)].
  - destruct (tree_bytes _ _ _ _ _ _ T) as (n & Hn & Eb). unfold CFStorageDeleteUnfrozen in E. rewrite (load_Ok h _ n Hn) in E. cbn [mbind result_bind rlength] in E.
    rewrite El' in El. cbn in El. destruct (Z.eqb_spec (k * valueSize s) (numBytes n)) as [_|]; [|lia]. injection E as <-. cbn [Z.eqb].
    destruct (clear_root R h (set_cache 0 s) l W (storage_set_cache _ _ _ _ _ So)) as (h' & n' & -> & W' & So' & Ud & Us & _). cbn. exists h'. rewrite El'. split_and!; [done|done|by apply Us|done|done].
  - destruct (Z.eqb_spec r 0) as [|_]; [done|]. destruct (Z.eqb_spec r (rootNode s)) as [->|Nr]; cbn [mbind result_bind].
    + unfold hold in D1. rewrite decide_True in D1 by (by right). destruct (tree_bytes _ _ _ _ _ _ T') as (n & Hn & _).
      assert (Rl : CFStorageReleaseNodeWithNullCheck h1 (rootNode s) = Ok h1).
      { unfold CFStorageReleaseNodeWithNullCheck, release, steps. destruct (Z.eqb_spec (rootNode s) 0); [done|]. rewrite release_unfold, (load_Ok h1 _ n Hn). cbn [mbind result_bind].
        pose proof (ho_counted _ _ _ D1 _ n Hn) as C. rewrite decide_True in C by done. by rewrite C. }
      rewrite Rl. cbn [mbind result_bind]. exists h1. split_and!; [done|by apply unshared_world|done|apply storage_set_cache; by eapply storage_tree|].
      apply (undisturbed_trees R h h1 s). intros M vs d' r2 l2 R2 N2. apply unchanged_tree. intros y Hy. apply D4. by apply (Ap r2).
    + destruct Sa as [?|[Or (na & Hna & Sna)]]; [done|]. pose proof (Dn r (rtc_refl _ _)) as Rr.
      assert (NR : r ∉ R) by (intros Hr; apply (Ap r r Hr Nr (rtc_refl _ _)); done). unfold hold in D1. rewrite decide_False in D1 by tauto.
      destruct (taken_ok R h1 (set_cache 0 s) (size (h_nodes h)) r l' na) as (h2 & Ev & H2 & U2 & T2 & F2); try done; [apply So|].
      destruct (replace_root h1 (set_cache 0 s) r) as [g| | |]; cbn [mbind result_bind] in Ev |- *; try done. rewrite Ev. cbn [mbind result_bind].
      exists h2. split_and!; [done|by apply unshared_world|done|apply storage_set_cache; by eapply storage_tree|].
      apply (undisturbed_trees R h h2 s). intros M vs d' r2 l2 R2 N2. apply unchanged_tree. intros y Hy. pose proof (Ap r2 y R2 N2 Hy) as Ny.
      rewrite F2; [by apply D4|intros ->; by apply Ny|by intros ->].
Qed.

(** In a heap without shared nodes [CFStorageDeleteValues] returns, removes exactly the
    values of the range and keeps the invariant of the heap. *)
Theorem CFStorageDeleteValues_ok (R : gset Z) (h : heap) (s : CFStorage) (l : list cell) (range : CFRange) :
  world R h -> unshared (h_nodes h) -> storage_ok R h s l ->
  0 <= location range -> 0 <= rlength range -> (location range + rlength range) * valueSize s <= len l ->
  exists h', CFStorageDeleteValues h s range = Ok (h', set_cache 0 s) /\ world R h' /\ unshared (h_nodes h') /\
    storage_ok R h' (set_cache 0 s) (cut l 0 (location range * valueSize s) (rlength range * valueSize s)) /\
    (forall s2 l2, rootNode s2 <> rootNode s -> storage_ok R h s2 l2 -> storage_ok R h' s2 l2).
Proof. apply delete_values. Qed.

End StorageRoot.
