(* ===== verification/StorageWorld.v ===== *)
(** * Storages: creation and a checker of the invariant

    [CFStorageCreate] adds an empty storage to a heap.  [world_check] is an executable test
    of the invariant, with which the theorems are applied to concrete heaps. *)

From stdpp Require Import base list numbers option gmap relations.
From Stdlib Require Import ZArith Lia.
From S2P Require Import Prelude Storage StorageHeap StorageTree StorageLeaf StorageFrozen StorageInsert StorageUnfrozen StorageCow StorageValues StorageRead StorageWrite.
Import Storage StorageHeap StorageTree StorageLeaf StorageFrozen StorageInsert StorageUnfrozen StorageCow StorageValues StorageRead StorageWrite.

Module StorageWorld.

(** ** Creation *)

(** The test of [CFStorageCreate] for a power of two. *)
Lemma power_of_two (v : Z) : 0 < v -> Z.land v (v - 1) = 0 -> v = 2 ^ Z.log2 v.
Proof.
  intros Hv E. pose proof (Z.log2_spec v Hv) as L. destruct (Z.eq_dec v (2 ^ Z.log2 v)) as [|N]; [done|]. exfalso.
  assert (E1 : Z.log2 (v - 1) = Z.log2 v) by (apply Z.log2_unique; [apply Z.log2_nonneg|lia]).
  assert (B : Z.testbit (Z.land v (v - 1)) (Z.log2 v) = true).
  { rewrite Z.land_spec, Z.bit_log2 by done. rewrite <- E1 at 1. apply Z.bit_log2. pose proof (Z.pow_pos_nonneg 2 (Z.log2 v) ltac:(lia) (Z.log2_nonneg v)). lia. }
  by rewrite E, Z.bits_0 in B.
Qed.

Section Create.

Context (R : gset Z) (h : heap) (W : world R h).

Abbreviation root := (mkNode 0 0 false (Leaf 0 None (CFRangeMake 0 0))).
Abbreviation R' := ({[h_next h]} ∪ R).

Lemma create_edges : edges (h_nodes (alloc h root)) ≡ₚ edges (h_nodes h).
Proof. by apply (alloc_leaf_edges R h []); [apply W|]. Qed.

Lemma create_heap : heap_ok R' [] (alloc h root).
Proof.
  pose proof (wo_heap _ _ W) as H. pose proof (fresh_None _ _ H) as Fx. destruct (fresh_unreferenced _ _ H) as (_ & Fe & Fr). pose proof create_edges as E. split.
  - intros b n Hb. cbn [app]. destruct (decide (b = h_next h)) as [->|N].
    + cbn in Hb. rewrite lookup_insert_eq in Hb. injection Hb as <-. by rewrite decide_True by set_solver.
    + rewrite lookup_alloc_ne in Hb by done. rewrite (ho_counted _ _ _ H b n Hb). cbn [app]. destruct (decide (b ∈ R)) as [I|I]; [by rewrite decide_True by set_solver|].
      rewrite decide_False by set_solver. by rewrite E.
  - intros b n Hb. rewrite E. destruct (decide (b = h_next h)) as [->|N].
    + apply occ_zero in Fe. lia.
    + rewrite lookup_alloc_ne in Hb by done. by apply (ho_frozen _ _ _ H).
  - intros b n Hb. pose proof (ho_next _ _ _ H). cbn. destruct (decide (b = h_next h)) as [->|N]; [lia|].
    rewrite lookup_alloc_ne in Hb by done. pose proof (ho_fresh _ _ _ H b n Hb). lia.
  - pose proof (ho_next _ _ _ H). cbn. lia.
  - intros b. cbn [app]. rewrite E. intros Hb. destruct (ho_refs _ _ _ H b Hb) as [Nb Db]. assert (b <> h_next h) by (by intros ->).
    split; [set_solver|]. by rewrite lookup_alloc_ne.
  - intros r Hr. destruct (decide (r = h_next h)) as [->|N]; [rewrite lookup_alloc; by eexists|]. rewrite lookup_alloc_ne by done. apply (ho_roots _ _ _ H). set_solver.
Qed.

Lemma create_world : world R' (alloc h root).
Proof.
  split; [apply create_heap|]. apply (region_written (shared (h_nodes h))). apply (region_alloc R _ h []); [apply W|done| |by apply (shared_region R)].
  intros y Sy. pose proof (wo_heap _ _ W) as H. destruct Sy as (z & O & Hz). apply (reach_dom _ z); [by intros b Hb; apply (ho_refs _ _ _ H b)| |done].
  apply (ho_refs _ _ _ H z). cbn. apply occ_elem. lia.
Qed.

Lemma create_ok (vs : Z) : 0 < vs <= kMaxLeafCapacity ->
  let '(h', s) := CFStorageCreate h vs in
  world ({[rootNode s]} ∪ R) h' /\ storage_ok ({[rootNode s]} ∪ R) h' s [] /\ valueSize s = vs /\ (rootNode s ∉ R) /\
  (forall s2 l2, storage_ok R h s2 l2 -> storage_ok ({[rootNode s]} ∪ R) h' s2 l2).
Proof.
  intros Hv. unfold CFStorageCreate. cbn [rootNode]. change (mkHeap (<[h_next h := root]> (h_nodes h)) (h_next h + 1)) with (alloc h root).
  pose proof (wo_heap _ _ W) as H. destruct (fresh_unreferenced _ _ H) as (_ & _ & Fr). split_and!; [apply create_world| |done|done|].
  - match goal with |- context [mkStorage _ _ _ _ ?c _] => set (cap := c) end. assert (Hc : 0 < cap <= kMaxLeafCapacity /\ (vs | cap)).
    { unfold cap. destruct (Z.eqb_spec vs 0) as [|_]; [lia|]. rewrite Z.rem_mod_nonneg, Z.quot_div_nonneg by (unfold kMaxLeafCapacity in *; lia).
      destruct (Z.eqb_spec (kMaxLeafCapacity mod vs) 0) as [E|E]; cbn [negb andb].
      - split; [unfold kMaxLeafCapacity; lia|]. apply Z.mod_divide; [lia|done].
      - split; [|by exists (kMaxLeafCapacity / vs)]. pose proof (Z.div_mod kMaxLeafCapacity vs ltac:(lia)). pose proof (Z.mod_pos_bound kMaxLeafCapacity vs ltac:(lia)).
        pose proof (Z.div_str_pos kMaxLeafCapacity vs ltac:(lia)). nia. }
    split; cbn; [set_solver|lia| |apply Hc|apply Hc|].
    + unfold shifter_ok. cbn. destruct (Z.ltb_spec 0 vs); [|lia]. cbn [andb]. destruct (Z.eqb_spec (Z.land vs (vs - 1)) 0) as [E|]; [|done].
      split; [apply Z.log2_nonneg|]. by apply power_of_two.
    + exists 0%nat. apply (tree_leaf _ _ _ _ _ _ root); [apply lookup_alloc|]. exists 0, None, (CFRangeMake 0 0). cbn. split_and!; [done|done|lia|lia|by exists 0|done].
  - intros s2 l2 [A1 A2 A3 A4 A5 [d T]]. split; [set_solver|done..|]. exists d. eapply tree_all_kept; [|exact T]. intros y. by apply (alloc_kept R h []).
Qed.

(** [CFStorageCreate] adds an empty storage with a root of its own, keeps the invariant of
    the heap and leaves the contents of every other storage as they were. *)
Theorem CFStorageCreate_ok (vs : Z) : 0 < vs <= kMaxLeafCapacity ->
  let '(h', s) := CFStorageCreate h vs in
  world ({[rootNode s]} ∪ R) h' /\ storage_ok ({[rootNode s]} ∪ R) h' s [] /\ valueSize s = vs /\ (rootNode s ∉ R) /\
  (forall s2 l2, storage_ok R h s2 l2 -> storage_ok ({[rootNode s]} ∪ R) h' s2 l2).
Proof. apply create_ok. Qed.

End Create.

(** ** A checker of the invariant *)

Definition node_check (R : gset Z) (h : heap) (b : Z) (n : CFStorageNode) : bool :=
  (refCount n =? if decide (b ∈ R) then 0 else Z.of_nat (occ b (edges (h_nodes h)))) &&
  (isFrozen n || (occ b (edges (h_nodes h)) <? 2)%nat) && (0 <? b) && (b <? h_next h) &&
  match info n with Leaf _ None _ => false | _ => true end.

Definition world_check (R : gset Z) (h : heap) : bool :=
  forallb (fun p => node_check R h (fst p) (snd p)) (map_to_list (h_nodes h)) && (0 <? h_next h) &&
  forallb (fun b => negb (bool_decide (b ∈ R)) && bool_decide (is_Some (h_nodes h !! b))) (edges (h_nodes h)) &&
  forallb (fun r => bool_decide (is_Some (h_nodes h !! r))) (elements R).

Lemma world_check_ok (R : gset Z) (h : heap) : world_check R h = true -> world R h.
Proof.
  unfold world_check. rewrite !andb_true_iff, !forallb_forall. intros [[[Hn Hx] He] Hr].
  assert (Nd : forall b n, h_nodes h !! b = Some n -> node_check R h b n = true).
  { intros b n Hb. apply (Hn (b, n)), list_elem_of_In. by apply elem_of_map_to_list. }
  unfold node_check in Nd. split; [split|].
  - intros b n Hb. specialize (Nd b n Hb). cbn [app]. destruct (decide (b ∈ R)); lia.
  - intros b n Hb O. specialize (Nd b n Hb). destruct (isFrozen n); [done|]. destruct (decide (b ∈ R)); destruct (Nat.ltb_spec (occ b (edges (h_nodes h))) 2); lia.
  - intros b n Hb. specialize (Nd b n Hb). lia.
  - lia.
  - intros b Hb. cbn in Hb. apply list_elem_of_In, He, andb_true_iff in Hb as [Hb1 Hb2]. apply negb_true_iff, bool_decide_eq_false in Hb1. by apply bool_decide_eq_true in Hb2.
  - intros r Rr. apply elem_of_elements, list_elem_of_In, Hr, bool_decide_eq_true in Rr. done.
  - intros b n _ Hb. specialize (Nd b n Hb). unfold allocated. destruct (info n) as [? [?|] ?|]; [done| |done]. by rewrite andb_false_r in Nd.
Qed.

(** Two storages that share their two leaves. *)
Module Sample.

Definition leaf_node (l : list Z) : CFStorageNode := mkNode (len l) 2 true (Leaf 0 (Some (map Some l)) (CFRangeMake 0 0)).
Definition root_node : CFStorageNode := mkNode 5 0 false (Branch 3 4 0).
Definition h0 : heap := mkHeap (<[1 := root_node]> (<[2 := root_node]> (<[3 := leaf_node [10; 11; 12]]> {[4 := leaf_node [13; 14]]}))) 5.
Definition R0 : gset Z := {[1; 2]}.
Definition store (root : Z) : CFStorage := mkStorage 1 (Some 0) false 0 kMaxLeafCapacity root.
Definition bytes0 : list cell := map Some [10; 11; 12; 13; 14].

Lemma world0 : world R0 h0.
Proof. apply world_check_ok. vm_compute. reflexivity. Qed.

Lemma storage0 (root : Z) : root = 1 \/ root = 2 -> storage_ok R0 h0 (store root) bytes0.
Proof.
  intros Hr. split; cbn [rootNode valueSize maxLeafCapacity store]; [unfold R0; set_solver|lia|unfold shifter_ok; cbn; lia|unfold kMaxLeafCapacity; lia|apply Z.divide_1_l|].
  assert (L : forall a l, h_nodes h0 !! a = Some (leaf_node l) -> len l <= 12288 -> tree kMaxLeafCapacity 1 0 (h_nodes h0) a (map Some l)).
  { intros a l Ha Hl. apply (tree_leaf _ _ _ _ _ _ (leaf_node l) Ha). exists 0, (Some (map Some l)), (CFRangeMake 0 0). cbn. rewrite length_map.
    unfold kMaxLeafCapacity. split_and!; [done|lia|by left|lia|lia|apply Z.divide_1_l|]. by rewrite take_ge by (rewrite length_map; lia). }
  exists 1%nat. change bytes0 with (concat [map Some [10; 11; 12]; map Some [13; 14]]). apply (tree_branch _ _ _ _ _ root_node [3; 4]).
  - by destruct Hr as [->| ->].
  - by exists 3, 4, 0.
  - done.
  - repeat constructor; try done; apply L; done.
Qed.

End Sample.

Lemma CFStorageInsertValues_ok_witness : exists h' k l',
  CFStorageInsertValues Sample.h0 (Sample.store 1) (CFRangeMake 2 1) = Ok (h', set_cache k (Sample.store 1)) /\
  inserted Sample.bytes0 2 1 l' /\ storage_ok Sample.R0 h' (set_cache k (Sample.store 1)) l' /\ storage_ok Sample.R0 h' (Sample.store 2) Sample.bytes0.
Proof.
  destruct (CFStorageInsertValues_ok Sample.R0 Sample.h0 (Sample.store 1) Sample.bytes0 (CFRangeMake 2 1) Sample.world0 (Sample.storage0 1 (or_introl eq_refl)))
    as (h' & k & l' & E & I & W & So & U); [cbn; lia..|].
  exists h', k, l'. split_and!; [exact E|exact I|exact So|]. apply U; [discriminate|]. apply Sample.storage0. by right.
Defined.

Lemma CFStorageReplaceValues_ok_witness : exists h' k,
  CFStorageReplaceValues Sample.h0 (Sample.store 1) (CFRangeMake 2 2) [Some 98; Some 99] = Ok (h', set_cache k (Sample.store 1)) /\
  storage_ok Sample.R0 h' (set_cache k (Sample.store 1)) (map Some [10; 11; 98; 99; 14]) /\ storage_ok Sample.R0 h' (Sample.store 2) Sample.bytes0.
Proof.
  destruct (CFStorageReplaceValues_ok Sample.R0 Sample.h0 (Sample.store 1) Sample.bytes0 [Some 98; Some 99] (CFRangeMake 2 2) Sample.world0 (Sample.storage0 1 (or_introl eq_refl))
    (ready_empty _ _ _ _ (Sample.storage0 1 (or_introl eq_refl)) eq_refl)) as (h' & k & E & W & So & _ & U); [cbn; lia..|].
  exists h', k. split_and!; [exact E|exact So|]. apply U; [discriminate|]. apply Sample.storage0. by right.
Defined.

Lemma CFStorageGetValues_ok_witness : exists h' k,
  CFStorageGetValues Sample.h0 (Sample.store 1) (CFRangeMake 2 2) = Ok (h', set_cache k (Sample.store 1), [Some 12; Some 13]) /\ world Sample.R0 h'.
Proof.
  destruct (CFStorageGetValues_ok Sample.R0 Sample.h0 (Sample.store 1) Sample.bytes0 (CFRangeMake 2 2) Sample.world0 (Sample.storage0 1 (or_introl eq_refl)))
    as (h' & k & E & W & _); [by left|cbn; lia..|]. by exists h', k.
Defined.

Lemma CFStorageCreate_ok_witness : let '(h', s) := CFStorageCreate Sample.h0 5000 in
  world ({[rootNode s]} ∪ Sample.R0) h' /\ storage_ok ({[rootNode s]} ∪ Sample.R0) h' s [] /\ maxLeafCapacity s = 10000.
Proof.
  pose proof (CFStorageCreate_ok Sample.R0 Sample.h0 Sample.world0 5000 ltac:(unfold kMaxLeafCapacity; lia)) as (W & So & _).
  split; [exact W|]. split; [exact So|reflexivity].
Defined.

End StorageWorld.
