(* ===== verification/StorageRun.v ===== *)
(** * Sequences of operations on a storage

    The operations of [CFStorage.h] on the bytes of a storage, run one after the other on a
    heap without shared nodes, against their meaning on a list of bytes: [run_ok].  A new
    storage starts with the empty list: [created_run_ok]. *)

From stdpp Require Import base list numbers option gmap relations.
From Stdlib Require Import ZArith Lia.
From S2P Require Import Prelude Storage StorageHeap StorageTree StorageLeaf StorageCache StorageValues StorageRead StorageWrite StorageCut StorageRoot StorageWorld.
Import Storage StorageHeap StorageTree StorageLeaf StorageCache StorageValues StorageRead StorageWrite StorageCut StorageRoot StorageWorld.

Module StorageRun.

Inductive operation : Type :=
| Insert (range : CFRange)
| Delete (range : CFRange)
| Replace (range : CFRange) (values : list cell)
| Get (range : CFRange).

(** ** The code *)

(** The bytes that a call copies to its caller. *)
Definition perform (h : heap) (s : CFStorage) (o : operation) : result (heap * CFStorage * list cell) :=
  match o with
  | Insert range => '(h, s) ← CFStorageInsertValues h s range; Ok (h, s, [])
  | Delete range => '(h, s) ← CFStorageDeleteValues h s range; Ok (h, s, [])
  | Replace range values => '(h, s) ← CFStorageReplaceValues h s range values; Ok (h, s, [])
  | Get range => CFStorageGetValues h s range
  end.

Fixpoint run (h : heap) (s : CFStorage) (os : list operation) : result (heap * CFStorage * list (list cell)) :=
  match os with
  | [] => Ok (h, s, [])
  | o :: os => '(h, s, out) ← perform h s o; '(h, s, outs) ← run h s os; Ok (h, s, out :: outs)
  end.

(** ** The meaning *)

Section Meaning.

Context (vs : Z).

(** Insertion makes room; what the new bytes are is left open. *)
Inductive means : list cell -> operation -> list cell -> list cell -> Prop :=
| means_insert (l gap : list cell) (loc n : Z) : len gap = n * vs ->
    means l (Insert (CFRangeMake loc n)) (take (Z.to_nat (loc * vs)) l ++ gap ++ drop (Z.to_nat (loc * vs)) l) []
| means_delete (l : list cell) (loc n : Z) :
    means l (Delete (CFRangeMake loc n)) (take (Z.to_nat (loc * vs)) l ++ drop (Z.to_nat ((loc + n) * vs)) l) []
| means_replace (l values : list cell) (loc n : Z) :
    means l (Replace (CFRangeMake loc n) values) (take (Z.to_nat (loc * vs)) l ++ values ++ drop (Z.to_nat ((loc + n) * vs)) l) []
| means_get (l : list cell) (loc n : Z) :
    means l (Get (CFRangeMake loc n)) l (take (Z.to_nat (n * vs)) (drop (Z.to_nat (loc * vs)) l)).

Inductive run_means : list cell -> list operation -> list cell -> list (list cell) -> Prop :=
| run_means_nil (l : list cell) : run_means l [] l []
| run_means_cons (l l1 l2 : list cell) (o : operation) (os : list operation) (out : list cell) (outs : list (list cell)) :
    means l o l1 out -> run_means l1 os l2 outs -> run_means l (o :: os) l2 (out :: outs).

(** The ranges fit a storage of [n] values. *)
Definition fits (n : Z) (o : operation) : bool :=
  match o with
  | Insert range => (0 <=? location range) && (location range <=? n) && (0 <=? rlength range)
  | Delete range | Get range => (0 <=? location range) && (0 <=? rlength range) && (location range + rlength range <=? n)
  | Replace range values =>
    (0 <=? location range) && (0 <=? rlength range) && (location range + rlength range <=? n) && (len values =? rlength range * vs)
  end.

Definition count_after (n : Z) (o : operation) : Z :=
  match o with Insert range => n + rlength range | Delete range => n - rlength range | Replace _ _ | Get _ => n end.

Fixpoint all_fit (n : Z) (os : list operation) : bool :=
  match os with [] => true | o :: os => fits n o && all_fit (count_after n o) os end.

Lemma means_length (l l' out : list cell) (o : operation) (n : Z) : 0 < vs -> len l = n * vs -> fits n o = true -> means l o l' out -> len l' = count_after n o * vs.
Proof.
  intros Hv El Hf Hm. destruct Hm as [l gap loc k Eg|l loc k|l v loc k|l loc k]; cbn [fits count_after location rlength] in *;
    rewrite ?andb_true_iff, ?Z.leb_le, ?Z.eqb_eq in Hf; rewrite ?length_app, ?length_take, ?length_drop; nia.
Qed.

End Meaning.

(** ** One operation *)

(** What holds between two operations on the storage [s] with the bytes [l]. *)
Record stored (R : gset Z) (h : heap) (s : CFStorage) (l : list cell) : Prop := mk_stored {
  st_world : world R h;
  st_unshared : unshared (h_nodes h);
  st_storage : storage_ok R h s l;
  st_cache : located h s
}.

Lemma perform_ok (R : gset Z) (h : heap) (s : CFStorage) (l : list cell) (n : Z) (o : operation) :
  stored R h s l -> len l = n * valueSize s -> fits (valueSize s) n o = true ->
  exists h' k l' out, perform h s o = Ok (h', set_cache k s, out) /\ means (valueSize s) l o l' out /\ stored R h' (set_cache k s) l' /\ undisturbed R h h' s.
Proof.
  intros [W U So Lo] El Hf. pose proof (so_size _ _ _ _ So) as Hv.
  destruct o as [[loc k]|[loc k]|[loc k] values|[loc k]]; cbn [fits perform location rlength] in *; rewrite ?andb_true_iff, ?Z.leb_le, ?Z.eqb_eq in Hf.
  - destruct (insert_values R h s l (CFRangeMake loc k)) as (h' & c & l' & -> & (gap & Eg & ->) & W' & So' & Ud & Ca); cbn [location rlength] in *; try done; [lia|nia|lia|].
    cbn [mbind result_bind]. eexists h', c, _, []. split_and!; [done|by constructor| |done]. destruct (Ca U) as [U' [Lo'|(-> & -> & El')]]; [by split|].
    split; [done|done|by destruct s|by destruct s].
  - destruct (delete_values R h s l (CFRangeMake loc k)) as (h' & -> & W' & U' & So' & Ud); cbn [location rlength]; try done; [lia|lia|nia|].
    cbn [mbind result_bind]. eexists h', 0, _, []. split_and!; [done|constructor| |done]. split; [done|done| |by left]. unfold cut in So'. cbn [location rlength] in So'.
    rewrite !Z.sub_0_r in So'. by rewrite Z.mul_add_distr_r.
  - destruct (replace_values R h s l values (CFRangeMake loc k)) as (h' & c & -> & W' & So' & Re & Ud & U'); cbn [location rlength]; try done; [by eapply located_ready|lia|lia|nia|lia|].
    cbn [mbind result_bind]. eexists h', c, _, []. split_and!; [done|constructor| |done]. cbn [location] in So', Re. unfold splice in So', Re.
    replace (Z.to_nat (loc * valueSize s) + length values)%nat with (Z.to_nat ((loc + k) * valueSize s)) in So', Re by nia.
    split; [done|by apply U'|done|by eapply ready_located].
  - destruct (get_loop_ok R (Z.to_nat k) h s l loc k W So) as (h' & c & E & Q & X & _ & Lo'); [by eapply ready_cache_ok, located_ready|lia|lia|lia|nia|].
    eexists h', c, l, _. split_and!; [exact E|constructor| |].
    + split; [by eapply quiet_world|by eapply quiet_unshared|apply storage_set_cache; by eapply quiet_storage|by apply Lo'].
    + intros s2 l2 _. by apply quiet_storage.
Qed.

Lemma runs (R : gset Z) (os : list operation) : forall h s l n,
  stored R h s l -> len l = n * valueSize s -> all_fit (valueSize s) n os = true ->
  exists h' k l' outs, run h s os = Ok (h', set_cache k s, outs) /\ run_means (valueSize s) l os l' outs /\ stored R h' (set_cache k s) l' /\ undisturbed R h h' s.
Proof.
  induction os as [|o os IH]; intros h s l n St El Hf; cbn [run all_fit] in *.
  - exists h, (cacheNode s), l, []. split_and!; [by destruct s|constructor|by destruct s|by intros ?].
  - apply andb_true_iff in Hf as [Ho Hf]. pose proof (so_size _ _ _ _ (st_storage _ _ _ _ St)) as Hv.
    destruct (perform_ok R h s l n o St El Ho) as (h1 & c & l1 & out & -> & Hm & St1 & Ud). cbn [mbind result_bind].
    destruct (IH h1 (set_cache c s) l1 (count_after n o)) as (h2 & c2 & l2 & outs & -> & Hr & St2 & Ud2); [done|by eapply means_length|done|].
    cbn [mbind result_bind]. exists h2, c2, l2, (out :: outs). split_and!; [done|by econstructor|done|]. intros s2 l3 N So2. apply Ud2; [done|]. by apply Ud.
Qed.

(** C13. On a heap without shared nodes every sequence of insertions, deletions, replacements and reads
    whose ranges fit succeeds and refines the same operations on the list of bytes of the storage: the
    tree is split and merged, nodes are freed and the cached leaf is followed without changing a byte
    that the operation does not name, and the other storages keep theirs. *)
Theorem run_ok (R : gset Z) (h : heap) (s : CFStorage) (l : list cell) (n : Z) (os : list operation) :
  stored R h s l -> len l = n * valueSize s -> all_fit (valueSize s) n os = true ->
  exists h' k l' outs, run h s os = Ok (h', set_cache k s, outs) /\ run_means (valueSize s) l os l' outs /\ stored R h' (set_cache k s) l' /\
    (forall s2 l2, rootNode s2 <> rootNode s -> storage_ok R h s2 l2 -> storage_ok R h' s2 l2).
Proof. apply runs. Qed.

(** A new storage. *)
Lemma created (R : gset Z) (h : heap) (vs : Z) : world R h -> unshared (h_nodes h) -> 0 < vs <= kMaxLeafCapacity ->
  let '(h', s) := CFStorageCreate h vs in stored ({[rootNode s]} ∪ R) h' s [] /\ valueSize s = vs.
Proof.
  intros W U Hv. pose proof (create_ok R h W vs Hv) as C. pose proof (create_edges R h W) as E. unfold CFStorageCreate in *. destruct C as (W' & So & Ev & _). split; [|done].
  split; [done|intros y; specialize (U y); rewrite <- E in U; exact U|done|by left].
Qed.

(** A storage that [CFStorageCreate] has just made, followed by any sequence of operations
    that fit, holds what the same operations on the empty list give. *)
Theorem created_run_ok (R : gset Z) (h : heap) (vs : Z) (os : list operation) :
  world R h -> unshared (h_nodes h) -> 0 < vs <= kMaxLeafCapacity -> all_fit vs 0 os = true ->
  exists h' s' l' outs, (let '(h, s) := CFStorageCreate h vs in run h s os) = Ok (h', s', outs) /\ run_means vs [] os l' outs /\ stored ({[rootNode s']} ∪ R) h' s' l'.
Proof.
  intros W U Hv Hf. pose proof (created R h vs W U Hv) as C. destruct (CFStorageCreate h vs) as [h1 s]. destruct C as [St Ev]. rewrite <- Ev in Hf.
  destruct (runs _ os h1 s [] 0 St) as (h' & k & l' & outs & E & Hm & St' & _); [cbn; lia|done|]. rewrite Ev in Hm. by exists h', (set_cache k s), l', outs.
Qed.

Theorem store_roundtrip (R : gset Z) (h : heap) (s : CFStorage) (l values : list cell) (count loc n : Z) :
  stored R h s l -> len l = count * valueSize s -> 0 <= loc <= count -> 0 <= n -> len values = n * valueSize s ->
  let r := CFRangeMake loc n in
  exists h' k, run h s [Insert r; Replace r values; Get r; Delete r; Get (CFRangeMake 0 count)] = Ok (h', set_cache k s, [[]; []; values; []; l]) /\
    stored R h' (set_cache k s) l.
Proof.
  intros St El Hl Hn Ev r. pose proof (so_size _ _ _ _ (st_storage _ _ _ _ St)) as Hv.
  destruct (runs R [Insert r; Replace r values; Get r; Delete r; Get (CFRangeMake 0 count)] h s l count St El) as (h' & k & l' & outs & -> & Hm & St' & _).
  { cbn [all_fit fits count_after r location rlength]. rewrite !andb_true_iff, !Z.leb_le, Z.eqb_eq. lia. }
  exists h', k. do 5 (inversion Hm as [|? ? ? ? ? ? ? M1 Hm']; subst; clear Hm; rename Hm' into Hm; inversion M1; subst; clear M1). inversion Hm; subst.
  set (b := Z.to_nat (loc * valueSize s)). assert (Lb : length (take b l) = b) by (rewrite length_take; unfold b; nia).
  assert (E1 : forall x : list cell, length x = Z.to_nat (n * valueSize s) -> drop (Z.to_nat ((loc + n) * valueSize s)) (take b l ++ x ++ drop b l) = drop b l).
  { intros x Lx. rewrite app_assoc, drop_app_length' by (rewrite length_app; unfold b in *; nia). done. }
  assert (E2 : forall x : list cell, take b (take b l ++ x) = take b l) by (intros x; by rewrite take_app_length').
  fold b in St' |- *. rewrite !E2, !E1, take_drop in St' |- * by lia. split; [|done]. do 2 f_equal. change (0 * valueSize s) with 0. change (Z.to_nat 0) with 0%nat.
  rewrite drop_0, (take_ge l (Z.to_nat (count * valueSize s))) by lia. do 3 f_equal. rewrite drop_app_length' by done. by rewrite take_app_length' by lia.
Qed.

(** ** Evaluation *)

Definition unshared_check (h : heap) : bool := forallb (fun y => (occ y (edges (h_nodes h)) <? 2)%nat) (edges (h_nodes h)).

Lemma unshared_check_ok (h : heap) : unshared_check h = true -> unshared (h_nodes h).
Proof.
  unfold unshared_check. rewrite forallb_forall. intros H y. destruct (decide (y ∈ edges (h_nodes h))) as [Hy|Hy]; [|apply occ_zero in Hy; lia].
  apply list_elem_of_In, H in Hy. by apply Nat.ltb_lt in Hy.
Qed.

(** One storage with two leaves. *)
Module Single.

Definition leaf_node (l : list Z) : CFStorageNode := mkNode (len l) 1 false (Leaf 0 (Some (map Some l)) (CFRangeMake 0 0)).
Definition root_node : CFStorageNode := mkNode 5 0 false (Branch 2 3 0).
Definition h0 : heap := mkHeap (<[1 := root_node]> (<[2 := leaf_node [10; 11; 12]]> {[3 := leaf_node [13; 14]]})) 4.
Definition R0 : gset Z := {[1]}.
Definition store : CFStorage := mkStorage 1 (Some 0) false 0 kMaxLeafCapacity 1.
Definition bytes0 : list cell := map Some [10; 11; 12; 13; 14].

Lemma stored0 : stored R0 h0 store bytes0.
Proof.
  split; [apply world_check_ok; vm_compute; reflexivity|apply unshared_check_ok; vm_compute; reflexivity| |by left].
  split; cbn [rootNode valueSize maxLeafCapacity store]; [unfold R0; set_solver|lia|unfold shifter_ok; cbn; lia|unfold kMaxLeafCapacity; lia|apply Z.divide_1_l|].
  assert (L : forall a l, h_nodes h0 !! a = Some (leaf_node l) -> len l <= 12288 -> tree kMaxLeafCapacity 1 0 (h_nodes h0) a (map Some l)).
  { intros a l Ha Hl. apply (tree_leaf _ _ _ _ _ _ (leaf_node l) Ha). exists 0, (Some (map Some l)), (CFRangeMake 0 0). cbn. rewrite length_map.
    unfold kMaxLeafCapacity. split_and!; [done|lia|by left|lia|lia|apply Z.divide_1_l|]. by rewrite take_ge by (rewrite length_map; lia). }
  exists 1%nat. change bytes0 with (concat [map Some [10; 11; 12]; map Some [13; 14]]). apply (tree_branch _ _ _ _ _ root_node [2; 3]).
  - done.
  - by exists 2, 3, 0.
  - done.
  - repeat constructor; try done; apply L; done.
Qed.

End Single.

Lemma CFStorageDeleteValues_ok_witness : exists h', CFStorageDeleteValues Single.h0 Single.store (CFRangeMake 1 3) = Ok (h', Single.store) /\
  storage_ok Single.R0 h' Single.store (map Some [10; 14]).
Proof.
  destruct Single.stored0 as [W U So _].
  destruct (CFStorageDeleteValues_ok Single.R0 Single.h0 Single.store Single.bytes0 (CFRangeMake 1 3) W U So) as (h' & E & _ & _ & So' & _); [cbn; lia..|].
  exists h'. split; [exact E|exact So'].
Defined.

Lemma CFStorageDeallocate_ok_witness : exists h', CFStorageDeallocate Sample.h0 (Sample.store 1) = Ok h' /\
  world (Sample.R0 ∖ {[1]}) h' /\ storage_ok (Sample.R0 ∖ {[1]}) h' (Sample.store 2) Sample.bytes0.
Proof.
  destruct (CFStorageDeallocate_ok Sample.R0 Sample.h0 (Sample.store 1) Sample.bytes0 Sample.world0 (Sample.storage0 1 (or_introl eq_refl))) as (h' & E & W & _ & U).
  exists h'. split_and!; [exact E|exact W|]. apply U; [discriminate|]. apply Sample.storage0. by right.
Defined.

(** A range is deleted up to the last value, one is put in front, and three are read. *)
Lemma run_ok_witness : exists h' k l' outs,
  run Single.h0 Single.store [Delete (CFRangeMake 1 4); Insert (CFRangeMake 0 2); Replace (CFRangeMake 0 2) [Some 7; Some 8]; Get (CFRangeMake 0 3)] = Ok (h', set_cache k Single.store, outs) /\
  run_means 1 Single.bytes0 [Delete (CFRangeMake 1 4); Insert (CFRangeMake 0 2); Replace (CFRangeMake 0 2) [Some 7; Some 8]; Get (CFRangeMake 0 3)] l' outs.
Proof.
  destruct (run_ok Single.R0 Single.h0 Single.store Single.bytes0 5
    [Delete (CFRangeMake 1 4); Insert (CFRangeMake 0 2); Replace (CFRangeMake 0 2) [Some 7; Some 8]; Get (CFRangeMake 0 3)] Single.stored0 eq_refl eq_refl)
    as (h' & k & l' & outs & E & Hm & _). exists h', k, l', outs. split; [exact E|exact Hm].
Defined.

Lemma created_run_ok_witness : exists h' s' l' outs,
  (let '(h, s) := CFStorageCreate Single.h0 4 in run h s [Insert (CFRangeMake 0 1); Replace (CFRangeMake 0 1) [Some 1; Some 2; Some 3; Some 4]; Get (CFRangeMake 0 1)]) = Ok (h', s', outs) /\
  stored ({[rootNode s']} ∪ Single.R0) h' s' l'.
Proof.
  destruct Single.stored0 as [W U _ _].
  destruct (created_run_ok Single.R0 Single.h0 4 [Insert (CFRangeMake 0 1); Replace (CFRangeMake 0 1) [Some 1; Some 2; Some 3; Some 4]; Get (CFRangeMake 0 1)] W U) as (h' & s' & l' & outs & E & _ & St);
    [unfold kMaxLeafCapacity; lia|reflexivity|]. exists h', s', l', outs. split; [exact E|exact St].
Defined.

Lemma store_roundtrip_witness : exists h' k,
  run Single.h0 Single.store [Insert (CFRangeMake 3 2); Replace (CFRangeMake 3 2) [Some 7; Some 8]; Get (CFRangeMake 3 2); Delete (CFRangeMake 3 2); Get (CFRangeMake 0 5)] =
    Ok (h', set_cache k Single.store, [[]; []; [Some 7; Some 8]; []; Single.bytes0]).
Proof.
  destruct (store_roundtrip Single.R0 Single.h0 Single.store Single.bytes0 [Some 7; Some 8] 5 3 2 Single.stored0 eq_refl) as (h' & k & E & _); [lia|lia|reflexivity|].
  exists h', k. exact E.
Defined.

(** The leaf with the room is the cached one; the first leaf went when its bytes did. *)
Example run_example : exists h' s',
  run Single.h0 Single.store [Delete (CFRangeMake 0 3); Get (CFRangeMake 0 2); Delete (CFRangeMake 0 2); Get (CFRangeMake 0 0)] = Ok (h', s', [[]; [Some 13; Some 14]; []; []]) /\
    map_to_list (h_nodes h') = [(1, mkNode 0 0 false (Leaf 0 None (CFRangeMake 0 0)))].
Proof. eexists _, _. split; vm_compute; reflexivity. Qed.

End StorageRun.
