(* ===== verification/StorageDefects.v ===== *)
(** * Runs that CFStorage.c gets wrong

    Each run starts from a storage that satisfies the invariant (or a new one) and uses the
    public operations only.  The cached range is a field of the leaf although the leaf may
    be shared; the cache is trusted to be writable by the mark of the leaf, although the
    marks of its ancestors count; [CFStorageDeleteValues] shares grandchildren without
    marking them; an insertion splits a shared leaf that has no block; and a value larger
    than a leaf makes the insertion loop forever. *)

From stdpp Require Import base list numbers option gmap relations.
From Stdlib Require Import ZArith Lia.
From S2P Require Import Prelude Storage StorageHeap StorageTree StorageLeaf StorageValues StorageWorld.
Import Storage StorageHeap StorageTree StorageLeaf StorageValues StorageWorld.

Module StorageDefects.

(** Four values of one byte in a tree of height two. *)
Definition leaf1 (v : Z) : CFStorageNode := mkNode 1 1 false (Leaf 1 (Some [Some v]) (CFRangeMake 0 0)).
Definition deep : heap := mkHeap (list_to_map
  [(1, mkNode 4 0 false (Branch 2 3 0)); (2, mkNode 2 1 false (Branch 4 5 0)); (3, mkNode 2 1 false (Branch 6 7 0));
   (4, leaf1 10); (5, leaf1 11); (6, leaf1 12); (7, leaf1 13)]) 8.
Definition first : CFStorage := mkStorage 1 (Some 0) false 0 kMaxLeafCapacity 1.

Lemma deep_ok : world {[1]} deep /\ storage_ok {[1]} deep first (map Some [10; 11; 12; 13]).
Proof.
  split; [apply world_check_ok; vm_compute; reflexivity|].
  split; cbn [rootNode valueSize maxLeafCapacity first]; [set_solver|lia|unfold shifter_ok; cbn; lia|unfold kMaxLeafCapacity; lia|apply Z.divide_1_l|].
  assert (L : forall a v, h_nodes deep !! a = Some (leaf1 v) -> tree kMaxLeafCapacity 1 0 (h_nodes deep) a [Some v]).
  { intros a v Ha. apply (tree_leaf _ _ _ _ _ _ (leaf1 v) Ha). exists 1, (Some [Some v]), (CFRangeMake 0 0). cbn. unfold kMaxLeafCapacity.
    split_and!; [done|lia|by right|lia|lia|apply Z.divide_1_l|done]. }
  assert (B : forall a c1 c2 v1 v2, h_nodes deep !! a = Some (mkNode 2 1 false (Branch c1 c2 0)) -> c1 <> 0 -> c2 <> 0 -> h_nodes deep !! c1 = Some (leaf1 v1) ->
    h_nodes deep !! c2 = Some (leaf1 v2) -> tree kMaxLeafCapacity 1 1 (h_nodes deep) a [Some v1; Some v2]).
  { intros a c1 c2 v1 v2 Ha N1 N2 H1 H2. apply (tree_branch _ _ _ _ _ _ [c1; c2] [[Some v1]; [Some v2]] Ha); [by exists c1, c2, 0|done|]. repeat constructor; try done; by apply L. }
  exists 2%nat. apply (tree_branch _ _ _ _ _ (mkNode 4 0 false (Branch 2 3 0)) [2; 3] [[Some 10; Some 11]; [Some 12; Some 13]]); [done|by exists 2, 3, 0|done|].
  repeat constructor; try done; [by apply (B 2 4 5)|by apply (B 3 6 7)].
Qed.

(** The value at an index. *)
Definition get1 (h : heap) (s : CFStorage) (i : Z) : result (heap * CFStorage * list cell) := CFStorageGetValues h s (CFRangeMake i 1).

(** [A] reads its value 2; its copy from index 1 reads the same leaf; then [A] at index 1. *)
Definition run_cache : result (list cell) :=
  '(h, a, _) ← get1 deep first 2;
  '(h, r) ← CFStorageCreateWithSubrange h a (CFRangeMake 1 3);
  '(h, r, _) ← get1 h r 1;
  '(h, a, v) ← get1 h a 1;
  Ok v.

(** The value before the copy was read. *)
Example cache_before : ('(h, a, _) ← get1 deep first 2; '(h, r) ← CFStorageCreateWithSubrange h a (CFRangeMake 1 3); '(h, a, v) ← get1 h a 1; Ok v) = Ok [Some 11].
Proof. vm_compute. reflexivity. Qed.

(** Two storages share a leaf at different positions: after the second has been read, the
    first returns the value at position 2 for position 1. *)
Theorem cached_range_is_shared : run_cache = Ok [Some 12].
Proof. vm_compute. reflexivity. Qed.

(** [A] has read its first leaf; it is copied and writes its first value. *)
Definition run_write : result (list cell) :=
  '(h, a, _) ← get1 deep first 0;
  '(h, r) ← CFStorageCreateWithSubrange h a (CFRangeMake 0 4);
  '(h, a) ← CFStorageReplaceValues h a (CFRangeMake 0 1) [Some 99];
  '(h, r, v) ← get1 h r 0;
  Ok v.

(** A write through the cache of a leaf below a shared branch is seen by the copy. *)
Theorem cached_write_reaches_copy : run_write = Ok [Some 99].
Proof. vm_compute. reflexivity. Qed.

(** Without the first read the write does not reach the copy. *)
Example uncached_write_is_private :
  ('(h, r) ← CFStorageCreateWithSubrange deep first (CFRangeMake 0 4);
   '(h, a) ← CFStorageReplaceValues h first (CFRangeMake 0 1) [Some 99];
   '(h, r, v) ← get1 h r 0; Ok v) = Ok [Some 10].
Proof. vm_compute. reflexivity. Qed.

(** The copy deletes its second half and writes its first value. *)
Definition run_delete : result (list cell) :=
  '(h, r) ← CFStorageCreateWithSubrange deep first (CFRangeMake 0 4);
  '(h, r) ← CFStorageDeleteValues h r (CFRangeMake 2 2);
  '(h, r) ← CFStorageReplaceValues h r (CFRangeMake 0 1) [Some 99];
  '(h, a, v) ← get1 h first 0;
  Ok v.

(** A deletion in a copy leaves nodes that both share without a mark: a write to the
    copy reaches the original. *)
Theorem deletion_shares_unfrozen : run_delete = Ok [Some 99].
Proof. vm_compute. reflexivity. Qed.

(** Nine values in three leaves that nothing was written to; a copy; an insertion. *)
Definition run_insert : result (heap * CFStorage) :=
  let '(h, a) := CFStorageCreate (mkHeap ∅ 1) 4096 in
  '(h, a) ← CFStorageInsertValues h a (CFRangeMake 0 9);
  '(h, r) ← CFStorageCreateWithSubrange h a (CFRangeMake 0 9);
  CFStorageInsertValues h a (CFRangeMake 1 1).

(** Inserting into the middle of a shared leaf without a block reads through the null block. *)
Theorem insertion_reads_null_block : run_insert = Undef.
Proof. vm_compute. reflexivity. Qed.

(** ** Values larger than a leaf *)

Definition blank (n : CFStorageNode) : Prop := numBytes n = 0 /\ exists r, info n = Leaf 0 None r.

Lemma insert_loop_stuck (fuel : nat) : forall h s n b node,
  maxLeafCapacity s = 0 -> rootNode s <> 0 -> 0 < n -> h_nodes h !! rootNode s = Some node -> blank node -> insert_loop fuel h s n b = NoFuel.
Proof.
  induction fuel as [|fuel IH]; intros h s n b node HM Nr Hn Hl [Eb [r Ei]]; cbn [insert_loop]; destruct (Z.leb_spec n 0); try lia; [done|].
  rewrite HM, Z.min_r by lia. unfold CFStorageInsertUnfrozen. rewrite (load_Ok h _ node Hl). cbn [mbind result_bind]. unfold isLeaf. rewrite Ei.
  unfold CFStorageInsertLeafUnfrozen. rewrite (load_Ok h _ node Hl). cbn [mbind result_bind]. rewrite Ei, HM, Eb. cbn [Z.add Z.ltb Z.compare mbind result_bind].
  rewrite (load_Ok h _ node Hl). cbn [mbind result_bind]. erewrite set_cache_leaf; [|done|apply lookup_insert_eq|cbn; exact Ei]. cbn [mbind result_bind Z.eqb].
  rewrite put_put. eapply IH; [done|done|lia|apply lookup_insert_eq|]. split; [done|]. by eexists.
Qed.

(** C40. With a value size above 12288 bytes the leaf capacity is 0, so the loop of
    CFStorageInsertValues inserts nothing in each turn and never ends: no amount of fuel gives a result. *)
Theorem large_values_never_inserted (h : heap) (vs count : Z) (fuel : nat) :
  0 < h_next h -> kMaxLeafCapacity < vs -> 0 < count ->
  let '(h', s) := CFStorageCreate h vs in
  insert_loop fuel h' s (CFStorageConvertValueToByte s count) 0 = NoFuel.
Proof.
  intros Hx Hv Hc. unfold CFStorageCreate, kMaxLeafCapacity in *. eapply insert_loop_stuck; [cbn| cbn; lia| |apply lookup_insert_eq|by split; [|eexists]].
  - destruct (Z.eqb_spec vs 0); [lia|]. rewrite Z.rem_mod_nonneg, Z.quot_div_nonneg by lia. rewrite Z.mod_small by lia. cbn. by rewrite Z.div_small by lia.
  - unfold CFStorageConvertValueToByte. cbn [byteToValueShifter valueSize]. destruct (_ && _); [|nia]. rewrite Z.shiftl_mul_pow2 by apply Z.log2_nonneg.
    pose proof (Z.pow_pos_nonneg 2 (Z.log2 vs) ltac:(lia) (Z.log2_nonneg vs)). nia.
Qed.

Lemma large_values_never_inserted_witness :
  let '(h', s) := CFStorageCreate (mkHeap ∅ 1) 12289 in insert_loop 1000 h' s (CFStorageConvertValueToByte s 1) 0 = NoFuel.
Proof. apply (large_values_never_inserted (mkHeap ∅ 1) 12289 1 1000); [reflexivity|reflexivity|lia]. Defined.

End StorageDefects.
