(* ===== verification/BinaryPList.v ===== *)
(** * CFBinaryPList.c: binary property lists

    A binary property list is a header, a table of objects, a table of the offsets of the
    objects and a trailer of 32 bytes.  Containers refer to their elements by indices into
    the table of offsets.

    Reader.  A file is a [region]: an address and the bytes there; pointers are addresses,
    and a load outside the region is [Undef].  A function that can FAIL_FALSE returns
    [Ok None] there.  [objects], the dictionary of the objects that have been created, maps
    offsets to property lists; [set], the offsets on the path to an object, is a finite set.
    Both have pointer callbacks, so they compare offsets.  The [plist] that is created is a
    tree; its dictionaries and sets are the lists of the keys and values that they are
    created with.  [keyPaths] is NULL.

    Writer.  Objects have addresses in an object [store], because the writer tells them
    apart by address; a [wbuf] is the buffer in front of the stream.

    Allocation succeeds and CFNumberCreate gives the same value, whether cached or not.
    Floating point numbers are their bits. *)

From stdpp Require Import base list numbers option gmap.
From Stdlib Require Import ZArith Lia.
From S2P Require Import Prelude.

Module BinaryPList.

(** Results of functions that may FAIL_FALSE. *)
Definition obind {A B} (m : result (option A)) (f : A -> result (option B)) : result (option B) :=
  o ← m; match o with Some a => f a | None => Ok None end.
Notation "x ⇐ y ; z" := (obind y (fun x => z)) (at level 20, y at level 100, z at level 200, only parsing).
Notation "' x ⇐ y ; z" := (obind y (fun x => z)) (at level 20, x pattern, y at level 100, z at level 200, only parsing).

Abbreviation FAIL_FALSE := (Ok None).

Definition ULLONG_MAX : Z := 2 ^ 64 - 1.
Definition LONG_MAX : Z := 2 ^ 63 - 1.
Definition UINT32_MAX : Z := 2 ^ 32 - 1.

(** ** Markers and the trailer *)

Definition kMarkerNull : Z := 0x00.
Definition kMarkerFalse : Z := 0x08.
Definition kMarkerTrue : Z := 0x09.
Definition kMarkerInt : Z := 0x10.
Definition kMarkerReal : Z := 0x20.
Definition kMarkerDate : Z := 0x33.
Definition kMarkerData : Z := 0x40.
Definition kMarkerASCIIString : Z := 0x50.
Definition kMarkerUnicode16String : Z := 0x60.
Definition kMarkerUID : Z := 0x80.
Definition kMarkerArray : Z := 0xA0.
Definition kMarkerSet : Z := 0xC0.
Definition kMarkerDict : Z := 0xD0.

Record CFBinaryPlistTrailer : Type := mkTrailer {
  t_unused : list Z;
  t_sortVersion : Z;
  t_offsetIntSize : Z;
  t_objectRefSize : Z;
  t_numObjects : Z;
  t_topObject : Z;
  t_offsetTableOffset : Z
}.

Definition sizeof_trailer : Z := 32.

(** ** Property lists *)

(** [struct __CFNumber]: the integers with 64 bits, the 128-bit integers and the bits of
    the two floating point types. *)
Inductive number : Type :=
| SInt64 (v : Z)
| SInt128 (high low : Z)
| Float32 (bits : Z)
| Float64 (bits : Z).

(** The flag of a leaf or container tells whether it is mutable. *)
Inductive plist : Type :=
| PNull
| PBool (b : bool)
| PNumber (n : number)
| PDate (bits : Z)
| PData (mutable : bool) (l : list Z)
| PString (mutable : bool) (chars : list Z)
| PUID (v : Z)
| PArray (mutable : bool) (l : list plist)
| PSet (mutable : bool) (l : list plist)
| PDict (mutable : bool) (l : list (plist * plist)).

(** [kCFPropertyListImmutable], [kCFPropertyListMutableContainers] and
    [kCFPropertyListMutableContainersAndLeaves]. *)
Inductive mutability : Type := Immutable | MutableContainers | MutableContainersAndLeaves.
#[export] Instance mutability_eq_dec : EqDecision mutability.
Proof. solve_decision. Defined.

Definition containers_mutable (o : mutability) : bool := negb (bool_decide (o = Immutable)).
Definition leaves_mutable (o : mutability) : bool := bool_decide (o = MutableContainersAndLeaves).

Definition BITSFORDOUBLENAN : Z := 0x7ff8000000000000.
Definition BITSFORDOUBLEPOSINF : Z := 0x7ff0000000000000.
Definition BITSFORDOUBLENEGINF : Z := 0xfff0000000000000.

(** [CFNumberCreate] for the floating point types: the numbers that are not finite are
    constants of type double. *)
Definition CFNumberCreateFloat32 (bits : Z) : number :=
  if Z.land (Z.shiftr bits 23) 0xff =? 0xff then
    if negb (Z.land bits (2 ^ 23 - 1) =? 0) then Float64 BITSFORDOUBLENAN
    else if Z.testbit bits 31 then Float64 BITSFORDOUBLENEGINF else Float64 BITSFORDOUBLEPOSINF
  else Float32 bits.

Definition CFNumberCreateFloat64 (bits : Z) : number :=
  if Z.land (Z.shiftr bits 52) 0x7ff =? 0x7ff then
    if negb (Z.land bits (2 ^ 52 - 1) =? 0) then Float64 BITSFORDOUBLENAN
    else if Z.testbit bits 63 then Float64 BITSFORDOUBLENEGINF else Float64 BITSFORDOUBLEPOSINF
  else Float64 bits.

(** ** Bytes of integers *)

(** The bytes of an n-byte integer in memory, and back; a swap reverses them. *)
Fixpoint le_bytes (n : nat) (v : Z) : list Z :=
  match n with O => [] | S n => v mod 256 :: le_bytes n (v / 256) end.

Fixpoint le_value (l : list Z) : Z :=
  match l with [] => 0 | b :: l => b + 256 * le_value l end.

Definition swap_bytes (n : nat) (v : Z) : Z := le_value (reverse (le_bytes n v)).

(** ** Memory *)

Record region : Type := mkRegion { databytes : Z; contents : list Z }.

Definition datalen (r : region) : Z := Z.of_nat (length (contents r)).

Definition load8 (r : region) (p : Z) : result Z := aget (contents r) (p - databytes r).

Fixpoint loads (r : region) (p : Z) (n : nat) : result (list Z) :=
  match n with
  | O => Ok []
  | S n => b ← load8 r p; l ← loads r (p + 1) n; Ok (b :: l)
  end.

(** ** Checked arithmetic *)

Definition check_uint64_add (x y : Z) (err : bool) : Z * bool :=
  (u64 (x + y), if ULLONG_MAX - y <? x then true else err).

Definition check_uint64_mul (x y : Z) (err : bool) : Z * bool :=
  if x =? 0 then (0, err) else (u64 (x * y), if ULLONG_MAX / x <? y then true else err).

(** ** Reading *)

(** The loop of [_getSizedInt]. *)
Fixpoint sized_loop (r : region) (data : Z) (n : nat) (res : Z) : result Z :=
  match n with
  | O => Ok res
  | S n => b ← load8 r data; sized_loop r (data + 1) n (u64 (u64 (Z.shiftl res 8) + b))
  end.

Definition getSizedInt (r : region) (data valSize : Z) : result Z :=
  if (valSize =? 1) || (valSize =? 2) || (valSize =? 4) || (valSize =? 8) then
    l ← loads r data (Z.to_nat valSize); Ok (swap_bytes (Z.to_nat valSize) (le_value l))
  else sized_loop r data (Z.to_nat valSize) 0.

(** The loop that compares each offset with the largest one. *)
Fixpoint offsets_fit (r : region) (bytesptr size maxOffset : Z) (n : nat) : result (option unit) :=
  match n with
  | O => Ok (Some tt)
  | S n =>
    off ← getSizedInt r bytesptr size;
    if maxOffset <? off then FAIL_FALSE else offsets_fit r (bytesptr + size) size maxOffset n
  end.

(** The 32 bytes of a trailer, the integers swapped. *)
Definition trailer_of (l : list Z) : CFBinaryPlistTrailer :=
  mkTrailer (take 5 l) (nth 5 l 0) (nth 6 l 0) (nth 7 l 0)
    (swap_bytes 8 (le_value (take 8 (drop 8 l)))) (swap_bytes 8 (le_value (take 8 (drop 16 l))))
    (swap_bytes 8 (le_value (take 8 (drop 24 l)))).

(** "bplist0". *)
Definition magic : list Z := [98; 112; 108; 105; 115; 116; 48].

(** The tests of [__CFBinaryPlistGetTopLevelInfo] on the trailer, up to the table of
    offsets; the size of the table. *)
Definition trailer_fails (r : region) (trail : CFBinaryPlistTrailer) : bool :=
  (LONG_MAX <? t_numObjects trail) || (LONG_MAX <? t_offsetTableOffset trail) ||
  (t_numObjects trail <? 1) || (t_numObjects trail <=? t_topObject trail) ||
  (t_offsetTableOffset trail <? 9) || (datalen r - sizeof_trailer <=? t_offsetTableOffset trail) ||
  (t_offsetIntSize trail <? 1) || (t_objectRefSize trail <? 1) ||
  let '(offsetTableSize, err) := check_uint64_mul (t_numObjects trail) (t_offsetIntSize trail) false in
  err || (offsetTableSize <? 1) ||
  let objectDataSize := t_offsetTableOffset trail - 8 in
  let '(tmpSum, err) := check_uint64_add 8 objectDataSize err in
  let '(tmpSum, err) := check_uint64_add tmpSum offsetTableSize err in
  let '(tmpSum, err) := check_uint64_add tmpSum sizeof_trailer err in
  err || negb (datalen r =? tmpSum) ||
  ((t_objectRefSize trail <? 8) && (Z.shiftl 1 (8 * t_objectRefSize trail) <=? t_numObjects trail)) ||
  ((t_offsetIntSize trail <? 8) && (Z.shiftl 1 (8 * t_offsetIntSize trail) <=? t_offsetTableOffset trail)) ||
  let '(_, err) := check_uint64_add (databytes r) 8 err in
  err ||
  let '(offsetsFirstByte, err) := check_uint64_add (databytes r) (t_offsetTableOffset trail) err in
  err ||
  let '(_, err) := check_uint64_add offsetsFirstByte (offsetTableSize - 1) err in
  err.

Definition CFBinaryPlistGetTopLevelInfo (r : region) : result (option (Z * Z * CFBinaryPlistTrailer)) :=
  if (databytes r =? 0) || (datalen r <? sizeof_trailer + 8 + 1) then FAIL_FALSE else
  m ← loads r (databytes r) 7;
  if negb (bool_decide (m = magic)) then FAIL_FALSE else
  l ← loads r (databytes r + datalen r - sizeof_trailer) 32;
  let trail := trailer_of l in
  if trailer_fails r trail then FAIL_FALSE else
  let bytesptr := databytes r + t_offsetTableOffset trail in
  let maxOffset := t_offsetTableOffset trail - 1 in
  _ ⇐ offsets_fit r bytesptr (t_offsetIntSize trail) maxOffset (Z.to_nat (t_numObjects trail));
  let bytesptr := databytes r + t_offsetTableOffset trail + t_topObject trail * t_offsetIntSize trail in
  off ← getSizedInt r bytesptr (t_offsetIntSize trail);
  if (off <? 8) || (t_offsetTableOffset trail <=? off) then FAIL_FALSE else
  marker ← load8 r (databytes r + off);
  Ok (Some (marker, off, trail)).

Definition plistIsPrimitive (pl : plist) : bool :=
  match pl with PArray _ _ | PSet _ _ | PDict _ _ => false | _ => true end.

Definition readInt (r : region) (ptr end_byte_ptr : Z) : result (option (Z * Z)) :=
  if end_byte_ptr <? ptr then FAIL_FALSE else
  marker ← load8 r ptr;
  let ptr := ptr + 1 in
  if negb (Z.land marker 0xf0 =? kMarkerInt) then FAIL_FALSE else
  let cnt := Z.shiftl 1 (Z.land marker 0x0f) in
  let '(extent, err) := check_uint64_add ptr cnt false in
  if err then FAIL_FALSE else
  if end_byte_ptr <? extent - 1 then FAIL_FALSE else
  bigint ← getSizedInt r ptr (u8 cnt);
  Ok (Some (bigint, ptr + cnt)).

(** UINT64_MAX for FAIL_MAXOFFSET. *)
Definition getOffsetOfRefAt (r : region) (bytesptr : Z) (trailer : CFBinaryPlistTrailer) : result Z :=
  let objectsFirstByte := databytes r + 8 in
  let offsetsFirstByte := databytes r + t_offsetTableOffset trailer in
  if (bytesptr <? objectsFirstByte) || (offsetsFirstByte - t_objectRefSize trailer <? bytesptr) then Ok ULLONG_MAX else
  ref ← getSizedInt r bytesptr (t_objectRefSize trailer);
  if t_numObjects trailer <=? ref then Ok ULLONG_MAX else
  getSizedInt r (databytes r + t_offsetTableOffset trailer + ref * t_offsetIntSize trailer) (t_offsetIntSize trailer).

Definition objectsRangeStart : Z := 8.
Definition objectsRangeEnd (trailer : CFBinaryPlistTrailer) : Z := t_offsetTableOffset trailer - 1.

(** The count in the low bits of a marker or in the integer behind it, and the pointer to
    what follows. *)
Definition read_count (r : region) (trailer : CFBinaryPlistTrailer) (marker ptr : Z) : result (option (Z * Z)) :=
  let '(ptr, err) := check_uint64_add ptr 1 false in
  if err then FAIL_FALSE else
  let cnt := Z.land marker 0x0f in
  if cnt =? 0xf then
    '(bigint, ptr) ⇐ readInt r ptr (databytes r + objectsRangeEnd trailer);
    if LONG_MAX <? bigint then FAIL_FALSE else Ok (Some (bigint, ptr))
  else Ok (Some (cnt, ptr)).

(** The test that [cnt] bytes from [ptr] on end before the table of offsets. *)
Definition past_objects (r : region) (trailer : CFBinaryPlistTrailer) (ptr cnt : Z) : bool :=
  let '(extent, err) := check_uint64_add ptr cnt false in
  err || (databytes r + objectsRangeEnd trailer <? extent - 1).

Abbreviation cache := (gmap Z plist).

(** CFDictionarySetValue on [objects], if there is one and [c] holds. *)
Definition remember (objects : option cache) (c : bool) (startOffset : Z) (pl : plist) : option cache :=
  if c then insert startOffset pl <$> objects else objects.

(** An object of [n] bytes behind its marker that [k] makes from the bytes. *)
Definition fixed_size (r : region) (trailer : CFBinaryPlistTrailer) (startOffset n : Z) (k : list Z -> plist) : result (option plist) :=
  let '(ptr, err) := check_uint64_add (databytes r + startOffset) 1 false in
  if err then FAIL_FALSE else
  if past_objects r trailer ptr n then FAIL_FALSE else
  l ← loads r ptr (Z.to_nat n);
  Ok (Some (k l)).

Definition create_int (r : region) (trailer : CFBinaryPlistTrailer) (startOffset marker : Z) : result (option plist) :=
  let '(ptr, err) := check_uint64_add (databytes r + startOffset) 1 false in
  if err then FAIL_FALSE else
  let cnt := Z.shiftl 1 (Z.land marker 0x0f) in
  if past_objects r trailer ptr cnt then FAIL_FALSE else
  if 16 <? cnt then FAIL_FALSE else
  bigint ← getSizedInt r ptr (u8 cnt);
  Ok (Some (PNumber (if 8 <? cnt then SInt128 0 bigint else SInt64 (s64 bigint)))).

Definition create_uid (r : region) (trailer : CFBinaryPlistTrailer) (startOffset marker : Z) : result (option plist) :=
  let '(ptr, err) := check_uint64_add (databytes r + startOffset) 1 false in
  if err then FAIL_FALSE else
  let cnt := Z.land marker 0x0f + 1 in
  if past_objects r trailer ptr cnt then FAIL_FALSE else
  bigint ← getSizedInt r ptr (u8 cnt);
  if UINT32_MAX <? bigint then FAIL_FALSE else Ok (Some (PUID bigint)).

(** Data and ASCII strings; CFStringCreateWithBytes makes a character of each byte. *)
Definition create_bytes (r : region) (trailer : CFBinaryPlistTrailer) (startOffset marker : Z) (k : list Z -> plist) : result (option plist) :=
  '(cnt, ptr) ⇐ read_count r trailer marker (databytes r + startOffset);
  if past_objects r trailer ptr cnt then FAIL_FALSE else
  l ← loads r ptr (Z.to_nat cnt);
  Ok (Some (k l)).

(** The characters of a string in UTF-16: the host's 16-bit integers, swapped. *)
Fixpoint swap_chars (l : list Z) : list Z :=
  match l with
  | a :: b :: l => swap_bytes 2 (le_value [a; b]) :: swap_chars l
  | _ => []
  end.

Definition create_unicode (r : region) (trailer : CFBinaryPlistTrailer) (startOffset marker : Z) (mutable : bool) : result (option plist) :=
  '(cnt, ptr) ⇐ read_count r trailer marker (databytes r + startOffset);
  let '(extent, err) := check_uint64_add ptr cnt false in
  let '(extent, err) := check_uint64_add (extent - 1) cnt err in
  if err then FAIL_FALSE else
  if databytes r + objectsRangeEnd trailer <? extent then FAIL_FALSE else
  let '(byte_cnt, err) := check_uint64_mul cnt 2 err in
  if err then FAIL_FALSE else
  l ← loads r ptr (Z.to_nat byte_cnt);
  Ok (Some (PString mutable (swap_chars l))).

(** What a container has behind its marker: the number of references and a pointer to them. *)
Definition read_refs (r : region) (trailer : CFBinaryPlistTrailer) (startOffset marker : Z) : result (option (Z * Z)) :=
  '(cnt, ptr) ⇐ read_count r trailer marker (databytes r + startOffset);
  let '(cnt, err) := if Z.land marker 0xf0 =? kMarkerDict then check_uint64_mul cnt 2 false else (cnt, false) in
  if err then FAIL_FALSE else
  let '(byte_cnt, err) := check_uint64_mul cnt (t_objectRefSize trailer) false in
  if err then FAIL_FALSE else
  if past_objects r trailer ptr byte_cnt then FAIL_FALSE else
  let '(_, err) := check_uint64_mul cnt 8 false in
  if err then FAIL_FALSE else Ok (Some (cnt, ptr)).

(** The state that the functions of a parse share: [objects] and [set]. *)
Record parse : Type := mkParse { p_objects : option cache; p_set : option (gset Z) }.

(** The loop over the references of a container; the first [keys] of the objects have to
    be primitive. *)
Fixpoint create_list (create : parse -> Z -> result (option (parse * plist))) (r : region) (trailer : CFBinaryPlistTrailer)
    (keys n : nat) (ptr : Z) (p : parse) : result (option (parse * list plist)) :=
  match n with
  | O => Ok (Some (p, []))
  | S n =>
    off ← getOffsetOfRefAt r ptr trailer;
    '(p, pl) ⇐ create p off;
    if (0 <? keys)%nat && negb (plistIsPrimitive pl) then FAIL_FALSE else
    '(p, l) ⇐ create_list create r trailer (pred keys) n (ptr + t_objectRefSize trailer) p;
    Ok (Some (p, pl :: l))
  end.

(** The array, set or dictionary of a list of objects. *)
Definition container (marker : Z) (mutable : bool) (l : list plist) : plist :=
  if Z.land marker 0xf0 =? kMarkerArray then PArray mutable l
  else if Z.land marker 0xf0 =? kMarkerSet then PSet mutable l
  else let n := Nat.div2 (length l) in PDict mutable (zip (take n l) (drop n l)).

(** The cases for containers.  A [set] that is made here is gone at the end. *)
Definition create_container (create : parse -> Z -> result (option (parse * plist))) (r : region) (trailer : CFBinaryPlistTrailer)
    (opt : mutability) (curDepth startOffset marker : Z) (p : parse) : result (option (parse * plist)) :=
  '(cnt, ptr) ⇐ read_refs r trailer startOffset marker;
  let madeSet := match p_set p with None => 15 <? curDepth | Some _ => false end in
  let set := if madeSet then Some ∅ else p_set p in
  let keys := if Z.land marker 0xf0 =? kMarkerDict then Z.to_nat (cnt / 2) else O in
  '(p, l) ⇐ create_list create r trailer keys (Z.to_nat cnt) ptr (mkParse (p_objects p) (union {[startOffset]} <$> set));
  let pl := container marker (containers_mutable opt) l in
  let set := if madeSet then None else (fun s => s ∖ {[startOffset]}) <$> p_set p in
  Ok (Some (mkParse (remember (p_objects p) (negb (containers_mutable opt)) startOffset pl) set, pl)).

(** The other cases: the object and whether it goes into [objects]. *)
Definition create_leaf (r : region) (trailer : CFBinaryPlistTrailer) (opt : mutability) (startOffset marker : Z) : result (option (plist * bool)) :=
  let kind := Z.land marker 0xf0 in
  if kind =? kMarkerNull then
    if marker =? kMarkerNull then Ok (Some (PNull, false))
    else if marker =? kMarkerFalse then Ok (Some (PBool false, false))
    else if marker =? kMarkerTrue then Ok (Some (PBool true, false))
    else FAIL_FALSE
  else if kind =? kMarkerInt then pl ⇐ create_int r trailer startOffset marker; Ok (Some (pl, true))
  else if kind =? kMarkerReal then
    if Z.land marker 0x0f =? 2 then
      pl ⇐ fixed_size r trailer startOffset 4 (fun l => PNumber (CFNumberCreateFloat32 (swap_bytes 4 (le_value l)))); Ok (Some (pl, true))
    else if Z.land marker 0x0f =? 3 then
      pl ⇐ fixed_size r trailer startOffset 8 (fun l => PNumber (CFNumberCreateFloat64 (swap_bytes 8 (le_value l)))); Ok (Some (pl, true))
    else FAIL_FALSE
  else if kind =? Z.land kMarkerDate 0xf0 then
    if marker =? kMarkerDate then
      pl ⇐ fixed_size r trailer startOffset 8 (fun l => PDate (swap_bytes 8 (le_value l))); Ok (Some (pl, true))
    else FAIL_FALSE
  else if kind =? kMarkerData then
    pl ⇐ create_bytes r trailer startOffset marker (PData (leaves_mutable opt)); Ok (Some (pl, negb (leaves_mutable opt)))
  else if kind =? kMarkerASCIIString then
    pl ⇐ create_bytes r trailer startOffset marker (PString (leaves_mutable opt)); Ok (Some (pl, negb (leaves_mutable opt)))
  else if kind =? kMarkerUnicode16String then
    pl ⇐ create_unicode r trailer startOffset marker (leaves_mutable opt); Ok (Some (pl, negb (leaves_mutable opt)))
  else if kind =? kMarkerUID then pl ⇐ create_uid r trailer startOffset marker; Ok (Some (pl, true))
  else FAIL_FALSE.

Definition is_container (marker : Z) : bool :=
  (Z.land marker 0xf0 =? kMarkerArray) || (Z.land marker 0xf0 =? kMarkerSet) || (Z.land marker 0xf0 =? kMarkerDict).

Fixpoint CFBinaryPlistCreateObjectFiltered (fuel : nat) (r : region) (trailer : CFBinaryPlistTrailer) (opt : mutability) (curDepth : Z)
    (p : parse) (startOffset : Z) : result (option (parse * plist)) :=
  match fuel with
  | O => NoFuel
  | S fuel =>
    match p_objects p ≫= lookup startOffset with
    | Some pl => Ok (Some (p, pl))
    | None =>
      if match p_set p with Some s => bool_decide (startOffset ∈ s) | None => false end then FAIL_FALSE else
      if (startOffset <? objectsRangeStart) || (objectsRangeEnd trailer <? startOffset) then FAIL_FALSE else
      marker ← load8 r (databytes r + startOffset);
      if is_container marker then
        create_container (CFBinaryPlistCreateObjectFiltered fuel r trailer opt (curDepth + 1)) r trailer opt curDepth startOffset marker p
      else
        '(pl, shared) ⇐ create_leaf r trailer opt startOffset marker;
        Ok (Some (mkParse (remember (p_objects p) shared startOffset pl) (p_set p), pl))
    end
  end.

(** A path has 16 objects before [set] is made, and then no offset twice. *)
Definition depth_bound (trailer : CFBinaryPlistTrailer) : nat := 18 + Z.to_nat (t_offsetTableOffset trailer).

Definition CFBinaryPlistCreateObject (r : region) (startOffset : Z) (trailer : CFBinaryPlistTrailer) (opt : mutability) (objects : option cache) : result (option (parse * plist)) :=
  CFBinaryPlistCreateObjectFiltered (depth_bound trailer) r trailer opt 0 (mkParse objects None) startOffset.

(** The property list, or None for "binary data is corrupt" and for data that is no binary
    property list. *)
Definition CFTryParseBinaryPlist (data : region) (opt : mutability) : result (option plist) :=
  if 8 <=? datalen data then
    '(_, offset, trailer) ⇐ CFBinaryPlistGetTopLevelInfo data;
    '(_, pl) ⇐ CFBinaryPlistCreateObjectFiltered (depth_bound trailer) data trailer opt 0 (mkParse (Some ∅) None) offset;
    Ok (Some pl)
  else FAIL_FALSE.

(** ** Looking up a value *)

Definition CFBinaryPlistGetOffsetForValueFromArray2 (r : region) (startOffset : Z) (trailer : CFBinaryPlistTrailer) (idx : Z) : result (option Z) :=
  if (startOffset <? objectsRangeStart) || (objectsRangeEnd trailer <? startOffset) then FAIL_FALSE else
  marker ← load8 r (databytes r + startOffset);
  if negb (Z.land marker 0xf0 =? kMarkerArray) then FAIL_FALSE else
  '(cnt, ptr) ⇐ read_count r trailer marker (databytes r + startOffset);
  if cnt <=? u64 idx then FAIL_FALSE else
  let '(byte_cnt, err) := check_uint64_mul cnt (t_objectRefSize trailer) false in
  if err then FAIL_FALSE else
  if past_objects r trailer ptr byte_cnt then FAIL_FALSE else
  off ← getOffsetOfRefAt r (ptr + idx * t_objectRefSize trailer) trailer;
  Ok (Some off).

(** A string to look for: its characters, what CFStringGetCStringPtr answers for MacRoman
    and the bytes that CFStringGetCString leaves in a buffer of 16 bytes; [None] is a byte
    that is not initialised. *)
Record key_string : Type := mkKey {
  k_chars : list Z;
  k_cStringPtr : option (list (option Z));
  k_cString : list (option Z)
}.

(** [keyBufferPtr]. *)
Definition KEY_BUFF_SIZE : Z := 16.
Definition key_buffer (key : key_string) : option (list (option Z)) :=
  match k_cStringPtr key with
  | Some l => Some l
  | None => if Z.of_nat (length (k_chars key)) <? KEY_BUFF_SIZE then Some (k_cString key) else None
  end.

(** The first [n] bytes of a buffer. *)
Definition buffer_bytes (l : list (option Z)) (n : nat) : result (list Z) :=
  match mapM id (take n l) with
  | Some l => if (length l =? n)%nat then Ok l else Undef
  | None => Undef
  end.

(** The comparison of an ASCII string in the data with the key. *)
Definition ascii_matches (r : region) (trailer : CFBinaryPlistTrailer) (off marker : Z) (key : key_string) (buf : list (option Z)) : result (option bool) :=
  let stringKeyLen := Z.of_nat (length (k_chars key)) in
  let len := Z.land marker 0x0f in
  let '(ptr2, err) := check_uint64_add (databytes r + off) 1 false in
  if err then FAIL_FALSE else
  '(len, ptr2) ⇐ (if (len =? 0xf) && (0xf <=? stringKeyLen) then
      '(bigint, ptr2) ⇐ readInt r ptr2 (databytes r + objectsRangeEnd trailer);
      if LONG_MAX <? bigint then FAIL_FALSE else Ok (Some (bigint, ptr2))
    else Ok (Some (len, ptr2)));
  if len =? stringKeyLen then
    let '(extent, err) := check_uint64_add ptr2 len false in
    if err then FAIL_FALSE else
    if databytes r + t_offsetTableOffset trailer <=? extent then FAIL_FALSE else
    l ← loads r ptr2 (Z.to_nat stringKeyLen);
    k ← buffer_bytes buf (Z.to_nat stringKeyLen);
    Ok (Some (bool_decide (l = k)))
  else Ok (Some false).

(** CFEqual of the key with an object of the data. *)
Definition key_equal (key : key_string) (pl : plist) : bool :=
  match pl with PString _ chars => bool_decide (k_chars key = chars) | _ => false end.

Definition key_matches (r : region) (trailer : CFBinaryPlistTrailer) (off marker : Z) (key : key_string) : result (option bool) :=
  match (if Z.land marker 0xf0 =? kMarkerASCIIString then key_buffer key else None) with
  | Some buf => ascii_matches r trailer off marker key buf
  | None =>
    '(_, keyInData) ⇐ CFBinaryPlistCreateObjectFiltered (depth_bound trailer) r trailer Immutable 0 (mkParse None None) off;
    if negb (plistIsPrimitive keyInData) then FAIL_FALSE else Ok (Some (key_equal key keyInData))
  end.

(** The linear search of the keys: the offsets of the key and of its value. *)
Fixpoint search_keys (r : region) (trailer : CFBinaryPlistTrailer) (key : key_string) (totalKeySize : Z) (n : nat) (ptr : Z) : result (option (Z * Z)) :=
  match n with
  | O => FAIL_FALSE
  | S n =>
    off ← getOffsetOfRefAt r ptr trailer;
    marker ← load8 r (u64 (databytes r + off));
    found ⇐ key_matches r trailer off marker key;
    if found : bool then
      voffset ← getOffsetOfRefAt r (ptr + totalKeySize) trailer;
      Ok (Some (off, voffset))
    else search_keys r trailer key totalKeySize n (ptr + t_objectRefSize trailer)
  end.

Definition CFBinaryPlistGetOffsetForValueFromDictionary3 (r : region) (startOffset : Z) (trailer : CFBinaryPlistTrailer) (key : key_string) : result (option (Z * Z)) :=
  if (startOffset <? objectsRangeStart) || (objectsRangeEnd trailer <? startOffset) then FAIL_FALSE else
  marker ← load8 r (databytes r + startOffset);
  if negb (Z.land marker 0xf0 =? kMarkerDict) then FAIL_FALSE else
  '(cnt, ptr) ⇐ read_count r trailer marker (databytes r + startOffset);
  let '(cnt, err) := check_uint64_mul cnt 2 false in
  if err then FAIL_FALSE else
  let '(byte_cnt, err) := check_uint64_mul cnt (t_objectRefSize trailer) err in
  if err then FAIL_FALSE else
  if past_objects r trailer ptr byte_cnt then FAIL_FALSE else
  let cnt := cnt / 2 in
  search_keys r trailer key (cnt * t_objectRefSize trailer) (Z.to_nat cnt) ptr.

End BinaryPList.
