(* ===== verification/PListBytes.v ===== *)
(** * Binary property lists: bytes, bounds and the reader's primitives

    Big-endian values of byte sequences, the checked additions, and what the small reading
    functions of BinaryPList.v return when the trailer has been checked: [returns m P] says
    that [m] ends without undefined behaviour and that [P] holds unless it fails. *)

From stdpp Require Import base list numbers option gmap.
From Stdlib Require Import ZArith Lia.
From S2P Require Import Prelude BinaryPList.
Import BinaryPList.

Module PListBytes.

Abbreviation byte := (fun b => 0 <= b < 256).
Abbreviation bytes := (Forall byte).

(** ** Values of bytes *)

Definition be_value (l : list Z) : Z := le_value (reverse l).

Lemma le_value_app (l k : list Z) : le_value (l ++ k) = le_value l + 256 ^ Z.of_nat (length l) * le_value k.
Proof.
  induction l as [|b l IH]; cbn [le_value app length]; [lia|]. rewrite IH, Nat2Z.inj_succ, Z.pow_succ_r by lia. ring.
Qed.

Lemma le_value_bound (l : list Z) : bytes l -> 0 <= le_value l < 256 ^ Z.of_nat (length l).
Proof.
  induction 1 as [|b l Hb _ IH]; cbn [le_value length]; [lia|]. rewrite Nat2Z.inj_succ, Z.pow_succ_r by lia. lia.
Qed.

Lemma be_value_bound (l : list Z) : bytes l -> 0 <= be_value l < 256 ^ Z.of_nat (length l).
Proof. intros H. unfold be_value. rewrite <- length_reverse. apply le_value_bound. by apply Forall_reverse. Qed.

Lemma be_value_cons (b : Z) (l : list Z) : be_value (b :: l) = b * 256 ^ Z.of_nat (length l) + be_value l.
Proof. unfold be_value. rewrite reverse_cons, le_value_app, length_reverse. cbn. ring. Qed.

Lemma length_le_bytes (n : nat) (v : Z) : length (le_bytes n v) = n.
Proof. revert v. induction n; intros; cbn; f_equal; eauto. Qed.

Lemma le_bytes_bytes (n : nat) (v : Z) : bytes (le_bytes n v).
Proof. revert v. induction n; intros v; cbn; constructor; [|done]. pose proof (Z.mod_pos_bound v 256). lia. Qed.

Lemma le_bytes_value (l : list Z) : bytes l -> le_bytes (length l) (le_value l) = l.
Proof.
  induction 1 as [|b l Hb _ IH]; [done|]. cbn [length le_bytes le_value].
  rewrite Z.add_comm, Z.mul_comm, Z.div_add_l, Z.div_small, Z.add_0_r, IH by lia. f_equal.
  rewrite Z.add_comm, Z.mod_add, Z.mod_small by lia. done.
Qed.

Lemma le_value_bytes (n : nat) (v : Z) : 0 <= v < 256 ^ Z.of_nat n -> le_value (le_bytes n v) = v.
Proof.
  revert v. induction n as [|n IH]; intros v Hv; cbn [le_bytes le_value]; [cbn in Hv; lia|].
  rewrite Nat2Z.inj_succ, Z.pow_succ_r in Hv by lia.
  rewrite IH; [pose proof (Z.div_mod v 256); lia|]. split; [apply Z.div_pos; lia|apply Z.div_lt_upper_bound; lia].
Qed.

(** A swapped load is the big-endian value. *)
Lemma swap_value (l : list Z) : bytes l -> swap_bytes (length l) (le_value l) = be_value l.
Proof. intros H. unfold swap_bytes. by rewrite le_bytes_value. Qed.

(** ** Loads *)

(** The [n] bytes at [p]. *)
Definition slice (r : region) (p : Z) (n : nat) : list Z := take n (drop (Z.to_nat (p - databytes r)) (contents r)).

Definition within (r : region) (p n : Z) : Prop := databytes r <= p /\ p + n <= databytes r + datalen r.

Lemma length_slice (r : region) (p : Z) (n : nat) : within r p (Z.of_nat n) -> length (slice r p n) = n.
Proof. unfold within, datalen, slice. intros [H1 H2]. rewrite length_take, length_drop. lia. Qed.

Lemma slice_bytes (r : region) (p : Z) (n : nat) : bytes (contents r) -> bytes (slice r p n).
Proof. intros H. by apply Forall_take, Forall_drop. Qed.

Lemma load8_ok (r : region) (p : Z) : within r p 1 ->
  exists b, load8 r p = Ok b /\ drop (Z.to_nat (p - databytes r)) (contents r) = b :: drop (Z.to_nat (p + 1 - databytes r)) (contents r).
Proof.
  intros [H1 H2]. unfold datalen in H2.
  destruct (lookup_lt_is_Some_2 (contents r) (Z.to_nat (p - databytes r))) as [b Hb]; [lia|].
  exists b. unfold load8. split; [apply aget_Ok; split; [lia|done]|].
  rewrite (drop_S _ _ _ Hb). do 2 f_equal. lia.
Qed.

Lemma load8_byte (r : region) (p b : Z) : bytes (contents r) -> load8 r p = Ok b -> 0 <= b < 256.
Proof. intros H E. apply aget_Ok in E as [_ E]. by apply (Forall_lookup_1 _ _ _ _ H E). Qed.

Lemma loads_ok (r : region) (n : nat) (p : Z) : within r p (Z.of_nat n) -> loads r p n = Ok (slice r p n).
Proof.
  revert p. induction n as [|n IH]; intros p H; [done|]. cbn [loads].
  destruct (load8_ok r p) as (b & -> & E); [unfold within in *; lia|]. cbn. rewrite IH by (unfold within in *; lia). cbn.
  unfold slice. by rewrite E.
Qed.

Lemma u64_fits (z : Z) : 0 <= z < 2 ^ 64 -> u64 z = z.
Proof. intros. by apply uwrap_small. Qed.

Lemma u64_in_range (z : Z) : 0 <= u64 z < 2 ^ 64.
Proof. by apply uwrap_range. Qed.

Lemma sized_loop_ok (r : region) (n : nat) (p res : Z) : within r p (Z.of_nat n) ->
  sized_loop r p n (u64 res) = Ok (u64 (res * 256 ^ Z.of_nat n + be_value (slice r p n))).
Proof.
  revert p res. induction n as [|n IH]; intros p res H.
  - cbn [sized_loop]. do 2 f_equal. change (be_value _) with 0. change (256 ^ _) with 1. ring.
  - cbn [sized_loop]. destruct (load8_ok r p) as (b & -> & E); [unfold within in *; lia|]. cbn [mbind result_bind].
    assert (H' : within r (p + 1) (Z.of_nat n)) by (unfold within in *; lia).
    assert (E2 : u64 (u64 (Z.shiftl (u64 res) 8) + b) = u64 (res * 256 + b)).
    { rewrite Z.shiftl_mul_pow2, uwrap_add_l by lia. unfold uwrap. rewrite Z.add_mod, Z.mul_mod_idemp_l, <- Z.add_mod by lia. done. }
    rewrite E2, IH by done. do 2 f_equal. unfold slice at 2. rewrite E. cbn [take]. fold (slice r (p + 1) n).
    rewrite be_value_cons, length_slice, Nat2Z.inj_succ, Z.pow_succ_r by (done || lia). ring.
Qed.

(** Both branches of [_getSizedInt] give the last 64 bits of the big-endian integer. *)
Lemma getSizedInt_ok (r : region) (p n : Z) : bytes (contents r) -> 0 <= n -> within r p n ->
  getSizedInt r p n = Ok (u64 (be_value (slice r p (Z.to_nat n)))).
Proof.
  intros Hb Hn H. unfold getSizedInt. assert (H' : within r p (Z.of_nat (Z.to_nat n))) by (unfold within in *; lia).
  case_match eqn:C.
  - rewrite loads_ok by done. cbn [mbind result_bind].
    rewrite <- (length_slice r p (Z.to_nat n)) at 1 by done. rewrite swap_value by (by apply slice_bytes).
    rewrite u64_fits; [done|]. pose proof (be_value_bound _ (slice_bytes r p (Z.to_nat n) Hb)) as B. rewrite length_slice in B by done.
    rewrite !orb_true_iff, !Z.eqb_eq in C.
    assert (256 ^ Z.of_nat (Z.to_nat n) <= 2 ^ 64); [|lia]. destruct C as [[[->| ->]| ->]| ->]; done.
  - replace 0 with (u64 0) by done. rewrite sized_loop_ok by done. by rewrite Z.mul_0_l.
Qed.

(** ** Checked arithmetic *)

Lemma check_add_ok (x y v : Z) : 0 <= x -> 0 <= y -> check_uint64_add x y false = (v, false) -> v = x + y.
Proof.
  unfold check_uint64_add, ULLONG_MAX. intros Hx Hy [= <- E]. case_match eqn:C; [done|].
  apply Z.ltb_ge in C. apply u64_fits. lia.
Qed.

Lemma check_mul_ok (x y v : Z) : 0 <= x -> 0 <= y -> check_uint64_mul x y false = (v, false) -> v = x * y.
Proof.
  unfold check_uint64_mul, ULLONG_MAX. intros Hx Hy E. destruct (Z.eqb_spec x 0); [by simplify_eq; lia|].
  injection E as <- E. case_match eqn:C; [done|]. apply Z.ltb_ge in C.
  apply u64_fits. pose proof (Z.mul_div_le (2 ^ 64 - 1) x). nia.
Qed.

Lemma check_add_fits (x y : Z) (e : bool) : 0 <= x -> 0 <= y -> x + y < 2 ^ 64 -> check_uint64_add x y e = (x + y, e).
Proof.
  intros Hx Hy H. unfold check_uint64_add, ULLONG_MAX. rewrite u64_fits by lia. case_match eqn:C; [lia|done].
Qed.

Lemma check_mul_fits (x y : Z) (e : bool) : 0 <= x -> 0 <= y -> x * y < 2 ^ 64 -> check_uint64_mul x y e = (x * y, e).
Proof.
  intros Hx Hy H. unfold check_uint64_mul, ULLONG_MAX. destruct (Z.eqb_spec x 0) as [->|]; [done|].
  rewrite u64_fits by nia. case_match eqn:C; [|done]. apply Z.ltb_lt in C.
  pose proof (Z.div_le_lower_bound (2 ^ 64 - 1) x y). nia.
Qed.

(** ** Functions that return or fail *)

Definition returns {A} (m : result (option A)) (P : A -> Prop) : Prop :=
  exists o, m = Ok o /\ forall a, o = Some a -> P a.

Lemma returns_fail {A} (P : A -> Prop) : returns FAIL_FALSE P.
Proof. by exists None. Qed.

Lemma returns_some {A} (P : A -> Prop) (a : A) : P a -> returns (Ok (Some a)) P.
Proof. intros H. exists (Some a). split; [done|]. by intros ? [= <-]. Qed.

Lemma returns_obind {A B} (m : result (option A)) (f : A -> result (option B)) (P : A -> Prop) (Q : B -> Prop) :
  returns m P -> (forall a, P a -> returns (f a) Q) -> returns (obind m f) Q.
Proof. intros ([a|] & -> & H) Hf; cbn; [apply Hf; auto|apply returns_fail]. Qed.

Lemma returns_weaken {A} (m : result (option A)) (P Q : A -> Prop) : returns m P -> (forall a, P a -> Q a) -> returns m Q.
Proof. intros (o & E & H) HPQ. exists o. split; [done|]. auto. Qed.

Lemma returns_if {A} (b : bool) (m : result (option A)) (P : A -> Prop) :
  (b = false -> returns m P) -> returns (if b then FAIL_FALSE else m) P.
Proof. destruct b; [intros _; apply returns_fail|auto]. Qed.

(** A step of a proof about a function that may fail. *)
Ltac may_fail H := apply returns_if; intros H.

(** ** The trailer *)

(** What the tests on the trailer leave, as far as reading needs it. *)
Record trailer_ok (r : region) (t : CFBinaryPlistTrailer) : Prop := {
  to_table : 9 <= t_offsetTableOffset t;
  to_objects : 1 <= t_numObjects t;
  to_ref : 1 <= t_objectRefSize t < 256;
  to_int : 1 <= t_offsetIntSize t < 256;
  to_size : t_offsetTableOffset t + t_numObjects t * t_offsetIntSize t + 32 = datalen r
}.

Record region_ok (r : region) : Prop := {
  ro_address : 0 <= databytes r;
  ro_bytes : bytes (contents r)
}.

Section Reader.

Context (r : region) (t : CFBinaryPlistTrailer) (R : region_ok r) (T : trailer_ok r t).

Lemma objects_within (p n : Z) : databytes r <= p -> p + n <= databytes r + t_offsetTableOffset t -> within r p n.
Proof. intros H1 H2. destruct T. split; [done|]. nia. Qed.

(** [past_objects] keeps what is read in front of the table of offsets. *)
Lemma past_objects_ok (p n : Z) : 0 <= p -> 0 <= n -> past_objects r t p n = false -> p + n <= databytes r + t_offsetTableOffset t.
Proof.
  intros Hp Hn. unfold past_objects, objectsRangeEnd. destruct (check_uint64_add p n false) as [e [|]] eqn:E; [done|].
  apply check_add_ok in E as ->; [|done..]. cbn. rewrite Z.ltb_ge. lia.
Qed.

Lemma readInt_returns (p : Z) : databytes r <= p ->
  returns (readInt r p (databytes r + objectsRangeEnd t)) (fun '(v, q) => 0 <= v < 2 ^ 64 /\ p <= q <= databytes r + t_offsetTableOffset t).
Proof.
  intros Hp. destruct R as [Ha Hb]. unfold readInt, objectsRangeEnd in *. may_fail C. apply Z.ltb_ge in C.
  destruct (load8_ok r p) as (m & Em & _); [apply objects_within; lia|]. rewrite Em. cbn [mbind result_bind].
  may_fail C2. assert (Hc : 0 < Z.shiftl 1 (Z.land m 15)).
  { rewrite Z.shiftl_1_l. apply Z.pow_pos_nonneg; [lia|]. apply Z.land_nonneg. lia. }
  destruct (check_uint64_add _ _ _) as [e err] eqn:E. may_fail C3. subst err. apply check_add_ok in E as ->; [|lia..].
  may_fail C4. apply Z.ltb_ge in C4.
  assert (u8 (Z.shiftl 1 (Z.land m 15)) <= Z.shiftl 1 (Z.land m 15)) by (apply Z.mod_le; lia).
  pose proof (uwrap_range 8 (Z.shiftl 1 (Z.land m 15)) ltac:(lia)) as Hu. unfold in_u in Hu.
  rewrite getSizedInt_ok; [|done|lia|apply objects_within; lia]. cbn [mbind result_bind].
  apply returns_some. split; [apply u64_in_range|lia].
Qed.

Lemma land_f_bound (m : Z) : 0 <= Z.land m 15 < 16.
Proof. change 15 with (Z.ones 4). rewrite Z.land_ones by lia. by apply Z.mod_pos_bound. Qed.

Lemma read_count_returns (m off : Z) : 8 <= off < t_offsetTableOffset t ->
  returns (read_count r t m (databytes r + off)) (fun '(n, q) => 0 <= n <= LONG_MAX /\ databytes r <= q <= databytes r + t_offsetTableOffset t).
Proof.
  intros Ho. destruct R as [Ha _]. unfold read_count. destruct (check_uint64_add _ _ _) as [q err] eqn:E. may_fail C. subst err.
  apply check_add_ok in E as ->; [|lia..]. pose proof (land_f_bound m). case_match eqn:C.
  - eapply returns_obind; [apply readInt_returns; lia|]. intros [v q] [Hv Hq]. may_fail C2. apply Z.ltb_ge in C2.
    apply returns_some. split; lia.
  - apply returns_some. unfold LONG_MAX. split; lia.
Qed.

Lemma getOffsetOfRefAt_ok (p : Z) : exists off, getOffsetOfRefAt r p t = Ok off /\ 0 <= off < 2 ^ 64.
Proof.
  destruct R as [Ha Hb]. pose proof T as [H1 H2 H3 H4 H5]. unfold getOffsetOfRefAt. case_match eqn:C; [by exists ULLONG_MAX|].
  apply orb_false_iff in C as [C1 C2]. apply Z.ltb_ge in C1, C2.
  rewrite getSizedInt_ok; [|done|lia|apply objects_within; lia]. cbn [mbind result_bind].
  set (ref := u64 _). assert (0 <= ref < 2 ^ 64) by apply u64_in_range. case_match eqn:C3; [by exists ULLONG_MAX|]. apply Z.leb_gt in C3.
  eexists. rewrite getSizedInt_ok; [split; [done|apply u64_in_range]|done|lia|]. split; nia.
Qed.

Lemma read_refs_returns (m off : Z) : 8 <= off < t_offsetTableOffset t ->
  returns (read_refs r t off m) (fun '(n, q) => 0 <= n /\ databytes r <= q).
Proof.
  intros Ho. destruct T. unfold read_refs. eapply returns_obind; [by apply read_count_returns|]. intros [n q] [Hn Hq].
  destruct (if _ : bool then _ else _) as [c err] eqn:E. may_fail C. subst err.
  assert (Hc : 0 <= c). { case_match; [apply check_mul_ok in E; lia|]. by simplify_eq; lia. }
  destruct (check_uint64_mul c _ _) as [bc err] eqn:E2. may_fail C. may_fail C2.
  destruct (check_uint64_mul c 8 false) as [x err2] eqn:E3. may_fail C3. apply returns_some. lia.
Qed.

End Reader.

End PListBytes.
