(* ===== verification/PListSafe.v ===== *)
(** * Binary property lists: the reader is total and typed

    On every sequence of bytes the reader returns: it reads no byte outside the data and
    its recursion ends, whatever the offsets and references say.  The argument for the
    recursion is the one of the code: [set] holds the offsets on the path to an object, so
    beyond sixteen levels a path meets no offset twice.  What it creates is well typed
    ([plist_ok]). *)

From stdpp Require Import base list numbers option gmap fin_sets.
From Stdlib Require Import ZArith Lia.
From S2P Require Import Prelude BinaryPList PListBytes.
Import BinaryPList PListBytes.

Module PListSafe.

(** ** Well-typed property lists *)

Definition in_range (lo hi z : Z) : bool := (lo <=? z) && (z <? hi).

#[export] Instance number_eq_dec : EqDecision number.
Proof. solve_decision. Defined.

(** The values that CFNumberCreate makes of what the reader gives it. *)
Definition number_ok (n : number) : bool :=
  match n with
  | SInt64 v => in_range (- 2 ^ 63) (2 ^ 63) v
  | SInt128 high low => (high =? 0) && in_range 0 (2 ^ 64) low
  | Float32 bits => in_range 0 (2 ^ 32) bits && negb (Z.land (Z.shiftr bits 23) 0xff =? 0xff)
  | Float64 bits => in_range 0 (2 ^ 64) bits && bool_decide (CFNumberCreateFloat64 bits = Float64 bits)
  end.

Fixpoint plist_ok (opt : mutability) (pl : plist) : bool :=
  match pl with
  | PNull | PBool _ => true
  | PNumber n => number_ok n
  | PDate bits => in_range 0 (2 ^ 64) bits
  | PData m l => eqb m (leaves_mutable opt) && forallb (in_range 0 256) l
  | PString m l => eqb m (leaves_mutable opt) && forallb (in_range 0 (2 ^ 16)) l
  | PUID v => in_range 0 (2 ^ 32) v
  | PArray m l | PSet m l => eqb m (containers_mutable opt) && forallb (plist_ok opt) l
  | PDict m l => eqb m (containers_mutable opt) && forallb (fun '(k, v) => plistIsPrimitive k && plist_ok opt k && plist_ok opt v) l
  end.

Lemma in_range_spec (lo hi z : Z) : in_range lo hi z = true <-> lo <= z < hi.
Proof. unfold in_range. lia. Qed.

Lemma forallb_range (hi : Z) (l : list Z) : Forall (fun b => 0 <= b < hi) l -> forallb (in_range 0 hi) l = true.
Proof. intros H. apply forallb_forall. intros z Hz. apply in_range_spec. rewrite Forall_forall in H. apply H. by apply list_elem_of_In. Qed.

Lemma float32_ok (bits : Z) : 0 <= bits < 2 ^ 32 -> number_ok (CFNumberCreateFloat32 bits) = true.
Proof.
  intros H. unfold CFNumberCreateFloat32. case_match eqn:C; [by repeat case_match|]. cbn [number_ok].
  rewrite C, andb_true_r. by apply in_range_spec.
Qed.

Lemma float64_ok (bits : Z) : 0 <= bits < 2 ^ 64 -> number_ok (CFNumberCreateFloat64 bits) = true.
Proof.
  intros H. unfold CFNumberCreateFloat64 at 1. case_match eqn:C; [by repeat case_match|]. cbn [number_ok].
  rewrite (proj2 (in_range_spec _ _ _) H). apply bool_decide_eq_true. unfold CFNumberCreateFloat64. by rewrite C.
Qed.

Lemma be_value_range (l : list Z) (n : nat) (w : Z) : bytes l -> length l = n -> 256 ^ Z.of_nat n <= w -> 0 <= swap_bytes n (le_value l) < w.
Proof. intros Hb <- Hw. rewrite swap_value by done. pose proof (be_value_bound l Hb). lia. Qed.

Lemma swap_chars_ok (n : nat) (l : list Z) : (length l <= n)%nat -> bytes l -> Forall (fun c => 0 <= c < 2 ^ 16) (swap_chars l).
Proof.
  revert l. induction n as [|n IH]; intros [|a [|b l]] Hn H; cbn [swap_chars length] in *; try lia; try by constructor.
  inversion_clear H as [|? ? Ha H']. inversion_clear H' as [|? ? Hb Hl].
  constructor; [|apply IH; [lia|done]]. by apply (be_value_range [a; b]); [auto|..].
Qed.

Section Safe.

Context (r : region) (t : CFBinaryPlistTrailer) (R : region_ok r) (T : trailer_ok r t) (opt : mutability).

Abbreviation ok := (fun pl => plist_ok opt pl = true).

Lemma marker_end (off : Z) : 8 <= off < t_offsetTableOffset t -> 0 <= databytes r + off.
Proof. destruct R. lia. Qed.

(** ** Leaves *)

Lemma fixed_size_returns (off n : Z) (k : list Z -> plist) : 8 <= off < t_offsetTableOffset t -> 0 <= n ->
  (forall l, bytes l -> length l = Z.to_nat n -> ok (k l)) -> returns (fixed_size r t off n k) ok.
Proof.
  intros Ho Hn Hk. destruct R as [Ha Hb]. unfold fixed_size. destruct (check_uint64_add _ _ _) as [q err] eqn:E. may_fail C. subst err.
  apply check_add_ok in E as ->; [|lia..]. may_fail C. apply past_objects_ok in C; [|lia..].
  assert (W : within r (databytes r + off + 1) (Z.of_nat (Z.to_nat n))) by (apply (objects_within r t T); lia).
  rewrite loads_ok by done. apply returns_some, Hk; [by apply slice_bytes|by apply length_slice].
Qed.

Lemma create_int_returns (off m : Z) : 8 <= off < t_offsetTableOffset t -> returns (create_int r t off m) ok.
Proof.
  intros Ho. destruct R as [Ha Hb]. unfold create_int. destruct (check_uint64_add _ _ _) as [q err] eqn:E. may_fail C. subst err.
  apply check_add_ok in E as ->; [|lia..]. set (cnt := Z.shiftl 1 (Z.land m 15)).
  assert (Hc : 0 < cnt) by (unfold cnt; rewrite Z.shiftl_1_l; apply Z.pow_pos_nonneg; [lia|apply land_f_bound]).
  may_fail C. apply past_objects_ok in C; [|lia..]. may_fail C2. apply Z.ltb_ge in C2.
  assert (E2 : u8 cnt = cnt) by (apply uwrap_small; unfold in_u; lia). rewrite E2.
  rewrite getSizedInt_ok; [|done|lia|apply (objects_within r t T); lia]. cbn [mbind result_bind]. apply returns_some.
  cbn [plist_ok]. case_match; cbn [number_ok].
  - apply in_range_spec, u64_in_range.
  - apply in_range_spec. apply (swrap_range 64). lia.
Qed.

Lemma create_uid_returns (off m : Z) : 8 <= off < t_offsetTableOffset t -> returns (create_uid r t off m) ok.
Proof.
  intros Ho. destruct R as [Ha Hb]. unfold create_uid. destruct (check_uint64_add _ _ _) as [q err] eqn:E. may_fail C. subst err.
  apply check_add_ok in E as ->; [|lia..]. pose proof (land_f_bound m).
  may_fail C. apply past_objects_ok in C; [|lia..].
  assert (E2 : u8 (Z.land m 15 + 1) = Z.land m 15 + 1) by (apply uwrap_small; unfold in_u; lia). rewrite E2.
  rewrite getSizedInt_ok; [|done|lia|apply (objects_within r t T); lia]. cbn [mbind result_bind]. may_fail C2.
  apply returns_some. cbn [plist_ok]. apply in_range_spec. unfold UINT32_MAX in C2.
  pose proof (u64_in_range (be_value (slice r (databytes r + off + 1) (Z.to_nat (Z.land m 15 + 1))))). lia.
Qed.

Lemma create_bytes_returns (off m : Z) (k : list Z -> plist) : 8 <= off < t_offsetTableOffset t ->
  (forall l, bytes l -> ok (k l)) -> returns (create_bytes r t off m k) ok.
Proof.
  intros Ho Hk. unfold create_bytes. eapply returns_obind; [by apply read_count_returns|]. intros [n q] [Hn Hq].
  destruct R as [Ha Hb]. may_fail C. apply past_objects_ok in C; [|lia..].
  rewrite loads_ok by (apply (objects_within r t T); lia). apply returns_some, Hk. by apply slice_bytes.
Qed.

Lemma create_unicode_returns (off m : Z) : 8 <= off < t_offsetTableOffset t -> returns (create_unicode r t off m (leaves_mutable opt)) ok.
Proof.
  intros Ho. unfold create_unicode. eapply returns_obind; [by apply read_count_returns|]. intros [n q] [Hn Hq].
  destruct R as [Ha Hb]. destruct (check_uint64_add q n false) as [e err] eqn:E.
  destruct (check_uint64_add (e - 1) n err) as [e2 err2] eqn:E2. may_fail C. subst err2.
  destruct err; [by unfold check_uint64_add in E2; case_match|]. apply check_add_ok in E as ->; [|lia..].
  may_fail C. apply Z.ltb_ge in C. destruct (check_uint64_mul n 2 false) as [bc err] eqn:E3. may_fail C2. subst err.
  apply check_mul_ok in E3 as ->; [|lia..]. unfold objectsRangeEnd in C.
  assert (B : q + n * 2 <= databytes r + t_offsetTableOffset t).
  { destruct (Z.eq_dec (q + n) 0); [lia|]. apply check_add_ok in E2; lia. }
  rewrite loads_ok by (apply (objects_within r t T); lia). apply returns_some. cbn [plist_ok].
  rewrite eqb_reflx. apply forallb_range. by eapply swap_chars_ok, slice_bytes.
Qed.

Lemma create_leaf_returns (off m : Z) : 8 <= off < t_offsetTableOffset t -> returns (create_leaf r t opt off m) (fun '(pl, _) => ok pl).
Proof.
  intros Ho.
  assert (K : forall (f : result (option plist)) (b : bool), returns f ok -> returns (obind f (fun pl => Ok (Some (pl, b)))) (fun '(pl, _) => ok pl)).
  { intros f b Hf. eapply returns_obind; [exact Hf|]. intros pl Hpl. by apply returns_some. }
  unfold create_leaf.
  repeat match goal with |- returns (if ?c then _ else _) _ => destruct c end;
    try apply returns_fail; try (by apply returns_some); try apply K.
  - by apply create_int_returns.
  - apply fixed_size_returns; [done|lia|]. intros l Hl El. apply float32_ok, be_value_range; done.
  - apply fixed_size_returns; [done|lia|]. intros l Hl El. apply float64_ok, be_value_range; done.
  - apply fixed_size_returns; [done|lia|]. intros l Hl El. apply in_range_spec, be_value_range; done.
  - apply create_bytes_returns; [done|]. intros l Hl. cbn. rewrite eqb_reflx. by apply forallb_range.
  - apply create_bytes_returns; [done|]. intros l Hl. cbn. rewrite eqb_reflx. apply forallb_range.
    eapply Forall_impl; [exact Hl|]. cbn. lia.
  - by apply create_unicode_returns.
  - by apply create_uid_returns.
Qed.

(** ** Containers *)

Definition cache_ok (p : parse) : Prop := forall m off pl, p_objects p = Some m -> m !! off = Some pl -> ok pl.

Lemma remember_ok (p : parse) (c : bool) (off : Z) (pl : plist) (s : option (gset Z)) :
  cache_ok p -> ok pl -> cache_ok (mkParse (remember (p_objects p) c off pl) s).
Proof.
  intros Hp Hpl m x v E Ex. cbn in E. unfold remember in E. destruct c; [|by eapply Hp].
  destruct (p_objects p) as [m0|] eqn:E0; [|done]. injection E as <-.
  destruct (decide (x = off)) as [->|N]; [rewrite lookup_insert_eq in Ex; by injection Ex as <-|].
  rewrite lookup_insert_ne in Ex by done. by eapply Hp.
Qed.

(** What a call that keeps [set] and creates well-typed objects gives. *)
Definition created (p : parse) (res : parse * plist) : Prop :=
  p_set res.1 = p_set p /\ cache_ok res.1 /\ ok res.2.

Lemma create_list_returns (create : parse -> Z -> result (option (parse * plist))) (s : option (gset Z)) (keys n : nat) (ptr : Z) (p : parse) :
  (forall p off, p_set p = s -> cache_ok p -> returns (create p off) (created p)) -> p_set p = s -> cache_ok p ->
  returns (create_list create r t keys n ptr p)
    (fun '(p', l) => p_set p' = s /\ cache_ok p' /\ Forall ok l /\ length l = n /\ Forall (fun pl => plistIsPrimitive pl = true) (take keys l)).
Proof.
  intros Hc. revert keys ptr p. induction n as [|n IH]; intros keys ptr p Hs Hp; cbn [create_list].
  - apply returns_some. rewrite take_nil. auto.
  - destruct (getOffsetOfRefAt_ok r t R T ptr) as (off & -> & _). cbn [mbind result_bind].
    eapply returns_obind; [by apply Hc|]. intros [p1 pl] (H1 & H2 & H3). cbn in H1, H2, H3. may_fail C.
    eapply returns_obind; [apply IH; [congruence|done]|]. intros [p2 l] (Q1 & Q2 & Q3 & Q4 & Q5). apply returns_some.
    split; [done|]. split; [done|]. split; [by constructor|]. split; [cbn; congruence|].
    destruct keys as [|keys]; cbn in *; [constructor|]. constructor; [by apply negb_false_iff in C|done].
Qed.

Lemma container_ok (m : Z) (l : list plist) : Forall ok l ->
  ((Z.land m 0xf0 =? kMarkerDict) = true -> Forall (fun pl => plistIsPrimitive pl = true) (take (Nat.div2 (length l)) l)) ->
  is_container m = true -> ok (container m (containers_mutable opt) l).
Proof.
  intros Hl Hk Hm. unfold container, is_container in *.
  assert (All : forallb (plist_ok opt) l = true) by (apply forallb_forall; intros x Hx%list_elem_of_In; by rewrite Forall_forall in Hl; apply Hl).
  destruct (Z.eqb_spec (Z.land m 240) kMarkerArray); [cbn; by rewrite eqb_reflx|].
  destruct (Z.eqb_spec (Z.land m 240) kMarkerSet); [cbn; by rewrite eqb_reflx|].
  cbn in Hm. specialize (Hk Hm). cbn [plist_ok]. rewrite eqb_reflx. apply forallb_forall. intros [k v] Hkv%list_elem_of_In.
  apply elem_of_zip_l in Hkv as Hk'. apply elem_of_zip_r in Hkv as Hv. rewrite Forall_forall in Hl, Hk.
  rewrite (Hk _ Hk'), !Hl; [done|by eapply subseteq_drop|by eapply subseteq_take].
Qed.

(** ** The recursion *)

(** The offsets an object may have, and the levels that a path can still have. *)
Definition places : gset Z := list_to_set (seqZ 0 (t_offsetTableOffset t)).

Definition levels (curDepth : Z) (s : option (gset Z)) : nat :=
  match s with
  | Some s => S (size (places ∖ s))
  | None => S (Z.to_nat (16 - curDepth)) + S (size places)
  end.

Lemma size_places : size places = Z.to_nat (t_offsetTableOffset t).
Proof. unfold places. rewrite size_list_to_set by apply NoDup_seqZ. by rewrite length_seqZ. Qed.

(** A child of a container has a level less. *)
Lemma levels_child (curDepth off : Z) (s : option (gset Z)) : 8 <= off < t_offsetTableOffset t ->
  (forall s', s = Some s' -> off ∉ s') -> 0 <= curDepth ->
  let made := match s with None => 15 <? curDepth | Some _ => false end in
  (levels (curDepth + 1) (union {[off]} <$> (if made then Some ∅ else s)) < levels curDepth s)%nat.
Proof.
  intros Ho Hs Hd. assert (Hin : off ∈ places) by (apply elem_of_list_to_set, elem_of_seqZ; lia).
  assert (D : forall s', off ∉ s' -> (size (places ∖ ({[off]} ∪ s')) < size (places ∖ s'))%nat) by (intros s' N; apply subset_size; split; [set_solver|]; intros Hsub; specialize (Hsub off); set_solver).
  destruct s as [s|]; cbn [levels fmap option_fmap option_map].
  - pose proof (D s (Hs s eq_refl)). cbn. lia.
  - destruct (Z.ltb_spec 15 curDepth); cbn; [|lia].
    pose proof (D ∅ ltac:(set_solver)) as D0. rewrite (difference_empty_L places) in D0. lia.
Qed.

Lemma create_object_returns (fuel : nat) (curDepth : Z) (p : parse) (off : Z) :
  0 <= curDepth -> (levels curDepth (p_set p) <= fuel)%nat -> cache_ok p ->
  returns (CFBinaryPlistCreateObjectFiltered fuel r t opt curDepth p off) (created p).
Proof.
  revert curDepth p off. induction fuel as [|fuel IH]; intros d p off Hd Hf Hp; [destruct (p_set p); cbn in Hf; lia|].
  cbn [CFBinaryPlistCreateObjectFiltered]. destruct (p_objects p ≫= lookup off) as [pl|] eqn:El.
  { apply bind_Some in El as (m & Em & El). apply returns_some. split; [done|]. split; [done|]. by eapply Hp. }
  may_fail C1. may_fail C2. apply orb_false_iff in C2 as [C2 C3]. apply Z.ltb_ge in C2, C3. unfold objectsRangeStart, objectsRangeEnd in *.
  assert (Ho : 8 <= off < t_offsetTableOffset t) by lia.
  assert (Hs : forall s', p_set p = Some s' -> off ∉ s').
  { intros s' E. rewrite E in C1. by apply bool_decide_eq_false in C1. }
  destruct (load8_ok r (databytes r + off)) as (m & -> & _); [apply (objects_within r t T); lia|]. cbn [mbind result_bind].
  destruct (is_container m) eqn:Hm.
  - unfold create_container. eapply returns_obind; [by apply read_refs_returns|]. intros [n ptr] [Hn Hptr].
    pose proof (levels_child d off (p_set p) Ho Hs Hd) as L. cbv zeta in L.
    set (made := match p_set p with None => _ | Some _ => _ end) in *. set (s := union {[off]} <$> _) in *.
    eapply returns_obind.
    { apply (create_list_returns _ s); [|done|exact Hp].
      intros p' off' Es Hp'. apply IH; [lia| |done]. rewrite Es. lia. }
    intros [p' l] (Es & Hp' & Hl & Hlen & Hk). apply returns_some.
    assert (Hc : ok (container m (containers_mutable opt) l)).
    { apply container_ok; [done| |done]. intros Hdict. rewrite Hdict in Hk.
      rewrite Hlen, Nat.div2_div. replace (Z.to_nat n / 2)%nat with (Z.to_nat (n / 2)); [done|]. rewrite Z2Nat.inj_div by lia. done. }
    split; [|split; [by apply remember_ok|done]]. cbn [fst p_set]. subst s. rewrite Es. subst made.
    destruct (p_set p) as [s|] eqn:E; cbn; [|by destruct (15 <? d)]. f_equal. specialize (Hs s eq_refl). set_solver.
  - eapply returns_obind; [by apply create_leaf_returns|]. intros [pl b] Hpl. apply returns_some.
    split; [done|]. split; [by apply remember_ok|done].
Qed.

End Safe.

(** ** The trailer and the whole file *)

Lemma trailer_of_ok (l : list Z) : bytes l -> length l = 32%nat ->
  0 <= t_offsetIntSize (trailer_of l) < 256 /\ 0 <= t_objectRefSize (trailer_of l) < 256 /\ 0 <= t_topObject (trailer_of l).
Proof.
  intros H El. assert (N : forall i, (i < 32)%nat -> 0 <= nth i l 0 < 256).
  { intros i Hi. rewrite Forall_forall in H. apply H, list_elem_of_In, nth_In. lia. }
  cbn [t_offsetIntSize t_objectRefSize t_topObject trailer_of]. split; [apply N; lia|]. split; [apply N; lia|].
  apply (be_value_range _ 8 (2 ^ 64)); [by apply Forall_take, Forall_drop|rewrite length_take, length_drop; lia|done].
Qed.

Lemma check_err (x y v : Z) (e : bool) : check_uint64_add x y e = (v, false) -> e = false.
Proof. intros E. unfold check_uint64_add in E. case_match; by simplify_eq. Qed.

Lemma trailer_fails_ok (r : region) (t : CFBinaryPlistTrailer) :
  0 <= t_offsetIntSize t < 256 -> 0 <= t_objectRefSize t < 256 -> trailer_fails r t = false -> trailer_ok r t /\ t_topObject t < t_numObjects t.
Proof.
  intros Hi Hr H. unfold trailer_fails in H.
  destruct (check_uint64_mul _ _ _) as [sz e1] eqn:E1. destruct (check_uint64_add 8 _ _) as [s1 e2] eqn:E2.
  destruct (check_uint64_add s1 _ _) as [s2 e3] eqn:E3. destruct (check_uint64_add s2 _ _) as [s3 e4] eqn:E4.
  rewrite !orb_false_iff in H. decompose [and] H. clear H. subst e1 e4.
  unfold sizeof_trailer in *. apply check_mul_ok in E1 as ->; [|lia..].
  pose proof (check_err _ _ _ _ E4). subst e3. pose proof (check_err _ _ _ _ E3). subst e2.
  apply check_add_ok in E2 as ->; [|lia..]. apply check_add_ok in E3 as ->; [|lia..]. apply check_add_ok in E4 as ->; [|lia..].
  split; [split|]; lia.
Qed.

Lemma offsets_fit_returns (r : region) (size maxOffset : Z) (n : nat) (p : Z) : region_ok r -> 0 <= size ->
  within r p (Z.of_nat n * size) -> returns (offsets_fit r p size maxOffset n) (fun _ => True).
Proof.
  intros R Hs. revert p. induction n as [|n IH]; intros p W; cbn [offsets_fit]; [by apply returns_some|].
  rewrite getSizedInt_ok; [|apply R|done|unfold within in *; nia]. cbn [mbind result_bind]. may_fail C.
  apply IH. unfold within in *. nia.
Qed.

Lemma top_level_returns (r : region) : region_ok r ->
  returns (CFBinaryPlistGetTopLevelInfo r) (fun '(_, off, t) => trailer_ok r t /\ 8 <= off < t_offsetTableOffset t).
Proof.
  intros R. pose proof R as [Ha Hb]. unfold CFBinaryPlistGetTopLevelInfo. may_fail C. apply orb_false_iff in C as [_ C]. apply Z.ltb_ge in C.
  unfold sizeof_trailer in *. rewrite (loads_ok r 7) by (split; lia). cbn [mbind result_bind]. may_fail C2.
  rewrite (loads_ok r 32) by (split; lia). cbn [mbind result_bind]. set (t := trailer_of _). may_fail C3.
  destruct (trailer_of_ok (slice r (databytes r + datalen r - 32) 32)) as (T1 & T2 & T3); [by apply slice_bytes|apply length_slice; split; lia|].
  apply trailer_fails_ok in C3 as [T Ht]; [|done..]. fold t in T1, T2, T3. pose proof T as [Q1 Q2 Q3 Q4 Q5].
  eapply returns_obind; [apply offsets_fit_returns; [done|lia|split; nia]|]. intros _ _.
  rewrite getSizedInt_ok; [|done|lia|split; nia]. cbn [mbind result_bind]. may_fail C4. apply orb_false_iff in C4 as [C4 C5].
  apply Z.ltb_ge in C4. apply Z.leb_gt in C5. set (off := u64 _) in *.
  destruct (load8_ok r (databytes r + off)) as (m & -> & _); [split; nia|]. apply returns_some. split; [done|lia].
Qed.

(** ** Totality and types *)

Lemma create_object_total (r : region) (t : CFBinaryPlistTrailer) (opt : mutability) (objects : option cache) (off : Z) :
  region_ok r -> trailer_ok r t -> cache_ok opt (mkParse objects None) ->
  returns (CFBinaryPlistCreateObject r off t opt objects) (created opt (mkParse objects None)).
Proof.
  intros R T Hc. apply create_object_returns; [done..|cbn [p_set levels]|done]. rewrite size_places. unfold depth_bound. lia.
Qed.

Lemma parse_returns (data : region) (opt : mutability) : region_ok data ->
  returns (CFTryParseBinaryPlist data opt) (fun pl => plist_ok opt pl = true).
Proof.
  intros R. unfold CFTryParseBinaryPlist. case_match eqn:C; [|apply returns_fail].
  eapply returns_obind; [by apply top_level_returns|]. intros [[m off] t] [T Ho].
  eapply returns_obind; [apply (create_object_total data t opt (Some ∅) off R T)|].
  - intros c o pl [= <-]. by rewrite lookup_empty.
  - intros [p pl] (_ & _ & H). by apply returns_some.
Qed.

(** C16. __CFTryParseBinaryPlist returns for every string of bytes, truncated, damaged or cyclic: each
    load is inside the data, the checked arithmetic does not let a pointer wrap, and the set of offsets
    on the path bounds the depth of the recursion. *)
Theorem parse_total (data : region) (opt : mutability) : region_ok data ->
  exists o, CFTryParseBinaryPlist data opt = Ok o.
Proof. intros R. destruct (parse_returns data opt R) as (o & E & _). by exists o. Qed.

(** C17. A property list that __CFTryParseBinaryPlist makes from arbitrary bytes is well typed:
    characters have 16 bits, bytes 8, numbers are ones that CFNumberCreate makes, the keys of
    dictionaries are no containers, and every container and leaf is mutable exactly when the option asks
    for it. *)
Theorem parse_typed (data : region) (opt : mutability) (pl : plist) : region_ok data ->
  CFTryParseBinaryPlist data opt = Ok (Some pl) -> plist_ok opt pl = true.
Proof. intros R E. destruct (parse_returns data opt R) as (o & E' & H). apply H. congruence. Qed.

Lemma array_lookup_returns (r : region) (t : CFBinaryPlistTrailer) (off idx : Z) : region_ok r -> trailer_ok r t ->
  returns (CFBinaryPlistGetOffsetForValueFromArray2 r off t idx) (fun v => 0 <= v < 2 ^ 64).
Proof.
  intros R T. unfold CFBinaryPlistGetOffsetForValueFromArray2, objectsRangeStart, objectsRangeEnd. may_fail C.
  apply orb_false_iff in C as [C1 C2]. apply Z.ltb_ge in C1, C2.
  destruct (load8_ok r (databytes r + off)) as (m & -> & _); [apply (objects_within r t T); lia|]. cbn [mbind result_bind].
  may_fail C. eapply returns_obind; [apply (read_count_returns r t R T); lia|]. intros [n q] [Hn Hq]. may_fail C3.
  destruct (check_uint64_mul _ _ _) as [bc err]. may_fail C4. may_fail C5.
  destruct (getOffsetOfRefAt_ok r t R T (q + idx * t_objectRefSize t)) as (v & -> & Hv). by apply returns_some.
Qed.

End PListSafe.
