(* ===== verification/PListWriter.v ===== *)
(** * CFBinaryPList.c: writing

    The writer puts the objects of a property list into a list, each with a number, and
    writes them one after the other through a buffer of 8160 bytes, then the table of their
    offsets and the trailer.  Objects live in a [store]: the writer compares them by
    address, since the callbacks of its dictionary and of its set have no equality function.

    The stream is the data that CFDataAppendBytes extends, or a CFWriteStream, of which the
    write function is a parameter. *)

From stdpp Require Import base list numbers option gmap.
From Stdlib Require Import ZArith Lia.
From S2P Require Import Prelude BinaryPList.
Import BinaryPList.

Module PListWriter.

(** ** Objects *)

(** The objects by type; the dictionaries have their keys and values in the order of
    CFDictionaryGetKeysAndValues.  [OOther] is an object of another type. *)
Inductive obj : Type :=
| OString (chars : list Z)
| ONumber (n : number)
| OBool (b : bool)
| OData (l : list Z)
| ODate (bits : Z)
| ODict (l : list (Z * Z))
| OArray (l : list Z)
| OUID (v : Z)
| OOther.

Abbreviation store := (gmap Z obj).

Definition load_obj (st : store) (a : Z) : result obj :=
  match st !! a with Some o => Ok o | None => Undef end.

(** The keys and values, or the elements. *)
Definition elements (o : obj) : list Z :=
  match o with ODict l => l.*1 ++ l.*2 | OArray l => l | _ => [] end.

Section Writer.

(** [CFWriteStreamWrite]: the number of bytes that were taken, 0 for a stream that is full,
    negative for an error. *)
Context {stream : Type} (CFWriteStreamWrite : stream -> list Z -> stream * Z).

Inductive sink : Type :=
| DataSink (l : list Z)
| StreamSink (s : stream).

Inductive write_error : Type := DatabytesFull | StreamFull | StreamError.

(** ** The buffer *)

Record wbuf : Type := mkBuf {
  w_stream : option sink;
  w_databytes : option (list Z);
  w_datalen : Z;
  w_error : option write_error;
  w_written : Z;
  w_used : Z;
  w_buffer : list Z
}.

Definition sizeof_buffer : Z := 8192 - 32.

Definition set_stream (s : option sink) (b : wbuf) : wbuf := mkBuf s (w_databytes b) (w_datalen b) (w_error b) (w_written b) (w_used b) (w_buffer b).
Definition set_databytes (d : option (list Z)) (b : wbuf) : wbuf := mkBuf (w_stream b) d (w_datalen b) (w_error b) (w_written b) (w_used b) (w_buffer b).
Definition set_error (e : option write_error) (b : wbuf) : wbuf := mkBuf (w_stream b) (w_databytes b) (w_datalen b) e (w_written b) (w_used b) (w_buffer b).
Definition set_written (n : Z) (b : wbuf) : wbuf := mkBuf (w_stream b) (w_databytes b) (w_datalen b) (w_error b) n (w_used b) (w_buffer b).
Definition set_used (n : Z) (b : wbuf) : wbuf := mkBuf (w_stream b) (w_databytes b) (w_datalen b) (w_error b) (w_written b) n (w_buffer b).
Definition set_buffer (l : list Z) (b : wbuf) : wbuf := mkBuf (w_stream b) (w_databytes b) (w_datalen b) (w_error b) (w_written b) (w_used b) l.

Abbreviation len l := (Z.of_nat (length l)).

(** memmove of [l] to the [i]-th byte of [m]. *)
Definition memmove_at (m : list Z) (i : Z) (l : list Z) : result (list Z) :=
  if (0 <=? i) && (i + len l <=? len m) then Ok (take (Z.to_nat i) m ++ l ++ drop (Z.to_nat i + length l) m) else Undef.

(** The loop over what CFWriteStreamWrite takes: the stream, the count and an error. *)
Fixpoint write_loop (fuel : nat) (s : stream) (written : Z) (bytes : list Z) : result (stream * Z * option write_error) :=
  match bytes with
  | [] => Ok (s, written, None)
  | _ =>
    match fuel with
    | O => NoFuel
    | S fuel =>
      let '(s, ret) := CFWriteStreamWrite s bytes in
      if ret =? 0 then Ok (s, written, Some StreamFull)
      else if ret <? 0 then Ok (s, written, Some StreamError)
      else write_loop fuel s (u64 (written + ret)) (drop (Z.to_nat ret) bytes)
    end
  end.

Definition writeBytes (buf : wbuf) (bytes : list Z) : result wbuf :=
  match bytes, w_error buf with
  | [], _ => Ok buf
  | _, Some _ => Ok buf
  | _, None =>
    let '(tmpSum, err) := check_uint64_add (w_written buf) (len bytes) false in
    let full := err || (w_datalen buf <? tmpSum) in
    if match w_databytes buf with Some _ => full | None => false end then Ok (set_error (Some DatabytesFull) buf) else
    d ← match w_databytes buf with
        | Some d => d ← memmove_at d (w_written buf) bytes; Ok (Some d)
        | None => Ok None
        end;
    let buf := set_databytes d buf in
    match w_stream buf with
    | Some (StreamSink s) =>
      '(s, written, e) ← write_loop (length bytes) s (w_written buf) bytes;
      Ok (set_error e (set_written written (set_stream (Some (StreamSink s)) buf)))
    | Some (DataSink l) => Ok (set_written (u64 (w_written buf + len bytes)) (set_stream (Some (DataSink (l ++ bytes))) buf))
    | None => Ok (set_written (u64 (w_written buf + len bytes)) buf)
    end
  end.

Definition bufferFlush (buf : wbuf) : result wbuf :=
  buf ← writeBytes buf (take (Z.to_nat (w_used buf)) (w_buffer buf));
  Ok (set_used 0 buf).

(** The bytes go to the buffer only when somebody will get them. *)
Definition fill (buf : wbuf) (i : Z) (l : list Z) : result wbuf :=
  match w_stream buf, w_databytes buf with
  | None, None => Ok buf
  | _, _ => m ← memmove_at (w_buffer buf) i l; Ok (set_buffer m buf)
  end.

Definition bufferWrite (buf : wbuf) (bytes : list Z) : result wbuf :=
  let count := len bytes in
  if count =? 0 then Ok buf else
  if sizeof_buffer <=? count then buf ← bufferFlush buf; writeBytes buf bytes else
  let copyLen := Z.min count (sizeof_buffer - w_used buf) in
  buf ← fill buf (w_used buf) (take (Z.to_nat copyLen) bytes);
  let buf := set_used (s32 (w_used buf + copyLen)) buf in
  if sizeof_buffer =? w_used buf then
    buf ← writeBytes buf (take (Z.to_nat sizeof_buffer) (w_buffer buf));
    buf ← fill buf 0 (drop (Z.to_nat copyLen) bytes);
    Ok (set_used (s32 (count - copyLen)) buf)
  else Ok buf.

(** ** Objects to bytes *)

(** The last [n] of the [w] bytes of an integer that has been swapped to big-endian. *)
Definition big_bytes (w n : nat) (v : Z) : list Z := drop (w - n) (le_bytes w (swap_bytes w v)).

Definition int_size (bigint : Z) : Z * Z :=
  if bigint <=? 0xff then (1, 0) else if bigint <=? 0xffff then (2, 1) else if bigint <=? 0xffffffff then (4, 2) else (8, 3).

Definition appendInt (buf : wbuf) (bigint : Z) : result wbuf :=
  let '(nbytes, lg) := int_size bigint in
  buf ← bufferWrite buf [Z.lor kMarkerInt lg];
  bufferWrite buf (big_bytes 8 (Z.to_nat nbytes) bigint).

Definition appendUID (buf : wbuf) (value : Z) : result wbuf :=
  let '(nbytes, _) := int_size value in
  buf ← bufferWrite buf [Z.lor kMarkerUID (u8 (nbytes - 1))];
  bufferWrite buf (big_bytes 8 (Z.to_nat nbytes) value).

(** A marker with a count, and the count behind it when it is 15 or more. *)
Definition append_count (buf : wbuf) (marker count : Z) : result wbuf :=
  buf ← bufferWrite buf [u8 (Z.lor marker (if count <? 15 then count else 0xf))];
  if 15 <=? count then appendInt buf (u64 count) else Ok buf.

(** [CFStringGetBytes] for ASCII without a loss byte: the characters up to the first that is
    not ASCII. *)
Fixpoint CFStringGetASCII (chars : list Z) : list Z :=
  match chars with c :: chars => if c <? 0x80 then c :: CFStringGetASCII chars else [] | [] => [] end.

Definition appendString (buf : wbuf) (chars : list Z) : result wbuf :=
  let bytes := CFStringGetASCII chars in
  if (length bytes =? length chars)%nat then
    buf ← append_count buf kMarkerASCIIString (len bytes);
    bufferWrite buf bytes
  else
    buf ← append_count buf kMarkerUnicode16String (len chars);
    bufferWrite buf (concat (map (fun c => le_bytes 2 (swap_bytes 2 c)) chars)).

Definition appendNumber (buf : wbuf) (n : number) : result wbuf :=
  match n with
  | Float32 bits =>
    buf ← bufferWrite buf [Z.lor kMarkerReal 2];
    bufferWrite buf (le_bytes 4 (swap_bytes 4 bits))
  | Float64 bits =>
    buf ← bufferWrite buf [Z.lor kMarkerReal 3];
    bufferWrite buf (le_bytes 8 (swap_bytes 8 bits))
  | SInt128 high low =>
    buf ← bufferWrite buf [Z.lor kMarkerInt 4];
    bufferWrite buf (le_bytes 8 (swap_bytes 8 high) ++ le_bytes 8 (swap_bytes 8 low))
  | SInt64 v => appendInt buf (u64 v)
  end.

(** The references to a list of objects.  A reference has 32 bits before the leading ones
    are dropped. *)
Fixpoint append_refs (buf : wbuf) (objtable : gmap Z Z) (objRefSize : Z) (l : list Z) : result wbuf :=
  match l with
  | [] => Ok buf
  | value :: l =>
    let refnum := u32 (default 0 (objtable !! value)) in
    if 4 <? objRefSize then Undef else
    buf ← bufferWrite buf (big_bytes 4 (Z.to_nat objRefSize) refnum);
    append_refs buf objtable objRefSize l
  end.

(** [_appendObject] with a table: the new buffer and false for an object that has no
    representation. *)
Definition appendObject (buf : wbuf) (o : obj) (objtable : gmap Z Z) (objRefSize : Z) : result (wbuf * bool) :=
  match o with
  | OString chars => buf ← appendString buf chars; Ok (buf, true)
  | ONumber n => buf ← appendNumber buf n; Ok (buf, true)
  | OBool b => buf ← bufferWrite buf [if b then kMarkerTrue else kMarkerFalse]; Ok (buf, true)
  | OData l => buf ← append_count buf kMarkerData (len l); buf ← bufferWrite buf l; Ok (buf, true)
  | ODate bits => buf ← bufferWrite buf [kMarkerDate]; buf ← bufferWrite buf (le_bytes 8 (swap_bytes 8 bits)); Ok (buf, true)
  | ODict l =>
    buf ← append_count buf kMarkerDict (Z.of_nat (length l));
    buf ← append_refs buf objtable objRefSize (elements o); Ok (buf, true)
  | OArray l =>
    buf ← append_count buf kMarkerArray (len l);
    buf ← append_refs buf objtable objRefSize (elements o); Ok (buf, true)
  | OUID v => buf ← appendUID buf v; Ok (buf, true)
  | OOther => Ok (buf, false)
  end.

(** ** Numbering the objects *)

Record flat : Type := mkFlat { objlist : list Z; objtable : gmap Z Z; uniquingset : gset Z }.

Definition is_uniqued (o : obj) : bool :=
  match o with OString _ | ONumber _ | ODate _ | OData _ => true | _ => false end.

(** The loops over the elements of a container. *)
Fixpoint flatten_all (flatten : flat -> Z -> result flat) (f : flat) (l : list Z) : result flat :=
  match l with
  | [] => Ok f
  | a :: l => f ← flatten f a; flatten_all flatten f l
  end.

(** [_flattenPlist].  The member of [uniquingset] that is equal to [plist] is [plist]. *)
Fixpoint flattenPlist (fuel : nat) (st : store) (f : flat) (plist : Z) : result flat :=
  match fuel with
  | O => NoFuel
  | S fuel =>
    o ← load_obj st plist;
    if is_uniqued o && bool_decide (plist ∈ uniquingset f) then Ok f else
    let uniquingset := if is_uniqued o then {[plist]} ∪ uniquingset f else uniquingset f in
    let refnum := u32 (len (objlist f)) in
    let objtable := match objtable f !! plist with Some _ => objtable f | None => <[plist := refnum]> (objtable f) end in
    flatten_all (flattenPlist fuel st) (mkFlat (objlist f ++ [plist]) objtable uniquingset) (elements o)
  end.

(** ** The file *)

(** The loops of [_byteCount]. *)
Fixpoint count_mask (fuel : nat) (count mask size : Z) : Z :=
  match fuel with
  | O => size
  | S fuel => if Z.land count mask =? 0 then size else count_mask fuel count (u64 (Z.shiftl mask 8)) (u8 (size + 1))
  end.

Fixpoint round_size (fuel : nat) (size : Z) : Z :=
  match fuel with
  | O => size
  | S fuel =>
    if negb (size =? 1) && negb (size =? 2) && negb (size =? 4) && negb (size =? 8) && (size <=? 8)
    then round_size fuel (u8 (size + 1)) else size
  end.

Definition byteCount (count : Z) : Z := round_size 9 (count_mask 9 count ULLONG_MAX 0).

(** The loop over [objlist]: the offsets, or None when an object cannot be written. *)
Fixpoint write_objects (st : store) (objtable : gmap Z Z) (objRefSize : Z) (buf : wbuf) (l : list Z) : result (wbuf * option (list Z)) :=
  match l with
  | [] => Ok (buf, Some [])
  | a :: l =>
    let off := u64 (w_written buf + w_used buf) in
    o ← load_obj st a;
    '(buf, success) ← appendObject buf o objtable objRefSize;
    if success : bool then
      '(buf, offs) ← write_objects st objtable objRefSize buf l;
      Ok (buf, option_map (cons off) offs)
    else Ok (buf, None)
  end.

Fixpoint write_offsets (buf : wbuf) (offsetIntSize : Z) (offsets : list Z) : result wbuf :=
  match offsets with
  | [] => Ok buf
  | off :: offsets => buf ← bufferWrite buf (big_bytes 8 (Z.to_nat offsetIntSize) off); write_offsets buf offsetIntSize offsets
  end.

(** "bplist00". *)
Definition header : list Z := magic ++ [48].

(** The bytes of the structure that the writer fills in. *)
Definition trailer_bytes (offsetIntSize objectRefSize numObjects offsetTableOffset : Z) : list Z :=
  replicate 6 0 ++ [offsetIntSize; objectRefSize] ++ le_bytes 8 (swap_bytes 8 numObjects) ++ le_bytes 8 0 ++ le_bytes 8 (swap_bytes 8 offsetTableOffset).

(** What the stream holds in the end, the value that is returned and the error.  [garbage] is
    what the allocated buffer holds. *)
Definition CFBinaryPlistWrite (fuel : nat) (st : store) (plist : Z) (out : sink) (garbage : list Z) : result (option sink * Z * option write_error) :=
  f ← flattenPlist fuel st (mkFlat [] ∅ ∅) plist;
  let cnt := len (objlist f) in
  let buf := mkBuf (Some out) None 0 None 0 0 garbage in
  buf ← bufferWrite buf header;
  let objectRefSize := byteCount cnt in
  '(buf, offsets) ← write_objects st (objtable f) objectRefSize buf (objlist f);
  match offsets with
  | None => Ok (w_stream buf, 0, w_error buf)
  | Some offsets =>
    let length_so_far := u64 (w_written buf + w_used buf) in
    let offsetIntSize := byteCount length_so_far in
    buf ← write_offsets buf offsetIntSize offsets;
    buf ← bufferWrite buf (trailer_bytes offsetIntSize objectRefSize cnt length_so_far);
    buf ← bufferFlush buf;
    match w_error buf with
    | Some e => Ok (w_stream buf, 0, Some e)
    | None => Ok (w_stream buf, u64 (u64 (length_so_far + cnt * offsetIntSize) + sizeof_trailer), None)
    end
  end.

End Writer.

Arguments sink : clear implicits.
Arguments wbuf : clear implicits.

End PListWriter.
