(* ===== verification/PListBuffer.v ===== *)
(** * Binary property lists: the buffer of the writer

    The buffer is transparent: whatever the sizes of the writes, the stream and the part
    of the buffer in use hold the bytes in the order in which they were written, and the
    two counters tell how many there are.  This holds for data and for every stream that
    takes at least a byte of what it is offered ([StreamLaws]). *)

From stdpp Require Import base list numbers option gmap.
From Stdlib Require Import ZArith Lia.
From S2P Require Import Prelude BinaryPList PListWriter.
Import BinaryPList PListWriter.

Module PListBuffer.

Abbreviation len l := (Z.of_nat (length l)).

(** What a stream has taken, and the promise of CFWriteStreamWrite on a stream that is
    neither full nor broken. *)
Class StreamLaws {stream : Type} (write : stream -> list Z -> stream * Z) (taken : stream -> list Z) : Prop :=
  stream_takes : forall s l, l <> [] -> 1 <= (write s l).2 <= len l /\ taken (write s l).1 = taken s ++ take (Z.to_nat (write s l).2) l.

Section Buffer.

Context {stream : Type} (write : stream -> list Z -> stream * Z) (taken : stream -> list Z) `{!StreamLaws write taken}.

Definition sink_bytes (k : sink stream) : list Z :=
  match k with DataSink l => l | StreamSink s => taken s end.

(** The loop ends and the stream has everything. *)
Lemma write_loop_ok (fuel : nat) (s : stream) (n : Z) (l : list Z) : (length l <= fuel)%nat -> 0 <= n -> n + len l < 2 ^ 64 ->
  exists s', write_loop write fuel s n l = Ok (s', n + len l, None) /\ taken s' = taken s ++ l.
Proof.
  revert s n l. induction fuel as [|fuel IH]; intros s n [|b l] Hf Hn Hl; cbn [length] in *; try lia;
    try (exists s; cbn; by rewrite app_nil_r, Z.add_0_r).
  set (k := b :: l) in *. change (S (length l)) with (length k) in *.
  destruct (stream_takes s k ltac:(done)) as [Hr Ht]. unfold k at 1. cbn [write_loop]. fold k.
  destruct (write s k) as [s1 ret]. cbn [fst snd] in Hr, Ht.
  rewrite (proj2 (Z.eqb_neq ret 0)), (proj2 (Z.ltb_ge ret 0)) by lia.
  rewrite uwrap_small by (unfold in_u; lia).
  destruct (IH s1 (n + ret) (drop (Z.to_nat ret) k)) as (s' & -> & E); [rewrite length_drop; lia|lia|rewrite length_drop; lia|].
  exists s'. rewrite E, Ht, <- app_assoc, take_drop. split; [|done]. rewrite length_drop. do 3 f_equal. lia.
Qed.

(** The stream holds [l], the counter says so, nothing went wrong. *)
Record wrote (pre : list Z) (b : wbuf stream) (l : list Z) : Prop := {
  wr_stream : exists k, w_stream b = Some k /\ sink_bytes k = pre ++ l;
  wr_databytes : w_databytes b = None;
  wr_error : w_error b = None;
  wr_written : w_written b = len l;
  wr_buffer : len (w_buffer b) = sizeof_buffer
}.

Lemma writeBytes_ok (pre l bs : list Z) (b : wbuf stream) : wrote pre b l -> len l + len bs < 2 ^ 64 ->
  exists b', writeBytes write b bs = Ok b' /\ wrote pre b' (l ++ bs) /\ w_used b' = w_used b /\ w_buffer b' = w_buffer b.
Proof.
  intros [(k & Ek & Es) Hd He Hw Hb] Hl. destruct bs as [|c bs].
  { exists b. rewrite app_nil_r. cbn. split; [done|]. by split; [split; eauto|]. }
  set (w := c :: bs) in *. unfold writeBytes. unfold w at 1. rewrite He, Hd. fold w. destruct (check_uint64_add _ _ _) as [x e].
  cbn [mbind result_bind set_databytes w_stream]. rewrite Ek.
  destruct k as [d|s]; cbn [set_stream set_databytes set_written set_error sink_bytes] in *.
  - eexists. split; [done|]. split; [|done]. split; cbn [w_stream w_databytes w_error w_written w_buffer set_written set_databytes set_stream set_error]; [|done..| |done].
    + eexists. split; [done|]. cbn. by rewrite Es, app_assoc.
    + rewrite length_app, uwrap_small by (unfold in_u; lia). lia.
  - change (w_written (set_databytes None b)) with (w_written b). destruct (write_loop_ok (length w) s (w_written b) w) as (s' & -> & E); [done|lia|lia|]. cbn [mbind result_bind].
    eexists. split; [done|]. split; [|done]. split; cbn [w_stream w_databytes w_error w_written w_buffer set_written set_databytes set_stream set_error]; [|done..| |done].
    + eexists. split; [done|]. cbn. by rewrite E, Es, app_assoc.
    + rewrite length_app. lia.
Qed.

(** The stream and the buffer together hold [l]. *)
Definition emitted (pre : list Z) (b : wbuf stream) (l : list Z) : Prop :=
  exists l1, wrote pre b l1 /\ 0 <= w_used b < sizeof_buffer /\ l = l1 ++ take (Z.to_nat (w_used b)) (w_buffer b).

Lemma emitted_count (pre : list Z) (b : wbuf stream) (l : list Z) : emitted pre b l -> w_written b + w_used b = len l.
Proof. intros (l1 & [] & Hu & ->). rewrite length_app, length_take. unfold sizeof_buffer in *. lia. Qed.

Lemma bufferFlush_ok (pre l : list Z) (b : wbuf stream) : emitted pre b l -> len l < 2 ^ 64 ->
  exists b', bufferFlush write b = Ok b' /\ wrote pre b' l /\ w_used b' = 0.
Proof.
  intros (l1 & W & Hu & ->) Hl. rewrite length_app in Hl. unfold bufferFlush.
  edestruct (writeBytes_ok pre l1 (take (Z.to_nat (w_used b)) (w_buffer b)) b) as (b' & -> & [] & _ & _); [done|lia|].
  eexists. split; [done|]. split; [|done]. by split.
Qed.

Lemma fill_ok (pre l bs : list Z) (b : wbuf stream) (i : Z) : wrote pre b l -> 0 <= i -> i + len bs <= sizeof_buffer ->
  exists b', fill b i bs = Ok b' /\ wrote pre b' l /\ w_used b' = w_used b /\
    w_buffer b' = take (Z.to_nat i) (w_buffer b) ++ bs ++ drop (Z.to_nat i + length bs) (w_buffer b).
Proof.
  intros [(k & Ek & Es) Hd He Hw Hb] Hi Hl. unfold fill. rewrite Ek. unfold memmove_at.
  destruct (_ && _) eqn:C; [|rewrite andb_false_iff, !Z.leb_gt in C; lia]. cbn [mbind result_bind].
  eexists. split; [done|]. split; [|done]. split; cbn; [by eexists|done..|].
  rewrite !length_app, length_take, length_drop. unfold sizeof_buffer in *. lia.
Qed.

(** A write of any size appends its bytes. *)
Lemma bufferWrite_ok (pre l bs : list Z) (b : wbuf stream) : emitted pre b l -> len l + len bs < 2 ^ 64 ->
  exists b', bufferWrite write b bs = Ok b' /\ emitted pre b' (l ++ bs).
Proof.
  intros E Hl. unfold bufferWrite. destruct (Z.eqb_spec (len bs) 0) as [Z0|Z0].
  { destruct bs; [|cbn in Z0; lia]. exists b. by rewrite app_nil_r. }
  destruct (Z.leb_spec sizeof_buffer (len bs)) as [Big|Small].
  { destruct (bufferFlush_ok pre l b E) as (b1 & -> & W & U); [lia|]. cbn [mbind result_bind].
    destruct (writeBytes_ok pre l bs b1 W Hl) as (b2 & -> & W2 & U2 & _). exists b2. split; [done|].
    exists (l ++ bs). rewrite U2, U. split; [done|]. split; [unfold sizeof_buffer; lia|]. by rewrite app_nil_r. }
  destruct E as (l1 & W & Hu & ->). pose proof (wr_buffer _ _ _ W) as Hb. set (c := Z.min _ _).
  assert (Hc : 0 <= c <= len bs) by lia.
  assert (Lt : length (take (Z.to_nat c) bs) = Z.to_nat c) by (rewrite length_take; lia).
  destruct (fill_ok pre l1 (take (Z.to_nat c) bs) b (w_used b) W) as (b1 & -> & W1 & U1 & B1); [lia|lia|]. cbn [mbind result_bind]. cbv zeta.
  rewrite U1, (swrap_small 32) by (unfold in_s, sizeof_buffer in *; lia). rewrite Lt in B1.
  assert (T1 : take (Z.to_nat (w_used b + c)) (w_buffer b1) = take (Z.to_nat (w_used b)) (w_buffer b) ++ take (Z.to_nat c) bs).
  { rewrite B1, app_assoc, take_app_length'; [done|]. rewrite length_app, length_take, Lt. unfold sizeof_buffer in *. lia. }
  set (b1' := set_used _ _). assert (W1' : wrote pre b1' l1) by (by destruct W1; split). change (w_used b1') with (w_used b + c).
  destruct (Z.eqb_spec sizeof_buffer (w_used b + c)) as [Full|NF].
  - change (w_buffer b1') with (w_buffer b1). rewrite length_app in Hl. rewrite Full, T1.
    destruct (writeBytes_ok pre l1 (take (Z.to_nat (w_used b)) (w_buffer b) ++ take (Z.to_nat c) bs) b1' W1') as (b2 & -> & W2 & U2 & B2).
    { rewrite length_app, Lt. lia. }
    cbn [mbind result_bind]. destruct (fill_ok _ _ (drop (Z.to_nat c) bs) b2 0 W2) as (b3 & -> & W3 & U3 & B3); [lia|rewrite length_drop; lia|].
    cbn [mbind result_bind]. eexists. split; [done|]. rewrite (swrap_small 32) by (unfold in_s, sizeof_buffer in *; lia).
    eexists. split; [by destruct W3; split|]. cbn [w_used w_buffer set_used]. split; [lia|].
    rewrite B3, take_0, app_nil_l, (take_app_length' (drop (Z.to_nat c) bs)) by (rewrite length_drop; lia).
    rewrite <- !app_assoc. by rewrite take_drop.
  - eexists. split; [done|]. exists l1. split; [done|]. change (w_used b1') with (w_used b + c). change (w_buffer b1') with (w_buffer b1). split; [lia|].
    rewrite T1, <- app_assoc. do 2 f_equal. symmetry. apply take_ge. lia.
Qed.

End Buffer.

Arguments wrote {stream} taken.
Arguments emitted {stream} taken.

End PListBuffer.
