(* ===== verification/PListFormat.v ===== *)
(** * Binary property lists: the format and the writer

    [document] is the file format as a function: the header, the encodings of the objects,
    their offsets and the trailer.  The writer appends the document to its stream, whatever
    the stream is and however the buffer cuts it. *)

From stdpp Require Import base list numbers option gmap.
From Stdlib Require Import ZArith Lia.
From S2P Require Import Prelude BinaryPList PListBytes PListWriter PListBuffer.
Import BinaryPList PListBytes PListWriter PListBuffer.

Module PListFormat.

(** ** The format *)

Definition be_bytes (n : nat) (v : Z) : list Z := reverse (le_bytes n v).

Definition encode_int (v : Z) : list Z :=
  let '(n, lg) := int_size v in Z.lor kMarkerInt lg :: be_bytes (Z.to_nat n) v.

Definition encode_count (marker n : Z) : list Z :=
  if n <? 15 then [Z.lor marker n] else Z.lor marker 15 :: encode_int n.

Definition is_ascii (chars : list Z) : bool := forallb (fun c => c <? 0x80) chars.

Definition encode_number (n : number) : list Z :=
  match n with
  | Float32 bits => Z.lor kMarkerReal 2 :: be_bytes 4 bits
  | Float64 bits => Z.lor kMarkerReal 3 :: be_bytes 8 bits
  | SInt128 high low => Z.lor kMarkerInt 4 :: be_bytes 8 high ++ be_bytes 8 low
  | SInt64 v => encode_int (u64 v)
  end.

Definition encode_refs (table : gmap Z Z) (size : Z) (l : list Z) : list Z :=
  concat (map (fun a => be_bytes (Z.to_nat size) (u32 (default 0 (table !! a)))) l).

Definition encode_obj (table : gmap Z Z) (size : Z) (o : obj) : option (list Z) :=
  match o with
  | OString chars =>
    if is_ascii chars then Some (encode_count kMarkerASCIIString (len chars) ++ chars)
    else Some (encode_count kMarkerUnicode16String (len chars) ++ concat (map (be_bytes 2) chars))
  | ONumber n => Some (encode_number n)
  | OBool b => Some [if b then kMarkerTrue else kMarkerFalse]
  | OData l => Some (encode_count kMarkerData (len l) ++ l)
  | ODate bits => Some (kMarkerDate :: be_bytes 8 bits)
  | ODict l => Some (encode_count kMarkerDict (Z.of_nat (length l)) ++ encode_refs table size (elements o))
  | OArray l => Some (encode_count kMarkerArray (len l) ++ encode_refs table size (elements o))
  | OUID v => let '(n, _) := int_size v in Some (Z.lor kMarkerUID (n - 1) :: be_bytes (Z.to_nat n) v)
  | OOther => None
  end.

(** The bytes an integer needs: 1, 2, 4 or 8. *)
Definition width (n : Z) : Z := if n <? 2 ^ 8 then 1 else if n <? 2 ^ 16 then 2 else if n <? 2 ^ 32 then 4 else 8.

Definition encodings (st : store) (f : flat) : option (list (list Z)) :=
  mapM (fun a => st !! a ≫= encode_obj (objtable f) (width (len (objlist f)))) (objlist f).

Fixpoint offsets_from (off : Z) (encs : list (list Z)) : list Z :=
  match encs with [] => [] | e :: encs => off :: offsets_from (off + len e) encs end.

Definition table_offset (encs : list (list Z)) : Z := 8 + len (concat encs).

Definition trailer_format (f : flat) (encs : list (list Z)) : list Z :=
  replicate 6 0 ++ [width (table_offset encs); width (len (objlist f))] ++ be_bytes 8 (len (objlist f)) ++ be_bytes 8 0 ++ be_bytes 8 (table_offset encs).

Definition layout (f : flat) (encs : list (list Z)) : list Z :=
  header ++ concat encs ++ concat (map (be_bytes (Z.to_nat (width (table_offset encs)))) (offsets_from 8 encs)) ++ trailer_format f encs.

Definition document (st : store) (f : flat) : option (list Z) := layout f <$> encodings st f.

(** ** Bytes *)

Lemma length_be_bytes (n : nat) (v : Z) : length (be_bytes n v) = n.
Proof. unfold be_bytes. by rewrite length_reverse, length_le_bytes. Qed.

Lemma be_bytes_bytes (n : nat) (v : Z) : bytes (be_bytes n v).
Proof. apply Forall_reverse, le_bytes_bytes. Qed.

Lemma be_value_bytes (n : nat) (v : Z) : 0 <= v < 256 ^ Z.of_nat n -> be_value (be_bytes n v) = v.
Proof. intros H. unfold be_value, be_bytes. rewrite reverse_involutive. by apply le_value_bytes. Qed.

Lemma swapped_bytes (w : nat) (v : Z) : le_bytes w (swap_bytes w v) = be_bytes w v.
Proof.
  unfold swap_bytes, be_bytes. rewrite <- (length_le_bytes w v) at 1. rewrite <- length_reverse. apply le_bytes_value, Forall_reverse, le_bytes_bytes.
Qed.

Lemma take_le_bytes (n w : nat) (v : Z) : (n <= w)%nat -> take n (le_bytes w v) = le_bytes n v.
Proof. revert n v. induction w as [|w IH]; intros [|n] v H; cbn; [done|lia|done|]. by rewrite IH by lia. Qed.

Lemma big_bytes_eq (w n : nat) (v : Z) : (n <= w)%nat -> big_bytes w n v = be_bytes n v.
Proof.
  intros H. unfold big_bytes. rewrite swapped_bytes. unfold be_bytes. rewrite <- (take_le_bytes n w) by done.
  rewrite reverse_take, length_le_bytes. done.
Qed.

Lemma lor_byte (m n : Z) : 0 <= m < 256 -> 0 <= n < 256 -> 0 <= Z.lor m n < 256.
Proof.
  intros Hm Hn. split; [apply Z.lor_nonneg; lia|]. destruct (Z.eq_dec (Z.lor m n) 0) as [->|N]; [lia|].
  apply (Z.log2_lt_pow2 _ 8); [pose proof (proj2 (Z.lor_nonneg m n)); lia|].
  assert (L : forall z, 0 <= z < 256 -> Z.log2 z < 8).
  { intros z Hz. destruct (Z.eq_dec z 0) as [->|]; [done|]. apply Z.log2_lt_pow2; lia. }
  rewrite Z.log2_lor by lia. apply Z.max_lub_lt; by apply L.
Qed.

Lemma int_size_spec (v : Z) : 0 <= v < 2 ^ 64 ->
  exists lg, int_size v = (2 ^ lg, lg) /\ 0 <= lg <= 3 /\ v < 256 ^ (2 ^ lg) /\ (v < 2 ^ 63 -> lg = 3 -> v < 2 ^ 63) /\ (v < 2 ^ 32 -> lg <= 2).
Proof.
  intros H. unfold int_size. repeat case_match; [exists 0|exists 1|exists 2|exists 3]; split_and!; try done; lia.
Qed.

Lemma get_ascii (chars : list Z) : length (CFStringGetASCII chars) = length chars <-> is_ascii chars = true.
Proof.
  induction chars as [|c chars IH]; [done|]. cbn. destruct (c <? 128); cbn; [|done]. rewrite <- IH. lia.
Qed.

Lemma get_ascii_all (chars : list Z) : is_ascii chars = true -> CFStringGetASCII chars = chars.
Proof. induction chars as [|c chars IH]; [done|]. cbn. destruct (c <? 128); [|done]. cbn. intros H. by rewrite IH. Qed.

(** The mask of [_byteCount] finds the bytes in use. *)
Lemma mask_zero (m n : Z) : 0 <= m <= 64 -> 0 <= n < 2 ^ 64 -> (Z.land n (2 ^ 64 - 2 ^ m) =? 0) = (n <? 2 ^ m).
Proof.
  intros Hm Hn. assert (E : 2 ^ 64 - 2 ^ m = Z.shiftl (Z.ones (64 - m)) m).
  { rewrite Z.shiftl_mul_pow2, Z.ones_equiv by lia. rewrite <- Z.sub_1_r, Z.mul_sub_distr_r, <- Z.pow_add_r by lia. f_equal; [f_equal|]; lia. }
  assert (E2 : Z.land n (Z.shiftl (Z.ones (64 - m)) m) = n / 2 ^ m * 2 ^ m).
  { rewrite <- (Z.shiftl_mul_pow2 _ m), <- Z.shiftr_div_pow2 by lia. apply Z.bits_inj'. intros i Hi.
    rewrite Z.land_spec, !Z.shiftl_spec by lia. destruct (Z.ltb_spec i m).
    - rewrite !(Z.testbit_neg_r _ (i - m)) by lia. by rewrite andb_false_r.
    - rewrite Z.shiftr_spec by lia. replace (i - m + m) with i by lia. destruct (Z.ltb_spec i 64).
      + rewrite Z.ones_spec_low by lia. by rewrite andb_true_r.
      + rewrite Z.ones_spec_high, andb_false_r by lia. symmetry. apply Z.bits_above_log2; [lia|].
        destruct (Z.eq_dec n 0) as [->|]; [cbn; lia|]. enough (Z.log2 n < 64) by lia. apply Z.log2_lt_pow2; lia. }
  rewrite E, E2. pose proof (Z.pow_pos_nonneg 2 m ltac:(lia) ltac:(lia)) as Hp. pose proof (Z.div_pos n (2 ^ m)).
  destruct (Z.ltb_spec n (2 ^ m)); [rewrite Z.div_small by lia; done|].
  apply Z.eqb_neq. pose proof (Z.div_str_pos n (2 ^ m)). nia.
Qed.

Lemma byteCount_width (n : Z) : 0 <= n < 2 ^ 64 -> byteCount n = width n.
Proof.
  intros H. unfold byteCount, width.
  assert (S : forall (fuel : nat) (m size : Z), 0 <= m <= 56 ->
    count_mask (S fuel) n (2 ^ 64 - 2 ^ m) size = if n <? 2 ^ m then size else count_mask fuel n (2 ^ 64 - 2 ^ (m + 8)) (u8 (size + 1))).
  { intros fuel m size Hm. cbn [count_mask]. rewrite mask_zero by lia. replace (u64 (Z.shiftl (2 ^ 64 - 2 ^ m) 8)) with (2 ^ 64 - 2 ^ (m + 8)); [done|].
    rewrite Z.shiftl_mul_pow2, Z.mul_sub_distr_r, <- (Z.pow_add_r 2 m) by lia. unfold uwrap.
    assert (2 ^ (m + 8) <= 2 ^ 64) by (apply Z.pow_le_mono_r; lia). pose proof (Z.pow_pos_nonneg 2 (m + 8)).
    replace (2 ^ 64 * 2 ^ 8 - 2 ^ (m + 8)) with (2 ^ 64 - 2 ^ (m + 8) + 255 * 2 ^ 64) by lia.
    rewrite Z.mod_add, Z.mod_small by lia. done. }
  change ULLONG_MAX with (2 ^ 64 - 2 ^ 0). do 8 (rewrite S by lia; cbn [Z.add Pos.add Pos.succ]).
  cbn [count_mask]. rewrite !mask_zero by lia.
  repeat match goal with |- context [?a <? ?b] => destruct (Z.ltb_spec a b) end; try lia; done.
Qed.

(** ** The writer writes the format *)

Section Refinement.

Context {stream : Type} (write : stream -> list Z -> stream * Z) (taken : stream -> list Z) `{!StreamLaws write taken}.

(** A step of the writer that appends [bs]. *)
Definition emits (m : wbuf stream -> result (wbuf stream)) (bs : list Z) : Prop :=
  forall pre b l, emitted taken pre b l -> len l + len bs < 2 ^ 64 -> exists b', m b = Ok b' /\ emitted taken pre b' (l ++ bs).

Lemma emits_write (bs : list Z) : emits (fun b => bufferWrite write b bs) bs.
Proof. intros pre b l E H. by apply bufferWrite_ok. Qed.

Lemma emits_bind (m1 m2 : wbuf stream -> result (wbuf stream)) (l1 l2 : list Z) :
  emits m1 l1 -> emits m2 l2 -> emits (fun b => b ← m1 b; m2 b) (l1 ++ l2).
Proof.
  intros H1 H2 pre b l E H. rewrite length_app in H. destruct (H1 pre b l E) as (b1 & -> & E1); [lia|]. cbn [mbind result_bind].
  destruct (H2 pre b1 _ E1) as (b2 & -> & E2); [rewrite length_app; lia|]. exists b2. by rewrite app_assoc.
Qed.

Lemma emits_nothing : emits (fun b => Ok b) [].
Proof. intros pre b l E H. exists b. by rewrite app_nil_r. Qed.

Lemma emits_int (v : Z) : 0 <= v < 2 ^ 64 -> emits (fun b => appendInt write b v) (encode_int v).
Proof.
  intros H. unfold appendInt, encode_int. destruct (int_size_spec v H) as (lg & -> & Hl & _).
  rewrite <- (big_bytes_eq 8); [apply (emits_bind _ _ [_]); apply emits_write|].
  assert (2 ^ lg <= 2 ^ 3) by (apply Z.pow_le_mono_r; lia). lia.
Qed.

Lemma emits_uid (v : Z) : 0 <= v < 2 ^ 64 ->
  emits (fun b => appendUID write b v) (let '(n, _) := int_size v in Z.lor kMarkerUID (n - 1) :: be_bytes (Z.to_nat n) v).
Proof.
  intros H. unfold appendUID. destruct (int_size_spec v H) as (lg & -> & Hl & _).
  assert (1 <= 2 ^ lg <= 2 ^ 3) by (split; [apply (Z.pow_le_mono_r 2 0); lia|apply Z.pow_le_mono_r; lia]).
  rewrite (uwrap_small 8) by (unfold in_u; lia). rewrite <- (big_bytes_eq 8) by lia. apply (emits_bind _ _ [_]); apply emits_write.
Qed.

Lemma emits_count (m n : Z) : 0 <= m < 256 -> 0 <= n < 2 ^ 64 -> emits (fun b => append_count write b m n) (encode_count m n).
Proof.
  intros Hm Hn. unfold append_count, encode_count. destruct (Z.ltb_spec n 15) as [C|C].
  - rewrite (proj2 (Z.leb_gt 15 n)) by lia. rewrite (uwrap_small 8) by (apply lor_byte; lia).
    apply (emits_bind _ _ [_] []); [apply emits_write|apply emits_nothing].
  - rewrite (proj2 (Z.leb_le 15 n)) by lia. rewrite (uwrap_small 8) by (apply lor_byte; lia). rewrite (uwrap_small 64) by done.
    apply (emits_bind _ _ [_]); [apply emits_write|by apply emits_int].
Qed.

Lemma emits_refs (table : gmap Z Z) (size : Z) (l : list Z) : size <= 4 -> emits (fun b => append_refs write b table size l) (encode_refs table size l).
Proof.
  intros H. unfold encode_refs. induction l as [|a l IH]; cbn [append_refs map concat]; [apply emits_nothing|].
  rewrite (proj2 (Z.ltb_ge 4 size)) by done. rewrite <- (big_bytes_eq 4) by lia. apply emits_bind; [apply emits_write|exact IH].
Qed.

Lemma emits_string (chars : list Z) (bs : list Z) : len chars < 2 ^ 64 -> encode_obj ∅ 0 (OString chars) = Some bs -> emits (fun b => appendString write b chars) bs.
Proof.
  intros H E. unfold appendString. cbn [encode_obj] in E. destruct (is_ascii chars) eqn:A; injection E as <-.
  - rewrite (get_ascii_all _ A), Nat.eqb_refl. apply emits_bind; [apply emits_count; [done|lia]|apply emits_write].
  - destruct (Nat.eqb_spec (length (CFStringGetASCII chars)) (length chars)) as [C%get_ascii|_]; [congruence|].
    apply emits_bind; [apply emits_count; [done|lia]|]. rewrite (map_ext _ (be_bytes 2)); [apply emits_write|]. intros c. apply swapped_bytes.
Qed.

Lemma emits_number (n : number) : emits (fun b => appendNumber write b n) (encode_number n).
Proof.
  destruct n; cbn [appendNumber encode_number]; rewrite ?swapped_bytes; try (apply (emits_bind _ _ [_]); apply emits_write).
  apply emits_int, u64_in_range.
Qed.

(** The typing that encoding needs: unsigned 32-bit UIDs. *)
Definition uid_ok (o : obj) : Prop := match o with OUID v => 0 <= v < 2 ^ 32 | _ => True end.

Lemma length_encode_refs (table : gmap Z Z) (size : Z) (l : list Z) : 0 <= size -> len (encode_refs table size l) = size * len l.
Proof.
  intros H. unfold encode_refs. induction l as [|a l IH]; cbn [map concat length]; [lia|]. rewrite length_app, length_be_bytes. lia.
Qed.

Lemma emits_obj (table : gmap Z Z) (size : Z) (o : obj) (bs pre l : list Z) (b : wbuf stream) : 1 <= size <= 4 -> uid_ok o ->
  encode_obj table size o = Some bs -> emitted taken pre b l -> len l + len bs < 2 ^ 64 ->
  exists b', appendObject write b o table size = Ok (b', true) /\ emitted taken pre b' (l ++ bs).
Proof.
  intros Hs Hu E Hb Hl.
  assert (K : forall m, emits m bs -> exists b', (b ← m b; Ok (b, true)) = Ok (b', true) /\ emitted taken pre b' (l ++ bs)).
  { intros m Hm. destruct (Hm pre b l Hb Hl) as (b' & -> & E'). by exists b'. }
  assert (K2 : forall m1 m2 : wbuf stream -> result (wbuf stream), emits (fun b => b ← m1 b; m2 b) bs -> exists b', (b ← m1 b; b ← m2 b; Ok (b, true)) = Ok (b', true) /\ emitted taken pre b' (l ++ bs)).
  { intros m1 m2 Hm. destruct (Hm pre b l Hb Hl) as (b' & Hb' & E'). exists b'. split; [|done].
    destruct (m1 b) as [b1| | |]; cbn [mbind result_bind] in *; try done. by rewrite Hb'. }
  destruct o as [chars|n|v|d|bits|kvs|es|v|]; cbn [appendObject].
  - apply (K (fun b => appendString write b chars)), emits_string; [|by rewrite <- E]. cbn [encode_obj] in E. destruct (is_ascii chars); injection E as <-; rewrite length_app in Hl; [lia|].
    enough (length (concat (map (be_bytes 2) chars)) = 2 * length chars)%nat by lia.
    clear. induction chars as [|c chars IH]; cbn [map concat length]; [done|]. rewrite length_app, length_be_bytes. lia.
  - injection E as <-. apply (K (fun b => appendNumber write b n)), emits_number.
  - injection E as <-. apply (K (fun b => bufferWrite write b _)), emits_write.
  - injection E as <-. apply (K2 (fun b => append_count write b _ _) (fun b => bufferWrite write b _)). rewrite length_app in Hl. apply emits_bind; [apply emits_count; [done|lia]|apply emits_write].
  - injection E as <-. apply (K2 (fun b => bufferWrite write b _) (fun b => bufferWrite write b _)). rewrite swapped_bytes. apply (emits_bind _ _ [_]); apply emits_write.
  - injection E as <-. apply (K2 (fun b => append_count write b _ _) (fun b => append_refs write b _ _ _)). rewrite length_app in Hl. apply emits_bind; [|apply emits_refs; lia].
    apply emits_count; [done|]. pose proof (length_encode_refs table size (elements (ODict kvs))) as L.
    cbn [elements] in *. rewrite length_app, !length_fmap in L. nia.
  - injection E as <-. apply (K2 (fun b => append_count write b _ _) (fun b => append_refs write b _ _ _)). rewrite length_app in Hl. apply emits_bind; [|apply emits_refs; lia].
    apply emits_count; [done|]. pose proof (length_encode_refs table size (elements (OArray es))) as L. cbn [elements] in *. nia.
  - apply (K (fun b => appendUID write b v)). cbn [uid_ok encode_obj] in *. pose proof (emits_uid v ltac:(lia)) as Eu. destruct (int_size v). injection E as <-. exact Eu.
  - done.
Qed.

Lemma write_objects_ok (st : store) (table : gmap Z Z) (size : Z) (pre : list Z) (addrs : list Z) (encs : list (list Z)) (b : wbuf stream) (l : list Z) :
  1 <= size <= 4 -> (forall a o, a ∈ addrs -> st !! a = Some o -> uid_ok o) ->
  mapM (fun a => st !! a ≫= encode_obj table size) addrs = Some encs -> emitted taken pre b l -> len l + len (concat encs) < 2 ^ 64 ->
  exists b', write_objects write st table size b addrs = Ok (b', Some (offsets_from (len l) encs)) /\ emitted taken pre b' (l ++ concat encs).
Proof.
  intros Hs Hu. revert encs b l. induction addrs as [|a addrs IH]; intros encs b l E Hb Hl.
  { injection E as <-. exists b. cbn. by rewrite app_nil_r. }
  cbn in E. apply bind_Some in E as (e & Ee & E). apply bind_Some in E as (encs' & E' & [= <-]).
  apply bind_Some in Ee as (o & Ho & Ee). cbn [concat] in Hl. rewrite length_app in Hl.
  cbn [write_objects]. unfold load_obj. rewrite Ho. cbn [mbind result_bind].
  destruct (emits_obj table size o e pre l b) as (b1 & -> & E1); [done|by eapply Hu; [left|]|done..|lia|]. cbn [mbind result_bind].
  destruct (IH ltac:(intros; eapply Hu; [by right|done]) encs' b1 (l ++ e) E' E1) as (b2 & -> & E2); [rewrite length_app; lia|].
  cbn [mbind result_bind option_map]. exists b2. cbn [concat offsets_from]. rewrite app_assoc. split; [|done].
  rewrite (emitted_count _ _ _ _ Hb), uwrap_small by (unfold in_u; lia). rewrite length_app, Nat2Z.inj_add. done.
Qed.

Lemma emits_offsets (n : Z) (offs : list Z) : n <= 8 -> emits (fun b => write_offsets write b n offs) (concat (map (be_bytes (Z.to_nat n)) offs)).
Proof.
  intros H. induction offs as [|o offs IH]; cbn [write_offsets map concat]; [apply emits_nothing|].
  rewrite <- (big_bytes_eq 8) by lia. apply emits_bind; [apply emits_write|exact IH].
Qed.

Lemma width_bounds (n : Z) : 1 <= width n <= 8 /\ (n < 2 ^ 32 -> width n <= 4).
Proof. unfold width. repeat case_match; lia. Qed.

Lemma trailer_format_eq (f : flat) (encs : list (list Z)) :
  trailer_bytes (width (table_offset encs)) (width (len (objlist f))) (len (objlist f)) (table_offset encs) = trailer_format f encs.
Proof. unfold trailer_bytes, trailer_format. by rewrite !swapped_bytes. Qed.

Lemma length_encodings (st : store) (f : flat) (encs : list (list Z)) : encodings st f = Some encs -> length encs = length (objlist f).
Proof. intros E. symmetry. eapply Forall2_length. by apply mapM_Some. Qed.

Lemma length_offsets (off : Z) (encs : list (list Z)) : length (offsets_from off encs) = length encs.
Proof. revert off. induction encs; intros; cbn; f_equal; eauto. Qed.

Lemma length_entries (n : nat) (l : list Z) : length (concat (map (be_bytes n) l)) = (n * length l)%nat.
Proof. induction l as [|x l IH]; cbn [map concat length]; [lia|]. rewrite length_app, length_be_bytes. lia. Qed.

Lemma length_layout (st : store) (f : flat) (encs : list (list Z)) : encodings st f = Some encs ->
  len (layout f encs) = table_offset encs + len (objlist f) * width (table_offset encs) + sizeof_trailer.
Proof.
  intros E. unfold layout, trailer_format, sizeof_trailer. pose proof (width_bounds (table_offset encs)).
  rewrite !length_app, length_entries, length_offsets, (length_encodings st f), length_replicate, !length_be_bytes by done.
  rewrite !Nat2Z.inj_add, Nat2Z.inj_mul, Z2Nat.id by lia. assert (E2 : table_offset encs = 8 + Z.of_nat (length (concat encs))) by done. cbn [length header magic app]. clear E. lia.
Qed.

Lemma write_document (fuel : nat) (st : store) (root : Z) (out : sink stream) (garbage d : list Z) (f : flat) :
  flattenPlist fuel st (mkFlat [] ∅ ∅) root = Ok f -> document st f = Some d -> (forall a o, a ∈ objlist f -> st !! a = Some o -> uid_ok o) ->
  len (objlist f) < 2 ^ 32 -> len d < 2 ^ 63 -> len garbage = sizeof_buffer ->
  exists k, CFBinaryPlistWrite write fuel st root out garbage = Ok (Some k, len d, None) /\ sink_bytes taken k = sink_bytes taken out ++ d.
Proof.
  intros Ef Ed Hu Hc Hd Hg. unfold document in Ed. destruct (encodings st f) as [encs|] eqn:Ee; [|done]. injection Ed as <-.
  pose proof (length_layout st f encs Ee) as L. unfold sizeof_trailer in L. destruct (width_bounds (table_offset encs)) as [Wt _].
  destruct (width_bounds (len (objlist f))) as [Wc Wc2]. specialize (Wc2 Hc).
  unfold CFBinaryPlistWrite. rewrite Ef. cbn [mbind result_bind]. set (b0 := mkBuf _ _ _ _ _ _ _).
  assert (E0 : emitted taken (sink_bytes taken out) b0 []).
  { exists []. split; [split; cbn; [exists out; by rewrite app_nil_r|done..]|]. by cbn; unfold sizeof_buffer. }
  destruct (emits_write header _ _ _ E0) as (b1 & -> & E1); [done|]. cbn [mbind result_bind app] in *.
  assert (Hb : 8 <= table_offset encs < 2 ^ 63) by (unfold table_offset in *; nia).
  rewrite byteCount_width by lia.
  destruct (write_objects_ok st (objtable f) (width (len (objlist f))) (sink_bytes taken out) (objlist f) encs b1 header) as (b2 & -> & E2);
    [lia|exact Hu|exact Ee|done|unfold table_offset in Hb; cbn [length header magic app] in *; lia|]. cbn [mbind result_bind].
  assert (T : u64 (w_written b2 + w_used b2) = table_offset encs).
  { rewrite (emitted_count _ _ _ _ E2), length_app, uwrap_small; unfold table_offset, in_u in *; cbn [length header magic app] in *; lia. }
  rewrite T, byteCount_width by lia. change (Z.of_nat (length header)) with 8.
  assert (Ll : len (layout f encs) = len (header ++ concat encs) + len (concat (map (be_bytes (Z.to_nat (width (table_offset encs)))) (offsets_from 8 encs))) + len (trailer_format f encs)).
  { unfold layout. rewrite !length_app. lia. }
  destruct (emits_offsets (width (table_offset encs)) (offsets_from 8 encs) ltac:(lia) _ _ _ E2) as (b3 & -> & E3); [lia|]. cbn [mbind result_bind].
  rewrite trailer_format_eq.
  destruct (emits_write (trailer_format f encs) _ _ _ E3) as (b4 & -> & E4); [rewrite length_app; lia|]. cbn [mbind result_bind].
  replace (((header ++ concat encs) ++ _) ++ _) with (layout f encs) in E4 by (unfold layout; by rewrite <- !app_assoc).
  destruct (bufferFlush_ok write taken _ _ _ E4) as (b5 & -> & [(k & Ek & Es) _ He _ _] & _); [lia|]. cbn [mbind result_bind].
  rewrite He, Ek. exists k. split; [|done]. unfold sizeof_trailer.
  assert (0 <= len (objlist f) * width (table_offset encs)) by nia.
  rewrite (uwrap_small 64 (_ + _ * _)) by (unfold in_u; lia). rewrite (uwrap_small 64) by (unfold in_u; lia). do 2 f_equal. by rewrite L.
Qed.

(** C18. __CFBinaryPlistWrite refines the file format: what it appends to the stream is the header, the
    encodings of the objects in their order, the table of their offsets and the trailer, and it returns
    the length of that, however the buffer of 8160 bytes cuts the writes and however little the stream
    takes at a time. *)
Theorem write_refines_document (fuel : nat) (st : store) (root : Z) (out : sink stream) (garbage d : list Z) (f : flat) :
  flattenPlist fuel st (mkFlat [] ∅ ∅) root = Ok f -> document st f = Some d -> (forall a o, a ∈ objlist f -> st !! a = Some o -> uid_ok o) ->
  len (objlist f) < 2 ^ 32 -> len d < 2 ^ 63 -> len garbage = sizeof_buffer ->
  exists k, CFBinaryPlistWrite write fuel st root out garbage = Ok (Some k, len d, None) /\ sink_bytes taken k = sink_bytes taken out ++ d.
Proof. apply write_document. Qed.

End Refinement.

End PListFormat.
