(* ===== verification/PListFlatten.v ===== *)
(** * Binary property lists: the numbering of the objects

    [denote] is the property list that an object of the store stands for, as a tree.  When
    there is one, the numbering of the writer ends; every object that it lists has its
    elements in the table, and a number in the table leads back to its object. *)

From stdpp Require Import base list numbers option gmap.
From Stdlib Require Import ZArith Lia.
From S2P Require Import Prelude BinaryPList PListWriter.
Import BinaryPList PListWriter.

Module PListFlatten.

(** ** What an object stands for *)

(** The property list of an object, from those of its elements. *)
Definition build (opt : mutability) (o : obj) (l : list plist) : option plist :=
  match o with
  | OString chars => Some (PString (leaves_mutable opt) chars)
  | ONumber n => Some (PNumber n)
  | OBool b => Some (PBool b)
  | OData d => Some (PData (leaves_mutable opt) d)
  | ODate bits => Some (PDate bits)
  | OUID v => Some (PUID v)
  | OArray _ => Some (PArray (containers_mutable opt) l)
  | ODict _ => Some (PDict (containers_mutable opt) (zip (take (Nat.div2 (length l)) l) (drop (Nat.div2 (length l)) l)))
  | OOther => None
  end.

Fixpoint denote (fuel : nat) (opt : mutability) (st : store) (a : Z) : option plist :=
  match fuel with
  | O => None
  | S fuel => o ← st !! a; l ← mapM (denote fuel opt st) (elements o); build opt o l
  end.

Section Flatten.

Context (st : store) (opt : mutability).

Lemma denote_mono (k k' : nat) (a : Z) (v : plist) : (k <= k')%nat -> denote k opt st a = Some v -> denote k' opt st a = Some v.
Proof.
  revert k' a v. induction k as [|k IH]; intros [|k'] a v Hk E; [done..|lia|]. cbn [denote] in *.
  apply bind_Some in E as (o & Eo & E). apply bind_Some in E as (l & El & E). rewrite Eo. cbn [mbind option_bind].
  enough (mapM (denote k' opt st) (elements o) = Some l) as -> by done.
  apply mapM_Some. apply mapM_Some in El. eapply Forall2_impl; [exact El|]. intros x y Exy. apply (IH k'); [lia|done].
Qed.

Lemma flatten_all_total (rec : flat -> Z -> result flat) (l : list Z) (f : flat) :
  Forall (fun a => forall f, exists f', rec f a = Ok f') l -> exists f', flatten_all rec f l = Ok f'.
Proof.
  intros H. revert f. induction H as [|a l Ha _ IH]; intros f; cbn [flatten_all]; [by exists f|].
  destruct (Ha f) as (f1 & ->). apply IH.
Qed.

Lemma mapM_elem {A B} (g : A -> option B) (l : list A) (k : list B) (x : A) : mapM g l = Some k -> x ∈ l -> exists y, g x = Some y.
Proof.
  intros E Hx. apply mapM_Some in E. apply list_elem_of_lookup in Hx as (i & Hi).
  destruct (Forall2_lookup_l _ _ _ _ _ E Hi) as (y & _ & Hy). by exists y.
Qed.

Lemma denote_step (k : nat) (a : Z) (v : plist) : denote (S k) opt st a = Some v ->
  exists o l, st !! a = Some o /\ mapM (denote k opt st) (elements o) = Some l /\ build opt o l = Some v.
Proof. cbn [denote]. intros (o & Eo & (l & El & E)%bind_Some)%bind_Some. by exists o, l. Qed.

Lemma flatten_total (k : nat) (a : Z) (v : plist) (f : flat) : denote k opt st a = Some v -> exists f', flattenPlist k st f a = Ok f'.
Proof.
  revert a v f. induction k as [|k IH]; intros a v f E; [done|]. apply denote_step in E as (o & l & Eo & El & E).
  cbn [flattenPlist]. unfold load_obj. rewrite Eo. cbn [mbind result_bind]. case_match; [by exists f|].
  apply flatten_all_total, Forall_forall. intros x Hx f'. destruct (mapM_elem _ _ _ x El Hx) as (y & Ey). by eapply IH.
Qed.

(** ** The invariant *)

(** A number leads to its object, and an object that has been seen has a number. *)
Record flat_ok (f : flat) : Prop := {
  fo_table : forall a i, objtable f !! a = Some i -> 0 <= i /\ objlist f !! Z.to_nat i = Some a;
  fo_unique : forall a, a ∈ uniquingset f -> is_Some (objtable f !! a)
}.

(** The object is in the store, stands for something and has its elements in the table. *)
Definition listed (f : flat) (a : Z) : Prop :=
  exists o k v, st !! a = Some o /\ denote k opt st a = Some v /\ forall c, c ∈ elements o -> is_Some (objtable f !! c).

(** What a step of the numbering adds. *)
Record grows (f f' : flat) : Prop := {
  gr_list : exists l, objlist f' = objlist f ++ l /\ Forall (listed f') l;
  gr_table : objtable f ⊆ objtable f'
}.

Lemma listed_mono (f f' : flat) (a : Z) : objtable f ⊆ objtable f' -> listed f a -> listed f' a.
Proof.
  intros H (o & k & v & Ho & Hd & Hc). exists o, k, v. split; [done|]. split; [done|]. intros c Hcc.
  destruct (Hc c Hcc) as [i Hi]. exists i. by eapply lookup_weaken.
Qed.

Lemma grows_refl (f : flat) : grows f f.
Proof. split; [|done]. exists []. by rewrite app_nil_r. Qed.

Lemma grows_trans (f1 f2 f3 : flat) : grows f1 f2 -> grows f2 f3 -> grows f1 f3.
Proof.
  intros [(l1 & E1 & H1) T1] [(l2 & E2 & H2) T2]. split; [|by transitivity (objtable f2)]. exists (l1 ++ l2).
  split; [by rewrite E2, E1, app_assoc|]. apply Forall_app. split; [|done]. eapply Forall_impl; [exact H1|].
  intros a. by apply listed_mono.
Qed.

(** The lists only grow, so a bound at the end holds before. *)
Lemma flatten_prefix (k : nat) (a : Z) (f f' : flat) : flattenPlist k st f a = Ok f' -> objlist f `prefix_of` objlist f'.
Proof.
  revert a f f'. induction k as [|k IH]; intros a f f' E; [done|]. cbn [flattenPlist] in E.
  apply bind_Ok in E as (o & _ & E). case_match; [by simplify_eq|].
  assert (G : forall l g, flatten_all (flattenPlist k st) g l = Ok f' -> objlist g `prefix_of` objlist f').
  { induction l as [|x l IHl]; intros g Eg; cbn [flatten_all] in Eg; [by simplify_eq|].
    apply bind_Ok in Eg as (g1 & E1 & Eg). etransitivity; [by eapply IH|by apply IHl]. }
  apply G in E. cbn [objlist] in E. etransitivity; [|exact E]. by eexists.
Qed.

Lemma flatten_all_prefix (k : nat) (l : list Z) (f f' : flat) : flatten_all (flattenPlist k st) f l = Ok f' -> objlist f `prefix_of` objlist f'.
Proof.
  revert f. induction l as [|x l IHl]; intros g Eg; cbn [flatten_all] in Eg; [by simplify_eq|].
  apply bind_Ok in Eg as (g1 & E1 & Eg). etransitivity; [by eapply flatten_prefix|by apply IHl].
Qed.

Definition numbered (a : Z) (f f' : flat) : Prop := flat_ok f' /\ grows f f' /\ is_Some (objtable f' !! a).

(** The object itself gets a number, unless it has one. *)
Lemma number_one (f : flat) (a : Z) (u : gset Z) : flat_ok f -> Z.of_nat (length (objlist f)) < 2 ^ 32 ->
  (forall x, x ∈ u -> x = a \/ x ∈ uniquingset f) ->
  let t := match objtable f !! a with Some _ => objtable f | None => <[a := u32 (Z.of_nat (length (objlist f)))]> (objtable f) end in
  flat_ok (mkFlat (objlist f ++ [a]) t u) /\ objtable f ⊆ t /\ is_Some (t !! a).
Proof.
  intros [F1 F2] Hl Hu. rewrite uwrap_small by (unfold in_u; lia). intros t.
  assert (T : objtable f ⊆ t) by (subst t; destruct (objtable f !! a) eqn:E; [done|by apply insert_subseteq]).
  assert (A : is_Some (t !! a)) by (subst t; destruct (objtable f !! a) eqn:E; [by exists z|rewrite lookup_insert_eq; by eexists]).
  split; [|done]. split; cbn [objlist objtable uniquingset].
  - intros x i Ex. assert (O : objtable f !! x = Some i \/ (x = a /\ i = Z.of_nat (length (objlist f)))).
    { subst t. destruct (objtable f !! a) eqn:E; [by left|]. destruct (decide (x = a)) as [->|N].
      - rewrite lookup_insert_eq in Ex. right. by simplify_eq.
      - rewrite lookup_insert_ne in Ex by done. by left. }
    destruct O as [O|[-> ->]].
    + destruct (F1 _ _ O) as [H1 H2]. split; [done|]. by apply lookup_app_l_Some.
    + split; [lia|]. rewrite Nat2Z.id. by apply list_lookup_middle.
  - intros x Hx. destruct (Hu x Hx) as [->|Hx']; [done|]. destruct (F2 x Hx') as [i Hi]. exists i. by eapply lookup_weaken.
Qed.

Lemma flatten_all_ok (k : nat) (l : list Z) (f f' : flat) :
  (forall a f f', a ∈ l -> flattenPlist k st f a = Ok f' -> Z.of_nat (length (objlist f')) < 2 ^ 32 -> flat_ok f -> numbered a f f') ->
  flatten_all (flattenPlist k st) f l = Ok f' -> Z.of_nat (length (objlist f')) < 2 ^ 32 -> flat_ok f ->
  flat_ok f' /\ grows f f' /\ forall a, a ∈ l -> is_Some (objtable f' !! a).
Proof.
  revert f. induction l as [|a l IH]; intros f Hr E Hl Hf; cbn [flatten_all] in E.
  { simplify_eq. split; [done|]. split; [apply grows_refl|]. by intros x Hx%elem_of_nil. }
  apply bind_Ok in E as (f1 & E1 & E). pose proof (prefix_length _ _ (flatten_all_prefix _ _ _ _ E)).
  destruct (Hr a f f1) as (O1 & G1 & A1); [by left|done|lia|done|].
  destruct (IH f1 ltac:(intros; apply Hr; [by right|done..]) E Hl O1) as (O2 & G2 & A2).
  split; [done|]. split; [by eapply grows_trans|]. intros x [->|Hx]%elem_of_cons; [|by apply A2].
  destruct A1 as [i Hi]. exists i. eapply lookup_weaken; [exact Hi|apply G2].
Qed.

Lemma flatten_ok (k : nat) (a : Z) (v : plist) (f f' : flat) : denote k opt st a = Some v ->
  flattenPlist k st f a = Ok f' -> Z.of_nat (length (objlist f')) < 2 ^ 32 -> flat_ok f -> numbered a f f'.
Proof.
  revert a v f f'. induction k as [|k IH]; intros a v f f' Hd E Hl Hf; [done|]. pose proof Hd as Hd'.
  apply denote_step in Hd as (o & l & Eo & El & _). cbn [flattenPlist] in E. unfold load_obj in E. rewrite Eo in E. cbn [mbind result_bind] in E.
  destruct (is_uniqued o && _) eqn:C.
  { simplify_eq. apply andb_true_iff in C as [_ C]. apply bool_decide_eq_true in C. split; [done|]. split; [apply grows_refl|]. by apply Hf. }
  pose proof (prefix_length _ _ (flatten_all_prefix _ _ _ _ E)) as L. cbn [objlist] in L. rewrite length_app in L.
  destruct (number_one f a (if is_uniqued o then {[a]} ∪ uniquingset f else uniquingset f) Hf) as (O1 & T1 & A1); [lia|destruct (is_uniqued o); set_solver|].
  edestruct (fun H => flatten_all_ok k (elements o) _ f' H E Hl O1) as (O2 & [(l2 & E2 & L2) T2] & A2).
  { intros x g g' Hx. destruct (mapM_elem _ _ _ x El Hx) as (y & Ey). by apply (IH x y). }
  split; [done|]. cbn [objlist objtable] in E2, T2. split; [split|].
  - exists (a :: l2). split; [by rewrite E2, <- app_assoc|]. constructor; [|done]. by exists o, (S k), v.
  - by transitivity (match objtable f !! a with Some _ => objtable f | None => <[a := u32 (Z.of_nat (length (objlist f)))]> (objtable f) end).
  - destruct A1 as [i Hi]. exists i. by eapply lookup_weaken.
Qed.

(** The numbering of a whole property list starts with the root. *)
Lemma flatten_root (k : nat) (root : Z) (v : plist) (f : flat) : denote k opt st root = Some v ->
  flattenPlist k st (mkFlat [] ∅ ∅) root = Ok f -> Z.of_nat (length (objlist f)) < 2 ^ 32 ->
  flat_ok f /\ Forall (listed f) (objlist f) /\ objlist f !! 0%nat = Some root.
Proof.
  intros Hd E Hl. destruct (flatten_ok k root v _ f Hd E Hl) as (O & [(l & El & L) _] & A).
  { split; cbn; [intros ? ?; by rewrite lookup_empty|set_solver]. }
  cbn in El. subst l. split; [done|]. split; [done|].
  destruct k; [done|]. cbn [flattenPlist] in E. apply bind_Ok in E as (o & _ & E).
  destruct (is_uniqued o && _) eqn:C; [apply andb_true_iff in C as [_ C]; apply bool_decide_eq_true in C; set_solver|].
  apply flatten_all_prefix in E as [l E]. cbn in E. by rewrite E.
Qed.

End Flatten.

End PListFlatten.
