(* ===== verification/PListDecode.v ===== *)
(** * Binary property lists: decoding what the format encodes

    [holds r p l]: the bytes [l] are at the address [p].  From such facts the reading
    functions of BinaryPList.v return what was encoded: integers, counts, leaves. *)

From stdpp Require Import base list numbers option gmap.
From Stdlib Require Import ZArith Lia.
From S2P Require Import Prelude BinaryPList PListBytes PListSafe PListWriter PListBuffer PListFormat.
Import BinaryPList PListBytes PListSafe PListWriter PListBuffer PListFormat.

Module PListDecode.

(** ** Bytes at an address *)

Definition holds (r : region) (p : Z) (l : list Z) : Prop :=
  exists pre post, contents r = pre ++ l ++ post /\ p = databytes r + len pre.

Lemma holds_app (r : region) (p : Z) (l1 l2 : list Z) : holds r p (l1 ++ l2) -> holds r p l1 /\ holds r (p + len l1) l2.
Proof.
  intros (pre & post & E & ->). split.
  - exists pre, (l2 ++ post). by rewrite E, <- app_assoc.
  - exists (pre ++ l1), post. rewrite E, !app_assoc, length_app. split; [done|lia].
Qed.

Lemma holds_cons (r : region) (p b : Z) (l : list Z) : holds r p (b :: l) -> load8 r p = Ok b /\ holds r (p + 1) l.
Proof.
  intros H. split; [|by apply (holds_app r p [b])]. destruct H as (pre & post & E & ->). unfold load8. apply aget_Ok.
  split; [lia|]. rewrite E. replace (Z.to_nat _) with (length pre) by lia. by apply list_lookup_middle.
Qed.

Lemma holds_slice (r : region) (p : Z) (l : list Z) (n : nat) : holds r p l -> length l = n ->
  slice r p n = l /\ within r p (Z.of_nat n).
Proof.
  intros (pre & post & E & ->) <-. unfold slice, within, datalen. rewrite E, !length_app. split; [|lia].
  replace (Z.to_nat _) with (length pre) by lia. rewrite drop_app_length. apply take_app_length.
Qed.

Lemma loads_holds (r : region) (p : Z) (l : list Z) (n : nat) : holds r p l -> length l = n -> loads r p n = Ok l.
Proof. intros H El. destruct (holds_slice r p l n H El) as [E W]. by rewrite loads_ok, E. Qed.

Lemma sized_holds (r : region) (p v : Z) (n : nat) : bytes (contents r) -> holds r p (be_bytes n v) -> 0 <= v < 256 ^ Z.of_nat n -> v < 2 ^ 64 ->
  getSizedInt r p (Z.of_nat n) = Ok v.
Proof.
  intros Hb H Hv Hv2. destruct (holds_slice _ _ _ _ H (length_be_bytes n v)) as [E W].
  rewrite getSizedInt_ok; [|done|lia|done]. rewrite Nat2Z.id, E, be_value_bytes by done. rewrite u64_fits by lia. done.
Qed.

(** ** Markers *)

Lemma low_bits (n : Z) : 0 <= n < 16 -> Z.land n 0xf0 = 0 /\ Z.land n 0x0f = n.
Proof.
  intros H. assert (E : Z.land n 15 = n) by (change 15 with (Z.ones 4); rewrite Z.land_ones by lia; by apply Z.mod_small).
  split; [|done]. rewrite <- E, <- Z.land_assoc. change (Z.land 15 240) with 0. apply Z.land_0_r.
Qed.

(** A marker with its count: the high and the low bits. *)
Lemma marker_bits (m n : Z) : Z.land m 0xf0 = m -> Z.land m 0x0f = 0 -> 0 <= n < 16 ->
  Z.land (Z.lor m n) 0xf0 = m /\ Z.land (Z.lor m n) 0x0f = n.
Proof.
  intros H1 H2 Hn. destruct (low_bits n Hn) as [L1 L2]. by rewrite !Z.land_lor_distr_l, H1, H2, L1, L2, Z.lor_0_r, Z.lor_0_l.
Qed.

Section Decode.

Context (r : region) (t : CFBinaryPlistTrailer) (R : region_ok r) (T : trailer_ok r t) (Fit : databytes r + datalen r < 2 ^ 64) (Small : datalen r < 2 ^ 63).

Lemma objects_fit (p : Z) : p <= databytes r + t_offsetTableOffset t -> p < 2 ^ 64.
Proof. destruct T. nia. Qed.

Lemma table_small : t_offsetTableOffset t < 2 ^ 63.
Proof. destruct T. nia. Qed.

Lemma past_objects_holds (p n : Z) : 0 <= p -> 0 <= n -> p + n <= databytes r + t_offsetTableOffset t -> past_objects r t p n = false.
Proof.
  intros Hp Hn H. unfold past_objects, objectsRangeEnd. rewrite check_add_fits; [|done..|by apply objects_fit].
  cbn. apply Z.ltb_ge. lia.
Qed.

Lemma skip_marker (off : Z) : 0 <= off < t_offsetTableOffset t -> check_uint64_add (databytes r + off) 1 false = (databytes r + off + 1, false).
Proof. intros H. destruct R. apply check_add_fits; [lia..|]. apply objects_fit. lia. Qed.

Lemma pow_size (lg : Z) : 0 <= lg <= 3 -> 1 <= 2 ^ lg <= 8.
Proof. intros H. split; [apply (Z.pow_le_mono_r 2 0); lia|apply (Z.pow_le_mono_r 2 _ 3); lia]. Qed.

Lemma readInt_holds (p v : Z) : 0 <= v < 2 ^ 64 -> databytes r <= p -> holds r p (encode_int v) ->
  p + len (encode_int v) <= databytes r + t_offsetTableOffset t ->
  readInt r p (databytes r + objectsRangeEnd t) = Ok (Some (v, p + len (encode_int v))).
Proof.
  intros Hv Hp H He. destruct R as [Ha Hb]. unfold encode_int in *. destruct (int_size_spec v Hv) as (lg & E & Hl & Hv2 & _).
  rewrite E in *. pose proof (pow_size lg Hl) as P. apply holds_cons in H as [Hm H]. cbn [length] in He. rewrite length_be_bytes in He.
  unfold readInt, objectsRangeEnd. rewrite (proj2 (Z.ltb_ge _ _)) by lia. rewrite Hm. cbn [mbind result_bind].
  destruct (marker_bits kMarkerInt lg) as [-> ->]; [done..|lia|]. cbn [negb]. rewrite Z.eqb_refl. cbn [negb].
  rewrite Z.shiftl_1_l, check_add_fits; [|lia..|apply objects_fit; lia]. rewrite (proj2 (Z.ltb_ge _ _)) by lia.
  rewrite (uwrap_small 8) by (unfold in_u; lia). rewrite <- (Z2Nat.id (2 ^ lg)) at 1 by lia.
  rewrite (sized_holds r (p + 1) v); [|done|done|rewrite Z2Nat.id by lia; lia|lia]. cbn [mbind result_bind].
  do 3 f_equal. cbn [length]. rewrite length_be_bytes. lia.
Qed.

(** The count of an object and what follows it. *)
Lemma read_count_holds (m n off : Z) (l : list Z) : Z.land m 0xf0 = m -> Z.land m 0x0f = 0 -> 0 <= n <= LONG_MAX -> 0 <= off ->
  holds r (databytes r + off) (encode_count m n ++ l) -> off + len (encode_count m n) <= t_offsetTableOffset t ->
  exists b, load8 r (databytes r + off) = Ok b /\ Z.land b 0xf0 = m /\
    read_count r t b (databytes r + off) = Ok (Some (n, databytes r + off + len (encode_count m n))) /\
    holds r (databytes r + off + len (encode_count m n)) l.
Proof.
  intros M1 M2 Hn Ho H He. apply holds_app in H as [Hc Hl]. unfold LONG_MAX in Hn. unfold encode_count in *. destruct (Z.ltb_spec n 15) as [C|C].
  - apply holds_cons in Hc as [Hb _]. destruct (marker_bits m n M1 M2) as [B1 B2]; [lia|]. exists (Z.lor m n). split; [done|]. split; [done|].
    split; [|done]. unfold read_count. cbn [length] in *. rewrite skip_marker by lia. rewrite B2, (proj2 (Z.eqb_neq n 15)) by lia. done.
  - apply holds_cons in Hc as [Hb Hc]. destruct (marker_bits m 15 M1 M2) as [B1 B2]; [lia|]. exists (Z.lor m 15). split; [done|]. split; [done|].
    split; [|done]. unfold read_count. cbn [length] in *. rewrite skip_marker by lia. rewrite B2. cbn [Z.eqb Pos.eqb].
    rewrite (readInt_holds _ n) by (done || lia). cbn [obind mbind result_bind]. unfold LONG_MAX. rewrite (proj2 (Z.ltb_ge _ _)) by lia.
    do 3 f_equal. lia.
Qed.

(** ** Leaves *)

Lemma fixed_size_holds (off : Z) (l : list Z) (n : Z) (k : list Z -> plist) : 8 <= off -> holds r (databytes r + off + 1) l -> len l = n ->
  off + 1 + n <= t_offsetTableOffset t -> fixed_size r t off n k = Ok (Some (k l)).
Proof.
  intros Ho H El He. destruct R as [Ha _]. unfold fixed_size. rewrite skip_marker, past_objects_holds by lia.
  rewrite (loads_holds r _ l) by (done || lia). done.
Qed.

Lemma create_bytes_holds (m off : Z) (l : list Z) (k : list Z -> plist) : Z.land m 0xf0 = m -> Z.land m 0x0f = 0 -> 8 <= off ->
  holds r (databytes r + off) (encode_count m (len l) ++ l) -> off + len (encode_count m (len l) ++ l) <= t_offsetTableOffset t ->
  exists b, load8 r (databytes r + off) = Ok b /\ Z.land b 0xf0 = m /\ create_bytes r t off b k = Ok (Some (k l)).
Proof.
  intros M1 M2 Ho H He. rewrite length_app in He. pose proof (objects_fit (databytes r + t_offsetTableOffset t) ltac:(lia)). pose proof table_small. pose proof R as [Ha _].
  destruct (read_count_holds m (len l) off l) as (b & Hb & Hm & Hc & Hl); [done|done|unfold LONG_MAX; lia|lia|done|lia|].
  exists b. split; [done|]. split; [done|]. unfold create_bytes. rewrite Hc. cbn [obind mbind result_bind].
  rewrite past_objects_holds by lia. rewrite (loads_holds r _ l) by (done || lia). done.
Qed.

Lemma swap_chars_holds (chars : list Z) : Forall (fun c => 0 <= c < 2 ^ 16) chars -> swap_chars (concat (map (be_bytes 2) chars)) = chars.
Proof.
  induction 1 as [|c chars Hc _ IH]; [done|]. cbn [map concat]. pose proof (be_bytes_bytes 2 c) as B. pose proof (length_be_bytes 2 c) as L.
  pose proof (swap_value _ B) as S. rewrite L, be_value_bytes in S by (cbn; lia).
  destruct (be_bytes 2 c) as [|x [|y [|]]]; try done. cbn [app swap_chars]. by rewrite S, IH.
Qed.

Lemma create_unicode_holds (off : Z) (chars : list Z) (mut : bool) : 8 <= off -> Forall (fun c => 0 <= c < 2 ^ 16) chars ->
  holds r (databytes r + off) (encode_count kMarkerUnicode16String (len chars) ++ concat (map (be_bytes 2) chars)) ->
  off + len (encode_count kMarkerUnicode16String (len chars) ++ concat (map (be_bytes 2) chars)) <= t_offsetTableOffset t ->
  exists b, load8 r (databytes r + off) = Ok b /\ Z.land b 0xf0 = kMarkerUnicode16String /\ create_unicode r t off b mut = Ok (Some (PString mut chars)).
Proof.
  intros Ho Hc H He. rewrite length_app, length_entries in He. pose proof (objects_fit (databytes r + t_offsetTableOffset t) ltac:(lia)). pose proof table_small. pose proof R as [Ha _].
  destruct (read_count_holds kMarkerUnicode16String (len chars) off (concat (map (be_bytes 2) chars))) as (b & Hb & Hm & Hr & Hl); [done|done|unfold LONG_MAX; lia|lia|done|lia|].
  exists b. split; [done|]. split; [done|]. unfold create_unicode, objectsRangeEnd. rewrite Hr. cbn [obind mbind result_bind].
  set (q := databytes r + off + len (encode_count _ _)) in *.
  rewrite check_add_fits by lia. rewrite check_add_fits by lia. rewrite (proj2 (Z.ltb_ge _ _)) by lia. rewrite check_mul_fits by lia.
  rewrite (loads_holds r q (concat (map (be_bytes 2) chars))); [|done|rewrite length_entries; lia]. cbn [mbind result_bind].
  by rewrite swap_chars_holds.
Qed.

(** An integer of 1, 2, 4 or 8 bytes behind its marker. *)
Lemma create_int_holds (off v : Z) : 8 <= off -> in_s 64 v -> holds r (databytes r + off) (encode_int (u64 v)) ->
  off + len (encode_int (u64 v)) <= t_offsetTableOffset t ->
  exists b, load8 r (databytes r + off) = Ok b /\ Z.land b 0xf0 = kMarkerInt /\ create_int r t off b = Ok (Some (PNumber (SInt64 v))).
Proof.
  intros Ho Hv H He. destruct R as [Ha Hb]. unfold encode_int in *. pose proof (u64_in_range v) as Hu.
  destruct (int_size_spec (u64 v) Hu) as (lg & E & Hl & Hv2 & _). rewrite E in *. pose proof (pow_size lg Hl) as P.
  apply holds_cons in H as [Hm H]. cbn [length] in He. rewrite length_be_bytes in He. eexists. split; [done|].
  destruct (marker_bits kMarkerInt lg) as [B1 B2]; [done..|lia|]. split; [done|]. unfold create_int. rewrite skip_marker by lia.
  rewrite B2, Z.shiftl_1_l, past_objects_holds, (proj2 (Z.ltb_ge _ _)) by lia. rewrite (uwrap_small 8) by (unfold in_u; lia).
  rewrite <- (Z2Nat.id (2 ^ lg)) at 1 by lia. rewrite (sized_holds r _ (u64 v)); [|done|done|rewrite Z2Nat.id by lia; lia|lia].
  cbn [mbind result_bind]. rewrite (proj2 (Z.ltb_ge _ _)) by lia. do 4 f_equal.
  rewrite swrap_uwrap by lia. by apply swrap_small.
Qed.

(** A 128-bit integer comes back without its high word. *)
Lemma create_int128_holds (off high low : Z) : 8 <= off -> 0 <= low < 2 ^ 64 ->
  holds r (databytes r + off) (Z.lor kMarkerInt 4 :: be_bytes 8 high ++ be_bytes 8 low) -> off + 17 <= t_offsetTableOffset t ->
  exists b, load8 r (databytes r + off) = Ok b /\ Z.land b 0xf0 = kMarkerInt /\ create_int r t off b = Ok (Some (PNumber (SInt128 0 low))).
Proof.
  intros Ho Hv H He. destruct R as [Ha Hb]. apply holds_cons in H as [Hm H]. eexists. split; [done|]. split; [done|].
  unfold create_int. rewrite skip_marker by lia. change (Z.shiftl 1 _) with 16. rewrite past_objects_holds by lia.
  change (16 <? 16) with false. cbv iota. change (u8 16) with 16.
  destruct (holds_slice _ _ _ 16 H) as [E W]; [by rewrite length_app, !length_be_bytes|].
  rewrite getSizedInt_ok; [|done|lia|done]. change (Z.to_nat 16) with 16%nat. rewrite E. cbn [mbind result_bind]. change (8 <? 16) with true. cbv iota.
  do 4 f_equal. unfold be_value, be_bytes. rewrite reverse_app, !reverse_involutive, le_value_app, length_le_bytes, le_value_bytes by done.
  change (256 ^ Z.of_nat 8) with (2 ^ 64). unfold uwrap. rewrite Z.mul_comm, Z.mod_add by lia. by apply Z.mod_small.
Qed.

Lemma create_uid_holds (off v : Z) : 8 <= off -> 0 <= v < 2 ^ 32 ->
  (let '(n, _) := int_size v in holds r (databytes r + off) (Z.lor kMarkerUID (n - 1) :: be_bytes (Z.to_nat n) v) /\ off + 1 + n <= t_offsetTableOffset t) ->
  exists b, load8 r (databytes r + off) = Ok b /\ Z.land b 0xf0 = kMarkerUID /\ create_uid r t off b = Ok (Some (PUID v)).
Proof.
  intros Ho Hv H. destruct R as [Ha Hb]. destruct (int_size_spec v ltac:(lia)) as (lg & E & Hl & Hv2 & _). rewrite E in *.
  destruct H as [H He]. pose proof (pow_size lg Hl) as P. apply holds_cons in H as [Hm H]. eexists. split; [done|].
  destruct (marker_bits kMarkerUID (2 ^ lg - 1)) as [B1 B2]; [done..|lia|]. split; [done|]. unfold create_uid. rewrite skip_marker by lia.
  rewrite B2. replace (2 ^ lg - 1 + 1) with (2 ^ lg) by lia. rewrite past_objects_holds by lia. rewrite (uwrap_small 8) by (unfold in_u; lia).
  rewrite <- (Z2Nat.id (2 ^ lg)) at 1 by lia. rewrite (sized_holds r _ v); [|done|done|rewrite Z2Nat.id by lia; lia|lia].
  cbn [mbind result_bind]. unfold UINT32_MAX. rewrite (proj2 (Z.ltb_ge _ _)) by lia. done.
Qed.

End Decode.

End PListDecode.
