(* ===== verification/PListLeaf.v ===== *)
(** * Binary property lists: well-typed objects and their leaves

    [store_ok] is the typing of the objects that the writer is given.  A well-typed leaf
    reads back from its encoding as itself. *)

From stdpp Require Import base list numbers option gmap.
From Stdlib Require Import ZArith Lia.
From S2P Require Import Prelude BinaryPList PListBytes PListSafe PListWriter PListBuffer PListFormat PListFlatten PListDecode.
Import BinaryPList PListBytes PListSafe PListWriter PListBuffer PListFormat PListFlatten PListDecode.

Module PListLeaf.

(** ** Well-typed objects *)

(** Characters have 16 bits, bytes 8; numbers are what CFNumberCreate makes, the 128-bit ones
    with a high word of zero; the keys of a dictionary are no containers. *)
Definition obj_ok (st : store) (o : obj) : bool :=
  match o with
  | OString chars => forallb (in_range 0 (2 ^ 16)) chars
  | ONumber n => number_ok n
  | OData l => forallb (in_range 0 256) l
  | ODate bits => in_range 0 (2 ^ 64) bits
  | OUID v => in_range 0 (2 ^ 32) v
  | ODict l => forallb (fun '(k, _) => match st !! k with Some (ODict _ | OArray _) => false | _ => true end) l
  | OBool _ | OArray _ | OOther => true
  end.

Definition store_ok (st : store) : Prop := map_Forall (fun _ o => obj_ok st o = true) st.

Lemma forallb_in_range (hi : Z) (l : list Z) : forallb (in_range 0 hi) l = true -> Forall (fun b => 0 <= b < hi) l.
Proof. intros H. apply Forall_forall. intros z Hz. apply in_range_spec. eapply forallb_forall in H; [exact H|by apply list_elem_of_In]. Qed.

Lemma ascii_bytes (chars : list Z) : forallb (in_range 0 (2 ^ 16)) chars = true -> is_ascii chars = true -> bytes chars.
Proof.
  intros H A. apply forallb_in_range in H. apply Forall_forall. intros c Hc. rewrite Forall_forall in H. specialize (H c Hc).
  eapply forallb_forall in A; [|by apply list_elem_of_In]. lia.
Qed.

Lemma float32_back (bits : Z) : number_ok (Float32 bits) = true -> CFNumberCreateFloat32 bits = Float32 bits.
Proof. cbn. intros [_ H%negb_true_iff]%andb_true_iff. unfold CFNumberCreateFloat32. by rewrite H. Qed.

Lemma float64_back (bits : Z) : number_ok (Float64 bits) = true -> CFNumberCreateFloat64 bits = Float64 bits.
Proof. cbn. intros [_ H%bool_decide_eq_true]%andb_true_iff. done. Qed.

Definition is_leaf (o : obj) : bool := match o with ODict _ | OArray _ | OOther => false | _ => true end.

(** ** A leaf reads back *)

Section Leaf.

Context (r : region) (t : CFBinaryPlistTrailer) (R : region_ok r) (T : trailer_ok r t) (Fit : databytes r + datalen r < 2 ^ 64) (Small : datalen r < 2 ^ 63).
Context (opt : mutability) (st : store) (table : gmap Z Z) (size : Z).

Lemma swap_be (n : nat) (v : Z) : 0 <= v < 256 ^ Z.of_nat n -> swap_bytes n (le_value (be_bytes n v)) = v.
Proof.
  intros H. rewrite <- (length_be_bytes n v) at 1. rewrite swap_value by apply be_bytes_bytes. by apply be_value_bytes.
Qed.

(** The cases of the switch. *)
Lemma leaf_cases (off b : Z) :
  (Z.land b 0xf0 = kMarkerInt -> is_container b = false /\ create_leaf r t opt off b = (pl ⇐ create_int r t off b; Ok (Some (pl, true)))) /\
  (Z.land b 0xf0 = kMarkerData -> is_container b = false /\ create_leaf r t opt off b = (pl ⇐ create_bytes r t off b (PData (leaves_mutable opt)); Ok (Some (pl, negb (leaves_mutable opt))))) /\
  (Z.land b 0xf0 = kMarkerASCIIString -> is_container b = false /\ create_leaf r t opt off b = (pl ⇐ create_bytes r t off b (PString (leaves_mutable opt)); Ok (Some (pl, negb (leaves_mutable opt))))) /\
  (Z.land b 0xf0 = kMarkerUnicode16String -> is_container b = false /\ create_leaf r t opt off b = (pl ⇐ create_unicode r t off b (leaves_mutable opt); Ok (Some (pl, negb (leaves_mutable opt))))) /\
  (Z.land b 0xf0 = kMarkerUID -> is_container b = false /\ create_leaf r t opt off b = (pl ⇐ create_uid r t off b; Ok (Some (pl, true)))).
Proof. unfold is_container, create_leaf. split_and!; intros H; rewrite H; split; reflexivity. Qed.

Lemma leaf_fixed (off : Z) :
  create_leaf r t opt off (Z.lor kMarkerReal 2) = (pl ⇐ fixed_size r t off 4 (fun l => PNumber (CFNumberCreateFloat32 (swap_bytes 4 (le_value l)))); Ok (Some (pl, true))) /\
  create_leaf r t opt off (Z.lor kMarkerReal 3) = (pl ⇐ fixed_size r t off 8 (fun l => PNumber (CFNumberCreateFloat64 (swap_bytes 8 (le_value l)))); Ok (Some (pl, true))) /\
  create_leaf r t opt off kMarkerDate = (pl ⇐ fixed_size r t off 8 (fun l => PDate (swap_bytes 8 (le_value l))); Ok (Some (pl, true))).
Proof. split_and!; reflexivity. Qed.

Lemma number_holds (n : number) (off : Z) : number_ok n = true -> 8 <= off -> holds r (databytes r + off) (encode_number n) ->
  off + len (encode_number n) <= t_offsetTableOffset t ->
  exists b, load8 r (databytes r + off) = Ok b /\ is_container b = false /\ exists c, create_leaf r t opt off b = Ok (Some (PNumber n, c)).
Proof.
  intros Hn Ho H He. destruct n as [v|high low|bits|bits]; cbn [encode_number] in H, He.
  - cbn in Hn. apply in_range_spec in Hn. destruct (create_int_holds r t R T Fit off v) as (b & Hb & Hm & E); [done..|].
    exists b. split; [done|]. destruct (leaf_cases off b) as (L & _). destruct (L Hm) as [-> ->]. rewrite E. split; [done|]. by exists true.
  - cbn [number_ok] in Hn. apply andb_true_iff in Hn as [->%Z.eqb_eq Hl%in_range_spec].
    cbn [length] in He. rewrite length_app, !length_be_bytes in He.
    destruct (create_int128_holds r t R T Fit off 0 low) as (b & Hb & Hm & E); [done..|lia|].
    exists b. split; [done|]. destruct (leaf_cases off b) as (L & _). destruct (L Hm) as [-> ->]. rewrite E. split; [done|]. by exists true.
  - apply holds_cons in H as [Hb H]. eexists. split; [done|]. split; [done|]. cbn [length] in He. rewrite length_be_bytes in He. destruct (leaf_fixed off) as (-> & _).
    rewrite (fixed_size_holds r t R T Fit off (be_bytes 4 bits)); [|done..|lia]. cbn [obind mbind result_bind]. rewrite swap_be; [rewrite float32_back by done; by exists true|].
    cbn in Hn. apply andb_true_iff in Hn as [Hn%in_range_spec _]. done.
  - apply holds_cons in H as [Hb H]. eexists. split; [done|]. split; [done|]. cbn [length] in He. rewrite length_be_bytes in He. destruct (leaf_fixed off) as (_ & -> & _).
    rewrite (fixed_size_holds r t R T Fit off (be_bytes 8 bits)); [|done..|lia]. cbn [obind mbind result_bind]. rewrite swap_be; [rewrite float64_back by done; by exists true|].
    cbn in Hn. apply andb_true_iff in Hn as [Hn%in_range_spec _]. done.
Qed.

Lemma leaf_holds (o : obj) (e : list Z) (off : Z) : is_leaf o = true -> obj_ok st o = true -> encode_obj table size o = Some e -> 8 <= off ->
  holds r (databytes r + off) e -> off + len e <= t_offsetTableOffset t ->
  exists b v c, load8 r (databytes r + off) = Ok b /\ is_container b = false /\ build opt o [] = Some v /\ create_leaf r t opt off b = Ok (Some (v, c)).
Proof.
  intros Hf Hk Ee Ho H He. destruct o as [chars|n|v|d|bits|kvs|es|v|]; try done; cbn [encode_obj build obj_ok] in *.
  - destruct (is_ascii chars) eqn:A; injection Ee as <-.
    + destruct (create_bytes_holds r t R T Fit Small kMarkerASCIIString off chars (PString (leaves_mutable opt))) as (b & Hb & Hm & E); [done..|].
      destruct (leaf_cases off b) as (_ & _ & L & _). destruct (L Hm) as [C D]. rewrite E in D. by eexists b, _, _.
    + destruct (create_unicode_holds r t R T Fit Small off chars (leaves_mutable opt)) as (b & Hb & Hm & E); [done|by apply forallb_in_range|done..|].
      destruct (leaf_cases off b) as (_ & _ & _ & L & _). destruct (L Hm) as [C D]. rewrite E in D. by eexists b, _, _.
  - injection Ee as <-. destruct (number_holds n off) as (b & Hb & Hm & c & E); [done..|]. by exists b, (PNumber n), c.
  - injection Ee as <-. apply holds_cons in H as [Hb _]. destruct v; by eexists _, _, _.
  - injection Ee as <-. destruct (create_bytes_holds r t R T Fit Small kMarkerData off d (PData (leaves_mutable opt))) as (b & Hb & Hm & E); [done..|].
    destruct (leaf_cases off b) as (_ & L & _). destruct (L Hm) as [C D]. rewrite E in D. by eexists b, _, _.
  - injection Ee as <-. apply holds_cons in H as [Hb H]. cbn [length] in He. rewrite length_be_bytes in He. eexists _, _, _. split; [done|]. split; [done|]. split; [done|].
    destruct (leaf_fixed off) as (_ & _ & ->). rewrite (fixed_size_holds r t R T Fit off (be_bytes 8 bits)); [|done..|lia]. cbn [obind mbind result_bind]. rewrite swap_be; [done|]. by apply in_range_spec.
  - destruct (create_uid_holds r t R T Fit off v) as (b & Hb & Hm & E); [done|by apply in_range_spec| |].
    { destruct (int_size_spec v) as (lg & E & Hl & _); [apply in_range_spec in Hk; lia|]. rewrite E in *. injection Ee as <-. split; [done|].
      cbn [length] in He. rewrite length_be_bytes in He. pose proof (pow_size lg Hl). lia. }
    destruct (leaf_cases off b) as (_ & _ & _ & _ & L). destruct (L Hm) as [C D]. rewrite E in D. by eexists b, _, _.
Qed.

End Leaf.

End PListLeaf.
