(* ===== verification/PListLayout.v ===== *)
(** * Binary property lists: where things are in a document

    The parts of a document at their addresses: the header, the encoding of each object at
    its offset, the entries of the table of offsets, the trailer; and that the checks of
    [__CFBinaryPlistGetTopLevelInfo] succeed on it. *)

From stdpp Require Import base list numbers option gmap.
From Stdlib Require Import ZArith Lia.
From S2P Require Import Prelude BinaryPList PListBytes PListSafe PListWriter PListBuffer PListFormat PListFlatten PListDecode PListLeaf.
Import BinaryPList PListBytes PListSafe PListWriter PListBuffer PListFormat PListFlatten PListDecode PListLeaf.

Module PListLayout.

(** ** Offsets *)

Lemma concat_at {A} (l : list (list A)) (i : nat) (e : list A) : l !! i = Some e ->
  concat l = concat (take i l) ++ e ++ concat (drop (S i) l).
Proof. intros H. rewrite <- (take_drop_middle l i e H) at 1. by rewrite concat_app. Qed.

Lemma offsets_lookup (encs : list (list Z)) (i : nat) (off o : Z) : offsets_from o encs !! i = Some off -> off = o + len (concat (take i encs)).
Proof.
  revert o i. induction encs as [|e encs IH]; intros o [|i] H; cbn in H; try done.
  - injection H as <-. cbn. lia.
  - apply IH in H. cbn [take concat]. rewrite length_app. lia.
Qed.

Lemma offsets_total (encs : list (list Z)) (i : nat) (o : Z) : (i < length encs)%nat -> is_Some (offsets_from o encs !! i).
Proof. intros H. apply lookup_lt_is_Some_2. by rewrite length_offsets. Qed.

Lemma take_S_length (encs : list (list Z)) (i j : nat) (e : list Z) : encs !! i = Some e -> (i < j)%nat ->
  len (concat (take i encs)) + len e <= len (concat (take j encs)).
Proof.
  intros H Hij. assert (E : take i encs ++ [e] = take (S i) encs) by (by rewrite (take_S_r _ _ _ H)).
  assert (P : concat (take j encs) = concat (take (S i) encs) ++ concat (drop (S i) (take j encs))).
  { rewrite <- concat_app. f_equal. rewrite <- (take_drop (S i) (take j encs)) at 1. f_equal. rewrite take_take. f_equal. lia. }
  rewrite P, <- E, concat_app, !length_app. cbn. rewrite app_nil_r. lia.
Qed.

(** ** The bytes of encodings *)

Lemma encode_int_bytes (v : Z) : 0 <= v < 2 ^ 64 -> bytes (encode_int v).
Proof.
  intros H. unfold encode_int. destruct (int_size_spec v H) as (lg & -> & Hl & _). constructor; [|apply be_bytes_bytes]. apply lor_byte; [done|lia].
Qed.

Lemma encode_count_bytes (m n : Z) : 0 <= m < 256 -> 0 <= n < 2 ^ 64 -> bytes (encode_count m n).
Proof.
  intros Hm Hn. unfold encode_count. case_match; constructor; try apply lor_byte; try lia; [done|by apply encode_int_bytes].
Qed.

Lemma concat_bytes (l : list (list Z)) : Forall bytes l -> bytes (concat l).
Proof. induction 1; cbn; [done|]. by apply Forall_app. Qed.

Lemma be_list_bytes (n : nat) (l : list Z) : bytes (concat (map (be_bytes n) l)).
Proof. apply concat_bytes, Forall_map, Forall_true. intros x. apply be_bytes_bytes. Qed.

Lemma encode_obj_bytes (st : store) (table : gmap Z Z) (size : Z) (o : obj) (e : list Z) : obj_ok st o = true -> 1 <= size -> len e < 2 ^ 63 ->
  encode_obj table size o = Some e -> bytes e /\ e <> [].
Proof.
  intros Hk Hs He E. assert (Hrefs : forall l, bytes (encode_refs table size l)) by (intros l; unfold encode_refs; rewrite <- (map_map _ (be_bytes _)); apply be_list_bytes).
  assert (N : forall m n l, encode_count m n ++ l <> []) by (intros m n l; unfold encode_count; by case_match).
  destruct o as [chars|n|v|d|bits|kvs|es|v|]; cbn [encode_obj obj_ok] in *; try done.
  - destruct (is_ascii chars) eqn:A; injection E as <-; rewrite length_app in He; (split; [|apply N]); apply Forall_app; split.
    + apply encode_count_bytes; [done|lia].
    + by apply ascii_bytes.
    + rewrite length_entries in He. apply encode_count_bytes; [done|lia].
    + apply be_list_bytes.
  - injection E as <-. destruct n; cbn [encode_number]; try (split; [|done]; constructor; [done|]; rewrite ?Forall_app; auto using be_bytes_bytes).
    split; [apply encode_int_bytes, u64_in_range|]. unfold encode_int. by case_match.
  - injection E as <-. split; [|done]. by destruct v; repeat constructor.
  - injection E as <-. rewrite length_app in He. split; [|apply N]. apply Forall_app. split; [apply encode_count_bytes; [done|lia]|by apply forallb_in_range].
  - injection E as <-. split; [|done]. constructor; [done|apply be_bytes_bytes].
  - injection E as <-. rewrite length_app, Nat2Z.inj_add, length_encode_refs in He by lia. split; [|apply N]. apply Forall_app. split; [|apply Hrefs].
    cbn [elements] in He. rewrite length_app, !length_fmap in He. apply encode_count_bytes; [done|nia].
  - injection E as <-. rewrite length_app, Nat2Z.inj_add, length_encode_refs in He by lia. split; [|apply N]. apply Forall_app. split; [|apply Hrefs].
    cbn [elements] in He. apply encode_count_bytes; [done|nia].
  - apply in_range_spec in Hk. destruct (int_size_spec v) as (lg & Ei & Hl & _); [lia|]. rewrite Ei in E. injection E as <-. split; [|done].
    pose proof (pow_size lg Hl). constructor; [apply lor_byte; [done|lia]|apply be_bytes_bytes].
Qed.

(** ** The document *)

Section Document.

Context (st : store) (f : flat) (encs : list (list Z)) (r : region).
Context (Se : store_ok st) (Ee : encodings st f = Some encs) (Fc : 1 <= len (objlist f) < 2 ^ 32).
Context (Er : contents r = layout f encs) (Ra : 0 < databytes r) (Rf : databytes r + datalen r < 2 ^ 64) (Rs : datalen r < 2 ^ 63).

Definition cnt : Z := len (objlist f).
Definition refs : Z := width cnt.
Definition table : Z := table_offset encs.
Definition ints : Z := width table.
Definition trailer : CFBinaryPlistTrailer := mkTrailer (replicate 5 0) 0 ints refs cnt 0 table.

Lemma document_size : datalen r = table + cnt * ints + 32.
Proof. unfold datalen. rewrite Er, (length_layout st f encs Ee). done. Qed.

Lemma widths : 1 <= refs <= 4 /\ 1 <= ints <= 8 /\ cnt < 256 ^ refs /\ table < 256 ^ ints /\ 0 <= cnt /\ 8 <= table < 2 ^ 63.
Proof.
  pose proof document_size as D. destruct (width_bounds table) as [B1 _]. fold ints in B1. destruct (width_bounds cnt) as [B2 B3]. fold refs in B2, B3.
  assert (Hc : 1 <= cnt < 2 ^ 32) by apply Fc. assert (Ht : 8 <= table < 2 ^ 63) by (split; [unfold table, table_offset; lia|nia]).
  assert (W : forall n, 0 <= n < 2 ^ 64 -> n < 256 ^ width n).
  { intros n Hn. unfold width. repeat case_match; change (256 ^ 1) with (2 ^ 8); change (256 ^ 2) with (2 ^ 16); change (256 ^ 4) with (2 ^ 32); change (256 ^ 8) with (2 ^ 64); lia. }
  split_and!; try lia; apply W; lia.
Qed.

(** The encoding of an object at its offset. *)
Lemma enc_lookup (i : nat) (a : Z) : objlist f !! i = Some a ->
  exists o e off, st !! a = Some o /\ obj_ok st o = true /\ encode_obj (objtable f) refs o = Some e /\ encs !! i = Some e /\ offsets_from 8 encs !! i = Some off.
Proof.
  intros Hi. unfold encodings in Ee. apply mapM_Some in Ee as F2. destruct (Forall2_lookup_l _ _ _ _ _ F2 Hi) as (e & He & Ea).
  apply bind_Some in Ea as (o & Ho & Eo). destruct (offsets_total encs i 8) as [off Hoff]; [by eapply lookup_lt_Some|].
  exists o, e, off. split_and!; try done. by apply (Se a).
Qed.

Lemma encs_bytes (i : nat) (e : list Z) : encs !! i = Some e -> bytes e /\ e <> [].
Proof.
  intros He. destruct (lookup_lt_is_Some_2 (objlist f) i) as [a Ha].
  { rewrite <- (length_encodings st f encs Ee). by eapply lookup_lt_Some. }
  destruct (enc_lookup i a Ha) as (o & e' & off & Ho & Hk & Eo & He' & _). simplify_eq.
  pose proof widths. pose proof document_size. apply (encode_obj_bytes st (objtable f) refs o); [done|lia| |done].
  assert (len e <= len (concat encs)) by (rewrite (concat_at _ _ _ He), !length_app; lia).
  assert (table = 8 + len (concat encs)) by done. lia.
Qed.

Lemma document_bytes : bytes (contents r).
Proof.
  pose proof widths as (W1 & W2 & _). rewrite Er. unfold layout, trailer_format. rewrite !Forall_app. split_and!.
  - by repeat constructor.
  - apply concat_bytes, Forall_lookup. intros i e He. by eapply encs_bytes.
  - apply be_list_bytes.
  - by repeat constructor.
  - repeat constructor; fold cnt refs table ints; lia.
  - apply be_bytes_bytes.
  - apply be_bytes_bytes.
  - apply be_bytes_bytes.
Qed.

Lemma region_good : region_ok r.
Proof. split; [lia|apply document_bytes]. Qed.

Lemma table_min : 9 <= table.
Proof.
  destruct (lookup_lt_is_Some_2 (objlist f) 0) as [a Ha]; [lia|]. destruct (enc_lookup 0 a Ha) as (o & e & off & _ & _ & _ & He & _).
  destruct (encs_bytes _ _ He) as [_ N]. unfold table, table_offset. rewrite (concat_at _ _ _ He), !length_app. destruct e; [done|]. cbn [length]. lia.
Qed.

Lemma trailer_good : trailer_ok r trailer.
Proof. pose proof widths. pose proof table_min. split; cbn; [done|unfold cnt; lia|lia|lia|]. rewrite document_size. lia. Qed.

Lemma holds_header : holds r (databytes r) header.
Proof. exists [], (drop 8 (layout f encs)). split; [by rewrite Er|cbn; lia]. Qed.

Lemma holds_objects : holds r (databytes r + 8) (concat encs).
Proof. eexists header, _. split; [by rewrite Er|done]. Qed.

Lemma holds_offsets : holds r (databytes r + table) (concat (map (be_bytes (Z.to_nat ints)) (offsets_from 8 encs))).
Proof. eexists (header ++ concat encs), _. split; [by rewrite Er, <- app_assoc|]. rewrite length_app. unfold table, table_offset. cbn. lia. Qed.

Lemma holds_trailer : holds r (databytes r + datalen r - 32) (trailer_format f encs).
Proof.
  eexists (header ++ concat encs ++ concat (map (be_bytes (Z.to_nat ints)) (offsets_from 8 encs))), [].
  split; [rewrite Er, app_nil_r; unfold layout; by rewrite <- !app_assoc|].
  unfold datalen. rewrite Er. unfold layout. rewrite !length_app. unfold trailer_format. rewrite !length_app, length_replicate, !length_be_bytes. fold table ints. cbn [length]. lia.
Qed.

Lemma holds_enc (i : nat) (e : list Z) (off : Z) : encs !! i = Some e -> offsets_from 8 encs !! i = Some off ->
  holds r (databytes r + off) e /\ 8 <= off /\ off + len e <= table.
Proof.
  intros He Ho. apply offsets_lookup in Ho as ->. pose proof holds_objects as H. unfold table, table_offset.
  rewrite (concat_at _ _ _ He) in H |- *. apply holds_app in H as [_ H]. apply holds_app in H as [H _]. rewrite !length_app. split; [|lia].
  by replace (databytes r + (8 + len (concat (take i encs)))) with (databytes r + 8 + len (concat (take i encs))) by lia.
Qed.

Lemma holds_entry (i : nat) (off : Z) : offsets_from 8 encs !! i = Some off ->
  holds r (databytes r + table + Z.of_nat i * ints) (be_bytes (Z.to_nat ints) off) /\ 0 <= off < table /\ (i < length encs)%nat.
Proof.
  intros Ho. assert (Hi : (i < length encs)%nat) by (apply lookup_lt_Some in Ho; by rewrite length_offsets in Ho).
  destruct (lookup_lt_is_Some_2 encs i Hi) as [e He]. destruct (holds_enc i e off He Ho) as (_ & H1 & H2). destruct (encs_bytes _ _ He) as [_ N].
  split; [|destruct e; [done|]; cbn [length] in H2; lia]. pose proof holds_offsets as H. pose proof widths as (_ & Wi & _).
  rewrite (concat_at _ i (be_bytes (Z.to_nat ints) off)) in H by (by rewrite list_lookup_fmap, Ho).
  apply holds_app in H as [_ H]. apply holds_app in H as [H _]. rewrite <- fmap_take, length_entries, length_take, length_offsets in H.
  replace (databytes r + table + Z.of_nat i * ints) with (databytes r + table + Z.of_nat (Z.to_nat ints * (i `min` length encs))); [done|]. nia.
Qed.

(** Two objects have different offsets. *)
Lemma offsets_inj (i j : nat) (off : Z) : offsets_from 8 encs !! i = Some off -> offsets_from 8 encs !! j = Some off -> i = j.
Proof.
  assert (L : forall i j, (i < j)%nat -> offsets_from 8 encs !! i = Some off -> offsets_from 8 encs !! j = Some off -> False).
  { intros i' j' H Hi Hj. apply lookup_lt_Some in Hi as Hlt. rewrite length_offsets in Hlt. destruct (lookup_lt_is_Some_2 encs i' Hlt) as [e He].
    destruct (encs_bytes _ _ He) as [_ N]. pose proof (take_S_length encs i' j' e He H). apply offsets_lookup in Hi, Hj. destruct e; [done|]. cbn [length] in *. lia. }
  intros Hi Hj. destruct (Nat.lt_total i j) as [H|[H|H]]; [|done|]; exfalso; [by apply (L i j)|by apply (L j i)].
Qed.

(** ** The checks of the trailer succeed *)

Lemma trailer_read : trailer_of (trailer_format f encs) = trailer.
Proof.
  pose proof widths as (_ & _ & _ & _ & W1 & W2). assert (S : forall v, 0 <= v < 2 ^ 64 -> swap_bytes 8 (le_value (be_bytes 8 v)) = v) by (intros v Hv; by apply swap_be).
  unfold trailer_format, trailer_of. fold table cnt. fold refs ints.
  cbn [replicate app take nth drop]. pose proof (length_be_bytes 8) as L.
  assert (F1 : take 8 (drop 0 (be_bytes 8 cnt ++ be_bytes 8 0 ++ be_bytes 8 table)) = be_bytes 8 cnt) by (by apply take_app_length').
  assert (F2 : take 8 (drop 8 (be_bytes 8 cnt ++ be_bytes 8 0 ++ be_bytes 8 table)) = be_bytes 8 0) by (rewrite drop_app_length' by done; by apply take_app_length').
  assert (F3 : take 8 (drop 16 (be_bytes 8 cnt ++ be_bytes 8 0 ++ be_bytes 8 table)) = be_bytes 8 table).
  { rewrite app_assoc, drop_app_length' by (by rewrite length_app, !L). apply take_ge. by rewrite L. }
  assert (cnt < 2 ^ 32) by apply Fc. rewrite F1, F2, F3, !S by lia. done.
Qed.

Lemma trailer_passes : trailer_fails r trailer = false.
Proof.
  pose proof widths as (W1 & W2 & W3 & W4 & W5 & W6). pose proof table_min as Tm. pose proof document_size as D.
  assert (Hc : 1 <= cnt < 2 ^ 32) by apply Fc. assert (0 <= cnt * ints) by nia. assert (Hn : 1 <= cnt * ints) by nia.
  assert (P : forall n : Z, 0 <= n -> Z.shiftl 1 (8 * n) = 256 ^ n) by (intros n Hn'; rewrite Z.shiftl_1_l, Z.pow_mul_r by lia; done).
  unfold trailer_fails. cbn [t_numObjects t_offsetTableOffset t_topObject t_offsetIntSize t_objectRefSize trailer]. unfold LONG_MAX, sizeof_trailer.
  rewrite check_mul_fits by lia. rewrite (check_add_fits 8) by lia. replace (8 + (table - 8)) with table by lia.
  rewrite (check_add_fits table) by lia. rewrite (check_add_fits (table + cnt * ints)) by lia.
  rewrite (check_add_fits (databytes r) 8) by lia. rewrite (check_add_fits (databytes r) table) by lia.
  rewrite (check_add_fits (databytes r + table) (cnt * ints - 1)) by lia. rewrite !P, D, Z.eqb_refl by lia. cbn [negb orb].
  repeat match goal with |- context [?a <? ?b] => destruct (Z.ltb_spec a b); try lia | |- context [?a <=? ?b] => destruct (Z.leb_spec a b); try lia end; done.
Qed.

Lemma offsets_pass (n i : nat) : (i + n = length encs)%nat -> offsets_fit r (databytes r + table + Z.of_nat i * ints) ints (table - 1) n = Ok (Some tt).
Proof.
  pose proof widths as (W1 & W2 & W3 & W4 & W5 & W6).
  revert i. induction n as [|n IH]; intros i Hi; cbn [offsets_fit]; [done|].
  destruct (offsets_total encs i 8) as [off Ho]; [lia|]. destruct (holds_entry i off Ho) as (H & Hoff & _).
  rewrite <- (Z2Nat.id ints) at 2 by lia. rewrite (sized_holds r _ off); [|apply document_bytes|done|rewrite Z2Nat.id by lia; lia|lia].
  cbn [mbind result_bind]. rewrite (proj2 (Z.ltb_ge _ _)) by lia.
  replace (databytes r + table + Z.of_nat i * ints + ints) with (databytes r + table + Z.of_nat (S i) * ints) by lia. apply IH. lia.
Qed.

Lemma first_offset : offsets_from 8 encs !! 0%nat = Some 8.
Proof. pose proof (length_encodings st f encs Ee). destruct encs; [cbn in *; lia|done]. Qed.

Lemma top_level_ok : exists m, CFBinaryPlistGetTopLevelInfo r = Ok (Some (m, 8, trailer)).
Proof.
  pose proof widths as (W1 & W2 & W3 & W4 & W5 & W6). pose proof table_min as Tm. pose proof document_size as D.
  destruct (load8_ok r (databytes r + 8)) as (m & Hm & _); [split; nia|]. exists m.
  unfold CFBinaryPlistGetTopLevelInfo. rewrite (proj2 (Z.eqb_neq _ _)) by lia. unfold sizeof_trailer at 1. rewrite (proj2 (Z.ltb_ge _ _)) by nia. cbn [orb].
  rewrite (loads_holds r _ magic 7); [|apply (holds_app r _ magic [48]), holds_header|done]. cbn [mbind result_bind].
  rewrite bool_decide_eq_true_2 by done. cbn [negb]. unfold sizeof_trailer. rewrite (loads_holds r _ (trailer_format f encs) 32); [|apply holds_trailer|].
  2: { unfold trailer_format. rewrite !length_app, length_replicate, !length_be_bytes. done. }
  cbn [mbind result_bind]. rewrite trailer_read, trailer_passes. cbn [t_numObjects t_offsetTableOffset t_topObject t_offsetIntSize t_objectRefSize trailer].
  pose proof (offsets_pass (length encs) 0 ltac:(lia)) as O. rewrite Z.mul_0_l, Z.add_0_r in O.
  unfold cnt at 1. rewrite Nat2Z.id, <- (length_encodings st f encs Ee), O. cbn [obind mbind result_bind].
  destruct (holds_entry 0 8 first_offset) as (H & _). rewrite <- (Z2Nat.id ints) at 2 by lia.
  rewrite (sized_holds r _ 8); [|apply document_bytes|done|rewrite Z2Nat.id by lia; lia|lia]. cbn [mbind result_bind].
  rewrite (proj2 (Z.leb_gt _ _)) by lia. cbn [orb Z.ltb Z.compare Pos.compare Pos.compare_cont]. rewrite Hm. done.
Qed.

(** A reference leads to the offset of its object. *)
Lemma ref_ok (p : Z) (i : nat) (off : Z) : holds r p (be_bytes (Z.to_nat refs) (Z.of_nat i)) -> databytes r + 8 <= p -> p + refs <= databytes r + table ->
  offsets_from 8 encs !! i = Some off -> getOffsetOfRefAt r p trailer = Ok off.
Proof.
  pose proof widths as (W1 & W2 & W3 & W4 & W5 & W6). intros H Hp Hp2 Ho. destruct (holds_entry i off Ho) as (He & Hoff & Hi).
  rewrite (length_encodings st f encs Ee) in Hi. assert (Hc : Z.of_nat i < cnt) by (unfold cnt; lia).
  unfold getOffsetOfRefAt. cbn [t_numObjects t_offsetTableOffset t_topObject t_offsetIntSize t_objectRefSize trailer].
  rewrite !(proj2 (Z.ltb_ge _ _)) by lia. cbn [orb]. rewrite <- (Z2Nat.id refs) at 1 by lia.
  rewrite (sized_holds r p (Z.of_nat i)); [|apply document_bytes|done|rewrite Z2Nat.id by lia; lia|lia]. cbn [mbind result_bind].
  rewrite (proj2 (Z.leb_gt _ _)) by lia. rewrite <- (Z2Nat.id ints) at 2 by lia. apply sized_holds; [apply document_bytes|done|rewrite Z2Nat.id by lia; lia|lia].
Qed.

End Document.

End PListLayout.
