(* ===== verification/PListRoundtrip.v ===== *)
(** * Binary property lists: reading what was written

    The document of a well-typed property list reads back as the property list, for every
    mutability option.  The proof follows the recursion of the reader: the cached objects
    are what their objects in the store stand for, and the offsets in [set] belong to
    objects that are higher than the one that is read. *)

From stdpp Require Import base list numbers option gmap.
From Stdlib Require Import ZArith Lia.
From S2P Require Import Prelude BinaryPList PListBytes PListSafe PListWriter PListBuffer PListFormat PListFlatten PListDecode PListLeaf PListLayout.
Import BinaryPList PListBytes PListSafe PListWriter PListBuffer PListFormat PListFlatten PListDecode PListLeaf PListLayout.

Module PListRoundtrip.

(** ** More fuel *)

Lemma obind_mono {A B} (m1 m2 : result (option A)) (g1 g2 : A -> result (option B)) (o : option B) :
  (forall x, m1 = Ok x -> m2 = Ok x) -> (forall a o, g1 a = Ok o -> g2 a = Ok o) -> obind m1 g1 = Ok o -> obind m2 g2 = Ok o.
Proof.
  intros H1 H2 E. unfold obind in *. apply bind_Ok in E as (x & Ex & E). rewrite (H1 _ Ex). cbn. destruct x; [by apply H2|done].
Qed.

Lemma create_list_mono (c1 c2 : parse -> Z -> result (option (parse * plist))) (r : region) (t : CFBinaryPlistTrailer) (keys n : nat) (ptr : Z) (p : parse) o :
  (forall p off o, c1 p off = Ok o -> c2 p off = Ok o) -> create_list c1 r t keys n ptr p = Ok o -> create_list c2 r t keys n ptr p = Ok o.
Proof.
  intros H. revert keys ptr p o. induction n as [|n IH]; intros keys ptr p o E; [done|]. cbn [create_list] in *.
  apply bind_Ok in E as (off & -> & E). cbn [mbind result_bind]. eapply obind_mono; [apply H| |exact E].
  intros [p' pl] o'. case_match; [done|]. apply obind_mono; [apply IH|done].
Qed.

Lemma create_object_mono (k k' : nat) (r : region) (t : CFBinaryPlistTrailer) (opt : mutability) (d : Z) (p : parse) (off : Z) o : (k <= k')%nat ->
  CFBinaryPlistCreateObjectFiltered k r t opt d p off = Ok o -> CFBinaryPlistCreateObjectFiltered k' r t opt d p off = Ok o.
Proof.
  revert k' d p off o. induction k as [|k IH]; intros [|k'] d p off o Hk E; [done..|lia|]. cbn [CFBinaryPlistCreateObjectFiltered] in *.
  case_match; [done|]. case_match; [done|]. case_match; [done|]. apply bind_Ok in E as (m & -> & E). cbn [mbind result_bind].
  destruct (is_container m); [|done]. unfold create_container in *. eapply obind_mono; [|intros a o' Ea|exact E]; [done|].
  destruct a as [n ptr]. cbv zeta in *. eapply obind_mono; [| |exact Ea]; [|done]. intros x. apply create_list_mono.
  intros p' off' o'' H'. apply IH; [lia|done].
Qed.

(** ** Heights *)

(** The least fuel at which an object stands for its property list. *)
Lemma denote_least (st : store) (opt : mutability) (k : nat) (a : Z) (v : plist) : denote k opt st a = Some v ->
  exists h, (h <= k)%nat /\ denote h opt st a = Some v /\ forall h', (h' < h)%nat -> denote h' opt st a = None.
Proof.
  induction k as [|k IH]; intros E; [done|]. destruct (denote k opt st a) as [w|] eqn:Ek.
  - pose proof (denote_mono st opt k (S k) a w ltac:(lia) Ek). simplify_eq. destruct (IH eq_refl) as (h & Hh & E1 & E2). exists h. split; [lia|done].
  - exists (S k). split; [done|]. split; [done|]. intros h' Hh. destruct (denote h' opt st a) as [w|] eqn:Ew; [|done].
    pose proof (denote_mono st opt h' k a w ltac:(lia) Ew). congruence.
Qed.

Lemma denote_det (st : store) (opt : mutability) (k k' : nat) (a : Z) (v w : plist) : denote k opt st a = Some v -> denote k' opt st a = Some w -> v = w.
Proof.
  intros E1 E2. apply (denote_mono st opt k (k + k')) in E1; [|lia]. apply (denote_mono st opt k' (k + k')) in E2; [|lia]. congruence.
Qed.

(** ** Reading a document *)

Section Read.

Context (st : store) (opt : mutability) (f : flat) (encs : list (list Z)) (r : region).
Context (Se : store_ok st) (Ee : encodings st f = Some encs) (Fc : 1 <= len (objlist f) < 2 ^ 32).
Context (Er : contents r = layout f encs) (Ra : 0 < databytes r) (Rf : databytes r + datalen r < 2 ^ 64) (Rs : datalen r < 2 ^ 61).
Context (Fo : flat_ok f) (Fl : Forall (listed st opt f) (objlist f)).

Lemma Rs63 : datalen r < 2 ^ 63.
Proof. lia. Qed.

Abbreviation T := (trailer f encs).
Abbreviation offs := (offsets_from 8 encs).

Lemma good_region : region_ok r.
Proof. exact (region_good st f encs r Se Ee Fc Er Ra Rs63). Qed.

Lemma good_trailer : trailer_ok r T.
Proof. exact (trailer_good st f encs r Se Ee Fc Er Rs63). Qed.

Lemma size_bounds : 1 <= refs f <= 4 /\ 9 <= table encs < 2 ^ 61 /\ databytes r + table encs < 2 ^ 64.
Proof.
  destruct (widths st f encs r Ee Fc Er Rs63) as (H & H1 & _). pose proof (table_min st f encs r Se Ee Fc Er Rs63).
  pose proof (document_size st f encs r Ee Er). unfold cnt in *. split; [done|]. nia.
Qed.

(** The state of a parse: what has been created, and that the objects on the path are
    higher than [h]. *)
Definition cache_good (p : parse) : Prop := forall m off v, p_objects p = Some m -> m !! off = Some v ->
  exists i a k, objlist f !! i = Some a /\ offs !! i = Some off /\ denote k opt st a = Some v.

Definition set_good (h : nat) (s : option (gset Z)) : Prop := forall s' x, s = Some s' -> x ∈ s' ->
  exists j b, objlist f !! j = Some b /\ offs !! j = Some x /\ denote h opt st b = None.

Lemma same_object (i j : nat) (a b off : Z) : objlist f !! i = Some a -> objlist f !! j = Some b -> offs !! i = Some off -> offs !! j = Some off -> a = b.
Proof. intros Hi Hj Oi Oj. pose proof (offsets_inj st f encs r Se Ee Fc Er Rs63 i j off Oi Oj). congruence. Qed.

Lemma remember_good (p : parse) (s : option (gset Z)) (c : bool) (i : nat) (a off : Z) (k : nat) (v : plist) :
  cache_good p -> objlist f !! i = Some a -> offs !! i = Some off -> denote k opt st a = Some v ->
  cache_good (mkParse (remember (p_objects p) c off v) s).
Proof.
  intros Hp Hi Ho Hd m x w E Ex. cbn in E. unfold remember in E. destruct c; [|by eapply Hp].
  destruct (p_objects p) as [m0|] eqn:E0; [|done]. injection E as <-.
  destruct (decide (x = off)) as [->|N]; [rewrite lookup_insert_eq in Ex; injection Ex as <-; by exists i, a, k|].
  rewrite lookup_insert_ne in Ex by done. by eapply Hp.
Qed.

(** The number of an object in the table. *)
Lemma ref_number (c : Z) : is_Some (objtable f !! c) ->
  exists i off, u32 (default 0 (objtable f !! c)) = Z.of_nat i /\ objlist f !! i = Some c /\ offs !! i = Some off.
Proof.
  intros [n Hn]. destruct (fo_table f Fo c n Hn) as [H0 Hi]. rewrite Hn. cbn [default from_option id].
  apply lookup_lt_Some in Hi as Hlt. destruct (offsets_total encs (Z.to_nat n) 8) as [off Ho]; [by rewrite (length_encodings st f encs Ee)|].
  exists (Z.to_nat n), off. split; [|done]. rewrite uwrap_small by (unfold in_u; lia). lia.
Qed.

(** What reading an object does. *)
Definition reads (res : result (option (parse * plist))) (s : option (gset Z)) (v : plist) : Prop :=
  exists p', res = Ok (Some (p', v)) /\ cache_good p' /\ p_set p' = s.

Lemma list_reads (create : parse -> Z -> result (option (parse * plist))) (s : option (gset Z)) (l : list Z) (vs : list plist) (keys : nat) (ptr : Z) (p : parse) :
  Forall2 (fun c v => is_Some (objtable f !! c) /\
    forall i off p, objlist f !! i = Some c -> offs !! i = Some off -> cache_good p -> p_set p = s -> reads (create p off) s v) l vs ->
  Forall (fun v => plistIsPrimitive v = true) (take keys vs) ->
  holds r ptr (encode_refs (objtable f) (refs f) l) -> databytes r + 8 <= ptr -> ptr + refs f * len l <= databytes r + table encs ->
  cache_good p -> p_set p = s ->
  exists p', create_list create r T keys (length l) ptr p = Ok (Some (p', vs)) /\ cache_good p' /\ p_set p' = s.
Proof.
  intros H. pose proof size_bounds as (W & _). revert keys ptr p. induction H as [|c v l vs [Hc Hv] _ IH]; intros keys ptr p Hk Hh Hp Hp2 Hg Hs; cbn [create_list length].
  { by exists p. }
  cbn [length] in Hp2. unfold encode_refs in Hh. cbn [map concat] in Hh. apply holds_app in Hh as [Hr Hh]. rewrite length_be_bytes, Z2Nat.id in Hh by lia.
  destruct (ref_number c Hc) as (i & off & Ei & Hi & Ho). rewrite Ei in Hr.
  rewrite (ref_ok st f encs r Se Ee Fc Er Rs63 ptr i off) by (done || lia). cbn [mbind result_bind].
  destruct (Hv i off p Hi Ho Hg Hs) as (p1 & -> & Hg1 & Hs1). cbn [obind mbind result_bind].
  assert (C : (0 <? keys)%nat && negb (plistIsPrimitive v) = false).
  { destruct keys; [done|]. cbn [take] in Hk. inversion_clear Hk as [|? ? Hv' _]. by rewrite Hv', andb_false_r. }
  rewrite C. cbn [t_objectRefSize trailer]. destruct (IH (pred keys) (ptr + refs f) p1) as (p2 & -> & Hg2 & Hs2); [|done|lia|lia|done|done|].
  { destruct keys; [done|]. cbn [take pred] in *. by inversion_clear Hk. }
  by exists p2.
Qed.

(** The references of a container behind its count: [n] elements, twice as many
    references for a dictionary. *)
Lemma refs_read (m n off : Z) (l : list Z) : m = kMarkerArray /\ len l = n \/ m = kMarkerDict /\ len l = 2 * n -> 0 <= n -> 8 <= off ->
  holds r (databytes r + off) (encode_count m n ++ encode_refs (objtable f) (refs f) l) ->
  off + len (encode_count m n ++ encode_refs (objtable f) (refs f) l) <= table encs ->
  exists b ptr, load8 r (databytes r + off) = Ok b /\ Z.land b 0xf0 = m /\ read_refs r T off b = Ok (Some (len l, ptr)) /\
    holds r ptr (encode_refs (objtable f) (refs f) l) /\ databytes r + 8 <= ptr /\ ptr + refs f * len l <= databytes r + table encs.
Proof.
  intros Hm Hn Ho H He. pose proof size_bounds as (W & Wt & Wf). rewrite length_app, Nat2Z.inj_add, length_encode_refs in He by lia.
  assert (M : Z.land m 0xf0 = m /\ Z.land m 0x0f = 0) by (by destruct Hm as [[-> _]|[-> _]]). destruct M as [M1 M2].
  destruct (read_count_holds r T good_region good_trailer Rf m n off (encode_refs (objtable f) (refs f) l)) as (b & Hb & Hbm & Hc & Hh); [done|done|unfold LONG_MAX; nia|lia|done|cbn; nia|].
  set (ptr := databytes r + off + len (encode_count m n)) in *. exists b, ptr. split; [done|]. split; [done|]. split; [|split; [done|lia]].
  unfold read_refs. rewrite Hc. cbn [obind mbind result_bind]. rewrite Hbm.
  assert (E : (if m =? kMarkerDict then check_uint64_mul n 2 false else (n, false)) = (len l, false)).
  { destruct Hm as [[-> Hl]|[-> Hl]]; cbn [Z.eqb kMarkerArray kMarkerDict Pos.eqb]; [by rewrite Hl|]. rewrite check_mul_fits by nia. f_equal. lia. }
  rewrite E. cbn [t_objectRefSize trailer]. rewrite check_mul_fits by nia.
  rewrite (past_objects_holds r T good_trailer Rf); [|lia|nia|cbn; lia]. rewrite check_mul_fits by nia. done.
Qed.

Lemma build_leaf (o : obj) (l : list plist) (v : plist) : is_leaf o = true -> build opt o l = Some v -> build opt o [] = Some v.
Proof. by destruct o. Qed.

Lemma leaf_elements (o : obj) : is_leaf o = true -> elements o = [].
Proof. by destruct o. Qed.

(** The keys of a dictionary are primitive. *)
Lemma keys_primitive (h : nat) (kvs : list (Z * Z)) (l : list plist) : obj_ok st (ODict kvs) = true -> mapM (denote h opt st) (elements (ODict kvs)) = Some l ->
  Nat.div2 (length l) = length kvs /\ Forall (fun v => plistIsPrimitive v = true) (take (length kvs) l).
Proof.
  intros Hk El. apply mapM_Some in El as F2. pose proof (Forall2_length _ _ _ F2) as L. cbn [elements] in L, F2. rewrite length_app, !length_fmap in L.
  split; [rewrite <- L; replace (length kvs + length kvs)%nat with (2 * length kvs)%nat by lia; apply Nat.div2_double|].
  apply (Forall2_take _ _ _ (length kvs)) in F2. rewrite take_app_length' in F2 by (by rewrite length_fmap).
  apply Forall_lookup. intros i v Hv. destruct (Forall2_lookup_r _ _ _ _ _ F2 Hv) as (c & Hc & Hd).
  apply list_lookup_fmap_Some in Hc as ([k x] & -> & Hkx). destruct h; [done|]. apply denote_step in Hd as (o & vs & Ho & _ & Hb). cbn [fst] in *.
  cbn [obj_ok] in Hk. eapply forallb_forall in Hk; [|apply list_elem_of_In; by eapply list_elem_of_lookup_2]. cbn in Hk. rewrite Ho in Hk.
  destruct o; try done; cbn in Hb; by simplify_eq.
Qed.

(** A container: its marker, its count and what the reader makes of its elements. *)
Lemma container_facts (h : nat) (o : obj) (l : list plist) (v : plist) (e : list Z) : is_leaf o = false -> obj_ok st o = true ->
  encode_obj (objtable f) (refs f) o = Some e -> mapM (denote h opt st) (elements o) = Some l -> build opt o l = Some v ->
  exists m n, (m = kMarkerArray /\ len (elements o) = n \/ m = kMarkerDict /\ len (elements o) = 2 * n) /\ 0 <= n /\
    e = encode_count m n ++ encode_refs (objtable f) (refs f) (elements o) /\
    (forall b, Z.land b 0xf0 = m -> container b (containers_mutable opt) l = v) /\
    Forall (fun v => plistIsPrimitive v = true) (take (if m =? kMarkerDict then Z.to_nat (len (elements o) / 2) else O) l).
Proof.
  intros Lf Hk Ec El Eb. destruct o as [| | | | |kvs|es| |]; try done; cbn [encode_obj build] in Ec, Eb; injection Ec as <-; injection Eb as <-.
  - destruct (keys_primitive h kvs l Hk El) as [E2 Hp]. exists kMarkerDict, (Z.of_nat (length kvs)).
    assert (L : len (elements (ODict kvs)) = 2 * Z.of_nat (length kvs)) by (cbn [elements]; rewrite length_app, !length_fmap; lia).
    split; [by right|]. split; [lia|]. split; [done|]. split.
    + intros b Hb. unfold container. rewrite Hb. cbn [Z.eqb kMarkerArray kMarkerSet kMarkerDict Pos.eqb]. by rewrite E2.
    + rewrite L, Z.mul_comm, Z.div_mul, Nat2Z.id by lia. done.
  - exists kMarkerArray, (len es). split; [by left|]. split; [lia|]. split; [done|]. split; [|done].
    intros b Hb. unfold container. by rewrite Hb.
Qed.

Lemma object_reads (h : nat) : forall (a : Z) (v : plist) (i : nat) (off : Z) (fuel : nat) (d : Z) (p : parse),
  denote h opt st a = Some v -> (forall h', (h' < h)%nat -> denote h' opt st a = None) ->
  objlist f !! i = Some a -> offs !! i = Some off -> cache_good p -> set_good h (p_set p) -> (h <= fuel)%nat ->
  reads (CFBinaryPlistCreateObjectFiltered fuel r T opt d p off) (p_set p) v.
Proof.
  induction h as [h IH] using lt_wf_ind. intros a v i off fuel d p Hd Hleast Hi Ho Hg Hs Hf.
  destruct h as [|h]; [done|]. destruct fuel as [|fuel]; [lia|]. cbn [CFBinaryPlistCreateObjectFiltered].
  destruct (p_objects p ≫= lookup off) as [pl|] eqn:El.
  { apply bind_Some in El as (m & Em & El). destruct (Hg m off pl Em El) as (j & b & k & Hj & Oj & Hb).
    rewrite (same_object j i b a off) in Hb by done. rewrite (denote_det _ _ _ _ _ _ _ Hb Hd). by exists p. }
  destruct (enc_lookup st f encs Se Ee i a Hi) as (o & e & off' & Eo & Hk & Ec & He & Ho'). rewrite Ho in Ho'. injection Ho' as <-.
  destruct (holds_enc f encs r Er i e off He Ho) as (Hh & H8 & Hend). destruct (encs_bytes st f encs r Se Ee Fc Er Rs63 i e He) as [_ Ne].
  assert (Hlt : off < table encs) by (destruct e; [done|]; cbn [length] in Hend; lia).
  assert (Nin : forall s, p_set p = Some s -> off ∉ s).
  { intros s Es Hin. destruct (Hs s off Es Hin) as (j & b & Hj & Oj & Hb). rewrite (same_object j i b a off) in Hb by done. congruence. }
  assert (Cs : match p_set p with Some s => bool_decide (off ∈ s) | None => false end = false).
  { destruct (p_set p) as [s|]; [|done]. apply bool_decide_eq_false. by apply Nin. }
  rewrite Cs. unfold objectsRangeStart, objectsRangeEnd. cbn [t_offsetTableOffset trailer].
  rewrite !(proj2 (Z.ltb_ge _ _)) by lia. cbn [orb]. pose proof Hd as Hd'. apply denote_step in Hd as (o' & l & Eo' & Emap & Eb). rewrite Eo in Eo'. injection Eo' as <-.
  destruct (is_leaf o) eqn:Lf.
  { destruct (leaf_holds r T good_region good_trailer Rf Rs63 opt st (objtable f) (refs f) o e off) as (b & w & c & -> & Hb & Hw & Hc); [done..|].
    cbn [mbind result_bind]. rewrite Hb, Hc. rewrite (build_leaf o l v Lf Eb) in Hw. injection Hw as <-. eexists. split; [done|]. split; [|done].
    by eapply remember_good. }
  set (made := match p_set p with None => 15 <? d | Some _ => false end). set (s := union {[off]} <$> (if made then Some ∅ else p_set p)).
  assert (Hsg : forall h', (h' <= h)%nat -> set_good h' s).
  { intros h' Hh' s' x Es Hx. assert (Hx' : x = off \/ exists s0, p_set p = Some s0 /\ x ∈ s0).
    { subst s made. destruct (p_set p) as [s0|]; cbn in Es; [|case_match]; injection Es as <- || done; set_solver. }
    destruct Hx' as [->|(s0 & Es0 & Hx0)].
    - exists i, a. split; [done|]. split; [done|]. apply Hleast. lia.
    - destruct (Hs s0 x Es0 Hx0) as (j & b & Hj & Oj & Hb). exists j, b. split; [done|]. split; [done|].
      destruct (denote h' opt st b) eqn:Eh; [|done]. pose proof (denote_mono st opt h' (S h) b p0 ltac:(lia) Eh). congruence. }
  assert (Hli : listed st opt f a) by (eapply Forall_lookup_1; [exact Fl|exact Hi]). destruct Hli as (o2 & k2 & v2 & Eo2 & _ & Hch). rewrite Eo in Eo2. injection Eo2 as <-.
  assert (F2 : Forall2 (fun c v => is_Some (objtable f !! c) /\
    forall i off p, objlist f !! i = Some c -> offs !! i = Some off -> cache_good p -> p_set p = s ->
      reads (CFBinaryPlistCreateObjectFiltered fuel r T opt (d + 1) p off) s v) (elements o) l).
  { apply mapM_Some in Emap. apply Forall2_same_length_lookup. split; [by eapply Forall2_length|]. intros n c w Hc Hw. split; [apply Hch; by eapply list_elem_of_lookup_2|].
    intros i' off' p' Hi' Ho' Hg' Hs'. pose proof (Forall2_lookup_lr _ _ _ _ _ _ Emap Hc Hw) as Hdc.
    destruct (denote_least st opt h c w Hdc) as (hc & Hhc & Hdc2 & Hlc). rewrite <- Hs'. apply (IH hc ltac:(lia) c w i'); [done..| |lia]. rewrite Hs'. by apply Hsg. }
  destruct (container_facts h o l v e) as (m & n & Hm & Hn & -> & Hcon & Hkeys); [done..|].
  destruct (refs_read m n off (elements o)) as (b & ptr & -> & Hbm & Hr & Hp & Hp1 & Hp2); [done..|]. cbn [mbind result_bind].
  assert (Hcb : is_container b = true) by (unfold is_container; rewrite Hbm; destruct Hm as [[-> _]|[-> _]]; done).
  rewrite Hcb. unfold create_container. rewrite Hr. cbn [obind mbind result_bind]. cbv zeta. fold made. fold s. rewrite Hbm, Nat2Z.id.
  destruct (list_reads _ s (elements o) l _ ptr (mkParse (p_objects p) s) F2 Hkeys Hp Hp1 Hp2) as (p' & -> & Hg' & Hs'); [done..|].
  cbn [obind mbind result_bind]. rewrite (Hcon b Hbm). eexists. split; [done|]. split; [by eapply remember_good|].
  cbn [p_set]. rewrite Hs'. subst s made. destruct (p_set p) as [s|] eqn:Es; cbn; [|by destruct (15 <? d)].
  f_equal. specialize (Nin s eq_refl). set_solver.
Qed.

(** An object of the document, read by itself. *)
Lemma created_reads (k i : nat) (a off : Z) (v : plist) (objects : option cache) : denote k opt st a = Some v ->
  objlist f !! i = Some a -> offs !! i = Some off -> (forall m, objects = Some m -> m = ∅) ->
  exists p, CFBinaryPlistCreateObject r off T opt objects = Ok (Some (p, v)).
Proof.
  intros Hd Hi Ho He. destruct (denote_least st opt k a v Hd) as (h & _ & Hh & Hl).
  assert (Hc : forall m x w, objects = Some m -> m !! x = Some w -> False).
  { intros m x w Em. rewrite (He m Em). by rewrite lookup_empty. }
  destruct (object_reads h a v i off h 0 (mkParse objects None)) as (p & E & _ & _); [done..| | |done|].
  { intros m x w Em Ex. by destruct (Hc m x w). }
  { by intros s x [=]. }
  exists p. destruct (create_object_total r T opt objects off good_region good_trailer) as (o & Eo & _).
  { intros m x w Em Ex. by destruct (Hc m x w). }
  rewrite Eo. f_equal. unfold CFBinaryPlistCreateObject in Eo.
  apply (create_object_mono h (h + depth_bound T)) in E; [|lia]. apply (create_object_mono _ (h + depth_bound T)) in Eo; [|lia]. congruence.
Qed.

Lemma document_reads (k : nat) (root : Z) (v : plist) : denote k opt st root = Some v -> objlist f !! 0%nat = Some root ->
  CFTryParseBinaryPlist r opt = Ok (Some v).
Proof.
  intros Hd H0. pose proof size_bounds as (_ & Wt & _). pose proof (document_size st f encs r Ee Er) as D. destruct (widths st f encs r Ee Fc Er Rs63) as (_ & Wi & _ & _ & Wc & _).
  unfold CFTryParseBinaryPlist. rewrite (proj2 (Z.leb_le _ _)) by nia.
  destruct (top_level_ok st f encs r Se Ee Fc Er Ra Rf Rs63) as (m & ->). cbn [obind mbind result_bind].
  destruct (created_reads k 0 root 8 v (Some ∅)) as (p & E); [done|done|by apply (first_offset st f encs r)|by intros m' [= <-]|].
  unfold CFBinaryPlistCreateObject in E. by rewrite E.
Qed.

End Read.

(** ** The round trip *)

(** The sizes that the format can express: references of 32 bits, and lists of references
    whose pointers fill less than the address space. *)
Definition fits (k : nat) (st : store) (root : Z) : bool :=
  match flattenPlist k st (mkFlat [] ∅ ∅) root with
  | Ok f => (len (objlist f) <? 2 ^ 32) && match document st f with Some d => len d <? 2 ^ 61 | None => true end
  | _ => true
  end.

Lemma listed_encodes (st : store) (opt : mutability) (f : flat) : Forall (listed st opt f) (objlist f) -> exists encs, encodings st f = Some encs.
Proof.
  intros H. unfold encodings. apply mapM_is_Some, Forall_forall. intros a Ha. rewrite Forall_forall in H. destruct (H a Ha) as (o & k & v & Ho & Hd & _).
  destruct k; [done|]. apply denote_step in Hd as (o' & l & Ho' & _ & Hb). rewrite Ho in Ho'. injection Ho' as <-.
  change (is_Some (st !! a ≫= encode_obj (objtable f) (width (len (objlist f))))). rewrite Ho. cbn [mbind option_bind].
  destruct o; try discriminate Hb; cbn [encode_obj]; try (by eexists); [case_match; by eexists|destruct (int_size v0); by eexists].
Qed.

Lemma written (st : store) (opt : mutability) (k : nat) (root : Z) (v : plist) : denote k opt st root = Some v -> fits k st root = true ->
  exists f encs, flattenPlist k st (mkFlat [] ∅ ∅) root = Ok f /\ encodings st f = Some encs /\ 1 <= len (objlist f) < 2 ^ 32 /\ len (layout f encs) < 2 ^ 61 /\
    flat_ok f /\ Forall (listed st opt f) (objlist f) /\ objlist f !! 0%nat = Some root.
Proof.
  intros Hd Hf. destruct (flatten_total st opt k root v (mkFlat [] ∅ ∅) Hd) as (f & Ef). unfold fits in Hf. rewrite Ef in Hf.
  apply andb_true_iff in Hf as [Hc%Z.ltb_lt Hl]. destruct (flatten_root st opt k root v f Hd Ef Hc) as (Fo & Fl & F0).
  destruct (listed_encodes st opt f Fl) as (encs & Ee). exists f, encs. unfold document in Hl. rewrite Ee in Hl. cbn in Hl. apply Z.ltb_lt in Hl.
  apply lookup_lt_Some in F0 as L0. split_and!; try done; lia.
Qed.

(** C15. For a property list of well-typed objects with fewer than 2^32 objects and less than 2^61
    bytes, __CFBinaryPlistWrite succeeds on data and on every stream that takes at least a byte at a
    time, appends a file whose length it returns, and __CFTryParseBinaryPlist reads the property list
    back from that file at any address, for each of the three mutability options. *)
Theorem write_read_roundtrip {stream : Type} (write : stream -> list Z -> stream * Z) (taken : stream -> list Z) `{!StreamLaws write taken}
    (st : store) (opt : mutability) (k : nat) (root : Z) (v : plist) (out : sink stream) (garbage : list Z) (address : Z) :
  store_ok st -> denote k opt st root = Some v -> fits k st root = true -> len garbage = sizeof_buffer -> 0 < address < 2 ^ 63 ->
  exists out' d, CFBinaryPlistWrite write k st root out garbage = Ok (Some out', len d, None) /\
    sink_bytes taken out' = sink_bytes taken out ++ d /\ CFTryParseBinaryPlist (mkRegion address d) opt = Ok (Some v).
Proof.
  intros Hst Hd Hf Hg Ha. destruct (written st opt k root v Hd Hf) as (f & encs & Ef & Ee & Hc & Hl & Fo & Fl & F0).
  destruct (write_document write taken k st root out garbage (layout f encs) f) as (out' & Ew & Eb); [done|unfold document; by rewrite Ee| |lia|lia|done|].
  { intros a o _ Ho. pose proof (Hst a o Ho) as Hk. destruct o; try done. cbn in *. by apply in_range_spec. }
  exists out', (layout f encs). split; [done|]. split; [done|].
  apply (document_reads st opt f encs (mkRegion address (layout f encs))) with (k := k) (root := root); try done; unfold datalen; cbn [databytes contents]; lia.
Qed.

End PListRoundtrip.
