(* ===== verification/PListLookup.v ===== *)
(** * Binary property lists: looking up values in a document

    In a document that the writer has made, the lookups find what is there: an element of
    an array by its index, a value of a dictionary by its key.  The lookup by key needs the
    key not to be the last object of the document, see PListDefects.v. *)

From stdpp Require Import base list numbers option gmap.
From Stdlib Require Import ZArith Lia.
From S2P Require Import Prelude BinaryPList PListBytes PListSafe PListWriter PListBuffer PListFormat PListFlatten PListDecode PListLeaf PListLayout PListRoundtrip.
Import BinaryPList PListBytes PListSafe PListWriter PListBuffer PListFormat PListFlatten PListDecode PListLeaf PListLayout PListRoundtrip.

Module PListLookup.

(** ** The key *)

(** The bytes of a key that is ASCII, wherever they are. *)
Definition key_good (key : key_string) : Prop :=
  is_ascii (k_chars key) = true /\ forall buf, key_buffer key = Some buf -> take (length (k_chars key)) buf = Some <$> k_chars key.

Lemma mapM_Some_list (l : list Z) : mapM id (Some <$> l) = Some l.
Proof. apply mapM_Some, Forall2_fmap_l, Forall_Forall2_diag, Forall_true. done. Qed.

Lemma buffer_bytes_good (l : list (option Z)) (chars : list Z) : take (length chars) l = Some <$> chars -> buffer_bytes l (length chars) = Ok chars.
Proof.
  intros E. unfold buffer_bytes. rewrite E, mapM_Some_list, Nat.eqb_refl. done.
Qed.

(** The first pair whose key is a string with the characters of [key]. *)
Definition is_string (st : store) (chars : list Z) (a : Z) : bool :=
  match st !! a with Some (OString c) => bool_decide (chars = c) | _ => false end.

Fixpoint first_match (st : store) (chars : list Z) (kvs : list (Z * Z)) : option (Z * Z) :=
  match kvs with
  | [] => None
  | (k, v) :: kvs => if is_string st chars k then Some (k, v) else first_match st chars kvs
  end.

Section Lookup.

Context (st : store) (opt : mutability) (f : flat) (encs : list (list Z)) (r : region).
Context (Se : store_ok st) (Ee : encodings st f = Some encs) (Fc : 1 <= len (objlist f) < 2 ^ 32).
Context (Er : contents r = layout f encs) (Ra : 0 < databytes r) (Rf : databytes r + datalen r < 2 ^ 64) (Rs : datalen r < 2 ^ 61).
Context (Fo : flat_ok f) (Fl : Forall (listed st opt f) (objlist f)).

Abbreviation T := (trailer f encs).
Abbreviation offs := (offsets_from 8 encs).

Lemma small63 : datalen r < 2 ^ 63.
Proof. lia. Qed.

(** [a] is in the document at the offset [off]. *)
Definition located_at (a off : Z) : Prop := exists i, objlist f !! i = Some a /\ offs !! i = Some off.

Lemma listed_elements (i : nat) (a c : Z) (o : obj) : objlist f !! i = Some a -> st !! a = Some o -> c ∈ elements o -> is_Some (objtable f !! c).
Proof.
  intros Hi Ho Hc. pose proof (Forall_lookup_1 _ _ _ _ Fl Hi) as (o' & k & v & Ho' & _ & Hch). rewrite Ho in Ho'. injection Ho' as <-. by apply Hch.
Qed.

(** The [n]-th of the references at [ptr]. *)
Lemma nth_ref (l : list Z) (ptr c : Z) (n : nat) : holds r ptr (encode_refs (objtable f) (refs f) l) -> databytes r + 8 <= ptr ->
  ptr + refs f * len l <= databytes r + table encs -> l !! n = Some c -> is_Some (objtable f !! c) ->
  exists off, getOffsetOfRefAt r (ptr + Z.of_nat n * refs f) T = Ok off /\ located_at c off.
Proof.
  intros H Hp Hp2 Hn Hc. destruct (size_bounds st f encs r Se Ee Fc Er Ra Rf Rs) as (W & _).
  destruct (ref_number st f encs Ee Fc Fo c Hc) as (i & off & Ei & Hi & Ho). exists off. split; [|by exists i].
  apply lookup_lt_Some in Hn as Hlt. apply (ref_ok st f encs r Se Ee Fc Er small63 _ i); [|nia|nia|done].
  unfold encode_refs in H. rewrite (concat_at _ n (be_bytes (Z.to_nat (refs f)) (Z.of_nat i))) in H by (rewrite list_lookup_fmap, Hn; cbn; by rewrite Ei).
  apply holds_app in H as [_ H]. apply holds_app in H as [H _]. rewrite <- fmap_take in H.
  assert (L : len (concat (map (fun a => be_bytes (Z.to_nat (refs f)) (u32 (default 0 (objtable f !! a)))) (take n l))) = Z.of_nat n * refs f).
  { fold (encode_refs (objtable f) (refs f) (take n l)). rewrite length_encode_refs, length_take by lia. nia. }
  unfold fmap, list_fmap in H. fold (map (fun a => be_bytes (Z.to_nat (refs f)) (u32 (default 0 (objtable f !! a)))) (take n l)) in H. by rewrite L in H.
Qed.

(** ** Arrays *)

Lemma array_lookup (a off c : Z) (es : list Z) (n : nat) : located_at a off -> st !! a = Some (OArray es) -> es !! n = Some c ->
  exists coff, CFBinaryPlistGetOffsetForValueFromArray2 r off T (Z.of_nat n) = Ok (Some coff) /\ located_at c coff.
Proof.
  intros (i & Hi & Ho) Ha Hn. destruct (size_bounds st f encs r Se Ee Fc Er Ra Rf Rs) as (W & Wt & Wf).
  destruct (enc_lookup st f encs Se Ee i a Hi) as (o & e & off' & Eo & Hk & Ec & He & Ho'). simplify_eq. cbn [encode_obj] in Ec. injection Ec as <-.
  destruct (holds_enc f encs r Er i _ off He Ho) as (Hh & H8 & Hend). pose proof (lookup_lt_Some _ _ _ Hn) as Hlt.
  assert (L : len (encode_count kMarkerArray (len es)) >= 1) by (unfold encode_count; case_match; cbn [length]; lia).
  pose proof Hend as Hend'. rewrite length_app, Nat2Z.inj_add, length_encode_refs in Hend' by lia. cbn [elements] in *.
  pose proof (good_region st f encs r Se Ee Fc Er Ra Rs) as R. pose proof (good_trailer st f encs r Se Ee Fc Er Rs) as Tr.
  destruct (read_count_holds r T R Tr Rf kMarkerArray (len es) off (encode_refs (objtable f) (refs f) es)) as (b & Hb & Hm & Hc & Hl); [done|done|unfold LONG_MAX; nia|lia|done|cbn; nia|].
  unfold CFBinaryPlistGetOffsetForValueFromArray2, objectsRangeStart, objectsRangeEnd. cbn [t_offsetTableOffset t_objectRefSize trailer].
  rewrite !(proj2 (Z.ltb_ge _ _)) by nia. cbn [orb]. rewrite Hb. cbn [mbind result_bind]. rewrite Hm, Z.eqb_refl. cbn [negb]. rewrite Hc. cbn [obind mbind result_bind].
  rewrite (uwrap_small 64) by (unfold in_u; nia). rewrite (proj2 (Z.leb_gt _ _)) by lia. rewrite check_mul_fits by nia.
  rewrite (past_objects_holds r T Tr Rf) by (cbn; nia).
  destruct (nth_ref es (databytes r + off + len (encode_count kMarkerArray (len es))) c n) as (coff & -> & Hl'); [done|lia|nia|done| |by exists coff].
  eapply listed_elements; [exact Hi|exact Ha|]. by eapply list_elem_of_lookup_2.
Qed.

(** ** Dictionaries *)

Context (key : key_string) (Kg : key_good key).

Abbreviation keyLen := (len (k_chars key)).

(** An ASCII string of the data is compared byte by byte. *)
Lemma ascii_matches_ok (off b : Z) (chars : list Z) (buf : list (option Z)) : 8 <= off -> key_buffer key = Some buf ->
  holds r (databytes r + off) (encode_count kMarkerASCIIString (len chars) ++ chars) -> load8 r (databytes r + off) = Ok b ->
  off + len (encode_count kMarkerASCIIString (len chars) ++ chars) < table encs ->
  ascii_matches r T off b key buf = Ok (Some (bool_decide (k_chars key = chars))).
Proof.
  intros H8 Hbuf Hh Hb Hend. destruct (size_bounds st f encs r Se Ee Fc Er Ra Rf Rs) as (W & Wt & Wf).
  pose proof (good_region st f encs r Se Ee Fc Er Ra Rs) as R. pose proof (good_trailer st f encs r Se Ee Fc Er Rs) as Tr.
  rewrite length_app in Hend. destruct (proj2 Kg buf Hbuf). pose proof (buffer_bytes_good buf (k_chars key) (proj2 Kg buf Hbuf)) as Kb.
  assert (Cmp : forall q, q = databytes r + off + len (encode_count kMarkerASCIIString (len chars)) ->
    (if len chars =? keyLen then
       let '(extent, err) := check_uint64_add q (len chars) false in
       if err then FAIL_FALSE else if databytes r + t_offsetTableOffset T <=? extent then FAIL_FALSE else
       l ← loads r q (Z.to_nat keyLen); k ← buffer_bytes buf (Z.to_nat keyLen); Ok (Some (bool_decide (l = k)))
     else Ok (Some false)) = Ok (Some (bool_decide (k_chars key = chars)))).
  { intros q ->. apply holds_app in Hh as [_ Hc]. destruct (Z.eqb_spec (len chars) keyLen) as [E|N].
    - rewrite check_add_fits by lia. cbn [t_offsetTableOffset trailer]. rewrite (proj2 (Z.leb_gt _ _)) by lia. rewrite Nat2Z.id.
      rewrite (loads_holds r _ chars (length (k_chars key))) by (done || lia). cbn [mbind result_bind]. rewrite Kb. cbn [mbind result_bind].
      do 2 f_equal. by apply bool_decide_ext.
    - rewrite bool_decide_eq_false_2; [done|]. intros E. by rewrite E in N. }
  unfold ascii_matches. rewrite (skip_marker r T R Tr Rf) by (cbn; lia). unfold encode_count in *. destruct (Z.ltb_spec (len chars) 15) as [C|C].
  - apply holds_app in Hh as [Hh _]. apply holds_cons in Hh as [Hb' _]. rewrite Hb in Hb'. injection Hb' as ->.
    destruct (marker_bits kMarkerASCIIString (len chars)) as [_ ->]; [done..|lia|]. rewrite (proj2 (Z.eqb_neq (len chars) 15)) by lia. cbn [andb obind mbind result_bind].
    apply Cmp. cbn [length]. lia.
  - cbn [app] in Hh. apply holds_cons in Hh as [Hb' Hh]. apply holds_app in Hh as [Hh _]. rewrite Hb in Hb'. injection Hb' as ->.
    destruct (marker_bits kMarkerASCIIString 15) as [_ ->]; [done..|lia|]. change (15 =? 15) with true. cbn [andb].
    destruct (Z.leb_spec 15 keyLen) as [C2|C2].
    + cbn [length] in Hend. rewrite (readInt_holds r T R Tr Rf _ (len chars)); [|lia|lia|done|cbn; lia]. cbn [obind mbind result_bind].
      unfold LONG_MAX. rewrite (proj2 (Z.ltb_ge _ _)) by lia. cbn [obind mbind result_bind]. apply Cmp. cbn [length]. lia.
    + cbn [obind mbind result_bind]. rewrite (proj2 (Z.eqb_neq 15 keyLen)) by lia. rewrite bool_decide_eq_false_2; [done|]. intros E. rewrite E in C2. lia.
Qed.

(** Any string of the data, unless it is the last object, is compared with the key. *)
Lemma key_matches_ok (c off : Z) (chars : list Z) (i : nat) : objlist f !! i = Some c -> offs !! i = Some off -> st !! c = Some (OString chars) ->
  Z.of_nat i + 1 < len (objlist f) ->
  exists b, load8 r (u64 (databytes r + off)) = Ok b /\ key_matches r T off b key = Ok (Some (is_string st (k_chars key) c)).
Proof.
  intros Hi Ho Hc Hlast. destruct (size_bounds st f encs r Se Ee Fc Er Ra Rf Rs) as (W & Wt & Wf).
  pose proof (good_region st f encs r Se Ee Fc Er Ra Rs) as R. pose proof (good_trailer st f encs r Se Ee Fc Er Rs) as Tr.
  destruct (enc_lookup st f encs Se Ee i c Hi) as (o & e & off' & Eo & Hk & Ec & He & Ho'). rewrite Ho in Ho'. injection Ho' as <-.
  rewrite Hc in Eo. injection Eo as <-. destruct (holds_enc f encs r Er i e off He Ho) as (Hh & H8 & Hend).
  assert (Hlt : off + len e < table encs).
  { pose proof (length_encodings st f encs Ee) as Le. destruct (lookup_lt_is_Some_2 encs (S i)) as [e2 He2]; [lia|]. destruct (offsets_total encs (S i) 8) as [o2 Ho2]; [lia|].
    destruct (holds_enc f encs r Er (S i) e2 o2 He2 Ho2) as (_ & _ & He2'). destruct (encs_bytes st f encs r Se Ee Fc Er small63 (S i) e2 He2) as [_ N2].
    pose proof (take_S_length encs i (S i) e He ltac:(lia)) as Ls. apply offsets_lookup in Ho, Ho2. destruct e2; [done|]. cbn [length] in He2'. lia. }
  destruct R as [Ra' Rb]. pose proof (Build_region_ok r Ra' Rb) as R. rewrite (uwrap_small 64) by (unfold in_u; lia).
  destruct (leaf_holds r T R Tr Rf small63 Immutable st (objtable f) (refs f) (OString chars) e off) as (b & w & sh & Hb & Hcb & Hw & Hl); [done..|].
  exists b. split; [done|]. cbn [build] in Hw. injection Hw as <-. unfold is_string. rewrite Hc. unfold key_matches.
  destruct (if Z.land b 240 =? kMarkerASCIIString then key_buffer key else None) as [buf|] eqn:Kc.
  - destruct (Z.eqb_spec (Z.land b 240) kMarkerASCIIString) as [Eb|]; [|done]. cbn [encode_obj] in Ec. destruct (is_ascii chars); injection Ec as <-.
    + by apply ascii_matches_ok.
    + destruct (create_unicode_holds r T R Tr Rf small63 off chars false) as (b' & Hb' & Hm & _); [done|by apply forallb_in_range|done..|]. rewrite Hb in Hb'. injection Hb' as <-. by rewrite Hm in Eb.
  - unfold depth_bound. cbn [CFBinaryPlistCreateObjectFiltered Nat.add p_objects p_set mbind option_bind]. unfold objectsRangeStart, objectsRangeEnd. cbn [t_offsetTableOffset trailer].
    rewrite !(proj2 (Z.ltb_ge _ _)) by lia. cbn [orb]. rewrite Hb. cbn [mbind result_bind]. rewrite Hcb, Hl. done.
Qed.

Lemma search_ok (kvs pre suf : list (Z * Z)) (kp : Z) :
  kvs = pre ++ suf -> holds r kp (encode_refs (objtable f) (refs f) (kvs.*1 ++ kvs.*2)) -> databytes r + 8 <= kp ->
  kp + refs f * (2 * Z.of_nat (length kvs)) <= databytes r + table encs ->
  (forall c, c ∈ kvs.*1 ++ kvs.*2 -> is_Some (objtable f !! c)) ->
  (forall c i, c ∈ kvs.*1 -> objlist f !! i = Some c -> Z.of_nat i + 1 < len (objlist f) /\ exists chars, st !! c = Some (OString chars)) ->
  let res := search_keys r T key (Z.of_nat (length kvs) * refs f) (length suf) (kp + Z.of_nat (length pre) * refs f) in
  match first_match st (k_chars key) suf with
  | Some (ka, va) => exists ko vo, res = Ok (Some (ko, vo)) /\ located_at ka ko /\ located_at va vo
  | None => res = FAIL_FALSE
  end.
Proof.
  intros E Hh Hp Hp2 Hin Hkey. assert (L2 : len (kvs.*1 ++ kvs.*2) = 2 * Z.of_nat (length kvs)) by (rewrite length_app, !length_fmap; lia).
  revert pre E. induction suf as [|[k v] suf IH]; intros pre E; cbn [first_match search_keys length]; [done|]. cbv zeta.
  assert (Hk : (kvs.*1 ++ kvs.*2) !! length pre = Some k).
  { apply lookup_app_l_Some. rewrite E, list_lookup_fmap, list_lookup_middle by done. done. }
  assert (Hv : (kvs.*1 ++ kvs.*2) !! (length kvs + length pre)%nat = Some v).
  { rewrite lookup_app_r by (rewrite length_fmap; lia). rewrite length_fmap. replace (length kvs + length pre - length kvs)%nat with (length pre) by lia.
    rewrite E at 1. rewrite list_lookup_fmap, list_lookup_middle by done. done. }
  destruct (nth_ref _ kp k (length pre) Hh Hp ltac:(rewrite L2; lia) Hk) as (ko & Eko & i & Hi & Hoi); [apply Hin; by eapply list_elem_of_lookup_2|].
  rewrite Eko. cbn [mbind result_bind].
  destruct (Hkey k i) as (Hlast & chars & Hst); [rewrite E, fmap_app; set_solver|done|].
  destruct (key_matches_ok k ko chars i Hi Hoi Hst Hlast) as (b & -> & Em). cbn [mbind result_bind]. rewrite Em. cbn [obind mbind result_bind].
  destruct (is_string st (k_chars key) k).
  - destruct (nth_ref _ kp v (length kvs + length pre) Hh Hp ltac:(rewrite L2; lia) Hv) as (vo & Evo & Lv); [apply Hin; by eapply list_elem_of_lookup_2|].
    exists ko, vo. replace (kp + Z.of_nat (length pre) * refs f + Z.of_nat (length kvs) * refs f) with (kp + Z.of_nat (length kvs + length pre) * refs f) by lia.
    rewrite Evo. split; [done|]. split; [by exists i|done].
  - specialize (IH (pre ++ [(k, v)])). rewrite length_app in IH. cbn [length] in IH. cbn [t_objectRefSize trailer].
    replace (kp + Z.of_nat (length pre) * refs f + refs f) with (kp + Z.of_nat (length pre + 1) * refs f) by lia. apply IH. by rewrite <- app_assoc.
Qed.

Lemma dictionary_lookup (a off : Z) (kvs : list (Z * Z)) : located_at a off -> st !! a = Some (ODict kvs) ->
  (forall c i, c ∈ kvs.*1 -> objlist f !! i = Some c -> Z.of_nat i + 1 < len (objlist f) /\ exists chars, st !! c = Some (OString chars)) ->
  match first_match st (k_chars key) kvs with
  | Some (ka, va) => exists ko vo, CFBinaryPlistGetOffsetForValueFromDictionary3 r off T key = Ok (Some (ko, vo)) /\ located_at ka ko /\ located_at va vo
  | None => CFBinaryPlistGetOffsetForValueFromDictionary3 r off T key = FAIL_FALSE
  end.
Proof.
  intros (i & Hi & Ho) Ha Hkey. destruct (size_bounds st f encs r Se Ee Fc Er Ra Rf Rs) as (W & Wt & Wf).
  destruct (enc_lookup st f encs Se Ee i a Hi) as (o & e & off' & Eo & Hk & Ec & He & Ho'). rewrite Ho in Ho'. injection Ho' as <-. rewrite Ha in Eo. injection Eo as <-.
  cbn [encode_obj] in Ec. injection Ec as <-. destruct (holds_enc f encs r Er i _ off He Ho) as (Hh & H8 & Hend). cbn [elements] in Hh, Hend.
  assert (L2 : len (kvs.*1 ++ kvs.*2) = 2 * Z.of_nat (length kvs)) by (rewrite length_app, !length_fmap; lia).
  pose proof Hend as Hend'. rewrite length_app, Nat2Z.inj_add, length_encode_refs, L2 in Hend' by lia.
  assert (L1 : len (encode_count kMarkerDict (Z.of_nat (length kvs))) >= 1) by (unfold encode_count; case_match; cbn [length]; lia).
  pose proof (good_region st f encs r Se Ee Fc Er Ra Rs) as R. pose proof (good_trailer st f encs r Se Ee Fc Er Rs) as Tr.
  destruct (read_count_holds r T R Tr Rf kMarkerDict (Z.of_nat (length kvs)) off (encode_refs (objtable f) (refs f) (kvs.*1 ++ kvs.*2))) as (b & Hb & Hm & Hc & Hl);
    [done|done|unfold LONG_MAX; nia|lia|done|cbn; nia|].
  unfold CFBinaryPlistGetOffsetForValueFromDictionary3, objectsRangeStart, objectsRangeEnd. cbn [t_offsetTableOffset t_objectRefSize trailer].
  rewrite !(proj2 (Z.ltb_ge _ _)) by nia. cbn [orb]. rewrite Hb. cbn [mbind result_bind]. rewrite Hm, Z.eqb_refl. cbn [negb]. rewrite Hc. cbn [obind mbind result_bind].
  rewrite check_mul_fits by nia. rewrite check_mul_fits by nia. rewrite (past_objects_holds r T Tr Rf) by (cbn; nia).
  rewrite Z.div_mul, Nat2Z.id by lia.
  pose proof (search_ok kvs [] kvs (databytes r + off + len (encode_count kMarkerDict (Z.of_nat (length kvs)))) eq_refl Hl ltac:(lia) ltac:(nia)) as S.
  cbn [length] in S. rewrite Z.mul_0_l, Z.add_0_r in S. apply S; [|done]. intros c Hin. by eapply listed_elements.
Qed.

End Lookup.

(** ** From the writer to the lookup *)

Lemma before_last (l : list Z) (c : Z) (i : nat) : l !! i = Some c -> last l <> Some c -> Z.of_nat i + 1 < len l.
Proof.
  intros Hi Hl. pose proof (lookup_lt_Some _ _ _ Hi) as H. destruct (decide (i = pred (length l))) as [->|N]; [|lia].
  by rewrite last_lookup in Hl.
Qed.

Lemma first_match_value (st : store) (chars : list Z) (kvs : list (Z * Z)) (ka va : Z) : first_match st chars kvs = Some (ka, va) -> va ∈ kvs.*2.
Proof.
  induction kvs as [|[k v] kvs IH]; cbn [first_match]; [done|]. case_match; intros E; [injection E as -> ->; left|right; by apply IH].
Qed.

(** C27. In the file of a dictionary that was written, __CFBinaryPlistGetOffsetForValueFromDictionary3
    finds the first pair whose key is the ASCII string it is given, __CFBinaryPlistCreateObject at the
    offset found makes the value of that pair, and a string that is no key is not found, provided that
    no key is the last object of the file. *)
Theorem written_dictionary_lookup (st : store) (opt : mutability) (k : nat) (root address : Z) (v : plist) (f : flat) (d : list Z) (kvs : list (Z * Z)) (key : key_string) :
  store_ok st -> denote k opt st root = Some v -> fits k st root = true -> 0 < address < 2 ^ 63 ->
  flattenPlist k st (mkFlat [] ∅ ∅) root = Ok f -> document st f = Some d -> st !! root = Some (ODict kvs) -> key_good key ->
  (forall c, c ∈ kvs.*1 -> last (objlist f) <> Some c /\ exists chars, st !! c = Some (OString chars)) ->
  exists marker off trailer, CFBinaryPlistGetTopLevelInfo (mkRegion address d) = Ok (Some (marker, off, trailer)) /\
  match first_match st (k_chars key) kvs with
  | Some (_, va) => exists ko vo p w, CFBinaryPlistGetOffsetForValueFromDictionary3 (mkRegion address d) off trailer key = Ok (Some (ko, vo)) /\
      CFBinaryPlistCreateObject (mkRegion address d) vo trailer opt None = Ok (Some (p, w)) /\ denote k opt st va = Some w
  | None => CFBinaryPlistGetOffsetForValueFromDictionary3 (mkRegion address d) off trailer key = FAIL_FALSE
  end.
Proof.
  intros Hst Hd Hf Ha Ef Ed Hr Kg Hk. destruct (written st opt k root v Hd Hf) as (f' & encs & Ef' & Ee & Hc & Hl & Fo & Fl & F0).
  rewrite Ef in Ef'. injection Ef' as <-. unfold document in Ed. rewrite Ee in Ed. injection Ed as <-. set (r := mkRegion address (layout f encs)).
  assert (Er : contents r = layout f encs) by done. assert (Ra : 0 < databytes r) by (cbn; lia).
  assert (Rf : databytes r + datalen r < 2 ^ 64) by (unfold datalen; cbn [databytes contents r]; lia). assert (Rs : datalen r < 2 ^ 61) by (unfold datalen; cbn [databytes contents r]; lia).
  destruct (top_level_ok st f encs r Hst Ee Hc Er Ra Rf ltac:(lia)) as (m & ->). exists m, 8, (trailer f encs). split; [done|].
  assert (Hk' : forall c i, c ∈ kvs.*1 -> objlist f !! i = Some c -> Z.of_nat i + 1 < len (objlist f) /\ exists chars, st !! c = Some (OString chars)).
  { intros c i Hin Hi. destruct (Hk c Hin). eauto using before_last. }
  pose proof (dictionary_lookup st opt f encs r Hst Ee Hc Er Ra Rf Rs Fo Fl key Kg root 8 kvs) as L.
  destruct (first_match st (k_chars key) kvs) as [[ka va]|] eqn:M.
  - destruct L as (ko & vo & Hl1 & _ & (i & Hi & Ho)); [by exists 0%nat; rewrite (first_offset st f encs r)|done|done|].
    destruct k as [|k]; [done|]. apply denote_step in Hd as (o & l & Eo & Em & _). rewrite Hr in Eo. injection Eo as <-.
    destruct (mapM_elem _ _ _ va Em) as (w & Hw); [apply elem_of_app; right; by eapply first_match_value|].
    destruct (created_reads st opt f encs r Hst Ee Hc Er Ra Rf Rs Fo Fl k i va vo w None) as (p & Ep); [done..|].
    exists ko, vo, p, w. split; [done|]. split; [done|]. eapply denote_mono; [|exact Hw]. lia.
  - apply L; [by exists 0%nat; rewrite (first_offset st f encs r)|done|done].
Qed.

End PListLookup.
