(* ===== verification/PListDefects.v ===== *)
(** * Binary property lists: examples and defects

    A property list and a stream that takes one byte at a time for the theorems on the
    writer and the reader; a file that contains itself; and what the code gets wrong: the
    lookup by key reads in front of the data for a damaged file and does not find a key that
    is the last object of the file, the reader drops the upper half of a 128-bit integer, and
    the writer does not unify equal strings. *)

From stdpp Require Import base list numbers option gmap.
From Stdlib Require Import ZArith Lia.
From S2P Require Import Prelude BinaryPList PListBytes PListSafe PListWriter PListBuffer PListFormat PListFlatten PListLeaf PListRoundtrip PListLookup.
Import BinaryPList PListBytes PListSafe PListWriter PListBuffer PListFormat PListFlatten PListLeaf PListRoundtrip PListLookup.

Module PListDefects.

(** ** Examples *)

(** The dictionary "a": ["a", 300, true], "é": data of 20 bytes. *)
Definition sample_data : list Z := replicate 20 7.
Definition sample : store :=
  list_to_map [(1, ODict [(2, 3); (4, 5)]); (2, OString [97]); (3, OArray [2; 6; 7]); (4, OString [233]); (5, OData sample_data);
    (6, ONumber (SInt64 300)); (7, OBool true)].

Definition sample_plist : plist :=
  PDict false [(PString false [97], PArray false [PString false [97]; PNumber (SInt64 300); PBool true]); (PString false [233], PData false sample_data)].

Definition sample_garbage : list Z := replicate (Z.to_nat sizeof_buffer) 255.

(** A stream that takes a byte at a time. *)
Definition write_byte (s l : list Z) : list Z * Z := match l with b :: _ => (s ++ [b], 1) | [] => (s, 0) end.

#[export] Instance write_byte_laws : StreamLaws write_byte id.
Proof. intros s [|b l] H; [done|]. cbn. split; [lia|done]. Qed.

Lemma sample_ok : store_ok sample.
Proof. apply (bool_decide_unpack _). vm_compute. exact I. Qed.

Definition sample_flat : flat := mkFlat [1; 2; 4; 3; 6; 7; 5] (list_to_map [(1, 0); (2, 1); (4, 2); (3, 3); (6, 4); (7, 5); (5, 6)]) {[2; 4; 6; 5]}.

(** The trailer of a file with [n] objects before [off], with sizes of one byte. *)
Definition small_trailer (n off : Z) : list Z :=
  [0; 0; 0; 0; 0; 0; 1; 1; 0; 0; 0; 0; 0; 0; 0; n; 0; 0; 0; 0; 0; 0; 0; 0; 0; 0; 0; 0; 0; 0; 0; off].

Definition sample_document : list Z :=
  header ++ [0xd2; 1; 2; 3; 6; 0x51; 97; 0x61; 0; 233; 0xa3; 1; 4; 5; 0x11; 1; 44; 9; 0x4f; 0x10; 20] ++ sample_data ++
  [8; 13; 15; 18; 22; 25; 26] ++ small_trailer 7 49.

Example sample_written : flattenPlist 3 sample (mkFlat [] ∅ ∅) 1 = Ok sample_flat /\ document sample sample_flat = Some sample_document /\
  denote 3 Immutable sample 1 = Some sample_plist /\ fits 3 sample 1 = true.
Proof. split_and!; vm_compute; reflexivity. Qed.

Lemma roundtrip_witness : exists out d,
  CFBinaryPlistWrite write_byte 3 sample 1 (StreamSink []) sample_garbage = Ok (Some out, len d, None) /\
  sink_bytes id out = d /\ CFTryParseBinaryPlist (mkRegion 4096 d) Immutable = Ok (Some sample_plist).
Proof.
  apply (write_read_roundtrip write_byte id sample Immutable 3 1 sample_plist (StreamSink []) sample_garbage 4096).
  - apply sample_ok.
  - apply sample_written.
  - apply sample_written.
  - by vm_compute.
  - lia.
Defined.

Lemma write_refines_witness : exists out,
  CFBinaryPlistWrite write_byte 3 sample 1 (DataSink [1; 2]) sample_garbage = Ok (Some out, 88, None) /\ sink_bytes id out = [1; 2] ++ sample_document.
Proof.
  apply (write_refines_document write_byte id 3 sample 1 (DataSink [1; 2]) sample_garbage sample_document sample_flat).
  - apply sample_written.
  - apply sample_written.
  - intros a o Ha Ho. pose proof (sample_ok a o Ho) as Hk. destruct o; try done. cbn in *. by apply in_range_spec.
  - by vm_compute.
  - by vm_compute.
  - by vm_compute.
Defined.

(** An array that contains itself. *)
Definition cyclic_document : list Z :=
  header ++ [0xa1; 0] ++ [8] ++ small_trailer 1 10.

Example cyclic_rejected : CFTryParseBinaryPlist (mkRegion 4096 cyclic_document) Immutable = FAIL_FALSE.
Proof. by vm_compute. Qed.

Lemma document_region (d : list Z) : forallb (in_range 0 256) d = true -> region_ok (mkRegion 4096 d).
Proof. intros H. split; cbn; [lia|by apply forallb_in_range]. Qed.

Lemma parse_total_witness : exists o, CFTryParseBinaryPlist (mkRegion 4096 cyclic_document) Immutable = Ok o.
Proof. apply (parse_total (mkRegion 4096 cyclic_document) Immutable). by apply document_region. Defined.

Lemma parse_typed_witness : plist_ok Immutable sample_plist = true.
Proof.
  apply (parse_typed (mkRegion 4096 sample_document) Immutable sample_plist).
  - by apply document_region.
  - vm_compute. reflexivity.
Defined.

Definition key_a : key_string := mkKey [97] None (Some <$> [97; 0]).

Lemma key_a_good : key_good key_a.
Proof. split; [done|]. by intros buf [= <-]. Qed.

Lemma lookup_witness : exists marker off trailer, CFBinaryPlistGetTopLevelInfo (mkRegion 4096 sample_document) = Ok (Some (marker, off, trailer)) /\
  exists ko vo p w, CFBinaryPlistGetOffsetForValueFromDictionary3 (mkRegion 4096 sample_document) off trailer key_a = Ok (Some (ko, vo)) /\
    CFBinaryPlistCreateObject (mkRegion 4096 sample_document) vo trailer Immutable None = Ok (Some (p, w)) /\ denote 3 Immutable sample 3 = Some w.
Proof.
  apply (written_dictionary_lookup sample Immutable 3 1 4096 sample_plist sample_flat sample_document [(2, 3); (4, 5)] key_a).
  - apply sample_ok.
  - apply sample_written.
  - apply sample_written.
  - lia.
  - apply sample_written.
  - apply sample_written.
  - done.
  - apply key_a_good.
  - cbn. intros c [->|[->|[]%elem_of_nil]%elem_of_cons]%elem_of_cons; (split; [done|by eexists]).
Defined.

(** ** Defects *)

(** The dictionary "a": "a" whose only key has the number [i]; there are two objects. *)
Definition one_key (i : Z) : list Z :=
  header ++ [0xd1; i; 1; 0x51; 97] ++ [8; 11] ++ small_trailer 2 13.

Definition lookup_a (d : list Z) : result (option (Z * Z)) :=
  '(_, off, trailer) ⇐ CFBinaryPlistGetTopLevelInfo (mkRegion 4096 d);
  CFBinaryPlistGetOffsetForValueFromDictionary3 (mkRegion 4096 d) off trailer key_a.

Theorem lookup_reads_before_data : CFTryParseBinaryPlist (mkRegion 4096 (one_key 9)) Immutable = FAIL_FALSE /\ lookup_a (one_key 9) = Undef.
Proof. split; vm_compute; reflexivity. Qed.

Theorem lookup_misses_last_key : CFTryParseBinaryPlist (mkRegion 4096 (one_key 1)) Immutable = Ok (Some (PDict false [(PString false [97], PString false [97])])) /\
  lookup_a (one_key 1) = FAIL_FALSE.
Proof. split; vm_compute; reflexivity. Qed.

Definition big_integer : store := {[ 1 := ONumber (SInt128 1 5) ]}.
Definition big_integer_document : list Z :=
  header ++ [0x14; 0; 0; 0; 0; 0; 0; 0; 1; 0; 0; 0; 0; 0; 0; 0; 5] ++ [8] ++ small_trailer 1 25.

Theorem int128_loses_high_word :
  CFBinaryPlistWrite write_byte 1 big_integer 1 (DataSink []) sample_garbage = Ok (Some (DataSink big_integer_document), 58, None) /\
  CFTryParseBinaryPlist (mkRegion 4096 big_integer_document) Immutable = Ok (Some (PNumber (SInt128 0 5))).
Proof. split; vm_compute; reflexivity. Qed.

Definition equal_strings : store := list_to_map [(1, OArray [2; 3]); (2, OString [97]); (3, OString [97])].

Theorem equal_strings_written_twice :
  CFBinaryPlistWrite write_byte 2 equal_strings 1 (DataSink []) sample_garbage =
    Ok (Some (DataSink (header ++ [0xa2; 1; 2; 0x51; 97; 0x51; 97] ++ [8; 11; 13] ++ small_trailer 3 15)), 50, None).
Proof. vm_compute. reflexivity. Qed.

End PListDefects.
