(* ===== verification/DataSearch.v ===== *)
(** * CFData.c: searching for bytes

    [_CFDataFindBytes] searches forwards or backwards with the algorithm of Boyer and Moore:
    a table with a shift for each byte and a table with a shift for each position of the
    needle, which [_computeGoodSubstringShift] derives from the lengths of the suffixes that
    end at each position.  A pointer into the haystack or the needle is its index; a cell of
    an array that malloc has just returned is [None].  The needle has fewer than 2^31 bytes
    where ints count them. *)

From stdpp Require Import base list numbers option.
From Stdlib Require Import ZArith Lia.
From S2P Require Import Prelude.

Module DataSearch.

Definition UCHAR_MAX : Z := 255.
Definition kCFNotFound : Z := -1.

(** ** Shifts by suffixes *)

(** A read of a cell that may not be initialised. *)
Definition cell_get (l : list (option Z)) (i : Z) : result Z :=
  c ← aget l i; match c with Some v => Ok v | None => Undef end.

(** [while (g >= 0 && needle[g] == needle[g + needleLength - 1 - f]) --g] from [g = n - 1]. *)
Fixpoint match_back (needle : list Z) (needleLength f : Z) (n : nat) : result Z :=
  match n with
  | O => Ok (-1)
  | S n =>
    let g := Z.of_nat n in
    a ← aget needle g;
    b ← aget needle (g + needleLength - 1 - f);
    if a =? b then match_back needle needleLength f n else Ok g
  end.

(** The loop over [i = n - 1, ..., 0] that fills [suff]. *)
Fixpoint suffix_loop (needle : list Z) (needleLength : Z) (n : nat) (f g : Z) (suff : list (option Z)) : result (list (option Z)) :=
  match n with
  | O => Ok suff
  | S n =>
    let i := Z.of_nat n in
    known ← (if g <? i then s ← cell_get suff (i + needleLength - 1 - f); Ok (if s <? i - g then Some s else None) else Ok None);
    match known with
    | Some s => suff ← aset suff i (Some s); suffix_loop needle needleLength n f g suff
    | None =>
      let g := if i <? g then i else g in
      let f := i in
      g ← match_back needle needleLength f (Z.to_nat (g + 1));
      suff ← aset suff i (Some (f - g));
      suffix_loop needle needleLength n f g suff
    end
  end.

Definition suffix_lengths (needle : list Z) (needleLength : Z) (suff : list (option Z)) : result (list (option Z)) :=
  suff ← aset suff (needleLength - 1) (Some needleLength);
  suffix_loop needle needleLength (Z.to_nat (needleLength - 1)) (needleLength - 1) (needleLength - 1) suff.

(** [for (; j < needleLength - 1 - i; ++j)]: [n] turns. *)
Fixpoint fill_shift (needleLength i : Z) (n : nat) (j : Z) (shift : list Z) : result (Z * list Z) :=
  match n with
  | O => Ok (j, shift)
  | S n =>
    s ← aget shift j;
    shift ← (if s =? needleLength then aset shift j (needleLength - 1 - i) else Ok shift);
    fill_shift needleLength i n (j + 1) shift
  end.

(** The loop over [i = n - 1, ..., 0] for the suffixes that are prefixes. *)
Fixpoint prefix_loop (needleLength : Z) (suff : list (option Z)) (n : nat) (j : Z) (shift : list Z) : result (list Z) :=
  match n with
  | O => Ok shift
  | S n =>
    let i := Z.of_nat n in
    s ← cell_get suff i;
    '(j, shift) ← (if s =? i + 1 then fill_shift needleLength i (Z.to_nat (needleLength - 1 - i - j)) j shift else Ok (j, shift));
    prefix_loop needleLength suff n j shift
  end.

(** The loop over [i = needleLength - 1 - n, ..., needleLength - 2] for the other suffixes. *)
Fixpoint substring_loop (needleLength : Z) (suff : list (option Z)) (n : nat) (i : Z) (shift : list Z) : result (list Z) :=
  match n with
  | O => Ok shift
  | S n =>
    s ← cell_get suff i;
    shift ← aset shift (needleLength - 1 - s) (needleLength - 1 - i);
    substring_loop needleLength suff n (i + 1) shift
  end.

(** The loop that adds the distance to the end. *)
Fixpoint distance_loop (needleLength : Z) (n : nat) (i : Z) (shift : list Z) : result (list Z) :=
  match n with
  | O => Ok shift
  | S n =>
    s ← aget shift i;
    shift ← aset shift i (u64 (s + (needleLength - 1 - i)));
    distance_loop needleLength n (i + 1) shift
  end.

(** [shift] and [suff] are arrays of [needleLength] elements; the first loop initialises
    [shift]. *)
Definition computeGoodSubstringShift (needle : list Z) (needleLength : Z) (suff : list (option Z)) : result (list Z) :=
  suff ← suffix_lengths needle needleLength suff;
  let shift := replicate (Z.to_nat needleLength) needleLength in
  shift ← prefix_loop needleLength suff (Z.to_nat needleLength) 0 shift;
  shift ← substring_loop needleLength suff (Z.to_nat (needleLength - 1)) 0 shift;
  distance_loop needleLength (Z.to_nat (needleLength - 1)) 0 shift.

(** ** Shifts by bytes *)

(** [for (int i = 0; i < needleLength; i++)] from [i] on. *)
Fixpoint bad_forwards (needleLength : Z) (needle : list Z) (i : Z) (shift : list Z) : result (list Z) :=
  match needle with
  | [] => Ok shift
  | c :: needle => shift ← aset shift c (needleLength - i - 1); bad_forwards needleLength needle (i + 1) shift
  end.

(** [for (int i = needleLength - 1; i >= 0; i--)] from [i = n - 1] on. *)
Fixpoint bad_backwards (needle : list Z) (n : nat) (shift : list Z) : result (list Z) :=
  match n with
  | O => Ok shift
  | S n =>
    let i := Z.of_nat n in
    c ← aget needle i;
    shift ← aset shift c i;
    bad_backwards needle n shift
  end.

(** [REVERSE_BUFFER]: [n] turns from [i] on. *)
Fixpoint reverse_loop (len : Z) (n : nat) (i : Z) (buf : list Z) : result (list Z) :=
  match n with
  | O => Ok buf
  | S n =>
    tmp ← aget buf i;
    last ← aget buf (len - i - 1);
    buf ← aset buf i last;
    buf ← aset buf (len - i - 1) tmp;
    reverse_loop len n (i + 1) buf
  end.

Definition REVERSE_BUFFER (buf : list Z) (len : Z) : result (list Z) := reverse_loop len (Z.to_nat (len / 2)) 0 buf.

(** ** The search *)

(** The two loops, with the tables: where the needle begins, if it was found. *)
Fixpoint scan_forwards (fuel : nat) (haystack : list Z) (haystackLength : Z) (needle : list Z) (needleLength : Z)
    (bad good : list Z) (scan_haystack scan_needle : Z) : result (option Z) :=
  if (scan_haystack <? haystackLength) && (0 <=? scan_needle) then
    match fuel with
    | O => NoFuel
    | S fuel =>
      h ← aget haystack scan_haystack;
      c ← aget needle scan_needle;
      if h =? c then scan_forwards fuel haystack haystackLength needle needleLength bad good (scan_haystack - 1) (scan_needle - 1)
      else
        b ← aget bad h;
        g ← aget good scan_needle;
        scan_forwards fuel haystack haystackLength needle needleLength bad good (scan_haystack + Z.max b g) (needleLength - 1)
    end
  else Ok (if scan_needle <? 0 then Some (scan_haystack + 1) else None).

Fixpoint scan_backwards (fuel : nat) (haystack needle : list Z) (needleLength : Z)
    (bad good : list Z) (scan_haystack scan_needle : Z) : result (option Z) :=
  if (0 <=? scan_haystack) && (scan_needle <? needleLength) then
    match fuel with
    | O => NoFuel
    | S fuel =>
      h ← aget haystack scan_haystack;
      c ← aget needle scan_needle;
      if h =? c then scan_backwards fuel haystack needle needleLength bad good (scan_haystack + 1) (scan_needle + 1)
      else
        b ← aget bad h;
        g ← aget good scan_needle;
        scan_backwards fuel haystack needle needleLength bad good (scan_haystack - Z.max b g) 0
    end
  else Ok (if scan_needle =? needleLength then Some (scan_haystack - needleLength) else None).

(** A turn lowers the number of bytes to compare or moves the needle. *)
Definition scan_fuel (haystackLength needleLength : Z) : nat := Z.to_nat ((haystackLength + 1) * (needleLength + 1)).

(** The needle has [needleLength] bytes, the haystack at least [haystackLength]. *)
Definition CFDataSearchBoyerMoore (haystack : list Z) (haystackLength : Z) (needle : list Z) (needleLength : Z) (backwards : bool) : result (option Z) :=
  let badCharacterShift := replicate (Z.to_nat (UCHAR_MAX + 1)) needleLength in
  let suffixLengths := replicate (Z.to_nat needleLength) None in
  if backwards then
    badCharacterShift ← bad_backwards needle (Z.to_nat needleLength) badCharacterShift;
    needleCopy ← REVERSE_BUFFER needle needleLength;
    goodSubstringShift ← computeGoodSubstringShift needleCopy (s32 needleLength) suffixLengths;
    goodSubstringShift ← REVERSE_BUFFER goodSubstringShift needleLength;
    scan_backwards (scan_fuel haystackLength needleLength) haystack needle needleLength badCharacterShift goodSubstringShift
      (haystackLength - needleLength) 0
  else
    badCharacterShift ← bad_forwards needleLength needle 0 badCharacterShift;
    goodSubstringShift ← computeGoodSubstringShift needle (s32 needleLength) suffixLengths;
    scan_forwards (scan_fuel haystackLength needleLength) haystack haystackLength needle needleLength badCharacterShift goodSubstringShift
      (needleLength - 1) (needleLength - 1).

(** [_CFDataFindBytes] on the bytes of the two data: the location and the length of the
    range that is found.  Lengths are compared as unsigned long. *)
Definition CFDataFindBytes (fullHaystack needle : list Z) (location length : Z) (backwards anchored : bool) : result (Z * Z) :=
  let fullHaystackLength := Z.of_nat (List.length fullHaystack) in
  let needleLength := Z.of_nat (List.length needle) in
  let '(location, length) :=
    if anchored && (needleLength <? u64 length) then
      (if backwards then s64 (location + (length - needleLength)) else location, needleLength)
    else (location, length) in
  let rest := u64 (fullHaystackLength - location) in
  let length := if rest <? u64 length then s64 rest else length in
  if (u64 length <? needleLength) || (fullHaystackLength =? 0) || (needleLength =? 0) then Ok (kCFNotFound, 0) else
  haystack ← (if (0 <=? location) && (location <=? fullHaystackLength) then Ok (drop (Z.to_nat location) fullHaystack) else Undef);
  searchResult ← CFDataSearchBoyerMoore haystack (u64 length) needle needleLength backwards;
  Ok (match searchResult with Some r => (s64 (location + r), needleLength) | None => (kCFNotFound, 0) end).

Example find_forwards : CFDataFindBytes [1; 2; 1; 2; 3; 1; 2; 1; 2; 3; 9] [1; 2; 3] 0 11 false false = Ok (2, 3).
Proof. vm_compute. reflexivity. Qed.

Example find_backwards : CFDataFindBytes [1; 2; 1; 2; 3; 1; 2; 1; 2; 3; 9] [1; 2; 3] 0 11 true false = Ok (7, 3).
Proof. vm_compute. reflexivity. Qed.

End DataSearch.
