(* ===== verification/DataShift.v ===== *)
(** * CFData.c: the shifts of the search

    [suffix_lengths] finds for each position the length of the longest common suffix of the
    needle and its prefix that ends there; [computeGoodSubstringShift] makes shifts of them
    that do not pass an occurrence of the needle. *)

From stdpp Require Import base list numbers option.
From Stdlib Require Import ZArith Lia.
From S2P Require Import Prelude DataSearch.
Import DataSearch.

Module DataShift.

Abbreviation len l := (Z.of_nat (length l)).

(** The [i]-th byte. *)
Definition ch (l : list Z) (i : Z) : Z := default 0 (l !! Z.to_nat i).

Lemma aget_ch (l : list Z) (i : Z) : 0 <= i < len l -> aget l i = Ok (ch l i).
Proof. intros H. destruct (aget_bound l i H) as (x & E). rewrite E. apply aget_Ok in E as [_ E]. unfold ch. by rewrite E. Qed.

Lemma ch_set (l : list Z) (i j v : Z) : 0 <= i < len l -> 0 <= j -> ch (<[Z.to_nat i := v]> l) j = if j =? i then v else ch l j.
Proof.
  intros H Hj. unfold ch. destruct (Z.eqb_spec j i) as [->|N]; [by rewrite list_lookup_insert_eq by lia|]. by rewrite list_lookup_insert_ne by lia.
Qed.

Section Shift.

Context (x : list Z).
Abbreviation m := (len x).
Context (M : 1 <= m < 2 ^ 31).

(** ** Suffixes *)

(** The [k] bytes up to the [i]-th are the last [k] bytes. *)
Definition ext (i k : Z) : Prop := forall t, 0 <= t < k -> ch x (i - t) = ch x (m - 1 - t).

Definition suffix_at (i s : Z) : Prop := 0 <= s <= i + 1 /\ ext i s /\ (s = i + 1 \/ ch x (i - s) <> ch x (m - 1 - s)).

Lemma suffix_unique (i s t : Z) : suffix_at i s -> suffix_at i t -> s = t.
Proof.
  intros (Hs & Es & Ds) (Ht & Et & Dt). destruct (Z.lt_trichotomy s t) as [H|[H|H]]; [|done|].
  - destruct Ds as [?|Ds]; [lia|]. destruct Ds. apply Et. lia.
  - destruct Dt as [?|Dt]; [lia|]. destruct Dt. apply Es. lia.
Qed.

Definition known (suff : list (option Z)) (i : Z) : Prop := exists s, suff !! Z.to_nat i = Some (Some s) /\ suffix_at i s.

Lemma cell_get_known (suff : list (option Z)) (i : Z) : 0 <= i -> known suff i -> exists s, cell_get suff i = Ok s /\ suffix_at i s.
Proof.
  intros Hi (s & E & Hs). exists s. split; [|done]. unfold cell_get. rewrite (proj2 (aget_Ok suff i (Some s))) by done. done.
Qed.

Lemma match_back_ok (f : Z) (n : nat) : 0 <= f < m -> Z.of_nat n <= f + 1 -> (forall t, Z.of_nat n <= t <= f -> ch x t = ch x (t + m - 1 - f)) ->
  exists g, match_back x m f n = Ok g /\ -1 <= g < Z.of_nat n + 0 /\ (forall t, g < t <= f -> ch x t = ch x (t + m - 1 - f)) /\ (g = -1 \/ ch x g <> ch x (g + m - 1 - f)).
Proof.
  intros Hf. induction n as [|n IH]; intros Hn H; cbn [match_back].
  { exists (-1). split; [done|]. split; [lia|]. split; [|by left]. intros t Ht. apply H. lia. }
  rewrite !aget_ch by lia. cbn [mbind result_bind]. destruct (Z.eqb_spec (ch x (Z.of_nat n)) (ch x (Z.of_nat n + m - 1 - f))) as [E|N].
  - destruct IH as (g & -> & Hg & Hm & Hd); [lia| |exists g; split; [done|]; split; [lia|done]].
    intros t Ht. destruct (decide (t = Z.of_nat n)) as [->|]; [done|]. apply H. lia.
  - exists (Z.of_nat n). split; [done|]. split; [lia|]. split; [|by right]. intros t Ht. apply H. lia.
Qed.

(** The bytes between [g] and [f] have been compared with the end of the needle. *)
Lemma suffix_loop_ok (n : nat) (f g : Z) (suff : list (option Z)) : length suff = length x -> Z.of_nat n < m ->
  (forall i, Z.of_nat n <= i < m -> known suff i) ->
  -1 <= g <= f -> (f < m - 1 \/ f = m - 1 /\ g = m - 1) -> Z.of_nat n <= f -> (forall t, g < t <= f -> ch x t = ch x (t + m - 1 - f)) ->
  exists suff', suffix_loop x m n f g suff = Ok suff' /\ length suff' = length x /\ forall i, 0 <= i < m -> known suff' i.
Proof.
  revert f g suff. induction n as [|n IH]; intros f g suff L Hn K Hg Hf Hnf Hm; cbn [suffix_loop].
  { exists suff. split; [done|]. split; [done|]. intros i Hi. apply K. lia. }
  set (i := Z.of_nat n).
  assert (Set_ok : forall s, suffix_at i s -> exists suff', aset suff i (Some s) = Ok suff' /\ length suff' = length x /\ forall j, i <= j < m -> known suff' j).
  { intros s Hs. eexists. split; [apply aset_Ok; lia|]. split; [by rewrite length_insert|]. intros j Hj. unfold known.
    destruct (decide (j = i)) as [->|N]; [exists s; by rewrite list_lookup_insert_eq by lia|].
    rewrite list_lookup_insert_ne by lia. apply K. lia. }
  assert (Scan : forall g0, -1 <= g0 <= i -> (forall t, g0 < t <= i -> ch x t = ch x (t + m - 1 - i)) ->
    exists suff', (g ← match_back x m i (Z.to_nat (g0 + 1)); suff ← aset suff i (Some (i - g)); suffix_loop x m n i g suff) = Ok suff' /\
      length suff' = length x /\ forall i, 0 <= i < m -> known suff' i).
  { intros g0 Hg0 H0. destruct (match_back_ok i (Z.to_nat (g0 + 1))) as (g1 & -> & Hg1 & Hm1 & Hd1); [lia|lia|intros t Ht; apply H0; lia|]. cbn [mbind result_bind].
    destruct (Set_ok (i - g1)) as (suff' & -> & L' & K').
    { split; [lia|]. split; [intros t Ht; rewrite Hm1 by lia; f_equal; lia|]. destruct Hd1 as [->|N]; [left; lia|right].
      replace (i - (i - g1)) with g1 by lia. by replace (m - 1 - (i - g1)) with (g1 + m - 1 - i) by lia. }
    cbn [mbind result_bind]. apply IH; [done|lia|done|lia|left; lia|lia|done]. }
  destruct (Z.ltb_spec g i) as [Hgi|Hgi].
  - assert (f < m - 1) by lia. destruct (cell_get_known suff (i + m - 1 - f)) as (s & -> & Hs1 & Hs2 & Hs3); [lia|apply K; lia|]. cbn [mbind result_bind].
    destruct (Z.ltb_spec s (i - g)) as [Hsg|Hsg].
    + destruct (Set_ok s) as (suff' & -> & L' & K').
      { split; [lia|]. split.
        - intros t Ht. rewrite (Hm (i - t)) by lia. rewrite <- Hs2 by done. f_equal. lia.
        - right. destruct Hs3 as [->|N]; [lia|]. rewrite (Hm (i - s)) by lia. by replace (i - s + m - 1 - f) with (i + m - 1 - f - s) by lia. }
      cbn [mbind result_bind]. apply IH; [done|lia|done|done|by left|lia|done].
    + rewrite (proj2 (Z.ltb_ge i g)) by lia. apply Scan; [lia|]. intros t Ht. rewrite Hm by lia. replace (t + m - 1 - f) with (i + m - 1 - f - (i - t)) by lia.
      rewrite Hs2 by lia. f_equal. lia.
  - cbn [mbind result_bind]. destruct (Z.ltb_spec i g) as [Hig|Hig]; (apply Scan; [lia|intros t Ht; lia]).
Qed.

Lemma suffix_lengths_ok : exists suff, suffix_lengths x m (replicate (Z.to_nat m) None) = Ok suff /\ length suff = length x /\ forall i, 0 <= i < m -> known suff i.
Proof.
  unfold suffix_lengths. rewrite aset_Ok by (rewrite length_replicate; lia). cbn [mbind result_bind].
  apply suffix_loop_ok; [by rewrite length_insert, length_replicate; lia|lia| |lia|lia|lia|lia].
  intros i Hi. assert (i = m - 1) as -> by lia. exists m. split; [apply list_lookup_insert_eq; rewrite length_replicate; lia|].
  split; [lia|]. split; [by intros t Ht|lia].
Qed.

(** ** Shifts *)

Definition in_table (shift : list Z) : Prop := length shift = length x /\ forall j, 0 <= j < m -> 1 <= ch shift j <= m.

(** The shifts for the prefixes that end at [n] or later do not pass the prefix. *)
Definition prefixes_kept (n : Z) (shift : list Z) : Prop :=
  forall i j, n <= i < m -> suffix_at i (i + 1) -> 0 <= j < m - 1 - i -> ch shift j <= m - 1 - i.

Lemma fill_shift_ok (i : Z) (n : nat) (j : Z) (shift : list Z) : 0 <= i -> 0 <= j -> j + Z.of_nat n <= m - 1 - i -> length shift = length x ->
  (forall k, j <= k < m -> ch shift k = m) ->
  exists shift', fill_shift m i n j shift = Ok (j + Z.of_nat n, shift') /\ length shift' = length x /\
    forall k, 0 <= k -> ch shift' k = if (j <=? k) && (k <? j + Z.of_nat n) then m - 1 - i else ch shift k.
Proof.
  intros Hi. revert j shift. induction n as [|n IH]; intros j shift Hj Hn L H; cbn [fill_shift].
  { exists shift. rewrite Z.add_0_r. split; [done|]. split; [done|]. intros k Hk. case_match; [lia|done]. }
  rewrite aget_ch by lia. cbn [mbind result_bind]. rewrite H, Z.eqb_refl, aset_Ok by lia. cbn [mbind result_bind].
  destruct (IH (j + 1) (<[Z.to_nat j := m - 1 - i]> shift)) as (shift' & -> & L' & H'); [lia|lia|by rewrite length_insert| |].
  { intros k Hk. rewrite ch_set by lia. rewrite (proj2 (Z.eqb_neq k j)) by lia. apply H. lia. }
  exists shift'. split; [do 2 f_equal; lia|]. split; [done|]. intros k Hk. rewrite H', ch_set by lia. replace (Z.of_nat (S n)) with (Z.of_nat n + 1) by lia. pose proof (Zle_0_nat n).
  destruct (Z.eqb_spec k j) as [->|N]; repeat case_match; (lia || done).
Qed.

Lemma prefix_loop_ok (suff : list (option Z)) (n : nat) (j : Z) (shift : list Z) : (forall i, 0 <= i < m -> known suff i) -> Z.of_nat n <= m ->
  in_table shift -> 0 <= j <= Z.max 0 (m - 1 - Z.of_nat n) -> (forall k, j <= k < m -> ch shift k = m) -> (forall k, 0 <= k < j -> ch shift k <= m - 1 - Z.of_nat n) ->
  prefixes_kept (Z.of_nat n) shift -> (forall i, Z.of_nat n <= i < m -> suffix_at i (i + 1) -> m - 1 - i <= j) ->
  exists shift', prefix_loop m suff n j shift = Ok shift' /\ in_table shift' /\ prefixes_kept 0 shift'.
Proof.
  intros K. revert j shift. induction n as [|n IH]; intros j shift Hn T Hj Hm Hl P Hp; cbn [prefix_loop]; [by exists shift|].
  replace (Z.of_nat (S n)) with (Z.of_nat n + 1) in * by lia. pose proof (Zle_0_nat n) as Hn0. set (i := Z.of_nat n) in *.
  destruct (cell_get_known suff i) as (s & -> & Hs); [lia|apply K; lia|]. cbn [mbind result_bind].
  destruct T as [L T]. destruct (Z.eqb_spec s (i + 1)) as [->|N].
  - destruct (fill_shift_ok i (Z.to_nat (m - 1 - i - j)) j shift) as (shift' & -> & L' & H'); [lia|lia|lia|done|done|]. cbn [mbind result_bind].
    replace (j + Z.of_nat (Z.to_nat (m - 1 - i - j))) with (m - 1 - i) in * by lia.
    apply IH; [lia|split; [done|]|lia| | | |intros i' Hi' Hs'; lia].
    + intros k Hk. rewrite H' by lia. specialize (T k). case_match; lia.
    + intros k Hk. rewrite H' by lia. specialize (Hm k). case_match; lia.
    + intros k Hk. rewrite H' by lia. specialize (Hl k). case_match; lia.
    + intros i' k Hi' Hs' Hk. rewrite H' by lia. specialize (Hl k).
      destruct (decide (i' = i)) as [->|]; [case_match; lia|]. specialize (Hp i' ltac:(lia) Hs'). case_match; [lia|]. apply P; [lia|done|lia].
  - cbn [mbind result_bind]. apply IH; [lia|done|lia|done|intros k Hk; specialize (Hl k Hk); lia| |].
    { intros i' k Hi' Hs' Hk. destruct (decide (i' = i)) as [->|]; [|apply P; [lia|done|lia]].
      exfalso. apply N. by eapply suffix_unique. }
    intros i' Hi' Hs'. destruct (decide (i' = i)) as [->|]; [|apply Hp; [lia|done]]. exfalso. apply N. by eapply suffix_unique.
Qed.

(** The shifts for the suffixes that end before [n] do not pass the suffix. *)
Definition suffixes_kept (n : Z) (shift : list Z) : Prop :=
  forall i s, 0 <= i < n -> suffix_at i s -> ch shift (m - 1 - s) <= m - 1 - i.

Lemma substring_loop_ok (suff : list (option Z)) (n : nat) (i : Z) (shift : list Z) : (forall i, 0 <= i < m -> known suff i) ->
  0 <= i -> i + Z.of_nat n = m - 1 -> in_table shift -> prefixes_kept 0 shift -> suffixes_kept i shift ->
  exists shift', substring_loop m suff n i shift = Ok shift' /\ in_table shift' /\ prefixes_kept 0 shift' /\ suffixes_kept (m - 1) shift'.
Proof.
  intros K. revert i shift. induction n as [|n IH]; intros i shift Hi Hn [L T] P S; cbn [substring_loop].
  { assert (i = m - 1) as -> by lia. by exists shift. }
  destruct (cell_get_known suff i) as (s & -> & Hs); [lia|apply K; lia|]. cbn [mbind result_bind]. pose proof (proj1 Hs) as Hs1.
  rewrite aset_Ok by lia. cbn [mbind result_bind]. apply IH; [lia|lia| | |].
  - split; [by rewrite length_insert|]. intros j Hj. rewrite ch_set by lia. specialize (T j). case_match; lia.
  - intros i' j Hi' Hp Hj. rewrite ch_set by lia. destruct (Z.eqb_spec j (m - 1 - s)); [lia|]. by apply P.
  - intros i' s' Hi' Hs'. pose proof (proj1 Hs'). rewrite ch_set by lia. destruct (Z.eqb_spec (m - 1 - s') (m - 1 - s)); [lia|].
    destruct (decide (i' = i)) as [->|]; [pose proof (suffix_unique i s s' Hs Hs'); lia|]. apply S; [lia|done].
Qed.

Lemma distance_loop_ok (n : nat) (i : Z) (shift : list Z) : 0 <= i -> i + Z.of_nat n = m - 1 -> length shift = length x ->
  (forall j, i <= j < m -> 1 <= ch shift j <= m) ->
  exists shift', distance_loop m n i shift = Ok shift' /\ length shift' = length x /\
    forall j, 0 <= j < m -> ch shift' j = if i <=? j then ch shift j + (m - 1 - j) else ch shift j.
Proof.
  revert i shift. induction n as [|n IH]; intros i shift Hi Hn L T; cbn [distance_loop].
  { exists shift. split; [done|]. split; [done|]. intros j Hj. case_match; lia. }
  rewrite aget_ch by lia. cbn [mbind result_bind]. rewrite aset_Ok by lia. cbn [mbind result_bind].
  rewrite uwrap_small by (unfold in_u; specialize (T i); lia).
  destruct (IH (i + 1) (<[Z.to_nat i := ch shift i + (m - 1 - i)]> shift)) as (shift' & -> & L' & H'); [lia|lia|by rewrite length_insert| |].
  { intros j Hj. rewrite ch_set by lia. rewrite (proj2 (Z.eqb_neq _ _)) by lia. apply T. lia. }
  exists shift'. split; [done|]. split; [done|]. intros j Hj. rewrite H', ch_set by lia. destruct (Z.eqb_spec j i) as [->|]; repeat case_match; lia.
Qed.

(** [d] is a possible shift after a mismatch at [j]: the bytes behind [j] fall on equal
    bytes and the byte at [j] on another one. *)
Definition plausible (j d : Z) : Prop :=
  (forall k, j < k < m -> d <= k -> ch x (k - d) = ch x k) /\ (d <= j -> ch x (j - d) <> ch x j).

Lemma plausible_suffix (j d : Z) : 0 <= j < m -> 0 < d < m -> plausible j d ->
  if d <=? j then suffix_at (m - 1 - d) (m - 1 - j) else suffix_at (m - 1 - d) (m - d).
Proof.
  intros Hj Hd [Hs Ho]. destruct (Z.leb_spec d j).
  - split; [lia|]. split.
    + intros t Ht. rewrite <- (Hs (m - 1 - t)) by lia. f_equal. lia.
    + right. replace (m - 1 - d - (m - 1 - j)) with (j - d) by lia. replace (m - 1 - (m - 1 - j)) with j by lia. by apply Ho.
  - split; [lia|]. split; [|left; lia]. intros t Ht. rewrite <- (Hs (m - 1 - t)) by lia. f_equal. lia.
Qed.

Lemma good_shift : exists good, computeGoodSubstringShift x m (replicate (Z.to_nat m) None) = Ok good /\ length good = length x /\
  forall j, 0 <= j < m -> 1 <= ch good j - (m - 1 - j) <= m /\ forall d, 0 < d < ch good j - (m - 1 - j) -> ~ plausible j d.
Proof.
  unfold computeGoodSubstringShift. destruct suffix_lengths_ok as (suff & -> & _ & K). cbn [mbind result_bind].
  assert (R : forall k, 0 <= k < m -> ch (replicate (Z.to_nat m) m) k = m) by (intros k Hk; unfold ch; by rewrite lookup_replicate_2 by lia).
  destruct (prefix_loop_ok suff (Z.to_nat m) 0 (replicate (Z.to_nat m) m)) as (s1 & -> & T1 & P1); [done|lia| |lia|done|lia|intros i j; lia|lia|].
  { split; [rewrite length_replicate; lia|]. intros j Hj. rewrite R; lia. }
  cbn [mbind result_bind].
  destruct (substring_loop_ok suff (Z.to_nat (m - 1)) 0 s1) as (s2 & -> & [L2 T2] & P2 & S2); [done|lia|lia|done|done|intros i s; lia|]. cbn [mbind result_bind].
  destruct (distance_loop_ok (Z.to_nat (m - 1)) 0 s2) as (s3 & -> & L3 & H3); [lia|lia|done|done|]. exists s3. split; [done|]. split; [done|].
  intros j Hj. rewrite H3 by lia. rewrite (proj2 (Z.leb_le 0 j)) by lia. replace (ch s2 j + (m - 1 - j) - (m - 1 - j)) with (ch s2 j) by lia.
  split; [by apply T2|]. intros d Hd Hp. specialize (T2 j Hj). pose proof (plausible_suffix j d Hj ltac:(lia) Hp) as Hs. destruct (Z.leb_spec d j).
  - specialize (S2 (m - 1 - d) _ ltac:(lia) Hs). replace (m - 1 - (m - 1 - j)) with j in S2 by lia. lia.
  - replace (m - d) with (m - 1 - d + 1) in Hs by lia. specialize (P2 (m - 1 - d) j ltac:(lia) Hs ltac:(lia)). lia.
Qed.

End Shift.

End DataShift.
