(* ===== verification/DataFind.v ===== *)
(** * CFData.c: the search finds the first and the last occurrence

    The tables of shifts never carry the needle past an occurrence, so the scan ends at the
    first one; the backward scan is the forward scan on the reversed bytes.
    [CFDataFindBytes] answers what a comparison at every position of the range answers. *)

From Stdlib Require Import ZArith Lia.
From stdpp Require Import base numbers option list.
From S2P Require Import Prelude DataSearch DataShift.
Import list DataSearch DataShift.

Module DataFind.

Definition bytes (l : list Z) : Prop := Forall (fun b => 0 <= b < 256) l.

Lemma ch_byte (l : list Z) (i : Z) : bytes l -> 0 <= i < len l -> 0 <= ch l i < 256.
Proof.
  intros H Hi. unfold ch. destruct (lookup_lt_is_Some_2 l (Z.to_nat i)) as [c E]; [lia|]. rewrite E. exact (Forall_lookup_1 _ _ _ _ H E).
Qed.

Lemma ch_eq (l k : list Z) : length l = length k -> (forall i, 0 <= i < len l -> ch l i = ch k i) -> l = k.
Proof.
  intros L H. apply list_eq_same_length with (n := length l); [done..|]. intros i a b Hi Ea Eb. specialize (H (Z.of_nat i) ltac:(lia)).
  unfold ch in H. by rewrite !Nat2Z.id, Ea, Eb in H.
Qed.

Lemma ch_reverse (l : list Z) (i : Z) : 0 <= i < len l -> ch (reverse l) i = ch l (len l - 1 - i).
Proof. intros H. unfold ch. rewrite reverse_lookup by lia. do 3 f_equal. lia. Qed.

Lemma ch_take (l : list Z) (n i : Z) : 0 <= i < n -> ch (take (Z.to_nat n) l) i = ch l i.
Proof. intros H. unfold ch. by rewrite lookup_take_lt by lia. Qed.

(** ** Reversing a buffer *)

Lemma reverse_loop_ok (n : nat) (i : Z) (buf : list Z) : 0 <= i -> 2 * (i + Z.of_nat n) <= len buf ->
  exists buf', reverse_loop (len buf) n i buf = Ok buf' /\ length buf' = length buf /\
    forall k, 0 <= k < len buf -> ch buf' k = if (i <=? k) && (k <? i + Z.of_nat n) || (len buf - i - Z.of_nat n <=? k) && (k <? len buf - i) then ch buf (len buf - 1 - k) else ch buf k.
Proof.
  revert i buf. induction n as [|n IH]; intros i buf Hi Hn; cbn [reverse_loop].
  { exists buf. split; [done|]. split; [done|]. intros k Hk. change (Z.of_nat 0) with 0. case_match; [lia|done]. }
  pose proof (Zle_0_nat n). replace (Z.of_nat (S n)) with (Z.of_nat n + 1) in * by lia.
  rewrite !aget_ch by lia. cbn [mbind result_bind]. rewrite aset_Ok by lia. cbn [mbind result_bind]. rewrite aset_Ok by (rewrite ?length_insert; lia). cbn [mbind result_bind].
  set (b := <[_ := _]> (<[_ := _]> buf)). assert (L : length b = length buf) by (unfold b; by rewrite !length_insert).
  destruct (IH (i + 1) b) as (buf' & E & L' & H'); [lia|lia|]. rewrite L in E, H'. exists buf'. split; [done|]. split; [congruence|].
  assert (B : forall k, 0 <= k < len buf -> ch b k = if (k =? i) || (k =? len buf - i - 1) then ch buf (len buf - 1 - k) else ch buf k).
  { intros k Hk. subst b. rewrite !ch_set by (rewrite ?length_insert; lia). destruct (Z.eqb_spec k (len buf - i - 1)) as [->|]; cbn [orb].
    - rewrite orb_true_r. f_equal. lia.
    - rewrite orb_false_r. destruct (Z.eqb_spec k i) as [->|]; [|done]. f_equal. lia. }
  intros k Hk. rewrite H', !B by lia. repeat case_match; try lia; try done; f_equal; lia.
Qed.

Lemma REVERSE_BUFFER_ok (buf : list Z) : REVERSE_BUFFER buf (len buf) = Ok (reverse buf).
Proof.
  unfold REVERSE_BUFFER. pose proof (Z.div_mod (len buf) 2 ltac:(lia)) as D. pose proof (Z.mod_pos_bound (len buf) 2 ltac:(lia)).
  destruct (reverse_loop_ok (Z.to_nat (len buf / 2)) 0 buf) as (buf' & -> & L & H'); [lia|lia|]. f_equal. apply ch_eq; [by rewrite length_reverse|].
  rewrite L. intros k Hk. rewrite H', ch_reverse by lia. rewrite Z2Nat.id in * by lia. case_match; [done|]. f_equal. lia.
Qed.

(** ** Shifts by bytes *)

Section Forwards.

Context (x : list Z).
Abbreviation m := (len x).
Context (M : 1 <= m < 2 ^ 31) (Bx : bytes x).

(** The shift for a byte does not pass its occurrences before [n]. *)
Definition bad_ok (n : Z) (bad : list Z) : Prop :=
  length bad = 256%nat /\ (forall c, 0 <= c < 256 -> 0 <= ch bad c <= m) /\ forall k, 0 <= k < n -> ch bad (ch x k) <= m - 1 - k.

Lemma bad_forwards_ok (pre rest bad : list Z) : x = pre ++ rest -> bad_ok (len pre) bad ->
  exists bad', bad_forwards m rest (len pre) bad = Ok bad' /\ bad_ok m bad'.
Proof.
  revert pre bad. induction rest as [|c rest IH]; intros pre bad E [L [R K]]; cbn [bad_forwards].
  { exists bad. rewrite app_nil_r in E. subst pre. done. }
  assert (Lx : m = len pre + 1 + len rest) by (rewrite E, length_app; cbn [length]; lia).
  assert (Ec : ch x (len pre) = c) by (unfold ch; by rewrite E, Nat2Z.id, list_lookup_middle).
  assert (Hc : 0 <= c < 256) by (rewrite <- Ec; apply ch_byte; [done|lia]).
  rewrite aset_Ok by lia. cbn [mbind result_bind]. destruct (IH (pre ++ [c]) (<[Z.to_nat c := m - len pre - 1]> bad)) as (bad' & E' & H').
  - by rewrite <- app_assoc.
  - split; [by rewrite length_insert|]. split.
    + intros b Hb. rewrite ch_set by lia. specialize (R b Hb). case_match; lia.
    + intros k Hk. rewrite length_app in Hk. cbn [length] in Hk. assert (0 <= ch x k < 256) by (apply ch_byte; [done|lia]). rewrite ch_set by lia.
      destruct (Z.eqb_spec (ch x k) c); [lia|]. apply K. destruct (decide (k = len pre)); [congruence|lia].
  - exists bad'. split; [|done]. rewrite <- E'. f_equal. rewrite length_app. cbn [length]. lia.
Qed.

Lemma bad_table : exists bad, bad_forwards m x 0 (replicate (Z.to_nat (UCHAR_MAX + 1)) m) = Ok bad /\ bad_ok m bad.
Proof.
  apply (bad_forwards_ok []); [done|]. split; [done|]. split; [|cbn; lia]. intros c Hc. unfold ch. rewrite lookup_replicate_2 by (unfold UCHAR_MAX; lia). cbn. lia.
Qed.

(** ** The forward scan *)

(** The needle is at [s] in [h]. *)
Definition occurs (h : list Z) (s : Z) : Prop := forall k, 0 <= k < m -> ch h (s + k) = ch x k.

Definition good_ok (good : list Z) : Prop := length good = length x /\
  forall j, 0 <= j < m -> 1 <= ch good j - (m - 1 - j) <= m /\ forall d, 0 < d < ch good j - (m - 1 - j) -> ~ plausible x j d.

Section Scan.

Context (h : list Z) (n : Z) (bad good : list Z) (Bh : bytes h) (N : n <= len h) (Bad : bad_ok m bad) (Good : good_ok good).

(** After a mismatch at [q] with the needle at [s], there is no occurrence before the shift. *)
Lemma shift_safe (s q d : Z) : 0 <= s -> 0 <= q < m -> s + m <= n -> (forall k, q < k < m -> ch h (s + k) = ch x k) -> ch h (s + q) <> ch x q ->
  0 < d < q + Z.max (ch bad (ch h (s + q))) (ch good q) - (m - 1) -> ~ occurs h (s + d).
Proof.
  intros Hs Hq Hn He Hm Hd Ho. destruct Good as [_ G]. destruct (G q Hq) as [G1 G2]. destruct Bad as (_ & R & K).
  assert (Hc : 0 <= ch h (s + q) < 256) by (apply ch_byte; [done|lia]). specialize (R _ Hc).
  assert (P : plausible x q d).
  { split.
    - intros k Hk Hdk. rewrite <- (He k), <- (Ho (k - d)) by lia. f_equal. lia.
    - intros Hdq. rewrite <- (Ho (q - d)) by lia. by replace (s + d + (q - d)) with (s + q) by lia. }
  destruct (Z.lt_ge_cases d (ch good q - (m - 1 - q))) as [H|H]; [exact (G2 d ltac:(lia) P)|].
  assert (Hdq : d <= q) by lia. specialize (K (q - d) ltac:(lia)). rewrite <- (Ho (q - d)) in K by lia. replace (s + d + (q - d)) with (s + q) in K by lia. lia.
Qed.

(** The answer of a search. *)
Definition first_found (o : option Z) : Prop :=
  match o with
  | Some r => 0 <= r /\ r + m <= n /\ occurs h r /\ forall t, 0 <= t < r -> ~ occurs h t
  | None => forall t, 0 <= t -> t + m <= n -> ~ occurs h t
  end.

Lemma scan_ok (fuel : nat) (s q : Z) : 0 <= s -> -1 <= q <= m - 1 -> q = m - 1 \/ s + m <= n -> (forall k, q < k < m -> ch h (s + k) = ch x k) ->
  (forall t, 0 <= t < s -> t + m <= n -> ~ occurs h t) -> (n - m - s + 1) * (m + 1) + q + 1 <= Z.of_nat fuel ->
  exists o, scan_forwards fuel h n x m bad good (s + q) q = Ok o /\ first_found o.
Proof.
  revert s q. induction fuel as [|fuel IH]; intros s q Hs Hq Hn He Hp Hf; cbn [scan_forwards].
  all: destruct ((s + q <? n) && (0 <=? q)) eqn:C.
  2, 4: eexists; split; [done|]; destruct (Z.ltb_spec q 0); cbn [first_found];
    [assert (q = -1) as -> by lia; replace (s + -1 + 1) with s by lia; split; [lia|]; split; [lia|]; split; [intros k Hk; apply He; lia|intros t Ht; apply Hp; lia]
    |intros t Ht Htn; apply Hp; lia].
  { exfalso. nia. }
  apply andb_true_iff in C as [C1%Z.ltb_lt C2%Z.leb_le]. assert (Hsn : s + m <= n) by lia.
  rewrite (aget_ch h), (aget_ch x) by lia. cbn [mbind result_bind].
  destruct (Z.eqb_spec (ch h (s + q)) (ch x q)) as [E|E].
  - replace (s + q - 1) with (s + (q - 1)) by lia. apply IH; [lia|lia|by right| |done|lia].
    intros k Hk. destruct (decide (k = q)) as [->|]; [done|apply He; lia].
  - destruct Good as [Lg G]. destruct Bad as (Lb & R & _). assert (Hc : 0 <= ch h (s + q) < 256) by (apply ch_byte; [done|lia]).
    rewrite (aget_ch bad), (aget_ch good) by lia. cbn [mbind result_bind]. destruct (G q ltac:(lia)) as [G1 _]. set (d := Z.max _ _) in *.
    replace (s + q + d) with (s + q + d - (m - 1) + (m - 1)) by lia. apply IH; [lia|lia|by left|lia| |nia].
    intros t Ht Htn. destruct (Z.lt_trichotomy t s) as [H|[->|H]]; [apply Hp; lia|intros Ho; apply E, Ho; lia|].
    replace t with (s + (t - s)) by lia. apply (shift_safe s q); [done|lia|done|done|done|]. fold d. lia.
Qed.

End Scan.

(** ** The forward search *)

Lemma search_forwards (h : list Z) (n : Z) : bytes h -> m <= n <= len h ->
  exists o, CFDataSearchBoyerMoore h n x m false = Ok o /\ first_found h n o.
Proof.
  intros Bh Hn. unfold CFDataSearchBoyerMoore. destruct bad_table as (bad & -> & Hb). cbn [mbind result_bind].
  rewrite swrap_small by (unfold in_s; lia). destruct (good_shift x M) as (good & -> & Lg & Hg). cbn [mbind result_bind].
  change (m - 1) with (0 + (m - 1)) at 1. apply scan_ok; [done|lia|done|done|lia|lia|by left|lia|lia|]. unfold scan_fuel. rewrite Z2Nat.id by nia. nia.
Qed.

End Forwards.

(** ** The backward search *)

Lemma bytes_reverse (l : list Z) : bytes l -> bytes (reverse l).
Proof. intros H. apply Forall_reverse. done. Qed.

Lemma aget_reverse (l : list Z) (i : Z) : 0 <= i < len l -> aget (reverse l) (len l - 1 - i) = aget l i.
Proof. intros H. rewrite !aget_ch by (rewrite ?length_reverse; lia). rewrite ch_reverse by lia. do 2 f_equal. lia. Qed.

Section Backwards.

Context (x : list Z).
Abbreviation m := (len x).
Context (M : 1 <= m < 2 ^ 31) (Bx : bytes x).

Lemma bad_backwards_mirror (n : nat) (bad : list Z) : (n <= length x)%nat -> bad_backwards x n bad = bad_forwards m (reverse (take n x)) (m - Z.of_nat n) bad.
Proof.
  revert bad. induction n as [|n IH]; intros bad Hn; [done|]. cbn [bad_backwards]. destruct (lookup_lt_is_Some_2 x n) as [c E]; [lia|].
  rewrite (aget_nat x n c E). cbn [mbind result_bind]. rewrite (take_S_r _ _ _ E), reverse_snoc. cbn [bad_forwards].
  replace (m - (m - Z.of_nat (S n)) - 1) with (Z.of_nat n) by lia. destruct (aset bad c (Z.of_nat n)); [|done..]. cbn [mbind result_bind].
  rewrite IH by lia. f_equal. lia.
Qed.

Context (h : list Z) (n : Z) (bad good : list Z) (Bh : bytes h) (N : m <= n <= len h) (Lb : length bad = 256%nat) (Lg : length good = length x)
  (Hg : forall j, 0 <= j < m -> j < ch good j).

Lemma scan_mirror (fuel : nat) (p q : Z) : 0 <= q <= m -> p - q <= n - m ->
  scan_backwards fuel h x m bad good p q =
  (o ← scan_forwards fuel (reverse (take (Z.to_nat n) h)) n (reverse x) m bad (reverse good) (n - 1 - p) (m - 1 - q); Ok (option_map (fun r => n - m - r) o)).
Proof.
  assert (Lh : length (take (Z.to_nat n) h) = Z.to_nat n) by (rewrite length_take; lia).
  revert p q. induction fuel as [|fuel IH]; intros p q Hq Hp; cbn [scan_backwards scan_forwards].
  all: replace ((n - 1 - p <? n) && (0 <=? m - 1 - q)) with ((0 <=? p) && (q <? m)) by lia.
  all: destruct ((0 <=? p) && (q <? m)) eqn:C; [try done|cbn [mbind result_bind]; destruct (Z.ltb_spec (m - 1 - q) 0), (Z.eqb_spec q m); try lia; cbn; do 2 f_equal; lia].
  apply andb_true_iff in C as [C1%Z.leb_le C2%Z.ltb_lt].
  assert (Eh : aget (reverse (take (Z.to_nat n) h)) (n - 1 - p) = aget h p).
  { replace n with (len (take (Z.to_nat n) h)) at 2 by lia. rewrite aget_reverse by lia. rewrite !aget_ch by lia. by rewrite ch_take by lia. }
  rewrite Eh, aget_reverse, (aget_ch h), (aget_ch x) by lia. cbn [mbind result_bind]. destruct (ch h p =? ch x q).
  - rewrite IH by lia. do 2 f_equal; lia.
  - assert (0 <= ch h p < 256) by (apply ch_byte; [done|lia]). replace (m - 1 - q) with (len good - 1 - q) by lia.
    rewrite aget_reverse, (aget_ch bad), (aget_ch good) by lia. cbn [mbind result_bind]. specialize (Hg q ltac:(lia)).
    rewrite IH by lia. do 2 f_equal; lia.
Qed.

End Backwards.

(** The last occurrence. *)
Definition last_found (x h : list Z) (n : Z) (o : option Z) : Prop :=
  match o with
  | Some r => 0 <= r /\ r + len x <= n /\ occurs x h r /\ forall t, r < t -> t + len x <= n -> ~ occurs x h t
  | None => forall t, 0 <= t -> t + len x <= n -> ~ occurs x h t
  end.

Lemma occurs_reverse (x h : list Z) (n s : Z) : n <= len h -> 0 <= s -> s + len x <= n ->
  occurs (reverse x) (reverse (take (Z.to_nat n) h)) s <-> occurs x h (n - len x - s).
Proof.
  intros Hn Hs Hm. assert (Lh : len (take (Z.to_nat n) h) = n) by (rewrite length_take; lia).
  assert (E : forall k, 0 <= k < len x -> ch (reverse (take (Z.to_nat n) h)) (s + k) = ch h (n - len x - s + (len x - 1 - k)) /\ ch (reverse x) k = ch x (len x - 1 - k)).
  { intros k Hk. rewrite !ch_reverse by lia. rewrite Lh, ch_take by lia. split; [f_equal; lia|done]. }
  unfold occurs. split; intros H k Hk.
  - rewrite length_reverse in H. specialize (H (len x - 1 - k)). destruct (E (len x - 1 - k)) as [E1 E2]; [lia|]. rewrite E1, E2 in H.
    replace (len x - 1 - (len x - 1 - k)) with k in H by lia. apply H. lia.
  - rewrite length_reverse in Hk. destruct (E k Hk) as [-> ->]. apply H. lia.
Qed.

Lemma search_backwards (x h : list Z) (n : Z) : 1 <= len x < 2 ^ 31 -> bytes x -> bytes h -> len x <= n <= len h ->
  exists o, CFDataSearchBoyerMoore h n x (len x) true = Ok o /\ last_found x h n o.
Proof.
  intros M Bx Bh Hn. unfold CFDataSearchBoyerMoore. pose proof (length_reverse x) as Lr.
  rewrite bad_backwards_mirror by lia. rewrite take_ge by lia. replace (len x - Z.of_nat (Z.to_nat (len x))) with 0 by lia.
  destruct (bad_table (reverse x)) as (bad & Eb & Hb); [lia|by apply bytes_reverse|]. rewrite Lr in Eb. rewrite Eb. cbn [mbind result_bind].
  rewrite REVERSE_BUFFER_ok. cbn [mbind result_bind]. rewrite swrap_small by (unfold in_s; lia).
  destruct (good_shift (reverse x)) as (good & Eg & Lg & Hg); [lia|]. rewrite Lr in Eg, Lg, Hg. rewrite Eg. cbn [mbind result_bind].
  rewrite <- Lg, REVERSE_BUFFER_ok. cbn [mbind result_bind]. rewrite Lg.
  rewrite scan_mirror with (n := n); [|done|done|done|apply Hb|by rewrite length_reverse| |lia|lia].
  2: { intros j Hj. rewrite ch_reverse by lia. destruct (Hg (len x - 1 - j) ltac:(lia)). rewrite Lg. lia. }
  rewrite reverse_involutive. assert (Lh : len (take (Z.to_nat n) h) = n) by (rewrite length_take; lia).
  assert (Hg' : good_ok (reverse x) good) by (split; [congruence|by rewrite Lr]).
  destruct (scan_ok (reverse x) ltac:(lia) (reverse (take (Z.to_nat n) h)) n bad good) with (fuel := scan_fuel n (len x)) (s := 0) (q := len x - 1) as (o & Eo & Ho);
    [by apply bytes_reverse, Forall_take|rewrite length_reverse; lia|done|done|lia|lia|left; lia|lia|lia|unfold scan_fuel; rewrite Z2Nat.id by nia; nia|].
  rewrite Lr in Eo. replace (n - 1 - (n - len x)) with (0 + (len x - 1)) by lia. rewrite Z.sub_0_r, Eo. cbn [mbind result_bind]. eexists. split; [done|].
  destruct o as [r|]; cbn in *; rewrite Lr in *.
  - destruct Ho as (H0 & H1 & H2 & H3). split; [lia|]. split; [lia|]. split; [by apply (occurs_reverse x h n r); [lia..|]|].
    intros t Ht Htn Ho. apply (H3 (n - len x - t)); [lia|]. apply occurs_reverse; [lia..|]. by replace (n - len x - (n - len x - t)) with t by lia.
  - intros t Ht Htn Ho2. apply (Ho (n - len x - t)); [lia..|]. apply occurs_reverse; [lia..|]. by replace (n - len x - (n - len x - t)) with t by lia.
Qed.

(** ** The reference *)

Definition occurs_at (l x : list Z) (s : Z) : bool := bool_decide (take (length x) (drop (Z.to_nat s) l) = x).

(** The positions of a needle of [m] bytes in a range, all or the first or the last. *)
Definition positions (location length m : Z) (backwards anchored : bool) : list Z :=
  let all := seqZ location (length - m + 1) in
  if anchored then option_list (if backwards then last all else head all) else all.

Definition reference_find (l x : list Z) (location length : Z) (backwards anchored : bool) : Z * Z :=
  let found := filter (fun s => occurs_at l x s = true) (positions location length (len x) backwards anchored) in
  match x, (if backwards then last found else head found) with
  | _ :: _, Some s => (s, len x)
  | _, _ => (kCFNotFound, 0)
  end.

Lemma occurs_at_spec (l x : list Z) (s : Z) : 0 <= s -> s + len x <= len l -> occurs_at l x s = true <-> occurs x l s.
Proof.
  intros Hs Hl. unfold occurs_at. rewrite bool_decide_eq_true. split.
  - intros E k Hk. rewrite <- E. rewrite <- (Nat2Z.id (length x)), ch_take by lia. unfold ch. rewrite lookup_drop. do 2 f_equal. lia.
  - intros H. apply ch_eq; [rewrite length_take, length_drop; lia|]. rewrite length_take, length_drop. intros k Hk. rewrite <- H by lia.
    rewrite <- (Nat2Z.id (length x)), ch_take by lia. unfold ch. rewrite lookup_drop. do 2 f_equal. lia.
Qed.

Lemma occurs_drop (l x : list Z) (a t : Z) : 0 <= a -> 0 <= t -> occurs x (drop (Z.to_nat a) l) t <-> occurs x l (a + t).
Proof.
  intros Ha Ht. assert (E : forall k, 0 <= k -> ch (drop (Z.to_nat a) l) (t + k) = ch l (a + t + k)).
  { intros k Hk. unfold ch. rewrite lookup_drop. do 2 f_equal. lia. }
  split; intros H k Hk; [rewrite <- E by lia|rewrite E by lia]; by apply H.
Qed.

(** The first and the last element of a range with a property. *)
Lemma head_filter (P : Z -> Prop) `{Dec : !forall z, Decision (P z)} (n : nat) (a : Z) (o : option Z) :
  match o with
  | Some r => 0 <= r < Z.of_nat n /\ P (a + r) /\ forall t, 0 <= t < r -> ~ P (a + t)
  | None => forall t, 0 <= t < Z.of_nat n -> ~ P (a + t)
  end -> head (filter P (seqZ a (Z.of_nat n))) = option_map (Z.add a) o.
Proof.
  revert a o. induction n as [|n IH]; intros a o H; [destruct o; [lia|done]|]. rewrite seqZ_cons by lia. rewrite filter_cons.
  replace (Z.pred (Z.of_nat (S n))) with (Z.of_nat n) by lia. destruct (decide (P a)) as [Pa|Na].
  - destruct o as [r|].
    + destruct H as (H1 & H2 & H3). destruct (decide (r = 0)) as [->|]; [cbn; f_equal; lia|]. destruct (H3 0); [lia|by rewrite Z.add_0_r].
    + destruct (H 0); [lia|by rewrite Z.add_0_r].
  - rewrite (IH (Z.succ a) (option_map Z.pred o)).
    + destruct o; cbn; [f_equal; lia|done].
    + destruct o as [r|]; cbn.
      * destruct H as (H1 & H2 & H3). assert (r <> 0) by (intros ->; by rewrite Z.add_0_r in H2). split; [lia|]. split; [by replace (Z.succ a + Z.pred r) with (a + r) by lia|].
        intros t Ht. replace (Z.succ a + t) with (a + (t + 1)) by lia. apply H3. lia.
      * intros t Ht. replace (Z.succ a + t) with (a + (t + 1)) by lia. apply H. lia.
Qed.

Lemma last_filter (P : Z -> Prop) `{Dec : !forall z, Decision (P z)} (n : nat) (a : Z) (o : option Z) :
  match o with
  | Some r => 0 <= r < Z.of_nat n /\ P (a + r) /\ forall t, r < t < Z.of_nat n -> ~ P (a + t)
  | None => forall t, 0 <= t < Z.of_nat n -> ~ P (a + t)
  end -> last (filter P (seqZ a (Z.of_nat n))) = option_map (Z.add a) o.
Proof.
  revert o. induction n as [|n IH]; intros o H; [destruct o; [lia|done]|]. rewrite seqZ_S, filter_app, filter_cons, filter_nil.
  destruct (decide (P (a + Z.of_nat n))) as [Pa|Na].
  - rewrite last_snoc. destruct o as [r|].
    + destruct H as (H1 & H2 & H3). destruct (decide (r = Z.of_nat n)) as [->|]; [done|]. destruct (H3 (Z.of_nat n)); [lia|done].
    + destruct (H (Z.of_nat n)); [lia|done].
  - rewrite app_nil_r. apply IH. destruct o as [r|].
    + destruct H as (H1 & H2 & H3). assert (r <> Z.of_nat n) by (by intros ->). split; [lia|]. split; [done|]. intros t Ht. apply H3. lia.
    + intros t Ht. apply H. lia.
Qed.

(** The search on a part of the data that holds the needle. *)
Lemma search_reference (l x : list Z) (a n : Z) (backwards : bool) : bytes l -> bytes x -> 1 <= len x < 2 ^ 31 -> 0 <= a -> len x <= n -> a + n <= len l ->
  exists o, CFDataSearchBoyerMoore (drop (Z.to_nat a) l) n x (len x) backwards = Ok o /\
    (let found := filter (fun s => occurs_at l x s = true) (seqZ a (n - len x + 1)) in if backwards then last found else head found) = option_map (Z.add a) o /\
    forall r, o = Some r -> 0 <= r /\ r + len x <= n.
Proof.
  intros Bl Bx M Ha Hn Hl. assert (Bd : bytes (drop (Z.to_nat a) l)) by (by apply Forall_drop). assert (Ld : n <= len (drop (Z.to_nat a) l)) by (rewrite length_drop; lia).
  assert (O : forall t, 0 <= t -> t + len x <= n -> occurs_at l x (a + t) = true <-> occurs x (drop (Z.to_nat a) l) t).
  { intros t Ht Htn. rewrite occurs_at_spec by lia. by rewrite occurs_drop by lia. }
  cbv zeta. rewrite <- (Z2Nat.id (n - len x + 1)) by lia. destruct backwards.
  - destruct (search_backwards x (drop (Z.to_nat a) l) n) as (o & -> & H); [done..|]. exists o. split; [done|]. split; [apply last_filter|intros r ->; split; apply H]. destruct o as [r|].
    + destruct H as (H1 & H2 & H3 & H4). split; [lia|]. split; [by apply O|]. intros t Ht. rewrite O by lia. apply H4; lia.
    + intros t Ht. rewrite O by lia. apply H; lia.
  - destruct (search_forwards x M Bx (drop (Z.to_nat a) l) n) as (o & -> & H); [done..|]. exists o. split; [done|]. split; [apply head_filter|intros r ->; split; apply H]. destruct o as [r|].
    + destruct H as (H1 & H2 & H3 & H4). split; [lia|]. split; [by apply O|]. intros t Ht. rewrite O by lia. apply H4; lia.
    + intros t Ht. rewrite O by lia. apply H; lia.
Qed.

(** The part of the range that an anchored search looks at. *)
Definition anchored_range (location length m : Z) (backwards anchored : bool) : Z * Z :=
  if anchored && (m <? length) then (if backwards then location + (length - m) else location, m) else (location, length).

Lemma positions_range (location length m : Z) (backwards anchored : bool) : m <= length ->
  positions location length m backwards anchored =
  let '(a, n) := anchored_range location length m backwards anchored in seqZ a (n - m + 1).
Proof.
  intros H. unfold positions, anchored_range. destruct anchored; [|done]. cbn [andb].
  assert (One : forall a, seqZ a (m - m + 1) = [a]) by (intros a; by rewrite Z.sub_diag).
  destruct (Z.ltb_spec m length) as [L|L].
  - rewrite One. destruct backwards; [|by rewrite seqZ_cons by lia].
    replace (length - m + 1) with (Z.of_nat (S (Z.to_nat (length - m)))) by lia. rewrite seqZ_S, last_snoc. cbn. f_equal. lia.
  - replace length with m by lia. rewrite One. by destruct backwards.
Qed.

(** The search in the bytes, forwards or backwards, in a range that may be anchored. *)
Lemma find_bytes_reference (l x : list Z) (location length : Z) (backwards anchored : bool) : bytes l -> bytes x -> len x < 2 ^ 31 -> len l < 2 ^ 63 ->
  0 <= location -> 0 <= length -> location + length <= len l ->
  CFDataFindBytes l x location length backwards anchored = Ok (reference_find l x location length backwards anchored).
Proof.
  intros Bl Bx Mx Ml Ha Hn Hl. unfold CFDataFindBytes, reference_find. rewrite !(uwrap_small 64 length) by (unfold in_u; lia).
  assert (R : (if anchored && (len x <? length) then (if backwards then s64 (location + (length - len x)) else location, len x) else (location, length)) =
    anchored_range location length (len x) backwards anchored).
  { unfold anchored_range. destruct anchored; [|done]. cbn [andb]. destruct (Z.ltb_spec (len x) length); [|done]. destruct backwards; [|done].
    by rewrite swrap_small by (unfold in_s; lia). }
  rewrite R. pose proof (fun H => positions_range location length (len x) backwards anchored H) as Pr.
  destruct (anchored_range location length (len x) backwards anchored) as [a n] eqn:Ea.
  assert (B : 0 <= a /\ 0 <= n /\ a + n <= len l /\ (len x <= length <-> len x <= n)).
  { unfold anchored_range in Ea. destruct (anchored && (len x <? length)) eqn:C; [|injection Ea as <- <-; lia]. apply andb_true_iff in C as [_ C%Z.ltb_lt].
    destruct backwards; injection Ea as <- <-; lia. }
  destruct B as (B1 & B2 & B3 & B4). rewrite (uwrap_small 64 (len l - a)), !(uwrap_small 64 n) by (unfold in_u; lia). rewrite (proj2 (Z.ltb_ge (len l - a) n)) by lia.
  rewrite !(uwrap_small 64 n) by (unfold in_u; lia).
  destruct x as [|c x]; [by rewrite orb_true_r|]. set (y := c :: x) in *. assert (Ly : 1 <= len y) by (cbn; lia).
  rewrite (proj2 (Z.eqb_neq (len y) 0)), orb_false_r by lia. destruct (Z.ltb_spec n (len y)) as [Hs|Hs]; cbn [orb].
  - assert (E : positions location length (len y) backwards anchored = []).
    { unfold positions. rewrite seqZ_nil by lia. by destruct anchored, backwards. }
    rewrite E. cbn. by destruct backwards.
  - rewrite (proj2 (Z.eqb_neq (len l) 0)) by lia. rewrite (proj2 (Z.leb_le 0 a)), (proj2 (Z.leb_le a (len l))) by lia. cbn [andb mbind result_bind].
    rewrite Pr by lia.
    destruct (search_reference l y a n backwards) as (o & -> & E & Hr); [done|done|lia|lia|lia|lia|]. cbn [mbind result_bind]. cbv zeta in E. f_equal.
    unfold y at 1. destruct o as [r|]; cbn [option_map] in E; rewrite E; [|done]. f_equal.
    specialize (Hr r eq_refl). apply swrap_small; unfold in_s; lia.
Qed.

End DataFind.
