(* ===== verification/Data.v ===== *)
(** * CFData.c: data that grow

    A data has its bytes inside the object, in a block that it has allocated, or in a block
    of somebody else.  Memory is a [heap] of blocks of cells by address, a cell that has not
    been written is [None]; a pointer is a block and an offset into it, and two pointers
    into different blocks do not overlap.  [malloc] picks the address of a new block, an
    argument with the law that the address is free ([MallocLaws]); allocation succeeds.

    [page_size] is vm_page_size and [snow_leopard] the answer of
    _CFExecutableLinkedOnOrAfter(CFSystemVersionSnowLeopard). *)

From stdpp Require Import base list numbers option gmap.
From Stdlib Require Import ZArith Lia.
From S2P Require Import Prelude DataSearch.
Import DataSearch.

Module Data.

Abbreviation len l := (Z.of_nat (length l)).

(** ** Memory *)

Abbreviation block := (list (option Z)).
Abbreviation heap := (gmap Z block).

Record pointer : Type := Ptr { p_block : Z; p_offset : Z }.

Definition shift_ptr (p : pointer) (n : Z) : pointer := Ptr (p_block p) (p_offset p + n).

Definition load_block (h : heap) (b : Z) : result block :=
  match h !! b with Some l => Ok l | None => Undef end.

Definition deref (p : option pointer) : result pointer :=
  match p with Some p => Ok p | None => Undef end.

(** memmove and memset. *)
Definition move_bytes (h : heap) (dst src : pointer) (n : Z) : result heap :=
  s ← load_block h (p_block src);
  d ← load_block h (p_block dst);
  d ← memmove d (p_offset dst) s (p_offset src) n;
  Ok (<[p_block dst := d]> h).

Definition clear_bytes (h : heap) (dst : pointer) (n : Z) : result heap :=
  d ← load_block h (p_block dst);
  d ← memmove d (p_offset dst) (replicate (Z.to_nat n) (Some 0)) 0 n;
  Ok (<[p_block dst := d]> h).

Definition free (h : heap) (p : option pointer) : result heap :=
  match p with
  | None => Ok h
  | Some p => _ ← load_block h (p_block p); if p_offset p =? 0 then Ok (delete (p_block p) h) else Undef
  end.

(** ** Data *)

(** The mutable variety in the info bits. *)
Inductive variety : Type := kCFImmutable | kCFFixedMutable | kCFMutable.
#[export] Instance variety_eq_dec : EqDecision variety.
Proof. solve_decision. Defined.

(** [_bytesDeallocator] with false for kCFAllocatorNull, which frees nothing; the bytes
    inside the object are the block [d_inlineBytes]; the other fields are info bits. *)
Record CFData : Type := mkData {
  d_length : Z;
  d_capacity : Z;
  d_bytesDeallocator : option bool;
  d_bytes : option pointer;
  d_inlineBytes : Z;
  d_variety : variety;
  d_bytesInline : bool;
  d_useAllocator : bool;
  d_needsToZero : bool
}.

Definition set_length (n : Z) (d : CFData) : CFData :=
  mkData n (d_capacity d) (d_bytesDeallocator d) (d_bytes d) (d_inlineBytes d) (d_variety d) (d_bytesInline d) (d_useAllocator d) (d_needsToZero d).
Definition set_store (n : Z) (p : option pointer) (d : CFData) : CFData :=
  mkData (d_length d) n (d_bytesDeallocator d) p (d_inlineBytes d) (d_variety d) (d_bytesInline d) (d_useAllocator d) (d_needsToZero d).
Definition set_variety (v : variety) (d : CFData) : CFData :=
  mkData (d_length d) (d_capacity d) (d_bytesDeallocator d) (d_bytes d) (d_inlineBytes d) v (d_bytesInline d) (d_useAllocator d) (d_needsToZero d).
Definition set_needsToZero (b : bool) (d : CFData) : CFData :=
  mkData (d_length d) (d_capacity d) (d_bytesDeallocator d) (d_bytes d) (d_inlineBytes d) (d_variety d) (d_bytesInline d) (d_useAllocator d) b.

Definition CFDataIsMutable (d : CFData) : bool := negb (bool_decide (d_variety d = kCFImmutable)).
Definition CFDataIsGrowable (d : CFData) : bool := bool_decide (d_variety d = kCFMutable).

Definition CFDATA_MAX_SIZE : Z := 2 ^ 42 - 1.
Definition CHUNK_SIZE : Z := 2 ^ 29.
Definition LOW_THRESHOLD : Z := 2 ^ 20.
Definition HIGH_THRESHOLD : Z := 2 ^ 32.

Definition CFDataRoundUpCapacity (capacity : Z) : Z :=
  if capacity <? 16 then 16
  else if capacity <? LOW_THRESHOLD then
    let idx := flsl capacity in
    Z.shiftl 1 (idx + (if idx mod 2 =? 0 then 0 else 1))
  else if capacity <? HIGH_THRESHOLD then Z.shiftl 1 (flsl capacity)
  else
    let newCapacity := u64 (CHUNK_SIZE * (1 + Z.shiftr capacity (flsl CHUNK_SIZE - 1))) in
    Z.min newCapacity CFDATA_MAX_SIZE.

(** [CFDataGetBytePtr] and [CFDataGetMutableBytePtr]. *)
Definition CFDataGetBytePtr (d : CFData) : option pointer :=
  if d_bytesInline d then Some (Ptr (d_inlineBytes d) 0) else d_bytes d.

Definition CFDataShouldAllocateCleared (d : CFData) (size : Z) : bool :=
  if d_useAllocator d then false else 128 * 1024 <? size.

Definition CFDataDeallocate (h : heap) (d : CFData) : result (heap * CFData) :=
  if d_bytesInline d then Ok (h, d) else
  h ← match d_bytesDeallocator d with
      | Some false => Ok h
      | _ => free h (d_bytes d)
      end;
  Ok (h, set_store (d_capacity d) None d).

Section Operations.

Context (malloc : heap -> Z) (page_size : Z) (snow_leopard : bool).

(** [__CFDataAllocate]. *)
Definition CFDataAllocate (h : heap) (size : Z) (clear : bool) : heap * pointer :=
  let b := malloc h in
  (<[b := replicate (Z.to_nat size) (if clear then Some 0 else None)]> h, Ptr b 0).

Definition realloc (h : heap) (p : option pointer) (size : Z) : result (heap * pointer) :=
  match p with
  | None => Ok (CFDataAllocate h size false)
  | Some q =>
    l ← load_block h (p_block q);
    h ← free h p;
    let b := malloc h in
    Ok (<[b := take (Z.to_nat size) l ++ replicate (Z.to_nat size - length l) None]> h, Ptr b 0)
  end.

Definition CFDataGrow (h : heap) (d : CFData) (numNewValues : Z) (clear : bool) : result (heap * CFData) :=
  let oldLength := d_length d in
  let newLength := s64 (oldLength + numNewValues) in
  if (CFDATA_MAX_SIZE <? u64 newLength) || (newLength <? 0) then Halt else
  let numBytes := CFDataRoundUpCapacity newLength in
  let oldBytes := d_bytes d in
  if (clear && CFDataShouldAllocateCleared d numBytes) && negb (d_useAllocator d) && ((oldLength =? 0) || (4 <? newLength / oldLength)) then
    let '(h, bytes) := CFDataAllocate h numBytes true in
    old ← deref oldBytes;
    h ← move_bytes h bytes old oldLength;
    '(h, d) ← CFDataDeallocate h d;
    Ok (h, set_needsToZero false (set_store numBytes (Some bytes) d))
  else
    '(h, bytes) ← realloc h oldBytes numBytes;
    h ← (if clear && (oldLength <? newLength) then clear_bytes h (shift_ptr bytes oldLength) (newLength - oldLength) else Ok h);
    Ok (h, set_needsToZero true (set_store numBytes (Some bytes) d)).

Definition CFDataSetLength (h : heap) (d : CFData) (newLength : Z) : result (heap * CFData) :=
  let oldLength := d_length d in
  '(h, d) ← (if CFDataIsMutable d then
      if newLength <? 0 then Halt
      else if d_capacity d <? newLength then
        if CFDataIsGrowable d then CFDataGrow h d (newLength - oldLength) true else Ok (h, d)
      else if (oldLength <? newLength) && d_needsToZero d then
        p ← deref (CFDataGetBytePtr d);
        h ← clear_bytes h (shift_ptr p oldLength) (newLength - oldLength);
        Ok (h, d)
      else if newLength <? oldLength then Ok (h, set_needsToZero true d)
      else Ok (h, d)
    else Ok (h, d));
  Ok (h, set_length newLength d).

Definition CFDataIncreaseLength (h : heap) (d : CFData) (extraLength : Z) : result (heap * CFData) :=
  if extraLength <? 0 then Halt else CFDataSetLength h d (s64 (d_length d + extraLength)).

(** [newBytes < bytePtr + capacity && bytePtr < newBytes + newLength] for pointers that are
    not NULL. *)
Definition overlaps (bytePtr newBytes : option pointer) (capacity newLength : Z) : bool :=
  match bytePtr, newBytes with
  | Some p, Some q => (p_block p =? p_block q) && (p_offset q <? p_offset p + capacity) && (p_offset p <? p_offset q + newLength)
  | _, _ => false
  end.

(** The part of [CFDataReplaceBytes] that makes room: where the new bytes are then, and
    whether they have been copied. *)
Definition make_room (h : heap) (d : CFData) (newCount rangeLength : Z) (newBytes : option pointer) (newLength : Z) : result (heap * CFData * option pointer * bool) :=
  match d_variety d with
  | kCFMutable =>
    if d_capacity d <? newCount then
      '(h, srcBuf, copied) ← (if overlaps (CFDataGetBytePtr d) newBytes (d_capacity d) newLength then
          let '(h, srcBuf) := CFDataAllocate h newLength false in
          p ← deref newBytes;
          h ← move_bytes h srcBuf p newLength;
          Ok (h, Some srcBuf, true)
        else Ok (h, newBytes, false));
      '(h, d) ← CFDataGrow h d (newLength - rangeLength) false;
      Ok (h, d, srcBuf, copied)
    else Ok (h, d, newBytes, false)
  | kCFFixedMutable => if d_capacity d <? newCount then Halt else Ok (h, d, newBytes, false)
  | kCFImmutable => Ok (h, d, newBytes, false)
  end.

(** The two moves of [CFDataReplaceBytes]: the bytes behind the range, then the new bytes. *)
Definition put_bytes (h : heap) (d : CFData) (n location rangeLength : Z) (srcBuf : option pointer) (newLength : Z) : result heap :=
  h ← (if negb (newLength =? rangeLength) && (location + rangeLength <? n) then
      p ← deref (CFDataGetBytePtr d);
      move_bytes h (shift_ptr p (location + newLength)) (shift_ptr p (location + rangeLength)) (n - location - rangeLength)
    else Ok h);
  if 0 <? newLength then
    p ← deref (CFDataGetBytePtr d);
    q ← deref srcBuf;
    move_bytes h (shift_ptr p location) q newLength
  else Ok h.

Definition CFDataReplaceBytes (h : heap) (d : CFData) (location rangeLength : Z) (newBytes : option pointer) (newLength : Z) : result (heap * CFData) :=
  let n := d_length d in
  if (n <? 0) || (rangeLength <? 0) || (newLength <? 0) then Halt else
  let newCount := s64 (n - rangeLength + newLength) in
  if newCount <? 0 then Halt else
  '(h, d, srcBuf, copied) ← make_room h d newCount rangeLength newBytes newLength;
  h ← put_bytes h d n location rangeLength srcBuf newLength;
  h ← (if copied : bool then free h srcBuf else Ok h);
  Ok (h, set_length newCount d).

Definition CFDataAppendBytes (h : heap) (d : CFData) (bytes : option pointer) (length : Z) : result (heap * CFData) :=
  CFDataReplaceBytes h d (d_length d) 0 bytes length.

Definition CFDataDeleteBytes (h : heap) (d : CFData) (location length : Z) : result (heap * CFData) :=
  CFDataReplaceBytes h d location length None 0.

(** ** Creation *)

Definition sizeof_CFData : Z := 48.
Definition INLINE_BYTES_THRESHOLD : Z := 4 * page_size - sizeof_CFData - 15.

Definition CFDataInit (h : heap) (useAllocator : bool) (flags : variety) (capacity : Z) (bytes : option pointer) (length : Z) (bytesDeallocator : option bool) : result (heap * CFData) :=
  let noCopy := match bytesDeallocator with Some _ => true | None => false end in
  let isMutable := negb (bool_decide (flags = kCFImmutable)) in
  let isGrowable := bool_decide (flags = kCFMutable) in
  let allocateInline := negb isGrowable && negb noCopy && (u64 capacity <? INLINE_BYTES_THRESHOLD) in
  let '(h, inlineBytes) := if allocateInline then CFDataAllocate h capacity true else (h, Ptr 0 0) in
  let numBytes := if isMutable && isGrowable then CFDataRoundUpCapacity 1 else capacity in
  let v := if isMutable && isGrowable then kCFMutable else kCFFixedMutable in
  if noCopy then
    Ok (h, mkData length numBytes bytesDeallocator bytes (p_block inlineBytes) flags allocateInline useAllocator false)
  else
    let cleared := isMutable && negb isGrowable && negb snow_leopard in
    let '(h, memory) :=
      if allocateInline then
        (h, mkData 0 numBytes None None (p_block inlineBytes) v (negb ((length =? 0) && negb isMutable)) useAllocator false)
      else
        let '(h, p) := CFDataAllocate h numBytes cleared in
        (h, mkData 0 numBytes None (Some p) (p_block inlineBytes) v false useAllocator (negb cleared)) in
    '(h, memory) ← CFDataReplaceBytes h memory 0 0 bytes length;
    Ok (h, set_variety flags memory).

Definition CFDataCreate (h : heap) (useAllocator : bool) (bytes : option pointer) (length : Z) : result (heap * CFData) :=
  CFDataInit h useAllocator kCFImmutable length bytes length None.

Definition CFDataCreateWithBytesNoCopy (h : heap) (useAllocator : bool) (bytes : option pointer) (length : Z) (bytesDeallocator : bool) : result (heap * CFData) :=
  CFDataInit h useAllocator kCFImmutable length bytes length (Some bytesDeallocator).

Definition CFDataCreateCopy (h : heap) (useAllocator : bool) (d : CFData) : result (heap * CFData) :=
  CFDataInit h useAllocator kCFImmutable (d_length d) (CFDataGetBytePtr d) (d_length d) None.

Definition CFDataCreateMutable (h : heap) (useAllocator : bool) (capacity : Z) : result (heap * CFData) :=
  CFDataInit h useAllocator (if capacity =? 0 then kCFMutable else kCFFixedMutable) capacity None 0 None.

Definition CFDataCreateMutableCopy (h : heap) (useAllocator : bool) (capacity : Z) (d : CFData) : result (heap * CFData) :=
  CFDataInit h useAllocator (if capacity =? 0 then kCFMutable else kCFFixedMutable) capacity (CFDataGetBytePtr d) (d_length d) None.

End Operations.

(** ** Reading *)

(** [CFDataGetBytes]: the bytes that arrive in the buffer; they have been initialised. *)
Definition CFDataGetBytes (h : heap) (d : CFData) (location length : Z) : result (list Z) :=
  if length =? 0 then Ok [] else
  p ← deref (CFDataGetBytePtr d);
  l ← load_block h (p_block p);
  l ← memmove (replicate (Z.to_nat length) None) 0 l (p_offset p + location) length;
  match mapM id l with Some l => Ok l | None => Undef end.

Definition CFDataEqual (h : heap) (d1 d2 : CFData) : result bool :=
  if negb (d_length d1 =? d_length d2) then Ok false else
  l1 ← CFDataGetBytes h d1 0 (d_length d1);
  l2 ← CFDataGetBytes h d2 0 (d_length d1);
  Ok (bool_decide (l1 = l2)).

Definition ELF_STEP (H B : Z) : Z :=
  let T1 := u32 (Z.shiftl H 4 + B) in
  let T2 := Z.land T1 0xF0000000 in
  let T1 := if negb (T2 =? 0) then Z.lxor T1 (Z.shiftr T2 24) else T1 in
  Z.land T1 (0xFFFFFFFF - T2).

(** [CFHashBytes]: four bytes in each turn of the loop, the others in the switch. *)
Fixpoint CFHashBytes (H : Z) (bytes : list Z) : Z :=
  match bytes with
  | a :: b :: c :: e :: bytes => CFHashBytes (ELF_STEP (ELF_STEP (ELF_STEP (ELF_STEP H a) b) c) e) bytes
  | [a; b; c] => ELF_STEP (ELF_STEP (ELF_STEP H a) b) c
  | [a; b] => ELF_STEP (ELF_STEP H a) b
  | [a] => ELF_STEP H a
  | [] => H
  end.

Definition CFDataHash (h : heap) (d : CFData) : result Z :=
  l ← CFDataGetBytes h d 0 (Z.min (d_length d) 80);
  Ok (CFHashBytes 0 l).

Definition CFDataFind (h : heap) (d dataToFind : CFData) (location length : Z) (backwards anchored : bool) : result (Z * Z) :=
  haystack ← CFDataGetBytes h d 0 (d_length d);
  needle ← CFDataGetBytes h dataToFind 0 (d_length dataToFind);
  CFDataFindBytes haystack needle location length backwards anchored.

End Data.
