(* ===== verification/DataOps.v ===== *)
(** * CFData.c: the operations as operations on lists

    [owns] relates a data to its bytes: the block that the byte pointer points to begins
    with them, and the cells behind them fill the capacity.  While no replacement has
    shortened the data, the cells behind the bytes are zero when the data says so ([clean]). *)

From stdpp Require Import base list numbers option gmap.
From Stdlib Require Import ZArith Lia.
From S2P Require Import Prelude DataSearch Data.
Import Data.

Module DataOps.

(** malloc answers with the address of no block. *)
Class MallocLaws (malloc : heap -> Z) : Prop := malloc_fresh : forall h, h !! malloc h = None.

(** ** Capacities *)

Lemma pow2_flsl (n : Z) : 1 <= n -> 2 ^ (flsl n - 1) <= n < 2 ^ flsl n.
Proof.
  intros H. unfold flsl. rewrite (proj2 (Z.leb_gt n 0)) by lia. destruct (Z.log2_spec n) as [H1 H2]; [lia|].
  replace (Z.log2 n + 1 - 1) with (Z.log2 n) by lia. by rewrite Z.add_1_r.
Qed.

Lemma flsl_le (n k : Z) : 1 <= n < 2 ^ k -> 0 <= k -> flsl n <= k.
Proof.
  intros H Hk. pose proof (pow2_flsl n ltac:(lia)) as [H1 _]. destruct (Z.le_gt_cases (flsl n) k); [done|].
  pose proof (Z.pow_le_mono_r 2 k (flsl n - 1) ltac:(lia) ltac:(lia)). lia.
Qed.

(** The capacity is enough and at most four times as large. *)
Lemma round_up_bounds (n : Z) : 0 <= n <= CFDATA_MAX_SIZE ->
  Z.max 16 n <= CFDataRoundUpCapacity n <= Z.min CFDATA_MAX_SIZE (Z.max 16 (4 * n)).
Proof.
  unfold CFDataRoundUpCapacity, LOW_THRESHOLD, HIGH_THRESHOLD, CFDATA_MAX_SIZE. intros Hn. destruct (Z.ltb_spec n 16) as [H|H]; [lia|].
  pose proof (pow2_flsl n ltac:(lia)) as [F1 F2]. assert (F0 : 1 <= flsl n) by (unfold flsl; rewrite (proj2 (Z.leb_gt n 0)) by lia; pose proof (Z.log2_nonneg n); lia).
  pose proof (pow2_split (flsl n) ltac:(lia)) as F3.
  destruct (Z.ltb_spec n (2 ^ 20)) as [H2|H2].
  { pose proof (flsl_le n 20 ltac:(lia) ltac:(lia)) as F4. rewrite Z.shiftl_mul_pow2, Z.mul_1_l by (case_match; lia).
    destruct (flsl n mod 2 =? 0); [rewrite Z.add_0_r|rewrite Z.pow_add_r by lia]; pose proof (Z.pow_le_mono_r 2 _ _ ltac:(lia) F4); lia. }
  destruct (Z.ltb_spec n (2 ^ 32)) as [H3|H3].
  { pose proof (flsl_le n 32 ltac:(lia) ltac:(lia)) as F4. rewrite Z.shiftl_mul_pow2, Z.mul_1_l by lia. pose proof (Z.pow_le_mono_r 2 _ _ ltac:(lia) F4). lia. }
  change (flsl CHUNK_SIZE - 1) with 29. unfold CHUNK_SIZE. rewrite Z.shiftr_div_pow2 by lia.
  pose proof (Z.div_mod n (2 ^ 29) ltac:(lia)) as D. pose proof (Z.mod_pos_bound n (2 ^ 29) ltac:(lia)).
  rewrite uwrap_small by (unfold in_u; lia). lia.
Qed.

(** ** Blocks *)

Lemma memmove_eq {A} (dst src : list A) (d s n : Z) : 0 <= d -> 0 <= s -> 0 <= n -> d + n <= len dst -> s + n <= len src ->
  memmove dst d src s n = Ok (take (Z.to_nat d) dst ++ take (Z.to_nat n) (drop (Z.to_nat s) src) ++ drop (Z.to_nat (d + n)) dst).
Proof. intros. unfold memmove. by rewrite !(proj2 (Z.leb_le _ _)) by lia. Qed.

Lemma load_ok (h : heap) (b : Z) (l : block) : h !! b = Some l -> load_block h b = Ok l.
Proof. unfold load_block. by intros ->. Qed.

(** The data of a block: its bytes, and the cells behind them. *)
Record owns (h : heap) (d : CFData) (b : Z) (l : list Z) (c : block) : Prop := {
  ow_ptr : CFDataGetBytePtr d = Some (Ptr b 0);
  ow_block : h !! b = Some ((Some <$> l) ++ c);
  ow_length : d_length d = len l;
  ow_capacity : d_capacity d = len l + len c;
  ow_max : d_capacity d <= CFDATA_MAX_SIZE;
  ow_outside : d_variety d = kCFMutable -> d_bytesInline d = false;
  ow_own : d_bytesDeallocator d = None
}.

Definition clean (d : CFData) (c : block) : Prop := d_needsToZero d = false -> Forall (eq (Some 0)) c.

(** The bytes at a pointer. *)
Definition reads (h : heap) (p : option pointer) (l : list Z) : Prop :=
  l = [] \/ exists q c, p = Some q /\ h !! p_block q = Some c /\ 0 <= p_offset q /\ take (length l) (drop (Z.to_nat (p_offset q)) c) = Some <$> l.

(** The fields that no operation changes. *)
Definition same_kind (d d' : CFData) : Prop :=
  d_variety d' = d_variety d /\ d_useAllocator d' = d_useAllocator d /\ (d_variety d = kCFMutable \/ d_capacity d' = d_capacity d).

Section Ops.

Context (malloc : heap -> Z) `{!MallocLaws malloc}.

(** The result of an operation on the data in [b]: the data holds [l], perhaps in another
    block, and the other blocks are as they were. *)
Definition becomes (h : heap) (d : CFData) (b : Z) (R : result (heap * CFData)) (l : list Z) (Q : CFData -> block -> Prop) : Prop :=
  exists h' d' b' c', R = Ok (h', d') /\ owns h' d' b' l c' /\ delete b' h' = delete b h /\ same_kind d d' /\ Q d' c'.

Lemma bytes_ptr (h : heap) (d : CFData) (b : Z) (l : list Z) (c : block) : owns h d b l c -> d_variety d = kCFMutable -> d_bytes d = Some (Ptr b 0) /\ d_bytesInline d = false.
Proof. intros O V. pose proof (ow_outside _ _ _ _ _ O V) as I. pose proof (ow_ptr _ _ _ _ _ O) as P. unfold CFDataGetBytePtr in P. by rewrite I in P. Qed.

Lemma realloc_ok (h : heap) (b : Z) (l : block) (n : Z) : h !! b = Some l -> len l <= n ->
  exists h' b', realloc malloc h (Some (Ptr b 0)) n = Ok (h', Ptr b' 0) /\ h' !! b' = Some (l ++ replicate (Z.to_nat n - length l) None) /\ delete b' h' = delete b h.
Proof.
  intros Hb Hn. unfold realloc, free. cbn [p_block p_offset]. rewrite (load_ok _ _ _ Hb). cbn [mbind result_bind]. rewrite Z.eqb_refl. cbn [mbind result_bind].
  eexists _, _. split; [done|]. rewrite take_ge by lia. split; [by rewrite lookup_insert_eq|]. apply delete_insert_id, malloc_fresh.
Qed.

(** Growing without clearing keeps the bytes. *)
Lemma grow_ok (h : heap) (d : CFData) (b : Z) (l : list Z) (c : block) (n : Z) : owns h d b l c -> d_variety d = kCFMutable -> d_capacity d < len l + n <= CFDATA_MAX_SIZE ->
  exists h' d' b' c', CFDataGrow malloc h d n false = Ok (h', d') /\ owns h' d' b' l c' /\ delete b' h' = delete b h /\ same_kind d d' /\
    d_needsToZero d' = true /\ d_length d' = d_length d /\ len l + n <= d_capacity d'.
Proof.
  intros O V Hn. destruct (bytes_ptr _ _ _ _ _ O V) as [P I]. destruct O as [O1 O2 O3 O4 O5 O6 O7]. unfold CFDATA_MAX_SIZE in *.
  unfold CFDataGrow. rewrite O3, swrap_small by (unfold in_s; lia). rewrite uwrap_small by (unfold in_u; lia). unfold CFDATA_MAX_SIZE.
  rewrite (proj2 (Z.ltb_ge _ _)), (proj2 (Z.ltb_ge _ 0)) by lia. cbn [orb andb]. rewrite P.
  pose proof (round_up_bounds (len l + n) ltac:(unfold CFDATA_MAX_SIZE; lia)) as B. unfold CFDATA_MAX_SIZE in B.
  generalize dependent (CFDataRoundUpCapacity (len l + n)). intros N B. destruct (realloc_ok h b _ N O2) as (h' & b' & -> & Hb & Hd); [rewrite length_app, length_fmap; lia|]. cbn [mbind result_bind].
  rewrite <- app_assoc in Hb. eexists _, _, b', _. split; [done|]. split; [|by split; [|split; [split; [done|by split; [|left]]|split; [|split; [|cbn; lia]]]]].
  split; cbn; try done; [unfold CFDataGetBytePtr; cbn; by rewrite I| |unfold CFDATA_MAX_SIZE; lia].
  rewrite !length_app, length_replicate, ?length_app, length_fmap. lia.
Qed.

(** ** Replacing bytes *)

(** The tail moves to its new place. *)
Lemma tail_moves (h : heap) (d : CFData) (b : Z) (l1 l2 l3 : list Z) (c : block) (k : nat) : owns h d b (l1 ++ l2 ++ l3) c ->
  len l1 + Z.of_nat k + len l3 <= d_capacity d ->
  exists B, (if negb (Z.of_nat k =? len l2) && (len l1 + len l2 <? len (l1 ++ l2 ++ l3)) then
      p ← deref (CFDataGetBytePtr d);
      move_bytes h (shift_ptr p (len l1 + Z.of_nat k)) (shift_ptr p (len l1 + len l2)) (len (l1 ++ l2 ++ l3) - len l1 - len l2)
    else Ok h) = Ok (<[b := B]> h) /\ len B = d_capacity d /\ take (length l1) B = Some <$> l1 /\
    drop (length l1 + k) B = (Some <$> l3) ++ drop (length l1 + k + length l3) ((Some <$> (l1 ++ l2 ++ l3)) ++ c).
Proof.
  intros O Hk. destruct O as [O1 O2 O3 O4 O5 O6 O7]. rewrite O1. cbn [deref mbind result_bind].
  rewrite !fmap_app in O2 |- *. rewrite !length_app in *. set (A1 := Some <$> l1) in *. set (A2 := Some <$> l2) in *. set (A3 := Some <$> l3) in *.
  assert (L1 : length A1 = length l1) by apply length_fmap. assert (L2 : length A2 = length l2) by apply length_fmap. assert (L3 : length A3 = length l3) by apply length_fmap.
  set (B0 := (A1 ++ A2 ++ A3) ++ c) in *. assert (LB : len B0 = d_capacity d) by (unfold B0; rewrite !length_app; lia).
  assert (T1 : take (length l1) B0 = A1) by (unfold B0; rewrite <- app_assoc, <- L1; apply take_app_length).
  destruct (negb (Z.of_nat k =? len l2) && _) eqn:C.
  - unfold move_bytes. cbn [p_block p_offset shift_ptr]. rewrite (load_ok _ _ _ O2). cbn [mbind result_bind]. rewrite memmove_eq by lia. cbn [mbind result_bind].
    eexists. split; [done|]. rewrite !Z.add_0_l. replace (Z.to_nat (len l1 + Z.of_nat k)) with (length l1 + k)%nat by lia.
    replace (Z.to_nat (len l1 + len l2)) with (length l1 + length l2)%nat by lia.
    match goal with |- context [take (Z.to_nat ?z) (drop _ B0)] => replace (Z.to_nat z) with (length l3) by lia end.
    match goal with |- context [drop (Z.to_nat ?z) B0] => replace (Z.to_nat z) with (length l1 + k + length l3)%nat by lia end.
    assert (E : take (length l3) (drop (length l1 + length l2) B0) = A3).
    { unfold B0. rewrite <- L1, <- L2, <- L3, <- !app_assoc, <- drop_drop, drop_app_length, drop_app_length. apply take_app_length. }
    rewrite E. split; [|split].
    + rewrite !length_app, length_take, length_drop. lia.
    + rewrite take_app_le by (rewrite length_take; lia). rewrite take_take, Nat.min_l by lia. done.
    + rewrite drop_app_length' by (rewrite length_take; lia). done.
  - exists B0. split; [by rewrite insert_id|]. split; [done|]. split; [done|].
    apply andb_false_iff in C as [C|C].
    + apply negb_false_iff, Z.eqb_eq in C. assert (k = length l2) as -> by lia. unfold B0. rewrite <- L1, <- L2, <- L3, <- !app_assoc, <- !drop_drop.
      by rewrite !drop_app_length.
    + apply Z.ltb_ge in C. destruct l3; [|cbn in C; lia]. cbn [length]. by rewrite Nat.add_0_r.
Qed.

Lemma put_bytes_ok (h : heap) (d : CFData) (b : Z) (l1 l2 l3 src : list Z) (c : block) (q : option pointer) : owns h d b (l1 ++ l2 ++ l3) c ->
  reads (delete b h) q src -> len l1 + len src + len l3 <= d_capacity d ->
  exists c', put_bytes h d (len (l1 ++ l2 ++ l3)) (len l1) (len l2) q (len src) = Ok (<[b := (Some <$> (l1 ++ src ++ l3)) ++ c']> h) /\
    len (l1 ++ src ++ l3) + len c' = d_capacity d /\ (len l2 <= len src -> c' = drop (length src - length l2) c).
Proof.
  intros O Hr Hk. destruct (tail_moves h d b l1 l2 l3 c (length src) O Hk) as (B & E & LB & T1 & T2). unfold put_bytes. rewrite E. cbn [mbind result_bind].
  set (c' := drop (length l1 + length src + length l3) _) in T2. exists c'.
  assert (LC : len (l1 ++ src ++ l3) + len c' = d_capacity d).
  { apply (f_equal length) in T2. rewrite length_drop, length_app, length_fmap in T2. rewrite !length_app. lia. }
  assert (KC : len l2 <= len src -> c' = drop (length src - length l2) c).
  { intros H. unfold c'. rewrite drop_app_ge by (rewrite length_fmap, !length_app; lia). f_equal. rewrite length_fmap, !length_app. lia. }
  split; [|done]. destruct Hr as [->|(p & s & -> & Hp & H0 & Hs)].
  - cbn [length] in *. rewrite Nat.add_0_r in T2. change (0 <? Z.of_nat 0) with false. do 2 f_equal. rewrite <- (take_drop (length l1) B), T1, T2, fmap_app, app_assoc. by rewrite fmap_app.
  - destruct (Z.ltb_spec 0 (len src)) as [H|H].
    + rewrite (ow_ptr _ _ _ _ _ O). cbn [deref mbind result_bind]. unfold move_bytes. cbn [p_block p_offset shift_ptr].
      apply lookup_delete_Some in Hp as [Nb Hp]. rewrite (load_ok _ (p_block p) s) by (by rewrite lookup_insert_ne). cbn [mbind result_bind].
      rewrite (load_ok _ b B) by (by rewrite lookup_insert_eq). cbn [mbind result_bind].
      assert (Ls : p_offset p + len src <= len s).
      { apply (f_equal length) in Hs. rewrite length_take, length_drop, length_fmap in Hs. lia. }
      rewrite memmove_eq by lia. cbn [mbind result_bind]. rewrite insert_insert_eq. do 2 f_equal. rewrite Z.add_0_l, !Nat2Z.id, T1.
      rewrite Hs. replace (Z.to_nat (len l1 + len src)) with (length l1 + length src)%nat by lia. rewrite T2, !fmap_app, <- !app_assoc. done.
    + assert (src = []) as -> by (destruct src; [done|cbn in H; lia]). cbn [length] in *. rewrite Nat.add_0_r in T2. do 2 f_equal.
      rewrite <- (take_drop (length l1) B), T1, T2, fmap_app, app_assoc. by rewrite fmap_app.
Qed.

(** The data after its bytes have been put in place. *)
Lemma owns_put (h : heap) (d : CFData) (b : Z) (l l' : list Z) (c c' : block) : owns h d b l c -> len l' + len c' = d_capacity d ->
  owns (<[b := (Some <$> l') ++ c']> h) (set_length (len l') d) b l' c'.
Proof.
  intros [O1 O2 O3 O4 O5 O6 O7] H. split; cbn; try done. by rewrite lookup_insert_eq.
Qed.

Lemma same_kind_trans (d1 d2 d3 : CFData) : same_kind d1 d2 -> same_kind d2 d3 -> same_kind d1 d3.
Proof. intros (V1 & U1 & C1) (V2 & U2 & C2). split; [congruence|]. split; [congruence|]. destruct C1, C2; try (left; congruence). right. congruence. Qed.

(** A replacement in a data with enough capacity. *)
Lemma replace_put (h : heap) (d : CFData) (b : Z) (l1 l2 l3 src : list Z) (c : block) (q : option pointer) : owns h d b (l1 ++ l2 ++ l3) c ->
  reads (delete b h) q src -> len l1 + len src + len l3 <= d_capacity d ->
  exists h' c', put_bytes h d (len (l1 ++ l2 ++ l3)) (len l1) (len l2) q (len src) = Ok h' /\
    owns h' (set_length (len (l1 ++ src ++ l3)) d) b (l1 ++ src ++ l3) c' /\ delete b h' = delete b h /\
    (forall z, z <> b -> h' !! z = h !! z) /\ (clean d c -> len l2 <= len src \/ d_needsToZero d = true -> clean d c').
Proof.
  intros O Hr Hk. destruct (put_bytes_ok h d b l1 l2 l3 src c q O Hr Hk) as (c' & -> & Lc & Kc). eexists _, c'. split; [done|].
  split; [by eapply owns_put|]. split; [by rewrite delete_insert_eq|]. split; [intros z Hz; by rewrite lookup_insert_ne|].
  intros Hc [H|H] N; [|congruence]. rewrite (Kc H). apply Forall_drop. by apply Hc.
Qed.

(** Bytes at a pointer into the block itself are found to overlap. *)
Lemma reads_overlap (h : heap) (d : CFData) (b : Z) (l src : list Z) (c : block) (q : option pointer) : owns h d b l c -> src <> [] -> reads h q src ->
  overlaps (CFDataGetBytePtr d) q (d_capacity d) (len src) = false -> reads (delete b h) q src.
Proof.
  intros O Hs [->|(p & s & -> & Hp & H0 & Ht)] Hv; [done|]. right. exists p, s. split; [done|]. split; [|done]. apply lookup_delete_Some. split; [|done]. intros Eb.
  rewrite (ow_ptr _ _ _ _ _ O) in Hv. cbn in Hv. rewrite <- Eb, Z.eqb_refl in Hv. cbn [andb] in Hv. assert (Ls : 1 <= len src) by (destruct src; [done|cbn; lia]).
  rewrite <- Eb, (ow_block _ _ _ _ _ O) in Hp. injection Hp as <-. pose proof (ow_capacity _ _ _ _ _ O) as C.
  apply (f_equal length) in Ht. rewrite length_take, length_drop, length_app, !length_fmap in Ht.
  apply andb_false_iff in Hv as [H%Z.ltb_ge|H%Z.ltb_ge]; lia.
Qed.

Lemma copy_source (h : heap) (q : option pointer) (src : list Z) (s : Z) : h !! s = None -> src <> [] -> reads h q src ->
  exists p, q = Some p /\ move_bytes (<[s := replicate (length src) None]> h) (Ptr s 0) p (len src) = Ok (<[s := Some <$> src]> h).
Proof.
  intros Hn Hs [->|(p & c & -> & Hp & H0 & Ht)]; [done|]. exists p. split; [done|]. unfold move_bytes. cbn [p_block p_offset].
  assert (N : p_block p <> s) by congruence.
  rewrite (load_ok _ (p_block p) c) by (by rewrite lookup_insert_ne by congruence). cbn [mbind result_bind]. rewrite (load_ok _ s (replicate (length src) None)) by (by rewrite lookup_insert_eq). cbn [mbind result_bind].
  assert (Ls : p_offset p + len src <= len c).
  { pose proof (f_equal length Ht) as L. rewrite length_take, length_drop, length_fmap in L. destruct src; [done|]. cbn [length] in *. lia. }
  rewrite memmove_eq by (rewrite ?length_replicate; lia). cbn [mbind result_bind]. rewrite insert_insert_eq. do 2 f_equal. rewrite Nat2Z.id, Ht, Z.add_0_l, Nat2Z.id.
  rewrite (drop_ge (replicate _ _)) by (by rewrite length_replicate). cbn [Z.to_nat take app]. by rewrite app_nil_r.
Qed.

(** What fits: the capacity of a data that does not grow. *)
Definition limit (d : CFData) : Z := if CFDataIsGrowable d then CFDATA_MAX_SIZE else d_capacity d.

(** The source is outside the block, or the data has to grow. *)
Definition source_ok (h : heap) (d : CFData) (b newCount : Z) (q : option pointer) (src : list Z) : Prop :=
  reads (delete b h) q src \/ d_capacity d < newCount /\ reads h q src.

Lemma reads_delete (h : heap) (b : Z) (q : option pointer) (src : list Z) : reads (delete b h) q src -> reads h q src.
Proof. intros [->|(p & s & -> & Hp & H)]; [by left|]. right. exists p, s. apply lookup_delete_Some in Hp as [_ Hp]. done. Qed.

(** A data that has to grow: the source is copied when it is in the block. *)
Lemma make_room_grows (h : heap) (d : CFData) (b : Z) (l src : list Z) (c : block) (q : option pointer) (r : Z) : owns h d b l c -> d_variety d = kCFMutable ->
  0 <= r <= len l -> d_capacity d < len l - r + len src <= CFDATA_MAX_SIZE -> reads h q src ->
  exists h' d' b' c' q' copied, make_room malloc h d (len l - r + len src) r q (len src) = Ok (h', d', q', copied) /\ owns h' d' b' l c' /\ same_kind d d' /\
    d_needsToZero d' = true /\ len l - r + len src <= d_capacity d' /\ reads (delete b' h') q' src /\
    (if copied : bool then exists s, q' = Some (Ptr s 0) /\ s <> b' /\ is_Some (h' !! s) /\ delete s (delete b' h') = delete b h else delete b' h' = delete b h).
Proof.
  intros O V Hr Hn Hq. pose proof (ow_capacity _ _ _ _ _ O) as Hc. assert (Hs : src <> []) by (intros ->; cbn in Hn; lia).
  unfold make_room. rewrite V, (proj2 (Z.ltb_lt _ _)) by lia. destruct (overlaps _ _ _ _) eqn:Ov.
  - pose proof (malloc_fresh h : h !! malloc h = None) as Fs. unfold CFDataAllocate. set (s := malloc h) in *. destruct (copy_source h q src s Fs Hs Hq) as (p & -> & Em). rewrite Nat2Z.id. cbn [deref mbind result_bind].
    rewrite Em. cbn [mbind result_bind]. assert (Nb : b <> s) by (intros E; pose proof (ow_block _ _ _ _ _ O) as Hb; congruence).
    assert (O' : owns (<[s := Some <$> src]> h) d b l c) by (destruct O as [O1 O2 O3 O4 O5 O6 O7]; split; try done; by rewrite lookup_insert_ne).
    destruct (grow_ok _ d b l c (len src - r) O' V) as (h' & d' & b' & c' & -> & O2 & Hd & K & Z' & _ & C'); [lia|]. cbn [mbind result_bind].
    assert (Hs' : delete b' h' !! s = Some (Some <$> src)) by (rewrite Hd, lookup_delete_ne by done; by rewrite lookup_insert_eq).
    pose proof Hs' as [Ns Hs2]%lookup_delete_Some.
    exists h', d', b', c', (Some (Ptr s 0)), true. split; [done|]. split; [done|]. split; [done|]. split; [done|]. split; [lia|]. split.
    + right. eexists (Ptr s 0), _. split; [done|]. split; [exact Hs'|]. split; [done|]. cbn. rewrite drop_0. apply take_ge. by rewrite length_fmap.
    + exists s. split; [done|]. split; [congruence|]. split; [by eexists|]. by rewrite Hd, delete_delete, delete_insert_id.
  - cbn [mbind result_bind]. destruct (grow_ok h d b l c (len src - r) O V) as (h' & d' & b' & c' & -> & O2 & Hd & K & Z' & _ & C'); [lia|]. cbn [mbind result_bind].
    exists h', d', b', c', q, false. split; [done|]. split; [done|]. split; [done|]. split; [done|]. split; [lia|]. split; [|done].
    rewrite Hd. by eapply reads_overlap.
Qed.

Lemma replace_ok (h : heap) (d : CFData) (b : Z) (l1 l2 l3 src : list Z) (c : block) (q : option pointer) : owns h d b (l1 ++ l2 ++ l3) c -> d_variety d <> kCFImmutable ->
  source_ok h d b (len (l1 ++ src ++ l3)) q src -> len (l1 ++ src ++ l3) <= limit d ->
  becomes h d b (CFDataReplaceBytes malloc h d (len l1) (len l2) q (len src)) (l1 ++ src ++ l3)
    (fun d' c' => clean d c -> len l2 <= len src \/ d_needsToZero d = true -> clean d' c').
Proof.
  intros O V Hq Hl. pose proof (ow_capacity _ _ _ _ _ O) as Hc. pose proof (ow_max _ _ _ _ _ O) as Hm. unfold limit, CFDATA_MAX_SIZE, CFDataIsGrowable in *.
  assert (L : len (l1 ++ src ++ l3) = len (l1 ++ l2 ++ l3) - len l2 + len src) by (rewrite !length_app; lia).
  assert (Hb : len (l1 ++ src ++ l3) < 2 ^ 43) by (case_bool_decide; lia).
  unfold CFDataReplaceBytes. rewrite (ow_length _ _ _ _ _ O). rewrite !(proj2 (Z.ltb_ge _ 0)) by lia. cbn [orb]. rewrite <- L.
  rewrite swrap_small by (unfold in_s; lia). rewrite (proj2 (Z.ltb_ge _ 0)) by lia.
  destruct (Z.lt_ge_cases (d_capacity d) (len (l1 ++ src ++ l3))) as [G|G].
  - assert (d_variety d = kCFMutable) as V' by (case_bool_decide; [done|lia]). rewrite bool_decide_true in Hl by done.
    destruct (make_room_grows h d b (l1 ++ l2 ++ l3) src c q (len l2) O V') as (h1 & d1 & b1 & c1 & q1 & copied & E & O1 & K & Z1 & C1 & R1 & F);
      [rewrite !length_app; lia|unfold CFDATA_MAX_SIZE; lia|destruct Hq as [Hq|[_ Hq]]; [by eapply reads_delete|done]|]. rewrite L, E. cbn [mbind result_bind].
    destruct (replace_put h1 d1 b1 l1 l2 l3 src c1 q1 O1 R1) as (h2 & c2 & -> & O2 & Hd & Hz & _); [rewrite !length_app in *; lia|]. cbn [mbind result_bind]. rewrite <- L.
    assert (Q : same_kind d (set_length (len (l1 ++ src ++ l3)) d1)) by (destruct K as (K1 & K2 & K3); done).
    destruct copied; cbn [mbind result_bind].
    + destruct F as (s & -> & Ns & [x Hs] & F). cbn [free p_block p_offset]. rewrite (load_ok h2 s x) by (by rewrite Hz). cbn [mbind result_bind]. rewrite Z.eqb_refl. cbn [mbind result_bind].
      eexists _, _, b1, c2. split; [done|]. split; [destruct O2 as [? X]; split; try done; by rewrite lookup_delete_ne|].
      split; [by rewrite delete_delete, Hd|]. split; [done|]. intros _ _ N. cbn in N. congruence.
    + eexists _, _, b1, c2. split; [done|]. split; [done|]. split; [by rewrite Hd|]. split; [done|]. intros _ _ N. cbn in N. congruence.
  - assert (Hq' : reads (delete b h) q src) by (destruct Hq as [Hq|[Hq _]]; [done|lia]).
    assert (E : make_room malloc h d (len (l1 ++ src ++ l3)) (len l2) q (len src) = Ok (h, d, q, false)).
    { unfold make_room. rewrite (proj2 (Z.ltb_ge _ _)) by lia. by destruct (d_variety d). }
    rewrite E. cbn [mbind result_bind]. destruct (replace_put h d b l1 l2 l3 src c q O Hq') as (h2 & c2 & -> & O2 & Hd & _ & Hcl); [rewrite !length_app in *; lia|]. cbn [mbind result_bind].
    eexists _, _, b, c2. split; [done|]. split; [done|]. split; [done|]. split; [by split; [|split; [|right]]|]. done.
Qed.

(** ** Setting the length *)

Lemma clear_ok (h : heap) (b a : Z) (A c : block) (k : nat) : h !! b = Some (A ++ c) -> len A = a -> (k <= length c)%nat ->
  clear_bytes h (Ptr b a) (Z.of_nat k) = Ok (<[b := A ++ replicate k (Some 0) ++ drop k c]> h).
Proof.
  intros Hb <- Hk. unfold clear_bytes. cbn [p_block p_offset]. rewrite (load_ok _ _ _ Hb). cbn [mbind result_bind].
  rewrite memmove_eq by (rewrite ?length_app, ?length_replicate; lia). cbn [mbind result_bind]. do 2 f_equal.
  replace (Z.to_nat (len A + Z.of_nat k)) with (length A + k)%nat by lia. rewrite !Nat2Z.id, take_app_length, <- drop_drop, drop_app_length.
  change (Z.to_nat 0) with O. rewrite drop_0, take_ge by (by rewrite length_replicate). done.
Qed.

Lemma fmap_zeros (k : nat) : (Some <$> replicate k 0) = replicate k (Some 0).
Proof. apply fmap_replicate. Qed.

(** A data that grows with zeros. *)
Lemma grow_clear_ok (h : heap) (d : CFData) (b : Z) (l : list Z) (c : block) (k : nat) : owns h d b l c -> d_variety d = kCFMutable ->
  d_capacity d < len l + Z.of_nat k <= CFDATA_MAX_SIZE ->
  exists h' d' b' c', CFDataGrow malloc h d (Z.of_nat k) true = Ok (h', d') /\
    owns h' (set_length (len l + Z.of_nat k) d') b' (l ++ replicate k 0) c' /\ delete b' h' = delete b h /\ same_kind d d' /\ clean d' c'.
Proof.
  intros O V Hn. destruct (bytes_ptr _ _ _ _ _ O V) as [P I]. destruct O as [O1 O2 O3 O4 O5 O6 O7]. unfold CFDATA_MAX_SIZE in *.
  unfold CFDataGrow. rewrite O3, swrap_small by (unfold in_s; lia). rewrite uwrap_small by (unfold in_u; lia). unfold CFDATA_MAX_SIZE.
  rewrite (proj2 (Z.ltb_ge _ _)), (proj2 (Z.ltb_ge _ 0)) by lia. cbn [orb]. rewrite P. cbn [deref mbind result_bind].
  pose proof (round_up_bounds (len l + Z.of_nat k) ltac:(unfold CFDATA_MAX_SIZE; lia)) as B. unfold CFDATA_MAX_SIZE in B.
  generalize dependent (CFDataRoundUpCapacity (len l + Z.of_nat k)). intros N B. destruct (_ && _).
  - pose proof (malloc_fresh h : h !! malloc h = None) as Fs. unfold CFDataAllocate. set (s := malloc h) in *.
    assert (Nb : b <> s) by congruence. assert (Em : move_bytes (<[s := replicate (Z.to_nat N) (Some 0)]> h) (Ptr s 0) (Ptr b 0) (len l) =
      Ok (<[s := (Some <$> (l ++ replicate k 0)) ++ replicate (Z.to_nat N - length l - k) (Some 0)]> h)).
    { unfold move_bytes. cbn [p_block p_offset]. rewrite (load_ok _ b ((Some <$> l) ++ c)) by (by rewrite lookup_insert_ne). cbn [mbind result_bind].
      rewrite (load_ok _ s (replicate (Z.to_nat N) (Some 0))) by (by rewrite lookup_insert_eq). cbn [mbind result_bind].
      rewrite memmove_eq by (rewrite ?length_app, ?length_fmap, ?length_replicate; lia). cbn [mbind result_bind]. rewrite insert_insert_eq. do 2 f_equal.
      change (Z.to_nat 0) with O. cbn [take app]. rewrite Z.add_0_l, drop_0, !Nat2Z.id. rewrite <- (length_fmap Some l) at 1. rewrite take_app_length.
      rewrite fmap_app, fmap_zeros, <- app_assoc, <- replicate_add, drop_replicate. rewrite take_0. cbn [app]. do 2 f_equal. lia. }
    rewrite Em. cbn [mbind result_bind]. unfold CFDataDeallocate. rewrite I, O7, P. cbn [free p_block p_offset].
    rewrite (load_ok _ b ((Some <$> l) ++ c)) by (by rewrite lookup_insert_ne). cbn [mbind result_bind]. rewrite Z.eqb_refl. cbn [mbind result_bind].
    eexists _, _, s, _. split; [done|]. split; [|split; [by rewrite delete_delete, delete_insert_id|split; [split; [done|by split; [|left]]|]]].
    + split; cbn; try done; [unfold CFDataGetBytePtr; cbn; by rewrite I|by rewrite lookup_delete_ne, lookup_insert_eq| | |unfold CFDATA_MAX_SIZE; lia].
      * rewrite length_app, length_replicate. lia.
      * rewrite length_app, !length_replicate. lia.
    + intros _. by apply Forall_replicate.
  - destruct (realloc_ok h b _ N O2) as (h' & b' & -> & Hb & Hd); [rewrite length_app, length_fmap; lia|]. cbn [mbind result_bind andb].
    rewrite <- app_assoc in Hb. rewrite (proj2 (Z.ltb_lt _ _)) by lia. replace (len l + Z.of_nat k - len l) with (Z.of_nat k) by lia.
    change (shift_ptr (Ptr b' 0) (len l)) with (Ptr b' (0 + len l)). rewrite (clear_ok h' b' (0 + len l) _ _ k Hb); [|rewrite length_fmap; lia|rewrite !length_app, length_replicate, ?length_app, length_fmap; lia].
    cbn [mbind result_bind]. eexists _, _, b', _. split; [done|]. split; [|split; [by rewrite delete_insert_eq|split; [split; [done|by split; [|left]]|done]]].
    split; cbn; try done; [unfold CFDataGetBytePtr; cbn; by rewrite I|by rewrite lookup_insert_eq, fmap_app, fmap_zeros, <- app_assoc| | |unfold CFDATA_MAX_SIZE; lia].
    + rewrite length_app, length_replicate. lia.
    + rewrite length_drop, !length_app, !length_replicate, ?length_app, length_fmap. lia.
Qed.

Definition resized (n : Z) (l : list Z) : list Z := take (Z.to_nat n) l ++ replicate (Z.to_nat n - length l) 0.

Lemma set_length_ok (h : heap) (d : CFData) (b : Z) (l : list Z) (c : block) (n : Z) : owns h d b l c -> d_variety d <> kCFImmutable -> 0 <= n <= limit d ->
  n < len l \/ clean d c -> becomes h d b (CFDataSetLength malloc h d n) (resized n l) clean.
Proof.
  intros O V Hn Hc. unfold CFDataSetLength, CFDataIsMutable. rewrite bool_decide_false by done. cbn [negb]. rewrite (proj2 (Z.ltb_ge n 0)) by lia.
  unfold resized. pose proof (ow_length _ _ _ _ _ O) as L. pose proof (ow_capacity _ _ _ _ _ O) as C. pose proof (ow_max _ _ _ _ _ O) as X. rewrite L. unfold limit, CFDataIsGrowable in *.
  destruct (Z.ltb_spec (d_capacity d) n) as [G|G].
  - case_bool_decide; [|lia]. destruct (grow_clear_ok h d b l c (Z.to_nat (n - len l)) O) as (h' & d' & b' & c' & E & O' & Hd & K & Hcl); [done|lia|].
    rewrite Z2Nat.id in E by lia. rewrite E. cbn [mbind result_bind]. exists h', (set_length n d'), b', c'. split; [done|].
    rewrite take_ge by lia. replace (Z.to_nat n - length l)%nat with (Z.to_nat (n - len l)) by lia. replace (len l + Z.of_nat (Z.to_nat (n - len l))) with n in O' by lia. done.
  - destruct O as [O1 O2 O3 O4 O5 O6 O7]. destruct (Z.lt_trichotomy n (len l)) as [T|[T|T]].
    + rewrite (proj2 (Z.ltb_ge (len l) n)), (proj2 (Z.ltb_lt n (len l))) by lia. cbn [andb mbind result_bind]. replace (Z.to_nat n - length l)%nat with O by lia. rewrite app_nil_r.
      exists h, (set_length n (set_needsToZero true d)), b, ((Some <$> drop (Z.to_nat n) l) ++ c). split; [done|]. split; [|by split; [|split; [split; [|split; [|right]]|]]].
      split; cbn; try done; [|rewrite length_take; lia|rewrite length_app, length_fmap, length_take, length_drop; lia].
      by rewrite O2, app_assoc, <- fmap_app, take_drop.
    + rewrite !(proj2 (Z.ltb_ge _ _)) by lia. cbn [andb mbind result_bind]. replace (Z.to_nat n - length l)%nat with O by lia. rewrite app_nil_r, take_ge by lia.
      exists h, (set_length n d), b, c. split; [done|]. split; [by split|]. split; [done|]. split; [by split; [|split; [|right]]|]. by destruct Hc; [lia|].
    + rewrite (proj2 (Z.ltb_lt (len l) n)), (proj2 (Z.ltb_ge n (len l))) by lia. cbn [andb]. rewrite take_ge by lia. destruct Hc as [?|Hc]; [lia|].
      replace (n - len l) with (Z.of_nat (Z.to_nat n - length l)) by lia. set (k := (Z.to_nat n - length l)%nat) in *. destruct (d_needsToZero d) eqn:Z0; cbn [mbind result_bind].
      * rewrite O1. cbn [deref mbind result_bind]. change (shift_ptr (Ptr b 0) (len l)) with (Ptr b (0 + len l)). rewrite (clear_ok h b (0 + len l) _ _ k O2); [|rewrite length_fmap; lia|lia]. cbn [mbind result_bind].
        eexists _, (set_length n d), b, _. split; [done|]. split; [|split; [by rewrite delete_insert_eq|split; [by split; [|split; [|right]]|]]].
        -- split; cbn; try done; [by rewrite lookup_insert_eq, fmap_app, fmap_zeros, <- app_assoc|rewrite length_app, length_replicate; lia|].
           rewrite length_drop, length_app, length_replicate. lia.
        -- intros N. cbn in N. congruence.
      * exists h, (set_length n d), b, (drop k c). split; [done|]. split; [|split; [done|split; [by split; [|split; [|right]]|intros _; by apply Forall_drop, Hc]]].
        split; cbn; try done; [|rewrite length_app, length_replicate; lia|rewrite length_drop, length_app, length_replicate; lia].
        rewrite O2, fmap_app, fmap_zeros, <- app_assoc. do 2 f_equal. rewrite <- (take_drop k c) at 1. f_equal.
        symmetry. apply replicate_as_Forall. split; [rewrite length_take; lia|]. by apply Forall_take, Hc.
Qed.

End Ops.

End DataOps.
