(* ===== verification/DataRun.v ===== *)
(** * CFData.c: the life of a data

    Creation, sequences of operations and deallocation, equality, hashing and searching:
    a data that is created and changed holds the bytes that the same operations on a list
    give, and when it is deallocated the heap is what it was before. *)

From stdpp Require Import base list numbers option gmap.
From Stdlib Require Import ZArith Lia.
From S2P Require Import Prelude DataSearch DataShift DataFind Data DataOps.
Import DataSearch DataShift DataFind Data DataOps.

Module DataRun.

(** ** Reading *)

Lemma mapM_id_Some (l : list Z) : mapM id (Some <$> l) = Some l.
Proof. apply mapM_Some, Forall2_fmap_l, Forall_Forall2_diag, Forall_true. done. Qed.

Lemma get_bytes_ok (h : heap) (d : CFData) (b : Z) (l : list Z) (c : block) (location n : Z) : owns h d b l c -> 0 <= location -> 0 <= n -> location + n <= len l ->
  CFDataGetBytes h d location n = Ok (take (Z.to_nat n) (drop (Z.to_nat location) l)).
Proof.
  intros O Hl Hn Hb. unfold CFDataGetBytes. destruct (Z.eqb_spec n 0) as [->|N]; [done|]. rewrite (ow_ptr _ _ _ _ _ O). cbn [deref mbind result_bind p_block p_offset].
  rewrite (load_ok _ _ _ (ow_block _ _ _ _ _ O)). cbn [mbind result_bind]. rewrite memmove_eq by (rewrite ?length_replicate, ?length_app, ?length_fmap; lia). cbn [mbind result_bind].
  rewrite Z.add_0_l, (drop_ge (replicate _ _)) by (rewrite length_replicate; lia). change (Z.to_nat 0) with 0%nat. rewrite take_0, app_nil_l, app_nil_r.
  rewrite drop_app_le, take_app_le by (rewrite ?length_drop, ?length_fmap; lia). by rewrite <- fmap_drop, <- fmap_take, mapM_id_Some.
Qed.

(** What a reader sees. *)
Definition holds (h : heap) (d : CFData) (l : list Z) : Prop :=
  d_length d = len l /\ forall location n, 0 <= location -> 0 <= n -> location + n <= len l -> CFDataGetBytes h d location n = Ok (take (Z.to_nat n) (drop (Z.to_nat location) l)).

Lemma owns_holds (h : heap) (d : CFData) (b : Z) (l : list Z) (c : block) : owns h d b l c -> holds h d l.
Proof. intros O. split; [apply (ow_length _ _ _ _ _ O)|]. intros. by eapply get_bytes_ok. Qed.

Lemma empty_holds (h : heap) (d : CFData) : d_length d = 0 -> holds h d [].
Proof. intros L. split; [done|]. intros location n H1 H2 H3. cbn in H3. replace n with 0 by lia. by rewrite drop_nil. Qed.

(** New blocks change nothing for the readers of the others. *)
Lemma holds_mono (h h' : heap) (d : CFData) (l : list Z) : h ⊆ h' -> holds h d l -> holds h' d l.
Proof.
  intros S [L H]. split; [done|]. intros location n H1 H2 H3. specialize (H location n H1 H2 H3). revert H. unfold CFDataGetBytes. destruct (n =? 0); [done|].
  destruct (deref _) as [p| | |]; try done. cbn [mbind result_bind]. unfold load_block. destruct (h !! p_block p) eqn:E; [|done]. by rewrite (lookup_weaken _ _ _ _ E S).
Qed.

Lemma holds_all (h : heap) (d : CFData) (l : list Z) : holds h d l -> CFDataGetBytes h d 0 (d_length d) = Ok l.
Proof. intros [L H]. rewrite L, H by lia. rewrite Nat2Z.id. cbn [Z.to_nat]. by rewrite drop_0, take_ge. Qed.

Lemma equal_ok (h : heap) (d1 d2 : CFData) (l1 l2 : list Z) : holds h d1 l1 -> holds h d2 l2 -> CFDataEqual h d1 d2 = Ok (bool_decide (l1 = l2)).
Proof.
  intros H1 H2. unfold CFDataEqual. destruct (Z.eqb_spec (d_length d1) (d_length d2)) as [E|E]; cbn [negb].
  - rewrite (holds_all _ _ _ H1). cbn [mbind result_bind]. by rewrite E, (holds_all _ _ _ H2).
  - rewrite bool_decide_false; [done|]. intros ->. apply E. by rewrite (proj1 H1), (proj1 H2).
Qed.

(** The unrolled loop of the hash is a left fold. *)
Lemma hash_bytes_fold (l : list Z) : forall H, CFHashBytes H l = foldl ELF_STEP H l.
Proof.
  induction l as [l IH] using (induction_ltof1 _ length). unfold ltof in IH. intros H. destruct l as [|a [|b [|c [|e l]]]]; try done.
  cbn [CFHashBytes foldl]. apply IH. cbn. lia.
Qed.

Lemma hash_ok (h : heap) (d : CFData) (l : list Z) : holds h d l -> CFDataHash h d = Ok (foldl ELF_STEP 0 (take 80 l)).
Proof.
  intros [L H]. unfold CFDataHash. rewrite L, H by lia. cbn [mbind result_bind]. rewrite hash_bytes_fold. do 2 f_equal. cbn [Z.to_nat]. rewrite drop_0.
  destruct (Z.min_spec (len l) 80) as [[M ->]|[M ->]]; [rewrite Nat2Z.id, !take_ge by lia|]; done.
Qed.

Lemma find_ok (h : heap) (d e : CFData) (l x : list Z) (location length : Z) (backwards anchored : bool) : holds h d l -> holds h e x ->
  CFDataFind h d e location length backwards anchored = CFDataFindBytes l x location length backwards anchored.
Proof. intros H1 H2. unfold CFDataFind. by rewrite (holds_all _ _ _ H1), (holds_all _ _ _ H2). Qed.

Section Run.

Context (malloc : heap -> Z) `{!MallocLaws malloc} (page_size : Z) (snow_leopard : bool).

(** ** Creation *)

(** The data before its first bytes are put in. *)
Lemma fresh_owns (h : heap) (n : Z) (z : bool) (d : CFData) : 0 <= n <= CFDATA_MAX_SIZE -> CFDataGetBytePtr d = Some (Ptr (malloc h) 0) -> d_length d = 0 -> d_capacity d = n ->
  (d_variety d = kCFMutable -> d_bytesInline d = false) -> d_bytesDeallocator d = None -> d_needsToZero d = negb z ->
  let c := replicate (Z.to_nat n) (if z then Some 0 else None) in owns (<[malloc h := c]> h) d (malloc h) [] c /\ clean d c.
Proof.
  intros Hn Hp Hl Hc Hv Hd Hz c. split; [split; try done; [by rewrite lookup_insert_eq|unfold c; rewrite length_replicate; cbn; lia|lia]|].
  intros N. rewrite Hz in N. destruct z; [|done]. by apply Forall_replicate.
Qed.

(** A data that is a copy of bytes, unless it is immutable and empty. *)
Lemma init_ok (h : heap) (ua : bool) (flags : variety) (capacity : Z) (q : option pointer) (src : list Z) : 0 <= capacity <= CFDATA_MAX_SIZE ->
  len src <= (if bool_decide (flags = kCFMutable) then CFDATA_MAX_SIZE else capacity) -> reads h q src -> flags <> kCFImmutable \/ src <> [] ->
  exists h' d b c, CFDataInit malloc page_size snow_leopard h ua flags capacity q (len src) None = Ok (h', d) /\ owns h' d b src c /\ clean d c /\
    delete b h' = h /\ d_variety d = flags /\ (flags <> kCFMutable -> d_capacity d = capacity).
Proof.
  intros Hc Hs Hr Hf. pose proof (malloc_fresh h : h !! malloc h = None) as Fs. assert (R1 : CFDataRoundUpCapacity 1 = 16) by done.
  set (g := bool_decide (flags = kCFMutable)) in *. set (n := if g then 16 else capacity). set (v := if g then kCFMutable else kCFFixedMutable).
  assert (Hn : 0 <= n <= CFDATA_MAX_SIZE) by (unfold n, CFDATA_MAX_SIZE in *; destruct g; lia).
  assert (Start : exists h1 d1 c1, CFDataInit malloc page_size snow_leopard h ua flags capacity q (len src) None =
      ('(h, memory) ← CFDataReplaceBytes malloc h1 d1 0 0 q (len src); Ok (h, set_variety flags memory)) /\
      owns h1 d1 (malloc h) [] c1 /\ clean d1 c1 /\ delete (malloc h) h1 = h /\ d_variety d1 = v /\ d_capacity d1 = n).
  { unfold CFDataInit. cbn [negb]. rewrite R1. fold g. replace (negb (bool_decide (flags = kCFImmutable)) && g) with g by (unfold g; by destruct flags). fold n v.
    rewrite andb_true_r. destruct (negb g && (u64 capacity <? INLINE_BYTES_THRESHOLD page_size)) eqn:I.
    - apply andb_true_iff in I as [G%negb_true_iff _]. unfold CFDataAllocate. rewrite G in *. cbn [p_block]. replace capacity with n by (unfold n; by rewrite G).
      assert (E : negb ((len src =? 0) && negb (negb (bool_decide (flags = kCFImmutable)))) = true).
      { destruct Hf as [Hf|Hf]; [rewrite bool_decide_false by done; cbn; by rewrite andb_false_r|]. rewrite (proj2 (Z.eqb_neq _ _)); [done|]. destruct src; [done|cbn; lia]. }
      rewrite E. destruct (fresh_owns h n true (mkData 0 n None None (malloc h) v true ua false)) as [O C]; try done; [unfold v; by rewrite G|].
      eexists _, _, _. split; [done|]. split; [exact O|]. split; [exact C|]. by rewrite delete_insert_id.
    - unfold CFDataAllocate. cbn [p_block]. set (z := negb (bool_decide (flags = kCFImmutable)) && negb g && negb snow_leopard).
      destruct (fresh_owns h n z (mkData 0 n None (Some (Ptr (malloc h) 0)) 0 v false ua (negb z))) as [O C]; try done.
      eexists _, _, _. split; [done|]. split; [exact O|]. split; [exact C|]. by rewrite delete_insert_id. }
  destruct Start as (h1 & d1 & c1 & -> & O1 & C1 & D1 & V1 & N1).
  destruct (replace_ok malloc h1 d1 (malloc h) [] [] [] src c1 q O1) as (h' & d' & b & c & E & O & D & (K1 & K2 & K3) & C).
  - rewrite V1. unfold v. by destruct g.
  - left. by rewrite D1.
  - rewrite app_nil_r. cbn [app]. unfold limit, CFDataIsGrowable. rewrite V1, N1. unfold v, n. by destruct g.
  - cbn [app length] in *. rewrite app_nil_r in O. change (Z.of_nat 0) with 0 in E. rewrite E. cbn [mbind result_bind]. exists h', (set_variety flags d'), b, c. split; [done|]. split.
    + destruct O as [P1 P2 P3 P4 P5 P6 P7]. split; try done. cbn. intros ->. apply P6. by rewrite K1, V1.
    + split; [apply C; [done|left; lia]|]. split; [by rewrite D|]. split; [done|]. intros F. cbn. destruct K3 as [K3|K3]; [|by rewrite K3, N1; unfold n, g; rewrite bool_decide_false].
      exfalso. rewrite V1 in K3. unfold v, g in K3. by rewrite bool_decide_false in K3.
Qed.

(** ** Sequences of operations *)

(** The bytes at the source pointer go with it. *)
Inductive operation : Type :=
  | Append (p : option pointer) (src : list Z)
  | Replace (location r : Z) (p : option pointer) (src : list Z)
  | Delete (location r : Z)
  | SetLength (n : Z)
  | Increase (n : Z).

Definition perform (h : heap) (d : CFData) (o : operation) : result (heap * CFData) :=
  match o with
  | Append p src => CFDataAppendBytes malloc h d p (len src)
  | Replace location r p src => CFDataReplaceBytes malloc h d location r p (len src)
  | Delete location r => CFDataDeleteBytes malloc h d location r
  | SetLength n => CFDataSetLength malloc h d n
  | Increase n => CFDataIncreaseLength malloc h d n
  end.

Fixpoint run (h : heap) (d : CFData) (l : list operation) : result (heap * CFData) :=
  match l with
  | [] => Ok (h, d)
  | o :: l => '(h, d) ← perform h d o; run h d l
  end.

(** The bytes after an operation, and whether a longer length shows zeros: a replacement
    that shortens the data leaves the old bytes behind the new end. *)
Definition means (s : list Z * bool) (o : operation) : list Z * bool :=
  let '(l, k) := s in
  match o with
  | Append _ src => (l ++ src, k)
  | Replace location r _ src => (take (Z.to_nat location) l ++ src ++ drop (Z.to_nat (location + r)) l, k && (r <=? len src))
  | Delete location r => (take (Z.to_nat location) l ++ drop (Z.to_nat (location + r)) l, k && (r =? 0))
  | SetLength n => (resized n l, true)
  | Increase n => (l ++ replicate (Z.to_nat n) 0, true)
  end.

(** What the caller promises: sources outside the data, ranges inside it, lengths that
    fit. *)
Definition allowed (h : heap) (bound : Z) (s : list Z * bool) (o : operation) : Prop :=
  let '(l, k) := s in
  match o with
  | Append p src => reads h p src /\ len l + len src <= bound
  | Replace location r p src => reads h p src /\ 0 <= location /\ 0 <= r /\ location + r <= len l /\ len l - r + len src <= bound
  | Delete location r => 0 <= location /\ 0 <= r /\ location + r <= len l
  | SetLength n => 0 <= n <= bound /\ (n < len l \/ k = true)
  | Increase n => 0 <= n /\ len l + n <= bound /\ k = true
  end.

Fixpoint all_allowed (h : heap) (bound : Z) (s : list Z * bool) (l : list operation) : Prop :=
  match l with
  | [] => True
  | o :: l => allowed h bound s o /\ all_allowed h bound (means s o) l
  end.

(** The invariant: the data holds the bytes in its block and the rest of the heap is [h0]. *)
Definition represents (h0 : heap) (bound : Z) (h : heap) (d : CFData) (s : list Z * bool) : Prop :=
  exists b c, owns h d b (fst s) c /\ (snd s = true -> clean d c) /\ delete b h = h0 /\ d_variety d <> kCFImmutable /\ limit d = bound.

Lemma same_kind_limit (d d' : CFData) : same_kind d d' -> limit d' = limit d.
Proof. intros (V & _ & C). unfold limit, CFDataIsGrowable. rewrite V. destruct C as [C|C]; [by rewrite C|by rewrite C]. Qed.

Lemma becomes_represents (h : heap) (d : CFData) (b : Z) (R : result (heap * CFData)) (l : list Z) (Q : CFData -> block -> Prop) (k : bool) : d_variety d <> kCFImmutable ->
  becomes h d b R l Q -> (k = true -> forall d' c', Q d' c' -> clean d' c') ->
  exists h' d', R = Ok (h', d') /\ represents (delete b h) (limit d) h' d' (l, k).
Proof.
  intros V (h' & d' & b' & c' & E & O & D & K & HQ) Hk. exists h', d'. split; [done|]. exists b', c'. split; [done|]. split; [intros Hk'; by eapply Hk|].
  split; [done|]. split; [by rewrite (proj1 K)|by apply same_kind_limit].
Qed.

(** Replacing by position. *)
Lemma replace_represents (h0 h : heap) (bound : Z) (d : CFData) (l src : list Z) (k : bool) (location r : Z) (p : option pointer) : represents h0 bound h d (l, k) ->
  reads h0 p src -> 0 <= location -> 0 <= r -> location + r <= len l -> len l - r + len src <= bound ->
  exists h' d', CFDataReplaceBytes malloc h d location r p (len src) = Ok (h', d') /\
    represents h0 bound h' d' (take (Z.to_nat location) l ++ src ++ drop (Z.to_nat (location + r)) l, k && (r <=? len src)).
Proof.
  intros (b & c & O & C & <- & V & <-) Hp Hl Hr Hn Hb. cbn [fst snd] in *. set (l1 := take (Z.to_nat location) l). set (l3 := drop (Z.to_nat (location + r)) l).
  set (l2 := take (Z.to_nat r) (drop (Z.to_nat location) l)).
  assert (E1 : len l1 = location) by (unfold l1; rewrite length_take; lia). assert (E2 : len l2 = r) by (unfold l2; rewrite length_take, length_drop; lia).
  assert (E3 : len l3 = len l - location - r) by (unfold l3; rewrite length_drop; lia).
  assert (E : l = l1 ++ l2 ++ l3).
  { unfold l1, l2, l3. replace (Z.to_nat (location + r)) with (Z.to_nat location + Z.to_nat r)%nat by lia. by rewrite <- drop_drop, !take_drop. }
  rewrite E in O. rewrite <- E1, <- E2.
  eapply becomes_represents; [done|eapply (replace_ok malloc); [exact O|done|by left|rewrite !length_app; lia]|].
  cbn beta. intros [Hk Hle]%andb_true_iff d' c' HQ. apply Z.leb_le in Hle. apply HQ; [by apply C|by left].
Qed.

Lemma set_length_represents (h0 h : heap) (bound : Z) (d : CFData) (l : list Z) (k : bool) (n : Z) : represents h0 bound h d (l, k) -> 0 <= n <= bound -> n < len l \/ k = true ->
  exists h' d', CFDataSetLength malloc h d n = Ok (h', d') /\ represents h0 bound h' d' (resized n l, true).
Proof.
  intros (b & c & O & C & <- & V & <-) Hn Hk. cbn [fst snd] in *. eapply becomes_represents; [done|apply (set_length_ok malloc h d b l c n O V Hn)|done].
  destruct Hk; auto.
Qed.

Lemma represents_length (h0 h : heap) (bound : Z) (d : CFData) (l : list Z) (k : bool) : represents h0 bound h d (l, k) -> d_length d = len l /\ len l <= CFDATA_MAX_SIZE.
Proof. intros (b & c & O & _). pose proof (ow_length _ _ _ _ _ O). pose proof (ow_capacity _ _ _ _ _ O). pose proof (ow_max _ _ _ _ _ O). cbn [fst] in *. split; [done|lia]. Qed.

Lemma represents_bound (h0 h : heap) (bound : Z) (d : CFData) (l : list Z) (k : bool) : represents h0 bound h d (l, k) -> len l <= bound <= CFDATA_MAX_SIZE.
Proof.
  intros (b & c & O & _ & _ & _ & <-). pose proof (ow_capacity _ _ _ _ _ O). pose proof (ow_max _ _ _ _ _ O). unfold limit. cbn [fst] in *. case_match; lia.
Qed.

Lemma perform_means (h0 h : heap) (bound : Z) (d : CFData) (s : list Z * bool) (o : operation) : represents h0 bound h d s -> allowed h0 bound s o ->
  exists h' d', perform h d o = Ok (h', d') /\ represents h0 bound h' d' (means s o).
Proof.
  destruct s as [l k]. intros R A. destruct (represents_length _ _ _ _ _ _ R) as [L M]. pose proof (represents_bound _ _ _ _ _ _ R) as B. destruct o as [p src|location r p src|location r|n|n]; cbn [perform means allowed] in *.
  - destruct A as [A1 A2]. destruct (replace_represents h0 h bound d l src k (len l) 0 p R A1) as (h' & d' & E & R'); [lia|lia|lia|lia|].
    unfold CFDataAppendBytes. rewrite L. exists h', d'. split; [done|]. rewrite take_ge, drop_ge, app_nil_r, (proj2 (Z.leb_le 0 _)), andb_true_r in R' by lia. done.
  - destruct A as (A1 & A2 & A3 & A4 & A5). by apply replace_represents.
  - destruct A as (A1 & A2 & A3). destruct (replace_represents h0 h bound d l [] k location r None R) as (h' & d' & E & R'); [by left|done|done|done|cbn; lia|].
    exists h', d'. split; [done|]. cbn [app length] in R'. replace (r <=? Z.of_nat 0) with (r =? 0) in R'; [done|]. destruct (Z.eqb_spec r 0), (Z.leb_spec r (Z.of_nat 0)); lia.
  - destruct A as [A1 A2]. by apply (set_length_represents h0 h bound d l k).
  - destruct A as (A1 & A2 & ->). unfold CFDataIncreaseLength, CFDATA_MAX_SIZE in *. rewrite (proj2 (Z.ltb_ge n 0)) by lia. rewrite L, swrap_small by (unfold in_s; lia).
    destruct (set_length_represents h0 h bound d l true (len l + n) R) as (h' & d' & E & R'); [lia|by right|]. exists h', d'. split; [done|].
    unfold resized in R'. rewrite take_ge in R' by lia. by replace (Z.to_nat (len l + n) - length l)%nat with (Z.to_nat n) in R' by lia.
Qed.

Lemma run_means (h0 : heap) (bound : Z) (l : list operation) : forall h d s, represents h0 bound h d s -> all_allowed h0 bound s l ->
  exists h' d', run h d l = Ok (h', d') /\ represents h0 bound h' d' (foldl means s l).
Proof.
  induction l as [|o l IH]; intros h d s R A; [by exists h, d|]. destruct A as [A1 A2]. destruct (perform_means h0 h bound d s o R A1) as (h1 & d1 & E & R1).
  cbn [run]. rewrite E. by apply IH.
Qed.

(** An immutable copy of bytes. *)
Lemma create_immutable_ok (h : heap) (ua : bool) (q : option pointer) (src : list Z) : len src <= CFDATA_MAX_SIZE -> reads h q src ->
  exists h' d, CFDataInit malloc page_size snow_leopard h ua kCFImmutable (len src) q (len src) None = Ok (h', d) /\
    holds h' d src /\ reads h' (CFDataGetBytePtr d) src /\ h ⊆ h' /\ d_variety d = kCFImmutable.
Proof.
  intros Hs Hq. destruct src as [|a src].
  - pose proof (malloc_fresh h : h !! malloc h = None) as Fs. unfold CFDataInit, CFDataAllocate. cbn [length]. change (Z.of_nat 0) with 0. change (u64 0) with 0.
    change (bool_decide (kCFImmutable = kCFImmutable)) with true. change (bool_decide (kCFImmutable = kCFMutable)) with false. cbn [negb andb].
    destruct (0 <? INLINE_BYTES_THRESHOLD page_size); cbn; (eexists _, _; split; [done|]; split; [by apply empty_holds|]; split; [by left|]; split; [by apply insert_subseteq|done]).
  - destruct (init_ok h ua kCFImmutable (len (a :: src)) q (a :: src)) as (h' & d & b & c & E & O & _ & D & V & _); [lia|by rewrite bool_decide_false|done|by right|].
    exists h', d. split; [done|]. split; [by eapply owns_holds|]. split; [|split; [rewrite <- D; apply delete_subseteq|done]].
    right. eexists (Ptr b 0), _. split; [apply (ow_ptr _ _ _ _ _ O)|]. split; [apply (ow_block _ _ _ _ _ O)|]. split; [done|]. cbn [p_offset Z.to_nat]. rewrite drop_0.
    rewrite <- (length_fmap Some). apply take_app_length.
Qed.

Lemma create_mutable_ok (h : heap) (ua : bool) (capacity : Z) : 0 <= capacity <= CFDATA_MAX_SIZE ->
  exists h' d, CFDataCreateMutable malloc page_size snow_leopard h ua capacity = Ok (h', d) /\ represents h (if capacity =? 0 then CFDATA_MAX_SIZE else capacity) h' d ([], true).
Proof.
  intros Hc. unfold CFDataCreateMutable. set (v := if capacity =? 0 then kCFMutable else kCFFixedMutable).
  destruct (init_ok h ua v capacity None []) as (h' & d & b & c & E & O & C & D & V & K); [done|unfold v, CFDATA_MAX_SIZE in *; cbn; case_match; lia|by left|left; unfold v; by case_match|].
  exists h', d. split; [done|]. exists b, c. split; [done|]. split; [done|]. split; [done|]. split; [rewrite V; unfold v; by case_match|].
  unfold limit, CFDataIsGrowable. rewrite V. unfold v in *. destruct (capacity =? 0); [done|]. by apply K.
Qed.

(** The block of a data that is deallocated is free: the data frees it, or it is part of
    the object. *)
Lemma deallocate_ok (h : heap) (d : CFData) (b : Z) (l : list Z) (c : block) : owns h d b l c ->
  exists h' d', CFDataDeallocate h d = Ok (h', d') /\ (if d_bytesInline d then delete (d_inlineBytes d) h' else h') = delete b h.
Proof.
  intros O. pose proof (ow_ptr _ _ _ _ _ O) as P. unfold CFDataDeallocate, CFDataGetBytePtr in *. destruct (d_bytesInline d).
  - injection P as ->. by exists h, d.
  - rewrite (ow_own _ _ _ _ _ O), P. cbn [free p_block p_offset]. rewrite (load_ok _ _ _ (ow_block _ _ _ _ _ O)). cbn [mbind result_bind]. rewrite Z.eqb_refl.
    by eexists _, _.
Qed.

(** C19. A mutable data that is created, fixed or growable, and goes through any sequence of appends,
    replacements, deletions and changes of length with ranges inside it and sources outside it, and with
    lengths that stay within the capacity of a fixed data or the greatest size of a growable one, holds
    the bytes that the same operations on a list give, whatever moves and reallocations they need; its
    deallocation leaves the heap as it was before. Lengths grow by zeros as long as no replacement has
    shortened the data since the last change of length. *)
Theorem data_run_refines (h : heap) (ua : bool) (capacity : Z) (ops : list operation) (l : list Z) (k : bool) : 0 <= capacity <= CFDATA_MAX_SIZE ->
  all_allowed h (if capacity =? 0 then CFDATA_MAX_SIZE else capacity) ([], true) ops -> foldl means ([], true) ops = (l, k) ->
  exists h1 d1 h2 d2, CFDataCreateMutable malloc page_size snow_leopard h ua capacity = Ok (h1, d1) /\ run h1 d1 ops = Ok (h2, d2) /\ holds h2 d2 l /\
    exists h3 d3, CFDataDeallocate h2 d2 = Ok (h3, d3) /\ (if d_bytesInline d2 then delete (d_inlineBytes d2) h3 else h3) = h.
Proof.
  intros Hc A M. destruct (create_mutable_ok h ua capacity Hc) as (h1 & d1 & E1 & R1). destruct (run_means _ _ ops _ _ _ R1 A) as (h2 & d2 & E2 & R2). rewrite M in R2.
  destruct R2 as (b & c & O & _ & D & _). exists h1, d1, h2, d2. split; [done|]. split; [done|]. split; [by eapply owns_holds|]. rewrite <- D. by eapply deallocate_ok.
Qed.

Theorem created_copy_equal (h : heap) (ua : bool) (q : option pointer) (src : list Z) : len src <= CFDATA_MAX_SIZE -> reads h q src ->
  exists h1 d1 h2 d2, CFDataCreate malloc page_size snow_leopard h ua q (len src) = Ok (h1, d1) /\ CFDataCreateCopy malloc page_size snow_leopard h1 ua d1 = Ok (h2, d2) /\
    holds h2 d1 src /\ holds h2 d2 src /\ CFDataEqual h2 d1 d2 = Ok true /\
    CFDataHash h2 d1 = Ok (foldl ELF_STEP 0 (take 80 src)) /\ CFDataHash h2 d2 = Ok (foldl ELF_STEP 0 (take 80 src)).
Proof.
  intros Hs Hq. destruct (create_immutable_ok h ua q src Hs Hq) as (h1 & d1 & E1 & H1 & Q1 & _ & _). destruct (create_immutable_ok h1 ua _ src Hs Q1) as (h2 & d2 & E2 & H2 & _ & S2 & _).
  apply (holds_mono _ h2) in H1; [|done]. exists h1, d1, h2, d2. split; [done|]. split; [unfold CFDataCreateCopy; by rewrite (proj1 H1)|]. split; [done|]. split; [done|].
  split; [rewrite (equal_ok _ _ _ _ _ H1 H2); by rewrite bool_decide_true|]. split; by apply hash_ok.
Qed.

End Run.

(** C20. For bytes sought of fewer than 2^31 and a range inside the data, CFDataFind, a search by the
    two tables of Boyer and Moore, forwards or backwards and anchored or not, terminates and returns
    exactly what trying every position of the range would: the first or the last occurrence of the
    bytes, or kCFNotFound; no index leaves a table. *)
Theorem data_find_reference (h : heap) (d e : CFData) (l x : list Z) (location length : Z) (backwards anchored : bool) : holds h d l -> holds h e x -> bytes l -> bytes x ->
  len x < 2 ^ 31 -> len l < 2 ^ 63 -> 0 <= location -> 0 <= length -> location + length <= len l ->
  CFDataFind h d e location length backwards anchored = Ok (reference_find l x location length backwards anchored).
Proof. intros H1 H2 B1 B2 ? ? ? ? ?. rewrite (find_ok _ _ _ _ _ _ _ _ _ H1 H2). by apply find_bytes_reference. Qed.

(** ** Examples *)

(** An allocator: the address behind the last block. *)
Definition next_address (h : heap) : Z := 1 + foldr Z.max 0 (fst <$> map_to_list h).

Lemma foldr_max (l : list Z) (a : Z) : a ∈ l -> a <= foldr Z.max 0 l.
Proof.
  induction l as [|b l IH]; intros H; [by apply not_elem_of_nil in H|]. cbn. apply elem_of_cons in H as [->|H]; [lia|]. specialize (IH H). lia.
Qed.

#[export] Instance next_address_laws : MallocLaws next_address.
Proof.
  intros h. destruct (h !! next_address h) eqn:E; [|done]. exfalso. assert (H : next_address h ∈ (fst <$> map_to_list h)).
  { apply list_elem_of_fmap. eexists (_, _). split; [done|]. by apply elem_of_map_to_list. }
  apply foldr_max in H. unfold next_address in H at 1. lia.
Qed.

(** A heap with the bytes of a caller. *)
Definition caller : heap := {[ 1 := Some <$> [1; 2; 1; 2; 3]; 2 := Some <$> [1; 2; 3] ]}.
Definition view (b n : Z) : CFData := mkData n n None (Some (Ptr b 0)) 0 kCFImmutable false false false.

Lemma caller_reads (b : Z) (l : list Z) : caller !! b = Some (Some <$> l) -> reads caller (Some (Ptr b 0)) l.
Proof. intros H. right. eexists _, _. split; [done|]. split; [exact H|]. split; [done|]. cbn. rewrite drop_0, take_ge; [done|by rewrite length_fmap]. Qed.

Lemma caller_holds (b : Z) (l : list Z) : caller !! b = Some (Some <$> l) -> len l <= CFDATA_MAX_SIZE -> holds caller (view b (len l)) l.
Proof. intros H M. apply (owns_holds _ _ b l []). split; try done; [by rewrite app_nil_r|cbn; lia]. Qed.

Lemma data_run_witness : exists h1 d1 h2 d2, CFDataCreateMutable next_address 4096 true caller false 0 = Ok (h1, d1) /\
  run next_address h1 d1 [Append (Some (Ptr 1 0)) [1; 2; 1; 2; 3]; SetLength 20; Replace 1 2 (Some (Ptr 2 0)) [1; 2; 3]; Delete 6 15] = Ok (h2, d2) /\ holds h2 d2 [1; 1; 2; 3; 2; 3] /\
  exists h3 d3, CFDataDeallocate h2 d2 = Ok (h3, d3) /\ (if d_bytesInline d2 then delete (d_inlineBytes d2) h3 else h3) = caller.
Proof.
  apply (data_run_refines next_address 4096 true caller false 0 _ _ false); [unfold CFDATA_MAX_SIZE; lia| |vm_compute; reflexivity].
  cbn [Z.eqb]. split; [split; [by apply caller_reads|by vm_compute]|]. split; [split; [by vm_compute|by right]|].
  split; [split; [by apply caller_reads|vm_compute; repeat split; discriminate]|]. split; [vm_compute; repeat split; discriminate|done].
Defined.

Lemma created_copy_witness : exists h1 d1 h2 d2, CFDataCreate next_address 4096 true caller false (Some (Ptr 1 0)) 5 = Ok (h1, d1) /\
  CFDataCreateCopy next_address 4096 true h1 false d1 = Ok (h2, d2) /\ holds h2 d1 [1; 2; 1; 2; 3] /\ holds h2 d2 [1; 2; 1; 2; 3] /\ CFDataEqual h2 d1 d2 = Ok true /\
  CFDataHash h2 d1 = Ok 74019 /\ CFDataHash h2 d2 = Ok 74019.
Proof. apply (created_copy_equal next_address 4096 true caller false (Some (Ptr 1 0)) [1; 2; 1; 2; 3]); [unfold CFDATA_MAX_SIZE; cbn; lia|by apply caller_reads]. Defined.

Lemma data_find_witness : CFDataFind caller (view 1 5) (view 2 3) 0 5 false false = Ok (2, 3).
Proof.
  apply (data_find_reference caller (view 1 5) (view 2 3) [1; 2; 1; 2; 3] [1; 2; 3] 0 5 false false); try (cbn; lia);
    [by apply (caller_holds 1 [1; 2; 1; 2; 3])|by apply (caller_holds 2 [1; 2; 3])|repeat constructor; lia|repeat constructor; lia].
Defined.

End DataRun.
