(* ===== verification/DataDefects.v ===== *)
(** * CFData.c: what the list of bytes does not predict

    Three computations outside the conditions of [data_run_refines], each on a concrete
    heap: bytes that come back when a shortened data is made longer, bytes of the data itself
    inserted into it, and a length beyond a fixed capacity. *)

From stdpp Require Import base list numbers option gmap.
From Stdlib Require Import ZArith Lia.
From S2P Require Import Prelude DataSearch Data DataOps DataRun.
Import DataSearch Data DataOps DataRun.

Module DataDefects.

(** Creation with a capacity, operations, then the bytes. *)
Definition session (capacity : Z) (ops : list operation) : result (list Z) :=
  '(h, d) ← CFDataCreateMutable next_address 4096 true caller false capacity;
  '(h, d) ← run next_address h d ops;
  CFDataGetBytes h d 0 (d_length d).

(** Deleting does not mark the bytes behind the end as not zero, as CFDataSetLength does
    when it shortens the data: the deleted bytes come back. *)
Example deleted_bytes_return :
  session 16 [Append (Some (Ptr 1 0)) [1; 2; 1; 2; 3]; Delete 0 5; SetLength 5] = Ok [1; 2; 1; 2; 3] /\
  session 16 [Append (Some (Ptr 1 0)) [1; 2; 1; 2; 3]; SetLength 0; SetLength 5] = Ok [0; 0; 0; 0; 0].
Proof. vm_compute. done. Qed.

(** The data's own block is the first one behind the caller's, and its bytes 3 and 4 are
    inserted in front of it.  With room in the block the source has been moved when it is
    read; a source that overlaps is copied only when the data has to grow, and then the
    bytes are right. *)
Example own_bytes_inserted :
  let bytes := [1; 2; 1; 2; 3] in let add := Append (Some (Ptr 1 0)) bytes in
  session 0 [add; Replace 0 0 (Some (Ptr 3 3)) [2; 3]] = Ok ([2; 1] ++ bytes) /\
  session 0 [add; add; add; Replace 0 0 (Some (Ptr 3 3)) [2; 3]] = Ok ([2; 3] ++ bytes ++ bytes ++ bytes).
Proof. vm_compute. done. Qed.

(** The length of a fixed data is set beyond its capacity, and reading runs out of the
    block. *)
Example length_beyond_capacity :
  (exists h1 d1 d2, CFDataCreateMutable next_address 4096 true caller false 4 = Ok (h1, d1) /\ CFDataSetLength next_address h1 d1 5 = Ok (h1, d2) /\
     d_length d2 = 5 /\ d_capacity d2 = 4 /\ CFDataGetBytes h1 d2 0 5 = Undef).
Proof. eexists _, _, _. split; [vm_compute; reflexivity|]. split; [vm_compute; reflexivity|]. vm_compute. done. Qed.

End DataDefects.
