(* ===== verification/RunLoop.v ===== *)
(** * CFRunLoop.c: run loops, modes, and the objects registered in them

    The world of the model is a store: the run loops, the sources, the observers
    and the timers, each by its address.  A mode is found in its run loop by its
    name; the pointer [_currentMode] is that name.  Callouts (the user's functions)
    are a parameter, a function from the world to the world; each one is also
    appended to the log of the world.  Clocks are fields of the world, which only
    callouts and waits change.  Times are whole seconds, and the conversion of an
    interval to ticks is a parameter.  A mode name is its characters: a string equal to
    the constant kCFRunLoopCommonModes is taken for it, wherever it is.  Locks are not
    modelled. *)

From stdpp Require Import base list numbers option strings gmap gmultiset sorting.
From Stdlib Require Import ZArith Lia.
From S2P Require Import Prelude Array.

Module RunLoop.

Definition kCFRunLoopEntry : Z := 1.
Definition kCFRunLoopBeforeTimers : Z := 2.
Definition kCFRunLoopBeforeSources : Z := 4.
Definition kCFRunLoopBeforeWaiting : Z := 32.
Definition kCFRunLoopAfterWaiting : Z := 64.
Definition kCFRunLoopExit : Z := 128.

Definition kCFRunLoopDefaultMode : string := "kCFRunLoopDefaultMode".
Definition kCFRunLoopCommonModes : string := "kCFRunLoopCommonModes".

Definition TIMER_DATE_LIMIT : Z := 4039289856.
Definition TIMER_INTERVAL_LIMIT : Z := 504911232.
Definition UINT64_MAX : Z := 2 ^ 64 - 1.
Definition LLONG_MAX : Z := 2 ^ 63 - 1.

(** A member of [_commonModeItems]; the constructor is what CFGetTypeID tells. *)
Inductive item : Type :=
| ISource (s : Z)
| IObserver (o : Z)
| ITimer (t : Z).

#[export] Instance item_eq_dec : EqDecision item.
Proof. solve_decision. Defined.

#[export] Instance item_countable : Countable item.
Proof.
  refine (inj_countable' (fun i => match i with ISource s => (0%nat, s) | IObserver o => (1%nat, o) | ITimer t => (2%nat, t) end)
    (fun p => match p with (0%nat, s) => ISource s | (1%nat, o) => IObserver o | (_, t) => ITimer t end) _).
  by intros [].
Defined.

(** [struct __CFRunLoopSource]; the port is what the version 1 context's getPort
    returns, and the booleans say whether the version 0 context has the callback. *)
Record source : Type := mkSource {
  s_valid : bool;
  s_signaled : bool;
  s_order : Z;
  s_version : Z;
  s_runLoops : option (gmultiset Z);
  s_schedule : bool;
  s_cancel : bool;
  s_perform : bool;
  s_port : Z
}.

(** [struct __CFRunLoopObserver]. *)
Record observer : Type := mkObserver {
  o_valid : bool;
  o_firing : bool;
  o_repeats : bool;
  o_runLoop : option Z;
  o_rlCount : Z;
  o_activities : Z;
  o_order : Z;
  o_release : bool
}.

(** [struct __CFRunLoopTimer]. *)
Record timer : Type := mkTimer {
  t_valid : bool;
  t_firing : bool;
  t_runLoop : option Z;
  t_rlModes : gset string;
  t_nextFireDate : Z;
  t_interval : Z;
  t_tolerance : Z;
  t_fireTSR : Z;
  t_order : Z;
  t_retain : bool;
  t_release : bool
}.

(** The dispatch timer and the kernel timer of a mode, as they are armed. *)
Record armed : Type := mkArmed {
  a_dispatch : option (Z * Z);
  a_dispatchTimerArmed : bool;
  a_mk : option Z;
  a_mkTimerArmed : bool
}.

(** [struct __CFRunLoopMode]; [None] is a NULL collection. *)
Record mode : Type := mkMode {
  m_stopped : bool;
  m_sources0 : option (gset Z);
  m_sources1 : option (gset Z);
  m_observers : option (list Z);
  m_timers : option (list Z);
  m_portToV1SourceMap : option (gmap Z Z);
  m_portSet : gset Z;
  m_observerMask : Z;
  m_timerSoftDeadline : Z;
  m_timerHardDeadline : Z;
  m_timerFired : bool;
  m_queuePort : Z;
  m_timerPort : Z;
  m_armed : armed
}.

(** [struct _block_item]: the mode is a name or a set of names. *)
Inductive block_mode : Type :=
| BString (name : string)
| BSet (names : gset string).

Record block_item : Type := mkBlock {
  b_mode : block_mode;
  b_block : Z
}.

Record per_run_data : Type := mkPerRun {
  p_stopped : bool;
  p_ignoreWakeUps : bool
}.

(** [struct __CFRunLoop]; [rl_wakePending] is the message waiting at the wake-up
    port, whose queue holds one. *)
Record CFRunLoop : Type := mkLoop {
  rl_wakeUpPort : Z;
  rl_perRunData : per_run_data;
  rl_commonModes : gset string;
  rl_commonModeItems : option (gset item);
  rl_currentMode : option string;
  rl_modes : gmap string mode;
  rl_blocks : list block_item;
  rl_sleeping : bool;
  rl_deallocating : bool;
  rl_wakePending : bool
}.

(** Calls of the user's functions. *)
Inductive callout : Type :=
| CallObserver (o activity : Z)
| CallTimer (t : Z)
| CallSource0 (s : Z)
| CallSource1 (s : Z)
| CallBlock (b : Z)
| CallSchedule (s rl : Z) (name : string)
| CallCancel (s rl : Z) (name : string)
| CallReleaseObserver (o : Z)
| CallRetainTimer (t : Z)
| CallReleaseTimer (t : Z)
| CallMainQueue.

Record world : Type := mkWorld {
  w_loops : gmap Z CFRunLoop;
  w_sources : gmap Z source;
  w_observers : gmap Z observer;
  w_timers : gmap Z timer;
  w_tsr : Z;
  w_date : Z;
  w_log : list callout
}.

(** ** Field updates *)

Definition upd_loops (f : gmap Z CFRunLoop -> gmap Z CFRunLoop) (w : world) : world :=
  mkWorld (f (w_loops w)) (w_sources w) (w_observers w) (w_timers w) (w_tsr w) (w_date w) (w_log w).
Definition upd_source (s : Z) (f : source -> source) (w : world) : world :=
  mkWorld (w_loops w) (alter f s (w_sources w)) (w_observers w) (w_timers w) (w_tsr w) (w_date w) (w_log w).
Definition upd_observer (o : Z) (f : observer -> observer) (w : world) : world :=
  mkWorld (w_loops w) (w_sources w) (alter f o (w_observers w)) (w_timers w) (w_tsr w) (w_date w) (w_log w).
Definition upd_timer (t : Z) (f : timer -> timer) (w : world) : world :=
  mkWorld (w_loops w) (w_sources w) (w_observers w) (alter f t (w_timers w)) (w_tsr w) (w_date w) (w_log w).
Definition upd_log (c : callout) (w : world) : world :=
  mkWorld (w_loops w) (w_sources w) (w_observers w) (w_timers w) (w_tsr w) (w_date w) (w_log w ++ [c]).

Definition upd_loop (rl : Z) (f : CFRunLoop -> CFRunLoop) : world -> world := upd_loops (alter f rl).

Definition set_modes (f : gmap string mode -> gmap string mode) (r : CFRunLoop) : CFRunLoop :=
  mkLoop (rl_wakeUpPort r) (rl_perRunData r) (rl_commonModes r) (rl_commonModeItems r) (rl_currentMode r)
    (f (rl_modes r)) (rl_blocks r) (rl_sleeping r) (rl_deallocating r) (rl_wakePending r).

Definition upd_mode (rl : Z) (name : string) (f : mode -> mode) : world -> world :=
  upd_loop rl (set_modes (alter f name)).

Definition set_timers (l : list Z) (m : mode) : mode :=
  mkMode (m_stopped m) (m_sources0 m) (m_sources1 m) (m_observers m) (Some l) (m_portToV1SourceMap m)
    (m_portSet m) (m_observerMask m) (m_timerSoftDeadline m) (m_timerHardDeadline m) (m_timerFired m)
    (m_queuePort m) (m_timerPort m) (m_armed m).

Definition set_deadlines (soft hard : Z) (a : armed) (m : mode) : mode :=
  mkMode (m_stopped m) (m_sources0 m) (m_sources1 m) (m_observers m) (m_timers m) (m_portToV1SourceMap m)
    (m_portSet m) (m_observerMask m) soft hard (m_timerFired m) (m_queuePort m) (m_timerPort m) a.

Definition set_fire (tsr date : Z) (t : timer) : timer :=
  mkTimer (t_valid t) (t_firing t) (t_runLoop t) (t_rlModes t) date (t_interval t) (t_tolerance t) tsr
    (t_order t) (t_retain t) (t_release t).

Definition set_timer_loop (rl : option Z) (names : gset string) (t : timer) : timer :=
  mkTimer (t_valid t) (t_firing t) rl names (t_nextFireDate t) (t_interval t) (t_tolerance t) (t_fireTSR t)
    (t_order t) (t_retain t) (t_release t).

(** ** The timer array of a mode *)

Definition CFArrayGetFirstIndexOfValue (array : list Z) (value : Z) : option nat :=
  fst <$> list_find (fun x => x = value) array.

Section TimerArray.
(** [fire t] reads [t->_fireTSR]. *)
Variable fire : Z -> Z.

Fixpoint insertion_loop (fuel : nat) (array : list Z) (cnt add idx x : Z) : result (Z * bool) :=
  match fuel with
  | O => NoFuel
  | S fuel =>
    let add := Z.quot add 2 in
    let testIdx := idx + add in
    '(idx, lastTestLEQ) ←
      (if testIdx <? cnt then
         it ← aget array testIdx;
         Ok (if fire it <=? x then (testIdx, true) else (idx, false))
       else Ok (idx, false));
    if 0 <? add then insertion_loop fuel array cnt add idx x else Ok (idx, lastTestLEQ)
  end.

(** The shift and the product are [int] operations: undefined from 2^31 on. *)
Definition CFRunLoopInsertionIndexInTimerArray (array : list Z) (rlt : Z) : result Z :=
  let cnt := Z.of_nat (length array) in
  if cnt <=? 0 then Ok 0 else
  early ←
    (if 256 <? cnt then
       it ← aget array (cnt - 1);
       if fire it <=? fire rlt then Ok (Some cnt)
       else it ← aget array 0; Ok (if fire rlt <? fire it then Some 0 else None)
     else Ok None);
  match early with
  | Some idx => Ok idx
  | None =>
    if 30 <=? flsl cnt then Undef
    else
      '(idx, lastTestLEQ) ← insertion_loop 66 array cnt (Z.shiftl 1 (flsl cnt) * 2) 0 (fire rlt);
      Ok (if (lastTestLEQ : bool) then idx + 1 else idx)
  end.

End TimerArray.

(** ** What the run loop takes from outside

    The user's callouts; the clock conversions of CFDate.c, which depend on the
    tick rate of the machine; the ports the kernel and libdispatch allocate for a
    new mode; the enumeration orders of CFSet and CFBag, on which the code does not
    rely; the addresses in kCFTypeArrayCallBacks and the words of a block that malloc
    has just returned, for the array of sources that Array.v sorts. *)
Class Env : Type := {
  user : callout -> world -> world;
  CFTimeIntervalToTSR : Z -> Z;
  CFTSRToNanoseconds : Z -> Z;
  CFTSRToDispatchTime : Z -> Z;
  CFTimeIntervalUntilTSR : Z -> Z -> Z;
  new_queue_port : Z -> string -> Z;
  new_timer_port : Z -> string -> Z;
  set_names : gset string -> list string;
  set_items : gset item -> list item;
  set_ids : gset Z -> list Z;
  bag_ids : gmultiset Z -> list Z;
  kCFTypeArrayCallBacks : Array.CFArrayCallBacks;
  fresh_words : Z -> list Z
}.

Class EnvLaws (E : Env) : Prop := {
  set_names_perm : forall X, set_names X ≡ₚ elements X;
  set_items_perm : forall X, set_items X ≡ₚ elements X;
  set_ids_perm : forall X, set_ids X ≡ₚ elements X;
  bag_ids_perm : forall X, bag_ids X ≡ₚ elements X;
  fresh_words_length : forall n, 0 <= n -> Z.of_nat (length (fresh_words n)) = n;
  interval_ticks : forall i, 0 <= CFTimeIntervalToTSR i < 2 ^ 64;
  fresh_ports : forall rl name, new_queue_port rl name <> 0 /\ new_timer_port rl name <> 0
}.

Section Registration.
Context `{E : Env}.

Definition call (c : callout) (w : world) : world := user c (upd_log c w).

(** [t->_fireTSR], for an address that is a timer. *)
Definition fire_of (w : world) (t : Z) : Z := default 0 (t_fireTSR <$> w_timers w !! t).

(** ** Modes *)

Definition find_mode (w : world) (rl : Z) (name : string) : option mode :=
  r ← w_loops w !! rl; rl_modes r !! name.

Definition new_mode (rl : Z) (name : string) (wakeUpPort : Z) : mode :=
  mkMode false None None None None None
    {[new_queue_port rl name; new_timer_port rl name; wakeUpPort]} 0 UINT64_MAX UINT64_MAX false
    (new_queue_port rl name) (new_timer_port rl name) (mkArmed None false None false).

(** [__CFRunLoopFindMode(rl, name, true)]: afterwards the mode is there. *)
Definition CFRunLoopFindMode_create (w : world) (rl : Z) (name : string) : world :=
  match w_loops w !! rl with
  | None => w
  | Some r =>
    match rl_modes r !! name with
    | Some _ => w
    | None => upd_loop rl (set_modes (insert name (new_mode rl name (rl_wakeUpPort r)))) w
    end
  end.

Definition block_matches (commonModes : gset string) (m : block_mode) (curMode : string) : bool :=
  match m with
  | BString n =>
    bool_decide (n = curMode) || (bool_decide (n = kCFRunLoopCommonModes) && bool_decide (curMode ∈ commonModes))
  | BSet ns =>
    bool_decide (curMode ∈ ns) || (bool_decide (kCFRunLoopCommonModes ∈ ns) && bool_decide (curMode ∈ commonModes))
  end.

Definition nonempty_set (X : option (gset Z)) : bool :=
  match X with Some X => negb (bool_decide (X = ∅)) | None => false end.

Definition nonempty_list (l : option (list Z)) : bool :=
  match l with Some (_ :: _) => true | _ => false end.

(** [mainQueue] is whether the calling thread may service the main dispatch queue
    on this run loop. *)
Definition CFRunLoopModeIsEmpty (mainQueue : bool) (r : CFRunLoop) (name : string) (m : mode) : bool :=
  if mainQueue && bool_decide (name ∈ rl_commonModes r) then false
  else if nonempty_set (m_sources0 m) then false
  else if nonempty_set (m_sources1 m) then false
  else if nonempty_list (m_timers m) then false
  else negb (existsb (fun b => block_matches (rl_commonModes r) (b_mode b) name) (rl_blocks r)).

(** ** Arming the mode's timer *)

(** The search for the next soft and hard deadline. *)
Fixpoint next_deadlines (w : world) (ts : list Z) (soft hard : Z) : Z * Z :=
  match ts with
  | [] => (soft, hard)
  | t :: ts =>
    match w_timers w !! t with
    | None => next_deadlines w ts soft hard
    | Some tm =>
      if t_firing tm then next_deadlines w ts soft hard
      else
        let oneSoft := t_fireTSR tm in
        let sum := t_fireTSR tm + CFTimeIntervalToTSR (t_tolerance tm) in
        let oneHard := if UINT64_MAX <? sum then UINT64_MAX else sum in
        if hard <? oneSoft then (soft, hard)
        else next_deadlines w ts (if oneSoft <? soft then oneSoft else soft)
               (if oneHard <? hard then oneHard else hard)
    end
  end.

Definition arm (m : mode) (soft hard : Z) : armed :=
  let a := m_armed m in
  if (soft <? UINT64_MAX) && (negb (hard =? m_timerHardDeadline m) || negb (soft =? m_timerSoftDeadline m)) then
    let leeway := CFTSRToNanoseconds (u64 (hard - soft)) in
    let deadline := CFTSRToDispatchTime soft in
    if 0 <? leeway then
      let cancel := a_mkTimerArmed a && negb (m_timerPort m =? 0) in
      mkArmed (Some (deadline, leeway)) true (if cancel then None else a_mk a)
        (if cancel then false else a_mkTimerArmed a)
    else
      let d := if a_dispatchTimerArmed a then None else a_dispatch a in
      if negb (m_timerPort m =? 0) then mkArmed d false (Some soft) true
      else mkArmed d false (a_mk a) (a_mkTimerArmed a)
  else if soft =? UINT64_MAX then
    let cancel := a_mkTimerArmed a && negb (m_timerPort m =? 0) in
    mkArmed (if a_dispatchTimerArmed a then None else a_dispatch a) false
      (if cancel then None else a_mk a) (if cancel then false else a_mkTimerArmed a)
  else a.

Definition CFArmNextTimerInMode (w : world) (m : mode) : mode :=
  match m_timers m with
  | None => set_deadlines UINT64_MAX UINT64_MAX (m_armed m) m
  | Some ts =>
    let '(soft, hard) := next_deadlines w ts UINT64_MAX UINT64_MAX in
    set_deadlines soft hard (arm m soft hard) m
  end.

(** The mode of a run loop re-armed in the world. *)
Definition arm_next (w : world) (rl : Z) (name : string) : world :=
  upd_mode rl name (CFArmNextTimerInMode w) w.

Definition CFRepositionTimerInMode (w : world) (rl : Z) (name : string) (rlt : Z) (isInArray : bool)
  : result world :=
  match find_mode w rl name ≫= m_timers with
  | None => Ok w
  | Some timerArray =>
    let idx := if isInArray then CFArrayGetFirstIndexOfValue timerArray rlt else None in
    match idx, isInArray with
    | None, true => Ok w
    | _, _ =>
      let timerArray := match idx with Some i => delete i timerArray | None => timerArray end in
      newIdx ← CFRunLoopInsertionIndexInTimerArray (fire_of w) timerArray rlt;
      let i := Z.to_nat newIdx in
      let w := upd_mode rl name (set_timers (take i timerArray ++ rlt :: drop i timerArray)) w in
      Ok (arm_next w rl name)
    end
  end.

(** ** Loop and object fields *)

Definition set_items_common (f : gset item -> gset item) (r : CFRunLoop) : CFRunLoop :=
  mkLoop (rl_wakeUpPort r) (rl_perRunData r) (rl_commonModes r)
    (Some (f (default ∅ (rl_commonModeItems r)))) (rl_currentMode r) (rl_modes r) (rl_blocks r)
    (rl_sleeping r) (rl_deallocating r) (rl_wakePending r).

Definition set_common_modes (f : gset string -> gset string) (r : CFRunLoop) : CFRunLoop :=
  mkLoop (rl_wakeUpPort r) (rl_perRunData r) (f (rl_commonModes r)) (rl_commonModeItems r) (rl_currentMode r)
    (rl_modes r) (rl_blocks r) (rl_sleeping r) (rl_deallocating r) (rl_wakePending r).

Definition set_observers (l : list Z) (mask : Z) (m : mode) : mode :=
  mkMode (m_stopped m) (m_sources0 m) (m_sources1 m) (Some l) (m_timers m) (m_portToV1SourceMap m)
    (m_portSet m) mask (m_timerSoftDeadline m) (m_timerHardDeadline m) (m_timerFired m)
    (m_queuePort m) (m_timerPort m) (m_armed m).

Definition set_sources (s0 s1 : gset Z) (ports : gmap Z Z) (portSet : gset Z) (m : mode) : mode :=
  mkMode (m_stopped m) (Some s0) (Some s1) (m_observers m) (m_timers m) (Some ports)
    portSet (m_observerMask m) (m_timerSoftDeadline m) (m_timerHardDeadline m) (m_timerFired m)
    (m_queuePort m) (m_timerPort m) (m_armed m).

Definition set_runLoops (b : option (gmultiset Z)) (s : source) : source :=
  mkSource (s_valid s) (s_signaled s) (s_order s) (s_version s) b (s_schedule s) (s_cancel s) (s_perform s)
    (s_port s).

Definition set_source_state (valid signaled : bool) (s : source) : source :=
  mkSource valid signaled (s_order s) (s_version s) (s_runLoops s) (s_schedule s) (s_cancel s) (s_perform s)
    (s_port s).

Definition set_observer_loop (rl : option Z) (cnt : Z) (o : observer) : observer :=
  mkObserver (o_valid o) (o_firing o) (o_repeats o) rl cnt (o_activities o) (o_order o) (o_release o).

Definition set_observer_state (valid firing : bool) (o : observer) : observer :=
  mkObserver valid firing (o_repeats o) (o_runLoop o) (o_rlCount o) (o_activities o) (o_order o) (o_release o).

Definition set_timer_state (valid firing : bool) (t : timer) : timer :=
  mkTimer valid firing (t_runLoop t) (t_rlModes t) (t_nextFireDate t) (t_interval t) (t_tolerance t)
    (t_fireTSR t) (t_order t) (t_retain t) (t_release t).

Definition is_deallocating (w : world) (rl : Z) : bool :=
  match w_loops w !! rl with Some r => rl_deallocating r | None => false end.

Definition common_modes (w : world) (rl : Z) : list string :=
  match w_loops w !! rl with Some r => set_names (rl_commonModes r) | None => [] end.

Definition in_common_items (w : world) (rl : Z) (i : item) : bool :=
  match w_loops w !! rl ≫= rl_commonModeItems with
  | Some X => bool_decide (i ∈ X)
  | None => false
  end.

(** ** Timers in modes *)

(** [rlt->_runLoop] is NULL or [rl]. *)
Definition loop_free (owner : option Z) (rl : Z) : bool :=
  match owner with None => true | Some o => o =? rl end.

Definition add_timer_in_mode (w : world) (rl rlt : Z) (name : string) : result world :=
  let w := CFRunLoopFindMode_create w rl name in
  let w := upd_mode rl name (fun m => match m_timers m with None => set_timers [] m | Some _ => m end) w in
  match w_timers w !! rlt, find_mode w rl name with
  | Some tm, Some _ =>
    if bool_decide (name ∈ t_rlModes tm) then Ok w
    else if loop_free (t_runLoop tm) rl then
      let w := upd_timer rlt (set_timer_loop (Some rl) ({[name]} ∪ t_rlModes tm)) w in
      CFRepositionTimerInMode w rl name rlt false
    else Ok w
  | _, _ => Ok w
  end.

Fixpoint over_modes (f : world -> string -> result world) (w : world) (names : list string) : result world :=
  match names with
  | [] => Ok w
  | name :: names => w ← f w name; over_modes f w names
  end.

(** [CFRunLoopAddTimer] with a bound on its nesting: for the common modes
    [__CFRunLoopAddItemToCommonModes] calls it again for each mode of the set. *)
Fixpoint add_timer (depth : nat) (w : world) (rl rlt : Z) (name : string) : result world :=
  match w_timers w !! rlt with
  | None => Ok w
  | Some tm =>
    if is_deallocating w rl then Ok w
    else if negb (t_valid tm) || negb (loop_free (t_runLoop tm) rl) then Ok w
    else if bool_decide (name = kCFRunLoopCommonModes) then
      match depth with
      | O => NoFuel
      | S depth =>
        let set := common_modes w rl in
        let w := upd_loop rl (set_items_common (union {[ITimer rlt]})) w in
        over_modes (fun w name => add_timer depth w rl rlt name) w set
      end
    else add_timer_in_mode w rl rlt name
  end.

(** One level is enough unless the common modes are a member of themselves, and then no
    number of levels is. *)
Definition CFRunLoopAddTimer (w : world) (rl rlt : Z) (name : string) : result world := add_timer 1 w rl rlt name.

Definition remove_timer_in_mode (w : world) (rl rlt : Z) (name : string) : world :=
  match find_mode w rl name ≫= m_timers with
  | None => w
  | Some timerList =>
    match CFArrayGetFirstIndexOfValue timerList rlt with
    | None => w
    | Some idx =>
      let w := upd_timer rlt (fun tm =>
        let names := t_rlModes tm ∖ {[name]} in
        set_timer_loop (if bool_decide (names = ∅) then None else t_runLoop tm) names tm) w in
      let w := upd_mode rl name (set_timers (delete idx timerList)) w in
      arm_next w rl name
    end
  end.

(** [CFRunLoopRemoveTimer] as [__CFRunLoopRemoveItemFromCommonModes] calls it: the timer
    is no common item any more, so for the common modes themselves nothing happens. *)
Definition remove_timer_nested (w : world) (rl rlt : Z) (name : string) : world :=
  if bool_decide (name = kCFRunLoopCommonModes) then w else remove_timer_in_mode w rl rlt name.

Definition CFRunLoopRemoveTimer (w : world) (rl rlt : Z) (name : string) : world :=
  if bool_decide (name = kCFRunLoopCommonModes) then
    if in_common_items w rl (ITimer rlt) then
      let set := common_modes w rl in
      let w := upd_loop rl (set_items_common (fun X => X ∖ {[ITimer rlt]})) w in
      foldl (fun w name => remove_timer_nested w rl rlt name) w set
    else w
  else remove_timer_in_mode w rl rlt name.

Definition CFRunLoopContainsTimer (w : world) (rl rlt : Z) (name : string) : bool :=
  match w_timers w !! rlt with
  | None => false
  | Some tm =>
    if negb (bool_decide (t_runLoop tm = Some rl)) then false
    else if bool_decide (name = kCFRunLoopCommonModes) then in_common_items w rl (ITimer rlt)
    else match find_mode w rl name ≫= m_timers with
         | Some ts => match CFArrayGetFirstIndexOfValue ts rlt with Some _ => true | None => false end
         | None => false
         end
  end.

(** ** Waking up *)

Definition set_wake (pending : bool) (r : CFRunLoop) : CFRunLoop :=
  mkLoop (rl_wakeUpPort r) (rl_perRunData r) (rl_commonModes r) (rl_commonModeItems r) (rl_currentMode r)
    (rl_modes r) (rl_blocks r) (rl_sleeping r) (rl_deallocating r) pending.

(** The send may find the message of an earlier wake-up still queued. *)
Definition CFRunLoopWakeUp (w : world) (rl : Z) : world :=
  upd_loop rl (fun r => if p_ignoreWakeUps (rl_perRunData r) then r else set_wake true r) w.

(** ** The dates of a timer *)

(** [now2] and the ticks to the date, which the limits bound. *)
Definition fire_ticks (w : world) (fireDate : Z) : Z :=
  if fireDate <? w_date w then w_tsr w
  else if TIMER_INTERVAL_LIMIT <? fireDate - w_date w
  then u64 (w_tsr w + CFTimeIntervalToTSR TIMER_INTERVAL_LIMIT)
  else u64 (w_tsr w + CFTimeIntervalToTSR (fireDate - w_date w)).

Definition clamp_date (fireDate : Z) : Z :=
  if TIMER_DATE_LIMIT <? fireDate then TIMER_DATE_LIMIT else fireDate.

Definition CFRunLoopTimerCreate (w : world) (fireDate interval order : Z) (retain release : bool) : timer :=
  let interval := if interval <? 0 then 0 else interval in
  let fireDate := clamp_date fireDate in
  mkTimer true false None ∅ fireDate interval 0 (fire_ticks w fireDate) order retain release.

Definition CFRunLoopTimerGetNextFireDate (tm : timer) : Z := if t_valid tm then t_nextFireDate tm else 0.
Definition CFRunLoopTimerDoesRepeat (tm : timer) : bool := 0 <? t_interval tm.

(** Moving a timer whose fire time has changed, in each of the modes it is in.  The
    modes are looked up first and unlocked at the end, where a NULL one would be
    dereferenced. *)
Definition reposition_all (w : world) (rl rlt : Z) (names : list string) : result world :=
  w' ← over_modes (fun w name => CFRepositionTimerInMode w rl name rlt true) w names;
  if forallb (fun name => match find_mode w rl name with Some _ => true | None => false end) names
  then Ok w' else Undef.

Definition CFRunLoopTimerSetNextFireDate (current : Z) (w : world) (rlt fireDate : Z) : result world :=
  match w_timers w !! rlt with
  | None => Ok w
  | Some tm =>
    if negb (t_valid tm) then Ok w
    else
      let fireDate := clamp_date fireDate in
      let nextFireTSR := fire_ticks w fireDate in
      match t_runLoop tm with
      | Some rl =>
        let modes := set_names (t_rlModes tm) in
        let w := upd_timer rlt (set_fire nextFireTSR fireDate) w in
        w ← reposition_all w rl rlt modes;
        Ok (if negb (rl =? current) then CFRunLoopWakeUp w rl else w)
      | None => Ok (upd_timer rlt (set_fire nextFireTSR fireDate) w)
      end
  end.

Definition CFRunLoopTimerInvalidate (w : world) (rlt : Z) : world :=
  match w_timers w !! rlt with
  | None => w
  | Some tm =>
    if t_valid tm then
      let w := upd_timer rlt (set_timer_state false (t_firing tm)) w in
      let w := match t_runLoop tm with
               | Some rl =>
                 let w := foldl (fun w name => CFRunLoopRemoveTimer w rl rlt name) w (set_names (t_rlModes tm)) in
                 CFRunLoopRemoveTimer w rl rlt kCFRunLoopCommonModes
               | None => w
               end in
      if t_release tm then call (CallReleaseTimer rlt) w else w
    else w
  end.

(** ** Observers in modes *)

Definition CFRunLoopObserverSchedule (rl : Z) (o : observer) : observer :=
  set_observer_loop (if o_rlCount o =? 0 then Some rl else o_runLoop o) (o_rlCount o + 1) o.

Definition CFRunLoopObserverCancel (o : observer) : observer :=
  let cnt := o_rlCount o - 1 in
  set_observer_loop (if cnt =? 0 then None else o_runLoop o) cnt o.

Definition order_of (w : world) (o : Z) : Z := default 0 (o_order <$> w_observers w !! o).

(** [for (idx = count; idx--;)] with [n] the index before the decrement: the place
    after the last observer whose order is not greater. *)
Fixpoint observer_index (w : world) (l : list Z) (order : Z) (n : nat) : nat :=
  match n with
  | O => O
  | S n => match l !! n with
           | Some obs => if order_of w obs <=? order then S n else observer_index w l order n
           | None => observer_index w l order n
           end
  end.

Definition add_observer_in_mode (w : world) (rl rlo : Z) (name : string) : world :=
  let w := CFRunLoopFindMode_create w rl name in
  let w := upd_mode rl name
    (fun m => match m_observers m with None => set_observers [] (m_observerMask m) m | Some _ => m end) w in
  match w_observers w !! rlo, find_mode w rl name with
  | Some o, Some m =>
    let l := default [] (m_observers m) in
    match CFArrayGetFirstIndexOfValue l rlo with
    | Some _ => w
    | None =>
      let i := observer_index w l (o_order o) (length l) in
      let w := upd_mode rl name
        (set_observers (take i l ++ rlo :: drop i l) (Z.lor (m_observerMask m) (o_activities o))) w in
      upd_observer rlo (CFRunLoopObserverSchedule rl) w
    end
  | _, _ => w
  end.

Fixpoint add_observer (depth : nat) (w : world) (rl rlo : Z) (name : string) : result world :=
  match w_observers w !! rlo with
  | None => Ok w
  | Some o =>
    if is_deallocating w rl then Ok w
    else if negb (o_valid o) || negb (loop_free (o_runLoop o) rl) then Ok w
    else if bool_decide (name = kCFRunLoopCommonModes) then
      match depth with
      | O => NoFuel
      | S depth =>
        let set := common_modes w rl in
        let w := upd_loop rl (set_items_common (union {[IObserver rlo]})) w in
        over_modes (fun w name => add_observer depth w rl rlo name) w set
      end
    else Ok (add_observer_in_mode w rl rlo name)
  end.

Definition CFRunLoopAddObserver (w : world) (rl rlo : Z) (name : string) : result world := add_observer 1 w rl rlo name.

Definition remove_observer_in_mode (w : world) (rl rlo : Z) (name : string) : world :=
  match find_mode w rl name with
  | None => w
  | Some m =>
    match m_observers m with
    | None => w
    | Some l =>
      match CFArrayGetFirstIndexOfValue l rlo with
      | None => w
      | Some idx =>
        let w := upd_mode rl name (set_observers (delete idx l) (m_observerMask m)) w in
        upd_observer rlo CFRunLoopObserverCancel w
      end
    end
  end.

Definition remove_observer_nested (w : world) (rl rlo : Z) (name : string) : world :=
  if bool_decide (name = kCFRunLoopCommonModes) then w else remove_observer_in_mode w rl rlo name.

Definition CFRunLoopRemoveObserver (w : world) (rl rlo : Z) (name : string) : world :=
  if bool_decide (name = kCFRunLoopCommonModes) then
    if in_common_items w rl (IObserver rlo) then
      let set := common_modes w rl in
      let w := upd_loop rl (set_items_common (fun X => X ∖ {[IObserver rlo]})) w in
      foldl (fun w name => remove_observer_nested w rl rlo name) w set
    else w
  else remove_observer_in_mode w rl rlo name.

Definition CFRunLoopContainsObserver (w : world) (rl rlo : Z) (name : string) : bool :=
  if bool_decide (name = kCFRunLoopCommonModes) then in_common_items w rl (IObserver rlo)
  else match find_mode w rl name ≫= m_observers with
       | Some l => match CFArrayGetFirstIndexOfValue l rlo with Some _ => true | None => false end
       | None => false
       end.

Definition CFRunLoopObserverCreate (activities : Z) (repeats : bool) (order : Z) (release : bool) : observer :=
  mkObserver true false repeats None 0 activities order release.

(** The names of the modes of a run loop, in the order of its mode set. *)
Definition CFRunLoopCopyAllModes (w : world) (rl : Z) : list string :=
  match w_loops w !! rl with Some r => set_names (dom (rl_modes r)) | None => [] end.

Definition CFRunLoopObserverInvalidate (w : world) (rlo : Z) : world :=
  match w_observers w !! rlo with
  | None => w
  | Some o =>
    if o_valid o then
      let w := upd_observer rlo (set_observer_state false (o_firing o)) w in
      let w := match o_runLoop o with
               | Some rl =>
                 let w := foldl (fun w name => CFRunLoopRemoveObserver w rl rlo name) w
                            (reverse (CFRunLoopCopyAllModes w rl)) in
                 CFRunLoopRemoveObserver w rl rlo kCFRunLoopCommonModes
               | None => w
               end in
      if o_release o then call (CallReleaseObserver rlo) w else w
    else w
  end.

(** ** Sources in modes *)

Definition CFRunLoopSourceCreate (order version : Z) (schedule cancel perform : bool) (port : Z) : source :=
  mkSource true false order version None schedule cancel perform port.

Definition add_source_in_mode (w : world) (rl rls : Z) (name : string) : world :=
  let w := CFRunLoopFindMode_create w rl name in
  let w := upd_mode rl name
    (fun m => match m_sources0 m with None => set_sources ∅ ∅ ∅ (m_portSet m) m | Some _ => m end) w in
  match w_sources w !! rls, find_mode w rl name with
  | Some s, Some m =>
    let s0 := default ∅ (m_sources0 m) in
    let s1 := default ∅ (m_sources1 m) in
    let ports := default ∅ (m_portToV1SourceMap m) in
    if bool_decide (rls ∈ s0) || bool_decide (rls ∈ s1) then w
    else
      let m' :=
        if s_version s =? 0 then set_sources ({[rls]} ∪ s0) s1 ports (m_portSet m)
        else if s_version s =? 1 then
          if negb (s_port s =? 0)
          then set_sources s0 ({[rls]} ∪ s1) (<[s_port s := rls]> ports) ({[s_port s]} ∪ m_portSet m)
          else set_sources s0 ({[rls]} ∪ s1) ports (m_portSet m)
        else fun m => m in
      let w := upd_mode rl name m' w in
      let w := upd_source rls (fun s => set_runLoops (Some ({[+ rl +]} ⊎ default ∅ (s_runLoops s))) s) w in
      if (s_version s =? 0) && s_schedule s then call (CallSchedule rls rl name) w else w
  | _, _ => w
  end.

Fixpoint add_source (depth : nat) (w : world) (rl rls : Z) (name : string) : result world :=
  match w_sources w !! rls with
  | None => Ok w
  | Some s =>
    if is_deallocating w rl then Ok w
    else if negb (s_valid s) then Ok w
    else if bool_decide (name = kCFRunLoopCommonModes) then
      match depth with
      | O => NoFuel
      | S depth =>
        let set := common_modes w rl in
        let w := upd_loop rl (set_items_common (union {[ISource rls]})) w in
        over_modes (fun w name => add_source depth w rl rls name) w set
      end
    else Ok (add_source_in_mode w rl rls name)
  end.

Definition CFRunLoopAddSource (w : world) (rl rls : Z) (name : string) : result world := add_source 1 w rl rls name.

Definition remove_source_in_mode (w : world) (rl rls : Z) (name : string) : world :=
  match w_sources w !! rls, find_mode w rl name with
  | Some s, Some m =>
    let s0 := default ∅ (m_sources0 m) in
    let s1 := default ∅ (m_sources1 m) in
    if bool_decide (rls ∈ s0) || bool_decide (rls ∈ s1) then
      let ports := default ∅ (m_portToV1SourceMap m) in
      let unport := (s_version s =? 1) && negb (s_port s =? 0) in
      let m' := set_sources (s0 ∖ {[rls]}) (s1 ∖ {[rls]}) (if unport then delete (s_port s) ports else ports)
                  (if unport then m_portSet m ∖ {[s_port s]} else m_portSet m) in
      let w := upd_mode rl name m' w in
      let w := upd_source rls (fun s => set_runLoops ((fun b => b ∖ {[+ rl +]}) <$> s_runLoops s) s) w in
      if (s_version s =? 0) && s_cancel s then call (CallCancel rls rl name) w else w
    else w
  | _, _ => w
  end.

(** [CFRunLoopRemoveSource] with a bound on its nesting: the cancel callout may make the
    source a common item again. *)
Fixpoint CFRunLoopRemoveSource (depth : nat) (w : world) (rl rls : Z) (name : string) : result world :=
  if bool_decide (name = kCFRunLoopCommonModes) then
    if in_common_items w rl (ISource rls) then
      match depth with
      | O => NoFuel
      | S depth =>
        let set := common_modes w rl in
        let w := upd_loop rl (set_items_common (fun X => X ∖ {[ISource rls]})) w in
        over_modes (fun w name => CFRunLoopRemoveSource depth w rl rls name) w set
      end
    else Ok w
  else Ok (remove_source_in_mode w rl rls name).

Definition CFRunLoopContainsSource (w : world) (rl rls : Z) (name : string) : bool :=
  if bool_decide (name = kCFRunLoopCommonModes) then in_common_items w rl (ISource rls)
  else match find_mode w rl name with
       | Some m => bool_decide (rls ∈ default ∅ (m_sources0 m)) || bool_decide (rls ∈ default ∅ (m_sources1 m))
       | None => false
       end.

Definition CFRunLoopSourceRemoveFromRunLoop (depth : nat) (w : world) (rl rls : Z) : result world :=
  w ← over_modes (fun w name => CFRunLoopRemoveSource depth w rl rls name) w (reverse (CFRunLoopCopyAllModes w rl));
  CFRunLoopRemoveSource depth w rl rls kCFRunLoopCommonModes.

(** [params[1]] is the run loop treated last. *)
Fixpoint remove_from_loops (depth : nat) (w : world) (rls : Z) (last : option Z) (loops : list Z) : result world :=
  match loops with
  | [] => Ok w
  | rl :: loops =>
    if bool_decide (last = Some rl) then remove_from_loops depth w rls last loops
    else w ← CFRunLoopSourceRemoveFromRunLoop depth w rl rls; remove_from_loops depth w rls (Some rl) loops
  end.

Definition CFRunLoopSourceInvalidate (depth : nat) (w : world) (rls : Z) : result world :=
  match w_sources w !! rls with
  | None => Ok w
  | Some s =>
    if s_valid s then
      let rloops := s_runLoops s in
      let w := upd_source rls (set_source_state false false) w in
      match rloops with
      | Some b => remove_from_loops depth (upd_source rls (set_runLoops None) w) rls None (bag_ids b)
      | None => Ok w
      end
    else Ok w
  end.

Definition CFRunLoopSourceSignal (w : world) (rls : Z) : world :=
  upd_source rls (fun s => if s_valid s then set_source_state true true s else s) w.

Definition CFRunLoopSourceWakeUpRunLoops (w : world) (rls : Z) : world :=
  match w_sources w !! rls with
  | Some s => if s_valid s then foldl CFRunLoopWakeUp w (bag_ids (default ∅ (s_runLoops s))) else w
  | None => w
  end.

(** ** Common modes *)

Fixpoint add_items (w : world) (rl : Z) (name : string) (items : list item) : result world :=
  match items with
  | [] => Ok w
  | i :: items =>
    w ← match i with
        | ISource s => CFRunLoopAddSource w rl s name
        | IObserver o => CFRunLoopAddObserver w rl o name
        | ITimer t => CFRunLoopAddTimer w rl t name
        end;
    add_items w rl name items
  end.

Definition CFRunLoopAddCommonMode (w : world) (rl : Z) (name : string) : result world :=
  match w_loops w !! rl with
  | None => Ok w
  | Some r =>
    if rl_deallocating r then Ok w
    else if bool_decide (name ∈ rl_commonModes r) then Ok w
    else
      let set := match rl_commonModeItems r with Some X => set_items X | None => [] end in
      add_items (upd_loop rl (set_common_modes (union {[name]})) w) rl name set
  end.

Definition CFRunLoopCreate (w : world) (rl wakeUpPort : Z) : world :=
  CFRunLoopFindMode_create
    (upd_loops (insert rl (mkLoop wakeUpPort (mkPerRun false true) {[kCFRunLoopDefaultMode]} None None ∅ []
                             false false false)) w) rl kCFRunLoopDefaultMode.

End Registration.

(** ** A concrete environment

    The user's functions do nothing, one tick is one second, and the collections are
    enumerated in the order of their representation. *)
Definition sample_env : Env := {|
  user := fun _ w => w;
  CFTimeIntervalToTSR := fun i => i mod 2 ^ 64;
  CFTSRToNanoseconds := fun t => t * 1000000000;
  CFTSRToDispatchTime := fun t => t;
  CFTimeIntervalUntilTSR := fun t now => t - now;
  new_queue_port := fun _ _ => 101;
  new_timer_port := fun _ _ => 102;
  set_names := elements;
  set_items := elements;
  set_ids := elements;
  bag_ids := elements;
  kCFTypeArrayCallBacks := Array.mkCB 500 501 502 503;
  fresh_words := fun n => replicate (Z.to_nat n) (-7)
|}.

Lemma sample_env_laws : EnvLaws sample_env.
Proof.
  split; cbn; try done.
  - intros n Hn. rewrite length_replicate. lia.
  - intros i. by apply Z.mod_pos_bound.
Qed.

End RunLoop.
