(* ===== verification/RunLoopBlocks.v ===== *)
(** * The block queue of a run loop: CFRunLoopPerformBlock and __CFRunLoopDoBlocks

    The queue is a singly linked list of malloc'ed [struct _block_item]s with a head
    and a tail pointer in the run loop.  [CFRunLoopPerformBlock] appends;
    [__CFRunLoopDoBlocks] detaches the list, unlinks, frees and calls the items of the
    current mode, and puts the rest back in front of what the blocks have enqueued
    meanwhile.  Memory is a map from addresses, and a read through a pointer to freed
    memory is [Undef]; [malloc] may hand a freed address out again.  The theorem is
    that the pointer operations implement a first-in first-out list. *)

From stdpp Require Import base list numbers option strings gmap.
From Stdlib Require Import ZArith Lia.
From S2P Require Import Prelude RunLoop.

Module RunLoopBlocks.
Import RunLoop.

(** [struct _block_item] *)
Record node : Type := mkNode { n_next : Z; n_item : block_item }.

(** The memory, [rl->_blocks_head], [rl->_blocks_tail] and the blocks called so far. *)
Record queue : Type := mkQueue {
  q_mem : gmap Z node;
  q_head : Z;
  q_tail : Z;
  q_log : list Z
}.

Definition set_next (a next : Z) (mem : gmap Z node) : result (gmap Z node) :=
  match mem !! a with
  | Some n => Ok (<[a := mkNode next (n_item n)]> mem)
  | None => Undef
  end.

Section Queue.

(** [malloc] given the addresses in use, and what a block enqueues when it is called,
    given the calls before it. *)
Context (malloc : gset Z -> Z) (body : Z -> list Z -> list block_item).

(** The linking of a new item at the end of [CFRunLoopPerformBlock]. *)
Definition CFRunLoopPerformBlock (q : queue) (i : block_item) : result queue :=
  let new_item := malloc (dom (q_mem q)) in
  let mem := <[new_item := mkNode 0 i]> (q_mem q) in
  if q_tail q =? 0 then Ok (mkQueue mem new_item new_item (q_log q))
  else mem ← set_next (q_tail q) new_item mem; Ok (mkQueue mem (q_head q) new_item (q_log q)).

Fixpoint perform_all (q : queue) (l : list block_item) : result queue :=
  match l with
  | [] => Ok q
  | i :: l => q ← CFRunLoopPerformBlock q i; perform_all q l
  end.

Definition call_block (q : queue) (block : Z) : result queue :=
  perform_all (mkQueue (q_mem q) (q_head q) (q_tail q) (q_log q ++ [block])) (body block (q_log q)).

(** The [while (item)] loop with its locals. *)
Fixpoint walk (fuel : nat) (q : queue) (doit : block_mode -> bool) (head tail prev item : Z) (did : bool)
  : result (queue * Z * Z * bool) :=
  if item =? 0 then Ok (q, head, tail, did)
  else
    match fuel with
    | O => NoFuel
    | S fuel =>
      let curr := item in
      match q_mem q !! curr with
      | None => Undef
      | Some n =>
        let item := n_next n in
        if doit (b_mode (n_item n)) then
          mem ← (if prev =? 0 then Ok (q_mem q) else set_next prev item (q_mem q));
          let head := if curr =? head then item else head in
          let tail := if curr =? tail then prev else tail in
          let q := mkQueue (delete curr mem) (q_head q) (q_tail q) (q_log q) in
          q ← call_block q (b_block (n_item n));
          walk fuel q doit head tail prev item true
        else walk fuel q doit head tail curr item did
      end
    end.

Definition CFRunLoopDoBlocks (fuel : nat) (commonModes : gset string) (curMode : string) (q : queue)
  : result (queue * bool) :=
  if q_head q =? 0 then Ok (q, false)
  else
    '(q', head, tail, did) ← walk fuel (mkQueue (q_mem q) 0 0 (q_log q))
      (fun m => block_matches commonModes m curMode) (q_head q) (q_tail q) 0 (q_head q) false;
    if head =? 0 then Ok (q', did)
    else
      mem ← set_next tail (q_head q') (q_mem q');
      Ok (mkQueue mem head (if q_tail q' =? 0 then tail else q_tail q') (q_log q'), did).

(** ** The abstract queue *)

(** Calling the blocks [bs] one after the other: the queue they leave and the log. *)
Fixpoint call_list (bs : list Z) (items : list block_item) (log : list Z) : list block_item * list Z :=
  match bs with
  | [] => (items, log)
  | b :: bs => call_list bs (items ++ body b log) (log ++ [b])
  end.

(** ** Representation *)

(** A chain of items from [p], at the addresses [A], ending in the pointer [e]. *)
Fixpoint seg (mem : gmap Z node) (p : Z) (A : list (Z * block_item)) (e : Z) : Prop :=
  match A with
  | [] => p = e
  | (a, i) :: A => p = a /\ a <> 0 /\ exists nx, mem !! a = Some (mkNode nx i) /\ seg mem nx A e
  end.

Definition last_addr (A : list (Z * block_item)) : Z := default 0 (fst <$> last A).

Lemma last_addr_app (A : list (Z * block_item)) (x : Z * block_item) : last_addr (A ++ [x]) = x.1.
Proof. unfold last_addr. by rewrite last_snoc. Qed.

Lemma seg_frame (mem mem' : gmap Z node) (A : list (Z * block_item)) (p e : Z) :
  (forall a, a ∈ A.*1 -> mem' !! a = mem !! a) -> seg mem p A e -> seg mem' p A e.
Proof.
  revert p. induction A as [|[a i] A IH]; intros p Hf S; [done|]. destruct S as (-> & N & nx & L & S).
  split_and!; [done..|]. exists nx. rewrite Hf by set_solver. split; [done|]. apply IH; [|done]. set_solver.
Qed.

Lemma seg_app (mem : gmap Z node) (A B : list (Z * block_item)) (p e : Z) :
  seg mem p (A ++ B) e <-> exists m, seg mem p A m /\ seg mem m B e.
Proof.
  revert p. induction A as [|[a i] A IH]; intros p; cbn.
  - split; [by exists p|]. by intros (? & -> & ?).
  - setoid_rewrite IH. naive_solver.
Qed.

Lemma seg_nonzero (mem : gmap Z node) (A : list (Z * block_item)) (p e a : Z) :
  seg mem p A e -> a ∈ A.*1 -> a <> 0.
Proof.
  revert p. induction A as [|[b i] A IH]; intros p S H; [by apply elem_of_nil in H|].
  destruct S as (-> & N & nx & _ & S). cbn in H. apply elem_of_cons in H as [->|H]; [done|by apply (IH nx)].
Qed.

(** The last item's link is set to [e'].  *)
Lemma seg_relink (mem : gmap Z node) (A : list (Z * block_item)) (p e e' : Z) :
  seg mem p A e -> A <> [] -> NoDup A.*1 ->
  exists mem', set_next (last_addr A) e' mem = Ok mem' /\ seg mem' p A e' /\ dom mem' = dom mem /\
    (forall a, a <> last_addr A -> mem' !! a = mem !! a).
Proof.
  destruct A as [|[a i] A _] using rev_ind; [done|]. intros S _ ND. rewrite last_addr_app. cbn.
  apply seg_app in S as (m & S1 & -> & N & nx & L & ->). unfold set_next. rewrite L.
  rewrite fmap_app in ND. apply NoDup_app in ND as (_ & ND & _).
  eexists. split; [done|]. split_and!.
  - apply seg_app. exists a. split.
    + apply (seg_frame mem); [|done]. intros b Hb. rewrite lookup_insert_ne; [done|]. intros ->. apply (ND b Hb). set_solver.
    + split_and!; [done..|]. exists e'. by rewrite lookup_insert_eq.
  - rewrite dom_insert_L. apply elem_of_dom_2 in L. set_solver.
  - intros b Hb. by rewrite lookup_insert_ne.
Qed.

(** The queue part of a state: the chain [A] from head to tail. *)
Definition queue_at (q : queue) (A : list (Z * block_item)) : Prop :=
  seg (q_mem q) (q_head q) A 0 /\ q_tail q = last_addr A /\ (A = [] -> q_head q = 0).

(** The whole memory is the items of the queue. *)
Definition repr (q : queue) (items : list block_item) : Prop :=
  exists A, A.*2 = items /\ queue_at q A /\ NoDup A.*1 /\ dom (q_mem q) = list_to_set A.*1.

Context (malloc_fresh : forall X, malloc X ∉ X /\ malloc X <> 0).

(** Enqueuing leaves memory outside the queue alone. *)
Lemma perform_spec (q : queue) (A : list (Z * block_item)) (i : block_item) :
  queue_at q A -> NoDup A.*1 -> list_to_set A.*1 ⊆ dom (q_mem q) ->
  exists q' a, CFRunLoopPerformBlock q i = Ok q' /\ queue_at q' (A ++ [(a, i)]) /\ a ∉ dom (q_mem q) /\
    q_log q' = q_log q /\ dom (q_mem q') = {[a]} ∪ dom (q_mem q) /\
    (forall b, b ∈ dom (q_mem q) -> b ∉ A.*1 -> q_mem q' !! b = q_mem q !! b).
Proof.
  intros (S & T & H0) ND Hd. destruct (malloc_fresh (dom (q_mem q))) as [Hf Hn].
  unfold CFRunLoopPerformBlock. set (a := malloc _) in *. destruct (decide (A = [])) as [->|NE].
  - rewrite T. cbn. eexists _, a. split_and!; [done|split_and!; [split_and!; [done..|]|done|done]|done|done| |].
    + exists 0. cbn. by rewrite lookup_insert_eq.
    + cbn. by rewrite dom_insert_L.
    + cbn. intros b Hb _. rewrite lookup_insert_ne; [done|]. by intros ->.
  - assert (Tin : last_addr A ∈ A.*1).
    { destruct A as [|x A _] using rev_ind; [done|]. rewrite last_addr_app, fmap_app. set_solver. }
    rewrite (proj2 (Z.eqb_neq _ 0)) by (rewrite T; by apply (seg_nonzero _ _ _ _ _ S)). rewrite T.
    assert (S' : seg (<[a := mkNode 0 i]> (q_mem q)) (q_head q) A 0).
    { apply (seg_frame (q_mem q)); [|done]. intros b Hb. rewrite lookup_insert_ne; [done|]. intros ->. set_solver. }
    destruct (seg_relink _ _ _ _ a S' NE ND) as (mem' & -> & S2 & D2 & F2). cbn [mbind result_bind].
    assert (Na : a <> last_addr A) by (intros E; rewrite <- E in Tin; set_solver).
    eexists _, a. split_and!; [done| |done|done| |].
    + split_and!; cbn; [|by rewrite last_addr_app|by destruct A]. apply seg_app. exists a. split; [done|].
      split_and!; [done..|]. exists 0. rewrite F2 by done. by rewrite lookup_insert_eq.
    + cbn. by rewrite D2, dom_insert_L.
    + cbn. intros b Hb Nb. rewrite F2 by (intros ->; done). rewrite lookup_insert_ne; [done|]. by intros ->.
Qed.

(** A whole group of enqueues, and then the call of a block. *)
Lemma perform_all_spec (l : list block_item) (q : queue) (A : list (Z * block_item)) :
  queue_at q A -> NoDup A.*1 -> list_to_set A.*1 ⊆ dom (q_mem q) ->
  exists q' B, perform_all q l = Ok q' /\ queue_at q' (A ++ B) /\ B.*2 = l /\ NoDup (A ++ B).*1 /\
    (forall b, b ∈ B.*1 -> b ∉ dom (q_mem q)) /\ q_log q' = q_log q /\
    dom (q_mem q') = list_to_set B.*1 ∪ dom (q_mem q) /\
    (forall b, b ∈ dom (q_mem q) -> b ∉ A.*1 -> q_mem q' !! b = q_mem q !! b).
Proof.
  revert q A. induction l as [|i l IH]; intros q A Q ND Hd; cbn [perform_all].
  - exists q, []. rewrite app_nil_r. split_and!; try done; set_solver.
  - destruct (perform_spec q A i Q ND Hd) as (q1 & a & -> & Q1 & Fa & L1 & D1 & F1). cbn [mbind result_bind].
    destruct (IH q1 (A ++ [(a, i)])) as (q2 & B & -> & Q2 & EB & NB & FB & L2 & D2 & F2); [done| | |].
    + rewrite fmap_app. apply NoDup_app. split_and!; [done| |apply NoDup_singleton]. cbn. set_solver.
    + rewrite D1, fmap_app, list_to_set_app_L. set_solver.
    + exists q2, ((a, i) :: B). rewrite <- app_assoc in Q2, NB. split_and!; try done.
      * cbn. by rewrite EB.
      * cbn. intros b [->|Hb]%elem_of_cons; [done|]. specialize (FB b Hb). rewrite D1 in FB. set_solver.
      * by rewrite L2.
      * rewrite D2, D1. cbn. set_solver.
      * intros b Hb Nb. rewrite F2.
        -- by apply F1.
        -- rewrite D1. set_solver.
        -- rewrite fmap_app. cbn. set_solver.
Qed.

(** Taking the item at [a] out of the detached chain. *)
Lemma unlink_spec (mem : gmap Z node) (K R : list (Z * block_item)) (head a nx : Z) (i : block_item) :
  seg mem head K a -> seg mem nx R 0 -> a <> 0 -> NoDup (K ++ (a, i) :: R).*1 ->
  exists mem1, (if last_addr K =? 0 then Ok mem else set_next (last_addr K) nx mem) = Ok mem1 /\
    seg (delete a mem1) (if a =? head then nx else head) K nx /\ seg (delete a mem1) nx R 0 /\
    dom mem1 = dom mem /\ (forall b, b ∉ K.*1 -> mem1 !! b = mem !! b).
Proof.
  intros SK SR Na ND. rewrite fmap_app in ND. apply NoDup_app in ND as (NK & NKR & NR).
  cbn in NR, NKR. apply NoDup_cons in NR as [NaR NR].
  assert (FR : forall m, (forall b, b ∉ K.*1 -> m !! b = mem !! b) -> seg (delete a m) nx R 0).
  { intros m Hm. apply (seg_frame mem); [|done]. intros b Hb. rewrite lookup_delete_ne by (intros ->; done).
    apply Hm. intros Hk. apply (NKR b Hk). set_solver. }
  destruct (decide (K = [])) as [->|NE].
  - cbn in SK. subst head. exists mem. cbn. rewrite Z.eqb_refl. split_and!; try done. by apply FR.
  - assert (Lin : last_addr K ∈ K.*1).
    { destruct K as [|x K _] using rev_ind; [done|]. rewrite last_addr_app, fmap_app. set_solver. }
    rewrite (proj2 (Z.eqb_neq (last_addr K) 0)) by (by apply (seg_nonzero _ _ _ _ _ SK)).
    destruct (seg_relink _ _ _ _ nx SK NE NK) as (mem1 & -> & S1 & D1 & F1). exists mem1.
    assert (Fb : forall b, b ∉ K.*1 -> mem1 !! b = mem !! b) by (intros b Hb; apply F1; by intros ->).
    assert (Nh : a <> head).
    { destruct K as [|[h j] K]; [done|]. destruct SK as (-> & _). intros ->. apply (NKR h); set_solver. }
    rewrite (proj2 (Z.eqb_neq a head)) by done. split_and!; try done; [|by apply FR].
    apply (seg_frame mem1); [|done]. intros b Hb. apply lookup_delete_ne. intros ->. apply (NKR b Hb). set_solver.
Qed.

Lemma last_addr_drop (K R : list (Z * block_item)) (a : Z) (i : block_item) :
  NoDup (K ++ (a, i) :: R).*1 ->
  (if a =? last_addr (K ++ (a, i) :: R) then last_addr K else last_addr (K ++ (a, i) :: R)) = last_addr (K ++ R).
Proof.
  intros ND. destruct R as [|x R _] using rev_ind.
  - rewrite last_addr_app, app_nil_r. cbn. by rewrite Z.eqb_refl.
  - replace (K ++ (a, i) :: R ++ [x]) with ((K ++ (a, i) :: R) ++ [x]) in * by (by rewrite <- app_assoc).
    rewrite app_assoc, !last_addr_app. rewrite (proj2 (Z.eqb_neq a x.1)); [done|]. intros E.
    rewrite fmap_app in ND. apply NoDup_app in ND as (_ & ND & _). apply (ND a); rewrite ?fmap_app; cbn; set_solver.
Qed.

(** The state of the walk: kept items [K], items to come [R], the new queue [Q]. *)
Record walking (q : queue) (K R Q : list (Z * block_item)) (head item : Z) : Prop := {
  wk_kept : seg (q_mem q) head K item;
  wk_rest : seg (q_mem q) item R 0;
  wk_queue : queue_at q Q;
  wk_nodup : NoDup (K ++ R ++ Q).*1;
  wk_dom : dom (q_mem q) = list_to_set (K ++ R ++ Q).*1
}.

Lemma walking_call (q : queue) (K R Q : list (Z * block_item)) (head item block : Z) :
  walking q K R Q head item ->
  exists q' B, call_block q block = Ok q' /\ walking q' K R (Q ++ B) head item /\
    B.*2 = body block (q_log q) /\ q_log q' = q_log q ++ [block].
Proof.
  intros [SK SR SQ ND D]. unfold call_block.
  destruct (perform_all_spec (body block (q_log q)) (mkQueue (q_mem q) (q_head q) (q_tail q) (q_log q ++ [block])) Q)
    as (q' & B & -> & Q' & EB & NB & FB & L & D' & F); [done| |cbn; rewrite D|].
  { rewrite app_assoc, fmap_app in ND. by apply NoDup_app in ND as (_ & _ & ?). }
  { rewrite !fmap_app, !list_to_set_app_L. set_solver. }
  cbn [q_mem q_log] in *. assert (Disj : forall b, b ∈ (K ++ R).*1 -> b ∉ Q.*1).
  { rewrite app_assoc, fmap_app in ND. by apply NoDup_app in ND as (_ & ? & _). }
  assert (Fr : forall b, b ∈ (K ++ R).*1 -> q_mem q' !! b = q_mem q !! b).
  { intros b Hb. apply F; [|by apply Disj]. rewrite D, app_assoc, fmap_app, list_to_set_app_L. set_solver. }
  exists q', B. split_and!; [done| |done|done]. split; [| |done| |].
  - apply (seg_frame (q_mem q)); [|done]. intros b Hb. apply Fr. rewrite fmap_app. set_solver.
  - apply (seg_frame (q_mem q)); [|done]. intros b Hb. apply Fr. rewrite fmap_app. set_solver.
  - rewrite app_assoc, app_assoc, fmap_app. apply NoDup_app. split_and!.
    + by rewrite <- app_assoc.
    + intros b Hb Hb'. apply (FB b Hb'). rewrite D, app_assoc. by apply elem_of_list_to_set.
    + rewrite fmap_app in NB. by apply NoDup_app in NB as (_ & _ & ?).
  - rewrite D', D, !fmap_app, !list_to_set_app_L. set_solver.
Qed.

(** Keeping the item at hand, and unlinking and freeing it. *)
Lemma walking_keep (q : queue) (K R Q : list (Z * block_item)) (head a nx : Z) (i : block_item) :
  walking q K ((a, i) :: R) Q head a -> q_mem q !! a = Some (mkNode nx i) -> seg (q_mem q) nx R 0 ->
  walking q (K ++ [(a, i)]) R Q head nx.
Proof.
  intros [SK SR SQ ND D] La S. destruct SR as (_ & Na & _). split; [|done|done|by rewrite <- app_assoc|by rewrite <- app_assoc].
  apply seg_app. exists a. split; [done|]. split_and!; [done..|]. by exists nx.
Qed.

Lemma walking_unlink (q : queue) (K R Q : list (Z * block_item)) (head a nx : Z) (i : block_item) :
  walking q K ((a, i) :: R) Q head a -> seg (q_mem q) nx R 0 ->
  exists mem1, (if last_addr K =? 0 then Ok (q_mem q) else set_next (last_addr K) nx (q_mem q)) = Ok mem1 /\
    walking (mkQueue (delete a mem1) (q_head q) (q_tail q) (q_log q)) K R Q (if a =? head then nx else head) nx.
Proof.
  intros [SK SR SQ ND D] S. destruct SR as (_ & Na & _).
  assert (EA : (K ++ ((a, i) :: R) ++ Q).*1 = (K ++ (a, i) :: R).*1 ++ Q.*1) by (by rewrite app_assoc, fmap_app).
  rewrite EA in ND, D. apply NoDup_app in ND as (NKR & Disj & NQ).
  destruct (unlink_spec _ _ _ _ _ nx i SK S Na NKR) as (mem1 & E & S1 & S2 & D1 & F1).
  exists mem1. split; [done|]. rewrite fmap_app in NKR, Disj, D. cbn in NKR, Disj, D.
  apply NoDup_app in NKR as (NK & NKR & NR). apply NoDup_cons in NR as [NaR NR].
  split; cbn [q_mem q_head q_tail q_log]; [done|done| | |].
  - destruct SQ as (SQ & T & H0). split_and!; [|done..]. apply (seg_frame (q_mem q)); [|done]. intros b Hb.
    assert (Hk : b ∉ K.*1 ++ a :: R.*1) by (intros Hk; by apply (Disj b)).
    rewrite elem_of_app, elem_of_cons in Hk. cbn [q_mem]. rewrite lookup_delete_ne by (intros ->; tauto). apply F1. tauto.
  - rewrite !fmap_app. apply NoDup_app. split_and!; [done| |apply NoDup_app; split_and!; [done| |done]].
    + intros b Hb [Hr|Hq]%elem_of_app; [apply (NKR b Hb)|apply (Disj b)]; rewrite ?elem_of_app, ?elem_of_cons; tauto.
    + intros b Hb. apply Disj. rewrite elem_of_app, elem_of_cons. tauto.
  - rewrite dom_delete_L, D1, D, !fmap_app, !list_to_set_app_L. cbn.
    assert (Ha : a ∉ K.*1 /\ a ∉ Q.*1) by (split; [intros Hk; apply (NKR a Hk)|apply Disj]; set_solver).
    destruct Ha. apply set_eq. intros b. rewrite elem_of_difference, !elem_of_union, !elem_of_list_to_set, elem_of_singleton.
    split; [naive_solver|]. intros Hb. split; [naive_solver|]. intros ->. naive_solver.
Qed.

Definition matching (doit : block_mode -> bool) (items : list block_item) : list block_item :=
  filter (fun i => doit (b_mode i) = true) items.

Definition passed (doit : block_mode -> bool) (items : list block_item) : list block_item :=
  filter (fun i => doit (b_mode i) = false) items.

Lemma walk_spec (doit : block_mode -> bool) (R : list (Z * block_item)) (fuel : nat) (q : queue)
  (K Q : list (Z * block_item)) (head item : Z) (did : bool) :
  (length R <= fuel)%nat -> walking q K R Q head item ->
  exists q' head' K' Q', walk fuel q doit head (last_addr (K ++ R)) (last_addr K) item did =
      Ok (q', head', last_addr K', did || bool_decide (matching doit R.*2 <> [])) /\
    walking q' K' [] Q' head' 0 /\ K'.*2 = K.*2 ++ passed doit R.*2 /\
    (Q'.*2, q_log q') = call_list (b_block <$> matching doit R.*2) Q.*2 (q_log q).
Proof.
  revert fuel q K Q head item did. induction R as [|[a i] R IH]; intros fuel q K Q head item did Hf W.
  - pose proof (wk_rest _ _ _ _ _ _ W) as E. cbn in E. subst item. exists q, head, K, Q. rewrite !app_nil_r, orb_false_r.
    split_and!; try done. by destruct fuel.
  - destruct (wk_rest _ _ _ _ _ _ W) as (-> & Na & nx & La & SR). destruct fuel as [|fuel]; [cbn in Hf; lia|].
    cbn [walk]. rewrite (proj2 (Z.eqb_neq a 0)) by done. rewrite La. cbn [n_item n_next]. cbn in Hf.
    unfold matching, passed. cbn [fmap list_fmap snd]. rewrite !filter_cons.
    destruct (doit (b_mode i)) eqn:Ed; cbn [decide_rel bool_eq_dec].
    + assert (NKR : NoDup (K ++ (a, i) :: R).*1).
      { pose proof (wk_nodup _ _ _ _ _ _ W) as ND. rewrite app_assoc, fmap_app in ND. by apply NoDup_app in ND as (? & _). }
      destruct (walking_unlink q K R Q head a nx i W SR) as (mem1 & -> & W1). cbn [mbind result_bind].
      rewrite last_addr_drop by done. set (head1 := if a =? head then nx else head) in *.
      destruct (walking_call _ _ _ _ _ _ (b_block i) W1) as (q2 & B & -> & W2 & EB & L2). cbn [mbind result_bind].
      destruct (IH fuel q2 K (Q ++ B) head1 nx true ltac:(lia) W2) as (q' & head' & K' & Q' & -> & W' & EK & EQ).
      exists q', head', K', Q'. split_and!; [by rewrite orb_true_r|done|done|].
      rewrite EQ, L2, fmap_app, EB. done.
    + destruct (IH fuel q (K ++ [(a, i)]) Q head nx did ltac:(lia) (walking_keep _ _ _ _ _ _ _ _ W La SR)) as (q' & head' & K' & Q' & Ew & W' & EK & EQ).
      exists q', head', K', Q'. rewrite <- app_assoc, last_addr_app in Ew. cbn in Ew. rewrite Ew.
      split_and!; try done. rewrite EK, fmap_app, <- app_assoc. done.
Qed.

Theorem perform_block_enqueues (q : queue) (items : list block_item) (i : block_item) :
  repr q items -> exists q', CFRunLoopPerformBlock q i = Ok q' /\ repr q' (items ++ [i]) /\ q_log q' = q_log q.
Proof.
  intros (A & <- & Q & ND & D). destruct (perform_spec q A i Q ND) as (q' & a & E & Q' & Fa & L & D' & _); [by rewrite D|].
  exists q'. split_and!; [done| |done]. exists (A ++ [(a, i)]). rewrite !fmap_app. split_and!; [done|done| |].
  - apply NoDup_app. split_and!; [done| |apply NoDup_singleton]. rewrite D in Fa. set_solver.
  - rewrite D', D, list_to_set_app_L. cbn. set_solver.
Qed.

(** The kept items, relinked, in front of the queue. *)
Lemma joined_queue (q : queue) (K N : list (Z * block_item)) (mem : gmap Z node) (head : Z) :
  K <> [] -> seg mem head K (q_head q) -> queue_at q N -> (forall b, b ∈ K.*1 -> b ∉ N.*1) ->
  (forall b, b <> last_addr K -> mem !! b = q_mem q !! b) -> head <> 0 ->
  queue_at (mkQueue mem head (if q_tail q =? 0 then last_addr K else q_tail q) (q_log q)) (K ++ N).
Proof.
  intros NK SK (SN & TN & HN) Disj F Hn. split_and!; cbn [q_mem q_head q_tail].
  - apply seg_app. exists (q_head q). split; [done|]. apply (seg_frame (q_mem q)); [|done]. intros b Hb. apply F.
    intros ->. destruct K as [|x K _] using rev_ind; [done|]. rewrite last_addr_app in Hb. apply (Disj x.1); [|done].
    rewrite fmap_app. set_solver.
  - rewrite TN. destruct N as [|x N _] using rev_ind; [by rewrite app_nil_r|]. rewrite app_assoc, !last_addr_app.
    rewrite (proj2 (Z.eqb_neq x.1 0)); [done|]. apply (seg_nonzero _ _ _ _ _ SN). rewrite fmap_app. set_solver.
  - by destruct K.
Qed.

(** C3. __CFRunLoopDoBlocks on the linked list implements a first-in first-out queue: the blocks of the
    current mode are called once each in order, the others stay in order in front of what the called
    blocks enqueue, no freed item is read and none is leaked, with malloc free to reuse addresses. *)
Theorem do_blocks_refines (fuel : nat) (commonModes : gset string) (curMode : string) (q : queue)
  (items : list block_item) :
  repr q items -> (length items <= fuel)%nat ->
  let doit := fun m => block_matches commonModes m curMode in
  let '(new, log) := call_list (b_block <$> matching doit items) [] (q_log q) in
  exists q', CFRunLoopDoBlocks fuel commonModes curMode q = Ok (q', bool_decide (matching doit items <> [])) /\
    repr q' (passed doit items ++ new) /\ q_log q' = log.
Proof.
  intros (A & <- & Q & ND & D) Hf doit. destruct (call_list _ _ _) as [new log] eqn:Ec.
  unfold CFRunLoopDoBlocks. destruct Q as (S & T & H0). destruct (decide (A = [])) as [->|NE].
  { rewrite H0 by done. cbn in *. injection Ec as <- <-. exists q. split_and!; [done| |done].
    exists []. split_and!; try done. }
  assert (Hh : q_head q <> 0) by (destruct A as [|[a i] A]; [done|]; by destruct S as (-> & ? & _)).
  rewrite (proj2 (Z.eqb_neq (q_head q) 0)) by done.
  rewrite length_fmap in Hf. assert (W : walking (mkQueue (q_mem q) 0 0 (q_log q)) [] A [] (q_head q) (q_head q)).
  { split; cbn; try done; by rewrite app_nil_r. }
  destruct (walk_spec doit A fuel _ [] [] _ _ false Hf W) as (q' & head & K & N & Ew & W' & EK & EN).
  change (last_addr []) with 0 in Ew. cbn [app] in Ew. fold doit. rewrite T, Ew. cbn [mbind result_bind orb].
  change (([] : list (Z * block_item)).*2) with (@nil block_item) in EN, EK. cbn [q_log app] in EN, EK. rewrite Ec in EN. injection EN as EN EL.
  destruct W' as [SK _ (SN & TN & HN) NDN DN]. cbn [app] in NDN, DN. rewrite <- EN, <- EK.
  destruct (decide (K = [])) as [->|NK].
  - cbn in SK. subst head. cbn. exists q'. split_and!; [done| |done]. by exists N.
  - assert (Hn : head <> 0) by (destruct K as [|[a i] K]; [done|]; by destruct SK as (-> & ? & _)).
    rewrite (proj2 (Z.eqb_neq head 0)) by done. rewrite fmap_app in NDN. apply NoDup_app in NDN as (NDK & Disj & NDN).
    destruct (seg_relink _ _ _ _ (q_head q') SK NK NDK) as (mem & -> & S2 & D2 & F2). cbn [mbind result_bind].
    eexists. split_and!; [done| |done]. exists (K ++ N). rewrite !fmap_app. split_and!; [done| |by apply NoDup_app|].
    + apply (joined_queue q'); [done|done|by split_and!|done|done|done].
    + cbn. rewrite D2, DN. by rewrite fmap_app.
Qed.

End Queue.

(** ** A concrete queue *)

Definition sample_malloc (X : gset Z) : Z := fresh ({[0]} ∪ X).

Lemma sample_malloc_fresh (X : gset Z) : sample_malloc X ∉ X /\ sample_malloc X <> 0.
Proof. pose proof (is_fresh ({[0]} ∪ X)). unfold sample_malloc. set_solver. Qed.

(** Block 1 enqueues block 3 for the mode "m"; the others enqueue nothing. *)
Definition sample_body (b : Z) (_ : list Z) : list block_item := if b =? 1 then [mkBlock (BString "m") 3] else [].

Definition sample_queue : queue :=
  mkQueue {[16 := mkNode 32 (mkBlock (BString "m") 1); 32 := mkNode 0 (mkBlock (BString "other") 2)]} 16 32 [].

Lemma sample_repr : repr sample_queue [mkBlock (BString "m") 1; mkBlock (BString "other") 2].
Proof.
  exists [(16, mkBlock (BString "m") 1); (32, mkBlock (BString "other") 2)]. split_and!; [done| | |].
  - split_and!; [|done..]. split_and!; [done..|]. exists 32. split; [done|]. split_and!; [done..|]. by exists 0.
  - apply (bool_decide_unpack _). by vm_compute.
  - apply (bool_decide_unpack _). by vm_compute.
Qed.

Lemma perform_block_witness :
  exists q', CFRunLoopPerformBlock sample_malloc sample_queue (mkBlock (BString "m") 7) = Ok q' /\
    repr q' [mkBlock (BString "m") 1; mkBlock (BString "other") 2; mkBlock (BString "m") 7] /\ q_log q' = [].
Proof.
  exact (perform_block_enqueues sample_malloc sample_body sample_malloc_fresh sample_queue _ (mkBlock (BString "m") 7) sample_repr).
Defined.

Lemma do_blocks_witness :
  exists q', CFRunLoopDoBlocks sample_malloc sample_body 2 ∅ "m" sample_queue = Ok (q', true) /\
    repr q' [mkBlock (BString "other") 2; mkBlock (BString "m") 3] /\ q_log q' = [1].
Proof.
  exact (do_blocks_refines sample_malloc sample_body sample_malloc_fresh 2 ∅ "m" sample_queue _ sample_repr (le_n 2)).
Defined.

End RunLoopBlocks.
