(* ===== verification/RunLoopTimers.v ===== *)
(** * The timers of a run loop stay sorted and consistent

    The insertion index of a timer array, the deadlines a mode is armed with, and
    the invariant that ties the timer arrays of the modes to the timers' own
    records, with its preservation by the operations on timers. *)

From stdpp Require Import base list numbers option strings gmap gmultiset sorting.
From Stdlib Require Import ZArith Lia.
From S2P Require Import Prelude RunLoop.

Module RunLoopTimers.
Import RunLoop.

(** ** The insertion index *)

Section Index.
Variable fire : Z -> Z.

Abbreviation by_fire := (StronglySorted (fun a b => fire a <= fire b)).

(** How many members of the array are not later than [x]. *)
Definition rank (x : Z) (l : list Z) : nat := length (filter (fun t => fire t <= x) l).

Lemma rank_le (x : Z) (l : list Z) : (rank x l <= length l)%nat.
Proof. apply length_filter. Qed.

Lemma rank_spec (x : Z) (l : list Z) (i : nat) (t : Z) :
  by_fire l -> l !! i = Some t -> (fire t <= x <-> (i < rank x l)%nat).
Proof.
  intros S. revert i. induction S as [|a l S IH H]; intros i Hi; [done|]. unfold rank. rewrite filter_cons.
  destruct (decide (fire a <= x)) as [L|G].
  - destruct i as [|i]; cbn in *; [injection Hi as <-; lia|]. rewrite (IH i Hi). unfold rank. lia.
  - assert (E : filter (fun t => fire t <= x) l = []).
    { destruct (filter _ l) as [|b k] eqn:Ef; [done|].
      assert (Hb : b ∈ filter (fun t => fire t <= x) l) by (rewrite Ef; left).
      apply list_elem_of_filter in Hb as [Hb Hl]. rewrite Forall_forall in H. specialize (H b Hl). lia. }
    rewrite E. cbn. split; [|lia]. intros Hx. destruct i as [|i]; cbn in Hi; [injection Hi as <-; lia|].
    rewrite Forall_forall in H. specialize (H t ltac:(by eapply list_elem_of_lookup_2)). lia.
Qed.

Lemma insertion_loop_spec (l : list Z) (x : Z) (k fuel : nat) (idx : Z) :
  by_fire l -> (k < fuel)%nat ->
  0 <= idx -> (idx = 0 \/ idx < Z.of_nat (rank x l)) -> Z.of_nat (rank x l) - 1 < idx + 2 ^ Z.of_nat k ->
  exists idx' leq, insertion_loop fire fuel l (Z.of_nat (length l)) (2 ^ Z.of_nat k) idx x = Ok (idx', leq) /\
    (if leq then idx' + 1 else idx') = Z.of_nat (rank x l).
Proof.
  intros So. revert k idx. induction fuel as [|fuel IH]; intros k idx Hf H0 Hidx Hr; [lia|].
  pose proof (rank_le x l) as Hp. cbn [insertion_loop]. cbv zeta.
  assert (Test : forall j, 0 <= j < Z.of_nat (length l) ->
    exists t, aget l j = Ok t /\ (fire t <=? x) = (j <? Z.of_nat (rank x l))).
  { intros j Hj. destruct (aget_bound l j Hj) as [t Ht]. exists t. split; [done|].
    apply aget_Ok in Ht as [_ Ht]. pose proof (rank_spec x l _ t So Ht) as R.
    destruct (Z.leb_spec (fire t) x), (Z.ltb_spec j (Z.of_nat (rank x l))); (done || lia). }
  destruct k as [|k].
  - change (2 ^ Z.of_nat 0) with 1 in *. change (Z.quot 1 2) with 0. rewrite Z.add_0_r. change (0 <? 0) with false.
    destruct (Z.ltb_spec idx (Z.of_nat (length l))) as [L|G].
    + destruct (Test idx ltac:(lia)) as (t & -> & E). cbn [mbind result_bind]. rewrite E.
      destruct (Z.ltb_spec idx (Z.of_nat (rank x l))); cbn [mbind result_bind]; do 2 eexists; (split; [reflexivity|]); lia.
    + cbn [mbind result_bind]. do 2 eexists. split; [reflexivity|]. lia.
  - assert (Hd : Z.quot (2 ^ Z.of_nat (S k)) 2 = 2 ^ Z.of_nat k).
    { rewrite Nat2Z.inj_succ, Z.pow_succ_r by lia. rewrite Z.mul_comm, Z.quot_mul; lia. }
    rewrite Hd. assert (Hpos : 0 < 2 ^ Z.of_nat k) by (apply Z.pow_pos_nonneg; lia).
    rewrite Nat2Z.inj_succ, Z.pow_succ_r in Hr by lia. rewrite (proj2 (Z.ltb_lt 0 _)) by lia.
    destruct (Z.ltb_spec (idx + 2 ^ Z.of_nat k) (Z.of_nat (length l))) as [L|G].
    + destruct (Test (idx + 2 ^ Z.of_nat k) ltac:(lia)) as (t & -> & E). cbn [mbind result_bind]. rewrite E.
      destruct (Z.ltb_spec (idx + 2 ^ Z.of_nat k) (Z.of_nat (rank x l))); cbn [mbind result_bind]; apply IH; lia.
    + cbn [mbind result_bind]. apply IH; lia.
Qed.

Lemma insertion_index_spec (l : list Z) (t : Z) :
  by_fire l -> Z.of_nat (length l) < 2 ^ 29 ->
  CFRunLoopInsertionIndexInTimerArray fire l t = Ok (Z.of_nat (rank (fire t) l)).
Proof.
  intros S Hl. unfold CFRunLoopInsertionIndexInTimerArray. pose proof (rank_le (fire t) l) as Hp.
  destruct (Z.leb_spec (Z.of_nat (length l)) 0) as [E|N].
  { f_equal. lia. }
  assert (Loop : (if 30 <=? flsl (Z.of_nat (length l)) then Undef
    else '(idx, lastTestLEQ) ← insertion_loop fire 66 l (Z.of_nat (length l))
           (Z.shiftl 1 (flsl (Z.of_nat (length l))) * 2) 0 (fire t);
         Ok (if (lastTestLEQ : bool) then idx + 1 else idx)) = Ok (Z.of_nat (rank (fire t) l))).
  { unfold flsl. rewrite (proj2 (Z.leb_gt (Z.of_nat (length l)) 0)) by lia.
    pose proof (Z.log2_lt_pow2 (Z.of_nat (length l)) 29 ltac:(lia)) as [L _]. specialize (L Hl).
    pose proof (Z.log2_nonneg (Z.of_nat (length l))) as L0.
    pose proof (Z.log2_spec (Z.of_nat (length l)) ltac:(lia)) as [_ LS]. rewrite <- Z.add_1_r in LS.
    rewrite (proj2 (Z.leb_gt 30 _)) by lia. rewrite Z.shiftl_mul_pow2 by lia. rewrite Z.mul_1_l.
    set (e := Z.log2 (Z.of_nat (length l))) in *.
    replace (2 ^ (e + 1) * 2) with (2 ^ Z.of_nat (Z.to_nat (e + 2))).
    2:{ rewrite Z2Nat.id by lia. replace (e + 2) with (e + 1 + 1) by lia. by rewrite (Z.pow_add_r 2 (e + 1) 1) by lia. }
    destruct (insertion_loop_spec l (fire t) (Z.to_nat (e + 2)) 66 0) as (idx' & leq & -> & E); [done|lia|lia|by left| |].
    - rewrite Z2Nat.id by lia. replace (e + 2) with (e + 1 + 1) by lia. rewrite (Z.pow_add_r 2 (e + 1) 1) by lia.
      change (2 ^ 1) with 2. lia.
    - cbn [mbind result_bind]. by rewrite E. }
  destruct (Z.ltb_spec 256 (Z.of_nat (length l))) as [Big|Small]; [|exact Loop].
  destruct (aget_bound l (Z.of_nat (length l) - 1) ltac:(lia)) as [z Hz]. rewrite Hz. cbn [mbind result_bind].
  apply aget_Ok in Hz as [_ Hz]. pose proof (rank_spec (fire t) l _ z S Hz) as Rz.
  destruct (Z.leb_spec (fire z) (fire t)); cbn [mbind result_bind]; [f_equal; lia|].
  destruct (aget_bound l 0 ltac:(lia)) as [a Ha]. rewrite Ha. cbn [mbind result_bind].
  apply aget_Ok in Ha as [_ Ha]. pose proof (rank_spec (fire t) l _ a S Ha) as Ra.
  destruct (Z.ltb_spec (fire t) (fire a)); [f_equal; lia|exact Loop].
Qed.

(** Inserting at the rank keeps the order, after the timers that fire at the same time. *)
Lemma insert_sorted (l : list Z) (t : Z) :
  by_fire l -> let i := rank (fire t) l in by_fire (take i l ++ t :: drop i l).
Proof.
  intros S. cbv zeta. set (i := rank (fire t) l).
  assert (H1 : Forall (fun a => fire a <= fire t) (take i l)).
  { apply Forall_lookup. intros j a Hj. apply lookup_take_Some in Hj as [Hj Hi].
    apply (rank_spec (fire t) l j a S Hj). fold i. lia. }
  assert (H2 : Forall (fun a => fire t < fire a) (drop i l)).
  { apply Forall_lookup. intros j a Hj. rewrite lookup_drop in Hj.
    destruct (Z.lt_ge_cases (fire t) (fire a)) as [|G]; [done|].
    apply (rank_spec (fire t) l _ a S Hj) in G. fold i in G. lia. }
  rewrite <- (take_drop i l) in S. clearbody i. revert S H1 H2. generalize (drop i l). induction (take i l) as [|a k IH];
    intros d S H1 H2; cbn [app] in *.
  - constructor; [done|]. apply (Forall_impl _ _ _ H2). cbn. lia.
  - inversion S as [|? ? S' F]; subst. apply Forall_cons in H1 as [Ha H1]. constructor; [by apply IH|].
    apply Forall_app in F as [F1 F2]. apply Forall_app. split; [done|]. by constructor.
Qed.

End Index.

Theorem insertion_index_correct (fire : Z -> Z) (l : list Z) (t : Z) :
  StronglySorted (fun a b => fire a <= fire b) l -> Z.of_nat (length l) < 2 ^ 29 ->
  exists i, CFRunLoopInsertionIndexInTimerArray fire l t = Ok (Z.of_nat i) /\
    Forall (fun a => fire a <= fire t) (take i l) /\ Forall (fun a => fire t < fire a) (drop i l).
Proof.
  intros S Hl. exists (rank fire (fire t) l). split; [by apply insertion_index_spec|]. split; apply Forall_lookup.
  - intros j a Hj. apply lookup_take_Some in Hj as [Hj Hi]. by apply (rank_spec fire (fire t) l j a S Hj).
  - intros j a Hj. rewrite lookup_drop in Hj. destruct (Z.lt_ge_cases (fire t) (fire a)) as [|G]; [done|].
    apply (rank_spec fire (fire t) l _ a S Hj) in G. lia.
Qed.

(** ** The deadlines of a mode *)

Section Deadlines.
Context `{E : Env} `{!EnvLaws E}.

Definition idle (w : world) (t : Z) : option timer :=
  tm ← w_timers w !! t; if t_firing tm then None else Some tm.

Definition soft_of (tm : timer) : Z := t_fireTSR tm.
Definition hard_of (tm : timer) : Z := Z.min UINT64_MAX (t_fireTSR tm + CFTimeIntervalToTSR (t_tolerance tm)).

Lemma soft_hard (tm : timer) : soft_of tm <= UINT64_MAX -> soft_of tm <= hard_of tm.
Proof. intros. unfold hard_of, soft_of in *. pose proof (interval_ticks (t_tolerance tm)). lia. Qed.

Lemma foldr_min_ge (x : Z) (l : list Z) : Forall (fun y => x <= y) l -> foldr Z.min x l = x.
Proof. induction 1 as [|y l Hy _ IH]; cbn; [done|]. rewrite IH. lia. Qed.

Lemma foldr_min_min (x y : Z) (l : list Z) : foldr Z.min (Z.min y x) l = Z.min y (foldr Z.min x l).
Proof. induction l as [|z l IH]; cbn; [done|]. rewrite IH. lia. Qed.

(** The search stops early, and still finds the least soft and hard deadlines. *)
Lemma next_deadlines_spec (w : world) (ts : list Z) (soft hard : Z) :
  StronglySorted (fun a b => fire_of w a <= fire_of w b) ts ->
  Forall (fun t => fire_of w t <= UINT64_MAX) ts -> soft <= hard <= UINT64_MAX ->
  next_deadlines w ts soft hard =
    (foldr Z.min soft (soft_of <$> omap (idle w) ts), foldr Z.min hard (hard_of <$> omap (idle w) ts)).
Proof.
  intros S. revert soft hard. induction S as [|t ts S IH H]; intros soft hard HM Hsh; cbn [next_deadlines]; [done|].
  apply Forall_cons_1 in HM as [Ht HM]. cbn [omap list_omap].
  assert (I : idle w t = match w_timers w !! t with Some tm => if t_firing tm then None else Some tm | None => None end)
    by (unfold idle; by destruct (w_timers w !! t)).
  rewrite I. clear I. destruct (w_timers w !! t) as [tm|] eqn:Etm; [|by apply IH].
  destruct (t_firing tm) eqn:Ef; [by apply IH|].
  assert (F : fire_of w t = soft_of tm) by (unfold fire_of; by rewrite Etm). rewrite F in Ht, H.
  pose proof (soft_hard tm Ht) as SH.
  assert (Eh : (if UINT64_MAX <? t_fireTSR tm + CFTimeIntervalToTSR (t_tolerance tm) then UINT64_MAX
    else t_fireTSR tm + CFTimeIntervalToTSR (t_tolerance tm)) = hard_of tm).
  { unfold hard_of. destruct (Z.ltb_spec UINT64_MAX (t_fireTSR tm + CFTimeIntervalToTSR (t_tolerance tm))); lia. }
  rewrite Eh. change (t_fireTSR tm) with (soft_of tm). cbn [fmap list_fmap foldr].
  destruct (Z.ltb_spec hard (soft_of tm)) as [B|B].
  - assert (L : Forall (fun tm' => soft_of tm <= soft_of tm' /\ soft_of tm <= hard_of tm') (omap (idle w) ts)).
    { apply Forall_forall. intros tm' Hin. apply list_elem_of_omap in Hin as (t' & Ht' & Eq).
      rewrite Forall_forall in H, HM. specialize (H t' Ht'). specialize (HM t' Ht').
      unfold idle in Eq. destruct (w_timers w !! t') as [tm2|] eqn:E2; [|done]. cbn in Eq.
      destruct (t_firing tm2); [done|]. injection Eq as ->. unfold fire_of in H, HM. rewrite E2 in H, HM. cbn in H, HM.
      pose proof (soft_hard tm' HM). unfold soft_of in *. cbn in *. lia. }
    rewrite !foldr_min_ge; [f_equal; lia| |];
      (apply Forall_fmap; apply (Forall_impl _ _ _ L); cbn; intros; lia).
  - replace (if soft_of tm <? soft then soft_of tm else soft) with (Z.min (soft_of tm) soft)
      by (destruct (Z.ltb_spec (soft_of tm) soft); lia).
    replace (if hard_of tm <? hard then hard_of tm else hard) with (Z.min (hard_of tm) hard)
      by (destruct (Z.ltb_spec (hard_of tm) hard); lia).
    rewrite IH; [by rewrite !foldr_min_min|done|lia].
Qed.

(** A mode with a deadline has one of its two timers armed for it. *)
Definition armed_ok (m : mode) : Prop :=
  m_timerSoftDeadline m < UINT64_MAX ->
  (a_dispatchTimerArmed (m_armed m) = true /\
   a_dispatch (m_armed m) = Some (CFTSRToDispatchTime (m_timerSoftDeadline m),
     CFTSRToNanoseconds (u64 (m_timerHardDeadline m - m_timerSoftDeadline m)))) \/
  (a_mkTimerArmed (m_armed m) = true /\ a_mk (m_armed m) = Some (m_timerSoftDeadline m)).


End Deadlines.

(** ** The timer arrays and the timers *)

Definition timers_in (w : world) (rl : Z) (name : string) : list Z := default [] (find_mode w rl name ≫= m_timers).

Record timers_ok (w : world) : Prop := mk_timers_ok {
  tk_sorted : forall rl name, StronglySorted (fun a b => fire_of w a <= fire_of w b) (timers_in w rl name);
  tk_nodup : forall rl name, NoDup (timers_in w rl name);
  tk_member : forall rl name t, t ∈ timers_in w rl name <->
    exists tm, w_timers w !! t = Some tm /\ t_runLoop tm = Some rl /\ name ∈ t_rlModes tm;
  tk_owner : forall t tm, w_timers w !! t = Some tm -> t_runLoop tm = None <-> t_rlModes tm = ∅;
  tk_few : Z.of_nat (size (w_timers w)) < 2 ^ 29
}.

Section Invariant.
Context `{E : Env} `{!EnvLaws E}.

Lemma find_mode_upd_mode (w : world) (rl rl' : Z) (name name' : string) (f : mode -> mode) :
  find_mode (upd_mode rl name f w) rl' name' =
    if decide (rl = rl' /\ name = name') then f <$> find_mode w rl' name' else find_mode w rl' name'.
Proof.
  unfold find_mode, upd_mode, upd_loop, upd_loops. cbn. case_decide as D.
  - destruct D as [-> ->]. rewrite lookup_alter_eq. destruct (w_loops w !! rl') as [r|]; cbn; [|done].
    by rewrite lookup_alter_eq.
  - destruct (decide (rl = rl')) as [->|N].
    + rewrite lookup_alter_eq. destruct (w_loops w !! rl') as [r|]; cbn; [|done].
      rewrite lookup_alter_ne; [done|]. intros ->. by apply D.
    + by rewrite lookup_alter_ne.
Qed.

Lemma timers_in_upd_mode (w : world) (rl rl' : Z) (name name' : string) (f : mode -> mode) :
  (forall m, m_timers (f m) = m_timers m) ->
  timers_in (upd_mode rl name f w) rl' name' = timers_in w rl' name'.
Proof.
  intros Hf. unfold timers_in. rewrite find_mode_upd_mode. case_decide; [|done].
  destruct (find_mode w rl' name'); cbn; [by rewrite Hf|done].
Qed.

Lemma timers_in_set (w : world) (rl rl' : Z) (name name' : string) (l : list Z) :
  is_Some (find_mode w rl name) ->
  timers_in (upd_mode rl name (set_timers l) w) rl' name' =
    if decide (rl = rl' /\ name = name') then l else timers_in w rl' name'.
Proof.
  intros [m Hm]. unfold timers_in. rewrite find_mode_upd_mode. case_decide as D; [|done].
  destruct D as [<- <-]. by rewrite Hm.
Qed.

Lemma arm_timers (w : world) (m : mode) : m_timers (CFArmNextTimerInMode w m) = m_timers m.
Proof.
  unfold CFArmNextTimerInMode. destruct (m_timers m) eqn:Em; [|done].
  by destruct (next_deadlines _ _ _ _).
Qed.

Lemma timers_in_arm (w : world) (rl rl' : Z) (name name' : string) :
  timers_in (arm_next w rl name) rl' name' = timers_in w rl' name'.
Proof. apply timers_in_upd_mode. apply arm_timers. Qed.

Lemma find_mode_arm (w : world) (rl rl' : Z) (name name' : string) :
  is_Some (find_mode w rl' name') -> is_Some (find_mode (arm_next w rl name) rl' name').
Proof.
  intros [m Hm]. unfold arm_next. rewrite find_mode_upd_mode. case_decide; rewrite Hm; cbn; eauto.
Qed.

Lemma index_of (l : list Z) (t : Z) :
  match CFArrayGetFirstIndexOfValue l t with
  | Some i => l !! i = Some t
  | None => t ∉ l
  end.
Proof.
  unfold CFArrayGetFirstIndexOfValue. destruct (list_find (fun x => x = t) l) as [[i x]|] eqn:F; cbn.
  - apply list_find_Some in F as (F & -> & _). done.
  - apply list_find_None in F. intros Hin. rewrite Forall_forall in F. by apply (F t Hin).
Qed.

Lemma sorted_delete {A} (R : A -> A -> Prop) (l : list A) (i : nat) :
  StronglySorted R l -> StronglySorted R (delete i l).
Proof.
  intros S. revert i. induction S as [|a l S IH H]; intros [|i]; cbn; [constructor..|done|].
  constructor; [apply IH|]. apply Forall_delete. done.
Qed.

Lemma delete_perm (l : list Z) (i : nat) (t : Z) : l !! i = Some t -> l ≡ₚ t :: delete i l.
Proof. apply delete_Permutation. Qed.

Lemma few_members (w : world) (rl : Z) (name : string) :
  timers_ok w -> Z.of_nat (length (timers_in w rl name)) < 2 ^ 29.
Proof.
  intros W. pose proof (tk_few w W). 
  assert (H' : (length (timers_in w rl name) <= size (w_timers w))%nat); [|lia].
  rewrite <- (size_dom (D := gset Z)), <- (size_list_to_set (C := gset Z)) by apply (tk_nodup w W).
  apply subseteq_size. intros t Ht. apply elem_of_list_to_set, (tk_member w W) in Ht as (tm & Ht & _).
  by apply elem_of_dom_2 in Ht.
Qed.

(** Repositioning in an array from which the timer is away: the others in order. *)
Definition reinserted (fire : Z -> Z) (t : Z) (l : list Z) : list Z :=
  take (rank fire (fire t) l) l ++ t :: drop (rank fire (fire t) l) l.

Lemma reinserted_perm (fire : Z -> Z) (t : Z) (l : list Z) : reinserted fire t l ≡ₚ t :: l.
Proof. unfold reinserted. rewrite <- Permutation_middle. by rewrite take_drop. Qed.

Lemma reinserted_ext (f g : Z -> Z) (t : Z) (l : list Z) :
  (forall x, f x = g x) -> reinserted f t l = reinserted g t l.
Proof.
  intros H. unfold reinserted. assert (R : rank f (f t) l = rank g (g t) l); [|by rewrite R].
  unfold rank. f_equal. apply list_filter_iff. intros x. by rewrite !H.
Qed.

Lemma reposition_spec (w : world) (rl : Z) (name : string) (t : Z) (isIn : bool) (l : list Z) :
  is_Some (find_mode w rl name ≫= m_timers) ->
  (if isIn then exists i, CFArrayGetFirstIndexOfValue (timers_in w rl name) t = Some i /\ l = delete i (timers_in w rl name)
   else l = timers_in w rl name) ->
  StronglySorted (fun a b => fire_of w a <= fire_of w b) l -> Z.of_nat (length l) < 2 ^ 29 ->
  exists w', CFRepositionTimerInMode w rl name t isIn = Ok w' /\ w_timers w' = w_timers w /\
    (forall rl' name', timers_in w' rl' name' =
       if decide (rl = rl' /\ name = name') then reinserted (fire_of w) t l else timers_in w rl' name') /\
    (forall rl' name', is_Some (find_mode w rl' name') -> is_Some (find_mode w' rl' name')).
Proof.
  intros [ts Hts] Hl S Hlen. unfold CFRepositionTimerInMode. rewrite Hts.
  assert (Ht : timers_in w rl name = ts) by (unfold timers_in; by rewrite Hts). rewrite Ht in Hl.
  assert (Hm : is_Some (find_mode w rl name)) by (destruct (find_mode w rl name); [by eexists|done]).
  assert (Hin : (newIdx ← CFRunLoopInsertionIndexInTimerArray (fire_of w) l t;
     Ok (arm_next (upd_mode rl name (set_timers (take (Z.to_nat newIdx) l ++ t :: drop (Z.to_nat newIdx) l)) w) rl name))
     = Ok (arm_next (upd_mode rl name (set_timers (reinserted (fire_of w) t l)) w) rl name)).
  { rewrite insertion_index_spec by done. cbn [mbind result_bind]. by rewrite Nat2Z.id. }
  exists (arm_next (upd_mode rl name (set_timers (reinserted (fire_of w) t l)) w) rl name). split_and!.
  - destruct isIn; [destruct Hl as (i & -> & ->)|subst l]; exact Hin.
  - done.
  - intros rl' name'. rewrite timers_in_arm, timers_in_set by done. done.
  - intros rl' name' H'. apply find_mode_arm. rewrite find_mode_upd_mode. case_decide; [|done].
    destruct H' as [m ->]. by eexists.
Qed.

Lemma sorted_ext (f g : Z -> Z) (l : list Z) :
  (forall x, g x = f x) -> StronglySorted (fun a b => f a <= f b) l -> StronglySorted (fun a b => g a <= g b) l.
Proof.
  intros H. induction 1 as [|a l _ IH F]; constructor; [done|]. apply (Forall_impl _ _ _ F). intros b. by rewrite !H.
Qed.

Lemma sorted_ext_in (f g : Z -> Z) (l : list Z) :
  (forall x, x ∈ l -> g x = f x) ->
  StronglySorted (fun a b => f a <= f b) l -> StronglySorted (fun a b => g a <= g b) l.
Proof.
  intros H S. induction S as [|a l S IH F]; constructor; [apply IH; intros; apply H; by right|].
  apply Forall_forall. intros b Hb. rewrite Forall_forall in F. rewrite (H a), (H b); [by apply F|by right|left].
Qed.

Lemma fire_of_upd (w : world) (t t' : Z) (f : timer -> timer) :
  (forall tm, t_fireTSR (f tm) = t_fireTSR tm) -> fire_of (upd_timer t f w) t' = fire_of w t'.
Proof.
  intros Hf. unfold fire_of, upd_timer. cbn. destruct (decide (t = t')) as [->|N].
  - rewrite lookup_alter_eq. destruct (w_timers w !! t'); cbn; [by rewrite Hf|done].
  - by rewrite lookup_alter_ne.
Qed.

Lemma timers_in_create (w : world) (rl rl' : Z) (name name' : string) :
  timers_in (CFRunLoopFindMode_create w rl name) rl' name' = timers_in w rl' name'.
Proof.
  unfold CFRunLoopFindMode_create. destruct (w_loops w !! rl) as [r|] eqn:Er; [|done].
  destruct (rl_modes r !! name) eqn:Em; [done|]. unfold timers_in, find_mode, upd_loop, upd_loops. cbn.
  destruct (decide (rl = rl')) as [<-|N]; [|by rewrite lookup_alter_ne].
  rewrite lookup_alter_eq, Er. cbn. destruct (decide (name = name')) as [<-|Nn].
  - by rewrite lookup_insert_eq, Em.
  - by rewrite lookup_insert_ne.
Qed.

Lemma create_found (w : world) (rl : Z) (name : string) :
  is_Some (w_loops w !! rl) -> is_Some (find_mode (CFRunLoopFindMode_create w rl name) rl name).
Proof.
  intros [r Er]. unfold CFRunLoopFindMode_create. rewrite Er. unfold find_mode.
  destruct (rl_modes r !! name) eqn:Em; [rewrite Er; cbn; by rewrite Em|].
  unfold upd_loop, upd_loops. cbn. rewrite lookup_alter_eq, Er. cbn. by rewrite lookup_insert_eq.
Qed.

Lemma create_timers (w : world) (rl : Z) (name : string) :
  w_timers (CFRunLoopFindMode_create w rl name) = w_timers w.
Proof. unfold CFRunLoopFindMode_create. destruct (w_loops w !! rl) as [r|]; [|done]. by destruct (rl_modes r !! name). Qed.

(** The invariant reads the timers, and the arrays, only. *)
Lemma timers_ok_ext (w w' : world) :
  w_timers w' = w_timers w -> (forall rl name, timers_in w' rl name = timers_in w rl name) ->
  timers_ok w -> timers_ok w'.
Proof.
  intros Ht Hi [S N M O F]. assert (Ef : forall t, fire_of w' t = fire_of w t) by (intros; unfold fire_of; by rewrite Ht).
  split.
  - intros rl name. rewrite Hi. by apply (sorted_ext (fire_of w)).
  - intros rl name. by rewrite Hi.
  - intros rl name t. by rewrite Hi, Ht.
  - intros t tm. rewrite Ht. apply O.
  - by rewrite Ht.
Qed.

(** The invariant after a change of one timer and of the arrays. *)
Lemma timers_ok_moved (w w' : world) (t : Z) (tm tm' : timer) :
  timers_ok w -> w_timers w !! t = Some tm -> w_timers w' = <[t := tm']> (w_timers w) ->
  (t_runLoop tm' = None <-> t_rlModes tm' = ∅) ->
  (forall rl name, StronglySorted (fun a b => fire_of w' a <= fire_of w' b) (timers_in w' rl name)) ->
  (forall rl name, NoDup (timers_in w' rl name)) ->
  (forall rl name x, x <> t -> x ∈ timers_in w' rl name <-> x ∈ timers_in w rl name) ->
  (forall rl name, t ∈ timers_in w' rl name <-> t_runLoop tm' = Some rl /\ name ∈ t_rlModes tm') ->
  timers_ok w'.
Proof.
  intros W Et L O S N Mx Mt. split; [done|done| | |].
  - intros rl name x. rewrite L. destruct (decide (x = t)) as [->|Nx].
    + rewrite Mt, lookup_insert_eq. split; [intros [? ?]; by exists tm'|intros (? & [= <-] & ?); done].
    + rewrite Mx, (tk_member w W), lookup_insert_ne by done. done.
  - intros x y. rewrite L. destruct (decide (x = t)) as [->|Nx].
    + rewrite lookup_insert_eq. by intros [= <-].
    + rewrite lookup_insert_ne by done. apply (tk_owner w W).
  - rewrite L, map_size_insert_Some by (by rewrite Et). apply (tk_few w W).
Qed.

Lemma alter_insert_timer (w : world) (t : Z) (f : timer -> timer) (tm : timer) :
  w_timers w !! t = Some tm -> w_timers (upd_timer t f w) = <[t := f tm]> (w_timers w).
Proof.
  intros Et. cbn. apply map_eq. intros k. destruct (decide (k = t)) as [->|Nk].
  - by rewrite lookup_alter_eq, lookup_insert_eq, Et.
  - by rewrite lookup_alter_ne, lookup_insert_ne by done.
Qed.

(** The world in which a timer is about to be added to a mode. *)
Lemma prepare_mode (w : world) (rl : Z) (name : string) :
  is_Some (w_loops w !! rl) ->
  let w1 := upd_mode rl name (fun m => match m_timers m with None => set_timers [] m | Some _ => m end)
              (CFRunLoopFindMode_create w rl name) in
  is_Some (find_mode w1 rl name ≫= m_timers) /\ w_timers w1 = w_timers w /\
  (forall rl' name', timers_in w1 rl' name' = timers_in w rl' name').
Proof.
  intros Hl. cbv zeta. destruct (create_found w rl name Hl) as [m Hm]. split_and!.
  - rewrite find_mode_upd_mode, decide_True by done. rewrite Hm. cbn. by destruct (m_timers m) eqn:Em; cbn; rewrite ?Em.
  - by apply create_timers.
  - intros rl' name'. rewrite <- (timers_in_create w rl rl' name name'). unfold timers_in at 1 2.
    rewrite find_mode_upd_mode. case_decide; [|done]. destruct (find_mode _ rl' name') as [m'|]; cbn; [|done].
    by destruct (m_timers m') eqn:Em'; cbn; rewrite ?Em'.
Qed.

Lemma add_timer_in_mode_ok (w : world) (rl t : Z) (name : string) :
  timers_ok w -> is_Some (w_loops w !! rl) ->
  exists w', add_timer_in_mode w rl t name = Ok w' /\ timers_ok w' /\
    (forall tm, w_timers w !! t = Some tm -> loop_free (t_runLoop tm) rl = true -> t ∈ timers_in w' rl name) /\
    (forall rl' name', (rl', name') <> (rl, name) -> timers_in w' rl' name' = timers_in w rl' name') /\
    (forall tm, w_timers w !! t = Some tm -> loop_free (t_runLoop tm) rl = true -> name ∉ t_rlModes tm ->
       timers_in w' rl name = reinserted (fire_of w) t (timers_in w rl name) /\
       exists tm', w_timers w' !! t = Some tm' /\ t_runLoop tm' = Some rl).
Proof.
  intros W Hl. unfold add_timer_in_mode. destruct (prepare_mode w rl name Hl) as (Hm & Ht & Hi).
  set (w1 := upd_mode rl name _ (CFRunLoopFindMode_create w rl name)) in *. cbv zeta.
  pose proof (timers_ok_ext w w1 Ht Hi W) as W1. rewrite Ht.
  destruct (find_mode w1 rl name) as [m|] eqn:Em; [|by destruct Hm].
  destruct (w_timers w !! t) as [tm|] eqn:Et; [|by exists w1; split_and!].
  case_bool_decide as Din.
  { exists w1. split_and!; [done|done| |by intros; apply Hi|by intros ? [= <-]]. intros tm' [= <-] Hfree. rewrite Hi.
    apply (tk_member w W). exists tm. split; [done|]. split; [|done]. destruct (t_runLoop tm) as [o|] eqn:Eo.
    - cbn in Hfree. f_equal. lia.
    - apply (proj1 (tk_owner w W t tm Et)) in Eo. set_solver. }
  destruct (loop_free (t_runLoop tm) rl) eqn:Efree; [|by exists w1; split_and!; [| |congruence| |congruence]].
  set (w2 := upd_timer t (set_timer_loop (Some rl) ({[name]} ∪ t_rlModes tm)) w1).
  assert (F2 : forall x, fire_of w2 x = fire_of w1 x) by (intros x; by apply fire_of_upd).
  assert (I2 : forall rl' name', timers_in w2 rl' name' = timers_in w rl' name') by (intros; apply Hi).
  assert (Nin : t ∉ timers_in w rl name).
  { rewrite (tk_member w W). intros (tm' & E' & _ & D). congruence. }
  destruct (reposition_spec w2 rl name t false (timers_in w2 rl name)) as (w' & Er & T' & I' & _).
  { change (is_Some (find_mode w1 rl name ≫= m_timers)). by rewrite Em. }
  { done. }
  { rewrite I2, <- Hi. apply (sorted_ext (fire_of w1)); [done|apply (tk_sorted w1 W1)]. }
  { rewrite I2. by apply few_members. }
  exists w'. rewrite Er. split; [done|].
  assert (Own : t_runLoop tm = Some rl \/ t_rlModes tm = ∅).
  { destruct (t_runLoop tm) as [o|] eqn:Eo; [left; cbn in Efree; f_equal; lia|right; by apply (proj1 (tk_owner w W t tm Et))]. }
  assert (L2 : w_timers w2 = <[t := set_timer_loop (Some rl) ({[name]} ∪ t_rlModes tm) tm]> (w_timers w)).
  { unfold w2. rewrite (alter_insert_timer w1 _ _ tm); by rewrite Ht. }
  assert (S2 : forall rl' name', StronglySorted (fun a b => fire_of w2 a <= fire_of w2 b) (timers_in w2 rl' name')).
  { intros rl' name'. rewrite I2, <- Hi. apply (sorted_ext (fire_of w1)); [done|apply (tk_sorted w1 W1)]. }
  split_and!.
  - apply (timers_ok_moved w w' t tm (set_timer_loop (Some rl) ({[name]} ∪ t_rlModes tm) tm)); try done.
    + by rewrite T'.
    + cbn. split; [done|]. intros Hem. set_solver.
    + intros rl' name'. rewrite I'. apply (sorted_ext (fire_of w2)); [intros x; unfold fire_of; by rewrite T'|].
      case_decide as D; [|done]. destruct D as [<- <-]. by apply insert_sorted.
    + intros rl' name'. rewrite I'. case_decide; [|rewrite I2; apply (tk_nodup w W)].
      rewrite reinserted_perm, I2. constructor; [done|apply (tk_nodup w W)].
    + intros rl' name' x Nx. rewrite I'. case_decide as D; [|by rewrite I2]. destruct D as [<- <-].
      rewrite reinserted_perm, I2, elem_of_cons. naive_solver.
    + intros rl' name'. cbn. rewrite I'. destruct (decide (rl = rl' /\ name = name')) as [[<- <-]|Nd].
      * rewrite reinserted_perm, elem_of_cons. split; [|by left]. intros _. set_solver.
      * rewrite I2, (tk_member w W). rewrite Et. split.
        -- intros (? & [= <-] & O & D). destruct Own as [Own|Own]; [|rewrite Own in D; set_solver]. split; [congruence|set_solver].
        -- intros [[= <-] D]. apply elem_of_union in D as [D|D]; [apply elem_of_singleton in D as ->; by destruct Nd|].
           exists tm. split; [done|]. destruct Own as [Own|Own]; [done|rewrite Own in D; set_solver].
  - intros tm' _ _. rewrite I', decide_True by done. rewrite reinserted_perm. by left.
  - intros rl' name' Nd. rewrite I', decide_False by naive_solver. apply I2.
  - intros tm' _ _ _. rewrite I', decide_True, I2 by done. split.
    + apply reinserted_ext. intros x. rewrite F2. unfold fire_of. by rewrite Ht.
    + rewrite T', L2, lookup_insert_eq. by eexists.
Qed.

Lemma remove_timer_in_mode_ok (w : world) (rl t : Z) (name : string) :
  timers_ok w ->
  let w' := remove_timer_in_mode w rl t name in
  timers_ok w' /\ (t ∉ timers_in w' rl name) /\
  (forall rl' name' x, x ∈ timers_in w' rl' name' -> x ∈ timers_in w rl' name') /\
  (forall x, x <> t -> w_timers w' !! x = w_timers w !! x) /\
  (forall tm, w_timers w !! t = Some tm -> exists tm', w_timers w' !! t = Some tm' /\ t_valid tm' = t_valid tm).
Proof.
  intros W. cbv zeta. unfold remove_timer_in_mode.
  destruct (find_mode w rl name ≫= m_timers) as [ts|] eqn:Ets.
  2:{ split_and!; try done; [|eauto]. unfold timers_in. rewrite Ets. apply not_elem_of_nil. }
  assert (Hin : timers_in w rl name = ts) by (unfold timers_in; by rewrite Ets).
  pose proof (index_of ts t) as Hidx. destruct (CFArrayGetFirstIndexOfValue ts t) as [i|].
  2:{ split_and!; try done; [by rewrite Hin|eauto]. }
  assert (Hm : is_Some (find_mode w rl name)) by (destruct (find_mode w rl name); [by eexists|done]).
  assert (Mt : t ∈ timers_in w rl name) by (rewrite Hin; by eapply list_elem_of_lookup_2).
  apply (tk_member w W) in Mt as (tm & Et & Er & En).
  set (f := fun tm => set_timer_loop (if bool_decide (t_rlModes tm ∖ {[name]} = ∅) then None else t_runLoop tm)
                        (t_rlModes tm ∖ {[name]}) tm).
  set (w1 := upd_timer t f w). set (w2 := upd_mode rl name (set_timers (delete i ts)) w1).
  assert (I2 : forall rl' name', timers_in (arm_next w2 rl name) rl' name' =
    if decide (rl = rl' /\ name = name') then delete i ts else timers_in w rl' name').
  { intros. rewrite timers_in_arm. unfold w2. by rewrite timers_in_set. }
  assert (P : ts ≡ₚ t :: delete i ts) by (by apply delete_perm).
  assert (Px : forall x, x ∈ ts <-> x = t \/ x ∈ delete i ts) by (intros x; rewrite P at 1; apply elem_of_cons).
  pose proof (tk_nodup w W rl name) as Nd. rewrite Hin, P in Nd. apply NoDup_cons in Nd as [Nt Nd].
  split_and!.
  - apply (timers_ok_moved w _ t tm (f tm)); try done.
    + change (w_timers (arm_next w2 rl name)) with (w_timers w1). by apply alter_insert_timer.
    + cbn. case_bool_decide; [done|]. rewrite Er. split; [done|congruence].
    + intros rl' name'. rewrite I2. apply (sorted_ext (fire_of w)); [intros x; exact (fire_of_upd w t x f (fun _ => eq_refl))|].
      case_decide; [|apply (tk_sorted w W)]. apply sorted_delete. rewrite <- Hin. apply (tk_sorted w W).
    + intros rl' name'. rewrite I2. case_decide; [done|apply (tk_nodup w W)].
    + intros rl' name' x Nx. rewrite I2. case_decide as D; [|done]. destruct D as [<- <-].
      rewrite Hin, Px. naive_solver.
    + intros rl' name'. rewrite I2. cbn. destruct (decide (rl = rl' /\ name = name')) as [[<- <-]|D].
      * split; [done|]. intros [_ Hd]. set_solver.
      * rewrite (tk_member w W), Et. split.
        -- intros (? & [= <-] & O & Hd). rewrite Er in O. injection O as <-.
           assert (name' <> name) by naive_solver. rewrite bool_decide_false by set_solver. set_solver.
        -- intros [O Hd]. exists tm. case_bool_decide; [done|]. set_solver.
  - by rewrite I2, decide_True by done.
  - intros rl' name' x. rewrite I2. case_decide as D; [|done]. destruct D as [<- <-]. rewrite Hin, Px. by right.
  - intros x Nx. change (w_timers (arm_next w2 rl name)) with (alter f t (w_timers w)). by rewrite lookup_alter_ne.
  - intros tm0 E0. change (w_timers (arm_next w2 rl name)) with (alter f t (w_timers w)).
    rewrite lookup_alter_eq, E0. by eexists.
Qed.

Lemma items_keep (w : world) (rl : Z) (f : gset item -> gset item) :
  w_timers (upd_loop rl (set_items_common f) w) = w_timers w /\
  forall rl' name', timers_in (upd_loop rl (set_items_common f) w) rl' name' = timers_in w rl' name'.
Proof.
  split; [done|]. intros rl' name'. unfold timers_in, find_mode, upd_loop, upd_loops. cbn.
  destruct (decide (rl = rl')) as [<-|N]; [|by rewrite lookup_alter_ne].
  rewrite lookup_alter_eq. by destruct (w_loops w !! rl).
Qed.

Lemma remove_timer_ok (w : world) (rl t : Z) (name : string) :
  timers_ok w -> timers_ok (CFRunLoopRemoveTimer w rl t name).
Proof.
  intros W. unfold CFRunLoopRemoveTimer. case_bool_decide; [|by apply remove_timer_in_mode_ok].
  destruct (in_common_items w rl (ITimer t)); [|done].
  destruct (items_keep w rl (fun X => X ∖ {[ITimer t]})) as [K1 K2].
  pose proof (timers_ok_ext _ _ K1 K2 W) as W1. revert W1.
  generalize (upd_loop rl (set_items_common (fun X => X ∖ {[ITimer t]})) w).
  induction (common_modes w rl) as [|n ns IH]; intros w1 W1; cbn [foldl]; [done|].
  apply IH. unfold remove_timer_nested. case_bool_decide; [done|by apply remove_timer_in_mode_ok].
Qed.

Lemma loops_kept (w : world) (rl : Z) (name : string) (f : mode -> mode) (rl' : Z) :
  is_Some (w_loops w !! rl') -> is_Some (w_loops (upd_mode rl name f w) !! rl').
Proof.
  intros [r Hr]. unfold upd_mode, upd_loop, upd_loops. cbn. destruct (decide (rl = rl')) as [->|N].
  - rewrite lookup_alter_eq, Hr. by eexists.
  - rewrite lookup_alter_ne, Hr by done. by eexists.
Qed.

Lemma add_timer_loops (w w' : world) (rl t : Z) (name : string) (rl' : Z) :
  add_timer_in_mode w rl t name = Ok w' -> is_Some (w_loops w !! rl') -> is_Some (w_loops w' !! rl').
Proof.
  intros H Hl.
  assert (Hc : is_Some (w_loops (CFRunLoopFindMode_create w rl name) !! rl')).
  { unfold CFRunLoopFindMode_create. destruct (w_loops w !! rl) as [r|]; [|done].
    destruct (rl_modes r !! name); [done|]. unfold upd_loop, upd_loops. cbn.
    destruct Hl as [r' Hr']. destruct (decide (rl = rl')) as [->|N];
      [rewrite lookup_alter_eq|rewrite lookup_alter_ne by done]; rewrite Hr'; by eexists. }
  unfold add_timer_in_mode in H. apply (loops_kept _ rl name (fun m => match m_timers m with None => set_timers [] m | Some _ => m end)) in Hc.
  set (w1 := upd_mode rl name _ _) in *.
  destruct (w_timers w1 !! t) as [tm|]; [|by injection H as <-]. destruct (find_mode w1 rl name); [|by injection H as <-].
  case_bool_decide; [by injection H as <-|]. destruct (loop_free _ _); [|by injection H as <-].
  unfold CFRepositionTimerInMode in H. destruct (_ ≫= m_timers) as [ts|]; [|by injection H as <-].
  apply bind_Ok in H as (i & _ & [= <-]). unfold arm_next. by do 2 apply loops_kept.
Qed.

Lemma add_timer_plain (depth : nat) (w : world) (rl t : Z) (name : string) :
  name <> kCFRunLoopCommonModes -> timers_ok w -> is_Some (w_loops w !! rl) ->
  exists w', add_timer depth w rl t name = Ok w' /\ timers_ok w' /\ is_Some (w_loops w' !! rl).
Proof.
  intros Hn W Hl. assert (Eq : add_timer depth w rl t name = match w_timers w !! t with
    | None => Ok w
    | Some tm => if is_deallocating w rl then Ok w
                 else if negb (t_valid tm) || negb (loop_free (t_runLoop tm) rl) then Ok w
                 else add_timer_in_mode w rl t name
    end) by (destruct depth; cbn [add_timer]; by rewrite bool_decide_false).
  rewrite Eq. destruct (w_timers w !! t) as [tm|]; [|by exists w].
  destruct (is_deallocating w rl); [by exists w|]. destruct (_ || _); [by exists w|].
  destruct (add_timer_in_mode_ok w rl t name W Hl) as (w' & Ea & W' & _). exists w'.
  split_and!; [done|done|]. by eapply add_timer_loops.
Qed.

Lemma add_timer_S (depth : nat) (w : world) (rl t : Z) :
  add_timer (S depth) w rl t kCFRunLoopCommonModes =
    match w_timers w !! t with
    | None => Ok w
    | Some tm =>
      if is_deallocating w rl then Ok w
      else if negb (t_valid tm) || negb (loop_free (t_runLoop tm) rl) then Ok w
      else over_modes (fun w name => add_timer depth w rl t name) (upd_loop rl (set_items_common (union {[ITimer t]})) w) (common_modes w rl)
    end.
Proof. reflexivity. Qed.

Lemma add_timer_ok (w : world) (rl t : Z) (name : string) :
  timers_ok w -> is_Some (w_loops w !! rl) -> (name = kCFRunLoopCommonModes -> kCFRunLoopCommonModes ∉ common_modes w rl) ->
  exists w', CFRunLoopAddTimer w rl t name = Ok w' /\ timers_ok w'.
Proof.
  intros W Hl Hc. unfold CFRunLoopAddTimer. destruct (decide (name = kCFRunLoopCommonModes)) as [->|Hn];
    [|destruct (add_timer_plain 1 w rl t name Hn W Hl) as (w' & Ea & W' & _); by exists w'].
  specialize (Hc eq_refl). rewrite add_timer_S. destruct (w_timers w !! t) as [tm|]; [|by exists w].
  destruct (is_deallocating w rl); [by exists w|]. destruct (_ || _); [by exists w|].
  destruct (items_keep w rl (union {[ITimer t]})) as [K1 K2].
  pose proof (timers_ok_ext _ _ K1 K2 W) as W1.
  assert (L1 : is_Some (w_loops (upd_loop rl (set_items_common (union {[ITimer t]})) w) !! rl)).
  { unfold upd_loop, upd_loops. cbn. destruct Hl as [r Hr]. rewrite lookup_alter_eq, Hr. by eexists. }
  revert W1 L1. generalize (upd_loop rl (set_items_common (union {[ITimer t]})) w).
  induction (common_modes w rl) as [|n ns IH]; intros w1 W1 L1; cbn [over_modes]; [by exists w1|].
  apply not_elem_of_cons in Hc as [Hn Hc].
  destruct (add_timer_plain 0 w1 rl t n (not_eq_sym Hn) W1 L1) as (w2 & -> & W2 & L2). cbn [mbind result_bind]. by apply IH.
Qed.

(** ** Common modes in themselves *)

(** What adding a timer to a mode changes of the timers, and what it leaves of the loops. *)
Definition loop_flags (w : world) (rl : Z) : option (gset string * option (gset item) * bool) :=
  (fun r => (rl_commonModes r, rl_commonModeItems r, rl_deallocating r)) <$> w_loops w !! rl.

Lemma flags_upd_modes (w : world) (rl rl' : Z) (f : gmap string mode -> gmap string mode) :
  loop_flags (upd_loop rl (set_modes f) w) rl' = loop_flags w rl'.
Proof.
  unfold loop_flags, upd_loop, upd_loops. cbn. destruct (decide (rl = rl')) as [->|N]; [|by rewrite lookup_alter_ne].
  rewrite lookup_alter_eq. by destruct (w_loops w !! rl').
Qed.

Lemma flags_create (w : world) (rl rl' : Z) (name : string) : loop_flags (CFRunLoopFindMode_create w rl name) rl' = loop_flags w rl'.
Proof.
  unfold CFRunLoopFindMode_create. destruct (w_loops w !! rl) as [r|]; [|done]. destruct (rl_modes r !! name); [done|]. apply flags_upd_modes.
Qed.

Lemma reposition_effect (w w' : world) (rl t : Z) (name : string) (isIn : bool) :
  CFRepositionTimerInMode w rl name t isIn = Ok w' -> w_timers w' = w_timers w /\ forall rl', loop_flags w' rl' = loop_flags w rl'.
Proof.
  unfold CFRepositionTimerInMode. destruct (_ ≫= m_timers) as [ts|]; [|by intros [= <-]]. set (idx := if isIn then _ else _).
  intros H. assert (H' : w' = w \/ exists l, w' = arm_next (upd_mode rl name (set_timers l) w) rl name).
  { destruct idx, isIn; try (by injection H as <-; left); apply bind_Ok in H as (i & _ & [= <-]); right; by eexists. }
  destruct H' as [->|[l ->]]; [done|]. split; [done|]. intros rl'. unfold arm_next, upd_mode. by rewrite !flags_upd_modes.
Qed.

Lemma add_in_mode_effect (w w' : world) (rl t : Z) (name : string) : add_timer_in_mode w rl t name = Ok w' ->
  (forall rl', loop_flags w' rl' = loop_flags w rl') /\
  (w_timers w' = w_timers w \/ exists tm, w_timers w !! t = Some tm /\ loop_free (t_runLoop tm) rl = true /\
     w_timers w' = <[t := set_timer_loop (Some rl) ({[name]} ∪ t_rlModes tm) tm]> (w_timers w)).
Proof.
  unfold add_timer_in_mode. set (w1 := upd_mode rl name _ _). assert (T1 : w_timers w1 = w_timers w) by apply create_timers.
  assert (F1 : forall rl', loop_flags w1 rl' = loop_flags w rl') by (intros; unfold w1, upd_mode; by rewrite flags_upd_modes, flags_create).
  cbv zeta. rewrite T1. destruct (w_timers w !! t) as [tm|] eqn:Et; [|intros [= <-]; tauto]. destruct (find_mode w1 rl name); [|intros [= <-]; tauto].
  case_bool_decide; [intros [= <-]; tauto|]. destruct (loop_free (t_runLoop tm) rl) eqn:Ef; [|intros [= <-]; tauto].
  intros [T2 F2]%reposition_effect. split; [intros rl'; rewrite F2; apply F1|]. right. exists tm. split_and!; [done|done|]. rewrite T2.
  rewrite <- T1. apply alter_insert_timer. by rewrite T1.
Qed.

(** CFRunLoopAddCommonMode lets the common modes be one of themselves.  Then adding a
    timer to them never ends, at no depth. *)
Theorem common_modes_recursion (depth : nat) (w : world) (rl t : Z) (tm : timer) (r : CFRunLoop) :
  timers_ok w -> w_loops w !! rl = Some r -> rl_deallocating r = false -> kCFRunLoopCommonModes ∈ rl_commonModes r ->
  w_timers w !! t = Some tm -> t_valid tm = true -> loop_free (t_runLoop tm) rl = true ->
  add_timer depth w rl t kCFRunLoopCommonModes = NoFuel.
Proof.
  revert w tm r. induction depth as [|depth IH]; intros w tm r W Hr Hd Hc Et Hv Hf.
  { cbn [add_timer]. unfold is_deallocating. by rewrite Et, Hr, Hd, Hv, Hf, bool_decide_true. }
  rewrite add_timer_S. unfold is_deallocating, common_modes. rewrite Et, Hr, Hd, Hv, Hf. cbn [negb orb]. assert (Hin : kCFRunLoopCommonModes ∈ set_names (rl_commonModes r)) by (rewrite set_names_perm; by apply elem_of_elements).
  destruct (items_keep w rl (union {[ITimer t]})) as [K1 K2]. pose proof (timers_ok_ext _ _ K1 K2 W) as W1. rewrite <- K1 in Et.
  set (w1 := upd_loop rl (set_items_common (union {[ITimer t]})) w) in *. assert (H1 : w_loops w1 !! rl = Some (set_items_common (union {[ITimer t]}) r)) by (unfold w1; cbn; by rewrite lookup_alter_eq, Hr).
  set (r1 := set_items_common _ r) in *. assert (D1 : rl_deallocating r1 = false) by done. assert (C1 : kCFRunLoopCommonModes ∈ rl_commonModes r1) by done.
  clearbody w1 r1. clear K1 K2 W Hr Hd Hc. generalize dependent (set_names (rl_commonModes r)). intros names Hin. revert w1 tm r1 W1 H1 D1 C1 Et Hv Hf.
  induction names as [|n ns IHn]; intros w1 tm r1 W1 H1 D1 C1 Et Hv Hf; [by apply not_elem_of_nil in Hin|]. cbn [over_modes].
  destruct (decide (n = kCFRunLoopCommonModes)) as [->|Hn]; [by rewrite (IH w1 tm r1)|]. apply elem_of_cons in Hin as [?|Hin]; [congruence|].
  assert (Ea : add_timer depth w1 rl t n = add_timer_in_mode w1 rl t n).
  { destruct depth; cbn [add_timer]; unfold is_deallocating; by rewrite Et, H1, D1, Hv, Hf, bool_decide_false. }
  rewrite Ea. destruct (add_timer_in_mode_ok w1 rl t n W1 ltac:(by eexists)) as (w2 & E2 & W2 & _). rewrite E2. cbn [mbind result_bind].
  destruct (add_in_mode_effect _ _ _ _ _ E2) as [F2 T2]. specialize (F2 rl). unfold loop_flags in F2. rewrite H1 in F2.
  destruct (w_loops w2 !! rl) as [r2|] eqn:Hr2; [|done]. injection F2 as F2a _ F2b.
  assert (exists tm2, w_timers w2 !! t = Some tm2 /\ t_valid tm2 = true /\ loop_free (t_runLoop tm2) rl = true) as (tm2 & E3 & V3 & L3).
  { destruct T2 as [->|(tm0 & E0 & _ & ->)]; [by exists tm|]. rewrite Et in E0. injection E0 as <-. eexists. rewrite lookup_insert_eq. split_and!; [done|done|cbn; lia]. }
  apply (IHn Hin w2 tm2 r2); congruence.
Qed.

(** The other way round, a removal from the common modes ends also then: the nested call
    for the common modes finds the timer gone from the common items.  So
    [CFRunLoopRemoveTimer] satisfies the equation of the source. *)
Lemma remove_in_mode_flags (w : world) (rl t rl' : Z) (name : string) : loop_flags (remove_timer_in_mode w rl t name) rl' = loop_flags w rl'.
Proof.
  unfold remove_timer_in_mode. destruct (_ ≫= m_timers); [|done]. destruct (CFArrayGetFirstIndexOfValue _ _); [|done].
  unfold arm_next, upd_mode. by rewrite !flags_upd_modes.
Qed.

Lemma remove_timer_equation (w : world) (rl t : Z) (name : string) :
  CFRunLoopRemoveTimer w rl t name =
    if bool_decide (name = kCFRunLoopCommonModes) then
      if in_common_items w rl (ITimer t) then
        foldl (fun w name => CFRunLoopRemoveTimer w rl t name) (upd_loop rl (set_items_common (fun X => X ∖ {[ITimer t]})) w) (common_modes w rl)
      else w
    else remove_timer_in_mode w rl t name.
Proof.
  unfold CFRunLoopRemoveTimer at 1. case_bool_decide; [|done]. destruct (in_common_items w rl (ITimer t)) eqn:Ei; [|done].
  assert (H1 : in_common_items (upd_loop rl (set_items_common (fun X => X ∖ {[ITimer t]})) w) rl (ITimer t) = false).
  { unfold in_common_items. cbn. rewrite lookup_alter_eq. destruct (w_loops w !! rl); [|done]. cbn. apply bool_decide_false. set_solver. }
  clear Ei. revert H1. generalize (upd_loop rl (set_items_common (fun X => X ∖ {[ITimer t]})) w). induction (common_modes w rl) as [|n ns IH]; intros w1 H1; cbn [foldl]; [done|].
  assert (Eq : CFRunLoopRemoveTimer w1 rl t n = remove_timer_nested w1 rl t n) by (unfold CFRunLoopRemoveTimer, remove_timer_nested; case_bool_decide; [by rewrite H1|done]).
  rewrite Eq. apply IH. unfold remove_timer_nested. case_bool_decide; [done|]. pose proof (remove_in_mode_flags w1 rl t rl n) as F. unfold loop_flags in F. revert H1. unfold in_common_items.
  destruct (w_loops w1 !! rl) as [r1|], (w_loops (remove_timer_in_mode w1 rl t n) !! rl) as [r2|]; try done. injection F as _ F _. cbn. by rewrite F.
Qed.

(** No timer has the name of the common modes among its modes. *)
Definition unnamed (w : world) : Prop := forall t tm, w_timers w !! t = Some tm -> kCFRunLoopCommonModes ∉ t_rlModes tm.

Lemma unnamed_insert (w w' : world) (t : Z) (tm : timer) :
  unnamed w -> w_timers w' = <[t := tm]> (w_timers w) -> kCFRunLoopCommonModes ∉ t_rlModes tm -> unnamed w'.
Proof. intros U T Hm x tm' Hx. rewrite T in Hx. apply lookup_insert_Some in Hx as [[_ <-]|[_ Hx]]; [done|by apply (U x)]. Qed.

Lemma unnamed_ext (w w' : world) : w_timers w' = w_timers w -> unnamed w -> unnamed w'.
Proof. intros T U x tm Hx. rewrite T in Hx. by apply (U x). Qed.

Lemma add_timer_unnamed (depth : nat) : forall (w w' : world) (rl t : Z) (name : string), add_timer depth w rl t name = Ok w' -> unnamed w -> unnamed w'.
Proof.
  assert (Plain : forall w w' rl t name, name <> kCFRunLoopCommonModes -> add_timer_in_mode w rl t name = Ok w' -> unnamed w -> unnamed w').
  { intros w w' rl t name Hn [_ [T|(tm & Et & _ & T)]]%add_in_mode_effect U; [by apply (unnamed_ext w)|].
    apply (unnamed_insert w w' t _ U T). cbn. pose proof (U t tm Et). set_solver. }
  induction depth as [|depth IH]; intros w w' rl t name.
  { cbn [add_timer]. destruct (w_timers w !! t) as [tm|]; [|by intros [= <-]]. destruct (is_deallocating w rl); [by intros [= <-]|].
    destruct (_ || _); [by intros [= <-]|]. case_bool_decide; [done|by apply Plain]. }
  destruct (decide (name = kCFRunLoopCommonModes)) as [->|Hn].
  2:{ cbn [add_timer]. destruct (w_timers w !! t) as [tm|]; [|by intros [= <-]]. destruct (is_deallocating w rl); [by intros [= <-]|].
      destruct (_ || _); [by intros [= <-]|]. rewrite bool_decide_false by done. by apply Plain. }
  rewrite add_timer_S. destruct (w_timers w !! t) as [tm|]; [|by intros [= <-]]. destruct (is_deallocating w rl); [by intros [= <-]|].
  destruct (_ || _); [by intros [= <-]|]. intros Ho U. assert (U1 : unnamed (upd_loop rl (set_items_common (union {[ITimer t]})) w)) by (by apply (unnamed_ext w)). revert Ho U1. generalize (upd_loop rl (set_items_common (union {[ITimer t]})) w).
  induction (common_modes w rl) as [|n ns IHn]; intros w1 Ho U1; cbn [over_modes] in Ho; [by injection Ho as <-|].
  apply bind_Ok in Ho as (w2 & E2 & Ho). apply (IHn w2 Ho). by apply (IH w1 w2 rl t n).
Qed.

Lemma remove_timer_unnamed (w : world) (rl t : Z) (name : string) : unnamed w -> unnamed (CFRunLoopRemoveTimer w rl t name).
Proof.
  assert (Plain : forall w name, unnamed w -> unnamed (remove_timer_in_mode w rl t name)).
  { intros w0 n0 U x tm' Hx. unfold remove_timer_in_mode in Hx. destruct (_ ≫= m_timers); [|by apply (U x)]. destruct (CFArrayGetFirstIndexOfValue _ _); [|by apply (U x)].
    cbn in Hx. apply lookup_alter_Some in Hx as [(_ & tm & Et & ->)|[_ Hx]]; [|by apply (U x)]. cbn. specialize (U _ _ Et). set_solver. }
  intros U. unfold CFRunLoopRemoveTimer. case_bool_decide; [|by apply Plain]. destruct (in_common_items _ _ _); [|done].
  assert (U1 : unnamed (upd_loop rl (set_items_common (fun X => X ∖ {[ITimer t]})) w)) by (by apply (unnamed_ext w)). revert U1. generalize (upd_loop rl (set_items_common (fun X => X ∖ {[ITimer t]})) w).
  induction (common_modes w rl) as [|n ns IH]; intros w1 U1; cbn [foldl]; [done|]. apply IH. unfold remove_timer_nested. case_bool_decide; [done|by apply Plain].
Qed.

(** ** Changing the fire time *)

(** While a timer whose fire time has changed is moved: the modes already treated are
    sorted, and in the others it is sorted without the timer. *)
Record moving (w : world) (rl t : Z) (todo : list string) : Prop := mk_moving {
  mv_sorted : forall rl' name', ~ (rl' = rl /\ name' ∈ todo) ->
    StronglySorted (fun a b => fire_of w a <= fire_of w b) (timers_in w rl' name');
  mv_todo : forall name i, name ∈ todo -> CFArrayGetFirstIndexOfValue (timers_in w rl name) t = Some i ->
    StronglySorted (fun a b => fire_of w a <= fire_of w b) (delete i (timers_in w rl name));
  mv_short : forall rl' name', Z.of_nat (length (timers_in w rl' name')) < 2 ^ 29
}.

Lemma over_modes_spec (w : world) (rl t : Z) (todo : list string) :
  moving w rl t todo -> NoDup todo -> Forall (fun name => t ∈ timers_in w rl name) todo ->
  exists w', over_modes (fun w name => CFRepositionTimerInMode w rl name t true) w todo = Ok w' /\ w_timers w' = w_timers w /\
    (forall rl' name', timers_in w' rl' name' ≡ₚ timers_in w rl' name') /\ moving w' rl t [].
Proof.
  revert w. induction todo as [|name todo IH]; intros w M Nd Hin; cbn [over_modes].
  { exists w. by split_and!. }
  apply NoDup_cons in Nd as [Nn Nd]. apply Forall_cons_1 in Hin as [Hn Hin].
  pose proof (index_of (timers_in w rl name) t) as Hidx.
  destruct (CFArrayGetFirstIndexOfValue (timers_in w rl name) t) as [i|] eqn:Ei; [|done].
  pose proof (mv_todo _ _ _ _ M name i ltac:(left) Ei) as Sd.
  pose proof (delete_perm _ _ _ Hidx) as P.
  destruct (reposition_spec w rl name t true (delete i (timers_in w rl name))) as (w1 & -> & T1 & I1 & _).
  { unfold timers_in in Hidx. destruct (find_mode w rl name ≫= m_timers); [by eexists|done]. }
  { by exists i. }
  { done. }
  { pose proof (mv_short _ _ _ _ M rl name). rewrite P in H at 1. cbn [length] in H. lia. }
  cbn [mbind result_bind].
  assert (F1 : forall x, fire_of w1 x = fire_of w x) by (intros x; unfold fire_of; by rewrite T1).
  assert (P1 : forall rl' name', timers_in w1 rl' name' ≡ₚ timers_in w rl' name').
  { intros rl' name'. rewrite I1. case_decide as D; [|done]. destruct D as [<- <-]. rewrite reinserted_perm. by rewrite <- P. }
  destruct (IH w1) as (w' & E' & T' & P' & M'); [|done| |].
  - split.
    + intros rl' name' Hd. rewrite I1. apply (sorted_ext (fire_of w)); [done|].
      case_decide as D; [by apply insert_sorted|]. apply (mv_sorted _ _ _ _ M). set_solver.
    + intros n j Hn' Ej. rewrite I1 in Ej |- *. rewrite decide_False in Ej |- * by naive_solver.
      apply (sorted_ext (fire_of w)); [done|]. apply (mv_todo _ _ _ _ M); [by right|done].
    + intros rl' name'. rewrite P1. apply (mv_short _ _ _ _ M).
  - apply Forall_forall. intros n Hn'. rewrite P1. rewrite Forall_forall in Hin. by apply Hin.
  - exists w'. split_and!; [exact E'|by rewrite T'| |done]. intros rl' name'. by rewrite P', P1.
Qed.

Lemma member_mode (w : world) (rl t : Z) (name : string) :
  t ∈ timers_in w rl name -> is_Some (find_mode w rl name).
Proof. unfold timers_in. destruct (find_mode w rl name); [by eexists|]. intros H. by apply not_elem_of_nil in H. Qed.

Lemma reposition_all_spec (w : world) (rl t : Z) (todo : list string) :
  moving w rl t todo -> NoDup todo -> Forall (fun name => t ∈ timers_in w rl name) todo ->
  exists w', reposition_all w rl t todo = Ok w' /\ w_timers w' = w_timers w /\
    (forall rl' name', timers_in w' rl' name' ≡ₚ timers_in w rl' name') /\ moving w' rl t [].
Proof.
  intros M Nd Hin. destruct (over_modes_spec w rl t todo M Nd Hin) as (w' & Eo & R). exists w'. split; [|done].
  unfold reposition_all. rewrite Eo. cbn [mbind result_bind].
  assert (A : forallb (fun name => match find_mode w rl name with Some _ => true | None => false end) todo = true).
  { apply forallb_forall. intros name Hn. rewrite Forall_forall in Hin. apply list_elem_of_In, Hin in Hn.
    by destruct (member_mode w rl t name Hn) as [m ->]. }
  by rewrite A.
Qed.

Lemma fire_of_set (w : world) (t x tsr date : Z) :
  x <> t -> fire_of (upd_timer t (set_fire tsr date) w) x = fire_of w x.
Proof. intros N. unfold fire_of, upd_timer. cbn. by rewrite lookup_alter_ne. Qed.

Lemma start_moving (w : world) (rl t tsr date : Z) (tm : timer) :
  timers_ok w -> w_timers w !! t = Some tm -> t_runLoop tm = Some rl ->
  let w1 := upd_timer t (set_fire tsr date) w in
  moving w1 rl t (set_names (t_rlModes tm)) /\ NoDup (set_names (t_rlModes tm)) /\
  Forall (fun name => t ∈ timers_in w1 rl name) (set_names (t_rlModes tm)).
Proof.
  intros W Et Er. cbv zeta. set (w1 := upd_timer t (set_fire tsr date) w).
  change (timers_in w1) with (timers_in w).
  assert (Hn : forall name, name ∈ set_names (t_rlModes tm) <-> name ∈ t_rlModes tm).
  { intros name. rewrite set_names_perm. apply elem_of_elements. }
  split; [split|split].
  - intros rl' name' Nd. apply (sorted_ext_in (fire_of w)); [|apply (tk_sorted w W)].
    intros x Hx. apply fire_of_set. intros ->. apply (tk_member w W) in Hx as (tm' & E' & O & D).
    rewrite Et in E'. injection E' as <-. rewrite Er in O. injection O as <-. apply Nd. by rewrite Hn.
  - intros name i Hin Ei. change (timers_in w1) with (timers_in w) in *. pose proof (index_of (timers_in w rl name) t) as Hi.
    rewrite Ei in Hi. apply (sorted_ext_in (fire_of w)); [|apply sorted_delete, (tk_sorted w W)].
    intros x Hx. apply fire_of_set. intros ->. pose proof (tk_nodup w W rl name) as Nd.
    rewrite (delete_perm _ _ _ Hi) in Nd. by apply NoDup_cons in Nd as [? _].
  - intros rl' name'. exact (few_members w rl' name' W).
  - rewrite set_names_perm. apply NoDup_elements.
  - apply Forall_forall. intros name Hin. apply (tk_member w W). exists tm. split_and!; [done|done|by apply Hn].
Qed.

Lemma moved_ok (w w' : world) (t tsr date : Z) (tm : timer) :
  timers_ok w -> w_timers w !! t = Some tm -> w_timers w' = <[t := set_fire tsr date tm]> (w_timers w) ->
  (forall rl name, timers_in w' rl name ≡ₚ timers_in w rl name) ->
  (forall rl name, StronglySorted (fun a b => fire_of w' a <= fire_of w' b) (timers_in w' rl name)) ->
  timers_ok w'.
Proof.
  intros W Et T P S. apply (timers_ok_moved w w' t tm (set_fire tsr date tm)); try done.
  - exact (tk_owner w W t tm Et).
  - intros rl name. rewrite P. apply (tk_nodup w W).
  - intros rl name x _. by rewrite P.
  - intros rl name. rewrite P, (tk_member w W), Et. cbn. naive_solver.
Qed.

(** The fire time set and the timer moved in all its modes. *)
Lemma set_fire_ok (w : world) (rl t tsr date : Z) (tm : timer) :
  timers_ok w -> w_timers w !! t = Some tm -> t_runLoop tm = Some rl ->
  exists w', reposition_all (upd_timer t (set_fire tsr date) w) rl t (set_names (t_rlModes tm)) = Ok w' /\
    timers_ok w' /\ w_timers w' = <[t := set_fire tsr date tm]> (w_timers w) /\
    (forall rl name, timers_in w' rl name ≡ₚ timers_in w rl name).
Proof.
  intros W Et Er. destruct (start_moving w rl t tsr date tm W Et Er) as (M & Nd & Hin).
  destruct (reposition_all_spec _ rl t _ M Nd Hin) as (w' & E' & T' & P' & M'). exists w'.
  rewrite (alter_insert_timer w t _ tm Et) in T'. split_and!; [done| |done|done].
  apply (moved_ok w w' t tsr date tm); try done. intros rl' name'. apply (mv_sorted _ _ _ _ M').
  intros [_ Hd]. by apply not_elem_of_nil in Hd.
Qed.

Lemma wake_up_keeps (w : world) (rl : Z) : timers_ok w -> timers_ok (CFRunLoopWakeUp w rl).
Proof.
  apply timers_ok_ext; [done|]. intros rl' name'. unfold timers_in, find_mode, CFRunLoopWakeUp, upd_loop, upd_loops. cbn.
  destruct (decide (rl = rl')) as [<-|N]; [|by rewrite lookup_alter_ne].
  rewrite lookup_alter_eq. destruct (w_loops w !! rl) as [r|]; [|done]. cbn. by destruct (p_ignoreWakeUps _).
Qed.

Lemma set_next_fire_date_ok (current : Z) (w : world) (t date : Z) :
  timers_ok w -> exists w', CFRunLoopTimerSetNextFireDate current w t date = Ok w' /\ timers_ok w'.
Proof.
  intros W. unfold CFRunLoopTimerSetNextFireDate. destruct (w_timers w !! t) as [tm|] eqn:Et; [|by exists w].
  destruct (t_valid tm); cbn [negb]; [|by exists w]. destruct (t_runLoop tm) as [rl|] eqn:Er.
  - destruct (set_fire_ok w rl t (fire_ticks w (clamp_date date)) (clamp_date date) tm W Et Er) as (w' & -> & W' & _).
    cbn [mbind result_bind]. eexists; split; [done|]. destruct (negb _); [by apply wake_up_keeps|done].
  - eexists; split; [done|]. eapply (moved_ok w _ t); [done|done|by apply alter_insert_timer|done|].
    intros rl name. apply (sorted_ext_in (fire_of w)); [|apply (tk_sorted w W)].
    intros x Hx. apply fire_of_set. intros ->. apply (tk_member w W) in Hx as (tm' & E' & O & _). congruence.
Qed.

Lemma set_next_fire_date_unnamed (current : Z) (w w' : world) (t date : Z) :
  timers_ok w -> CFRunLoopTimerSetNextFireDate current w t date = Ok w' -> unnamed w -> unnamed w'.
Proof.
  intros W. unfold CFRunLoopTimerSetNextFireDate. destruct (w_timers w !! t) as [tm|] eqn:Et; [|by intros [= <-]].
  destruct (t_valid tm); cbn [negb]; [|by intros [= <-]]. destruct (t_runLoop tm) as [rl|] eqn:Er.
  - destruct (set_fire_ok w rl t (fire_ticks w (clamp_date date)) (clamp_date date) tm W Et Er) as (w1 & -> & _ & T1 & _). cbn [mbind result_bind].
    intros [= <-] U. assert (unnamed w1) by (apply (unnamed_insert w w1 t _ U T1), (U t tm Et)). by destruct (negb _).
  - intros [= <-] U. apply (unnamed_insert w _ t _ U (alter_insert_timer w t _ tm Et)), (U t tm Et).
Qed.

(** C1. CFRunLoopAddTimer, CFRunLoopRemoveTimer and CFRunLoopTimerSetNextFireDate return normally from
    every consistent state of a run loop that does not have kCFRunLoopCommonModes among its own common
    modes (adding a timer to the common modes recurses without end in that case) and keep the invariant:
    the timer array of each mode is sorted by fire time, has no duplicates, and holds exactly the timers
    whose own records name that run loop and mode, fewer than 2^29 in all. They also keep that no timer
    names kCFRunLoopCommonModes as one of its modes. *)
Theorem timer_operations_preserve (current : Z) (w : world) (rl t date : Z) (name : string) :
  timers_ok w -> is_Some (w_loops w !! rl) -> kCFRunLoopCommonModes ∉ common_modes w rl ->
  (exists w', CFRunLoopAddTimer w rl t name = Ok w' /\ timers_ok w' /\ (unnamed w -> unnamed w')) /\
  (timers_ok (CFRunLoopRemoveTimer w rl t name) /\ (unnamed w -> unnamed (CFRunLoopRemoveTimer w rl t name))) /\
  (exists w', CFRunLoopTimerSetNextFireDate current w t date = Ok w' /\ timers_ok w' /\ (unnamed w -> unnamed w')).
Proof.
  intros W Hl Hc. split; [|split].
  - destruct (add_timer_ok w rl t name W Hl (fun _ => Hc)) as (w' & Ea & W'). exists w'. split_and!; [done|done|]. by apply (add_timer_unnamed 1 w w' rl t name).
  - split; [by apply remove_timer_ok|by apply remove_timer_unnamed].
  - destruct (set_next_fire_date_ok current w t date W) as (w' & Es & W'). exists w'. split_and!; [done|done|]. by apply (set_next_fire_date_unnamed current w w' t date).
Qed.

(** C5. CFRunLoopAddTimer puts a valid timer that is in no run loop into the array of a mode other than
    the common modes behind every timer that fires no later and before every timer that fires later,
    leaves the others as they were, and CFRunLoopContainsTimer then finds it. *)
Theorem add_timer_places (w : world) (rl t : Z) (tm : timer) (name : string) :
  timers_ok w -> is_Some (w_loops w !! rl) -> is_deallocating w rl = false ->
  w_timers w !! t = Some tm -> t_valid tm = true -> t_runLoop tm = None -> name <> kCFRunLoopCommonModes ->
  exists w' before later, CFRunLoopAddTimer w rl t name = Ok w' /\
    timers_in w rl name = before ++ later /\ timers_in w' rl name = before ++ t :: later /\
    Forall (fun x => fire_of w x <= t_fireTSR tm) before /\ Forall (fun x => t_fireTSR tm < fire_of w x) later /\
    CFRunLoopContainsTimer w' rl t name = true.
Proof.
  intros W Hl Hd Et Hv Hr Hn. unfold CFRunLoopAddTimer. cbn [add_timer]. rewrite Et, Hd, Hv, Hr. cbn [negb orb loop_free].
  rewrite bool_decide_false by done.
  destruct (add_timer_in_mode_ok w rl t name W Hl) as (w' & -> & W' & Min & _ & Hshape).
  assert (Nin : name ∉ t_rlModes tm) by (apply (tk_owner w W t tm Et) in Hr; set_solver).
  destruct (Hshape tm Et ltac:(by rewrite Hr) Nin) as (Es & tm' & Et' & Er').
  exists w', (take (rank (fire_of w) (t_fireTSR tm) (timers_in w rl name)) (timers_in w rl name)),
    (drop (rank (fire_of w) (t_fireTSR tm) (timers_in w rl name)) (timers_in w rl name)).
  assert (Ft : fire_of w t = t_fireTSR tm) by (unfold fire_of; by rewrite Et).
  split_and!; [done|by rewrite take_drop|by rewrite Es; unfold reinserted; rewrite Ft| | |].
  - apply Forall_lookup. intros j a Hj. apply lookup_take_Some in Hj as [Hj Hi].
    by apply (rank_spec _ _ _ j a (tk_sorted w W rl name) Hj).
  - apply Forall_lookup. intros j a Hj. rewrite lookup_drop in Hj.
    destruct (Z.lt_ge_cases (t_fireTSR tm) (fire_of w a)) as [|G]; [done|].
    apply (rank_spec _ _ _ _ a (tk_sorted w W rl name) Hj) in G. lia.
  - unfold CFRunLoopContainsTimer. rewrite Et', Er', bool_decide_true, bool_decide_false by done. cbn [negb].
    specialize (Min tm Et ltac:(by rewrite Hr)). unfold timers_in in Min.
    destruct (find_mode w' rl name ≫= m_timers) as [ts|]; cbn in Min; [|by apply not_elem_of_nil in Min].
    pose proof (index_of ts t) as Hx. by destruct (CFArrayGetFirstIndexOfValue ts t).
Qed.

(** ** Invalidation *)

Lemma remove_many (names : list string) (w : world) (rl t : Z) :
  timers_ok w ->
  let w' := foldl (fun w name => remove_timer_in_mode w rl t name) w names in
  timers_ok w' /\ (forall name, name ∈ names -> t ∉ timers_in w' rl name) /\
  (forall rl' name' x, x ∈ timers_in w' rl' name' -> x ∈ timers_in w rl' name') /\
  (forall x, x <> t -> w_timers w' !! x = w_timers w !! x) /\
  (forall tm, w_timers w !! t = Some tm -> exists tm', w_timers w' !! t = Some tm' /\ t_valid tm' = t_valid tm).
Proof.
  cbv zeta. revert w. induction names as [|n ns IH]; intros w W; cbn [foldl].
  { split_and!; try done; [|eauto]. intros name Hn. by apply not_elem_of_nil in Hn. }
  destruct (remove_timer_in_mode_ok w rl t n W) as (W1 & N1 & M1 & O1 & T1).
  destruct (IH _ W1) as (W2 & N2 & M2 & O2 & T2). split_and!; [done| | | |].
  - intros name Hn. apply elem_of_cons in Hn as [->|Hn]; [|by apply N2]. intros Hin. by apply M2 in Hin.
  - intros rl' name' x Hx. by apply M1, M2.
  - intros x Nx. by rewrite O2, O1.
  - intros tm Et. destruct (T1 tm Et) as (tm1 & E1 & V1). destruct (T2 tm1 E1) as (tm2 & E2 & V2).
    exists tm2. split; [done|congruence].
Qed.

Lemma set_state_ok (w : world) (t : Z) (valid firing : bool) :
  timers_ok w -> timers_ok (upd_timer t (set_timer_state valid firing) w).
Proof.
  intros W. destruct (w_timers w !! t) as [tm|] eqn:Et.
  - apply (timers_ok_moved w _ t tm (set_timer_state valid firing tm)); try done.
    + by apply alter_insert_timer.
    + exact (tk_owner w W t tm Et).
    + intros rl name. change (timers_in (upd_timer t (set_timer_state valid firing) w)) with (timers_in w).
      apply (sorted_ext (fire_of w)); [|apply (tk_sorted w W)]. intros x. by apply fire_of_upd.
    + apply (tk_nodup w W).
    + intros rl name. change (timers_in (upd_timer t (set_timer_state valid firing) w)) with (timers_in w).
      rewrite (tk_member w W), Et. cbn. naive_solver.
  - apply (timers_ok_ext w); try done. cbn. apply map_eq. intros k. destruct (decide (k = t)) as [->|N].
    + by rewrite lookup_alter_eq, Et.
    + by rewrite lookup_alter_ne.
Qed.

Lemma nested_filter (l : list string) (w : world) (rl t : Z) :
  foldl (fun w name => remove_timer_nested w rl t name) w l =
  foldl (fun w name => remove_timer_in_mode w rl t name) w (filter (fun n => n <> kCFRunLoopCommonModes) l).
Proof.
  revert w. induction l as [|n l IH]; intros w; [done|]. cbn [foldl]. rewrite filter_cons, IH. unfold remove_timer_nested.
  destruct (decide (n = kCFRunLoopCommonModes)) as [->|N]; [by rewrite bool_decide_true, decide_False by naive_solver|by rewrite bool_decide_false, decide_True].
Qed.

(** C6. CFRunLoopTimerInvalidate of a valid timer that does not name kCFRunLoopCommonModes as one of its
    modes takes it out of every mode of every run loop, leaves it invalid and without a run loop, and
    keeps the timer invariant; the release callback of its context, where it has one, is called in the
    state thus reached and is the last thing that happens. *)
Theorem timer_invalidate_detaches (w : world) (t : Z) (tm : timer) :
  timers_ok w -> w_timers w !! t = Some tm -> t_valid tm = true -> kCFRunLoopCommonModes ∉ t_rlModes tm ->
  exists w', CFRunLoopTimerInvalidate w t = (if t_release tm then call (CallReleaseTimer t) w' else w') /\
    timers_ok w' /\ (forall rl name, t ∉ timers_in w' rl name) /\
    exists tm', w_timers w' !! t = Some tm' /\ t_valid tm' = false /\ t_runLoop tm' = None.
Proof.
  intros W Et Hv Hc. unfold CFRunLoopTimerInvalidate. rewrite Et, Hv. eexists. split; [reflexivity|].
  set (w1 := upd_timer t (set_timer_state false (t_firing tm)) w).
  pose proof (set_state_ok w t false (t_firing tm) W) as W1. fold w1 in W1.
  assert (E1 : w_timers w1 !! t = Some (set_timer_state false (t_firing tm) tm)).
  { unfold w1. by rewrite (alter_insert_timer w t _ tm Et), lookup_insert_eq. }
  assert (Final : forall w2, timers_ok w2 -> (forall rl name, t ∉ timers_in w2 rl name) ->
    (exists tm', w_timers w2 !! t = Some tm' /\ t_valid tm' = false) ->
    timers_ok w2 /\ (forall rl name, t ∉ timers_in w2 rl name) /\
    exists tm', w_timers w2 !! t = Some tm' /\ t_valid tm' = false /\ t_runLoop tm' = None).
  { intros w2 W2 N2 (tm' & E2 & V2). split_and!; [done|done|]. exists tm'. split_and!; [done|done|].
    destruct (t_runLoop tm') as [rl|] eqn:Er; [|done]. exfalso.
    destruct (set_choose_or_empty (t_rlModes tm')) as [[n Hn]|He].
    - apply (N2 rl n). apply (tk_member w2 W2). by exists tm'.
    - apply leibniz_equiv in He. apply (tk_owner w2 W2 t tm' E2) in He. congruence. }
  destruct (t_runLoop tm) as [rl|] eqn:Er.
  2:{ apply Final; [done| |by eexists]. intros rl name Hin. apply (tk_member w1 W1) in Hin as (tm' & E' & O & _).
      rewrite E1 in E'. injection E' as <-. cbn in O. congruence. }
  assert (Hn : forall name, name ∈ set_names (t_rlModes tm) <-> name ∈ t_rlModes tm).
  { intros name. rewrite set_names_perm. apply elem_of_elements. }
  assert (Efold : foldl (fun w name => CFRunLoopRemoveTimer w rl t name) w1 (set_names (t_rlModes tm)) =
    foldl (fun w name => remove_timer_in_mode w rl t name) w1 (set_names (t_rlModes tm))).
  { assert (Hne : Forall (fun n => n <> kCFRunLoopCommonModes) (set_names (t_rlModes tm))).
    { apply Forall_forall. intros n Hin ->. by apply Hc, Hn. }
    clear Hn Final. generalize w1. induction Hne as [|n ns Hn' _ IH]; intros w0; cbn [foldl]; [done|].
    replace (CFRunLoopRemoveTimer w0 rl t n) with (remove_timer_in_mode w0 rl t n); [apply IH|].
    unfold CFRunLoopRemoveTimer. by rewrite bool_decide_false. }
  rewrite Efold. clear Efold. destruct (remove_many (set_names (t_rlModes tm)) w1 rl t W1) as (W2 & N2 & M2 & _ & T2).
  set (w2 := foldl _ w1 _) in *. destruct (T2 _ E1) as (tm2 & E2 & V2). cbn in V2.
  assert (Out : forall rl' name, t ∉ timers_in w2 rl' name).
  { intros rl' name Hin. pose proof (M2 _ _ _ Hin) as H1. apply (tk_member w1 W1) in H1 as (tm' & E' & O & D).
    rewrite E1 in E'. injection E' as <-. cbn in O, D. rewrite Er in O. injection O as <-. apply (N2 name); [by apply Hn|done]. }
  unfold CFRunLoopRemoveTimer. rewrite bool_decide_true by done.
  destruct (in_common_items w2 rl (ITimer t)); [|by apply Final; [| |eexists]].
  destruct (items_keep w2 rl (fun X => X ∖ {[ITimer t]})) as [K1 K2].
  rewrite nested_filter. destruct (remove_many (filter (fun n => n <> kCFRunLoopCommonModes) (common_modes w2 rl)) _ rl t (timers_ok_ext _ _ K1 K2 W2)) as (W3 & N3 & M3 & _ & T3).
  apply Final; [done| |].
  - intros rl' name Hin. apply M3 in Hin. rewrite K2 in Hin. by apply (Out rl' name).
  - destruct (T3 tm2) as (tm3 & E3 & V3); [by rewrite K1|]. exists tm3. split; [done|congruence].
Qed.

End Invariant.

(** ** A concrete run loop

    Run loop 1, with the default mode, and the timers 10 (every 4 ticks, due at 5),
    11 (once, due at 9) and 12 (once, due at 6); the clock shows 7.  The first two are
    in the default mode. *)
Section Sample.
#[local] Existing Instance sample_env.
#[local] Existing Instance sample_env_laws.

Definition sample_timer (interval fire : Z) : timer := mkTimer true false None ∅ fire interval 0 fire 0 false false.

Definition sample_base : world :=
  CFRunLoopCreate
    (mkWorld ∅ ∅ ∅ {[10 := sample_timer 4 5; 11 := sample_timer 0 9; 12 := sample_timer 0 6]} 7 7 []) 1 100.

Definition sample_add (w : world) (t : Z) : world :=
  match CFRunLoopAddTimer w 1 t kCFRunLoopDefaultMode with Ok w' => w' | _ => w end.

Definition sample_world : world := sample_add (sample_add sample_base 10) 11.

Lemma sample_base_ok : timers_ok sample_base.
Proof.
  assert (Em : forall rl name, timers_in sample_base rl name = []).
  { intros rl name. unfold sample_base, CFRunLoopCreate. rewrite timers_in_create. unfold timers_in, find_mode.
    cbn. destruct (decide (rl = 1)) as [->|N]; [by rewrite lookup_insert_eq|by rewrite lookup_insert_ne]. }
  assert (Ht : map_Forall (fun _ tm => t_runLoop tm = None /\ t_rlModes tm = ∅) (w_timers sample_base)).
  { apply (bool_decide_unpack _). by vm_compute. }
  split.
  - intros rl name. rewrite Em. constructor.
  - intros rl name. rewrite Em. constructor.
  - intros rl name t. rewrite Em. split; [by intros ?%elem_of_nil|]. intros (tm & E & O & _).
    apply Ht in E as [E _]. congruence.
  - intros t tm E. by apply Ht in E as [-> ->].
  - by vm_compute.
Qed.

Lemma sample_add_ok (w : world) (t : Z) :
  timers_ok w -> is_Some (w_loops w !! 1) -> timers_ok (sample_add w t).
Proof.
  intros W L. destruct (add_timer_ok w 1 t kCFRunLoopDefaultMode W L ltac:(done)) as (w' & E & W').
  unfold sample_add. by rewrite E.
Qed.

Lemma sample_world_ok : timers_ok sample_world.
Proof. apply sample_add_ok; [apply sample_add_ok; [apply sample_base_ok|]|]; (eexists; by vm_compute). Qed.

Lemma insertion_index_witness :
  exists i, CFRunLoopInsertionIndexInTimerArray (fun x => x) [3; 5; 5; 8] 5 = Ok (Z.of_nat i) /\
    Forall (fun a => a <= 5) (take i [3; 5; 5; 8]) /\ Forall (fun a => 5 < a) (drop i [3; 5; 5; 8]).
Proof.
  apply (insertion_index_correct (fun x => x) [3; 5; 5; 8] 5); [|cbn; lia].
  repeat (constructor; [|repeat constructor; lia]). constructor.
Defined.

(** The default mode of the sample world, with the timers 10 and 11. *)
Definition sample_mode : mode :=
  match find_mode sample_world 1 kCFRunLoopDefaultMode with
  | Some m => m
  | None => new_mode 1 kCFRunLoopDefaultMode 100
  end.


Lemma timer_operations_witness :
  (exists w', CFRunLoopAddTimer sample_world 1 12 kCFRunLoopCommonModes = Ok w' /\ timers_ok w' /\ (unnamed sample_world -> unnamed w')) /\
  (timers_ok (CFRunLoopRemoveTimer sample_world 1 12 kCFRunLoopCommonModes) /\
   (unnamed sample_world -> unnamed (CFRunLoopRemoveTimer sample_world 1 12 kCFRunLoopCommonModes))) /\
  (exists w', CFRunLoopTimerSetNextFireDate 1 sample_world 12 20 = Ok w' /\ timers_ok w' /\ (unnamed sample_world -> unnamed w')).
Proof.
  apply (timer_operations_preserve 1 sample_world 1 12 20);
    [exact sample_world_ok|eexists; by vm_compute|]. apply (bool_decide_unpack _). by vm_compute.
Defined.

Lemma add_timer_witness :
  exists w' before later, CFRunLoopAddTimer sample_world 1 12 kCFRunLoopDefaultMode = Ok w' /\
    timers_in sample_world 1 kCFRunLoopDefaultMode = before ++ later /\
    timers_in w' 1 kCFRunLoopDefaultMode = before ++ 12 :: later /\
    Forall (fun x => fire_of sample_world x <= 6) before /\ Forall (fun x => 6 < fire_of sample_world x) later /\
    CFRunLoopContainsTimer w' 1 12 kCFRunLoopDefaultMode = true.
Proof.
  apply (add_timer_places sample_world 1 12 (sample_timer 0 6));
    [exact sample_world_ok|eexists; by vm_compute|by vm_compute..].
Defined.

(** The timer 11 as it is in the sample world. *)
Definition sample_timer_11 : timer :=
  mkTimer true false (Some 1) {[kCFRunLoopDefaultMode]} 9 0 0 9 0 false false.

Lemma timer_invalidate_witness :
  exists w', CFRunLoopTimerInvalidate sample_world 11 = w' /\
    timers_ok w' /\ (forall rl name, 11 ∉ timers_in w' rl name) /\
    exists tm', w_timers w' !! 11 = Some tm' /\ t_valid tm' = false /\ t_runLoop tm' = None.
Proof.
  apply (timer_invalidate_detaches sample_world 11 sample_timer_11);
    [exact sample_world_ok|by vm_compute|done|]. apply (bool_decide_unpack _). by vm_compute.
Defined.

(** A run loop whose common modes are among themselves. *)
Example recursion_from_add_common_mode :
  (w ← CFRunLoopAddCommonMode sample_world 1 kCFRunLoopCommonModes; CFRunLoopAddTimer w 1 12 kCFRunLoopCommonModes) = NoFuel.
Proof. by vm_compute. Qed.

End Sample.

End RunLoopTimers.
