(* ===== verification/RunLoopRun.v ===== *)
(** * Running a run loop: CFRunLoop.c from the callouts to CFRunLoopRun

    The functions that call out (blocks, observers, sources, timers), the loop
    [__CFRunLoopRun] and its callers, as functions on the world of RunLoop.v.  The
    kernel's wait and libdispatch are parameters ([Kernel]). *)

From stdpp Require Import base list numbers option strings gmap gmultiset sorting.
From Stdlib Require Import ZArith Lia.
From S2P Require Import Prelude Array RunLoop RunLoopTimers.

Module RunLoopRun.
Import RunLoop RunLoopTimers.

Definition kCFRunLoopRunFinished : Z := 1.
Definition kCFRunLoopRunStopped : Z := 2.
Definition kCFRunLoopRunTimedOut : Z := 3.
Definition kCFRunLoopRunHandledSource : Z := 4.

(** What the loop takes from the kernel and libdispatch: the wait on a port set
    (whether it polls; the live port, 0 when there is none), a poll of the main
    queue's port, the run of a mode's queue (whose timer handler sets
    [_timerFired]), whether the handler of the timeout timer has run, and the main
    queue's port where this thread may service it. *)
Class Kernel : Type := {
  wait_ports : world -> Z -> gset Z -> bool -> Z * world;
  poll_main_port : world -> bool * world;
  queue_perform : world -> Z -> string -> world;
  timeout_fired : world -> bool;
  main_queue_port : Z;
  main_queue_safe : world -> Z -> bool
}.

Section Callouts.
Context `{E : Env}.

(** ** Loop fields *)

Definition set_blocks (l : list block_item) (r : CFRunLoop) : CFRunLoop :=
  mkLoop (rl_wakeUpPort r) (rl_perRunData r) (rl_commonModes r) (rl_commonModeItems r) (rl_currentMode r)
    (rl_modes r) l (rl_sleeping r) (rl_deallocating r) (rl_wakePending r).

Definition set_per_run (p : per_run_data) (r : CFRunLoop) : CFRunLoop :=
  mkLoop (rl_wakeUpPort r) p (rl_commonModes r) (rl_commonModeItems r) (rl_currentMode r)
    (rl_modes r) (rl_blocks r) (rl_sleeping r) (rl_deallocating r) (rl_wakePending r).

Definition set_current (name : option string) (r : CFRunLoop) : CFRunLoop :=
  mkLoop (rl_wakeUpPort r) (rl_perRunData r) (rl_commonModes r) (rl_commonModeItems r) name
    (rl_modes r) (rl_blocks r) (rl_sleeping r) (rl_deallocating r) (rl_wakePending r).

Definition set_sleeping (b : bool) (r : CFRunLoop) : CFRunLoop :=
  mkLoop (rl_wakeUpPort r) (rl_perRunData r) (rl_commonModes r) (rl_commonModeItems r) (rl_currentMode r)
    (rl_modes r) (rl_blocks r) b (rl_deallocating r) (rl_wakePending r).

Definition set_stopped (b : bool) (r : CFRunLoop) : CFRunLoop :=
  set_per_run (mkPerRun b (p_ignoreWakeUps (rl_perRunData r))) r.

Definition set_ignore (b : bool) (r : CFRunLoop) : CFRunLoop :=
  set_per_run (mkPerRun (p_stopped (rl_perRunData r)) b) r.

Definition set_mode_stopped (b : bool) (m : mode) : mode :=
  mkMode b (m_sources0 m) (m_sources1 m) (m_observers m) (m_timers m) (m_portToV1SourceMap m)
    (m_portSet m) (m_observerMask m) (m_timerSoftDeadline m) (m_timerHardDeadline m) (m_timerFired m)
    (m_queuePort m) (m_timerPort m) (m_armed m).

Definition set_port_set (f : gset Z -> gset Z) (m : mode) : mode :=
  mkMode (m_stopped m) (m_sources0 m) (m_sources1 m) (m_observers m) (m_timers m) (m_portToV1SourceMap m)
    (f (m_portSet m)) (m_observerMask m) (m_timerSoftDeadline m) (m_timerHardDeadline m) (m_timerFired m)
    (m_queuePort m) (m_timerPort m) (m_armed m).

Definition set_timer_fired (b : bool) (m : mode) : mode :=
  mkMode (m_stopped m) (m_sources0 m) (m_sources1 m) (m_observers m) (m_timers m) (m_portToV1SourceMap m)
    (m_portSet m) (m_observerMask m) (m_timerSoftDeadline m) (m_timerHardDeadline m) b
    (m_queuePort m) (m_timerPort m) (m_armed m).

(** ** Blocks *)

Definition blocks_of (w : world) (rl : Z) : list block_item :=
  match w_loops w !! rl with Some r => rl_blocks r | None => [] end.

Definition common_of (w : world) (rl : Z) : gset string :=
  match w_loops w !! rl with Some r => rl_commonModes r | None => ∅ end.

(** A block for a name, or for the names of an array or a set; the modes are made to
    exist first. *)
Definition CFRunLoopPerformBlock (w : world) (rl : Z) (m : block_mode) (names : list string) (block : Z) : world :=
  let w := foldl (fun w name => CFRunLoopFindMode_create w rl name) w names in
  upd_loop rl (fun r => set_blocks (rl_blocks r ++ [mkBlock m block]) r) w.

(** The walk over the detached list: returns what it leaves and whether it called. *)
Fixpoint do_blocks_loop (w : world) (rl : Z) (name : string) (items : list block_item)
  : world * list block_item * bool :=
  match items with
  | [] => (w, [], false)
  | curr :: items =>
    if block_matches (common_of w rl) (b_mode curr) name then
      let w := call (CallBlock (b_block curr)) w in
      let '(w, kept, _) := do_blocks_loop w rl name items in
      (w, kept, true)
    else
      let '(w, kept, did) := do_blocks_loop w rl name items in
      (w, curr :: kept, did)
  end.

Definition CFRunLoopDoBlocks (w : world) (rl : Z) (name : string) : world * bool :=
  match blocks_of w rl with
  | [] => (w, false)
  | items =>
    let w := upd_loop rl (set_blocks []) w in
    let '(w, kept, did) := do_blocks_loop w rl name items in
    (upd_loop rl (fun r => set_blocks (kept ++ rl_blocks r) r) w, did)
  end.

(** ** Observers *)

Definition observer_due (w : world) (activity o : Z) : bool :=
  match w_observers w !! o with
  | Some ob => negb (Z.land (o_activities ob) activity =? 0) && o_valid ob && negb (o_firing ob)
  | None => false
  end.

Definition set_firing (b : bool) (o : observer) : observer := set_observer_state (o_valid o) b o.

Definition fire_observer (activity : Z) (w : world) (rlo : Z) : world :=
  match w_observers w !! rlo with
  | Some o =>
    if o_valid o then
      let doInvalidate := negb (o_repeats o) in
      let w := upd_observer rlo (set_firing true) w in
      let w := call (CallObserver rlo activity) w in
      let w := if doInvalidate then CFRunLoopObserverInvalidate w rlo else w in
      upd_observer rlo (set_firing false) w
    else w
  | None => w
  end.

Definition CFRunLoopDoObservers (w : world) (rl : Z) (name : string) (activity : Z) : world :=
  match find_mode w rl name ≫= m_observers with
  | None => w
  | Some l => foldl (fire_observer activity) w (filter (fun o => observer_due w activity o = true) l)
  end.

Definition mask_of (w : world) (rl : Z) (name : string) : Z :=
  match find_mode w rl name with Some m => m_observerMask m | None => 0 end.

(** [if (rlm->_observerMask & activity) __CFRunLoopDoObservers(...)] *)
Definition notify (w : world) (rl : Z) (name : string) (activity : Z) : world :=
  if negb (Z.land (mask_of w rl name) activity =? 0) then CFRunLoopDoObservers w rl name activity else w.

(** ** Sources *)

Definition source_due (w : world) (s : Z) : bool :=
  match w_sources w !! s with
  | Some src => (s_version src =? 0) && s_valid src && s_signaled src
  | None => false
  end.

Definition source_order (w : world) (s : Z) : Z := default 0 (s_order <$> w_sources w !! s).

Definition CFRunLoopSourceComparator (w : world) (o1 o2 : Z) : Z :=
  if source_order w o1 <? source_order w o2 then -1
  else if source_order w o2 <? source_order w o1 then 1
  else 0.

(** The variable [sources]: NULL, a source, or an array of sources. *)
Inductive collected : Type :=
| NoSource
| OneSource (rls : Z)
| Sources (a : Array.CFArray).

(** [__CFTypeCollectionRetain] returns the object it retains. *)
Definition CFTypeCollectionRetain (_ v : Z) : Z := v.

Definition append_source (a : Array.CFArray) (rls : Z) : result Array.CFArray :=
  '(a, _) ← Array.CFArrayAppendValue kCFTypeArrayCallBacks CFTypeCollectionRetain a rls; Ok a.

Definition CFRunLoopCollectSources0 (w : world) (sources : collected) (rls : Z) : result collected :=
  if source_due w rls then
    match sources with
    | NoSource => Ok (OneSource rls)
    | OneSource oldrls =>
      a ← append_source (Array.CFArrayCreateMutable0 kCFTypeArrayCallBacks 0 (Some kCFTypeArrayCallBacks)) oldrls;
      a ← append_source a rls;
      Ok (Sources a)
    | Sources a => a ← append_source a rls; Ok (Sources a)
    end
  else Ok sources.

(** [CFSetApplyFunction] of the above. *)
Fixpoint collect_sources (w : world) (sources : collected) (ids : list Z) : result collected :=
  match ids with
  | [] => Ok sources
  | rls :: ids => sources ← CFRunLoopCollectSources0 w sources rls; collect_sources w sources ids
  end.

(** One source of the list: whether it was handled. *)
Definition perform_source0 (w : world) (rls : Z) : world * bool :=
  match w_sources w !! rls with
  | Some s =>
    if s_signaled s then
      let w := upd_source rls (fun s => set_source_state (s_valid s) false s) w in
      if s_valid s then (if s_perform s then call (CallSource0 rls) w else w, true) else (w, false)
    else (w, false)
  | None => (w, false)
  end.

Fixpoint do_sources_loop (n : nat) (w : world) (sources : Array.CFArray) (idx : Z) (stopAfterHandle handled : bool)
  : result (world * bool) :=
  match n with
  | O => Ok (w, handled)
  | S n =>
    rls ← Array.CFArrayGetValueAtIndex sources idx;
    let '(w, did) := perform_source0 w rls in
    let handled := did || handled in
    if stopAfterHandle && handled then Ok (w, handled)
    else do_sources_loop n w sources (idx + 1) stopAfterHandle handled
  end.

Definition CFRunLoopDoSources0 (w : world) (rl : Z) (name : string) (stopAfterHandle : bool) : result (world * bool) :=
  match find_mode w rl name with
  | None => Undef
  | Some m =>
    sources ← collect_sources w NoSource (match m_sources0 m with Some X => set_ids X | None => [] end);
    match sources with
    | NoSource => Ok (w, false)
    | OneSource rls => Ok (perform_source0 w rls)
    | Sources a =>
      let cnt := Array.CFArrayGetCount a in
      '(a, _) ← Array.CFArraySortValues kCFTypeArrayCallBacks CFTypeCollectionRetain (CFRunLoopSourceComparator w)
                  fresh_words a 0 cnt;
      do_sources_loop (Z.to_nat cnt) w a 0 stopAfterHandle false
    end
  end.

Definition CFRunLoopDoSource1 (w : world) (rls : Z) : world * bool :=
  match w_sources w !! rls with
  | Some s =>
    if s_valid s then
      let w := upd_source rls (fun s => set_source_state (s_valid s) false s) w in
      (if s_perform s then call (CallSource1 rls) w else w, true)
    else (w, false)
  | None => (w, false)
  end.

(** ** Timers *)

(** [while (nextFireTSR <= currentTSR) nextFireTSR += intervalTSR;] *)
Fixpoint next_fire (fuel : nat) (next current interval : Z) : result Z :=
  match fuel with
  | O => NoFuel
  | S fuel => if next <=? current then next_fire fuel (u64 (next + interval)) current interval else Ok next
  end.

Definition interval_ticks_of (interval : Z) : Z :=
  if interval <=? 0 then 0
  else if TIMER_INTERVAL_LIMIT <? interval then CFTimeIntervalToTSR TIMER_INTERVAL_LIMIT
  else CFTimeIntervalToTSR interval.

Definition next_fire_time (w : world) (oldFireTSR interval : Z) : result Z :=
  let intervalTSR := interval_ticks_of interval in
  if u64 (LLONG_MAX - intervalTSR) <=? oldFireTSR then Ok LLONG_MAX
  else if intervalTSR =? 0 then Halt
  else next_fire (S (S (Z.to_nat ((w_tsr w - oldFireTSR) / intervalTSR)))) oldFireTSR (w_tsr w) intervalTSR.

(** The retain callback of the timer's context. *)
Definition retain_info (w : world) (rlt : Z) (tm : timer) : world :=
  if t_retain tm then call (CallRetainTimer rlt) w else w.

(** The timer fires: the callout, the invalidation of a timer that does not repeat,
    the release of what [retain_info] retained. *)
Definition fire_timer (w : world) (rl : Z) (name : string) (rlt : Z) (tm : timer) : world :=
  let doInvalidate := t_interval tm =? 0 in
  let w := upd_timer rlt (fun t => set_timer_state (t_valid t) true t) w in
  let w := upd_mode rl name (fun m => set_deadlines UINT64_MAX UINT64_MAX (m_armed m) m) w in
  let w := arm_next w rl name in
  let w := call (CallTimer rlt) w in
  let w := if doInvalidate then CFRunLoopTimerInvalidate w rlt else w in
  let w := if t_retain tm && t_release tm then call (CallReleaseTimer rlt) w else w in
  upd_timer rlt (fun t => set_timer_state (t_valid t) false t) w.

(** The timer has fired and is still valid: its next fire time. *)
Definition reschedule (w : world) (rl : Z) (name : string) (rlt : Z) (tm : timer) (oldFireTSR : Z) : result world :=
  if oldFireTSR <? t_fireTSR tm then Ok (arm_next w rl name)
  else
    nextFireTSR ← next_fire_time w oldFireTSR (t_interval tm);
    let date := w_date w + CFTimeIntervalUntilTSR nextFireTSR (w_tsr w) in
    let w := upd_timer rlt (set_fire nextFireTSR date) w in
    match t_runLoop tm with
    | Some rlt_rl => reposition_all w rlt_rl rlt (set_names (t_rlModes tm))
    | None => Ok w
    end.

Definition CFRunLoopDoTimer (w : world) (rl : Z) (name : string) (rlt : Z) : result (world * bool) :=
  match w_timers w !! rlt with
  | None => Ok (w, false)
  | Some tm =>
    if t_valid tm && (t_fireTSR tm <=? w_tsr w) && negb (t_firing tm) && bool_decide (t_runLoop tm = Some rl) then
      let w := retain_info w rlt tm in
      let oldFireTSR := fire_of w rlt in
      let w := fire_timer w rl name rlt tm in
      match w_timers w !! rlt with
      | Some tm => if t_valid tm then w ← reschedule w rl name rlt tm oldFireTSR; Ok (w, true) else Ok (w, true)
      | None => Ok (w, true)
      end
    else Ok (w, false)
  end.

Definition timer_due (w : world) (limitTSR t : Z) : bool :=
  match w_timers w !! t with
  | Some tm => t_valid tm && negb (t_firing tm) && (t_fireTSR tm <=? limitTSR)
  | None => false
  end.

Fixpoint do_timers_loop (w : world) (rl : Z) (name : string) (timers : list Z) (handled : bool)
  : result (world * bool) :=
  match timers with
  | [] => Ok (w, handled)
  | rlt :: timers =>
    '(w, did) ← CFRunLoopDoTimer w rl name rlt;
    do_timers_loop w rl name timers (handled || did)
  end.

Definition CFRunLoopDoTimers (w : world) (rl : Z) (name : string) (limitTSR : Z) : result (world * bool) :=
  let ts := default [] (find_mode w rl name ≫= m_timers) in
  do_timers_loop w rl name (filter (fun t => timer_due w limitTSR t = true) ts) false.

End Callouts.

Section Loop.
Context `{E : Env} `{K : Kernel}.

(** ** The loop *)

Definition stopped_of (w : world) (rl : Z) : bool :=
  match w_loops w !! rl with Some r => p_stopped (rl_perRunData r) | None => false end.

Definition mode_stopped (w : world) (rl : Z) (name : string) : bool :=
  match find_mode w rl name with Some m => m_stopped m | None => false end.

Definition is_empty (w : world) (rl : Z) (name : string) : bool :=
  match w_loops w !! rl, find_mode w rl name with
  | Some r, Some m => CFRunLoopModeIsEmpty (main_queue_safe w rl) r name m
  | _, _ => true
  end.

(** The wait: a wake-up by the mode's own queue that did not fire the timer is
    drained and waited again. *)
Fixpoint wait_loop (fuel : nat) (w : world) (rl : Z) (name : string) (poll : bool) : result (Z * world) :=
  match fuel with
  | O => NoFuel
  | S fuel =>
    match find_mode w rl name with
    | None => Undef
    | Some m =>
      let '(livePort, w) := wait_ports w rl (m_portSet m) poll in
      if negb (m_queuePort m =? 0) && (livePort =? m_queuePort m) then
        let w := queue_perform w rl name in
        match find_mode w rl name with
        | Some m' =>
          if m_timerFired m' then Ok (livePort, upd_mode rl name (set_timer_fired false) w)
          else wait_loop fuel w rl name poll
        | None => Undef
        end
      else Ok (livePort, w)
    end
  end.

Definition insert_port (port : Z) (X : gset Z) : gset Z := if port =? 0 then X else {[port]} ∪ X.
Definition remove_port (port : Z) (X : gset Z) : gset Z := if port =? 0 then X else X ∖ {[port]}.

(** From the before-waiting notification to the after-waiting one. *)
Definition sleep (fuel : nat) (w : world) (rl : Z) (name : string) (dispatchPort : Z) (poll : bool)
  : result (Z * world) :=
  let w := if negb poll then notify w rl name kCFRunLoopBeforeWaiting else w in
  let w := upd_loop rl (set_sleeping true) w in
  let w := upd_mode rl name (set_port_set (insert_port dispatchPort)) w in
  '(livePort, w) ← wait_loop fuel w rl name poll;
  let w := upd_mode rl name (set_port_set (remove_port dispatchPort)) w in
  let w := upd_loop rl (set_ignore true) w in
  let w := upd_loop rl (set_sleeping false) w in
  let w := if negb poll then notify w rl name kCFRunLoopAfterWaiting else w in
  Ok (livePort, w).

(** The timers of a mode whose timer port woke the loop. *)
Definition service_timers (w : world) (rl : Z) (name : string) : result world :=
  '(w, did) ← CFRunLoopDoTimers w rl name (w_tsr w);
  Ok (if (did : bool) then w else arm_next w rl name).

(** The message at the live port: the world, whether a source was handled by it, and
    whether it was the main queue's. *)
Definition handle_msg (w : world) (rl : Z) (name : string) (dispatchPort livePort : Z)
  : result (world * bool * bool) :=
  let w := upd_loop rl (set_ignore true) w in
  match w_loops w !! rl, find_mode w rl name with
  | Some r, Some m =>
    if livePort =? 0 then Ok (w, false, false)
    else if livePort =? rl_wakeUpPort r then Ok (w, false, false)
    else if negb (m_queuePort m =? 0) && (livePort =? m_queuePort m) then
      w ← service_timers w rl name; Ok (w, false, false)
    else if negb (m_timerPort m =? 0) && (livePort =? m_timerPort m) then
      w ← service_timers w rl name; Ok (w, false, false)
    else if livePort =? dispatchPort then Ok (call CallMainQueue w, true, true)
    else
      match default ∅ (m_portToV1SourceMap m) !! livePort with
      | Some rls => let '(w, did) := CFRunLoopDoSource1 w rls in Ok (w, did, false)
      | None => Ok (w, false, false)
      end
  | _, _ => Undef
  end.

(** [timeout_context->termTSR] as the loop reads it. *)
Definition term_now (w : world) (hasTimer : bool) (termTSR : Z) : Z :=
  if hasTimer && timeout_fired w then 0 else termTSR.

(** The end of an iteration: the value to return, 0 to go on. *)
Definition ret_val (w : world) (rl : Z) (name : string) (handled stopAfterHandle : bool) (termTSR : Z) : world * Z :=
  if handled && stopAfterHandle then (w, kCFRunLoopRunHandledSource)
  else if termTSR <? w_tsr w then (w, kCFRunLoopRunTimedOut)
  else if stopped_of w rl then (upd_loop rl (set_stopped false) w, kCFRunLoopRunStopped)
  else if mode_stopped w rl name then (upd_mode rl name (set_mode_stopped false) w, kCFRunLoopRunStopped)
  else if is_empty w rl name then (w, kCFRunLoopRunFinished)
  else (w, 0).

(** One pass, up to the choice of the value to return: the world, whether a source was
    handled, and whether the main queue was served; [didDispatch] is
    [didDispatchPortLastTime].  It has three parts: what precedes the sources, the
    sources and the arrival of a message, the message itself. *)
Definition before_sources (w : world) (rl : Z) (name : string) : world :=
  let w := upd_loop rl (set_ignore false) w in
  let w := notify w rl name kCFRunLoopBeforeTimers in
  let w := notify w rl name kCFRunLoopBeforeSources in
  fst (CFRunLoopDoBlocks w rl name).

Definition await_message (fuel : nat) (w : world) (rl : Z) (name : string) (dispatchPort : Z)
  (hasTimer : bool) (termTSR : Z) (stopAfterHandle didDispatch : bool) : result (Z * world * bool) :=
  '(w, handled) ← CFRunLoopDoSources0 w rl name stopAfterHandle;
  let w := if (handled : bool) then fst (CFRunLoopDoBlocks w rl name) else w in
  let poll := handled || (term_now w hasTimer termTSR =? 0) in
  let '(ready, w) := if negb (dispatchPort =? 0) && negb didDispatch then poll_main_port w else (false, w) in
  '(livePort, w) ← (if (ready : bool) then Ok (dispatchPort, w) else sleep fuel w rl name dispatchPort poll);
  Ok (livePort, w, handled).

Definition pass (fuel : nat) (w : world) (rl : Z) (name : string) (dispatchPort : Z)
  (hasTimer : bool) (termTSR : Z) (stopAfterHandle didDispatch : bool) : result (world * bool * bool) :=
  let w := before_sources w rl name in
  '(livePort, w, handled) ← await_message fuel w rl name dispatchPort hasTimer termTSR stopAfterHandle didDispatch;
  '(w, handledMsg, main) ← handle_msg w rl name dispatchPort livePort;
  let '(w, _) := CFRunLoopDoBlocks w rl name in
  Ok (w, handledMsg || handled, main).

(** One iteration. *)
Definition iteration (fuel : nat) (w : world) (rl : Z) (name : string) (dispatchPort : Z)
  (hasTimer : bool) (termTSR : Z) (stopAfterHandle didDispatch : bool) : result (world * Z * bool) :=
  '(w, handled, main) ← pass fuel w rl name dispatchPort hasTimer termTSR stopAfterHandle didDispatch;
  let '(w, retVal) := ret_val w rl name handled stopAfterHandle (term_now w hasTimer termTSR) in
  Ok (w, retVal, main).

Fixpoint run_loop (fuel waitFuel : nat) (w : world) (rl : Z) (name : string) (dispatchPort : Z)
  (hasTimer : bool) (termTSR : Z) (stopAfterHandle didDispatch : bool) : result (world * Z) :=
  match fuel with
  | O => NoFuel
  | S fuel =>
    '(w, retVal, didDispatch) ← iteration waitFuel w rl name dispatchPort hasTimer termTSR stopAfterHandle didDispatch;
    if retVal =? 0 then run_loop fuel waitFuel w rl name dispatchPort hasTimer termTSR stopAfterHandle didDispatch
    else Ok (w, retVal)
  end.

(** The port of the main queue, where this thread serves it in this mode. *)
Definition dispatch_port (w : world) (rl : Z) (name : string) : Z :=
  if main_queue_safe w rl && bool_decide (name ∈ common_of w rl) then main_queue_port else 0.

(** Whether there is a timeout timer, and [termTSR]. *)
Definition deadline (w : world) (seconds : Z) : bool * Z :=
  if seconds <=? 0 then (false, 0)
  else if seconds <=? TIMER_INTERVAL_LIMIT then (true, u64 (w_tsr w + CFTimeIntervalToTSR seconds))
  else (false, UINT64_MAX).

Definition CFRunLoopRun_ (fuel waitFuel : nat) (w : world) (rl : Z) (name : string) (seconds : Z)
  (stopAfterHandle : bool) : result (world * Z) :=
  if stopped_of w rl then Ok (upd_loop rl (set_stopped false) w, kCFRunLoopRunStopped)
  else if mode_stopped w rl name then Ok (upd_mode rl name (set_mode_stopped false) w, kCFRunLoopRunStopped)
  else
    let '(hasTimer, termTSR) := deadline w seconds in
    run_loop fuel waitFuel w rl name (dispatch_port w rl name) hasTimer termTSR stopAfterHandle true.

Definition CFRunLoopRunSpecific (fuel waitFuel : nat) (w : world) (rl : Z) (modeName : string) (seconds : Z)
  (returnAfterSourceHandled : bool) : result (world * Z) :=
  match w_loops w !! rl with
  | None => Undef
  | Some r =>
    if rl_deallocating r then Ok (w, kCFRunLoopRunFinished)
    else if is_empty w rl modeName then Ok (w, kCFRunLoopRunFinished)
    else
      let previousPerRun := rl_perRunData r in
      let previousMode := rl_currentMode r in
      let w := upd_loop rl (set_per_run (mkPerRun false false)) w in
      let w := upd_loop rl (set_current (Some modeName)) w in
      let w := notify w rl modeName kCFRunLoopEntry in
      '(w, result) ← CFRunLoopRun_ fuel waitFuel w rl modeName seconds returnAfterSourceHandled;
      let w := notify w rl modeName kCFRunLoopExit in
      let w := upd_loop rl (set_per_run previousPerRun) w in
      Ok (upd_loop rl (set_current previousMode) w, result)
  end.

(** [CFRunLoopRun]: 1.0e10 seconds are beyond the limit, so without a timeout, until
    stopped or finished. *)
Fixpoint CFRunLoopRun (times fuel waitFuel : nat) (w : world) (rl : Z) : result world :=
  match times with
  | O => NoFuel
  | S times =>
    '(w, result) ← CFRunLoopRunSpecific fuel waitFuel w rl kCFRunLoopDefaultMode 10000000000 false;
    if negb (result =? kCFRunLoopRunStopped) && negb (result =? kCFRunLoopRunFinished)
    then CFRunLoopRun times fuel waitFuel w rl
    else Ok w
  end.

(** ** Control *)

Definition CFRunLoopIsWaiting (w : world) (rl : Z) : bool :=
  match w_loops w !! rl with Some r => rl_sleeping r | None => false end.

Definition CFRunLoopCopyCurrentMode (w : world) (rl : Z) : option string :=
  r ← w_loops w !! rl; rl_currentMode r.

Definition CFRunLoopStop (w : world) (rl : Z) : world :=
  match CFRunLoopCopyCurrentMode w rl with
  | Some _ => CFRunLoopWakeUp (upd_loop rl (set_stopped true) w) rl
  | None => w
  end.

Definition CFRunLoopStopMode (w : world) (rl : Z) (modeName : string) : world :=
  let w := CFRunLoopFindMode_create w rl modeName in
  CFRunLoopWakeUp (upd_mode rl modeName (set_mode_stopped true) w) rl.

Definition CFRunLoopFinished (w : world) (rl : Z) (modeName : string) : bool := is_empty w rl modeName.

Definition CFRunLoopGetNextTimerFireDate (w : world) (rl : Z) (modeName : string) : Z :=
  match find_mode w rl modeName ≫= m_timers with
  | Some (t :: _) => match w_timers w !! t with Some tm => CFRunLoopTimerGetNextFireDate tm | None => 0 end
  | _ => 0
  end.

End Loop.

(** ** The next fire time *)

Lemma u64_small (z : Z) : 0 <= z < 2 ^ 64 -> u64 z = z.
Proof. intros. by apply uwrap_small. Qed.

(** The first of the times [next], [next + interval], ... after [current]. *)
Definition first_after (next current interval : Z) : Z :=
  if next <=? current then next + ((current - next) / interval + 1) * interval else next.

Lemma first_after_bounds (next current interval : Z) :
  0 < interval -> next <= current ->
  current < first_after next current interval <= current + interval /\
  (first_after next current interval - next) mod interval = 0.
Proof.
  intros Hi L. unfold first_after. rewrite (proj2 (Z.leb_le next current)) by done.
  pose proof (Z.div_mod (current - next) interval ltac:(lia)).
  pose proof (Z.mod_pos_bound (current - next) interval Hi). split; [lia|].
  replace (_ - next) with (((current - next) / interval + 1) * interval) by lia. apply Z.mod_mul. lia.
Qed.

Lemma next_fire_spec (fuel : nat) (next current interval : Z) :
  0 < interval -> 0 <= next -> current + interval < 2 ^ 64 ->
  (next <= current -> (current - next) / interval + 1 < Z.of_nat fuel) -> (0 < fuel)%nat ->
  next_fire fuel next current interval = Ok (first_after next current interval).
Proof.
  intros Hi. revert next. induction fuel as [|fuel IH]; intros next Hn Hc Hf H0; [lia|]. cbn [next_fire].
  unfold first_after. destruct (Z.leb_spec next current) as [L|G]; [|done]. rewrite u64_small by lia.
  assert (D : (current - (next + interval)) / interval = (current - next) / interval - 1).
  { replace (current - (next + interval)) with (current - next + (-1) * interval) by lia. rewrite Z.div_add; lia. }
  specialize (Hf L). pose proof (Z.div_pos (current - next) interval ltac:(lia) ltac:(lia)).
  rewrite IH by lia. unfold first_after. destruct (Z.leb_spec (next + interval) current) as [L'|G'].
  - rewrite D. f_equal. lia.
  - rewrite (Z.div_small (current - next)) by lia. f_equal. lia.
Qed.

Section Timers.
Context `{E : Env} `{!EnvLaws E}.

Lemma next_fire_time_spec (w : world) (old interval : Z) :
  0 < interval_ticks_of interval -> 0 <= old -> 0 <= w_tsr w <= LLONG_MAX ->
  next_fire_time w old interval =
    Ok (if LLONG_MAX - interval_ticks_of interval <=? old then LLONG_MAX
        else first_after old (w_tsr w) (interval_ticks_of interval)) \/
  LLONG_MAX < interval_ticks_of interval.
Proof.
  intros Hi Ho Hw. destruct (Z.le_gt_cases (interval_ticks_of interval) LLONG_MAX) as [Hs|]; [left|by right].
  unfold next_fire_time. assert (M : LLONG_MAX = 9223372036854775807) by done.
  rewrite u64_small by (change (2 ^ 64) with 18446744073709551616; lia).
  destruct (Z.leb_spec (LLONG_MAX - interval_ticks_of interval) old); [done|].
  rewrite (proj2 (Z.eqb_neq _ 0)) by lia. rewrite next_fire_spec; [done|lia|lia| | |lia].
  - change (2 ^ 64) with 18446744073709551616. lia.
  - intros L. assert (Hq : 0 <= (w_tsr w - old) / interval_ticks_of interval) by (apply Z.div_pos; lia).
    set (q := (w_tsr w - old) / interval_ticks_of interval) in *. clearbody q. lia.
Qed.

(** C10. The next fire time of a repeating timer is after now, at most one interval ahead, and a whole
    number of intervals after the previous one: missed periods are skipped and the timer does not drift. *)
Theorem repeating_timer_no_drift (w : world) (old interval : Z) :
  0 < interval_ticks_of interval <= LLONG_MAX -> 0 <= old <= w_tsr w -> w_tsr w <= LLONG_MAX ->
  old < LLONG_MAX - interval_ticks_of interval ->
  exists next, next_fire_time w old interval = Ok next /\
    w_tsr w < next <= w_tsr w + interval_ticks_of interval /\ (next - old) mod interval_ticks_of interval = 0.
Proof.
  intros Hi Ho Hw Hl. destruct (next_fire_time_spec w old interval) as [->|]; [lia..| |lia].
  rewrite (proj2 (Z.leb_gt _ old)) by lia. eexists. split; [done|]. apply first_after_bounds; lia.
Qed.

(** ** Firing keeps the timers in order *)

(** The user's functions touch timers through the operations of the run loop only,
    and the clock does not run backwards out of its range. *)
Class TimerSafe : Prop := {
  callout_timers : forall c w, timers_ok w -> timers_ok (user c w);
  callout_clock : forall c w, 0 <= w_tsr w <= LLONG_MAX -> 0 <= w_tsr (user c w) <= LLONG_MAX;
  callout_fires : forall c w, (forall t, 0 <= fire_of w t) -> forall t, 0 <= fire_of (user c w) t
}.

Lemma log_keeps (c : callout) (w : world) : timers_ok w -> timers_ok (upd_log c w).
Proof. by apply timers_ok_ext. Qed.

Lemma upd_state_ok (w : world) (t : Z) (f : timer -> timer) :
  (forall tm, t_fireTSR (f tm) = t_fireTSR tm /\ t_runLoop (f tm) = t_runLoop tm /\ t_rlModes (f tm) = t_rlModes tm) ->
  timers_ok w -> timers_ok (upd_timer t f w).
Proof.
  intros Hf W. destruct (w_timers w !! t) as [tm|] eqn:Et.
  - destruct (Hf tm) as (_ & F2 & F3). apply (timers_ok_moved w _ t tm (f tm)); try done.
    + by apply alter_insert_timer.
    + rewrite F2, F3. exact (tk_owner w W t tm Et).
    + intros rl name. apply (sorted_ext (fire_of w)); [|apply (tk_sorted w W)]. intros x. apply fire_of_upd. apply Hf.
    + apply (tk_nodup w W).
    + intros rl name. change (timers_in (upd_timer t f w)) with (timers_in w).
      rewrite (tk_member w W), Et, F2, F3. naive_solver.
  - apply (timers_ok_ext w); try done. cbn. apply map_eq. intros k. destruct (decide (k = t)) as [->|N].
    + by rewrite lookup_alter_eq, Et.
    + by rewrite lookup_alter_ne.
Qed.

Context `{!TimerSafe}.

Lemma call_ok (c : callout) (w : world) : timers_ok w -> timers_ok (call c w).
Proof. intros W. by apply callout_timers, log_keeps. Qed.

Lemma invalidate_ok (w : world) (t : Z) : timers_ok w -> timers_ok (CFRunLoopTimerInvalidate w t).
Proof.
  intros W. unfold CFRunLoopTimerInvalidate. destruct (w_timers w !! t) as [tm|]; [|done].
  destruct (t_valid tm); [|done]. assert (W1 : timers_ok (upd_timer t (set_timer_state false (t_firing tm)) w)).
  { by apply upd_state_ok. }
  set (w1 := upd_timer t _ w) in *.
  assert (W2 : timers_ok (match t_runLoop tm with
    | Some rl => CFRunLoopRemoveTimer (foldl (fun w name => CFRunLoopRemoveTimer w rl t name) w1 (set_names (t_rlModes tm)))
                   rl t kCFRunLoopCommonModes
    | None => w1 end)).
  { destruct (t_runLoop tm) as [rl|]; [|done]. apply remove_timer_ok. revert W1. generalize w1.
    induction (set_names (t_rlModes tm)) as [|n ns IH]; intros w0 W0; cbn [foldl]; [done|]. by apply IH, remove_timer_ok. }
  destruct (t_release tm); [by apply call_ok|done].
Qed.

Lemma deadlines_keep (w : world) (rl : Z) (name : string) (soft hard : Z) :
  timers_ok w -> timers_ok (upd_mode rl name (fun m => set_deadlines soft hard (m_armed m) m) w).
Proof. apply timers_ok_ext; [done|]. intros. by apply timers_in_upd_mode. Qed.

Lemma arm_keeps (w : world) (rl : Z) (name : string) : timers_ok w -> timers_ok (arm_next w rl name).
Proof. apply timers_ok_ext; [done|]. intros. apply timers_in_arm. Qed.

Lemma fire_timer_ok (w : world) (rl : Z) (name : string) (t : Z) (tm : timer) :
  timers_ok w -> timers_ok (fire_timer w rl name t tm).
Proof.
  intros W. unfold fire_timer. apply upd_state_ok; [done|].
  assert (W1 : timers_ok (call (CallTimer t) (arm_next (upd_mode rl name
    (fun m => set_deadlines UINT64_MAX UINT64_MAX (m_armed m) m)
    (upd_timer t (fun t => set_timer_state (t_valid t) true t) w)) rl name))).
  { apply call_ok, arm_keeps, deadlines_keep. by apply upd_state_ok. }
  destruct (t_retain tm && t_release tm); [apply call_ok|]; (destruct (_ =? 0); [by apply invalidate_ok|done]).
Qed.

(** Storing a fire time and repositioning, in a run loop or in none. *)
Lemma store_fire_ok (w : world) (t : Z) (tm : timer) (next date : Z) :
  timers_ok w -> w_timers w !! t = Some tm ->
  exists w', (match t_runLoop tm with
    | Some rl => reposition_all (upd_timer t (set_fire next date) w) rl t (set_names (t_rlModes tm))
    | None => Ok (upd_timer t (set_fire next date) w)
    end) = Ok w' /\ timers_ok w'.
Proof.
  intros W Et. destruct (t_runLoop tm) as [rl'|] eqn:Er.
  - destruct (set_fire_ok w rl' t next date tm W Et Er) as (w' & -> & W' & _). by exists w'.
  - eexists; split; [done|]. eapply (moved_ok w _ t); [done|done|by apply alter_insert_timer|done|].
    intros rl' name'. apply (sorted_ext_in (fire_of w)); [|apply (tk_sorted w W)].
    intros x Hx. apply fire_of_set. intros ->. apply (tk_member w W) in Hx as (tm' & E' & O & _). congruence.
Qed.

(** With a positive number of ticks there is always a next fire time. *)
Lemma reschedule_ok (w : world) (rl : Z) (name : string) (t : Z) (tm : timer) (old : Z) :
  timers_ok w -> w_timers w !! t = Some tm -> 0 <= w_tsr w <= LLONG_MAX -> 0 <= old ->
  0 < interval_ticks_of (t_interval tm) <= LLONG_MAX ->
  exists w', reschedule w rl name t tm old = Ok w' /\ timers_ok w'.
Proof.
  intros W Et Hw Ho Hi. unfold reschedule. destruct (old <? t_fireTSR tm); [eexists; split; [done|by apply arm_keeps]|].
  destruct (next_fire_time_spec w old (t_interval tm)) as [->|]; [lia..| |lia]. cbn [mbind result_bind].
  by apply store_fire_ok.
Qed.

(** With no ticks the process halts, unless the timer was moved or never fires. *)
Lemma reschedule_zero (w : world) (rl : Z) (name : string) (t : Z) (tm : timer) (old : Z) :
  timers_ok w -> w_timers w !! t = Some tm -> interval_ticks_of (t_interval tm) = 0 ->
  reschedule w rl name t tm old = Halt \/ exists w', reschedule w rl name t tm old = Ok w' /\ timers_ok w'.
Proof.
  intros W Et Hi. unfold reschedule, next_fire_time. rewrite Hi.
  destruct (old <? t_fireTSR tm); [right; eexists; split; [done|by apply arm_keeps]|].
  destruct (_ <=? old); [right|by left]. cbn [mbind result_bind]. by apply store_fire_ok.
Qed.

Lemma remove_timer_clock (w : world) (rl t : Z) (name : string) : w_tsr (CFRunLoopRemoveTimer w rl t name) = w_tsr w.
Proof.
  assert (Hclock : forall w name, w_tsr (remove_timer_nested w rl t name) = w_tsr w).
  { intros w0 n0. unfold remove_timer_nested, remove_timer_in_mode. case_bool_decide; [done|].
    destruct (_ ≫= m_timers); [|done]. by destruct (CFArrayGetFirstIndexOfValue _ _). }
  unfold CFRunLoopRemoveTimer. case_bool_decide as Hn.
  - destruct (in_common_items _ _ _); [|done].
    change (w_tsr w) with (w_tsr (upd_loop rl (set_items_common (fun X => X ∖ {[ITimer t]})) w)).
    generalize (upd_loop rl (set_items_common (fun X => X ∖ {[ITimer t]})) w).
    induction (common_modes w rl) as [|n ns IH]; intros w0; cbn [foldl]; [done|]. by rewrite IH, Hclock.
  - specialize (Hclock w name). unfold remove_timer_nested in Hclock. by rewrite bool_decide_false in Hclock.
Qed.

Lemma invalidate_clock (w : world) (t : Z) :
  0 <= w_tsr w <= LLONG_MAX -> 0 <= w_tsr (CFRunLoopTimerInvalidate w t) <= LLONG_MAX.
Proof.
  intros Hw. unfold CFRunLoopTimerInvalidate. destruct (w_timers w !! t) as [tm|]; [|done].
  destruct (t_valid tm); [|done].
  set (w2 := match t_runLoop tm with Some rl => _ | None => _ end).
  assert (C : w_tsr w2 = w_tsr w).
  { unfold w2. destruct (t_runLoop tm) as [rl|]; [|done]. rewrite remove_timer_clock.
    change (w_tsr w) with (w_tsr (upd_timer t (set_timer_state false (t_firing tm)) w)).
    generalize (upd_timer t (set_timer_state false (t_firing tm)) w).
    induction (set_names (t_rlModes tm)) as [|n ns IH]; intros w0; cbn [foldl]; [done|]. by rewrite IH, remove_timer_clock. }
  destruct (t_release tm); [|by rewrite C]. apply callout_clock. change (0 <= w_tsr w2 <= LLONG_MAX). by rewrite C.
Qed.

Lemma fire_timer_clock (w : world) (rl : Z) (name : string) (t : Z) (tm : timer) :
  0 <= w_tsr w <= LLONG_MAX -> 0 <= w_tsr (fire_timer w rl name t tm) <= LLONG_MAX.
Proof.
  intros Hw. unfold fire_timer. change (w_tsr (upd_timer ?a ?b ?c)) with (w_tsr c).
  assert (C : 0 <= w_tsr (call (CallTimer t) (arm_next (upd_mode rl name
    (fun m => set_deadlines UINT64_MAX UINT64_MAX (m_armed m) m)
    (upd_timer t (fun t => set_timer_state (t_valid t) true t) w)) rl name)) <= LLONG_MAX) by (by apply callout_clock).
  destruct (t_retain tm && t_release tm); [apply callout_clock|]; (destruct (_ =? 0); [by apply invalidate_clock|done]).
Qed.

(** C4. __CFRunLoopDoTimer never runs into undefined behaviour and keeps the timer invariant, for
    callouts that may themselves move, add or remove timers; it changes nothing when it does not fire,
    and it halts only for a timer that is still valid after the callout and has an interval of no ticks. *)
Theorem do_timer_safe (w : world) (rl : Z) (name : string) (t : Z) :
  timers_ok w -> 0 <= w_tsr w <= LLONG_MAX -> (forall x, 0 <= fire_of w x) ->
  (forall i, interval_ticks_of i <= LLONG_MAX) ->
  match CFRunLoopDoTimer w rl name t with
  | Ok (w', handled) => timers_ok w' /\ (handled = false -> w' = w)
  | Halt => exists tm tm', w_timers w !! t = Some tm /\ w_timers (fire_timer (retain_info w t tm) rl name t tm) !! t = Some tm' /\
      t_valid tm' = true /\ interval_ticks_of (t_interval tm') = 0
  | _ => False
  end.
Proof.
  intros W Hw Ho Hticks. unfold CFRunLoopDoTimer. destruct (w_timers w !! t) as [tm|] eqn:Et; [|done].
  destruct (t_valid tm && _ && _ && _); [|done].
  assert (W0 : timers_ok (retain_info w t tm)) by (unfold retain_info; destruct (t_retain tm); [by apply call_ok|done]).
  assert (C0 : 0 <= w_tsr (retain_info w t tm) <= LLONG_MAX)
    by (unfold retain_info; destruct (t_retain tm); [by apply callout_clock|done]).
  assert (Hold : 0 <= fire_of (retain_info w t tm) t)
    by (unfold retain_info; destruct (t_retain tm); [by apply callout_fires|done]).
  set (w0 := retain_info w t tm) in *.
  pose proof (fire_timer_ok w0 rl name t tm W0) as W1. pose proof (fire_timer_clock w0 rl name t tm C0) as C1.
  set (w1 := fire_timer w0 rl name t tm) in *.
  destruct (w_timers w1 !! t) as [tm'|] eqn:Et'; [|done]. destruct (t_valid tm') eqn:Ev; [|done].
  pose proof (Hticks (t_interval tm')) as Hi.
  assert (Hpos : 0 <= interval_ticks_of (t_interval tm')).
  { unfold interval_ticks_of. destruct (_ <=? 0); [done|]. destruct (_ <? _); apply interval_ticks. }
  destruct (Z.eq_dec (interval_ticks_of (t_interval tm')) 0) as [Z0|NZ].
  - destruct (reschedule_zero w1 rl name t tm' (fire_of w0 t)) as [->|(w2 & -> & W2)]; [done..|by exists tm, tm'|done].
  - destruct (reschedule_ok w1 rl name t tm' (fire_of w0 t)) as (w2 & -> & W2); [done|done|done|done|lia|].
    cbn [mbind result_bind]. done.
Qed.

End Timers.

Section Sample.
#[local] Existing Instance sample_env.
#[local] Existing Instance sample_env_laws.

Lemma repeating_timer_witness :
  exists next, next_fire_time sample_world 5 4 = Ok next /\
    w_tsr sample_world < next <= w_tsr sample_world + interval_ticks_of 4 /\ (next - 5) mod interval_ticks_of 4 = 0.
Proof. apply repeating_timer_no_drift; vm_compute; [split; [reflexivity|discriminate]|split; discriminate|discriminate|reflexivity]. Defined.

#[local] Instance sample_safe : TimerSafe.
Proof. by split. Qed.

Lemma sample_ticks (i : Z) : interval_ticks_of i <= LLONG_MAX.
Proof.
  assert (M : LLONG_MAX = 9223372036854775807) by done.
  assert (L : TIMER_INTERVAL_LIMIT = 504911232) by done. unfold interval_ticks_of.
  destruct (Z.leb_spec i 0); [lia|]. rewrite L. destruct (Z.ltb_spec 504911232 i); cbn; rewrite Z.mod_small; lia.
Qed.

Lemma do_timer_witness :
  match CFRunLoopDoTimer sample_world 1 kCFRunLoopDefaultMode 10 with
  | Ok (w', handled) => timers_ok w' /\ (handled = false -> w' = sample_world)
  | Halt => exists tm tm', w_timers sample_world !! 10 = Some tm /\
      w_timers (fire_timer (retain_info sample_world 10 tm) 1 kCFRunLoopDefaultMode 10 tm) !! 10 = Some tm' /\
      t_valid tm' = true /\ interval_ticks_of (t_interval tm') = 0
  | _ => False
  end.
Proof.
  apply (do_timer_safe sample_world 1 kCFRunLoopDefaultMode 10);
    [exact sample_world_ok|vm_compute; split; discriminate| |exact sample_ticks].
  intros x. unfold fire_of. destruct (w_timers sample_world !! x) as [tm|] eqn:E; [|done]. cbn.
  assert (F : map_Forall (fun _ tm => 0 <= t_fireTSR tm) (w_timers sample_world)) by (apply (bool_decide_unpack _); by vm_compute).
  by apply (F x).
Defined.

End Sample.

End RunLoopRun.
