(* ===== verification/RunLoopSources.v ===== *)
(** * The sources of version 0 that a pass serves: __CFRunLoopDoSources0

    The due sources are collected into an array, sorted by [_order] with
    CFArraySortValues (Array.v, ArraySort.v) and performed one after the other.  The
    array stands for a list, which is the stable sort of the sources collected. *)

From stdpp Require Import base list numbers option strings gmap gmultiset sorting.
From Stdlib Require Import ZArith Lia.
From S2P Require Import Prelude Sort SortN Array ArrayDeque ArrayOps ArraySort RunLoop RunLoopTimers RunLoopRun.

Module RunLoopSources.
Import RunLoop RunLoopTimers RunLoopRun.

Section Sources.
Context `{E : Env} `{!EnvLaws E}.

(** ** The due sources and their order *)

Definition due_sources (w : world) (m : mode) : list Z :=
  match m_sources0 m with
  | Some X => filter (fun s => source_due w s = true) (set_ids X)
  | None => []
  end.

#[local] Instance source_comparator (w : world) : Sort.Comparator (CFRunLoopSourceComparator w).
Proof.
  split; unfold CFRunLoopSourceComparator; intros.
  - destruct (Z.ltb_spec (source_order w a) (source_order w b)), (Z.ltb_spec (source_order w b) (source_order w a)); lia.
  - repeat match goal with _ : context [?x <? ?y] |- _ => destruct (Z.ltb_spec x y) | |- context [?x <? ?y] => destruct (Z.ltb_spec x y) end; lia.
Qed.

Lemma source_sign (w : world) (x y : Z) : CFRunLoopSourceComparator w x y < 0 <-> 0 < CFRunLoopSourceComparator w y x.
Proof.
  unfold CFRunLoopSourceComparator. destruct (Z.ltb_spec (source_order w x) (source_order w y)), (Z.ltb_spec (source_order w y) (source_order w x)); lia.
Qed.

Lemma source_le (w : world) (x y : Z) : Sort.le (CFRunLoopSourceComparator w) x y -> source_order w x <= source_order w y.
Proof.
  unfold Sort.le, CFRunLoopSourceComparator. destruct (Z.ltb_spec (source_order w x) (source_order w y)), (Z.ltb_spec (source_order w y) (source_order w x)); lia.
Qed.

(** ** Collecting *)

(** An array with the callbacks of CFTypes that holds [l]. *)
Definition holds_sources (a : Array.CFArray) (l : list Z) : Prop :=
  ArrayDeque.mutable a /\ ArrayDeque.contents a l /\ Array.CFArrayGetCallBacks kCFTypeArrayCallBacks a = kCFTypeArrayCallBacks.

Lemma stored_same (a : Array.CFArray) (v : Z) : ArrayDeque.stored kCFTypeArrayCallBacks CFTypeCollectionRetain a v = v.
Proof. unfold ArrayDeque.stored, CFTypeCollectionRetain. by destruct (_ =? 0). Qed.

Lemma no_sources_hold : holds_sources (Array.CFArrayCreateMutable0 kCFTypeArrayCallBacks 0 (Some kCFTypeArrayCallBacks)) [].
Proof.
  destruct (ArrayOps.init_empty kCFTypeArrayCallBacks 0 (Some kCFTypeArrayCallBacks)) as [H M].
  split_and!; [done|done|]. apply (ArrayOps.init_callbacks kCFTypeArrayCallBacks Array.kDeque 0 (Some kCFTypeArrayCallBacks)).
Qed.

Lemma append_holds (a : Array.CFArray) (l : list Z) (s : Z) :
  holds_sources a l -> Z.of_nat (length l) + 1 < ArrayDeque.max_count ->
  exists a', append_source a s = Ok a' /\ holds_sources a' (l ++ [s]).
Proof.
  intros (M & H & C) L.
  destruct (ArrayOps.append_spec kCFTypeArrayCallBacks CFTypeCollectionRetain a l s M H L) as (a' & Ea & H' & S').
  unfold append_source. rewrite Ea. cbn [mbind result_bind]. exists a'. rewrite stored_same in H'.
  destruct S' as (M' & S'). split; [done|]. split_and!; [done|done|].
  destruct S' as (S1 & S2 & _). by rewrite (ArrayOps.same_callbacks_get kCFTypeArrayCallBacks a a' (conj S1 S2)).
Qed.

(** What [sources] stands for. *)
Definition collected_list (c : collected) (l : list Z) : Prop :=
  match c with
  | NoSource => l = []
  | OneSource s => l = [s]
  | Sources a => (2 <= length l)%nat /\ holds_sources a l
  end.

Lemma collect_one (w : world) (c : collected) (l : list Z) (s : Z) :
  collected_list c l -> Z.of_nat (length l) + 1 < ArrayDeque.max_count -> source_due w s = true ->
  exists c', CFRunLoopCollectSources0 w c s = Ok c' /\ collected_list c' (l ++ [s]).
Proof.
  intros Hc L D. unfold CFRunLoopCollectSources0. rewrite D. destruct c as [|old|a]; cbn in Hc.
  - subst l. by exists (OneSource s).
  - subst l. destruct (append_holds _ _ old no_sources_hold) as (a1 & -> & H1); [cbn; unfold ArrayDeque.max_count; lia|]. cbn [mbind result_bind].
    destruct (append_holds _ _ s H1) as (a2 & -> & H2); [done|]. cbn [mbind result_bind]. exists (Sources a2). split; [done|]. by split; [cbn; lia|].
  - destruct Hc as [L2 Ha]. destruct (append_holds _ _ s Ha) as (a' & -> & H'); [done|]. cbn [mbind result_bind].
    exists (Sources a'). split; [done|]. split; [|done]. rewrite length_app. lia.
Qed.

Lemma collect_spec (w : world) (ids l : list Z) (c : collected) :
  collected_list c l -> Z.of_nat (length l + length (filter (fun s => source_due w s = true) ids)) < ArrayDeque.max_count ->
  exists c', collect_sources w c ids = Ok c' /\ collected_list c' (l ++ filter (fun s => source_due w s = true) ids).
Proof.
  revert l c. induction ids as [|s ids IH]; intros l c Hc L; cbn [collect_sources]; [exists c; by rewrite app_nil_r|].
  rewrite filter_cons in L |- *. destruct (decide (source_due w s = true)) as [D|D].
  - cbn [length] in L. destruct (collect_one w c l s Hc ltac:(lia) D) as (c1 & -> & H1). cbn [mbind result_bind].
    destruct (IH _ _ H1) as (c2 & -> & H2); [rewrite length_app; cbn; lia|]. exists c2. by rewrite <- app_assoc in H2.
  - unfold CFRunLoopCollectSources0. destruct (source_due w s); [done|]. cbn [mbind result_bind]. by apply IH.
Qed.

(** ** Serving a list *)

(** The sources of a list, each looked at again when its turn comes. *)
Fixpoint serve_list (w : world) (l : list Z) (stopAfterHandle handled : bool) : world * bool :=
  match l with
  | [] => (w, handled)
  | rls :: l =>
    let '(w, did) := perform_source0 w rls in
    let handled := did || handled in
    if stopAfterHandle && handled then (w, handled) else serve_list w l stopAfterHandle handled
  end.

Lemma do_sources_loop_spec (a : Array.CFArray) (vs : list Z) (stop : bool) : ArrayDeque.contents a vs ->
  forall (l : list Z) (w : world) (p : list Z) (handled : bool), vs = p ++ l ->
  do_sources_loop (length l) w a (Z.of_nat (length p)) stop handled = Ok (serve_list w l stop handled).
Proof.
  intros H l. induction l as [|s l IH]; intros w p handled Ev; [done|]. cbn [length do_sources_loop serve_list].
  rewrite (ArrayOps.get_value_spec a vs _ s H) by (rewrite ?Nat2Z.id, ?Ev, ?list_lookup_middle; done || lia). cbn [mbind result_bind].
  destruct (perform_source0 w s) as [w1 did]. destruct (stop && _); [done|].
  specialize (IH w1 (p ++ [s]) (did || handled)). rewrite length_app, Nat2Z.inj_add in IH. apply IH. by rewrite <- app_assoc.
Qed.

Lemma due_spec (w : world) (m : mode) :
  NoDup (due_sources w m) /\ Forall (fun s => source_due w s = true) (due_sources w m).
Proof.
  unfold due_sources. destruct (m_sources0 m) as [X|]; [|by split; [apply NoDup_nil_2|]]. split.
  - apply NoDup_filter. rewrite set_ids_perm. apply NoDup_elements.
  - apply Forall_forall. intros s Hs. by apply list_elem_of_filter in Hs as [? _].
Qed.

(** The array is the stable sort of the due sources, served as a list. *)
Lemma do_sources0_spec (w : world) (rl : Z) (name : string) (m : mode) (stop : bool) :
  find_mode w rl name = Some m -> Z.of_nat (length (due_sources w m)) < ArrayDeque.max_count ->
  exists due, Sort.stable_sorted (CFRunLoopSourceComparator w) (due_sources w m) due /\ due ≡ₚ due_sources w m /\
    CFRunLoopDoSources0 w rl name stop = Ok (serve_list w due stop false).
Proof.
  intros Hm L. unfold CFRunLoopDoSources0. rewrite Hm.
  destruct (collect_spec w (match m_sources0 m with Some X => set_ids X | None => [] end) [] NoSource) as (c & Ec & Hc);
    [done|by unfold due_sources in L; destruct (m_sources0 m)|].
  rewrite Ec. cbn [mbind result_bind app] in *.
  replace (filter _ _) with (due_sources w m) in Hc by (unfold due_sources; by destruct (m_sources0 m)).
  destruct c as [|s|a]; cbn in Hc.
  - rewrite Hc. exists []. by split; [apply ArraySort.short_sorted; cbn; lia|].
  - rewrite Hc. exists [s]. split; [apply ArraySort.short_sorted; cbn; lia|]. split; [done|]. cbn.
    destruct (perform_source0 w s) as [w1 did]. rewrite orb_false_r. by destruct (stop && did).
  - destruct Hc as (L2 & M & H & C). set (vs := due_sources w m) in *.
    unfold Array.CFArrayGetCount. rewrite (ArrayDeque.contents_count a vs H), Nat2Z.id.
    destruct (ArraySort.sort_values_spec kCFTypeArrayCallBacks CFTypeCollectionRetain (CFRunLoopSourceComparator w) (source_sign w)
      fresh_words fresh_words_length a vs 0 (length vs) H ltac:(lia) L) as (out & St & Pe & Hs & _).
    rewrite drop_0, firstn_all in St, Pe. exists out. split; [done|]. split; [done|]. destruct (Hs M) as (a' & M' & Ha).
    assert (Ha' : exists ev, Array.CFArraySortValues kCFTypeArrayCallBacks CFTypeCollectionRetain (CFRunLoopSourceComparator w)
      fresh_words a 0 (Z.of_nat (length vs)) = Ok (a', ev) /\ ArrayDeque.contents a' out).
    { cbn [take app Nat.add] in Ha. rewrite drop_all, !app_nil_r in Ha. destruct (ArraySort.unbalanced _ _ || _); destruct Ha as [Ea Ha].
      - by eexists.
      - eexists; split; [exact Ea|]. by rewrite (map_ext _ id (stored_same a)), map_id in Ha. }
    destruct Ha' as (ev & -> & H'). cbn [mbind result_bind]. rewrite <- (Permutation_length Pe).
    by apply (do_sources_loop_spec a' out stop H' out w [] false).
Qed.

(** ** Callouts that leave the sources alone *)

Definition unsignal (rls : Z) (w : world) : world :=
  upd_source rls (fun s => set_source_state (s_valid s) false s) w.

(** A source is unsignaled, then performed. *)
Definition serve_source (w : world) (rls : Z) : world :=
  if match w_sources w !! rls with Some s => s_perform s | None => false end
  then call (CallSource0 rls) (unsignal rls w) else unsignal rls w.

Lemma perform_due (w : world) (rls : Z) : source_due w rls = true -> perform_source0 w rls = (serve_source w rls, true).
Proof.
  unfold source_due, perform_source0, serve_source, unsignal. destruct (w_sources w !! rls) as [s|]; [|done].
  intros H. apply andb_prop in H as [[_ Hv]%andb_prop Hs]. by rewrite Hv, Hs.
Qed.

(** The first source is still due when its turn comes. *)
Lemma serve_first (w : world) (due : list Z) (handled : bool) : Forall (fun s => source_due w s = true) due ->
  serve_list w due true handled = if decide (due = []) then (w, handled) else (foldl serve_source w (take 1 due), true).
Proof. destruct due as [|a l]; [done|]. intros [Ha _]%Forall_cons. cbn. by rewrite perform_due. Qed.

Lemma serve_handled (l : list Z) : forall w stop w', serve_list w l stop true = (w', false) -> False.
Proof.
  induction l as [|s l IH]; intros w stop w'; cbn; [done|]. destruct (perform_source0 w s) as [w1 did]. rewrite orb_true_r, andb_true_r.
  destruct stop; [done|]. apply IH.
Qed.

(** A source is handled exactly when one was due. *)
Lemma serve_list_handled (w : world) (due : list Z) (stop : bool) : Forall (fun s => source_due w s = true) due ->
  snd (serve_list w due stop false) = bool_decide (due <> []).
Proof.
  destruct due as [|a l]; [done|]. intros [Ha _]%Forall_cons. cbn. rewrite perform_due by done. cbn. destruct stop; [done|]. cbn.
  destruct (serve_list _ l false true) as [w' h] eqn:Es. destruct h; [done|]. by apply serve_handled in Es.
Qed.

Section Keeping.
Context (keeps : forall s w, w_sources (user (CallSource0 s) w) = w_sources w).

Lemma serve_sources (w : world) (rls : Z) : w_sources (serve_source w rls) = w_sources (unsignal rls w).
Proof. unfold serve_source. destruct (match _ with Some _ => _ | None => _ end); [|done]. unfold call. by rewrite keeps. Qed.

Lemma due_after (w : world) (rls x : Z) : x <> rls -> source_due (serve_source w rls) x = source_due w x.
Proof. intros N. unfold source_due. rewrite serve_sources. cbn. by rewrite lookup_alter_ne. Qed.

Lemma due_after_self (w : world) (rls : Z) : source_due (serve_source w rls) rls = false.
Proof.
  unfold source_due. rewrite serve_sources. cbn. rewrite lookup_alter_eq. destruct (w_sources w !! rls); [|done]. cbn.
  by rewrite andb_false_r.
Qed.

Lemma serve_all (l : list Z) (w : world) (handled : bool) :
  NoDup l -> Forall (fun s => source_due w s = true) l ->
  serve_list w l false handled = (foldl serve_source w l, bool_decide (l <> []) || handled) /\
  (forall x, source_due (foldl serve_source w l) x = if decide (x ∈ l) then false else source_due w x).
Proof.
  revert w handled. induction l as [|a l IH]; intros w handled ND F; [done|].
  apply NoDup_cons in ND as [Na ND]. apply Forall_cons in F as [Fa F]. cbn [serve_list foldl]. rewrite perform_due by done.
  destruct (IH (serve_source w a) (true || handled) ND) as [-> Hx].
  { rewrite Forall_forall in F |- *. intros x Hx. rewrite due_after; [by apply F|]. by intros ->. }
  split; [cbn; by rewrite orb_true_r|]. intros x. rewrite Hx. destruct (decide (x = a)) as [->|N].
  - rewrite (decide_False (P := a ∈ l)), (decide_True (P := a ∈ a :: l)) by set_solver. apply due_after_self.
  - rewrite due_after by done. destruct (decide (x ∈ l)), (decide (x ∈ a :: l)); set_solver.
Qed.

Lemma none_due (w : world) (m : mode) (due : list Z) : due ≡ₚ due_sources w m ->
  due_sources (foldl serve_source w due) m = [].
Proof.
  intros P. destruct (due_spec w m) as [ND F]. rewrite <- P in ND, F. destruct (serve_all due w false ND F) as [_ Hx].
  unfold due_sources in P |- *. destruct (m_sources0 m) as [X|]; [|done].
  destruct (filter (fun s => source_due (foldl serve_source w due) s = true) (set_ids X)) as [|x xs] eqn:Ef; [done|]. exfalso.
  assert (Hin : x ∈ filter (fun s => source_due (foldl serve_source w due) s = true) (set_ids X)) by (rewrite Ef; left).
  apply list_elem_of_filter in Hin as [Hd Hin]. rewrite Hx in Hd. case_decide as Nd; [done|]. apply Nd. rewrite P. by apply list_elem_of_filter.
Qed.

End Keeping.

(** C7. __CFRunLoopDoSources0 collects the valid signaled sources of version 0 (fewer than 2^30 - 2^13
    of them) into an array that CFArraySortValues sorts, stably, by their _order field, and serves them
    in that order, each one only if it is still signaled and valid when its turn comes; it reports a
    source as handled exactly when one was due, and serves only the first one when the caller wants to
    stop after one. This holds for any callouts. When moreover no source callout changes the store of
    sources, and the caller does not stop after one, every collected source is unsignaled and then
    performed, and no source of the mode is due afterwards. *)
Theorem do_sources0_in_order (w : world) (rl : Z) (name : string) (m : mode) (stopAfterHandle : bool) :
  find_mode w rl name = Some m -> Z.of_nat (length (due_sources w m)) < ArrayDeque.max_count ->
  exists due, due ≡ₚ due_sources w m /\ Sort.stable_sorted (CFRunLoopSourceComparator w) (due_sources w m) due /\
    StronglySorted (fun a b => source_order w a <= source_order w b) due /\
    CFRunLoopDoSources0 w rl name stopAfterHandle = Ok (serve_list w due stopAfterHandle false) /\
    snd (serve_list w due stopAfterHandle false) = bool_decide (due <> []) /\
    (stopAfterHandle = true -> fst (serve_list w due true false) = foldl serve_source w (take 1 due)) /\
    ((forall s w0, w_sources (user (CallSource0 s) w0) = w_sources w0) -> stopAfterHandle = false ->
     fst (serve_list w due false false) = foldl serve_source w due /\ due_sources (foldl serve_source w due) m = []).
Proof.
  intros Hm L. destruct (do_sources0_spec w rl name m stopAfterHandle Hm L) as (due & St & Pe & Edo). exists due.
  destruct (due_spec w m) as [ND F]. rewrite <- Pe in ND, F. split_and!; [done|done| |done|by apply serve_list_handled| |].
  - destruct St as [S _]. clear -S. induction S as [|a l S IH Fa]; constructor; [exact IH|]. eapply Forall_impl; [exact Fa|]. intros b. apply source_le.
  - intros _. rewrite serve_first by done. by case_decide as Nd; [subst due|].
  - intros Keeps _. split; [by destruct (serve_all Keeps due w false ND F) as [-> _]|]. by apply none_due.
Qed.

End Sources.

(** ** A run loop on which the theorem applies *)

#[local] Existing Instance sample_env.
#[local] Existing Instance sample_env_laws.

Definition sample_source_base : world :=
  mkWorld (w_loops sample_world)
    {[20 := CFRunLoopSourceCreate 5 0 false false true 0; 21 := CFRunLoopSourceCreate 3 0 false false true 0]}
    ∅ (w_timers sample_world) 7 7 [].

(** The sample run loop with two signaled sources of version 0 in its default mode. *)
Definition sample_sources : world :=
  let add w s := match CFRunLoopAddSource w 1 s kCFRunLoopDefaultMode with Ok w => w | _ => w end in
  CFRunLoopSourceSignal (CFRunLoopSourceSignal (add (add sample_source_base 20) 21) 20) 21.

Definition sample_source_mode : mode :=
  match find_mode sample_sources 1 kCFRunLoopDefaultMode with Some m => m | None => sample_mode end.

(** The source of order 3 is served before the one of order 5. *)
Lemma do_sources0_witness :
  exists due, due ≡ₚ [21; 20] /\
    StronglySorted (fun a b => source_order sample_sources a <= source_order sample_sources b) due /\
    CFRunLoopDoSources0 sample_sources 1 kCFRunLoopDefaultMode false = Ok (serve_list sample_sources due false false) /\
    snd (serve_list sample_sources due false false) = true /\
    due_sources (foldl serve_source sample_sources due) sample_source_mode = [].
Proof.
  destruct (do_sources0_in_order sample_sources 1 kCFRunLoopDefaultMode sample_source_mode false) as (due & P & _ & S & Edo & H & _ & K).
  - by vm_compute.
  - by vm_compute.
  - assert (Ed : due_sources sample_sources sample_source_mode = [21; 20]) by by vm_compute.
    assert (P' : due ≡ₚ [21; 20]) by (rewrite <- Ed; exact P).
    exists due. split; [exact P'|]. split; [exact S|]. split; [exact Edo|]. split.
    + rewrite H. apply bool_decide_eq_true_2. intros ->. apply Permutation_length in P'. discriminate P'.
    + apply K; reflexivity.
Defined.

End RunLoopSources.
