(* ===== verification/RunLoopPass.v ===== *)
(** * The passes of a run and the value it returns

    A predicate of the world that the steps of a pass keep ([Kept]) is kept by the whole
    pass.  Two such predicates are the range of the clock and [live], under which a pass
    never reads what is not there and returns.  With them: the passes a run makes, and
    why it returns what it returns. *)

From stdpp Require Import base list numbers option strings gmap gmultiset sorting.
From Stdlib Require Import ZArith Lia.
From S2P Require Import Prelude Sort Array ArrayDeque RunLoop RunLoopTimers RunLoopRun RunLoopSources.

Module RunLoopPass.
Import RunLoop RunLoopTimers RunLoopRun RunLoopSources.

(** ** What the steps of a pass keep *)

Class Kept `{E : Env} `{K : Kernel} (P : world -> Prop) (rl : Z) (name : string) : Prop := {
  kept_call : forall c w, P w -> P (call c w);
  kept_wait : forall w X poll, P w -> P (wait_ports w rl X poll).2;
  kept_poll : forall w, P w -> P (poll_main_port w).2;
  kept_queue : forall w, P w -> P (queue_perform w rl name);
  kept_loop : forall x f w, (forall r, rl_modes (f r) = rl_modes r) -> P w -> P (upd_loop x f w);
  kept_mode : forall x n f w, (forall m, m_timers (f m) = m_timers m /\ m_sources0 (f m) = m_sources0 m) ->
    P w -> P (upd_mode x n f w);
  kept_source : forall s f w, P w -> P (upd_source s f w);
  kept_observer : forall o f w, P w -> P (upd_observer o f w);
  kept_timer : forall t f w,
    (forall tm, t_fireTSR (f tm) = t_fireTSR tm /\ t_runLoop (f tm) = t_runLoop tm /\ t_rlModes (f tm) = t_rlModes tm) ->
    P w -> P (upd_timer t f w);
  kept_remove_timer : forall w x t n, P w -> P (CFRunLoopRemoveTimer w x t n);
  kept_reschedule : forall w0 w w' t tm, P w0 -> P w -> w_timers w !! t = Some tm ->
    reschedule w rl name t tm (fire_of w0 t) = Ok w' -> P w'
}.

Section Lifting.
Context `{E : Env} `{K : Kernel} (P : world -> Prop) (rl : Z) (name : string) `{!Kept P rl name}.

Lemma foldl_kept {A} (f : world -> A -> world) (l : list A) (w : world) :
  (forall w a, P w -> P (f w a)) -> P w -> P (foldl f w l).
Proof. intros Hf. revert w. induction l as [|a l IH]; intros w Hw; cbn; [done|]. by apply IH, Hf. Qed.

Lemma arm_kept (w : world) (x : Z) (n : string) : P w -> P (arm_next w x n).
Proof.
  apply kept_mode. intros m. split; [apply arm_timers|]. unfold CFArmNextTimerInMode. destruct (m_timers m); [|done].
  by destruct (next_deadlines _ _ _ _).
Qed.

Lemma remove_observer_kept (w : world) (x o : Z) (n : string) : P w -> P (CFRunLoopRemoveObserver w x o n).
Proof.
  assert (Hm : forall w n, P w -> P (remove_observer_in_mode w x o n)).
  { intros w0 n0 H0. unfold remove_observer_in_mode. repeat case_match; try done; by apply kept_observer, kept_mode. }
  intros Hw. unfold CFRunLoopRemoveObserver. case_bool_decide; [|by apply Hm]. destruct (in_common_items _ _ _); [|done].
  apply foldl_kept; [|by apply kept_loop]. intros w0 n0 H0. unfold remove_observer_nested. case_bool_decide; [done|by apply Hm].
Qed.

Lemma observer_invalidate_kept (w : world) (o : Z) : P w -> P (CFRunLoopObserverInvalidate w o).
Proof.
  intros Hw. unfold CFRunLoopObserverInvalidate. destruct (w_observers w !! o) as [ob|]; [|done].
  destruct (o_valid ob); [|done]. set (w2 := match o_runLoop ob with Some rl => _ | None => _ end).
  assert (H2 : P w2).
  { unfold w2. destruct (o_runLoop ob) as [x|]; [|by apply kept_observer]. apply remove_observer_kept, foldl_kept; [|by apply kept_observer].
    intros. by apply remove_observer_kept. }
  destruct (o_release ob); [by apply kept_call|done].
Qed.

Lemma timer_invalidate_kept (w : world) (t : Z) : P w -> P (CFRunLoopTimerInvalidate w t).
Proof.
  intros Hw. unfold CFRunLoopTimerInvalidate. destruct (w_timers w !! t) as [tm|]; [|done].
  destruct (t_valid tm); [|done]. set (w2 := match t_runLoop tm with Some rl => _ | None => _ end).
  assert (H1 : P (upd_timer t (set_timer_state false (t_firing tm)) w)) by (by apply kept_timer).
  assert (H2 : P w2).
  { unfold w2. destruct (t_runLoop tm) as [x|]; [|done]. apply kept_remove_timer, foldl_kept; [|done].
    intros. by apply kept_remove_timer. }
  destruct (t_release tm); [by apply kept_call|done].
Qed.

Lemma notify_kept (w : world) (activity : Z) : P w -> P (notify w rl name activity).
Proof.
  intros Hw. unfold notify, CFRunLoopDoObservers. destruct (negb _); [|done]. destruct (_ ≫= m_observers) as [l|]; [|done].
  apply foldl_kept; [|done]. intros w0 o H0. unfold fire_observer. destruct (w_observers w0 !! o) as [ob|]; [|done].
  destruct (o_valid ob); [|done]. apply kept_observer.
  destruct (negb (o_repeats ob)); [apply observer_invalidate_kept|]; by apply kept_call, kept_observer.
Qed.

Lemma do_blocks_kept (w : world) : P w -> P (CFRunLoopDoBlocks w rl name).1.
Proof.
  assert (Hl : forall l w, P w -> P (do_blocks_loop w rl name l).1.1).
  { induction l as [|b l IH]; intros w0 H0; cbn; [done|]. destruct (block_matches _ _ _).
    - specialize (IH _ (kept_call (CallBlock (b_block b)) w0 H0)). by destruct (do_blocks_loop _ _ _ l) as [[? ?] ?].
    - specialize (IH _ H0). by destruct (do_blocks_loop _ _ _ l) as [[? ?] ?]. }
  intros Hw. unfold CFRunLoopDoBlocks. destruct (blocks_of w rl) as [|b l] eqn:Eb; [done|]. rewrite <- Eb.
  specialize (Hl (blocks_of w rl) (upd_loop rl (set_blocks []) w)). destruct (do_blocks_loop _ _ _ _) as [[w1 kept] did]. cbn in Hl |- *.
  apply kept_loop; [done|]. by apply Hl, kept_loop.
Qed.

Lemma perform_source0_kept (w : world) (s : Z) : P w -> P (perform_source0 w s).1.
Proof.
  intros Hw. unfold perform_source0. destruct (w_sources w !! s) as [src|]; [|done].
  destruct (s_signaled src), (s_valid src); try done; cbn; [|by apply kept_source].
  destruct (s_perform src); [apply kept_call|]; by apply kept_source.
Qed.

Lemma do_sources_loop_kept (n : nat) (a : Array.CFArray) (stop : bool) : forall w w' idx h h', P w ->
  do_sources_loop n w a idx stop h = Ok (w', h') -> P w'.
Proof.
  induction n as [|n IH]; intros w w' idx h h' Hw; cbn; [by intros [= <- <-]|].
  destruct (Array.CFArrayGetValueAtIndex a idx) as [s| | |]; try done. cbn. pose proof (perform_source0_kept w s Hw) as H1.
  destruct (perform_source0 w s) as [w1 did]. destruct (stop && _); [by intros [= <- <-]|]. by apply IH.
Qed.

Lemma do_sources0_kept (w w' : world) (stop h : bool) : P w -> CFRunLoopDoSources0 w rl name stop = Ok (w', h) -> P w'.
Proof.
  intros Hw. unfold CFRunLoopDoSources0. destruct (find_mode w rl name) as [m|]; [|done].
  destruct (collect_sources _ _ _) as [[|s|a]| | |]; try done; cbn [mbind result_bind].
  - by intros [= <- <-].
  - pose proof (perform_source0_kept w s Hw) as H1. by intros [= Ep]; rewrite Ep in H1.
  - destruct (Array.CFArraySortValues _ _ _ _ _ _ _) as [[a' ev]| | |]; try done. by apply do_sources_loop_kept.
Qed.

Lemma do_source1_kept (w : world) (s : Z) : P w -> P (CFRunLoopDoSource1 w s).1.
Proof.
  intros Hw. unfold CFRunLoopDoSource1. destruct (w_sources w !! s) as [src|]; [|done].
  destruct (s_valid src); [|done]. cbn. destruct (s_perform src); [apply kept_call|]; by apply kept_source.
Qed.

Lemma retain_kept (w : world) (t : Z) (tm : timer) : P w -> P (retain_info w t tm).
Proof. unfold retain_info. destruct (t_retain tm); [apply kept_call|done]. Qed.

Lemma fire_timer_kept (w : world) (t : Z) (tm : timer) : P w -> P (fire_timer w rl name t tm).
Proof.
  intros Hw. unfold fire_timer. apply kept_timer; [done|].
  assert (H1 : P (call (CallTimer t) (arm_next (upd_mode rl name (fun m => set_deadlines UINT64_MAX UINT64_MAX (m_armed m) m)
    (upd_timer t (fun t => set_timer_state (t_valid t) true t) w)) rl name))) by (by apply kept_call, arm_kept, kept_mode, kept_timer).
  destruct (t_retain tm && t_release tm); [apply kept_call|]; (destruct (_ =? 0); [by apply timer_invalidate_kept|done]).
Qed.

Lemma do_timer_kept (w w' : world) (t : Z) (did : bool) : P w -> CFRunLoopDoTimer w rl name t = Ok (w', did) -> P w'.
Proof.
  intros Hw. unfold CFRunLoopDoTimer. destruct (w_timers w !! t) as [tm|]; [|by intros [= <- <-]].
  destruct (t_valid tm && _ && _ && _); [|by intros [= <- <-]]. pose proof (retain_kept w t tm Hw) as H0.
  set (w0 := retain_info w t tm) in *. pose proof (fire_timer_kept w0 t tm H0) as H1.
  destruct (w_timers (fire_timer w0 rl name t tm) !! t) as [tm'|] eqn:Et; [|by intros [= <- <-]].
  destruct (t_valid tm'); [|by intros [= <- <-]].
  destruct (reschedule _ _ _ _ _ _) as [w2| | |] eqn:Er; try done. intros [= <- <-]. by apply (kept_reschedule w0 _ w2 t tm' H0 H1 Et).
Qed.

Lemma do_timers_kept (l : list Z) : forall w w' h h', P w -> do_timers_loop w rl name l h = Ok (w', h') -> P w'.
Proof.
  induction l as [|t l IH]; intros w w' h h' Hw Hd; cbn in Hd; [by simplify_eq|].
  destruct (CFRunLoopDoTimer w rl name t) as [[w1 did]| | |] eqn:Ed; try done.
  apply (IH _ _ _ _ (do_timer_kept _ _ _ _ Hw Ed) Hd).
Qed.

Lemma service_timers_kept (w w' : world) : P w -> service_timers w rl name = Ok w' -> P w'.
Proof.
  intros Hw. unfold service_timers, CFRunLoopDoTimers. destruct (do_timers_loop _ _ _ _ _) as [[w1 did]| | |] eqn:Ed; try done.
  intros [= <-]. apply do_timers_kept in Ed; [|done]. destruct did; [done|by apply arm_kept].
Qed.

Lemma wait_loop_kept (fuel : nat) (w w' : world) (poll : bool) (port : Z) :
  P w -> wait_loop fuel w rl name poll = Ok (port, w') -> P w'.
Proof.
  revert w. induction fuel as [|fuel IH]; intros w Hw Hl; cbn [wait_loop] in Hl; [done|].
  destruct (find_mode w rl name) as [m|]; [|done]. pose proof (kept_wait w (m_portSet m) poll Hw) as H1.
  destruct (wait_ports w rl (m_portSet m) poll) as [p w1]. cbn in H1. destruct (negb _ && _); [|by simplify_eq].
  pose proof (kept_queue w1 H1) as H2. destruct (find_mode (queue_perform w1 rl name) rl name) as [m'|]; [|done].
  destruct (m_timerFired m'); [|by apply (IH _ H2)]. injection Hl as <- <-. by apply kept_mode.
Qed.

(** The world in which the loop waits. *)
Definition asleep (w : world) (dport : Z) (poll : bool) : world :=
  upd_mode rl name (set_port_set (insert_port dport))
    (upd_loop rl (set_sleeping true) (if negb poll then notify w rl name kCFRunLoopBeforeWaiting else w)).

Lemma asleep_kept (w : world) (dport : Z) (poll : bool) : P w -> P (asleep w dport poll).
Proof. intros Hw. apply kept_mode; [done|]. apply kept_loop; [done|]. destruct (negb poll); [by apply notify_kept|done]. Qed.

Lemma sleep_kept (fuel : nat) (w w' : world) (dport : Z) (poll : bool) (port : Z) :
  P w -> sleep fuel w rl name dport poll = Ok (port, w') -> P w'.
Proof.
  intros Hw. unfold sleep. fold (asleep w dport poll).
  destruct (wait_loop _ _ _ _ _) as [[p w1]| | |] eqn:Ew; try done. apply wait_loop_kept in Ew; [|by apply asleep_kept].
  intros [= <- <-]. destruct (negb poll); [apply notify_kept|]; by apply kept_loop, kept_loop, kept_mode.
Qed.

Lemma handle_msg_kept (w w' : world) (dport port : Z) (h main : bool) :
  P w -> handle_msg w rl name dport port = Ok (w', h, main) -> P w'.
Proof.
  intros Hw. unfold handle_msg. set (w0 := upd_loop rl (set_ignore true) w). assert (H0 : P w0) by (by apply kept_loop). clearbody w0.
  destruct (w_loops w0 !! rl) as [r|]; [|done]. destruct (find_mode w0 rl name) as [m|]; [|done].
  assert (Hs : forall b1 b2, (w1 ← service_timers w0 rl name; Ok (w1, b1, b2)) = Ok (w', h, main) -> P w').
  { intros b1 b2. destruct (service_timers w0 rl name) as [w1| | |] eqn:Es; try done.
    intros [= <- <- <-]. by apply (service_timers_kept _ _ H0 Es). }
  destruct (port =? 0); [by intros [= <- <- <-]|]. destruct (port =? rl_wakeUpPort r); [by intros [= <- <- <-]|].
  destruct (negb _ && _); [apply Hs|]. destruct (negb _ && _); [apply Hs|].
  destruct (port =? dport); [intros [= <- <- <-]; by apply kept_call|].
  destruct (default ∅ _ !! port) as [s|]; [|by intros [= <- <- <-]].
  pose proof (do_source1_kept w0 s H0) as H1. destruct (CFRunLoopDoSource1 w0 s) as [w1 did]. by intros [= <- <- <-].
Qed.

Lemma before_sources_kept (w : world) : P w -> P (before_sources w rl name).
Proof. intros Hw. apply do_blocks_kept, notify_kept, notify_kept. by apply kept_loop. Qed.

Lemma await_message_kept (fuel : nat) (w w' : world) (dport term port : Z) (hasTimer stop did h : bool) :
  P w -> await_message fuel w rl name dport hasTimer term stop did = Ok (port, w', h) -> P w'.
Proof.
  intros Hw. unfold await_message. destruct (CFRunLoopDoSources0 w rl name stop) as [[w1 handled]| | |] eqn:Ed; try done.
  apply do_sources0_kept in Ed; [|done]. cbn [mbind result_bind].
  set (w2 := if handled then _ else w1). assert (H2 : P w2) by (unfold w2; destruct handled; [by apply do_blocks_kept|done]).
  clearbody w2. set (pp := if _ && _ then poll_main_port w2 else (false, w2)).
  assert (H3 : P pp.2) by (unfold pp; destruct (_ && _); [by apply kept_poll|done]). destruct pp as [ready w3]. cbn in H3.
  destruct ready; [by intros [= <- <- <-]|]. destruct (sleep _ _ _ _ _ _) as [[p w4]| | |] eqn:Es; try done.
  apply sleep_kept in Es; [|done]. by intros [= <- <- <-].
Qed.

Lemma pass_kept (fuel : nat) (w w' : world) (dport term : Z) (hasTimer stop did h main : bool) :
  P w -> pass fuel w rl name dport hasTimer term stop did = Ok (w', h, main) -> P w'.
Proof.
  intros Hw. unfold pass. destruct (await_message _ _ _ _ _ _ _ _ _) as [[[port w1] h1]| | |] eqn:Ea; try done.
  apply await_message_kept in Ea; [|by apply before_sources_kept]. cbn [mbind result_bind].
  destruct (handle_msg _ _ _ _ _) as [[[w2 h2] mn]| | |] eqn:Em; try done. apply handle_msg_kept in Em; [|done]. cbn [mbind result_bind].
  pose proof (do_blocks_kept w2 Em) as H3. destruct (CFRunLoopDoBlocks w2 rl name) as [w3 ?]. by intros [= <- <- <-].
Qed.

End Lifting.

(** ** Repositioning *)

Section Reposition.
Context `{E : Env}.

(** What moving a timer in its modes leaves as it was: the clock, the log, the fire
    times and the sources of every mode. *)
Record rest (w w' : world) : Prop := {
  rest_clock : w_tsr w' = w_tsr w;
  rest_log : w_log w' = w_log w;
  rest_fires : forall t, fire_of w' t = fire_of w t;
  rest_sources : forall rl name, m_sources0 <$> find_mode w' rl name = m_sources0 <$> find_mode w rl name
}.

#[global] Instance rest_preorder : PreOrder rest.
Proof.
  split; [by intros w; split|]. intros w1 w2 w3 [A1 B1 C1 D1] [A2 B2 C2 D2]. split; [congruence..| |].
  - intros t. by rewrite C2.
  - intros rl name. by rewrite D2.
Qed.

Lemma rest_mode (w : world) (rl : Z) (name : string) (f : mode -> mode) :
  (forall m, m_sources0 (f m) = m_sources0 m) -> rest w (upd_mode rl name f w).
Proof.
  intros Hf. split; [done..|]. intros rl' name'. rewrite find_mode_upd_mode. case_decide; [|done].
  destruct (find_mode w rl' name'); [|done]. cbn. by rewrite Hf.
Qed.

Lemma rest_loop (w : world) (rl : Z) (f : CFRunLoop -> CFRunLoop) :
  (forall r, rl_modes (f r) = rl_modes r) -> rest w (upd_loop rl f w).
Proof.
  intros Hf. split; [done..|]. intros rl' name'. unfold find_mode. cbn. destruct (decide (rl' = rl)) as [->|N].
  - rewrite lookup_alter_eq. destruct (w_loops w !! rl); [|done]. cbn. by rewrite Hf.
  - by rewrite lookup_alter_ne.
Qed.

Lemma rest_timer (w : world) (t : Z) (f : timer -> timer) :
  (forall tm, t_fireTSR (f tm) = t_fireTSR tm) -> rest w (upd_timer t f w).
Proof. intros Hf. split; [done..| |done]. intros x. by apply fire_of_upd. Qed.

Lemma rest_arm (w : world) (rl : Z) (name : string) : rest w (arm_next w rl name).
Proof.
  apply rest_mode. intros m. unfold CFArmNextTimerInMode. destruct (m_timers m); [|done]. by destruct (next_deadlines _ _ _ _).
Qed.

Lemma remove_timer_rest (w : world) (rl t : Z) (name : string) : rest w (CFRunLoopRemoveTimer w rl t name).
Proof.
  assert (Hm : forall w name, rest w (remove_timer_in_mode w rl t name)).
  { intros w0 n0. unfold remove_timer_in_mode. destruct (_ ≫= m_timers) as [l|]; [|done].
    destruct (CFArrayGetFirstIndexOfValue l t) as [i|]; [|done]. etransitivity; [|apply rest_arm].
    etransitivity; [|by apply rest_mode]. by apply rest_timer. }
  unfold CFRunLoopRemoveTimer. case_bool_decide; [|apply Hm]. destruct (in_common_items _ _ _); [|done].
  etransitivity; [by apply (rest_loop w rl (set_items_common (fun X => X ∖ {[ITimer t]})))|].
  generalize (upd_loop rl (set_items_common (fun X => X ∖ {[ITimer t]})) w).
  induction (common_modes w rl) as [|n ns IH]; intros w0; cbn [foldl]; [done|]. etransitivity; [|apply IH].
  unfold remove_timer_nested. case_bool_decide; [done|apply Hm].
Qed.

Lemma reposition_rest (w w' : world) (rl t : Z) (name : string) (isIn : bool) :
  CFRepositionTimerInMode w rl name t isIn = Ok w' -> rest w w'.
Proof.
  unfold CFRepositionTimerInMode. intros H. repeat case_match; simplify_eq; try done.
  all: destruct (CFRunLoopInsertionIndexInTimerArray _ _ _); try done; injection H as <-.
  all: etransitivity; [|apply rest_arm]; by apply rest_mode.
Qed.

Lemma reposition_all_rest (w w' : world) (rl t : Z) (names : list string) :
  reposition_all w rl t names = Ok w' -> rest w w'.
Proof.
  unfold reposition_all. destruct (over_modes _ _ _) as [w1| | |] eqn:Eo; try done. cbn [mbind result_bind].
  destruct (forallb _ _); [|done]. intros [= <-]. revert w Eo.
  induction names as [|n ns IH]; intros w Eo; cbn in Eo; [by injection Eo as <-|].
  destruct (CFRepositionTimerInMode w rl n t true) as [w2| | |] eqn:Er; try done. cbn in Eo.
  etransitivity; [by apply (reposition_rest _ _ _ _ _ _ Er)|by apply IH].
Qed.

(** A timer that is rescheduled keeps its fire time, or gets the next one. *)
Lemma reschedule_rest (w w' : world) (rl : Z) (name : string) (t : Z) (tm : timer) (old : Z) :
  w_timers w !! t = Some tm -> reschedule w rl name t tm old = Ok w' ->
  rest w w' \/ exists next date, next_fire_time w old (t_interval tm) = Ok next /\ rest (upd_timer t (set_fire next date) w) w'.
Proof.
  intros Et. unfold reschedule. destruct (old <? _); [intros [= <-]; left; apply rest_arm|].
  destruct (next_fire_time _ _ _) as [next| | |]; try done. cbn [mbind result_bind]. intros Hr. right.
  exists next, (w_date w + CFTimeIntervalUntilTSR next (w_tsr w)). split; [done|].
  destruct (t_runLoop tm) as [rl'|]; [by apply reposition_all_rest in Hr|by injection Hr as <-].
Qed.

Lemma next_fire_nonneg (fuel : nat) : forall next current interval v, 0 <= next -> next_fire fuel next current interval = Ok v -> 0 <= v.
Proof.
  induction fuel as [|fuel IH]; intros next current interval v Hn; cbn; [done|]. destruct (next <=? current); [|by intros [= <-]].
  apply IH. unfold u64. by apply Z.mod_pos_bound.
Qed.

Lemma next_fire_time_nonneg (w : world) (old interval next : Z) : 0 <= old -> next_fire_time w old interval = Ok next -> 0 <= next.
Proof.
  intros Ho. unfold next_fire_time. destruct (_ <=? old); [by intros [= <-]|]. destruct (_ =? 0); [done|]. by apply next_fire_nonneg.
Qed.

Lemma reschedule_clock (w w' : world) (rl : Z) (name : string) (t : Z) (tm : timer) (old : Z) :
  w_timers w !! t = Some tm -> reschedule w rl name t tm old = Ok w' -> w_tsr w' = w_tsr w.
Proof. intros Et Hr. apply reschedule_rest in Hr as [R|(next & date & _ & R)]; [by rewrite (rest_clock _ _ R)..|done]. Qed.

End Reposition.

(** ** The clock *)

(** The clock is a 64-bit counter that does not go back. *)
Class ClockLaws `{E : Env} `{K : Kernel} : Prop := {
  clock_user : forall c w, w_tsr w <= UINT64_MAX -> w_tsr w <= w_tsr (user c w) <= UINT64_MAX;
  clock_wait : forall w rl X poll, w_tsr w <= UINT64_MAX -> w_tsr w <= w_tsr (wait_ports w rl X poll).2 <= UINT64_MAX;
  clock_poll : forall w, w_tsr w <= UINT64_MAX -> w_tsr w <= w_tsr (poll_main_port w).2 <= UINT64_MAX;
  clock_queue : forall w rl name, w_tsr w <= UINT64_MAX -> w_tsr w <= w_tsr (queue_perform w rl name) <= UINT64_MAX
}.

#[global] Instance clock_kept `{E : Env} `{K : Kernel} `{!ClockLaws} (rl : Z) (name : string) :
  Kept (fun w => w_tsr w <= UINT64_MAX) rl name.
Proof.
  split; try done.
  - intros c w Hw. unfold call. by apply clock_user.
  - intros. by apply clock_wait.
  - intros. by apply clock_poll.
  - intros. by apply clock_queue.
  - intros w x t n Hw. by rewrite remove_timer_clock.
  - intros w0 w w' t tm _ Hw Et Hr. by rewrite (reschedule_clock _ _ _ _ _ _ _ Et Hr).
Qed.

(** ** A run loop on which a pass returns *)

(** The timers are in order, the clock is in its range, the fire times are not negative,
    and the mode is there with no more sources than CFArray can sort. *)
Record live `{E : Env} (rl : Z) (name : string) (w : world) : Prop := mk_live {
  lv_timers : timers_ok w;
  lv_clock : 0 < w_tsr w <= LLONG_MAX;
  lv_fires : forall t, 0 <= fire_of w t;
  lv_mode : exists m, find_mode w rl name = Some m /\ Z.of_nat (size (default ∅ (m_sources0 m))) < ArrayDeque.max_count
}.

(** The callouts and the kernel leave the run loop alive; an interval has fewer than 2^63
    ticks; and the mode's queue wakes the loop at most [wakes] times in a row without
    firing the mode's timer, because each time it is drained. *)
Class LiveLaws `{E : Env} `{K : Kernel} (rl : Z) (name : string) (wakes : nat) : Prop := {
  live_user : forall c w, live rl name w -> live rl name (user c w);
  live_wait : forall w X poll, live rl name w -> live rl name (wait_ports w rl X poll).2;
  live_poll : forall w, live rl name w -> live rl name (poll_main_port w).2;
  live_queue : forall w, live rl name w -> live rl name (queue_perform w rl name);
  live_ticks : forall i, interval_ticks_of i <= LLONG_MAX;
  live_drains : exists pending : world -> nat, (forall w, (pending w <= wakes)%nat) /\
    forall w m poll m', find_mode w rl name = Some m -> m_queuePort m <> 0 ->
      (wait_ports w rl (m_portSet m) poll).1 = m_queuePort m ->
      find_mode (queue_perform (wait_ports w rl (m_portSet m) poll).2 rl name) rl name = Some m' -> m_timerFired m' = false ->
      (pending (queue_perform (wait_ports w rl (m_portSet m) poll).2 rl name) < pending w)%nat
}.

Section Returning.
Context `{E : Env} `{!EnvLaws E} `{K : Kernel} (rl : Z) (name : string) (wakes : nat) `{!LiveLaws rl name wakes}.

Abbreviation live := (live rl name).

Lemma live_rest (w w' : world) : timers_ok w' -> rest w w' -> live w -> live w'.
Proof.
  intros W [R1 _ R3 R4] [_ C F (m & Hm & L)]. split; [done|by rewrite R1|intros t; by rewrite R3|].
  specialize (R4 rl name). rewrite Hm in R4. destruct (find_mode w' rl name) as [m'|]; [|done]. injection R4 as R4.
  exists m'. by rewrite R4.
Qed.

Lemma live_reschedule (w0 w w' : world) (t : Z) (tm : timer) :
  live w0 -> live w -> w_timers w !! t = Some tm -> reschedule w rl name t tm (fire_of w0 t) = Ok w' -> live w'.
Proof.
  intros L0 L Et Hr. assert (W' : timers_ok w').
  { destruct L as [W C _ _].
    destruct (Z.le_gt_cases (interval_ticks_of (t_interval tm)) 0) as [Z0|NZ].
    - assert (interval_ticks_of (t_interval tm) = 0).
      { enough (0 <= interval_ticks_of (t_interval tm)) by lia. unfold interval_ticks_of. destruct (_ <=? 0); [done|].
        destruct (_ <? _); apply interval_ticks. }
      destruct (reschedule_zero w rl name t tm (fire_of w0 t)) as [Eh|(w2 & Eh & W2)]; [done..|congruence|congruence].
    - destruct (reschedule_ok w rl name t tm (fire_of w0 t)) as (w2 & Eh & W2); [done|done|lia|apply (lv_fires _ _ _ L0)| |congruence].
      split; [lia|apply live_ticks]. }
  destruct (reschedule_rest _ _ _ _ _ _ _ Et Hr) as [R|(next & date & En & R)]; [by apply (live_rest w)|].
  apply next_fire_time_nonneg in En; [|apply (lv_fires _ _ _ L0)]. destruct R as [R1 _ R3 R4], L as [_ C F (m & Hm & Lm)].
  split; [done|by rewrite R1| |].
  - intros x. rewrite R3. unfold fire_of. cbn. destruct (decide (x = t)) as [->|N].
    + rewrite lookup_alter_eq, Et. done.
    + rewrite lookup_alter_ne by done. apply F.
  - specialize (R4 rl name). change (find_mode (upd_timer _ _ w) rl name) with (find_mode w rl name) in R4.
    rewrite Hm in R4. destruct (find_mode w' rl name) as [m'|]; [|done]. injection R4 as R4. exists m'. by rewrite R4.
Qed.

#[local] Instance live_kept : Kept live rl name.
Proof.
  split.
  - intros c w [W C F M]. apply live_user. split; [by apply log_keeps|done..].
  - intros. by apply live_wait.
  - intros. by apply live_poll.
  - intros. by apply live_queue.
  - intros x f w Hf L. apply (live_rest w); [|by apply rest_loop|done]. apply (timers_ok_ext w); [done| |apply L].
    intros rl' name'. unfold timers_in, find_mode. cbn. destruct (decide (rl' = x)) as [->|N].
    + rewrite lookup_alter_eq. destruct (w_loops w !! x); [|done]. cbn. by rewrite Hf.
    + by rewrite lookup_alter_ne.
  - intros x n f w Hf L. apply (live_rest w); [|apply rest_mode; apply Hf|done]. apply (timers_ok_ext w); [done| |apply L].
    intros. apply timers_in_upd_mode. apply Hf.
  - intros s f w L. apply (live_rest w); [|by split|done]. apply (timers_ok_ext w); [done..|apply L].
  - intros o f w L. apply (live_rest w); [|by split|done]. apply (timers_ok_ext w); [done..|apply L].
  - intros t f w Hf L. apply (live_rest w); [by apply upd_state_ok, L|apply rest_timer; apply Hf|done].
  - intros w x t n L. apply (live_rest w); [apply remove_timer_ok, L|apply remove_timer_rest|done].
  - intros. by apply (live_reschedule w0 w w' t tm).
Qed.

(** A pass returns, unless the process halts at a repeating timer of no ticks. *)
Definition timer_halts : Prop := exists w t, live w /\ CFRunLoopDoTimer w rl name t = Halt.

Definition returns {A} (r : result A) : Prop :=
  match r with Ok _ => True | Halt => timer_halts | _ => False end.

Lemma returns_bind {A B} (r : result A) (f : A -> result B) :
  returns r -> (forall a, r = Ok a -> returns (f a)) -> returns (r ≫= f).
Proof. destruct r; try done. intros _ H. by apply H. Qed.

Lemma do_timer_returns (w : world) (t : Z) : live w -> returns (CFRunLoopDoTimer w rl name t).
Proof.
  intros L. destruct (CFRunLoopDoTimer w rl name t) as [p| | |] eqn:Ed; [done|by exists w, t| |].
  all: exfalso; revert Ed; unfold CFRunLoopDoTimer; destruct (w_timers w !! t) as [tm|]; [|done].
  all: destruct (t_valid tm && _ && _ && _); [|done]; pose proof (retain_kept live rl name w t tm L) as L0.
  all: set (w0 := retain_info w t tm) in *; pose proof (fire_timer_kept live rl name w0 t tm L0) as L1.
  all: set (w1 := fire_timer w0 rl name t tm) in *; destruct (w_timers w1 !! t) as [tm'|] eqn:Et; [|done]; destruct (t_valid tm'); [|done].
  all: assert (Hpos : 0 <= interval_ticks_of (t_interval tm')) by
    (unfold interval_ticks_of; destruct (_ <=? 0); [done|]; destruct (_ <? _); apply interval_ticks).
  all: pose proof (lv_fires _ _ _ L0 t); pose proof (lv_clock _ _ _ L1); pose proof (live_ticks (t_interval tm')).
  all: destruct (Z.eq_dec (interval_ticks_of (t_interval tm')) 0) as [Z0|NZ].
  all: try (destruct (reschedule_zero w1 rl name t tm' (fire_of w0 t)) as [->|(w2 & -> & _)]; [apply L1|done..]).
  all: destruct (reschedule_ok w1 rl name t tm' (fire_of w0 t)) as (w2 & -> & _); [apply L1|done|lia|done|lia|done].
Qed.

Lemma do_timers_returns (l : list Z) : forall w h, live w -> returns (do_timers_loop w rl name l h).
Proof.
  induction l as [|t l IH]; intros w h L; cbn [do_timers_loop]; [done|]. apply returns_bind; [by apply do_timer_returns|].
  intros [w1 did] Ed. apply IH. by apply (do_timer_kept live rl name w w1 t did).
Qed.

Lemma service_timers_returns (w : world) : live w -> returns (service_timers w rl name).
Proof. intros L. unfold service_timers. apply returns_bind; [by apply do_timers_returns|]. by intros [w1 did] _. Qed.

Lemma do_sources0_returns (w : world) (stop : bool) : live w -> returns (CFRunLoopDoSources0 w rl name stop).
Proof.
  intros [_ _ _ (m & Hm & L)]. destruct (do_sources0_spec w rl name m stop Hm) as (due & _ & _ & ->); [|done].
  unfold due_sources. destruct (m_sources0 m) as [X|]; [|cbn; unfold ArrayDeque.max_count; lia]. cbn in L.
  pose proof (length_filter (fun s => source_due w s = true) (set_ids X)) as Lf.
  rewrite (Permutation_length (set_ids_perm X)) in Lf. unfold size, set_size in L. cbn in L. lia.
Qed.

Lemma wait_loop_returns (poll : bool) : forall fuel w, (wakes < fuel)%nat -> live w -> returns (wait_loop fuel w rl name poll).
Proof.
  destruct (live_drains (rl := rl) (name := name) (wakes := wakes)) as (pending & Hb & Hd).
  enough (H : forall fuel w, (pending w < fuel)%nat -> live w -> returns (wait_loop fuel w rl name poll)).
  { intros fuel w Hf. apply H. specialize (Hb w). lia. }
  induction fuel as [|fuel IH]; intros w Hf L; [lia|]. cbn [wait_loop].
  pose proof (lv_mode _ _ _ L) as (m & Hm & _). rewrite Hm. specialize (Hd w m poll).
  pose proof (live_wait w (m_portSet m) poll L) as L1. destruct (wait_ports w rl (m_portSet m) poll) as [p w1]. cbn in L1, Hd.
  destruct (Z.eqb_spec (m_queuePort m) 0) as [|Nq]; [done|]. destruct (Z.eqb_spec p (m_queuePort m)) as [->|]; [|done]. cbn [negb andb].
  pose proof (live_queue w1 L1) as L2. pose proof (lv_mode _ _ _ L2) as (m' & Hm' & _). specialize (Hd m' Hm Nq eq_refl Hm').
  rewrite Hm'. destruct (m_timerFired m'); [done|]. specialize (Hd eq_refl). apply IH; [lia|done].
Qed.

Lemma sleep_returns (fuel : nat) (w : world) (dport : Z) (poll : bool) :
  (wakes < fuel)%nat -> live w -> returns (sleep fuel w rl name dport poll).
Proof.
  intros Hf L. unfold sleep. apply returns_bind; [|by intros [p w1] _]. apply wait_loop_returns; [done|].
  by apply (asleep_kept live rl name w dport poll).
Qed.

Lemma handle_msg_returns (w : world) (dport port : Z) : live w -> returns (handle_msg w rl name dport port).
Proof.
  intros L. unfold handle_msg. assert (L0 : live (upd_loop rl (set_ignore true) w)) by (by apply (kept_loop (P := live))).
  set (w0 := upd_loop rl (set_ignore true) w) in *. pose proof (lv_mode _ _ _ L0) as (m & Hm & _). rewrite Hm.
  unfold find_mode in Hm. destruct (w_loops w0 !! rl) as [r|]; [|done].
  pose proof (service_timers_returns w0 L0) as Hs. repeat case_match; try done; (apply returns_bind; [done|by intros]).
Qed.

Lemma pass_returns (fuel : nat) (w : world) (dport term : Z) (hasTimer stop did : bool) :
  (wakes < fuel)%nat -> live w -> returns (pass fuel w rl name dport hasTimer term stop did).
Proof.
  intros Hf L. unfold pass. assert (L1 : live (before_sources w rl name)) by exact (before_sources_kept live rl name w L).
  apply returns_bind.
  - unfold await_message. apply returns_bind; [by apply do_sources0_returns|]. intros [w1 h1] Ed. apply (do_sources0_kept live rl name _ _ _ _ L1) in Ed.
    set (w2 := if h1 then _ else w1). assert (L2 : live w2) by (unfold w2; destruct h1; [exact (do_blocks_kept live rl name w1 Ed)|done]). clearbody w2.
    set (pp := if _ && _ then poll_main_port w2 else (false, w2)).
    assert (L3 : live pp.2) by (unfold pp; destruct (_ && _); [by apply live_poll|done]). destruct pp as [ready w3]. cbn in L3.
    apply returns_bind; [destruct ready; [done|by apply sleep_returns]|by intros [p w4] _].
  - intros [[port w1] h1] Ea. apply (await_message_kept live rl name _ _ _ _ _ _ _ _ _ _ L1) in Ea.
    apply returns_bind; [by apply handle_msg_returns|]. intros [[w2 h2] mn] _. by destruct (CFRunLoopDoBlocks w2 rl name).
Qed.

End Returning.

(** ** The sources a pass handles *)

Section Handled.
Context `{E : Env} `{K : Kernel}.

Lemma none_collected (w : world) (ids : list Z) :
  filter (fun s => source_due w s = true) ids = [] -> collect_sources w NoSource ids = Ok NoSource.
Proof.
  induction ids as [|s ids IH]; intros Hf; cbn [collect_sources]; [done|]. rewrite filter_cons in Hf.
  unfold CFRunLoopCollectSources0. destruct (source_due w s); [by rewrite decide_True in Hf|]. rewrite decide_False in Hf by done.
  cbn [mbind result_bind]. by apply IH.
Qed.

Lemma sources0_handled (w w' : world) (rl : Z) (name : string) (stop : bool) :
  CFRunLoopDoSources0 w rl name stop = Ok (w', true) ->
  exists m s, find_mode w rl name = Some m /\ s ∈ due_sources w m.
Proof.
  unfold CFRunLoopDoSources0. destruct (find_mode w rl name) as [m|]; [|done]. intros Hd. exists m.
  destruct (due_sources w m) as [|s l] eqn:Ed; [|exists s; split; [done|left]]. exfalso.
  rewrite none_collected in Hd; [done|]. unfold due_sources in Ed. by destruct (m_sources0 m).
Qed.

(** A version 1 source behind a port, or the main queue's port. *)
Definition serves_port (w : world) (m : mode) (dispatchPort livePort : Z) : Prop :=
  livePort <> 0 /\
  (livePort = dispatchPort \/
   exists s src, default ∅ (m_portToV1SourceMap m) !! livePort = Some s /\ w_sources w !! s = Some src /\ s_valid src = true).

Lemma msg_handled (w w' : world) (rl : Z) (name : string) (dport port : Z) (main : bool) :
  handle_msg w rl name dport port = Ok (w', true, main) -> exists m, find_mode w rl name = Some m /\ serves_port w m dport port.
Proof.
  unfold handle_msg. set (w0 := upd_loop rl (set_ignore true) w).
  assert (Hm0 : find_mode w0 rl name = find_mode w rl name).
  { unfold find_mode, w0. cbn. rewrite lookup_alter_eq. by destruct (w_loops w !! rl). }
  rewrite Hm0. assert (Hs0 : w_sources w0 = w_sources w) by done. clearbody w0.
  destruct (w_loops w0 !! rl) as [r|]; [|done]. destruct (find_mode w rl name) as [m|]; [|done]. intros Hd. exists m. split; [done|].
  assert (Hs : forall b, (w1 ← service_timers w0 rl name; Ok (w1, false, b)) <> Ok (w', true, main)) by (intros b; by destruct (service_timers w0 rl name)).
  destruct (Z.eqb_spec port 0); [done|]. split; [done|]. destruct (port =? rl_wakeUpPort r); [done|].
  destruct (negb _ && _); [by apply Hs in Hd|]. destruct (negb _ && _); [by apply Hs in Hd|].
  destruct (Z.eqb_spec port dport) as [|_]; [by left|]. right. destruct (default ∅ _ !! port) as [s|]; [|done]. exists s.
  unfold CFRunLoopDoSource1 in Hd. rewrite Hs0 in Hd. destruct (w_sources w !! s) as [src|]; [|done]. exists src. by destruct (s_valid src).
Qed.

(** In the pass that starts in [w]: a source of version 0 is due when the sources are
    served, or the message that arrives is for a valid source or for the main queue. *)
Definition source_served (waitFuel : nat) (w : world) (rl : Z) (name : string) (dport : Z) (hasTimer : bool) (term : Z)
  (stop did : bool) : Prop :=
  let w1 := before_sources w rl name in
  (exists m s, find_mode w1 rl name = Some m /\ s ∈ due_sources w1 m) \/
  (exists port w2 handled m, await_message waitFuel w1 rl name dport hasTimer term stop did = Ok (port, w2, handled) /\
     find_mode w2 rl name = Some m /\ serves_port w2 m dport port).

Lemma pass_handled (waitFuel : nat) (w w' : world) (rl : Z) (name : string) (dport : Z) (hasTimer : bool) (term : Z)
  (stop did main : bool) :
  pass waitFuel w rl name dport hasTimer term stop did = Ok (w', true, main) ->
  source_served waitFuel w rl name dport hasTimer term stop did.
Proof.
  unfold pass, source_served. set (w1 := before_sources w rl name). clearbody w1.
  destruct (await_message _ _ _ _ _ _ _ _ _) as [[[port w2] h]| | |] eqn:Ea; try done. cbn [mbind result_bind].
  destruct (handle_msg _ _ _ _ _) as [[[w3 h3] mn]| | |] eqn:Em; try done. cbn [mbind result_bind].
  destruct (CFRunLoopDoBlocks w3 rl name) as [w4 ?]. intros [= _ Hh _]. destruct h3.
  - right. apply msg_handled in Em as (m & Hm & Hs). by exists port, w2, h, m.
  - left. cbn in Hh. subst h. unfold await_message in Ea. destruct (CFRunLoopDoSources0 w1 rl name stop) as [[w5 h5]| | |] eqn:Ed; try done.
    cbn [mbind result_bind] in Ea. enough (h5 = true) as -> by (by apply sources0_handled in Ed).
    destruct (if _ && _ then _ else _) as [ready w6]. destruct (if ready then _ else _) as [[p w7]| | |]; try done. by injection Ea.
Qed.

End Handled.

(** ** The passes of a run and the value it returns *)

Section Outcome.
Context `{E : Env} `{K : Kernel}.

(** The passes that did not end the run: from a world and [didDispatchPortLastTime] to
    those of the next pass. *)
Inductive went_on (waitFuel : nat) (rl : Z) (name : string) (dport : Z) (hasTimer : bool) (term : Z) (stop : bool)
  : world -> bool -> world -> bool -> Prop :=
| went_none w did : went_on waitFuel rl name dport hasTimer term stop w did w did
| went_pass w did w1 handled main w2 w3 did3 :
  pass waitFuel w rl name dport hasTimer term stop did = Ok (w1, handled, main) ->
  ret_val w1 rl name handled stop (term_now w1 hasTimer term) = (w2, 0) ->
  went_on waitFuel rl name dport hasTimer term stop w2 main w3 did3 ->
  went_on waitFuel rl name dport hasTimer term stop w did w3 did3.

(** A run that returns does so at the end of a pass it reached. *)
Lemma run_loop_last (fuel waitFuel : nat) (w w' : world) (rl : Z) (name : string) (dport : Z) (hasTimer : bool)
  (term code : Z) (stop did : bool) :
  run_loop fuel waitFuel w rl name dport hasTimer term stop did = Ok (w', code) ->
  exists wl last w1 handled main, went_on waitFuel rl name dport hasTimer term stop w did wl last /\
    pass waitFuel wl rl name dport hasTimer term stop last = Ok (w1, handled, main) /\
    ret_val w1 rl name handled stop (term_now w1 hasTimer term) = (w', code) /\ code <> 0.
Proof.
  revert w did. induction fuel as [|fuel IH]; intros w did Hr; cbn [run_loop] in Hr; [done|].
  unfold iteration in Hr. destruct (pass _ _ _ _ _ _ _ _ _) as [[[w1 handled] main]| | |] eqn:Ep; try done. cbn [mbind result_bind] in Hr.
  destruct (ret_val _ _ _ _ _ _) as [w2 rv] eqn:Er. cbn [mbind result_bind] in Hr. destruct (Z.eqb_spec rv 0) as [->|N].
  - destruct (IH _ _ Hr) as (wl & last & w3 & h3 & m3 & Hw & Hp & Hv & Hc). exists wl, last, w3, h3, m3. split_and!; try done.
    by eapply went_pass.
  - injection Hr as <- <-. exists w, did, w1, handled, main. split_and!; try done. constructor.
Qed.

Lemma ret_val_clock (w w' : world) (rl : Z) (name : string) (handled stop : bool) (term rv : Z) :
  ret_val w rl name handled stop term = (w', rv) -> w_tsr w' = w_tsr w.
Proof. unfold ret_val. intros H. repeat case_match; simplify_eq; done. Qed.

Lemma went_on_clock `{!ClockLaws} (waitFuel : nat) (rl : Z) (name : string) (dport : Z) (hasTimer : bool) (term : Z)
  (stop : bool) (w : world) (did : bool) (w' : world) (did' : bool) :
  went_on waitFuel rl name dport hasTimer term stop w did w' did' -> w_tsr w <= UINT64_MAX -> w_tsr w' <= UINT64_MAX.
Proof.
  induction 1 as [|w did w1 handled main w2 w3 did3 Hp Hv _ IH]; intros Hw; [done|]. apply IH. rewrite (ret_val_clock _ _ _ _ _ _ _ _ Hv).
  by apply (pass_kept (fun w => w_tsr w <= UINT64_MAX) rl name _ _ _ _ _ _ _ _ _ _ Hw Hp).
Qed.

(** What a value other than 0 says of the state at the end of the pass. *)
Lemma ret_val_reason (w w' : world) (rl : Z) (name : string) (handled stop : bool) (term rv : Z) :
  ret_val w rl name handled stop term = (w', rv) -> rv <> 0 ->
  (rv = kCFRunLoopRunHandledSource /\ w' = w /\ handled = true /\ stop = true) \/
  (rv = kCFRunLoopRunTimedOut /\ w' = w /\ term < w_tsr w) \/
  (rv = kCFRunLoopRunStopped /\ stopped_of w rl = true /\ w' = upd_loop rl (set_stopped false) w) \/
  (rv = kCFRunLoopRunStopped /\ stopped_of w rl = false /\ mode_stopped w rl name = true /\
     w' = upd_mode rl name (set_mode_stopped false) w) \/
  (rv = kCFRunLoopRunFinished /\ w' = w /\ stopped_of w rl = false /\ mode_stopped w rl name = false /\ is_empty w rl name = true).
Proof.
  unfold ret_val. destruct handled, stop; cbn [andb]; (destruct (Z.ltb_spec term (w_tsr w)); destruct (stopped_of w rl);
    destruct (mode_stopped w rl name); destruct (is_empty w rl name)); intros [= <- <-] Hn; try done; naive_solver.
Qed.

(** C8. When __CFRunLoopRun returns, the value tells why. Either a stop of the run loop or of the mode
    was pending at the start, and then it returns Stopped and has reset exactly that flag; or it returns
    at the end of a pass that it reached by passes that gave no value, and for the state at the end of
    that pass: HandledSource only if the caller asked for it and in that pass a version 0 source was due
    or a message arrived for a valid version 1 source or the main queue; TimedOut only for a run without
    time or, within the limit of a timeout, after the timeout timer fired or the deadline passed;
    Stopped only if the stop flag of the run loop or of the mode is set, which is the one thing it
    resets; Finished only if the mode is empty and no stop is pending. The clock is assumed to be a
    64-bit counter that does not go back. *)
Theorem run_returns_reason `{!ClockLaws} (fuel waitFuel : nat) (w w' : world) (rl : Z) (name : string) (seconds : Z)
  (stop : bool) (code : Z) :
  w_tsr w <= UINT64_MAX -> CFRunLoopRun_ fuel waitFuel w rl name seconds stop = Ok (w', code) ->
  let dport := dispatch_port w rl name in
  let '(hasTimer, term) := deadline w seconds in
  (code = kCFRunLoopRunStopped /\ stopped_of w rl = true /\ w' = upd_loop rl (set_stopped false) w) \/
  (code = kCFRunLoopRunStopped /\ stopped_of w rl = false /\ mode_stopped w rl name = true /\
     w' = upd_mode rl name (set_mode_stopped false) w) \/
  (stopped_of w rl = false /\ mode_stopped w rl name = false /\ exists wl did w1 handled main,
     went_on waitFuel rl name dport hasTimer term stop w true wl did /\
     pass waitFuel wl rl name dport hasTimer term stop did = Ok (w1, handled, main) /\
     ((code = kCFRunLoopRunHandledSource /\ w' = w1 /\ stop = true /\
         source_served waitFuel wl rl name dport hasTimer term stop did) \/
      (code = kCFRunLoopRunTimedOut /\ w' = w1 /\ (seconds <= 0 \/ (seconds <= TIMER_INTERVAL_LIMIT /\
         (timeout_fired w1 = true \/ u64 (w_tsr w + CFTimeIntervalToTSR seconds) < w_tsr w1)))) \/
      (code = kCFRunLoopRunStopped /\ stopped_of w1 rl = true /\ w' = upd_loop rl (set_stopped false) w1) \/
      (code = kCFRunLoopRunStopped /\ stopped_of w1 rl = false /\ mode_stopped w1 rl name = true /\
         w' = upd_mode rl name (set_mode_stopped false) w1) \/
      (code = kCFRunLoopRunFinished /\ w' = w1 /\ stopped_of w1 rl = false /\ mode_stopped w1 rl name = false /\
         is_empty w1 rl name = true))).
Proof.
  intros Hw Hr dport. unfold CFRunLoopRun_ in Hr. fold dport in Hr.
  destruct (deadline w seconds) as [hasTimer term] eqn:Ed. destruct (stopped_of w rl); [injection Hr as <- <-; by left|].
  destruct (mode_stopped w rl name); [injection Hr as <- <-; by right; left|]. right; right. split; [done|]. split; [done|].
  apply run_loop_last in Hr as (wl & did & w1 & handled & main & Hg & Hp & Hv & Hc). exists wl, did, w1, handled, main.
  split; [done|]. split; [done|]. apply went_on_clock in Hg; [|done].
  assert (Hw1 : w_tsr w1 <= UINT64_MAX) by apply (pass_kept (fun w => w_tsr w <= UINT64_MAX) rl name _ _ _ _ _ _ _ _ _ _ Hg Hp).
  apply ret_val_reason in Hv; [|done]. destruct Hv as [(-> & -> & -> & ->)|[(-> & -> & Ht)|[Hv|[Hv|Hv]]]]; [left| |tauto..].
  - split_and!; try done. by eapply pass_handled.
  - right; left. split; [done|]. split; [done|]. unfold deadline in Ed. unfold term_now in Ht.
    destruct (Z.leb_spec seconds 0); [by left|]. right. destruct (Z.leb_spec seconds TIMER_INTERVAL_LIMIT); injection Ed as <- <-; cbn in Ht.
    + split; [done|]. destruct (timeout_fired w1); [by left|by right].
    + lia.
Qed.

(** C9. A run with no time left returns, with any positive fuel for its passes. With a stop of the run
    loop or of the mode pending it resets that flag and returns Stopped; otherwise it makes exactly one
    pass, which terminates, and returns HandledSource if a source was handled and the caller asked to
    return then, TimedOut if not, or the process halts at a repeating timer of no ticks. It is assumed
    that callouts and the kernel keep the timers consistent, the clock between 1 and LLONG_MAX, fire
    times not negative and the mode in place with fewer than 2^30 - 2^13 sources, that intervals have
    fewer than 2^63 ticks, and that the queue of the mode wakes the loop only a bounded number of times
    in a row without firing the timer, which bounds the fuel of the wait. *)
Theorem poll_runs_one_pass (fuel waitFuel wakes : nat) (w : world) (rl : Z) (name : string) (seconds : Z) (stop : bool)
  `{!EnvLaws E} `{!LiveLaws rl name wakes} :
  live rl name w -> seconds <= 0 -> (wakes < waitFuel)%nat ->
  (stopped_of w rl = true ->
     CFRunLoopRun_ (S fuel) waitFuel w rl name seconds stop = Ok (upd_loop rl (set_stopped false) w, kCFRunLoopRunStopped)) /\
  (stopped_of w rl = false -> mode_stopped w rl name = true ->
     CFRunLoopRun_ (S fuel) waitFuel w rl name seconds stop =
       Ok (upd_mode rl name (set_mode_stopped false) w, kCFRunLoopRunStopped)) /\
  (stopped_of w rl = false -> mode_stopped w rl name = false ->
     let first := pass waitFuel w rl name (dispatch_port w rl name) false 0 stop true in
     (exists w1 handled main, first = Ok (w1, handled, main) /\
        CFRunLoopRun_ (S fuel) waitFuel w rl name seconds stop =
          Ok (w1, if handled && stop then kCFRunLoopRunHandledSource else kCFRunLoopRunTimedOut)) \/
     (first = Halt /\ CFRunLoopRun_ (S fuel) waitFuel w rl name seconds stop = Halt /\ timer_halts rl name)).
Proof.
  intros L Hs Hf. unfold CFRunLoopRun_, deadline. rewrite (proj2 (Z.leb_le seconds 0)) by done.
  split; [by intros ->|]. split; [by intros -> ->|]. intros Es Em. rewrite Es, Em.
  set (first := pass waitFuel w rl name (dispatch_port w rl name) false 0 stop true). cbn [run_loop]. unfold iteration. fold first.
  pose proof (pass_returns rl name wakes waitFuel w (dispatch_port w rl name) 0 false stop true Hf L) as Hret. fold first in Hret.
  destruct first as [[[w1 handled] main]| | |] eqn:Ep; try done; [left|by right].
  assert (L1 : live rl name w1) by exact (pass_kept (live rl name) (Kept0 := live_kept rl name wakes) rl name _ _ _ _ _ _ _ _ _ _ L Ep).
  exists w1, handled, main. split; [done|]. cbn [mbind result_bind]. unfold ret_val, term_now. cbn [andb].
  destruct L1 as [_ C _ _]. rewrite (proj2 (Z.ltb_lt 0 (w_tsr w1))) by lia. by destruct (handled && stop).
Qed.

End Outcome.

(** ** A run loop on which the theorems apply *)

Section Sample.
#[local] Existing Instance sample_env.
#[local] Existing Instance sample_env_laws.

(** A kernel that reports no port. *)
Definition sample_kernel : Kernel := {|
  wait_ports := fun w _ _ _ => (0, w);
  poll_main_port := fun w => (false, w);
  queue_perform := fun w _ _ => w;
  timeout_fired := fun _ => false;
  main_queue_port := 0;
  main_queue_safe := fun _ _ => false
|}.
#[local] Existing Instance sample_kernel.

Lemma sample_clock : ClockLaws.
Proof. split; cbn; lia. Qed.
#[local] Existing Instance sample_clock.

Lemma sample_live_laws : LiveLaws 1 kCFRunLoopDefaultMode 0.
Proof.
  split; [done..| |]; [apply sample_ticks|]. exists (fun _ => O). split; [done|]. intros w m poll m' _ Nq H. by rewrite <- H in Nq.
Qed.
#[local] Existing Instance sample_live_laws.

(** The timers of every mode, in one map. *)
Definition timer_map (w : world) : gmap Z (gmap string (option (list Z))) := (fun r => m_timers <$> rl_modes r) <$> w_loops w.

Lemma timers_in_map (w : world) (rl : Z) (name : string) :
  timers_in w rl name = default [] (mjoin (timer_map w !! rl ≫= fun M => M !! name)).
Proof.
  unfold timers_in, timer_map, find_mode. rewrite lookup_fmap. destruct (w_loops w !! rl) as [r|]; [|done]. cbn.
  rewrite lookup_fmap. by destruct (rl_modes r !! name).
Qed.

Lemma sample_sources_live : live 1 kCFRunLoopDefaultMode sample_sources.
Proof.
  assert (Em : timer_map sample_sources = timer_map sample_world) by by vm_compute.
  split.
  - apply (timers_ok_ext sample_world); [by vm_compute| |exact sample_world_ok]. intros. by rewrite !timers_in_map, Em.
  - vm_compute. split; [reflexivity|discriminate].
  - intros t. unfold fire_of. destruct (w_timers sample_sources !! t) as [tm|] eqn:Et; [|done]. cbn.
    assert (F : map_Forall (fun _ tm => 0 <= t_fireTSR tm) (w_timers sample_sources)) by (apply (bool_decide_unpack _); by vm_compute).
    by apply (F t).
  - exists sample_source_mode. split; by vm_compute.
Qed.

(** A poll that returns after a source, here the one of order 3. *)
Lemma run_returns_witness :
  exists w' wl did w1 handled main,
   CFRunLoopRun_ 1 1 sample_sources 1 kCFRunLoopDefaultMode 0 true = Ok (w', kCFRunLoopRunHandledSource) /\
   went_on 1 1 kCFRunLoopDefaultMode 0 false 0 true sample_sources true wl did /\
   pass 1 wl 1 kCFRunLoopDefaultMode 0 false 0 true did = Ok (w1, handled, main) /\ w' = w1 /\
   source_served 1 wl 1 kCFRunLoopDefaultMode 0 false 0 true did.
Proof.
  destruct (CFRunLoopRun_ 1 1 sample_sources 1 kCFRunLoopDefaultMode 0 true) as [[w' code]| | |] eqn:Er; [|vm_compute in Er; discriminate..].
  assert (Ec : code = kCFRunLoopRunHandledSource).
  { enough (Some code = Some kCFRunLoopRunHandledSource) by congruence.
    transitivity (match CFRunLoopRun_ 1 1 sample_sources 1 kCFRunLoopDefaultMode 0 true with Ok (_, c) => Some c | _ => None end);
      [by rewrite Er|by vm_compute]. }
  destruct (run_returns_reason 1 1 sample_sources w' 1 kCFRunLoopDefaultMode 0 true code) as [(H & _)|[(H & _)|(_ & _ & wl & did & w1 & h & mn & Hg & Hp & Hd)]];
    [vm_compute; discriminate|exact Er|rewrite Ec in H; discriminate H..|].
  exists w', wl, did, w1, h, mn. rewrite Ec. split; [reflexivity|]. split; [exact Hg|]. split; [exact Hp|].
  destruct Hd as [(_ & H1 & _ & H2)|[(H & _)|[(H & _)|[(H & _)|(H & _)]]]]; [split; [exact H1|exact H2]|rewrite Ec in H; discriminate H..].
Defined.

Lemma poll_witness :
  exists w1 handled main, pass 1 sample_sources 1 kCFRunLoopDefaultMode 0 false 0 false true = Ok (w1, handled, main) /\
    CFRunLoopRun_ 1 1 sample_sources 1 kCFRunLoopDefaultMode 0 false = Ok (w1, kCFRunLoopRunTimedOut).
Proof.
  destruct (poll_runs_one_pass 0 1 0 sample_sources 1 kCFRunLoopDefaultMode 0 false) as (_ & _ & H);
    [exact sample_sources_live|lia|lia|].
  destruct H as [(w1 & h & mn & H1 & H2)|(H & _)]; [by vm_compute|by vm_compute| |vm_compute in H; discriminate H].
  exists w1, h, mn. rewrite andb_false_r in H2. split; [exact H1|exact H2].
Defined.

End Sample.

End RunLoopPass.
