(* ===== verification/RunLoopService.v ===== *)
(** * The timers a pass fires, and the state a run leaves

    Theorems on RunLoopRun.v: when the callouts leave the run loop alone, a pass fires
    exactly the due timers; a run restores the current mode and the per-run data. *)

From stdpp Require Import base list numbers option strings gmap gmultiset sorting.
From Stdlib Require Import ZArith Lia.
From S2P Require Import Prelude RunLoop RunLoopTimers RunLoopRun RunLoopSources RunLoopPass.

Module RunLoopService.
Import RunLoop RunLoopTimers RunLoopRun RunLoopSources RunLoopPass.

(** ** The state a run leaves in the run loop *)

Section Runs.
Context `{E : Env} `{K : Kernel}.

Lemma upd_loop_lookup (w : world) (rl : Z) (f : CFRunLoop -> CFRunLoop) :
  w_loops (upd_loop rl f w) !! rl = f <$> w_loops w !! rl.
Proof. cbn. by rewrite lookup_alter_eq. Qed.

Theorem run_specific_restores (fuel waitFuel : nat) (w w' : world) (rl : Z) (r r' : CFRunLoop) (name : string)
  (seconds : Z) (ret : bool) (code : Z) :
  w_loops w !! rl = Some r -> CFRunLoopRunSpecific fuel waitFuel w rl name seconds ret = Ok (w', code) ->
  w_loops w' !! rl = Some r' -> rl_currentMode r' = rl_currentMode r /\ rl_perRunData r' = rl_perRunData r.
Proof.
  intros Hr Hrun Hr'. unfold CFRunLoopRunSpecific in Hrun. rewrite Hr in Hrun.
  destruct (rl_deallocating r); [injection Hrun as <- <-; by simplify_eq|].
  destruct (is_empty w rl name); [injection Hrun as <- <-; by simplify_eq|].
  destruct (CFRunLoopRun_ _ _ _ _ _ _ _) as [[w1 c]| | |]; try done. cbn [mbind result_bind] in Hrun.
  injection Hrun as <- <-. rewrite !upd_loop_lookup in Hr'. destruct (w_loops (notify w1 _ _ _) !! rl); [|done].
  cbn in Hr'. by injection Hr' as <-.
Qed.

End Runs.

(** ** The timers a pass fires *)

Section Firing.
Context `{E : Env} `{!EnvLaws E}.

(** The callouts do not touch the run loop. *)
Context (quiet : forall c w, user c w = w).

(** What firing a timer calls. *)
Definition timer_events (tm : timer) (t : Z) : list callout :=
  (if t_retain tm then [CallRetainTimer t] else []) ++ [CallTimer t] ++
  (if (t_interval tm =? 0) && t_release tm then [CallReleaseTimer t] else []) ++
  (if t_retain tm && t_release tm then [CallReleaseTimer t] else []).

(** The operations that unlink a timer change its run loop and its modes only, and
    neither the clock nor the log. *)
Record unlinks (t : Z) (w w' : world) : Prop := {
  ul_clock : w_tsr w' = w_tsr w;
  ul_log : w_log w' = w_log w;
  ul_others : forall x, x <> t -> w_timers w' !! x = w_timers w !! x;
  ul_valid : t_valid <$> w_timers w' !! t = t_valid <$> w_timers w !! t
}.

#[local] Instance unlinks_preorder (t : Z) : PreOrder (unlinks t).
Proof.
  split.
  - intros w. by split.
  - intros w1 w2 w3 [A1 B1 C1 D1] [A2 B2 C2 D2]. split; [congruence..| |congruence].
    intros x Nx. by rewrite C2, C1.
Qed.

Lemma foldl_unlinks {A} (t : Z) (f : world -> A -> world) (l : list A) (w : world) :
  (forall w a, unlinks t w (f w a)) -> unlinks t w (foldl f w l).
Proof. intros Hf. revert w. induction l as [|a l IH]; intros w; cbn; [done|]. by etransitivity; [apply Hf|]. Qed.

Lemma remove_unlinks (w : world) (rl t : Z) (name : string) : unlinks t w (CFRunLoopRemoveTimer w rl t name).
Proof.
  assert (Hm : forall w name, unlinks t w (remove_timer_in_mode w rl t name)).
  { intros w0 n0. unfold remove_timer_in_mode. destruct (_ ≫= m_timers) as [l|]; [|done].
    destruct (CFArrayGetFirstIndexOfValue l t); [|done]. split; cbn; [done|done| |].
    - intros x Nx. by rewrite lookup_alter_ne.
    - rewrite lookup_alter_eq. by destruct (w_timers w0 !! t). }
  unfold CFRunLoopRemoveTimer. case_bool_decide; [|apply Hm]. destruct (in_common_items _ _ _); [|done].
  etransitivity; [|apply foldl_unlinks; intros w0 n0; unfold remove_timer_nested; case_bool_decide; [reflexivity|apply Hm]]. by split.
Qed.

(** Invalidation of a valid timer by the run loop. *)
Lemma invalidate_quiet (w : world) (t : Z) (tm : timer) :
  w_timers w !! t = Some tm -> t_valid tm = true ->
  let w' := CFRunLoopTimerInvalidate w t in
  w_tsr w' = w_tsr w /\ w_log w' = w_log w ++ (if t_release tm then [CallReleaseTimer t] else []) /\
  (forall x, x <> t -> w_timers w' !! x = w_timers w !! x) /\ t_valid <$> w_timers w' !! t = Some false.
Proof.
  intros Et Ev. unfold CFRunLoopTimerInvalidate. rewrite Et, Ev. cbv zeta.
  set (w1 := upd_timer t (set_timer_state false (t_firing tm)) w).
  set (w2 := match t_runLoop tm with Some rl => _ | None => _ end).
  assert (U : unlinks t w1 w2).
  { unfold w2. destruct (t_runLoop tm) as [rl|]; [|done]. etransitivity; [|apply remove_unlinks].
    apply foldl_unlinks. intros. apply remove_unlinks. }
  destruct U as [U1 U2 U3 U4].
  assert (G : w_tsr w2 = w_tsr w /\ w_log w2 = w_log w /\ (forall x, x <> t -> w_timers w2 !! x = w_timers w !! x) /\
    t_valid <$> w_timers w2 !! t = Some false).
  { rewrite U1, U2, U4. split_and!; [done|done| |].
    - intros x Nx. rewrite U3 by done. cbn. by rewrite lookup_alter_ne.
    - cbn. by rewrite lookup_alter_eq, Et. }
  destruct G as (G1 & G2 & G3 & G4). destruct (t_release tm).
  - unfold call. rewrite quiet. cbn. by rewrite G2.
  - by rewrite app_nil_r.
Qed.

(** A timer that a pass may fire: how its next fire time comes about. *)
Definition rearms (tm : timer) : Prop :=
  t_interval tm = 0 \/ 0 < interval_ticks_of (t_interval tm) <= LLONG_MAX.

#[local] Instance quiet_safe : TimerSafe.
Proof. split; intros c w; by rewrite quiet. Qed.

(** The world after the callout and the invalidation, before the release. *)
Lemma fired_quiet (w : world) (rl : Z) (name : string) (t : Z) (tm : timer) :
  w_timers w !! t = Some tm -> t_valid tm = true ->
  let w1 := upd_log (CallTimer t) (arm_next (upd_mode rl name (fun m => set_deadlines UINT64_MAX UINT64_MAX (m_armed m) m)
    (upd_timer t (fun t => set_timer_state (t_valid t) true t) w)) rl name) in
  let w2 := if t_interval tm =? 0 then CFRunLoopTimerInvalidate w1 t else w1 in
  w_tsr w2 = w_tsr w /\
  w_log w2 = w_log w ++ [CallTimer t] ++ (if (t_interval tm =? 0) && t_release tm then [CallReleaseTimer t] else []) /\
  (forall x, x <> t -> w_timers w2 !! x = w_timers w !! x) /\
  (if t_interval tm =? 0 then t_valid <$> w_timers w2 !! t = Some false
   else w_timers w2 !! t = Some (set_timer_state (t_valid tm) true tm)).
Proof.
  intros Et Ev w1.
  assert (E1 : w_timers w1 !! t = Some (set_timer_state (t_valid tm) true tm)) by (cbn; by rewrite lookup_alter_eq, Et).
  assert (O1 : forall x, x <> t -> w_timers w1 !! x = w_timers w !! x) by (intros x Nx; cbn; by rewrite lookup_alter_ne).
  cbv zeta. destruct (t_interval tm =? 0); cbn [andb]; [|by split_and!].
  destruct (invalidate_quiet w1 t _ E1) as (G1 & G2 & G3 & G4); [done|]. split_and!; [done| | |done].
  - rewrite G2. cbn. by rewrite <- app_assoc.
  - intros x Nx. rewrite G3 by done. by apply O1.
Qed.

Lemma fire_timer_quiet (w : world) (rl : Z) (name : string) (t : Z) (tm : timer) :
  w_timers w !! t = Some tm -> t_valid tm = true -> t_firing tm = false ->
  let w' := fire_timer (retain_info w t tm) rl name t tm in
  w_tsr w' = w_tsr w /\ w_log w' = w_log w ++ timer_events tm t /\
  (forall x, x <> t -> w_timers w' !! x = w_timers w !! x) /\
  (if t_interval tm =? 0 then t_valid <$> w_timers w' !! t = Some false else w_timers w' !! t = Some tm).
Proof.
  intros Et Ev Ef. set (w0 := retain_info w t tm).
  assert (R : w_tsr w0 = w_tsr w /\ w_log w0 = w_log w ++ (if t_retain tm then [CallRetainTimer t] else []) /\
    w_timers w0 = w_timers w).
  { unfold w0, retain_info, call. destruct (t_retain tm); [by rewrite quiet|by rewrite app_nil_r]. }
  destruct R as (R1 & R2 & R3). clearbody w0. rewrite <- R3 in Et.
  destruct (fired_quiet w0 rl name t tm Et Ev) as (F1 & F2 & F3 & F4). rewrite R3 in F3.
  unfold fire_timer, timer_events, call. rewrite !quiet. cbv zeta in F1, F2, F3, F4 |- *.
  set (w2 := if t_interval tm =? 0 then _ else _) in *. clearbody w2.
  set (w3 := if t_retain tm && t_release tm then _ else w2).
  assert (L3 : w_tsr w3 = w_tsr w2 /\ w_timers w3 = w_timers w2 /\
    w_log w3 = w_log w2 ++ (if t_retain tm && t_release tm then [CallReleaseTimer t] else [])).
  { unfold w3. destruct (t_retain tm && t_release tm); [done|by rewrite app_nil_r]. }
  destruct L3 as (L1 & L2 & L3). clearbody w3. cbn [w_tsr w_log w_timers upd_timer]. split_and!.
  - by rewrite L1, F1.
  - rewrite L3, F2, R2, <- !app_assoc. done.
  - intros x Nx. rewrite lookup_alter_ne by done. rewrite L2. by apply F3.
  - rewrite lookup_alter_eq, L2. destruct (t_interval tm =? 0).
    + by destruct (w_timers w2 !! t).
    + rewrite F4. cbn. f_equal. destruct tm; cbn in *. by subst.
Qed.

Lemma do_timer_fires (w : world) (rl : Z) (name : string) (t : Z) (tm : timer) :
  timers_ok w -> 0 <= w_tsr w < LLONG_MAX -> w_timers w !! t = Some tm -> 0 <= t_fireTSR tm <= w_tsr w ->
  t_valid tm = true -> t_firing tm = false -> t_runLoop tm = Some rl -> rearms tm ->
  exists w', CFRunLoopDoTimer w rl name t = Ok (w', true) /\ timers_ok w' /\ w_tsr w' = w_tsr w /\
    w_log w' = w_log w ++ timer_events tm t /\ (forall x, x <> t -> w_timers w' !! x = w_timers w !! x) /\
    timer_due w' (w_tsr w) t = false.
Proof.
  intros W Hw Et Hf Ev Ei Er Ht. unfold CFRunLoopDoTimer. rewrite Et, Ev, Ei.
  rewrite (proj2 (Z.leb_le (t_fireTSR tm) (w_tsr w))), bool_decide_true by (done || lia). cbn [andb negb].
  assert (W0 : timers_ok (retain_info w t tm)) by (unfold retain_info; destruct (t_retain tm); [by apply call_ok|done]).
  pose proof (fire_timer_ok _ rl name t tm W0) as W1.
  assert (Hold : fire_of (retain_info w t tm) t = t_fireTSR tm).
  { unfold retain_info, call. destruct (t_retain tm); [rewrite quiet|]; unfold fire_of; cbn; by rewrite Et. }
  rewrite Hold. destruct (fire_timer_quiet w rl name t tm Et Ev Ei) as (C1 & L1 & O1 & T1).
  set (w1 := fire_timer _ rl name t tm) in *. clearbody w1. destruct (Z.eqb_spec (t_interval tm) 0) as [I0|I1].
  - destruct (w_timers w1 !! t) as [tm1|] eqn:E1; [|done]. injection T1 as V1. rewrite V1. exists w1.
    split_and!; try done. unfold timer_due. by rewrite E1, V1.
  - rewrite T1, Ev. unfold reschedule. rewrite Z.ltb_irrefl. destruct Ht as [|Ht]; [done|].
    destruct (next_fire_time_spec w1 (t_fireTSR tm) (t_interval tm)) as [->|]; [lia..| |lia]. cbn [mbind result_bind].
    set (next := if _ <=? _ then _ else _). set (date := _ + _).
    assert (Hn : w_tsr w < next).
    { unfold next. rewrite C1. destruct (_ <=? _); [lia|].
      destruct (first_after_bounds (t_fireTSR tm) (w_tsr w) (interval_ticks_of (t_interval tm))); lia. }
    destruct (set_fire_ok w1 rl t next date tm W1 T1 Er) as (w2 & E2 & W2 & T2 & _).
    rewrite Er, E2. cbn [mbind result_bind]. exists w2. apply reposition_all_rest in E2 as [C2 L2 _ _]. split_and!; try done.
    + by rewrite C2.
    + by rewrite L2.
    + intros x Nx. rewrite T2, lookup_insert_ne by done. by apply O1.
    + unfold timer_due. rewrite T2, lookup_insert_eq. cbn. rewrite (proj2 (Z.leb_gt next (w_tsr w))) by done.
      by rewrite andb_false_r.
Qed.

Lemma bind_ext_in {A B} (f g : A -> list B) (l : list A) : (forall x, x ∈ l -> f x = g x) -> l ≫= f = l ≫= g.
Proof. induction l as [|a l IH]; intros H; cbn; [done|]. rewrite H by left. f_equal. apply IH. intros. apply H. by right. Qed.

(** The timers of a list fire one after the other. *)
Lemma do_timers_fire (l : list Z) (w : world) (rl : Z) (name : string) (handled : bool) :
  timers_ok w -> 0 <= w_tsr w < LLONG_MAX -> NoDup l ->
  Forall (fun t => exists tm, w_timers w !! t = Some tm /\ 0 <= t_fireTSR tm <= w_tsr w /\ t_valid tm = true /\
    t_firing tm = false /\ t_runLoop tm = Some rl /\ rearms tm) l ->
  exists w', do_timers_loop w rl name l handled = Ok (w', handled || bool_decide (l <> [])) /\ timers_ok w' /\
    w_tsr w' = w_tsr w /\
    w_log w' = w_log w ++ (l ≫= fun t => match w_timers w !! t with Some tm => timer_events tm t | None => [] end) /\
    (forall x, if decide (x ∈ l) then timer_due w' (w_tsr w) x = false else w_timers w' !! x = w_timers w !! x).
Proof.
  revert w handled. induction l as [|t l IH]; intros w handled W Hw ND F.
  - exists w. cbn. rewrite orb_false_r, app_nil_r. done.
  - apply NoDup_cons in ND as [Nt ND]. apply Forall_cons in F as [(tm & Et & Hf & Ev & Ei & Er & Ht) F].
    destruct (do_timer_fires w rl name t tm W Hw Et Hf Ev Ei Er Ht) as (w1 & E1 & W1 & C1 & L1 & O1 & D1).
    cbn [do_timers_loop]. rewrite E1. cbn [mbind result_bind].
    destruct (IH w1 (handled || true)) as (w2 & E2 & W2 & C2 & L2 & O2); [done|lia|done| |].
    { rewrite C1. rewrite Forall_forall in F |- *. intros x Hx. rewrite O1 by (by intros ->). by apply F. }
    rewrite E2. exists w2. split_and!; [by destruct handled|done|lia| |].
    + rewrite L2, L1, <- app_assoc, bind_cons, Et. do 2 f_equal. apply bind_ext_in. intros x Hx.
      rewrite O1; [done|]. by intros ->.
    + intros x. specialize (O2 x). rewrite C1 in O2. destruct (decide (x = t)) as [->|Nx].
      * rewrite decide_True by left. rewrite decide_False in O2 by done. unfold timer_due in D1 |- *. by rewrite O2.
      * rewrite (O1 x Nx) in O2. destruct (decide (x ∈ l)), (decide (x ∈ t :: l)); set_solver.
Qed.

(** C2. When the callouts leave the run loop alone, the clock is below LLONG_MAX, fire times are not
    negative and a repeating interval is between 1 and LLONG_MAX ticks, __CFRunLoopDoTimers fires
    exactly the due timers of the mode, once each and in the order of their fire times (a one-shot timer
    is then invalidated and released), keeps the timer invariant, and afterwards no timer of the mode is
    due. *)
Theorem do_timers_fires_all_due (w : world) (rl : Z) (name : string) :
  timers_ok w -> 0 <= w_tsr w < LLONG_MAX ->
  (forall t tm, w_timers w !! t = Some tm -> 0 <= t_fireTSR tm /\ rearms tm) ->
  let due := filter (fun t => timer_due w (w_tsr w) t = true) (timers_in w rl name) in
  StronglySorted (fun a b => fire_of w a <= fire_of w b) due /\
  exists w', CFRunLoopDoTimers w rl name (w_tsr w) = Ok (w', bool_decide (due <> [])) /\ timers_ok w' /\
    w_log w' = w_log w ++ (due ≫= fun t => match w_timers w !! t with Some tm => timer_events tm t | None => [] end) /\
    (forall t, t ∈ timers_in w rl name -> timer_due w' (w_tsr w') t = false).
Proof.
  intros W Hw Hgood due. split.
  { pose proof (tk_sorted w W rl name) as S. unfold due. induction S as [|a l S IH F]; [constructor|].
    rewrite filter_cons. case_decide; [|done]. constructor; [done|]. apply Forall_forall. intros x Hx.
    apply list_elem_of_filter in Hx as [_ Hx]. rewrite Forall_forall in F. by apply F. }
  destruct (do_timers_fire due w rl name false W Hw) as (w' & Ew & W' & C' & L' & O').
  - apply NoDup_filter, (tk_nodup w W).
  - apply Forall_forall. intros t Ht. apply list_elem_of_filter in Ht as [Hd Ht].
    apply (tk_member w W) in Ht as (tm & Et & Er & _). exists tm. unfold timer_due in Hd. rewrite Et in Hd.
    apply andb_prop in Hd as [[Ev Ei%negb_true_iff]%andb_prop Hl%Z.leb_le]. destruct (Hgood t tm Et). done.
  - exists w'. unfold CFRunLoopDoTimers. split_and!; [done..|]. intros t Ht. rewrite C'. specialize (O' t).
    case_decide as Hd; [done|]. destruct (timer_due w' (w_tsr w) t) eqn:Ed; [|done]. exfalso. apply Hd.
    apply list_elem_of_filter. split; [|done]. unfold timer_due in Ed |- *. by rewrite <- O'.
Qed.

End Firing.

(** ** A concrete run *)

Section Sample.
#[local] Existing Instance sample_env.
#[local] Existing Instance sample_env_laws.

#[local] Existing Instance sample_kernel.

Lemma sample_quiet (c : callout) (w : world) : user c w = w.
Proof. done. Qed.

(** A poll of the default mode, and the run loop as it leaves it. *)
Definition sample_polled : world :=
  match CFRunLoopRunSpecific 1 1 sample_sources 1 kCFRunLoopDefaultMode 0 true with Ok (w, _) => w | _ => sample_sources end.

Definition sample_loop (w : world) : CFRunLoop :=
  match w_loops w !! 1 with Some r => r | None => mkLoop 0 (mkPerRun false false) ∅ None None ∅ [] false false false end.

Lemma run_specific_witness :
  rl_currentMode (sample_loop sample_polled) = rl_currentMode (sample_loop sample_sources) /\
  rl_perRunData (sample_loop sample_polled) = rl_perRunData (sample_loop sample_sources).
Proof.
  apply (run_specific_restores 1 1 sample_sources sample_polled 1 _ _ kCFRunLoopDefaultMode 0 true kCFRunLoopRunHandledSource);
    by vm_compute.
Defined.

Lemma do_timers_witness :
  let due := filter (fun t => timer_due sample_world (w_tsr sample_world) t = true)
               (timers_in sample_world 1 kCFRunLoopDefaultMode) in
  StronglySorted (fun a b => fire_of sample_world a <= fire_of sample_world b) due /\
  exists w', CFRunLoopDoTimers sample_world 1 kCFRunLoopDefaultMode (w_tsr sample_world) =
      Ok (w', bool_decide (due <> [])) /\ timers_ok w' /\
    w_log w' = w_log sample_world ++
      (due ≫= fun t => match w_timers sample_world !! t with Some tm => timer_events tm t | None => [] end) /\
    (forall t, t ∈ timers_in sample_world 1 kCFRunLoopDefaultMode -> timer_due w' (w_tsr w') t = false).
Proof.
  apply (do_timers_fires_all_due sample_quiet sample_world); [exact sample_world_ok|vm_compute; split; [discriminate|reflexivity]|].
  assert (F : map_Forall (fun _ tm => 0 <= t_fireTSR tm /\ (t_interval tm = 0 \/ t_interval tm = 4)) (w_timers sample_world))
    by (apply (bool_decide_unpack _); by vm_compute).
  intros t tm Et. destruct (F t tm Et) as [F1 [F2|F2]]; (split; [exact F1|]); [left; exact F2|right].
  rewrite F2. vm_compute. split; [reflexivity|discriminate].
Defined.

End Sample.

End RunLoopService.
